(* ===== verification/_CoqProject ===== *)
-Q . S2P
Prelude.v
Bits.v
Bytes.v
Hash.v
Csum.v
Crc32c.v
DList.v
Hmap.v
Hindex.v
Ofpbuf.v
Packets.v
PacketsFacts.v
PacketsProps.v
Flow.v
FlowFacts.v
FlowProps.v
FlowCompose.v
FlowRoundtrip.v
Miniflow.v
MiniflowFacts.v
MiniflowProps.v
MatchSet.v
MetaFlow.v
MatchFacts.v
MetaProps.v
Tag.v
Trie.v
TrieFacts.v
TrieProps.v
Classifier.v
ClsFacts.v
ClsRep.v
ClsLookup.v
ClsTables.v
ClsRules.v
ClsParts.v
ClsUpdate.v
ClsRemove.v
ClsInit.v
ClsHistory.v
ClsProps.v
Sfa.v
SfaTables.v
SfaWire.v
SfaMatch.v
SfaXlate.v
SfaProps.v
Instructions.v
InstructionsProps.v
TokenBucket.v
Reconnect.v
Heap.v
Byteq.v
StrMap.v
MacLearning.v
Stp.v
StpFacts.v
StpInv.v
StpNet.v
StpProps.v
