(* ===== verification/Prelude.v ===== *)
(** * SDPA: a verification development for the stateful Open vSwitch

    The program is Open vSwitch 2.1.2 with the SDPA extension: a "stateful
    forwarding abstraction" (SFA) that lets a controller install, per
    application, a status table, a status transition table and an action table,
    and a pipeline stage that runs packets through them.  Paths below are
    relative to [sdpa-software/sdpa-ovs/].

    ** Parts of the program and files of the development

    The SFA extension, the program's own logic:
    - [Sfa]: [ofproto/sfa.h] and [ofproto/sfa.c].  The data ([CONTROLLAPP] and
      its three tables, the global [g_apps]), the layout of the message
      structures on i686 and x86-64, and the whole handlers [sfa_msg_init],
      [sfa_msg_st_mod], [sfa_msg_at_mod] and [sfa_handle_pkt] as functions from
      a state and the bytes of a message to a result and a state.
    - [SfaTables]: the invariant of [g_apps] and its preservation by every
      handler; the only faults of a handler are accesses outside an object.
    - [SfaWire]: encoders for the message format documented in [sfa.h], and what
      the handlers make of encoded messages.
    - [SfaMatch]: [parse_match], [get_event_param] and [get_event] of
      [ofproto/ofproto-dpif-xlate.c], and the strings [parse_match] builds.
    - [SfaXlate]: [execute_fp_actions], [xlate_fp] and the [OFPACT_GOTO_FP] case
      of [do_xlate_actions]; the abstract state machine [fp_spec], and the
      refinement lemmas; the step relation [sfa_step] of messages and packets.
    - [SfaProps]: the properties of the extension, with a firewall application
      as the running example.

    - [Instructions], [InstructionsProps]: how [lib/ofp-actions.c] reads and writes
      the instructions of a flow, with the [GOTO_FP] instruction that leads to
      this stage.  The conversion of the actions inside an instruction is the
      type class [ActionCodec]; its laws are [ActionCodecLaws], with a codec of
      the output action as the instance.

    Switch functions beside it:
    - [MacLearning]: [lib/mac-learning.c] and the functions of
      [ofproto/ofproto-dpif-xlate.c] that learn from packets.  Entries live in a
      hash map and on a list in order of use at the same time; [ml_rep] relates
      both to one sequence of entries.
    - [Reconnect]: the connection state machine of [lib/reconnect.c].
    - [TokenBucket]: the rate limiter of [lib/token-bucket.c] with the
      saturating arithmetic of [lib/sat-math.h].
    - [Stp]: the spanning tree protocol of [lib/stp.c]: a bridge is a record with
      its ports in an array, the frames it sends are a log, and each function of
      the file is a function on the record.  A bridge is created from zeroed memory,
      so that its ports change their state when they are initialized.  [StpFacts]: what each operation
      leaves alone, the election and the selection of port states.  [StpInv]:
      the events of a client, the invariant of the reachable states.  [StpNet]:
      networks of bridges.  [StpProps]: the properties, with a triangle of three
      bridges as the running example.

    Packets and flows, the data path's view of traffic:
    - [Ofpbuf]: the packet buffers of [lib/ofpbuf.c], a block of memory with an
      address, an extent in use and the header pointers.
    - [Packets]: [lib/packets.c]: VLAN tags, MPLS label stacks and the rewriting
      of IPv4, IPv6, TCP, UDP and SCTP headers.  [PacketsFacts]: checksums over
      regions of a packet.  [PacketsProps]: the properties.
    - [Csum], [Crc32c]: [lib/csum.c] and [lib/crc32c.c].
    - [Flow]: [struct flow], [flow_extract] and [flow_compose] of [lib/flow.c].
      [FlowFacts]: the fields at their offsets and the loops over extension
      headers.  [FlowProps]: extraction from arbitrary bytes, and after a
      rewriting.  [FlowCompose], [FlowRoundtrip]: the bytes of a composed packet
      and what extraction makes of them.
    - [Miniflow]: flows as arrays of words, masks, and the compressed flows, masks
      and matches of [lib/flow.c] and [lib/match.c].  [MiniflowFacts]: what a
      compressed flow stands for ([mf_rep]) and every operation under it.
      [MiniflowProps]: the properties.
    - [Trie], [TrieFacts], [TrieProps]: the prefix tries of [lib/classifier.c]; a
      trie as a collection of bit strings, and the properties.
    - [MatchSet]: the setters of [lib/match.c] and of the VLAN and MPLS fields in
      [lib/flow.c].  [MetaFlow]: the match fields of [lib/meta-flow.c].
      [MatchFacts]: clearing the wildcarded bits of a structure, field by field,
      is clearing the bits of its words.  [MetaProps]: the properties of the fields.
    - [Classifier]: the flow classifier of [lib/classifier.c], with its subtables,
      partitions, tries and staged indexes in one state.  The proofs: [ClsFacts]
      (words under masks), [ClsRep] (what a state stands for: [cls_rep]),
      [ClsLookup], [ClsTables], [ClsRules], [ClsParts] (the parts of the
      operations), [ClsUpdate], [ClsRemove], [ClsInit] (the operations under
      [cls_rep]) and [ClsHistory] (a classifier as a table of rules: [stands],
      [cls_built]).  [ClsProps]: the properties.

    The library they are built on:
    - [Bits]: the bit operations of [lib/util.h] and [lib/util.c].
    - [Bytes]: loads from byte sequences, byte order ([lib/byte-order.h]),
      buffers with uninitialized bytes, [memcpy] and C strings.
    - [Hash]: [lib/hash.h], [lib/hash.c].
    - [DList]: the circular lists of [lib/list.c] in an explicit memory, every
      load and store in its order.
    - [Hmap]: the hash map of [lib/hmap.h] and [lib/hmap.c], with its resizing.
    - [Hindex]: the hash index of [lib/hindex.c], which keeps nodes with the same
      hash together.  [Tag]: the tags of [lib/tag.c].
    - [Heap]: [lib/heap.c].  [Byteq]: [lib/byteq.c].
    - [StrMap]: [lib/shash.c], [lib/simap.c], [lib/sset.c] over [Hmap].

    ** Conventions

    Machine integers are [Z] with the wrap-around written out ([u32], [s32]).
    Code that can fail returns [Res]: [Ok] or a [Fault], which stands for
    undefined behaviour (access outside an object, null pointer, use of an
    indeterminate value, division by zero) or a failed [ovs_assert].  State is
    passed explicitly; objects that several structures share have an address
    ([node_addr], [addr]) and stores through pointers are stores at that
    address.  Allocation takes a fresh address as an argument or from a counter
    in the state.  Time is an argument of the functions that read the clock.

    Loops over linked structures take a fuel that bounds the number of nodes
    visited: the length of the chain, of the table or of the list.  The lemmas
    about them ([list_walk_links], [walk_with_hash_spec], [hmap_for_each_spec],
    [expire_while_rep], the heap lemmas) show that this fuel is enough, so
    results are those of the unbounded loops.  Decimal output has a fuel of 20,
    the number of digits of a 64-bit value.

    ** What the theorems show

    - Packets through the SFA (C1, C2): the
      pipeline stage implements the abstract state machine as long as no two
      keys collide under the hash; collisions exist and let one host act on the
      status of another (the lemma [hosts_collide]).
    - SFA messages (C3 to C8): documented messages have the documented effect
      on i686 for creation and status changes; action updates and deletions are
      refused; arbitrary bytes keep the invariant or fault with an access
      outside an object; configuration is immutable after creation.
    - Flow instructions (C9 to C11): what a flow with [GOTO_FP] may
      contain, that decoding is safe for arbitrary bytes, and the round trip.
    - Match strings ([parse_match_concat]): what [parse_match] builds.
    - Flows (C12 to C14): extraction is total and safe on
      arbitrary bytes, composing and extracting is the identity on what a packet
      can carry, and rewriting a packet changes its flow as intended.
    - Packets (C27 to C29): header rewriting keeps checksums right, tags and labels
      can be removed again, and buffers are sequences of bytes.
    - Compressed flows (C15 to C17): they
      stand for flows and masks exactly, a match and the flows it matches have the
      same hash, and hashing in stages gives the hash over the whole mask.
    - Prefix tries (C18, C19): they hold exactly the prefixes inserted and not
      removed, and a lookup finds the longest one with the bits that decide it.
    - The classifier (C20 to C24): it is a table of rules.  A lookup finds the
      matching rule of highest priority and leaves wildcards under which the answer
      may be cached; insertion, replacement and removal change the table by one
      rule; stages, partitions, tries and the order of the subtables change only
      how much work a lookup does and how much it un-wildcards.
    - Match fields (C25, C26): a value written to a field of a flow or a match is
      read back, and a match on a field is met by exactly the flows whose field
      has the value.
    - MAC learning (C37, C38): least-recently-used replacement, what a
      packet teaches the table, and, as the lemma [update_check_agrees], that the
      check of the first critical section and the update of the second agree.
    - Reconnection (C39, C40): the invariant of all reachable states and exact
      timeouts.
    - Lemmas of the same standing that are not in the manifest: rate bounds of the
      token bucket ([token_bucket_rate_limit]), string maps as finite maps
      ([shash_refines_map]), the hash index ([Hindex]), heap order ([Heap]),
      positions of 1-bits ([word_bits_ok]) and the CRC as division of
      polynomials ([crc32c_is_castagnoli]).
    - Spanning tree (C30 to C36): settled networks form a spanning tree, the
      invariant and the roles of ports in every reachable state, the delays
      before forwarding, messages between bridges, changed ports
      and the ranges of the timers.

    ** Hypotheses

    The refinement theorems of the SFA assume that the keys involved do not
    collide ([hash_inj_on]), that bitmaps name fields [parse_match] can print
    ([renders]) and that the fields of a packet are in their machine ranges
    ([flow_ok]); the message theorems that the header has eight bytes and that
    strings contain no null byte ([key_ok]).  The spanning tree theorem assumes a
    [stable] network: identifiers differ, costs do not overflow, and what
    designated ports announce has been recorded at the other end; the roles
    theorem excludes one change of priority ([role_safe]).  Each is instantiated
    by a witness.

    The packet theorems assume a packet that is in its buffer ([holds]), the
    geometry of its headers ([ipv4_geom]) and blocks below the size at which the
    checksum loop would overflow ([CSUM_MAX]); the round trip of a flow that the
    buffer has room ([roomy]) and the flow is one the code can compose
    ([composable]).

    The classifier theorems speak of the classifiers that its operations make
    ([cls_built]), of rules in memory that hold the match they are listed with
    ([rule_stored]) and of fewer than 2^31 rules; removal assumes that the fields
    of the tries have at most three words ([short_fields]), without which
    [trie_remove] writes behind an array.  Flows have the ranges of their C types
    ([flow_typed]).
    The theorem on prefix tries is for prefixes of 1 to 127 bits, for the same
    reason.  The round trip of instructions is for the flows that a version of
    OpenFlow can encode ([insts_wf]), with [GOTO_FP] only alone or beside
    goto-table; the matching theorem of the fields for flows whose ICMP and
    fragment members are in their domains ([carries]).

    ** Not modelled

    Console and log output, locking (apart from the gap between the two critical
    sections of [update_learning_table]), release of memory other than the
    removal of objects from their structures, and the poll loop, whose requests
    are results.  The rest of Open vSwitch (flow tables, OpenFlow encoding,
    datapaths, databases, protocol modules, daemons) is listed in the
    manifest with the reason; the Java controller and the Verilog data path are
    in other languages.

    ** Plan

    Next come the flow tables of [ofproto/ofproto.c], clients of the classifier,
    the other protocol modules (LACP, CFM, BFD), and the OpenFlow action codec,
    which would connect the controller's flow table to the packet stage. *)

From Stdlib Require Import ZArith Lia List.
From stdpp Require Import base list option.
#[local] Open Scope Z_scope.

(** ** Machine integers

    Machine integers are represented by [Z], kept in range by the wrap-around
    functions below.  The target is the one recorded by the repository's
    [config.log]: i686-pc-linux-gnu, little-endian, 32-bit [size_t] and
    pointers. *)

Definition u8 (x : Z) : Z := x mod 2 ^ 8.
Definition u16 (x : Z) : Z := x mod 2 ^ 16.
Definition u32 (x : Z) : Z := x mod 2 ^ 32.
Definition u64 (x : Z) : Z := x mod 2 ^ 64.

(** Conversion of an unsigned 32-bit value to [int] (two's complement). *)
Definition s32 (x : Z) : Z :=
  let y := u32 x in if y <? 2 ^ 31 then y else y - 2 ^ 32.

Definition UINT32_MAX : Z := 2 ^ 32 - 1.
Definition SIZE_MAX : Z := 2 ^ 32 - 1.
Definition INT_MAX : Z := 2 ^ 31 - 1.
Definition UINT_MAX : Z := 2 ^ 32 - 1.
Definition LLONG_MAX : Z := 2 ^ 63 - 1.
Definition LLONG_MIN : Z := - 2 ^ 63.

Definition in_u8 (x : Z) : Prop := 0 <= x < 2 ^ 8.
Definition in_u16 (x : Z) : Prop := 0 <= x < 2 ^ 16.
Definition in_u32 (x : Z) : Prop := 0 <= x < 2 ^ 32.
Definition in_u64 (x : Z) : Prop := 0 <= x < 2 ^ 64.

(** ** Targets

    What depends on the machine: the alignment of [uint64_t] inside a structure
    is 4 on i686, the 32-bit host, and 8 on x86-64, the 64-bit host. *)
Record abi := Mk_abi { u64_align : nat }.
Definition i686 : abi := Mk_abi 4.
Definition x86_64 : abi := Mk_abi 8.

Definition align_up (off a : nat) : nat := ((off + a - 1) / a * a)%nat.

(** ** Faults and the fault monad

    A C expression whose behaviour the language leaves undefined, or a failed
    [ovs_assert], is a [Fault]. *)

Inductive fault : Type :=
  | OutOfBounds      (* access outside an object *)
  | NullDeref        (* dereference of a null pointer *)
  | UninitRead       (* use of an indeterminate value *)
  | DivByZero        (* integer division by zero *)
  | UseAfterFree     (* access through a pointer to a freed object *)
  | OutOfFuel        (* a loop that goes on beyond the bound the model gives it *)
  | AssertFail.      (* [ovs_assert] or [OVS_NOT_REACHED] *)

Inductive Res (A : Type) : Type :=
  | Ok (a : A)
  | Fault (f : fault).
Arguments Ok {A} a.
Arguments Fault {A} f.

Definition rbind {A B} (c : Res A) (k : A -> Res B) : Res B :=
  match c with Ok a => k a | Fault f => Fault f end.

Definition rmap {A B} (g : A -> B) (c : Res A) : Res B :=
  rbind c (fun a => Ok (g a)).

Definition ovs_assert (b : bool) : Res unit :=
  if b then Ok tt else Fault AssertFail.

Declare Scope res_scope.
Delimit Scope res_scope with res.
Notation "'let*' x ':=' c 'in' k" := (rbind c (fun x => k))
  (at level 10, x pattern, c at level 100, k at level 200) : res_scope.
Notation "c ;;* k" := (rbind c (fun _ => k))
  (at level 199, right associativity) : res_scope.

Definition is_ok {A} (c : Res A) : bool :=
  match c with Ok _ => true | Fault _ => false end.

#[global] Instance fault_eq_dec : EqDecision fault.
Proof. solve_decision. Defined.

Lemma rbind_Ok {A B} (c : Res A) (k : A -> Res B) b :
  rbind c k = Ok b <-> exists a, c = Ok a /\ k a = Ok b.
Proof.
  destruct c as [a|f]; simpl; split.
  - eauto.
  - intros (a' & [= ->] & ?). done.
  - done.
  - by intros (? & ? & _).
Qed.

Lemma rbind_assoc {A B C} (c : Res A) (k : A -> Res B) (g : B -> Res C) :
  rbind (rbind c k) g = rbind c (fun a => rbind (k a) g).
Proof. by destruct c. Qed.

(** [within F P c]: the computation [c] returns a value that satisfies [P] or
    faults with one of the faults [F]; with [F] empty it says that [c] returns. *)
Definition within {A} (F : fault -> Prop) (P : A -> Prop) (c : Res A) : Prop :=
  match c with Ok a => P a | Fault f => F f end.

Lemma within_bind {A B} F (Q : A -> Prop) (P : B -> Prop) c k :
  within F Q c -> (forall a, Q a -> within F P (k a)) -> within F P (rbind c k).
Proof. destruct c; simpl; auto. Qed.

Lemma within_mono {A} F (Q P : A -> Prop) c :
  within F Q c -> (forall a, Q a -> P a) -> within F P c.
Proof. destruct c; simpl; auto. Qed.

Lemma within_none {A} (P : A -> Prop) c :
  within (fun _ => False) P c <-> exists a, c = Ok a /\ P a.
Proof.
  destruct c as [a|f]; simpl; split; try done; eauto.
  - by intros (a' & [= <-] & ?).
  - by intros (? & ? & _).
Qed.

(** Step over a bind with the specification [L] of its first computation. *)
Ltac wstep L := eapply within_bind; [eapply L; eauto with sdpa|].

(** Decompose every hypothesis that says a bind succeeded. *)
Ltac inv_res :=
  repeat match goal with
  | H : rbind _ _ = Ok _ |- _ =>
      let a := fresh "r" in let Ha := fresh "Hr" in
      apply rbind_Ok in H; destruct H as (a & Ha & H)
  | H : Ok _ = Ok _ |- _ => injection H as H; subst
  | H : Fault _ = Ok _ |- _ => discriminate H
  | H : (_, _) = (_, _) |- _ => injection H as H; subst
  end.

(** Split on the boolean tests of the goal, turning them into propositions. *)
Ltac case_bool :=
  match goal with
  | |- context [?x =? ?y] => destruct (Z.eqb_spec x y)
  | |- context [?x <? ?y] => destruct (Z.ltb_spec x y)
  | |- context [?x <=? ?y] => destruct (Z.leb_spec x y)
  end.

Ltac case_bool_in H :=
  match type of H with
  | context [?x =? ?y] => destruct (Z.eqb_spec x y)
  | context [?x <? ?y] => destruct (Z.ltb_spec x y)
  | context [?x <=? ?y] => destruct (Z.leb_spec x y)
  end.

(** Linear arithmetic with division and remainder by constants. *)
Ltac zdm := Z.div_mod_to_equations; lia.

Create HintDb sdpa.

(** ** Lemmas on machine integers *)

Lemma u8_range x : in_u8 (u8 x).
Proof. apply Z.mod_pos_bound. lia. Qed.
Lemma u16_range x : in_u16 (u16 x).
Proof. apply Z.mod_pos_bound. lia. Qed.
Lemma u32_range x : in_u32 (u32 x).
Proof. apply Z.mod_pos_bound. lia. Qed.
Lemma u64_range x : in_u64 (u64 x).
Proof. apply Z.mod_pos_bound. lia. Qed.

Lemma u32_id x : in_u32 x -> u32 x = x.
Proof. intros H. apply Z.mod_small. exact H. Qed.
Lemma u64_id x : in_u64 x -> u64 x = x.
Proof. intros H. apply Z.mod_small. exact H. Qed.

Lemma s32_small x : 0 <= x < 2 ^ 31 -> s32 x = x.
Proof.
  intros H. unfold s32. rewrite u32_id by (unfold in_u32; lia).
  case_bool; lia.
Qed.

#[export] Hint Resolve u8_range u16_range u32_range u64_range : sdpa.
#[export] Hint Extern 3 (_ <= _) => lia : sdpa.

(** Bitwise operators keep values inside a power-of-two range. *)
Lemma bits_range_iff (k x : Z) : 0 <= k ->
  (0 <= x < 2 ^ k <-> 0 <= x /\ forall i, k <= i -> Z.testbit x i = false).
Proof.
  intros Hk. split.
  - intros [H0 H1]. split; [done|]. intros i Hi.
    destruct (Z.eq_dec x 0) as [->|Hx]; [apply Z.bits_0|].
    apply Z.bits_above_log2; [done|].
    apply Z.log2_lt_pow2; [lia|].
    apply Z.lt_le_trans with (2 ^ k); [done|].
    apply Z.pow_le_mono_r; lia.
  - intros [H0 H1]. split; [done|].
    destruct (Z.eq_dec x 0) as [->|Hx]; [apply Z.pow_pos_nonneg; lia|].
    apply Z.log2_lt_pow2; [lia|].
    destruct (Z.lt_ge_cases (Z.log2 x) k) as [?|Hge]; [done|].
    specialize (H1 _ Hge). rewrite Z.bit_log2 in H1; [done|lia].
Qed.

Lemma lxor_range k x y : 0 <= k ->
  0 <= x < 2 ^ k -> 0 <= y < 2 ^ k -> 0 <= Z.lxor x y < 2 ^ k.
Proof.
  intros Hk Hx Hy. apply bits_range_iff in Hx, Hy; try done.
  apply bits_range_iff; [done|]. split; [apply Z.lxor_nonneg; tauto|].
  intros i Hi. rewrite Z.lxor_spec.
  by rewrite (proj2 Hx), (proj2 Hy).
Qed.

Lemma lor_range k x y : 0 <= k ->
  0 <= x < 2 ^ k -> 0 <= y < 2 ^ k -> 0 <= Z.lor x y < 2 ^ k.
Proof.
  intros Hk Hx Hy. apply bits_range_iff in Hx, Hy; try done.
  apply bits_range_iff; [done|]. split; [apply Z.lor_nonneg; tauto|].
  intros i Hi. rewrite Z.lor_spec.
  by rewrite (proj2 Hx), (proj2 Hy).
Qed.

Lemma land_range_r x y k : 0 <= k -> 0 <= y < 2 ^ k -> 0 <= Z.land x y < 2 ^ k.
Proof.
  intros Hk Hy. apply bits_range_iff in Hy; [|done].
  apply bits_range_iff; [done|]. split; [apply Z.land_nonneg; tauto|].
  intros i Hi. rewrite Z.land_spec.
  rewrite (proj2 Hy) by done. apply andb_false_r.
Qed.

Lemma land_le_r x y : 0 <= y -> 0 <= Z.land x y <= y.
Proof.
  intros Hy. split; [apply Z.land_nonneg; tauto|].
  assert (Z.ldiff (Z.land x y) y = 0) as Hd.
  { apply Z.bits_inj. intros i. rewrite Z.ldiff_spec, Z.land_spec, Z.bits_0.
    by destruct (Z.testbit x i), (Z.testbit y i). }
  apply Z.ldiff_le in Hd; lia.
Qed.

(** The mask of a power-of-two sized table selects the residue. *)
Lemma land_mask x k : 0 <= k -> Z.land x (2 ^ k - 1) = x mod 2 ^ k.
Proof.
  intros Hk. rewrite <- Z.land_ones by done.
  by rewrite Z.ones_equiv, <- Z.sub_1_r.
Qed.

(** [IS_POW2], [is_pow2] of [lib/util.h], on 64-bit values. *)
Definition is_pow2 (x : Z) : bool :=
  negb (x =? 0) && (Z.land x (u64 (x - 1)) =? 0).

Lemma is_pow2_pow2 k : 0 <= k < 64 -> is_pow2 (2 ^ k) = true.
Proof.
  intros Hk. unfold is_pow2. assert (0 < 2 ^ k) by (apply Z.pow_pos_nonneg; lia).
  assert (2 ^ k < 2 ^ 64) by (apply Z.pow_lt_mono_r; lia).
  rewrite u64_id by (unfold in_u64; lia). rewrite land_mask by lia.
  rewrite Z.mod_same by lia. case_bool; [lia|done].
Qed.
