(* ===== verification/Bits.v ===== *)
(** * Bit operations on words ([lib/util.h], [lib/util.c])

    Trailing and leading zeros, the number of 1-bits and the rightmost 1-bit of
    a 64-bit word, in the portable versions of the code: by binary search, by a
    table of bytes (32-bit hosts) and by adding up fields in place (64-bit
    hosts).  [one_bits] is the reference: the positions of the 1-bits in
    ascending order.  [for_each_1bit] is the loop over the 1-bits of a map that
    the compressed flows are built on. *)

From Stdlib Require Import ZArith Lia List Bool.
From stdpp Require Import base option list_relations list.
From S2P Require Import Prelude.
#[local] Open Scope Z_scope.
#[local] Open Scope res_scope.

(** ** The program *)

(** [CTZ_STEP]: [k = n << X; if (k) { count -= X; n = k; }] *)
Definition CTZ_STEP (X : Z) (s : Z * Z) : Z * Z :=
  let '(n, count) := s in
  let k := u64 (Z.shiftl n X) in
  if k =? 0 then (n, count) else (k, count - X).

Definition raw_ctz (n : Z) : Z :=
  let s := (n, 63) in
  let s := CTZ_STEP 32 s in
  let s := CTZ_STEP 16 s in
  let s := CTZ_STEP 8 s in
  let s := CTZ_STEP 4 s in
  let s := CTZ_STEP 2 s in
  let s := CTZ_STEP 1 s in
  snd s.

Definition CLZ_STEP (X : Z) (s : Z * Z) : Z * Z :=
  let '(n, count) := s in
  let k := Z.shiftr n X in
  if k =? 0 then (n, count) else (k, count - X).

Definition raw_clz64 (n : Z) : Z :=
  let s := (n, 63) in
  let s := CLZ_STEP 32 s in
  let s := CLZ_STEP 16 s in
  let s := CLZ_STEP 8 s in
  let s := CLZ_STEP 4 s in
  let s := CLZ_STEP 2 s in
  let s := CLZ_STEP 1 s in
  snd s.

Definition ctz32 (n : Z) : Z := if n =? 0 then 32 else raw_ctz n.
Definition ctz64 (n : Z) : Z := if n =? 0 then 64 else raw_ctz n.
Definition clz32 (n : Z) : Z := if n =? 0 then 32 else raw_clz64 n - 32.
Definition clz64 (n : Z) : Z := if n =? 0 then 64 else raw_clz64 n.

Definition log_2_floor (n : Z) : Z := 63 - raw_clz64 n.
Definition log_2_ceil (n : Z) : Z := log_2_floor n + (if is_pow2 n then 0 else 1).

(** The table of [util.c], made by its macros. *)
Definition INIT1 (X : Z) : Z :=
  foldr (fun k acc => (if Z.land X (Z.shiftl 1 k) =? 0 then 0 else 1) + acc) 0 [0; 1; 2; 3; 4; 5; 6; 7].
Definition INIT2 (X : Z) : list Z := [INIT1 X; INIT1 (X + 1)].
Definition INIT4 (X : Z) : list Z := INIT2 X ++ INIT2 (X + 2).
Definition INIT8 (X : Z) : list Z := INIT4 X ++ INIT4 (X + 4).
Definition INIT16 (X : Z) : list Z := INIT8 X ++ INIT8 (X + 8).
Definition INIT32 (X : Z) : list Z := INIT16 X ++ INIT16 (X + 16).
Definition INIT64 (X : Z) : list Z := INIT32 X ++ INIT32 (X + 32).
Definition count_1bits_8 : list Z := INIT64 0 ++ INIT64 64 ++ INIT64 128 ++ INIT64 192.

Definition count_1bits_32__ (x : Z) : Z :=
  nth (Z.to_nat (Z.land x 0xff)) count_1bits_8 0
  + nth (Z.to_nat (Z.land (Z.shiftr x 8) 0xff)) count_1bits_8 0
  + nth (Z.to_nat (Z.land (Z.shiftr x 16) 0xff)) count_1bits_8 0
  + nth (Z.to_nat (Z.shiftr x 24)) count_1bits_8 0.

(** [count_1bits] of a 32-bit host. *)
Definition count_1bits_by_table (x : Z) : Z :=
  count_1bits_32__ (u32 x) + count_1bits_32__ (u32 (Z.shiftr x 32)).

(** [count_1bits] of a 64-bit host. *)
Definition count_1bits_in_place (x : Z) : Z :=
  let h55 := 0x5555555555555555 in
  let h33 := 0x3333333333333333 in
  let h0F := 0x0F0F0F0F0F0F0F0F in
  let h01 := 0x0101010101010101 in
  let x := u64 (x - Z.land (Z.shiftr x 1) h55) in
  let x := u64 (Z.land x h33 + Z.land (Z.shiftr x 2) h33) in
  let x := Z.land (u64 (x + Z.shiftr x 4)) h0F in
  Z.shiftr (u64 (x * h01)) 56.

Definition count_1bits (target : abi) (x : Z) : Z :=
  if (u64_align target =? 8)%nat then count_1bits_in_place x else count_1bits_by_table x.

Definition rightmost_1bit (x : Z) : Z := Z.land x (u64 (- x)).
Definition zero_rightmost_1bit (x : Z) : Z := Z.land x (u64 (x - 1)).

(** [for (; map; map = zero_rightmost_1bit(map)) body].  The body sees the rest
    of the map; [inr] is a return from inside the loop. *)
Fixpoint for_each_1bit {S R} (fuel : nat) (map : Z) (body : Z -> S -> Res (S + R)) (s : S)
    {struct fuel} : Res (S + R) :=
  if map =? 0 then Ok (inl s)
  else match fuel with
       | O => Fault OutOfFuel
       | Datatypes.S n =>
           let* r := body map s in
           match r with
           | inl s => for_each_1bit n (zero_rightmost_1bit map) body s
           | inr r => Ok (inr r)
           end
       end.

(** A loop without a return inside. *)
Definition for_map {S} (map : Z) (body : Z -> S -> Res S) (s : S) : Res S :=
  let* r := for_each_1bit (R := Empty_set) 64 map (fun m s => rmap inl (body m s)) s in
  match r with inl s => Ok s | inr e => match e with end end.

(** ** Trailing and leading zeros *)

(** [n] ends in exactly [t] zeros. *)
Definition ends_in (n t : Z) : Prop := exists q, 0 <= t /\ 0 <= q /\ n = 2 ^ t * (2 * q + 1).

Lemma ends_in_exists n : 0 < n -> exists t, ends_in n t.
Proof.
  intros H0. assert (0 <= n) as Hn by lia. revert n Hn H0.
  apply (Z_lt_induction (fun n => 0 < n -> exists t, ends_in n t)).
  intros n IH Hn. destruct (Z.Even_or_Odd n) as [[k Hk]|[k Hk]].
  - destruct (IH k) as (t & q & Ht & Hq & He); [lia | lia |].
    exists (t + 1), q. split; [lia|]. split; [done|]. rewrite Hk, He.
    rewrite Z.pow_add_r by lia. ring.
  - exists 0, k. lia.
Qed.

Lemma ends_in_bits n t : ends_in n t ->
  Z.testbit n t = true /\ forall i, 0 <= i < t -> Z.testbit n i = false.
Proof.
  intros (q & Ht & Hq & ->). split.
  - rewrite Z.mul_comm, Z.mul_pow2_bits by lia. rewrite Z.sub_diag. apply Z.testbit_odd_0.
  - intros i Hi. rewrite Z.mul_comm. apply Z.mul_pow2_bits_low. lia.
Qed.

Lemma ends_in_unique n t t' : ends_in n t -> ends_in n t' -> t = t'.
Proof.
  intros H H'. destruct (ends_in_bits _ _ H) as [A B], (ends_in_bits _ _ H') as [A' B'].
  destruct H as (?&?&_), H' as (?&?&_).
  destruct (Z.lt_trichotomy t t') as [?|[?|?]]; [|done|].
  - rewrite (B' t) in A by lia. done.
  - rewrite (B t') in A' by lia. done.
Qed.

Lemma ends_in_shift n t x : ends_in n t -> 0 <= x -> t + x < 64 -> ends_in (u64 (Z.shiftl n x)) (t + x).
Proof.
  intros (q & Ht & Hq & ->) Hx Hs. unfold u64. rewrite Z.shiftl_mul_pow2 by lia.
  replace (2 ^ t * (2 * q + 1) * 2 ^ x) with (2 ^ (t + x) * (2 * q + 1))
    by (rewrite Z.pow_add_r by lia; ring).
  exists (q mod 2 ^ (63 - (t + x))). pose proof (Z.mod_pos_bound q (2 ^ (63 - (t + x))) ltac:(lia)).
  split; [lia|]. split; [lia|].
  replace (2 ^ 64) with (2 ^ (t + x) * (2 * 2 ^ (63 - (t + x)))).
  2:{ rewrite Z.mul_assoc, (Z.mul_comm _ 2), <- Z.mul_assoc, <- Z.pow_add_r by lia.
      replace (t + x + (63 - (t + x))) with 63 by lia. done. }
  rewrite Zmult_mod_distr_l. f_equal.
  symmetry. apply (Zmod_unique _ _ (q / 2 ^ (63 - (t + x)))); [lia|].
  pose proof (Z.div_mod q (2 ^ (63 - (t + x))) ltac:(lia)). lia.
Qed.

Lemma ends_in_shift_out n t x : ends_in n t -> 64 <= t + x -> 0 <= x -> u64 (Z.shiftl n x) = 0.
Proof.
  intros (q & Ht & Hq & ->) Hs Hx. unfold u64. rewrite Z.shiftl_mul_pow2 by lia.
  replace (2 ^ t * (2 * q + 1) * 2 ^ x) with ((2 * q + 1) * 2 ^ (t + x - 64) * 2 ^ 64).
  - apply Z.mod_mul. done.
  - rewrite <- Z.mul_assoc, <- Z.pow_add_r by lia. replace (t + x - 64 + 64) with (t + x) by lia.
    rewrite Z.pow_add_r by lia. ring.
Qed.

Lemma ends_in_lt n t : ends_in n t -> in_u64 n -> t < 64.
Proof.
  intros (q & Ht & Hq & ->) H. destruct (Z.lt_ge_cases t 64); [done|].
  assert (2 ^ 64 <= 2 ^ t) by (apply Z.pow_le_mono_r; lia). unfold in_u64 in H. nia.
Qed.

Lemma ends_in_pos n t : ends_in n t -> 0 < n.
Proof. intros (q & Ht & Hq & ->). assert (0 < 2 ^ t) by lia. nia. Qed.

(** One step of the search: the zeros of [n] and the count add up to the same
    number, and the zeros are at least [64 - X]. *)
Lemma CTZ_STEP_ok X n count t : ends_in n t -> in_u64 n -> 0 < X -> 64 - 2 * X <= t ->
  exists n' count' t', CTZ_STEP X (n, count) = (n', count') /\ ends_in n' t' /\ in_u64 n' /\
    64 - X <= t' /\ t' + count' = t + count.
Proof.
  intros Hn Hu HX Ht. unfold CTZ_STEP.
  destruct (Z.lt_ge_cases (t + X) 64) as [Hlt|Hge].
  - pose proof (ends_in_shift n t X Hn ltac:(lia) Hlt) as Hk.
    pose proof (ends_in_pos _ _ Hk). rewrite (proj2 (Z.eqb_neq _ _)) by lia.
    exists (u64 (Z.shiftl n X)), (count - X), (t + X). split; [done|]. split; [done|]. split; [apply u64_range | lia].
  - rewrite (ends_in_shift_out n t X Hn Hge) by lia. rewrite Z.eqb_refl.
    exists n, count, t. split; [done|]. split; [done|]. split; [done | lia].
Qed.

Lemma raw_ctz_ok n t : ends_in n t -> in_u64 n -> raw_ctz n = t.
Proof.
  intros Hn Hu. destruct (Hn) as (q & H0 & _). unfold raw_ctz.
  destruct (CTZ_STEP_ok 32 n 63 t Hn Hu) as (n1 & c1 & t1 & -> & E1 & U1 & L1 & S1); [lia..|].
  destruct (CTZ_STEP_ok 16 n1 c1 t1 E1 U1) as (n2 & c2 & t2 & -> & E2 & U2 & L2 & S2); [lia..|].
  destruct (CTZ_STEP_ok 8 n2 c2 t2 E2 U2) as (n3 & c3 & t3 & -> & E3 & U3 & L3 & S3); [lia..|].
  destruct (CTZ_STEP_ok 4 n3 c3 t3 E3 U3) as (n4 & c4 & t4 & -> & E4 & U4 & L4 & S4); [lia..|].
  destruct (CTZ_STEP_ok 2 n4 c4 t4 E4 U4) as (n5 & c5 & t5 & -> & E5 & U5 & L5 & S5); [lia..|].
  destruct (CTZ_STEP_ok 1 n5 c5 t5 E5 U5) as (n6 & c6 & t6 & -> & E6 & U6 & L6 & S6); [lia..|].
  pose proof (ends_in_lt _ _ E6 U6). simpl. lia.
Qed.

Lemma CLZ_STEP_ok X n count : 0 < n < 2 ^ (2 * X) -> 0 < X ->
  exists n' count', CLZ_STEP X (n, count) = (n', count') /\ 0 < n' < 2 ^ X /\
    count' - Z.log2 n' = count - Z.log2 n.
Proof.
  intros Hn HX. unfold CLZ_STEP. rewrite Z.shiftr_div_pow2 by lia.
  assert (2 ^ (2 * X) = 2 ^ X * 2 ^ X) as Hp by (rewrite <- Z.pow_add_r by lia; f_equal; lia).
  destruct (Z.eqb_spec (n / 2 ^ X) 0) as [Hz|Hz].
  - exists n, count. split; [done|]. split; [|lia].
    split; [lia|]. apply Z.div_small_iff in Hz; lia.
  - exists (n / 2 ^ X), (count - X). split; [done|].
    assert (0 < n / 2 ^ X) by (pose proof (Z.div_pos n (2 ^ X)); lia).
    split; [split; [done|]; apply Z.div_lt_upper_bound; lia|].
    rewrite <- Z.shiftr_div_pow2, Z.log2_shiftr by lia.
    pose proof (Z.log2_nonneg n).
    assert (X <= Z.log2 n).
    { apply Z.log2_le_pow2; [lia|]. destruct (Z.lt_ge_cases n (2 ^ X)); [|done].
      rewrite Z.div_small in Hz by lia. done. }
    lia.
Qed.

Lemma raw_clz64_ok n : 0 < n < 2 ^ 64 -> raw_clz64 n = 63 - Z.log2 n.
Proof.
  intros Hn. unfold raw_clz64.
  destruct (CLZ_STEP_ok 32 n 63) as (n1 & c1 & -> & U1 & S1); [exact Hn | lia |].
  destruct (CLZ_STEP_ok 16 n1 c1) as (n2 & c2 & -> & U2 & S2); [exact U1 | lia |].
  destruct (CLZ_STEP_ok 8 n2 c2) as (n3 & c3 & -> & U3 & S3); [exact U2 | lia |].
  destruct (CLZ_STEP_ok 4 n3 c3) as (n4 & c4 & -> & U4 & S4); [exact U3 | lia |].
  destruct (CLZ_STEP_ok 2 n4 c4) as (n5 & c5 & -> & U5 & S5); [exact U4 | lia |].
  destruct (CLZ_STEP_ok 1 n5 c5) as (n6 & c6 & -> & U6 & S6); [exact U5 | lia |].
  assert (n6 = 1) as -> by lia. simpl in S6 |- *. lia.
Qed.

(** ** The 1-bits of a word *)

Definition one_bits_from (k w : nat) (n : Z) : list nat :=
  filter (fun i => Z.testbit n (Z.of_nat i) = true) (seq k w).
Definition one_bits (n : Z) : list nat := one_bits_from 0 64 n.

Lemma elem_of_one_bits n i : i ∈ one_bits n <-> Z.testbit n (Z.of_nat i) = true /\ (i < 64)%nat.
Proof. unfold one_bits, one_bits_from. rewrite list_elem_of_filter, elem_of_seq. naive_solver lia. Qed.

Lemma one_bits_0 : one_bits 0 = [].
Proof. reflexivity. Qed.

Lemma one_bits_nodup n : NoDup (one_bits n).
Proof. apply NoDup_filter, NoDup_seq. Qed.

(** Two filters of the same sequence that agree on it. *)
Lemma one_bits_from_ext k w n m :
  (forall i, (k <= i < k + w)%nat -> Z.testbit n (Z.of_nat i) = Z.testbit m (Z.of_nat i)) ->
  one_bits_from k w n = one_bits_from k w m.
Proof.
  intros H. unfold one_bits_from.
  revert k H. induction w as [|w IH]; intros k H; [done|]. cbn [seq].
  rewrite !filter_cons, (H k) by lia.
  rewrite (IH (S k)) by (intros i Hi; apply H; lia). done.
Qed.

Lemma one_bits_split k w n j : (j <= w)%nat ->
  one_bits_from k w n = one_bits_from k j n ++ one_bits_from (k + j) (w - j) n.
Proof.
  intros Hj. unfold one_bits_from. rewrite <- filter_app, <- seq_app. f_equal. f_equal. lia.
Qed.

Lemma one_bits_none k w n : (forall i, (k <= i < k + w)%nat -> Z.testbit n (Z.of_nat i) = false) ->
  one_bits_from k w n = [].
Proof.
  intros H. rewrite (one_bits_from_ext k w n 0).
  - revert k H. induction w as [|w IH]; intros k H; [done|]. unfold one_bits_from in *. cbn [seq].
    rewrite filter_cons, Z.testbit_0_l, decide_False by done. apply IH. intros i Hi. apply H. lia.
  - intros i Hi. rewrite (H i Hi), Z.testbit_0_l. done.
Qed.

(** A word as a high part and [k] low bits. *)
Lemma testbit_split k a x i : 0 <= k -> 0 <= i -> 0 <= x < 2 ^ k ->
  Z.testbit (2 ^ k * a + x) i = if i <? k then Z.testbit x i else Z.testbit a (i - k).
Proof.
  intros Hk Hi Hx. destruct (Z.ltb_spec i k) as [Hlt|Hge].
  - rewrite <- (Z.mod_pow2_bits_low (2 ^ k * a + x) k i) by lia.
    rewrite Z.add_comm, (Z.mul_comm (2 ^ k)), Z.mod_add, Z.mod_small by lia. done.
  - replace i with (i - k + k) at 1 by lia. rewrite <- Z.div_pow2_bits by lia.
    rewrite Z.add_comm, (Z.mul_comm (2 ^ k)), Z.div_add, Z.div_small by lia. done.
Qed.

Lemma land_split k a b x y : 0 <= k -> 0 <= x < 2 ^ k -> 0 <= y < 2 ^ k ->
  Z.land (2 ^ k * a + x) (2 ^ k * b + y) = 2 ^ k * Z.land a b + Z.land x y.
Proof.
  intros Hk Hx Hy. apply Z.bits_inj'. intros i Hi.
  rewrite Z.land_spec, !testbit_split; try done; [|apply land_range_r; done].
  destruct (i <? k); rewrite Z.land_spec; done.
Qed.

Lemma zero_rightmost_split t q : 0 <= t -> 0 <= q -> 2 ^ t * (2 * q + 1) < 2 ^ 64 ->
  zero_rightmost_1bit (2 ^ t * (2 * q + 1)) = 2 ^ (t + 1) * q.
Proof.
  intros Ht Hq Hu. unfold zero_rightmost_1bit, u64.
  assert (0 < 2 ^ t) by lia. rewrite Z.mod_small by nia.
  assert (2 ^ (t + 1) = 2 * 2 ^ t) as Hp by (rewrite Z.pow_add_r; lia).
  replace (2 ^ t * (2 * q + 1)) with (2 ^ (t + 1) * q + 2 ^ t) by nia.
  replace (2 ^ (t + 1) * q + 2 ^ t - 1) with (2 ^ (t + 1) * q + (2 ^ t - 1)) by lia.
  rewrite land_split, Z.land_diag, land_mask, Z.mod_same; lia.
Qed.

Lemma rightmost_split t q : 0 <= t -> 0 <= q -> 2 ^ t * (2 * q + 1) < 2 ^ 64 ->
  rightmost_1bit (2 ^ t * (2 * q + 1)) = 2 ^ t.
Proof.
  intros Ht Hq Hu. unfold rightmost_1bit, u64. assert (0 < 2 ^ t) by lia.
  assert (t < 64) as Ht64.
  { apply (ends_in_lt (2 ^ t * (2 * q + 1))); [exists q; done | split; nia]. }
  assert (2 ^ (t + 1) = 2 * 2 ^ t) as Hp by (rewrite Z.pow_add_r; lia).
  assert (2 ^ 64 = 2 ^ (t + 1) * 2 ^ (63 - t)) as H64.
  { rewrite <- Z.pow_add_r by lia. f_equal. lia. }
  assert (q < 2 ^ (63 - t)) as Hq' by nia.
  rewrite Z.mod_opp_l_nz, Z.mod_small by (rewrite ?Z.mod_small; nia).
  replace (2 ^ t * (2 * q + 1)) with (2 ^ (t + 1) * q + 2 ^ t) by nia.
  replace (2 ^ 64 - (2 ^ (t + 1) * q + 2 ^ t))
    with (2 ^ (t + 1) * (2 ^ (63 - t) - 1 - q) + 2 ^ t) by nia.
  rewrite land_split, Z.land_diag by lia.
  replace (Z.land q (2 ^ (63 - t) - 1 - q)) with 0; [lia|].
  symmetry. apply Z.bits_inj'. intros i Hi. rewrite Z.testbit_0_l, Z.land_spec.
  replace (2 ^ (63 - t) - 1 - q) with (Z.lnot q mod 2 ^ (63 - t)).
  - destruct (Z.lt_ge_cases i (63 - t)) as [Hlt|Hge].
    + rewrite Z.mod_pow2_bits_low by lia. rewrite Z.lnot_spec by done. destruct (Z.testbit q i); done.
    + rewrite Z.mod_pow2_bits_high by lia. apply andb_false_r.
  - unfold Z.lnot. rewrite <- Z.sub_1_r. symmetry. apply (Z.mod_unique _ _ (-1)); [|lia].
    left. lia.
Qed.

(** The loop step: the first 1-bit goes, the others stay. *)
Lemma one_bits_step n : 0 < n < 2 ^ 64 ->
  let t := raw_ctz n in
  one_bits n = Z.to_nat t :: one_bits (zero_rightmost_1bit n) /\
  rightmost_1bit n = 2 ^ t /\ 0 <= t < 64 /\ Z.testbit n t = true /\
  0 <= zero_rightmost_1bit n < n.
Proof.
  intros Hn. destruct (ends_in_exists n) as [t Ht]; [lia|]. cbv zeta.
  assert (in_u64 n) as Hu by (unfold in_u64; lia).
  rewrite (raw_ctz_ok n t Ht Hu). pose proof (ends_in_lt _ _ Ht Hu) as H64.
  destruct (ends_in_bits _ _ Ht) as [Hb Hlow]. destruct Ht as (q & H0 & Hq & ->).
  rewrite rightmost_split, zero_rightmost_split by lia.
  assert (2 ^ (t + 1) = 2 * 2 ^ t) as Hp by (rewrite Z.pow_add_r; lia).
  assert (0 < 2 ^ t) by lia.
  split; [|split; [done | split; [lia | split; [done | nia]]]].
  set (n := 2 ^ t * (2 * q + 1)) in *. set (m := 2 ^ (t + 1) * q).
  assert (forall i, t < i -> Z.testbit m i = Z.testbit n i) as Hhigh.
  { intros i Hi. unfold m, n. replace (2 ^ t * (2 * q + 1)) with (2 ^ (t + 1) * q + 2 ^ t) by nia.
    rewrite testbit_split by lia. rewrite (proj2 (Z.ltb_ge _ _)) by lia.
    rewrite Z.mul_comm, Z.mul_pow2_bits by lia. done. }
  assert (forall i, i <= t -> Z.testbit m i = false) as Hmlow.
  { intros i Hi. unfold m. rewrite Z.mul_comm. apply Z.mul_pow2_bits_low. lia. }
  unfold one_bits. rewrite (one_bits_split 0 64 n (Z.to_nat t)), (one_bits_split 0 64 m (S (Z.to_nat t))) by lia.
  rewrite (one_bits_none 0 (Z.to_nat t) n), (one_bits_none 0 (S (Z.to_nat t)) m).
  2:{ intros i Hi. apply Hmlow. lia. } 2:{ intros i Hi. apply Hlow. lia. }
  cbn [app]. replace (64 - Z.to_nat t)%nat with (S (64 - S (Z.to_nat t))) by lia.
  unfold one_bits_from at 1. cbn [seq]. rewrite filter_cons, decide_True.
  2:{ rewrite Nat.add_0_l, Z2Nat.id by lia. done. }
  rewrite Nat.add_0_l. f_equal. apply one_bits_from_ext. intros i Hi. symmetry. apply Hhigh. lia.
Qed.

(** ** The loop over the 1-bits *)

Fixpoint for_bits {S R} (bits : list nat) (f : nat -> S -> Res (S + R)) (s : S) : Res (S + R) :=
  match bits with
  | [] => Ok (inl s)
  | i :: bits =>
      let* r := f i s in
      match r with inl s => for_bits bits f s | inr r => Ok (inr r) end
  end.

(** With a fuel of 64 the loop is the recursion over the positions. *)
Lemma for_each_1bit_bits {S R} fuel map (body : Z -> S -> Res (S + R)) f s :
  in_u64 map -> (length (one_bits map) <= fuel)%nat ->
  (forall m s, 0 < m < 2 ^ 64 -> body m s = f (Z.to_nat (raw_ctz m)) s) ->
  for_each_1bit fuel map body s = for_bits (one_bits map) f s.
Proof.
  intros Hu Hf Hb. revert map Hu Hf s. induction fuel as [|fuel IH]; intros map Hu Hf s;
    cbn [for_each_1bit]; destruct (Z.eqb_spec map 0) as [->|Hz]; try done.
  - destruct (one_bits_step map) as (E & _); [unfold in_u64 in Hu; lia|]. rewrite E in Hf. cbn [length] in Hf. lia.
  - assert (0 < map < 2 ^ 64) as Hm by (unfold in_u64 in Hu; lia).
    destruct (one_bits_step map Hm) as (E & _ & _ & _ & Hlt). rewrite E in Hf |- *. cbn [length] in Hf.
    cbn [for_bits]. rewrite Hb by done. destruct (f _ s) as [[s'|r]|]; cbn [rbind]; [|done|done].
    apply IH; [unfold in_u64; lia | lia].
Qed.

Fixpoint fold_bits {S} (bits : list nat) (f : nat -> S -> Res S) (s : S) : Res S :=
  match bits with
  | [] => Ok s
  | i :: bits => let* s := f i s in fold_bits bits f s
  end.

(** The positions are below 64 and are what the code computes of the map. *)
Definition first_bit (m : Z) (i : nat) : Prop :=
  raw_ctz m = Z.of_nat i /\ rightmost_1bit m = 2 ^ Z.of_nat i /\ (i < 64)%nat.

Lemma first_bit_ctz m : 0 < m < 2 ^ 64 -> first_bit m (Z.to_nat (raw_ctz m)).
Proof.
  intros Hm. destruct (one_bits_step m Hm) as (_ & E & H & _). unfold first_bit.
  rewrite Z2Nat.id by lia. split; [done|]. split; [done | lia].
Qed.

Lemma one_bits_length n : (length (one_bits n) <= 64)%nat.
Proof.
  unfold one_bits, one_bits_from. pose proof (length_filter (fun i => Z.testbit n (Z.of_nat i) = true) (seq 0 64)).
  rewrite length_seq in *. done.
Qed.

Lemma for_each_bits {S R} map (body : Z -> S -> Res (S + R)) f s : in_u64 map ->
  (forall m i s, first_bit m i -> body m s = f i s) ->
  for_each_1bit 64 map body s = for_bits (one_bits map) f s.
Proof.
  intros Hu Hb. apply for_each_1bit_bits; [done | apply one_bits_length |].
  intros m s' Hm. apply Hb, first_bit_ctz, Hm.
Qed.

Lemma for_map_bits {S} map (body : Z -> S -> Res S) f s : in_u64 map ->
  (forall m i s, first_bit m i -> body m s = f i s) ->
  for_map map body s = fold_bits (one_bits map) f s.
Proof.
  intros Hu Hb. unfold for_map.
  rewrite (for_each_bits map _ (fun i s => rmap inl (f i s))) by (done || (intros; rewrite (Hb m i) by done; done)).
  revert s. induction (one_bits map) as [|i bits IH]; intros s; [done|]. cbn [for_bits fold_bits].
  destruct (f i s) as [s'|e]; cbn [rmap rbind]; [apply IH | done].
Qed.

(** Loops whose state is a function [st] of the positions passed. *)
Lemma fold_bits_st {S} (st : list nat -> S) f bits :
  (forall pre i post, bits = pre ++ i :: post -> f i (st pre) = Ok (st (pre ++ [i]))) ->
  fold_bits bits f (st []) = Ok (st bits).
Proof.
  intros H. assert (forall post pre, bits = pre ++ post -> fold_bits post f (st pre) = Ok (st bits)) as G.
  { induction post as [|i post IH]; intros pre E; cbn [fold_bits]; [rewrite E, app_nil_r; done|].
    rewrite (H pre i post E). cbn [rbind]. apply IH. rewrite <- app_assoc. done. }
  apply (G bits []). done.
Qed.

Lemma for_bits_st {S R} (st : list nat -> S) (good : nat -> bool) (r : R) f bits :
  (forall pre i post, bits = pre ++ i :: post ->
     f i (st pre) = Ok (if good i then inl (st (pre ++ [i])) else inr r)) ->
  for_bits bits f (st []) = Ok (if forallb good bits then inl (st bits) else inr r).
Proof.
  intros H. assert (forall post pre, bits = pre ++ post ->
    for_bits post f (st pre) = Ok (if forallb good post then inl (st bits) else inr r)) as G.
  { induction post as [|i post IH]; intros pre E; cbn [for_bits forallb]; [rewrite E, app_nil_r; done|].
    rewrite (H pre i post E). cbn [rbind]. destruct (good i); [|done].
    apply IH. rewrite <- app_assoc. done. }
  apply (G bits []). done.
Qed.

(** ** The number of 1-bits *)

Definition popcount (w : nat) (n : Z) : nat := length (one_bits_from 0 w n).

Lemma one_bits_from_shift k w n : length (one_bits_from k w n) = popcount w (Z.shiftr n (Z.of_nat k)).
Proof.
  unfold popcount, one_bits_from. rewrite <- (Nat.add_0_r k) at 1. generalize 0%nat as j.
  induction w as [|w IH]; intros j; [done|]. cbn [seq]. rewrite !filter_cons.
  rewrite Z.shiftr_spec by lia. replace (Z.of_nat j + Z.of_nat k) with (Z.of_nat (k + j)) by lia.
  specialize (IH (S j)). rewrite Nat.add_succ_r in IH.
  destruct (decide _); cbn [length]; rewrite IH; done.
Qed.

Lemma popcount_split j w n : (j <= w)%nat ->
  popcount w n = (popcount j n + popcount (w - j) (Z.shiftr n (Z.of_nat j)))%nat.
Proof.
  intros Hj. unfold popcount at 1. rewrite (one_bits_split 0 w n j), length_app by done.
  rewrite Nat.add_0_l, (one_bits_from_shift j). done.
Qed.

Lemma popcount_mod w k n : k = Z.of_nat w -> popcount w (n mod 2 ^ k) = popcount w n.
Proof.
  intros ->. unfold popcount. f_equal. apply one_bits_from_ext. intros i Hi.
  rewrite Z.mod_pow2_bits_low by lia. done.
Qed.

(** Bytes of a word, the first one the least significant. *)
Fixpoint bytes_le (n : nat) (x : Z) : list Z :=
  match n with O => [] | S n => x mod 2 ^ 8 :: bytes_le n (x / 2 ^ 8) end.
Fixpoint bytes_val (ds : list Z) : Z :=
  match ds with [] => 0 | d :: ds => d + 2 ^ 8 * bytes_val ds end.

Lemma bytes_val_le n x : 0 <= x < 2 ^ (8 * Z.of_nat n) -> bytes_val (bytes_le n x) = x.
Proof.
  revert x. induction n as [|n IH]; intros x Hx; cbn [bytes_le bytes_val]; [cbn in Hx; lia|].
  rewrite IH.
  - pose proof (Z.div_mod x (2 ^ 8)). lia.
  - split; [apply Z.div_pos; lia|]. apply Z.div_lt_upper_bound; [lia|].
    rewrite <- Z.pow_add_r by lia. replace (8 + 8 * Z.of_nat n) with (8 * Z.of_nat (S n)) by lia. lia.
Qed.

Lemma bytes_le_u8 n x : Forall in_u8 (bytes_le n x).
Proof.
  revert x; induction n as [|n IH]; intros x; constructor; [apply Z.mod_pos_bound; lia | apply IH].
Qed.

Lemma popcount_bytes n x : (popcount (8 * n) x = sum_list_with (popcount 8) (bytes_le n x))%nat.
Proof.
  revert x; induction n as [|n IH]; intros x; [done|].
  rewrite (popcount_split 8 (8 * S n) x) by lia. cbn [bytes_le sum_list_with].
  rewrite <- IH, (popcount_mod 8 8 x) by done.
  rewrite Z.shiftr_div_pow2 by lia. f_equal. f_equal. lia.
Qed.

Lemma table_popcount : Forall (fun b => nth (Z.to_nat b) count_1bits_8 0 = Z.of_nat (popcount 8 b)) (seqZ 0 256).
Proof. apply Forall_forall. intros b Hb. revert b Hb. apply Forall_forall.
  apply (bool_decide_unpack _). vm_compute. exact I. Qed.

Lemma table_byte b : in_u8 b -> nth (Z.to_nat b) count_1bits_8 0 = Z.of_nat (popcount 8 b).
Proof.
  intros Hb. pose proof (proj1 (Forall_forall _ _) table_popcount b) as H. apply H, elem_of_seqZ.
  unfold in_u8 in Hb. lia.
Qed.

Lemma count_1bits_32_ok x : in_u32 x -> count_1bits_32__ x = Z.of_nat (popcount 32 x).
Proof.
  intros Hx. unfold count_1bits_32__.
  change 0xff with (2 ^ 8 - 1). rewrite !land_mask, !Z.shiftr_div_pow2 by lia.
  rewrite !table_byte by (apply Z.mod_pos_bound; lia).
  rewrite (table_byte (x / 2 ^ 24)).
  2:{ unfold in_u8, in_u32 in *. split; [apply Z.div_pos; lia | apply Z.div_lt_upper_bound; lia]. }
  change 32%nat with (8 * 4)%nat. rewrite popcount_bytes. cbn [bytes_le sum_list_with].
  rewrite !(popcount_mod 8 8) by done. rewrite !Z.div_div by lia.
  change (2 ^ 8 * 2 ^ 8) with (2 ^ 16). change (2 ^ 16 * 2 ^ 8) with (2 ^ 24). lia.
Qed.

Lemma count_1bits_by_table_ok x : in_u64 x -> count_1bits_by_table x = Z.of_nat (length (one_bits x)).
Proof.
  intros Hx. unfold count_1bits_by_table. rewrite !count_1bits_32_ok by apply u32_range.
  unfold u32. rewrite !(popcount_mod 32 32) by done.
  change (length (one_bits x)) with (popcount 64 x). rewrite (popcount_split 32 64 x) by lia.
  replace (Z.of_nat 32) with 32 by lia. change (64 - 32)%nat with 32%nat. lia.
Qed.

(** *** The count in place

    Each step works on the bytes of the word separately. *)

Fixpoint repeat_byte (n : nat) (m : Z) : Z :=
  match n with O => 0 | S n => m + 2 ^ 8 * repeat_byte n m end.

Lemma land_low x m k : 0 <= k -> 0 <= m < 2 ^ k -> Z.land x m = Z.land (x mod 2 ^ k) m.
Proof.
  intros Hk Hm. apply Z.bits_inj'. intros i Hi. rewrite !Z.land_spec.
  destruct (Z.lt_ge_cases i k).
  - rewrite Z.mod_pow2_bits_low by lia. done.
  - rewrite <- (Z.mod_small m (2 ^ k)), Z.mod_pow2_bits_high by lia. rewrite !andb_false_r. done.
Qed.

(** A shift by less than a byte brings bits of the next byte in at the top,
    where the mask has none. *)
Lemma shift_land_bytes s m d r M : 0 <= s <= 8 -> 0 <= m < 2 ^ (8 - s) -> in_u8 d -> 0 <= r ->
  Z.land (Z.shiftr (d + 2 ^ 8 * r) s) (m + 2 ^ 8 * M) = Z.land (Z.shiftr d s) m + 2 ^ 8 * Z.land (Z.shiftr r s) M.
Proof.
  intros Hs Hm Hd Hr. unfold in_u8 in Hd. rewrite !Z.shiftr_div_pow2 by lia.
  assert (2 ^ 8 = 2 ^ (8 - s) * 2 ^ s) as Hp by (rewrite <- Z.pow_add_r by lia; f_equal; lia).
  assert (0 < 2 ^ s) by lia. assert (0 < 2 ^ (8 - s)) by lia.
  assert ((d + 2 ^ 8 * r) / 2 ^ s = d / 2 ^ s + 2 ^ (8 - s) * r) as E.
  { rewrite Hp. replace (d + 2 ^ (8 - s) * 2 ^ s * r) with (d + 2 ^ (8 - s) * r * 2 ^ s) by ring.
    rewrite Z.div_add by lia. done. }
  rewrite E. pose proof (Z.div_mod r (2 ^ s) ltac:(lia)) as Er.
  pose proof (Z.mod_pos_bound r (2 ^ s) ltac:(lia)).
  assert (0 <= d / 2 ^ s < 2 ^ (8 - s)) by (split; [apply Z.div_pos; lia | apply Z.div_lt_upper_bound; nia]).
  replace (d / 2 ^ s + 2 ^ (8 - s) * r)
    with (2 ^ 8 * (r / 2 ^ s) + (d / 2 ^ s + 2 ^ (8 - s) * (r mod 2 ^ s))) by nia.
  replace (m + 2 ^ 8 * M) with (2 ^ 8 * M + m) by lia.
  assert (2 ^ (8 - s) <= 2 ^ 8) by (apply Z.pow_le_mono_r; lia).
  rewrite land_split by nia. rewrite (land_low _ m (8 - s)) by lia.
  rewrite (Z.mul_comm (2 ^ (8 - s))), Z.mod_add, Z.mod_small by lia. lia.
Qed.

Definition pairs (d : Z) : Z := d - Z.land (Z.shiftr d 1) 0x55.
Definition nibbles (d : Z) : Z := Z.land d 0x33 + Z.land (Z.shiftr d 2) 0x33.
Definition octet (d : Z) : Z := Z.land (d + Z.shiftr d 4) 0x0F.

Lemma bytes_val_nonneg ds : Forall in_u8 ds -> 0 <= bytes_val ds.
Proof. induction 1 as [|d ds Hd _ IH]; cbn [bytes_val]; [lia|]. unfold in_u8 in Hd. lia. Qed.

Lemma pairs_bytes ds : Forall in_u8 ds ->
  bytes_val ds - Z.land (Z.shiftr (bytes_val ds) 1) (repeat_byte (length ds) 0x55) = bytes_val (map pairs ds).
Proof.
  induction 1 as [|d ds Hd Hds IH]; [done|]. cbn [bytes_val repeat_byte length map].
  rewrite shift_land_bytes by (try done; try lia; apply bytes_val_nonneg, Hds).
  rewrite <- IH. unfold pairs. lia.
Qed.

Lemma land_bytes m d r M : in_u8 m -> in_u8 d -> 0 <= r ->
  Z.land (d + 2 ^ 8 * r) (m + 2 ^ 8 * M) = Z.land d m + 2 ^ 8 * Z.land r M.
Proof.
  intros Hm Hd Hr. rewrite <- (Z.shiftr_0_r (d + _)), (shift_land_bytes 0), !Z.shiftr_0_r by (done || lia).
  done.
Qed.

Lemma nibbles_bytes ds : Forall in_u8 ds ->
  Z.land (bytes_val ds) (repeat_byte (length ds) 0x33)
  + Z.land (Z.shiftr (bytes_val ds) 2) (repeat_byte (length ds) 0x33) = bytes_val (map nibbles ds).
Proof.
  induction 1 as [|d ds Hd Hds IH]; [done|]. cbn [bytes_val repeat_byte length map].
  rewrite shift_land_bytes by (try done; try lia; apply bytes_val_nonneg, Hds).
  rewrite land_bytes by (try done; apply bytes_val_nonneg, Hds).
  rewrite <- IH. unfold nibbles. lia.
Qed.

(** Nibbles that hold at most 4 do not carry when they are added. *)
Definition small (d : Z) : Prop := 0 <= d /\ d mod 2 ^ 4 <= 4 /\ d / 2 ^ 4 <= 4.

Lemma small_val ds : Forall small ds -> bytes_val ds mod 2 ^ 4 <= 4 /\ 0 <= bytes_val ds.
Proof.
  induction 1 as [|e es He Hes IH]; cbn [bytes_val]; [done|].
  split; [|destruct He; lia]. replace (e + 2 ^ 8 * bytes_val es) with (e + 2 ^ 4 * bytes_val es * 2 ^ 4) by lia.
  rewrite Z.mod_add by lia. apply He.
Qed.

Lemma octet_bytes ds : Forall small ds ->
  Z.land (bytes_val ds + Z.shiftr (bytes_val ds) 4) (repeat_byte (length ds) 0x0F) = bytes_val (map octet ds).
Proof.
  induction 1 as [|d ds Hd Hds IH]; [done|]. cbn [bytes_val repeat_byte length map].
  rewrite <- IH. set (v := bytes_val ds).
  assert (v mod 2 ^ 4 <= 4 /\ 0 <= v) as [Hv Hv0].
  { apply small_val, Hds. }
  destruct Hd as (Hd0 & Hd1 & Hd2).
  pose proof (Z.div_mod d (2 ^ 4) ltac:(lia)). pose proof (Z.div_mod v (2 ^ 4) ltac:(lia)).
  pose proof (Z.mod_pos_bound d (2 ^ 4) ltac:(lia)). pose proof (Z.mod_pos_bound v (2 ^ 4) ltac:(lia)).
  assert (Z.shiftr (d + 2 ^ 8 * v) 4 = d / 2 ^ 4 + 2 ^ 4 * v) as ->.
  { rewrite Z.shiftr_div_pow2 by lia. replace (d + 2 ^ 8 * v) with (d + 2 ^ 4 * v * 2 ^ 4) by lia.
    rewrite Z.div_add by lia. done. }
  unfold octet. rewrite !Z.shiftr_div_pow2 by lia.
  replace (d + 2 ^ 8 * v + (d / 2 ^ 4 + 2 ^ 4 * v))
    with ((d + d / 2 ^ 4 + 2 ^ 4 * (v mod 2 ^ 4)) + 2 ^ 8 * (v + v / 2 ^ 4)) by lia.
  assert (0 <= v / 2 ^ 4) by (apply Z.div_pos; lia).
  rewrite land_bytes by (unfold in_u8; lia). f_equal.
  rewrite (land_low (d + d / 2 ^ 4 + _) 15 4), (land_low (d + d / 2 ^ 4) 15 4) by lia.
  rewrite (Z.mul_comm (2 ^ 4) (v mod 2 ^ 4)), Z.mod_add by lia. done.
Qed.

(** What the three steps make of a byte, for all 256 of them. *)
Lemma byte_steps : Forall (fun d => in_u8 (pairs d) /\ small (nibbles (pairs d)) /\ in_u8 (nibbles (pairs d)) /\
  octet (nibbles (pairs d)) = Z.of_nat (popcount 8 d)) (seqZ 0 256).
Proof.
  assert (forallb (fun d => let p := pairs d in let n := nibbles p in
    (0 <=? p) && (p <? 2 ^ 8) && (0 <=? n) && (n <? 2 ^ 8) && (n mod 2 ^ 4 <=? 4) && (n / 2 ^ 4 <=? 4)
    && (octet n =? Z.of_nat (popcount 8 d))) (seqZ 0 256) = true) as H by (vm_compute; reflexivity).
  apply Forall_forall. intros d Hd. rewrite forallb_forall in H. specialize (H d (proj1 (list_elem_of_In _ _) Hd)).
  cbv zeta in H. rewrite !andb_true_iff, !Z.leb_le, !Z.ltb_lt, Z.eqb_eq in H.
  unfold in_u8, small. naive_solver.
Qed.

Lemma byte_step d : in_u8 d -> in_u8 (pairs d) /\ small (nibbles (pairs d)) /\ in_u8 (nibbles (pairs d)) /\
  octet (nibbles (pairs d)) = Z.of_nat (popcount 8 d).
Proof.
  intros Hd. pose proof (proj1 (Forall_forall _ _) byte_steps d) as H. apply H, elem_of_seqZ.
  unfold in_u8 in Hd. lia.
Qed.

Lemma bytes_val_range ds : Forall in_u8 ds -> 0 <= bytes_val ds < 2 ^ (8 * Z.of_nat (length ds)).
Proof.
  induction 1 as [|d ds Hd _ IH]; [done|]. cbn [bytes_val length]. unfold in_u8 in Hd.
  replace (8 * Z.of_nat (S (length ds))) with (8 + 8 * Z.of_nat (length ds)) by lia.
  rewrite Z.pow_add_r by lia. lia.
Qed.

Lemma bytes8_u64 ds : Forall in_u8 ds -> length ds = 8%nat -> u64 (bytes_val ds) = bytes_val ds.
Proof. intros H E. apply u64_id. pose proof (bytes_val_range ds H). rewrite E in *. exact H0. Qed.

(** The product with 0x0101... has the sum of the bytes in its top byte. *)
Lemma sum_bytes c0 c1 c2 c3 c4 c5 c6 c7 : Forall (fun c => 0 <= c <= 8) [c0; c1; c2; c3; c4; c5; c6; c7] ->
  Z.shiftr (u64 (bytes_val [c0; c1; c2; c3; c4; c5; c6; c7] * 0x0101010101010101)) 56
  = c0 + c1 + c2 + c3 + c4 + c5 + c6 + c7.
Proof.
  rewrite !Forall_cons. intros (H0 & H1 & H2 & H3 & H4 & H5 & H6 & H7 & _).
  cbn [bytes_val]. rewrite Z.shiftr_div_pow2 by lia. unfold u64.
  set (v := _ * 0x0101010101010101).
  set (L := c0 + 2 ^ 8 * (c0 + c1) + 2 ^ 16 * (c0 + c1 + c2) + 2 ^ 24 * (c0 + c1 + c2 + c3)
    + 2 ^ 32 * (c0 + c1 + c2 + c3 + c4) + 2 ^ 40 * (c0 + c1 + c2 + c3 + c4 + c5)
    + 2 ^ 48 * (c0 + c1 + c2 + c3 + c4 + c5 + c6)).
  set (S0 := c0 + c1 + c2 + c3 + c4 + c5 + c6 + c7).
  set (H := (c1 + c2 + c3 + c4 + c5 + c6 + c7) + 2 ^ 8 * (c2 + c3 + c4 + c5 + c6 + c7)
    + 2 ^ 16 * (c3 + c4 + c5 + c6 + c7) + 2 ^ 24 * (c4 + c5 + c6 + c7) + 2 ^ 32 * (c5 + c6 + c7)
    + 2 ^ 40 * (c6 + c7) + 2 ^ 48 * c7).
  assert (v = L + S0 * 2 ^ 56 + H * 2 ^ 64) as -> by (unfold v, L, S0, H; lia).
  assert (0 <= L < 2 ^ 56) as HL by (unfold L; lia). assert (0 <= S0 <= 64) as HS by (unfold S0; lia).
  rewrite Z.mod_add, Z.mod_small, Z.div_add, Z.div_small by lia. lia.
Qed.

Lemma popcount_le w n : (popcount w n <= w)%nat.
Proof. unfold popcount, one_bits_from. etrans; [apply length_filter|]. rewrite length_seq. done. Qed.

Lemma small_bound ds : Forall small ds -> bytes_val ds <= repeat_byte (length ds) 68.
Proof.
  induction 1 as [|d ds (H0 & H1 & H2) _ IH]; cbn [bytes_val repeat_byte length]; [lia|].
  pose proof (Z.div_mod d (2 ^ 4) ltac:(lia)). lia.
Qed.

Lemma count_1bits_in_place_ok x : in_u64 x -> count_1bits_in_place x = Z.of_nat (length (one_bits x)).
Proof.
  intros Hx. unfold count_1bits_in_place. cbv zeta.
  set (ds := bytes_le 8 x). pose proof (bytes_le_u8 8 x) as Hds. fold ds in Hds.
  assert (x = bytes_val ds) as Ex by (symmetry; apply bytes_val_le, Hx).
  assert (length ds = 8%nat) as Hl by done. rewrite Ex.
  change 0x5555555555555555 with (repeat_byte (length ds) 0x55). rewrite pairs_bytes by done.
  assert (Forall in_u8 (map pairs ds)) as H1.
  { apply Forall_map. eapply Forall_impl; [exact Hds|]. intros d Hd. apply byte_step, Hd. }
  rewrite bytes8_u64 by (try done; rewrite length_map; done).
  change 0x3333333333333333 with (repeat_byte (length (map pairs ds)) 0x33). rewrite nibbles_bytes by done.
  rewrite map_map.
  assert (Forall in_u8 (map (fun d => nibbles (pairs d)) ds)) as H2.
  { apply Forall_map. eapply Forall_impl; [exact Hds|]. intros d Hd. apply byte_step, Hd. }
  assert (Forall small (map (fun d => nibbles (pairs d)) ds)) as H3.
  { apply Forall_map. eapply Forall_impl; [exact Hds|]. intros d Hd. apply byte_step, Hd. }
  rewrite bytes8_u64 by (try done; rewrite length_map; done).
  rewrite (u64_id (_ + _)).
  2:{ set (es := map (fun d => nibbles (pairs d)) ds) in *. pose proof (small_bound es H3) as Hb. replace (length es) with 8%nat in Hb by done.
      pose proof (bytes_val_nonneg es H2). rewrite Z.shiftr_div_pow2 by lia.
      assert (bytes_val es / 2 ^ 4 <= bytes_val es) by (apply Z.div_le_upper_bound; lia).
      assert (0 <= bytes_val es / 2 ^ 4) by (apply Z.div_pos; lia).
      unfold in_u64. cbn [repeat_byte] in Hb. lia. }
  change 0x0F0F0F0F0F0F0F0F with (repeat_byte (length (map (fun d => nibbles (pairs d)) ds)) 0x0F).
  rewrite octet_bytes by done. rewrite map_map.
  rewrite (map_ext_Forall _ (fun d => Z.of_nat (popcount 8 d)) (l := ds)).
  2:{ eapply Forall_impl; [exact Hds|]. intros d Hd. apply byte_step, Hd. }
  change (length (one_bits (bytes_val ds))) with (popcount 64 (bytes_val ds)). rewrite <- Ex.
  change 64%nat with (8 * 8)%nat. rewrite (popcount_bytes 8 x). fold ds.
  unfold ds. cbn [bytes_le map]. rewrite sum_bytes.
  - cbn [sum_list_with]. lia.
  - rewrite !Forall_cons. repeat split; try apply Forall_nil_2; try lia;
      match goal with |- Z.of_nat (popcount 8 ?d) <= 8 => pose proof (popcount_le 8 d); lia end.
Qed.

(** Both versions of [count_1bits] count the 1-bits of a 64-bit word. *)
Lemma count_1bits_ok target x : in_u64 x -> count_1bits target x = Z.of_nat (length (one_bits x)).
Proof.
  intros Hx. unfold count_1bits. destruct (_ =? _)%nat;
    [apply count_1bits_in_place_ok | apply count_1bits_by_table_ok]; done.
Qed.

(** ** The word operations together *)

Lemma log2_bits n k : 0 <= k -> 0 < n -> (Z.log2 n = k <-> Z.testbit n k = true /\ n < 2 ^ (k + 1)).
Proof.
  intros Hk Hn. split.
  - intros <-. split; [apply Z.bit_log2; done|]. pose proof (Z.log2_spec n Hn). rewrite Z.add_1_r. lia.
  - intros [Hb Hl]. apply Z.log2_unique; [done|]. rewrite <- Z.add_1_r. split; [|done].
    destruct (Z.le_gt_cases (2 ^ k) n); [done|]. rewrite Z.bits_above_log2 in Hb; [done | lia |].
    apply Z.log2_lt_pow2; done.
Qed.

Lemma one_bits_pow2 i : (i < 64)%nat -> one_bits (2 ^ Z.of_nat i) = [i].
Proof.
  intros Hi. unfold one_bits. rewrite (one_bits_split 0 64 _ i) by lia.
  rewrite (one_bits_split (0 + i) (64 - i) _ 1) by lia.
  rewrite (one_bits_none 0 i), (one_bits_none (0 + i + 1)).
  - unfold one_bits_from. cbn [seq]. rewrite filter_cons, decide_True; [done|].
    rewrite Nat.add_0_l. apply Z.pow2_bits_true. lia.
  - intros j Hj. apply Z.pow2_bits_false. lia.
  - intros j Hj. apply Z.pow2_bits_false. lia.
Qed.

Lemma log_2_ceil_ok n : 0 < n < 2 ^ 64 ->
  log_2_ceil n = if decide (n = 2 ^ Z.log2 n) then Z.log2 n else Z.log2 n + 1.
Proof.
  intros Hn. unfold log_2_ceil, log_2_floor. rewrite raw_clz64_ok by done.
  pose proof (Z.log2_nonneg n). pose proof (Z.log2_spec n ltac:(lia)) as Hs.
  assert (Z.log2 n < 64) by (apply Z.log2_lt_pow2; lia).
  destruct (decide (n = 2 ^ Z.log2 n)) as [E|E].
  - rewrite E at 2. rewrite is_pow2_pow2 by lia. lia.
  - assert (is_pow2 n = false) as ->; [|lia]. unfold is_pow2.
    destruct (ends_in_exists n) as [t (q & Ht & Hq & En)]; [lia|].
    change (Z.land n (u64 (n - 1))) with (zero_rightmost_1bit n).
    rewrite En, zero_rightmost_split, <- En by lia.
    rewrite (proj2 (Z.eqb_neq (2 ^ (t + 1) * q) 0)); [apply andb_false_r|].
    intros Hz. assert (0 < 2 ^ (t + 1)) by lia. assert (q = 0) as -> by nia.
    apply E. rewrite En, Z.mul_1_r, Z.log2_pow2 by done. done.
Qed.

(** The bit operations agree with the positions of the 1-bits of a nonzero
    64-bit word: the count by table and the count in place are their number,
    the binary searches find the first one and what precedes the last one,
    the rightmost 1-bit is the first one alone, clearing it leaves the others,
    and the logarithms round as they say. *)
Theorem word_bits_ok n : 0 < n < 2 ^ 64 ->
  count_1bits_by_table n = Z.of_nat (length (one_bits n)) /\
  count_1bits_in_place n = Z.of_nat (length (one_bits n)) /\
  head (one_bits n) = Some (Z.to_nat (raw_ctz n)) /\
  one_bits (zero_rightmost_1bit n) = tail (one_bits n) /\
  one_bits (rightmost_1bit n) = [Z.to_nat (raw_ctz n)] /\
  Z.testbit n (63 - raw_clz64 n) = true /\ (forall i, 63 - raw_clz64 n < i -> Z.testbit n i = false) /\
  2 ^ log_2_floor n <= n < 2 ^ (log_2_floor n + 1) /\
  n <= 2 ^ log_2_ceil n < 2 * n.
Proof.
  intros Hn. assert (in_u64 n) as Hu by (unfold in_u64; lia).
  destruct (one_bits_step n Hn) as (E & Er & Ht & Hb & _).
  rewrite count_1bits_by_table_ok, count_1bits_in_place_ok, E, Er by done. cbn [head tail].
  pose proof (one_bits_pow2 (Z.to_nat (raw_ctz n)) ltac:(lia)) as Hp. rewrite Z2Nat.id in Hp by lia.
  rewrite Hp.
  unfold log_2_floor. rewrite raw_clz64_ok, log_2_ceil_ok by done.
  replace (63 - (63 - Z.log2 n)) with (Z.log2 n) by lia. pose proof (Z.log2_spec n ltac:(lia)) as Hs.
  rewrite <- Z.add_1_r in Hs. pose proof (Z.log2_nonneg n).
  repeat split; try done; try lia; try apply Z.bit_log2; try lia.
  - intros i Hi. apply Z.bits_above_log2; lia.
  - destruct (decide _); lia.
  - assert (2 ^ (Z.log2 n + 1) = 2 * 2 ^ Z.log2 n) by (rewrite Z.pow_add_r; lia). destruct (decide _); lia.
Qed.

Lemma word_bits_ok_witness : 0 < 0x8000000000000148 < 2 ^ 64 /\
  one_bits 0x8000000000000148 = [3; 6; 8; 63]%nat /\
  count_1bits_by_table 0x8000000000000148 = 4 /\ raw_ctz 0x8000000000000148 = 3.
Proof.
  destruct (word_bits_ok 0x8000000000000148 ltac:(lia)) as (E & _).
  split; [lia|]. split; [reflexivity|]. split; [exact E|]. vm_compute. reflexivity.
Defined.
