(* ===== verification/Bytes.v ===== *)
(** * Bytes, byte order, C buffers and C strings

    The memory layer the message handlers of [ofproto/sfa.c] work on: loads of
    32- and 64-bit integers through a cast pointer, [ntohl] and [ntohll]
    ([lib/byte-order.h]), [xmalloc] ([lib/util.c]), [memcpy] and the reading of
    a null-terminated string.

    A pointer into a received message is the list of the bytes from it to the
    end of the message; a read past that end is a fault.  An allocated buffer
    is a [list (option Z)], [None] for a byte that was never written. *)

From Stdlib Require Import ZArith Lia List.
From stdpp Require Import base list option.
From S2P Require Import Prelude.
#[local] Open Scope Z_scope.
#[local] Open Scope res_scope.

(** ** Loads *)

(** [*(uint32_t * ) (p + k)] on a little-endian machine. *)
Definition ld_u32 (p : list Z) (k : nat) : Res Z :=
  match drop k p with
  | b0 :: b1 :: b2 :: b3 :: _ =>
      Ok (b0 + 2 ^ 8 * b1 + 2 ^ 16 * b2 + 2 ^ 24 * b3)
  | _ => Fault OutOfBounds
  end.

(** [*(uint64_t * ) (p + k)]. *)
Definition ld_u64 (p : list Z) (k : nat) : Res Z :=
  let* lo := ld_u32 p k in
  let* hi := ld_u32 p (k + 4) in
  Ok (lo + 2 ^ 32 * hi).

(** ** Byte order *)

Definition uint32_byteswap (crc : Z) : Z :=
  Z.lor (Z.lor (Z.shiftl (Z.land crc 0xff) 24)
               (Z.shiftl (Z.land crc 0xff00) 8))
        (Z.lor (Z.shiftr (Z.land crc 0xff0000) 8)
               (Z.shiftr (Z.land crc 0xff000000) 24)).

(** On a little-endian host [ntohl] and [htonl] swap the four bytes. *)
Definition ntohl (n : Z) : Z := uint32_byteswap n.
Definition htonl (n : Z) : Z := uint32_byteswap n.

Definition ntohll (n : Z) : Z :=
  if htonl 1 =? 1 then n
  else Z.lor (Z.shiftl (ntohl (u32 n)) 32) (ntohl (u32 (Z.shiftr n 32))).

(** ** Buffers *)

Definition cbuf : Type := list (option Z).

Definition xmalloc (size : Z) : cbuf :=
  replicate (Z.to_nat (if size =? 0 then 1 else size)) None.

(** [b[i] = c] *)
Definition buf_set (b : cbuf) (i c : Z) : Res cbuf :=
  if (0 <=? i) && (i <? Z.of_nat (length b))
  then Ok (<[Z.to_nat i := Some c]> b)
  else Fault OutOfBounds.

(** [memcpy(b, src + off, n)] *)
Definition memcpy (b : cbuf) (src : list Z) (off : nat) (n : Z) : Res cbuf :=
  if (Z.of_nat off + n <=? Z.of_nat (length src))
     && (n <=? Z.of_nat (length b))
  then Ok ((Some <$> take (Z.to_nat n) (drop off src)) ++ drop (Z.to_nat n) b)
  else Fault OutOfBounds.

(** The bytes of the string a [char *] points at. *)
Fixpoint c_str (b : cbuf) : Res (list Z) :=
  match b with
  | [] => Fault OutOfBounds
  | None :: _ => Fault UninitRead
  | Some c :: b' => if c =? 0 then Ok [] else rmap (cons c) (c_str b')
  end.

(** ** Specifications: big-endian encodings and strings *)

Definition be16_bytes (x : Z) : list Z := [x / 2 ^ 8 mod 2 ^ 8; x mod 2 ^ 8].
Definition be32_bytes (x : Z) : list Z :=
  [x / 2 ^ 24 mod 2 ^ 8; x / 2 ^ 16 mod 2 ^ 8; x / 2 ^ 8 mod 2 ^ 8; x mod 2 ^ 8].

Definition be64_bytes (x : Z) : list Z :=
  be32_bytes (x / 2 ^ 32) ++ be32_bytes (x mod 2 ^ 32).

(** The number a big-endian byte sequence denotes, and a field of [n] bytes at
    offset [k]. *)
Definition be_value (l : list Z) : Z := fold_left (fun a x => a * 2 ^ 8 + x) l 0.
Definition be_field (b : list Z) (k n : nat) : Z := be_value (take n (drop k b)).

(** The prefix of a byte sequence before its first null byte. *)
Fixpoint upto_nul (l : list Z) : list Z :=
  match l with
  | [] => []
  | c :: l' => if c =? 0 then [] else c :: upto_nul l'
  end.

(** ** Lemmas *)

(** A byte shifted into place does not overlap the lower ones. *)
Lemma lor_add_disjoint a b k :
  0 <= k -> 0 <= a < 2 ^ k -> Z.lor (Z.shiftl b k) a = b * 2 ^ k + a.
Proof.
  intros Hk Ha. rewrite Z.lor_comm, <- Z.shiftl_mul_pow2 by done.
  rewrite Z.add_comm. symmetry.
  rewrite <- Z.lxor_lor; [apply Z.add_nocarry_lxor|]; apply Z.bits_inj; intros i;
    rewrite Z.land_spec, Z.bits_0;
    (destruct (Z.lt_ge_cases i k);
     [ rewrite Z.shiftl_spec_low by done; apply andb_false_r
     | apply bits_range_iff in Ha; [|done]; by rewrite (proj2 Ha) ]).
Qed.

Lemma uint32_byteswap_bytes b0 b1 b2 b3 :
  in_u8 b0 -> in_u8 b1 -> in_u8 b2 -> in_u8 b3 ->
  uint32_byteswap (b0 + 2 ^ 8 * b1 + 2 ^ 16 * b2 + 2 ^ 24 * b3)
  = b3 + 2 ^ 8 * b2 + 2 ^ 16 * b1 + 2 ^ 24 * b0.
Proof.
  unfold in_u8, uint32_byteswap. intros H0 H1 H2 H3.
  set (x := b0 + 2 ^ 8 * b1 + 2 ^ 16 * b2 + 2 ^ 24 * b3).
  assert (Hm : forall j, 0 <= j ->
            Z.land x (Z.shiftl 255 j) = (x / 2 ^ j mod 2 ^ 8) * 2 ^ j).
  { intros j Hj.
    rewrite <- Z.shiftl_mul_pow2, <- (Z.land_ones _ 8), <- Z.shiftr_div_pow2 by lia.
    change 255 with (Z.ones 8). apply Z.bits_inj. intros i.
    destruct (Z.lt_ge_cases i 0); [by rewrite !Z.testbit_neg_r|].
    rewrite Z.land_spec. destruct (Z.lt_ge_cases i j).
    - rewrite !Z.shiftl_spec_low by lia. apply andb_false_r.
    - rewrite !Z.shiftl_spec_high, Z.land_spec, Z.shiftr_spec by lia.
      do 2 f_equal. lia. }
  pose proof (Hm 0 ltac:(lia)) as M0; pose proof (Hm 8 ltac:(lia)) as M1.
  pose proof (Hm 16 ltac:(lia)) as M2; pose proof (Hm 24 ltac:(lia)) as M3.
  change (Z.shiftl 255 0) with 0xff in M0. change (Z.shiftl 255 8) with 0xff00 in M1.
  change (Z.shiftl 255 16) with 0xff0000 in M2.
  change (Z.shiftl 255 24) with 0xff000000 in M3.
  rewrite M0, M1, M2, M3.
  assert (x / 2 ^ 0 mod 2 ^ 8 = b0) as -> by (unfold x; zdm).
  assert (x / 2 ^ 8 mod 2 ^ 8 = b1) as -> by (unfold x; zdm).
  assert (x / 2 ^ 16 mod 2 ^ 8 = b2) as -> by (unfold x; zdm).
  assert (x / 2 ^ 24 mod 2 ^ 8 = b3) as -> by (unfold x; zdm).
  rewrite !Z.shiftr_div_pow2 by lia.
  replace (b2 * 2 ^ 16 / 2 ^ 8) with (b2 * 2 ^ 8) by zdm.
  replace (b3 * 2 ^ 24 / 2 ^ 24) with b3 by zdm.
  rewrite <- (Z.shiftl_mul_pow2 b2 8) by lia.
  rewrite (lor_add_disjoint b3 b2 8) by lia.
  replace (Z.shiftl (b1 * 2 ^ 8) 8) with (Z.shiftl b1 16)
    by (rewrite !Z.shiftl_mul_pow2 by lia; lia).
  rewrite <- Z.lor_assoc, (lor_add_disjoint (b2 * 2 ^ 8 + b3) b1 16) by lia.
  rewrite Z.mul_1_r. rewrite lor_add_disjoint by lia. lia.
Qed.

Lemma ld_u32_app_skip (l r : list Z) k :
  (length l <= k)%nat -> ld_u32 (l ++ r) k = ld_u32 r (k - length l).
Proof. intros H. unfold ld_u32. by rewrite drop_app_ge. Qed.

Lemma ld_u64_app_skip (l r : list Z) k :
  (length l <= k)%nat -> ld_u64 (l ++ r) k = ld_u64 r (k - length l).
Proof.
  intros H. unfold ld_u64. rewrite !ld_u32_app_skip by lia.
  by replace (k + 4 - length l)%nat with (k - length l + 4)%nat by lia.
Qed.

Lemma length_be32 x : length (be32_bytes x) = 4%nat.
Proof. done. Qed.
Lemma length_be64 x : length (be64_bytes x) = 8%nat.
Proof. done. Qed.

(** What the network-order word at the front of a pointer decodes to. *)
Lemma ld_u32_be32 x r : in_u32 x ->
  rmap ntohl (ld_u32 (be32_bytes x ++ r) 0) = Ok x.
Proof.
  unfold in_u32. intros H. simpl. f_equal. unfold ntohl.
  rewrite uint32_byteswap_bytes by (apply Z.mod_pos_bound; lia). zdm.
Qed.

Lemma ld_u32_be32_raw x r : in_u32 x ->
  exists v, ld_u32 (be32_bytes x ++ r) 0 = Ok v /\ ntohl v = x /\ in_u32 v.
Proof.
  intros H. pose proof (ld_u32_be32 x r H) as E. simpl in E.
  eexists. split; [reflexivity|]. split; [by injection E|].
  unfold in_u32. pose proof (fun y => Z.mod_pos_bound y (2 ^ 8) ltac:(lia)) as B.
  pose proof (B (x / 2 ^ 24)); pose proof (B (x / 2 ^ 16)).
  pose proof (B (x / 2 ^ 8)); pose proof (B x). lia.
Qed.

Lemma ld_u64_be64 x r : in_u64 x ->
  rmap ntohll (ld_u64 (be64_bytes x ++ r) 0) = Ok x.
Proof.
  unfold in_u64. intros H. unfold be64_bytes, ld_u64. rewrite <- app_assoc.
  destruct (ld_u32_be32_raw (x / 2 ^ 32) (be32_bytes (x mod 2 ^ 32) ++ r))
    as (lo & Elo & Nlo & Rlo); [unfold in_u32; zdm|].
  rewrite Elo. cbn [rbind]. rewrite ld_u32_app_skip by done.
  destruct (ld_u32_be32_raw (x mod 2 ^ 32) r) as (hi & Ehi & Nhi & Rhi);
    [unfold in_u32; zdm|].
  change (0 + 4 - length (be32_bytes (x / 2 ^ 32)))%nat with 0%nat.
  rewrite Ehi. simpl. f_equal. unfold ntohll.
  change (htonl 1 =? 1) with false. cbv iota.
  unfold in_u32 in *.
  replace (u32 (lo + 2 ^ 32 * hi)) with lo by (unfold u32; zdm).
  replace (u32 (Z.shiftr (lo + 2 ^ 32 * hi) 32)) with hi
    by (rewrite Z.shiftr_div_pow2 by lia; unfold u32; zdm).
  rewrite Nlo, Nhi, lor_add_disjoint by zdm. zdm.
Qed.

(** Strings *)

Lemma c_str_bytes (l : list Z) rest :
  c_str ((Some <$> l) ++ Some 0 :: rest) = Ok (upto_nul l).
Proof.
  induction l as [|c l IH]; [done|]. csimpl. case_bool; [done|].
  by rewrite IH.
Qed.

Lemma upto_nul_id (l : list Z) : Forall (fun c => c <> 0) l -> upto_nul l = l.
Proof.
  induction 1 as [|c l Hc _ IH]; [done|]. simpl. case_bool; [done|].
  by rewrite IH.
Qed.

Lemma upto_nul_nonzero (l : list Z) : Forall (fun c => c <> 0) (upto_nul l).
Proof.
  induction l as [|c l IH]; simpl; [done|]. case_bool; auto.
Qed.

Lemma c_str_nonzero (b : cbuf) s : c_str b = Ok s -> Forall (fun c => c <> 0) s.
Proof.
  revert s. induction b as [|[c|] b IH]; simpl; intros s H; try discriminate.
  case_bool_in H; unfold rmap in H; inv_res; auto.
Qed.

(** Every byte of the string was stored in the buffer. *)
Lemma c_str_prefix (b : cbuf) s :
  c_str b = Ok s -> exists rest, b = (Some <$> s) ++ Some 0 :: rest.
Proof.
  revert s. induction b as [|[c|] b IH]; simpl; intros s H; try discriminate.
  case_bool_in H; unfold rmap in H; inv_res.
  - by exists b.
  - destruct (IH _ Hr) as [rest ->]. by exists rest.
Qed.

(** Buffers *)

Lemma memcpy_key (b : list (option Z)) pre key r n :
  n = Z.of_nat (length key) -> (length key <= length b)%nat ->
  memcpy b (pre ++ key ++ r) (length pre) n = Ok ((Some <$> key) ++ drop (length key) b).
Proof.
  intros -> Hb. unfold memcpy. rewrite !length_app.
  destruct (Z.leb_spec (Z.of_nat (length pre) + Z.of_nat (length key))
              (Z.of_nat (length pre + (length key + length r)))); [|lia].
  destruct (Z.leb_spec (Z.of_nat (length key)) (Z.of_nat (length b))); [|lia]. simpl.
  by rewrite Nat2Z.id, drop_app_length, take_app_length.
Qed.

Lemma buf_set_ok (b : list (option Z)) i c : 0 <= i < Z.of_nat (length b) ->
  buf_set b i c = Ok (<[Z.to_nat i := Some c]> b).
Proof.
  intros Hi. unfold buf_set. destruct (Z.leb_spec 0 i); [|lia].
  by destruct (Z.ltb_spec i (Z.of_nat (length b))); [|lia].
Qed.

Lemma xmalloc_ok n : 0 < n -> xmalloc n = replicate (Z.to_nat n) None.
Proof. intros H. unfold xmalloc. case_bool; [lia|done]. Qed.

(** *** Big-endian fields *)

Lemma be_value_16 x : in_u16 x -> be_value (be16_bytes x) = x.
Proof. unfold in_u16, be_value, be16_bytes. simpl. intros. zdm. Qed.
Lemma be_value_32 x : in_u32 x -> be_value (be32_bytes x) = x.
Proof. unfold in_u32, be_value, be32_bytes. simpl. intros. zdm. Qed.
Lemma be_value_64 x : in_u64 x -> be_value (be64_bytes x) = x.
Proof.
  unfold in_u64. intros H. unfold be_value, be64_bytes. rewrite fold_left_app.
  change (fold_left _ (be32_bytes (x / 2 ^ 32)) 0) with (be_value (be32_bytes (x / 2 ^ 32))).
  rewrite be_value_32 by (unfold in_u32; zdm). unfold be32_bytes. simpl. zdm.
Qed.

(** A field between two others. *)
Lemma be_field_app (p f r : list Z) k n : k = length p -> n = length f ->
  be_field (p ++ f ++ r) k n = be_value f.
Proof. intros -> ->. unfold be_field. by rewrite drop_app_length, take_app_length. Qed.
