(* ===== verification/Hash.v ===== *)
(** * MurmurHash3 as used by every hash table ([lib/hash.h], [lib/hash.c])

    The mixing functions are given at their 32-bit width.  Each mixing step is
    a bijection of the 32-bit words, so a difference confined to one word of
    the input is never lost: this is what the tables of the stateful pipeline
    rely on when they identify a match string with its hash. *)

From Stdlib Require Import ZArith Lia List Zpow_facts.
From stdpp Require Import base list option.
From S2P Require Import Prelude Bytes.
#[local] Open Scope Z_scope.
#[local] Open Scope res_scope.

(** ** The program *)

Definition hash_rot (x k : Z) : Z :=
  Z.lor (u32 (Z.shiftl x k)) (Z.shiftr x (32 - k)).

Definition mhash_add__ (hash data : Z) : Z :=
  let data := u32 (data * 0xcc9e2d51) in
  let data := hash_rot data 15 in
  let data := u32 (data * 0x1b873593) in
  Z.lxor hash data.

Definition mhash_add (hash data : Z) : Z :=
  let hash := mhash_add__ hash data in
  let hash := hash_rot hash 13 in
  u32 (hash * 5 + 0xe6546b64).

Definition mhash_finish (hash n_bytes : Z) : Z :=
  let hash := Z.lxor hash (u32 n_bytes) in
  let hash := Z.lxor hash (Z.shiftr hash 16) in
  let hash := u32 (hash * 0x85ebca6b) in
  let hash := Z.lxor hash (Z.shiftr hash 13) in
  let hash := u32 (hash * 0xc2b2ae35) in
  Z.lxor hash (Z.shiftr hash 16).

Definition hash_2words (x y : Z) : Z :=
  mhash_finish (mhash_add (mhash_add x 0) y) 4.

Definition hash_3words (a b c : Z) : Z :=
  mhash_finish (mhash_add (mhash_add (mhash_add a 0) b) c) 12.

Definition hash_int (x basis : Z) : Z := hash_2words x basis.

Definition hash_pointer (p basis : Z) : Z := hash_int (u32 p) basis.

Definition hash_boolean (x : bool) (basis : Z) : Z :=
  Z.lxor (if x then 0xc2b73583 else 0xe90f1258) (hash_rot basis 1).

(** The value of up to four bytes copied over the low end of a zeroed
    little-endian word. *)
Definition le_word (l : list Z) : Z := foldr (fun b acc => b + 2 ^ 8 * acc) 0 l.

(** The loop of [hash_bytes]: whole words, then the zero-padded tail. *)
Fixpoint hash_bytes_loop (hash : Z) (p : list Z) : Z :=
  match p with
  | [] => hash
  | b0 :: b1 :: b2 :: b3 :: p' =>
      hash_bytes_loop (mhash_add hash (le_word [b0; b1; b2; b3])) p'
  | tail => mhash_add__ hash (le_word tail)
  end.

Definition hash_bytes (p : list Z) (basis : Z) : Z :=
  mhash_finish (hash_bytes_loop basis p) (Z.of_nat (length p)).

Definition hash_words (p : list Z) (basis : Z) : Z :=
  mhash_finish (fold_left mhash_add p basis) (Z.of_nat (length p) * 4).

(** [hash_string(s, basis)]: [strlen] stops at the terminator. *)
Definition hash_string (s : cbuf) (basis : Z) : Res Z :=
  let* l := c_str s in Ok (hash_bytes l basis).

(** The mixing functions are unfolded last in conversion problems. *)
Strategy 100 [hash_rot mhash_add__ mhash_add mhash_finish u32].

(** ** Ranges *)

Lemma shiftr_u32 x k : 0 <= k -> in_u32 x -> in_u32 (Z.shiftr x k).
Proof.
  unfold in_u32. intros Hk Hx. rewrite Z.shiftr_div_pow2 by done.
  assert (0 < 2 ^ k) by (apply Z.pow_pos_nonneg; lia).
  split; [apply Z.div_pos; lia|].
  apply Z.le_lt_trans with x; [|lia]. apply Z.div_le_upper_bound; nia.
Qed.

Lemma lxor_u32 x y : in_u32 x -> in_u32 y -> in_u32 (Z.lxor x y).
Proof. apply lxor_range. lia. Qed.

Lemma hash_rot_u32 x k : k <= 32 -> in_u32 x -> in_u32 (hash_rot x k).
Proof.
  intros Hk Hx. apply lor_range; [lia|apply u32_range|].
  apply shiftr_u32; [lia|done].
Qed.

#[export] Hint Resolve lxor_u32 hash_rot_u32 shiftr_u32 : sdpa.

Lemma mhash_add___u32 h d : in_u32 h -> in_u32 (mhash_add__ h d).
Proof. intros H. unfold mhash_add__. auto with sdpa. Qed.

Lemma mhash_add_u32 h d : in_u32 (mhash_add h d).
Proof. unfold mhash_add. auto with sdpa. Qed.

Lemma xorshift_u32 h k : 0 <= k -> in_u32 h -> in_u32 (Z.lxor h (Z.shiftr h k)).
Proof. auto with sdpa. Qed.

Lemma mhash_finish_u32 h n : in_u32 (mhash_finish h n).
Proof. unfold mhash_finish. apply xorshift_u32; [lia|apply u32_range]. Qed.

#[export] Hint Resolve mhash_add___u32 mhash_add_u32 mhash_finish_u32 : sdpa.

Lemma hash_bytes_u32 p basis : in_u32 (hash_bytes p basis).
Proof. apply mhash_finish_u32. Qed.
#[export] Hint Resolve hash_bytes_u32 : sdpa.

(** ** Each mixing step is injective *)

(** [x ^= x >> k] loses nothing: the difference would equal its own shift. *)
Lemma xorshift_inj k x y : 1 <= k -> in_u32 x -> in_u32 y ->
  Z.lxor x (Z.shiftr x k) = Z.lxor y (Z.shiftr y k) -> x = y.
Proof.
  intros Hk Hx Hy E.
  assert (Ed : Z.lxor x y = Z.shiftr (Z.lxor x y) k).
  { rewrite Z.shiftr_lxor. apply Z.bits_inj. intros i.
    apply (f_equal (fun z => Z.testbit z i)) in E.
    rewrite !Z.lxor_spec in *.
    destruct (Z.testbit x i), (Z.testbit y i), (Z.testbit (Z.shiftr x k) i),
      (Z.testbit (Z.shiftr y k) i); simpl in *; congruence. }
  pose proof (lxor_u32 x y Hx Hy) as Hd. apply Z.lxor_eq.
  rewrite Z.shiftr_div_pow2 in Ed by lia. unfold in_u32 in Hd.
  destruct (Z.eq_dec (Z.lxor x y) 0) as [|Hne]; [done|].
  assert (2 <= 2 ^ k) by (apply (Z.pow_le_mono_r 2 1 k); lia).
  assert (Z.lxor x y / 2 ^ k < Z.lxor x y) by (apply Z.div_lt; lia). lia.
Qed.

(** Multiplication by an odd constant is invertible modulo 2^32. *)
Lemma mul_inj c c' d x y : u32 (c * c') = 1 -> in_u32 x -> in_u32 y ->
  u32 (x * c + d) = u32 (y * c + d) -> x = y.
Proof.
  unfold u32, in_u32. intros Hc Hx Hy E.
  assert (E' : ((x * c + d - d) * c') mod 2 ^ 32 = ((y * c + d - d) * c') mod 2 ^ 32).
  { rewrite Z.mul_mod, Zminus_mod, E by lia. rewrite <- Zminus_mod.
    by rewrite <- Z.mul_mod by lia. }
  replace ((x * c + d - d) * c') with (x * (c * c')) in E' by ring.
  replace ((y * c + d - d) * c') with (y * (c * c')) in E' by ring.
  rewrite (Z.mul_mod x), (Z.mul_mod y), Hc, !Z.mul_1_r, !Z.mod_mod in E' by lia.
  by rewrite !Z.mod_small in E' by lia.
Qed.

Lemma mul_inj0 c c' x y : u32 (c * c') = 1 -> in_u32 x -> in_u32 y ->
  u32 (x * c) = u32 (y * c) -> x = y.
Proof.
  intros Hc Hx Hy E. apply (mul_inj c c' 0 x y); [done..|].
  by rewrite !Z.add_0_r.
Qed.

Lemma hash_rot_testbit x k i : 0 < k < 32 -> in_u32 x -> 0 <= i < 32 ->
  Z.testbit (hash_rot x k) i
  = Z.testbit x (if i <? k then i + 32 - k else i - k).
Proof.
  intros Hk Hx Hi. unfold hash_rot, u32.
  rewrite Z.lor_spec, Z.mod_pow2_bits_low, Z.shiftr_spec by lia.
  apply bits_range_iff in Hx as [Hx0 Hx]; [|lia].
  case_bool.
  - rewrite Z.shiftl_spec_low by lia. simpl. f_equal. lia.
  - rewrite Z.shiftl_spec by lia. rewrite (Hx (i + (32 - k))) by lia.
    apply orb_false_r.
Qed.

Lemma hash_rot_inj k x y : 0 < k < 32 -> in_u32 x -> in_u32 y ->
  hash_rot x k = hash_rot y k -> x = y.
Proof.
  intros Hk Hx Hy E. apply Z.bits_inj. intros i.
  destruct (Z.lt_ge_cases i 0); [by rewrite !Z.testbit_neg_r|].
  pose proof Hx as [_ Hx']%bits_range_iff; [|lia].
  pose proof Hy as [_ Hy']%bits_range_iff; [|lia].
  destruct (Z.lt_ge_cases i 32); [|by rewrite Hx', Hy'].
  set (j := if i <? 32 - k then i + k else i + k - 32).
  apply (f_equal (fun z => Z.testbit z j)) in E.
  assert (Hj : 0 <= j < 32 /\ (if j <? k then j + 32 - k else j - k) = i).
  { unfold j. repeat case_bool; lia. }
  rewrite !hash_rot_testbit, (proj2 Hj) in E by tauto. done.
Qed.

Lemma lxor_cancel_l h a b : Z.lxor h a = Z.lxor h b -> a = b.
Proof.
  intros E. apply (f_equal (Z.lxor h)) in E.
  by rewrite <- !Z.lxor_assoc, Z.lxor_nilpotent, !Z.lxor_0_l in E.
Qed.

Lemma lxor_cancel_r a b h : Z.lxor a h = Z.lxor b h -> a = b.
Proof. rewrite !(Z.lxor_comm _ h). apply lxor_cancel_l. Qed.

Lemma mhash_add___data_inj h d d' : in_u32 d -> in_u32 d' ->
  mhash_add__ h d = mhash_add__ h d' -> d = d'.
Proof.
  intros Hd Hd' E%lxor_cancel_l.
  apply (mul_inj0 _ 0x56ed309b) in E; [|done|auto with sdpa..].
  apply hash_rot_inj in E; [|lia|apply u32_range..].
  by apply (mul_inj0 _ 0xdee13bb1) in E.
Qed.

Lemma mhash_add_data_inj h d d' : in_u32 h -> in_u32 d -> in_u32 d' ->
  mhash_add h d = mhash_add h d' -> d = d'.
Proof.
  intros Hh Hd Hd' E. unfold mhash_add in E.
  apply (mul_inj _ 0xcccccccd) in E; [|done|auto with sdpa..].
  apply hash_rot_inj in E; [|lia|auto with sdpa..].
  by apply mhash_add___data_inj in E.
Qed.

Lemma mhash_add_hash_inj h h' d : in_u32 h -> in_u32 h' ->
  mhash_add h d = mhash_add h' d -> h = h'.
Proof.
  intros Hh Hh' E. unfold mhash_add in E.
  apply (mul_inj _ 0xcccccccd) in E; [|done|auto with sdpa..].
  apply hash_rot_inj in E; [|lia|auto with sdpa..].
  by apply lxor_cancel_r in E.
Qed.

Lemma mhash_finish_inj n h h' : in_u32 h -> in_u32 h' ->
  mhash_finish h n = mhash_finish h' n -> h = h'.
Proof.
  intros Hh Hh' E. unfold mhash_finish in E.
  apply xorshift_inj in E; [|lia|apply u32_range..].
  apply (mul_inj0 _ 0x7ed1b41d) in E; [|done|auto 6 with sdpa..].
  apply xorshift_inj in E; [|lia|apply u32_range..].
  apply (mul_inj0 _ 0xa5cb9243) in E; [|done|auto 8 with sdpa..].
  apply xorshift_inj in E; [|lia|auto with sdpa..].
  by apply lxor_cancel_r in E.
Qed.

(** ** Whole inputs *)

Definition bytes_ok (p : list Z) : Prop := Forall in_u8 p.

Lemma le_word_range p : bytes_ok p -> 0 <= le_word p < 2 ^ (8 * Z.of_nat (length p)).
Proof.
  induction 1 as [|b p Hb _ IH]; [simpl; lia|]. simpl le_word. simpl length.
  replace (8 * Z.of_nat (S (length p))) with (8 + 8 * Z.of_nat (length p)) by lia.
  rewrite Z.pow_add_r by lia. unfold in_u8 in Hb. nia.
Qed.

Lemma le_word_u32 p : bytes_ok p -> (length p <= 4)%nat -> in_u32 (le_word p).
Proof.
  intros Hp Hl. pose proof (le_word_range p Hp). unfold in_u32.
  assert (2 ^ (8 * Z.of_nat (length p)) <= 2 ^ 32) by (apply Z.pow_le_mono_r; lia).
  lia.
Qed.
#[export] Hint Resolve le_word_u32 : sdpa.

Lemma le_word_inj p q : bytes_ok p -> bytes_ok q -> length p = length q ->
  le_word p = le_word q -> p = q.
Proof.
  intros Hp. revert q. induction Hp as [|b p Hb Hp IH]; intros [|c q] Hq Hl E;
    try done.
  apply Forall_cons_iff in Hq as [Hc Hq]. simpl in Hl, E.
  unfold in_u8 in Hb, Hc. injection Hl as Hl.
  assert (b = c /\ le_word p = le_word q) as [-> Ew] by lia.
  f_equal. by apply IH.
Qed.

(** Induction on byte sequences a word at a time. *)
Lemma words_ind (P : list Z -> Prop) :
  (forall p, (length p < 4)%nat -> P p) ->
  (forall b0 b1 b2 b3 p, P p -> P (b0 :: b1 :: b2 :: b3 :: p)) ->
  forall p, P p.
Proof.
  intros Hs Hw p. induction p as [p IH] using (induction_ltof1 _ (@length Z)).
  unfold ltof in IH.
  destruct p as [|b0 [|b1 [|b2 [|b3 p]]]]; try (apply Hs; simpl; lia).
  apply Hw, IH. simpl. lia.
Qed.

Lemma hash_bytes_loop_u32 p : forall h, in_u32 h -> in_u32 (hash_bytes_loop h p).
Proof.
  induction p as [p Hp|b0 b1 b2 b3 p IH] using words_ind; intros h Hh.
  - destruct p as [|b0 [|b1 [|b2 [|b3 p]]]]; simpl in *; auto with sdpa; lia.
  - apply IH. auto with sdpa.
Qed.
#[export] Hint Resolve hash_bytes_loop_u32 : sdpa.

Lemma hash_bytes_loop_inj p : forall h h', in_u32 h -> in_u32 h' ->
  hash_bytes_loop h p = hash_bytes_loop h' p -> h = h'.
Proof.
  induction p as [p Hp|b0 b1 b2 b3 p IH] using words_ind; intros h h' Hh Hh' E.
  - destruct p as [|b0 [|b1 [|b2 [|b3 p]]]]; simpl in *; try done; try lia;
      by apply lxor_cancel_r in E.
  - apply IH in E; auto with sdpa. by apply mhash_add_hash_inj in E.
Qed.

Lemma hash_bytes_loop_app p q : (length p mod 4 = 0)%nat -> forall h,
  hash_bytes_loop h (p ++ q) = hash_bytes_loop (hash_bytes_loop h p) q.
Proof.
  induction p as [p Hp|b0 b1 b2 b3 p IH] using words_ind; intros Hm h.
  - rewrite Nat.mod_small in Hm by done. by apply nil_length_inv in Hm as ->.
  - simpl. apply IH. simpl length in Hm.
    replace (S (S (S (S (length p))))) with (length p + 1 * 4)%nat in Hm by lia.
    by rewrite Nat.Div0.mod_add in Hm.
Qed.

(** A tail of at most four bytes, hashed from the same state. *)
Lemma hash_bytes_loop_tail_inj h p q : in_u32 h -> bytes_ok p -> bytes_ok q ->
  length p = length q -> (length p <= 4)%nat ->
  hash_bytes_loop h p = hash_bytes_loop h q -> p = q.
Proof.
  intros Hh Hp Hq Hl H4 E.
  apply le_word_inj; [done..|].
  pose proof (le_word_u32 p Hp H4) as Wp.
  pose proof (le_word_u32 q Hq ltac:(lia)) as Wq.
  destruct p as [|a0 [|a1 [|a2 [|a3 [|a4 p]]]]];
    destruct q as [|c0 [|c1 [|c2 [|c3 [|c4 q]]]]]; try discriminate Hl;
    simpl in H4; try lia; cbn [hash_bytes_loop] in E; try done;
    first [ by apply mhash_add___data_inj in E | by apply mhash_add_data_inj in E ].
Qed.

(** Two inputs of [hash_bytes] that differ in one aligned word (the last may
    be shorter) and nowhere else have different hashes. *)
Theorem hash_bytes_one_word basis pre w w' post :
  in_u32 basis -> bytes_ok w -> bytes_ok w' ->
  (length pre mod 4 = 0)%nat -> length w = length w' ->
  (length w = 4 \/ (length w <= 4 /\ post = []))%nat ->
  hash_bytes (pre ++ w ++ post) basis = hash_bytes (pre ++ w' ++ post) basis ->
  w = w'.
Proof.
  intros Hb Hw Hw' Hp Hl Hc E. unfold hash_bytes in E.
  rewrite !length_app, <- Hl in E.
  apply mhash_finish_inj in E; [|auto with sdpa..].
  rewrite (hash_bytes_loop_app pre (w ++ post)) in E by done.
  rewrite (hash_bytes_loop_app pre (w' ++ post)) in E by done.
  assert (Hh : in_u32 (hash_bytes_loop basis pre)) by auto with sdpa.
  destruct Hc as [H4|[H4 ->]].
  - rewrite (hash_bytes_loop_app w), (hash_bytes_loop_app w') in E
      by (rewrite <- ?Hl, H4; done).
    apply hash_bytes_loop_inj in E; [|auto with sdpa..].
    apply hash_bytes_loop_tail_inj in E; try done. lia.
  - rewrite !app_nil_r in E. by apply hash_bytes_loop_tail_inj in E.
Qed.

Lemma hash_bytes_one_word_witness :
  hash_bytes ([] ++ [49; 48; 46; 48] ++ [46; 49]) 0 <> hash_bytes ([] ++ [49; 48; 46; 49] ++ [46; 49]) 0.
Proof.
  intros E.
  assert (H : [49; 48; 46; 48] = [49; 48; 46; 49]).
  { apply (hash_bytes_one_word 0 [] [49; 48; 46; 48] [49; 48; 46; 49] [46; 49]);
      [unfold in_u32; lia|repeat constructor; cbn; lia|repeat constructor; cbn; lia
      |reflexivity|reflexivity|left; reflexivity|exact E]. }
  discriminate H.
Defined.

Lemma fold_mhash_u32 l : forall h, in_u32 h -> in_u32 (fold_left mhash_add l h).
Proof. induction l; simpl; auto with sdpa. Qed.

Lemma fold_mhash_inj l : forall h h', in_u32 h -> in_u32 h' ->
  fold_left mhash_add l h = fold_left mhash_add l h' -> h = h'.
Proof.
  induction l as [|d l IH]; simpl; [done|]. intros h h' Hh Hh' E.
  apply IH in E; auto with sdpa. by apply mhash_add_hash_inj in E.
Qed.

Lemma hash_words_one_word (pre post : list Z) (w w' basis : Z) :
  in_u32 basis -> in_u32 w -> in_u32 w' ->
  hash_words (pre ++ w :: post) basis = hash_words (pre ++ w' :: post) basis ->
  w = w'.
Proof.
  intros Hb Hw Hw' E. unfold hash_words in E.
  rewrite !length_app, !fold_left_app in E. simpl in E.
  pose proof (fold_mhash_u32 pre basis Hb).
  apply mhash_finish_inj in E; [|apply fold_mhash_u32; auto with sdpa..].
  apply fold_mhash_inj in E; [|auto with sdpa..].
  apply mhash_add_data_inj in E; auto.
Qed.

Lemma hash_int_inj_l x y basis : in_u32 x -> in_u32 y ->
  hash_int x basis = hash_int y basis -> x = y.
Proof.
  intros Hx Hy E. unfold hash_int, hash_2words in E.
  apply mhash_finish_inj in E; [|auto with sdpa..].
  do 2 (apply mhash_add_hash_inj in E; [|auto with sdpa..]). done.
Qed.
