(* ===== verification/Csum.v ===== *)
(** * The Internet checksum ([lib/csum.c])

    Ones-complement sums of 16-bit words, the checksum of a block of bytes and
    its incremental update when a field of the block changes.  A 16-bit word of
    the block is read in the byte order of the host, little-endian here, which
    is what the source does: the checksum then has the byte order of the
    data. *)

From Stdlib Require Import ZArith Lia List.
From stdpp Require Import base list option.
From S2P Require Import Prelude Bytes Hash.
#[local] Open Scope Z_scope.

(** ** The program *)

Definition csum_add16 (partial new : Z) : Z := u32 (partial + new).

Definition csum_add32 (partial new : Z) : Z :=
  u32 (partial + Z.shiftr new 16 + Z.land new 0xffff).

(** [data] holds the [n] bytes. *)
Fixpoint csum_continue (partial : Z) (data : list Z) {struct data} : Z :=
  match data with
  | b0 :: b1 :: data => csum_continue (csum_add16 partial (le_word [b0; b1])) data
  | [b] => u32 (partial + b)
  | [] => partial
  end.

(** The loop of [csum_finish]; [fuel] bounds its iterations. *)
Fixpoint csum_finish_loop (fuel : nat) (partial : Z) {struct fuel} : Z :=
  match fuel with
  | O => partial
  | S fuel =>
      if negb (Z.shiftr partial 16 =? 0)
      then csum_finish_loop fuel (u32 (Z.land partial 0xffff + Z.shiftr partial 16))
      else partial
  end.

(** A 32-bit sum needs two iterations at most. *)
Definition csum_finish (partial : Z) : Z := u16 (Z.lnot (csum_finish_loop 2 partial)).

Definition csum (data : list Z) : Z := csum_finish (csum_continue 0 data).

Definition recalc_csum16 (old_csum old_u16 new_u16 : Z) : Z :=
  let hc_complement := u16 (Z.lnot old_csum) in
  let m_complement := u16 (Z.lnot old_u16) in
  let m_prime := new_u16 in
  let sum := u32 (hc_complement + m_complement + m_prime) in
  csum_finish sum.

Definition recalc_csum32 (old_csum old_u32 new_u32 : Z) : Z :=
  recalc_csum16 (recalc_csum16 old_csum (u16 old_u32) (u16 new_u32))
    (u16 (Z.shiftr old_u32 16)) (u16 (Z.shiftr new_u32 16)).

(** [old_u32] and [new_u32] are arrays of four words. *)
Fixpoint recalc_csum128_loop (new_csum : Z) (old_u32 new_u32 : list Z)
  {struct old_u32} : Z :=
  match old_u32, new_u32 with
  | o :: old_u32, n :: new_u32 => recalc_csum128_loop (recalc_csum32 new_csum o n) old_u32 new_u32
  | _, _ => new_csum
  end.
Definition recalc_csum128 (old_csum : Z) (old_u32 new_u32 : list Z) : Z :=
  recalc_csum128_loop old_csum (take 4 old_u32) (take 4 new_u32).

(** ** The sum of a block *)

(** The 16-bit words of a block, the last one padded with a zero byte. *)
Fixpoint words16 (data : list Z) : list Z :=
  match data with
  | b0 :: b1 :: data => le_word [b0; b1] :: words16 data
  | [b] => [b]
  | [] => []
  end.

Definition sum_list (l : list Z) : Z := foldr Z.add 0 l.
Definition sum16 (data : list Z) : Z := sum_list (words16 data).

Fixpoint words32 (data : list Z) : list Z :=
  match data with
  | b0 :: b1 :: b2 :: b3 :: data => le_word [b0; b1; b2; b3] :: words32 data
  | _ => []
  end.

Definition le16_bytes (x : Z) : list Z := [x mod 2 ^ 8; x / 2 ^ 8].

(** The ones-complement sum of a total: its residue modulo 65535, where only
    the total zero is represented by zero. *)
Definition ones (x : Z) : Z := if x =? 0 then 0 else (x - 1) mod 65535 + 1.

(** Blocks of an even number of bytes. *)
Inductive even_bytes : list Z -> Prop :=
  | even_nil : even_bytes []
  | even_cons b0 b1 data : even_bytes data -> even_bytes (b0 :: b1 :: data).

Lemma even_bytes_length data : (length data mod 2 = 0)%nat -> even_bytes data.
Proof.
  remember (length data) as n eqn:E. revert data E.
  induction n as [n IH] using lt_wf_ind. intros [|b0 [|b1 data]] -> Hn.
  - constructor.
  - done.
  - constructor. eapply IH; [|reflexivity|].
    + simpl. lia.
    + simpl length in Hn.
      replace (S (S (length data))) with (length data + 1 * 2)%nat in Hn by lia.
      by rewrite Nat.Div0.mod_add in Hn.
Qed.

Lemma pairs_ind (P : list Z -> Prop) :
  P [] -> (forall b, P [b]) -> (forall b0 b1 l, P l -> P (b0 :: b1 :: l)) -> forall l, P l.
Proof.
  intros H0 H1 H2. fix IH 1. intros [|b0 [|b1 l]]; [done|apply H1|apply H2, IH].
Qed.

Lemma le_word2 b0 b1 : le_word [b0; b1] = b0 + 2 ^ 8 * b1.
Proof. unfold le_word. simpl foldr. lia. Qed.

Lemma le_word4 b0 b1 b2 b3 :
  le_word [b0; b1; b2; b3] = le_word [b0; b1] + 2 ^ 16 * le_word [b2; b3].
Proof. unfold le_word. simpl foldr. lia. Qed.

Lemma le_word16_range b0 b1 : in_u8 b0 -> in_u8 b1 -> in_u16 (le_word [b0; b1]).
Proof. unfold in_u8, in_u16. rewrite le_word2. lia. Qed.

Lemma le_word_le16 x : in_u16 x -> le_word (le16_bytes x) = x.
Proof. unfold in_u16, le16_bytes. rewrite le_word2. intros. zdm. Qed.

Lemma le16_bytes_ok x : in_u16 x -> bytes_ok (le16_bytes x).
Proof.
  unfold in_u16, le16_bytes, bytes_ok, in_u8. intros Hx.
  repeat constructor; zdm.
Qed.

Lemma bytes_ok_2 b0 b1 data : bytes_ok (b0 :: b1 :: data) -> in_u8 b0 /\ in_u8 b1 /\ bytes_ok data.
Proof. unfold bytes_ok. rewrite !Forall_cons_iff. tauto. Qed.

Lemma words16_range data : bytes_ok data -> Forall in_u16 (words16 data).
Proof.
  induction data as [|b|b0 b1 data IH] using pairs_ind; intros H; simpl; constructor;
    try (by constructor).
  - apply Forall_inv in H. unfold in_u8, in_u16 in *. lia.
  - apply bytes_ok_2 in H as (? & ? & _). by apply le_word16_range.
  - apply IH. apply bytes_ok_2 in H. tauto.
Qed.

Lemma sum_list_range l : Forall in_u16 l ->
  0 <= sum_list l <= 65535 * Z.of_nat (length l).
Proof.
  unfold in_u16, sum_list. induction 1 as [|x l Hx Hl IH]; simpl foldr; simpl length; lia.
Qed.

Lemma length_words16 data : Z.of_nat (length (words16 data)) = (Z.of_nat (length data) + 1) / 2.
Proof.
  induction data as [|b|b0 b1 data IH] using pairs_ind; try done.
  simpl words16. simpl length. rewrite !Nat2Z.inj_succ, IH. zdm.
Qed.

(** The largest block whose sum fits in 32 bits. *)
Definition CSUM_MAX : Z := 131074.

Lemma sum16_range data : bytes_ok data -> Z.of_nat (length data) <= CSUM_MAX ->
  0 <= sum16 data < 2 ^ 32.
Proof.
  intros Hb Hl. pose proof (sum_list_range _ (words16_range _ Hb)) as H.
  rewrite length_words16 in H. unfold sum16, CSUM_MAX in *.
  assert ((Z.of_nat (length data) + 1) / 2 <= 65537) by zdm. lia.
Qed.

Lemma sum16_app pre post : even_bytes pre -> sum16 (pre ++ post) = sum16 pre + sum16 post.
Proof.
  unfold sum16, sum_list. induction 1 as [|b0 b1 data H IH]; [done|].
  simpl words16. simpl foldr. rewrite IH. lia.
Qed.

Lemma even_bytes_app pre post : even_bytes pre -> even_bytes post -> even_bytes (pre ++ post).
Proof. induction 1; intros; simpl; [done|]. constructor. auto. Qed.

Lemma sum16_le16 x : in_u16 x -> sum16 (le16_bytes x) = x.
Proof.
  intros Hx. change (sum16 (le16_bytes x)) with (le_word (le16_bytes x) + 0).
  rewrite le_word_le16 by done. lia.
Qed.

Lemma sum16_nonneg data : bytes_ok data -> 0 <= sum16 data.
Proof. intros Hb. apply (sum_list_range _ (words16_range _ Hb)). Qed.

Lemma sum16_zero data : bytes_ok data -> sum16 data = 0 -> Forall (fun b => b = 0) data.
Proof.
  induction data as [|b|b0 b1 data IH] using pairs_ind; intros H Hs; [constructor| |].
  - constructor; [|constructor]. unfold sum16, sum_list in Hs. simpl in Hs. lia.
  - apply bytes_ok_2 in H as (H0 & H1 & H2).
    pose proof (le_word16_range _ _ H0 H1) as Hw. pose proof (sum16_nonneg _ H2).
    change (sum16 (b0 :: b1 :: data)) with (le_word [b0; b1] + sum16 data) in Hs.
    unfold in_u16, in_u8 in *. rewrite le_word2 in *.
    assert (sum16 data = 0) by lia. repeat constructor; [lia|lia|auto].
Qed.

Lemma sum16_zeros data : Forall (fun b => b = 0) data -> sum16 data = 0.
Proof.
  induction data as [|b|b0 b1 data IH] using pairs_ind; intros H; [done| |].
  - apply Forall_inv in H. by subst.
  - rewrite !Forall_cons_iff in H. destruct H as (-> & -> & H).
    change (sum16 (0 :: 0 :: data)) with (0 + sum16 data). rewrite IH by done. done.
Qed.

(** ** Folding the carries *)

Lemma ones_small x : 0 <= x <= 65535 -> ones x = x.
Proof. intros Hx. unfold ones. case_bool; [lia|]. rewrite Z.mod_small; lia. Qed.

Lemma ones_range x : 0 <= x -> 0 <= ones x <= 65535 /\ (ones x = 0 <-> x = 0).
Proof.
  intros Hx. unfold ones. case_bool; [lia|].
  pose proof (Z.mod_pos_bound (x - 1) 65535 ltac:(lia)). lia.
Qed.

Lemma ones_cong x y : 0 < x -> 0 < y -> x mod 65535 = y mod 65535 -> ones x = ones y.
Proof.
  intros Hx Hy E. unfold ones. case_bool; [lia|]. case_bool; [lia|]. f_equal.
  rewrite <- (Zminus_mod_idemp_l x), <- (Zminus_mod_idemp_l y). by rewrite E.
Qed.

Lemma ones_mod x : 0 <= x -> ones x mod 65535 = x mod 65535.
Proof.
  intros Hx. unfold ones. case_bool; [by subst|].
  rewrite Zplus_mod_idemp_l. f_equal. lia.
Qed.

Lemma fold_carry p : in_u32 p ->
  u32 (Z.land p 0xffff + Z.shiftr p 16) = p mod 2 ^ 16 + p / 2 ^ 16.
Proof.
  unfold in_u32. intros Hp. change 0xffff with (2 ^ 16 - 1).
  rewrite land_mask, Z.shiftr_div_pow2 by lia. apply u32_id. unfold in_u32. zdm.
Qed.

Lemma ones_fold p : 0 <= p -> ones (p mod 2 ^ 16 + p / 2 ^ 16) = ones p.
Proof.
  intros Hp. destruct (Z.eq_dec p 0) as [->|]; [done|].
  apply ones_cong; [zdm|lia|]. rewrite (Z.div_mod p (2 ^ 16)) at 3 by lia.
  rewrite <- (Z.mod_add (p mod 2 ^ 16 + p / 2 ^ 16) (p / 2 ^ 16) 65535) by lia.
  f_equal. lia.
Qed.

Lemma csum_finish_loop_step fuel p : in_u32 p ->
  csum_finish_loop (S fuel) p =
    if p <? 2 ^ 16 then p else csum_finish_loop fuel (p mod 2 ^ 16 + p / 2 ^ 16).
Proof.
  intros Hp. cbn [csum_finish_loop]. rewrite fold_carry by done.
  rewrite Z.shiftr_div_pow2 by lia. unfold in_u32 in Hp.
  destruct (Z.ltb_spec p (2 ^ 16)).
  - by rewrite Z.div_small by lia.
  - case_bool; [|done]. exfalso. zdm.
Qed.

(** From two iterations on the loop has ended, on the ones-complement sum. *)
Lemma csum_finish_loop_spec fuel p : in_u32 p -> (2 <= fuel)%nat ->
  csum_finish_loop fuel p = ones p.
Proof.
  unfold in_u32. intros Hp Hf. destruct fuel as [|[|fuel]]; [lia|lia|].
  rewrite csum_finish_loop_step by done.
  destruct (Z.ltb_spec p (2 ^ 16)); [by rewrite ones_small by lia|].
  set (q := p mod 2 ^ 16 + p / 2 ^ 16).
  assert (Hq : 0 < q <= 131070) by (unfold q; zdm).
  rewrite csum_finish_loop_step by (unfold in_u32; lia).
  destruct (Z.ltb_spec q (2 ^ 16)).
  { rewrite <- (ones_fold p) by lia. fold q. by rewrite ones_small by lia. }
  set (r := q mod 2 ^ 16 + q / 2 ^ 16).
  assert (Hr : 0 < r <= 65535) by (unfold r; zdm).
  assert (E : csum_finish_loop fuel r = r).
  { destruct fuel; [done|]. rewrite csum_finish_loop_step by (unfold in_u32; lia).
    case_bool; lia. }
  rewrite E. rewrite <- (ones_fold p) by lia. fold q.
  rewrite <- (ones_fold q) by lia. fold r. by rewrite ones_small by lia.
Qed.

Lemma u16_lnot x : in_u16 x -> u16 (Z.lnot x) = 65535 - x.
Proof.
  unfold in_u16, u16. intros Hx. replace (Z.lnot x) with (65535 - x + (-1) * 2 ^ 16).
  - rewrite Z.mod_add by lia. apply Z.mod_small. lia.
  - unfold Z.lnot. lia.
Qed.

Lemma csum_finish_spec p : in_u32 p -> csum_finish p = 65535 - ones p.
Proof.
  intros Hp. unfold csum_finish. rewrite csum_finish_loop_spec by (done || lia).
  unfold in_u32 in Hp. pose proof (ones_range p ltac:(lia)).
  apply u16_lnot. unfold in_u16. lia.
Qed.

(** ** The checksum of a block *)

Lemma csum_continue_spec data partial : bytes_ok data -> 0 <= partial ->
  partial + sum16 data < 2 ^ 32 -> csum_continue partial data = partial + sum16 data.
Proof.
  revert partial. induction data as [|b|b0 b1 data IH] using pairs_ind; intros p Hb Hp Hs.
  - unfold sum16. simpl. lia.
  - unfold sum16 in *. simpl in *. apply Forall_inv in Hb. unfold in_u8 in Hb.
    rewrite u32_id by (unfold in_u32; lia). lia.
  - apply bytes_ok_2 in Hb as (H0 & H1 & H2).
    pose proof (le_word16_range _ _ H0 H1) as Hw. unfold in_u16 in Hw.
    pose proof (sum16_nonneg _ H2).
    change (sum16 (b0 :: b1 :: data)) with (le_word [b0; b1] + sum16 data) in *.
    cbn [csum_continue]. unfold csum_add16. rewrite u32_id by (unfold in_u32; lia).
    rewrite IH by (done || lia). lia.
Qed.

Lemma csum_spec data : bytes_ok data -> Z.of_nat (length data) <= CSUM_MAX ->
  csum data = 65535 - ones (sum16 data).
Proof.
  intros Hb Hl. pose proof (sum16_range _ Hb Hl). unfold csum.
  rewrite csum_continue_spec by (done || lia).
  rewrite Z.add_0_l. by apply csum_finish_spec.
Qed.

Lemma split16_lo lo hi : 0 <= lo < 2 ^ 16 -> (lo + 2 ^ 16 * hi) mod 2 ^ 16 = lo.
Proof. intros H. zdm. Qed.
Lemma split16_hi lo hi : 0 <= lo < 2 ^ 16 -> (lo + 2 ^ 16 * hi) / 2 ^ 16 = hi.
Proof. intros H. zdm. Qed.

(** A block summed in two parts, the first of even length. *)
Lemma csum_continue_app pre post partial : even_bytes pre ->
  csum_continue partial (pre ++ post) = csum_continue (csum_continue partial pre) post.
Proof. intros H. revert partial. induction H as [|b0 b1 data H IH]; intros p; simpl; auto. Qed.

(** [csum_add32] adds the four bytes of its operand. *)
Lemma csum_add32_bytes b0 b1 b2 b3 partial :
  bytes_ok [b0; b1; b2; b3] ->
  csum_add32 partial (le_word [b0; b1; b2; b3]) = csum_continue partial [b0; b1; b2; b3].
Proof.
  intros (H0 & H1 & (H2 & H3 & _)%bytes_ok_2)%bytes_ok_2.
  pose proof (le_word16_range _ _ H0 H1) as W1. pose proof (le_word16_range _ _ H2 H3) as W2.
  unfold csum_add32. cbn [csum_continue]. unfold csum_add16, u32.
  rewrite le_word4. change 0xffff with (2 ^ 16 - 1). unfold in_u16 in *.
  rewrite land_mask, Z.shiftr_div_pow2 by lia.
  rewrite split16_lo, split16_hi by done.
  rewrite Zplus_mod_idemp_l. f_equal. lia.
Qed.

(** A checksum field [c] at an even offset of a block. *)
Lemma sum16_field pre c post : even_bytes pre -> in_u16 c ->
  sum16 (pre ++ le16_bytes c ++ post) = sum16 pre + c + sum16 post.
Proof.
  intros He Hc. rewrite sum16_app by done. rewrite sum16_app by repeat constructor.
  rewrite sum16_le16 by done. lia.
Qed.

Lemma bytes_ok_field pre f post : bytes_ok pre -> bytes_ok f -> bytes_ok post ->
  bytes_ok (pre ++ f ++ post).
Proof. unfold bytes_ok. rewrite !List.Forall_app. auto. Qed.

Lemma field_length pre (f f' : list Z) post : length f = length f' ->
  length (pre ++ f ++ post) = length (pre ++ f' ++ post).
Proof. intros E. rewrite !length_app. lia. Qed.

(** The receiver's test of a checksum, [csum] of the block with its
    checksum field being zero, accepts exactly the checksum that [csum]
    computes over the block with that field zeroed, and besides it only the
    other ones-complement zero, 0xffff, when that checksum is 0. *)
Theorem csum_check pre c post :
  even_bytes pre -> bytes_ok pre -> bytes_ok post -> in_u16 c ->
  Z.of_nat (length (pre ++ le16_bytes c ++ post)) <= CSUM_MAX ->
  let k := csum (pre ++ le16_bytes 0 ++ post) in
  csum (pre ++ le16_bytes c ++ post) = 0 <-> c = k \/ c = 0xffff /\ k = 0.
Proof.
  intros He Hb1 Hb2 Hc Hl k.
  assert (Z0 : in_u16 0) by (unfold in_u16; lia).
  assert (Ek : k = 65535 - ones (sum16 pre + sum16 post)).
  { unfold k. rewrite csum_spec, sum16_field;
      auto using bytes_ok_field, le16_bytes_ok; [do 2 f_equal; lia|].
    by erewrite field_length. }
  rewrite csum_spec, sum16_field by auto using bytes_ok_field, le16_bytes_ok.
  pose proof (sum16_nonneg _ Hb1). pose proof (sum16_nonneg _ Hb2).
  rewrite Ek. clearbody k. clear Ek k Hl. unfold in_u16 in Hc.
  replace (sum16 pre + c + sum16 post) with (sum16 pre + sum16 post + c) by lia.
  set (s := sum16 pre + sum16 post) in *. assert (Hs : 0 <= s) by lia. clearbody s.
  pose proof (ones_range s Hs) as [Hr Hz]. pose proof (ones_range (s + c) ltac:(lia)) as [Hr' Hz'].
  assert (Hm : ones (s + c) mod 65535 = (ones s + c) mod 65535).
  { rewrite ones_mod by lia. rewrite <- (Zplus_mod_idemp_l (ones s)), ones_mod by lia.
    by rewrite Zplus_mod_idemp_l. }
  clear -Hc Hs Hr Hz Hr' Hz' Hm. split; intros E.
  - assert (ones (s + c) = 65535) as E1 by lia. rewrite E1 in Hm.
    assert (ones s + c = 0 \/ ones s + c = 65535 \/ ones s + c = 131070) by zdm. lia.
  - assert (ones (s + c) mod 65535 = 0) as E1 by (rewrite Hm; destruct E as [->|[-> E]]; zdm).
    assert (ones (s + c) = 0 \/ ones (s + c) = 65535) by zdm. lia.
Qed.

(** A header of 20 bytes with its checksum at offset 10. *)
Definition csum_check_pre : list Z := [0x45; 0; 0; 0x54; 0; 0; 0x40; 0; 0x40; 1].
Definition csum_check_post : list Z := [10; 0; 0; 1; 10; 0; 0; 2].

Lemma csum_check_witness :
  csum (csum_check_pre ++ le16_bytes 0xa726 ++ csum_check_post) = 0.
Proof.
  apply (csum_check csum_check_pre 0xa726 csum_check_post).
  - repeat constructor.
  - repeat constructor; unfold in_u8; lia.
  - repeat constructor; unfold in_u8; lia.
  - unfold in_u16. lia.
  - vm_compute. discriminate.
  - left. vm_compute. reflexivity.
Defined.

(** ** Incremental update *)

(** [c] is a checksum of the total [s], up to the two zeros. *)
Definition stands_for (c s : Z) : Prop := in_u16 c /\ (c + s) mod 65535 = 0.

Lemma stands_for_csum s : 0 <= s -> stands_for (65535 - ones s) s.
Proof.
  intros Hs. pose proof (ones_range s Hs). split; [unfold in_u16; lia|].
  rewrite <- Zplus_mod_idemp_r, <- (ones_mod s) by lia. rewrite Zplus_mod_idemp_r.
  by replace (65535 - ones s + ones s) with 65535 by lia.
Qed.

(** A checksum other than 0xffff of a nonzero total is the one [csum] returns. *)
Lemma stands_for_unique c s : 0 < s -> c <> 0xffff -> stands_for c s -> c = 65535 - ones s.
Proof.
  intros Hs Hc [Hu Hm]. unfold in_u16 in Hu. pose proof (ones_range s ltac:(lia)).
  rewrite <- Zplus_mod_idemp_r, <- (ones_mod s) in Hm by lia.
  rewrite Zplus_mod_idemp_r in Hm.
  assert (c + ones s = 65535 \/ c + ones s = 131070) by zdm. lia.
Qed.

Lemma recalc_csum16_stands c s o n : stands_for c s -> in_u16 o -> in_u16 n ->
  (c = 0xffff -> o <> 0xffff) ->
  stands_for (recalc_csum16 c o n) (s - o + n) /\ recalc_csum16 c o n <> 0xffff.
Proof.
  intros [Hc Hm] Ho Hn Hz. unfold recalc_csum16. rewrite !u16_lnot by done.
  unfold in_u16 in *. rewrite u32_id by (unfold in_u32; lia).
  set (t := 65535 - c + (65535 - o) + n). assert (Ht : 0 < t) by lia.
  rewrite csum_finish_spec by (unfold in_u32; lia).
  pose proof (ones_range t ltac:(lia)). split; [split; [unfold in_u16; lia|]|lia].
  replace (65535 - ones t + (s - o + n)) with ((s - o + n + 65535) - ones t) by lia.
  rewrite <- Zminus_mod_idemp_r, ones_mod, Zminus_mod_idemp_r by lia.
  unfold t. rewrite <- Hm. rewrite <- (Z.mod_add _ 1 65535) by lia. f_equal. lia.
Qed.

Lemma recalc_csum32_stands c s b0 b1 b2 b3 d0 d1 d2 d3 :
  let olo := le_word [b0; b1] in let ohi := le_word [b2; b3] in
  let nlo := le_word [d0; d1] in let nhi := le_word [d2; d3] in
  stands_for c s -> bytes_ok [b0; b1; b2; b3] -> bytes_ok [d0; d1; d2; d3] ->
  (c = 0xffff -> olo <> 0xffff) ->
  let c' := recalc_csum32 c (le_word [b0; b1; b2; b3]) (le_word [d0; d1; d2; d3]) in
  stands_for c' (s - olo - ohi + nlo + nhi) /\ c' <> 0xffff.
Proof.
  intros olo ohi nlo nhi Hc (H0 & H1 & (H2 & H3 & _)%bytes_ok_2)%bytes_ok_2
    (G0 & G1 & (G2 & G3 & _)%bytes_ok_2)%bytes_ok_2 Hz c'.
  pose proof (le_word16_range _ _ H0 H1) as W1. pose proof (le_word16_range _ _ H2 H3) as W2.
  pose proof (le_word16_range _ _ G0 G1) as W3. pose proof (le_word16_range _ _ G2 G3) as W4.
  unfold c', recalc_csum32. rewrite !le_word4. fold olo ohi nlo nhi.
  change (le_word [b0; b1]) with olo in W1. change (le_word [b2; b3]) with ohi in W2.
  change (le_word [d0; d1]) with nlo in W3. change (le_word [d2; d3]) with nhi in W4.
  rewrite !Z.shiftr_div_pow2 by lia. unfold u16.
  clearbody olo ohi nlo nhi. unfold in_u16 in *.
  rewrite !split16_lo, !split16_hi by done. rewrite (Z.mod_small ohi), (Z.mod_small nhi) by lia.
  destruct (recalc_csum16_stands c s olo nlo Hc W1 W3 Hz) as [Hc1 Hn1].
  destruct (recalc_csum16_stands _ _ ohi nhi Hc1 W2 W4) as [Hc2 Hn2]; [done|].
  split; [|done].
  by replace (s - olo - ohi + nlo + nhi) with (s - olo + nlo - ohi + nhi) by lia.
Qed.

Lemma recalc_csum128_stands old : forall new c s, bytes_ok old -> bytes_ok new ->
  (length old mod 4 = 0)%nat -> length new = length old ->
  stands_for c s -> (c = 0xffff -> Forall (fun b => b = 0) old) ->
  let c' := recalc_csum128_loop c (words32 old) (words32 new) in
  stands_for c' (s - sum16 old + sum16 new) /\ (old <> [] -> c' <> 0xffff).
Proof.
  induction old as [old Hs|b0 b1 b2 b3 old IH] using words_ind;
    intros new c s Hb Hb' Hm Hl Hc Hz.
  - rewrite Nat.mod_small in Hm by done. apply nil_length_inv in Hm as ->.
    apply nil_length_inv in Hl as ->. simpl. split; [|done].
    by replace (s - sum16 [] + sum16 []) with s by (unfold sum16; simpl; lia).
  - destruct new as [|d0 [|d1 [|d2 [|d3 new]]]]; try discriminate Hl.
    change (b0 :: b1 :: b2 :: b3 :: old) with ([b0; b1; b2; b3] ++ old) in *.
    change (d0 :: d1 :: d2 :: d3 :: new) with ([d0; d1; d2; d3] ++ new) in *.
    unfold bytes_ok in Hb, Hb'. apply List.Forall_app in Hb as [Hb1 Hb2], Hb' as [Hb1' Hb2'].
    rewrite !sum16_app by repeat constructor.
    destruct (recalc_csum32_stands c s b0 b1 b2 b3 d0 d1 d2 d3 Hc Hb1 Hb1') as [Hc1 Hn1].
    { intros E. specialize (Hz E). rewrite List.Forall_app, !Forall_cons_iff in Hz.
      destruct Hz as ((-> & -> & _) & _). done. }
    assert (Hm' : (length old mod 4 = 0)%nat).
    { rewrite length_app in Hm. simpl length in Hm.
      replace (4 + length old)%nat with (length old + 1 * 4)%nat in Hm by lia.
      by rewrite Nat.Div0.mod_add in Hm. }
    assert (Hl' : length new = length old) by (rewrite !length_app in Hl; simpl in Hl; lia).
    destruct (IH new _ _ Hb2 Hb2' Hm' Hl' Hc1) as [Hc2 Hn2]; [intros E; destruct (Hn1 E)|].
    cbn [app words32 recalc_csum128_loop]. split.
    + replace (sum16 [b0; b1; b2; b3]) with (le_word [b0; b1] + le_word [b2; b3])
        by (unfold sum16, sum_list; simpl; lia).
      replace (sum16 [d0; d1; d2; d3]) with (le_word [d0; d1] + le_word [d2; d3])
        by (unfold sum16, sum_list; simpl; lia).
      match goal with |- stands_for _ ?x => match type of Hc2 with stands_for _ ?y =>
        replace x with y by lia end end. exact Hc2.
    + intros _. destruct old; [|by apply Hn2]. by apply nil_length_inv in Hl' as ->.
Qed.

(** The total of a block whose field changes from [old] to [new]. *)
Lemma sum16_replace pre old new post : even_bytes pre -> even_bytes old -> even_bytes new ->
  sum16 (pre ++ new ++ post) = sum16 (pre ++ old ++ post) - sum16 old + sum16 new.
Proof. intros Hp Ho Hn. rewrite !sum16_app by done. lia. Qed.

(** A field as the caller passes it: its bytes as one or several words. *)
Lemma recalc_field pre old new post c' :
  bytes_ok (pre ++ old ++ post) -> bytes_ok (pre ++ new ++ post) ->
  Z.of_nat (length (pre ++ new ++ post)) <= CSUM_MAX ->
  even_bytes pre -> even_bytes old -> even_bytes new ->
  ~ Forall (fun b => b = 0) (pre ++ new ++ post) ->
  stands_for c' (sum16 (pre ++ old ++ post) - sum16 old + sum16 new) -> c' <> 0xffff ->
  c' = csum (pre ++ new ++ post).
Proof.
  intros Hb Hb' Hl Hp Ho Hn Hz Hc' Hne. rewrite <- sum16_replace in Hc' by done.
  rewrite csum_spec by done. pose proof (sum16_nonneg _ Hb').
  apply stands_for_unique; [|done|done].
  destruct (Z.eq_dec (sum16 (pre ++ new ++ post)) 0) as [E|]; [|lia].
  destruct Hz. by apply sum16_zero.
Qed.

(** C28. Updating a checksum incrementally gives the checksum that [csum]
    computes over the changed block, for a field of 2, 4 or 16 bytes at an even
    offset, unless the change makes the whole block zero.  No condition is put
    on the intermediate checksums of the longer fields. *)
Theorem recalc_csum_correct pre old new post :
  even_bytes pre -> bytes_ok pre -> bytes_ok old -> bytes_ok new -> bytes_ok post ->
  Z.of_nat (length (pre ++ old ++ post)) <= CSUM_MAX -> length new = length old ->
  ~ Forall (fun b => b = 0) (pre ++ new ++ post) ->
  let c := csum (pre ++ old ++ post) in
  let c' := csum (pre ++ new ++ post) in
  (length old = 2%nat -> recalc_csum16 c (le_word old) (le_word new) = c') /\
  (length old = 4%nat -> recalc_csum32 c (le_word old) (le_word new) = c') /\
  (length old = 16%nat -> recalc_csum128 c (words32 old) (words32 new) = c').
Proof.
  intros He Hb1 Ho Hn Hb2 Hl Hlen Hz c c'.
  assert (Hb : bytes_ok (pre ++ old ++ post)) by auto using bytes_ok_field.
  assert (Hb' : bytes_ok (pre ++ new ++ post)) by auto using bytes_ok_field.
  assert (Hl' : Z.of_nat (length (pre ++ new ++ post)) <= CSUM_MAX) by (by erewrite field_length).
  pose proof (sum16_nonneg _ Hb) as H0.
  assert (Hc : stands_for c (sum16 (pre ++ old ++ post))).
  { unfold c. rewrite csum_spec by done. by apply stands_for_csum. }
  assert (Hc0 : c = 0xffff -> Forall (fun b => b = 0) old).
  { unfold c. rewrite csum_spec by done. intros E.
    pose proof (ones_range _ H0) as [_ [Hs _]]. specialize (Hs ltac:(lia)).
    apply sum16_zero in Hs; [|done]. rewrite !List.Forall_app in Hs. tauto. }
  clearbody c. split; [|split]; intros E; unfold c'.
  - destruct old as [|b0 [|b1 [|]]]; try discriminate E.
    destruct new as [|d0 [|d1 [|]]]; try discriminate Hlen.
    apply bytes_ok_2 in Ho as (? & ? & _), Hn as (? & ? & _).
    edestruct (recalc_csum16_stands c _ (le_word [b0; b1]) (le_word [d0; d1]) Hc) as [Hs Hne];
      auto using le_word16_range.
    { intros Ec. specialize (Hc0 Ec). rewrite !Forall_cons_iff in Hc0.
      by destruct Hc0 as (-> & -> & _). }
    apply (recalc_field pre [b0; b1]); auto using even_bytes.
    change (sum16 [b0; b1]) with (le_word [b0; b1] + 0).
    change (sum16 [d0; d1]) with (le_word [d0; d1] + 0). by rewrite !Z.add_0_r.
  - destruct old as [|b0 [|b1 [|b2 [|b3 [|]]]]]; try discriminate E.
    destruct new as [|d0 [|d1 [|d2 [|d3 [|]]]]]; try discriminate Hlen.
    destruct (recalc_csum128_stands _ _ c _ Ho Hn eq_refl eq_refl Hc Hc0) as [Hs Hne].
    apply (recalc_field pre [b0; b1; b2; b3]); auto using even_bytes.
  - assert (Hm : (length old mod 4 = 0)%nat) by (rewrite E; reflexivity).
    destruct (recalc_csum128_stands old new c _ Ho Hn Hm Hlen Hc Hc0) as [Hs Hne].
    unfold recalc_csum128.
    assert (Hw : forall l, length l = 16%nat -> take 4 (words32 l) = words32 l).
    { clear. intros l Hl.
      do 17 (destruct l as [|? l]; try discriminate Hl). reflexivity. }
    rewrite !Hw by congruence.
    apply (recalc_field pre old); auto; try (apply even_bytes_length; rewrite ?Hlen, E; reflexivity).
    apply Hne. by destruct old.
Qed.

(** Rewriting the source address of the header above. *)
Lemma recalc_csum_correct_witness :
  let pre := csum_check_pre ++ [0; 0] in
  let post := [10; 0; 0; 2] in
  recalc_csum32 (csum (pre ++ [10; 0; 0; 1] ++ post)) (le_word [10; 0; 0; 1]) (le_word [192; 168; 0; 7])
  = csum (pre ++ [192; 168; 0; 7] ++ post).
Proof.
  intros pre post.
  refine (proj1 (proj2 (recalc_csum_correct pre [10; 0; 0; 1] [192; 168; 0; 7] post
    _ _ _ _ _ _ _ _)) _).
  - repeat constructor.
  - repeat constructor; unfold in_u8; lia.
  - repeat constructor; unfold in_u8; lia.
  - repeat constructor; unfold in_u8; lia.
  - repeat constructor; unfold in_u8; lia.
  - vm_compute. discriminate.
  - reflexivity.
  - intros H. apply Forall_inv in H. discriminate H.
  - reflexivity.
Defined.

(** The length bound is tight: one more word of ones loses a carry of the
    32-bit sum, and the checksum is not the ones-complement one. *)
Fixpoint ones_block (n : nat) : list Z :=
  match n with O => [] | S n => 0xff :: 0xff :: ones_block n end.

Lemma ones_block_spec n :
  even_bytes (ones_block n) /\ bytes_ok (ones_block n) /\
  sum16 (ones_block n) = 65535 * Z.of_nat n.
Proof.
  induction n as [|n (He & Hb & Hs)]; [repeat constructor|].
  cbn [ones_block]. split; [by constructor|]. split.
  - repeat constructor; unfold in_u8; lia || done.
  - change (sum16 (0xff :: 0xff :: ones_block n)) with (65535 + sum16 (ones_block n)). lia.
Qed.

Lemma csum_wraps n : Z.of_nat n = 65537 ->
  csum (ones_block n ++ [0xff; 0xff]) = 1 /\
  65535 - ones (sum16 (ones_block n ++ [0xff; 0xff])) = 0.
Proof.
  intros Hn. destruct (ones_block_spec n) as (He & Hb & Hs). split.
  - unfold csum. rewrite csum_continue_app by done.
    rewrite (csum_continue_spec (ones_block n)) by (done || lia). rewrite Hs, Hn. reflexivity.
  - rewrite sum16_app by done. rewrite Hs, Hn. reflexivity.
Qed.

(** When the change makes the whole block zero the two disagree by the choice
    of the zero: [csum] gives 0xffff and the update gives 0. *)
Lemma recalc_csum16_zero : recalc_csum16 (csum [1; 0]) 1 0 = 0 /\ csum [0; 0] = 0xffff.
Proof. vm_compute. split; reflexivity. Qed.
