(* ===== verification/Crc32c.v ===== *)
(** * The CRC-32C checksum of SCTP ([lib/crc32c.c])

    The table-driven computation, and its equivalence with the bit-by-bit
    division by the Castagnoli polynomial. *)

From Stdlib Require Import ZArith Lia List.
From stdpp Require Import base list option.
From S2P Require Import Prelude Hash.
#[local] Open Scope Z_scope.

(** ** The program *)

Definition crc32Table : list Z := [
  0x00000000; 0xf26b8303; 0xe13b70f7; 0x1350f3f4; 0xc79a971f; 0x35f1141c;
  0x26a1e7e8; 0xd4ca64eb; 0x8ad958cf; 0x78b2dbcc; 0x6be22838; 0x9989ab3b;
  0x4d43cfd0; 0xbf284cd3; 0xac78bf27; 0x5e133c24; 0x105ec76f; 0xe235446c;
  0xf165b798; 0x030e349b; 0xd7c45070; 0x25afd373; 0x36ff2087; 0xc494a384;
  0x9a879fa0; 0x68ec1ca3; 0x7bbcef57; 0x89d76c54; 0x5d1d08bf; 0xaf768bbc;
  0xbc267848; 0x4e4dfb4b; 0x20bd8ede; 0xd2d60ddd; 0xc186fe29; 0x33ed7d2a;
  0xe72719c1; 0x154c9ac2; 0x061c6936; 0xf477ea35; 0xaa64d611; 0x580f5512;
  0x4b5fa6e6; 0xb93425e5; 0x6dfe410e; 0x9f95c20d; 0x8cc531f9; 0x7eaeb2fa;
  0x30e349b1; 0xc288cab2; 0xd1d83946; 0x23b3ba45; 0xf779deae; 0x05125dad;
  0x1642ae59; 0xe4292d5a; 0xba3a117e; 0x4851927d; 0x5b016189; 0xa96ae28a;
  0x7da08661; 0x8fcb0562; 0x9c9bf696; 0x6ef07595; 0x417b1dbc; 0xb3109ebf;
  0xa0406d4b; 0x522bee48; 0x86e18aa3; 0x748a09a0; 0x67dafa54; 0x95b17957;
  0xcba24573; 0x39c9c670; 0x2a993584; 0xd8f2b687; 0x0c38d26c; 0xfe53516f;
  0xed03a29b; 0x1f682198; 0x5125dad3; 0xa34e59d0; 0xb01eaa24; 0x42752927;
  0x96bf4dcc; 0x64d4cecf; 0x77843d3b; 0x85efbe38; 0xdbfc821c; 0x2997011f;
  0x3ac7f2eb; 0xc8ac71e8; 0x1c661503; 0xee0d9600; 0xfd5d65f4; 0x0f36e6f7;
  0x61c69362; 0x93ad1061; 0x80fde395; 0x72966096; 0xa65c047d; 0x5437877e;
  0x4767748a; 0xb50cf789; 0xeb1fcbad; 0x197448ae; 0x0a24bb5a; 0xf84f3859;
  0x2c855cb2; 0xdeeedfb1; 0xcdbe2c45; 0x3fd5af46; 0x7198540d; 0x83f3d70e;
  0x90a324fa; 0x62c8a7f9; 0xb602c312; 0x44694011; 0x5739b3e5; 0xa55230e6;
  0xfb410cc2; 0x092a8fc1; 0x1a7a7c35; 0xe811ff36; 0x3cdb9bdd; 0xceb018de;
  0xdde0eb2a; 0x2f8b6829; 0x82f63b78; 0x709db87b; 0x63cd4b8f; 0x91a6c88c;
  0x456cac67; 0xb7072f64; 0xa457dc90; 0x563c5f93; 0x082f63b7; 0xfa44e0b4;
  0xe9141340; 0x1b7f9043; 0xcfb5f4a8; 0x3dde77ab; 0x2e8e845f; 0xdce5075c;
  0x92a8fc17; 0x60c37f14; 0x73938ce0; 0x81f80fe3; 0x55326b08; 0xa759e80b;
  0xb4091bff; 0x466298fc; 0x1871a4d8; 0xea1a27db; 0xf94ad42f; 0x0b21572c;
  0xdfeb33c7; 0x2d80b0c4; 0x3ed04330; 0xccbbc033; 0xa24bb5a6; 0x502036a5;
  0x4370c551; 0xb11b4652; 0x65d122b9; 0x97baa1ba; 0x84ea524e; 0x7681d14d;
  0x2892ed69; 0xdaf96e6a; 0xc9a99d9e; 0x3bc21e9d; 0xef087a76; 0x1d63f975;
  0x0e330a81; 0xfc588982; 0xb21572c9; 0x407ef1ca; 0x532e023e; 0xa145813d;
  0x758fe5d6; 0x87e466d5; 0x94b49521; 0x66df1622; 0x38cc2a06; 0xcaa7a905;
  0xd9f75af1; 0x2b9cd9f2; 0xff56bd19; 0x0d3d3e1a; 0x1e6dcdee; 0xec064eed;
  0xc38d26c4; 0x31e6a5c7; 0x22b65633; 0xd0ddd530; 0x0417b1db; 0xf67c32d8;
  0xe52cc12c; 0x1747422f; 0x49547e0b; 0xbb3ffd08; 0xa86f0efc; 0x5a048dff;
  0x8ecee914; 0x7ca56a17; 0x6ff599e3; 0x9d9e1ae0; 0xd3d3e1ab; 0x21b862a8;
  0x32e8915c; 0xc083125f; 0x144976b4; 0xe622f5b7; 0xf5720643; 0x07198540;
  0x590ab964; 0xab613a67; 0xb831c993; 0x4a5a4a90; 0x9e902e7b; 0x6cfbad78;
  0x7fab5e8c; 0x8dc0dd8f; 0xe330a81a; 0x115b2b19; 0x020bd8ed; 0xf0605bee;
  0x24aa3f05; 0xd6c1bc06; 0xc5914ff2; 0x37faccf1; 0x69e9f0d5; 0x9b8273d6;
  0x88d28022; 0x7ab90321; 0xae7367ca; 0x5c18e4c9; 0x4f48173d; 0xbd23943e;
  0xf36e6f75; 0x0105ec76; 0x12551f82; 0xe03e9c81; 0x34f4f86a; 0xc69f7b69;
  0xd5cf889d; 0x27a40b9e; 0x79b737ba; 0x8bdcb4b9; 0x988c474d; 0x6ae7c44e;
  0xbe2da0a5; 0x4c4623a6; 0x5f16d052; 0xad7d5351
].

(** One byte: [crc32Table[(crc ^ *data++) & 0xff] ^ (crc >> 8)]. *)
Definition crc32c_byte (crc b : Z) : Z :=
  Z.lxor (nth (Z.to_nat (Z.land (Z.lxor crc b) 0xff)) crc32Table 0) (Z.shiftr crc 8).

Definition crc32c (data : list Z) : Z :=
  let crc := fold_left crc32c_byte data 0xffffffff in
  u32 (Z.lnot crc).

(** ** The reference: one bit at a time *)

(** The bit-reversed polynomial 0x1EDC6F41. *)
Definition CASTAGNOLI : Z := 0x82f63b78.

Definition crc_bit (crc : Z) : Z :=
  if Z.odd crc then Z.lxor (Z.shiftr crc 1) CASTAGNOLI else Z.shiftr crc 1.
Definition crc_byte (crc b : Z) : Z := Nat.iter 8 crc_bit (Z.lxor crc b).
Definition crc_ref (data : list Z) : Z := Z.lxor (fold_left crc_byte data 0xffffffff) 0xffffffff.

(** Division is linear: the low eight bits determine what is added. *)
Lemma crc_bit_lxor x y : crc_bit (Z.lxor x (2 * y)) = Z.lxor (crc_bit x) y.
Proof.
  unfold crc_bit.
  assert (Ho : Z.odd (Z.lxor x (2 * y)) = Z.odd x).
  { rewrite <- !Z.bit0_odd, Z.lxor_spec, Z.testbit_even_0. by destruct (Z.testbit x 0). }
  assert (Hs : Z.shiftr (Z.lxor x (2 * y)) 1 = Z.lxor (Z.shiftr x 1) y).
  { rewrite Z.shiftr_lxor. f_equal. rewrite Z.shiftr_div_pow2 by lia.
    rewrite Z.mul_comm. by apply Z.div_mul. }
  rewrite Ho, Hs. destruct (Z.odd x); [|done].
  rewrite !Z.lxor_assoc. f_equal. apply Z.lxor_comm.
Qed.

Lemma crc_iter_lxor n : forall x y,
  Nat.iter n crc_bit (Z.lxor x (2 ^ Z.of_nat n * y)) = Z.lxor (Nat.iter n crc_bit x) y.
Proof.
  induction n as [|n IH]; intros x y; [simpl; f_equal; lia|].
  rewrite !Nat.iter_succ. rewrite Nat2Z.inj_succ, Z.pow_succ_r, <- Z.mul_assoc by lia.
  replace (2 * (2 ^ Z.of_nat n * y)) with (2 ^ Z.of_nat n * (2 * y)) by lia.
  rewrite IH. apply crc_bit_lxor.
Qed.

(** Every table entry is eight steps of the division. *)
Definition table_ok : bool :=
  forallb (fun i => nth (Z.to_nat i) crc32Table 0 =? Nat.iter 8 crc_bit i)
    (List.map Z.of_nat (seq 0 256)).

Lemma table_spec i : 0 <= i < 256 -> nth (Z.to_nat i) crc32Table 0 = Nat.iter 8 crc_bit i.
Proof.
  intros Hi. assert (H : table_ok = true) by (vm_compute; reflexivity).
  unfold table_ok in H. rewrite forallb_forall in H. apply Z.eqb_eq, H.
  apply in_map_iff. exists (Z.to_nat i). split; [lia|]. apply in_seq. lia.
Qed.

Lemma crc32c_byte_spec crc b : in_u32 crc -> in_u8 b -> crc32c_byte crc b = crc_byte crc b.
Proof.
  unfold in_u32, in_u8. intros Hc Hb. unfold crc32c_byte, crc_byte.
  set (x := Z.lxor crc b). change 0xff with (2 ^ 8 - 1). rewrite land_mask by lia.
  rewrite table_spec by (apply Z.mod_pos_bound; lia).
  rewrite <- (crc_iter_lxor 8). f_equal. change (2 ^ Z.of_nat 8) with (2 ^ 8).
  assert (Hh : Z.shiftr crc 8 = x / 2 ^ 8).
  { unfold x. rewrite <- (Z.shiftr_div_pow2 _ 8), Z.shiftr_lxor by lia.
    rewrite (Z.shiftr_div_pow2 b), (Z.div_small b) by lia. by rewrite Z.lxor_0_r. }
  rewrite Hh, Z.mul_comm. apply Z.bits_inj. intros i.
  destruct (Z.lt_ge_cases i 0); [by rewrite !Z.testbit_neg_r|].
  rewrite Z.lxor_spec, Z.mul_pow2_bits by lia. destruct (Z.lt_ge_cases i 8).
  - rewrite Z.mod_pow2_bits_low, (Z.testbit_neg_r _ (i - 8)) by lia. by rewrite xorb_false_r.
  - rewrite Z.mod_pow2_bits_high, <- Z.shiftr_div_pow2, Z.shiftr_spec by lia.
    rewrite xorb_false_l. f_equal. lia.
Qed.

Lemma crc_bit_u32 x : in_u32 x -> in_u32 (crc_bit x).
Proof.
  intros Hx. unfold crc_bit.
  pose proof (shiftr_u32 x 1 ltac:(lia) Hx).
  destruct (Z.odd x); [|done]. apply lxor_u32; [done|]. unfold in_u32, CASTAGNOLI. lia.
Qed.

Lemma crc_byte_u32 crc b : in_u32 crc -> in_u8 b -> in_u32 (crc_byte crc b).
Proof.
  intros Hc Hb. unfold crc_byte. assert (H : in_u32 (Z.lxor crc b)).
  { apply lxor_u32; [done|]. unfold in_u8, in_u32 in *. lia. }
  generalize 8%nat. intros m. induction m as [|m IH]; [done|]. rewrite Nat.iter_succ. by apply crc_bit_u32.
Qed.

(** The table-driven CRC of SCTP packets is the bit-by-bit CRC-32C: the
    remainder of the data by the Castagnoli polynomial, started from all ones
    and complemented. *)
Theorem crc32c_is_castagnoli data : bytes_ok data -> crc32c data = crc_ref data.
Proof.
  intros Hb. unfold crc32c, crc_ref.
  assert (H : forall crc, in_u32 crc ->
    fold_left crc32c_byte data crc = fold_left crc_byte data crc /\
    in_u32 (fold_left crc_byte data crc)).
  { induction Hb as [|b data Hb0 Hb IH]; intros crc Hc; [done|]. simpl.
    rewrite crc32c_byte_spec by done. apply IH. by apply crc_byte_u32. }
  destruct (H 0xffffffff) as [-> Hu]; [unfold in_u32; lia|].
  set (x := fold_left crc_byte data 0xffffffff) in *. clearbody x.
  unfold u32, in_u32 in *. rewrite <- Z.lxor_m1_r. change 0xffffffff with (Z.ones 32).
  apply Z.bits_inj. intros i. destruct (Z.lt_ge_cases i 0); [by rewrite !Z.testbit_neg_r|].
  rewrite Z.lxor_spec. destruct (Z.lt_ge_cases i 32).
  - rewrite Z.mod_pow2_bits_low, Z.lxor_spec, Z.ones_spec_low, Z.bits_m1 by lia. done.
  - rewrite Z.mod_pow2_bits_high, Z.ones_spec_high by lia.
    apply bits_range_iff in Hu; [|lia]. by rewrite (proj2 Hu).
Qed.

(** The check value of the algorithm: the digits 1 to 9. *)
Lemma crc32c_is_castagnoli_witness :
  crc_ref [49; 50; 51; 52; 53; 54; 55; 56; 57] = 0xe3069283.
Proof.
  rewrite <- crc32c_is_castagnoli; [vm_compute; reflexivity|].
  repeat constructor; unfold in_u8; lia.
Defined.
