(* ===== verification/DList.v ===== *)
(** * Circular doubly linked lists ([lib/list.h], [lib/list.c])

    The pointer structure of [struct list] in an explicit memory.  Every
    operation is the sequence of loads and stores of the C function, in order,
    so that aliasing between its arguments (an empty list is its own neighbour)
    is the program's.  The predicate [dlist m h xs] says that the memory holds a
    well-formed list with head [h] and elements [xs]; the theorems show that the
    operations implement the corresponding functions on [xs]. *)

From Stdlib Require Import ZArith Lia List.
From stdpp Require Import base list option gmap.
From S2P Require Import Prelude.
#[local] Open Scope res_scope.

(** ** The program *)

(** Addresses of [struct list] objects. *)
Abbreviation addr := nat.

Record list_node := Mk_list { prev : addr; next : addr }.

Abbreviation mem := (gmap addr list_node).

Definition get_next (m : mem) (a : addr) : Res addr :=
  match m !! a with Some n => Ok (next n) | None => Fault NullDeref end.
Definition get_prev (m : mem) (a : addr) : Res addr :=
  match m !! a with Some n => Ok (prev n) | None => Fault NullDeref end.
Definition set_next (m : mem) (a v : addr) : Res mem :=
  match m !! a with
  | Some n => Ok (<[a := Mk_list (prev n) v]> m)
  | None => Fault NullDeref
  end.
Definition set_prev (m : mem) (a v : addr) : Res mem :=
  match m !! a with
  | Some n => Ok (<[a := Mk_list v (next n)]> m)
  | None => Fault NullDeref
  end.

Definition list_init (m : mem) (list : addr) : Res mem :=
  let* m := set_prev m list list in
  set_next m list list.

(** Inserts [elem] just before [before]. *)
Definition list_insert (m : mem) (before elem : addr) : Res mem :=
  let* p := get_prev m before in
  let* m := set_prev m elem p in
  let* m := set_next m elem before in
  let* p := get_prev m before in
  let* m := set_next m p elem in
  set_prev m before elem.

Definition list_push_front (m : mem) (list elem : addr) : Res mem :=
  let* n := get_next m list in list_insert m n elem.

Definition list_push_back (m : mem) (list elem : addr) : Res mem :=
  list_insert m list elem.

(** Moves [first] up to but excluding [last] just before [before]. *)
Definition list_splice (m : mem) (before first last : addr) : Res mem :=
  if decide (first = last) then Ok m else
  let* last := get_prev m last in
  let* fp := get_prev m first in
  let* ln := get_next m last in
  let* m := set_next m fp ln in
  let* ln := get_next m last in
  let* fp := get_prev m first in
  let* m := set_prev m ln fp in
  let* bp := get_prev m before in
  let* m := set_prev m first bp in
  let* m := set_next m last before in
  let* bp := get_prev m before in
  let* m := set_next m bp first in
  set_prev m before last.

Definition list_replace (m : mem) (element position : addr) : Res mem :=
  let* n := get_next m position in
  let* m := set_next m element n in
  let* en := get_next m element in
  let* m := set_prev m en element in
  let* p := get_prev m position in
  let* m := set_prev m element p in
  let* ep := get_prev m element in
  set_next m ep element.

Definition list_moved (m : mem) (list : addr) : Res mem :=
  let* n := get_next m list in
  let* m := set_prev m n list in
  let* p := get_prev m list in
  set_next m p list.

Definition list_is_empty (m : mem) (list : addr) : Res bool :=
  let* n := get_next m list in Ok (bool_decide (n = list)).

Definition list_move (m : mem) (dst src : addr) : Res mem :=
  let* e := list_is_empty m src in
  if negb e then
    let* p := get_prev m src in
    let* n := get_next m src in
    let* m := set_prev m dst p in
    let* m := set_next m dst n in
    list_moved m dst
  else list_init m dst.

(** Removes [elem] and returns the element that followed it. *)
Definition list_remove (m : mem) (elem : addr) : Res (mem * addr) :=
  let* p := get_prev m elem in
  let* n := get_next m elem in
  let* m := set_next m p n in
  let* n := get_next m elem in
  let* p := get_prev m elem in
  let* m := set_prev m n p in
  let* n := get_next m elem in
  Ok (m, n).

Definition list_pop_front (m : mem) (list : addr) : Res (mem * addr) :=
  let* front := get_next m list in
  let* (m, _) := list_remove m front in
  Ok (m, front).

Definition list_pop_back (m : mem) (list : addr) : Res (mem * addr) :=
  let* back := get_prev m list in
  let* (m, _) := list_remove m back in
  Ok (m, back).

Definition list_front (m : mem) (list : addr) : Res addr :=
  let* e := list_is_empty m list in
  ovs_assert (negb e) ;;* get_next m list.

Definition list_back (m : mem) (list : addr) : Res addr :=
  let* e := list_is_empty m list in
  ovs_assert (negb e) ;;* get_prev m list.

(** The traversal [for (e = list->next; e != list; e = e->next)] that
    [list_size] and [LIST_FOR_EACH] share.  [fuel] bounds the number of nodes
    visited; [None] means the bound was reached. *)
Fixpoint list_walk (fuel : nat) (m : mem) (list e : addr)
  : Res (option (Datatypes.list addr)) :=
  if decide (e = list) then Ok (Some []) else
  match fuel with
  | O => Ok None
  | S fuel =>
      let* n := get_next m e in
      let* r := list_walk fuel m list n in
      Ok (cons e <$> r)
  end.

Definition list_for_each (fuel : nat) (m : mem) (list : addr)
  : Res (option (Datatypes.list addr)) :=
  let* e := get_next m list in list_walk fuel m list e.

Definition list_size (fuel : nat) (m : mem) (list : addr) : Res (option nat) :=
  let* r := list_for_each fuel m list in Ok (length <$> r).

Definition list_is_short (m : mem) (list : addr) : Res bool :=
  let* n := get_next m list in
  let* p := get_prev m list in
  Ok (bool_decide (n = p)).

Definition list_is_singleton (m : mem) (list : addr) : Res bool :=
  let* s := list_is_short m list in
  let* e := list_is_empty m list in
  Ok (s && negb e).

(** ** Well-formed lists *)

Definition nextof (m : mem) (a : addr) : option addr := next <$> m !! a.
Definition prevof (m : mem) (a : addr) : option addr := prev <$> m !! a.

(** [a] and [b] are neighbours. *)
Definition linked (m : mem) (a b : addr) : Prop :=
  nextof m a = Some b /\ prevof m b = Some a.

(** Following [next] from [a] visits [xs] and then [z]; [prev] goes back. *)
Fixpoint links (m : mem) (a : addr) (xs : list addr) (z : addr) : Prop :=
  match xs with
  | [] => linked m a z
  | x :: xs' => linked m a x /\ links m x xs' z
  end.

Definition dlist (m : mem) (h : addr) (xs : list addr) : Prop :=
  NoDup (h :: xs) /\ links m h xs h.

(** [m'] differs from [m] only at [S]. *)
Definition agree_outside (S : list addr) (m m' : mem) : Prop :=
  forall a, a ∉ S -> m' !! a = m !! a.

Lemma get_next_Ok m a v : get_next m a = Ok v <-> nextof m a = Some v.
Proof.
  unfold get_next, nextof. destruct (m !! a); simpl; naive_solver.
Qed.
Lemma get_prev_Ok m a v : get_prev m a = Ok v <-> prevof m a = Some v.
Proof.
  unfold get_prev, prevof. destruct (m !! a); simpl; naive_solver.
Qed.

(** A store succeeds on a mapped address and changes one field. *)
Lemma set_next_spec m a v : is_Some (m !! a) ->
  exists m', set_next m a v = Ok m' /\
    (forall b, nextof m' b = if decide (b = a) then Some v else nextof m b) /\
    (forall b, prevof m' b = prevof m b) /\
    (forall b, is_Some (m' !! b) <-> is_Some (m !! b)) /\
    (forall b, b <> a -> m' !! b = m !! b).
Proof.
  intros [n Hn]. unfold set_next. rewrite Hn. eexists. split; [done|].
  unfold nextof, prevof. refine (conj _ (conj _ (conj _ _))); intros b.
  - case_decide; subst; [by rewrite lookup_insert_eq|by rewrite lookup_insert_ne].
  - destruct (decide (b = a)) as [->|];
      [by rewrite lookup_insert_eq, Hn|by rewrite lookup_insert_ne].
  - rewrite lookup_insert_is_Some.
    destruct (decide (a = b)) as [<-|]; [|tauto]. split; [by eexists|auto].
  - intros. by rewrite lookup_insert_ne.
Qed.

Lemma set_prev_spec m a v : is_Some (m !! a) ->
  exists m', set_prev m a v = Ok m' /\
    (forall b, prevof m' b = if decide (b = a) then Some v else prevof m b) /\
    (forall b, nextof m' b = nextof m b) /\
    (forall b, is_Some (m' !! b) <-> is_Some (m !! b)) /\
    (forall b, b <> a -> m' !! b = m !! b).
Proof.
  intros [n Hn]. unfold set_prev. rewrite Hn. eexists. split; [done|].
  unfold nextof, prevof. refine (conj _ (conj _ (conj _ _))); intros b.
  - case_decide; subst; [by rewrite lookup_insert_eq|by rewrite lookup_insert_ne].
  - destruct (decide (b = a)) as [->|];
      [by rewrite lookup_insert_eq, Hn|by rewrite lookup_insert_ne].
  - rewrite lookup_insert_is_Some.
    destruct (decide (a = b)) as [<-|]; [|tauto]. split; [by eexists|auto].
  - intros. by rewrite lookup_insert_ne.
Qed.

Lemma nextof_is_Some m a v : nextof m a = Some v -> is_Some (m !! a).
Proof. unfold nextof. destruct (m !! a); [by eexists|done]. Qed.
Lemma prevof_is_Some m a v : prevof m a = Some v -> is_Some (m !! a).
Proof. unfold prevof. destruct (m !! a); [by eexists|done]. Qed.

Lemma links_app m a xs y ys z :
  links m a (xs ++ y :: ys) z <-> links m a xs y /\ links m y ys z.
Proof.
  revert a. induction xs as [|x xs IH]; intros a; simpl; [done|].
  rewrite IH. tauto.
Qed.

(** Only the [next] fields of the sources and the [prev] fields of the targets
    matter. *)
Lemma links_frame m m' a xs z :
  (forall b, b ∈ a :: xs -> nextof m' b = nextof m b) ->
  (forall b, b ∈ xs ++ [z] -> prevof m' b = prevof m b) ->
  links m a xs z -> links m' a xs z.
Proof.
  revert a. induction xs as [|x xs IH]; intros a Hn Hp; simpl.
  - intros [H1 H2]. split; [rewrite Hn|rewrite Hp]; set_solver.
  - intros [[H1 H2] H3]. split.
    + split; [rewrite Hn|rewrite Hp]; set_solver.
    + apply IH; [set_solver..|done].
Qed.

(** The last node of a path that starts at [a]. *)
Fixpoint last_or (a : addr) (xs : list addr) : addr :=
  match xs with [] => a | x :: xs' => last_or x xs' end.

(** The first node of a path that ends at [z]. *)
Definition first_or (z : addr) (xs : list addr) : addr :=
  match xs with [] => z | x :: _ => x end.

Lemma last_or_elem a xs : last_or a xs ∈ a :: xs.
Proof.
  revert a. induction xs as [|x xs IH]; intros a; simpl; [set_solver|].
  specialize (IH x). set_solver.
Qed.

Lemma last_or_app a xs y ys : last_or a (xs ++ y :: ys) = last_or y ys.
Proof. revert a. induction xs; intros; simpl; auto. Qed.

Lemma links_last m a xs z : links m a xs z -> linked m (last_or a xs) z.
Proof.
  revert a. induction xs as [|x xs IH]; intros a; simpl; [done|].
  intros [_ H]. auto.
Qed.

Lemma links_first m a xs z : links m a xs z -> linked m a (first_or z xs).
Proof. destruct xs; simpl; tauto. Qed.

Lemma links_mapped m a xs z b :
  links m a xs z -> b ∈ a :: xs ++ [z] -> is_Some (m !! b).
Proof.
  revert a. induction xs as [|x xs IH]; intros a; simpl.
  - intros [H1 H2] Hb.
    assert (b = a \/ b = z) as [->| ->] by set_solver;
      eauto using nextof_is_Some, prevof_is_Some.
  - intros [[H1 H2] H3] Hb.
    assert (b = a \/ b ∈ x :: xs ++ [z]) as [->|] by set_solver;
      eauto using nextof_is_Some.
Qed.

(** Redirecting the last link of a path. *)
Lemma links_retarget m m' a xs z z' :
  NoDup (a :: xs) -> links m a xs z ->
  (forall b, b ∈ a :: xs -> b <> last_or a xs -> nextof m' b = nextof m b) ->
  (forall b, b ∈ xs -> prevof m' b = prevof m b) ->
  linked m' (last_or a xs) z' -> links m' a xs z'.
Proof.
  revert a. induction xs as [|x xs IH]; intros a Hnd HL Hn Hp Hl; simpl in *; [done|].
  destruct HL as [[H1 H2] H3]. apply NoDup_cons in Hnd as [Ha Hnd].
  pose proof (last_or_elem x xs) as Hlast. split.
  - split; [rewrite Hn|rewrite Hp]; set_solver.
  - apply IH; [done|done| | |done]; intros b Hb; [apply Hn|apply Hp]; set_solver.
Qed.

(** ** Symbolic execution of loads and stores *)

(** Push field reads through the stores described by [set_next_spec] and
    [set_prev_spec], then decide the address comparisons. *)
Ltac dl_views :=
  repeat match goal with
  | H : forall b, nextof ?m b = _ |- context [nextof ?m _] => rewrite H
  | H : forall b, prevof ?m b = _ |- context [prevof ?m _] => rewrite H
  | H : forall b, is_Some (?m !! b) <-> _ |- is_Some (?m !! _) => rewrite H
  end.

Ltac dl_solve :=
  dl_views; repeat (case_decide; subst);
  try solve [ done | congruence | eauto using nextof_is_Some, prevof_is_Some ].

Ltac dl_load v :=
  match goal with
  | |- context [rbind (get_next ?m ?a) _] =>
      rewrite (proj2 (get_next_Ok m a v)) by dl_solve; cbn [rbind]
  | |- context [rbind (get_prev ?m ?a) _] =>
      rewrite (proj2 (get_prev_Ok m a v)) by dl_solve; cbn [rbind]
  end.

Ltac dl_store :=
  let m' := fresh "m" in let E := fresh "E" in
  match goal with
  | |- context [set_next ?m ?a ?v] =>
      destruct (set_next_spec m a v) as (m' & E & ? & ? & ? & ?);
      [dl_solve | rewrite E; cbn [rbind]; clear E]
  | |- context [set_prev ?m ?a ?v] =>
      destruct (set_prev_spec m a v) as (m' & E & ? & ? & ? & ?);
      [dl_solve | rewrite E; cbn [rbind]; clear E]
  end.

(** Untouched addresses: chain the frame conditions of the stores. *)
Ltac dl_frame :=
  intros; repeat match goal with
  | H : forall b, b <> _ -> ?m !! b = _ |- ?m !! _ = _ => rewrite H by set_solver
  end; done.

Lemma list_insert_raw m before elem p :
  prevof m before = Some p -> is_Some (m !! elem) -> is_Some (m !! p) ->
  elem <> before ->
  exists m', list_insert m before elem = Ok m' /\
    (forall b, nextof m' b = if decide (b = p) then Some elem else
                             if decide (b = elem) then Some before else nextof m b) /\
    (forall b, prevof m' b = if decide (b = before) then Some elem else
                             if decide (b = elem) then Some p else prevof m b) /\
    agree_outside [before; elem; p] m m'.
Proof.
  intros Hp He Hpm Hne. unfold list_insert.
  dl_load p. dl_store. dl_store. dl_load p. dl_store. dl_store.
  eexists. split; [done|]. split; [|split].
  - intros b. by dl_views.
  - intros b. by dl_views.
  - intros b Hb. dl_frame.
Qed.

Lemma list_remove_raw m elem p n :
  prevof m elem = Some p -> nextof m elem = Some n ->
  is_Some (m !! p) -> is_Some (m !! n) -> p <> elem -> n <> elem ->
  exists m', list_remove m elem = Ok (m', n) /\
    (forall b, nextof m' b = if decide (b = p) then Some n else nextof m b) /\
    (forall b, prevof m' b = if decide (b = n) then Some p else prevof m b) /\
    agree_outside [p; n] m m'.
Proof.
  intros Hp Hn Hpm Hnm Hpe Hne. unfold list_remove.
  dl_load p. dl_load n. dl_store. dl_load n. dl_load p. dl_store. dl_load n.
  eexists. split; [done|]. split; [|split].
  - intros b. by dl_views.
  - intros b. by dl_views.
  - intros b Hb. dl_frame.
Qed.

Lemma list_replace_raw m element position p n :
  prevof m position = Some p -> nextof m position = Some n ->
  is_Some (m !! p) -> is_Some (m !! n) -> is_Some (m !! element) ->
  element <> position -> element <> p -> element <> n ->
  n <> position -> p <> position ->
  exists m', list_replace m element position = Ok m' /\
    (forall b, nextof m' b = if decide (b = p) then Some element else
                             if decide (b = element) then Some n else nextof m b) /\
    (forall b, prevof m' b = if decide (b = element) then Some p else
                             if decide (b = n) then Some element else prevof m b) /\
    agree_outside [element; p; n] m m'.
Proof.
  intros Hp Hn Hpm Hnm He H1 H2 H3 H4 H5. unfold list_replace.
  dl_load n. dl_store. dl_load n. dl_store. dl_load p. dl_store. dl_load p. dl_store.
  eexists. split; [done|]. split; [|split].
  - intros b. by dl_views.
  - intros b. by dl_views.
  - intros b Hb. dl_frame.
Qed.

(** ** The operations on well-formed lists *)

Lemma agree_views S m m' a :
  agree_outside S m m' -> a ∉ S ->
  nextof m' a = nextof m a /\ prevof m' a = prevof m a.
Proof. intros HA Ha. unfold nextof, prevof. by rewrite HA. Qed.

(** A list is not affected by stores outside it. *)
Lemma dlist_frame S m m' h xs :
  agree_outside S m m' -> (forall a, a ∈ h :: xs -> a ∉ S) ->
  dlist m h xs -> dlist m' h xs.
Proof.
  intros HA HS [Hnd HL]. split; [done|].
  eapply links_frame; [..|exact HL]; intros b Hb;
    apply (agree_views _ _ _ _ HA), HS; set_solver.
Qed.

Lemma agree_outside_weaken S S' m m' :
  agree_outside S m m' -> (forall a, a ∈ S -> a ∈ S') -> agree_outside S' m m'.
Proof. intros HA HS a Ha. apply HA. auto. Qed.

Lemma list_init_dlist m h : is_Some (m !! h) ->
  exists m', list_init m h = Ok m' /\ dlist m' h [] /\ agree_outside [h] m m'.
Proof.
  intros Hh. unfold list_init. dl_store. dl_store. eexists. split; [done|]. split.
  - split; [apply NoDup_singleton|]. simpl. split; dl_solve.
  - intros b Hb. dl_frame.
Qed.

(** Insertion in front of the node at any position of a list. *)
Lemma list_insert_dlist m h xs ys elem :
  dlist m h (xs ++ ys) -> elem ∉ h :: xs ++ ys -> is_Some (m !! elem) ->
  exists m', list_insert m (first_or h ys) elem = Ok m' /\
    dlist m' h (xs ++ elem :: ys) /\
    agree_outside (elem :: h :: xs ++ ys) m m'.
Proof.
  intros [Hnd HL] He Hm. set (before := first_or h ys). set (p := last_or h xs).
  assert (HLx : links m h xs before).
  { unfold before. destruct ys; simpl; [by rewrite app_nil_r in HL|].
    by apply links_app in HL as []. }
  assert (Hb : before ∈ h :: ys) by (unfold before; destruct ys; set_solver).
  assert (Hp : p ∈ h :: xs) by apply last_or_elem.
  pose proof (links_last _ _ _ _ HLx) as [_ Hpb]. fold p in Hpb.
  destruct (list_insert_raw m before elem p) as (m' & E & N & P & A); try done.
  { eapply links_mapped; [exact HL|]. set_solver. }
  { set_solver. }
  exists m'. split; [done|].
  assert (Hnd' : NoDup (h :: xs)) by (apply (NoDup_app (h :: xs) ys), Hnd).
  assert (Hdisj : forall a, a ∈ h :: xs -> a ∉ ys)
    by (apply (NoDup_app (h :: xs) ys), Hnd).
  split; [split|].
  - apply (NoDup_Permutation_proper _ (elem :: h :: xs ++ ys)).
    + by rewrite <- Permutation_middle, perm_swap.
    + by apply NoDup_cons.
  - apply links_app. split.
    + eapply links_retarget; [done|exact HLx|..].
      * intros b Hbx Hne. rewrite N. repeat case_decide; set_solver.
      * intros b Hbx. rewrite P. repeat case_decide; try done; [|set_solver].
        subst. unfold before in *. destruct ys; [|set_solver].
        apply NoDup_cons in Hnd' as []. done.
      * split; [rewrite N|rewrite P]; repeat case_decide; set_solver.
    + assert (HLe : linked m' elem before)
        by (split; [rewrite N|rewrite P]; repeat case_decide; set_solver).
      unfold before in *. destruct ys as [|y ys]; [done|]. simpl in *. split; [done|].
      apply links_app in HL as [_ HLy].
      eapply links_frame; [..|exact HLy]; intros b Hby; [rewrite N|rewrite P].
      * repeat case_decide; set_solver.
      * assert (NoDup (h :: y :: ys)).
        { apply (NoDup_app xs). rewrite <- Permutation_middle. done. }
        repeat case_decide; [|set_solver|done]. subst.
        inversion_clear H; inversion_clear H1. set_solver.
  - eapply agree_outside_weaken; [exact A|]. set_solver.
Qed.

(** Every node but its successor and predecessor keeps its links when an
    element is taken out. *)
Lemma list_remove_dlist m h xs e ys :
  dlist m h (xs ++ e :: ys) ->
  exists m', list_remove m e = Ok (m', first_or h ys) /\
    dlist m' h (xs ++ ys) /\ agree_outside (h :: xs ++ ys) m m'.
Proof.
  intros [Hnd HL]. apply links_app in HL as HL'. destruct HL' as [HLx HLy].
  set (p := last_or h xs). set (n := first_or h ys).
  assert (Hp : p ∈ h :: xs) by apply last_or_elem.
  assert (Hn : n ∈ h :: ys) by (unfold n; destruct ys; set_solver).
  assert (HndE : NoDup (e :: h :: xs ++ ys)).
  { apply (NoDup_Permutation_proper _ (h :: xs ++ e :: ys)); [|done].
    by rewrite <- Permutation_middle, perm_swap. }
  apply NoDup_cons in HndE as [He Hnd0].
  assert (Hdisj : forall a, a ∈ h :: xs -> a ∉ ys)
    by (apply (NoDup_app (h :: xs) ys), Hnd0).
  pose proof (links_last _ _ _ _ HLx) as [_ Hpe]. fold p in Hpe.
  pose proof (links_first _ _ _ _ HLy) as [Hen _]. fold n in Hen.
  destruct (list_remove_raw m e p n) as (m' & E & N & P & A); try done.
  1,2: eapply links_mapped; [exact HL|set_solver].
  1,2: set_solver.
  exists m'. split; [done|]. split; [split; [done|]|].
  - assert (HLn : links m' h xs n).
    { eapply links_retarget; [by apply (NoDup_app (h :: xs) ys)|exact HLx|..].
      - intros b Hb Hne. rewrite N. by case_decide.
      - intros b Hb. rewrite P. case_decide; [|done]. subst b. unfold n in *.
        destruct ys; [|set_solver]. apply NoDup_cons in Hnd0 as [Hh _].
        rewrite app_nil_r in Hh. done.
      - split; [rewrite N|rewrite P]; by case_decide. }
    unfold n in *. destruct ys as [|y ys]; [by rewrite app_nil_r|].
    apply links_app. split; [done|]. destruct HLy as [_ HLy].
    eapply links_frame; [..|exact HLy]; intros b Hb; [rewrite N|rewrite P];
      case_decide; try done; subst.
    + set_solver.
    + simpl in *. apply NoDup_cons in Hnd0 as [Hh Hnd0].
      apply NoDup_app in Hnd0 as (_ & _ & Hy). apply NoDup_cons in Hy as [].
      set_solver.
  - eapply agree_outside_weaken; [exact A|]. set_solver.
Qed.

Lemma list_push_back_dlist m h xs elem :
  dlist m h xs -> elem ∉ h :: xs -> is_Some (m !! elem) ->
  exists m', list_push_back m h elem = Ok m' /\
    dlist m' h (xs ++ [elem]) /\ agree_outside (elem :: h :: xs) m m'.
Proof.
  intros HD He Hm. rewrite <- (app_nil_r xs) in HD, He.
  destruct (list_insert_dlist _ _ _ _ _ HD He Hm) as (m' & ? & ? & ?).
  rewrite app_nil_r in *. eauto.
Qed.

Lemma dlist_next m h xs : dlist m h xs -> get_next m h = Ok (first_or h xs).
Proof. intros [_ HL%links_first]. apply get_next_Ok, HL. Qed.
Lemma dlist_prev m h xs : dlist m h xs -> get_prev m h = Ok (last_or h xs).
Proof. intros [_ HL%links_last]. apply get_prev_Ok, HL. Qed.

Lemma list_push_front_dlist m h xs elem :
  dlist m h xs -> elem ∉ h :: xs -> is_Some (m !! elem) ->
  exists m', list_push_front m h elem = Ok m' /\
    dlist m' h (elem :: xs) /\ agree_outside (elem :: h :: xs) m m'.
Proof.
  intros HD He Hm. unfold list_push_front. rewrite (dlist_next _ _ _ HD).
  exact (list_insert_dlist m h [] xs elem HD He Hm).
Qed.

Lemma list_pop_front_dlist m h x xs :
  dlist m h (x :: xs) ->
  exists m', list_pop_front m h = Ok (m', x) /\ dlist m' h xs.
Proof.
  intros HD. unfold list_pop_front. rewrite (dlist_next _ _ _ HD). simpl.
  destruct (list_remove_dlist m h [] x xs HD) as (m' & -> & ? & _). eauto.
Qed.

Lemma list_pop_back_dlist m h xs x :
  dlist m h (xs ++ [x]) ->
  exists m', list_pop_back m h = Ok (m', x) /\ dlist m' h xs.
Proof.
  intros HD. unfold list_pop_back. rewrite (dlist_prev _ _ _ HD), last_or_app. simpl.
  destruct (list_remove_dlist m h xs x [] HD) as (m' & -> & H & _).
  rewrite app_nil_r in H. eauto.
Qed.

Lemma list_is_empty_dlist m h xs :
  dlist m h xs -> list_is_empty m h = Ok (bool_decide (xs = [])).
Proof.
  intros HD. unfold list_is_empty. rewrite (dlist_next _ _ _ HD). simpl. f_equal.
  apply bool_decide_ext. destruct HD as [Hnd _]. destruct xs as [|x xs]; [done|].
  simpl. split; [|done]. intros ->. apply NoDup_cons in Hnd as []. set_solver.
Qed.

Lemma list_is_singleton_dlist m h xs :
  dlist m h xs -> list_is_singleton m h = Ok (bool_decide (length xs = 1%nat)).
Proof.
  intros HD. unfold list_is_singleton, list_is_short.
  rewrite (dlist_next _ _ _ HD), (dlist_prev _ _ _ HD),
    (list_is_empty_dlist _ _ _ HD). simpl. f_equal.
  destruct HD as [Hnd _]. destruct xs as [|x [|y xs]]; simpl.
  - by rewrite bool_decide_true.
  - by rewrite bool_decide_true.
  - rewrite bool_decide_false; [done|]. intros Heq.
    pose proof (last_or_elem y xs) as Hl. rewrite <- Heq in Hl.
    apply NoDup_cons in Hnd as [_ Hnd]. apply NoDup_cons in Hnd as []. done.
Qed.

(** The traversal visits exactly the elements, in order, and stops. *)
Lemma list_walk_links m h a xs fuel :
  links m a xs h -> h ∉ xs -> (length xs <= fuel)%nat ->
  list_walk fuel m h (first_or h xs) = Ok (Some xs).
Proof.
  revert a fuel. induction xs as [|x xs IH]; intros a fuel HL Hh Hf; simpl.
  - destruct fuel; simpl; by rewrite decide_True.
  - simpl in Hf. destruct fuel as [|fuel]; [lia|]. simpl.
    rewrite decide_False by set_solver.
    destruct HL as [_ HL]. pose proof (links_first _ _ _ _ HL) as [Hn _].
    rewrite (proj2 (get_next_Ok _ _ _) Hn). simpl.
    rewrite (IH x fuel); [done|done|set_solver|lia].
Qed.

Lemma list_for_each_dlist m h xs fuel :
  dlist m h xs -> (length xs <= fuel)%nat ->
  list_for_each fuel m h = Ok (Some xs).
Proof.
  intros HD Hf. unfold list_for_each. rewrite (dlist_next _ _ _ HD). simpl.
  destruct HD as [Hnd HL]. apply NoDup_cons in Hnd as [Hh _].
  by eapply list_walk_links.
Qed.

Lemma list_size_dlist m h xs fuel :
  dlist m h xs -> (length xs <= fuel)%nat ->
  list_size fuel m h = Ok (Some (length xs)).
Proof.
  intros HD Hf. unfold list_size. by rewrite (list_for_each_dlist m h xs fuel HD Hf).
Qed.

Lemma list_splice_raw m before first last l fp bp :
  first <> last -> prevof m last = Some l -> prevof m first = Some fp ->
  nextof m l = Some last -> prevof m before = Some bp ->
  is_Some (m !! fp) -> is_Some (m !! bp) ->
  (forall a, a ∈ [fp; last; first; l] -> a <> before /\ a <> bp) -> l <> fp ->
  exists m', list_splice m before first last = Ok m' /\
    (forall b, nextof m' b = if decide (b = bp) then Some first else
       if decide (b = l) then Some before else
       if decide (b = fp) then Some last else nextof m b) /\
    (forall b, prevof m' b = if decide (b = before) then Some l else
       if decide (b = first) then Some bp else
       if decide (b = last) then Some fp else prevof m b) /\
    agree_outside [fp; last; first; l; before; bp] m m'.
Proof.
  intros Hfl Hl Hf Hn Hb Hfm Hbm Hd Hlf. unfold list_splice.
  rewrite decide_False by done.
  destruct (Hd fp) as [? ?]; [set_solver|]. destruct (Hd last) as [? ?]; [set_solver|].
  destruct (Hd first) as [? ?]; [set_solver|]. destruct (Hd l) as [? ?]; [set_solver|].
  dl_load l. dl_load fp. dl_load last. dl_store. dl_load last. dl_load fp. dl_store.
  dl_load bp. dl_store. dl_store. dl_load bp. dl_store. dl_store.
  eexists. split; [done|]. split; [|split].
  - intros b. by dl_views.
  - intros b. by dl_views.
  - intros b Hb'. dl_frame.
Qed.

(** The part of a path from its first node on. *)
Definition links_rest (m : mem) (ys : list addr) (z : addr) : Prop :=
  match ys with [] => True | y :: ys' => links m y ys' z end.

(** Splitting a path at any point. *)
Lemma links_split m a xs ys z :
  links m a (xs ++ ys) z <->
  links m a xs (first_or z ys) /\ links_rest m ys z.
Proof.
  destruct ys; simpl; [rewrite app_nil_r; tauto|apply links_app].
Qed.

Definition disj (P Q : list addr) : Prop := forall a, a ∈ P -> a ∈ Q -> False.

(** The pairwise disjoint parts of two lists, one of them cut in three. *)
Lemma splice_regions h1 xs f mid ys h2 us vs :
  NoDup (h1 :: xs ++ f :: mid ++ ys) -> NoDup (h2 :: us ++ vs) ->
  disj (h1 :: xs ++ f :: mid ++ ys) (h2 :: us ++ vs) ->
  (disj (h1 :: xs) (h2 :: us ++ vs) /\ disj (f :: mid) (h2 :: us ++ vs) /\
   disj (h1 :: ys) (h2 :: us ++ vs)) /\
  (disj (f :: mid) (h1 :: xs) /\ disj (f :: mid) (h1 :: ys) /\
   disj xs (h1 :: ys) /\ disj ys (h1 :: xs)) /\
  (disj us (h2 :: vs) /\ disj vs (h2 :: us)) /\
  (NoDup (h1 :: xs) /\ NoDup (f :: mid) /\ NoDup (h1 :: ys)) /\
  NoDup (h2 :: us) /\ NoDup (h2 :: vs) /\
  NoDup (h1 :: xs ++ ys) /\ NoDup (h2 :: us ++ f :: mid ++ vs).
Proof.
  intros H1 H2 Hd. apply NoDup_cons in H1 as [Hh1 H1].
  apply NoDup_app in H1 as (Hx & Dx & H1).
  apply (NoDup_app (f :: mid)) in H1 as (Hm & Dm & Hy).
  apply NoDup_cons in H2 as [Hh2 H2]. apply NoDup_app in H2 as (Hu & Du & Hv).
  unfold disj in *. refine (conj _ (conj _ (conj _ (conj _ _)))).
  - repeat split; intros a Ha; apply Hd; set_solver.
  - clear Hd. repeat split; intros a Ha Hb; set_solver.
  - clear Hd. repeat split; intros a Ha Hb; set_solver.
  - clear Hd. repeat split; try done; apply NoDup_cons; set_solver.
  - refine (conj _ (conj _ (conj _ _))).
    1,2: clear Hd; apply NoDup_cons; set_solver.
    + clear Hd. apply NoDup_cons. split; [set_solver|]. apply NoDup_app. set_solver.
    + apply NoDup_cons. split.
      * intros Hin. apply (Hd h2); set_solver.
      * apply NoDup_app. split; [done|]. split.
        -- intros a Ha Hin. apply (elem_of_app (f :: mid)) in Hin as [?|?].
           ++ apply (Hd a); set_solver.
           ++ by apply (Du a).
        -- apply (NoDup_app (f :: mid)). split; [done|]. split; [|done].
           intros a Ha Hin. apply (Hd a); set_solver.
Qed.

Lemma disj_parts P h us vs :
  disj P (h :: us ++ vs) -> disj P (h :: us) /\ disj P (h :: vs).
Proof. unfold disj. intros D. split; intros a Ha Hb; apply (D a); set_solver. Qed.

(** Two memberships of one node in disjoint parts. *)
Ltac member :=
  first [ eassumption | apply list_elem_of_here
        | apply list_elem_of_further; member ].

Ltac region :=
  exfalso; match goal with
  | D : disj ?P ?Q, H : ?a ∈ _ |- _ => apply (D a); [member|member]
  | D : disj (?a :: _) _ |- _ => apply (D a); [member|member]
  | D : disj ?P ?Q, E : ?a = ?b |- _ => apply (D a); [member|rewrite E; member]
  | D : disj ?P ?Q, E : ?a = ?b |- _ => apply (D b); [member|rewrite <- E; member]
  | H : _ ∉ _ |- _ => apply H; member
  end.

Ltac splice_views N P :=
  intros; rewrite ?N, ?P; repeat (case_decide; subst); try done; try region.

(** The part of a list behind the elements that moved is as before. *)
Ltac splice_rest N P HL :=
  let b := fresh "b" in let Hb := fresh "Hb" in
  eapply links_frame; [..|exact HL]; intros b Hb;
    [|apply elem_of_app in Hb as [Hb|Hb]; [|apply list_elem_of_singleton in Hb as ->]];
    splice_views N P.

(** [list_splice] cuts a non-empty run of elements out of one list and puts
    it, in order, before any position of another list; both lists stay well
    formed. *)
Theorem list_splice_dlist m h1 xs f mid ys h2 us vs :
  dlist m h1 (xs ++ f :: mid ++ ys) -> dlist m h2 (us ++ vs) ->
  disj (h1 :: xs ++ f :: mid ++ ys) (h2 :: us ++ vs) ->
  exists m', list_splice m (first_or h2 vs) f (first_or h1 ys) = Ok m' /\
    dlist m' h1 (xs ++ ys) /\ dlist m' h2 (us ++ f :: mid ++ vs).
Proof.
  intros [Hnd1 HL1] [Hnd2 HL2] Hd.
  destruct (splice_regions _ _ _ _ _ _ _ _ Hnd1 Hnd2 Hd)
    as ((A1 & A2 & A3) & (B1 & B2 & B3 & B4) & (C1 & C2) & (Nx & Nm & Ny) & Nu & Nv & N1 & N2).
  destruct (disj_parts _ _ _ _ A1), (disj_parts _ _ _ _ A2), (disj_parts _ _ _ _ A3).
  assert (Ilast : first_or h1 ys ∈ h1 :: ys) by (destruct ys; set_solver).
  assert (Ib : first_or h2 vs ∈ h2 :: vs) by (destruct vs; set_solver).
  assert (Ib' : first_or h2 vs ∈ h2 :: us ++ vs) by (clear -Ib; set_solver).
  pose proof (last_or_elem f mid) as Il. pose proof (last_or_elem h1 xs) as Ifp.
  pose proof (last_or_elem h2 us) as Ibp.
  assert (Ibp' : last_or h2 us ∈ h2 :: us ++ vs) by (clear -Ibp; set_solver).
  apply links_app in HL1 as [HLx HLm].
  apply links_split in HL2 as [HLu HLv]. apply links_split in HLm as [HLm' HLy].
  pose proof (links_last _ _ _ _ HLx) as [Hnfp Hpf].
  pose proof (links_last _ _ _ _ HLm') as [Hnl Hpl].
  pose proof (links_last _ _ _ _ HLu) as [Hnbp Hpb].
  destruct (list_splice_raw m (first_or h2 vs) f (first_or h1 ys) (last_or f mid)
              (last_or h1 xs) (last_or h2 us)) as (m' & E & N & P & A); try done.
  1: intros Heq; rewrite <- Heq in Ilast; region.
  1,2: eauto using nextof_is_Some.
  1: { intros a Ha. rewrite !elem_of_cons in Ha.
       destruct Ha as [->|[->|[->|[->|Ha]]]]; [..|by apply elem_of_nil in Ha];
         (split; intros Heq; [rewrite <- Heq in Ib'|rewrite <- Heq in Ibp']; region). }
  1: intros Heq; rewrite Heq in Il; region.
  exists m'. split; [done|]. clear Hd E A.
  split; (split; [done|apply links_split; split]).
  - eapply links_retarget; [done|exact HLx|..]; [splice_views N P..|].
    split; splice_views N P.
  - destruct ys as [|y ys]; [done|]. simpl in *.
    apply NoDup_cons in Ny as [Hh1 Ny]. apply NoDup_cons in Ny as [Hy _].
    splice_rest N P HLy.
  - eapply links_retarget; [done|exact HLu|..]; [splice_views N P..|].
    split; splice_views N P.
  - apply links_split. split.
    + eapply links_retarget; [done|exact HLm'|..].
      * splice_views N P.
      * apply NoDup_cons in Nm as [Hf _]. splice_views N P.
      * split; splice_views N P.
    + destruct vs as [|v vs]; [done|]. simpl in *.
      apply NoDup_cons in Nv as [Hh2 Nv]. apply NoDup_cons in Nv as [Hv _].
      splice_rest N P HLv.
Qed.

(** Elements 2 and 3 of the list of head 1 go to the end of the list of head 5. *)
Lemma list_splice_dlist_witness :
  exists m m' : mem, dlist m 1 [2; 3; 4] /\ dlist m 5 [6] /\ list_splice m 5 2 4 = Ok m' /\
    dlist m' 1 [4] /\ dlist m' 5 [6; 2; 3].
Proof.
  pose (m := list_to_map [(1, Mk_list 4 2); (2, Mk_list 1 3); (3, Mk_list 2 4); (4, Mk_list 3 1);
    (5, Mk_list 6 6); (6, Mk_list 5 5)]%nat : mem).
  assert (H1 : dlist m 1 [2; 3; 4]%nat).
  { split; [apply (bool_decide_unpack _); vm_compute; exact I|]. vm_compute. repeat split. }
  assert (H2 : dlist m 5 [6]%nat).
  { split; [apply (bool_decide_unpack _); vm_compute; exact I|]. vm_compute. repeat split. }
  destruct (list_splice_dlist m 1 [] 2 [3] [4] 5 [6] [] H1 H2) as (m' & E & H1' & H2').
  { intros a Ha Hb. repeat (apply elem_of_cons in Ha as [->|Ha]);
      [..|by apply not_elem_of_nil in Ha]; repeat (apply elem_of_cons in Hb as [Hb|Hb]; [discriminate|]);
      by apply not_elem_of_nil in Hb. }
  exists m, m'. split; [exact H1|]. split; [exact H2|]. split; [exact E|]. split; [exact H1'|exact H2'].
Defined.

(** A list keeps its elements when its head moves in memory. *)
Lemma list_move_dlist m src dst xs :
  dlist m src xs -> dst ∉ src :: xs -> is_Some (m !! dst) ->
  exists m', list_move m dst src = Ok m' /\ dlist m' dst xs.
Proof.
  intros HD Hd Hm. unfold list_move. rewrite (list_is_empty_dlist _ _ _ HD). cbn [rbind].
  destruct xs as [|x xs].
  { destruct (list_init_dlist m dst Hm) as (m' & E & H & _). eauto. }
  rewrite bool_decide_false by done. cbn [negb].
  rewrite (dlist_prev _ _ _ HD), (dlist_next _ _ _ HD). cbn [rbind first_or last_or].
  destruct HD as [Hnd HL]. pose proof (last_or_elem x xs) as Il.
  assert (x <> dst /\ last_or x xs <> dst) as [Hx Hl]
    by (split; [set_solver|intros Heq; rewrite Heq in Il; set_solver]).
  assert (is_Some (m !! x) /\ is_Some (m !! last_or x xs)) as [Sx Sl]
    by (split; eapply links_mapped; [exact HL|set_solver|exact HL|set_solver]).
  dl_store. dl_store. unfold list_moved.
  dl_load x. dl_store. dl_load (last_or x xs). dl_store.
  eexists. split; [done|]. apply NoDup_cons in Hnd as [Hs Hnd].
  split; [by apply NoDup_cons; set_solver|]. split.
  - split; dl_solve.
  - destruct HL as [_ HL]. eapply links_retarget; [done|exact HL|..].
    + intros b Hb Hne. dl_views. repeat case_decide; try done. set_solver.
    + intros b Hb. dl_views. apply NoDup_cons in Hnd as [].
      repeat case_decide; try done; set_solver.
    + split; dl_solve.
Qed.

(** An element takes the place of another. *)
Lemma list_replace_dlist m h xs position ys element :
  dlist m h (xs ++ position :: ys) -> element ∉ h :: xs ++ position :: ys ->
  is_Some (m !! element) ->
  exists m', list_replace m element position = Ok m' /\
    dlist m' h (xs ++ element :: ys).
Proof.
  intros [Hnd HL] He Hm. apply links_app in HL as HL'. destruct HL' as [HLx HLy].
  assert (HndP : NoDup (position :: h :: xs ++ ys)).
  { apply (NoDup_Permutation_proper _ (h :: xs ++ position :: ys)); [|done].
    by rewrite <- Permutation_middle, perm_swap. }
  apply NoDup_cons in HndP as [HP Hnd0].
  apply (NoDup_app (h :: xs) ys) in Hnd0 as HH. destruct HH as (Nx & Dxy & Ny).
  pose proof (last_or_elem h xs) as Ip.
  assert (In : first_or h ys ∈ h :: ys) by (destruct ys; set_solver).
  pose proof (links_last _ _ _ _ HLx) as [Hnp Hpp].
  pose proof (links_first _ _ _ _ HLy) as [Hnn Hpn].
  destruct (list_replace_raw m element position (last_or h xs) (first_or h ys))
    as (m' & E & N & P & A); try done.
  1,2: eauto using nextof_is_Some, prevof_is_Some.
  1-5: intros Heq; first [rewrite <- Heq in Ip|rewrite <- Heq in In
                         |rewrite Heq in Ip|rewrite Heq in In|idtac]; set_solver.
  exists m'. split; [done|]. split.
  - apply (NoDup_Permutation_proper _ (element :: h :: xs ++ ys)).
    + by rewrite <- Permutation_middle, perm_swap.
    + apply NoDup_cons. split; [set_solver|done].
  - assert (Hle : forall b, b ∈ h :: xs ++ ys -> b <> element) by set_solver.
    apply links_app. split.
    + eapply links_retarget; [done|exact HLx|..].
      * intros b Hb Hne. rewrite N. repeat case_decide; try done. set_solver.
      * intros b Hb. rewrite P. repeat case_decide; try done; subst; [set_solver|].
        destruct ys; [|set_solver]. by apply NoDup_cons in Nx as [].
      * split; [rewrite N|rewrite P]; repeat case_decide; try done; set_solver.
    + apply (links_split m' element [] ys h). split; simpl.
      * split; [rewrite N|rewrite P]; repeat case_decide; try done; set_solver.
      * destruct ys as [|y ys]; [done|]. destruct HLy as [_ HLy].
        assert (HeY : element ∉ y :: ys) by (intros Hin; apply (Hle element); set_solver).
        assert (Heh : element <> h) by (intros Heq; apply (Hle element); set_solver).
        assert (Hhy : h ∉ y :: ys) by (apply Dxy, list_elem_of_here).
        apply NoDup_cons in Ny as [Hy _]. clear - N P Hle HeY Heh Hhy Hy Dxy Ip HLy.
        eapply links_frame; [..|exact HLy]; intros b Hb; [rewrite N|rewrite P].
        -- repeat case_decide; try done; subst; [by apply Dxy in Ip|done].
        -- apply elem_of_app in Hb as [Hb|Hb]; [|apply list_elem_of_singleton in Hb];
             subst; repeat case_decide; try done; subst; set_solver.
Qed.
