(* ===== verification/Hmap.v ===== *)
(** * Chained hash tables ([lib/hmap.h], [lib/hmap.c])

    A [struct hmap_node] is embedded in the object it hashes; here a node
    carries its address, its hash and the contents of that object.  A bucket is
    the list of the nodes of its chain, first node first, and a pointer to a
    node of a chain is the suffix of the chain that starts there, [[]] for the
    null pointer.  [buckets] stands for the bucket array whether it is the
    embedded [one] or allocated: it always has [mask + 1] elements. *)

From Stdlib Require Import ZArith Lia List.
From stdpp Require Import base list option sets.
From S2P Require Import Prelude.
#[local] Open Scope Z_scope.
#[local] Open Scope res_scope.

(** ** The program *)

Record hmap_node (A : Type) := Mk_node {
  node_addr : nat;
  node_hash : Z;
  node_val : A
}.
Arguments Mk_node {A}.
Arguments node_addr {A}.
Arguments node_hash {A}.
Arguments node_val {A}.

Record hmap (A : Type) := Mk_hmap {
  buckets : list (list (hmap_node A));
  mask : Z;
  hmap_n : Z
}.
Arguments Mk_hmap {A}.
Arguments buckets {A}.
Arguments mask {A}.
Arguments hmap_n {A}.

Definition calc_mask (capacity : Z) : Z :=
  let mask := capacity / 2 in
  let mask := Z.lor mask (Z.shiftr mask 1) in
  let mask := Z.lor mask (Z.shiftr mask 2) in
  let mask := Z.lor mask (Z.shiftr mask 4) in
  let mask := Z.lor mask (Z.shiftr mask 8) in
  let mask := Z.lor mask (Z.shiftr mask 16) in
  let mask := if UINT32_MAX <? SIZE_MAX then Z.lor mask (Z.shiftr mask 32) else mask in
  Z.lor mask (u32 (Z.shiftl (Z.land mask 1) 1)).

Section Hmap.
Context {A : Type}.
Implicit Types (h : hmap A) (node : hmap_node A) (p : list (hmap_node A)).

Definition hmap_init : hmap A := Mk_hmap [[]] 0 0.

Definition hmap_count h : Z := hmap_n h.
Definition hmap_is_empty h : bool := hmap_n h =? 0.
Definition hmap_capacity h : Z := u32 (mask h * 2 + 1).

Definition hmap_clear h : hmap A :=
  if 0 <? hmap_n h
  then Mk_hmap (replicate (Z.to_nat (mask h + 1)) []) (mask h) 0
  else h.

(** [hmap->buckets[i]] *)
Definition get_bucket h (i : Z) : Res (list (hmap_node A)) :=
  match buckets h !! Z.to_nat i with
  | Some b => Ok b
  | None => Fault OutOfBounds
  end.
Definition set_bucket h (i : Z) (b : list (hmap_node A)) : hmap A :=
  Mk_hmap (<[Z.to_nat i := b]> (buckets h)) (mask h) (hmap_n h).

Definition hmap_insert_fast h node (hash : Z) : Res (hmap A) :=
  let i := Z.land hash (mask h) in
  let* b := get_bucket h i in
  let node := Mk_node (node_addr node) hash (node_val node) in
  Ok (Mk_hmap (buckets (set_bucket h i (node :: b))) (mask h) (u32 (hmap_n h + 1))).

Fixpoint insert_all h (l : list (hmap_node A)) : Res (hmap A) :=
  match l with
  | [] => Ok h
  | node :: l => let* h := hmap_insert_fast h node (node_hash node) in insert_all h l
  end.

Fixpoint insert_chains h (bs : list (list (hmap_node A))) : Res (hmap A) :=
  match bs with
  | [] => Ok h
  | b :: bs => let* h := insert_all h b in insert_chains h bs
  end.

Definition resize h (new_mask : Z) : Res (hmap A) :=
  ovs_assert (is_pow2 (u32 (new_mask + 1))) ;;*
  let tmp := if new_mask =? 0 then hmap_init
             else Mk_hmap (replicate (Z.to_nat (new_mask + 1)) []) new_mask 0 in
  insert_chains tmp (buckets h).

Definition hmap_expand_at h : Res (hmap A) :=
  let new_mask := calc_mask (hmap_n h) in
  if mask h <? new_mask then resize h new_mask else Ok h.

Definition hmap_shrink_at h : Res (hmap A) :=
  let new_mask := calc_mask (hmap_n h) in
  if new_mask <? mask h then resize h new_mask else Ok h.

Definition hmap_reserve_at h (n : Z) : Res (hmap A) :=
  let new_mask := calc_mask n in
  if mask h <? new_mask then resize h new_mask else Ok h.

Definition hmap_insert_at h node (hash : Z) : Res (hmap A) :=
  let* h := hmap_insert_fast h node hash in
  if mask h <? hmap_n h / 2 then hmap_expand_at h else Ok h.

(** [while ( *bucket != node) bucket = &( *bucket)->next; *bucket = node->next] *)
Fixpoint chain_remove p (a : nat) : Res (list (hmap_node A)) :=
  match p with
  | [] => Fault NullDeref
  | node :: p' =>
      if decide (node_addr node = a) then Ok p'
      else rmap (cons node) (chain_remove p' a)
  end.

Definition hmap_remove h node : Res (hmap A) :=
  let i := Z.land (node_hash node) (mask h) in
  let* b := get_bucket h i in
  let* b := chain_remove b (node_addr node) in
  Ok (Mk_hmap (buckets (set_bucket h i b)) (mask h) (u32 (hmap_n h - 1))).

Fixpoint chain_replace p (a : nat) (node' : hmap_node A) : Res (list (hmap_node A)) :=
  match p with
  | [] => Fault NullDeref
  | node :: p' =>
      if decide (node_addr node = a)
      then Ok (Mk_node (node_addr node') (node_hash node) (node_val node') :: p')
      else rmap (cons node) (chain_replace p' a node')
  end.

Definition hmap_replace h (old_node new_node : hmap_node A) : Res (hmap A) :=
  let i := Z.land (node_hash old_node) (mask h) in
  let* b := get_bucket h i in
  let* b := chain_replace b (node_addr old_node) new_node in
  Ok (set_bucket h i b).

(** *** Search *)

Fixpoint hmap_next_with_hash__ p (hash : Z) : list (hmap_node A) :=
  match p with
  | [] => []
  | node :: p' => if node_hash node =? hash then p else hmap_next_with_hash__ p' hash
  end.

Definition hmap_first_in_bucket h (hash : Z) : Res (list (hmap_node A)) :=
  get_bucket h (Z.land hash (mask h)).

Definition hmap_first_with_hash h (hash : Z) : Res (list (hmap_node A)) :=
  let* b := get_bucket h (Z.land hash (mask h)) in
  Ok (hmap_next_with_hash__ b hash).

Definition hmap_next_with_hash p : list (hmap_node A) :=
  match p with
  | [] => []
  | node :: p' => hmap_next_with_hash__ p' (node_hash node)
  end.

(** The nodes [HMAP_FOR_EACH_WITH_HASH] visits from a pointer on.  [fuel] bounds
    their number; a chain of [k] nodes needs no more than [k]. *)
Fixpoint walk_with_hash (fuel : nat) p : list (hmap_node A) :=
  match fuel, p with
  | S fuel, node :: _ => node :: walk_with_hash fuel (hmap_next_with_hash p)
  | _, _ => []
  end.

Definition hmap_for_each_with_hash h (hash : Z) : Res (list (hmap_node A)) :=
  let* p := hmap_first_with_hash h hash in
  Ok (walk_with_hash (length p) p).

(** *** Iteration *)

(** The first node of the first non-empty bucket from [start] on. *)
Fixpoint next_nonempty (bs : list (list (hmap_node A))) : list (hmap_node A) :=
  match bs with
  | [] => []
  | [] :: bs => next_nonempty bs
  | p :: _ => p
  end.

Definition hmap_next__ h (start : Z) : list (hmap_node A) :=
  next_nonempty (drop (Z.to_nat start) (buckets h)).

Definition hmap_first h : list (hmap_node A) := hmap_next__ h 0.

Definition hmap_next h p : list (hmap_node A) :=
  match p with
  | [] => []
  | [node] => hmap_next__ h (Z.land (node_hash node) (mask h) + 1)
  | _ :: p' => p'
  end.

Fixpoint walk (fuel : nat) h p : list (hmap_node A) :=
  match fuel, p with
  | S fuel, node :: _ => node :: walk fuel h (hmap_next h p)
  | _, _ => []
  end.

(** The nodes [HMAP_FOR_EACH] visits, at most [fuel] of them. *)
Definition hmap_for_each (fuel : nat) h : list (hmap_node A) := walk fuel h (hmap_first h).

Definition hmap_contains h node : Res bool :=
  let* p := hmap_first_in_bucket h (node_hash node) in
  Ok (existsb (fun x => bool_decide (node_addr x = node_addr node)) p).

(** A store through a pointer into the object that embeds the node at [a]. *)
Definition upd_node (a : nat) (f : A -> A) (nd : hmap_node A) : hmap_node A :=
  if decide (node_addr nd = a)
  then Mk_node (node_addr nd) (node_hash nd) (f (node_val nd)) else nd.

Definition store_val h (a : nat) (f : A -> A) : hmap A :=
  Mk_hmap (List.map (List.map (upd_node a f)) (buckets h)) (mask h) (hmap_n h).

(** ** Invariant and abstraction *)

Definition bucket_ok (m : Z) (i : nat) (b : list (hmap_node A)) : Prop :=
  Forall (fun nd => in_u32 (node_hash nd) /\ Z.land (node_hash nd) m = Z.of_nat i) b.

Definition hmap_nodes h : list (hmap_node A) := concat (buckets h).

Definition mask_ok (m : Z) : Prop := exists k, 0 <= k <= 32 /\ m = 2 ^ k - 1.

Record hmap_wf h : Prop := {
  wf_mask : mask_ok (mask h);
  wf_len : Z.of_nat (length (buckets h)) = mask h + 1;
  wf_bucket : forall i b, buckets h !! i = Some b -> bucket_ok (mask h) i b;
  wf_n : hmap_n h = u32 (Z.of_nat (length (hmap_nodes h)));
  wf_addr : NoDup (node_addr <$> hmap_nodes h)
}.

(** The nodes with a given hash, in the order a search meets them. *)
Definition with_hash h (hash : Z) : list (hmap_node A) :=
  List.filter (fun nd => node_hash nd =? hash)
    (default [] (buckets h !! Z.to_nat (Z.land hash (mask h)))).

End Hmap.

(** ** [calc_mask] *)

(** [m'] has bit [i] set when [m] has one of the [w] bits from [i] on set. *)
Definition smeared (w m m' : Z) : Prop :=
  forall i, 0 <= i ->
    Z.testbit m' i = true <-> exists j, i <= j < i + w /\ Z.testbit m j = true.

Lemma smeared_1 m : smeared 1 m m.
Proof.
  intros i Hi. split; [intros H; exists i; by split; [lia|]|].
  intros (j & Hj & H). by replace i with j by lia.
Qed.

Lemma smeared_step w m m' : 0 < w -> smeared w m m' ->
  smeared (2 * w) m (Z.lor m' (Z.shiftr m' w)).
Proof.
  intros Hw HS i Hi. rewrite Z.lor_spec, Z.shiftr_spec, orb_true_iff by lia.
  rewrite (HS i), (HS (i + w)) by lia. split.
  - intros [(j & Hj & H)|(j & Hj & H)]; exists j; (split; [lia|assumption]).
  - intros (j & Hj & H). destruct (Z.lt_ge_cases j (i + w)); [left|right];
      exists j; (split; [lia|assumption]).
Qed.

Lemma smeared_all m m' : 0 < m < 2 ^ 32 -> 0 <= m' -> smeared 32 m m' ->
  m' = 2 ^ (Z.log2 m + 1) - 1.
Proof.
  intros Hm Hm' HS. pose proof (Z.log2_nonneg m).
  assert (Z.log2 m < 32) by (apply Z.log2_lt_pow2; lia).
  rewrite Z.sub_1_r, <- Z.ones_equiv. apply Z.bits_inj. intros i.
  destruct (Z.lt_ge_cases i 0); [by rewrite !Z.testbit_neg_r|].
  apply eq_true_iff_eq. rewrite (HS i), Z.testbit_ones_nonneg, Z.ltb_lt by lia.
  split.
  - intros (j & Hj & Hb). destruct (Z.lt_ge_cases (Z.log2 m) j); [|lia].
    by rewrite Z.bits_above_log2 in Hb by lia.
  - intros Hi. exists (Z.log2 m). split; [lia|]. apply Z.bit_log2. lia.
Qed.

Lemma lor_shiftr_nonneg x k : 0 <= x -> 0 <= Z.lor x (Z.shiftr x k).
Proof. intros H. apply Z.lor_nonneg. split; [done|]. by apply Z.shiftr_nonneg. Qed.

(** The mask for a capacity: all ones, never exactly one bit, and large enough
    for at most two nodes per bucket on average. *)
Lemma calc_mask_spec c : in_u32 c ->
  exists k, 0 <= k <= 31 /\ k <> 1 /\ calc_mask c = 2 ^ k - 1 /\ c / 2 <= calc_mask c.
Proof.
  unfold in_u32, calc_mask. intros Hc.
  change (UINT32_MAX <? SIZE_MAX) with false. cbv iota.
  assert (Hm : 0 <= c / 2 < 2 ^ 31) by zdm. set (m := c / 2) in *. clearbody m. clear Hc c.
  pose proof (smeared_step 1 _ _ ltac:(lia) (smeared_1 m)) as S2.
  pose proof (smeared_step 2 _ _ ltac:(lia) S2) as S4.
  pose proof (smeared_step 4 _ _ ltac:(lia) S4) as S8.
  pose proof (smeared_step 8 _ _ ltac:(lia) S8) as S16.
  pose proof (smeared_step 16 _ _ ltac:(lia) S16) as S32.
  simpl Z.mul in *.
  set (m2 := Z.lor m (Z.shiftr m 1)) in *. set (m4 := Z.lor m2 (Z.shiftr m2 2)) in *.
  set (m8 := Z.lor m4 (Z.shiftr m4 4)) in *. set (m16 := Z.lor m8 (Z.shiftr m8 8)) in *.
  set (m32 := Z.lor m16 (Z.shiftr m16 16)) in *.
  assert (H32 : 0 <= m32).
  { unfold m32, m16, m8, m4, m2. do 5 apply lor_shiftr_nonneg. lia. }
  destruct (Z.eq_dec m 0) as [->|Hm0]; [exists 0; vm_compute; intuition congruence|].
  assert (E : m32 = 2 ^ (Z.log2 m + 1) - 1) by (apply smeared_all; [lia|done|exact S32]).
  clearbody m32. clear - Hm Hm0 E. pose proof (Z.log2_nonneg m).
  pose proof (Z.log2_spec m ltac:(lia)) as [L1 L2].
  assert (Z.log2 m < 31) by (apply Z.log2_lt_pow2; lia).
  destruct (Z.eq_dec (Z.log2 m) 0) as [E0|E0].
  - rewrite E0 in *. assert (m = 1) as -> by lia. subst m32. exists 2.
    vm_compute. intuition congruence.
  - exists (Z.log2 m + 1). rewrite <- Z.add_1_r in L2.
    assert (Z.lor m32 (u32 (Z.shiftl (Z.land m32 1) 1)) = m32) as ->; [|repeat split; lia].
    rewrite E. apply Z.bits_inj. intros i. rewrite Z.lor_spec.
    rewrite Z.sub_1_r, <- Z.ones_equiv.
    assert (u32 (Z.shiftl (Z.land (Z.ones (Z.log2 m + 1)) 1) 1) = 2) as ->.
    { change 1 with (Z.ones 1) at 2. rewrite Z.land_ones, Z.ones_equiv by lia.
      rewrite <- (Z.succ_pred (Z.log2 m + 1)), Z.pow_succ_r by lia.
      assert (0 < 2 ^ Z.pred (Z.log2 m + 1)) by (apply Z.pow_pos_nonneg; lia).
      replace (Z.pred (2 * 2 ^ Z.pred (Z.log2 m + 1)) mod 2 ^ 1) with 1; [done|]. zdm. }
    destruct (Z.eq_dec i 1) as [->|]; [|replace (Z.testbit 2 i) with false].
    + rewrite Z.testbit_ones_nonneg by lia. case_bool; [done|lia].
    + apply orb_false_r.
    + symmetry. change 2 with (2 ^ 1). by apply Z.pow2_bits_false.
Qed.

(** ** The operations on well-formed tables *)

Section HmapFacts.
Context {A : Type}.
Implicit Types (h : hmap A) (node nd : hmap_node A) (p b : list (hmap_node A)).

Lemma bucket_index h hash : hmap_wf h ->
  0 <= Z.land hash (mask h) < Z.of_nat (length (buckets h)).
Proof.
  intros Hw. rewrite (wf_len h Hw). destruct (wf_mask h Hw) as (k & Hk & ->).
  assert (0 < 2 ^ k) by (apply Z.pow_pos_nonneg; lia).
  pose proof (land_le_r hash (2 ^ k - 1) ltac:(lia)). lia.
Qed.

Lemma get_bucket_ok h hash : hmap_wf h ->
  exists b, get_bucket h (Z.land hash (mask h)) = Ok b /\
    buckets h !! Z.to_nat (Z.land hash (mask h)) = Some b /\
    with_hash h hash = List.filter (fun nd => node_hash nd =? hash) b /\
    bucket_ok (mask h) (Z.to_nat (Z.land hash (mask h))) b.
Proof.
  intros Hw. pose proof (bucket_index h hash Hw) as Hi.
  destruct (lookup_lt_is_Some_2 (buckets h) (Z.to_nat (Z.land hash (mask h))))
    as [b Hb]; [lia|].
  exists b. unfold get_bucket, with_hash. rewrite Hb.
  pose proof (wf_bucket h Hw _ _ Hb). eauto.
Qed.

Lemma hmap_init_wf : hmap_wf (hmap_init (A := A)).
Proof.
  split; simpl; try done.
  - by exists 0.
  - intros [|i] b; simpl; [intros [= <-]; constructor|done].
  - constructor.
Qed.

Lemma empty_table_wf k : 0 <= k <= 32 ->
  hmap_wf (Mk_hmap (A := A) (replicate (Z.to_nat (2 ^ k)) []) (2 ^ k - 1) 0).
Proof.
  intros Hk. assert (0 < 2 ^ k) by (apply Z.pow_pos_nonneg; lia).
  assert (Hc : concat (replicate (Z.to_nat (2 ^ k)) (@nil (hmap_node A))) = []).
  { generalize (Z.to_nat (2 ^ k)). induction n; simpl; auto. }
  split; unfold hmap_nodes; simpl; rewrite ?Hc; try done.
  - by exists k.
  - rewrite length_replicate. lia.
  - intros i b [-> _]%lookup_replicate. constructor.
  - constructor.
Qed.

Lemma concat_insert_perm (bs : list (list (hmap_node A))) i b nd :
  bs !! i = Some b -> concat (<[i := nd :: b]> bs) ≡ₚ nd :: concat bs.
Proof.
  revert i. induction bs as [|c bs IH]; intros [|i] Hb; simpl in *; try done.
  - by injection Hb as ->.
  - rewrite (IH i Hb). by rewrite Permutation_middle.
Qed.

Lemma with_hash_set_bucket h i b n' hash :
  (Z.to_nat i < length (buckets h))%nat ->
  with_hash (Mk_hmap (buckets (set_bucket h i b)) (mask h) n') hash
  = if decide (Z.to_nat (Z.land hash (mask h)) = Z.to_nat i)
    then List.filter (fun nd => node_hash nd =? hash) b else with_hash h hash.
Proof.
  intros Hi. unfold with_hash. simpl. case_decide as Hd.
  - rewrite Hd, list_lookup_insert_eq by done. done.
  - by rewrite list_lookup_insert_ne.
Qed.

Lemma hmap_insert_fast_spec h node hash :
  hmap_wf h -> in_u32 hash -> node_addr node ∉ node_addr <$> hmap_nodes h ->
  let node' := Mk_node (node_addr node) hash (node_val node) in
  exists h', hmap_insert_fast h node hash = Ok h' /\ hmap_wf h' /\
    mask h' = mask h /\ hmap_nodes h' ≡ₚ node' :: hmap_nodes h /\
    (forall k, with_hash h' k =
       if decide (k = hash) then node' :: with_hash h k else with_hash h k).
Proof.
  intros Hw Hh Ha node'. pose proof (bucket_index h hash Hw) as Hi.
  destruct (get_bucket_ok h hash Hw) as (b & E & Hb & Hwh & Hbo).
  unfold hmap_insert_fast. rewrite E. cbn [rbind]. fold node'. eexists. split; [done|].
  assert (HP : hmap_nodes (Mk_hmap (buckets (set_bucket h (Z.land hash (mask h)) (node' :: b)))
                (mask h) (u32 (hmap_n h + 1))) ≡ₚ node' :: hmap_nodes h)
    by (apply concat_insert_perm; done).
  split; [|split; [done|split; [done|]]].
  - split.
    + apply (wf_mask h Hw).
    + simpl. rewrite length_insert. apply (wf_len h Hw).
    + simpl. intros i c Hc. apply list_lookup_insert_Some in Hc as [(<- & <- & _)|[_ Hc]].
      * constructor; [|done]. simpl. split; [done|lia].
      * by apply (wf_bucket h Hw).
    + rewrite HP. simpl. rewrite (wf_n h Hw). unfold u32.
      rewrite Zplus_mod_idemp_l. f_equal. lia.
    + rewrite HP. csimpl. apply NoDup_cons. split; [done|apply (wf_addr h Hw)].
  - intros k. rewrite with_hash_set_bucket by lia. simpl. case_decide as Hk; case_decide.
    + subst k. by rewrite Z.eqb_refl, Hwh.
    + case_bool; [congruence|]. unfold with_hash. by rewrite Hk, Hb.
    + subst k. done.
    + done.
Qed.

Definition same_hash (k : Z) (l : list (hmap_node A)) : list (hmap_node A) :=
  List.filter (fun nd => node_hash nd =? k) l.

Lemma same_hash_app k l1 l2 : same_hash k (l1 ++ l2) = same_hash k l1 ++ same_hash k l2.
Proof. apply List.filter_app. Qed.

Lemma node_eta nd : Mk_node (node_addr nd) (node_hash nd) (node_val nd) = nd.
Proof. by destruct nd. Qed.

(** Reinsertion reverses the nodes of each hash. *)
Lemma insert_all_spec l : forall h,
  hmap_wf h -> Forall (fun nd => in_u32 (node_hash nd)) l ->
  NoDup (node_addr <$> (l ++ hmap_nodes h)) ->
  exists h', insert_all h l = Ok h' /\ hmap_wf h' /\ mask h' = mask h /\
    hmap_nodes h' ≡ₚ l ++ hmap_nodes h /\
    (forall k, with_hash h' k = reverse (same_hash k l) ++ with_hash h k).
Proof.
  induction l as [|nd l IH]; intros h Hw Hl Hnd; [by exists h|].
  apply Forall_cons_iff in Hl as [Hu Hl]. csimpl in Hnd.
  apply NoDup_cons in Hnd as [Ha Hnd].
  destruct (hmap_insert_fast_spec h nd (node_hash nd) Hw Hu)
    as (h1 & E1 & Hw1 & Hm1 & Hp1 & Hs1).
  { intros Hin. apply Ha. rewrite fmap_app. apply elem_of_app. by right. }
  rewrite node_eta in Hp1, Hs1. simpl. rewrite E1. simpl.
  destruct (IH h1 Hw1 Hl) as (h2 & E2 & Hw2 & Hm2 & Hp2 & Hs2).
  { rewrite Hp1, <- Permutation_middle. csimpl. by apply NoDup_cons. }
  exists h2. split; [done|]. split; [done|]. split; [congruence|]. split.
  - by rewrite Hp2, Hp1, Permutation_middle.
  - intros k. rewrite Hs2, Hs1. unfold same_hash. simpl. case_bool; case_decide.
    + rewrite reverse_cons, <- app_assoc. done.
    + congruence.
    + congruence.
    + done.
Qed.

Lemma insert_chains_concat bs : forall h,
  insert_chains h bs = insert_all h (concat bs).
Proof.
  assert (Happ : forall l l' h, insert_all h (l ++ l') =
            rbind (insert_all h l) (fun h' => insert_all h' l')).
  { induction l as [|nd l IH]; intros l' h; simpl; [done|].
    rewrite rbind_assoc. destruct (hmap_insert_fast _ _ _); simpl; auto. }
  induction bs as [|b bs IH]; intros h; simpl; [done|].
  rewrite Happ. destruct (insert_all h b); simpl; auto.
Qed.

(** Nodes of one hash all lie in one bucket. *)
Lemma same_hash_other k m i b :
  bucket_ok m i b -> Z.land k m <> Z.of_nat i -> same_hash k b = [].
Proof.
  intros Hb Hk. induction Hb as [|nd b [_ Hi] _ IH]; [done|].
  unfold same_hash. simpl. case_bool; [congruence|done].
Qed.

Lemma same_hash_concat k m (bs : list (list (hmap_node A))) (off : nat) :
  (forall i b, bs !! i = Some b -> bucket_ok m (off + i) b) -> 0 <= Z.land k m ->
  same_hash k (concat bs) =
    if (off <=? Z.to_nat (Z.land k m))%nat
    then same_hash k (default [] (bs !! (Z.to_nat (Z.land k m) - off)%nat)) else [].
Proof.
  revert off. induction bs as [|b bs IH]; intros off Hbs Hk; simpl.
  { by destruct (off <=? _)%nat. }
  rewrite same_hash_app, (IH (S off)); [|intros i c Hc|done].
  2:{ replace (S off + i)%nat with (off + S i)%nat by lia. by apply Hbs. }
  pose proof (Hbs 0%nat b eq_refl) as Hb. rewrite Nat.add_0_r in Hb.
  destruct (Nat.leb_spec off (Z.to_nat (Z.land k m))) as [Hle|Hgt].
  - destruct (Nat.eq_dec off (Z.to_nat (Z.land k m))) as [->|Hne].
    + rewrite (proj2 (Nat.leb_gt _ _)), Nat.sub_diag by lia. by rewrite app_nil_r.
    + rewrite (proj2 (Nat.leb_le _ _)) by lia.
      rewrite (same_hash_other k m off b Hb) by lia.
      by replace (Z.to_nat (Z.land k m) - off)%nat
        with (S (Z.to_nat (Z.land k m) - S off)) by lia.
  - rewrite (proj2 (Nat.leb_gt _ _)) by lia.
    by rewrite (same_hash_other k m off b Hb) by lia.
Qed.

Lemma with_hash_nodes h k : hmap_wf h -> with_hash h k = same_hash k (hmap_nodes h).
Proof.
  intros Hw. unfold hmap_nodes.
  rewrite (same_hash_concat k (mask h) (buckets h) 0).
  - simpl. by rewrite Nat.sub_0_r.
  - apply (wf_bucket h Hw).
  - apply (bucket_index h k Hw).
Qed.

Lemma nodes_hash_u32 h : hmap_wf h -> Forall (fun nd => in_u32 (node_hash nd)) (hmap_nodes h).
Proof.
  intros Hw. apply Forall_concat, Forall_lookup. intros i b Hb.
  eapply Forall_impl; [exact (wf_bucket h Hw i b Hb)|]. simpl. tauto.
Qed.

(** Rehashing keeps the nodes, and reverses the order of those of equal hash. *)
Lemma resize_spec h k : hmap_wf h -> 0 <= k <= 31 ->
  exists h', resize h (2 ^ k - 1) = Ok h' /\ hmap_wf h' /\ mask h' = 2 ^ k - 1 /\
    hmap_nodes h' ≡ₚ hmap_nodes h /\
    (forall hash, with_hash h' hash = reverse (with_hash h hash)).
Proof.
  intros Hw Hk. unfold resize. assert (Hp : 0 < 2 ^ k) by (apply Z.pow_pos_nonneg; lia).
  assert (2 ^ k <= 2 ^ 31) by (apply Z.pow_le_mono_r; lia).
  replace (2 ^ k - 1 + 1) with (2 ^ k) by lia. rewrite u32_id by (unfold in_u32; lia).
  rewrite is_pow2_pow2 by lia. cbn [rbind ovs_assert].
  set (tmp := if 2 ^ k - 1 =? 0 then hmap_init else _).
  assert (Ht : hmap_wf tmp /\ mask tmp = 2 ^ k - 1 /\ hmap_nodes tmp = [] /\
               forall hash, with_hash tmp hash = []).
  { assert (Hmk : tmp = Mk_hmap (replicate (Z.to_nat (2 ^ k)) []) (2 ^ k - 1) 0).
    { unfold tmp. destruct (Z.eqb_spec (2 ^ k - 1) 0) as [E|]; [|done].
      replace (2 ^ k) with 1 by lia. done. }
    pose proof (empty_table_wf k ltac:(lia)) as Hwt. rewrite <- Hmk in Hwt.
    assert (Hn : hmap_nodes tmp = []).
    { rewrite Hmk. unfold hmap_nodes. simpl. clear.
      generalize (Z.to_nat (2 ^ k)). induction n; simpl; auto. }
    split; [done|]. split; [by rewrite Hmk|]. split; [done|].
    intros hash. by rewrite with_hash_nodes, Hn. }
  destruct Ht as (Hwt & Hmt & Hnt & Hst). clearbody tmp.
  rewrite insert_chains_concat.
  destruct (insert_all_spec (hmap_nodes h) tmp Hwt (nodes_hash_u32 h Hw))
    as (h' & E & Hw' & Hm' & Hp' & Hs').
  { rewrite Hnt, app_nil_r. apply (wf_addr h Hw). }
  exists h'. split; [done|]. split; [done|]. split; [congruence|]. split.
  - by rewrite Hp', Hnt, app_nil_r.
  - intros hash. by rewrite Hs', Hst, app_nil_r, with_hash_nodes.
Qed.

(** What an operation that may rehash promises. *)
Definition same_up_to_rehash h h' : Prop :=
  hmap_wf h' /\ hmap_nodes h' ≡ₚ hmap_nodes h /\
  ((forall k, with_hash h' k = with_hash h k) \/
   (forall k, with_hash h' k = reverse (with_hash h k))).

Lemma resize_calc_mask h c : hmap_wf h -> in_u32 c ->
  exists h', resize h (calc_mask c) = Ok h' /\ same_up_to_rehash h h' /\
             mask h' = calc_mask c.
Proof.
  intros Hw Hc. destruct (calc_mask_spec c Hc) as (k & Hk & _ & -> & _).
  destruct (resize_spec h k Hw Hk) as (h' & E & Hw' & Hm & Hp & Hs).
  exists h'. unfold same_up_to_rehash. auto 6.
Qed.

Lemma hmap_n_u32 h : hmap_wf h -> in_u32 (hmap_n h).
Proof. intros Hw. rewrite (wf_n h Hw). apply u32_range. Qed.

Lemma same_up_to_rehash_refl h : hmap_wf h -> same_up_to_rehash h h.
Proof. intros Hw. split; [done|]. split; [done|]. by left. Qed.

Lemma hmap_expand_at_spec h : hmap_wf h ->
  exists h', hmap_expand_at h = Ok h' /\ same_up_to_rehash h h'.
Proof.
  intros Hw. unfold hmap_expand_at. case_bool.
  - destruct (resize_calc_mask h _ Hw (hmap_n_u32 h Hw)) as (h' & ? & ? & _). eauto.
  - eauto using same_up_to_rehash_refl.
Qed.

Lemma hmap_shrink_at_spec h : hmap_wf h ->
  exists h', hmap_shrink_at h = Ok h' /\ same_up_to_rehash h h'.
Proof.
  intros Hw. unfold hmap_shrink_at. case_bool.
  - destruct (resize_calc_mask h _ Hw (hmap_n_u32 h Hw)) as (h' & ? & ? & _). eauto.
  - eauto using same_up_to_rehash_refl.
Qed.

Lemma hmap_reserve_at_spec h n : hmap_wf h -> in_u32 n ->
  exists h', hmap_reserve_at h n = Ok h' /\ same_up_to_rehash h h'.
Proof.
  intros Hw Hn. unfold hmap_reserve_at. case_bool.
  - destruct (resize_calc_mask h _ Hw Hn) as (h' & ? & ? & _). eauto.
  - eauto using same_up_to_rehash_refl.
Qed.

Lemma hmap_insert_at_spec h node hash :
  hmap_wf h -> in_u32 hash -> node_addr node ∉ node_addr <$> hmap_nodes h ->
  let node' := Mk_node (node_addr node) hash (node_val node) in
  let chain k := if decide (k = hash) then node' :: with_hash h k else with_hash h k in
  exists h', hmap_insert_at h node hash = Ok h' /\ hmap_wf h' /\
    hmap_nodes h' ≡ₚ node' :: hmap_nodes h /\
    ((forall k, with_hash h' k = chain k) \/
     (forall k, with_hash h' k = reverse (chain k))).
Proof.
  intros Hw Hh Ha node' chain.
  destruct (hmap_insert_fast_spec h node hash Hw Hh Ha) as (h1 & E & Hw1 & _ & Hp & Hs).
  unfold hmap_insert_at. rewrite E. simpl. fold node' in Hp, Hs. case_bool; [|eauto 8].
  destruct (hmap_expand_at_spec h1 Hw1) as (h2 & E2 & Hw2 & Hp2 & Hs2).
  exists h2. split; [done|]. split; [done|]. split; [by rewrite Hp2|].
  destruct Hs2 as [Hs2|Hs2]; [left|right]; intros k; by rewrite Hs2, Hs.
Qed.

(** *** Search *)

Lemma next_with_hash___cons p hash :
  hmap_next_with_hash__ p hash = [] /\ same_hash hash p = [] \/
  exists nd p', hmap_next_with_hash__ p hash = nd :: p' /\ node_hash nd = hash /\
    same_hash hash p = nd :: same_hash hash p' /\ (length p' < length p)%nat.
Proof.
  induction p as [|nd p IH]; [by left|]. unfold same_hash in *. simpl.
  case_bool; [right; exists nd, p; auto using Nat.lt_succ_diag_r, Nat.lt_lt_succ_r|].
  destruct IH as [[-> ->]|(nd' & p' & -> & ? & -> & ?)]; [by left|right].
  exists nd', p'. auto using Nat.lt_succ_diag_r, Nat.lt_lt_succ_r.
Qed.

Lemma walk_with_hash_spec p hash fuel :
  (length (hmap_next_with_hash__ p hash) <= fuel)%nat ->
  walk_with_hash fuel (hmap_next_with_hash__ p hash) = same_hash hash p.
Proof.
  revert p. induction fuel as [|fuel IH]; intros p Hf;
    destruct (next_with_hash___cons p hash) as [[-> ->]|(nd & p' & E & Hn & -> & Hl)];
    try done; rewrite E in *; simpl in *; [lia|].
  rewrite Hn, IH; [done|].
  destruct (next_with_hash___cons p' hash) as [[-> _]|(nd' & p'' & -> & _ & _ & ?)];
    simpl in *; lia.
Qed.

Lemma hmap_for_each_with_hash_spec h hash : hmap_wf h ->
  hmap_for_each_with_hash h hash = Ok (with_hash h hash).
Proof.
  intros Hw. destruct (get_bucket_ok h hash Hw) as (b & E & _ & -> & _).
  unfold hmap_for_each_with_hash, hmap_first_with_hash. rewrite E. simpl.
  by rewrite walk_with_hash_spec.
Qed.

(** The pointer [hmap_first_with_hash] returns. *)
Lemma hmap_first_with_hash_spec h hash : hmap_wf h ->
  exists p, hmap_first_with_hash h hash = Ok p /\ head p = head (with_hash h hash).
Proof.
  intros Hw. destruct (get_bucket_ok h hash Hw) as (b & E & _ & Hs & _).
  unfold hmap_first_with_hash. rewrite E. simpl. eexists. split; [done|]. rewrite Hs.
  destruct (next_with_hash___cons b hash) as [[-> Hn]|(nd & p' & -> & _ & Hn & _)];
    unfold same_hash in Hn; by rewrite Hn.
Qed.

Lemma elem_of_with_hash h k nd : hmap_wf h ->
  nd ∈ with_hash h k <-> nd ∈ hmap_nodes h /\ node_hash nd = k.
Proof.
  intros Hw. rewrite with_hash_nodes by done. unfold same_hash.
  rewrite !list_elem_of_In, List.filter_In. by rewrite Z.eqb_eq.
Qed.

(** *** Removal *)

Lemma chain_remove_spec p l r nd :
  p = l ++ nd :: r -> node_addr nd ∉ node_addr <$> l ->
  chain_remove p (node_addr nd) = Ok (l ++ r).
Proof.
  intros ->. induction l as [|x l IH]; intros Ha; csimpl; csimpl in Ha.
  - by rewrite decide_True.
  - rewrite decide_False by set_solver. rewrite IH by set_solver. done.
Qed.

Lemma concat_update_perm (bs : list (list (hmap_node A))) i b b' l :
  bs !! i = Some b -> b ≡ₚ l ++ b' -> concat bs ≡ₚ l ++ concat (<[i := b']> bs).
Proof.
  revert i. induction bs as [|c bs IH]; intros [|i] Hb Hp; simpl in *; try done.
  - injection Hb as ->. by rewrite Hp, <- app_assoc.
  - rewrite (IH i Hb Hp). by rewrite !app_assoc, (Permutation_app_comm c l).
Qed.

Lemma hmap_remove_spec h nd : hmap_wf h -> nd ∈ hmap_nodes h ->
  exists h', hmap_remove h nd = Ok h' /\ hmap_wf h' /\
    hmap_nodes h ≡ₚ nd :: hmap_nodes h' /\
    (exists l r, with_hash h (node_hash nd) = l ++ nd :: r /\
                 with_hash h' (node_hash nd) = l ++ r) /\
    (forall k, k <> node_hash nd -> with_hash h' k = with_hash h k).
Proof.
  intros Hw Hin. pose proof (bucket_index h (node_hash nd) Hw) as Hi.
  destruct (get_bucket_ok h (node_hash nd) Hw) as (b & E & Hb & Hwh & Hbo).
  assert (Hnb : nd ∈ b).
  { assert (nd ∈ with_hash h (node_hash nd)) as H by (apply elem_of_with_hash; auto).
    rewrite Hwh, list_elem_of_In, List.filter_In in H. apply list_elem_of_In, H. }
  apply list_elem_of_split in Hnb as (l & r & ->).
  assert (Hnd : node_addr nd ∉ node_addr <$> l).
  { pose proof (wf_addr h Hw) as Hn.
    rewrite (concat_update_perm _ _ _ [] (l ++ nd :: r) Hb) in Hn by (by rewrite app_nil_r).
    rewrite !fmap_app in Hn. csimpl in Hn. rewrite <- app_assoc in Hn.
    apply NoDup_app in Hn as (_ & Hd & _). intros Hx. apply (Hd _ Hx). set_solver. }
  unfold hmap_remove. rewrite E. cbn [rbind].
  rewrite (chain_remove_spec _ l r nd eq_refl Hnd). cbn [rbind].
  set (h' := Mk_hmap _ _ _). exists h'. split; [done|].
  assert (HP : hmap_nodes h ≡ₚ nd :: hmap_nodes h').
  { apply (concat_update_perm _ _ _ _ [nd] Hb). by rewrite <- Permutation_middle. }
  refine (conj _ (conj HP (conj _ _))).
  - split.
    + apply (wf_mask h Hw).
    + simpl. rewrite length_insert. apply (wf_len h Hw).
    + simpl. intros i c Hc. apply list_lookup_insert_Some in Hc as [(<- & <- & _)|[_ Hc]].
      * unfold bucket_ok in *. apply Forall_app in Hbo as [? Hbo].
        apply Forall_cons_iff in Hbo as [_ ?]. by apply Forall_app.
      * by apply (wf_bucket h Hw).
    + change (u32 (hmap_n h - 1) = u32 (Z.of_nat (length (hmap_nodes h')))).
      rewrite (wf_n h Hw), HP. unfold u32. rewrite Zminus_mod_idemp_l. f_equal.
      simpl. lia.
    + pose proof (wf_addr h Hw) as Hn. rewrite HP in Hn. csimpl in Hn.
      by apply NoDup_cons in Hn as [].
  - exists (same_hash (node_hash nd) l), (same_hash (node_hash nd) r).
    unfold h'. rewrite with_hash_set_bucket, decide_True, Hwh by (done || lia).
    rewrite !List.filter_app. simpl. by rewrite Z.eqb_refl.
  - intros k Hk. unfold h'. rewrite with_hash_set_bucket by lia. case_decide; [|done].
    unfold with_hash. rewrite H, Hb. simpl. rewrite !List.filter_app. simpl.
    case_bool; [congruence|done].
Qed.

(** *** Stores into embedded objects *)

Lemma upd_node_keeps a f nd :
  node_addr (upd_node a f nd) = node_addr nd /\ node_hash (upd_node a f nd) = node_hash nd.
Proof. unfold upd_node. by case_decide. Qed.

Lemma hmap_nodes_store h a f : hmap_nodes (store_val h a f) = List.map (upd_node a f) (hmap_nodes h).
Proof. unfold hmap_nodes. simpl. by rewrite concat_map. Qed.

Lemma same_hash_map k (g : hmap_node A -> hmap_node A) l :
  (forall nd, node_hash (g nd) = node_hash nd) ->
  same_hash k (List.map g l) = List.map g (same_hash k l).
Proof.
  intros Hg. unfold same_hash. induction l as [|nd l IH]; simpl; [done|].
  rewrite Hg. case_bool; simpl; by rewrite IH.
Qed.

Lemma store_val_wf h a f : hmap_wf h -> hmap_wf (store_val h a f).
Proof.
  intros Hw. split.
  - apply (wf_mask h Hw).
  - simpl. rewrite List.length_map. apply (wf_len h Hw).
  - simpl. intros i b Hb. apply list_lookup_fmap_Some in Hb as (b0 & -> & Hb).
    apply (wf_bucket h Hw) in Hb. apply Forall_map.
    eapply Forall_impl; [exact Hb|]. intros nd. simpl.
    by rewrite (proj2 (upd_node_keeps a f nd)).
  - rewrite hmap_nodes_store, List.length_map. apply (wf_n h Hw).
  - rewrite hmap_nodes_store. pose proof (wf_addr h Hw) as Hn.
    assert (node_addr <$> List.map (upd_node a f) (hmap_nodes h) = node_addr <$> hmap_nodes h)
      as ->; [|done].
    induction (hmap_nodes h) as [|nd l IH]; [done|]. csimpl.
    rewrite (proj1 (upd_node_keeps a f nd)). csimpl in Hn. apply NoDup_cons in Hn as [_ Hn].
    f_equal. by apply IH.
Qed.

Lemma with_hash_store h a f k : hmap_wf h ->
  with_hash (store_val h a f) k = List.map (upd_node a f) (with_hash h k).
Proof.
  intros Hw. rewrite !with_hash_nodes by auto using store_val_wf.
  rewrite hmap_nodes_store. apply same_hash_map. intros nd. apply upd_node_keeps.
Qed.

(** *** Iteration *)

Lemma next_nonempty_spec (bs : list (list (hmap_node A))) :
  next_nonempty bs = [] /\ concat bs = [] \/
  exists i nd p, bs !! i = Some (nd :: p) /\ next_nonempty bs = nd :: p /\
    concat bs = (nd :: p) ++ concat (drop (S i) bs).
Proof.
  induction bs as [|[|nd p] bs IH]; simpl; [by left| |].
  - destruct IH as [?|(i & nd & p & Hi & Hn & Hc)]; [by left|right].
    exists (S i), nd, p. auto.
  - right. exists 0%nat, nd, p. by rewrite drop_0.
Qed.

Lemma walk_spec h i b l nd p fuel : hmap_wf h ->
  buckets h !! i = Some b -> b = l ++ nd :: p ->
  (length (nd :: p) + length (concat (drop (S i) (buckets h))) <= fuel)%nat ->
  walk fuel h (nd :: p) = (nd :: p) ++ concat (drop (S i) (buckets h)).
Proof.
  intros Hw. revert i b l nd p.
  induction fuel as [|fuel IH]; intros i b l nd p Hb -> Hf; simpl in Hf; [lia|].
  simpl. f_equal. destruct p as [|nd' p].
  - assert (Hi : Z.land (node_hash nd) (mask h) = Z.of_nat i).
    { pose proof (wf_bucket h Hw _ _ Hb) as Hbo. apply Forall_app in Hbo as [_ Hbo].
      by apply Forall_cons_iff in Hbo as [[_ ?] _]. }
    rewrite Hi. unfold hmap_next__. replace (Z.to_nat (Z.of_nat i + 1)) with (S i) by lia.
    simpl app.
    destruct (next_nonempty_spec (drop (S i) (buckets h)))
      as [[-> ->]|(j & nd' & p' & Hj & -> & Hc)]; [by destruct fuel|].
    rewrite lookup_drop in Hj. rewrite Hc, drop_drop.
    replace (S i + S j)%nat with (S (S i + j)) by lia.
    apply (IH (S i + j)%nat _ [] nd' p' Hj eq_refl).
    rewrite Hc, drop_drop in Hf. rewrite length_app in Hf. simpl in *.
    replace (S (i + S j)) with (S (S (i + j))) in Hf by lia. lia.
  - apply (IH i _ (l ++ [nd]) nd' p Hb); [by rewrite <- app_assoc|]. simpl in *. lia.
Qed.

Lemma hmap_for_each_spec h fuel : hmap_wf h ->
  (length (hmap_nodes h) <= fuel)%nat -> hmap_for_each fuel h = hmap_nodes h.
Proof.
  intros Hw Hf. unfold hmap_for_each, hmap_first, hmap_next__, hmap_nodes in *. simpl.
  rewrite drop_0.
  destruct (next_nonempty_spec (buckets h)) as [[-> ->]|(i & nd & p & Hi & -> & Hc)];
    [by destruct fuel|].
  rewrite Hc in *. rewrite length_app in Hf.
  by apply (walk_spec h i _ [] nd p fuel Hw Hi eq_refl).
Qed.

Lemma elem_of_nodes h nd : nd ∈ hmap_nodes h <->
  exists i b, buckets h !! i = Some b /\ nd ∈ b.
Proof.
  unfold hmap_nodes. split.
  - intros Hin. apply list_elem_of_In, in_concat in Hin as (b & Hb & Hin).
    apply list_elem_of_In, list_elem_of_lookup in Hb as [i Hb].
    exists i, b. by rewrite list_elem_of_In.
  - intros (i & b & Hb & Hin). apply list_elem_of_In, in_concat. exists b.
    split; [|by apply list_elem_of_In]. apply list_elem_of_In.
    by eapply list_elem_of_lookup_2.
Qed.

Lemma hmap_contains_spec h nd : hmap_wf h -> nd ∈ hmap_nodes h ->
  hmap_contains h nd = Ok true.
Proof.
  intros Hw Hin. unfold hmap_contains, hmap_first_in_bucket.
  destruct (get_bucket_ok h (node_hash nd) Hw) as (b & E & Hb & _ & _).
  rewrite E. simpl. f_equal. apply existsb_exists. exists nd.
  split; [|by apply bool_decide_eq_true]. apply list_elem_of_In.
  apply elem_of_nodes in Hin as (i & b' & Hb' & Hin).
  pose proof (wf_bucket h Hw _ _ Hb') as Hbo. unfold bucket_ok in Hbo.
  rewrite List.Forall_forall in Hbo.
  destruct (Hbo nd) as [_ Hl]; [by apply list_elem_of_In|].
  rewrite Hl, Nat2Z.id in Hb. congruence.
Qed.

(** Inserting a node succeeds, growing the table when needed; a search for
    its hash finds it, iteration visits it and every
    other node exactly once, and removing it gives back the same nodes. *)
Theorem hmap_insert_remove h node hash : hmap_wf h -> in_u32 hash ->
  node_addr node ∉ node_addr <$> hmap_nodes h ->
  let node' := Mk_node (node_addr node) hash (node_val node) in
  exists h1 h2, hmap_insert_at h node hash = Ok h1 /\
    (exists l, hmap_for_each_with_hash h1 hash = Ok l /\ node' ∈ l /\
       Forall (fun nd => node_hash nd = hash) l) /\
    hmap_for_each (S (length (hmap_nodes h))) h1 ≡ₚ node' :: hmap_nodes h /\
    hmap_contains h1 node' = Ok true /\
    hmap_remove h1 node' = Ok h2 /\ hmap_wf h2 /\ hmap_nodes h2 ≡ₚ hmap_nodes h.
Proof.
  intros Hw Hh Ha node'.
  destruct (hmap_insert_at_spec h node hash Hw Hh Ha) as (h1 & E & Hw1 & Hp & _). fold node' in Hp.
  assert (Hin : node' ∈ hmap_nodes h1) by (rewrite Hp; left).
  destruct (hmap_remove_spec h1 node' Hw1 Hin) as (h2 & E2 & Hw2 & Hp2 & _).
  exists h1, h2. split; [done|]. split; [|split; [|split; [|split; [done|split; [done|]]]]].
  - eexists. split; [by apply hmap_for_each_with_hash_spec|]. split; [by apply elem_of_with_hash|].
    apply Forall_forall. intros nd Hnd. by apply elem_of_with_hash in Hnd as [_ ?].
  - rewrite hmap_for_each_spec; [done|done|]. by rewrite Hp.
  - by apply hmap_contains_spec.
  - apply (Permutation_cons_inv (a := node')). by rewrite <- Hp2, Hp.
Qed.
End HmapFacts.

Lemma hmap_insert_remove_witness :
  exists h1 h2, hmap_insert_at hmap_init (Mk_node 1 0 true) 77 = Ok h1 /\
    hmap_remove h1 (Mk_node 1 77 true) = Ok h2 /\ hmap_nodes h2 ≡ₚ [].
Proof.
  destruct (hmap_insert_remove hmap_init (Mk_node 1 0 true) 77 hmap_init_wf)
    as (h1 & h2 & E & _ & _ & _ & E2 & _ & Hp).
  - unfold in_u32. lia.
  - apply not_elem_of_nil.
  - exists h1, h2. split; [exact E|]. split; [exact E2|exact Hp].
Defined.
