(* ===== verification/Hindex.v ===== *)
(** * Hash indexes ([lib/hindex.h], [lib/hindex.c])

    A hash table that keeps the nodes with the same hash together: a bucket is
    the chain of its head nodes ([d] pointers), one for every hash, and each
    head starts the chain of the nodes with its hash ([s] pointers).  In the
    model an element of a bucket is a group: the head with the nodes below it,
    under the address and the hash of the head.  So the table is an [hmap] of
    groups, and [n_unique], the number of groups, is its number of nodes.  A body
    node is unlinked through its own pointers, without a search, which in the
    model is a store to the group. *)

From Stdlib Require Import ZArith Lia List.
From stdpp Require Import base list option sets.
From S2P Require Import Prelude Hmap.
#[local] Open Scope Z_scope.
#[local] Open Scope res_scope.

(** ** Replacing a node of a hash map *)

Lemma chain_replace_spec {A} (p l r : list (hmap_node A)) nd nd' :
  p = l ++ nd :: r -> node_addr nd ∉ node_addr <$> l ->
  chain_replace p (node_addr nd) nd' = Ok (l ++ Mk_node (node_addr nd') (node_hash nd) (node_val nd') :: r).
Proof.
  intros ->. induction l as [|x l IH]; intros Ha; csimpl; csimpl in Ha.
  - by rewrite decide_True.
  - rewrite decide_False by set_solver. rewrite IH by set_solver. done.
Qed.

Lemma hmap_replace_spec {A} (h : hmap A) nd nd0 : hmap_wf h -> nd ∈ hmap_nodes h ->
  (node_addr nd0 ∈ node_addr <$> hmap_nodes h -> node_addr nd0 = node_addr nd) ->
  let nd' := Mk_node (node_addr nd0) (node_hash nd) (node_val nd0) in
  exists h' rest, hmap_replace h nd nd0 = Ok h' /\ hmap_wf h' /\
    hmap_nodes h ≡ₚ nd :: rest /\ hmap_nodes h' ≡ₚ nd' :: rest /\
    (exists l r, with_hash h (node_hash nd) = l ++ nd :: r /\ with_hash h' (node_hash nd) = l ++ nd' :: r) /\
    (forall k, k <> node_hash nd -> with_hash h' k = with_hash h k).
Proof.
  intros Hw Hin Hnew nd'. pose proof (bucket_index h (node_hash nd) Hw) as Hi.
  destruct (get_bucket_ok h (node_hash nd) Hw) as (b & E & Hb & Hwh & Hbo).
  assert (Hnb : nd ∈ b).
  { assert (nd ∈ with_hash h (node_hash nd)) as H by (apply elem_of_with_hash; auto).
    rewrite Hwh, list_elem_of_In, List.filter_In in H. apply list_elem_of_In, H. }
  apply list_elem_of_split in Hnb as (l & r & ->).
  pose proof (concat_update_perm _ _ _ [] (l ++ nd :: r) Hb ltac:(by rewrite app_nil_r)) as Hall.
  set (rest := l ++ r ++ concat (<[Z.to_nat (Z.land (node_hash nd) (mask h)) := []]> (buckets h))).
  assert (hmap_nodes h ≡ₚ nd :: rest) as HP.
  { unfold hmap_nodes. rewrite Hall. unfold rest. rewrite <- app_assoc. cbn [app]. rewrite <- Permutation_middle. done. }
  assert (Hnd : node_addr nd ∉ node_addr <$> l).
  { pose proof (wf_addr h Hw) as Hn. rewrite HP in Hn. csimpl in Hn. apply NoDup_cons in Hn as [Hn _].
    unfold rest in Hn. rewrite fmap_app in Hn. set_solver. }
  unfold hmap_replace. rewrite E. cbn [rbind].
  rewrite (chain_replace_spec _ l r nd nd0 eq_refl Hnd). cbn [rbind]. fold nd'.
  set (h' := set_bucket h _ _). exists h', rest. split; [done|].
  assert (HP' : hmap_nodes h' ≡ₚ nd' :: rest).
  { unfold hmap_nodes, h'. cbn [buckets set_bucket]. set (i := Z.to_nat _) in *.
    assert (<[i := l ++ nd' :: r]> (buckets h) !! i = Some (l ++ nd' :: r)) as Hb'
      by (apply list_lookup_insert_eq; unfold i; lia).
    rewrite (concat_update_perm _ _ _ [] _ Hb' ltac:(by rewrite app_nil_r)).
    rewrite list_insert_insert_eq. unfold rest. rewrite <- app_assoc. cbn [app]. rewrite <- Permutation_middle. done. }
  split; [|split; [done|split; [done|split]]].
  - split.
    + apply (wf_mask h Hw).
    + simpl. rewrite length_insert. apply (wf_len h Hw).
    + simpl. intros i c Hc. apply list_lookup_insert_Some in Hc as [(<- & <- & _)|[_ Hc]].
      * unfold bucket_ok in *. apply Forall_app in Hbo as [? Hbo].
        apply Forall_cons_iff in Hbo as [? ?]. apply Forall_app. split; [done|]. constructor; done.
      * by apply (wf_bucket h Hw).
    + change (hmap_n h = u32 (Z.of_nat (length (hmap_nodes h')))). rewrite (wf_n h Hw), HP, HP'. done.
    + pose proof (wf_addr h Hw) as Hn. rewrite HP'. rewrite HP in Hn, Hnew. csimpl in Hn. csimpl.
      csimpl in Hnew. apply NoDup_cons in Hn as [Hn1 Hn2]. apply NoDup_cons. split; [|done].
      intros Hx. rewrite elem_of_cons in Hnew. specialize (Hnew (or_intror Hx)). rewrite Hnew in Hx. done.
  - exists (same_hash (node_hash nd) l), (same_hash (node_hash nd) r).
    unfold h', with_hash. cbn [buckets set_bucket mask]. rewrite list_lookup_insert_eq by lia. cbn [default].
    rewrite Hb. cbn [default id]. rewrite !List.filter_app. simpl. by rewrite Z.eqb_refl.
  - intros k Hk. unfold h', with_hash. cbn [buckets set_bucket mask].
    destruct (decide (Z.to_nat (Z.land k (mask h)) = Z.to_nat (Z.land (node_hash nd) (mask h)))) as [Ek|Ek].
    + rewrite Ek, list_lookup_insert_eq, Hb by lia. simpl. rewrite !List.filter_app. simpl.
      case_bool; [congruence|done].
    + rewrite list_lookup_insert_ne by congruence. done.
Qed.

(** A store to the value of one node. *)
Lemma store_one {A} (l : list (hmap_node A)) nd f : NoDup (node_addr <$> l) -> nd ∈ l ->
  exists rest, l ≡ₚ nd :: rest /\
    List.map (upd_node (node_addr nd) f) l ≡ₚ Mk_node (node_addr nd) (node_hash nd) (f (node_val nd)) :: rest.
Proof.
  intros Hn (l1 & l2 & ->)%list_elem_of_split. exists (l1 ++ l2). split; [rewrite Permutation_middle; done|].
  assert (forall l, node_addr nd ∉ node_addr <$> l -> List.map (upd_node (node_addr nd) f) l = l) as Hid.
  { induction l as [|x l IH]; [done|]. csimpl. intros Hx. rewrite IH by set_solver. unfold upd_node.
    rewrite decide_False by set_solver. done. }
  rewrite fmap_app in Hn. csimpl in Hn. apply NoDup_app in Hn as (_ & Hd & Hn). apply NoDup_cons in Hn as [Hn _].
  rewrite List.map_app. cbn [List.map]. rewrite !Hid.
  - unfold upd_node at 1. rewrite decide_True by done. rewrite Permutation_middle. done.
  - done.
  - intros Hx. apply (Hd _ Hx). left.
Qed.

(** ** The program *)

Section Hindex.
Context {A : Type}.

(** The nodes with one hash, the head first. *)
Abbreviation group := (list (nat * A)).
Abbreviation hindex := (hmap group).
Implicit Types (h : hindex) (g : group).

Definition hindex_init : hindex := hmap_init.
Definition hindex_clear h : hindex := hmap_clear h.
Definition hindex_is_empty h : bool := hmap_n h =? 0.
Definition hindex_calc_mask (capacity : Z) : Z := calc_mask capacity.

(** The loop moves the heads, each with its group. *)
Definition hindex_resize h (new_mask : Z) : Res hindex :=
  ovs_assert (is_pow2 (u32 (new_mask + 1))) ;;*
  ovs_assert (negb (new_mask =? SIZE_MAX)) ;;*
  let tmp := if new_mask =? 0 then hindex_init
             else Mk_hmap (replicate (Z.to_nat (new_mask + 1)) []) new_mask 0 in
  insert_chains tmp (buckets h).

Definition hindex_expand h : Res hindex :=
  let new_mask := hindex_calc_mask (hmap_n h) in
  if mask h <? new_mask then hindex_resize h new_mask else Ok h.

Definition hindex_shrink h : Res hindex :=
  let new_mask := hindex_calc_mask (hmap_n h) in
  if new_mask <? mask h then hindex_resize h new_mask else Ok h.

Definition hindex_reserve h (n : Z) : Res hindex :=
  let new_mask := hindex_calc_mask n in
  if mask h <? new_mask then hindex_resize h new_mask else Ok h.

(** The head with the hash, and the heads after it in its bucket. *)
Definition hindex_node_with_hash h (hash : Z) : Res (list (hmap_node group)) :=
  let* b := get_bucket h (Z.land hash (mask h)) in
  Ok (hmap_next_with_hash__ b hash).

Definition hindex_insert_fast h (addr : nat) (v : A) (hash : Z) : Res hindex :=
  let* head := hindex_node_with_hash h hash in
  match head with
  | head :: _ =>
      Ok (store_val h (node_addr head) (fun g =>
            match g with [] => [(addr, v)] | x :: s => x :: (addr, v) :: s end))
  | [] => hmap_insert_fast h (Mk_node addr hash [(addr, v)]) hash
  end.

Definition hindex_insert h (addr : nat) (v : A) (hash : Z) : Res hindex :=
  let* h := hindex_insert_fast h addr v hash in
  if mask h <? hmap_n h / 2 then hindex_expand h else Ok h.

Definition is_head (head : hmap_node group) (addr : nat) : bool := bool_decide (node_addr head = addr).

(** A head is found by a search for its hash and replaced by the next node of
    its group, if there is one. *)
Definition hindex_remove h (addr : nat) (hash : Z) : Res hindex :=
  let* head := hindex_node_with_hash h hash in
  match head with
  | [] => Fault NullDeref
  | head :: _ =>
      if negb (is_head head addr)
      then Ok (store_val h (node_addr head) (fun g => List.filter (fun x => negb (bool_decide (fst x = addr))) g))
      else
        match tail (node_val head) with
        | [] => hmap_remove h head
        | (a, v) :: s => hmap_replace h head (Mk_node a hash ((a, v) :: s))
        end
  end.

Definition hindex_next__ h (start : Z) : list (hmap_node group) := hmap_next__ h start.
Definition hindex_first h : list (hmap_node group) := hmap_first h.

(** ** Invariant and abstraction *)

(** The nodes with a hash. *)
Definition igroup h (k : Z) : group := concat (node_val <$> with_hash h k).

Definition inodes h : group := concat (node_val <$> hmap_nodes h).

Record hindex_wf h : Prop := {
  hi_wf : hmap_wf h;
  hi_head : forall nd, nd ∈ hmap_nodes h -> fst <$> head (node_val nd) = Some (node_addr nd);
  hi_hash : NoDup (node_hash <$> hmap_nodes h);
  hi_addr : NoDup (fst <$> inodes h)
}.

Lemma hindex_init_wf : hindex_wf hindex_init.
Proof. split; [apply hmap_init_wf | cbn; set_solver | constructor | constructor]. Qed.

(** There is one group for a hash. *)
Lemma with_hash_one h k : hindex_wf h ->
  with_hash h k = [] \/ exists nd, with_hash h k = [nd] /\ nd ∈ hmap_nodes h /\ node_hash nd = k.
Proof.
  intros [Hw _ Hn _]. destruct (with_hash h k) as [|nd [|nd2 l]] eqn:E; [by left | right | exfalso].
  - exists nd. split; [done|]. apply elem_of_with_hash; [done|]. rewrite E. left.
  - rewrite with_hash_nodes in E by done. unfold same_hash in E.
    assert (forall l', NoDup (node_hash <$> l') -> List.filter (fun nd => node_hash nd =? k) l' <> nd :: nd2 :: l) as H.
    { clear. induction l' as [|x l' IH]; cbn [List.filter]; intros Hn; [done|]. csimpl in Hn.
      apply NoDup_cons in Hn as [Hx Hn]. destruct (Z.eqb_spec (node_hash x) k) as [Ek|Ek]; [|by apply IH].
      intros [= <- E]. assert (nd2 ∈ List.filter (fun nd => node_hash nd =? k) l') as Hin by (rewrite E; left).
      apply list_elem_of_In, List.filter_In in Hin as [Hin Hk]. apply Z.eqb_eq in Hk. apply Hx.
      rewrite Ek, <- Hk. apply list_elem_of_fmap. exists nd2. split; [done|]. apply list_elem_of_In, Hin. }
    by apply (H (hmap_nodes h)).
Qed.

(** A search finds the group. *)
Lemma hindex_node_with_hash_spec h k : hindex_wf h ->
  exists p, hindex_node_with_hash h k = Ok p /\
    ((p = [] /\ igroup h k = [] /\ with_hash h k = []) \/
     (exists nd rest, p = nd :: rest /\ with_hash h k = [nd] /\ nd ∈ hmap_nodes h /\ node_hash nd = k /\
        igroup h k = node_val nd /\ node_val nd <> [])).
Proof.
  intros Hi. pose proof (hi_wf h Hi) as Hw. destruct (hmap_first_with_hash_spec h k Hw) as (p & E & Hp).
  exists p. split; [exact E|]. unfold igroup. destruct (with_hash_one h k Hi) as [Eh|(nd & Eh & Hin & Hk)]; rewrite Eh in Hp |- *.
  - left. destruct p; done.
  - right. destruct p as [|x rest]; [done|]. injection Hp as ->. exists nd, rest. split; [done|]. split; [done|].
    split; [done|]. split; [done|]. cbn. rewrite app_nil_r. split; [done|].
    pose proof (hi_head h Hi nd Hin) as Hh. destruct (node_val nd); done.
Qed.

(** *** Resizing *)

Lemma hindex_expand_hmap h : hmap_wf h -> hindex_expand h = hmap_expand_at h.
Proof.
  intros Hw. unfold hindex_expand, hmap_expand_at, hindex_calc_mask, hindex_resize, resize.
  destruct (calc_mask_spec (hmap_n h) (hmap_n_u32 h Hw)) as (k & Hk & _ & Ek & _).
  assert ((calc_mask (hmap_n h) =? SIZE_MAX) = false) as ->.
  { rewrite Ek. apply Z.eqb_neq. unfold SIZE_MAX. assert (2 ^ k <= 2 ^ 31) by (apply Z.pow_le_mono_r; lia). lia. }
  cbn [negb]. destruct (mask h <? _); [|done]. destruct (ovs_assert _); done.
Qed.

Lemma wf_same_up_to_rehash h h' : hindex_wf h -> same_up_to_rehash h h' -> hindex_wf h' /\
  inodes h' ≡ₚ inodes h /\ forall k, igroup h' k = igroup h k.
Proof.
  intros Hi (Hw' & HP & Hs). pose proof Hi as [Hw Hh Hn Ha].
  assert (inodes h' ≡ₚ inodes h) as HPi by (unfold inodes; rewrite HP; done).
  split; [split|split].
  - exact Hw'.
  - intros nd. rewrite HP. apply Hh.
  - rewrite HP. exact Hn.
  - rewrite HPi. exact Ha.
  - exact HPi.
  - intros k. unfold igroup. destruct Hs as [Hs|Hs]; rewrite Hs; [done|].
    destruct (with_hash_one h k Hi) as [-> | (nd & -> & _)]; done.
Qed.

(** *** Insertion *)

Lemma inodes_perm l l' : l ≡ₚ l' -> concat (node_val <$> l) ≡ₚ concat (node_val <$> (l' : list (hmap_node group))).
Proof. intros ->. done. Qed.

Lemma store_spec h nd f : hindex_wf h -> nd ∈ hmap_nodes h ->
  fst <$> head (f (node_val nd)) = Some (node_addr nd) ->
  (forall rest, hmap_nodes h ≡ₚ nd :: rest -> NoDup (fst <$> (f (node_val nd) ++ concat (node_val <$> rest)))) ->
  let h' := store_val h (node_addr nd) f in
  hindex_wf h' /\ igroup h' (node_hash nd) = f (node_val nd) /\
  (forall k, k <> node_hash nd -> igroup h' k = igroup h k) /\
  exists rest, inodes h ≡ₚ node_val nd ++ rest /\ inodes h' ≡ₚ f (node_val nd) ++ rest.
Proof.
  intros Hi Hin Hf Hnd h'. pose proof Hi as [Hw Hh Hn Ha].
  destruct (store_one (hmap_nodes h) nd f (wf_addr h Hw) Hin) as (rest & HP & HP').
  rewrite <- hmap_nodes_store in HP'. fold h' in HP'. specialize (Hnd rest HP).
  split; [split|split; [|split]].
  - apply store_val_wf, Hw.
  - intros x. rewrite HP', elem_of_cons. intros [-> | Hx]; [exact Hf|]. apply Hh. rewrite HP. by right.
  - rewrite HP'. rewrite HP in Hn. exact Hn.
  - unfold inodes. rewrite HP'. exact Hnd.
  - unfold igroup, h'. rewrite with_hash_store by done.
    destruct (with_hash_one h (node_hash nd) Hi) as [E|(x & E & Hx & Hk)].
    { assert (nd ∈ with_hash h (node_hash nd)) as H by (apply elem_of_with_hash; done). rewrite E in H. set_solver. }
    assert (x = nd) as ->.
    { assert (nd ∈ with_hash h (node_hash nd)) as H by (apply elem_of_with_hash; done). rewrite E in H. set_solver. }
    rewrite E. cbn. rewrite app_nil_r. unfold upd_node. rewrite decide_True by done. done.
  - intros k Hk. unfold igroup, h'. rewrite with_hash_store by done. f_equal.
    assert (forall x, x ∈ with_hash h k -> upd_node (node_addr nd) f x = x) as Hid.
    { intros x Hx. unfold upd_node. apply elem_of_with_hash in Hx as [Hx Hxk]; [|done]. rewrite decide_False; [done|].
      intros E. assert (x = nd) as ->; [|done]. pose proof (wf_addr h Hw) as Hna.
      apply list_elem_of_lookup in Hx as [i Hi1], Hin as [j Hj1].
      assert (i = j) as ->.
      { apply (NoDup_lookup _ i j (node_addr nd) Hna); rewrite list_lookup_fmap; [rewrite Hi1 | rewrite Hj1]; cbn; congruence. }
      congruence. }
    induction (with_hash h k) as [|x l IH]; [done|]. cbn [List.map]. rewrite Hid by left. csimpl. f_equal.
    apply IH. intros y Hy. apply Hid. by right.
  - exists (concat (node_val <$> rest)). split; unfold inodes; [rewrite HP | rewrite HP']; done.
Qed.

Lemma hindex_insert_spec h addr v hash : hindex_wf h -> in_u32 hash -> addr ∉ fst <$> inodes h ->
  exists h', hindex_insert h addr v hash = Ok h' /\ hindex_wf h' /\ inodes h' ≡ₚ (addr, v) :: inodes h /\
    forall k, igroup h' k ≡ₚ if decide (k = hash) then (addr, v) :: igroup h k else igroup h k.
Proof.
  intros Hi Hh Haddr. pose proof Hi as [Hw Hhead Hn Ha].
  assert (exists h1, hindex_insert_fast h addr v hash = Ok h1 /\ hindex_wf h1 /\ inodes h1 ≡ₚ (addr, v) :: inodes h /\
    forall k, igroup h1 k ≡ₚ if decide (k = hash) then (addr, v) :: igroup h k else igroup h k) as (h1 & E1 & Hi1 & HP1 & Hg1).
  { unfold hindex_insert_fast.
    destruct (hindex_node_with_hash_spec h hash Hi) as (p & -> & [(-> & Eg & Ew)|(nd & rest0 & -> & Ew & Hin & Hk & Eg & Hne)]); cbn [rbind].
    - assert (addr ∉ node_addr <$> hmap_nodes h) as Hna.
      { intros (nd & -> & Hin)%list_elem_of_fmap. apply Haddr. apply list_elem_of_fmap.
        pose proof (Hhead nd Hin) as Hd. destruct (node_val nd) as [|[a x] g] eqn:Ev; [done|]. cbn in Hd. injection Hd as Hd.
        exists (a, x). split; [done|]. apply list_elem_of_In, in_concat. exists ((a, x) :: g). split; [|left; done].
        apply list_elem_of_In, list_elem_of_fmap. exists nd. done. }
      destruct (hmap_insert_fast_spec h (Mk_node addr hash [(addr, v)]) hash Hw Hh Hna) as (h' & E & Hw' & _ & HP & Hs).
      cbn [node_addr node_val] in *. exists h'. split; [done|].
      assert (inodes h' ≡ₚ (addr, v) :: inodes h) as HPi by (unfold inodes; rewrite HP; done).
      split; [split|split; [done|]].
      + exact Hw'.
      + intros x. rewrite HP, elem_of_cons. intros [-> | Hx]; [done | apply Hhead, Hx].
      + rewrite HP. csimpl. apply NoDup_cons. split; [|done]. intros (x & Ex & Hx)%list_elem_of_fmap.
        assert (x ∈ with_hash h hash) as Hxh by (apply elem_of_with_hash; done). rewrite Ew in Hxh. set_solver.
      + rewrite HPi. csimpl. apply NoDup_cons. done.
      + intros k. unfold igroup. rewrite Hs. case_decide; done.
    - eexists. split; [done|].
      set (f := fun g : group => match g with [] => [(addr, v)] | x :: s => x :: (addr, v) :: s end).
      pose proof (Hhead nd Hin) as Hd.
      assert (f (node_val nd) ≡ₚ (addr, v) :: node_val nd) as Hf.
      { destruct (node_val nd) as [|x s]; [done|]. cbn. apply Permutation_swap. }
      destruct (store_spec h nd f Hi Hin) as (Hi' & Hg & Hgo & rest & HP & HP').
      { destruct (node_val nd) as [|x s]; done. }
      { intros rest HP. rewrite Hf. csimpl. apply NoDup_cons. unfold inodes in *. rewrite HP in Ha, Haddr. csimpl in *. done. }
      split; [done|]. split; [rewrite HP', HP, Hf; done|].
      intros k. case_decide as Ek; [|rewrite Hgo by congruence; done]. subst k. rewrite <- Hk, Hg, Hf, Hk, Eg. done. }
  unfold hindex_insert. rewrite E1. cbn [rbind]. destruct (_ <? _); [|exists h1; done].
  rewrite hindex_expand_hmap by apply Hi1.
  destruct (hmap_expand_at_spec h1 (hi_wf h1 Hi1)) as (h2 & E2 & Hs2). exists h2. split; [done|].
  destruct (wf_same_up_to_rehash h1 h2 Hi1 Hs2) as (Hi2 & HP2 & Hg2).
  split; [done|]. split; [rewrite HP2, HP1; done|]. intros k. rewrite Hg2. apply Hg1.
Qed.

(** *** Removal *)

Lemma filter_out g addr (v : A) : NoDup (fst <$> g) -> (addr, v) ∈ g ->
  g ≡ₚ (addr, v) :: List.filter (fun x => negb (bool_decide (fst x = addr))) g.
Proof.
  intros Hn (l1 & l2 & ->)%list_elem_of_split. rewrite fmap_app in Hn. csimpl in Hn.
  apply NoDup_app in Hn as (_ & Hd & Hn). apply NoDup_cons in Hn as [Hn _].
  assert (forall l : group, addr ∉ fst <$> l -> List.filter (fun x => negb (bool_decide (fst x = addr))) l = l) as Hid.
  { induction l as [|x l IH]; [done|]. csimpl. intros Hx. rewrite bool_decide_false by set_solver. cbn. f_equal.
    apply IH. set_solver. }
  rewrite List.filter_app. cbn [List.filter fst]. rewrite bool_decide_true by done. cbn [negb].
  rewrite !Hid; [by rewrite Permutation_middle | done |]. intros Hx. apply (Hd _ Hx). left.
Qed.

Lemma head_addr_group h (nd : hmap_node group) (g : list (hmap_node group)) : hindex_wf h -> hmap_nodes h ≡ₚ nd :: g -> forall a v, (a, v) ∈ node_val nd ->
  forall x, x ∈ g -> node_addr x <> a.
Proof.
  intros Hi HP a v Hav x Hx E. pose proof (hi_addr h Hi) as Ha. unfold inodes in Ha. rewrite HP in Ha. csimpl in Ha.
  rewrite fmap_app in Ha. apply NoDup_app in Ha as (_ & Hd & _). apply (Hd a).
  - apply list_elem_of_fmap. exists (a, v). done.
  - assert (x ∈ hmap_nodes h) as Hxh by (rewrite HP; by right).
    pose proof (hi_head h Hi x Hxh) as Hh. destruct (node_val x) as [|[a' v'] s] eqn:Ev; [done|]. injection Hh as Hh.
    apply list_elem_of_fmap. exists (a', v'). split; [cbn; congruence|].
    apply list_elem_of_In, in_concat. exists ((a', v') :: s). split; [|left; done].
    apply list_elem_of_In, list_elem_of_fmap. exists x. done.
Qed.

(** The rest of the table after a change to the node of one group. *)
Lemma group_changed h h' nd rest g' k : hindex_wf h -> hmap_wf h' -> hmap_nodes h ≡ₚ nd :: rest -> node_hash nd = k ->
  (hmap_nodes h' ≡ₚ rest /\ g' = [] \/
   exists a v s, g' = (a, v) :: s /\ hmap_nodes h' ≡ₚ Mk_node a k g' :: rest) ->
  (forall x, x ∈ g' -> x ∈ node_val nd) -> NoDup (fst <$> g') ->
  hindex_wf h' /\ inodes h ≡ₚ node_val nd ++ concat (node_val <$> rest) /\ inodes h' ≡ₚ g' ++ concat (node_val <$> rest).
Proof.
  intros Hi Hw' HP Hk Hn' Hsub Hnd. pose proof Hi as [Hw Hh Hn Ha].
  assert (inodes h ≡ₚ node_val nd ++ concat (node_val <$> rest)) as HPi by (unfold inodes; rewrite HP; done).
  assert (inodes h' ≡ₚ g' ++ concat (node_val <$> rest)) as HPi'.
  { unfold inodes. destruct Hn' as [[-> ->]|(a & v & s & _ & ->)]; done. }
  rewrite HP in Hn. csimpl in Hn. apply NoDup_cons in Hn as [Hn1 Hn2].
  split; [split|done].
  - exact Hw'.
  - intros x. destruct Hn' as [[-> _]|(a & v & s & Eg & ->)].
    + intros Hx. apply Hh. rewrite HP. by right.
    + rewrite elem_of_cons. intros [-> | Hx]; [cbn; rewrite Eg; done|]. apply Hh. rewrite HP. by right.
  - destruct Hn' as [[-> _]|(a & v & s & _ & ->)]; [done|]. csimpl. apply NoDup_cons. rewrite <- Hk. done.
  - rewrite HPi'. rewrite HPi in Ha. rewrite fmap_app in *. apply NoDup_app in Ha as (_ & Hd & Hr).
    apply NoDup_app. split; [done|]. split; [|done]. intros a (x & -> & Hx)%list_elem_of_fmap. apply Hd.
    apply list_elem_of_fmap. exists x. auto.
Qed.

Lemma hindex_remove_spec h addr v k : hindex_wf h -> (addr, v) ∈ igroup h k ->
  exists h', hindex_remove h addr k = Ok h' /\ hindex_wf h' /\ inodes h ≡ₚ (addr, v) :: inodes h' /\
    forall j, igroup h j ≡ₚ if decide (j = k) then (addr, v) :: igroup h' j else igroup h' j.
Proof.
  intros Hi Hin. pose proof Hi as [Hw Hhead Hn Ha]. unfold hindex_remove.
  destruct (hindex_node_with_hash_spec h k Hi) as (p & -> & [(_ & Eg & _)|(nd & rest0 & -> & Ew & Hnd & Hk & Eg & Hne)]); cbn [rbind].
  { rewrite Eg in Hin. set_solver. }
  rewrite Eg in Hin. pose proof (Hhead nd Hnd) as Hd.
  apply list_elem_of_split in Hnd as Hsp. destruct Hsp as (l1 & l2 & Hsp).
  assert (hmap_nodes h ≡ₚ nd :: l1 ++ l2) as HP by (rewrite Hsp, Permutation_middle; done).
  assert (NoDup (fst <$> node_val nd)) as Hndv.
  { unfold inodes in Ha. rewrite HP in Ha. csimpl in Ha. rewrite fmap_app in Ha. apply NoDup_app in Ha. tauto. }
  unfold is_head. case_bool_decide as Hhd; cbn [negb].
  - destruct (node_val nd) as [|[a0 v0] s] eqn:Ev; [done|]. injection Hd as Ha0. cbn [tail].
    csimpl in Hndv. apply NoDup_cons in Hndv as [Hns Hnds].
    assert (v = v0 /\ a0 = addr) as [-> ->].
    { apply elem_of_cons in Hin as [[= -> ->]|Hin]; [done|]. destruct Hns. apply list_elem_of_fmap. exists (addr, v). split; [cbn; congruence|done]. }
    destruct s as [|[a1 v1] s].
    + destruct (hmap_remove_spec h nd Hw Hnd) as (h' & E & Hw' & HP1 & (l & r & Hl & Hr) & Ho).
      assert (hmap_nodes h' ≡ₚ l1 ++ l2) as HP2 by (apply (Permutation_cons_inv (a := nd)); rewrite <- HP1; exact HP).
      destruct (group_changed h h' nd (l1 ++ l2) [] k Hi Hw' HP Hk) as (Hi' & HI & HI'); [by left | set_solver | constructor |].
      exists h'. split; [done|]. split; [done|]. rewrite Ev in HI. split; [rewrite HI, HI'; done|].
      intros j. case_decide as Hj; [subst j|unfold igroup; rewrite Ho by congruence; done].
      rewrite Eg. assert (igroup h' k = []) as ->; [|done]. unfold igroup. rewrite <- Hk, Hr. rewrite Hk, Ew in Hl.
      destruct l as [|? l]; [injection Hl as <-; done|]. injection Hl as _ Hl. destruct l; done.
    + set (g' := (a1, v1) :: s) in *.
      destruct (hmap_replace_spec h nd (Mk_node a1 k g') Hw Hnd) as (h' & rest & E & Hw' & HP1 & HP2 & (l & r & Hl & Hr) & Ho).
      { cbn [node_addr]. intros (x & Ex & Hx)%list_elem_of_fmap. rewrite HP in Hx. apply elem_of_cons in Hx as [-> | Hx]; [done|].
        destruct (head_addr_group h nd (l1 ++ l2) Hi HP a1 v1) with (x := x); [rewrite Ev; right; left | done | done]. }
      cbn [node_addr node_val] in *. rewrite Hk in HP2, Hl, Hr.
      destruct (group_changed h h' nd rest g' k Hi Hw' HP1 Hk) as (Hi' & HI & HI').
      { right. exists a1, v1, s. done. } { rewrite Ev. intros x Hx. by right. } { exact Hnds. }
      exists h'. split; [done|]. split; [done|]. rewrite Ev in HI. split; [rewrite HI, HI'; done|].
      intros j. case_decide as Hj; [subst j|unfold igroup; rewrite Ho by congruence; done].
      rewrite Eg. assert (igroup h' k = g') as ->; [|done]. unfold igroup. rewrite Hr. rewrite Ew in Hl.
      destruct l as [|? l]; [injection Hl as <-; cbn; rewrite app_nil_r; done|]. injection Hl as _ Hl. destruct l; done.
  - eexists. split; [done|]. set (f := fun g : group => List.filter (fun x => negb (bool_decide (fst x = addr))) g).
    pose proof (filter_out (node_val nd) addr v Hndv Hin) as Hf. fold (f (node_val nd)) in Hf.
    destruct (store_spec h nd f Hi Hnd) as (Hi' & Hg & Hgo & rest & HP1 & HP2).
    { destruct (node_val nd) as [|[a0 v0] s]; [done|]. injection Hd as Ha0. cbn. rewrite bool_decide_false by congruence. cbn. congruence. }
    { intros rest HPr. unfold inodes in Ha. rewrite HPr in Ha. csimpl in Ha. rewrite Hf in Ha. csimpl in Ha.
      apply NoDup_cons in Ha. tauto. }
    split; [done|]. split; [rewrite HP1, HP2; exact (Permutation_app_tail rest Hf)|].
    intros j. case_decide as Hj; [subst j; rewrite Eg, <- Hk, Hg; exact Hf | rewrite Hgo by congruence; done].
Qed.

End Hindex.
