(* ===== verification/Ofpbuf.v ===== *)
(** * Packet buffers ([lib/ofpbuf.c], [lib/ofpbuf.h])

    A buffer owns a block of memory, of which the bytes from [b_data] on are in
    use; before them is headroom and after them tailroom.  Pointers into the
    block, [data] and the header pointers [l2] to [l7], are offsets from its
    first byte.  Reallocation gives the buffer a new block: the blocks of a
    buffer are numbered in the order of their allocation, a pointer that a
    caller keeps is a block number with an offset, and an access through it
    after the block was freed is a fault.  As the C standard has it,
    [realloc] always ends the life of the old block. *)

From Stdlib Require Import ZArith Lia List.
From stdpp Require Import base option list_relations list gmap.
From S2P Require Import Prelude Bytes DList.
#[local] Open Scope Z_scope.
#[local] Open Scope res_scope.

(** ** Memory blocks *)

(** The [n] bytes at offset [o] of a block. *)
Definition slice (m : cbuf) (o n : Z) : Res cbuf :=
  if (0 <=? o) && (0 <=? n) && (o + n <=? Z.of_nat (length m))
  then Ok (take (Z.to_nat n) (drop (Z.to_nat o) m)) else Fault OutOfBounds.

(** Stores the bytes [bs] at offset [o] of a block. *)
Definition blit (m : cbuf) (o : Z) (bs : cbuf) : Res cbuf :=
  if (0 <=? o) && (o + Z.of_nat (length bs) <=? Z.of_nat (length m))
  then Ok (take (Z.to_nat o) m ++ bs ++ drop (Z.to_nat o + length bs) m) else Fault OutOfBounds.

(** Bytes that are read must have been written. *)
Fixpoint init_bytes (l : cbuf) : Res (list Z) :=
  match l with
  | [] => Ok []
  | Some c :: l => rmap (cons c) (init_bytes l)
  | None :: _ => Fault UninitRead
  end.

Definition uninit (n : Z) : cbuf := replicate (Z.to_nat n) None.

(** ** The program: data *)

Inductive ofpbuf_source := OFPBUF_MALLOC | OFPBUF_STACK | OFPBUF_STUB.

Record ofpbuf := Mk_ofpbuf {
  b_base : nat;
  b_store : cbuf;
  b_source : ofpbuf_source;
  b_data : Z;
  b_size : Z;
  l2 : option Z;
  l2_5 : option Z;
  l3 : option Z;
  l4 : option Z;
  l7 : option Z
}.

Definition ptr : Type := nat * Z.

Definition b_allocated (b : ofpbuf) : Z := Z.of_nat (length (b_store b)).

Definition with_store (b : ofpbuf) (m : cbuf) : ofpbuf :=
  Mk_ofpbuf (b_base b) m (b_source b) (b_data b) (b_size b) (l2 b) (l2_5 b) (l3 b) (l4 b) (l7 b).
Definition with_extent (b : ofpbuf) (data size : Z) : ofpbuf :=
  Mk_ofpbuf (b_base b) (b_store b) (b_source b) data size (l2 b) (l2_5 b) (l3 b) (l4 b) (l7 b).
Definition with_layers (b : ofpbuf) (l2 l2_5 l3 l4 l7 : option Z) : ofpbuf :=
  Mk_ofpbuf (b_base b) (b_store b) (b_source b) (b_data b) (b_size b) l2 l2_5 l3 l4 l7.

(** Access through a pointer that a caller keeps. *)
Definition deref (b : ofpbuf) (p : ptr) : Res Z :=
  if Nat.eqb (fst p) (b_base b) then Ok (snd p) else Fault UseAfterFree.

(** Loads of [n] bytes and stores, at an offset of the current block. *)
Definition ld (b : ofpbuf) (p n : Z) : Res (list Z) :=
  let* l := slice (b_store b) p n in init_bytes l.
Definition st (b : ofpbuf) (p : Z) (bs : list Z) : Res ofpbuf :=
  let* m := blit (b_store b) p (Some <$> bs) in Ok (with_store b m).

(** ** The program: creation *)

Definition ofpbuf_use__ (base : nat) (store : cbuf) (source : ofpbuf_source) : ofpbuf :=
  Mk_ofpbuf base store source 0 0 None None None None None.

Definition ofpbuf_use (base : nat) (store : cbuf) : ofpbuf := ofpbuf_use__ base store OFPBUF_MALLOC.
Definition ofpbuf_use_stack (base : nat) (store : cbuf) : ofpbuf :=
  ofpbuf_use__ base store OFPBUF_STACK.
Definition ofpbuf_use_stub (base : nat) (store : cbuf) : ofpbuf :=
  ofpbuf_use__ base store OFPBUF_STUB.
Definition ofpbuf_use_const (base : nat) (data : cbuf) : ofpbuf :=
  with_extent (ofpbuf_use__ base data OFPBUF_STACK) 0 (Z.of_nat (length data)).

(** [base] numbers the block that [xmalloc] returns. *)
Definition ofpbuf_init (base : nat) (size : Z) : ofpbuf :=
  ofpbuf_use (if size =? 0 then 0%nat else base) (uninit size).

(** The block that is freed, if any. *)
Definition ofpbuf_uninit (b : ofpbuf) : option nat :=
  match b_source b with OFPBUF_MALLOC => Some (b_base b) | _ => None end.
Definition ofpbuf_get_uninit_pointer (b : ofpbuf) : option nat :=
  match b_source b with OFPBUF_MALLOC => Some (b_base b) | _ => None end.

Definition ofpbuf_reinit (b : ofpbuf) (size : Z) : ofpbuf :=
  let _ := ofpbuf_uninit b in ofpbuf_init (S (b_base b)) size.

Definition ofpbuf_new (base : nat) (size : Z) : ofpbuf := ofpbuf_init base size.

(** ** The program: room *)

Definition ofpbuf_tail (b : ofpbuf) : Z := b_data b + b_size b.
Definition ofpbuf_end (b : ofpbuf) : Z := b_allocated b.
Definition ofpbuf_headroom (b : ofpbuf) : Z := b_data b.
Definition ofpbuf_tailroom (b : ofpbuf) : Z := ofpbuf_end b - ofpbuf_tail b.

(** The contents of a new block of [n] bytes. *)
Definition ofpbuf_copy__ (b : ofpbuf) (new_base : cbuf) (new_headroom new_tailroom : Z) : Res cbuf :=
  let old_headroom := ofpbuf_headroom b in
  let old_tailroom := ofpbuf_tailroom b in
  let copy_headroom := Z.min old_headroom new_headroom in
  let copy_tailroom := Z.min old_tailroom new_tailroom in
  let* src := slice (b_store b) (old_headroom - copy_headroom)
                (copy_headroom + b_size b + copy_tailroom) in
  blit new_base (new_headroom - copy_headroom) src.

Definition xrealloc (m : cbuf) (n : Z) : cbuf :=
  take (Z.to_nat n) m ++ uninit (n - Z.of_nat (length m)).

Definition ofpbuf_resize__ (b : ofpbuf) (new_headroom new_tailroom : Z) : Res ofpbuf :=
  let new_allocated := u32 (new_headroom + b_size b + new_tailroom) in
  let* new_base :=
    match b_source b with
    | OFPBUF_MALLOC =>
        if new_headroom =? ofpbuf_headroom b then Ok (xrealloc (b_store b) new_allocated)
        else ofpbuf_copy__ b (uninit new_allocated) new_headroom new_tailroom
    | OFPBUF_STACK => Fault AssertFail
    | OFPBUF_STUB => ofpbuf_copy__ b (uninit new_allocated) new_headroom new_tailroom
    end in
  let data_delta := new_headroom - b_data b in
  let shift l := (fun p => p + data_delta) <$> l in
  Ok (Mk_ofpbuf (S (b_base b)) new_base OFPBUF_MALLOC new_headroom (b_size b)
        (shift (l2 b)) (shift (l2_5 b)) (shift (l3 b)) (shift (l4 b)) (shift (l7 b))).

Definition ofpbuf_prealloc_tailroom (b : ofpbuf) (size : Z) : Res ofpbuf :=
  if ofpbuf_tailroom b <? size
  then ofpbuf_resize__ b (ofpbuf_headroom b) (Z.max size 64) else Ok b.

Definition ofpbuf_prealloc_headroom (b : ofpbuf) (size : Z) : Res ofpbuf :=
  if ofpbuf_headroom b <? size
  then ofpbuf_resize__ b (Z.max size 64) (ofpbuf_tailroom b) else Ok b.

Definition ofpbuf_trim (b : ofpbuf) : Res ofpbuf :=
  match b_source b with
  | OFPBUF_MALLOC =>
      if negb (ofpbuf_headroom b =? 0) || negb (ofpbuf_tailroom b =? 0)
      then ofpbuf_resize__ b 0 0 else Ok b
  | _ => Ok b
  end.

(** ** The program: adding and removing data *)

(** The pointer returned, with the buffer. *)
Definition ofpbuf_put_uninit (b : ofpbuf) (size : Z) : Res (ptr * ofpbuf) :=
  let* b := ofpbuf_prealloc_tailroom b size in
  let p := ofpbuf_tail b in
  Ok ((b_base b, p), with_extent b (b_data b) (u32 (b_size b + size))).

Definition ofpbuf_put (b : ofpbuf) (p : list Z) : Res (ptr * ofpbuf) :=
  let* (dst, b) := ofpbuf_put_uninit b (Z.of_nat (length p)) in
  let* b := st b (snd dst) p in
  Ok (dst, b).

Definition ofpbuf_put_zeros (b : ofpbuf) (size : Z) : Res (ptr * ofpbuf) :=
  let* (dst, b) := ofpbuf_put_uninit b size in
  let* b := st b (snd dst) (replicate (Z.to_nat size) 0) in
  Ok (dst, b).

Definition ofpbuf_padto (b : ofpbuf) (length : Z) : Res ofpbuf :=
  if b_size b <? length
  then let* (_, b) := ofpbuf_put_zeros b (length - b_size b) in Ok b else Ok b.

(** The header pointers stay where they are. *)
Definition ofpbuf_shift (b : ofpbuf) (delta : Z) : Res ofpbuf :=
  ovs_assert (if 0 <? delta then delta <=? ofpbuf_tailroom b
              else if delta <? 0 then - delta <=? ofpbuf_headroom b else true) ;;*
  if negb (delta =? 0) then
    let dst := b_data b + delta in
    let* src := slice (b_store b) (b_data b) (b_size b) in
    let* m := blit (b_store b) dst src in
    Ok (with_extent (with_store b m) dst (b_size b))
  else Ok b.

Definition ofpbuf_reserve (b : ofpbuf) (size : Z) : Res ofpbuf :=
  ovs_assert (b_size b =? 0) ;;*
  let* b := ofpbuf_prealloc_tailroom b size in
  Ok (with_extent b (b_data b + size) (b_size b)).

Definition ofpbuf_reserve_with_tailroom (b : ofpbuf) (headroom tailroom : Z) : Res ofpbuf :=
  ovs_assert (b_size b =? 0) ;;*
  let* b := ofpbuf_prealloc_tailroom b (u32 (headroom + tailroom)) in
  Ok (with_extent b (b_data b + headroom) (b_size b)).

Definition ofpbuf_push_uninit (b : ofpbuf) (size : Z) : Res (ptr * ofpbuf) :=
  let* b := ofpbuf_prealloc_headroom b size in
  let b := with_extent b (b_data b - size) (u32 (b_size b + size)) in
  Ok ((b_base b, b_data b), b).

Definition ofpbuf_push_zeros (b : ofpbuf) (size : Z) : Res (ptr * ofpbuf) :=
  let* (dst, b) := ofpbuf_push_uninit b size in
  let* b := st b (snd dst) (replicate (Z.to_nat size) 0) in
  Ok (dst, b).

Definition ofpbuf_push (b : ofpbuf) (p : list Z) : Res (ptr * ofpbuf) :=
  let* (dst, b) := ofpbuf_push_uninit b (Z.of_nat (length p)) in
  let* b := st b (snd dst) p in
  Ok (dst, b).

Definition ofpbuf_clear (b : ofpbuf) : ofpbuf := with_extent b 0 0.

Definition ofpbuf_pull (b : ofpbuf) (size : Z) : Res (Z * ofpbuf) :=
  let data := b_data b in
  ovs_assert (size <=? b_size b) ;;*
  Ok (data, with_extent b (b_data b + size) (b_size b - size)).

Definition ofpbuf_try_pull (b : ofpbuf) (size : Z) : Res (option Z * ofpbuf) :=
  if size <=? b_size b
  then let* (p, b) := ofpbuf_pull b size in Ok (Some p, b) else Ok (None, b).

(** ** The program: access *)

(** The sum is a [size_t]. *)
Definition ofpbuf_at (b : ofpbuf) (offset size : Z) : option Z :=
  if u32 (offset + size) <=? b_size b then Some (b_data b + offset) else None.

Definition ofpbuf_at_assert (b : ofpbuf) (offset size : Z) : Res Z :=
  ovs_assert (u32 (offset + size) <=? b_size b) ;;* Ok (b_data b + offset).

Definition ofpbuf_equal (a b : ofpbuf) : Res bool :=
  if b_size a =? b_size b then
    let* x := ld a (b_data a) (b_size a) in
    let* y := ld b (b_data b) (b_size b) in
    Ok (bool_decide (x = y))
  else Ok false.

(** [xmemdup] copies the bytes as they are. *)
Definition ofpbuf_steal_data (b : ofpbuf) : Res (cbuf * ofpbuf) :=
  let* p :=
    match b_source b with
    | OFPBUF_MALLOC => if b_data b =? 0 then Ok (b_store b)
                       else slice (b_store b) (b_data b) (b_size b)
    | _ => slice (b_store b) (b_data b) (b_size b)
    end in
  Ok (p, Mk_ofpbuf 0 [] (b_source b) 0 (b_size b) (l2 b) (l2_5 b) (l3 b) (l4 b) (l7 b)).

(** ** The program: copies *)

Definition ofpbuf_new_with_headroom (base : nat) (size headroom : Z) : Res ofpbuf :=
  let b := ofpbuf_new base (u32 (size + headroom)) in
  ofpbuf_reserve b headroom.

Definition ofpbuf_clone_data_with_headroom (base : nat) (data : list Z) (headroom : Z) : Res ofpbuf :=
  let* b := ofpbuf_new_with_headroom base (Z.of_nat (length data)) headroom in
  let* (_, b) := ofpbuf_put b data in
  Ok b.

Definition ofpbuf_clone_data (base : nat) (data : list Z) : Res ofpbuf :=
  ofpbuf_clone_data_with_headroom base data 0.

Definition ofpbuf_clone_with_headroom (base : nat) (buffer : ofpbuf) (headroom : Z) : Res ofpbuf :=
  let* data := ld buffer (b_data buffer) (b_size buffer) in
  let* new_buffer := ofpbuf_clone_data_with_headroom base data headroom in
  let data_delta := b_data new_buffer - b_data buffer in
  let shift l := (fun p => p + data_delta) <$> l in
  Ok (with_layers new_buffer (shift (l2 buffer)) (shift (l2_5 buffer)) (shift (l3 buffer))
        (shift (l4 buffer)) (shift (l7 buffer))).

Definition ofpbuf_clone (base : nat) (buffer : ofpbuf) : Res ofpbuf :=
  ofpbuf_clone_with_headroom base buffer 0.

(** ** The program: hexadecimal input ([lib/util.c] for the digits) *)

Definition hexit_value (c : Z) : Z :=
  if (48 <=? c) && (c <=? 57) then c - 48
  else if (c =? 97) || (c =? 65) then 0xa
  else if (c =? 98) || (c =? 66) then 0xb
  else if (c =? 99) || (c =? 67) then 0xc
  else if (c =? 100) || (c =? 68) then 0xd
  else if (c =? 101) || (c =? 69) then 0xe
  else if (c =? 102) || (c =? 70) then 0xf
  else -1.

(** [None] when one of the [n] characters is not a hexadecimal digit; the
    terminating null character is one that is not. *)
Fixpoint hexits_value (value : Z) (s : list Z) (n : nat) {struct n} : option Z :=
  match n with
  | O => Some value
  | S n =>
      match s with
      | [] => None
      | c :: s => let hexit := hexit_value c in
                  if hexit <? 0 then None else hexits_value (u32 (value * 16 + hexit)) s n
      end
  end.

(** [s += strspn(s, " \t\r\n")] *)
Fixpoint skip_space (s : list Z) : list Z :=
  match s with
  | c :: s' => if (c =? 32) || (c =? 9) || (c =? 13) || (c =? 10) then skip_space s' else s
  | [] => []
  end.

(** [fuel] bounds the number of bytes added; a string of [k] characters adds at
    most [k] of them.  The result is the rest of the string. *)
Fixpoint ofpbuf_put_hex_loop (fuel : nat) (b : ofpbuf) (s : list Z) {struct fuel}
  : Res (list Z * ofpbuf) :=
  let s := skip_space s in
  match hexits_value 0 s 2, fuel with
  | Some byte, S fuel =>
      let* (_, b) := ofpbuf_put b [u8 byte] in
      ofpbuf_put_hex_loop fuel b (drop 2 s)
  | _, _ => Ok (s, b)
  end.
Definition ofpbuf_put_hex (b : ofpbuf) (s : list Z) : Res (list Z * Z * ofpbuf) :=
  let initial_size := b_size b in
  let* (s, b) := ofpbuf_put_hex_loop (length s) b s in
  Ok (s, u32 (b_size b - initial_size), b).

(** ** The program: lists of buffers *)

(** The traversal keeps the next node before it removes one.  [ofpbuf_delete]
    frees the node with the buffer. *)
Fixpoint list_delete_loop (fuel : nat) (m : mem) (list b : addr) {struct fuel} : Res (option mem) :=
  if decide (b = list) then Ok (Some m) else
  match fuel with
  | O => Ok None
  | S fuel =>
      let* next := get_next m b in
      let* (m, _) := list_remove m b in
      list_delete_loop fuel (delete b m) list next
  end.
Definition ofpbuf_list_delete (fuel : nat) (m : mem) (list : addr) : Res (option mem) :=
  let* b := get_next m list in list_delete_loop fuel m list b.

(** ** Well-formed buffers and their contents *)

Record ofpbuf_wf (b : ofpbuf) : Prop := {
  wf_data : 0 <= b_data b;
  wf_size : 0 <= b_size b;
  wf_end : b_data b + b_size b <= b_allocated b;
  wf_alloc : b_allocated b < 2 ^ 32
}.

(** The bytes in use. *)
Definition contents (b : ofpbuf) : cbuf :=
  take (Z.to_nat (b_size b)) (drop (Z.to_nat (b_data b)) (b_store b)).

(** A buffer that holds the bytes [xs]. *)
Definition holds (b : ofpbuf) (xs : list Z) : Prop :=
  ofpbuf_wf b /\ contents b = Some <$> xs.

(** A pointer as an offset from the first byte in use. *)
Definition rel (b : ofpbuf) (p : option Z) : option Z := (fun p => p - b_data b) <$> p.

Definition rel_layers (b : ofpbuf) : list (option Z) :=
  rel b <$> [l2 b; l2_5 b; l3 b; l4 b; l7 b].

(** *** Blocks *)

Lemma slice_ok m o n : 0 <= o -> 0 <= n -> o + n <= Z.of_nat (length m) ->
  slice m o n = Ok (take (Z.to_nat n) (drop (Z.to_nat o) m)).
Proof. intros. unfold slice. repeat case_bool; try lia; done. Qed.

Lemma blit_ok m o bs : 0 <= o -> o + Z.of_nat (length bs) <= Z.of_nat (length m) ->
  blit m o bs = Ok (take (Z.to_nat o) m ++ bs ++ drop (Z.to_nat o + length bs) m).
Proof. intros. unfold blit. repeat case_bool; try lia; done. Qed.

Lemma length_blit (m : cbuf) o (bs : cbuf) : 0 <= o -> o + Z.of_nat (length bs) <= Z.of_nat (length m) ->
  length (take (Z.to_nat o) m ++ bs ++ drop (Z.to_nat o + length bs) m) = length m.
Proof. intros. rewrite !length_app, length_take, length_drop. lia. Qed.

Lemma length_uninit n : 0 <= n -> Z.of_nat (length (uninit n)) = n.
Proof. intros. unfold uninit. rewrite length_replicate. lia. Qed.

Lemma init_bytes_some xs : init_bytes (Some <$> xs) = Ok xs.
Proof. induction xs as [|x xs IH]; [done|]. csimpl. by rewrite IH. Qed.

Lemma length_contents b : ofpbuf_wf b -> length (contents b) = Z.to_nat (b_size b).
Proof.
  intros [H1 H2 H3 H4]. unfold contents, b_allocated in *.
  rewrite length_take, length_drop. lia.
Qed.

Lemma holds_length b xs : holds b xs -> Z.of_nat (length xs) = b_size b.
Proof.
  intros [Hw Hc]. pose proof (length_contents b Hw) as H. rewrite Hc, length_fmap in H.
  pose proof (wf_size b Hw). lia.
Qed.

(** The block of a buffer: headroom, contents, tailroom. *)
Lemma store_split b : ofpbuf_wf b ->
  b_store b = take (Z.to_nat (b_data b)) (b_store b) ++ contents b ++
              drop (Z.to_nat (b_data b + b_size b)) (b_store b).
Proof.
  intros [H1 H2 H3 H4]. unfold contents.
  rewrite <- (take_drop (Z.to_nat (b_data b)) (b_store b)) at 1. f_equal.
  rewrite <- (take_drop (Z.to_nat (b_size b)) (drop (Z.to_nat (b_data b)) (b_store b))) at 1.
  f_equal. rewrite drop_drop. f_equal. lia.
Qed.

(** A buffer described by the three parts of its block. *)
Lemma contents_parts b h c t : b_store b = h ++ c ++ t ->
  Z.of_nat (length h) = b_data b -> Z.of_nat (length c) = b_size b -> contents b = c.
Proof.
  intros E Hh Hc. unfold contents. rewrite E.
  rewrite drop_app_length' by lia. rewrite take_app_length' by lia. done.
Qed.

Lemma wf_parts b h c t : b_store b = h ++ c ++ t ->
  Z.of_nat (length h) = b_data b -> Z.of_nat (length c) = b_size b ->
  b_allocated b < 2 ^ 32 -> ofpbuf_wf b.
Proof.
  intros E Hh Hc Ha. split; try lia. unfold b_allocated. rewrite E, !length_app. lia.
Qed.

Lemma tailroom_nonneg b : ofpbuf_wf b -> 0 <= ofpbuf_tailroom b.
Proof. intros [H1 H2 H3 H4]. unfold ofpbuf_tailroom, ofpbuf_end, ofpbuf_tail. lia. Qed.

(** *** Reallocation *)

Lemma copy___spec b nh nt : ofpbuf_wf b -> 0 <= nh -> 0 <= nt ->
  exists h t, ofpbuf_copy__ b (uninit (nh + b_size b + nt)) nh nt = Ok (h ++ contents b ++ t) /\
    Z.of_nat (length h) = nh /\ Z.of_nat (length t) = nt.
Proof.
  intros Hw Hnh Hnt. pose proof (tailroom_nonneg b Hw) as Ht0. pose proof Hw as [H1 H2 H3 H4].
  unfold ofpbuf_copy__. unfold ofpbuf_headroom.
  set (ch := Z.min (b_data b) nh). set (ct := Z.min (ofpbuf_tailroom b) nt).
  assert (Hr : ofpbuf_tailroom b = b_allocated b - (b_data b + b_size b)) by done.
  rewrite slice_ok by (unfold b_allocated in *; lia). cbn [rbind].
  set (src := take _ _).
  assert (Hsrc : exists h t, src = h ++ contents b ++ t /\ Z.of_nat (length h) = ch /\
                             Z.of_nat (length t) = ct).
  { exists (take (Z.to_nat ch) (drop (Z.to_nat (b_data b - ch)) (b_store b))),
      (take (Z.to_nat ct) (drop (Z.to_nat (b_data b + b_size b)) (b_store b))).
    split.
    - unfold src, contents.
      replace (Z.to_nat (ch + b_size b + ct))
        with (Z.to_nat ch + (Z.to_nat (b_size b) + Z.to_nat ct))%nat by lia.
      rewrite <- !take_take_drop, !drop_drop. do 2 f_equal; [|f_equal]; repeat (f_equal; try lia).
    - unfold b_allocated in *. rewrite !length_take, !length_drop. lia. }
  destruct Hsrc as (h & t & -> & Hh & Ht).
  pose proof (length_contents b Hw) as Hlc.
  rewrite blit_ok; rewrite ?length_uninit, ?length_app, ?Hlc; [|lia|lia|lia].
  eexists (take (Z.to_nat (nh - ch)) (uninit _) ++ h), (t ++ drop _ (uninit _)).
  split; [f_equal; by rewrite <- !app_assoc|].
  rewrite !length_app, length_take, length_drop. unfold uninit. rewrite !length_replicate. lia.
Qed.

Lemma rel_shift b b' nh (l : option Z) : b_data b' = nh ->
  rel b' ((fun p => p + (nh - b_data b)) <$> l) = rel b l.
Proof. intros E. unfold rel. rewrite E. destruct l; simpl; [f_equal; lia|done]. Qed.

Lemma resize___spec b nh nt : ofpbuf_wf b -> b_source b <> OFPBUF_STACK ->
  0 <= nh -> 0 <= nt -> nh + b_size b + nt < 2 ^ 32 ->
  exists b', ofpbuf_resize__ b nh nt = Ok b' /\ ofpbuf_wf b' /\ contents b' = contents b /\
    b_data b' = nh /\ b_size b' = b_size b /\ ofpbuf_tailroom b' = nt /\
    b_source b' = OFPBUF_MALLOC /\ rel_layers b' = rel_layers b /\ b_base b' = S (b_base b).
Proof.
  intros Hw Hs Hnh Hnt Hlt. pose proof Hw as [H1 H2 H3 H4].
  pose proof (length_contents b Hw) as Hlc.
  unfold ofpbuf_resize__. rewrite u32_id by (unfold in_u32; lia).
  assert (Hn : exists h t, Z.of_nat (length h) = nh /\ Z.of_nat (length t) = nt /\
    match b_source b with
    | OFPBUF_MALLOC =>
        if nh =? ofpbuf_headroom b then Ok (xrealloc (b_store b) (nh + b_size b + nt))
        else ofpbuf_copy__ b (uninit (nh + b_size b + nt)) nh nt
    | OFPBUF_STACK => Fault AssertFail
    | OFPBUF_STUB => ofpbuf_copy__ b (uninit (nh + b_size b + nt)) nh nt
    end = Ok (h ++ contents b ++ t)).
  { destruct (copy___spec b nh nt Hw Hnh Hnt) as (h & t & E & Hh & Ht).
    destruct (b_source b); [|done|by exists h, t].
    destruct (Z.eqb_spec nh (ofpbuf_headroom b)) as [En|]; [|by exists h, t].
    unfold ofpbuf_headroom in En. unfold xrealloc.
    exists (take (Z.to_nat (b_data b)) (b_store b)),
      (take (Z.to_nat nt) (drop (Z.to_nat (b_data b + b_size b)) (b_store b)) ++
       uninit (nh + b_size b + nt - Z.of_nat (length (b_store b)))).
    unfold b_allocated in *. split; [|split].
    - rewrite length_take. lia.
    - rewrite length_app, length_take, length_drop. unfold uninit. rewrite length_replicate. lia.
    - f_equal. rewrite !app_assoc. f_equal. unfold contents.
      replace (Z.to_nat (nh + b_size b + nt))
        with (Z.to_nat (b_data b) + (Z.to_nat (b_size b) + Z.to_nat nt))%nat by lia.
      rewrite <- !take_take_drop, drop_drop, app_assoc. do 3 f_equal. lia. }
  destruct Hn as (h & t & Hh & Ht & ->). cbn [rbind]. eexists. split; [done|].
  assert (Hal : Z.of_nat (length (h ++ contents b ++ t)) = nh + b_size b + nt)
    by (rewrite !length_app, Hlc; lia).
  split; [|split; [|split; [|split; [|split; [|split; [|split]]]]]]; try done.
  - eapply wf_parts; simpl; [reflexivity|lia|lia|]. unfold b_allocated. simpl. lia.
  - eapply contents_parts; simpl; [reflexivity|lia|lia].
  - unfold ofpbuf_tailroom, ofpbuf_end, ofpbuf_tail, b_allocated. simpl. lia.
  - unfold rel_layers. cbn [fmap list_fmap l2 l2_5 l3 l4 l7]. by rewrite !rel_shift.
Qed.

(** *** Loads and stores inside the contents *)

(** [xs] with the elements from [k] on replaced by [ys]. *)
Definition patch {A} (k : nat) (ys xs : list A) : list A :=
  take k xs ++ ys ++ drop (k + length ys) xs.

Lemma length_patch {A} k (ys xs : list A) : (k + length ys <= length xs)%nat ->
  length (patch k ys xs) = length xs.
Proof. intros. unfold patch. rewrite !length_app, length_take, length_drop. lia. Qed.

Lemma patch_fmap {A B} (f : A -> B) k ys xs : f <$> patch k ys xs = patch k (f <$> ys) (f <$> xs).
Proof. unfold patch. by rewrite !fmap_app, length_fmap, fmap_take, fmap_drop. Qed.

(** A store that changes bytes in use changes nothing else. *)
Definition same_frame (b b' : ofpbuf) : Prop :=
  b_base b' = b_base b /\ b_source b' = b_source b /\ b_data b' = b_data b /\
  b_size b' = b_size b /\ l2 b' = l2 b /\ l2_5 b' = l2_5 b /\ l3 b' = l3 b /\
  l4 b' = l4 b /\ l7 b' = l7 b /\ b_allocated b' = b_allocated b.

Lemma same_frame_refl b : same_frame b b.
Proof. unfold same_frame. auto 12. Qed.

Lemma same_frame_trans b1 b2 b3 : same_frame b1 b2 -> same_frame b2 b3 -> same_frame b1 b3.
Proof. unfold same_frame. intuition congruence. Qed.

Lemma blit_contents b k (cs : cbuf) : ofpbuf_wf b -> Z.of_nat k + Z.of_nat (length cs) <= b_size b ->
  exists m, blit (b_store b) (b_data b + Z.of_nat k) cs = Ok m /\ ofpbuf_wf (with_store b m) /\
    same_frame b (with_store b m) /\ contents (with_store b m) = patch k cs (contents b).
Proof.
  intros Hw Hk. pose proof Hw as [H1 H2 H3 H4].
  pose proof (length_contents b Hw) as Hlc.
  set (h := take (Z.to_nat (b_data b)) (b_store b)).
  set (t := drop (Z.to_nat (b_data b + b_size b)) (b_store b)).
  assert (Hh : Z.of_nat (length h) = b_data b)
    by (unfold h, b_allocated in *; rewrite length_take; lia).
  exists (h ++ patch k cs (contents b) ++ t).
  assert (Hp : length (patch k cs (contents b)) = length (contents b))
    by (apply length_patch; lia).
  assert (Hal : Z.of_nat (length (h ++ patch k cs (contents b) ++ t)) = b_allocated b).
  { unfold b_allocated. pose proof (store_split b Hw) as Es. fold h t in Es.
    rewrite Es, !length_app. lia. }
  split; [|split; [|split]].
  - rewrite blit_ok by (unfold b_allocated in *; lia). apply (f_equal Ok).
    pose proof (store_split b Hw) as Es. fold h t in Es. rewrite Es.
    unfold patch.
    replace (Z.to_nat (b_data b + Z.of_nat k)) with (length h + k)%nat by lia.
    rewrite take_app_add, <- Nat.add_assoc, drop_app_add.
    rewrite take_app_le, drop_app_le by lia. by rewrite <- !app_assoc.
  - eapply wf_parts; [reflexivity|done|simpl; lia|unfold b_allocated; simpl; lia].
  - unfold same_frame. unfold b_allocated at 1. simpl. auto 12.
  - eapply contents_parts; [reflexivity|done|simpl; lia].
Qed.

Lemma slice_contents b k n : ofpbuf_wf b -> Z.of_nat k + Z.of_nat n <= b_size b ->
  slice (b_store b) (b_data b + Z.of_nat k) (Z.of_nat n) = Ok (take n (drop k (contents b))).
Proof.
  intros Hw Hk. pose proof Hw as [H1 H2 H3 H4].
  rewrite slice_ok by (unfold b_allocated in *; lia). apply (f_equal Ok).
  unfold contents. rewrite Nat2Z.id.
  replace (Z.to_nat (b_data b + Z.of_nat k)) with (Z.to_nat (b_data b) + k)%nat by lia.
  rewrite <- drop_drop.
  rewrite <- (take_drop (Z.to_nat (b_size b)) (drop (Z.to_nat (b_data b)) (b_store b))) at 1.
  assert (length (take (Z.to_nat (b_size b)) (drop (Z.to_nat (b_data b)) (b_store b)))
          = Z.to_nat (b_size b)) as Hl by (apply (length_contents b Hw)).
  rewrite drop_app_le, take_app_le; [done| |lia]. rewrite length_drop. lia.
Qed.

Lemma st_contents b k bs : ofpbuf_wf b -> Z.of_nat k + Z.of_nat (length bs) <= b_size b ->
  exists b', st b (b_data b + Z.of_nat k) bs = Ok b' /\ ofpbuf_wf b' /\ same_frame b b' /\
    contents b' = patch k (Some <$> bs) (contents b).
Proof.
  intros Hw Hk. unfold st.
  destruct (blit_contents b k (Some <$> bs) Hw) as (m & E & H'); [rewrite length_fmap; lia|].
  rewrite E. cbn [rbind]. by eexists.
Qed.

Lemma ld_contents b k n : ofpbuf_wf b -> Z.of_nat k + Z.of_nat n <= b_size b ->
  ld b (b_data b + Z.of_nat k) (Z.of_nat n) = init_bytes (take n (drop k (contents b))).
Proof. intros Hw Hk. unfold ld. by rewrite slice_contents. Qed.

Lemma ld_holds b xs k n : holds b xs -> (k + n <= length xs)%nat ->
  ld b (b_data b + Z.of_nat k) (Z.of_nat n) = Ok (take n (drop k xs)).
Proof.
  intros Hh Hk. pose proof (holds_length _ _ Hh). destruct Hh as [Hw Hc].
  rewrite ld_contents by (done || lia). rewrite Hc, <- fmap_drop, <- fmap_take.
  apply init_bytes_some.
Qed.

Lemma st_holds b xs k bs : holds b xs -> (k + length bs <= length xs)%nat ->
  exists b', st b (b_data b + Z.of_nat k) bs = Ok b' /\ holds b' (patch k bs xs) /\ same_frame b b'.
Proof.
  intros Hh Hk. pose proof (holds_length _ _ Hh). destruct Hh as [Hw Hc].
  destruct (st_contents b k bs Hw) as (b' & E & Hw' & Hf & Hc'); [lia|].
  exists b'. split; [done|]. split; [|done]. split; [done|].
  by rewrite Hc', Hc, patch_fmap.
Qed.

(** *** Room and data at both ends *)

(** [n] more bytes can be added at an end that has [room] bytes. *)
Definition can_grow (b : ofpbuf) (room n : Z) : Prop :=
  0 <= n /\ (b_source b <> OFPBUF_STACK \/ n <= room) /\
  b_data b + b_size b + ofpbuf_tailroom b + Z.max n 64 < 2 ^ 32.

(** What reallocation keeps, besides the contents. *)
Definition same_view (b b' : ofpbuf) : Prop :=
  contents b' = contents b /\ b_size b' = b_size b /\ rel_layers b' = rel_layers b /\
  (b_source b' = b_source b \/ b_source b' = OFPBUF_MALLOC) /\
  (b' = b \/ b_base b' = S (b_base b)).

Lemma prealloc_tailroom_spec b n : ofpbuf_wf b -> can_grow b (ofpbuf_tailroom b) n ->
  exists b', ofpbuf_prealloc_tailroom b n = Ok b' /\ ofpbuf_wf b' /\ same_view b b' /\
    b_data b' = b_data b /\ n <= ofpbuf_tailroom b' /\
    b_allocated b' <= b_allocated b + Z.max n 64 /\ (n <= ofpbuf_tailroom b -> b' = b).
Proof.
  intros Hw (Hn & Hs & Hlt). pose proof (tailroom_nonneg b Hw) as Ht. pose proof Hw as [H1 H2 H3 H4].
  unfold ofpbuf_prealloc_tailroom. case_bool.
  - destruct (resize___spec b (ofpbuf_headroom b) (Z.max n 64) Hw) as
      (b' & E & Hw' & Hc & Hd & Hsz & Htr & Hso & Hr & Hb);
      [destruct Hs; [done|lia]|unfold ofpbuf_headroom; lia|lia|unfold ofpbuf_headroom; lia|].
    exists b'. unfold same_view. rewrite Hc, Hsz, Hr, Hso, Htr. split_and!; auto; try lia.
    unfold ofpbuf_tailroom, ofpbuf_end, ofpbuf_tail, ofpbuf_headroom in *. lia.
  - exists b. unfold same_view. split_and!; auto; lia.
Qed.

Lemma prealloc_headroom_spec b n : ofpbuf_wf b -> can_grow b (ofpbuf_headroom b) n ->
  exists b', ofpbuf_prealloc_headroom b n = Ok b' /\ ofpbuf_wf b' /\ same_view b b' /\
    n <= b_data b' /\ b_allocated b' <= b_allocated b + Z.max n 64 /\
    (n <= b_data b -> b' = b).
Proof.
  intros Hw (Hn & Hs & Hlt). pose proof (tailroom_nonneg b Hw) as Ht. pose proof Hw as [H1 H2 H3 H4].
  unfold ofpbuf_prealloc_headroom. unfold ofpbuf_headroom at 1. case_bool.
  - destruct (resize___spec b (Z.max n 64) (ofpbuf_tailroom b) Hw) as
      (b' & E & Hw' & Hc & Hd & Hsz & Htr & Hso & Hr & Hb);
      [unfold ofpbuf_headroom in *; destruct Hs; [done|lia]|lia|lia|lia|].
    exists b'. unfold same_view. rewrite Hc, Hsz, Hr, Hso. split_and!; auto; try lia.
    unfold ofpbuf_tailroom, ofpbuf_end, ofpbuf_tail, ofpbuf_headroom in *. lia.
  - exists b. unfold same_view. split_and!; auto; lia.
Qed.

Lemma extent_tail b n : ofpbuf_wf b -> 0 <= n <= ofpbuf_tailroom b ->
  let b' := with_extent b (b_data b) (b_size b + n) in
  ofpbuf_wf b' /\ exists c, contents b' = contents b ++ c /\ Z.of_nat (length c) = n.
Proof.
  intros [H1 H2 H3 H4] Hn b'. unfold ofpbuf_tailroom, ofpbuf_end, ofpbuf_tail in Hn.
  split; [split; unfold b', b_allocated in *; simpl; lia|].
  exists (take (Z.to_nat n) (drop (Z.to_nat (b_data b + b_size b)) (b_store b))). split.
  - unfold contents, b'. simpl.
    replace (Z.to_nat (b_size b + n)) with (Z.to_nat (b_size b) + Z.to_nat n)%nat by lia.
    rewrite <- take_take_drop, drop_drop. do 3 f_equal. lia.
  - unfold b_allocated in *. rewrite length_take, length_drop. lia.
Qed.

Lemma extent_head b n : ofpbuf_wf b -> 0 <= n <= b_data b ->
  let b' := with_extent b (b_data b - n) (b_size b + n) in
  ofpbuf_wf b' /\ exists c, contents b' = c ++ contents b /\ Z.of_nat (length c) = n.
Proof.
  intros [H1 H2 H3 H4] Hn b'.
  split; [split; unfold b', b_allocated in *; simpl; lia|].
  exists (take (Z.to_nat n) (drop (Z.to_nat (b_data b - n)) (b_store b))). split.
  - unfold contents, b'. simpl.
    replace (Z.to_nat (b_size b + n)) with (Z.to_nat n + Z.to_nat (b_size b))%nat by lia.
    rewrite <- take_take_drop, drop_drop. do 3 f_equal. lia.
  - unfold b_allocated in *. rewrite length_take, length_drop. lia.
Qed.

Lemma extent_pull b n : ofpbuf_wf b -> 0 <= n <= b_size b ->
  let b' := with_extent b (b_data b + n) (b_size b - n) in
  ofpbuf_wf b' /\ contents b' = drop (Z.to_nat n) (contents b).
Proof.
  intros [H1 H2 H3 H4] Hn b'. split; [split; unfold b', b_allocated in *; simpl; lia|].
  unfold contents, b'. simpl. rewrite skipn_firstn_comm, drop_drop. f_equal; [lia|f_equal; lia].
Qed.

(** Layers relative to data that moved by [d] bytes. *)
Definition shift_layers (d : Z) (l : list (option Z)) : list (option Z) :=
  List.map (option_map (fun x => x + d)) l.

Lemma shift_layers_0 l : shift_layers 0 l = l.
Proof.
  unfold shift_layers. induction l as [|x l IH]; simpl; [done|]. rewrite IH. f_equal.
  destruct x; simpl; [f_equal; lia|done].
Qed.

Lemma rel_layers_extent b d n :
  rel_layers (with_extent b (b_data b - d) n) = shift_layers d (rel_layers b).
Proof.
  unfold rel_layers, shift_layers. simpl.
  repeat (apply f_equal2; [unfold rel; simpl;
    match goal with |- _ <$> ?l = _ => destruct l; simpl; [f_equal; lia|done] end|]). done.
Qed.

(** What an operation that adds bytes keeps: the layers, relative to the bytes
    that were there, and the ability to grow. *)
Record grown (b b' : ofpbuf) (n d : Z) : Prop := {
  gr_size : b_size b' = b_size b + n;
  gr_layers : rel_layers b' = shift_layers d (rel_layers b);
  gr_source : b_source b' = b_source b \/ b_source b' = OFPBUF_MALLOC;
  gr_alloc : b_allocated b' <= b_allocated b + Z.max n 64
}.

Lemma put_uninit_spec b n : ofpbuf_wf b -> can_grow b (ofpbuf_tailroom b) n ->
  exists b' c, ofpbuf_put_uninit b n = Ok ((b_base b', b_data b' + b_size b), b') /\
    ofpbuf_wf b' /\ contents b' = contents b ++ c /\ Z.of_nat (length c) = n /\
    grown b b' n 0 /\ b_data b' = b_data b /\ (n <= ofpbuf_tailroom b -> b_base b' = b_base b).
Proof.
  intros Hw Hg. destruct (prealloc_tailroom_spec b n Hw Hg) as
    (b1 & E & Hw1 & (Hc & Hs & Hr & Hso & Hb) & Hd & Ht & Ha & Hk).
  destruct Hg as (Hn & _ & Hlt). pose proof (tailroom_nonneg b Hw) as Htb.
  assert (b_size b1 + n < 2 ^ 32).
  { pose proof Hw1 as [? ? ? ?]. unfold ofpbuf_tailroom, ofpbuf_end, ofpbuf_tail in Ht. lia. }
  destruct (extent_tail b1 n Hw1 ltac:(lia)) as (Hw2 & c & Hc2 & Hl).
  unfold ofpbuf_put_uninit. rewrite E. cbn [rbind].
  rewrite u32_id by (unfold in_u32; pose proof (wf_size _ Hw1); lia).
  exists (with_extent b1 (b_data b1) (b_size b1 + n)), c. simpl.
  split; [unfold ofpbuf_tail; by rewrite Hs|]. split; [done|].
  split; [by rewrite Hc2, Hc|]. split; [done|]. split; [|split].
  - split; [simpl; lia| |done|exact Ha].
    rewrite shift_layers_0, <- Hr. reflexivity.
  - done.
  - intros Hle. by rewrite Hk.
Qed.

Lemma push_uninit_spec b n : ofpbuf_wf b -> can_grow b (ofpbuf_headroom b) n ->
  exists b' c, ofpbuf_push_uninit b n = Ok ((b_base b', b_data b'), b') /\
    ofpbuf_wf b' /\ contents b' = c ++ contents b /\ Z.of_nat (length c) = n /\
    grown b b' n n /\ (n <= b_data b -> b_base b' = b_base b).
Proof.
  intros Hw Hg. destruct (prealloc_headroom_spec b n Hw Hg) as
    (b1 & E & Hw1 & (Hc & Hs & Hr & Hso & Hb) & Hd & Ha & Hk).
  destruct Hg as (Hn & _ & Hlt).
  destruct (extent_head b1 n Hw1 ltac:(lia)) as (Hw2 & c & Hc2 & Hl).
  pose proof Hw1 as [? ? ? ?].
  unfold ofpbuf_push_uninit. rewrite E. cbn [rbind].
  rewrite u32_id by (unfold in_u32; lia).
  exists (with_extent b1 (b_data b1 - n) (b_size b1 + n)), c. simpl.
  split; [done|]. split; [done|].
  split; [by rewrite Hc2, Hc|]. split; [done|]. split.
  - split; [simpl; lia| |done|exact Ha]. by rewrite rel_layers_extent, Hr.
  - intros H'. by rewrite Hk.
Qed.

Lemma patch_tail {A} (xs c ys : list A) : length ys = length c ->
  patch (length xs) ys (xs ++ c) = xs ++ ys.
Proof.
  intros E. unfold patch. rewrite take_app_length, drop_app_add, E, drop_all.
  by rewrite app_nil_r.
Qed.

Lemma patch_head {A} (xs c ys : list A) : length ys = length c ->
  patch 0 ys (c ++ xs) = ys ++ xs.
Proof. intros E. unfold patch. simpl. by rewrite E, drop_app_length. Qed.

Lemma grown_frame b b1 b2 n d : grown b b1 n d -> same_frame b1 b2 -> grown b b2 n d.
Proof.
  intros [H1 H2 H3 H4] (F1 & F2 & F3 & F4 & F5 & F6 & F7 & F8 & F9 & F10).
  split; [lia| |rewrite F2; done|lia].
  rewrite <- H2. unfold rel_layers, rel. by rewrite F3, F5, F6, F7, F8, F9.
Qed.

(** Appending and prefixing given bytes. *)
Lemma put_spec b xs ys : holds b xs -> can_grow b (ofpbuf_tailroom b) (Z.of_nat (length ys)) ->
  exists b', ofpbuf_put b ys = Ok ((b_base b', b_data b' + Z.of_nat (length xs)), b') /\
    holds b' (xs ++ ys) /\ grown b b' (Z.of_nat (length ys)) 0 /\ b_data b' = b_data b /\
    (Z.of_nat (length ys) <= ofpbuf_tailroom b -> b_base b' = b_base b).
Proof.
  intros Hh Hg. pose proof (holds_length _ _ Hh) as Hl. destruct Hh as [Hw Hc].
  destruct (put_uninit_spec b _ Hw Hg) as (b1 & c & E & Hw1 & Hc1 & Hlc & Hgr & Hd & Hk).
  unfold ofpbuf_put. rewrite E. cbn [rbind snd]. rewrite <- Hl in *.
  destruct (st_contents b1 (length xs) ys Hw1) as (b2 & E2 & Hw2 & Hf & Hc2).
  { rewrite (gr_size _ _ _ _ Hgr). lia. }
  rewrite E2. cbn [rbind]. exists b2. pose proof Hf as (F1 & _ & F3 & _).
  split; [by rewrite F1, F3|]. split; [split; [done|]|].
  - rewrite Hc2, Hc1, Hc, fmap_app. rewrite <- (length_fmap Some xs) at 1.
    apply patch_tail. rewrite length_fmap. lia.
  - split; [by eapply grown_frame|]. split; [congruence|]. intros Hle. rewrite F1. auto.
Qed.

Lemma push_spec b xs ys : holds b xs -> can_grow b (ofpbuf_headroom b) (Z.of_nat (length ys)) ->
  exists b', ofpbuf_push b ys = Ok ((b_base b', b_data b'), b') /\
    holds b' (ys ++ xs) /\ grown b b' (Z.of_nat (length ys)) (Z.of_nat (length ys)) /\
    (Z.of_nat (length ys) <= b_data b -> b_base b' = b_base b).
Proof.
  intros [Hw Hc] Hg.
  destruct (push_uninit_spec b _ Hw Hg) as (b1 & c & E & Hw1 & Hc1 & Hlc & Hgr & Hk).
  unfold ofpbuf_push. rewrite E. cbn [rbind snd].
  destruct (st_contents b1 0 ys Hw1) as (b2 & E2 & Hw2 & Hf & Hc2).
  { rewrite (gr_size _ _ _ _ Hgr). pose proof (wf_size b Hw). lia. }
  simpl Z.of_nat in E2. rewrite Z.add_0_r in E2. rewrite E2. cbn [rbind].
  exists b2. pose proof Hf as (F1 & _ & F3 & _).
  split; [by rewrite F1, F3|]. split; [split; [done|]|].
  - rewrite Hc2, Hc1, Hc, fmap_app. apply patch_head. rewrite length_fmap. lia.
  - split; [by eapply grown_frame|]. intros Hle. rewrite F1. auto.
Qed.

Lemma put_zeros_put b n : 0 <= n -> ofpbuf_put_zeros b n = ofpbuf_put b (replicate (Z.to_nat n) 0).
Proof.
  intros Hn. unfold ofpbuf_put_zeros, ofpbuf_put.
  by replace (Z.of_nat (length (replicate (Z.to_nat n) 0))) with n
    by (rewrite length_replicate; lia).
Qed.

Lemma push_zeros_push b n : 0 <= n ->
  ofpbuf_push_zeros b n = ofpbuf_push b (replicate (Z.to_nat n) 0).
Proof.
  intros Hn. unfold ofpbuf_push_zeros, ofpbuf_push.
  by replace (Z.of_nat (length (replicate (Z.to_nat n) 0))) with n
    by (rewrite length_replicate; lia).
Qed.

(** Removal from the head. *)
Lemma pull_spec b xs n : holds b xs -> 0 <= n <= Z.of_nat (length xs) ->
  exists b', ofpbuf_pull b n = Ok (b_data b, b') /\ holds b' (drop (Z.to_nat n) xs) /\
    b' = with_extent b (b_data b + n) (b_size b - n).
Proof.
  intros Hh Hn. pose proof (holds_length _ _ Hh) as Hl. destruct Hh as [Hw Hc].
  destruct (extent_pull b n Hw ltac:(lia)) as [Hw' Hc'].
  unfold ofpbuf_pull, ovs_assert. case_bool; [|lia]. cbn [rbind]. eexists. split; [done|].
  split; [|done]. split; [done|]. by rewrite Hc', Hc, fmap_drop.
Qed.

(** Exhausted room: a shift needs no reallocation and moves the data only. *)
Lemma shift_spec b xs delta : holds b xs ->
  - ofpbuf_headroom b <= delta <= ofpbuf_tailroom b ->
  exists b', ofpbuf_shift b delta = Ok b' /\ holds b' xs /\ b_data b' = b_data b + delta /\
    [l2 b'; l2_5 b'; l3 b'; l4 b'; l7 b'] = [l2 b; l2_5 b; l3 b; l4 b; l7 b].
Proof.
  intros [Hw Hc] Hd. pose proof Hw as [H1 H2 H3 H4].
  unfold ofpbuf_headroom, ofpbuf_tailroom, ofpbuf_end, ofpbuf_tail in Hd.
  assert (Ea : ovs_assert (if 0 <? delta then delta <=? ofpbuf_tailroom b
    else if delta <? 0 then - delta <=? ofpbuf_headroom b else true) = Ok tt).
  { unfold ovs_assert, ofpbuf_headroom, ofpbuf_tailroom, ofpbuf_end, ofpbuf_tail.
    repeat case_bool; try done; lia. }
  unfold ofpbuf_shift. rewrite Ea. cbn [rbind].
  destruct (Z.eqb_spec delta 0) as [->|Hne]; simpl negb; cbv iota.
  { exists b. split; [done|]. split; [done|]. split; [lia|done]. }
  pose proof (length_contents b Hw) as Hl.
  rewrite slice_ok by (unfold b_allocated in *; lia). cbn [rbind]. fold (contents b).
  rewrite blit_ok by (rewrite ?Hl; unfold b_allocated in *; lia). cbn [rbind].
  eexists. split; [done|]. split; [|by simpl].
  set (m := take _ _ ++ _).
  assert (Hm : length m = length (b_store b))
    by (unfold m; apply length_blit; rewrite ?Hl; unfold b_allocated in *; lia).
  split.
  - split; simpl; [lia|lia| |]; unfold b_allocated in *; simpl; lia.
  - rewrite <- Hc. eapply contents_parts; simpl; [reflexivity| |lia].
    unfold b_allocated in *. rewrite length_take. lia.
Qed.

(** ** Sequences of operations

    The operations that add or remove bytes, as a client uses them, and what
    they mean on the sequence of bytes; [None] stands for the failure of an
    assertion. *)

Inductive ofpbuf_op :=
  | Op_put (p : list Z)
  | Op_put_zeros (n : nat)
  | Op_push (p : list Z)
  | Op_push_zeros (n : nat)
  | Op_pull (n : nat)
  | Op_try_pull (n : nat)
  | Op_prealloc_tailroom (n : nat)
  | Op_prealloc_headroom (n : nat)
  | Op_reserve (n : nat)
  | Op_padto (n : nat)
  | Op_trim
  | Op_clear.

Definition apply_op (o : ofpbuf_op) (b : ofpbuf) : Res ofpbuf :=
  match o with
  | Op_put p => rmap snd (ofpbuf_put b p)
  | Op_put_zeros n => rmap snd (ofpbuf_put_zeros b (Z.of_nat n))
  | Op_push p => rmap snd (ofpbuf_push b p)
  | Op_push_zeros n => rmap snd (ofpbuf_push_zeros b (Z.of_nat n))
  | Op_pull n => rmap snd (ofpbuf_pull b (Z.of_nat n))
  | Op_try_pull n => rmap snd (ofpbuf_try_pull b (Z.of_nat n))
  | Op_prealloc_tailroom n => ofpbuf_prealloc_tailroom b (Z.of_nat n)
  | Op_prealloc_headroom n => ofpbuf_prealloc_headroom b (Z.of_nat n)
  | Op_reserve n => ofpbuf_reserve b (Z.of_nat n)
  | Op_padto n => ofpbuf_padto b (Z.of_nat n)
  | Op_trim => ofpbuf_trim b
  | Op_clear => Ok (ofpbuf_clear b)
  end.

Definition abs_op (o : ofpbuf_op) (xs : list Z) : option (list Z) :=
  match o with
  | Op_put p => Some (xs ++ p)
  | Op_put_zeros n => Some (xs ++ replicate n 0)
  | Op_push p => Some (p ++ xs)
  | Op_push_zeros n => Some (replicate n 0 ++ xs)
  | Op_pull n => if decide (n <= length xs)%nat then Some (drop n xs) else None
  | Op_try_pull n => Some (if decide (n <= length xs)%nat then drop n xs else xs)
  | Op_reserve _ => if decide (xs = []) then Some [] else None
  | Op_padto n => Some (xs ++ replicate (n - length xs) 0)
  | Op_prealloc_tailroom _ | Op_prealloc_headroom _ | Op_trim => Some xs
  | Op_clear => Some []
  end.

(** A bound on the bytes an operation adds to the block. *)
Definition op_cost (o : ofpbuf_op) : Z :=
  match o with
  | Op_put p | Op_push p => Z.of_nat (length p) + 64
  | Op_put_zeros n | Op_push_zeros n | Op_prealloc_tailroom n | Op_prealloc_headroom n
  | Op_reserve n | Op_padto n => Z.of_nat n + 64
  | Op_pull _ | Op_try_pull _ | Op_trim | Op_clear => 0
  end.

Fixpoint run_ops (ops : list ofpbuf_op) (b : ofpbuf) : Res ofpbuf :=
  match ops with
  | [] => Ok b
  | o :: ops => let* b := apply_op o b in run_ops ops b
  end.

Fixpoint abs_run (ops : list ofpbuf_op) (xs : list Z) : option (list Z) :=
  match ops with
  | [] => Some xs
  | o :: ops => match abs_op o xs with Some xs => abs_run ops xs | None => None end
  end.

Definition ops_cost (ops : list ofpbuf_op) : Z := foldr (fun o n => op_cost o + n) 0 ops.

(** A buffer that may be reallocated, with [n] bytes to spare below the largest
    block. *)
Definition growable (b : ofpbuf) (n : Z) : Prop :=
  b_source b <> OFPBUF_STACK /\ b_allocated b + n < 2 ^ 32.

Lemma growable_can_grow b room n cost : ofpbuf_wf b -> growable b cost ->
  0 <= n -> n + 64 <= cost -> can_grow b room n.
Proof.
  intros Hw [Hs Ha] Hn Hc. split; [done|]. split; [by left|].
  unfold ofpbuf_tailroom, ofpbuf_end, ofpbuf_tail. lia.
Qed.

Lemma grown_growable b b' n d cost rest : growable b (cost + rest) -> grown b b' n d ->
  0 <= n -> n + 64 <= cost -> growable b' rest.
Proof.
  intros [Hs Ha] [_ _ Hso Hal] Hn Hc. split; [destruct Hso; congruence|lia].
Qed.

(** The buffer after an operation that succeeds. *)
Definition op_result (b : ofpbuf) (o : ofpbuf_op) (xs : list Z) (rest : Z) : Prop :=
  match abs_op o xs with
  | Some ys => exists b', apply_op o b = Ok b' /\ holds b' ys /\ growable b' rest
  | None => apply_op o b = Fault AssertFail
  end.

Lemma apply_put_ok b xs ys rest : holds b xs -> growable b (Z.of_nat (length ys) + 64 + rest) ->
  0 <= rest ->
  exists p b', ofpbuf_put b ys = Ok (p, b') /\ holds b' (xs ++ ys) /\ growable b' rest.
Proof.
  intros Hh Hg Hr. edestruct (put_spec b xs ys Hh) as (b' & E & Hh' & Hgr & _).
  { eapply growable_can_grow; [apply Hh|exact Hg|lia|lia]. }
  eexists _, b'. split; [exact E|]. split; [done|].
  eapply grown_growable; [exact Hg|exact Hgr|lia|lia].
Qed.

Lemma apply_push_ok b xs ys rest : holds b xs -> growable b (Z.of_nat (length ys) + 64 + rest) ->
  0 <= rest ->
  exists p b', ofpbuf_push b ys = Ok (p, b') /\ holds b' (ys ++ xs) /\ growable b' rest.
Proof.
  intros Hh Hg Hr. edestruct (push_spec b xs ys Hh) as (b' & E & Hh' & Hgr & _).
  { eapply growable_can_grow; [apply Hh|exact Hg|lia|lia]. }
  eexists _, b'. split; [exact E|]. split; [done|].
  eapply grown_growable; [exact Hg|exact Hgr|lia|lia].
Qed.

Lemma view_holds b b' xs : holds b xs -> ofpbuf_wf b' -> same_view b b' -> holds b' xs.
Proof. intros [Hw Hc] Hw' (Hv & _). split; [done|congruence]. Qed.

Lemma view_growable b b' n rest : growable b (n + 64 + rest) -> same_view b b' -> 0 <= n ->
  b_allocated b' <= b_allocated b + Z.max n 64 -> growable b' rest.
Proof.
  intros [Hs Ha] (_ & _ & _ & Hso & _) Hn Hal. split; [destruct Hso; congruence|lia].
Qed.

Lemma pull_ok b xs n rest : holds b xs -> growable b rest -> (n <= length xs)%nat ->
  exists p b', ofpbuf_pull b (Z.of_nat n) = Ok (p, b') /\ holds b' (drop n xs) /\ growable b' rest.
Proof.
  intros Hh Hg Hn. destruct (pull_spec b xs (Z.of_nat n) Hh) as (b' & E & Hh' & ->); [lia|].
  rewrite Nat2Z.id in Hh'. eexists _, _. split; [exact E|]. by split.
Qed.

Lemma prealloc_tailroom_ok b xs n rest : holds b xs -> growable b (n + 64 + rest) ->
  0 <= n -> 0 <= rest ->
  exists b', ofpbuf_prealloc_tailroom b n = Ok b' /\ holds b' xs /\ growable b' rest /\
    n <= ofpbuf_tailroom b'.
Proof.
  intros Hh Hg Hn Hr. destruct (prealloc_tailroom_spec b n (proj1 Hh)) as
    (b' & E & Hw' & Hv & _ & Ht & Ha & _).
  { eapply growable_can_grow; [apply Hh|exact Hg|lia|lia]. }
  exists b'. split; [done|]. split; [by eapply view_holds|].
  split; [by eapply view_growable|done].
Qed.

Lemma prealloc_headroom_ok b xs n rest : holds b xs -> growable b (n + 64 + rest) ->
  0 <= n -> 0 <= rest ->
  exists b', ofpbuf_prealloc_headroom b n = Ok b' /\ holds b' xs /\ growable b' rest.
Proof.
  intros Hh Hg Hn Hr. destruct (prealloc_headroom_spec b n (proj1 Hh)) as
    (b' & E & Hw' & Hv & _ & Ha & _).
  { eapply growable_can_grow; [apply Hh|exact Hg|lia|lia]. }
  exists b'. split; [done|]. split; [by eapply view_holds|]. by eapply view_growable.
Qed.

Lemma reserve_ok b n rest : holds b [] -> growable b (n + 64 + rest) -> 0 <= n -> 0 <= rest ->
  exists b', ofpbuf_reserve b n = Ok b' /\ holds b' [] /\ growable b' rest.
Proof.
  intros Hh Hg Hn Hr. pose proof (holds_length _ _ Hh) as Hl.
  destruct (prealloc_tailroom_ok b [] n rest Hh Hg Hn Hr) as (b1 & E & Hh1 & [Hs Ha] & Ht).
  pose proof (holds_length _ _ Hh1) as Hl1. destruct Hh1 as [[H1 H2 H3 H4] _].
  unfold ofpbuf_reserve. rewrite <- Hl. cbn [length Z.of_nat Z.eqb ovs_assert rbind].
  rewrite E. cbn [rbind]. eexists. split; [done|]. split; [|by split].
  unfold ofpbuf_tailroom, ofpbuf_end, ofpbuf_tail in Ht. simpl length in Hl1. simpl Z.of_nat in Hl1.
  split; [split; simpl; unfold b_allocated in *; simpl; lia|].
  unfold contents. simpl. by rewrite <- Hl1.
Qed.

Lemma trim_ok b xs rest : holds b xs -> growable b rest -> 0 <= rest ->
  exists b', ofpbuf_trim b = Ok b' /\ holds b' xs /\ growable b' rest.
Proof.
  intros Hh [Hs Ha] Hr. unfold ofpbuf_trim. destruct (b_source b) eqn:Eso; [|done|].
  2:{ exists b. split; [done|]. split; [done|]. split; [congruence|done]. }
  destruct (negb (ofpbuf_headroom b =? 0) || negb (ofpbuf_tailroom b =? 0)).
  2:{ exists b. split; [done|]. split; [done|]. split; [congruence|done]. }
  destruct Hh as [Hw Hc]. pose proof Hw as [H1 H2 H3 H4].
  destruct (resize___spec b 0 0 Hw) as (b' & E & Hw' & Hc' & Hd & Hsz & Ht & Hso & _);
    [congruence|lia|lia|lia|].
  exists b'. split; [done|]. split; [split; [done|congruence]|]. split; [congruence|].
  unfold ofpbuf_tailroom, ofpbuf_end, ofpbuf_tail in Ht. lia.
Qed.

Lemma apply_op_refines b xs o rest : holds b xs -> growable b (op_cost o + rest) -> 0 <= rest ->
  op_result b o xs rest.
Proof.
  intros Hh Hg Hr. pose proof (holds_length _ _ Hh) as Hl. unfold op_result.
  destruct o as [p|n|p|n|n|n|n|n|n|n| |]; simpl abs_op; simpl apply_op; cbv beta iota;
    unfold op_cost in Hg.
  - destruct (apply_put_ok b xs p rest Hh Hg Hr) as (q & b' & -> & ? & ?). exists b'. done.
  - rewrite put_zeros_put, Nat2Z.id by lia.
    destruct (apply_put_ok b xs (replicate n 0) rest Hh) as (q & b' & -> & ? & ?);
      [by rewrite length_replicate|done|]. exists b'. done.
  - destruct (apply_push_ok b xs p rest Hh Hg Hr) as (q & b' & -> & ? & ?). exists b'. done.
  - rewrite push_zeros_push, Nat2Z.id by lia.
    destruct (apply_push_ok b xs (replicate n 0) rest Hh) as (q & b' & -> & ? & ?);
      [by rewrite length_replicate|done|]. exists b'. done.
  - case_decide.
    + destruct (pull_ok b xs n rest Hh Hg) as (q & b' & -> & ? & ?); [done|]. exists b'. done.
    + unfold ofpbuf_pull, ovs_assert. case_bool; [lia|done].
  - unfold ofpbuf_try_pull. case_decide; case_bool; try lia; [|exists b; done].
    destruct (pull_ok b xs n rest Hh Hg) as (q & b' & -> & ? & ?); [done|]. exists b'. done.
  - destruct (prealloc_tailroom_ok b xs _ rest Hh Hg ltac:(lia) Hr) as (b' & -> & ? & ? & _). eauto.
  - destruct (prealloc_headroom_ok b xs _ rest Hh Hg ltac:(lia) Hr) as (b' & -> & ? & ?). eauto.
  - case_decide; subst.
    + destruct (reserve_ok b _ rest Hh Hg ltac:(lia) Hr) as (b' & -> & ? & ?). eauto.
    + unfold ofpbuf_reserve, ovs_assert. case_bool; [|done].
      destruct xs; [done|]. simpl length in Hl. lia.
  - unfold ofpbuf_padto. case_bool.
    + rewrite put_zeros_put by lia.
      replace (Z.to_nat (Z.of_nat n - b_size b)) with (n - length xs)%nat by lia.
      destruct Hg as [Hs Ha].
      destruct (apply_put_ok b xs (replicate (n - length xs) 0) rest Hh) as (q & b' & -> & ? & ?);
        [split; [done|rewrite length_replicate; lia]|done|]. exists b'. done.
    + replace (n - length xs)%nat with 0%nat by lia. simpl. rewrite app_nil_r.
      exists b. split; [done|]. split; [done|]. destruct Hg. split; [done|lia].
  - by apply trim_ok.
  - destruct Hg as [Hs Ha]. exists (ofpbuf_clear b). split; [done|].
    split; [|by split]. destruct (proj1 Hh) as [H1 H2 H3 H4].
    split; [split; simpl; unfold b_allocated in *; simpl; lia|done].
Qed.

Lemma op_cost_nonneg o : 0 <= op_cost o.
Proof. destruct o; simpl; lia. Qed.
Lemma ops_cost_nonneg ops : 0 <= ops_cost ops.
Proof. induction ops as [|o ops IH]; simpl; [lia|]. pose proof (op_cost_nonneg o). lia. Qed.

(** C29. A packet buffer that owns its memory behaves as the sequence of its
    bytes under any sequence of the operations that add, remove or make room
    for bytes: the result holds what the operations mean on sequences, and an
    assertion fails exactly when an operation removes more bytes than there
    are or reserves headroom in a buffer in use, as long as the blocks stay
    below 4 GB. *)
Theorem ofpbuf_ops_refine ops : forall b xs,
  holds b xs -> growable b (ops_cost ops) ->
  match abs_run ops xs with
  | Some ys => exists b', run_ops ops b = Ok b' /\ holds b' ys
  | None => run_ops ops b = Fault AssertFail
  end.
Proof.
  induction ops as [|o ops IH]; intros b xs Hh Hg; simpl; [by exists b|].
  pose proof (apply_op_refines b xs o (ops_cost ops) Hh Hg (ops_cost_nonneg ops)) as H.
  unfold op_result in H. destruct (abs_op o xs) as [ys|]; [|by rewrite H].
  destruct H as (b' & -> & Hh' & Hg'). cbn [rbind]. by apply IH.
Qed.

Lemma ofpbuf_init_holds base size : 0 <= size < 2 ^ 32 -> holds (ofpbuf_init base size) [].
Proof.
  intros Hs. split; [|done].
  split; unfold b_allocated, ofpbuf_init, ofpbuf_use, ofpbuf_use__; simpl b_store; simpl;
    rewrite ?length_uninit by lia; lia.
Qed.

Lemma ofpbuf_ops_refine_witness :
  exists b', run_ops [Op_reserve 2; Op_put [1; 2; 3]; Op_push [9; 8; 7; 6]; Op_trim; Op_pull 3;
                      Op_padto 6; Op_put_zeros 80; Op_try_pull 200; Op_pull 5]
               (ofpbuf_init 1 0) = Ok b' /\ holds b' (0 :: replicate 80 0).
Proof.
  apply (ofpbuf_ops_refine [Op_reserve 2; Op_put [1; 2; 3]; Op_push [9; 8; 7; 6]; Op_trim; Op_pull 3;
                      Op_padto 6; Op_put_zeros 80; Op_try_pull 200; Op_pull 5] (ofpbuf_init 1 0) []).
  - apply ofpbuf_init_holds. lia.
  - split; [discriminate|]. vm_compute. reflexivity.
Defined.

(** Trimming removes the headroom with the tailroom. *)
Lemma ofpbuf_trim_drops_headroom :
  match run_ops [Op_reserve 2; Op_put [1; 2; 3]] (ofpbuf_init 1 0) with
  | Ok b => ofpbuf_headroom b = 2 /\ rmap ofpbuf_headroom (ofpbuf_trim b) = Ok 0
  | Fault _ => False
  end.
Proof. vm_compute. split; reflexivity. Qed.

(** Deleting a list of buffers leaves the list empty and frees every buffer. *)
Lemma list_delete_loop_spec fuel : forall m h xs, dlist m h xs -> (length xs <= fuel)%nat ->
  exists m', list_delete_loop fuel m h (first_or h xs) = Ok (Some m') /\ dlist m' h [] /\
    agree_outside (h :: xs) m m' /\ forall a, a ∈ xs -> m' !! a = None.
Proof.
  induction fuel as [|fuel IH]; intros m h [|x xs] Hd Hf; simpl in Hf; try lia;
    cbn [list_delete_loop first_or]; rewrite ?decide_True by done;
    try (exists m; split_and!; [done|done|done|intros a Ha; by apply elem_of_nil in Ha]).
  pose proof Hd as [Hnd HL]. rewrite !NoDup_cons in Hnd. destruct Hnd as (Hh & Hx & Hnd).
  rewrite decide_False by (intros ->; set_solver).
  destruct (list_remove_dlist m h [] x xs Hd) as (m1 & E1 & Hd1 & Ha1). simpl in Hd1, Ha1.
  assert (En : get_next m x = Ok (first_or h xs)).
  { destruct HL as [_ HL]. apply get_next_Ok. by apply links_first in HL as [? _]. }
  rewrite En. cbn [rbind]. rewrite E1. cbn [rbind].
  assert (Hd2 : dlist (delete x m1) h xs).
  { eapply (dlist_frame [x]); [|set_solver|exact Hd1].
    intros a Ha. apply lookup_delete_ne. set_solver. }
  destruct (IH (delete x m1) h xs Hd2) as (m' & E & Hd' & Ha' & Hf'); [lia|].
  exists m'. split; [exact E|]. split; [done|]. split.
  - intros a Ha. rewrite Ha', lookup_delete_ne by set_solver. apply Ha1. set_solver.
  - intros a [->|Ha]%elem_of_cons; [|auto]. rewrite Ha' by set_solver. apply lookup_delete_eq.
Qed.

Lemma ofpbuf_list_delete_spec fuel m h xs : dlist m h xs -> (length xs <= fuel)%nat ->
  exists m', ofpbuf_list_delete fuel m h = Ok (Some m') /\ dlist m' h [] /\
    forall a, a ∈ xs -> m' !! a = None.
Proof.
  intros Hd Hf. unfold ofpbuf_list_delete. rewrite (dlist_next m h xs Hd). cbn [rbind].
  destruct (list_delete_loop_spec fuel m h xs Hd Hf) as (m' & ? & ? & _ & ?). eauto.
Qed.

(** A copy holds the same bytes behind the headroom asked for, with the header
    pointers at the same places of the packet. *)
Lemma clone_data_with_headroom_spec base xs headroom : 0 <= headroom ->
  Z.of_nat (length xs) + headroom + 64 + Z.of_nat (length xs) < 2 ^ 32 ->
  exists b, ofpbuf_clone_data_with_headroom base xs headroom = Ok b /\ holds b xs /\
    ofpbuf_headroom b = headroom /\ b_source b = OFPBUF_MALLOC.
Proof.
  intros Hh Hlt. set (n := Z.of_nat (length xs)) in *. assert (Hn0 : 0 <= n) by lia.
  unfold ofpbuf_clone_data_with_headroom, ofpbuf_new_with_headroom, ofpbuf_new. fold n.
  rewrite u32_id by (unfold in_u32; lia).
  pose proof (ofpbuf_init_holds base (n + headroom) ltac:(lia)) as Hb0.
  set (b0 := ofpbuf_init base (n + headroom)) in *.
  assert (Ht : ofpbuf_tailroom b0 = n + headroom).
  { unfold ofpbuf_tailroom, ofpbuf_end, ofpbuf_tail, b_allocated, b0. simpl.
    rewrite length_uninit by lia. lia. }
  unfold ofpbuf_reserve. change (b_size b0 =? 0) with true. cbn [ovs_assert rbind].
  unfold ofpbuf_prealloc_tailroom. rewrite Ht. case_bool; [lia|]. cbn [rbind].
  set (b1 := with_extent b0 _ _).
  assert (Hb1 : holds b1 []).
  { split; [|done]. split; unfold b1, b0, b_allocated; simpl; rewrite ?length_uninit by lia; lia. }
  destruct (put_spec b1 [] xs Hb1) as (b2 & E & Hb2 & Hg & Hd & _).
  { split; [lia|]. split; [left; discriminate|].
    unfold ofpbuf_tailroom, ofpbuf_end, ofpbuf_tail, b_allocated, b1, b0. simpl.
    rewrite length_uninit by lia. lia. }
  fold b1 in E. rewrite E. cbn [rbind]. exists b2. split; [done|]. split; [done|].
  split; [unfold ofpbuf_headroom; by rewrite Hd|].
  destruct (gr_source _ _ _ _ Hg) as [->|]; done.
Qed.

Lemma clone_with_headroom_spec base b xs headroom : holds b xs -> 0 <= headroom ->
  Z.of_nat (length xs) + headroom + 64 + Z.of_nat (length xs) < 2 ^ 32 ->
  exists b', ofpbuf_clone_with_headroom base b headroom = Ok b' /\ holds b' xs /\
    ofpbuf_headroom b' = headroom /\ rel_layers b' = rel_layers b.
Proof.
  intros Hh Hn Hlt. pose proof (holds_length _ _ Hh) as Hl.
  pose proof (ld_holds b xs 0 (length xs) Hh ltac:(lia)) as El.
  rewrite Hl, drop_0, firstn_all in El. simpl Z.of_nat in El. rewrite Z.add_0_r in El.
  unfold ofpbuf_clone_with_headroom. rewrite El. cbn [rbind].
  destruct (clone_data_with_headroom_spec base xs headroom Hn Hlt) as (b1 & E & H1 & Hr & Hs).
  rewrite E. cbn [rbind]. eexists. split; [done|]. split; [|split].
  - destruct H1 as [[? ? ? ?] ?]. split; [by split|done].
  - exact Hr.
  - unfold rel_layers. cbn [fmap list_fmap l2 l2_5 l3 l4 l7 with_layers].
    by rewrite !rel_shift.
Qed.
