(* ===== verification/Packets.v ===== *)
(** * Packet headers ([lib/packets.c], [lib/packets.h], [lib/unaligned.h])

    The operations that the data path uses to compose and to rewrite packets:
    pushing and popping VLAN tags and MPLS label stack entries, rewriting the
    fields of IPv4, IPv6, TCP, UDP and SCTP headers with their checksums, and
    the address and mask helpers.  A packet is a buffer of [Ofpbuf]; a header
    pointer is an offset of its block, and a field is read and written at the
    offset the C structure gives it.  Values of the types [ovs_be16] and
    [ovs_be32] are what a little-endian host loads from the packet. *)

From Stdlib Require Import ZArith Lia List.
From stdpp Require Import base option list_relations list.
From S2P Require Import Prelude Bytes Hash Hmap Csum Crc32c Ofpbuf.
#[local] Open Scope Z_scope.
#[local] Open Scope res_scope.

(** ** Byte order and field access *)

Definition htons (n : Z) : Z := u16 n / 2 ^ 8 + 2 ^ 8 * (u16 n mod 2 ^ 8).
Definition ntohs (n : Z) : Z := htons n.

(** A header pointer that must not be null. *)
Definition the (p : option Z) : Res Z :=
  match p with Some p => Ok p | None => Fault NullDeref end.

Definition ld8 (b : ofpbuf) (p : Z) : Res Z := rmap le_word (ld b p 1).
Definition ld16 (b : ofpbuf) (p : Z) : Res Z := rmap le_word (ld b p 2).
Definition st8 (b : ofpbuf) (p v : Z) : Res ofpbuf := st b p [u8 v].
Definition st16 (b : ofpbuf) (p v : Z) : Res ofpbuf := st b p (le16_bytes (u16 v)).

Definition get_16aligned_be32 (b : ofpbuf) (x : Z) : Res Z :=
  let* hi := ld16 b x in
  let* lo := ld16 b (x + 2) in
  Ok (Z.lor (u32 (Z.shiftl lo 16)) hi).

Definition put_16aligned_be32 (b : ofpbuf) (x value : Z) : Res ofpbuf :=
  let* b := st16 b x value in
  st16 b (x + 2) (Z.shiftr value 16).

(** ** Constants *)

Definition ETH_ADDR_LEN : Z := 6.
Definition ETH_HEADER_LEN : Z := 14.
Definition VLAN_HEADER_LEN : Z := 4.
Definition VLAN_ETH_HEADER_LEN : Z := 18.
Definition MPLS_HLEN : Z := 4.
Definition ARP_ETH_HEADER_LEN : Z := 28.

Definition ETH_TYPE_IP : Z := 0x0800.
Definition ETH_TYPE_ARP : Z := 0x0806.
Definition ETH_TYPE_VLAN : Z := 0x8100.
Definition ETH_TYPE_IPV6 : Z := 0x86dd.
Definition ETH_TYPE_RARP : Z := 0x8035.
Definition ETH_TYPE_MPLS : Z := 0x8847.
Definition ETH_TYPE_MPLS_MCAST : Z := 0x8848.

Definition VLAN_VID_MASK : Z := 0x0fff.
Definition VLAN_PCP_MASK : Z := 0xe000.
Definition VLAN_PCP_SHIFT : Z := 13.
Definition VLAN_CFI : Z := 0x1000.

Definition MPLS_TTL_MASK : Z := 0x000000ff.
Definition MPLS_TTL_SHIFT : Z := 0.
Definition MPLS_BOS_MASK : Z := 0x00000100.
Definition MPLS_BOS_SHIFT : Z := 8.
Definition MPLS_TC_MASK : Z := 0x00000e00.
Definition MPLS_TC_SHIFT : Z := 9.
Definition MPLS_LABEL_MASK : Z := 0xfffff000.
Definition MPLS_LABEL_SHIFT : Z := 12.

Definition IPV6_LABEL_MASK : Z := 0x000fffff.

(** Protocol numbers of [<netinet/in.h>]. *)
Definition IPPROTO_ICMP : Z := 1.
Definition IPPROTO_TCP : Z := 6.
Definition IPPROTO_UDP : Z := 17.
Definition IPPROTO_SCTP : Z := 132.
Definition IPPROTO_HOPOPTS : Z := 0.
Definition IPPROTO_ROUTING : Z := 43.
Definition IPPROTO_FRAGMENT : Z := 44.
Definition IPPROTO_AH : Z := 51.
Definition IPPROTO_ICMPV6 : Z := 58.
Definition IPPROTO_NONE : Z := 59.
Definition IPPROTO_DSTOPTS : Z := 60.

(** Field offsets of the C structures. *)
Definition eth_src_ofs : Z := 6.
Definition eth_type_ofs : Z := 12.
Definition veth_next_type_ofs : Z := 16.
Definition ip_tos_ofs : Z := 1.
Definition ip_tot_len_ofs : Z := 2.
Definition ip_frag_off_ofs : Z := 6.
Definition ip_ttl_ofs : Z := 8.
Definition ip_proto_ofs : Z := 9.
Definition ip_csum_ofs : Z := 10.
Definition ip_src_ofs : Z := 12.
Definition ip_dst_ofs : Z := 16.
Definition ip6_plen_ofs : Z := 4.
Definition ip6_nxt_ofs : Z := 6.
Definition ip6_hlim_ofs : Z := 7.
Definition ip6_src_ofs : Z := 8.
Definition ip6_dst_ofs : Z := 24.
Definition sizeof_ip6_hdr : Z := 40.
Definition tp_dst_ofs : Z := 2.
Definition tcp_ctl_ofs : Z := 12.
Definition tcp_csum_ofs : Z := 16.
Definition udp_csum_ofs : Z := 6.
Definition sctp_csum_ofs : Z := 8.

(** ** The program: VLAN tags *)

Definition eth_push_vlan (packet : ofpbuf) (tci : Z) : Res ofpbuf :=
  let eh := b_data packet in
  let* eth_dst := ld packet eh ETH_ADDR_LEN in
  let* eth_src := ld packet (eh + eth_src_ofs) ETH_ADDR_LEN in
  let* eth_type := ld16 packet (eh + eth_type_ofs) in
  let tmp := eth_dst ++ eth_src ++ le16_bytes (htons ETH_TYPE_VLAN)
             ++ le16_bytes (Z.land tci (htons (Z.lnot VLAN_CFI))) ++ le16_bytes eth_type in
  let* (veh, packet) := ofpbuf_push_uninit packet VLAN_HEADER_LEN in
  let* packet := st packet (snd veh) tmp in
  Ok (with_layers packet (Some (b_data packet)) (l2_5 packet) (l3 packet) (l4 packet) (l7 packet)).

Definition eth_pop_vlan (packet : ofpbuf) : Res ofpbuf :=
  if VLAN_ETH_HEADER_LEN <=? b_size packet then
    let* veh := the (l2 packet) in
    let* veth_type := ld16 packet (veh + eth_type_ofs) in
    if veth_type =? htons ETH_TYPE_VLAN then
      let* eth_dst := ld packet veh ETH_ADDR_LEN in
      let* eth_src := ld packet (veh + eth_src_ofs) ETH_ADDR_LEN in
      let* eth_type := ld packet (veh + veth_next_type_ofs) 2 in
      let tmp := eth_dst ++ eth_src ++ eth_type in
      let* (_, packet) := ofpbuf_pull packet VLAN_HEADER_LEN in
      let packet := with_layers packet (Some (veh + VLAN_HEADER_LEN)) (l2_5 packet) (l3 packet)
                      (l4 packet) (l7 packet) in
      st packet (b_data packet) tmp
    else Ok packet
  else Ok packet.

(** ** The program: MPLS label stack entries *)

Definition set_ethertype (packet : ofpbuf) (eth_type : Z) : Res ofpbuf :=
  let eh := b_data packet in
  let* t := ld16 packet (eh + eth_type_ofs) in
  if t =? htons ETH_TYPE_VLAN then
    let* p := the (match l2_5 packet with Some p => Some p | None => l3 packet end) in
    st16 packet (p - 2) eth_type
  else st16 packet (eh + eth_type_ofs) eth_type.

Definition is_mpls (packet : ofpbuf) : bool :=
  match l2_5 packet with Some _ => true | None => false end.

Definition eth_type_mpls (eth_type : Z) : bool :=
  (eth_type =? htons ETH_TYPE_MPLS) || (eth_type =? htons ETH_TYPE_MPLS_MCAST).

(** [*lse &= ~htonl(mask); *lse |= htonl((v << shift) & mask);] *)
Definition set_lse_field (lse mask v shift : Z) : Z :=
  let lse := Z.land lse (u32 (Z.lnot (htonl mask))) in
  Z.lor lse (htonl (Z.land (u32 (Z.shiftl v shift)) mask)).

Definition set_mpls_lse_ttl (lse ttl : Z) : Z := set_lse_field lse MPLS_TTL_MASK ttl MPLS_TTL_SHIFT.
Definition set_mpls_lse_tc (lse tc : Z) : Z := set_lse_field lse MPLS_TC_MASK tc MPLS_TC_SHIFT.
Definition set_mpls_lse_label (lse label : Z) : Z :=
  set_lse_field lse MPLS_LABEL_MASK (ntohl label) MPLS_LABEL_SHIFT.
Definition set_mpls_lse_bos (lse bos : Z) : Z := set_lse_field lse MPLS_BOS_MASK bos MPLS_BOS_SHIFT.

Definition set_mpls_lse_values (ttl tc bos label : Z) : Z :=
  let lse := htonl 0 in
  let lse := set_mpls_lse_ttl lse ttl in
  let lse := set_mpls_lse_tc lse tc in
  let lse := set_mpls_lse_bos lse bos in
  set_mpls_lse_label lse label.

Definition mpls_lse_to_label (lse : Z) : Z :=
  Z.shiftr (Z.land (ntohl lse) MPLS_LABEL_MASK) MPLS_LABEL_SHIFT.
Definition mpls_lse_to_tc (lse : Z) : Z :=
  Z.shiftr (Z.land (ntohl lse) MPLS_TC_MASK) MPLS_TC_SHIFT.
Definition mpls_lse_to_ttl (lse : Z) : Z :=
  Z.shiftr (Z.land (ntohl lse) MPLS_TTL_MASK) MPLS_TTL_SHIFT.
Definition mpls_lse_to_bos (lse : Z) : bool := negb (Z.land lse (htonl MPLS_BOS_MASK) =? 0).

(** [memmove] within the block of a packet. *)
Definition memmove (b : ofpbuf) (dst src n : Z) : Res ofpbuf :=
  let* l := slice (b_store b) src n in
  let* m := blit (b_store b) dst l in
  Ok (with_store b m).

(** [mh] is the label stack entry. *)
Definition push_mpls_lse (packet : ofpbuf) (mh : list Z) : Res ofpbuf :=
  let* (header, packet) := ofpbuf_push_uninit packet MPLS_HLEN in
  let* p25 := the (l2_5 packet) in
  let* p2 := the (l2 packet) in
  let len := p25 - p2 in
  let* packet := memmove packet (snd header) p2 len in
  let* packet := st packet (snd header + len) mh in
  Ok (with_layers packet (Some (p2 - MPLS_HLEN)) (Some (p25 - MPLS_HLEN)) (l3 packet) (l4 packet)
        (l7 packet)).

Definition set_mpls_lse (packet : ofpbuf) (mpls_lse : Z) : Res ofpbuf :=
  match l2_5 packet with
  | Some mh => put_16aligned_be32 packet mh mpls_lse
  | None => Ok packet
  end.

Definition le32_bytes (x : Z) : list Z := le16_bytes (x mod 2 ^ 16) ++ le16_bytes (x / 2 ^ 16).

Definition push_mpls (packet : ofpbuf) (ethtype lse : Z) : Res ofpbuf :=
  if negb (eth_type_mpls ethtype) then Ok packet
  else
    let* packet :=
      if negb (is_mpls packet) then
        let* packet := set_ethertype packet ethtype in
        Ok (with_layers packet (l2 packet) (l3 packet) (l3 packet) (l4 packet) (l7 packet))
      else Ok packet in
    push_mpls_lse packet (le32_bytes lse).

Definition pop_mpls (packet : ofpbuf) (ethtype : Z) : Res ofpbuf :=
  match l2_5 packet with
  | None => Ok packet
  | Some mh =>
      let* p2 := the (l2 packet) in
      let len := mh - p2 in
      let* packet := set_ethertype packet ethtype in
      let* lse := get_16aligned_be32 packet mh in
      let p25 := if negb (Z.land lse (htonl MPLS_BOS_MASK) =? 0) then None
                 else Some (mh + MPLS_HLEN) in
      let* packet := memmove packet (b_data packet + MPLS_HLEN) (b_data packet) len in
      let packet := with_extent packet (b_data packet + MPLS_HLEN) (u32 (b_size packet - MPLS_HLEN)) in
      Ok (with_layers packet (Some (p2 + MPLS_HLEN)) p25 (l3 packet) (l4 packet) (l7 packet))
  end.

(** ** The program: composing packets *)

(** The payload pointer, with the packet. *)
Definition eth_compose (b : ofpbuf) (eth_dst eth_src : list Z) (eth_type size : Z)
  : Res (ptr * ofpbuf) :=
  let b := ofpbuf_clear b in
  let* b := ofpbuf_prealloc_tailroom b (u32 (2 + ETH_HEADER_LEN + VLAN_HEADER_LEN + size)) in
  let* b := ofpbuf_reserve b (2 + VLAN_HEADER_LEN) in
  let* (eth, b) := ofpbuf_put_uninit b ETH_HEADER_LEN in
  let* (data, b) := ofpbuf_put_uninit b size in
  let* e := deref b eth in
  let* b := st b e eth_dst in
  let* b := st b (e + eth_src_ofs) eth_src in
  let* b := st16 b (e + eth_type_ofs) (htons eth_type) in
  Ok (data, with_layers b (Some e) (l2_5 b) (Some (snd data)) (l4 b) (l7 b)).

Definition compose_rarp (b : ofpbuf) (eth_src : list Z) : Res ofpbuf :=
  let b := ofpbuf_clear b in
  let* b := ofpbuf_prealloc_tailroom b (2 + ETH_HEADER_LEN + VLAN_HEADER_LEN + ARP_ETH_HEADER_LEN) in
  let* b := ofpbuf_reserve b (2 + VLAN_HEADER_LEN) in
  let* (eth, b) := ofpbuf_put_uninit b ETH_HEADER_LEN in
  let* b := st b (snd eth) (replicate 6 0xff) in
  let* b := st b (snd eth + eth_src_ofs) eth_src in
  let* b := st16 b (snd eth + eth_type_ofs) (htons ETH_TYPE_RARP) in
  let* (arp, b) := ofpbuf_put_uninit b ARP_ETH_HEADER_LEN in
  let* b := st16 b (snd arp) (htons 1) in
  let* b := st16 b (snd arp + 2) (htons 0x0800) in
  let* b := st8 b (snd arp + 4) 6 in
  let* b := st8 b (snd arp + 5) 4 in
  let* b := st16 b (snd arp + 6) (htons 3) in
  let* b := st b (snd arp + 8) eth_src in
  let* b := put_16aligned_be32 b (snd arp + 14) (htonl 0) in
  let* b := st b (snd arp + 18) eth_src in
  put_16aligned_be32 b (snd arp + 24) (htonl 0).

(** ** The program: IPv4 *)

(** The update of a transport checksum for a change of an IPv4 address; [upd]
    is the change, [recalc_csum32] or [recalc_csum128] with its operands. *)
Definition update_l4_csum (packet : ofpbuf) (proto : Z) (upd : Z -> Z) : Res ofpbuf :=
  match l7 packet with
  | None => Ok packet
  | Some _ =>
      if proto =? IPPROTO_TCP then
        let* th := the (l4 packet) in
        let* c := ld16 packet (th + tcp_csum_ofs) in
        st16 packet (th + tcp_csum_ofs) (upd c)
      else if proto =? IPPROTO_UDP then
        let* uh := the (l4 packet) in
        let* c := ld16 packet (uh + udp_csum_ofs) in
        if negb (c =? 0) then
          let c := upd c in
          st16 packet (uh + udp_csum_ofs) (if c =? 0 then htons 0xffff else c)
        else Ok packet
      else Ok packet
  end.

Definition packet_set_ipv4_addr (packet : ofpbuf) (addr new_addr : Z) : Res ofpbuf :=
  let* nh := the (l3 packet) in
  let* old_addr := get_16aligned_be32 packet addr in
  let* proto := ld8 packet (nh + ip_proto_ofs) in
  let* packet := update_l4_csum packet proto (fun c => recalc_csum32 c old_addr new_addr) in
  let* c := ld16 packet (nh + ip_csum_ofs) in
  let* packet := st16 packet (nh + ip_csum_ofs) (recalc_csum32 c old_addr new_addr) in
  put_16aligned_be32 packet addr new_addr.

Definition packet_set_ipv4 (packet : ofpbuf) (src dst tos ttl : Z) : Res ofpbuf :=
  let* nh := the (l3 packet) in
  let* s := get_16aligned_be32 packet (nh + ip_src_ofs) in
  let* packet := if negb (s =? src) then packet_set_ipv4_addr packet (nh + ip_src_ofs) src
                 else Ok packet in
  let* d := get_16aligned_be32 packet (nh + ip_dst_ofs) in
  let* packet := if negb (d =? dst) then packet_set_ipv4_addr packet (nh + ip_dst_ofs) dst
                 else Ok packet in
  let* t := ld8 packet (nh + ip_tos_ofs) in
  let* packet :=
    if negb (t =? tos) then
      let* c := ld16 packet (nh + ip_csum_ofs) in
      let* packet := st16 packet (nh + ip_csum_ofs) (recalc_csum16 c (htons t) (htons tos)) in
      st8 packet (nh + ip_tos_ofs) tos
    else Ok packet in
  let* t := ld8 packet (nh + ip_ttl_ofs) in
  if negb (t =? ttl) then
    let* c := ld16 packet (nh + ip_csum_ofs) in
    let* packet := st16 packet (nh + ip_csum_ofs)
                     (recalc_csum16 c (htons (Z.shiftl t 8)) (htons (Z.shiftl ttl 8))) in
    st8 packet (nh + ip_ttl_ofs) ttl
  else Ok packet.

(** ** The program: IPv6 *)

(** The walk over the extension headers; [fuel] bounds their number, each one
    taking at least eight of the [remaining] bytes. *)
Fixpoint rh_present_loop (fuel : nat) (packet : ofpbuf) (nexthdr data remaining : Z) {struct fuel}
  : Res bool :=
  if negb (nexthdr =? IPPROTO_HOPOPTS) && negb (nexthdr =? IPPROTO_ROUTING)
     && negb (nexthdr =? IPPROTO_DSTOPTS) && negb (nexthdr =? IPPROTO_AH)
     && negb (nexthdr =? IPPROTO_FRAGMENT)
  then Ok false
  else if remaining <? 8 then Ok false
  else
    let* nxt := ld8 packet data in
    let* ext_len := ld8 packet (data + 1) in
    let* segleft := ld8 packet (data + 3) in
    if (nexthdr =? IPPROTO_ROUTING) && (0 <? segleft) then Ok true
    else
      let len := if nexthdr =? IPPROTO_AH then (ext_len + 2) * 4
                 else if nexthdr =? IPPROTO_FRAGMENT then 8
                 else (ext_len + 1) * 8 in
      if remaining <? len then Ok false
      else match fuel with
           | O => Fault OutOfFuel
           | S fuel => rh_present_loop fuel packet nxt (data + len) (remaining - len)
           end.

Definition packet_rh_present (packet : ofpbuf) : Res bool :=
  let* p3 := the (l3 packet) in
  let* p4 := the (l4 packet) in
  let remaining := u32 (p4 - p3) in
  if remaining <? sizeof_ip6_hdr then Ok false
  else
    let* nexthdr := ld8 packet (p3 + ip6_nxt_ofs) in
    let remaining := remaining - sizeof_ip6_hdr in
    rh_present_loop (Z.to_nat (remaining / 8)) packet nexthdr (p3 + sizeof_ip6_hdr) remaining.

(** An IPv6 address is passed as its sixteen bytes. *)
Definition packet_update_csum128 (packet : ofpbuf) (proto addr : Z) (new_addr : list Z) : Res ofpbuf :=
  let* old := ld packet addr 16 in
  update_l4_csum packet proto (fun c => recalc_csum128 c (words32 old) (words32 new_addr)).

Definition packet_set_ipv6_addr (packet : ofpbuf) (proto addr : Z) (new_addr : list Z)
    (recalculate_csum : bool) : Res ofpbuf :=
  let* packet := if recalculate_csum then packet_update_csum128 packet proto addr new_addr
                 else Ok packet in
  st packet addr new_addr.

Definition packet_set_ipv6_flow_label (packet : ofpbuf) (flow_label flow_key : Z) : Res ofpbuf :=
  let* old_label := get_16aligned_be32 packet flow_label in
  let new_label := Z.lor (Z.land old_label (htonl (u32 (Z.lnot IPV6_LABEL_MASK)))) flow_key in
  put_16aligned_be32 packet flow_label new_label.

Definition packet_set_ipv6_tc (packet : ofpbuf) (flow_label tc : Z) : Res ofpbuf :=
  let* old_label := get_16aligned_be32 packet flow_label in
  let new_label := Z.lor (Z.land old_label (htonl 0xF00FFFFF)) (htonl (u32 (Z.shiftl tc 20))) in
  put_16aligned_be32 packet flow_label new_label.

Definition packet_set_ipv6 (packet : ofpbuf) (proto : Z) (src dst : list Z) (key_tc key_fl key_hl : Z)
  : Res ofpbuf :=
  let* nh := the (l3 packet) in
  let* s := ld packet (nh + ip6_src_ofs) 16 in
  let* packet := if negb (bool_decide (s = src))
                 then packet_set_ipv6_addr packet proto (nh + ip6_src_ofs) src true
                 else Ok packet in
  let* d := ld packet (nh + ip6_dst_ofs) 16 in
  let* packet := if negb (bool_decide (d = dst)) then
                   let* rh := packet_rh_present packet in
                   packet_set_ipv6_addr packet proto (nh + ip6_dst_ofs) dst (negb rh)
                 else Ok packet in
  let* packet := packet_set_ipv6_tc packet nh key_tc in
  let* packet := packet_set_ipv6_flow_label packet nh key_fl in
  st8 packet (nh + ip6_hlim_ofs) key_hl.

(** ** The program: transport ports *)

Definition packet_set_port (packet : ofpbuf) (port new_port csum : Z) : Res ofpbuf :=
  let* p := ld16 packet port in
  if negb (p =? new_port) then
    let* c := ld16 packet csum in
    let* packet := st16 packet csum (recalc_csum16 c p new_port) in
    st16 packet port new_port
  else Ok packet.

Definition packet_set_tcp_port (packet : ofpbuf) (src dst : Z) : Res ofpbuf :=
  let* th := the (l4 packet) in
  let* packet := packet_set_port packet th src (th + tcp_csum_ofs) in
  packet_set_port packet (th + tp_dst_ofs) dst (th + tcp_csum_ofs).

Definition packet_set_udp_port (packet : ofpbuf) (src dst : Z) : Res ofpbuf :=
  let* uh := the (l4 packet) in
  let* c := ld16 packet (uh + udp_csum_ofs) in
  if negb (c =? 0) then
    let* packet := packet_set_port packet uh src (uh + udp_csum_ofs) in
    let* packet := packet_set_port packet (uh + tp_dst_ofs) dst (uh + udp_csum_ofs) in
    let* c := ld16 packet (uh + udp_csum_ofs) in
    if c =? 0 then st16 packet (uh + udp_csum_ofs) (htons 0xffff) else Ok packet
  else
    let* packet := st16 packet uh src in
    st16 packet (uh + tp_dst_ofs) dst.

Definition packet_set_sctp_port (packet : ofpbuf) (src dst : Z) : Res ofpbuf :=
  let* sh := the (l4 packet) in
  let tp_len := u16 (b_size packet - (sh - b_data packet)) in
  let* old_csum := get_16aligned_be32 packet (sh + sctp_csum_ofs) in
  let* packet := put_16aligned_be32 packet (sh + sctp_csum_ofs) 0 in
  let* data := ld packet sh tp_len in
  let old_correct_csum := crc32c data in
  let* packet := st16 packet sh src in
  let* packet := st16 packet (sh + tp_dst_ofs) dst in
  let* data := ld packet sh tp_len in
  let new_csum := crc32c data in
  put_16aligned_be32 packet (sh + sctp_csum_ofs) (Z.lxor (Z.lxor old_csum old_correct_csum) new_csum).
