(* ===== verification/PacketsFacts.v ===== *)
(** * Packet headers: loads, stores and checksums of regions

    Lemmas on the bytes of a packet: a region of the packet, a field patched
    into it, and how the ones-complement sum of a region changes when bytes of
    it change.  The loads and stores of [Packets] are given in these terms. *)

From Stdlib Require Import ZArith Lia List.
From stdpp Require Import base option list_relations list.
From S2P Require Import Prelude Bytes Hash Csum Ofpbuf Packets.
#[local] Open Scope Z_scope.

Lemma u16_id x : in_u16 x -> u16 x = x.
Proof. apply Z.mod_small. Qed.

(** ** Regions *)

(** The [n] bytes from [o] on. *)
Definition region (o n : nat) (xs : list Z) : list Z := take n (drop o xs).

Lemma length_region o n xs : (o + n <= length xs)%nat -> length (region o n xs) = n.
Proof. intros. unfold region. rewrite length_take, length_drop. lia. Qed.

Lemma bytes_ok_region o n xs : bytes_ok xs -> bytes_ok (region o n xs).
Proof. intros H. unfold region, bytes_ok. by apply Forall_take, Forall_drop. Qed.

Lemma bytes_ok_patch k ys xs : bytes_ok ys -> bytes_ok xs -> bytes_ok (patch k ys xs).
Proof.
  intros Hy Hx. unfold patch, bytes_ok in *. rewrite !List.Forall_app.
  split_and!; [by apply Forall_take|done|by apply Forall_drop].
Qed.

Lemma lookup_region o n xs i : (i < n)%nat -> region o n xs !! i = xs !! (o + i)%nat.
Proof. intros. unfold region. rewrite lookup_take_lt, lookup_drop by done. done. Qed.

Lemma lookup_patch k (ys xs : list Z) i : (k + length ys <= length xs)%nat ->
  (i < k \/ k + length ys <= i)%nat -> patch k ys xs !! i = xs !! i.
Proof.
  intros Hl Hi. unfold patch. destruct Hi.
  - rewrite lookup_app_l by (rewrite length_take; lia). apply lookup_take_lt. lia.
  - rewrite lookup_app_r by (rewrite length_take; lia).
    rewrite lookup_app_r by (rewrite length_take; lia).
    rewrite length_take, lookup_drop. f_equal. lia.
Qed.

Lemma lookup_patch_in k (ys xs : list Z) i : (k + length ys <= length xs)%nat ->
  (i < length ys)%nat -> patch k ys xs !! (k + i)%nat = ys !! i.
Proof.
  intros Hl Hi. unfold patch. rewrite lookup_app_r by (rewrite length_take; lia).
  rewrite lookup_app_l by (rewrite length_take; lia). f_equal. rewrite length_take. lia.
Qed.

(** Two packets that agree on a region. *)
Lemma region_ext o n xs ys : length xs = length ys ->
  (forall i, (o <= i < o + n)%nat -> xs !! i = ys !! i) -> region o n xs = region o n ys.
Proof.
  intros Hl H. apply list_eq. intros i. destruct (Nat.lt_ge_cases i n).
  - rewrite !lookup_region by done. apply H. lia.
  - rewrite !lookup_ge_None_2; [done| |]; unfold region; rewrite length_take; lia.
Qed.

Lemma region_patch_out o n k ys xs : (k + length ys <= length xs)%nat ->
  (o + n <= k \/ k + length ys <= o)%nat -> region o n (patch k ys xs) = region o n xs.
Proof.
  intros Hl Hd. apply region_ext; [by apply length_patch|].
  intros i Hi. apply lookup_patch; [done|lia].
Qed.

Lemma region_patch_eq k ys xs : (k + length ys <= length xs)%nat ->
  region k (length ys) (patch k ys xs) = ys.
Proof.
  intros Hl. unfold region, patch. rewrite drop_app_length' by (rewrite length_take; lia).
  by rewrite take_app_length.
Qed.

Lemma region_patch_in o n k ys xs : (o <= k)%nat -> (k + length ys <= o + n)%nat ->
  (o + n <= length xs)%nat ->
  region o n (patch k ys xs) = patch (k - o) ys (region o n xs).
Proof.
  intros H1 H2 H3.
  assert (Hl : length (region o n xs) = n) by (apply length_region; lia).
  apply list_eq. intros i. destruct (Nat.lt_ge_cases i n) as [Hi|Hi].
  - rewrite lookup_region by done.
    destruct (decide (i < k - o \/ k - o + length ys <= i)%nat) as [Hd|Hd].
    + rewrite !lookup_patch by lia. by rewrite lookup_region.
    + replace (o + i)%nat with (k + (i - (k - o)))%nat by lia.
      rewrite lookup_patch_in by lia. replace i with (k - o + (i - (k - o)))%nat at 2 by lia.
      by rewrite lookup_patch_in by lia.
  - rewrite !lookup_ge_None_2; [done| |].
    + rewrite length_patch by lia. lia.
    + rewrite length_region; [lia|]. rewrite length_patch by lia. lia.
Qed.

(** ** Sums of regions *)

(** The sum with every second byte weighted by 256, the odd ones first when
    [odd] holds. *)
Fixpoint wsum (odd : bool) (l : list Z) : Z :=
  match l with
  | [] => 0
  | b :: l => (if odd then 2 ^ 8 * b else b) + wsum (negb odd) l
  end.

Lemma sum16_wsum l : sum16 l = wsum false l.
Proof.
  unfold sum16, sum_list. induction l as [|b|b0 b1 l IH] using pairs_ind; [done|simpl; lia|].
  cbn [words16 foldr wsum negb]. rewrite IH, le_word2. lia.
Qed.

Lemma wsum_app odd l1 l2 : wsum odd (l1 ++ l2) = wsum odd l1 + wsum (xorb odd (Nat.odd (length l1))) l2.
Proof.
  revert odd. induction l1 as [|b l1 IH]; intros odd.
  - simpl. by rewrite xorb_false_r.
  - cbn [app wsum length]. rewrite IH, Nat.odd_succ, <- Nat.negb_odd.
    replace (xorb (negb odd) (Nat.odd (length l1))) with (xorb odd (negb (Nat.odd (length l1))))
      by (by destruct odd, (Nat.odd (length l1))). lia.
Qed.

Lemma wsum_patch k ys l : (k + length ys <= length l)%nat ->
  wsum false (patch k ys l) =
    wsum false l - wsum (Nat.odd k) (region k (length ys) l) + wsum (Nat.odd k) ys.
Proof.
  intros Hl.
  assert (E : l = patch k (region k (length ys) l) l).
  { unfold patch, region. rewrite length_take, length_drop.
    replace (min (length ys) (length l - k)) with (length ys) by lia.
    rewrite <- (take_drop k l) at 1. f_equal.
    rewrite <- (take_drop (length ys) (drop k l)) at 1. f_equal. rewrite drop_drop. done. }
  rewrite E at 2. unfold patch. rewrite length_region by lia.
  rewrite !wsum_app, length_region by lia. rewrite !length_take_le by lia.
  rewrite !xorb_false_l. lia.
Qed.

(** The sum of a region. *)
Definition rsum (o n : nat) (xs : list Z) : Z := sum16 (region o n xs).

Lemma rsum_patch_in o n k ys xs : (o <= k)%nat -> (k + length ys <= o + n)%nat ->
  (o + n <= length xs)%nat ->
  rsum o n (patch k ys xs) =
    rsum o n xs - wsum (Nat.odd (k - o)) (region k (length ys) xs) + wsum (Nat.odd (k - o)) ys.
Proof.
  intros H1 H2 H3. unfold rsum. rewrite region_patch_in, !sum16_wsum by done.
  rewrite wsum_patch by (rewrite length_region; lia). do 3 f_equal.
  unfold region. rewrite skipn_firstn_comm, take_take, drop_drop. f_equal; [lia|f_equal; lia].
Qed.

Lemma rsum_patch_out o n k ys xs : (k + length ys <= length xs)%nat ->
  (o + n <= k \/ k + length ys <= o)%nat -> rsum o n (patch k ys xs) = rsum o n xs.
Proof. intros. unfold rsum. by rewrite region_patch_out. Qed.

(** ** Updates of checksums, modulo 65535 *)

(** Equality of ones-complement sums. *)
Definition cong (x y : Z) : Prop := x mod 65535 = y mod 65535.

#[global] Instance cong_equiv : Equivalence cong.
Proof. split; unfold cong; repeat intro; congruence. Qed.
#[global] Instance cong_add : Proper (cong ==> cong ==> cong) Z.add.
Proof.
  intros x x' Hx y y' Hy. unfold cong in *. rewrite Z.add_mod by lia.
  rewrite Hx, Hy. by rewrite <- Z.add_mod by lia.
Qed.
#[global] Instance cong_sub : Proper (cong ==> cong ==> cong) Z.sub.
Proof. intros x x' Hx y y' Hy. unfold cong in *. by rewrite Zminus_mod, Hx, Hy, <- Zminus_mod. Qed.

Lemma cong_ones x : 0 <= x -> cong (ones x) x.
Proof. apply ones_mod. Qed.

Lemma cong_mult x k : cong (x + 65535 * k) x.
Proof. unfold cong. rewrite Z.mul_comm. by apply Z.mod_add. Qed.

Lemma recalc_csum16_u16 c o n : in_u16 c -> in_u16 o -> in_u16 n -> in_u16 (recalc_csum16 c o n).
Proof.
  unfold in_u16. intros. unfold recalc_csum16. rewrite !u16_lnot by done.
  rewrite u32_id by (unfold in_u32; lia). rewrite csum_finish_spec by (unfold in_u32; lia).
  pose proof (ones_range (65535 - c + (65535 - o) + n) ltac:(lia)). lia.
Qed.

(** The new checksum with the new field sums to the old one with the old field. *)
Lemma recalc_csum16_cong c o n : in_u16 c -> in_u16 o -> in_u16 n ->
  cong (recalc_csum16 c o n + n) (c + o).
Proof.
  unfold in_u16. intros. unfold recalc_csum16. rewrite !u16_lnot by done.
  rewrite u32_id by (unfold in_u32; lia). rewrite csum_finish_spec by (unfold in_u32; lia).
  rewrite cong_ones by lia.
  replace (65535 - (65535 - c + (65535 - o) + n) + n) with (c + o + 65535 * -1) by lia.
  apply cong_mult.
Qed.

Lemma le_word_split w : in_u32 w -> in_u16 (u16 w) /\ in_u16 (u16 (Z.shiftr w 16)) /\
  u16 w + u16 (Z.shiftr w 16) = wsum false (le32_bytes w).
Proof.
  intros Hw. split; [apply u16_range|]. split; [apply u16_range|].
  rewrite Z.shiftr_div_pow2 by lia. unfold in_u32, u16 in *.
  assert (w / 2 ^ 16 < 2 ^ 16) by zdm. rewrite (Z.mod_small (w / 2 ^ 16)) by zdm.
  unfold le32_bytes, le16_bytes. cbn [wsum app negb]. zdm.
Qed.

Lemma recalc_csum32_cong c o n : in_u16 c -> in_u32 o -> in_u32 n ->
  in_u16 (recalc_csum32 c o n) /\
  cong (recalc_csum32 c o n + wsum false (le32_bytes n)) (c + wsum false (le32_bytes o)).
Proof.
  intros Hc Ho Hn. destruct (le_word_split o Ho) as (O1 & O2 & Eo).
  destruct (le_word_split n Hn) as (N1 & N2 & En). rewrite <- Eo, <- En. unfold recalc_csum32.
  set (c1 := recalc_csum16 c (u16 o) (u16 n)).
  assert (H1 : in_u16 c1) by (by apply recalc_csum16_u16).
  split; [by apply recalc_csum16_u16|].
  pose proof (recalc_csum16_cong c _ _ Hc O1 N1) as E1. fold c1 in E1.
  pose proof (recalc_csum16_cong c1 _ _ H1 O2 N2) as E2.
  set (ol := u16 o) in *. set (oh := u16 (Z.shiftr o 16)) in *.
  set (nl := u16 n) in *. set (nh := u16 (Z.shiftr n 16)) in *.
  set (c2 := recalc_csum16 c1 oh nh) in *. clearbody c1 c2 ol oh nl nh.
  replace (c2 + (nl + nh)) with (c2 + nh + nl) by lia. rewrite E2.
  replace (c1 + oh + nl) with (c1 + nl + oh) by lia. rewrite E1.
  by replace (c + ol + oh) with (c + (ol + oh)) by lia.
Qed.

Lemma le32_bytes_le_word b0 b1 b2 b3 : bytes_ok [b0; b1; b2; b3] ->
  le32_bytes (le_word [b0; b1; b2; b3]) = [b0; b1; b2; b3].
Proof.
  intros (H0 & H1 & (H2 & H3 & _)%bytes_ok_2)%bytes_ok_2. unfold in_u8 in *.
  unfold le32_bytes. rewrite le_word4.
  rewrite split16_lo, split16_hi by (rewrite le_word2; lia).
  unfold le16_bytes. rewrite !le_word2. cbn [app]. repeat f_equal; zdm.
Qed.

Lemma le_word_le32 w : in_u32 w -> le_word (le32_bytes w) = w.
Proof.
  intros Hw. unfold in_u32 in Hw. unfold le32_bytes, le16_bytes. cbn [app].
  rewrite le_word4, !le_word2. zdm.
Qed.

Lemma le_word4_u32 b0 b1 b2 b3 : bytes_ok [b0; b1; b2; b3] -> in_u32 (le_word [b0; b1; b2; b3]).
Proof. intros H. apply le_word_u32; [done|simpl; lia]. Qed.

Lemma recalc_csum128_loop_cong old : forall new c, in_u16 c -> bytes_ok old -> bytes_ok new ->
  (length old mod 4 = 0)%nat -> length new = length old ->
  let c' := recalc_csum128_loop c (words32 old) (words32 new) in
  in_u16 c' /\ cong (c' + wsum false new) (c + wsum false old).
Proof.
  induction old as [old Hs|b0 b1 b2 b3 old IH] using words_ind; intros new c Hc Ho Hn Hm Hl.
  - rewrite Nat.mod_small in Hm by done. apply nil_length_inv in Hm as ->.
    by apply nil_length_inv in Hl as ->.
  - destruct new as [|d0 [|d1 [|d2 [|d3 new]]]]; try discriminate Hl.
    change (b0 :: b1 :: b2 :: b3 :: old) with ([b0; b1; b2; b3] ++ old) in *.
    change (d0 :: d1 :: d2 :: d3 :: new) with ([d0; d1; d2; d3] ++ new) in *.
    unfold bytes_ok in Ho, Hn. apply List.Forall_app in Ho as [Ho1 Ho2], Hn as [Hn1 Hn2].
    cbn [app words32 recalc_csum128_loop].
    destruct (recalc_csum32_cong c (le_word [b0; b1; b2; b3]) (le_word [d0; d1; d2; d3]) Hc)
      as [H1 E1]; [by apply le_word4_u32..|].
    rewrite !le32_bytes_le_word in E1 by done.
    destruct (IH new _ H1 Ho2 Hn2) as [H2 E2].
    { rewrite length_app in Hm. simpl length in Hm.
      replace (4 + length old)%nat with (length old + 1 * 4)%nat in Hm by lia.
      by rewrite Nat.Div0.mod_add in Hm. }
    { rewrite !length_app in Hl. simpl in Hl. lia. }
    split; [done|]. change (d0 :: d1 :: d2 :: d3 :: new) with ([d0; d1; d2; d3] ++ new).
    change (b0 :: b1 :: b2 :: b3 :: old) with ([b0; b1; b2; b3] ++ old).
    rewrite !wsum_app. simpl Nat.odd. simpl xorb.
    match goal with |- cong (?x + (?y + ?z)) _ => replace (x + (y + z)) with (x + z + y) by lia end.
    rewrite E2.
    match goal with |- cong (?x + ?y + ?z) _ => replace (x + y + z) with (x + z + y) by lia end.
    rewrite E1. by rewrite Z.add_assoc.
Qed.

Lemma take4_words32 l : length l = 16%nat -> take 4 (words32 l) = words32 l.
Proof. intros Hl. do 17 (destruct l as [|? l]; try discriminate Hl). reflexivity. Qed.

Lemma recalc_csum128_cong c old new : in_u16 c -> bytes_ok old -> bytes_ok new ->
  length old = 16%nat -> length new = 16%nat ->
  let c' := recalc_csum128 c (words32 old) (words32 new) in
  in_u16 c' /\ cong (c' + wsum false new) (c + wsum false old).
Proof.
  intros Hc Ho Hn L1 L2. unfold recalc_csum128. rewrite !take4_words32 by done.
  apply recalc_csum128_loop_cong; [done..|rewrite L1; reflexivity|congruence].
Qed.

(** ** Loads and stores *)

Section Access.
Context (b : ofpbuf) (xs : list Z) (Hh : holds b xs).

Lemma ld_at k n p m : p = b_data b + Z.of_nat k -> m = Z.of_nat n -> (k + n <= length xs)%nat ->
  ld b p m = Ok (region k n xs).
Proof. intros -> -> Hk. by apply ld_holds. Qed.

Lemma ld8_at k p : p = b_data b + Z.of_nat k -> (k + 1 <= length xs)%nat ->
  ld8 b p = Ok (le_word (region k 1 xs)).
Proof. intros E Hk. unfold ld8. by rewrite (ld_at k 1) by done. Qed.

Lemma ld16_at k p : p = b_data b + Z.of_nat k -> (k + 2 <= length xs)%nat ->
  ld16 b p = Ok (le_word (region k 2 xs)).
Proof. intros E Hk. unfold ld16. by rewrite (ld_at k 2) by done. Qed.

Lemma region_4 k : bytes_ok xs -> (k + 4 <= length xs)%nat ->
  exists b0 b1 b2 b3, region k 4 xs = [b0; b1; b2; b3] /\ region k 2 xs = [b0; b1] /\
    region (k + 2) 2 xs = [b2; b3] /\ bytes_ok [b0; b1; b2; b3].
Proof.
  intros Hb Hk. pose proof (length_region k 4 xs Hk) as Hl.
  pose proof (bytes_ok_region k 4 xs Hb) as Hr. remember (region k 4 xs) as r eqn:E.
  destruct r as [|b0 [|b1 [|b2 [|b3 [|]]]]]; try discriminate Hl.
  exists b0, b1, b2, b3. split; [done|]. split; [|split; [|done]].
  - change (region k 2 xs) with (take 2 (drop k xs)).
    replace (take 2 (drop k xs)) with (take 2 (region k 4 xs)); [by rewrite <- E|].
    unfold region. by rewrite take_take.
  - replace (region (k + 2) 2 xs) with (drop 2 (region k 4 xs)); [by rewrite <- E|].
    unfold region. by rewrite skipn_firstn_comm, drop_drop.
Qed.

Lemma get_be32_at k p : bytes_ok xs -> p = b_data b + Z.of_nat k -> (k + 4 <= length xs)%nat ->
  get_16aligned_be32 b p = Ok (le_word (region k 4 xs)).
Proof.
  intros Hb E Hk. unfold get_16aligned_be32.
  destruct (region_4 k Hb Hk) as (b0 & b1 & b2 & b3 & E4 & E2 & E2' & Hbs).
  rewrite (ld16_at k) by (done || lia). cbn [rbind].
  rewrite (ld16_at (k + 2)) by lia. cbn [rbind]. rewrite E4, E2, E2'. f_equal.
  apply bytes_ok_2 in Hbs as (H0 & H1 & (H2 & H3 & _)%bytes_ok_2).
  pose proof (le_word16_range _ _ H0 H1) as W1. pose proof (le_word16_range _ _ H2 H3) as W2.
  unfold in_u16 in *. rewrite u32_id
    by (unfold in_u32; rewrite Z.shiftl_mul_pow2 by lia; lia).
  rewrite lor_add_disjoint by lia. rewrite le_word4. lia.
Qed.

Lemma st_at k p bs : p = b_data b + Z.of_nat k -> (k + length bs <= length xs)%nat ->
  exists b', st b p bs = Ok b' /\ holds b' (patch k bs xs) /\ same_frame b b'.
Proof. intros -> Hk. by apply st_holds. Qed.

Lemma st8_at k p v : p = b_data b + Z.of_nat k -> (k + 1 <= length xs)%nat -> in_u8 v ->
  exists b', st8 b p v = Ok b' /\ holds b' (patch k [v] xs) /\ same_frame b b'.
Proof.
  intros E Hk Hv. unfold st8, u8. rewrite Z.mod_small by done. by apply st_at.
Qed.

Lemma st16_at k p v : p = b_data b + Z.of_nat k -> (k + 2 <= length xs)%nat -> in_u16 v ->
  exists b', st16 b p v = Ok b' /\ holds b' (patch k (le16_bytes v) xs) /\ same_frame b b'.
Proof.
  intros E Hk Hv. unfold st16. rewrite u16_id by done.
  by apply st_at.
Qed.

End Access.

(** Two stores side by side are one. *)
Lemma patch_adjacent k (ys zs xs : list Z) : (k + length ys + length zs <= length xs)%nat ->
  patch (k + length ys) zs (patch k ys xs) = patch k (ys ++ zs) xs.
Proof.
  intros Hl. apply list_eq. intros i.
  assert (L1 : length (patch k ys xs) = length xs) by (apply length_patch; lia).
  destruct (decide (i < k)%nat); [rewrite !lookup_patch by (rewrite ?length_app; lia); done|].
  destruct (decide (i < k + length ys)%nat).
  { rewrite lookup_patch by lia. replace i with (k + (i - k))%nat by lia.
    rewrite !lookup_patch_in by (rewrite ?length_app; lia). by rewrite lookup_app_l by lia. }
  destruct (decide (i < k + length ys + length zs)%nat).
  { replace i with (k + length ys + (i - k - length ys))%nat at 1 by lia.
    rewrite lookup_patch_in by lia. replace i with (k + (i - k))%nat at 2 by lia.
    rewrite lookup_patch_in by (rewrite ?length_app; lia). rewrite lookup_app_r by lia.
    f_equal; lia. }
  rewrite !lookup_patch by (rewrite ?length_app; lia). done.
Qed.

Lemma put_be32_at b xs k p v : holds b xs -> p = b_data b + Z.of_nat k ->
  (k + 4 <= length xs)%nat -> in_u32 v ->
  exists b', put_16aligned_be32 b p v = Ok b' /\ holds b' (patch k (le32_bytes v) xs) /\
    same_frame b b'.
Proof.
  intros Hh E Hk Hv. unfold put_16aligned_be32, st16.
  destruct (st_at b xs Hh k p (le16_bytes (u16 v)) E) as (b1 & E1 & H1 & F1); [simpl; lia|].
  rewrite E1. cbn [rbind]. pose proof F1 as (_ & _ & Fd & _).
  destruct (st_at b1 _ H1 (k + 2) (p + 2) (le16_bytes (u16 (Z.shiftr v 16)))) as (b2 & E2 & H2 & F2).
  { rewrite Fd. lia. }
  { rewrite length_patch by (simpl; lia). simpl. lia. }
  rewrite E2. exists b2. split; [done|]. split; [|by eapply same_frame_trans].
  replace (le32_bytes v) with (le16_bytes (u16 v) ++ le16_bytes (u16 (Z.shiftr v 16))).
  - rewrite <- patch_adjacent by (simpl; lia). exact H2.
  - unfold le32_bytes. rewrite Z.shiftr_div_pow2 by lia. unfold u16, in_u32 in *.
    do 2 f_equal. apply Z.mod_small. zdm.
Qed.
