(* ===== verification/PacketsProps.v ===== *)
(** * Packet headers: what rewriting a packet preserves

    The theorems on [Packets]: rewriting IPv4 fields keeps the header checksum
    and the transport checksum right, VLAN tags and MPLS entries that are
    pushed can be popped, and the helpers on masks and addresses. *)

From Stdlib Require Import ZArith Lia List.
From stdpp Require Import base option list_relations list.
From S2P Require Import Prelude Bytes Hash Hmap Csum Crc32c Ofpbuf Packets PacketsFacts.
#[local] Open Scope Z_scope.
#[local] Open Scope res_scope.

(** A 16-bit field. *)
Definition f16 (k : nat) (xs : list Z) : Z := le_word (region k 2 xs).

Lemma region_2 k xs : (k + 2 <= length xs)%nat -> exists b0 b1, region k 2 xs = [b0; b1].
Proof.
  intros Hk. pose proof (length_region k 2 xs Hk) as Hl.
  destruct (region k 2 xs) as [|b0 [|b1 [|]]]; try discriminate Hl. eauto.
Qed.

Lemma region_1 k xs : (k + 1 <= length xs)%nat -> exists b0, region k 1 xs = [b0].
Proof.
  intros Hk. pose proof (length_region k 1 xs Hk) as Hl.
  destruct (region k 1 xs) as [|b0 [|]]; try discriminate Hl. eauto.
Qed.

Lemma f16_wsum k xs : (k + 2 <= length xs)%nat -> wsum false (region k 2 xs) = f16 k xs.
Proof.
  intros Hk. unfold f16. destruct (region_2 k xs Hk) as (b0 & b1 & ->).
  rewrite le_word2. simpl. lia.
Qed.

Lemma f16_u16 k xs : bytes_ok xs -> (k + 2 <= length xs)%nat -> in_u16 (f16 k xs).
Proof.
  intros Hb Hk. pose proof (bytes_ok_region k 2 xs Hb) as Hr. unfold f16.
  destruct (region_2 k xs Hk) as (b0 & b1 & E). rewrite E in *.
  apply bytes_ok_2 in Hr as (? & ? & _). by apply le_word16_range.
Qed.

Lemma wsum_le16 x : in_u16 x -> wsum false (le16_bytes x) = x.
Proof. intros Hx. rewrite <- sum16_wsum. by apply sum16_le16. Qed.

Lemma f16_patch_eq k x xs : in_u16 x -> (k + 2 <= length xs)%nat ->
  f16 k (patch k (le16_bytes x) xs) = x.
Proof.
  intros Hx Hk. unfold f16. change 2%nat with (length (le16_bytes x)).
  rewrite region_patch_eq by (simpl; lia). by apply le_word_le16.
Qed.

Lemma u32_region4 k xs : bytes_ok xs -> (k + 4 <= length xs)%nat -> in_u32 (le_word (region k 4 xs)).
Proof.
  intros Hb Hk. apply le_word_u32; [by apply bytes_ok_region|]. rewrite length_region; lia.
Qed.

Lemma le32_region k xs : bytes_ok xs -> (k + 4 <= length xs)%nat ->
  le32_bytes (le_word (region k 4 xs)) = region k 4 xs.
Proof.
  intros Hb Hk. destruct (region_4 xs k Hb Hk) as (b0 & b1 & b2 & b3 & -> & _ & _ & H).
  by apply le32_bytes_le_word.
Qed.

Lemma le32_bytes_ok w : in_u32 w -> bytes_ok (le32_bytes w).
Proof.
  intros Hw. unfold in_u32, le32_bytes, bytes_ok in *. rewrite List.Forall_app.
  split; apply le16_bytes_ok; unfold in_u16; zdm.
Qed.

Lemma Nat_odd_even2 k : Nat.odd (2 * k) = false.
Proof. by rewrite Nat.odd_mul. Qed.

(** ** The IPv4 header and the transport checksum *)

(** Where the transport checksum is, from the start of the segment. *)
Definition tp_csum_ofs (proto : Z) (l7 : option Z) : option nat :=
  match l7 with
  | None => None
  | Some _ => if proto =? IPPROTO_TCP then Some 16%nat
              else if proto =? IPPROTO_UDP then Some 6%nat else None
  end.

(** The geometry of an IPv4 packet: header at [n3] with [hl] bytes, segment at
    [n4] with [sl] bytes. *)
Record ipv4_geom (b : ofpbuf) (xs : list Z) (n3 n4 hl sl : nat) (proto : Z) : Prop := {
  ig_l3 : l3 b = Some (b_data b + Z.of_nat n3);
  ig_hl : (20 <= hl)%nat;
  ig_n4 : (n3 + hl <= n4)%nat;
  ig_len : (n4 + sl <= length xs)%nat;
  ig_proto : region (n3 + 9) 1 xs = [proto];
  ig_l4 : forall co, tp_csum_ofs proto (l7 b) = Some co ->
    l4 b = Some (b_data b + Z.of_nat n4) /\ (co + 2 <= sl)%nat
}.

(** The bytes that the transport checksum covers and that change: the addresses
    and the segment. *)
Definition l4sum (n3 n4 sl : nat) (xs : list Z) : Z :=
  wsum false (region (n3 + 12) 8 xs) + rsum n4 sl xs.

(** A UDP segment without a checksum. *)
Definition udp_none (proto : Z) (n4 co : nat) (xs : list Z) : bool :=
  (proto =? IPPROTO_UDP) && (f16 (n4 + co) xs =? 0).

(** A rewritten packet: the header still sums to the same, and so does what the
    transport checksum covers; a UDP segment keeps having or not having a
    checksum. *)
Record ipv4_same (b : ofpbuf) (n3 n4 hl sl : nat) (proto : Z) (xs ys : list Z) : Prop := {
  is_len : length ys = length xs;
  is_bytes : bytes_ok ys;
  is_hdr : cong (rsum n3 hl ys) (rsum n3 hl xs);
  is_l4 : forall co, tp_csum_ofs proto (l7 b) = Some co ->
    udp_none proto n4 co ys = udp_none proto n4 co xs /\
    (udp_none proto n4 co xs = false -> cong (l4sum n3 n4 sl ys) (l4sum n3 n4 sl xs));
  is_rest : forall i, xs !! i <> ys !! i ->
    (i = n3 + 1 \/ i = n3 + 8 \/ n3 + 10 <= i < n3 + 20 \/
     exists co, tp_csum_ofs proto (l7 b) = Some co /\ n4 + co <= i < n4 + co + 2)%nat
}.

Lemma ipv4_same_refl b n3 n4 hl sl proto xs : bytes_ok xs -> ipv4_same b n3 n4 hl sl proto xs xs.
Proof. intros Hb. split; try done. Qed.

Lemma ipv4_same_trans b n3 n4 hl sl proto xs ys zs :
  ipv4_same b n3 n4 hl sl proto xs ys -> ipv4_same b n3 n4 hl sl proto ys zs ->
  ipv4_same b n3 n4 hl sl proto xs zs.
Proof.
  intros [A1 A2 A3 A4 A5] [B1 B2 B3 B4 B5]. split; [congruence|done|by rewrite B3| |].
  - intros co Hco. destruct (A4 co Hco) as [E1 C1], (B4 co Hco) as [E2 C2].
    split; [congruence|]. intros Hu. rewrite C2 by congruence. by apply C1.
  - intros i Hi. destruct (decide (xs !! i = ys !! i)) as [E|E]; [|by apply A5].
    apply B5. congruence.
Qed.

(** The geometry depends on the frame of the buffer only. *)
Lemma ipv4_geom_frame b b' xs ys n3 n4 hl sl proto :
  same_frame b b' -> length ys = length xs -> region (n3 + 9) 1 ys = region (n3 + 9) 1 xs ->
  ipv4_geom b xs n3 n4 hl sl proto -> ipv4_geom b' ys n3 n4 hl sl proto.
Proof.
  intros (F1 & F2 & F3 & F4 & F5 & F6 & F7 & F8 & F9 & F10) Hl Hp [G1 G2 G3 G4 G5 G6].
  split; try done; try congruence; try lia. intros co. rewrite F9, F8, F3. apply G6.
Qed.

Lemma ipv4_same_frame b b' n3 n4 hl sl proto xs ys : same_frame b b' ->
  ipv4_same b' n3 n4 hl sl proto xs ys -> ipv4_same b n3 n4 hl sl proto xs ys.
Proof.
  intros (F1 & F2 & F3 & F4 & F5 & F6 & F7 & F8 & F9 & F10) [A1 A2 A3 A4 A5].
  rewrite F9 in A4, A5. by split.
Qed.

Lemma ipv4_same_proto b n3 n4 hl sl proto xs ys :
  ipv4_geom b xs n3 n4 hl sl proto -> ipv4_same b n3 n4 hl sl proto xs ys ->
  region (n3 + 9) 1 ys = region (n3 + 9) 1 xs.
Proof.
  intros G S. apply region_ext; [apply (is_len _ _ _ _ _ _ _ _ S)|].
  intros i Hi. destruct (decide (xs !! i = ys !! i)) as [E|E]; [done|].
  apply (is_rest _ _ _ _ _ _ _ _ S) in E.
  pose proof (ig_n4 _ _ _ _ _ _ _ G). pose proof (ig_hl _ _ _ _ _ _ _ G).
  destruct E as [?|[?|[?|(co & _ & ?)]]]; lia.
Qed.

(** *** The transport checksum *)

Definition l4_updated (b : ofpbuf) (n4 : nat) (proto old new : Z) (ys ys' : list Z) : Prop :=
  match tp_csum_ofs proto (l7 b) with
  | None => ys' = ys
  | Some co =>
      if udp_none proto n4 co ys then ys' = ys
      else exists c', in_u16 c' /\ ys' = patch (n4 + co) (le16_bytes c') ys /\
             cong (c' + new) (f16 (n4 + co) ys + old) /\ (proto = IPPROTO_UDP -> c' <> 0)
  end.

Lemma update_l4_csum_spec b ys upd old new n3 n4 hl sl proto :
  holds b ys -> bytes_ok ys -> ipv4_geom b ys n3 n4 hl sl proto ->
  (forall c, in_u16 c -> in_u16 (upd c) /\ cong (upd c + new) (c + old)) ->
  exists b' ys', update_l4_csum b proto upd = Ok b' /\ holds b' ys' /\ same_frame b b' /\
    l4_updated b n4 proto old new ys ys'.
Proof.
  intros Hh Hb G Hupd. pose proof (ig_l4 _ _ _ _ _ _ _ G) as G4.
  pose proof (ig_len _ _ _ _ _ _ _ G) as GL.
  unfold update_l4_csum, l4_updated. unfold tp_csum_ofs in *. destruct (l7 b) as [p7|].
  2:{ exists b, ys. by split_and!; try apply same_frame_refl. }
  destruct (Z.eqb_spec proto IPPROTO_TCP) as [->|Ht].
  { destruct (G4 _ eq_refl) as [E4 Hs]. rewrite E4. cbn [the rbind].
    rewrite (ld16_at b ys Hh (n4 + 16)) by (unfold tcp_csum_ofs; lia). cbn [rbind].
    fold (f16 (n4 + 16) ys). pose proof (f16_u16 (n4 + 16) ys Hb ltac:(lia)) as Hc.
    destruct (Hupd _ Hc) as [Hu Hcg].
    destruct (st16_at b ys Hh (n4 + 16) (b_data b + Z.of_nat n4 + tcp_csum_ofs)
                (upd (f16 (n4 + 16) ys))) as (b' & E & H' & F);
      [unfold tcp_csum_ofs; lia|lia|done|].
    exists b', (patch (n4 + 16) (le16_bytes (upd (f16 (n4 + 16) ys))) ys).
    split_and!; [exact E|done|done|].
    change (udp_none IPPROTO_TCP n4 16 ys) with false. cbv iota.
    eexists. split_and!; [exact Hu|done|exact Hcg|discriminate]. }
  destruct (Z.eqb_spec proto IPPROTO_UDP) as [->|Hn].
  2:{ exists b, ys. by split_and!; try apply same_frame_refl. }
  destruct (G4 _ eq_refl) as [E4 Hs]. rewrite E4. cbn [the rbind].
  rewrite (ld16_at b ys Hh (n4 + 6)) by (unfold udp_csum_ofs; lia). cbn [rbind].
  fold (f16 (n4 + 6) ys). pose proof (f16_u16 (n4 + 6) ys Hb ltac:(lia)) as Hc.
  destruct (Hupd _ Hc) as [Hu Hcg].
  assert (Eu : udp_none IPPROTO_UDP n4 6 ys = (f16 (n4 + 6) ys =? 0)) by done. rewrite Eu.
  destruct (Z.eqb_spec (f16 (n4 + 6) ys) 0) as [Ez|Ez]; simpl negb; cbv iota.
  { exists b, ys. by split_and!; try apply same_frame_refl. }
  set (c' := if upd (f16 (n4 + 6) ys) =? 0 then htons 0xffff else upd (f16 (n4 + 6) ys)).
  assert (Hc' : in_u16 c' /\ c' <> 0 /\ cong (c' + new) (f16 (n4 + 6) ys + old)).
  { unfold c'. destruct (Z.eqb_spec (upd (f16 (n4 + 6) ys)) 0) as [Hz|]; [|by split_and!]. change (htons 0xffff) with 65535.
    split_and!; [unfold in_u16; lia|lia|]. rewrite <- Hcg, Hz.
    replace (65535 + new) with (0 + new + 65535 * 1) by lia. apply cong_mult. }
  destruct Hc' as (Hcu & Hcz & Hcc).
  destruct (st16_at b ys Hh (n4 + 6) (b_data b + Z.of_nat n4 + udp_csum_ofs) c') as (b' & E & H' & F);
    [unfold udp_csum_ofs; lia|lia|done|].
  exists b', (patch (n4 + 6) (le16_bytes c') ys). split_and!; [exact E|done|done|].
  exists c'. by split_and!.
Qed.

(** *** One change of the header with the update of its checksum *)

Section HeaderStep.
Context (b : ofpbuf) (n3 n4 hl sl : nat) (proto : Z).

(** The header sum when the checksum and a field of the header change. *)
Lemma hdr_step ys k bs c' : (20 <= hl)%nat -> (n3 + hl <= length ys)%nat -> in_u16 c' ->
  (n3 <= k)%nat -> (k + length bs <= n3 + hl)%nat ->
  (k + length bs <= n3 + 10 \/ n3 + 12 <= k)%nat ->
  cong (c' + wsum (Nat.odd (k - n3)) bs)
       (f16 (n3 + 10) ys + wsum (Nat.odd (k - n3)) (region k (length bs) ys)) ->
  cong (rsum n3 hl (patch k bs (patch (n3 + 10) (le16_bytes c') ys))) (rsum n3 hl ys).
Proof.
  intros Hhl Hlen Hc Hk1 Hk2 Hd Hcg.
  assert (L1 : length (patch (n3 + 10) (le16_bytes c') ys) = length ys)
    by (apply length_patch; simpl; lia).
  rewrite rsum_patch_in by lia.
  rewrite rsum_patch_in by (simpl; lia).
  rewrite region_patch_out by (simpl; lia).
  replace (n3 + 10 - n3)%nat with 10%nat by lia. change (Nat.odd 10) with false.
  rewrite wsum_le16 by done. simpl (length (le16_bytes c')).
  rewrite f16_wsum by lia.
  set (s := rsum n3 hl ys) in *. set (c := f16 (n3 + 10) ys) in *.
  set (w := wsum _ (region k _ ys)) in *. set (w' := wsum _ bs) in *.
  replace (s - c + c' - w + w') with (s - c - w + (c' + w')) by lia. rewrite Hcg.
  replace (s - c - w + (c + w)) with s by lia. done.
Qed.

(** Changes of bytes other than addresses leave what the transport checksum
    covers alone. *)
Lemma l4sum_other ys k bs : (k + length bs <= length ys)%nat ->
  (k + length bs <= n3 + 12)%nat -> (n3 + 20 <= n4)%nat ->
  l4sum n3 n4 sl (patch k bs ys) = l4sum n3 n4 sl ys.
Proof.
  intros Hl Hd Hn. unfold l4sum. rewrite region_patch_out, rsum_patch_out by lia. done.
Qed.

Lemma l4sum_addr ys k w : (k = n3 + 12 \/ k = n3 + 16)%nat -> (n3 + 20 <= n4)%nat ->
  (n4 <= length ys)%nat ->
  l4sum n3 n4 sl (patch k (le32_bytes w) ys) =
    l4sum n3 n4 sl ys - wsum false (region k 4 ys) + wsum false (le32_bytes w).
Proof.
  intros Hk Hn Hl. unfold l4sum. rewrite (rsum_patch_out n4) by (simpl; lia).
  change (wsum false (region (n3 + 12) 8 (patch k (le32_bytes w) ys)))
    with (wsum false (region (n3 + 12) 8 (patch k (le32_bytes w) ys))).
  rewrite <- !(sum16_wsum (region (n3 + 12) 8 _)). fold (rsum (n3 + 12) 8 (patch k (le32_bytes w) ys)).
  rewrite rsum_patch_in by (simpl; lia).
  replace (Nat.odd (k - (n3 + 12))) with false
    by (destruct Hk; subst; [by rewrite Nat.sub_diag|
        by replace (n3 + 16 - (n3 + 12))%nat with 4%nat by lia]).
  simpl (length (le32_bytes w)). unfold rsum. lia.
Qed.

(** A change of the transport checksum. *)
Lemma l4sum_csum ys co c' : in_u16 c' -> (n3 + 20 <= n4)%nat -> (n4 + sl <= length ys)%nat ->
  (co + 2 <= sl)%nat -> Nat.odd co = false ->
  l4sum n3 n4 sl (patch (n4 + co) (le16_bytes c') ys) = l4sum n3 n4 sl ys - f16 (n4 + co) ys + c'.
Proof.
  intros Hc Hn Hl Hs Ho. unfold l4sum. rewrite region_patch_out by (simpl; lia).
  rewrite rsum_patch_in by (simpl; lia). replace (n4 + co - n4)%nat with co by lia.
  rewrite Ho, wsum_le16 by done. simpl (length (le16_bytes c')). rewrite f16_wsum by lia. lia.
Qed.

End HeaderStep.

Lemma tp_csum_even proto l co : tp_csum_ofs proto l = Some co -> Nat.odd co = false.
Proof.
  unfold tp_csum_ofs. destruct l; [|done].
  destruct (proto =? IPPROTO_TCP); [by intros [= <-]|].
  destruct (proto =? IPPROTO_UDP); [by intros [= <-]|done].
Qed.

(** The bytes of the header that a change at [k] of [n] bytes leaves alone; the
    checksum is excepted. *)
Definition hdr_kept (n3 k n : nat) (ys ys' : list Z) : Prop :=
  forall i, (n3 <= i < n3 + 10 \/ n3 + 12 <= i < n3 + 20)%nat -> ~ (k <= i < k + n)%nat ->
    ys' !! i = ys !! i.

(** What the update of the transport checksum does to the bytes. *)
Lemma l4_updated_facts b n3 n4 hl sl proto old new ys ys' :
  bytes_ok ys -> ipv4_geom b ys n3 n4 hl sl proto -> l4_updated b n4 proto old new ys ys' ->
  length ys' = length ys /\ bytes_ok ys' /\
  (forall i, ys !! i <> ys' !! i ->
     exists co, tp_csum_ofs proto (l7 b) = Some co /\ (n4 + co <= i < n4 + co + 2)%nat) /\
  (forall co, tp_csum_ofs proto (l7 b) = Some co ->
     udp_none proto n4 co ys' = udp_none proto n4 co ys /\
     (udp_none proto n4 co ys = false ->
      cong (l4sum n3 n4 sl ys' + new) (l4sum n3 n4 sl ys + old))).
Proof.
  intros Hb [G1 G2 G3 G4 G5 G6] HU. unfold l4_updated in HU.
  destruct (tp_csum_ofs proto (l7 b)) as [co|] eqn:Eco; [|subst; by split_and!].
  destruct (G6 co eq_refl) as [_ Hs].
  destruct (udp_none proto n4 co ys) eqn:Eu.
  { subst. split_and!; try done. intros co' [= <-]. by rewrite Eu. }
  destruct HU as (c' & Hc & -> & Hcg & Hz).
  split_and!.
  - apply length_patch. simpl. lia.
  - apply bytes_ok_patch; [by apply le16_bytes_ok|done].
  - intros i Hi. exists co. split; [done|].
    destruct (decide (i < n4 + co \/ n4 + co + 2 <= i)%nat) as [Hd|Hd]; [|lia].
    destruct Hi. symmetry. apply lookup_patch; simpl; lia.
  - intros co' [= <-]. split.
    + rewrite Eu. unfold udp_none in *. rewrite f16_patch_eq by (done || lia).
      destruct (Z.eqb_spec proto IPPROTO_UDP); [|done]. simpl. apply Z.eqb_neq. auto.
    + intros _. rewrite l4sum_csum by (done || lia || by eapply tp_csum_even).
      set (s := l4sum n3 n4 sl ys). set (f := f16 (n4 + co) ys) in *.
      replace (s - f + c' + new) with (s - f + (c' + new)) by lia. rewrite Hcg.
      by replace (s - f + (f + old)) with (s + old) by lia.
Qed.

(** Bytes before the segment are not those of the transport checksum. *)
Lemma l4_updated_region b n3 n4 hl sl proto old new ys ys' o n :
  bytes_ok ys -> ipv4_geom b ys n3 n4 hl sl proto -> l4_updated b n4 proto old new ys ys' ->
  (o + n <= n4)%nat -> region o n ys' = region o n ys.
Proof.
  intros Hb G U Ho. destruct (l4_updated_facts _ _ _ _ _ _ _ _ _ _ Hb G U) as (L & _ & R & _).
  apply region_ext; [done|]. intros i Hi.
  destruct (decide (ys !! i = ys' !! i)) as [|Hd]; [done|].
  destruct (R i Hd) as (co & _ & ?). lia.
Qed.

(** The bytes after a change of an address at [k], once the transport checksum
    is updated in [ys1]. *)
Lemma addr_bytes_step b ys ys1 n3 n4 hl sl proto k w c' :
  bytes_ok ys -> ipv4_geom b ys n3 n4 hl sl proto ->
  (k = n3 + 12 \/ k = n3 + 16)%nat -> in_u32 w -> in_u16 c' ->
  l4_updated b n4 proto (wsum false (region k 4 ys)) (wsum false (le32_bytes w)) ys ys1 ->
  cong (c' + wsum false (le32_bytes w)) (f16 (n3 + 10) ys + wsum false (region k 4 ys)) ->
  let ys3 := patch k (le32_bytes w) (patch (n3 + 10) (le16_bytes c') ys1) in
  ipv4_same b n3 n4 hl sl proto ys ys3 /\ region k 4 ys3 = le32_bytes w /\ hdr_kept n3 k 4 ys ys3.
Proof.
  intros Hb G Hk Hw Hc' U Hcg ys3. pose proof G as [G1 G2 G3 G4 G5 G6].
  destruct (l4_updated_facts _ _ _ _ _ _ _ _ _ _ Hb G U) as (L1 & Hb1 & R1 & S1).
  pose proof (fun o n => l4_updated_region _ _ _ _ _ _ _ _ _ _ o n Hb G U) as HR.
  set (ys2 := patch (n3 + 10) (le16_bytes c') ys1) in *.
  assert (L2 : length ys2 = length ys1) by (apply length_patch; simpl; lia).
  assert (L3 : length ys3 = length ys2) by (apply length_patch; simpl; lia).
  assert (Hkeep : forall i, (i < n3 + 10 \/ n3 + 12 <= i)%nat -> ~ (k <= i < k + 4)%nat ->
            ys3 !! i = ys1 !! i).
  { intros i Hi1 Hi2. unfold ys3. rewrite lookup_patch by (simpl; lia).
    unfold ys2. by rewrite lookup_patch by (simpl; lia). }
  split; [split|split].
  - lia.
  - apply bytes_ok_patch; [by apply le32_bytes_ok|]. apply bytes_ok_patch; [|done].
    by apply le16_bytes_ok.
  - replace (rsum n3 hl ys) with (rsum n3 hl ys1) by (unfold rsum; by rewrite HR by lia).
    apply hdr_step; try done; try (simpl; lia).
    replace (Nat.odd (k - n3)) with false
      by (destruct Hk; subst; [by replace (n3 + 12 - n3)%nat with 12%nat by lia|
          by replace (n3 + 16 - n3)%nat with 16%nat by lia]).
    simpl (length (le32_bytes w)). rewrite Hcg. unfold f16. by rewrite !HR by lia.
  - intros co Hco. destruct (S1 co Hco) as [Eu Hl4]. destruct (G6 co Hco) as [_ Hs].
    assert (Ef3 : f16 (n4 + co) ys3 = f16 (n4 + co) ys1).
    { unfold f16. f_equal. apply region_ext; [lia|]. intros i Hi. apply Hkeep; lia. }
    split; [unfold udp_none in *; by rewrite Ef3|]. intros Hu. specialize (Hl4 Hu).
    unfold ys3. rewrite l4sum_addr by lia. unfold ys2. rewrite l4sum_other by (simpl; lia).
    rewrite region_patch_out by (simpl; lia). rewrite HR by lia.
    set (s1 := l4sum n3 n4 sl ys1) in *. set (s := l4sum n3 n4 sl ys) in *.
    set (wo := wsum false (region k 4 ys)) in *. set (ww := wsum false (le32_bytes w)) in *.
    replace (s1 - wo + ww) with (s1 + ww - wo) by lia. rewrite Hl4.
    by replace (s + wo - wo) with s by lia.
  - intros i Hi. destruct (decide (ys !! i = ys1 !! i)) as [E|Hd]; [|auto 6].
    destruct (decide ((i < n3 + 10 \/ n3 + 12 <= i) /\ ~ (k <= i < k + 4))%nat) as [[Ha1 Ha2]|].
    { destruct Hi. rewrite E. symmetry. by apply Hkeep. }
    right. right. left. lia.
  - unfold ys3. change 4%nat with (length (le32_bytes w)). apply region_patch_eq. simpl. lia.
  - intros i Hi1 Hi2. rewrite Hkeep by lia.
    destruct (decide (ys !! i = ys1 !! i)) as [|Hd]; [done|].
    destruct (R1 i Hd) as (co & _ & ?). lia.
Qed.

Lemma le_word_1 x : le_word [x] = x.
Proof. unfold le_word. simpl. lia. Qed.

Lemma packet_set_ipv4_addr_spec b ys n3 n4 hl sl proto k w :
  holds b ys -> bytes_ok ys -> ipv4_geom b ys n3 n4 hl sl proto ->
  (k = n3 + 12 \/ k = n3 + 16)%nat -> in_u32 w ->
  exists b' ys', packet_set_ipv4_addr b (b_data b + Z.of_nat k) w = Ok b' /\ holds b' ys' /\
    same_frame b b' /\ ipv4_same b n3 n4 hl sl proto ys ys' /\
    region k 4 ys' = le32_bytes w /\ hdr_kept n3 k 4 ys ys'.
Proof.
  intros Hh Hb G Hk Hw. pose proof G as [G1 G2 G3 G4 G5 G6].
  unfold packet_set_ipv4_addr. rewrite G1. cbn [the rbind].
  rewrite (get_be32_at b ys Hh k) by (done || lia). cbn [rbind].
  set (o := le_word (region k 4 ys)). pose proof (u32_region4 k ys Hb ltac:(lia)) as Ho. fold o in Ho.
  assert (Eo : le32_bytes o = region k 4 ys) by (apply le32_region; done || lia).
  rewrite (ld8_at b ys Hh (n3 + 9)) by (unfold ip_proto_ofs; lia). cbn [rbind].
  rewrite G5, le_word_1.
  destruct (update_l4_csum_spec b ys (fun c => recalc_csum32 c o w) (wsum false (region k 4 ys))
              (wsum false (le32_bytes w)) n3 n4 hl sl proto Hh Hb G) as (b1 & ys1 & E1 & H1 & F1 & U1).
  { intros c Hc. rewrite <- Eo. by apply recalc_csum32_cong. }
  rewrite E1. cbn [rbind].
  destruct (l4_updated_facts b n3 n4 hl sl proto _ _ ys ys1 Hb G U1) as (L1 & _ & _ & _).
  pose proof F1 as (_ & _ & D1 & _).
  rewrite (ld16_at b1 ys1 H1 (n3 + 10)) by (unfold ip_csum_ofs; lia). cbn [rbind].
  rewrite (l4_updated_region _ _ _ _ _ _ _ _ _ _ _ _ Hb G U1) by lia. fold (f16 (n3 + 10) ys).
  pose proof (f16_u16 (n3 + 10) ys Hb ltac:(lia)) as Hc.
  destruct (recalc_csum32_cong _ o w Hc Ho Hw) as [Hc' Hcg]. rewrite Eo in Hcg.
  set (c' := recalc_csum32 (f16 (n3 + 10) ys) o w) in *.
  destruct (st16_at b1 ys1 H1 (n3 + 10) (b_data b + Z.of_nat n3 + ip_csum_ofs) c')
    as (b2 & E2 & H2 & F2); [unfold ip_csum_ofs; lia|lia|done|].
  rewrite E2. cbn [rbind]. pose proof F2 as (_ & _ & D2 & _).
  destruct (put_be32_at b2 _ k (b_data b + Z.of_nat k) w H2) as (b3 & E3 & H3 & F3);
    [congruence|rewrite length_patch; simpl; lia|done|].
  eexists b3, _. split; [exact E3|]. split; [exact H3|].
  split; [eapply same_frame_trans; [exact F1|]; by eapply same_frame_trans|].
  by apply addr_bytes_step.
Qed.

(** *** The type of service and the time to live *)

Lemma byte_bytes_step b ys n3 n4 hl sl proto k t v c' :
  bytes_ok ys -> ipv4_geom b ys n3 n4 hl sl proto ->
  (k = n3 + 1 \/ k = n3 + 8)%nat -> in_u8 v -> in_u16 c' -> region k 1 ys = [t] ->
  cong (c' + wsum (Nat.odd (k - n3)) [v]) (f16 (n3 + 10) ys + wsum (Nat.odd (k - n3)) [t]) ->
  let ys3 := patch k [v] (patch (n3 + 10) (le16_bytes c') ys) in
  ipv4_same b n3 n4 hl sl proto ys ys3 /\ region k 1 ys3 = [v] /\ hdr_kept n3 k 1 ys ys3.
Proof.
  intros Hb [G1 G2 G3 G4 G5 G6] Hk Hv Hc' Ht Hcg ys3.
  set (ys2 := patch (n3 + 10) (le16_bytes c') ys) in *.
  assert (L2 : length ys2 = length ys) by (apply length_patch; simpl; lia).
  assert (L3 : length ys3 = length ys2) by (apply length_patch; simpl; lia).
  assert (Hkeep : forall i, (i < n3 + 10 \/ n3 + 12 <= i)%nat -> ~ (k <= i < k + 1)%nat ->
            ys3 !! i = ys !! i).
  { intros i Hi1 Hi2. unfold ys3. rewrite lookup_patch by (simpl; lia).
    unfold ys2. by rewrite lookup_patch by (simpl; lia). }
  split; [split|split].
  - lia.
  - apply bytes_ok_patch; [by apply Forall_cons_iff|]. apply bytes_ok_patch; [|done].
    by apply le16_bytes_ok.
  - apply hdr_step; try done; try (simpl; lia). simpl length. by rewrite Ht.
  - intros co Hco. destruct (G6 co Hco) as [_ Hs].
    assert (Ef3 : f16 (n4 + co) ys3 = f16 (n4 + co) ys).
    { unfold f16. f_equal. apply region_ext; [lia|]. intros i Hi. apply Hkeep; lia. }
    split; [unfold udp_none in *; by rewrite Ef3|]. intros _.
    unfold ys3. rewrite l4sum_other by (simpl; lia). unfold ys2. by rewrite l4sum_other by (simpl; lia).
  - intros i Hi.
    destruct (decide ((i < n3 + 10 \/ n3 + 12 <= i) /\ ~ (k <= i < k + 1))%nat) as [[Ha1 Ha2]|].
    { destruct Hi. symmetry. by apply Hkeep. }
    destruct (decide (k <= i < k + 1)%nat); [lia|]. right. right. left. lia.
  - unfold ys3. change 1%nat with (length [v]). apply region_patch_eq. simpl. lia.
  - intros i Hi1 Hi2. apply Hkeep; lia.
Qed.

(** The statement that changes one byte, with [fo] the word the code makes of
    the byte. *)
Definition set_hdr_byte (packet : ofpbuf) (nh ofs : Z) (fo : Z -> Z) (v : Z) : Res ofpbuf :=
  let* t := ld8 packet (nh + ofs) in
  if negb (t =? v) then
    let* c := ld16 packet (nh + ip_csum_ofs) in
    let* packet := st16 packet (nh + ip_csum_ofs) (recalc_csum16 c (fo t) (fo v)) in
    st8 packet (nh + ofs) v
  else Ok packet.

(** A change of the packet that keeps the sums and sets a field. *)
Definition ipv4_step (b b' : ofpbuf) (n3 n4 hl sl : nat) (proto : Z) (k n : nat) (v ys ys' : list Z) : Prop :=
  holds b' ys' /\ same_frame b b' /\ ipv4_same b n3 n4 hl sl proto ys ys' /\
  region k n ys' = v /\ hdr_kept n3 k n ys ys'.

Lemma ipv4_step_none b n3 n4 hl sl proto k n ys : holds b ys -> bytes_ok ys ->
  ipv4_step b b n3 n4 hl sl proto k n (region k n ys) ys ys.
Proof.
  intros Hh Hb. split_and!; [done|apply same_frame_refl|by apply ipv4_same_refl|done|].
  intros i _ _. done.
Qed.

Lemma set_hdr_byte_spec b ys n3 n4 hl sl proto ofs fo v :
  let k := (n3 + Z.to_nat ofs)%nat in
  holds b ys -> bytes_ok ys -> ipv4_geom b ys n3 n4 hl sl proto ->
  ofs = 1 \/ ofs = 8 -> in_u8 v ->
  (forall x, in_u8 x -> in_u16 (fo x) /\ fo x = wsum (Nat.odd (k - n3)) [x]) ->
  exists b' ys', set_hdr_byte b (b_data b + Z.of_nat n3) ofs fo v = Ok b' /\
    ipv4_step b b' n3 n4 hl sl proto k 1 [v] ys ys'.
Proof.
  intros k Hh Hb G Hofs Hv Hfo. pose proof G as [G1 G2 G3 G4 G5 G6].
  assert (Hk : (k = n3 + 1 \/ k = n3 + 8)%nat) by (unfold k; destruct Hofs; subst; lia).
  unfold set_hdr_byte. rewrite (ld8_at b ys Hh k) by (unfold k; lia). cbn [rbind].
  destruct (region_1 k ys ltac:(lia)) as [t Et]. rewrite Et, le_word_1.
  assert (Ht : in_u8 t).
  { pose proof (bytes_ok_region k 1 ys Hb) as Hr. rewrite Et in Hr. by apply Forall_inv in Hr. }
  destruct (Z.eqb_spec t v) as [->|Hne]; simpl negb; cbv iota.
  { exists b, ys. split; [done|]. rewrite <- Et. by apply ipv4_step_none. }
  rewrite (ld16_at b ys Hh (n3 + 10)) by (unfold ip_csum_ofs; lia). cbn [rbind].
  fold (f16 (n3 + 10) ys). pose proof (f16_u16 (n3 + 10) ys Hb ltac:(lia)) as Hc.
  destruct (Hfo t Ht) as [Hu1 E1], (Hfo v Hv) as [Hu2 E2].
  pose proof (recalc_csum16_u16 _ _ _ Hc Hu1 Hu2) as Hc'.
  pose proof (recalc_csum16_cong _ _ _ Hc Hu1 Hu2) as Hcg.
  set (c' := recalc_csum16 (f16 (n3 + 10) ys) (fo t) (fo v)) in *. rewrite E1, E2 in Hcg.
  destruct (st16_at b ys Hh (n3 + 10) (b_data b + Z.of_nat n3 + ip_csum_ofs) c')
    as (b2 & S2 & H2 & F2); [unfold ip_csum_ofs; lia|lia|done|].
  rewrite S2. cbn [rbind]. pose proof F2 as (_ & _ & D2 & _).
  destruct (st8_at b2 _ H2 k (b_data b + Z.of_nat n3 + ofs) v) as (b3 & S3 & H3 & F3);
    [unfold k; lia|rewrite length_patch; simpl; lia|done|].
  eexists b3, _. split; [exact S3|]. split; [exact H3|].
  split; [by eapply same_frame_trans|]. by eapply byte_bytes_step.
Qed.

(** Steps one after the other. *)
Lemma ipv4_step_geom b b' n3 n4 hl sl proto k n v ys ys' :
  ipv4_geom b ys n3 n4 hl sl proto -> ipv4_step b b' n3 n4 hl sl proto k n v ys ys' ->
  ipv4_geom b' ys' n3 n4 hl sl proto /\ bytes_ok ys'.
Proof.
  intros G (Hh & F & S & _). split; [|apply (is_bytes _ _ _ _ _ _ _ _ S)].
  eapply ipv4_geom_frame; [exact F|apply (is_len _ _ _ _ _ _ _ _ S)| |exact G].
  by eapply ipv4_same_proto.
Qed.

Lemma hdr_kept_region n3 k n ys ys' o m : length ys' = length ys -> hdr_kept n3 k n ys ys' ->
  (n3 <= o)%nat -> (o + m <= n3 + 10 \/ n3 + 12 <= o /\ o + m <= n3 + 20)%nat ->
  (o + m <= k \/ k + n <= o)%nat -> region o m ys' = region o m ys.
Proof. intros Hl Hk H1 H2 H3. apply region_ext; [done|]. intros i Hi. apply Hk; lia. Qed.

Lemma set_addr_step b ys n3 n4 hl sl proto ofs w :
  let k := (n3 + Z.to_nat ofs)%nat in
  holds b ys -> bytes_ok ys -> ipv4_geom b ys n3 n4 hl sl proto ->
  ofs = 12 \/ ofs = 16 -> in_u32 w ->
  exists b' ys',
    (let* s := get_16aligned_be32 b (b_data b + Z.of_nat n3 + ofs) in
     if negb (s =? w) then packet_set_ipv4_addr b (b_data b + Z.of_nat n3 + ofs) w else Ok b) = Ok b' /\
    ipv4_step b b' n3 n4 hl sl proto k 4 (le32_bytes w) ys ys'.
Proof.
  intros k Hh Hb G Hofs Hw. pose proof G as [G1 G2 G3 G4 G5 G6].
  assert (Hk : (k = n3 + 12 \/ k = n3 + 16)%nat) by (unfold k; destruct Hofs; subst; lia).
  replace (b_data b + Z.of_nat n3 + ofs) with (b_data b + Z.of_nat k) by (unfold k; lia).
  rewrite (get_be32_at b ys Hh k) by (done || lia). cbn [rbind].
  destruct (Z.eqb_spec (le_word (region k 4 ys)) w) as [<-|Hne]; simpl negb; cbv iota.
  - exists b, ys. split; [done|]. rewrite le32_region by (done || lia). by apply ipv4_step_none.
  - destruct (packet_set_ipv4_addr_spec b ys n3 n4 hl sl proto k w Hh Hb G Hk Hw)
      as (b' & ys' & E & H'). exists b', ys'. by split.
Qed.

Lemma htons_byte x : in_u8 x -> in_u16 (htons x) /\ htons x = 2 ^ 8 * x.
Proof.
  unfold in_u8, in_u16, htons, u16. intros Hx. rewrite (Z.mod_small x (2 ^ 16)) by lia.
  rewrite Z.div_small, (Z.mod_small x) by lia. lia.
Qed.

Lemma htons_high x : in_u8 x -> in_u16 (htons (Z.shiftl x 8)) /\ htons (Z.shiftl x 8) = x.
Proof.
  unfold in_u8, in_u16, htons, u16. intros Hx. rewrite Z.shiftl_mul_pow2 by lia.
  rewrite (Z.mod_small _ (2 ^ 16)) by lia. rewrite Z.div_mul, Z.mod_mul by lia. lia.
Qed.

(** The four statements of [packet_set_ipv4], on the sums and the fields. *)
Lemma packet_set_ipv4_steps b xs n3 n4 hl sl proto src dst tos ttl :
  holds b xs -> bytes_ok xs -> ipv4_geom b xs n3 n4 hl sl proto ->
  in_u32 src -> in_u32 dst -> in_u8 tos -> in_u8 ttl ->
  exists b' ys, packet_set_ipv4 b src dst tos ttl = Ok b' /\ holds b' ys /\ same_frame b b' /\
    ipv4_same b n3 n4 hl sl proto xs ys /\
    region (n3 + 12) 4 ys = le32_bytes src /\ region (n3 + 16) 4 ys = le32_bytes dst /\
    region (n3 + 1) 1 ys = [tos] /\ region (n3 + 8) 1 ys = [ttl].
Proof.
  intros Hh Hb G Hs Hd Ht Hl. pose proof (ig_l3 _ _ _ _ _ _ _ G) as G1.
  unfold packet_set_ipv4. rewrite G1. cbn [the rbind].
  destruct (set_addr_step b xs n3 n4 hl sl proto ip_src_ofs src Hh Hb G (or_introl eq_refl) Hs)
    as (b1 & y1 & E1 & P1). rewrite <- rbind_assoc, E1. cbn [rbind]. clear E1.
  destruct (ipv4_step_geom _ _ _ _ _ _ _ _ _ _ _ _ G P1) as [K1 B1].
  destruct P1 as (A1 & F1 & S1 & R1 & Q1). pose proof F1 as (_ & _ & D1 & _). rewrite <- D1.
  destruct (set_addr_step b1 y1 n3 n4 hl sl proto ip_dst_ofs dst A1 B1 K1 (or_intror eq_refl) Hd)
    as (b2 & y2 & E2 & P2). rewrite <- rbind_assoc, E2. cbn [rbind]. clear E2.
  destruct (ipv4_step_geom _ _ _ _ _ _ _ _ _ _ _ _ K1 P2) as [K2 B2].
  destruct P2 as (A2 & F2 & S2 & R2 & Q2). pose proof F2 as (_ & _ & D2 & _). rewrite <- D2.
  destruct (set_hdr_byte_spec b2 y2 n3 n4 hl sl proto ip_tos_ofs htons tos A2 B2 K2
              (or_introl eq_refl) Ht) as (b3 & y3 & E3 & P3).
  { intros x Hx. destruct (htons_byte x Hx) as [Hu Ex]. split; [done|]. rewrite Ex.
    replace (n3 + Z.to_nat ip_tos_ofs - n3)%nat with 1%nat by (unfold ip_tos_ofs; lia). simpl. lia. }
  unfold set_hdr_byte in E3. rewrite <- rbind_assoc, E3. cbn [rbind]. clear E3.
  destruct (ipv4_step_geom _ _ _ _ _ _ _ _ _ _ _ _ K2 P3) as [K3 B3].
  destruct P3 as (A3 & F3 & S3 & R3 & Q3). pose proof F3 as (_ & _ & D3 & _). rewrite <- D3.
  destruct (set_hdr_byte_spec b3 y3 n3 n4 hl sl proto ip_ttl_ofs (fun t => htons (Z.shiftl t 8)) ttl
              A3 B3 K3 (or_intror eq_refl) Hl) as (b4 & y4 & E4 & P4).
  { intros x Hx. destruct (htons_high x Hx) as [Hu Ex]. split; [done|]. rewrite Ex.
    replace (n3 + Z.to_nat ip_ttl_ofs - n3)%nat with 8%nat by (unfold ip_ttl_ofs; lia). simpl. lia. }
  unfold set_hdr_byte in E4. destruct P4 as (A4 & F4 & S4 & R4 & Q4).
  pose proof (is_len _ _ _ _ _ _ _ _ S2) as L2. pose proof (is_len _ _ _ _ _ _ _ _ S3) as L3.
  pose proof (is_len _ _ _ _ _ _ _ _ S4) as L4.
  change (Z.to_nat ip_src_ofs) with 12%nat in *. change (Z.to_nat ip_dst_ofs) with 16%nat in *.
  change (Z.to_nat ip_tos_ofs) with 1%nat in *. change (Z.to_nat ip_ttl_ofs) with 8%nat in *.
  exists b4, y4. split; [exact E4|]. split; [done|].
  split; [eauto using same_frame_trans|]. split_and!.
  - eapply ipv4_same_trans; [exact S1|]. eapply ipv4_same_frame; [exact F1|].
    eapply ipv4_same_trans; [exact S2|]. eapply ipv4_same_frame; [exact F2|].
    eapply ipv4_same_trans; [exact S3|]. by eapply ipv4_same_frame.
  - rewrite <- R1, (hdr_kept_region _ _ _ _ _ _ _ L4 Q4),
      (hdr_kept_region _ _ _ _ _ _ _ L3 Q3),
      (hdr_kept_region _ _ _ _ _ _ _ L2 Q2) by lia. done.
  - rewrite <- R2, (hdr_kept_region _ _ _ _ _ _ _ L4 Q4),
      (hdr_kept_region _ _ _ _ _ _ _ L3 Q3) by lia. done.
  - rewrite <- R3, (hdr_kept_region _ _ _ _ _ _ _ L4 Q4) by lia. done.
  - exact R4.
Qed.

(** *** The theorem *)

(** The block that a TCP or UDP checksum covers: pseudo-header and segment. *)
Definition tp_block (n3 n4 sl : nat) (proto : Z) (xs : list Z) : list Z :=
  region (n3 + 12) 8 xs ++ [0; proto] ++ be16_bytes (Z.of_nat sl) ++ region n4 sl xs.

Lemma csum_zero_iff data : bytes_ok data -> Z.of_nat (length data) <= CSUM_MAX ->
  csum data = 0 <-> 0 < sum16 data /\ cong (sum16 data) 0.
Proof.
  intros Hb Hl. rewrite csum_spec by done. pose proof (sum16_nonneg _ Hb) as H0.
  pose proof (ones_range _ H0) as [Hr Hz]. pose proof (ones_mod _ H0) as Hm.
  unfold cong. rewrite <- Hm. change (0 mod 65535) with 0. split.
  - intros E. assert (E1 : ones (sum16 data) = 65535) by lia. rewrite E1. split; [lia|done].
  - intros [Hp E]. assert (ones (sum16 data) = 0 \/ ones (sum16 data) = 65535) by zdm. lia.
Qed.

(** A block whose sum changes by a multiple of 65535 and stays positive. *)
Lemma csum_zero_cong x y : bytes_ok x -> bytes_ok y -> Z.of_nat (length x) <= CSUM_MAX ->
  length y = length x -> cong (sum16 y) (sum16 x) -> 0 < sum16 x -> 0 < sum16 y ->
  csum y = 0 <-> csum x = 0.
Proof.
  intros Hx Hy Hl E C Px Py. rewrite !csum_zero_iff by (done || rewrite E; done).
  assert (cong (sum16 y) 0 <-> cong (sum16 x) 0) by (split; intros H; by rewrite <- H, C).
  tauto.
Qed.

Lemma sum16_pos data b : bytes_ok data -> b ∈ data -> b <> 0 -> 0 < sum16 data.
Proof.
  intros Hb Hin Hne. pose proof (sum16_nonneg _ Hb).
  destruct (Z.eq_dec (sum16 data) 0) as [E|]; [|lia].
  apply sum16_zero in E; [|done]. rewrite Forall_forall in E.
  by apply E in Hin.
Qed.

Lemma tp_block_sum n3 n4 sl proto xs : (n3 + 20 <= length xs)%nat ->
  sum16 (tp_block n3 n4 sl proto xs) =
    l4sum n3 n4 sl xs + (2 ^ 8 * proto + wsum false (be16_bytes (Z.of_nat sl))).
Proof.
  intros Hl. unfold tp_block, l4sum, rsum. rewrite !sum16_wsum, !wsum_app.
  rewrite length_region by lia. change (length [0; proto]) with 2%nat.
  change (length (be16_bytes (Z.of_nat sl))) with 2%nat.
  change (Nat.odd 8) with false. change (Nat.odd 2) with false. rewrite !xorb_false_l.
  change (wsum false [0; proto]) with (0 + (2 ^ 8 * proto + 0)). lia.
Qed.

Lemma tp_block_ok n3 n4 sl proto xs : bytes_ok xs -> in_u8 proto -> bytes_ok (tp_block n3 n4 sl proto xs).
Proof.
  intros Hb Hp. unfold tp_block, bytes_ok. rewrite !List.Forall_app.
  split_and!; try by apply bytes_ok_region.
  - rewrite !Forall_cons_iff. split_and!; try done.
  - unfold be16_bytes. rewrite !Forall_cons_iff. split_and!; try apply u8_range. done.
Qed.

Lemma length_tp_block n3 n4 sl proto xs : (n3 + 20 <= length xs)%nat -> (n4 + sl <= length xs)%nat ->
  length (tp_block n3 n4 sl proto xs) = (12 + sl)%nat.
Proof. intros. unfold tp_block. rewrite !length_app, !length_region by lia. done. Qed.

(** C27. Rewriting the addresses, the type of service and the time to live of an
    IPv4 packet sets exactly those fields and the checksums: the header checksum
    is right afterwards if and only if it was right before, and so is the TCP or
    UDP checksum over the pseudo-header and the segment; a UDP segment without a
    checksum still has none and one with a checksum never gets the value that
    means none; every other byte is unchanged. *)
Theorem packet_set_ipv4_ok b xs n3 n4 hl sl proto src dst tos ttl :
  holds b xs -> bytes_ok xs -> ipv4_geom b xs n3 n4 hl sl proto ->
  Z.of_nat (length xs) + 12 <= CSUM_MAX ->
  in_u32 src -> in_u32 dst -> in_u8 tos -> in_u8 ttl ->
  (exists v, region n3 1 xs = [v] /\ v <> 0) ->
  exists b' ys, packet_set_ipv4 b src dst tos ttl = Ok b' /\ holds b' ys /\ same_frame b b' /\
    region (n3 + 12) 4 ys = le32_bytes src /\ region (n3 + 16) 4 ys = le32_bytes dst /\
    region (n3 + 1) 1 ys = [tos] /\ region (n3 + 8) 1 ys = [ttl] /\
    (csum (region n3 hl ys) = 0 <-> csum (region n3 hl xs) = 0) /\
    (forall co, tp_csum_ofs proto (l7 b) = Some co ->
       udp_none proto n4 co ys = udp_none proto n4 co xs /\
       (udp_none proto n4 co xs = false ->
        csum (tp_block n3 n4 sl proto ys) = 0 <-> csum (tp_block n3 n4 sl proto xs) = 0)) /\
    (forall i, xs !! i <> ys !! i ->
       i = n3 + 1 \/ i = n3 + 8 \/ n3 + 10 <= i < n3 + 20 \/
       exists co, tp_csum_ofs proto (l7 b) = Some co /\ n4 + co <= i < n4 + co + 2)%nat.
Proof.
  intros Hh Hb G Hlen Hs Hd Ht Hl (v & Ev & Hv). pose proof G as [G1 G2 G3 G4 G5 G6].
  destruct (packet_set_ipv4_steps b xs n3 n4 hl sl proto src dst tos ttl Hh Hb G Hs Hd Ht Hl)
    as (b' & ys & E & H' & F & [S1 S2 S3 S4 S5] & R1 & R2 & R3 & R4).
  exists b', ys. split_and!; try done.
  - assert (Hin : forall zs, length zs = length xs -> region n3 1 zs = [v] -> v ∈ region n3 hl zs).
    { intros zs Hz E1. apply list_elem_of_lookup. exists 0%nat.
      rewrite lookup_region, <- (lookup_region n3 1 zs 0) by lia. by rewrite E1. }
    assert (Ev' : region n3 1 ys = [v]).
    { rewrite <- Ev. apply region_ext; [done|]. intros i Hi.
      destruct (decide (xs !! i = ys !! i)) as [|Hd']; [done|].
      destruct (S5 i Hd') as [?|[?|[?|(co & _ & ?)]]]; lia. }
    apply csum_zero_cong; [by apply bytes_ok_region..| | |exact S3| |];
      rewrite ?length_region by lia; try lia;
      (eapply sum16_pos; [by apply bytes_ok_region|by apply Hin|done]).
  - intros co Hco. destruct (S4 co Hco) as [Eu Hc]. split; [done|]. intros Hu.
    assert (Hp : proto = 6 \/ proto = 17).
    { unfold tp_csum_ofs in Hco. destruct (l7 b); [|done].
      destruct (Z.eqb_spec proto IPPROTO_TCP); [by left|].
      destruct (Z.eqb_spec proto IPPROTO_UDP); [by right|done]. }
    assert (Hp8 : in_u8 proto) by (unfold in_u8; lia).
    assert (Hin : forall zs, proto ∈ tp_block n3 n4 sl proto zs)
      by (intros zs; unfold tp_block; rewrite !elem_of_app, !elem_of_cons; auto).
    apply csum_zero_cong; [by apply tp_block_ok..| | | | |];
      rewrite ?length_tp_block by lia; try lia.
    + rewrite !tp_block_sum by lia. rewrite Hc by done. done.
    + eapply sum16_pos; [by apply tp_block_ok|apply Hin|lia].
    + eapply sum16_pos; [by apply tp_block_ok|apply Hin|lia].
Qed.

(** A TCP packet from 10.0.0.1 to 10.0.0.2. *)
Definition tcp_packet_bytes : list Z :=
  [0; 35; 32; 0; 0; 1; 0; 35; 32; 0; 0; 2; 8; 0] ++
  [69; 0; 0; 40; 0; 1; 64; 0; 64; 6; 38; 205; 10; 0; 0; 1; 10; 0; 0; 2] ++
  [48; 57; 0; 80; 0; 0; 0; 1; 0; 0; 0; 0; 80; 2; 32; 0; 75; 86; 0; 0].
Definition tcp_packet : ofpbuf :=
  with_layers (ofpbuf_use_const 1 (Some <$> tcp_packet_bytes)) (Some 0) None (Some 14) (Some 34) (Some 54).

Lemma bytes_ok_dec l : forallb (fun b => (0 <=? b) && (b <? 256)) l = true -> bytes_ok l.
Proof.
  unfold bytes_ok, in_u8. intros H. rewrite forallb_forall in H. rewrite Forall_forall.
  intros x Hx%list_elem_of_In. apply H, andb_true_iff in Hx as [?%Z.leb_le ?%Z.ltb_lt].
  change (2 ^ 8) with 256. lia.
Qed.

Lemma tcp_packet_holds : holds tcp_packet tcp_packet_bytes.
Proof. split; [split; vm_compute; congruence|reflexivity]. Qed.

Lemma tcp_packet_geom : ipv4_geom tcp_packet tcp_packet_bytes 14 34 20 20 6.
Proof. split; try reflexivity; try (vm_compute; lia). intros co [= <-]. split; [done|lia]. Qed.

Lemma packet_set_ipv4_ok_witness :
  exists b' ys, packet_set_ipv4 tcp_packet (le_word [192; 168; 7; 9]) (le_word [10; 0; 0; 2]) 184 63 = Ok b' /\
    holds b' ys /\ region 26 4 ys = [192; 168; 7; 9] /\ csum (region 14 20 ys) = 0 /\
    csum (tp_block 14 34 20 6 ys) = 0.
Proof.
  destruct (packet_set_ipv4_ok tcp_packet tcp_packet_bytes 14 34 20 20 6
              (le_word [192; 168; 7; 9]) (le_word [10; 0; 0; 2]) 184 63 tcp_packet_holds)
    as (b' & ys & E & H & _ & R & _ & _ & _ & C & T & _).
  - apply bytes_ok_dec. reflexivity.
  - exact tcp_packet_geom.
  - vm_compute. discriminate.
  - split; vm_compute; congruence.
  - split; vm_compute; congruence.
  - split; vm_compute; congruence.
  - split; vm_compute; congruence.
  - exists 69. split; [reflexivity|discriminate].
  - exists b', ys. split; [exact E|]. split; [exact H|]. split; [exact R|]. split.
    + apply C. reflexivity.
    + destruct (T 16%nat eq_refl) as [_ T2]. apply T2; reflexivity.
Defined.

(** ** VLAN tags *)

(** The bytes of a packet with a tag pushed. *)
Definition push_tag (tci : Z) (xs : list Z) : list Z :=
  take 12 xs ++ le16_bytes (htons ETH_TYPE_VLAN)
  ++ le16_bytes (Z.land tci (htons (Z.lnot VLAN_CFI))) ++ drop 12 xs.

Lemma le16_region k xs : bytes_ok xs -> (k + 2 <= length xs)%nat ->
  le16_bytes (le_word (region k 2 xs)) = region k 2 xs.
Proof.
  intros Hb Hk. pose proof (bytes_ok_region k 2 xs Hb) as Hr.
  destruct (region_2 k xs Hk) as (b0 & b1 & E). rewrite E in *.
  apply bytes_ok_2 in Hr as (H0 & H1 & _). unfold in_u8 in *. unfold le16_bytes.
  rewrite le_word2. repeat f_equal; zdm.
Qed.

Lemma regions_take m n xs : region 0 m xs ++ region m n xs = take (m + n) xs.
Proof. unfold region. rewrite drop_0. apply take_take_drop. Qed.

Lemma eth_push_vlan_spec b xs tci : holds b xs -> bytes_ok xs -> (14 <= length xs)%nat ->
  can_grow b (ofpbuf_headroom b) VLAN_HEADER_LEN ->
  exists b', eth_push_vlan b tci = Ok b' /\ holds b' (push_tag tci xs) /\
    rel_layers b' = Some 0 :: tail (shift_layers 4 (rel_layers b)) /\
    (b_source b' = b_source b \/ b_source b' = OFPBUF_MALLOC) /\
    b_allocated b' <= b_allocated b + 64.
Proof.
  intros Hh Hb Hl Hg. unfold eth_push_vlan.
  rewrite (ld_at b xs Hh 0 6), (ld_at b xs Hh 6 6), (ld16_at b xs Hh 12)
    by (unfold eth_src_ofs, eth_type_ofs; done || lia). cbn [rbind].
  rewrite le16_region by (done || lia).
  destruct (push_uninit_spec b VLAN_HEADER_LEN (proj1 Hh) Hg)
    as (b1 & c & E & Hw1 & Hc1 & Hlc & [Gs Gl Gso Ga] & _).
  rewrite E. cbn [rbind snd]. set (tmp := region 0 6 xs ++ _).
  assert (Et : tmp ++ drop 14 xs = push_tag tci xs).
  { unfold tmp, push_tag. rewrite !app_assoc, (regions_take 6 6). change (6 + 6)%nat with 12%nat.
    rewrite <- !app_assoc. do 3 f_equal. unfold region.
    rewrite <- (take_drop 2 (drop 12 xs)) at 2. by rewrite drop_drop. }
  assert (Hlt : length tmp = 18%nat).
  { unfold tmp. rewrite !length_app, !length_region by lia. done. }
  pose proof (holds_length _ _ Hh) as Hsz. change VLAN_HEADER_LEN with 4 in *.
  destruct (st_contents b1 0 tmp Hw1) as (b2 & E2 & Hw2 & F2 & Hc2); [lia|].
  simpl Z.of_nat in E2. rewrite Z.add_0_r in E2. rewrite E2. cbn [rbind].
  pose proof F2 as (F2a & F2b & F2c & F2d & F2e & F2f & F2g & F2h & F2i & F2j).
  eexists. split; [done|]. split_and!.
  - split; [destruct Hw2; by split|]. change (contents b2 = Some <$> push_tag tci xs).
    rewrite Hc2, Hc1, (proj2 Hh), <- Et, fmap_app. unfold patch. simpl. f_equal.
    rewrite length_fmap, Hlt, fmap_drop. change 18%nat with (4 + 14)%nat.
    replace 4%nat with (length c) at 1 by lia. by rewrite drop_app_add.
  - unfold rel_layers, shift_layers, rel in *. simpl in *.
    rewrite F2c, F2f, F2g, F2h, F2i, Z.sub_diag. injection Gl as _ G1 G2 G3 G4. congruence.
  - simpl. by rewrite F2b.
  - change (b_allocated b2 <= b_allocated b + 64). lia.
Qed.

Lemma shift_rel d k (l : option Z) :
  (fun p => p - (d + k)) <$> l = option_map (fun x => x + - k) ((fun p => p - d) <$> l).
Proof. destruct l; simpl; [f_equal; lia|done]. Qed.

Lemma eth_pop_vlan_spec b h tci xs : holds b (h ++ le16_bytes (htons ETH_TYPE_VLAN) ++ tci ++ xs) ->
  length h = 12%nat -> length tci = 2%nat -> (2 <= length xs)%nat -> l2 b = Some (b_data b) ->
  exists b', eth_pop_vlan b = Ok b' /\ holds b' (h ++ xs) /\
    rel_layers b' = Some 0 :: tail (shift_layers (-4) (rel_layers b)) /\
    b_source b' = b_source b /\ b_allocated b' = b_allocated b.
Proof.
  intros Hh Hlh Hlt Hlx El2. set (ys := h ++ le16_bytes (htons ETH_TYPE_VLAN) ++ tci ++ xs) in *.
  assert (Hly : length ys = (16 + length xs)%nat) by (unfold ys; rewrite !length_app; simpl; lia).
  pose proof (holds_length _ _ Hh) as Hsz. unfold eth_pop_vlan. change VLAN_ETH_HEADER_LEN with 18.
  destruct (Z.leb_spec 18 (b_size b)); [|lia]. rewrite El2. cbn [the rbind].
  rewrite (ld16_at b ys Hh 12) by (unfold eth_type_ofs; lia). cbn [rbind].
  assert (R12 : region 12 2 ys = le16_bytes (htons ETH_TYPE_VLAN)).
  { unfold region, ys. rewrite drop_app_length' by done. by rewrite take_app_length'. }
  rewrite R12, le_word_le16 by (vm_compute; split; congruence). rewrite Z.eqb_refl.
  rewrite (ld_at b ys Hh 0 6), (ld_at b ys Hh 6 6), (ld_at b ys Hh 16 2)
    by (unfold eth_src_ofs, veth_next_type_ofs; done || lia). cbn [rbind].
  assert (Htmp : region 0 6 ys ++ region 6 6 ys ++ region 16 2 ys = h ++ take 2 xs).
  { rewrite app_assoc, (regions_take 6 6). change (6 + 6)%nat with 12%nat. f_equal.
    - unfold ys. by rewrite take_app_length' by done.
    - unfold region, ys. rewrite drop_app, drop_ge by lia. rewrite Hlh. simpl.
      by rewrite drop_app_length' by done. }
  rewrite Htmp. change VLAN_HEADER_LEN with 4.
  destruct (pull_spec b ys 4 Hh) as (b1 & E1 & H1 & Eb1); [lia|]. rewrite E1. cbn [rbind].
  set (b2 := with_layers b1 _ _ _ _ _).
  assert (H2 : holds b2 (drop 4 ys)) by (destruct H1 as [[? ? ? ?] ?]; split; [by split|done]).
  assert (Hd4 : length (drop 4 ys) = (12 + length xs)%nat) by (rewrite length_drop; lia).
  assert (Hl14 : length (h ++ take 2 xs) = 14%nat) by (rewrite length_app, length_take; lia).
  destruct (st_at b2 _ H2 0 (b_data b2) (h ++ take 2 xs)) as (b3 & E3 & H3 & F3); [simpl; lia|lia|].
  rewrite E3. exists b3. pose proof F3 as (F3a & F3b & F3c & F3d & F3e & F3f & F3g & F3h & F3i & F3j).
  split; [done|]. split_and!.
  - replace (h ++ xs) with (patch 0 (h ++ take 2 xs) (drop 4 ys)); [done|].
    unfold patch. simpl. rewrite Hl14, drop_drop, <- app_assoc. f_equal.
    rewrite <- (take_drop 2 xs) at 2. f_equal. change (4 + 14)%nat with 18%nat.
    unfold ys. rewrite drop_app, drop_ge by lia. rewrite Hlh. simpl.
    rewrite drop_app, drop_ge by lia. rewrite Hlt. done.
  - unfold rel_layers, shift_layers, rel. simpl.
    rewrite F3c, F3e, F3f, F3g, F3h, F3i. unfold b2. rewrite Eb1. simpl.
    rewrite Z.sub_diag, !(shift_rel (b_data b) 4). done.
  - rewrite F3b. unfold b2. by rewrite Eb1.
  - rewrite F3j. unfold b2. by rewrite Eb1.
Qed.

Lemma shift_layers_inv d l : shift_layers (- d) (shift_layers d l) = l.
Proof.
  unfold shift_layers. rewrite List.map_map. rewrite <- (List.map_id l) at 2. apply List.map_ext.
  intros [x|]; simpl; [f_equal; lia|done].
Qed.

(** Popping the VLAN tag that was pushed gives the packet back: the tagged
    packet has the tag between its Ethernet addresses and its type, with the
    given TCI except for the CFI bit, and popping it restores every byte and
    every header pointer at its place of the packet. *)
Theorem eth_vlan_roundtrip b xs tci : holds b xs -> bytes_ok xs -> (14 <= length xs)%nat ->
  can_grow b (ofpbuf_headroom b) VLAN_HEADER_LEN ->
  exists b1 b2, eth_push_vlan b tci = Ok b1 /\ holds b1 (push_tag tci xs) /\
    eth_pop_vlan b1 = Ok b2 /\ holds b2 xs /\
    rel_layers b2 = Some 0 :: tail (rel_layers b).
Proof.
  intros Hh Hb Hl Hg.
  destruct (eth_push_vlan_spec b xs tci Hh Hb Hl Hg) as (b1 & E1 & H1 & R1 & _ & _).
  destruct (eth_pop_vlan_spec b1 (take 12 xs)
    (le16_bytes (Z.land tci (htons (Z.lnot VLAN_CFI)))) (drop 12 xs) H1) as (b2 & E2 & H2 & R2 & _).
  { rewrite length_take. lia. }
  { done. }
  { rewrite length_drop. lia. }
  { unfold rel_layers, rel in R1. simpl in R1. destruct (l2 b1); [|discriminate R1].
    simpl in R1. injection R1 as R1 _. f_equal. lia. }
  exists b1, b2. rewrite take_drop in H2. split_and!; try done.
  rewrite R2, R1. f_equal. exact (shift_layers_inv 4 (tail (rel_layers b))).
Qed.

(** The packet above in a stub of memory with little headroom, so that pushing
    reallocates it. *)
Definition tcp_packet_stub : ofpbuf :=
  Mk_ofpbuf 1 (uninit 2 ++ (Some <$> tcp_packet_bytes)) OFPBUF_STUB 2 54
    (Some 2) None (Some 16) (Some 36) (Some 56).

Lemma tcp_packet_stub_holds : holds tcp_packet_stub tcp_packet_bytes.
Proof. split; [split; vm_compute; congruence|reflexivity]. Qed.

Lemma eth_vlan_roundtrip_witness :
  exists b1 b2, eth_push_vlan tcp_packet_stub 0x0a20 = Ok b1 /\
    holds b1 (push_tag 0x0a20 tcp_packet_bytes) /\ eth_pop_vlan b1 = Ok b2 /\
    holds b2 tcp_packet_bytes /\ rel_layers b2 = [Some 0; None; Some 14; Some 34; Some 54].
Proof.
  apply (eth_vlan_roundtrip tcp_packet_stub tcp_packet_bytes 0x0a20 tcp_packet_stub_holds).
  - apply bytes_ok_dec. reflexivity.
  - vm_compute. lia.
  - split; [vm_compute; discriminate|]. split; [left; discriminate|reflexivity].
Defined.

(** ** MPLS label stack entries *)

Lemma memmove_contents b i j n : ofpbuf_wf b -> Z.of_nat i + Z.of_nat n <= b_size b ->
  Z.of_nat j + Z.of_nat n <= b_size b ->
  exists b', memmove b (b_data b + Z.of_nat i) (b_data b + Z.of_nat j) (Z.of_nat n) = Ok b' /\
    ofpbuf_wf b' /\ same_frame b b' /\
    contents b' = patch i (take n (drop j (contents b))) (contents b).
Proof.
  intros Hw Hi Hj. unfold memmove. rewrite slice_contents by done. cbn [rbind].
  pose proof (length_contents b Hw) as Hl.
  destruct (blit_contents b i (take n (drop j (contents b))) Hw) as (m & E & H').
  { rewrite length_take, length_drop. lia. }
  rewrite E. cbn [rbind]. by eexists.
Qed.

(** Where the type of a packet is: before the payload when it is tagged. *)
Definition type_ofs (l : nat) (xs : list Z) : nat :=
  if f16 12 xs =? htons ETH_TYPE_VLAN then (l - 2)%nat else 12%nat.

Lemma set_ethertype_spec b xs l t : holds b xs -> (14 <= l <= length xs)%nat -> in_u16 t ->
  match l2_5 b with Some p => Some p | None => l3 b end = Some (b_data b + Z.of_nat l) ->
  exists b', set_ethertype b t = Ok b' /\ holds b' (patch (type_ofs l xs) (le16_bytes t) xs) /\
    same_frame b b'.
Proof.
  intros Hh Hl Ht El. unfold set_ethertype.
  rewrite (ld16_at b xs Hh 12) by (unfold eth_type_ofs; lia). cbn [rbind].
  unfold type_ofs. fold (f16 12 xs). destruct (f16 12 xs =? htons ETH_TYPE_VLAN).
  - rewrite El. cbn [the rbind]. apply st16_at; [done|lia|lia|done].
  - apply st16_at; [done|unfold eth_type_ofs; lia|lia|done].
Qed.

Lemma push_mpls_lse_spec b xs l mh : holds b xs -> (l <= length xs)%nat -> length mh = 4%nat ->
  l2 b = Some (b_data b) -> l2_5 b = Some (b_data b + Z.of_nat l) ->
  can_grow b (ofpbuf_headroom b) MPLS_HLEN ->
  exists b', push_mpls_lse b mh = Ok b' /\ holds b' (take l xs ++ mh ++ drop l xs) /\
    rel_layers b' = Some 0 :: Some (Z.of_nat l) :: drop 2 (shift_layers 4 (rel_layers b)).
Proof.
  intros Hh Hl Hm E2 E25 Hg. unfold push_mpls_lse. change MPLS_HLEN with 4 in *.
  destruct (push_uninit_spec b 4 (proj1 Hh) Hg) as (b1 & c & E & Hw1 & Hc1 & Hlc & [Gs Gl Gso Ga] & _).
  pose proof (holds_length _ _ Hh) as Hsz. pose proof (length_contents b1 Hw1) as Hl1.
  rewrite E. cbn [rbind snd].
  assert (P2 : l2 b1 = Some (b_data b1 + 4) /\ l2_5 b1 = Some (b_data b1 + 4 + Z.of_nat l)).
  { unfold rel_layers, shift_layers, rel in Gl. simpl in Gl. rewrite E2, E25 in Gl. simpl in Gl.
    injection Gl as G1 G2 _ _ _. split.
    - destruct (l2 b1); [|discriminate G1]. simpl in G1. injection G1 as G1. f_equal. lia.
    - destruct (l2_5 b1); [|discriminate G2]. simpl in G2. injection G2 as G2. f_equal. lia. }
  destruct P2 as [P2 P25]. rewrite P2, P25. cbn [the rbind].
  replace (b_data b1 + 4 + Z.of_nat l - (b_data b1 + 4)) with (Z.of_nat l) by lia.
  destruct (memmove_contents b1 0 4 l Hw1) as (b2 & M2 & Hw2 & F2 & Hc2); [lia|lia|].
  change (Z.of_nat 4) with 4 in M2. change (Z.of_nat 0) with 0 in M2.
  rewrite Z.add_0_r in M2. rewrite M2. cbn [rbind].
  pose proof F2 as (_ & _ & D2 & Z2 & _ & _ & Fg & Fh & Fi & _).
  destruct (st_contents b2 l mh Hw2) as (b3 & S3 & Hw3 & F3 & Hc3); [lia|].
  rewrite D2 in S3. rewrite S3. cbn [rbind].
  pose proof F3 as (_ & _ & D3 & _ & _ & _ & Fg3 & Fh3 & Fi3 & _).
  eexists. split; [done|]. split.
  - split; [destruct Hw3; by split|]. change (contents b3 = Some <$> take l xs ++ mh ++ drop l xs).
    rewrite Hc3, Hc2, Hc1, (proj2 Hh).
    rewrite (drop_app_length' c) by lia. rewrite <- fmap_take.
    assert (Hlt : length (Some <$> take l xs) = l) by (rewrite length_fmap, length_take; lia).
    assert (Ep : patch 0 (Some <$> take l xs) (c ++ (Some <$> xs)) =
                 (Some <$> take l xs) ++ drop l (c ++ (Some <$> xs))).
    { unfold patch. simpl. by rewrite Hlt. }
    rewrite Ep. unfold patch. rewrite take_app_length' by done. rewrite !fmap_app. f_equal. f_equal.
    rewrite length_fmap, Hm. rewrite <- Hlt at 1. rewrite drop_app_add, drop_drop.
    replace (l + 4)%nat with (length c + l)%nat by lia. by rewrite drop_app_add, fmap_drop.
  - unfold rel_layers, shift_layers, rel in *. simpl in *.
    rewrite D3, D2, Fg3, Fh3, Fi3, Fg, Fh, Fi.
    injection Gl as _ _ G3 G4 G5. rewrite <- G3, <- G4, <- G5.
    replace (b_data b1 + 4 - 4 - b_data b1) with 0 by lia.
    by replace (b_data b1 + 4 + Z.of_nat l - 4 - b_data b1) with (Z.of_nat l) by lia.
Qed.

Lemma pop_mpls_spec b h mh t l ty : holds b (h ++ mh ++ t) -> bytes_ok (h ++ mh ++ t) ->
  length h = l -> length mh = 4%nat -> (14 <= l)%nat -> in_u16 ty ->
  l2 b = Some (b_data b) -> l2_5 b = Some (b_data b + Z.of_nat l) ->
  exists b', pop_mpls b ty = Ok b' /\
    holds b' (patch (type_ofs l (h ++ mh ++ t)) (le16_bytes ty) h ++ t) /\
    rel_layers b' = Some 0 :: (if mpls_lse_to_bos (le_word mh) then None else Some (Z.of_nat l))
                    :: drop 2 (shift_layers (-4) (rel_layers b)).
Proof.
  intros Hh Hb Hlh Hlm Hl Ht E2 E25. unfold pop_mpls. rewrite E25, E2. cbn [the rbind].
  set (xs := h ++ mh ++ t) in *.
  assert (Hlx : length xs = (l + 4 + length t)%nat) by (unfold xs; rewrite !length_app; lia).
  destruct (set_ethertype_spec b xs l ty Hh) as (b1 & S1 & H1 & F1);
    [lia|done|by rewrite E25|].
  set (o := type_ofs l xs) in *.
  assert (Ho : (o + 2 <= l)%nat) by (unfold o, type_ofs; destruct (_ =? _); lia).
  rewrite S1. cbn [rbind]. pose proof F1 as (_ & _ & D1 & Z1 & _ & _ & Fg & Fh & Fi & _).
  assert (Eys : patch o (le16_bytes ty) xs = patch o (le16_bytes ty) h ++ mh ++ t).
  { unfold patch, xs. rewrite take_app_le, drop_app_le by (simpl; lia). by rewrite <- !app_assoc. }
  set (h' := patch o (le16_bytes ty) h) in *.
  assert (Hlh' : length h' = l) by (unfold h'; rewrite length_patch; simpl; lia).
  rewrite Eys in H1.
  assert (Hb1 : bytes_ok (h' ++ mh ++ t)).
  { rewrite <- Eys. apply bytes_ok_patch; [by apply le16_bytes_ok|done]. }
  rewrite (get_be32_at b1 _ H1 l) by (done || rewrite ?D1, ?length_app; lia). cbn [rbind].
  assert (Rm : region l 4 (h' ++ mh ++ t) = mh).
  { unfold region. rewrite drop_app_length' by done. by rewrite take_app_length'. }
  rewrite Rm. replace (b_data b + Z.of_nat l - b_data b) with (Z.of_nat l) by lia.
  change MPLS_HLEN with 4. pose proof (holds_length _ _ H1) as Hsz.
  rewrite !length_app, Hlh', Hlm in Hsz.
  destruct (memmove_contents b1 4 0 l (proj1 H1)) as (b2 & M2 & Hw2 & F2 & Hc2); [lia|lia|].
  change (Z.of_nat 4) with 4 in M2. change (Z.of_nat 0) with 0 in M2.
  rewrite Z.add_0_r in M2. rewrite M2. cbn [rbind].
  pose proof F2 as (_ & _ & D2 & Z2 & _ & _ & Fg2 & Fh2 & Fi2 & _).
  rewrite u32_id by (destruct Hw2; unfold in_u32; lia).
  destruct (extent_pull b2 4 Hw2 ltac:(lia)) as [Hw3 Hc3].
  eexists. split; [done|]. split.
  - split; [destruct Hw3; by split|].
    change (contents (with_extent b2 (b_data b2 + 4) (b_size b2 - 4)) = Some <$> h' ++ t).
    rewrite Hc3, Hc2, (proj2 H1). rewrite drop_0, <- fmap_take, <- patch_fmap.
    change (Z.to_nat 4) with 4%nat. rewrite <- fmap_drop. f_equal.
    rewrite take_app_length' by done. unfold patch. rewrite Hlh'.
    rewrite drop_app_length' by (rewrite length_take, !length_app; lia). f_equal.
    replace (4 + l)%nat with (length h' + (length mh + 0))%nat by lia.
    rewrite drop_app_add, drop_app_add. by rewrite drop_0.
  - unfold rel_layers, shift_layers, rel. simpl. rewrite D2, D1.
    rewrite Fg2, Fh2, Fi2, Fg, Fh, Fi, !(shift_rel (b_data b) 4).
    replace (b_data b + 4 - (b_data b + 4)) with 0 by lia. unfold mpls_lse_to_bos.
    destruct (negb _); simpl; [done|].
    by replace (b_data b + Z.of_nat l + 4 - b_data b + - (4)) with (Z.of_nat l) by lia.
Qed.

(** The entry is put where the type was said to end. *)
Definition push_entry (l : nat) (ty lse : Z) (xs : list Z) : list Z :=
  let ys := patch (type_ofs l xs) (le16_bytes ty) xs in take l ys ++ le32_bytes lse ++ drop l ys.

Lemma patch_restore k (zs xs : list Z) : (k + length zs <= length xs)%nat ->
  patch k (region k (length zs) xs) (patch k zs xs) = xs.
Proof.
  intros Hl. pose proof (length_region k (length zs) xs Hl) as Hr.
  pose proof (length_patch k zs xs Hl) as Hp. apply list_eq. intros i.
  destruct (decide (i < k \/ k + length zs <= i)%nat) as [Hd|Hd].
  - rewrite !lookup_patch by lia. done.
  - replace i with (k + (i - k))%nat by lia. rewrite lookup_patch_in by lia.
    apply lookup_region. lia.
Qed.

Lemma patch_region k k' n (zs xs : list Z) : (k' + length zs <= length xs)%nat ->
  (k + n <= k' \/ k' + length zs <= k)%nat -> region k n (patch k' zs xs) = region k n xs.
Proof. intros. apply region_patch_out; [done|tauto]. Qed.

(** The place of the type does not move when the entry is pushed. *)
Lemma type_ofs_push_entry l ty lse xs : (14 <= l <= length xs)%nat -> in_u16 ty ->
  ty <> htons ETH_TYPE_VLAN -> (f16 12 xs = htons ETH_TYPE_VLAN -> (18 <= l)%nat) ->
  type_ofs l (push_entry l ty lse xs) = type_ofs l xs.
Proof.
  intros Hl Ht Hne Hv. unfold push_entry. set (ys := patch _ _ xs).
  assert (E : f16 12 (take l ys ++ le32_bytes lse ++ drop l ys) = f16 12 ys).
  { assert (length ys = length xs) as Hly.
    { unfold ys. apply length_patch. unfold type_ofs. simpl.
      destruct (Z.eqb_spec (f16 12 xs) (htons ETH_TYPE_VLAN)) as [Ev|_]; [specialize (Hv Ev)|]; lia. }
    unfold f16, region. f_equal. rewrite drop_app_le, take_app_le by
      (rewrite ?length_drop, ?length_take; lia). rewrite skipn_firstn_comm, take_take. f_equal. lia. }
  unfold type_ofs at 1. rewrite E. unfold ys, type_ofs.
  destruct (Z.eqb_spec (f16 12 xs) (htons ETH_TYPE_VLAN)) as [Ev|Ev].
  - specialize (Hv Ev). unfold f16 at 1. rewrite patch_region by (simpl; lia). fold (f16 12 xs).
    by rewrite Ev, Z.eqb_refl.
  - rewrite f16_patch_eq by (done || lia). by destruct (Z.eqb_spec ty (htons ETH_TYPE_VLAN)).
Qed.

(** Putting the type back. *)
Lemma push_entry_restore l o ty xs : bytes_ok xs -> (o + 2 <= l)%nat -> (l <= length xs)%nat ->
  let ys := patch o (le16_bytes ty) xs in
  patch o (le16_bytes (f16 o xs)) (take l ys) ++ drop l ys = xs.
Proof.
  intros Hb Ho Hl ys. assert (Hly : length ys = length xs) by (apply length_patch; simpl; lia).
  unfold f16. rewrite le16_region by (done || lia).
  transitivity (patch o (region o 2 xs) ys);
    [|exact (patch_restore o (le16_bytes ty) xs ltac:(simpl; lia))].
  rewrite <- (take_drop l ys) at 3. unfold patch. rewrite length_region by lia.
  rewrite take_app_le, drop_app_le by (rewrite length_take; lia). by rewrite <- !app_assoc.
Qed.

(** Popping the MPLS entry that was pushed gives the packet back.  A label
    stack entry with the bottom-of-stack bit pushed onto a packet without MPLS
    goes before the payload and the MPLS type replaces the packet's type, after
    the VLAN tag if there is one; popping it with the packet's own type restores
    every byte and every header pointer. *)
Theorem mpls_roundtrip b xs l ethtype lse :
  holds b xs -> bytes_ok xs -> (14 <= l <= length xs)%nat ->
  (f16 12 xs = htons ETH_TYPE_VLAN -> (18 <= l)%nat) ->
  l2 b = Some (b_data b) -> l2_5 b = None -> l3 b = Some (b_data b + Z.of_nat l) ->
  can_grow b (ofpbuf_headroom b) MPLS_HLEN ->
  eth_type_mpls ethtype = true -> in_u32 lse -> mpls_lse_to_bos lse = true ->
  exists b1 b2, push_mpls b ethtype lse = Ok b1 /\ holds b1 (push_entry l ethtype lse xs) /\
    pop_mpls b1 (f16 (type_ofs l xs) xs) = Ok b2 /\ holds b2 xs /\ rel_layers b2 = rel_layers b.
Proof.
  intros Hh Hb Hl Hv E2 E25 E3 Hg Hty Hlse Hbos.
  assert (Ht16 : in_u16 ethtype /\ ethtype <> htons ETH_TYPE_VLAN).
  { unfold eth_type_mpls in Hty. apply orb_true_iff in Hty as [H%Z.eqb_eq|H%Z.eqb_eq]; rewrite H;
      (split; [split; vm_compute; congruence|discriminate]). }
  destruct Ht16 as [Ht16 Htv]. unfold push_mpls. rewrite Hty. unfold is_mpls. rewrite E25.
  simpl negb. cbv iota. set (o := type_ofs l xs).
  assert (Ho : (12 <= o)%nat /\ (o + 2 <= l)%nat).
  { unfold o, type_ofs. destruct (Z.eqb_spec (f16 12 xs) (htons ETH_TYPE_VLAN)); [|lia].
    specialize (Hv ltac:(done)). lia. }
  destruct (set_ethertype_spec b xs l ethtype Hh Hl Ht16) as (b1 & S1 & H1 & F1); [by rewrite E25|].
  rewrite S1. cbn [rbind]. fold o in H1. set (ys := patch o (le16_bytes ethtype) xs) in *.
  pose proof F1 as (Fa & Fs & D1 & Z1 & G2 & G25 & G3 & G4 & G7 & Fal).
  assert (Hly : length ys = length xs) by (apply length_patch; simpl; lia).
  assert (Hby : bytes_ok ys) by (apply bytes_ok_patch; [by apply le16_bytes_ok|done]).
  set (b1' := with_layers b1 _ _ _ _ _).
  assert (H1' : holds b1' ys) by (destruct H1 as [[? ? ? ?] ?]; split; [by split|done]).
  destruct (push_mpls_lse_spec b1' ys l (le32_bytes lse) H1') as (b2 & S2 & H2 & R2);
    [lia|done|simpl; congruence|simpl; congruence| |].
  { destruct Hg as (g1 & g2 & g3). split; [done|]. unfold ofpbuf_headroom, ofpbuf_tailroom,
      ofpbuf_end, ofpbuf_tail in *.
    change (b_allocated b1') with (b_allocated b1). simpl. rewrite Fs, D1, Z1, Fal. by split. }
  rewrite S2. exists b2. unfold rel_layers, shift_layers, rel in R2. simpl in R2.
  destruct (l2 b2) as [p2|] eqn:Ep2; [|discriminate R2].
  destruct (l2_5 b2) as [p25|] eqn:Ep25; [|discriminate R2]. simpl in R2.
  injection R2 as Rp2 Rp25 R3 R4 R7. assert (Htl : length (take l ys) = l) by (rewrite length_take; lia).
  assert (Hbl : bytes_ok (take l ys ++ le32_bytes lse ++ drop l ys)).
  { apply bytes_ok_field; [by apply Forall_take|by apply le32_bytes_ok|by apply Forall_drop]. }
  pose proof (f16_u16 o xs Hb ltac:(lia)) as Hf.
  destruct (pop_mpls_spec b2 (take l ys) (le32_bytes lse) (drop l ys) l (f16 o xs) H2 Hbl Htl)
    as (b3 & S3 & H3 & R3'); [done|lia|done|rewrite Ep2; f_equal; lia|rewrite Ep25; f_equal; lia|].
  exists b3. split; [done|]. split; [exact H2|]. split; [exact S3|].
  rewrite le_word_le32, Hbos in R3' by done.
  pose proof (type_ofs_push_entry l ethtype lse xs Hl Ht16 Htv Hv) as Ety.
  unfold push_entry in Ety. fold o in Ety. fold ys in Ety. rewrite Ety in H3.
  pose proof (push_entry_restore l o ethtype xs Hb ltac:(lia) ltac:(lia)) as Ex. fold ys in Ex.
  rewrite Ex in H3. split; [done|].
  rewrite R3'. unfold rel_layers, shift_layers, rel. simpl. rewrite E2, E25, R3, R4, R7.
  unfold b1'. simpl. rewrite D1, G3, G4, G7, Z.sub_diag. do 2 f_equal.
  exact (shift_layers_inv 4 [rel b (l3 b); rel b (l4 b); rel b (l7 b)]).
Qed.

Lemma mpls_roundtrip_witness :
  exists b1 b2, push_mpls tcp_packet_stub (htons ETH_TYPE_MPLS) 0x40010000 = Ok b1 /\
    holds b1 (push_entry 14 (htons ETH_TYPE_MPLS) 0x40010000 tcp_packet_bytes) /\
    pop_mpls b1 (htons ETH_TYPE_IP) = Ok b2 /\ holds b2 tcp_packet_bytes /\
    rel_layers b2 = [Some 0; None; Some 14; Some 34; Some 54].
Proof.
  apply (mpls_roundtrip tcp_packet_stub tcp_packet_bytes 14 (htons ETH_TYPE_MPLS) 0x40010000
           tcp_packet_stub_holds).
  - apply bytes_ok_dec. reflexivity.
  - vm_compute. lia.
  - intros H. vm_compute in H. discriminate H.
  - reflexivity.
  - reflexivity.
  - reflexivity.
  - split; [vm_compute; discriminate|]. split; [left; discriminate|reflexivity].
  - reflexivity.
  - split; vm_compute; congruence.
  - reflexivity.
Defined.

(** A packet with two label stack entries, the outer one without the
    bottom-of-stack bit. *)
Definition two_labels : ofpbuf :=
  Mk_ofpbuf 1 (Some <$> (take 12 tcp_packet_bytes ++ [0x88; 0x47] ++ [0; 1; 0; 64] ++ [0; 2; 1; 64]))
    OFPBUF_STACK 0 22 (Some 0) (Some 14) (Some 22) None None.

(** Popping one entry of several changes the type of the packet as well: what
    is left of the label stack follows the type of an IP packet. *)
Lemma pop_mpls_changes_type :
  exists b, pop_mpls two_labels (htons ETH_TYPE_IP) = Ok b /\
    contents b = Some <$> (take 12 tcp_packet_bytes ++ [0x08; 0x00] ++ [0; 2; 1; 64]) /\
    is_mpls b = true.
Proof. eexists. split; [vm_compute; reflexivity|]. split; vm_compute; reflexivity. Qed.

(** ** Transport ports *)

(** A change of bytes of the segment at [n4] that keeps its sum. *)
Record seg_same (n4 sl : nat) (xs ys : list Z) : Prop := {
  ss_len : length ys = length xs;
  ss_bytes : bytes_ok ys;
  ss_sum : cong (rsum n4 sl ys) (rsum n4 sl xs)
}.

Lemma packet_set_port_spec b xs n4 sl kp kc new : holds b xs -> bytes_ok xs ->
  (n4 + sl <= length xs)%nat -> (n4 <= kp)%nat -> (kp + 2 <= kc)%nat -> (kc + 2 <= n4 + sl)%nat ->
  Nat.odd (kp - n4) = false -> Nat.odd (kc - n4) = false -> in_u16 new ->
  exists b' ys, packet_set_port b (b_data b + Z.of_nat kp) new (b_data b + Z.of_nat kc) = Ok b' /\
    holds b' ys /\ same_frame b b' /\ seg_same n4 sl xs ys /\ f16 kp ys = new /\
    (forall i, xs !! i <> ys !! i -> (kp <= i < kp + 2 \/ kc <= i < kc + 2)%nat).
Proof.
  intros Hh Hb Hl H1 H2 H3 Op Oc Hn. unfold packet_set_port.
  rewrite (ld16_at b xs Hh kp) by (done || lia). cbn [rbind]. fold (f16 kp xs).
  destruct (Z.eqb_spec (f16 kp xs) new) as [E|E]; simpl negb; cbv iota.
  { exists b, xs. by split_and!. }
  rewrite (ld16_at b xs Hh kc) by (done || lia). cbn [rbind]. fold (f16 kc xs).
  pose proof (f16_u16 kp xs Hb ltac:(lia)) as Hp. pose proof (f16_u16 kc xs Hb ltac:(lia)) as Hc.
  pose proof (recalc_csum16_u16 _ _ _ Hc Hp Hn) as Hc'.
  pose proof (recalc_csum16_cong _ _ _ Hc Hp Hn) as Hcg.
  set (c' := recalc_csum16 (f16 kc xs) (f16 kp xs) new) in *.
  destruct (st16_at b xs Hh kc (b_data b + Z.of_nat kc) c') as (b1 & E1 & H1' & F1); [done|lia|done|].
  rewrite E1. cbn [rbind]. pose proof F1 as (_ & _ & D1 & _).
  set (y1 := patch kc (le16_bytes c') xs) in *.
  assert (L1 : length y1 = length xs) by (apply length_patch; simpl; lia).
  destruct (st16_at b1 y1 H1' kp (b_data b + Z.of_nat kp) new) as (b2 & E2 & H2' & F2);
    [congruence|lia|done|].
  rewrite E2. exists b2, (patch kp (le16_bytes new) y1).
  assert (L2 : length (patch kp (le16_bytes new) y1) = length y1) by (apply length_patch; simpl; lia).
  split_and!; [done|done|by eapply same_frame_trans| | |].
  - split; [lia| |].
    + apply bytes_ok_patch; [by apply le16_bytes_ok|]. apply bytes_ok_patch; [by apply le16_bytes_ok|done].
    + rewrite rsum_patch_in by (simpl; lia). rewrite Op, wsum_le16 by done.
      simpl (length (le16_bytes new)). rewrite f16_wsum by lia. unfold y1 at 2.
      unfold f16. rewrite patch_region by (simpl; lia). fold (f16 kp xs).
      unfold y1. rewrite rsum_patch_in by (simpl; lia). rewrite Oc, wsum_le16 by done.
      simpl (length (le16_bytes c')). rewrite f16_wsum by lia.
      set (s := rsum n4 sl xs). set (p := f16 kp xs) in *. set (c := f16 kc xs) in *.
      replace (s - c + c' - p + new) with (s - c - p + (c' + new)) by lia. rewrite Hcg.
      by replace (s - c - p + (c + p)) with s by lia.
  - apply f16_patch_eq; [done|lia].
  - intros i Hi. destruct (decide (kp <= i < kp + 2 \/ kc <= i < kc + 2)%nat); [done|].
    destruct Hi. unfold y1. rewrite !lookup_patch by (simpl; rewrite ?length_patch; simpl; lia). done.
Qed.

(** A checksum over a pseudo-header [ph] and the segment. *)
Definition tp_valid (ph : list Z) (n4 sl : nat) (xs : list Z) : Prop :=
  csum (ph ++ region n4 sl xs) = 0.

Lemma seg_same_valid ph n4 sl xs ys : seg_same n4 sl xs ys -> bytes_ok xs -> bytes_ok ph ->
  even_bytes ph -> 0 < sum16 ph -> (n4 + sl <= length xs)%nat ->
  Z.of_nat (length ph + sl) <= CSUM_MAX -> tp_valid ph n4 sl ys <-> tp_valid ph n4 sl xs.
Proof.
  intros [L B C] Hx Hp He Hpos Hl Hm. unfold tp_valid.
  assert (Hb : forall zs, bytes_ok zs -> bytes_ok (ph ++ region n4 sl zs)).
  { intros zs Hz. unfold bytes_ok in *. rewrite List.Forall_app. split; [done|].
    by apply bytes_ok_region. }
  apply csum_zero_cong; auto; rewrite ?length_app, ?length_region, ?sum16_app by (done || lia);
    try lia; try (fold (rsum n4 sl xs); fold (rsum n4 sl ys)).
  - by rewrite C.
  - pose proof (sum16_nonneg _ (bytes_ok_region n4 sl xs Hx)). unfold rsum. lia.
  - pose proof (sum16_nonneg _ (bytes_ok_region n4 sl ys B)). unfold rsum. lia.
Qed.

Lemma seg_same_trans n4 sl xs ys zs : seg_same n4 sl xs ys -> seg_same n4 sl ys zs ->
  seg_same n4 sl xs zs.
Proof. intros [A1 A2 A3] [B1 B2 B3]. split; [congruence|done|by rewrite B3]. Qed.

(** Both ports of a segment whose checksum is at [co]. *)
Lemma set_both_ports b xs n4 sl co src dst : holds b xs -> bytes_ok xs ->
  (n4 + sl <= length xs)%nat -> (4 <= co)%nat -> (co + 2 <= sl)%nat -> Nat.odd co = false ->
  in_u16 src -> in_u16 dst ->
  let th := b_data b + Z.of_nat n4 in
  exists b1 b' ys,
    packet_set_port b th src (th + Z.of_nat co) = Ok b1 /\
    packet_set_port b1 (th + tp_dst_ofs) dst (th + Z.of_nat co) = Ok b' /\
    holds b' ys /\ same_frame b b' /\ seg_same n4 sl xs ys /\ f16 n4 ys = src /\
    f16 (n4 + 2) ys = dst /\
    (forall i, xs !! i <> ys !! i -> (n4 <= i < n4 + 4 \/ n4 + co <= i < n4 + co + 2)%nat).
Proof.
  intros Hh Hb Hl Hc1 Hc2 Ho Hs Hd th. unfold tp_dst_ofs.
  destruct (packet_set_port_spec b xs n4 sl n4 (n4 + co) src Hh Hb Hl) as
    (b1 & y1 & E1 & H1 & F1 & S1 & P1 & R1); try lia; try done.
  { by rewrite Nat.sub_diag. }
  { by replace (n4 + co - n4)%nat with co by lia. }
  pose proof F1 as (_ & _ & D1 & _). pose proof S1 as [L1 B1 _].
  destruct (packet_set_port_spec b1 y1 n4 sl (n4 + 2) (n4 + co) dst H1 B1) as
    (b2 & y2 & E2 & H2 & F2 & S2 & P2 & R2); try lia; try done.
  { by replace (n4 + 2 - n4)%nat with 2%nat by lia. }
  { by replace (n4 + co - n4)%nat with co by lia. }
  exists b1, b2, y2. pose proof S2 as [L2 _ _]. unfold th.
  replace (b_data b + Z.of_nat n4 + Z.of_nat co) with (b_data b + Z.of_nat (n4 + co)) by lia.
  replace (b_data b + Z.of_nat n4 + 2) with (b_data b + Z.of_nat (n4 + 2)) by lia.
  rewrite D1 in E2.
  split_and!; [done|done|done|by eapply same_frame_trans|by eapply seg_same_trans| |done|].
  - rewrite <- P1. unfold f16. f_equal. apply region_ext; [done|]. intros i Hi.
    destruct (decide (y1 !! i = y2 !! i)) as [|Hne]; [done|]. specialize (R2 i Hne). lia.
  - intros i Hi. destruct (decide (xs !! i = y1 !! i)) as [E|Hne].
    + assert (y1 !! i <> y2 !! i) as Hne by congruence. specialize (R2 i Hne). lia.
    + specialize (R1 i Hne). lia.
Qed.

Lemma f16_patch_other k k' bs xs : (k' + length bs <= length xs)%nat ->
  (k + 2 <= k' \/ k' + length bs <= k)%nat -> f16 k (patch k' bs xs) = f16 k xs.
Proof. intros H1 H2. unfold f16. rewrite region_patch_out; [done|lia|lia]. Qed.

Lemma patch_changes k bs (xs : list Z) i : (k + length bs <= length xs)%nat ->
  xs !! i <> patch k bs xs !! i -> (k <= i < k + length bs)%nat.
Proof.
  intros Hk Hi. destruct (decide (k <= i < k + length bs)%nat); [done|].
  destruct Hi. rewrite lookup_patch by lia. done.
Qed.

(** The value that stands for a checksum of zero is as good as zero. *)
Lemma seg_same_ffff n4 sl kc xs : bytes_ok xs -> (n4 + sl <= length xs)%nat -> (n4 <= kc)%nat ->
  (kc + 2 <= n4 + sl)%nat -> Nat.odd (kc - n4) = false -> f16 kc xs = 0 ->
  seg_same n4 sl xs (patch kc (le16_bytes (htons 0xffff)) xs).
Proof.
  intros Hb Hl H1 H2 Ho E. assert (U : in_u16 (htons 0xffff)) by (split; vm_compute; congruence).
  split; [apply length_patch; simpl; lia|apply bytes_ok_patch; [by apply le16_bytes_ok|done]|].
  rewrite rsum_patch_in by (simpl; lia). rewrite Ho, wsum_le16 by done.
  simpl (length (le16_bytes _)). rewrite f16_wsum, E by lia.
  change (htons 0xffff) with 65535. rewrite Z.sub_0_r. exact (cong_mult _ 1).
Qed.

(** The UDP case: the checksum is kept absent, or kept right and present. *)
Lemma packet_set_udp_port_spec b xs n4 sl src dst :
  holds b xs -> bytes_ok xs -> l4 b = Some (b_data b + Z.of_nat n4) ->
  (n4 + sl <= length xs)%nat -> (8 <= sl)%nat -> in_u16 src -> in_u16 dst ->
  exists b' ys, packet_set_udp_port b src dst = Ok b' /\ holds b' ys /\
    f16 n4 ys = src /\ f16 (n4 + 2) ys = dst /\ (f16 (n4 + 6) ys = 0 <-> f16 (n4 + 6) xs = 0) /\
    (f16 (n4 + 6) xs <> 0 -> seg_same n4 sl xs ys) /\
    forall i, xs !! i <> ys !! i -> (n4 <= i < n4 + 4 \/ n4 + 6 <= i < n4 + 8)%nat.
Proof.
  intros Hh Hb E4 Hl Hsl Hs Hd. unfold packet_set_udp_port. rewrite E4. cbn [the rbind].
  change udp_csum_ofs with (Z.of_nat 6).
  rewrite (ld16_at b xs Hh (n4 + 6)) by lia. cbn [rbind]. fold (f16 (n4 + 6) xs).
  destruct (Z.eqb_spec (f16 (n4 + 6) xs) 0) as [Z0|Z0]; simpl negb; cbv iota.
  - destruct (st16_at b xs Hh n4 (b_data b + Z.of_nat n4) src) as (b1 & E1 & H1 & F1); [done|lia|done|].
    rewrite E1. cbn [rbind]. pose proof F1 as (_ & _ & D1 & _).
    assert (L1 : length (patch n4 (le16_bytes src) xs) = length xs) by (apply length_patch; simpl; lia).
    destruct (st16_at b1 _ H1 (n4 + 2) (b_data b + Z.of_nat n4 + tp_dst_ofs) dst) as (b2 & E2 & H2 & F2);
      [unfold tp_dst_ofs; lia|lia|done|].
    exists b2. eexists. split; [exact E2|]. split; [exact H2|].
    rewrite (f16_patch_other n4), (f16_patch_other (n4 + 6)), (f16_patch_other (n4 + 6)) by (simpl; lia).
    rewrite !f16_patch_eq by (done || lia).
    split_and!; [done|done|done|by intros ?|]. intros i Hi.
    destruct (decide (xs !! i = patch n4 (le16_bytes src) xs !! i)) as [Ei|Hne].
    + rewrite Ei in Hi. apply patch_changes in Hi; simpl in *; lia.
    + apply patch_changes in Hne; simpl in *; lia.
  - destruct (set_both_ports b xs n4 sl 6 src dst Hh Hb Hl) as
      (b1 & b2 & ys & E1 & E2 & H2 & F & S & P1 & P2 & R); try lia; try done.
    rewrite E1. cbn [rbind]. rewrite E2. cbn [rbind]. pose proof F as (_ & _ & D & _).
    pose proof S as [L B _].
    rewrite (ld16_at b2 ys H2 (n4 + 6)) by lia. cbn [rbind]. fold (f16 (n4 + 6) ys).
    destruct (Z.eqb_spec (f16 (n4 + 6) ys) 0) as [Y0|Y0].
    + assert (U : in_u16 (htons 0xffff)) by (split; vm_compute; congruence).
      destruct (st16_at b2 ys H2 (n4 + 6) (b_data b + Z.of_nat n4 + Z.of_nat 6) (htons 0xffff))
        as (b3 & E3 & H3 & F3); [lia|lia|done|].
      exists b3. eexists. split; [exact E3|]. split; [exact H3|].
      rewrite !f16_patch_other by (simpl; lia). rewrite f16_patch_eq by (done || lia).
      split_and!; [done|done|split; [vm_compute; discriminate|done]| |].
      * intros _. eapply seg_same_trans; [exact S|]. apply seg_same_ffff; try done; try lia.
        by replace (n4 + 6 - n4)%nat with 6%nat by lia.
      * intros i Hi. destruct (decide (xs !! i = ys !! i)) as [Ei|Hne].
        -- rewrite Ei in Hi. apply patch_changes in Hi; simpl in *; lia.
        -- specialize (R i Hne). lia.
    + exists b2, ys. split_and!; try done. intros i Hi. specialize (R i Hi). lia.
Qed.

(** Rewriting the ports of a TCP or UDP segment sets the ports and leaves the
    checksum right if and only if it was right, over any pseudo-header; a UDP
    segment without a checksum still has none, and one with a checksum never
    gets the value that means none.  No byte other than the ports and the
    checksum changes. *)
Theorem packet_set_ports_ok b xs n4 sl ph src dst :
  holds b xs -> bytes_ok xs -> l4 b = Some (b_data b + Z.of_nat n4) ->
  (n4 + sl <= length xs)%nat -> in_u16 src -> in_u16 dst ->
  bytes_ok ph -> even_bytes ph -> 0 < sum16 ph -> Z.of_nat (length ph + sl) <= CSUM_MAX ->
  ((18 <= sl)%nat -> exists b' ys, packet_set_tcp_port b src dst = Ok b' /\ holds b' ys /\
     f16 n4 ys = src /\ f16 (n4 + 2) ys = dst /\ (tp_valid ph n4 sl ys <-> tp_valid ph n4 sl xs) /\
     forall i, xs !! i <> ys !! i -> (n4 <= i < n4 + 4 \/ n4 + 16 <= i < n4 + 18)%nat) /\
  ((8 <= sl)%nat -> exists b' ys, packet_set_udp_port b src dst = Ok b' /\ holds b' ys /\
     f16 n4 ys = src /\ f16 (n4 + 2) ys = dst /\ (f16 (n4 + 6) ys = 0 <-> f16 (n4 + 6) xs = 0) /\
     (f16 (n4 + 6) xs <> 0 -> tp_valid ph n4 sl ys <-> tp_valid ph n4 sl xs) /\
     forall i, xs !! i <> ys !! i -> (n4 <= i < n4 + 4 \/ n4 + 6 <= i < n4 + 8)%nat).
Proof.
  intros Hh Hb E4 Hl Hs Hd Hp He Hpos Hm. split; intros Hsl.
  - unfold packet_set_tcp_port. rewrite E4. cbn [the rbind]. change tcp_csum_ofs with (Z.of_nat 16).
    destruct (set_both_ports b xs n4 sl 16 src dst Hh Hb Hl) as
      (b1 & b' & ys & E1 & E2 & H' & F & S & P1 & P2 & R); try lia; try done.
    exists b', ys. rewrite E1. cbn [rbind].
    split_and!; try done; [by apply seg_same_valid|].
    intros i Hi. specialize (R i Hi). lia.
  - destruct (packet_set_udp_port_spec b xs n4 sl src dst Hh Hb E4 Hl Hsl Hs Hd) as
      (b' & ys & E & H' & P1 & P2 & Z0 & S & R).
    exists b', ys. split_and!; try done. intros Hc. apply seg_same_valid; auto.
Qed.

(** The pseudo-header of [tcp_packet]. *)
Definition tcp_packet_ph : list Z := [10; 0; 0; 1; 10; 0; 0; 2; 0; 6; 0; 20].

Lemma packet_set_ports_ok_witness :
  exists b' ys, packet_set_tcp_port tcp_packet (htons 4711) (htons 8080) = Ok b' /\
    holds b' ys /\ f16 34 ys = htons 4711 /\ f16 36 ys = htons 8080 /\ tp_valid tcp_packet_ph 34 20 ys.
Proof.
  destruct (packet_set_ports_ok tcp_packet tcp_packet_bytes 34 20 tcp_packet_ph (htons 4711) (htons 8080)
              tcp_packet_holds) as [T _].
  - apply bytes_ok_dec. reflexivity.
  - reflexivity.
  - vm_compute. lia.
  - split; vm_compute; congruence.
  - split; vm_compute; congruence.
  - apply bytes_ok_dec. reflexivity.
  - repeat constructor.
  - reflexivity.
  - vm_compute. discriminate.
  - destruct T as (b' & ys & E & H & P1 & P2 & V & _); [lia|].
    exists b', ys. split; [exact E|]. split; [exact H|]. split; [exact P1|]. split; [exact P2|].
    apply V. reflexivity.
Defined.
