(* ===== verification/Flow.v ===== *)
(** * Flows ([lib/flow.c], [lib/flow.h])

    The description of a packet by its header fields: [struct flow],
    [flow_extract], which reads the fields from the bytes of a packet, and
    [flow_compose], which makes a packet from the fields.

    [flow_extract] works on a copy of the buffer structure: both share the block
    of memory, and the copy's start moves over the headers.  Values of the types
    [ovs_be16] and [ovs_be32] are what a little-endian host loads; addresses are
    lists of bytes.  The pointers that [flow_compose] keeps while it adds data
    are checked against reallocation ([deref]). *)

From Stdlib Require Import ZArith Lia List.
From stdpp Require Import base option list_relations list.
From S2P Require Import Prelude Bytes Csum Ofpbuf Packets.
#[local] Open Scope Z_scope.
#[local] Open Scope res_scope.

(** ** The program: data *)

Record flow_tnl := Mk_tnl {
  tun_id : Z;
  ip_src : Z;
  ip_dst : Z;
  flags : Z;
  ip_tos : Z;
  ip_ttl : Z
}.

Record flow := Mk_flow {
  tunnel : flow_tnl;
  metadata : Z;
  regs : list Z;
  skb_priority : Z;
  pkt_mark : Z;
  in_port : Z;
  dl_src : list Z;
  dl_dst : list Z;
  dl_type : Z;
  vlan_tci : Z;
  mpls_lse : Z;
  ipv6_src : list Z;
  ipv6_dst : list Z;
  nd_target : list Z;
  ipv6_label : Z;
  nw_src : Z;
  nw_dst : Z;
  nw_frag : Z;
  nw_tos : Z;
  nw_ttl : Z;
  nw_proto : Z;
  arp_sha : list Z;
  arp_tha : list Z;
  tcp_flags : Z;
  pad : Z;
  tp_src : Z;
  tp_dst : Z
}.

Definition set_dl_src (v : list Z) (f : flow) : flow :=
  Mk_flow (tunnel f) (metadata f) (regs f) (skb_priority f) (pkt_mark f) (in_port f) v
    (dl_dst f) (dl_type f) (vlan_tci f) (mpls_lse f) (ipv6_src f) (ipv6_dst f) (nd_target f)
    (ipv6_label f) (nw_src f) (nw_dst f) (nw_frag f) (nw_tos f) (nw_ttl f) (nw_proto f)
    (arp_sha f) (arp_tha f) (tcp_flags f) (pad f) (tp_src f) (tp_dst f).

Definition set_dl_dst (v : list Z) (f : flow) : flow :=
  Mk_flow (tunnel f) (metadata f) (regs f) (skb_priority f) (pkt_mark f) (in_port f)
    (dl_src f) v (dl_type f) (vlan_tci f) (mpls_lse f) (ipv6_src f) (ipv6_dst f) (nd_target f)
    (ipv6_label f) (nw_src f) (nw_dst f) (nw_frag f) (nw_tos f) (nw_ttl f) (nw_proto f)
    (arp_sha f) (arp_tha f) (tcp_flags f) (pad f) (tp_src f) (tp_dst f).

Definition set_dl_type (v : Z) (f : flow) : flow :=
  Mk_flow (tunnel f) (metadata f) (regs f) (skb_priority f) (pkt_mark f) (in_port f)
    (dl_src f) (dl_dst f) v (vlan_tci f) (mpls_lse f) (ipv6_src f) (ipv6_dst f) (nd_target f)
    (ipv6_label f) (nw_src f) (nw_dst f) (nw_frag f) (nw_tos f) (nw_ttl f) (nw_proto f)
    (arp_sha f) (arp_tha f) (tcp_flags f) (pad f) (tp_src f) (tp_dst f).

Definition set_vlan_tci (v : Z) (f : flow) : flow :=
  Mk_flow (tunnel f) (metadata f) (regs f) (skb_priority f) (pkt_mark f) (in_port f)
    (dl_src f) (dl_dst f) (dl_type f) v (mpls_lse f) (ipv6_src f) (ipv6_dst f) (nd_target f)
    (ipv6_label f) (nw_src f) (nw_dst f) (nw_frag f) (nw_tos f) (nw_ttl f) (nw_proto f)
    (arp_sha f) (arp_tha f) (tcp_flags f) (pad f) (tp_src f) (tp_dst f).

Definition set_flow_mpls_lse (v : Z) (f : flow) : flow :=
  Mk_flow (tunnel f) (metadata f) (regs f) (skb_priority f) (pkt_mark f) (in_port f)
    (dl_src f) (dl_dst f) (dl_type f) (vlan_tci f) v (ipv6_src f) (ipv6_dst f) (nd_target f)
    (ipv6_label f) (nw_src f) (nw_dst f) (nw_frag f) (nw_tos f) (nw_ttl f) (nw_proto f)
    (arp_sha f) (arp_tha f) (tcp_flags f) (pad f) (tp_src f) (tp_dst f).

Definition set_ipv6_src (v : list Z) (f : flow) : flow :=
  Mk_flow (tunnel f) (metadata f) (regs f) (skb_priority f) (pkt_mark f) (in_port f)
    (dl_src f) (dl_dst f) (dl_type f) (vlan_tci f) (mpls_lse f) v (ipv6_dst f) (nd_target f)
    (ipv6_label f) (nw_src f) (nw_dst f) (nw_frag f) (nw_tos f) (nw_ttl f) (nw_proto f)
    (arp_sha f) (arp_tha f) (tcp_flags f) (pad f) (tp_src f) (tp_dst f).

Definition set_ipv6_dst (v : list Z) (f : flow) : flow :=
  Mk_flow (tunnel f) (metadata f) (regs f) (skb_priority f) (pkt_mark f) (in_port f)
    (dl_src f) (dl_dst f) (dl_type f) (vlan_tci f) (mpls_lse f) (ipv6_src f) v (nd_target f)
    (ipv6_label f) (nw_src f) (nw_dst f) (nw_frag f) (nw_tos f) (nw_ttl f) (nw_proto f)
    (arp_sha f) (arp_tha f) (tcp_flags f) (pad f) (tp_src f) (tp_dst f).

Definition set_nd_target (v : list Z) (f : flow) : flow :=
  Mk_flow (tunnel f) (metadata f) (regs f) (skb_priority f) (pkt_mark f) (in_port f)
    (dl_src f) (dl_dst f) (dl_type f) (vlan_tci f) (mpls_lse f) (ipv6_src f) (ipv6_dst f) v
    (ipv6_label f) (nw_src f) (nw_dst f) (nw_frag f) (nw_tos f) (nw_ttl f) (nw_proto f)
    (arp_sha f) (arp_tha f) (tcp_flags f) (pad f) (tp_src f) (tp_dst f).

Definition set_ipv6_label (v : Z) (f : flow) : flow :=
  Mk_flow (tunnel f) (metadata f) (regs f) (skb_priority f) (pkt_mark f) (in_port f)
    (dl_src f) (dl_dst f) (dl_type f) (vlan_tci f) (mpls_lse f) (ipv6_src f) (ipv6_dst f)
    (nd_target f) v (nw_src f) (nw_dst f) (nw_frag f) (nw_tos f) (nw_ttl f) (nw_proto f)
    (arp_sha f) (arp_tha f) (tcp_flags f) (pad f) (tp_src f) (tp_dst f).

Definition set_nw_src (v : Z) (f : flow) : flow :=
  Mk_flow (tunnel f) (metadata f) (regs f) (skb_priority f) (pkt_mark f) (in_port f)
    (dl_src f) (dl_dst f) (dl_type f) (vlan_tci f) (mpls_lse f) (ipv6_src f) (ipv6_dst f)
    (nd_target f) (ipv6_label f) v (nw_dst f) (nw_frag f) (nw_tos f) (nw_ttl f) (nw_proto f)
    (arp_sha f) (arp_tha f) (tcp_flags f) (pad f) (tp_src f) (tp_dst f).

Definition set_nw_dst (v : Z) (f : flow) : flow :=
  Mk_flow (tunnel f) (metadata f) (regs f) (skb_priority f) (pkt_mark f) (in_port f)
    (dl_src f) (dl_dst f) (dl_type f) (vlan_tci f) (mpls_lse f) (ipv6_src f) (ipv6_dst f)
    (nd_target f) (ipv6_label f) (nw_src f) v (nw_frag f) (nw_tos f) (nw_ttl f) (nw_proto f)
    (arp_sha f) (arp_tha f) (tcp_flags f) (pad f) (tp_src f) (tp_dst f).

Definition set_nw_frag (v : Z) (f : flow) : flow :=
  Mk_flow (tunnel f) (metadata f) (regs f) (skb_priority f) (pkt_mark f) (in_port f)
    (dl_src f) (dl_dst f) (dl_type f) (vlan_tci f) (mpls_lse f) (ipv6_src f) (ipv6_dst f)
    (nd_target f) (ipv6_label f) (nw_src f) (nw_dst f) v (nw_tos f) (nw_ttl f) (nw_proto f)
    (arp_sha f) (arp_tha f) (tcp_flags f) (pad f) (tp_src f) (tp_dst f).

Definition set_nw_tos (v : Z) (f : flow) : flow :=
  Mk_flow (tunnel f) (metadata f) (regs f) (skb_priority f) (pkt_mark f) (in_port f)
    (dl_src f) (dl_dst f) (dl_type f) (vlan_tci f) (mpls_lse f) (ipv6_src f) (ipv6_dst f)
    (nd_target f) (ipv6_label f) (nw_src f) (nw_dst f) (nw_frag f) v (nw_ttl f) (nw_proto f)
    (arp_sha f) (arp_tha f) (tcp_flags f) (pad f) (tp_src f) (tp_dst f).

Definition set_nw_ttl (v : Z) (f : flow) : flow :=
  Mk_flow (tunnel f) (metadata f) (regs f) (skb_priority f) (pkt_mark f) (in_port f)
    (dl_src f) (dl_dst f) (dl_type f) (vlan_tci f) (mpls_lse f) (ipv6_src f) (ipv6_dst f)
    (nd_target f) (ipv6_label f) (nw_src f) (nw_dst f) (nw_frag f) (nw_tos f) v (nw_proto f)
    (arp_sha f) (arp_tha f) (tcp_flags f) (pad f) (tp_src f) (tp_dst f).

Definition set_nw_proto (v : Z) (f : flow) : flow :=
  Mk_flow (tunnel f) (metadata f) (regs f) (skb_priority f) (pkt_mark f) (in_port f)
    (dl_src f) (dl_dst f) (dl_type f) (vlan_tci f) (mpls_lse f) (ipv6_src f) (ipv6_dst f)
    (nd_target f) (ipv6_label f) (nw_src f) (nw_dst f) (nw_frag f) (nw_tos f) (nw_ttl f) v
    (arp_sha f) (arp_tha f) (tcp_flags f) (pad f) (tp_src f) (tp_dst f).

Definition set_arp_sha (v : list Z) (f : flow) : flow :=
  Mk_flow (tunnel f) (metadata f) (regs f) (skb_priority f) (pkt_mark f) (in_port f)
    (dl_src f) (dl_dst f) (dl_type f) (vlan_tci f) (mpls_lse f) (ipv6_src f) (ipv6_dst f)
    (nd_target f) (ipv6_label f) (nw_src f) (nw_dst f) (nw_frag f) (nw_tos f) (nw_ttl f)
    (nw_proto f) v (arp_tha f) (tcp_flags f) (pad f) (tp_src f) (tp_dst f).

Definition set_arp_tha (v : list Z) (f : flow) : flow :=
  Mk_flow (tunnel f) (metadata f) (regs f) (skb_priority f) (pkt_mark f) (in_port f)
    (dl_src f) (dl_dst f) (dl_type f) (vlan_tci f) (mpls_lse f) (ipv6_src f) (ipv6_dst f)
    (nd_target f) (ipv6_label f) (nw_src f) (nw_dst f) (nw_frag f) (nw_tos f) (nw_ttl f)
    (nw_proto f) (arp_sha f) v (tcp_flags f) (pad f) (tp_src f) (tp_dst f).

Definition set_tcp_flags (v : Z) (f : flow) : flow :=
  Mk_flow (tunnel f) (metadata f) (regs f) (skb_priority f) (pkt_mark f) (in_port f)
    (dl_src f) (dl_dst f) (dl_type f) (vlan_tci f) (mpls_lse f) (ipv6_src f) (ipv6_dst f)
    (nd_target f) (ipv6_label f) (nw_src f) (nw_dst f) (nw_frag f) (nw_tos f) (nw_ttl f)
    (nw_proto f) (arp_sha f) (arp_tha f) v (pad f) (tp_src f) (tp_dst f).

Definition set_tp_src (v : Z) (f : flow) : flow :=
  Mk_flow (tunnel f) (metadata f) (regs f) (skb_priority f) (pkt_mark f) (in_port f)
    (dl_src f) (dl_dst f) (dl_type f) (vlan_tci f) (mpls_lse f) (ipv6_src f) (ipv6_dst f)
    (nd_target f) (ipv6_label f) (nw_src f) (nw_dst f) (nw_frag f) (nw_tos f) (nw_ttl f)
    (nw_proto f) (arp_sha f) (arp_tha f) (tcp_flags f) (pad f) v (tp_dst f).

Definition set_tp_dst (v : Z) (f : flow) : flow :=
  Mk_flow (tunnel f) (metadata f) (regs f) (skb_priority f) (pkt_mark f) (in_port f)
    (dl_src f) (dl_dst f) (dl_type f) (vlan_tci f) (mpls_lse f) (ipv6_src f) (ipv6_dst f)
    (nd_target f) (ipv6_label f) (nw_src f) (nw_dst f) (nw_frag f) (nw_tos f) (nw_ttl f)
    (nw_proto f) (arp_sha f) (arp_tha f) (tcp_flags f) (pad f) (tp_src f) v.

Definition set_metadata (v : Z) (f : flow) : flow :=
  Mk_flow (tunnel f) v (regs f) (skb_priority f) (pkt_mark f) (in_port f) (dl_src f)
    (dl_dst f) (dl_type f) (vlan_tci f) (mpls_lse f) (ipv6_src f) (ipv6_dst f) (nd_target f)
    (ipv6_label f) (nw_src f) (nw_dst f) (nw_frag f) (nw_tos f) (nw_ttl f) (nw_proto f)
    (arp_sha f) (arp_tha f) (tcp_flags f) (pad f) (tp_src f) (tp_dst f).

Definition set_regs (v : list Z) (f : flow) : flow :=
  Mk_flow (tunnel f) (metadata f) v (skb_priority f) (pkt_mark f) (in_port f) (dl_src f)
    (dl_dst f) (dl_type f) (vlan_tci f) (mpls_lse f) (ipv6_src f) (ipv6_dst f) (nd_target f)
    (ipv6_label f) (nw_src f) (nw_dst f) (nw_frag f) (nw_tos f) (nw_ttl f) (nw_proto f)
    (arp_sha f) (arp_tha f) (tcp_flags f) (pad f) (tp_src f) (tp_dst f).

Definition FLOW_N_REGS : nat := 8.
Definition FLOW_DL_TYPE_NONE : Z := 0x5ff.
Definition FLOW_NW_FRAG_ANY : Z := 1.
Definition FLOW_NW_FRAG_LATER : Z := 2.

Definition zero_tnl : flow_tnl := Mk_tnl 0 0 0 0 0 0.

(** [memset(flow, 0, sizeof *flow)] *)
Definition zero_flow : flow :=
  Mk_flow zero_tnl 0 (replicate FLOW_N_REGS 0) 0 0 0 (replicate 6 0) (replicate 6 0) 0 0 0
    (replicate 16 0) (replicate 16 0) (replicate 16 0) 0 0 0 0 0 0 0 (replicate 6 0) (replicate 6 0)
    0 0 0 0.

Definition IP_HEADER_LEN : Z := 20.
Definition TCP_HEADER_LEN : Z := 20.
Definition UDP_HEADER_LEN : Z := 8.
Definition SCTP_HEADER_LEN : Z := 12.
Definition ICMP_HEADER_LEN : Z := 8.
Definition sizeof_icmp6_hdr : Z := 8.
Definition ETH_TYPE_MIN : Z := 0x600.
Definition LLC_SNAP_HEADER_LEN : Z := 8.
Definition IP_MORE_FRAGMENTS : Z := 0x2000.
Definition IP_FRAG_OFF_MASK : Z := 0x1fff.
Definition ND_NEIGHBOR_SOLICIT : Z := 135.
Definition ND_NEIGHBOR_ADVERT : Z := 136.
Definition ND_OPT_SOURCE_LINKADDR : Z := 1.
Definition ND_OPT_TARGET_LINKADDR : Z := 2.
Definition ARP_OP_REQUEST : Z := 1.
Definition ARP_OP_REPLY : Z := 2.
Definition EINVAL : Z := 22.

Definition IP_IHL (ip_ihl_ver : Z) : Z := Z.land ip_ihl_ver 15.
Definition IP_IHL_VER (ihl ver : Z) : Z := Z.lor (Z.shiftl ver 4) ihl.
Definition IP_IS_FRAGMENT (ip_frag_off : Z) : bool :=
  negb (Z.land ip_frag_off (htons (Z.lor IP_MORE_FRAGMENTS IP_FRAG_OFF_MASK)) =? 0).
Definition IP6F_OFF_MASK : Z := htons 0xfff8.
Definition TCP_OFFSET (tcp_ctl : Z) : Z := Z.shiftr (ntohs tcp_ctl) 12.
Definition TCP_CTL (flags offset : Z) : Z := htons (Z.lor flags (Z.shiftl offset 12)).

Definition eth_addr_is_zero (ea : list Z) : bool := forallb (Z.eqb 0) ea.

(** Header pointers of a buffer. *)
Definition set_l2_5 (p : option Z) (b : ofpbuf) : ofpbuf := with_layers b (l2 b) p (l3 b) (l4 b) (l7 b).
Definition set_l3 (p : option Z) (b : ofpbuf) : ofpbuf := with_layers b (l2 b) (l2_5 b) p (l4 b) (l7 b).
Definition set_l4 (p : option Z) (b : ofpbuf) : ofpbuf := with_layers b (l2 b) (l2_5 b) (l3 b) p (l7 b).
Definition set_l7 (p : option Z) (b : ofpbuf) : ofpbuf := with_layers b (l2 b) (l2_5 b) (l3 b) (l4 b) p.

(** ** The program: taking headers off *)

Definition pull_arp (packet : ofpbuf) : Res (option Z * ofpbuf) :=
  ofpbuf_try_pull packet ARP_ETH_HEADER_LEN.

Definition pull_ip (packet : ofpbuf) : Res (option Z * ofpbuf) :=
  if IP_HEADER_LEN <=? b_size packet then
    let ip := b_data packet in
    let* ip_ihl_ver := ld8 packet ip in
    let ip_len := IP_IHL ip_ihl_ver * 4 in
    if (IP_HEADER_LEN <=? ip_len) && (ip_len <=? b_size packet)
    then let* (p, packet) := ofpbuf_pull packet ip_len in Ok (Some p, packet)
    else Ok (None, packet)
  else Ok (None, packet).

Definition pull_tcp (packet : ofpbuf) : Res (option Z * ofpbuf) :=
  if TCP_HEADER_LEN <=? b_size packet then
    let tcp := b_data packet in
    let* tcp_ctl := ld16 packet (tcp + tcp_ctl_ofs) in
    let tcp_len := TCP_OFFSET tcp_ctl * 4 in
    if (TCP_HEADER_LEN <=? tcp_len) && (tcp_len <=? b_size packet)
    then let* (p, packet) := ofpbuf_pull packet tcp_len in Ok (Some p, packet)
    else Ok (None, packet)
  else Ok (None, packet).

Definition pull_udp (packet : ofpbuf) : Res (option Z * ofpbuf) :=
  ofpbuf_try_pull packet UDP_HEADER_LEN.
Definition pull_sctp (packet : ofpbuf) : Res (option Z * ofpbuf) :=
  ofpbuf_try_pull packet SCTP_HEADER_LEN.
Definition pull_icmp (packet : ofpbuf) : Res (option Z * ofpbuf) :=
  ofpbuf_try_pull packet ICMP_HEADER_LEN.
Definition pull_icmpv6 (packet : ofpbuf) : Res (option Z * ofpbuf) :=
  ofpbuf_try_pull packet sizeof_icmp6_hdr.

(** ** The program: parsing *)

(** [fuel] bounds the number of label stack entries, four bytes each. *)
Fixpoint parse_mpls_loop (fuel : nat) (b : ofpbuf) (top : bool) (fl : flow) {struct fuel}
  : Res (ofpbuf * flow) :=
  match fuel with
  | O => Fault OutOfFuel
  | S fuel =>
      let* (mh, b) := ofpbuf_try_pull b MPLS_HLEN in
      match mh with
      | None => Ok (b, fl)
      | Some mh =>
          let* lse := get_16aligned_be32 b mh in
          let fl := if top then set_flow_mpls_lse lse fl else fl in
          if negb (Z.land lse (htonl MPLS_BOS_MASK) =? 0) then Ok (b, fl)
          else parse_mpls_loop fuel b false fl
      end
  end.
Definition parse_mpls (b : ofpbuf) (fl : flow) : Res (ofpbuf * flow) :=
  parse_mpls_loop (S (Z.to_nat (b_size b))) b true fl.

Definition parse_vlan (b : ofpbuf) (fl : flow) : Res (ofpbuf * flow) :=
  if 4 + 2 <=? b_size b then
    let* (qp, b) := ofpbuf_pull b 4 in
    let* tci := ld16 b (qp + 2) in
    Ok (b, set_vlan_tci (Z.lor tci (htons VLAN_CFI)) fl)
  else Ok (b, fl).

Definition parse_ethertype (b : ofpbuf) : Res (Z * ofpbuf) :=
  let* (p, b) := ofpbuf_pull b 2 in
  let* proto := ld16 b p in
  if ETH_TYPE_MIN <=? ntohs proto then Ok (proto, b)
  else if b_size b <? LLC_SNAP_HEADER_LEN then Ok (htons FLOW_DL_TYPE_NONE, b)
  else
    let llc := b_data b in
    let* llc_dsap := ld8 b llc in
    let* llc_ssap := ld8 b (llc + 1) in
    let* llc_cntl := ld8 b (llc + 2) in
    let* snap_org := ld b (llc + 3) 3 in
    if negb (llc_dsap =? 0xaa) || negb (llc_ssap =? 0xaa) || negb (llc_cntl =? 3)
       || negb (bool_decide (snap_org = [0; 0; 0]))
    then Ok (htons FLOW_DL_TYPE_NONE, b)
    else
      let* (_, b) := ofpbuf_pull b LLC_SNAP_HEADER_LEN in
      let* snap_type := ld16 b (llc + 6) in
      if ETH_TYPE_MIN <=? ntohs snap_type then Ok (snap_type, b)
      else Ok (htons FLOW_DL_TYPE_NONE, b).

(** The extension headers; [fuel] bounds their number, eight bytes each at
    least.  [None] is the result [EINVAL]. *)
Fixpoint parse_ipv6_loop (fuel : nat) (packet : ofpbuf) (nexthdr : Z) (fl : flow) {struct fuel}
  : Res (option Z * ofpbuf * flow) :=
  match fuel with
  | O => Fault OutOfFuel
  | S fuel =>
      if negb (nexthdr =? IPPROTO_HOPOPTS) && negb (nexthdr =? IPPROTO_ROUTING)
         && negb (nexthdr =? IPPROTO_DSTOPTS) && negb (nexthdr =? IPPROTO_AH)
         && negb (nexthdr =? IPPROTO_FRAGMENT)
      then Ok (Some nexthdr, packet, fl)
      else if b_size packet <? 8 then Ok (None, packet, fl)
      else if (nexthdr =? IPPROTO_HOPOPTS) || (nexthdr =? IPPROTO_ROUTING)
              || (nexthdr =? IPPROTO_DSTOPTS) then
        let ext_hdr := b_data packet in
        let* nexthdr := ld8 packet ext_hdr in
        let* ip6e_len := ld8 packet (ext_hdr + 1) in
        let* (p, packet) := ofpbuf_try_pull packet ((ip6e_len + 1) * 8) in
        match p with
        | None => Ok (None, packet, fl)
        | Some _ => parse_ipv6_loop fuel packet nexthdr fl
        end
      else if nexthdr =? IPPROTO_AH then
        let ext_hdr := b_data packet in
        let* nexthdr := ld8 packet ext_hdr in
        let* ip6e_len := ld8 packet (ext_hdr + 1) in
        let* (p, packet) := ofpbuf_try_pull packet ((ip6e_len + 2) * 4) in
        match p with
        | None => Ok (None, packet, fl)
        | Some _ => parse_ipv6_loop fuel packet nexthdr fl
        end
      else
        let frag_hdr := b_data packet in
        let* nexthdr := ld8 packet frag_hdr in
        let* (p, packet) := ofpbuf_try_pull packet 8 in
        match p with
        | None => Ok (None, packet, fl)
        | Some _ =>
            let* ip6f_offlg := ld16 packet (frag_hdr + 2) in
            if negb (ip6f_offlg =? htons 0) then
              let fl := set_nw_frag FLOW_NW_FRAG_ANY fl in
              if negb (Z.land ip6f_offlg IP6F_OFF_MASK =? htons 0) then
                let fl := set_nw_frag (Z.lor (nw_frag fl) FLOW_NW_FRAG_LATER) fl in
                Ok (Some IPPROTO_FRAGMENT, packet, fl)
              else parse_ipv6_loop fuel packet nexthdr fl
            else parse_ipv6_loop fuel packet nexthdr fl
        end
  end.

Definition parse_ipv6 (packet : ofpbuf) (fl : flow) : Res (Z * ofpbuf * flow) :=
  let* (nh, packet) := ofpbuf_try_pull packet sizeof_ip6_hdr in
  match nh with
  | None => Ok (EINVAL, packet, fl)
  | Some nh =>
      let* nexthdr := ld8 packet (nh + ip6_nxt_ofs) in
      let* src := ld packet (nh + ip6_src_ofs) 16 in
      let* dst := ld packet (nh + ip6_dst_ofs) 16 in
      let fl := set_ipv6_dst dst (set_ipv6_src src fl) in
      let* tc_flow := get_16aligned_be32 packet nh in
      let fl := set_nw_tos (u8 (Z.shiftr (ntohl tc_flow) 20)) fl in
      let fl := set_ipv6_label (Z.land tc_flow (htonl IPV6_LABEL_MASK)) fl in
      let* hlim := ld8 packet (nh + ip6_hlim_ofs) in
      let fl := set_nw_proto IPPROTO_NONE (set_nw_ttl hlim fl) in
      let* (r, packet, fl) := parse_ipv6_loop (S (Z.to_nat (b_size packet))) packet nexthdr fl in
      match r with
      | None => Ok (EINVAL, packet, fl)
      | Some nexthdr => Ok (0, packet, set_nw_proto nexthdr fl)
      end
  end.

Definition parse_tcp (packet b : ofpbuf) (fl : flow) : Res (ofpbuf * ofpbuf * flow) :=
  let* (tcp, b) := pull_tcp b in
  match tcp with
  | None => Ok (packet, b, fl)
  | Some tcp =>
      let* src := ld16 b tcp in
      let* dst := ld16 b (tcp + tp_dst_ofs) in
      let* ctl := ld16 b (tcp + tcp_ctl_ofs) in
      let fl := set_tcp_flags (Z.land ctl (htons 0x0fff)) (set_tp_dst dst (set_tp_src src fl)) in
      Ok (set_l7 (Some (b_data b)) packet, b, fl)
  end.

Definition parse_udp (packet b : ofpbuf) (fl : flow) : Res (ofpbuf * ofpbuf * flow) :=
  let* (udp, b) := pull_udp b in
  match udp with
  | None => Ok (packet, b, fl)
  | Some udp =>
      let* src := ld16 b udp in
      let* dst := ld16 b (udp + tp_dst_ofs) in
      Ok (set_l7 (Some (b_data b)) packet, b, set_tp_dst dst (set_tp_src src fl))
  end.

Definition parse_sctp (packet b : ofpbuf) (fl : flow) : Res (ofpbuf * ofpbuf * flow) :=
  let* (sctp, b) := pull_sctp b in
  match sctp with
  | None => Ok (packet, b, fl)
  | Some sctp =>
      let* src := ld16 b sctp in
      let* dst := ld16 b (sctp + tp_dst_ofs) in
      Ok (set_l7 (Some (b_data b)) packet, b, set_tp_dst dst (set_tp_src src fl))
  end.

(** The block at the label [invalid]. *)
Definition nd_invalid (b : ofpbuf) (fl : flow) : Res (bool * ofpbuf * flow) :=
  let fl := set_nd_target (replicate 16 0) fl in
  let fl := set_arp_sha (replicate 6 0) fl in
  Ok (false, b, set_arp_tha (replicate 6 0) fl).

(** The neighbor discovery options; [fuel] bounds their number, eight bytes
    each at least. *)
Fixpoint parse_nd_loop (fuel : nat) (b : ofpbuf) (fl : flow) {struct fuel}
  : Res (bool * ofpbuf * flow) :=
  match fuel with
  | O => Fault OutOfFuel
  | S fuel =>
      if b_size b <? 8 then Ok (true, b, fl)
      else
        let nd_opt := b_data b in
        let* nd_opt_len := ld8 b (nd_opt + 1) in
        let opt_len := nd_opt_len * 8 in
        if (opt_len =? 0) || (b_size b <? opt_len) then nd_invalid b fl
        else
          let* nd_opt_type := ld8 b nd_opt in
          let* lladdr := ld b (nd_opt + 2) 6 in
          let next fl :=
            let* (p, b) := ofpbuf_try_pull b opt_len in
            match p with
            | None => nd_invalid b fl
            | Some _ => parse_nd_loop fuel b fl
            end in
          if (nd_opt_type =? ND_OPT_SOURCE_LINKADDR) && (opt_len =? 8) then
            if eth_addr_is_zero (arp_sha fl) then next (set_arp_sha lladdr fl)
            else nd_invalid b fl
          else if (nd_opt_type =? ND_OPT_TARGET_LINKADDR) && (opt_len =? 8) then
            if eth_addr_is_zero (arp_tha fl) then next (set_arp_tha lladdr fl)
            else nd_invalid b fl
          else next fl
  end.

Definition parse_icmpv6 (b : ofpbuf) (fl : flow) : Res (bool * ofpbuf * flow) :=
  let* (icmp, b) := pull_icmpv6 b in
  match icmp with
  | None => Ok (false, b, fl)
  | Some icmp =>
      let* icmp6_type := ld8 b icmp in
      let* icmp6_code := ld8 b (icmp + 1) in
      let fl := set_tp_dst (htons icmp6_code) (set_tp_src (htons icmp6_type) fl) in
      if (icmp6_code =? 0)
         && ((icmp6_type =? ND_NEIGHBOR_SOLICIT) || (icmp6_type =? ND_NEIGHBOR_ADVERT)) then
        let* (target, b) := ofpbuf_try_pull b 16 in
        match target with
        | None => Ok (false, b, fl)
        | Some p =>
            let* target := ld b p 16 in
            parse_nd_loop (S (Z.to_nat (b_size b))) b (set_nd_target target fl)
        end
      else Ok (true, b, fl)
  end.

(** ** The program: [flow_extract] *)

(** The branch for IPv4. *)
Definition extract_ip (packet b : ofpbuf) (fl : flow) : Res (ofpbuf * flow) :=
  let* (nh, b) := pull_ip b in
  match nh with
  | None => Ok (packet, fl)
  | Some nh =>
      let packet := set_l4 (Some (b_data b)) packet in
      let* src := get_16aligned_be32 b (nh + ip_src_ofs) in
      let* dst := get_16aligned_be32 b (nh + ip_dst_ofs) in
      let* proto := ld8 b (nh + ip_proto_ofs) in
      let* tos := ld8 b (nh + ip_tos_ofs) in
      let fl := set_nw_tos tos (set_nw_proto proto (set_nw_dst dst (set_nw_src src fl))) in
      let* frag_off := ld16 b (nh + ip_frag_off_ofs) in
      let later := negb (Z.land frag_off (htons IP_FRAG_OFF_MASK) =? 0) in
      let fl :=
        if IP_IS_FRAGMENT frag_off then
          let fl := set_nw_frag FLOW_NW_FRAG_ANY fl in
          if later then set_nw_frag (Z.lor (nw_frag fl) FLOW_NW_FRAG_LATER) fl else fl
        else fl in
      let* ttl := ld8 b (nh + ip_ttl_ofs) in
      let fl := set_nw_ttl ttl fl in
      if negb later then
        if nw_proto fl =? IPPROTO_TCP then
          let* (packet, _, fl) := parse_tcp packet b fl in Ok (packet, fl)
        else if nw_proto fl =? IPPROTO_UDP then
          let* (packet, _, fl) := parse_udp packet b fl in Ok (packet, fl)
        else if nw_proto fl =? IPPROTO_SCTP then
          let* (packet, _, fl) := parse_sctp packet b fl in Ok (packet, fl)
        else if nw_proto fl =? IPPROTO_ICMP then
          let* (icmp, b) := pull_icmp b in
          match icmp with
          | None => Ok (packet, fl)
          | Some icmp =>
              let* icmp_type := ld8 b icmp in
              let* icmp_code := ld8 b (icmp + 1) in
              let fl := set_tp_dst (htons icmp_code) (set_tp_src (htons icmp_type) fl) in
              Ok (set_l7 (Some (b_data b)) packet, fl)
          end
        else Ok (packet, fl)
      else Ok (packet, fl)
  end.

(** The branch for IPv6. *)
Definition extract_ipv6 (packet b : ofpbuf) (fl : flow) : Res (ofpbuf * flow) :=
  let* (error, b, fl) := parse_ipv6 b fl in
  if negb (error =? 0) then Ok (packet, fl)
  else
    let packet := set_l4 (Some (b_data b)) packet in
    if nw_proto fl =? IPPROTO_TCP then
      let* (packet, _, fl) := parse_tcp packet b fl in Ok (packet, fl)
    else if nw_proto fl =? IPPROTO_UDP then
      let* (packet, _, fl) := parse_udp packet b fl in Ok (packet, fl)
    else if nw_proto fl =? IPPROTO_SCTP then
      let* (packet, _, fl) := parse_sctp packet b fl in Ok (packet, fl)
    else if nw_proto fl =? IPPROTO_ICMPV6 then
      let* (ok, b, fl) := parse_icmpv6 b fl in
      Ok (if ok : bool then set_l7 (Some (b_data b)) packet else packet, fl)
    else Ok (packet, fl).

(** The branch for ARP and RARP. *)
Definition extract_arp (packet b : ofpbuf) (fl : flow) : Res (ofpbuf * flow) :=
  let* (arp, b) := pull_arp b in
  match arp with
  | None => Ok (packet, fl)
  | Some arp =>
      let* ar_hrd := ld16 b arp in
      let* ar_pro := ld16 b (arp + 2) in
      let* ar_hln := ld8 b (arp + 4) in
      let* ar_pln := ld8 b (arp + 5) in
      if (ar_hrd =? htons 1) && (ar_pro =? htons ETH_TYPE_IP) && (ar_hln =? ETH_ADDR_LEN)
         && (ar_pln =? 4) then
        let* ar_op := ld16 b (arp + 6) in
        let fl := if ntohs ar_op <=? 0xff then set_nw_proto (ntohs ar_op) fl else fl in
        let* spa := get_16aligned_be32 b (arp + 14) in
        let* tpa := get_16aligned_be32 b (arp + 24) in
        let* sha := ld b (arp + 8) ETH_ADDR_LEN in
        let* tha := ld b (arp + 18) ETH_ADDR_LEN in
        Ok (packet, set_arp_tha tha (set_arp_sha sha (set_nw_dst tpa (set_nw_src spa fl))))
      else Ok (packet, fl)
  end.

(** The fields that do not come from the packet.  [tnl] is passed by value, so
    the assertion that it is not part of [flow] has no counterpart. *)
Definition init_flow (skb_priority pkt_mark : Z) (tnl : option flow_tnl) (port : option Z) : flow :=
  let f := zero_flow in
  Mk_flow (match tnl with Some t => t | None => tunnel f end) (metadata f) (regs f) skb_priority pkt_mark
    (match port with Some p => p | None => in_port f end) (dl_src f) (dl_dst f) (dl_type f)
    (vlan_tci f) (mpls_lse f) (ipv6_src f) (ipv6_dst f) (nd_target f) (ipv6_label f) (nw_src f)
    (nw_dst f) (nw_frag f) (nw_tos f) (nw_ttl f) (nw_proto f) (arp_sha f) (arp_tha f) (tcp_flags f)
    (pad f) (tp_src f) (tp_dst f).

(** The packet with its header pointers, and the flow. *)
Definition flow_extract (packet : ofpbuf) (skb_priority pkt_mark : Z) (tnl : option flow_tnl)
    (port : option Z) : Res (ofpbuf * flow) :=
  let b := packet in
  let fl := init_flow skb_priority pkt_mark tnl port in
  let packet := with_layers packet (Some (b_data b)) None None None None in
  if b_size b <? ETH_HEADER_LEN then Ok (packet, fl)
  else
    let eth := b_data b in
    let* src := ld b (eth + eth_src_ofs) ETH_ADDR_LEN in
    let* dst := ld b eth ETH_ADDR_LEN in
    let fl := set_dl_dst dst (set_dl_src src fl) in
    let* (_, b) := ofpbuf_pull b (ETH_ADDR_LEN * 2) in
    let* eth_type := ld16 b (eth + eth_type_ofs) in
    let* (b, fl) := if eth_type =? htons ETH_TYPE_VLAN then parse_vlan b fl else Ok (b, fl) in
    let* (t, b) := parse_ethertype b in
    let fl := set_dl_type t fl in
    let* (packet, b, fl) :=
      if eth_type_mpls (dl_type fl) then
        let packet := set_l2_5 (Some (b_data b)) packet in
        let* (b, fl) := parse_mpls b fl in Ok (packet, b, fl)
      else Ok (packet, b, fl) in
    let packet := set_l3 (Some (b_data b)) packet in
    if dl_type fl =? htons ETH_TYPE_IP then extract_ip packet b fl
    else if dl_type fl =? htons ETH_TYPE_IPV6 then extract_ipv6 packet b fl
    else if (dl_type fl =? htons ETH_TYPE_ARP) || (dl_type fl =? htons ETH_TYPE_RARP)
    then extract_arp packet b fl
    else Ok (packet, fl).

(** ** The program: [flow_compose] *)

(** A neighbor discovery option with a link-layer address. *)
Definition put_nd_opt (b : ofpbuf) (type : Z) (lladdr : list Z) : Res ofpbuf :=
  if negb (eth_addr_is_zero lladdr) then
    let* (nd_opt, b) := ofpbuf_put_zeros b 8 in
    let* b := st8 b (snd nd_opt + 1) 1 in
    let* b := st8 b (snd nd_opt) type in
    st b (snd nd_opt + 2) lladdr
  else Ok b.

Definition compose_icmpv6 (b : ofpbuf) (fl : flow) : Res ofpbuf :=
  let* (icmp, b) := ofpbuf_put_zeros b sizeof_icmp6_hdr in
  let icmp6_type := u8 (ntohs (tp_src fl)) in
  let icmp6_code := u8 (ntohs (tp_dst fl)) in
  let* b := st8 b (snd icmp) icmp6_type in
  let* b := st8 b (snd icmp + 1) icmp6_code in
  let* b :=
    if (icmp6_code =? 0)
       && ((icmp6_type =? ND_NEIGHBOR_SOLICIT) || (icmp6_type =? ND_NEIGHBOR_ADVERT)) then
      let* (p, b) := ofpbuf_put_zeros b 16 in
      let* b := st b (snd p) (nd_target fl) in
      let* b := put_nd_opt b ND_OPT_SOURCE_LINKADDR (arp_sha fl) in
      put_nd_opt b ND_OPT_TARGET_LINKADDR (arp_tha fl)
    else Ok b in
  let* p := deref b icmp in
  let* data := ld b p (ofpbuf_tail b - p) in
  let* b := st16 b (p + 2) (csum data) in
  Ok (set_l7 (Some (ofpbuf_tail b)) b).

Definition flow_compose_l4 (b : ofpbuf) (fl : flow) : Res ofpbuf :=
  if (Z.land (nw_frag fl) FLOW_NW_FRAG_ANY =? 0) || (Z.land (nw_frag fl) FLOW_NW_FRAG_LATER =? 0) then
    if nw_proto fl =? IPPROTO_TCP then
      let* (tcp, b) := ofpbuf_put_zeros b TCP_HEADER_LEN in
      let* b := st16 b (snd tcp) (tp_src fl) in
      let* b := st16 b (snd tcp + tp_dst_ofs) (tp_dst fl) in
      let* b := st16 b (snd tcp + tcp_ctl_ofs) (TCP_CTL (ntohs (tcp_flags fl)) 5) in
      Ok (set_l7 (Some (ofpbuf_tail b)) b)
    else if nw_proto fl =? IPPROTO_UDP then
      let* (udp, b) := ofpbuf_put_zeros b UDP_HEADER_LEN in
      let* b := st16 b (snd udp) (tp_src fl) in
      let* b := st16 b (snd udp + tp_dst_ofs) (tp_dst fl) in
      Ok (set_l7 (Some (ofpbuf_tail b)) b)
    else if nw_proto fl =? IPPROTO_SCTP then
      let* (sctp, b) := ofpbuf_put_zeros b SCTP_HEADER_LEN in
      let* b := st16 b (snd sctp) (tp_src fl) in
      let* b := st16 b (snd sctp + tp_dst_ofs) (tp_dst fl) in
      Ok (set_l7 (Some (ofpbuf_tail b)) b)
    else if nw_proto fl =? IPPROTO_ICMP then
      let* (icmp, b) := ofpbuf_put_zeros b ICMP_HEADER_LEN in
      let* b := st8 b (snd icmp) (ntohs (tp_src fl)) in
      let* b := st8 b (snd icmp + 1) (ntohs (tp_dst fl)) in
      let* data := ld b (snd icmp) ICMP_HEADER_LEN in
      let* b := st16 b (snd icmp + 2) (csum data) in
      Ok (set_l7 (Some (ofpbuf_tail b)) b)
    else if nw_proto fl =? IPPROTO_ICMPV6 then compose_icmpv6 b fl
    else Ok b
  else Ok b.

(** The branch for IPv4. *)
Definition compose_ip (b : ofpbuf) (fl : flow) : Res ofpbuf :=
  let* (ip, b) := ofpbuf_put_zeros b IP_HEADER_LEN in
  let* b := st8 b (snd ip) (IP_IHL_VER 5 4) in
  let* b := st8 b (snd ip + ip_tos_ofs) (nw_tos fl) in
  let* b := st8 b (snd ip + ip_ttl_ofs) (nw_ttl fl) in
  let* b := st8 b (snd ip + ip_proto_ofs) (nw_proto fl) in
  let* b := put_16aligned_be32 b (snd ip + ip_src_ofs) (nw_src fl) in
  let* b := put_16aligned_be32 b (snd ip + ip_dst_ofs) (nw_dst fl) in
  let* b :=
    if negb (Z.land (nw_frag fl) FLOW_NW_FRAG_ANY =? 0) then
      let* o := ld16 b (snd ip + ip_frag_off_ofs) in
      let* b := st16 b (snd ip + ip_frag_off_ofs) (Z.lor o (htons IP_MORE_FRAGMENTS)) in
      if negb (Z.land (nw_frag fl) FLOW_NW_FRAG_LATER =? 0) then
        let* o := ld16 b (snd ip + ip_frag_off_ofs) in
        st16 b (snd ip + ip_frag_off_ofs) (Z.lor o (htons 100))
      else Ok b
    else Ok b in
  let b := set_l4 (Some (ofpbuf_tail b)) b in
  let* b := flow_compose_l4 b fl in
  let* p := deref b ip in
  let* p3 := the (l3 b) in
  let* b := st16 b (p + ip_tot_len_ofs) (htons (b_data b + b_size b - p3)) in
  let* data := ld b p IP_HEADER_LEN in
  st16 b (p + ip_csum_ofs) (csum data).

(** The branch for IPv6. *)
Definition compose_ipv6 (b : ofpbuf) (fl : flow) : Res ofpbuf :=
  let* (nh, b) := ofpbuf_put_zeros b sizeof_ip6_hdr in
  let* b := put_16aligned_be32 b (snd nh)
              (Z.lor (Z.lor (htonl (u32 (Z.shiftl 6 28))) (htonl (u32 (Z.shiftl (nw_tos fl) 20))))
                 (ipv6_label fl)) in
  let* b := st8 b (snd nh + ip6_hlim_ofs) (nw_ttl fl) in
  let* b := st8 b (snd nh + ip6_nxt_ofs) (nw_proto fl) in
  let* b := st b (snd nh + ip6_src_ofs) (ipv6_src fl) in
  let* b := st b (snd nh + ip6_dst_ofs) (ipv6_dst fl) in
  let b := set_l4 (Some (ofpbuf_tail b)) b in
  let* b := flow_compose_l4 b fl in
  let* p := deref b nh in
  let* plen :=
    match l7 b with
    | Some p7 => let* p4 := the (l4 b) in Ok (htons (p7 - p4))
    | None => Ok (htons 0)
    end in
  st16 b (p + ip6_plen_ofs) plen.

(** The branch for ARP and RARP. *)
Definition compose_arp (b : ofpbuf) (fl : flow) : Res ofpbuf :=
  let* (arp, b) := ofpbuf_put_zeros b ARP_ETH_HEADER_LEN in
  let b := set_l3 (Some (snd arp)) b in
  let* b := st16 b (snd arp) (htons 1) in
  let* b := st16 b (snd arp + 2) (htons ETH_TYPE_IP) in
  let* b := st8 b (snd arp + 4) ETH_ADDR_LEN in
  let* b := st8 b (snd arp + 5) 4 in
  let* b := st16 b (snd arp + 6) (htons (nw_proto fl)) in
  if (nw_proto fl =? ARP_OP_REQUEST) || (nw_proto fl =? ARP_OP_REPLY) then
    let* b := put_16aligned_be32 b (snd arp + 14) (nw_src fl) in
    let* b := put_16aligned_be32 b (snd arp + 24) (nw_dst fl) in
    let* b := st b (snd arp + 8) (arp_sha fl) in
    st b (snd arp + 18) (arp_tha fl)
  else Ok b.

Definition flow_compose (b : ofpbuf) (fl : flow) : Res ofpbuf :=
  let* (_, b) := eth_compose b (dl_dst fl) (dl_src fl) (ntohs (dl_type fl)) 0 in
  if dl_type fl =? htons FLOW_DL_TYPE_NONE then
    let* eth := the (l2 b) in
    st16 b (eth + eth_type_ofs) (htons (b_size b))
  else
    let* b := if negb (Z.land (vlan_tci fl) (htons VLAN_CFI) =? 0)
              then eth_push_vlan b (vlan_tci fl) else Ok b in
    let* b :=
      if dl_type fl =? htons ETH_TYPE_IP then compose_ip b fl
      else if dl_type fl =? htons ETH_TYPE_IPV6 then compose_ipv6 b fl
      else if (dl_type fl =? htons ETH_TYPE_ARP) || (dl_type fl =? htons ETH_TYPE_RARP)
      then compose_arp b fl
      else Ok b in
    if eth_type_mpls (dl_type fl) then
      push_mpls (set_l2_5 (l3 b) b) (dl_type fl) (mpls_lse fl)
    else Ok b.
