(* ===== verification/FlowFacts.v ===== *)
(** * Facts about [flow_extract]

    The local buffer of [flow_extract] is the packet with its first bytes cut
    off.  The lemmas below evaluate each parsing step on it: what it returns,
    where the buffer stands afterwards, and that the fields stay in the ranges
    of their types.  They hold for arbitrary bytes. *)

From Stdlib Require Import ZArith Lia List.
From stdpp Require Import base option list_relations list.
From S2P Require Import Prelude Bytes Hash Csum Ofpbuf Packets PacketsFacts PacketsProps Flow.
#[local] Open Scope Z_scope.
#[local] Open Scope res_scope.

(** ** The type of a flow *)

Definition tnl_ok (t : flow_tnl) : Prop :=
  in_u64 (tun_id t) /\ in_u32 (ip_src t) /\ in_u32 (ip_dst t) /\ in_u16 (flags t) /\
  in_u8 (ip_tos t) /\ in_u8 (ip_ttl t).

(** [n] bytes. *)
Definition bytes_n (n : nat) (l : list Z) : Prop := bytes_ok l /\ length l = n.

(** Every field in the range of its C type. *)
Record flow_typed (f : flow) : Prop := {
  ft_tunnel : tnl_ok (tunnel f);
  ft_metadata : in_u64 (metadata f);
  ft_regs : Forall in_u32 (regs f) /\ length (regs f) = FLOW_N_REGS;
  ft_skb_priority : in_u32 (skb_priority f);
  ft_pkt_mark : in_u32 (pkt_mark f);
  ft_in_port : in_u32 (in_port f);
  ft_dl_src : bytes_n 6 (dl_src f);
  ft_dl_dst : bytes_n 6 (dl_dst f);
  ft_dl_type : in_u16 (dl_type f);
  ft_vlan_tci : in_u16 (vlan_tci f);
  ft_mpls_lse : in_u32 (mpls_lse f);
  ft_ipv6_src : bytes_n 16 (ipv6_src f);
  ft_ipv6_dst : bytes_n 16 (ipv6_dst f);
  ft_nd_target : bytes_n 16 (nd_target f);
  ft_ipv6_label : in_u32 (ipv6_label f);
  ft_nw_src : in_u32 (nw_src f);
  ft_nw_dst : in_u32 (nw_dst f);
  ft_nw_frag : in_u8 (nw_frag f);
  ft_nw_tos : in_u8 (nw_tos f);
  ft_nw_ttl : in_u8 (nw_ttl f);
  ft_nw_proto : in_u8 (nw_proto f);
  ft_arp_sha : bytes_n 6 (arp_sha f);
  ft_arp_tha : bytes_n 6 (arp_tha f);
  ft_tcp_flags : in_u16 (tcp_flags f);
  ft_pad : pad f = 0;
  ft_tp_src : in_u16 (tp_src f);
  ft_tp_dst : in_u16 (tp_dst f)
}.

Lemma bytes_n_zeros n : bytes_n n (replicate n 0).
Proof.
  split; [|by rewrite length_replicate]. apply List.Forall_forall.
  intros x Hx%list_elem_of_In%elem_of_replicate. unfold in_u8. lia.
Qed.

(** Setting a field to a value of its type keeps the flow typed. *)
Ltac typed_set := intros []; split; simpl; auto.

Lemma typed_dl_src f v : flow_typed f -> bytes_n 6 v -> flow_typed (set_dl_src v f).
Proof. typed_set. Qed.
Lemma typed_dl_dst f v : flow_typed f -> bytes_n 6 v -> flow_typed (set_dl_dst v f).
Proof. typed_set. Qed.
Lemma typed_dl_type f v : flow_typed f -> in_u16 v -> flow_typed (set_dl_type v f).
Proof. typed_set. Qed.
Lemma typed_vlan_tci f v : flow_typed f -> in_u16 v -> flow_typed (set_vlan_tci v f).
Proof. typed_set. Qed.
Lemma typed_mpls_lse f v : flow_typed f -> in_u32 v -> flow_typed (set_flow_mpls_lse v f).
Proof. typed_set. Qed.
Lemma typed_ipv6_src f v : flow_typed f -> bytes_n 16 v -> flow_typed (set_ipv6_src v f).
Proof. typed_set. Qed.
Lemma typed_ipv6_dst f v : flow_typed f -> bytes_n 16 v -> flow_typed (set_ipv6_dst v f).
Proof. typed_set. Qed.
Lemma typed_nd_target f v : flow_typed f -> bytes_n 16 v -> flow_typed (set_nd_target v f).
Proof. typed_set. Qed.
Lemma typed_ipv6_label f v : flow_typed f -> in_u32 v -> flow_typed (set_ipv6_label v f).
Proof. typed_set. Qed.
Lemma typed_nw_src f v : flow_typed f -> in_u32 v -> flow_typed (set_nw_src v f).
Proof. typed_set. Qed.
Lemma typed_nw_dst f v : flow_typed f -> in_u32 v -> flow_typed (set_nw_dst v f).
Proof. typed_set. Qed.
Lemma typed_nw_frag f v : flow_typed f -> in_u8 v -> flow_typed (set_nw_frag v f).
Proof. typed_set. Qed.
Lemma typed_nw_tos f v : flow_typed f -> in_u8 v -> flow_typed (set_nw_tos v f).
Proof. typed_set. Qed.
Lemma typed_nw_ttl f v : flow_typed f -> in_u8 v -> flow_typed (set_nw_ttl v f).
Proof. typed_set. Qed.
Lemma typed_nw_proto f v : flow_typed f -> in_u8 v -> flow_typed (set_nw_proto v f).
Proof. typed_set. Qed.
Lemma typed_arp_sha f v : flow_typed f -> bytes_n 6 v -> flow_typed (set_arp_sha v f).
Proof. typed_set. Qed.
Lemma typed_arp_tha f v : flow_typed f -> bytes_n 6 v -> flow_typed (set_arp_tha v f).
Proof. typed_set. Qed.
Lemma typed_tcp_flags f v : flow_typed f -> in_u16 v -> flow_typed (set_tcp_flags v f).
Proof. typed_set. Qed.
Lemma typed_tp_src f v : flow_typed f -> in_u16 v -> flow_typed (set_tp_src v f).
Proof. typed_set. Qed.
Lemma typed_tp_dst f v : flow_typed f -> in_u16 v -> flow_typed (set_tp_dst v f).
Proof. typed_set. Qed.

#[export] Hint Resolve typed_dl_src typed_dl_dst typed_dl_type typed_vlan_tci typed_mpls_lse
  typed_ipv6_src typed_ipv6_dst typed_nd_target typed_ipv6_label typed_nw_src typed_nw_dst
  typed_nw_frag typed_nw_tos typed_nw_ttl typed_nw_proto typed_arp_sha typed_arp_tha
  typed_tcp_flags typed_tp_src typed_tp_dst bytes_n_zeros : sdpa.

Lemma htons_u16 x : in_u16 (htons x).
Proof.
  pose proof (u16_range x) as H. unfold htons, in_u16 in *.
  change (2 ^ 16) with 65536 in *. change (2 ^ 8) with 256. zdm.
Qed.
Lemma land_u16 x y : in_u16 y -> in_u16 (Z.land x y).
Proof. apply land_range_r. lia. Qed.
Lemma lor_u16 x y : in_u16 x -> in_u16 y -> in_u16 (Z.lor x y).
Proof. apply lor_range. lia. Qed.
Lemma land_u32 x y : in_u32 y -> in_u32 (Z.land x y).
Proof. apply land_range_r. lia. Qed.
#[export] Hint Resolve htons_u16 land_u16 lor_u16 land_u32 : sdpa.

Lemma init_flow_typed p m t i : in_u32 p -> in_u32 m ->
  (forall x, t = Some x -> tnl_ok x) -> (forall x, i = Some x -> in_u32 x) ->
  flow_typed (init_flow p m t i).
Proof.
  intros Hp Hm Ht Hi. split; simpl; auto with sdpa; try (unfold in_u8, in_u16, in_u32, in_u64; lia).
  - destruct t as [x|]; [by apply Ht|]. unfold tnl_ok, in_u8, in_u16, in_u32, in_u64. simpl. lia.
  - split; [|done]. repeat constructor; unfold in_u32; lia.
  - destruct i as [x|]; [by apply Hi|]. unfold in_u32. lia.
Qed.

(** ** Evaluation on a packet *)

(** The packet without its first [k] bytes. *)
Definition cut (b : ofpbuf) (k : nat) : ofpbuf :=
  with_extent b (b_data b + Z.of_nat k) (b_size b - Z.of_nat k).

(** The byte at offset [k] and the 32-bit value at offset [k]. *)
Definition f8 (k : nat) (xs : list Z) : Z := le_word (region k 1 xs).
Definition f32 (k : nat) (xs : list Z) : Z := le_word (region k 4 xs).

Lemma f8_u8 k xs : bytes_ok xs -> (k + 1 <= length xs)%nat -> in_u8 (f8 k xs).
Proof.
  intros Hb Hk. unfold f8. destruct (region_1 k xs Hk) as (x & E).
  pose proof (bytes_ok_region k 1 xs Hb) as H. rewrite E in *. rewrite le_word_1. by inversion H.
Qed.

Lemma f32_u32 k xs : bytes_ok xs -> (k + 4 <= length xs)%nat -> in_u32 (f32 k xs).
Proof. apply u32_region4. Qed.

Lemma bytes_n_region k n xs : bytes_ok xs -> (k + n <= length xs)%nat -> bytes_n n (region k n xs).
Proof. intros Hb Hk. split; [by apply bytes_ok_region|by apply length_region]. Qed.
#[export] Hint Resolve f8_u8 f16_u16 f32_u32 bytes_n_region : sdpa.

Section Parse.
Context (b : ofpbuf) (xs : list Z) (Hh : holds b xs) (Hb : bytes_ok xs).

Lemma size_xs : b_size b = Z.of_nat (length xs).
Proof. symmetry. by apply holds_length. Qed.

Lemma cut_size k : (k <= length xs)%nat -> b_size (cut b k) = Z.of_nat (length xs - k).
Proof. intros Hk. simpl. rewrite size_xs. lia. Qed.

Lemma cut_data k : b_data (cut b k) = b_data b + Z.of_nat k.
Proof. done. Qed.

Lemma cut_0 : cut b 0 = b.
Proof. unfold cut, with_extent. rewrite Z.add_0_r, Z.sub_0_r. by destruct b. Qed.

(** Loads through any cut read the bytes of the packet. *)
Lemma cut_ld k i n p m : p = b_data b + Z.of_nat i -> m = Z.of_nat n -> (i + n <= length xs)%nat ->
  ld (cut b k) p m = Ok (region i n xs).
Proof. intros -> -> Hi. exact (ld_at b xs Hh i n _ _ eq_refl eq_refl Hi). Qed.

Lemma cut_ld8 k i p : p = b_data b + Z.of_nat i -> (i + 1 <= length xs)%nat ->
  ld8 (cut b k) p = Ok (f8 i xs).
Proof. intros -> Hi. unfold ld8. by rewrite (cut_ld k i 1). Qed.

Lemma cut_ld16 k i p : p = b_data b + Z.of_nat i -> (i + 2 <= length xs)%nat ->
  ld16 (cut b k) p = Ok (f16 i xs).
Proof. intros -> Hi. unfold ld16. by rewrite (cut_ld k i 2). Qed.

Lemma cut_be32 k i p : p = b_data b + Z.of_nat i -> (i + 4 <= length xs)%nat ->
  get_16aligned_be32 (cut b k) p = Ok (f32 i xs).
Proof. intros -> Hi. exact (get_be32_at b xs Hh i _ Hb eq_refl Hi). Qed.

Lemma cut_pull k n m : m = Z.of_nat n -> (k + n <= length xs)%nat ->
  ofpbuf_pull (cut b k) m = Ok (b_data b + Z.of_nat k, cut b (k + n)).
Proof.
  intros -> Hn. unfold ofpbuf_pull. rewrite cut_size by lia. unfold ovs_assert. case_bool; [|lia].
  cbn [rbind]. apply (f_equal Ok), (f_equal (pair _)). unfold cut, with_extent. simpl.
  rewrite size_xs. f_equal; lia.
Qed.

Lemma cut_try_pull k n m : m = Z.of_nat n -> (k <= length xs)%nat ->
  ofpbuf_try_pull (cut b k) m =
  if decide (k + n <= length xs)%nat then Ok (Some (b_data b + Z.of_nat k), cut b (k + n))
  else Ok (None, cut b k).
Proof.
  intros -> Hk. unfold ofpbuf_try_pull. rewrite cut_size by done.
  case_decide; case_bool; try lia; [|done]. by rewrite (cut_pull k n).
Qed.

(** *** Headers of variable length *)

(** The end of an IPv4 header at [k], if there is one. *)
Definition ip_end (k : nat) : option nat :=
  let n := Z.to_nat (IP_IHL (f8 k xs) * 4) in
  if decide (k + 20 <= length xs /\ 20 <= n /\ k + n <= length xs)%nat then Some (k + n)%nat else None.

(** The end of a TCP header at [k], if there is one. *)
Definition tcp_end (k : nat) : option nat :=
  let n := Z.to_nat (TCP_OFFSET (f16 (k + 12) xs) * 4) in
  if decide (k + 20 <= length xs /\ 20 <= n /\ k + n <= length xs)%nat then Some (k + n)%nat else None.

(** The end of a header of [n] bytes at [k]. *)
Definition fixed_end (n k : nat) : option nat :=
  if decide (k + n <= length xs)%nat then Some (k + n)%nat else None.

Lemma fixed_end_bounds n k e : fixed_end n k = Some e -> (k + n <= e <= length xs)%nat.
Proof. unfold fixed_end. case_decide; [|done]. intros [= <-]. lia. Qed.
Lemma tcp_end_bounds k e : tcp_end k = Some e -> (k + 20 <= e <= length xs)%nat.
Proof. unfold tcp_end. case_decide; [|done]. intros [= <-]. lia. Qed.
Lemma ip_end_bounds k e : ip_end k = Some e -> (k + 20 <= e <= length xs)%nat.
Proof. unfold ip_end. case_decide; [|done]. intros [= <-]. lia. Qed.

(** What taking off a header that ends at [e] returns. *)
Definition pulled (k : nat) (e : option nat) : option Z * ofpbuf :=
  match e with
  | Some e => (Some (b_data b + Z.of_nat k), cut b e)
  | None => (None, cut b k)
  end.

Lemma try_pull_pulled k n m : m = Z.of_nat n -> (k <= length xs)%nat ->
  ofpbuf_try_pull (cut b k) m = Ok (pulled k (fixed_end n k)).
Proof. intros E Hk. rewrite (cut_try_pull k n) by done. unfold fixed_end. by case_decide. Qed.

Lemma TCP_OFFSET_bounds x : 0 <= TCP_OFFSET x < 16.
Proof.
  unfold TCP_OFFSET, ntohs. pose proof (htons_u16 x) as [H1 H2].
  rewrite Z.shiftr_div_pow2 by lia. split; [apply Z.div_pos; lia|].
  apply Z.div_lt_upper_bound; lia.
Qed.
Lemma IP_IHL_bounds x : 0 <= IP_IHL x < 16.
Proof. apply (land_range_r x 15 4); lia. Qed.

Lemma pull_tcp_eq k : (k <= length xs)%nat -> pull_tcp (cut b k) = Ok (pulled k (tcp_end k)).
Proof.
  intros Hk. unfold pull_tcp, tcp_end. rewrite cut_size by done. unfold TCP_HEADER_LEN.
  pose proof (TCP_OFFSET_bounds (f16 (k + 12) xs)) as Ho.
  case_bool; [|case_decide; [lia|done]].
  rewrite (cut_ld16 k (k + 12)) by (simpl; unfold tcp_ctl_ofs; lia). cbn [rbind].
  repeat case_bool; simpl andb; cbv iota; case_decide; try lia; try done.
  by rewrite (cut_pull k (Z.to_nat (TCP_OFFSET (f16 (k + 12) xs) * 4))) by lia.
Qed.

Lemma pull_ip_eq k : (k <= length xs)%nat -> pull_ip (cut b k) = Ok (pulled k (ip_end k)).
Proof.
  intros Hk. unfold pull_ip, ip_end. rewrite cut_size by done. unfold IP_HEADER_LEN.
  pose proof (IP_IHL_bounds (f8 k xs)) as Ho.
  case_bool; [|case_decide; [lia|done]].
  rewrite (cut_ld8 k k) by (simpl; lia). cbn [rbind].
  repeat case_bool; simpl andb; cbv iota; case_decide; try lia; try done.
  by rewrite (cut_pull k (Z.to_nat (IP_IHL (f8 k xs) * 4))) by lia.
Qed.

(** *** The transport layer *)

Definition tp_fields (k : nat) (fl : flow) : flow :=
  set_tp_dst (f16 (k + 2) xs) (set_tp_src (f16 k xs) fl).

(** What parsing a transport header that ends at [e] returns. *)
Definition tp_parsed (packet : ofpbuf) (fl fl' : flow) (k : nat) (e : option nat)
  : ofpbuf * ofpbuf * flow :=
  match e with
  | Some e => (set_l7 (Some (b_data b + Z.of_nat e)) packet, cut b e, fl')
  | None => (packet, cut b k, fl)
  end.

Definition tcp_fields (k : nat) (fl : flow) : flow :=
  set_tcp_flags (Z.land (f16 (k + 12) xs) (htons 0x0fff)) (tp_fields k fl).

Lemma parse_tcp_eq p k fl : (k <= length xs)%nat ->
  parse_tcp p (cut b k) fl = Ok (tp_parsed p fl (tcp_fields k fl) k (tcp_end k)).
Proof.
  intros Hk. unfold parse_tcp. rewrite pull_tcp_eq by done. cbn [rbind].
  pose proof (tcp_end_bounds k) as He. destruct (tcp_end k) as [e|]; [|done].
  specialize (He e eq_refl). cbn [pulled]. rewrite (cut_ld16 e k) by lia. cbn [rbind].
  rewrite (cut_ld16 e (k + 2)) by (unfold tp_dst_ofs; lia). cbn [rbind].
  rewrite (cut_ld16 e (k + 12)) by (unfold tcp_ctl_ofs; lia). done.
Qed.

Lemma parse_udp_eq p k fl : (k <= length xs)%nat ->
  parse_udp p (cut b k) fl = Ok (tp_parsed p fl (tp_fields k fl) k (fixed_end 8 k)).
Proof.
  intros Hk. unfold parse_udp, pull_udp. rewrite (try_pull_pulled k 8) by done. cbn [rbind].
  pose proof (fixed_end_bounds 8 k) as He. destruct (fixed_end 8 k) as [e|]; [|done].
  specialize (He e eq_refl). cbn [pulled]. rewrite (cut_ld16 e k) by lia. cbn [rbind].
  rewrite (cut_ld16 e (k + 2)) by (unfold tp_dst_ofs; lia). done.
Qed.

Lemma parse_sctp_eq p k fl : (k <= length xs)%nat ->
  parse_sctp p (cut b k) fl = Ok (tp_parsed p fl (tp_fields k fl) k (fixed_end 12 k)).
Proof.
  intros Hk. unfold parse_sctp, pull_sctp. rewrite (try_pull_pulled k 12) by done. cbn [rbind].
  pose proof (fixed_end_bounds 12 k) as He. destruct (fixed_end 12 k) as [e|]; [|done].
  specialize (He e eq_refl). cbn [pulled]. rewrite (cut_ld16 e k) by lia. cbn [rbind].
  rewrite (cut_ld16 e (k + 2)) by (unfold tp_dst_ofs; lia). done.
Qed.

Definition icmp_fields (k : nat) (fl : flow) : flow :=
  set_tp_dst (htons (f8 (k + 1) xs)) (set_tp_src (htons (f8 k xs)) fl).

(** *** The link layer *)

Lemma parse_vlan_eq k fl : (k <= length xs)%nat ->
  parse_vlan (cut b k) fl =
  Ok (if decide (k + 6 <= length xs)%nat
      then (cut b (k + 4), set_vlan_tci (Z.lor (f16 (k + 2) xs) (htons VLAN_CFI)) fl)
      else (cut b k, fl)).
Proof.
  intros Hk. unfold parse_vlan. rewrite cut_size by done.
  case_bool; case_decide; try lia; [|done].
  rewrite (cut_pull k 4) by lia. cbn [rbind]. by rewrite (cut_ld16 (k + 4) (k + 2)) by lia.
Qed.

Definition is_snap (k : nat) : bool :=
  (f8 k xs =? 0xaa) && (f8 (k + 1) xs =? 0xaa) && (f8 (k + 2) xs =? 3)
  && bool_decide (region (k + 3) 3 xs = [0; 0; 0]).

(** The type of the frame whose type field is at [k], and where its payload
    starts. *)
Definition ethertype_at (k : nat) : Z * nat :=
  if ETH_TYPE_MIN <=? ntohs (f16 k xs) then (f16 k xs, k + 2)%nat
  else if decide (k + 10 <= length xs)%nat then
    if is_snap (k + 2)
    then if ETH_TYPE_MIN <=? ntohs (f16 (k + 8) xs) then (f16 (k + 8) xs, k + 10)%nat
         else (htons FLOW_DL_TYPE_NONE, k + 10)%nat
    else (htons FLOW_DL_TYPE_NONE, k + 2)%nat
  else (htons FLOW_DL_TYPE_NONE, k + 2)%nat.

Lemma ethertype_at_bounds k : (k + 2 <= length xs)%nat ->
  in_u16 (fst (ethertype_at k)) /\ (k + 2 <= snd (ethertype_at k) <= length xs)%nat.
Proof.
  intros Hk. unfold ethertype_at. repeat (case_bool || case_decide || case_match); simpl;
    split; auto with sdpa; try lia; apply f16_u16; try done; lia.
Qed.

Lemma parse_ethertype_eq k : (k + 2 <= length xs)%nat ->
  parse_ethertype (cut b k) = Ok (fst (ethertype_at k), cut b (snd (ethertype_at k))).
Proof.
  intros Hk. unfold parse_ethertype. rewrite (cut_pull k 2) by lia. cbn [rbind].
  rewrite (cut_ld16 (k + 2) k) by lia. cbn [rbind]. unfold ethertype_at.
  destruct (ETH_TYPE_MIN <=? ntohs (f16 k xs)); [done|].
  rewrite cut_size by lia. unfold LLC_SNAP_HEADER_LEN.
  case_bool; case_decide; try lia; [done|].
  rewrite (cut_ld8 (k + 2) (k + 2)) by (simpl; lia). cbn [rbind].
  rewrite (cut_ld8 (k + 2) (k + 2 + 1)) by (simpl; lia). cbn [rbind].
  rewrite (cut_ld8 (k + 2) (k + 2 + 2)) by (simpl; lia). cbn [rbind].
  rewrite (cut_ld (k + 2) (k + 2 + 3) 3) by (simpl; lia). cbn [rbind]. unfold is_snap.
  destruct (f8 (k + 2) xs =? 170), (f8 (k + 2 + 1) xs =? 170), (f8 (k + 2 + 2) xs =? 3),
    (bool_decide (region (k + 2 + 3) 3 xs = [0; 0; 0])); try done; simpl negb; simpl orb; simpl andb; cbv iota.
  rewrite (cut_pull (k + 2) 8) by lia. cbn [rbind].
  rewrite (cut_ld16 (k + 2 + 8) (k + 8)) by (simpl; lia). cbn [rbind].
  replace (k + 2 + 8)%nat with (k + 10)%nat by lia.
  by destruct (ETH_TYPE_MIN <=? ntohs (f16 (k + 8) xs)).
Qed.

(** *** IPv4 *)

Definition later_fragment (k : nat) : bool :=
  negb (Z.land (f16 (k + 6) xs) (htons IP_FRAG_OFF_MASK) =? 0).

Definition ip_frag (k : nat) (fl : flow) : flow :=
  if IP_IS_FRAGMENT (f16 (k + 6) xs) then
    let fl := set_nw_frag FLOW_NW_FRAG_ANY fl in
    if later_fragment k then set_nw_frag (Z.lor (nw_frag fl) FLOW_NW_FRAG_LATER) fl else fl
  else fl.

(** The fields of the IPv4 header at [k]. *)
Definition ip_fields (k : nat) (fl : flow) : flow :=
  set_nw_ttl (f8 (k + 8) xs) (ip_frag k
    (set_nw_tos (f8 (k + 1) xs) (set_nw_proto (f8 (k + 9) xs)
       (set_nw_dst (f32 (k + 16) xs) (set_nw_src (f32 (k + 12) xs) fl))))).

Lemma ip_fields_proto k fl : nw_proto (ip_fields k fl) = f8 (k + 9) xs.
Proof. unfold ip_fields, ip_frag. by repeat case_match. Qed.

Definition drop_buf (r : ofpbuf * ofpbuf * flow) : ofpbuf * flow := (fst (fst r), snd r).

Definition ip_l4 (p : ofpbuf) (e : nat) (fl : flow) : ofpbuf * flow :=
  let proto := nw_proto fl in
  if proto =? IPPROTO_TCP then drop_buf (tp_parsed p fl (tcp_fields e fl) e (tcp_end e))
  else if proto =? IPPROTO_UDP then drop_buf (tp_parsed p fl (tp_fields e fl) e (fixed_end 8 e))
  else if proto =? IPPROTO_SCTP then drop_buf (tp_parsed p fl (tp_fields e fl) e (fixed_end 12 e))
  else if proto =? IPPROTO_ICMP then drop_buf (tp_parsed p fl (icmp_fields e fl) e (fixed_end 8 e))
  else (p, fl).

Lemma extract_ip_eq p k fl : (k <= length xs)%nat ->
  extract_ip p (cut b k) fl =
  Ok (match ip_end k with
      | None => (p, fl)
      | Some e =>
          let p := set_l4 (Some (b_data b + Z.of_nat e)) p in
          if later_fragment k then (p, ip_fields k fl) else ip_l4 p e (ip_fields k fl)
      end).
Proof.
  intros Hk. unfold extract_ip. rewrite pull_ip_eq by done. cbn [rbind].
  pose proof (ip_end_bounds k) as He. destruct (ip_end k) as [e|]; [|done].
  specialize (He e eq_refl). cbn [pulled].
  rewrite (cut_be32 e (k + 12)) by (unfold ip_src_ofs; lia). cbn [rbind].
  rewrite (cut_be32 e (k + 16)) by (unfold ip_dst_ofs; lia). cbn [rbind].
  rewrite (cut_ld8 e (k + 9)) by (unfold ip_proto_ofs; lia). cbn [rbind].
  rewrite (cut_ld8 e (k + 1)) by (unfold ip_tos_ofs; lia). cbn [rbind].
  rewrite (cut_ld16 e (k + 6)) by (unfold ip_frag_off_ofs; lia). cbn [rbind].
  rewrite (cut_ld8 e (k + 8)) by (unfold ip_ttl_ofs; lia). cbn [rbind].
  fold (later_fragment k). cbv zeta. rewrite cut_data.
  change (set_nw_ttl (f8 (k + 8) xs) _) with (ip_fields k fl).
  destruct (later_fragment k); [done|]. simpl negb. cbv iota. unfold ip_l4.
  repeat (case_match; [rewrite ?parse_tcp_eq, ?parse_udp_eq, ?parse_sctp_eq by lia;
    try (cbn [rbind]; by destruct (tp_parsed _ _ _ _ _) as [[??]?])|]); [|done].
  unfold pull_icmp. rewrite (try_pull_pulled e 8) by (done || lia). cbn [rbind].
  pose proof (fixed_end_bounds 8 e) as He2. destruct (fixed_end 8 e) as [e'|]; [|done].
  specialize (He2 e' eq_refl). cbn [pulled]. rewrite (cut_ld8 e' e) by lia. cbn [rbind].
  by rewrite (cut_ld8 e' (e + 1)) by lia.
Qed.

(** *** ARP *)

Definition is_arp (k : nat) : bool :=
  (f16 k xs =? htons 1) && (f16 (k + 2) xs =? htons ETH_TYPE_IP) && (f8 (k + 4) xs =? ETH_ADDR_LEN)
  && (f8 (k + 5) xs =? 4).

Definition arp_fields (k : nat) (fl : flow) : flow :=
  set_arp_tha (region (k + 18) 6 xs) (set_arp_sha (region (k + 8) 6 xs)
    (set_nw_dst (f32 (k + 24) xs) (set_nw_src (f32 (k + 14) xs)
       (if ntohs (f16 (k + 6) xs) <=? 0xff then set_nw_proto (ntohs (f16 (k + 6) xs)) fl else fl)))).

Lemma extract_arp_eq p k fl : (k <= length xs)%nat ->
  extract_arp p (cut b k) fl =
  Ok (match fixed_end 28 k with
      | None => (p, fl)
      | Some _ => (p, if is_arp k then arp_fields k fl else fl)
      end).
Proof.
  intros Hk. unfold extract_arp, pull_arp. rewrite (try_pull_pulled k 28) by done. cbn [rbind].
  pose proof (fixed_end_bounds 28 k) as He. destruct (fixed_end 28 k) as [e|]; [|done].
  specialize (He e eq_refl). cbn [pulled].
  rewrite (cut_ld16 e k) by lia. cbn [rbind].
  rewrite (cut_ld16 e (k + 2)) by lia. cbn [rbind].
  rewrite (cut_ld8 e (k + 4)) by lia. cbn [rbind].
  rewrite (cut_ld8 e (k + 5)) by lia. cbn [rbind]. fold (is_arp k).
  destruct (is_arp k); [|done].
  rewrite (cut_ld16 e (k + 6)) by lia. cbn [rbind].
  rewrite (cut_be32 e (k + 14)) by lia. cbn [rbind].
  rewrite (cut_be32 e (k + 24)) by lia. cbn [rbind].
  rewrite (cut_ld e (k + 8) 6) by (done || lia). cbn [rbind].
  by rewrite (cut_ld e (k + 18) 6) by (done || lia).
Qed.

(** *** Loops *)

(** The loop over the label stack ends, in front of the payload. *)
Lemma parse_mpls_loop_ok fuel : forall k top fl, (k <= length xs)%nat -> (length xs - k < fuel)%nat ->
  flow_typed fl ->
  exists e fl', parse_mpls_loop fuel (cut b k) top fl = Ok (cut b e, fl') /\
    (k <= e <= length xs)%nat /\ flow_typed fl' /\ dl_type fl' = dl_type fl.
Proof.
  induction fuel as [|fuel IH]; intros k top fl Hk Hf Ht; [lia|]. simpl.
  rewrite (try_pull_pulled k 4) by done. cbn [rbind].
  pose proof (fixed_end_bounds 4 k) as He. destruct (fixed_end 4 k) as [e|]; cbn [pulled].
  2: { exists k, fl. split; [done|]. split; [lia|done]. }
  specialize (He e eq_refl). rewrite (cut_be32 e k) by lia. cbn [rbind].
  set (fl1 := if top then _ else fl).
  assert (Ht1 : flow_typed fl1).
  { unfold fl1. destruct top; [|done]. apply typed_mpls_lse; [done|]. apply f32_u32; [done|lia]. }
  assert (Hd : dl_type fl1 = dl_type fl) by (unfold fl1; by destruct top).
  case_match.
  - exists e, fl1. split; [done|]. split; [lia|done].
  - destruct (IH e false fl1) as (e' & fl' & E & Hb' & Ht' & Hd'); [lia|lia|done|].
    exists e', fl'. split; [done|]. split; [lia|]. split; [done|congruence].
Qed.

Lemma nd_invalid_typed c fl : flow_typed fl ->
  exists fl', nd_invalid c fl = Ok (false, c, fl') /\ flow_typed fl'.
Proof. intros Ht. eexists. split; [reflexivity|]. auto with sdpa. Qed.

(** The loop over the neighbor discovery options ends. *)
Lemma parse_nd_loop_ok fuel : forall k fl, (k <= length xs)%nat -> (length xs - k < fuel)%nat ->
  flow_typed fl ->
  exists ok e fl', parse_nd_loop fuel (cut b k) fl = Ok (ok, cut b e, fl') /\
    (k <= e <= length xs)%nat /\ flow_typed fl'.
Proof.
  induction fuel as [|fuel IH]; intros k fl Hk Hf Ht; [lia|]. cbn [parse_nd_loop].
  rewrite cut_size by done. case_bool.
  { exists true, k, fl. split; [done|]. split; [lia|done]. }
  rewrite (cut_ld8 k (k + 1)) by (simpl; lia). cbn [rbind].
  assert (Hinv : forall fl', flow_typed fl' -> exists ok e fl'', nd_invalid (cut b k) fl' = Ok (ok, cut b e, fl'') /\
    (k <= e <= length xs)%nat /\ flow_typed fl'').
  { intros fl' Ht'. destruct (nd_invalid_typed (cut b k) fl' Ht') as (fl'' & E & Ht'').
    exists false, k, fl''. split; [done|]. split; [lia|done]. }
  set (l := f8 (k + 1) xs * 8).
  assert (Hl : in_u8 (f8 (k + 1) xs)) by (apply f8_u8; [done|lia]).
  case_match eqn:Eg; [by apply Hinv|].
  apply orb_false_iff in Eg as [E1%Z.eqb_neq E2%Z.ltb_ge].
  rewrite (cut_ld8 k k) by (simpl; lia). cbn [rbind].
  rewrite (cut_ld k (k + 2) 6) by (simpl; lia). cbn [rbind].
  assert (Hnext : forall fl', flow_typed fl' -> exists ok e fl'',
    (let* (p, b') := ofpbuf_try_pull (cut b k) l in
     match p with None => nd_invalid b' fl' | Some _ => parse_nd_loop fuel b' fl' end)
      = Ok (ok, cut b e, fl'') /\ (k <= e <= length xs)%nat /\ flow_typed fl'').
  { intros fl' Ht'. unfold in_u8 in Hl. rewrite (try_pull_pulled k (Z.to_nat l)) by lia. cbn [rbind].
    pose proof (fixed_end_bounds (Z.to_nat l) k) as He.
    destruct (fixed_end (Z.to_nat l) k) as [e|]; cbn [pulled]; [|by apply Hinv].
    specialize (He e eq_refl). destruct (IH e fl') as (ok & e' & fl'' & E & Hb' & Ht''); [lia|lia|done|].
    exists ok, e', fl''. split; [done|]. split; [lia|done]. }
  assert (Hll : bytes_n 6 (region (k + 2) 6 xs)) by (apply bytes_n_region; [done|lia]).
  repeat case_match; first [by apply Hinv | apply Hnext; auto with sdpa].
Qed.

Lemma typed_frag_later fl : flow_typed fl ->
  flow_typed (set_nw_frag (Z.lor (nw_frag fl) FLOW_NW_FRAG_LATER) fl).
Proof.
  intros Ht. apply typed_nw_frag; [done|]. apply lor_range; [lia|apply Ht|].
  unfold FLOW_NW_FRAG_LATER. lia.
Qed.

(** A walk over extension headers that ends at or after [k]. *)
Definition ipv6_walk (k : nat) (c : Res (option Z * ofpbuf * flow)) : Prop :=
  exists r e fl, c = Ok (r, cut b e, fl) /\ (k <= e <= length xs)%nat /\ flow_typed fl /\
    (forall h, r = Some h -> in_u8 h).

Lemma ipv6_walk_le k k' c : (k <= k')%nat -> ipv6_walk k' c -> ipv6_walk k c.
Proof. intros Hk (r & e & fl & E & He & H). exists r, e, fl. split; [done|]. split; [lia|done]. Qed.

Lemma ipv6_walk_now k r fl : (k <= length xs)%nat -> flow_typed fl -> (forall h, r = Some h -> in_u8 h) ->
  ipv6_walk k (Ok (r, cut b k, fl)).
Proof. intros Hk Ht Hr. exists r, k, fl. split; [done|]. split; [lia|done]. Qed.

(** A header of [n] bytes, if it is complete, and then the rest. *)
Lemma ipv6_walk_pull k n m fl (go : ofpbuf -> Res (option Z * ofpbuf * flow)) :
  (k <= length xs)%nat -> m = Z.of_nat n -> flow_typed fl ->
  ((k + n <= length xs)%nat -> ipv6_walk (k + n) (go (cut b (k + n)))) ->
  ipv6_walk k (let* (p, packet) := ofpbuf_try_pull (cut b k) m in
               match p with None => Ok (None, packet, fl) | Some _ => go packet end).
Proof.
  intros Hk Hm Ht Hgo. rewrite (cut_try_pull k n) by done. case_decide; cbn [rbind].
  - eapply ipv6_walk_le; [|by apply Hgo]. lia.
  - by apply ipv6_walk_now.
Qed.

(** The loop over the IPv6 extension headers ends. *)
Lemma parse_ipv6_loop_ok fuel : forall k nexthdr fl, (k <= length xs)%nat ->
  (length xs - k < fuel)%nat -> in_u8 nexthdr -> flow_typed fl ->
  ipv6_walk k (parse_ipv6_loop fuel (cut b k) nexthdr fl).
Proof.
  induction fuel as [|fuel IH]; intros k nexthdr fl Hk Hf Hn Ht; [lia|]. cbn [parse_ipv6_loop].
  case_match. { apply ipv6_walk_now; try done. by intros h [= <-]. }
  rewrite cut_size by done. destruct (Z.ltb_spec (Z.of_nat (length xs - k)) 8).
  { by apply ipv6_walk_now. }
  assert (Hnxt : in_u8 (f8 k xs)) by (apply f8_u8; [done|lia]).
  assert (Hlen : in_u8 (f8 (k + 1) xs)) by (apply f8_u8; [done|lia]).
  cbv zeta. rewrite (cut_ld8 k k) by (simpl; lia). cbn [rbind].
  rewrite (cut_ld8 k (k + 1)) by (simpl; lia). cbn [rbind]. unfold in_u8 in Hlen.
  case_match; [|case_match].
  - apply (ipv6_walk_pull k (Z.to_nat ((f8 (k + 1) xs + 1) * 8))); try done; [lia|].
    intros He. apply IH; auto; lia.
  - apply (ipv6_walk_pull k (Z.to_nat ((f8 (k + 1) xs + 2) * 4))); try done; [lia|].
    intros He. apply IH; auto; lia.
  - apply (ipv6_walk_pull k 8 8 fl); try done. intros He.
    rewrite (cut_ld16 (k + 8) (k + 2)) by (simpl; lia). cbn [rbind].
    assert (Hany : flow_typed (set_nw_frag FLOW_NW_FRAG_ANY fl))
      by (apply typed_nw_frag; [done|unfold FLOW_NW_FRAG_ANY, in_u8; lia]).
    repeat case_match; [|apply IH; auto; lia..].
    apply ipv6_walk_now; [lia|by apply typed_frag_later|].
    intros h [= <-]. unfold IPPROTO_FRAGMENT, in_u8. lia.
Qed.

End Parse.
