(* ===== verification/FlowProps.v ===== *)
(** * Properties of [flow_extract]

    Extraction is total and safe for arbitrary bytes, gives a flow whose fields
    are in the ranges of their types (which the SFA stage relies on), and sets
    the header pointers that the functions which rewrite packets rely on. *)

From Stdlib Require Import ZArith Lia List.
From stdpp Require Import base option list_relations list.
From S2P Require Import Prelude Bytes Hash Csum Ofpbuf Packets PacketsFacts PacketsProps Flow FlowFacts.
#[local] Open Scope Z_scope.
#[local] Open Scope res_scope.

(** ** What extraction returns *)

(** Pointers that are not null are in increasing order from [lo] to [hi]. *)
Fixpoint in_order (lo hi : Z) (ps : list (option Z)) : Prop :=
  match ps with
  | [] => lo <= hi
  | None :: ps => in_order lo hi ps
  | Some p :: ps => lo <= p /\ in_order p hi ps
  end.

Record extracted (b : ofpbuf) (r : ofpbuf * flow) : Prop := {
  ex_frame : fst r = with_layers b (Some (b_data b)) (l2_5 (fst r)) (l3 (fst r)) (l4 (fst r)) (l7 (fst r));
  ex_order : in_order (b_data b) (b_data b + b_size b)
               [l2 (fst r); l2_5 (fst r); l3 (fst r); l4 (fst r); l7 (fst r)];
  ex_l3 : l3 (fst r) = None -> l2_5 (fst r) = None /\ l4 (fst r) = None;
  ex_l4 : l4 (fst r) = None -> l7 (fst r) = None;
  ex_typed : flow_typed (snd r)
}.

Lemma extracted_flow b p fl fl' : extracted b (p, fl) -> flow_typed fl' -> extracted b (p, fl').
Proof. intros [E1 E2 E3 E4 E5] Ht. by split. Qed.

Lemma extracted_l4 b p fl p3 e : extracted b (p, fl) -> l3 p = Some p3 -> l4 p = None ->
  p3 <= e <= b_data b + b_size b -> extracted b (set_l4 (Some e) p, fl).
Proof.
  intros [E1 E2 E3 E4 E5] H3 H4 He. simpl in *. specialize (E4 H4).
  rewrite H3, H4, E4 in *. split; simpl; auto; try done.
  - unfold set_l4. rewrite E1 at 1 2 3. unfold with_layers. simpl. by rewrite H3, E4.
  - rewrite H3, E4. destruct (l2 p), (l2_5 p); simpl in *; lia.
  - by rewrite H3.
Qed.

Lemma extracted_l7 b p fl p4 e : extracted b (p, fl) -> l4 p = Some p4 -> l7 p = None ->
  p4 <= e <= b_data b + b_size b -> extracted b (set_l7 (Some e) p, fl).
Proof.
  intros [E1 E2 E3 E4 E5] H4 H7 He. simpl in *.
  rewrite H4, H7 in *. split; simpl; auto; rewrite ?H4; try done.
  - unfold set_l7. rewrite E1 at 1 2 3. unfold with_layers. simpl. by rewrite H4.
  - destruct (l2 p), (l2_5 p), (l3 p); simpl in *; lia.
Qed.

Lemma drop_buf_eq r : (let* (p, _, fl) := Ok r in Ok (p, fl)) = Ok (drop_buf r).
Proof. by destruct r as [[??]?]. Qed.

Section Extract.
Context (b : ofpbuf) (xs : list Z) (Hh : holds b xs) (Hb : bytes_ok xs).

Lemma end_xs : b_data b + b_size b = b_data b + Z.of_nat (length xs).
Proof. by rewrite (size_xs b xs Hh). Qed.

Lemma tp_fields_typed k fl : flow_typed fl -> (k + 4 <= length xs)%nat -> flow_typed (tp_fields xs k fl).
Proof. intros Ht Hk. apply typed_tp_dst; [apply typed_tp_src|]; try done; apply f16_u16; auto; lia. Qed.

Lemma tcp_fields_typed k fl : flow_typed fl -> (k + 4 <= length xs)%nat ->
  flow_typed (tcp_fields xs k fl).
Proof. intros Ht Hk. apply typed_tcp_flags; [by apply tp_fields_typed|]. auto with sdpa. Qed.

Lemma icmp_fields_typed k fl : flow_typed fl -> flow_typed (icmp_fields xs k fl).
Proof. intros Ht. unfold icmp_fields. auto with sdpa. Qed.

Lemma ip_fields_typed k fl : flow_typed fl -> (k + 20 <= length xs)%nat ->
  flow_typed (ip_fields xs k fl).
Proof.
  intros Ht Hk. unfold ip_fields. apply typed_nw_ttl; [|apply f8_u8; auto; lia].
  assert (H : flow_typed (set_nw_tos (f8 (k + 1) xs) (set_nw_proto (f8 (k + 9) xs)
       (set_nw_dst (f32 (k + 16) xs) (set_nw_src (f32 (k + 12) xs) fl))))).
  { apply typed_nw_tos; [apply typed_nw_proto; [apply typed_nw_dst; [apply typed_nw_src|]|]|]; try done;
      first [apply f8_u8 | apply f32_u32]; auto; lia. }
  unfold ip_frag. repeat case_match; auto; [apply typed_frag_later|];
    (apply typed_nw_frag; [done|unfold FLOW_NW_FRAG_ANY, in_u8; lia]).
Qed.

Lemma arp_fields_typed k fl : flow_typed fl -> (k + 28 <= length xs)%nat ->
  flow_typed (arp_fields xs k fl).
Proof.
  intros Ht Hk. unfold arp_fields.
  apply typed_arp_tha; [|apply bytes_n_region; auto; lia].
  apply typed_arp_sha; [|apply bytes_n_region; auto; lia].
  apply typed_nw_dst; [|apply f32_u32; auto; lia]. apply typed_nw_src; [|apply f32_u32; auto; lia].
  destruct (Z.leb_spec (ntohs (f16 (k + 6) xs)) 255) as [H|]; [|done].
  apply typed_nw_proto; [done|]. pose proof (htons_u16 (f16 (k + 6) xs)). unfold ntohs, in_u16, in_u8 in *. lia.
Qed.

(** A transport header behind [k]. *)
Lemma tp_parsed_extracted p fl fl' k e : extracted b (p, fl) -> l4 p = Some (b_data b + Z.of_nat k) ->
  l7 p = None -> (forall e', e = Some e' -> (k <= e' <= length xs)%nat /\ flow_typed fl') ->
  extracted b (drop_buf (tp_parsed b p fl fl' k e)).
Proof.
  intros Hx H4 H7 He. destruct e as [e|]; [|exact Hx]. destruct (He e eq_refl) as [He' Ht].
  apply (extracted_l7 _ _ _ (b_data b + Z.of_nat k)); try done; [by eapply extracted_flow|].
  rewrite end_xs. lia.
Qed.

Lemma ip_l4_extracted p fl e : extracted b (p, fl) -> l4 p = Some (b_data b + Z.of_nat e) ->
  l7 p = None -> extracted b (ip_l4 b xs p e fl).
Proof.
  intros Hx H4 H7. pose proof (ex_typed _ _ Hx) as Ht. simpl in Ht. unfold ip_l4.
  repeat case_match; try done; apply tp_parsed_extracted; try done; intros e' He';
    first [apply tcp_end_bounds in He' | apply fixed_end_bounds in He']; (split; [lia|]);
    first [apply tcp_fields_typed | apply tp_fields_typed | apply icmp_fields_typed]; auto; lia.
Qed.

Lemma extract_ip_ok p k fl : (k <= length xs)%nat -> extracted b (p, fl) ->
  l3 p = Some (b_data b + Z.of_nat k) -> l4 p = None ->
  exists r, extract_ip p (cut b k) fl = Ok r /\ extracted b r.
Proof.
  intros Hk Hx H3 H4. rewrite (extract_ip_eq b xs Hh Hb) by done.
  eexists. split; [reflexivity|]. pose proof (ip_end_bounds xs k) as He.
  destruct (ip_end xs k) as [e|]; [|done]. specialize (He e eq_refl).
  assert (Hx' : extracted b (set_l4 (Some (b_data b + Z.of_nat e)) p, ip_fields xs k fl)).
  { eapply extracted_flow; [eapply extracted_l4; eauto; rewrite end_xs; lia|].
    apply ip_fields_typed; [apply Hx|lia]. }
  pose proof (ex_l4 _ _ Hx H4) as H7. cbv zeta. case_match; [done|].
  by apply ip_l4_extracted.
Qed.

Lemma extract_arp_ok p k fl : (k <= length xs)%nat -> extracted b (p, fl) ->
  exists r, extract_arp p (cut b k) fl = Ok r /\ extracted b r.
Proof.
  intros Hk Hx. rewrite (extract_arp_eq b xs Hh Hb) by done. eexists. split; [reflexivity|].
  pose proof (fixed_end_bounds xs 28 k) as He. destruct (fixed_end xs 28 k) as [e|]; [|done].
  specialize (He e eq_refl). case_match; [|done].
  eapply extracted_flow; [exact Hx|]. apply arp_fields_typed; [apply Hx|lia].
Qed.

Lemma parse_ipv6_ok k fl : (k <= length xs)%nat -> flow_typed fl ->
  exists err e fl', parse_ipv6 (cut b k) fl = Ok (err, cut b e, fl') /\
    (k <= e <= length xs)%nat /\ flow_typed fl'.
Proof.
  intros Hk Ht. unfold parse_ipv6. rewrite (try_pull_pulled b xs Hh k 40) by done. cbn [rbind].
  pose proof (fixed_end_bounds xs 40 k) as He. destruct (fixed_end xs 40 k) as [e|]; cbn [pulled].
  2: { exists EINVAL, k, fl. split; [done|]. split; [lia|done]. }
  specialize (He e eq_refl).
  rewrite (cut_ld8 b xs Hh e (k + 6)) by (unfold ip6_nxt_ofs; lia). cbn [rbind].
  rewrite (cut_ld b xs Hh e (k + 8) 16) by (unfold ip6_src_ofs; lia). cbn [rbind].
  rewrite (cut_ld b xs Hh e (k + 24) 16) by (unfold ip6_dst_ofs; lia). cbn [rbind].
  rewrite (cut_be32 b xs Hh Hb e k) by lia. cbn [rbind].
  rewrite (cut_ld8 b xs Hh e (k + 7)) by (unfold ip6_hlim_ofs; lia). cbn [rbind].
  set (fl1 := set_nw_proto IPPROTO_NONE _).
  assert (Ht1 : flow_typed fl1).
  { unfold fl1. apply typed_nw_proto; [|unfold IPPROTO_NONE, in_u8; lia].
    apply typed_nw_ttl; [|apply f8_u8; auto; lia]. apply typed_ipv6_label.
    2: { apply land_u32. vm_compute. split; congruence. }
    apply typed_nw_tos; [|apply u8_range].
    apply typed_ipv6_dst; [apply typed_ipv6_src|]; auto; apply bytes_n_region; auto; lia. }
  destruct (parse_ipv6_loop_ok b xs Hh Hb (S (Z.to_nat (b_size (cut b e)))) e (f8 (k + 6) xs) fl1)
    as (r & e' & fl' & E & He' & Ht' & Hr); [lia| |apply f8_u8; auto; lia|done|].
  { rewrite (cut_size b xs Hh) by lia. lia. }
  rewrite E. cbn [rbind]. destruct r as [h|]; eexists _, e', _; (split; [reflexivity|]);
    (split; [lia|]); auto. apply typed_nw_proto; auto.
Qed.

Lemma parse_icmpv6_ok k fl : (k <= length xs)%nat -> flow_typed fl ->
  exists ok e fl', parse_icmpv6 (cut b k) fl = Ok (ok, cut b e, fl') /\
    (k <= e <= length xs)%nat /\ flow_typed fl'.
Proof.
  intros Hk Ht. unfold parse_icmpv6, pull_icmpv6. rewrite (try_pull_pulled b xs Hh k 8) by done. cbn [rbind].
  pose proof (fixed_end_bounds xs 8 k) as He. destruct (fixed_end xs 8 k) as [e|]; cbn [pulled].
  2: { exists false, k, fl. split; [done|]. split; [lia|done]. }
  specialize (He e eq_refl). rewrite (cut_ld8 b xs Hh e k) by lia. cbn [rbind].
  rewrite (cut_ld8 b xs Hh e (k + 1)) by lia. cbn [rbind].
  fold (icmp_fields xs k fl). pose proof (icmp_fields_typed k fl Ht) as Ht1.
  case_match. 2: { eexists true, e, _. split; [done|]. split; [lia|done]. }
  rewrite (try_pull_pulled b xs Hh e 16) by (done || lia). cbn [rbind].
  pose proof (fixed_end_bounds xs 16 e) as He2. destruct (fixed_end xs 16 e) as [e2|]; cbn [pulled].
  2: { eexists false, e, _. split; [done|]. split; [lia|done]. }
  specialize (He2 e2 eq_refl). rewrite (cut_ld b xs Hh e2 e 16) by (done || lia). cbn [rbind].
  destruct (parse_nd_loop_ok b xs Hh Hb (S (Z.to_nat (b_size (cut b e2)))) e2
              (set_nd_target (region e 16 xs) (icmp_fields xs k fl))) as (ok & e' & fl' & E & He' & Ht').
  - lia.
  - rewrite (cut_size b xs Hh) by lia. lia.
  - apply typed_nd_target; [done|]. apply bytes_n_region; auto; lia.
  - exists ok, e', fl'. split; [done|]. split; [lia|done].
Qed.

Lemma extract_ipv6_ok p k fl : (k <= length xs)%nat -> extracted b (p, fl) ->
  l3 p = Some (b_data b + Z.of_nat k) -> l4 p = None ->
  exists r, extract_ipv6 p (cut b k) fl = Ok r /\ extracted b r.
Proof.
  intros Hk Hx H3 H4. unfold extract_ipv6.
  destruct (parse_ipv6_ok k fl Hk (ex_typed _ _ Hx)) as (err & e & fl1 & E & He & Ht). rewrite E. cbn [rbind].
  case_match. { eexists. split; [done|]. by eapply extracted_flow. }
  rewrite cut_data. pose proof (ex_l4 _ _ Hx H4) as H7. simpl in H7.
  assert (Hx' : extracted b (set_l4 (Some (b_data b + Z.of_nat e)) p, fl1)).
  { eapply extracted_flow; [eapply extracted_l4; eauto; rewrite end_xs; lia|done]. }
  set (p' := set_l4 _ p) in *.
  repeat (case_match; [rewrite ?(parse_tcp_eq b xs Hh), ?(parse_udp_eq b xs Hh), ?(parse_sctp_eq b xs Hh) by lia|]).
  1-3: eexists; (split; [apply drop_buf_eq|]).
  - apply tp_parsed_extracted; try done. intros e' He'%tcp_end_bounds. split; [lia|].
    apply tcp_fields_typed; auto; lia.
  - apply tp_parsed_extracted; try done. intros e' He'%fixed_end_bounds. split; [lia|].
    apply tp_fields_typed; auto; lia.
  - apply tp_parsed_extracted; try done. intros e' He'%fixed_end_bounds. split; [lia|].
    apply tp_fields_typed; auto; lia.
  - destruct (parse_icmpv6_ok e fl1) as (ok & e' & fl2 & E2 & He2 & Ht2); [lia|done|].
    rewrite E2. cbn [rbind]. rewrite cut_data. eexists. split; [done|].
    destruct ok; [|by eapply extracted_flow].
    apply (extracted_flow _ _ fl1); [|done].
    apply (extracted_l7 b p' fl1 (b_data b + Z.of_nat e)); try done. rewrite end_xs. lia.
  - eexists. split; [done|]. done.
Qed.

End Extract.

(** The pointers right after the link layer was parsed. *)
Lemma extracted_start b xs fl p25 k : holds b xs -> (k <= length xs)%nat -> flow_typed fl ->
  (forall j, p25 = Some j -> (j <= k)%nat) ->
  extracted b (set_l3 (Some (b_data b + Z.of_nat k))
    (with_layers b (Some (b_data b)) ((fun j => b_data b + Z.of_nat j) <$> p25) None None None), fl).
Proof.
  intros Hh Hk Ht Hp. pose proof (size_xs b xs Hh). split; simpl; try done.
  destruct p25 as [j|]; simpl; [specialize (Hp j eq_refl)|]; lia.
Qed.

(** The link layer: addresses, tag, type and label stack. *)
Lemma extract_l2 b xs fl : holds b xs -> bytes_ok xs -> (14 <= length xs)%nat -> flow_typed fl ->
  exists k fl', (if f16 12 xs =? htons ETH_TYPE_VLAN then parse_vlan (cut b 12) fl else Ok (cut b 12, fl))
      = Ok (cut b k, fl') /\ flow_typed fl' /\ (12 <= k /\ k + 2 <= length xs)%nat.
Proof.
  intros Hh Hb Hl Ht. case_match.
  - rewrite (parse_vlan_eq b xs Hh) by lia. case_decide; eexists _, _; (split; [reflexivity|]).
    + split; [|lia]. apply typed_vlan_tci; [done|]. apply lor_u16; [apply f16_u16; auto; lia|].
      apply htons_u16.
    + split; [done|lia].
  - exists 12%nat, fl. split; [done|]. split; [done|lia].
Qed.

(** The label stack of an MPLS packet. *)
Lemma extract_mpls b xs k fl : holds b xs -> bytes_ok xs -> (k <= length xs)%nat -> flow_typed fl ->
  let packet := with_layers b (Some (b_data b)) None None None None in
  exists j e fl',
    (if eth_type_mpls (dl_type fl) then
       let* (b', fl) := parse_mpls (cut b k) fl in Ok (set_l2_5 (Some (b_data (cut b k))) packet, b', fl)
     else Ok (packet, cut b k, fl)) =
    Ok (with_layers b (Some (b_data b)) ((fun j => b_data b + Z.of_nat j) <$> j) None None None, cut b e, fl')
    /\ (e <= length xs)%nat /\ flow_typed fl' /\ (forall j', j = Some j' -> (j' <= e)%nat).
Proof.
  intros Hh Hb Hk Ht packet. destruct (eth_type_mpls (dl_type fl)).
  - destruct (parse_mpls_loop_ok b xs Hh Hb (S (Z.to_nat (b_size (cut b k)))) k true fl)
      as (e & fl4 & E4 & He & Ht4 & _); [lia|rewrite (cut_size b xs Hh) by lia; lia|done|].
    exists (Some k), e, fl4. unfold parse_mpls. rewrite E4. split; [done|]. split; [lia|].
    split; [done|]. intros j' [= <-]. lia.
  - exists None, k, fl. split; [done|]. split; [lia|done].
Qed.

Lemma flow_extract_ok b xs prio mark tnl port : holds b xs -> bytes_ok xs ->
  in_u32 prio -> in_u32 mark -> (forall t, tnl = Some t -> tnl_ok t) ->
  (forall p, port = Some p -> in_u32 p) ->
  exists r, flow_extract b prio mark tnl port = Ok r /\ extracted b r.
Proof.
  intros Hh Hb Hp Hm Ht Hi. pose proof (size_xs b xs Hh) as Hs. unfold flow_extract.
  pose proof (init_flow_typed prio mark tnl port Hp Hm Ht Hi) as Ht0.
  destruct (Z.ltb_spec (b_size b) ETH_HEADER_LEN) as [Hl|Hl]; unfold ETH_HEADER_LEN in Hl.
  { eexists. split; [done|]. split; simpl; try done. lia. }
  cbv zeta. rewrite (ld_at b xs Hh 6 6) by (done || lia). cbn [rbind].
  rewrite (ld_at b xs Hh 0 6) by (unfold ETH_ADDR_LEN; lia). cbn [rbind].
  pose proof (cut_pull b xs Hh 0 12 _ eq_refl ltac:(lia)) as E0. rewrite (cut_0 b xs Hh) in E0.
  cbn [Nat.add] in E0.
  change (ETH_ADDR_LEN * 2) with (Z.of_nat 12). rewrite E0. cbn [rbind].
  rewrite (cut_ld16 b xs Hh _ 12) by (done || lia). cbn [rbind].
  set (fl1 := set_dl_dst _ _).
  assert (Ht1 : flow_typed fl1).
  { unfold fl1. apply typed_dl_dst; [apply typed_dl_src|]; try done; apply bytes_n_region; auto; lia. }
  destruct (extract_l2 b xs fl1 Hh Hb ltac:(lia) Ht1) as (k & fl2 & E & Ht2 & Hk1 & Hk2).
  rewrite E. cbn [rbind]. rewrite (parse_ethertype_eq b xs Hh) by lia. cbn [rbind].
  destruct (ethertype_at_bounds xs Hb k Hk2) as [Hu Hk']. destruct (ethertype_at xs k) as [t k'].
  simpl in Hu, Hk'. simpl fst. simpl snd.
  set (fl3 := set_dl_type t fl2).
  assert (Ht3 : flow_typed fl3) by (by apply typed_dl_type).
  destruct (extract_mpls b xs k' fl3 Hh Hb ltac:(lia) Ht3) as (j & e & fl4 & E4 & He & Ht4 & Hj).
  rewrite E4. cbn [rbind]. rewrite cut_data.
  pose proof (extracted_start b xs fl4 j e Hh He Ht4 Hj) as Hx.
  repeat case_match;
    first [by apply (extract_ip_ok b xs Hh Hb) | by apply (extract_ipv6_ok b xs Hh Hb)
          | by apply (extract_arp_ok b xs Hh Hb) | by eexists].
Qed.

Lemma holds_layers b xs p2 p25 p3 p4 p7 : holds b xs -> holds (with_layers b p2 p25 p3 p4 p7) xs.
Proof. intros [[H1 H2 H3 H4] Hc]. by split; [split|]. Qed.

(** C12. For arbitrary bytes, [flow_extract] ends without a fault, leaves the packet
    as it is, sets the header pointers in increasing order inside the packet,
    and gives a flow whose fields are all in the ranges of their types. *)
Theorem flow_extract_typed b xs prio mark tnl port : holds b xs -> bytes_ok xs ->
  in_u32 prio -> in_u32 mark -> (forall t, tnl = Some t -> tnl_ok t) ->
  (forall p, port = Some p -> in_u32 p) ->
  exists b' fl, flow_extract b prio mark tnl port = Ok (b', fl) /\ flow_typed fl /\
    holds b' xs /\ b_store b' = b_store b /\ b_data b' = b_data b /\ b_size b' = b_size b /\
    l2 b' = Some (b_data b) /\
    in_order (b_data b) (b_data b + b_size b) [l2 b'; l2_5 b'; l3 b'; l4 b'; l7 b'].
Proof.
  intros Hh Hb Hp Hm Ht Hi.
  destruct (flow_extract_ok b xs prio mark tnl port Hh Hb Hp Hm Ht Hi) as ([b' fl] & E & [F O _ _ T]).
  simpl in *. exists b', fl. split_and!; try done; rewrite F; try done.
  by apply holds_layers.
Qed.

Lemma flow_extract_typed_witness :
  exists b' fl, flow_extract tcp_packet 0 0 None (Some 1) = Ok (b', fl) /\ flow_typed fl /\
    holds b' tcp_packet_bytes /\ b_store b' = b_store tcp_packet /\ b_data b' = 0 /\ b_size b' = 54 /\
    l2 b' = Some 0 /\ in_order 0 54 [l2 b'; l2_5 b'; l3 b'; l4 b'; l7 b'].
Proof.
  apply (flow_extract_typed tcp_packet tcp_packet_bytes 0 0 None (Some 1) tcp_packet_holds).
  - apply bytes_ok_dec. reflexivity.
  - split; vm_compute; congruence.
  - split; vm_compute; congruence.
  - discriminate.
  - intros p [= <-]. split; vm_compute; congruence.
Defined.

(** ** The type of the frame is not changed after it was read *)

Ltac split_ok H :=
  repeat first [ apply rbind_Ok in H as (? & ? & H)
               | match type of H with
                 | context [let '(_, _) := ?x in _] => destruct x
                 | match ?x with _ => _ end = Ok _ => destruct x eqn:?
                 end ];
  try discriminate H.

Lemma parse_mpls_loop_dl_type fuel : forall c top fl c' fl',
  parse_mpls_loop fuel c top fl = Ok (c', fl') -> dl_type fl' = dl_type fl.
Proof.
  induction fuel as [|fuel IH]; intros c top fl c' fl' E; [done|]. simpl in E.
  split_ok E; try (injection E as <- <-); try (apply IH in E; rewrite E); by try destruct top.
Qed.

Lemma parse_ipv6_loop_dl_type fuel : forall c n fl r c' fl',
  parse_ipv6_loop fuel c n fl = Ok (r, c', fl') -> dl_type fl' = dl_type fl.
Proof.
  induction fuel as [|fuel IH]; intros c n fl r c' fl' E; [done|]. cbn [parse_ipv6_loop] in E.
  split_ok E; first [by injection E as <- <- <- | by apply IH in E].
Qed.

Lemma parse_nd_loop_dl_type fuel : forall c fl r c' fl',
  parse_nd_loop fuel c fl = Ok (r, c', fl') -> dl_type fl' = dl_type fl.
Proof.
  induction fuel as [|fuel IH]; intros c fl r c' fl' E; [done|]. cbn [parse_nd_loop] in E.
  unfold nd_invalid in E. split_ok E; first [by injection E as <- <- <- | by apply IH in E].
Qed.

Lemma parse_tp_dl_type p c fl p' c' fl' :
  parse_tcp p c fl = Ok (p', c', fl') \/ parse_udp p c fl = Ok (p', c', fl') \/
  parse_sctp p c fl = Ok (p', c', fl') -> dl_type fl' = dl_type fl.
Proof.
  unfold parse_tcp, parse_udp, parse_sctp.
  intros [E|[E|E]]; split_ok E; by injection E as <- <- <-.
Qed.

Lemma extract_ipv6_dl_type p c fl p' fl' : extract_ipv6 p c fl = Ok (p', fl') -> dl_type fl' = dl_type fl.
Proof.
  unfold extract_ipv6. intros E. apply rbind_Ok in E as ([[err c1] fl1] & E1 & E).
  assert (H1 : dl_type fl1 = dl_type fl).
  { unfold parse_ipv6 in E1. split_ok E1; injection E1 as <- <- <-; try done;
      match goal with H : parse_ipv6_loop _ _ _ _ = _ |- _ => by apply parse_ipv6_loop_dl_type in H end. }
  rewrite <- H1. split_ok E; injection E as <- <-; try done;
    try (eapply parse_tp_dl_type; eauto; done).
  unfold parse_icmpv6 in *.
  match goal with H : rbind (pull_icmpv6 _) _ = _ |- _ => split_ok H; try (injection H as <- <- <-; done);
    by apply parse_nd_loop_dl_type in H end.
Qed.

Lemma extract_ip_dl_type p c fl p' fl' : extract_ip p c fl = Ok (p', fl') -> dl_type fl' = dl_type fl.
Proof.
  assert (Hf : forall o (fl : flow) x, dl_type (set_nw_ttl x
    (if IP_IS_FRAGMENT o then
       if negb (Z.land o (htons IP_FRAG_OFF_MASK) =? 0)
       then set_nw_frag (Z.lor (nw_frag (set_nw_frag FLOW_NW_FRAG_ANY fl)) FLOW_NW_FRAG_LATER)
              (set_nw_frag FLOW_NW_FRAG_ANY fl)
       else set_nw_frag FLOW_NW_FRAG_ANY fl else fl)) = dl_type fl) by (intros; by repeat case_match).
  unfold extract_ip. cbv zeta. intros E.
  split_ok E; try (injection E as <- <-); try done; rewrite ?Hf; try done;
    try (etrans; [eapply parse_tp_dl_type; eauto|]; by rewrite Hf).
  all: unfold set_tp_dst, set_tp_src; simpl; by repeat case_match.
Qed.

Lemma extract_arp_dl_type p c fl p' fl' : extract_arp p c fl = Ok (p', fl') -> dl_type fl' = dl_type fl.
Proof. unfold extract_arp. intros E. split_ok E; injection E as <- <-; try done. by case_match. Qed.

(** ** Extraction as a function of the bytes *)

(** Where the type field is, and the flow with the tag. *)
Definition vlan_at (xs : list Z) (fl : flow) : nat * flow :=
  if (f16 12 xs =? htons ETH_TYPE_VLAN) && bool_decide (18 <= length xs)%nat
  then (16%nat, set_vlan_tci (Z.lor (f16 14 xs) (htons VLAN_CFI)) fl)
  else (12%nat, fl).

Definition eth_fields (xs : list Z) (fl : flow) : flow :=
  set_dl_dst (region 0 6 xs) (set_dl_src (region 6 6 xs) fl).

(** The part of [flow_extract] after the link layer. *)
Definition extract_rest (b c : ofpbuf) (fl : flow) : Res (ofpbuf * flow) :=
  let packet := with_layers b (Some (b_data b)) None None None None in
  let* (packet, c, fl) :=
    if eth_type_mpls (dl_type fl) then
      let packet := set_l2_5 (Some (b_data c)) packet in
      let* (c, fl) := parse_mpls c fl in Ok (packet, c, fl)
    else Ok (packet, c, fl) in
  let packet := set_l3 (Some (b_data c)) packet in
  if dl_type fl =? htons ETH_TYPE_IP then extract_ip packet c fl
  else if dl_type fl =? htons ETH_TYPE_IPV6 then extract_ipv6 packet c fl
  else if (dl_type fl =? htons ETH_TYPE_ARP) || (dl_type fl =? htons ETH_TYPE_RARP)
  then extract_arp packet c fl
  else Ok (packet, fl).

Lemma flow_extract_eq b xs prio mark tnl port : holds b xs -> (14 <= length xs)%nat ->
  flow_extract b prio mark tnl port =
  let (k, fl) := vlan_at xs (eth_fields xs (init_flow prio mark tnl port)) in
  let (t, k') := ethertype_at xs k in
  extract_rest b (cut b k') (set_dl_type t fl).
Proof.
  intros Hh Hl. pose proof (size_xs b xs Hh) as Hs. unfold flow_extract.
  destruct (Z.ltb_spec (b_size b) ETH_HEADER_LEN) as [Hl'|_]; [unfold ETH_HEADER_LEN in Hl'; lia|].
  cbv zeta. rewrite (ld_at b xs Hh 6 6) by (done || lia). cbn [rbind].
  rewrite (ld_at b xs Hh 0 6) by (unfold ETH_ADDR_LEN; lia). cbn [rbind].
  pose proof (cut_pull b xs Hh 0 12 _ eq_refl ltac:(lia)) as E0. rewrite (cut_0 b xs Hh) in E0.
  cbn [Nat.add] in E0. change (ETH_ADDR_LEN * 2) with (Z.of_nat 12). rewrite E0. cbn [rbind].
  rewrite (cut_ld16 b xs Hh _ 12) by (done || lia). cbn [rbind]. fold (eth_fields xs (init_flow prio mark tnl port)).
  unfold vlan_at. destruct (f16 12 xs =? htons ETH_TYPE_VLAN); cbn [andb].
  - rewrite (parse_vlan_eq b xs Hh) by lia. case_decide; case_bool_decide; try lia; cbn [rbind Nat.add].
    + rewrite (parse_ethertype_eq b xs Hh) by lia. cbn [rbind]. by destruct (ethertype_at xs 16).
    + rewrite (parse_ethertype_eq b xs Hh) by lia. cbn [rbind]. by destruct (ethertype_at xs 12).
  - cbn [rbind]. rewrite (parse_ethertype_eq b xs Hh) by lia. cbn [rbind]. by destruct (ethertype_at xs 12).
Qed.

Lemma extract_rest_dl_type b c fl p' fl' : extract_rest b c fl = Ok (p', fl') -> dl_type fl' = dl_type fl.
Proof.
  unfold extract_rest. intros E. apply rbind_Ok in E as ([[p c1] fl1] & E1 & E).
  assert (H1 : dl_type fl1 = dl_type fl).
  { split_ok E1; injection E1 as <- <- <-; [|done].
    match goal with H : parse_mpls _ _ = _ |- _ => by apply parse_mpls_loop_dl_type in H end. }
  cbv zeta in E. rewrite <- H1.
  destruct (dl_type fl1 =? htons ETH_TYPE_IP); [by apply extract_ip_dl_type in E|].
  destruct (dl_type fl1 =? htons ETH_TYPE_IPV6); [by apply extract_ipv6_dl_type in E|].
  case_match; [by apply extract_arp_dl_type in E|]. by injection E as <- <-.
Qed.

(** ** Rewriting and extracting again *)

(** [ys] agrees with [xs] on the bytes from [o] to [e]. *)
Definition agree (o e : nat) (xs ys : list Z) : Prop :=
  forall i, (o <= i < e)%nat -> ys !! i = xs !! i.

Section Agree.
Context (xs ys : list Z) (Hlen : length ys = length xs).

Lemma agree_region o e k n : agree o e xs ys -> (o <= k)%nat -> (k + n <= e)%nat ->
  region k n ys = region k n xs.
Proof. intros Ha H1 H2. apply region_ext; [done|]. intros i Hi. apply Ha. lia. Qed.

Lemma agree_f8 o e k : agree o e xs ys -> (o <= k)%nat -> (k + 1 <= e)%nat -> f8 k ys = f8 k xs.
Proof. intros. unfold f8. f_equal. by eapply agree_region. Qed.
Lemma agree_f16 o e k : agree o e xs ys -> (o <= k)%nat -> (k + 2 <= e)%nat -> f16 k ys = f16 k xs.
Proof. intros. unfold f16. f_equal. by eapply agree_region. Qed.
Lemma agree_f32 o e k : agree o e xs ys -> (o <= k)%nat -> (k + 4 <= e)%nat -> f32 k ys = f32 k xs.
Proof. intros. unfold f32. f_equal. by eapply agree_region. Qed.

(** The link layer of an IPv4 packet depends on the bytes before the header. *)
Lemma agree_ethertype k k' t : ethertype_at xs k = (t, k') -> t = htons ETH_TYPE_IP ->
  agree 0 k' xs ys -> ethertype_at ys k = (t, k').
Proof.
  intros E Ht Ha. subst t. revert E. unfold ethertype_at. rewrite Hlen.
  assert (Hn : htons FLOW_DL_TYPE_NONE <> htons ETH_TYPE_IP) by (vm_compute; congruence).
  destruct (ETH_TYPE_MIN <=? ntohs (f16 k xs)) eqn:E1.
  { intros [= E <-]. rewrite (agree_f16 0 (k + 2) k) by (done || lia). by rewrite E1, E. }
  case_decide; [|by intros [= E%Hn]]. destruct (is_snap xs (k + 2)) eqn:E2; [|by intros [= E%Hn]].
  destruct (ETH_TYPE_MIN <=? ntohs (f16 (k + 8) xs)) eqn:E3; [|by intros [= E%Hn]].
  intros [= E <-]. unfold is_snap in *.
  rewrite (agree_f16 0 (k + 10) k), E1 by (done || lia).
  rewrite !(agree_f8 0 (k + 10)), (agree_region 0 (k + 10)) by (done || lia). rewrite E2.
  rewrite (agree_f16 0 (k + 10) (k + 8)), E3 by (done || lia). by rewrite E.
Qed.

Lemma agree_vlan fl e : agree 0 e xs ys -> (snd (ethertype_at xs (fst (vlan_at xs fl))) <= e)%nat ->
  (14 <= length xs)%nat -> bytes_ok xs -> vlan_at ys fl = vlan_at xs fl.
Proof.
  intros Ha He Hl Hb. unfold vlan_at in *. rewrite Hlen.
  destruct (f16 12 xs =? htons ETH_TYPE_VLAN) eqn:Ev; simpl in He.
  - case_bool_decide; simpl in He.
    + destruct (ethertype_at_bounds xs Hb 16) as [_ Hk]; [lia|].
      rewrite (agree_f16 0 e 12), (agree_f16 0 e 14), Ev by (done || lia). done.
    + by rewrite !andb_false_r.
  - destruct (ethertype_at_bounds xs Hb 12) as [_ Hk]; [lia|].
    by rewrite (agree_f16 0 e 12), Ev by (done || lia).
Qed.

End Agree.

(** The packet as the IPv4 branch of extraction describes it. *)
Lemma extract_ip_geom b xs p k e : holds b xs -> bytes_ok xs -> (k <= length xs)%nat ->
  b_data p = b_data b -> l3 p = Some (b_data b + Z.of_nat k) -> ip_end xs k = Some e ->
  (forall co, tp_csum_ofs (f8 (k + 9) xs) (l7 p) = Some co ->
     l4 p = Some (b_data b + Z.of_nat e) /\ (e + co + 2 <= length xs)%nat) ->
  ipv4_geom p xs k e (e - k) (length xs - e) (f8 (k + 9) xs) /\
  exists v, region k 1 xs = [v] /\ v <> 0.
Proof.
  intros Hh Hb Hk Hd H3 He Hco. pose proof (ip_end_bounds xs k e He) as Hb'. split.
  - split; rewrite ?Hd; try done; try lia.
    + unfold f8. destruct (region_1 (k + 9) xs) as (v & E); [lia|]. by rewrite E, le_word_1.
    + intros co Eco. destruct (Hco co Eco). split; [done|lia].
  - destruct (region_1 k xs) as (v & E); [lia|]. exists v. split; [done|]. intros ->.
    unfold ip_end, f8 in He. rewrite E, le_word_1 in He. cbv zeta in He.
    change (Z.to_nat (IP_IHL 0 * 4)) with 0%nat in He. case_decide; [lia|done].
Qed.

Lemma tp_parsed_l7 b p fl fl' k e : l7 p = None ->
  l7 (fst (drop_buf (tp_parsed b p fl fl' k e))) = (fun e => b_data b + Z.of_nat e) <$> e.
Proof. by destruct e. Qed.
Lemma tp_parsed_l34 b p fl fl' k e : let q := fst (drop_buf (tp_parsed b p fl fl' k e)) in
  l3 q = l3 p /\ l4 q = l4 p /\ b_data q = b_data p.
Proof. by destruct e. Qed.

(** The transport header is there when the pointer behind it is set. *)
Lemma ip_l4_csum b xs p e fl co : l7 p = None ->
  tp_csum_ofs (nw_proto fl) (l7 (fst (ip_l4 b xs p e fl))) = Some co -> (e + co + 2 <= length xs)%nat.
Proof.
  intros H7. unfold ip_l4, tp_csum_ofs. destruct (nw_proto fl =? IPPROTO_TCP).
  { rewrite tp_parsed_l7 by done. pose proof (tcp_end_bounds xs e) as He.
    destruct (tcp_end xs e) as [e'|]; [|done]. specialize (He e' eq_refl). intros [= <-]. lia. }
  destruct (nw_proto fl =? IPPROTO_UDP).
  { rewrite tp_parsed_l7 by done. pose proof (fixed_end_bounds xs 8 e) as He.
    destruct (fixed_end xs 8 e) as [e'|]; [|done]. specialize (He e' eq_refl). intros [= <-]. lia. }
  by case_match.
Qed.

Lemma ip_l4_l34 b xs p e fl : let q := fst (ip_l4 b xs p e fl) in
  l3 q = l3 p /\ l4 q = l4 p /\ b_data q = b_data p.
Proof. unfold ip_l4. repeat case_match; first [apply tp_parsed_l34 | done]. Qed.

(** The transport fields depend on the ports and, for TCP, on the control
    word; ICMP on the first two bytes. *)
Lemma agree_ip_l4 b b' xs ys p e fl : length ys = length xs -> agree e (e + 4) xs ys ->
  (nw_proto fl = IPPROTO_TCP -> agree e (e + 16) xs ys) ->
  b_data b' = b_data b -> ip_l4 b' ys p e fl = ip_l4 b xs p e fl.
Proof.
  intros Hl Ha Hc Hd. unfold ip_l4.
  assert (Htp : forall fl fl' n, drop_buf (tp_parsed b' p fl fl' e (fixed_end ys n e)) =
                                 drop_buf (tp_parsed b p fl fl' e (fixed_end xs n e))).
  { intros f f' n. unfold fixed_end. rewrite Hl. case_decide; [|done].
    unfold tp_parsed, drop_buf. simpl. by rewrite Hd. }
  assert (Hf : forall n, drop_buf (tp_parsed b' p fl (tp_fields ys e fl) e (fixed_end ys n e)) =
                         drop_buf (tp_parsed b p fl (tp_fields xs e fl) e (fixed_end xs n e))).
  { intros n. rewrite Htp. unfold tp_fields. by rewrite !(agree_f16 xs ys Hl e (e + 4)) by (done || lia). }
  destruct (Z.eqb_spec (nw_proto fl) IPPROTO_TCP) as [Ep|_].
  { specialize (Hc Ep). unfold tcp_end, tcp_fields, tp_fields.
    rewrite !(agree_f16 xs ys Hl e (e + 16)) by (done || lia). rewrite Hl.
    case_decide; [|done]. unfold tp_parsed, drop_buf. simpl. by rewrite Hd. }
  repeat (case_match; [by apply Hf|]). case_match; [|done]. rewrite Htp. unfold icmp_fields.
  by rewrite !(agree_f8 xs ys Hl e (e + 4)) by (done || lia).
Qed.

(** The end of the transport header, and the flow with its fields. *)
Definition l4_end (xs : list Z) (proto : Z) (e : nat) : option nat :=
  if proto =? IPPROTO_TCP then tcp_end xs e
  else if proto =? IPPROTO_UDP then fixed_end xs 8 e
  else if proto =? IPPROTO_SCTP then fixed_end xs 12 e
  else if proto =? IPPROTO_ICMP then fixed_end xs 8 e
  else None.

Definition l4_flow (xs : list Z) (e : nat) (fl : flow) : flow :=
  match l4_end xs (nw_proto fl) e with
  | None => fl
  | Some _ => if nw_proto fl =? IPPROTO_TCP then tcp_fields xs e fl
              else if nw_proto fl =? IPPROTO_ICMP then icmp_fields xs e fl else tp_fields xs e fl
  end.

Lemma ip_l4_eq b xs p e fl : ip_l4 b xs p e fl =
  (match l4_end xs (nw_proto fl) e with
   | Some e' => set_l7 (Some (b_data b + Z.of_nat e')) p
   | None => p
   end, l4_flow xs e fl).
Proof.
  unfold ip_l4, l4_flow, l4_end, drop_buf, tp_parsed. generalize (nw_proto fl). intros proto.
  destruct (Z.eqb_spec proto IPPROTO_TCP); [by case_match|].
  destruct (Z.eqb_spec proto IPPROTO_UDP) as [->|]; [by case_match|].
  destruct (Z.eqb_spec proto IPPROTO_SCTP) as [->|]; [by case_match|].
  destruct (Z.eqb_spec proto IPPROTO_ICMP) as [->|]; [by case_match|done].
Qed.

(** The fields that [packet_set_ipv4] rewrites. *)
Definition set_ipv4_fields (src dst tos ttl : Z) (fl : flow) : flow :=
  set_nw_ttl ttl (set_nw_tos tos (set_nw_dst dst (set_nw_src src fl))).

Lemma l4_flow_set xs e src dst tos ttl fl :
  l4_flow xs e (set_ipv4_fields src dst tos ttl fl) = set_ipv4_fields src dst tos ttl (l4_flow xs e fl).
Proof.
  unfold l4_flow. change (nw_proto (set_ipv4_fields src dst tos ttl fl)) with (nw_proto fl).
  by repeat case_match.
Qed.

(** The changes of [packet_set_ipv4], away from which the packets agree. *)
Lemma ip_fields_rewritten xs ys k src dst tos ttl fl :
  length ys = length xs -> agree (k + 2) (k + 8) xs ys -> agree (k + 9) (k + 10) xs ys ->
  region (k + 12) 4 ys = le32_bytes src -> region (k + 16) 4 ys = le32_bytes dst ->
  region (k + 1) 1 ys = [tos] -> region (k + 8) 1 ys = [ttl] -> in_u32 src -> in_u32 dst ->
  ip_fields ys k fl = set_ipv4_fields src dst tos ttl (ip_fields xs k fl) /\
  later_fragment ys k = later_fragment xs k.
Proof.
  intros Hl A1 A2 R1 R2 R3 R4 Hs Hd. unfold ip_fields, ip_frag, later_fragment.
  rewrite (agree_f16 xs ys Hl (k + 2) (k + 8) (k + 6)) by (done || lia).
  rewrite (agree_f8 xs ys Hl (k + 9) (k + 10) (k + 9)) by (done || lia).
  unfold f32, f8. rewrite R1, R2, R3, R4, !le_word_le32, !le_word_1 by done.
  split; [|done]. by repeat case_match.
Qed.

(** What extraction returns for an IPv4 packet: the header starts at [k] and
    ends at [e]. *)
Definition ip_result (b : ofpbuf) (xs : list Z) (k e : nat) (fl : flow) : ofpbuf * flow :=
  let p := with_layers b (Some (b_data b)) None (Some (b_data b + Z.of_nat k))
             (Some (b_data b + Z.of_nat e)) None in
  if later_fragment xs k then (p, ip_fields xs k fl) else ip_l4 b xs p e (ip_fields xs k fl).

Definition link_flow (xs : list Z) (prio mark : Z) (tnl : option flow_tnl) (port : option Z) : nat * flow :=
  vlan_at xs (eth_fields xs (init_flow prio mark tnl port)).

Lemma extract_rest_ip b xs k fl : holds b xs -> bytes_ok xs -> (k <= length xs)%nat ->
  dl_type fl = htons ETH_TYPE_IP ->
  extract_rest b (cut b k) fl =
  Ok (match ip_end xs k with
      | Some e => ip_result b xs k e fl
      | None => (with_layers b (Some (b_data b)) None (Some (b_data b + Z.of_nat k)) None None, fl)
      end).
Proof.
  intros Hh Hb Hk Et. unfold extract_rest. rewrite Et.
  change (eth_type_mpls (htons ETH_TYPE_IP)) with false. cbn [rbind]. rewrite Et, Z.eqb_refl.
  rewrite (extract_ip_eq b xs Hh Hb) by done. by destruct (ip_end xs k).
Qed.

(** An IPv4 packet with a complete header, taken apart. *)
Lemma flow_extract_ip b xs prio mark tnl port b1 fl : holds b xs -> bytes_ok xs ->
  flow_extract b prio mark tnl port = Ok (b1, fl) -> dl_type fl = htons ETH_TYPE_IP -> l4 b1 <> None ->
  exists k fl0 k' e, (14 <= length xs)%nat /\ link_flow xs prio mark tnl port = (k, fl0) /\
    ethertype_at xs k = (htons ETH_TYPE_IP, k') /\ ip_end xs k' = Some e /\ (14 <= k' <= length xs)%nat /\
    ip_result b xs k' e (set_dl_type (htons ETH_TYPE_IP) fl0) = (b1, fl).
Proof.
  intros Hh Hb E Et H4. destruct (decide (14 <= length xs)%nat) as [Hl|Hl].
  2: { pose proof (size_xs b xs Hh). unfold flow_extract in E. revert E.
       destruct (Z.ltb_spec (b_size b) ETH_HEADER_LEN) as [_|Hl']; [|unfold ETH_HEADER_LEN in Hl'; lia].
       intros [= <- <-]. done. }
  rewrite (flow_extract_eq b xs) in E by done. fold (link_flow xs prio mark tnl port) in E.
  destruct (link_flow xs prio mark tnl port) as [k fl0] eqn:Ev.
  assert (Hk : (12 <= k /\ k + 2 <= length xs)%nat).
  { unfold link_flow, vlan_at in Ev. revert Ev. destruct (_ && _) eqn:Ec; intros [= <- _]; [|lia].
    apply andb_true_iff in Ec as [_ Ec%bool_decide_eq_true]. lia. }
  destruct (ethertype_at xs k) as [t k'] eqn:Ee. pose proof (ethertype_at_bounds xs Hb k) as Hk'.
  rewrite Ee in Hk'. simpl in Hk'. destruct Hk' as [_ Hk']; [lia|].
  pose proof (extract_rest_dl_type _ _ _ _ _ E) as Ht. simpl in Ht. rewrite Et in Ht. subst t.
  rewrite (extract_rest_ip b xs) in E by (done || lia).
  destruct (ip_end xs k') as [e|] eqn:Eip; [|injection E as <- <-; done].
  exists k, fl0, k', e. injection E as E. by split_and!; try lia.
Qed.

Lemma flow_extract_ip_again b xs prio mark tnl port k fl0 k' e : holds b xs -> bytes_ok xs ->
  (14 <= length xs)%nat -> link_flow xs prio mark tnl port = (k, fl0) ->
  ethertype_at xs k = (htons ETH_TYPE_IP, k') -> ip_end xs k' = Some e -> (k' <= length xs)%nat ->
  flow_extract b prio mark tnl port = Ok (ip_result b xs k' e (set_dl_type (htons ETH_TYPE_IP) fl0)).
Proof.
  intros Hh Hb Hl Ev Ee Ei Hk. rewrite (flow_extract_eq b xs) by done.
  fold (link_flow xs prio mark tnl port). rewrite Ev, Ee, (extract_rest_ip b xs) by done. by rewrite Ei.
Qed.

Lemma agree_link_flow xs ys prio mark tnl port e : length ys = length xs -> agree 0 e xs ys ->
  (14 <= e)%nat -> (snd (ethertype_at xs (fst (link_flow xs prio mark tnl port))) <= e)%nat ->
  (14 <= length xs)%nat -> bytes_ok xs ->
  link_flow ys prio mark tnl port = link_flow xs prio mark tnl port.
Proof.
  intros Hl Ha He Hs Hn Hb. unfold link_flow in *.
  replace (eth_fields ys (init_flow prio mark tnl port)) with (eth_fields xs (init_flow prio mark tnl port)).
  - by apply (agree_vlan xs ys Hl _ e).
  - unfold eth_fields. by rewrite !(agree_region xs ys Hl 0 e) by (done || lia).
Qed.

(** The pointers of [ip_result] and the geometry of the packet. *)
Lemma ip_result_geom b xs k e fl b1 fl1 : holds b xs -> bytes_ok xs -> (k <= length xs)%nat ->
  ip_end xs k = Some e -> ip_result b xs k e fl = (b1, fl1) ->
  ipv4_geom b1 xs k e (e - k) (length xs - e) (f8 (k + 9) xs) /\
  exists v, region k 1 xs = [v] /\ v <> 0.
Proof.
  intros Hh Hb Hk Ei Er. unfold ip_result in Er. set (p := with_layers b _ _ _ _ _) in Er.
  destruct (later_fragment xs k).
  - injection Er as <- <-. by apply (extract_ip_geom b).
  - pose proof (ip_l4_l34 b xs p e (ip_fields xs k fl)) as (L3 & L4 & Ld).
    pose proof (ip_l4_csum b xs p e (ip_fields xs k fl)) as Lc. rewrite Er, ip_fields_proto in *.
    apply (extract_ip_geom b); try done. intros co Eco. split; [done|by apply Lc].
Qed.

(** The bytes that rewriting leaves alone. *)
Lemma rewritten_agree xs ys k e proto l7 :
  (forall i, xs !! i <> ys !! i ->
     i = k + 1 \/ i = k + 8 \/ k + 10 <= i < k + 20 \/
     exists co, tp_csum_ofs proto l7 = Some co /\ e + co <= i < e + co + 2)%nat ->
  (k + 20 <= e)%nat ->
  agree 0 (k + 1) xs ys /\ agree (k + 2) (k + 8) xs ys /\ agree (k + 9) (k + 10) xs ys /\
  agree e (e + 4) xs ys /\ (proto = IPPROTO_TCP -> agree e (e + 16) xs ys).
Proof.
  intros Hr He.
  assert (Hag : forall o e', (forall i, (o <= i < e')%nat ->
    ~ (i = k + 1 \/ i = k + 8 \/ k + 10 <= i < k + 20 \/
       exists co, tp_csum_ofs proto l7 = Some co /\ e + co <= i < e + co + 2)%nat) -> agree o e' xs ys).
  { intros o e' Hn i Hi. destruct (decide (xs !! i = ys !! i)) as [|Hne]; [done|].
    destruct (Hn i Hi). by apply Hr. }
  assert (Hco : forall co, tp_csum_ofs proto l7 = Some co ->
    (6 <= co)%nat /\ (proto = IPPROTO_TCP -> co = 16%nat)).
  { intros co. unfold tp_csum_ofs. destruct l7; [|done].
    destruct (Z.eqb_spec proto IPPROTO_TCP); [intros [= <-]; split; [lia|done]|].
    destruct (Z.eqb_spec proto IPPROTO_UDP); [intros [= <-]; split; [lia|done]|done]. }
  split_and!; try intros Ep; apply Hag; intros i Hi [?|[?|[?|(co & Eco%Hco & ?)]]]; try lia;
    destruct Eco as [? Eco]; try specialize (Eco Ep); lia.
Qed.

(** Rewriting keeps the pointers that extraction sets. *)
Lemma ip_result_again b b1 b2 xs ys k e fl fl1 src dst tos ttl :
  length ys = length xs -> same_frame b1 b2 -> ip_result b xs k e fl = (b1, fl1) ->
  ip_fields ys k fl = set_ipv4_fields src dst tos ttl (ip_fields xs k fl) ->
  later_fragment ys k = later_fragment xs k ->
  agree e (e + 4) xs ys -> (f8 (k + 9) xs = IPPROTO_TCP -> agree e (e + 16) xs ys) ->
  ip_result b2 ys k e fl = (b2, set_ipv4_fields src dst tos ttl fl1).
Proof.
  intros Hl (F1 & F2 & F3 & F4 & F5 & F6 & F7 & F8 & F9 & F10) Er Ef El A1 A2.
  assert (Heta : b2 = with_layers b2 (l2 b1) (l2_5 b1) (l3 b1) (l4 b1) (l7 b1)).
  { rewrite <- F5, <- F6, <- F7, <- F8, <- F9. by destruct b2. }
  assert (Hd : b_data b2 = b_data b).
  { rewrite F3. revert Er. unfold ip_result. case_match; [by intros [= <- _]|]. intros Er.
    pose proof (ip_l4_l34 b xs) as L. by edestruct L as (_ & _ & L'); rewrite Er in L'. }
  revert Er. unfold ip_result. rewrite El, Ef, Hd.
  destruct (later_fragment xs k).
  { intros [= <- <-]. apply (f_equal (fun x => (x, _))). symmetry. exact Heta. }
  rewrite <- (ip_fields_proto xs k fl) in A2.
  rewrite (agree_ip_l4 b b2 xs ys) by done.
  rewrite !ip_l4_eq, l4_flow_set. change (nw_proto (set_ipv4_fields _ _ _ _ ?f)) with (nw_proto f).
  intros [= <- <-]. apply (f_equal (fun x => (x, _))). symmetry.
  rewrite Heta at 1. by destruct (l4_end _ _ _).
Qed.

(** C14. Rewriting the addresses, the type of service and the time to live of any
    IPv4 packet that [flow_extract] understood succeeds, and extracting the
    flow again gives the same flow with exactly these four fields replaced and
    the same header pointers. *)
Theorem extract_rewrite_extract b xs prio mark tnl port b1 fl src dst tos ttl :
  holds b xs -> bytes_ok xs -> Z.of_nat (length xs) + 12 <= CSUM_MAX ->
  flow_extract b prio mark tnl port = Ok (b1, fl) -> dl_type fl = htons ETH_TYPE_IP -> l4 b1 <> None ->
  in_u32 src -> in_u32 dst -> in_u8 tos -> in_u8 ttl ->
  exists b2, packet_set_ipv4 b1 src dst tos ttl = Ok b2 /\
    flow_extract b2 prio mark tnl port =
      Ok (b2, set_nw_ttl ttl (set_nw_tos tos (set_nw_dst dst (set_nw_src src fl)))).
Proof.
  intros Hh Hb Hc E Et H4 Hs Hd Hts Htl.
  destruct (flow_extract_ip b xs prio mark tnl port b1 fl Hh Hb E Et H4) as
    (k & fl0 & k' & e & Hl & Ev & Ee & Ei & Hk & Er).
  destruct (ip_result_geom b xs k' e _ b1 fl Hh Hb ltac:(lia) Ei Er) as [G Hv].
  assert (Hh1 : holds b1 xs).
  { revert Er. unfold ip_result. rewrite ip_l4_eq. repeat case_match; intros [= <- _];
      unfold set_l7; repeat apply holds_layers; done. }
  destruct (packet_set_ipv4_steps b1 xs k' e (e - k') (length xs - e) (f8 (k' + 9) xs) src dst tos ttl
              Hh1 Hb G Hs Hd Hts Htl) as (b2 & ys & E2 & H2 & F2 & [S1 S2 _ _ S5] & R1 & R2 & R3 & R4).
  pose proof (ip_end_bounds xs k' e Ei) as He.
  destruct (rewritten_agree xs ys k' e _ _ S5 ltac:(lia)) as (A0 & A1 & A2 & A3 & A4).
  destruct (ip_fields_rewritten xs ys k' src dst tos ttl (set_dl_type (htons ETH_TYPE_IP) fl0)
              S1 A1 A2 R1 R2 R3 R4 Hs Hd) as [Ef El].
  assert (A0' : agree 0 k' xs ys) by (intros i Hi; apply A0; lia).
  assert (Ev' : link_flow ys prio mark tnl port = (k, fl0)).
  { rewrite (agree_link_flow xs ys prio mark tnl port k') by
      (first [done | lia | rewrite Ev; simpl; rewrite Ee; simpl; lia]). done. }
  pose proof (agree_ethertype xs ys S1 k k' _ Ee eq_refl A0') as Ee'.
  assert (Ei' : ip_end ys k' = Some e).
  { rewrite <- Ei. unfold ip_end. by rewrite (agree_f8 xs ys S1 0 (k' + 1)), S1 by (done || lia). }
  exists b2. split; [done|].
  rewrite (flow_extract_ip_again b2 ys prio mark tnl port k fl0 k' e) by (done || lia).
  apply (f_equal Ok). by apply (ip_result_again b b1 b2 xs ys k' e _ fl).
Qed.

Lemma extract_rewrite_extract_witness :
  exists b1 fl b2, flow_extract tcp_packet 0 0 None (Some 1) = Ok (b1, fl) /\
    tp_src fl = htons 12345 /\ nw_src fl = le_word [10; 0; 0; 1] /\
    packet_set_ipv4 b1 (le_word [192; 168; 7; 9]) (le_word [10; 0; 0; 2]) 184 63 = Ok b2 /\
    flow_extract b2 0 0 None (Some 1) =
      Ok (b2, set_nw_ttl 63 (set_nw_tos 184 (set_nw_dst (le_word [10; 0; 0; 2])
                (set_nw_src (le_word [192; 168; 7; 9]) fl)))).
Proof.
  assert (Hx : exists b1 fl, flow_extract tcp_packet 0 0 None (Some 1) = Ok (b1, fl) /\
    dl_type fl = htons ETH_TYPE_IP /\ l4 b1 <> None /\ tp_src fl = htons 12345 /\
    nw_src fl = le_word [10; 0; 0; 1]).
  { eexists _, _. split; [vm_compute; reflexivity|]. split; [reflexivity|]. split; [discriminate|].
    split; reflexivity. }
  destruct Hx as (b1 & fl & E & Et & H4 & Ep & Es).
  destruct (extract_rewrite_extract tcp_packet tcp_packet_bytes 0 0 None (Some 1)
    b1 fl (le_word [192; 168; 7; 9]) (le_word [10; 0; 0; 2]) 184 63 tcp_packet_holds) as (b2 & E1 & E2).
  - apply bytes_ok_dec. reflexivity.
  - vm_compute. discriminate.
  - exact E.
  - exact Et.
  - exact H4.
  - split; vm_compute; congruence.
  - split; vm_compute; congruence.
  - split; vm_compute; congruence.
  - split; vm_compute; congruence.
  - exists b1, fl, b2. split; [exact E|]. split; [exact Ep|]. split; [exact Es|]. split; [exact E1|exact E2].
Defined.
