(* ===== verification/FlowCompose.v ===== *)
(** * [flow_compose] and [flow_extract]

    The packet that [flow_compose] makes of a flow, byte by byte, and the round
    trip through [flow_extract].  The buffer must have room for the packet:
    otherwise the pointers that [flow_compose] keeps while it adds data are
    left behind by a reallocation, as [compose_use_after_free] shows. *)

From Stdlib Require Import ZArith Lia List.
From stdpp Require Import base option list_relations list.
From S2P Require Import Prelude Bytes Hash Csum Ofpbuf Packets PacketsFacts PacketsProps Flow.
From S2P Require Import FlowFacts FlowProps.
#[local] Open Scope Z_scope.
#[local] Open Scope res_scope.

(** ** Byte order, bit by bit *)

Definition swap_ix (i : Z) : Z := 8 * (3 - i / 8) + i mod 8.

Lemma byteswap_bit x i : 0 <= i < 32 -> Z.testbit (uint32_byteswap x) i = Z.testbit x (swap_ix i).
Proof.
  intros Hi. unfold uint32_byteswap.
  rewrite !Z.lor_spec, !Z.shiftl_spec, !Z.shiftr_spec, !Z.land_spec by lia.
  assert (Hc : exists n : nat, (n < 32)%nat /\ i = Z.of_nat n) by (exists (Z.to_nat i); lia).
  destruct Hc as (n & Hn & ->).
  do 32 (destruct n as [|n]; [cbn; rewrite ?andb_true_r, ?andb_false_r, ?orb_false_r; reflexivity|]). lia.
Qed.

Lemma byteswap_u32 x : in_u32 (uint32_byteswap x).
Proof.
  unfold uint32_byteswap, in_u32.
  assert (Hm : forall m k, 0 <= m < 2 ^ k -> 0 <= k -> 0 <= Z.land x m < 2 ^ k) by (intros; by apply land_range_r).
  assert (Hl : forall m k s, 0 <= m < 2 ^ k -> 0 <= k -> 0 <= s -> k + s <= 32 ->
            0 <= Z.shiftl (Z.land x m) s < 2 ^ 32).
  { intros m k sh Hmk Hk Hs Hks. specialize (Hm m k Hmk Hk). rewrite Z.shiftl_mul_pow2 by done.
    pose proof (Z.pow_pos_nonneg 2 sh ltac:(lia) Hs). pose proof (Z.pow_le_mono_r 2 (k + sh) 32 ltac:(lia) Hks).
    rewrite Z.pow_add_r in * by lia. nia. }
  assert (Hr : forall m s, 0 <= m < 2 ^ 32 -> 0 <= s -> 0 <= Z.shiftr (Z.land x m) s < 2 ^ 32).
  { intros m sh Hmk Hs. specialize (Hm m 32 Hmk ltac:(lia)). rewrite Z.shiftr_div_pow2 by done.
    pose proof (Z.pow_pos_nonneg 2 sh ltac:(lia) Hs). split; [apply Z.div_pos; lia|].
    apply Z.le_lt_trans with (Z.land x m); [|lia]. apply Z.div_le_upper_bound; nia. }
  repeat (apply lor_range; [lia|..]); first [apply (Hl _ 8); lia | apply (Hl _ 16); lia | apply Hr; lia].
Qed.

Lemma u32_bits_ext x y : in_u32 x -> in_u32 y ->
  (forall i, 0 <= i < 32 -> Z.testbit x i = Z.testbit y i) -> x = y.
Proof.
  intros Hx Hy H. apply Z.bits_inj. intros i. destruct (Z.lt_ge_cases i 0) as [?|Hi];
    [by rewrite !Z.testbit_neg_r|]. destruct (Z.lt_ge_cases i 32); [by apply H|].
  apply bits_range_iff in Hx as [_ Hx], Hy as [_ Hy]; try lia. by rewrite Hx, Hy.
Qed.

Lemma swap_ix_range i : 0 <= i < 32 -> 0 <= swap_ix i < 32 /\ swap_ix (swap_ix i) = i.
Proof. unfold swap_ix. intros Hi. zdm. Qed.

Lemma byteswap_invol x : in_u32 x -> uint32_byteswap (uint32_byteswap x) = x.
Proof.
  intros Hx. apply u32_bits_ext; [apply byteswap_u32|done|]. intros i Hi.
  destruct (swap_ix_range i Hi) as [H1 H2]. by rewrite !byteswap_bit, H2 by done.
Qed.

Lemma byteswap_lor x y : uint32_byteswap (Z.lor x y) = Z.lor (uint32_byteswap x) (uint32_byteswap y).
Proof.
  apply u32_bits_ext; [apply byteswap_u32|apply lor_range; [lia|apply byteswap_u32..]|].
  intros i Hi. by rewrite Z.lor_spec, !byteswap_bit, Z.lor_spec by done.
Qed.

Lemma byteswap_land x y : uint32_byteswap (Z.land x y) = Z.land (uint32_byteswap x) (uint32_byteswap y).
Proof.
  apply u32_bits_ext; [apply byteswap_u32|apply land_u32, byteswap_u32|].
  intros i Hi. by rewrite Z.land_spec, !byteswap_bit, Z.land_spec by done.
Qed.

(** ** Writing at the end of a packet *)

(** Everything but the size and the bytes. *)
Definition same_place (b b' : ofpbuf) : Prop :=
  b_base b' = b_base b /\ b_source b' = b_source b /\ b_data b' = b_data b /\
  b_allocated b' = b_allocated b /\ l2 b' = l2 b /\ l2_5 b' = l2_5 b /\ l3 b' = l3 b /\
  l4 b' = l4 b /\ l7 b' = l7 b.

Lemma same_place_refl b : same_place b b.
Proof. unfold same_place. auto 12. Qed.
Lemma same_place_trans a b c : same_place a b -> same_place b c -> same_place a c.
Proof. unfold same_place. intuition congruence. Qed.
Lemma same_frame_place b b' : same_frame b b' -> same_place b b'.
Proof. unfold same_frame, same_place. tauto. Qed.

Lemma st_frame b p bs b' : st b p bs = Ok b' -> same_frame b b'.
Proof.
  unfold st, blit. intros E. split_ok E. injection E as <-.
  match goal with H : (if _ then _ else _) = Ok _ |- _ => revert H end.
  destruct (Z.leb_spec 0 p); cbn [andb]; [|done].
  destruct (Z.leb_spec (p + Z.of_nat (length (Some <$> bs))) (Z.of_nat (length (b_store b)))); [|done].
  intros [= <-]. unfold same_frame, b_allocated. simpl. rewrite length_blit by done. auto 12.
Qed.

(** The packet is [h] and then [z], in the place of [b0]. *)
Definition wr (b0 b : ofpbuf) (h z : list Z) : Prop := holds b (h ++ z) /\ same_place b0 b.

Lemma patch_app_r {A} (h z : list A) i bs : patch (length h + i) bs (h ++ z) = h ++ patch i bs z.
Proof.
  unfold patch. rewrite take_app_add, <- Nat.add_assoc, drop_app_add. by rewrite <- app_assoc.
Qed.

Lemma patch_app_0 {A} (h z : list A) bs : patch (length h) bs (h ++ z) = h ++ patch 0 bs z.
Proof. rewrite <- (patch_app_r h z 0). by rewrite Nat.add_0_r. Qed.

Lemma wr_st b0 b h z i p bs : wr b0 b h z -> p = b_data b0 + Z.of_nat (length h) + Z.of_nat i ->
  (i + length bs <= length z)%nat -> exists b', st b p bs = Ok b' /\ wr b0 b' h (patch i bs z).
Proof.
  intros [Hh Hs] Hp Hi. pose proof Hs as (_ & _ & Hd & _).
  destruct (st_at b (h ++ z) Hh (length h + i) p bs) as (b' & E & H' & F); [lia|rewrite length_app; lia|].
  exists b'. split; [done|]. split; [by rewrite <- patch_app_r|].
  eapply same_place_trans; [exact Hs|by apply same_frame_place].
Qed.

Lemma wr_st8 b0 b h z i p v : wr b0 b h z -> p = b_data b0 + Z.of_nat (length h) + Z.of_nat i ->
  (i + 1 <= length z)%nat -> in_u8 v -> exists b', st8 b p v = Ok b' /\ wr b0 b' h (patch i [v] z).
Proof.
  intros Hw Hp Hi Hv. unfold st8. unfold u8. rewrite Z.mod_small by done. by apply wr_st.
Qed.

Lemma wr_st16 b0 b h z i p v : wr b0 b h z -> p = b_data b0 + Z.of_nat (length h) + Z.of_nat i ->
  (i + 2 <= length z)%nat -> in_u16 v ->
  exists b', st16 b p v = Ok b' /\ wr b0 b' h (patch i (le16_bytes v) z).
Proof. intros Hw Hp Hi Hv. unfold st16. rewrite u16_id by done. by apply wr_st. Qed.

Lemma wr_be32 b0 b h z i p v : wr b0 b h z -> p = b_data b0 + Z.of_nat (length h) + Z.of_nat i ->
  (i + 4 <= length z)%nat -> in_u32 v ->
  exists b', put_16aligned_be32 b p v = Ok b' /\ wr b0 b' h (patch i (le32_bytes v) z).
Proof.
  intros [Hh Hs] Hp Hi Hv. pose proof Hs as (_ & _ & Hd & _).
  destruct (put_be32_at b (h ++ z) (length h + i) p v Hh) as (b' & E & H' & F);
    [lia|rewrite length_app; lia|done|].
  exists b'. split; [done|]. split; [by rewrite <- patch_app_r|].
  eapply same_place_trans; [exact Hs|by apply same_frame_place].
Qed.

Lemma region_app_r (h z : list Z) k i n : k = (length h + i)%nat -> region k n (h ++ z) = region i n z.
Proof. intros ->. unfold region. by rewrite drop_app_add. Qed.

Lemma wr_ld b0 b h z i n p m : wr b0 b h z -> p = b_data b0 + Z.of_nat (length h) + Z.of_nat i ->
  m = Z.of_nat n -> (i + n <= length z)%nat -> ld b p m = Ok (region i n z).
Proof.
  intros [Hh (_ & _ & Hd & _)] Hp Hm Hi.
  rewrite (ld_at b (h ++ z) Hh (length h + i) n) by (rewrite ?length_app; lia).
  by rewrite (region_app_r h z _ i).
Qed.

Lemma holds_room b xs : holds b xs -> ofpbuf_tailroom b = b_allocated b - b_data b - Z.of_nat (length xs).
Proof. intros H. apply holds_length in H. unfold ofpbuf_tailroom, ofpbuf_end, ofpbuf_tail. lia. Qed.

(** Zeros in the room behind the packet: nothing moves. *)
Lemma wr_put_zeros b0 b h z n m : wr b0 b h z -> m = Z.of_nat n ->
  b_data b0 + Z.of_nat (length h + length z + n) <= b_allocated b0 ->
  exists b', ofpbuf_put_zeros b m = Ok ((b_base b0, b_data b0 + Z.of_nat (length (h ++ z))), b') /\
    wr b0 b' (h ++ z) (replicate n 0).
Proof.
  intros [Hh Hs] -> Hroom. pose proof (holds_room b _ Hh) as Hr. rewrite length_app in Hr.
  pose proof Hs as (S1 & S2 & S3 & S4 & S5 & S6 & S7 & S8 & S9).
  destruct Hh as [Hw Hc]. pose proof Hw as [W1 W2 W3 W4].
  assert (Hsz : b_size b = Z.of_nat (length h + length z)).
  { pose proof (holds_length b (h ++ z) (conj Hw Hc)). rewrite length_app in *. lia. }
  unfold ofpbuf_put_zeros, ofpbuf_put_uninit, ofpbuf_prealloc_tailroom.
  destruct (Z.ltb_spec (ofpbuf_tailroom b) (Z.of_nat n)); [lia|]. cbn [rbind snd].
  rewrite u32_id by (unfold in_u32; lia). unfold ofpbuf_tail.
  set (b1 := with_extent b (b_data b) (b_size b + Z.of_nat n)).
  destruct (extent_tail b (Z.of_nat n) Hw) as (Hw1 & c & Hc1 & Hlc); [lia|]. fold b1 in Hw1, Hc1.
  rewrite Nat2Z.id, Hsz.
  destruct (st_contents b1 (length h + length z) (replicate n 0) Hw1) as (b2 & E & Hw2 & F & Hc2).
  { unfold b1. simpl. rewrite length_replicate. lia. }
  change (b_data b1) with (b_data b) in E. rewrite E. cbn [rbind]. exists b2.
  split; [rewrite S1, S3, length_app; done|]. split.
  - split; [done|]. rewrite Hc2, Hc1, Hc, <- (length_app h z).
    rewrite (fmap_app _ (h ++ z)), <- (length_fmap Some (h ++ z)) at 1. apply patch_tail. rewrite length_fmap, length_replicate. lia.
  - eapply same_place_trans; [exact Hs|]. apply same_frame_place in F.
    eapply same_place_trans; [|exact F]. unfold same_place, b1. simpl. auto 12.
Qed.

(** Steps over a store at offset [i] of the part that is being written. *)
Ltac after_store b' E Hw Hw' := rewrite E; clear E Hw; cbn [rbind].
Ltac wst8 i :=
  match goal with Hw : wr ?b0 ?b ?h ?z |- context [st8 ?b ?p ?v] =>
    let b' := fresh "b" in let E := fresh "E" in let Hw' := fresh "Hw" in
    destruct (wr_st8 b0 b h z i p v Hw) as (b' & E & Hw');
    [try (cbv; lia); lia|simpl; lia|auto with sdpa|after_store b' E Hw Hw'] end.
Ltac wst16 i :=
  match goal with Hw : wr ?b0 ?b ?h ?z |- context [st16 ?b ?p ?v] =>
    let b' := fresh "b" in let E := fresh "E" in let Hw' := fresh "Hw" in
    destruct (wr_st16 b0 b h z i p v Hw) as (b' & E & Hw');
    [lia|simpl; lia|auto with sdpa|after_store b' E Hw Hw'] end.
Ltac wbe32 i :=
  match goal with Hw : wr ?b0 ?b ?h ?z |- context [put_16aligned_be32 ?b ?p ?v] =>
    let b' := fresh "b" in let E := fresh "E" in let Hw' := fresh "Hw" in
    destruct (wr_be32 b0 b h z i p v Hw) as (b' & E & Hw');
    [lia|simpl; lia|auto with sdpa|after_store b' E Hw Hw'] end.
Ltac wput n :=
  match goal with Hw : wr ?b0 ?b ?h ?z |- context [ofpbuf_put_zeros ?b ?m] =>
    let b' := fresh "b" in let E := fresh "E" in let Hw' := fresh "Hw" in
    destruct (wr_put_zeros b0 b h z n m Hw eq_refl) as (b' & E & Hw'); [cbn [length]; lia|after_store b' E Hw Hw'; cbn [snd]] end.

(** ** The link layer *)

Lemma patch_fill {A} (x y z c : list A) : length c = (length x + length y + length z)%nat ->
  patch (length x + length y) z (patch (length x) y (patch 0 x c)) = x ++ y ++ z.
Proof.
  intros Hl. change (patch 0 x c) with (x ++ drop (length x) c). rewrite (patch_app_0 x).
  change (patch 0 y ?c) with (y ++ drop (length y) c). rewrite drop_drop.
  rewrite (patch_app_r x), (patch_app_0 y). unfold patch. cbn [take app Nat.add].
  rewrite take_0, drop_drop, drop_ge by lia. simpl. by rewrite app_nil_r.
Qed.

(** The memory of a buffer that has room for the packets that [flow_compose]
    makes. *)
Definition roomy (b : ofpbuf) : Prop :=
  ofpbuf_wf b /\ 128 <= b_allocated b /\ b_allocated b + 64 < 2 ^ 32.

Definition eth_bytes (dst src : list Z) (t : Z) : list Z := dst ++ src ++ le16_bytes (htons t).

Lemma prealloc_room b n : b_data b + b_size b + n <= b_allocated b -> ofpbuf_prealloc_tailroom b n = Ok b.
Proof.
  intros Hn. unfold ofpbuf_prealloc_tailroom, ofpbuf_tailroom, ofpbuf_end, ofpbuf_tail.
  case_bool; [lia|done].
Qed.

Lemma put_uninit_room b n : 0 <= b_data b -> 0 <= b_size b -> 0 <= n ->
  b_data b + b_size b + n <= b_allocated b < 2 ^ 32 ->
  ofpbuf_put_uninit b n =
  Ok ((b_base b, b_data b + b_size b), with_extent b (b_data b) (b_size b + n)).
Proof.
  intros H1 H2 H3 H4. unfold ofpbuf_put_uninit. rewrite prealloc_room by lia. cbn [rbind].
  by rewrite u32_id by (unfold in_u32; lia).
Qed.

Lemma eth_compose_room b dst src t : roomy b -> length dst = 6%nat -> length src = 6%nat ->
  exists p b', eth_compose b dst src t 0 = Ok (p, b') /\ holds b' (eth_bytes dst src t) /\
    b_base b' = b_base b /\ b_source b' = b_source b /\ b_allocated b' = b_allocated b /\
    b_data b' = 6 /\ l2 b' = Some 6 /\ l3 b' = Some 20 /\ l2_5 b' = l2_5 b.
Proof.
  intros ([W1 W2 W3 W4] & Hr & _) Hd Hs. unfold eth_compose.
  destruct b as [base store source data size p2 p25 p3 p4 p7]. unfold b_allocated in *.
  simpl in W1, W2, W3, W4, Hr.
  change (u32 (2 + ETH_HEADER_LEN + VLAN_HEADER_LEN + 0)) with 20.
  change (ofpbuf_clear _) with (Mk_ofpbuf base store source 0 0 p2 p25 p3 p4 p7).
  rewrite prealloc_room by (unfold b_allocated; simpl; lia). cbn [rbind].
  unfold ofpbuf_reserve. cbn [b_size Z.eqb ovs_assert rbind].
  rewrite prealloc_room by (unfold b_allocated, VLAN_HEADER_LEN; simpl; lia). cbn [rbind].
  change (with_extent _ _ _) with (Mk_ofpbuf base store source 6 0 p2 p25 p3 p4 p7).
  rewrite put_uninit_room by (unfold b_allocated, ETH_HEADER_LEN; simpl; lia). cbn [rbind].
  change (with_extent _ _ _) with (Mk_ofpbuf base store source 6 14 p2 p25 p3 p4 p7).
  rewrite put_uninit_room by (unfold b_allocated; simpl; lia). cbn [rbind].
  change (with_extent _ _ _) with (Mk_ofpbuf base store source 6 14 p2 p25 p3 p4 p7).
  set (c3 := Mk_ofpbuf base store source 6 14 p2 p25 p3 p4 p7).
  assert (Hw3 : ofpbuf_wf c3) by (split; simpl; unfold b_allocated; simpl; lia).
  unfold deref. cbn [fst snd b_base]. rewrite Nat.eqb_refl. cbn [rbind].
  pose proof (length_contents c3 Hw3) as Hl3. change (Z.to_nat (b_size c3)) with 14%nat in Hl3.
  destruct (st_contents c3 0 dst Hw3) as (c4 & E4 & Hw4 & F4 & C4); [simpl; lia|].
  match goal with |- context [st c3 ?p dst] => change p with (b_data c3 + Z.of_nat 0) end.
  rewrite E4. cbn [rbind]. pose proof F4 as (_ & _ & D4 & Z4 & _).
  destruct (st_contents c4 6 src Hw4) as (c5 & E5 & Hw5 & F5 & C5); [rewrite Z4; simpl; lia|].
  rewrite D4 in E5. match goal with |- context [st c4 ?p src] => change p with (b_data c3 + Z.of_nat 6) end.
  rewrite E5. cbn [rbind]. pose proof F5 as (_ & _ & D5 & Z5 & _). unfold st16. rewrite u16_id by apply htons_u16.
  destruct (st_contents c5 12 (le16_bytes (htons t)) Hw5) as (c6 & E6 & Hw6 & F6 & C6);
    [rewrite Z5, Z4; simpl; lia|].
  rewrite D5, D4 in E6. match goal with |- context [st c5 ?p _] => change p with (b_data c3 + Z.of_nat 12) end.
  rewrite E6. cbn [rbind]. eexists _, _. split; [reflexivity|].
  pose proof (same_frame_trans _ _ _ F4 (same_frame_trans _ _ _ F5 F6)) as
    (G1 & G2 & G3 & G4 & G5 & G6 & G7 & G8 & G9 & G10).
  split.
  - apply holds_layers. split; [done|]. rewrite C6, C5, C4. unfold eth_bytes. rewrite !fmap_app.
    rewrite <- (patch_fill _ _ _ (contents c3)) by (rewrite Hl3, !length_fmap, Hd, Hs; done).
    by rewrite !length_fmap, Hd, Hs.
  - simpl. rewrite G1, G2, G3, G6. by split_and!.
Qed.

Lemma eth_push_vlan_room b xs tci : holds b xs -> bytes_ok xs -> (14 <= length xs)%nat ->
  4 <= b_data b -> b_allocated b + 64 < 2 ^ 32 ->
  exists b', eth_push_vlan b tci = Ok b' /\ holds b' (push_tag tci xs) /\
    b_base b' = b_base b /\ b_source b' = b_source b /\ b_allocated b' = b_allocated b /\
    b_data b' = b_data b - 4 /\ l2 b' = Some (b_data b') /\ l3 b' = l3 b /\ l2_5 b' = l2_5 b.
Proof.
  intros Hh Hb Hl Hd Ha.
  destruct (eth_push_vlan_spec b xs tci Hh Hb Hl) as (b' & E & Hh' & _).
  { pose proof (holds_room b xs Hh). pose proof (holds_length b xs Hh). unfold can_grow, VLAN_HEADER_LEN.
    split; [lia|]. split; [right; exact Hd|lia]. }
  exists b'. split; [done|]. split; [done|]. unfold eth_push_vlan, ofpbuf_push_uninit in E.
  assert (Ep : ofpbuf_prealloc_headroom b VLAN_HEADER_LEN = Ok b).
  { unfold ofpbuf_prealloc_headroom, ofpbuf_headroom, VLAN_HEADER_LEN. case_bool; [lia|done]. }
  rewrite Ep in E. cbn [rbind] in E. apply rbind_Ok in E as (? & _ & E). apply rbind_Ok in E as (? & _ & E).
  apply rbind_Ok in E as (? & _ & E). cbn [rbind] in E. apply rbind_Ok in E as (b2 & E2 & E).
  apply st_frame in E2 as (F1 & F2 & F3 & F4 & F5 & F6 & F7 & F8 & F9 & F10). injection E as <-.
  split_and!; try done; simpl; rewrite ?F3; done.
Qed.

(** The Ethernet header, with the tag if there is one. *)
Definition link_bytes (f : flow) : list Z :=
  let e := eth_bytes (dl_dst f) (dl_src f) (ntohs (dl_type f)) in
  if negb (Z.land (vlan_tci f) (htons VLAN_CFI) =? 0) then push_tag (vlan_tci f) e else e.

Lemma length_link_bytes f : flow_typed f ->
  length (link_bytes f) = if negb (Z.land (vlan_tci f) (htons VLAN_CFI) =? 0) then 18%nat else 14%nat.
Proof.
  intros []. destruct ft_dl_src as [_ Hs], ft_dl_dst as [_ Hd]. unfold link_bytes, push_tag, eth_bytes.
  case_match; rewrite ?length_app, ?length_take, ?length_drop, ?length_app, ?Hs, ?Hd; done.
Qed.

(** The start of [flow_compose]. *)
Lemma compose_link b f : roomy b -> flow_typed f ->
  exists b', (let* (_, b) := eth_compose b (dl_dst f) (dl_src f) (ntohs (dl_type f)) 0 in
              if negb (Z.land (vlan_tci f) (htons VLAN_CFI) =? 0) then eth_push_vlan b (vlan_tci f) else Ok b)
             = Ok b' /\ wr b' b' (link_bytes f) [] /\ b_base b' = b_base b /\
    b_source b' = b_source b /\ b_allocated b' = b_allocated b /\
    l2 b' = Some (b_data b') /\ l3 b' = Some 20 /\ b_data b' + Z.of_nat (length (link_bytes f)) = 20.
Proof.
  intros Hr Ht. pose proof Ht as []. destruct ft_dl_src as [Bs Ls], ft_dl_dst as [Bd Ld].
  destruct (eth_compose_room b (dl_dst f) (dl_src f) (ntohs (dl_type f)) Hr Ld Ls)
    as (p & b1 & E1 & H1 & G1 & G2 & G3 & G4 & G5 & G6 & _). rewrite E1. cbn [rbind].
  assert (Hlen : length (eth_bytes (dl_dst f) (dl_src f) (ntohs (dl_type f))) = 14%nat).
  { unfold eth_bytes. by rewrite !length_app, Ls, Ld. }
  assert (Hw : forall c, holds c (link_bytes f) -> wr c c (link_bytes f) []).
  { intros c Hc. split; [by rewrite app_nil_r|apply same_place_refl]. }
  rewrite length_link_bytes by done. unfold link_bytes in *. destruct (negb _).
  - destruct (eth_push_vlan_room b1 _ (vlan_tci f) H1) as (b2 & E2 & H2 & P1 & P2 & P3 & P4 & P5 & P6 & _).
    + unfold eth_bytes, bytes_ok in *. rewrite !List.Forall_app. split_and!; try done.
      apply le16_bytes_ok, htons_u16.
    + lia.
    + lia.
    + rewrite G3. by apply Hr.
    + exists b2. split; [done|]. split; [by apply Hw|]. rewrite P1, P2, P3, P6. split_and!; try done. lia.
  - exists b1. split; [done|]. split; [by apply Hw|]. split_and!; try done; [by rewrite G4|lia].
Qed.

(** ** The transport layer *)

Definition nd_opt_bytes (type : Z) (lladdr : list Z) : list Z :=
  if negb (eth_addr_is_zero lladdr) then [type; 1] ++ lladdr else [].

Definition is_nd (f : flow) : bool :=
  (ntohs (tp_dst f) =? 0) && ((ntohs (tp_src f) =? ND_NEIGHBOR_SOLICIT) || (ntohs (tp_src f) =? ND_NEIGHBOR_ADVERT)).

Definition nd_bytes (f : flow) : list Z :=
  if is_nd f
  then nd_target f ++ nd_opt_bytes ND_OPT_SOURCE_LINKADDR (arp_sha f)
       ++ nd_opt_bytes ND_OPT_TARGET_LINKADDR (arp_tha f)
  else [].

(** The transport header; [c] is the checksum of an ICMP message. *)
Definition l4_bytes (f : flow) (c : Z) : list Z :=
  if (Z.land (nw_frag f) FLOW_NW_FRAG_ANY =? 0) || (Z.land (nw_frag f) FLOW_NW_FRAG_LATER =? 0) then
    if nw_proto f =? IPPROTO_TCP then
      le16_bytes (tp_src f) ++ le16_bytes (tp_dst f) ++ replicate 8 0
      ++ le16_bytes (TCP_CTL (ntohs (tcp_flags f)) 5) ++ replicate 6 0
    else if nw_proto f =? IPPROTO_UDP then le16_bytes (tp_src f) ++ le16_bytes (tp_dst f) ++ replicate 4 0
    else if nw_proto f =? IPPROTO_SCTP then le16_bytes (tp_src f) ++ le16_bytes (tp_dst f) ++ replicate 8 0
    else if nw_proto f =? IPPROTO_ICMP then
      [ntohs (tp_src f); ntohs (tp_dst f)] ++ le16_bytes c ++ replicate 4 0
    else if nw_proto f =? IPPROTO_ICMPV6 then
      [ntohs (tp_src f); ntohs (tp_dst f)] ++ le16_bytes c ++ replicate 4 0 ++ nd_bytes f
    else []
  else [].

Lemma wr_nd_opt b0 b h z type lladdr : wr b0 b h z ->
  b_data b0 + Z.of_nat (length h + length z + 8) <= b_allocated b0 -> in_u8 type -> length lladdr = 6%nat ->
  exists b', put_nd_opt b type lladdr = Ok b' /\ wr b0 b' h (z ++ nd_opt_bytes type lladdr).
Proof.
  intros Hw Hr Ht Hl. unfold put_nd_opt, nd_opt_bytes. destruct (negb _); [|exists b; by rewrite app_nil_r].
  destruct (wr_put_zeros b0 b h z 8 8 Hw eq_refl Hr) as (b1 & E1 & H1). rewrite E1. cbn [rbind snd].
  destruct (wr_st8 b0 b1 _ _ 1 (b_data b0 + Z.of_nat (length (h ++ z)) + 1) 1 H1) as (b2 & E2 & H2);
    [done|simpl; lia|unfold in_u8; lia|]. rewrite E2. cbn [rbind].
  destruct (wr_st8 b0 b2 _ _ 0 (b_data b0 + Z.of_nat (length (h ++ z))) type H2) as (b3 & E3 & H3);
    [lia|simpl; lia|done|]. rewrite E3. cbn [rbind].
  destruct (wr_st b0 b3 _ _ 2 (b_data b0 + Z.of_nat (length (h ++ z)) + 2) lladdr H3) as (b4 & E4 & H4);
    [done|simpl; lia|]. exists b4. split; [done|]. destruct H4 as [H4 S4]. split; [|done].
  rewrite <- app_assoc in H4. replace (z ++ [type; 1] ++ lladdr) with (z ++ patch 2 lladdr (patch 0 [type] (patch 1 [1] (replicate 8 0)))); [done|].
  do 6 (destruct lladdr as [|? lladdr]; [done|]). destruct lladdr; [|done]. reflexivity.
Qed.

(** The same place, except for the pointer behind the transport header. *)
Definition same_place7 (b b' : ofpbuf) : Prop := exists q, same_place (set_l7 q b) b'.

Lemma holds_set_l7 b q xs : holds b xs -> holds (set_l7 q b) xs.
Proof. apply holds_layers. Qed.

Lemma wr_done b0 b h z t t' : wr b0 b (h ++ z) t -> t = t' ->
  let b' := set_l7 (Some (ofpbuf_tail b)) b in
  holds b' (h ++ z ++ t') /\ same_place7 b0 b'.
Proof.
  intros [Hh (S1 & S2 & S3 & S4 & S5 & S6 & S7 & S8 & S9)] <- b'. split.
  - apply holds_set_l7. by rewrite app_assoc.
  - exists (l7 b'). unfold same_place, b', b_allocated in *. simpl. auto 12.
Qed.

Section L4.
Context (b0 : ofpbuf) (h z : list Z) (f : flow).
Context (Ht : flow_typed f).
Context (Hroom : b_data b0 + Z.of_nat (length h + length z + 40) <= b_allocated b0).

Lemma compose_tcp b : wr b0 b h z ->
  exists b', (let* (tcp, b) := ofpbuf_put_zeros b TCP_HEADER_LEN in
     let* b := st16 b (snd tcp) (tp_src f) in
     let* b := st16 b (snd tcp + tp_dst_ofs) (tp_dst f) in
     let* b := st16 b (snd tcp + tcp_ctl_ofs) (TCP_CTL (ntohs (tcp_flags f)) 5) in
     Ok (set_l7 (Some (ofpbuf_tail b)) b)) = Ok b' /\
    holds b' (h ++ z ++ le16_bytes (tp_src f) ++ le16_bytes (tp_dst f) ++ replicate 8 0
      ++ le16_bytes (TCP_CTL (ntohs (tcp_flags f)) 5) ++ replicate 6 0) /\ same_place7 b0 b'.
Proof.
  intros Hw. pose proof Ht as []. unfold tp_dst_ofs, tcp_ctl_ofs.
  wput 20%nat. wst16 0%nat. wst16 2%nat. wst16 12%nat. { apply htons_u16. }
  eexists. split; [reflexivity|]. by eapply wr_done.
Qed.

(** UDP and SCTP: a header of [n + 4] bytes that starts with the ports. *)
Lemma compose_ports b n m : wr b0 b h z -> m = Z.of_nat (4 + n) -> (n <= 8)%nat ->
  exists b', (let* (p, b) := ofpbuf_put_zeros b m in
     let* b := st16 b (snd p) (tp_src f) in
     let* b := st16 b (snd p + tp_dst_ofs) (tp_dst f) in
     Ok (set_l7 (Some (ofpbuf_tail b)) b)) = Ok b' /\
    holds b' (h ++ z ++ le16_bytes (tp_src f) ++ le16_bytes (tp_dst f) ++ replicate n 0) /\
    same_place7 b0 b'.
Proof.
  intros Hw -> Hn. pose proof Ht as []. unfold tp_dst_ofs.
  wput (4 + n)%nat. wst16 0%nat. wst16 2%nat.
  eexists. split; [reflexivity|]. by eapply wr_done.
Qed.

Context (Htype : in_u8 (ntohs (tp_src f))) (Hcode : in_u8 (ntohs (tp_dst f))).

Lemma csum_u16 l : in_u16 (csum l).
Proof. apply u16_range. Qed.

Lemma compose_icmp b : wr b0 b h z ->
  exists b' c, (let* (icmp, b) := ofpbuf_put_zeros b ICMP_HEADER_LEN in
     let* b := st8 b (snd icmp) (ntohs (tp_src f)) in
     let* b := st8 b (snd icmp + 1) (ntohs (tp_dst f)) in
     let* data := ld b (snd icmp) ICMP_HEADER_LEN in
     let* b := st16 b (snd icmp + 2) (csum data) in
     Ok (set_l7 (Some (ofpbuf_tail b)) b)) = Ok b' /\ in_u16 c /\
    holds b' (h ++ z ++ [ntohs (tp_src f); ntohs (tp_dst f)] ++ le16_bytes c ++ replicate 4 0) /\
    same_place7 b0 b'.
Proof.
  intros Hw. wput 8%nat. wst8 0%nat. wst8 1%nat.
  match goal with Hw : wr b0 ?b ?h' ?z' |- _ =>
    rewrite (wr_ld b0 b h' z' 0 8 _ _ Hw) by (unfold ICMP_HEADER_LEN; simpl; lia) end. cbn [rbind].
  wst16 2%nat. { apply csum_u16. }
  eexists _, _. split; [reflexivity|]. split; [apply csum_u16|]. by eapply wr_done.
Qed.

Lemma compose_nd b x y : wr b0 b x y ->
  b_data b0 + Z.of_nat (length x + length y + 32) <= b_allocated b0 ->
  exists b', (if is_nd f then
      let* (p, b) := ofpbuf_put_zeros b 16 in
      let* b := st b (snd p) (nd_target f) in
      let* b := put_nd_opt b ND_OPT_SOURCE_LINKADDR (arp_sha f) in
      put_nd_opt b ND_OPT_TARGET_LINKADDR (arp_tha f) else Ok b) = Ok b' /\
    wr b0 b' x (y ++ nd_bytes f).
Proof.
  intros Hw Hr. pose proof Ht as []. destruct ft_nd_target as [_ Ln], ft_arp_sha as [_ Ls], ft_arp_tha as [_ Lt].
  unfold nd_bytes. destruct (is_nd f); [|exists b; by rewrite app_nil_r].
  wput 16%nat.
  match goal with H : wr b0 ?b ?x' ?y' |- context [st ?b ?p ?v] =>
    destruct (wr_st b0 b x' y' 0 p v H) as (b2 & E2 & [H2 S2]); [lia|simpl; lia|]; rewrite E2; cbn [rbind] end.
  assert (Hw2 : wr b0 b2 x (y ++ nd_target f)).
  { split; [|done]. rewrite <- app_assoc in H2.
    replace (patch 0 (nd_target f) (replicate 16 0)) with (nd_target f) in H2; [done|].
    unfold patch. rewrite Ln. simpl. by rewrite app_nil_r. }
  destruct (wr_nd_opt b0 b2 x _ ND_OPT_SOURCE_LINKADDR (arp_sha f) Hw2) as (b3 & E3 & Hw3);
    [rewrite length_app; lia|unfold ND_OPT_SOURCE_LINKADDR, in_u8; lia|done|].
  rewrite E3. cbn [rbind].
  destruct (wr_nd_opt b0 b3 x _ ND_OPT_TARGET_LINKADDR (arp_tha f) Hw3) as (b4 & E4 & Hw4).
  - rewrite !length_app. unfold nd_opt_bytes. case_match; simpl; lia.
  - unfold ND_OPT_TARGET_LINKADDR, in_u8; lia.
  - done.
  - exists b4. split; [done|]. by rewrite <- !app_assoc in Hw4.
Qed.

Lemma compose_icmpv6_room b : wr b0 b h z ->
  exists b' c, compose_icmpv6 b f = Ok b' /\ in_u16 c /\
    holds b' (h ++ z ++ [ntohs (tp_src f); ntohs (tp_dst f)] ++ le16_bytes c ++ replicate 4 0 ++ nd_bytes f) /\
    same_place7 b0 b'.
Proof.
  intros Hw. unfold compose_icmpv6.
  assert (E8 : forall x, in_u8 x -> u8 x = x) by (intros x Hx; apply Z.mod_small; exact Hx).
  rewrite !E8 by done. wput 8%nat. wst8 0%nat. wst8 1%nat. fold (is_nd f).
  match goal with H : wr _ ?b _ _ |- _ =>
    destruct (compose_nd b _ _ H) as (b4 & E4 & H4); [rewrite length_app; simpl; lia|]; rewrite E4 end.
  cbn [rbind]. pose proof H4 as [Hh4 (S1 & S2 & S3 & _)]. pose proof (holds_length _ _ Hh4) as Hl4.
  unfold deref. cbn [fst snd]. rewrite S1, Nat.eqb_refl. cbn [rbind].
  set (m := patch 1 _ _ ++ nd_bytes f) in *.
  assert (Ep : forall p, p = b_data b0 + Z.of_nat (length (h ++ z)) ->
    ld b4 p (ofpbuf_tail b4 - p) = Ok (region 0 (length m) m)).
  { intros p ->. apply (wr_ld b0 b4 (h ++ z) m 0 (length m) _ _ H4); [lia| |lia].
    unfold ofpbuf_tail. rewrite S3, <- Hl4, !length_app. lia. }
  rewrite Ep by done. cbn [rbind].
  destruct (wr_st16 b0 b4 _ _ 2 (b_data b0 + Z.of_nat (length (h ++ z)) + 2) (csum (region 0 (length m) m)) H4)
    as (b5 & E5 & H5); [lia|unfold m; rewrite length_app; simpl; lia|apply csum_u16|].
  rewrite E5. cbn [rbind]. eexists _, _. split; [reflexivity|]. split; [apply (csum_u16 (region 0 (length m) m))|].
  by eapply wr_done.
Qed.

End L4.

(** Types and codes of ICMP messages are bytes. *)
Definition icmp_ok (f : flow) : Prop :=
  nw_proto f = IPPROTO_ICMP \/ nw_proto f = IPPROTO_ICMPV6 ->
  in_u8 (ntohs (tp_src f)) /\ in_u8 (ntohs (tp_dst f)).

Lemma flow_compose_l4_room b0 h z f b : flow_typed f -> icmp_ok f ->
  b_data b0 + Z.of_nat (length h + length z + 40) <= b_allocated b0 -> wr b0 b h z ->
  exists b' c, flow_compose_l4 b f = Ok b' /\ in_u16 c /\ holds b' (h ++ z ++ l4_bytes f c) /\ same_place7 b0 b'.
Proof.
  intros Ht Hi Hr Hw. assert (H0 : in_u16 0) by (unfold in_u16; lia).
  unfold flow_compose_l4, l4_bytes. destruct (_ || _).
  2: { destruct Hw as [Hh S]. exists b, 0. rewrite app_nil_r. split_and!; try done.
       exists (l7 b). unfold same_place in *. simpl. tauto. }
  destruct (Z.eqb_spec (nw_proto f) IPPROTO_TCP).
  { destruct (compose_tcp b0 h z f Ht Hr b Hw) as (b' & ? & ? & ?). exists b', 0. by split_and!. }
  destruct (Z.eqb_spec (nw_proto f) IPPROTO_UDP).
  { destruct (compose_ports b0 h z f Ht Hr b 4 8 Hw) as (b' & ? & ? & ?); try lia. exists b', 0. by split_and!. }
  destruct (Z.eqb_spec (nw_proto f) IPPROTO_SCTP).
  { destruct (compose_ports b0 h z f Ht Hr b 8 12 Hw) as (b' & ? & ? & ?); try lia. exists b', 0. by split_and!. }
  destruct (Z.eqb_spec (nw_proto f) IPPROTO_ICMP); [apply compose_icmp; auto; apply Hi; auto|].
  destruct (Z.eqb_spec (nw_proto f) IPPROTO_ICMPV6); [apply compose_icmpv6_room; auto; apply Hi; auto|].
  destruct Hw as [Hh S]. exists b, 0. rewrite app_nil_r. split_and!; try done.
  exists (l7 b). unfold same_place in *. simpl. tauto.
Qed.

(** ** The network layer *)

Lemma patch_same k n (xs : list Z) : (k + n <= length xs)%nat -> patch k (region k n xs) xs = xs.
Proof.
  intros Hl. unfold patch. rewrite (length_region k n) by done. unfold region.
  rewrite <- (drop_drop xs), (take_drop n). apply take_drop.
Qed.

Lemma patch_patch k (xs ys zs : list Z) : length xs = length ys -> (k + length ys <= length zs)%nat ->
  patch k xs (patch k ys zs) = patch k xs zs.
Proof.
  intros He Hl. unfold patch at 1 3. rewrite He. f_equal; [|f_equal].
  - unfold patch. apply take_app_length'. rewrite length_take. lia.
  - unfold patch. rewrite app_assoc. apply drop_app_length'. rewrite length_app, length_take. lia.
Qed.

Lemma wr_set_l4 b0 b h z q : wr b0 b h z -> wr (set_l4 q b0) (set_l4 q b) h z.
Proof.
  intros [Hh S]. split; [by apply holds_layers|]. unfold same_place, b_allocated in *. simpl. tauto.
Qed.

Lemma wr_ld16 b0 b h z i p : wr b0 b h z -> p = b_data b0 + Z.of_nat (length h) + Z.of_nat i ->
  (i + 2 <= length z)%nat -> ld16 b p = Ok (f16 i z).
Proof. intros Hw Hp Hi. unfold ld16. by rewrite (wr_ld b0 b h z i 2 _ _ Hw). Qed.

(** The fragment field of the IPv4 header. *)
Definition frag_word (f : flow) : Z :=
  if negb (Z.land (nw_frag f) FLOW_NW_FRAG_ANY =? 0) then
    if negb (Z.land (nw_frag f) FLOW_NW_FRAG_LATER =? 0)
    then Z.lor (htons IP_MORE_FRAGMENTS) (htons 100) else htons IP_MORE_FRAGMENTS
  else 0.

Lemma frag_word_u16 f : in_u16 (frag_word f).
Proof. unfold frag_word. repeat case_match; split; vm_compute; congruence. Qed.

Lemma compose_frag b0 b h z f p : wr b0 b h z -> (8 <= length z)%nat -> region 6 2 z = [0; 0] ->
  p = b_data b0 + Z.of_nat (length h) + 6 ->
  exists b', (if negb (Z.land (nw_frag f) FLOW_NW_FRAG_ANY =? 0) then
      let* o := ld16 b p in
      let* b := st16 b p (Z.lor o (htons IP_MORE_FRAGMENTS)) in
      if negb (Z.land (nw_frag f) FLOW_NW_FRAG_LATER =? 0) then
        let* o := ld16 b p in st16 b p (Z.lor o (htons 100))
      else Ok b
    else Ok b) = Ok b' /\ wr b0 b' h (patch 6 (le16_bytes (frag_word f)) z).
Proof.
  intros Hw Hl Hz Hp. unfold frag_word. destruct (negb (Z.land (nw_frag f) FLOW_NW_FRAG_ANY =? 0)).
  2: { exists b. split; [done|]. change (le16_bytes 0) with [0; 0]. by rewrite <- Hz, patch_same. }
  rewrite (wr_ld16 b0 b h z 6) by (done || lia). cbn [rbind].
  assert (E0 : f16 6 z = 0) by (unfold f16; by rewrite Hz). rewrite E0.
  assert (U : in_u16 (htons IP_MORE_FRAGMENTS) /\ in_u16 (htons 100)) by (split; apply htons_u16).
  change (Z.lor 0 (htons IP_MORE_FRAGMENTS)) with (htons IP_MORE_FRAGMENTS).
  destruct (wr_st16 b0 b h z 6 p (htons IP_MORE_FRAGMENTS) Hw) as (b1 & E1 & H1); [done|lia|apply U|].
  rewrite E1. cbn [rbind]. destruct (negb _); [|by exists b1].
  assert (L1 : length (patch 6 (le16_bytes (htons IP_MORE_FRAGMENTS)) z) = length z)
    by (apply length_patch; simpl; lia).
  rewrite (wr_ld16 b0 b1 _ _ 6 _ H1) by (done || lia). cbn [rbind].
  rewrite f16_patch_eq by (apply U || lia).
  destruct (wr_st16 b0 b1 _ _ 6 p (Z.lor (htons IP_MORE_FRAGMENTS) (htons 100)) H1) as (b2 & E2 & H2);
    [done|lia|by apply lor_u16|].
  exists b2. split; [done|]. by rewrite patch_patch in H2 by (done || (simpl; lia)).
Qed.

Definition ip_bytes (f : flow) (tot c : Z) : list Z :=
  [0x45; nw_tos f] ++ le16_bytes tot ++ [0; 0] ++ le16_bytes (frag_word f) ++ [nw_ttl f; nw_proto f]
  ++ le16_bytes c ++ le32_bytes (nw_src f) ++ le32_bytes (nw_dst f).

Lemma same_place7_facts b b' : same_place7 b b' ->
  b_base b' = b_base b /\ b_data b' = b_data b /\ b_allocated b' = b_allocated b /\
  l2 b' = l2 b /\ l2_5 b' = l2_5 b /\ l3 b' = l3 b /\ l4 b' = l4 b.
Proof. intros [q S]. unfold same_place, b_allocated in *. simpl in S. tauto. Qed.

(** The header before its length and checksum are filled in. *)
Lemma compose_ip_room b0 b h f : wr b0 b h [] -> flow_typed f -> icmp_ok f ->
  b_data b0 + Z.of_nat (length h + 60) <= b_allocated b0 -> l3 b0 = Some (b_data b0 + Z.of_nat (length h)) ->
  exists b' tot c c4, compose_ip b f = Ok b' /\ in_u16 tot /\ in_u16 c /\ in_u16 c4 /\
    holds b' (h ++ ip_bytes f tot c ++ l4_bytes f c4).
Proof.
  intros Hw Ht Hi Hr H3. pose proof Ht as []. unfold compose_ip.
  wput 20%nat. rewrite app_nil_r in *.
  wst8 0%nat. { split; vm_compute; congruence. }
  unfold ip_tos_ofs, ip_ttl_ofs, ip_proto_ofs, ip_src_ofs, ip_dst_ofs, ip_frag_off_ofs.
  wst8 1%nat. wst8 8%nat. wst8 9%nat. wbe32 12%nat. wbe32 16%nat.
  match goal with H : wr b0 ?b h ?z |- _ => rename b into b7; rename H into H7; set (z7 := z) in H7 end.
  destruct (compose_frag b0 b7 h z7 f (b_data b0 + Z.of_nat (length h) + 6) H7) as (b8 & E8 & H8);
    [unfold z7; simpl; lia|reflexivity|done|]. rewrite E8. cbn [rbind]. clear E8.
  set (z8 := patch 6 _ z7) in H8.
  set (q := Some (ofpbuf_tail b8)). apply (wr_set_l4 _ _ _ _ q) in H8.
  destruct (flow_compose_l4_room (set_l4 q b0) h z8 f _ Ht Hi ltac:(unfold z8, z7, b_allocated in *; simpl; lia) H8)
    as (b9 & c4 & E9 & U4 & Hh9 & S9).
  rewrite E9. cbn [rbind]. apply same_place7_facts in S9 as (S1 & S2 & S3 & S4 & S5 & S6 & S7).
  simpl in S1, S2, S6. unfold deref. cbn [fst snd]. rewrite S1, Nat.eqb_refl. cbn [rbind].
  rewrite S6, H3. cbn [the rbind].
  assert (H9 : wr b9 b9 h (z8 ++ l4_bytes f c4)) by (split; [done|apply same_place_refl]).
  unfold ip_tot_len_ofs, ip_csum_ofs, IP_HEADER_LEN.
  wst16 2%nat.
  set (tot := htons _) in *.
  match goal with H : wr b9 ?b h ?z |- context [ld ?b ?p 20] =>
    rewrite (wr_ld b9 b h z 0 20 p 20 H) by (simpl; lia) end. cbn [rbind].
  wst16 10%nat. { apply csum_u16. }
  set (c := csum _) in *. eexists _, tot, c, c4. split; [reflexivity|].
  split; [apply htons_u16|]. split; [apply csum_u16|]. split; [done|].
  match goal with H : wr b9 ?b _ _ |- holds ?b _ => exact (proj1 H) end.
Qed.

Definition ip6_flow_word (f : flow) : Z :=
  Z.lor (Z.lor (htonl (u32 (Z.shiftl 6 28))) (htonl (u32 (Z.shiftl (nw_tos f) 20)))) (ipv6_label f).

Definition ip6_bytes (f : flow) (plen : Z) : list Z :=
  le32_bytes (ip6_flow_word f) ++ le16_bytes plen ++ [nw_proto f; nw_ttl f] ++ ipv6_src f ++ ipv6_dst f.


Lemma ip6_flow_word_u32 f : flow_typed f -> in_u32 (ip6_flow_word f).
Proof.
  intros []. apply lor_range; [lia| |done]. apply lor_range; [lia|apply byteswap_u32..].
Qed.

(** Lists of six and of sixteen bytes, element by element. *)
Lemma explicit16 (l : list Z) : length l = 16%nat -> exists a b c d e f g h i j k m n o p q,
  l = [a; b; c; d; e; f; g; h; i; j; k; m; n; o; p; q].
Proof. intros H. do 16 (destruct l as [|? l]; [discriminate|]). destruct l; [|discriminate]. repeat eexists. Qed.
Lemma explicit6 (l : list Z) : length l = 6%nat -> exists a b c d e f, l = [a; b; c; d; e; f].
Proof. intros H. do 6 (destruct l as [|? l]; [discriminate|]). destruct l; [|discriminate]. repeat eexists. Qed.

Ltac wstn i :=
  match goal with Hw : wr ?b0 ?b ?h ?z |- context [st ?b ?p ?v] =>
    let b' := fresh "b" in let E := fresh "E" in let Hw' := fresh "Hw" in
    destruct (wr_st b0 b h z i p v Hw) as (b' & E & Hw');
    [lia|simpl; lia|after_store b' E Hw Hw'] end.

Lemma compose_ipv6_room b0 b h f : wr b0 b h [] -> flow_typed f -> icmp_ok f ->
  b_data b0 + Z.of_nat (length h + 80) <= b_allocated b0 ->
  exists b' plen c4, compose_ipv6 b f = Ok b' /\ in_u16 plen /\ in_u16 c4 /\
    holds b' (h ++ ip6_bytes f plen ++ l4_bytes f c4).
Proof.
  intros Hw Ht Hi Hr. pose proof Ht as []. unfold compose_ipv6, ip6_bytes.
  fold (ip6_flow_word f). pose proof (ip6_flow_word_u32 f Ht) as Uw.
  destruct (explicit16 _ (proj2 ft_ipv6_src)) as (?&?&?&?&?&?&?&?&?&?&?&?&?&?&?&?& Es).
  destruct (explicit16 _ (proj2 ft_ipv6_dst)) as (?&?&?&?&?&?&?&?&?&?&?&?&?&?&?&?& Ed). rewrite Es, Ed.
  unfold ip6_hlim_ofs, ip6_nxt_ofs, ip6_src_ofs, ip6_dst_ofs, ip6_plen_ofs.
  wput 40%nat. rewrite app_nil_r in *. wbe32 0%nat. wst8 7%nat. wst8 6%nat. wstn 8%nat. wstn 24%nat.
  match goal with H : wr b0 ?b h ?z |- _ => rename b into b7; rename H into H7; set (z7 := z) in H7 end.
  set (q := Some (ofpbuf_tail b7)). apply (wr_set_l4 _ _ _ _ q) in H7.
  assert (L7 : length z7 = 40%nat) by reflexivity.
  assert (Hr7 : b_data (set_l4 q b0) + Z.of_nat (length h + length z7 + 40) <= b_allocated (set_l4 q b0))
    by (rewrite L7; unfold b_allocated in *; simpl; lia).
  destruct (flow_compose_l4_room (set_l4 q b0) h z7 f _ Ht Hi Hr7 H7) as (b9 & c4 & E9 & U4 & Hh9 & S9).
  rewrite E9. cbn [rbind]. apply same_place7_facts in S9 as (S1 & S2 & S3 & S4 & S5 & S6 & S7).
  simpl in S1, S2, S7. unfold deref. cbn [fst snd]. rewrite S1, Nat.eqb_refl. cbn [rbind].
  assert (H9 : wr b9 b9 h (z7 ++ l4_bytes f c4)) by (split; [done|apply same_place_refl]).
  assert (Hp : exists plen, match l7 b9 with
      | Some p7 => let* p4 := the (l4 b9) in Ok (htons (p7 - p4)) | None => Ok (htons 0) end = Ok plen /\
    in_u16 plen).
  { destruct (l7 b9); [rewrite S7; cbn [the rbind q]|]; eexists; (split; [reflexivity|apply htons_u16]). }
  destruct Hp as (plen & Ep & Up). rewrite Ep. cbn [rbind].
  destruct (wr_st16 b9 b9 h _ 4 (b_data b0 + Z.of_nat (length h) + 4) plen H9) as (b10 & E10 & H10);
    [lia|simpl; lia|done|]. rewrite E10. exists b10, plen, c4. split_and!; try done. exact (proj1 H10).
Qed.

(** The ARP message; addresses are written for requests and replies only. *)
Definition arp_bytes (f : flow) : list Z :=
  le16_bytes (htons 1) ++ le16_bytes (htons ETH_TYPE_IP) ++ [6; 4] ++ le16_bytes (htons (nw_proto f)) ++
  (if (nw_proto f =? ARP_OP_REQUEST) || (nw_proto f =? ARP_OP_REPLY)
   then arp_sha f ++ le32_bytes (nw_src f) ++ arp_tha f ++ le32_bytes (nw_dst f) else replicate 20 0).

Lemma compose_arp_room b0 b h f : wr b0 b h [] -> flow_typed f ->
  b_data b0 + Z.of_nat (length h + 28) <= b_allocated b0 ->
  exists b', compose_arp b f = Ok b' /\ holds b' (h ++ arp_bytes f).
Proof.
  intros Hw Ht Hr. pose proof Ht as []. unfold compose_arp, arp_bytes.
  destruct (explicit6 _ (proj2 ft_arp_sha)) as (?&?&?&?&?&?& Es).
  destruct (explicit6 _ (proj2 ft_arp_tha)) as (?&?&?&?&?&?& Ed). rewrite Es, Ed.
  wput 28%nat. rewrite app_nil_r in *.
  match goal with H : wr b0 ?b1 h ?z |- context [set_l3 ?q ?b1] =>
    assert (Hw1 : wr (set_l3 q b0) (set_l3 q b1) h z);
    [destruct H as [Hh S]; split; [by apply holds_layers|];
     unfold same_place, b_allocated in *; simpl; tauto|clear H; set (c := set_l3 q b1) in *; clearbody c;
     set (c0 := set_l3 q b0) in *; change (b_data b0) with (b_data c0); clearbody c0] end.
  wst16 0%nat. wst16 2%nat. wst8 4%nat. { split; vm_compute; congruence. }
  wst8 5%nat. { split; vm_compute; congruence. } wst16 6%nat.
  destruct (_ || _).
  - wbe32 14%nat. wbe32 24%nat. wstn 8%nat. 
    match goal with H : wr _ ?b1 h ?z |- context [st ?b1 ?p ?v] =>
      destruct (wr_st _ b1 h z 18 p v H) as (b' & E & H'); [lia|simpl; lia|] end.
    exists b'. split; [done|]. exact (proj1 H').
  - eexists. split; [reflexivity|]. match goal with H : wr _ ?b _ _ |- holds ?b _ => exact (proj1 H) end.
Qed.

(** ** The whole packet *)

(** What follows the Ethernet header; lengths and checksums, which extraction
    does not read, are left open. *)
Definition payload (f : flow) (p : list Z) : Prop :=
  if dl_type f =? htons ETH_TYPE_IP
  then exists tot c c4, in_u16 tot /\ in_u16 c /\ in_u16 c4 /\ p = ip_bytes f tot c ++ l4_bytes f c4
  else if dl_type f =? htons ETH_TYPE_IPV6
  then exists plen c4, in_u16 plen /\ in_u16 c4 /\ p = ip6_bytes f plen ++ l4_bytes f c4
  else if (dl_type f =? htons ETH_TYPE_ARP) || (dl_type f =? htons ETH_TYPE_RARP) then p = arp_bytes f
  else if eth_type_mpls (dl_type f) then p = le32_bytes (mpls_lse f)
  else p = [].

Lemma not_mpls t : eth_type_mpls t = true ->
  (t =? htons ETH_TYPE_IP) = false /\ (t =? htons ETH_TYPE_IPV6) = false /\
  (t =? htons ETH_TYPE_ARP) || (t =? htons ETH_TYPE_RARP) = false.
Proof.
  unfold eth_type_mpls. intros [->%Z.eqb_eq| ->%Z.eqb_eq]%orb_true_iff; by split_and!.
Qed.

Lemma compose_mpls b h f : wr b b h [] -> flow_typed f -> eth_type_mpls (dl_type f) = true ->
  b_source b <> OFPBUF_STACK -> b_allocated b + 64 < 2 ^ 32 -> l2 b = Some (b_data b) ->
  l3 b = Some (b_data b + Z.of_nat (length h)) ->
  exists b', push_mpls (set_l2_5 (l3 b) b) (dl_type f) (mpls_lse f) = Ok b' /\
    holds b' (h ++ le32_bytes (mpls_lse f)).
Proof.
  intros [Hh _] Ht Em Hs Ha H2 H3. rewrite app_nil_r in Hh. unfold push_mpls. rewrite Em. cbn [negb].
  rewrite H3. change (is_mpls _) with true. cbn [negb rbind].
  destruct (push_mpls_lse_spec (set_l2_5 (Some (b_data b + Z.of_nat (length h))) b) h (length h)
              (le32_bytes (mpls_lse f))) as (b' & E & H' & _); try done.
  - by apply holds_layers.
  - pose proof (holds_room b h Hh). pose proof (holds_length b h Hh).
    unfold can_grow, ofpbuf_tailroom, ofpbuf_end, ofpbuf_tail, b_allocated in *. simpl. split; [done|].
    split; [by left|]. unfold MPLS_HLEN. lia.
  - exists b'. split; [done|]. by rewrite firstn_all, drop_all, app_nil_r in H'.
Qed.

Lemma flow_compose_bytes b f : roomy b -> b_source b <> OFPBUF_STACK -> flow_typed f -> icmp_ok f ->
  dl_type f <> htons FLOW_DL_TYPE_NONE ->
  exists b' p, flow_compose b f = Ok b' /\ holds b' (link_bytes f ++ p) /\ payload f p.
Proof.
  intros Hr Hs Ht Hi Hn. unfold flow_compose.
  destruct (compose_link b f Hr Ht) as (b1 & E1 & H1 & B1 & B2 & B3 & L2 & L3 & Hl).
  destruct (eth_compose b (dl_dst f) (dl_src f) (ntohs (dl_type f)) 0) as [[q b0]|]; [|done].
  cbn [rbind] in E1 |- *. destruct (Z.eqb_spec (dl_type f) (htons FLOW_DL_TYPE_NONE)); [done|].
  rewrite E1. cbn [rbind]. destruct Hr as (_ & Hr1 & Hr2).
  assert (L3' : l3 b1 = Some (b_data b1 + Z.of_nat (length (link_bytes f)))) by (rewrite L3; f_equal; lia).
  unfold payload. destruct (eth_type_mpls (dl_type f)) eqn:Em.
  { destruct (not_mpls _ Em) as (-> & -> & ->). cbn [rbind].
    destruct (compose_mpls b1 (link_bytes f) f) as (b' & E & H'); try done; [congruence|congruence|].
    by exists b', (le32_bytes (mpls_lse f)). }
  destruct (dl_type f =? htons ETH_TYPE_IP).
  { destruct (compose_ip_room b1 b1 (link_bytes f) f) as (b' & tot & c & c4 & E & U1 & U2 & U3 & H'); try done; [lia|].
    rewrite E. exists b', (ip_bytes f tot c ++ l4_bytes f c4). split_and!; try done. by exists tot, c, c4. }
  destruct (dl_type f =? htons ETH_TYPE_IPV6).
  { destruct (compose_ipv6_room b1 b1 (link_bytes f) f) as (b' & plen & c4 & E & U1 & U2 & H'); try done; [lia|].
    rewrite E. exists b', (ip6_bytes f plen ++ l4_bytes f c4). split_and!; try done. by exists plen, c4. }
  destruct (_ || _).
  { destruct (compose_arp_room b1 b1 (link_bytes f) f) as (b' & E & H'); try done; [lia|].
    rewrite E. by exists b', (arp_bytes f). }
  cbn [rbind]. destruct H1 as [H1 _]. by exists b1, [].
Qed.
