(* ===== verification/FlowRoundtrip.v ===== *)
(** * The round trip of flows

    [flow_extract] applied to the packet that [flow_compose] makes gives back
    the part of the flow that the packet can carry. *)

From Stdlib Require Import ZArith Lia List.
From stdpp Require Import base option list_relations list.
From S2P Require Import Prelude Bytes Hash Csum Ofpbuf Packets PacketsFacts PacketsProps Flow.
From S2P Require Import FlowFacts FlowProps FlowCompose.
#[local] Open Scope Z_scope.
#[local] Open Scope res_scope.

(** ** What a packet carries *)

(** The fields of the first two layers; a tag needs its CFI bit. *)
Definition l2_part (f : flow) : flow :=
  Mk_flow (tunnel f) 0 (replicate FLOW_N_REGS 0) (skb_priority f) (pkt_mark f) (in_port f)
    (dl_src f) (dl_dst f) (dl_type f)
    (if negb (Z.land (vlan_tci f) (htons VLAN_CFI) =? 0) then vlan_tci f else 0) 0
    (replicate 16 0) (replicate 16 0) (replicate 16 0) 0 0 0 0 0 0 0 (replicate 6 0) (replicate 6 0)
    0 0 0 0.

Definition has_l4 (f : flow) : bool :=
  (Z.land (nw_frag f) FLOW_NW_FRAG_ANY =? 0) || (Z.land (nw_frag f) FLOW_NW_FRAG_LATER =? 0).

Definition ports_part (f g : flow) : flow := set_tp_dst (tp_dst f) (set_tp_src (tp_src f) g).

(** The transport fields; [icmp] is the ICMP protocol of the network layer. *)
Definition l4_part (icmp : Z) (f g : flow) : flow :=
  if has_l4 f then
    if nw_proto f =? IPPROTO_TCP then set_tcp_flags (tcp_flags f) (ports_part f g)
    else if (nw_proto f =? IPPROTO_UDP) || (nw_proto f =? IPPROTO_SCTP) then ports_part f g
    else if nw_proto f =? icmp then
      if (icmp =? IPPROTO_ICMPV6) && is_nd f
      then set_arp_tha (arp_tha f) (set_arp_sha (arp_sha f) (set_nd_target (nd_target f) (ports_part f g)))
      else ports_part f g
    else g
  else g.

Definition frag_part (f : flow) : Z :=
  if negb (Z.land (nw_frag f) FLOW_NW_FRAG_ANY =? 0) then
    if negb (Z.land (nw_frag f) FLOW_NW_FRAG_LATER =? 0)
    then Z.lor FLOW_NW_FRAG_ANY FLOW_NW_FRAG_LATER else FLOW_NW_FRAG_ANY
  else 0.

Definition ip_part (f g : flow) : flow :=
  set_nw_ttl (nw_ttl f) (set_nw_frag (frag_part f) (set_nw_tos (nw_tos f) (set_nw_proto (nw_proto f)
    (set_nw_dst (nw_dst f) (set_nw_src (nw_src f) g))))).

(** IPv6 packets are composed without a fragment header. *)
Definition ip6_part (f g : flow) : flow :=
  set_nw_proto (nw_proto f) (set_nw_ttl (nw_ttl f) (set_ipv6_label (ipv6_label f)
    (set_nw_tos (nw_tos f) (set_ipv6_dst (ipv6_dst f) (set_ipv6_src (ipv6_src f) g))))).

(** ARP addresses are written for requests and replies only. *)
Definition arp_part (f g : flow) : flow :=
  let g := set_nw_proto (nw_proto f) g in
  if (nw_proto f =? ARP_OP_REQUEST) || (nw_proto f =? ARP_OP_REPLY)
  then set_arp_tha (arp_tha f) (set_arp_sha (arp_sha f) (set_nw_dst (nw_dst f) (set_nw_src (nw_src f) g)))
  else g.

(** The part of a flow that the packet composed from it carries. *)
Definition canonical (f : flow) : flow :=
  let g := l2_part f in
  if dl_type f =? htons FLOW_DL_TYPE_NONE then set_vlan_tci 0 g
  else if dl_type f =? htons ETH_TYPE_IP then l4_part IPPROTO_ICMP f (ip_part f g)
  else if dl_type f =? htons ETH_TYPE_IPV6 then l4_part IPPROTO_ICMPV6 f (ip6_part f g)
  else if (dl_type f =? htons ETH_TYPE_ARP) || (dl_type f =? htons ETH_TYPE_RARP) then arp_part f g
  else if eth_type_mpls (dl_type f) then set_flow_mpls_lse (mpls_lse f) g
  else g.

(** Values that the headers have room for. *)
Record composable (f : flow) : Prop := {
  co_typed : flow_typed f;
  co_type : dl_type f = htons FLOW_DL_TYPE_NONE \/
            ETH_TYPE_MIN <= ntohs (dl_type f) /\ dl_type f <> htons ETH_TYPE_VLAN;
  co_icmp : icmp_ok f;
  co_flags : ntohs (tcp_flags f) < 2 ^ 12;
  co_label : Z.land (ipv6_label f) (htonl IPV6_LABEL_MASK) = ipv6_label f;
  co_ext : dl_type f = htons ETH_TYPE_IPV6 ->
    nw_proto f ∉ [IPPROTO_HOPOPTS; IPPROTO_ROUTING; IPPROTO_DSTOPTS; IPPROTO_AH; IPPROTO_FRAGMENT]
}.

(** ** Setting fields *)

Lemma set_nw_proto_twice v w g : set_nw_proto v (set_nw_proto w g) = set_nw_proto v g.
Proof. done. Qed.
Lemma set_nw_frag_twice a c g :
  set_nw_frag (Z.lor (nw_frag (set_nw_frag a g)) c) (set_nw_frag a g) = set_nw_frag (Z.lor a c) g.
Proof. done. Qed.
Lemma set_nw_frag_same g : set_nw_frag (nw_frag g) g = g.
Proof. by destruct g. Qed.

(** ** Fields of a list of bytes *)

Lemma f8_app h p i : f8 (length h + i) (h ++ p) = f8 i p.
Proof. unfold f8. by rewrite (region_app_r h p _ i). Qed.
Lemma f16_app h p i : f16 (length h + i) (h ++ p) = f16 i p.
Proof. unfold f16. by rewrite (region_app_r h p _ i). Qed.
Lemma f32_app h p i : f32 (length h + i) (h ++ p) = f32 i p.
Proof. unfold f32. by rewrite (region_app_r h p _ i). Qed.


Lemma htons_invol x : in_u16 x -> htons (ntohs x) = x.
Proof.
  intros Hx. unfold ntohs, htons, u16, in_u16 in *. change (2 ^ 16) with 65536 in *.
  change (2 ^ 8) with 256 in *. zdm.
Qed.

(** [htons] swaps the two bytes of its argument. *)
Lemma htons_bit x i : 0 <= i < 16 -> Z.testbit (htons x) i = Z.testbit x (if i <? 8 then i + 8 else i - 8).
Proof.
  intros Hi. unfold htons. pose proof (u16_range x) as Hx. unfold in_u16 in Hx.
  assert (Hb : forall j, 0 <= j < 16 -> Z.testbit (u16 x) j = Z.testbit x j)
    by (intros j Hj; apply Z.mod_pow2_bits_low; lia).
  rewrite (Z.mul_comm (2 ^ 8)), Z.add_comm.
  rewrite <- (lor_add_disjoint (u16 x / 2 ^ 8) (u16 x mod 2 ^ 8) 8)
    by first [lia | split; [apply Z.div_pos; lia|apply Z.div_lt_upper_bound; lia]].
  rewrite Z.lor_spec, Z.shiftl_spec, <- (Z.shiftr_div_pow2 _ 8), Z.shiftr_spec by lia.
  destruct (Z.ltb_spec i 8).
  - rewrite (Z.testbit_neg_r _ (i - 8)) by lia. by rewrite Hb by lia.
  - rewrite Z.mod_pow2_bits_low, Hb by lia.
    assert (E : Z.testbit (u16 x) (i + 8) = false) by (apply Z.mod_pow2_bits_high; lia).
    by rewrite E, orb_false_r.
Qed.

Lemma htons_land x y : Z.land (htons x) (htons y) = htons (Z.land x y).
Proof.
  apply Z.bits_inj. intros i. rewrite Z.land_spec.
  destruct (Z.lt_ge_cases i 0); [by rewrite !Z.testbit_neg_r|].
  destruct (Z.lt_ge_cases i 16); [by rewrite !htons_bit, Z.land_spec by lia|].
  assert (Hh : forall z, Z.testbit (htons z) i = false).
  { intros z. apply (proj1 (bits_range_iff 16 _ ltac:(lia)) (htons_u16 z)). lia. }
  by rewrite !Hh.
Qed.

Lemma tcp_ctl_fields x : in_u16 x -> ntohs x < 2 ^ 12 ->
  TCP_OFFSET (TCP_CTL (ntohs x) 5) = 5 /\ Z.land (TCP_CTL (ntohs x) 5) (htons 0x0fff) = x.
Proof.
  intros Ux Hx. pose proof (htons_u16 x) as Hu. unfold ntohs, TCP_CTL in *.
  set (y := htons x) in *. unfold in_u16 in Hu. split.
  - unfold TCP_OFFSET, ntohs. rewrite Z.lor_comm, (lor_add_disjoint y 5 12) by lia.
    change (htons (htons (5 * 2 ^ 12 + y))) with (htons (ntohs (5 * 2 ^ 12 + y))).
    rewrite htons_invol by (unfold in_u16; lia). rewrite Z.shiftr_div_pow2 by lia.
    rewrite Z.add_comm, Z.div_add by lia. rewrite Z.div_small by lia. done.
  - rewrite htons_land, Z.land_lor_distr_l. change (Z.land (Z.shiftl 5 12) 4095) with 0.
    rewrite Z.lor_0_r. change 4095 with (Z.ones 12). rewrite Z.land_ones by lia.
    rewrite Z.mod_small by lia. unfold y. by apply htons_invol.
Qed.

(** ** The link layer *)

Lemma set_cfi t : in_u16 t -> Z.land t (htons VLAN_CFI) <> 0 ->
  Z.lor (Z.land t (htons (Z.lnot VLAN_CFI))) (htons VLAN_CFI) = t.
Proof.
  change (htons VLAN_CFI) with (2 ^ 4). change (htons (Z.lnot VLAN_CFI)) with 0xffef.
  intros Ht Hc. apply bits_range_iff in Ht as [Ht0 Ht]; [|lia].
  assert (H4 : Z.testbit t 4 = true).
  { destruct (Z.testbit t 4) eqn:E; [done|]. destruct Hc. apply Z.bits_inj_0. intros i.
    rewrite Z.land_spec, Z.pow2_bits_eqb by lia.
    destruct (Z.eqb_spec 4 i) as [<-|]; [by rewrite E|by rewrite andb_false_r]. }
  apply Z.bits_inj. intros i. rewrite Z.lor_spec, Z.land_spec, Z.pow2_bits_eqb by lia.
  destruct (Z.lt_ge_cases i 0).
  { rewrite !Z.testbit_neg_r by done. destruct (Z.eqb_spec 4 i); [lia|done]. }
  destruct (Z.lt_ge_cases i 16).
  - assert (Hm : Z.testbit 0xffef i = negb (4 =? i)).
    { assert (Hc2 : exists n : nat, (n < 16)%nat /\ i = Z.of_nat n) by (exists (Z.to_nat i); lia).
      destruct Hc2 as (n & Hn & ->). do 16 (destruct n as [|n]; [reflexivity|]). lia. }
    rewrite Hm. destruct (Z.eqb_spec 4 i) as [<-|]; [by rewrite H4|].
    cbn [negb]. by rewrite andb_true_r, orb_false_r.
  - rewrite Ht by lia. destruct (Z.eqb_spec 4 i); [lia|done].
Qed.

(** The link layer of a composed packet with payload [p]. *)
Lemma link_composed f p prio mark tnl port : flow_typed f ->
  ETH_TYPE_MIN <= ntohs (dl_type f) -> dl_type f <> htons ETH_TYPE_VLAN ->
  let xs := link_bytes f ++ p in
  exists k, ethertype_at xs k = (dl_type f, length (link_bytes f)) /\
    link_flow xs prio mark tnl port =
    (k, let g := set_dl_dst (dl_dst f) (set_dl_src (dl_src f) (init_flow prio mark tnl port)) in
        if negb (Z.land (vlan_tci f) (htons VLAN_CFI) =? 0) then set_vlan_tci (vlan_tci f) g else g).
Proof.
  intros Ht Hm Hv xs. pose proof Ht as [].
  destruct (explicit6 _ (proj2 ft_dl_src)) as (?&?&?&?&?&?& Es).
  destruct (explicit6 _ (proj2 ft_dl_dst)) as (?&?&?&?&?&?& Ed).
  assert (Hty : le_word [htons (ntohs (dl_type f)) mod 2 ^ 8; htons (ntohs (dl_type f)) / 2 ^ 8] = dl_type f).
  { change (le_word (le16_bytes (htons (ntohs (dl_type f)))) = dl_type f).
    rewrite le_word_le16, htons_invol by (done || apply htons_u16). done. }
  unfold link_flow, vlan_at, eth_fields, ethertype_at. rewrite length_link_bytes by done.
  unfold xs, link_bytes, eth_bytes, push_tag. rewrite Es, Ed.
  destruct (Z.eqb_spec (Z.land (vlan_tci f) (htons VLAN_CFI)) 0) as [Ec|Ec]; cbn [negb].
  - exists 12%nat. change (f16 12 _) with (le_word [htons (ntohs (dl_type f)) mod 2 ^ 8; htons (ntohs (dl_type f)) / 2 ^ 8]).
    rewrite Hty. destruct (Z.eqb_spec (dl_type f) (htons ETH_TYPE_VLAN)); [done|]. cbn [andb].
    destruct (Z.leb_spec ETH_TYPE_MIN (ntohs (dl_type f))); [|lia]. done.
  - exists 16%nat.
    change (f16 12 _) with (htons ETH_TYPE_VLAN). rewrite Z.eqb_refl. rewrite bool_decide_eq_true_2 by (simpl; lia).
    change (f16 16 _) with (le_word [htons (ntohs (dl_type f)) mod 2 ^ 8; htons (ntohs (dl_type f)) / 2 ^ 8]).
    rewrite Hty. destruct (Z.leb_spec ETH_TYPE_MIN (ntohs (dl_type f))); [|lia]. split; [done|].
    cbn [andb]. apply (f_equal (pair 16%nat)).
    change (f16 14 _) with (le_word (le16_bytes (Z.land (vlan_tci f) (htons (Z.lnot VLAN_CFI))))).
    rewrite le_word_le16 by (apply land_u16, htons_u16). by rewrite set_cfi.
Qed.

Lemma start_flow f :
  set_dl_type (dl_type f)
    (let g := set_dl_dst (dl_dst f) (set_dl_src (dl_src f)
                (init_flow (skb_priority f) (pkt_mark f) (Some (tunnel f)) (Some (in_port f)))) in
     if negb (Z.land (vlan_tci f) (htons VLAN_CFI) =? 0) then set_vlan_tci (vlan_tci f) g else g) = l2_part f.
Proof. unfold l2_part. by destruct (negb _). Qed.

(** ** All bytes are bytes *)

Lemma bytes_ok_app l1 l2 : bytes_ok l1 -> bytes_ok l2 -> bytes_ok (l1 ++ l2).
Proof. intros. by apply List.Forall_app. Qed.
Lemma bytes_ok_cons x l : in_u8 x -> bytes_ok l -> bytes_ok (x :: l).
Proof. intros. by constructor. Qed.
Lemma bytes_ok_nil : bytes_ok [].
Proof. constructor. Qed.
Lemma bytes_ok_zeros n : bytes_ok (replicate n 0).
Proof. apply bytes_n_zeros. Qed.
Lemma in_u8_lit x : (0 <=? x) && (x <? 256) = true -> in_u8 x.
Proof. unfold in_u8. intros [?%Z.leb_le ?%Z.ltb_lt]%andb_true_iff. change (2 ^ 8) with 256. lia. Qed.
Lemma TCP_CTL_u16 x y : in_u16 (TCP_CTL x y).
Proof. apply htons_u16. Qed.
Create HintDb bytes.
#[local] Hint Resolve bytes_ok_app bytes_ok_cons bytes_ok_nil bytes_ok_zeros le16_bytes_ok le32_bytes_ok
  frag_word_u16 htons_u16 TCP_CTL_u16 ip6_flow_word_u32 : bytes.
#[local] Hint Extern 1 (in_u8 ?x) => apply in_u8_lit; reflexivity : bytes.

Ltac solve_bytes :=
  repeat first [apply bytes_ok_zeros | apply bytes_ok_app | apply le16_bytes_ok | apply le32_bytes_ok
               | apply bytes_ok_cons]; auto with bytes; fail.

Lemma ip_bytes_ok f tot c : flow_typed f -> in_u16 tot -> in_u16 c -> bytes_ok (ip_bytes f tot c).
Proof. intros [] H1 H2. unfold ip_bytes. auto 25 with bytes. Qed.

Lemma ip6_bytes_ok f plen : flow_typed f -> in_u16 plen -> bytes_ok (ip6_bytes f plen).
Proof. intros Ht H1. pose proof Ht as []. destruct ft_ipv6_src, ft_ipv6_dst. unfold ip6_bytes. auto 25 with bytes. Qed.

Lemma arp_bytes_ok f : flow_typed f -> bytes_ok (arp_bytes f).
Proof.
  intros []. destruct ft_arp_sha, ft_arp_tha. unfold arp_bytes.
  repeat apply bytes_ok_app; auto with bytes. case_match; auto 12 with bytes.
Qed.

Lemma nd_bytes_ok f : flow_typed f -> bytes_ok (nd_bytes f).
Proof.
  intros []. destruct ft_nd_target, ft_arp_sha, ft_arp_tha. unfold nd_bytes, nd_opt_bytes.
  repeat case_match; auto 12 with bytes.
Qed.

Lemma l4_bytes_ok f c : flow_typed f -> icmp_ok f -> in_u16 c -> bytes_ok (l4_bytes f c).
Proof.
  intros Ht Hi Hc. pose proof Ht as []. pose proof (nd_bytes_ok f Ht) as Hn. unfold l4_bytes.
  destruct (_ || _); [|auto with bytes].
  destruct (nw_proto f =? IPPROTO_TCP); [solve_bytes|].
  destruct (nw_proto f =? IPPROTO_UDP); [solve_bytes|].
  destruct (nw_proto f =? IPPROTO_SCTP); [solve_bytes|].
  destruct (Z.eqb_spec (nw_proto f) IPPROTO_ICMP) as [Ei|_]; [destruct (Hi (or_introl Ei)); solve_bytes|].
  destruct (Z.eqb_spec (nw_proto f) IPPROTO_ICMPV6) as [Ei|_]; [destruct (Hi (or_intror Ei)); solve_bytes|].
  auto with bytes.
Qed.

(** ** The transport layer *)

Section Transport.
Context (f : flow) (c4 : Z) (h : list Z).
Context (Ht : flow_typed f) (Hl4 : has_l4 f = true).
Let xs : list Z := h ++ l4_bytes f c4.

Lemma at_start (g : nat -> list Z -> Z) : (forall h p i, g (length h + i)%nat (h ++ p) = g i p) ->
  g (length h) xs = g 0%nat (l4_bytes f c4).
Proof. intros Hg. unfold xs. by rewrite <- (Hg h _ 0%nat), Nat.add_0_r. Qed.

Lemma tcp_composed g : nw_proto f = IPPROTO_TCP -> ntohs (tcp_flags f) < 2 ^ 12 ->
  tcp_end xs (length h) = Some (length h + 20)%nat /\
  tcp_fields xs (length h) g = set_tcp_flags (tcp_flags f) (ports_part f g).
Proof.
  intros Ep Hf. pose proof Ht as []. unfold tcp_end, tcp_fields, tp_fields.
  rewrite (at_start f16) by apply f16_app. unfold xs. rewrite !f16_app, length_app. unfold l4_bytes.
  fold (has_l4 f). rewrite Hl4, Ep. cbn [Z.eqb].
  change (IPPROTO_TCP =? IPPROTO_TCP) with true. cbv iota.
  change (f16 12 _) with (le_word (le16_bytes (TCP_CTL (ntohs (tcp_flags f)) 5))).
  change (f16 2 _) with (le_word (le16_bytes (tp_dst f))). change (f16 0 _) with (le_word (le16_bytes (tp_src f))).
  rewrite !le_word_le16 by (done || apply htons_u16).
  destruct (tcp_ctl_fields (tcp_flags f)) as [E1 E2]; [done|done|]. rewrite E1, E2. split; [|done].
  change (Z.to_nat (5 * 4)) with 20%nat. cbv zeta. rewrite !length_app. cbn [length le16_bytes replicate].
  case_decide; [done|lia].
Qed.

Lemma ports_composed n g : nw_proto f = IPPROTO_UDP /\ n = 8%nat \/ nw_proto f = IPPROTO_SCTP /\ n = 12%nat ->
  fixed_end xs n (length h) = Some (length h + n)%nat /\ tp_fields xs (length h) g = ports_part f g.
Proof.
  intros Ep. pose proof Ht as []. unfold fixed_end, tp_fields.
  rewrite (at_start f16) by apply f16_app. unfold xs. rewrite !f16_app, length_app. unfold l4_bytes.
  fold (has_l4 f). rewrite Hl4.
  destruct Ep as [[-> ->]|[-> ->]]; cbn -[le_word Z.modulo Z.div Z.pow f16];
    change (f16 2 _) with (le_word (le16_bytes (tp_dst f))); change (f16 0 _) with (le_word (le16_bytes (tp_src f)));
    rewrite !le_word_le16 by done; (case_decide; [done|lia]).
Qed.

(** The fixed part of an ICMP message. *)
Lemma icmp_composed g : nw_proto f = IPPROTO_ICMP \/ nw_proto f = IPPROTO_ICMPV6 ->
  fixed_end xs 8 (length h) = Some (length h + 8)%nat /\ icmp_fields xs (length h) g = ports_part f g.
Proof.
  intros Ep. pose proof Ht as []. unfold fixed_end, icmp_fields.
  rewrite (at_start f8) by apply f8_app. unfold xs. rewrite !f8_app, length_app. unfold l4_bytes.
  fold (has_l4 f). rewrite Hl4.
  assert (Hs : htons (le_word [ntohs (tp_src f)]) = tp_src f) by (rewrite le_word_1; by apply htons_invol).
  assert (Hd : htons (le_word [ntohs (tp_dst f)]) = tp_dst f) by (rewrite le_word_1; by apply htons_invol).
  destruct Ep as [-> | ->]; cbn -[le_word Z.modulo Z.div Z.pow f8 htons ntohs];
    change (f8 1 _) with (le_word [ntohs (tp_dst f)]); change (f8 0 _) with (le_word [ntohs (tp_src f)]);
    rewrite Hs, Hd; (case_decide; [done|lia]).
Qed.

End Transport.

(** ** IPv4 *)

Section Ip.
Context (f : flow) (tot c c4 : Z) (h : list Z).
Context (Ht : flow_typed f) (Utot : in_u16 tot) (Uc : in_u16 c).
Let p : list Z := ip_bytes f tot c ++ l4_bytes f c4.

Lemma ip_end_composed : ip_end (h ++ p) (length h) = Some (length h + 20)%nat.
Proof.
  pose proof (f8_app h p 0) as E. rewrite Nat.add_0_r in E. unfold ip_end. rewrite E.
  change (f8 0 p) with 0x45. change (Z.to_nat (IP_IHL 0x45 * 4)) with 20%nat. cbv zeta.
  unfold p. rewrite !length_app. change (length (ip_bytes f tot c)) with 20%nat. case_decide; [done|lia].
Qed.

Lemma frag_composed : f16 (length h + 6) (h ++ p) = frag_word f.
Proof.
  rewrite f16_app. change (f16 6 p) with (le_word (le16_bytes (frag_word f))).
  apply le_word_le16, frag_word_u16.
Qed.

Lemma later_composed : later_fragment (h ++ p) (length h) = negb (has_l4 f).
Proof.
  unfold later_fragment. rewrite frag_composed. unfold frag_word, has_l4.
  destruct (Z.land (nw_frag f) FLOW_NW_FRAG_ANY =? 0); [done|].
  by destruct (Z.land (nw_frag f) FLOW_NW_FRAG_LATER =? 0).
Qed.

Lemma ip_fields_composed g : nw_frag g = 0 -> ip_fields (h ++ p) (length h) g = ip_part f g.
Proof.
  intros Hg. pose proof Ht as []. unfold ip_fields, ip_frag. rewrite frag_composed, later_composed.
  rewrite !f8_app, !f32_app.
  change (f8 8 p) with (le_word [nw_ttl f]). change (f8 1 p) with (le_word [nw_tos f]).
  change (f8 9 p) with (le_word [nw_proto f]).
  change (f32 16 p) with (le_word (le32_bytes (nw_dst f))).
  change (f32 12 p) with (le_word (le32_bytes (nw_src f))).
  rewrite !le_word_1, !le_word_le32 by done. unfold ip_part, frag_part, frag_word, has_l4.
  destruct (Z.land (nw_frag f) FLOW_NW_FRAG_ANY =? 0); cbn [negb orb].
  - change (IP_IS_FRAGMENT 0) with false. cbv iota. apply (f_equal (set_nw_ttl _)). rewrite <- Hg.
    match goal with |- ?X = _ => exact (eq_sym (set_nw_frag_same X)) end.
  - destruct (Z.land (nw_frag f) FLOW_NW_FRAG_LATER =? 0); [done|].
    apply (f_equal (set_nw_ttl _)), set_nw_frag_twice.
Qed.

End Ip.

(** The transport fields that extraction finds behind an IPv4 header. *)
Lemma l4_flow_composed f c4 h g : flow_typed f -> composable f -> has_l4 f = true -> nw_proto g = nw_proto f ->
  l4_flow (h ++ l4_bytes f c4) (length h) g = l4_part IPPROTO_ICMP f g.
Proof.
  intros Ht Hc Hl Eg. unfold l4_flow, l4_end, l4_part. rewrite Hl, Eg. cbv zeta iota.
  destruct (Z.eqb_spec (nw_proto f) IPPROTO_TCP) as [Ep|_].
  { destruct (tcp_composed f c4 h Ht Hl g Ep (co_flags _ Hc)) as [-> E]. exact E. }
  destruct (Z.eqb_spec (nw_proto f) IPPROTO_UDP) as [Ep|_].
  { destruct (ports_composed f c4 h Ht Hl 8 g) as [E1 E2]; [by left|]. rewrite E1, Ep. exact E2. }
  destruct (Z.eqb_spec (nw_proto f) IPPROTO_SCTP) as [Ep|_].
  { destruct (ports_composed f c4 h Ht Hl 12 g) as [E1 E2]; [by right|]. rewrite E1, Ep. exact E2. }
  destruct (Z.eqb_spec (nw_proto f) IPPROTO_ICMP) as [Ep|_]; [|done].
  destruct (icmp_composed f c4 h Ht Hl g) as [E1 E2]; [by left|]. rewrite E1. exact E2.
Qed.

Lemma extract_ip_composed b f tot c c4 h : holds b (h ++ ip_bytes f tot c ++ l4_bytes f c4) ->
  bytes_ok h -> composable f -> in_u16 tot -> in_u16 c -> in_u16 c4 -> dl_type f = htons ETH_TYPE_IP ->
  exists b', extract_rest b (cut b (length h)) (l2_part f) =
    Ok (b', l4_part IPPROTO_ICMP f (ip_part f (l2_part f))).
Proof.
  intros Hh Hb Hc U1 U2 U3 Et. pose proof (co_typed _ Hc) as Ht.
  assert (Hb' : bytes_ok (h ++ ip_bytes f tot c ++ l4_bytes f c4)).
  { apply bytes_ok_app; [done|]. apply bytes_ok_app; [by apply ip_bytes_ok|].
    apply l4_bytes_ok; auto using co_icmp. }
  rewrite (extract_rest_ip b _ _ _ Hh Hb') by (rewrite ?length_app; done || lia).
  rewrite (ip_end_composed f tot c c4 h). unfold ip_result.
  rewrite (later_composed f tot c c4 h), (ip_fields_composed f tot c c4 h Ht) by done.
  destruct (has_l4 f) eqn:Hl; cbn [negb].
  - rewrite ip_l4_eq. rewrite app_assoc. replace (length h + 20)%nat with (length (h ++ ip_bytes f tot c))
      by (by rewrite length_app).
    rewrite (l4_flow_composed f c4) by done. by eexists.
  - eexists. do 2 f_equal. unfold l4_part. by rewrite Hl.
Qed.

(** ** ARP *)

Lemma extract_arp_composed b f h : holds b (h ++ arp_bytes f) -> bytes_ok h -> composable f ->
  dl_type f = htons ETH_TYPE_ARP \/ dl_type f = htons ETH_TYPE_RARP ->
  exists b', extract_rest b (cut b (length h)) (l2_part f) = Ok (b', arp_part f (l2_part f)).
Proof.
  intros Hh Hb Hc Et. pose proof (co_typed _ Hc) as Ht. pose proof Ht as [].
  assert (Hb' : bytes_ok (h ++ arp_bytes f)) by (apply bytes_ok_app; [done|by apply arp_bytes_ok]).
  destruct (explicit6 _ (proj2 ft_arp_sha)) as (?&?&?&?&?&?& Es).
  destruct (explicit6 _ (proj2 ft_arp_tha)) as (?&?&?&?&?&?& Ed).
  assert (Hlen : length (arp_bytes f) = 28%nat).
  { unfold arp_bytes. rewrite Es, Ed. by destruct (_ || _). }
  eexists. unfold extract_rest.
  assert (Em : eth_type_mpls (dl_type (l2_part f)) = false /\
    (dl_type (l2_part f) =? htons ETH_TYPE_IP) = false /\ (dl_type (l2_part f) =? htons ETH_TYPE_IPV6) = false /\
    (dl_type (l2_part f) =? htons ETH_TYPE_ARP) || (dl_type (l2_part f) =? htons ETH_TYPE_RARP) = true).
  { simpl. destruct Et as [-> | ->]; by split_and!. }
  destruct Em as (-> & E1 & E2 & E3). cbn [rbind]. rewrite E1, E2, E3.
  rewrite (extract_arp_eq b _ Hh Hb') by (rewrite length_app; lia).
  unfold fixed_end. case_decide as Hd; [|rewrite length_app in Hd; lia].
  apply (f_equal (fun x => Ok (_, x))). unfold is_arp, arp_fields.
  pose proof (f16_app h (arp_bytes f) 0) as E0. rewrite Nat.add_0_r in E0. rewrite E0.
  rewrite !f16_app, !f8_app, !f32_app, !(region_app_r h _ _ 18 6 eq_refl), !(region_app_r h _ _ 8 6 eq_refl).
  change (f16 6 (arp_bytes f)) with (le_word (le16_bytes (htons (nw_proto f)))).
  rewrite le_word_le16 by apply htons_u16.
  assert (Hop : ntohs (htons (nw_proto f)) = nw_proto f).
  { apply htons_invol. unfold in_u8, in_u16 in *. lia. }
  rewrite Hop. destruct (Z.leb_spec (nw_proto f) 255) as [_|Hp]; [|unfold in_u8 in *; lia].
  unfold arp_part, arp_bytes. rewrite Es, Ed.
  destruct ((nw_proto f =? ARP_OP_REQUEST) || (nw_proto f =? ARP_OP_REPLY)).
  - change (f32 24 _) with (le_word (le32_bytes (nw_dst f))). change (f32 14 _) with (le_word (le32_bytes (nw_src f))).
    by rewrite !le_word_le32 by done.
  - reflexivity.
Qed.

(** ** IPv6 *)

Lemma ip6_word_fields f : flow_typed f -> Z.land (ipv6_label f) (htonl IPV6_LABEL_MASK) = ipv6_label f ->
  u8 (Z.shiftr (ntohl (ip6_flow_word f)) 20) = nw_tos f /\
  Z.land (ip6_flow_word f) (htonl IPV6_LABEL_MASK) = ipv6_label f.
Proof.
  intros [] Hl. unfold in_u8 in *. unfold ip6_flow_word, ntohl, htonl in *.
  assert (Et : u32 (Z.shiftl (nw_tos f) 20) = nw_tos f * 2 ^ 20).
  { rewrite Z.shiftl_mul_pow2 by lia. apply u32_id. unfold in_u32. lia. }
  rewrite Et. change (u32 (Z.shiftl 6 28)) with (6 * 2 ^ 28).
  set (l := uint32_byteswap (ipv6_label f)).
  assert (El : 0 <= l < 2 ^ 20).
  { unfold l. rewrite <- Hl, byteswap_land, byteswap_invol by (vm_compute; split; congruence).
    apply land_range_r; [lia|]. unfold IPV6_LABEL_MASK. lia. }
  split.
  - rewrite !byteswap_lor, !byteswap_invol by (unfold in_u32; lia). fold l.
    rewrite !Z.shiftr_lor, !Z.shiftr_div_pow2 by lia.
    rewrite (Z.div_small l), Z.lor_0_r, Z.div_mul by lia. change (6 * 2 ^ 28 / 2 ^ 20) with (6 * 2 ^ 8).
    unfold u8. rewrite <- Z.land_ones, Z.land_lor_distr_l by lia. change (Z.land (6 * 2 ^ 8) (Z.ones 8)) with 0.
    rewrite Z.lor_0_l, Z.land_ones by lia. apply Z.mod_small. lia.
  - rewrite !Z.land_lor_distr_l, <- !byteswap_land, Hl. change (Z.land (6 * 2 ^ 28) IPV6_LABEL_MASK) with 0.
    change IPV6_LABEL_MASK with (Z.ones 20). rewrite Z.land_ones, Z.mod_mul by lia. reflexivity.
Qed.

Lemma parse_ipv6_composed b f plen c4 h g : holds b (h ++ ip6_bytes f plen ++ l4_bytes f c4) ->
  bytes_ok (h ++ ip6_bytes f plen ++ l4_bytes f c4) -> composable f -> in_u16 plen ->
  dl_type f = htons ETH_TYPE_IPV6 ->
  parse_ipv6 (cut b (length h)) g = Ok (0, cut b (length h + 40), ip6_part f g).
Proof.
  intros Hh Hb Hc Up Et. pose proof (co_typed _ Hc) as Ht. pose proof Ht as [].
  set (xs := h ++ ip6_bytes f plen ++ l4_bytes f c4) in *.
  destruct (explicit16 _ (proj2 ft_ipv6_src)) as (?&?&?&?&?&?&?&?&?&?&?&?&?&?&?&?& Es).
  destruct (explicit16 _ (proj2 ft_ipv6_dst)) as (?&?&?&?&?&?&?&?&?&?&?&?&?&?&?&?& Ed).
  assert (Hp : length (ip6_bytes f plen) = 40%nat) by (unfold ip6_bytes; by rewrite Es, Ed).
  assert (Hlen : (length h + 40 <= length xs)%nat) by (unfold xs; rewrite !length_app; lia).
  assert (R1 : region (length h + 8) 16 xs = ipv6_src f).
  { unfold xs. rewrite (region_app_r h _ _ 8 16 eq_refl). unfold ip6_bytes. by rewrite Es, Ed. }
  assert (R2 : region (length h + 24) 16 xs = ipv6_dst f).
  { unfold xs. rewrite (region_app_r h _ _ 24 16 eq_refl). unfold ip6_bytes. by rewrite Es, Ed. }
  assert (R3 : f8 (length h + 6) xs = nw_proto f /\ f8 (length h + 7) xs = nw_ttl f).
  { unfold xs. rewrite !f8_app. by rewrite <- (le_word_1 (nw_proto f)), <- (le_word_1 (nw_ttl f)) at 1. }
  assert (R4 : f32 (length h) xs = ip6_flow_word f).
  { pose proof (f32_app h (ip6_bytes f plen ++ l4_bytes f c4) 0) as E0. rewrite Nat.add_0_r in E0.
    unfold xs. rewrite E0. by apply le_word_le32, ip6_flow_word_u32. }
  destruct R3 as [R3 R5], (ip6_word_fields f Ht (co_label _ Hc)) as [E1 E2].
  unfold parse_ipv6. rewrite (try_pull_pulled b xs Hh _ 40) by (done || lia).
  unfold fixed_end. case_decide; [|lia]. cbn [pulled rbind].
  rewrite (cut_ld8 b xs Hh _ (length h + 6)) by (unfold ip6_nxt_ofs; lia). cbn [rbind].
  rewrite (cut_ld b xs Hh _ (length h + 8) 16) by (unfold ip6_src_ofs; lia). cbn [rbind].
  rewrite (cut_ld b xs Hh _ (length h + 24) 16) by (unfold ip6_dst_ofs; lia). cbn [rbind].
  rewrite (cut_be32 b xs Hh Hb _ (length h)) by lia. cbn [rbind].
  rewrite (cut_ld8 b xs Hh _ (length h + 7)) by (unfold ip6_hlim_ofs; lia). cbn [rbind].
  rewrite R1, R2, R3, R4, R5, E1, E2. cbn [parse_ipv6_loop].
  assert (Hn : forall pr, pr ∈ [IPPROTO_HOPOPTS; IPPROTO_ROUTING; IPPROTO_DSTOPTS; IPPROTO_AH; IPPROTO_FRAGMENT] ->
    (nw_proto f =? pr) = false).
  { intros pr Hpr. apply Z.eqb_neq. pose proof (co_ext _ Hc Et). congruence. }
  rewrite !Hn by (rewrite !elem_of_cons; tauto). cbn [negb andb rbind]. by rewrite set_nw_proto_twice.
Qed.

Lemma eth_addr_zero a : length a = 6%nat -> eth_addr_is_zero a = true -> a = replicate 6 0.
Proof.
  intros Hl Hz. destruct (explicit6 a Hl) as (?&?&?&?&?&?& ->). unfold eth_addr_is_zero in Hz.
  cbn [forallb] in Hz. rewrite !andb_true_iff, !Z.eqb_eq in Hz.
  by destruct Hz as (<- & <- & <- & <- & <- & <- & _).
Qed.

(** The option loop at the end of the packet, and at an option. *)
Lemma nd_loop_end b xs k fuel g : holds b xs -> (k <= length xs)%nat -> (length xs < k + 8)%nat ->
  parse_nd_loop (S fuel) (cut b k) g = Ok (true, cut b k, g).
Proof.
  intros Hh Hk Hl. cbn [parse_nd_loop]. rewrite (cut_size b xs Hh) by done.
  destruct (Z.ltb_spec (Z.of_nat (length xs - k)) 8); [done|lia].
Qed.

Lemma nd_loop_step b h type a r fuel g : holds b (h ++ ([type; 1] ++ a) ++ r) -> length a = 6%nat ->
  parse_nd_loop (S fuel) (cut b (length h)) g =
  (let next fl := parse_nd_loop fuel (cut b (length h + 8)) fl in
   if type =? ND_OPT_SOURCE_LINKADDR then
     if eth_addr_is_zero (arp_sha g) then next (set_arp_sha a g) else nd_invalid (cut b (length h)) g
   else if type =? ND_OPT_TARGET_LINKADDR then
     if eth_addr_is_zero (arp_tha g) then next (set_arp_tha a g) else nd_invalid (cut b (length h)) g
   else next g).
Proof.
  intros Hh Ha. set (xs := h ++ ([type; 1] ++ a) ++ r) in *. cbn [parse_nd_loop].
  assert (Hl : (length h + 8 <= length xs)%nat) by (unfold xs; rewrite !length_app, Ha; simpl; lia).
  assert (R0 : f8 (length h) xs = type).
  { pose proof (f8_app h (([type; 1] ++ a) ++ r) 0) as E. rewrite Nat.add_0_r in E. unfold xs. rewrite E.
    exact (le_word_1 type). }
  assert (R1 : f8 (length h + 1) xs = 1) by (unfold xs; rewrite f8_app; exact (le_word_1 1)).
  assert (R2 : region (length h + 2) 6 xs = a).
  { unfold xs. rewrite (region_app_r h _ _ 2 6 eq_refl). unfold region.
    change (drop 2 (([type; 1] ++ a) ++ r)) with (a ++ r). by apply take_app_length'. }
  rewrite (cut_size b xs Hh) by lia.
  destruct (Z.ltb_spec (Z.of_nat (length xs - length h)) 8); [lia|]. rewrite cut_data.
  rewrite (cut_ld8 b xs Hh _ (length h + 1)) by lia. cbn [rbind]. rewrite R1. change (1 * 8) with 8.
  destruct (Z.ltb_spec (Z.of_nat (length xs - length h)) 8); [lia|]. cbn [Z.eqb orb].
  rewrite (cut_ld8 b xs Hh _ (length h)) by lia. cbn [rbind]. rewrite R0.
  rewrite (cut_ld b xs Hh _ (length h + 2) 6) by (done || lia). cbn [rbind]. rewrite R2.
  rewrite (try_pull_pulled b xs Hh _ 8) by (done || lia). unfold fixed_end.
  case_decide; [|lia]. cbn [pulled rbind]. by rewrite !andb_true_r.
Qed.

Lemma nd_options_composed b h sha tha g fuel :
  let os := nd_opt_bytes ND_OPT_SOURCE_LINKADDR sha ++ nd_opt_bytes ND_OPT_TARGET_LINKADDR tha in
  holds b (h ++ os) -> length sha = 6%nat -> length tha = 6%nat ->
  arp_sha g = replicate 6 0 -> arp_tha g = replicate 6 0 -> (length os < fuel)%nat ->
  parse_nd_loop fuel (cut b (length h)) g =
  Ok (true, cut b (length (h ++ os)), set_arp_tha tha (set_arp_sha sha g)).
Proof.
  intros os Hh Ls Lt Es Et Hf.
  assert (Htha : forall h' fuel' g', holds b (h' ++ nd_opt_bytes ND_OPT_TARGET_LINKADDR tha) ->
    arp_tha g' = replicate 6 0 -> (length (nd_opt_bytes ND_OPT_TARGET_LINKADDR tha) < fuel')%nat ->
    parse_nd_loop fuel' (cut b (length h')) g' =
    Ok (true, cut b (length (h' ++ nd_opt_bytes ND_OPT_TARGET_LINKADDR tha)), set_arp_tha tha g')).
  { intros h' fuel' g' Hh' Eg Hf'. destruct fuel' as [|fuel']; [lia|]. unfold nd_opt_bytes in *.
    destruct (eth_addr_is_zero tha) eqn:Ez; cbn [negb] in *.
    - rewrite app_nil_r in *. rewrite (nd_loop_end b h') by (done || lia).
      rewrite (eth_addr_zero tha Lt Ez), <- Eg. by destruct g'.
    - rewrite <- (app_nil_r ([_; 1] ++ tha)) in Hh'. rewrite (nd_loop_step b h' _ tha [] fuel' g' Hh' Lt).
      cbv zeta. change (ND_OPT_TARGET_LINKADDR =? ND_OPT_SOURCE_LINKADDR) with false. cbv iota.
      rewrite Z.eqb_refl, Eg. change (eth_addr_is_zero (replicate 6 0)) with true. cbv iota.
      destruct fuel' as [|fuel']; [simpl in Hf'; lia|]. rewrite !length_app, Lt.
      rewrite (nd_loop_end b _ _ fuel' _ Hh'); [done|rewrite !length_app; simpl; lia..]. }
  unfold os in *. destruct (eth_addr_is_zero sha) eqn:Ez.
  - assert (Eo : nd_opt_bytes ND_OPT_SOURCE_LINKADDR sha = []) by (unfold nd_opt_bytes; by rewrite Ez).
    rewrite Eo in *. rewrite (Htha h fuel g) by done. do 2 f_equal.
    rewrite (eth_addr_zero sha Ls Ez), <- Es. by destruct g.
  - assert (Eo : nd_opt_bytes ND_OPT_SOURCE_LINKADDR sha = [ND_OPT_SOURCE_LINKADDR; 1] ++ sha)
      by (unfold nd_opt_bytes; by rewrite Ez).
    rewrite Eo in *. destruct fuel as [|fuel]; [lia|]. rewrite (nd_loop_step b h _ sha _ fuel g Hh Ls).
    cbv zeta. rewrite Z.eqb_refl, Es. change (eth_addr_is_zero (replicate 6 0)) with true. cbv iota.
    rewrite app_assoc in Hh |- *.
    replace (length h + 8)%nat with (length (h ++ [ND_OPT_SOURCE_LINKADDR; 1] ++ sha)) by (rewrite !length_app, Ls; done).
    rewrite (Htha _ fuel (set_arp_sha sha g)); try done. rewrite !length_app in Hf. simpl in Hf. lia.
Qed.

Lemma parse_icmpv6_composed b f c4 h g : holds b (h ++ l4_bytes f c4) -> flow_typed f -> has_l4 f = true ->
  nw_proto f = IPPROTO_ICMPV6 -> arp_sha g = replicate 6 0 -> arp_tha g = replicate 6 0 ->
  exists e, parse_icmpv6 (cut b (length h)) g =
    Ok (true, cut b e, if is_nd f
      then set_arp_tha (arp_tha f) (set_arp_sha (arp_sha f) (set_nd_target (nd_target f) (ports_part f g)))
      else ports_part f g).
Proof.
  intros Hh Ht Hl Ep Es Et. pose proof Ht as [].
  destruct (icmp_composed f c4 h Ht Hl g) as [Ee Ef]; [by right|].
  set (hd := [ntohs (tp_src f); ntohs (tp_dst f)] ++ le16_bytes c4 ++ replicate 4 0).
  assert (El : h ++ l4_bytes f c4 = (h ++ hd) ++ nd_bytes f).
  { rewrite <- app_assoc. f_equal. unfold l4_bytes, hd. fold (has_l4 f). rewrite Hl, Ep. simpl. done. }
  set (xs := h ++ l4_bytes f c4) in *.
  assert (R0 : f8 (length h) xs = ntohs (tp_src f) /\ f8 (length h + 1) xs = ntohs (tp_dst f)).
  { rewrite El, <- app_assoc, f8_app. pose proof (f8_app h (hd ++ nd_bytes f) 0) as E. rewrite Nat.add_0_r in E.
    rewrite E. split; [exact (le_word_1 (ntohs (tp_src f)))|exact (le_word_1 (ntohs (tp_dst f)))]. }
  destruct R0 as [R0 R1]. pose proof (fixed_end_bounds xs 8 (length h) _ Ee) as Hb8.
  unfold parse_icmpv6, pull_icmpv6. rewrite (try_pull_pulled b xs Hh _ 8) by (done || lia). rewrite Ee.
  cbn [pulled rbind]. rewrite (cut_ld8 b xs Hh _ (length h)) by lia. cbn [rbind].
  rewrite (cut_ld8 b xs Hh _ (length h + 1)) by lia. cbn [rbind]. fold (icmp_fields xs (length h) g).
  rewrite Ef, R0, R1. fold (is_nd f). destruct (is_nd f) eqn:En; [|by eexists].
  assert (Lh : length (h ++ hd) = (length h + 8)%nat) by (by rewrite length_app).
  unfold nd_bytes in El. rewrite En in El. destruct ft_nd_target as [_ Ln], ft_arp_sha as [_ Ls], ft_arp_tha as [_ Lt].
  set (os := nd_opt_bytes ND_OPT_SOURCE_LINKADDR (arp_sha f) ++ nd_opt_bytes ND_OPT_TARGET_LINKADDR (arp_tha f)) in *.
  assert (Lx : length xs = (length h + 24 + length os)%nat) by (rewrite El, length_app, Lh, length_app, Ln; lia).
  rewrite (try_pull_pulled b xs Hh _ 16) by (done || lia). unfold fixed_end. case_decide; [|lia].
  cbn [pulled rbind]. rewrite (cut_ld b xs Hh _ (length h + 8) 16) by (done || lia). cbn [rbind].
  assert (Rn : region (length h + 8) 16 xs = nd_target f).
  { rewrite El, (region_app_r _ _ _ 0 16) by lia. unfold region. rewrite drop_0. by apply take_app_length'. }
  rewrite Rn, app_assoc in *. rewrite (cut_size b xs Hh) by lia.
  assert (Lt' : length ((h ++ hd) ++ nd_target f) = (length h + 8 + 16)%nat) by (rewrite length_app, Lh, Ln; lia).
  rewrite <- Lt'.
  rewrite (nd_options_composed b _ (arp_sha f) (arp_tha f)); try done; [by eexists|by fold os; rewrite <- El|].
  fold os. rewrite Lt'. lia.
Qed.

Lemma l4_part_none icmp f g : has_l4 f = false -> l4_part icmp f g = g.
Proof. intros E. unfold l4_part. by rewrite E. Qed.

(** Behind the IPv6 header: the transport header, or nothing. *)
Definition ipv6_l4 (packet c : ofpbuf) (fl : flow) : Res (ofpbuf * flow) :=
  if nw_proto fl =? IPPROTO_TCP then
    let* (packet, _, fl) := parse_tcp packet c fl in Ok (packet, fl)
  else if nw_proto fl =? IPPROTO_UDP then
    let* (packet, _, fl) := parse_udp packet c fl in Ok (packet, fl)
  else if nw_proto fl =? IPPROTO_SCTP then
    let* (packet, _, fl) := parse_sctp packet c fl in Ok (packet, fl)
  else if nw_proto fl =? IPPROTO_ICMPV6 then
    let* (ok, c, fl) := parse_icmpv6 c fl in
    Ok (if ok : bool then set_l7 (Some (b_data c)) packet else packet, fl)
  else Ok (packet, fl).

Lemma ipv6_l4_composed b f c4 h q g : holds b (h ++ l4_bytes f c4) -> composable f -> has_l4 f = true ->
  nw_proto g = nw_proto f -> arp_sha g = replicate 6 0 -> arp_tha g = replicate 6 0 ->
  exists b', ipv6_l4 q (cut b (length h)) g = Ok (b', l4_part IPPROTO_ICMPV6 f g).
Proof.
  intros Hh Hc Hl Eg Es Et. pose proof (co_typed _ Hc) as Ht. unfold ipv6_l4, l4_part. rewrite Hl, Eg. cbv iota.
  assert (Hk : (length h <= length (h ++ l4_bytes f c4))%nat) by (rewrite length_app; lia).
  destruct (Z.eqb_spec (nw_proto f) IPPROTO_TCP) as [Ep|_].
  { rewrite (parse_tcp_eq b _ Hh) by done. destruct (tcp_composed f c4 h Ht Hl g Ep (co_flags _ Hc)) as [-> ->].
    by eexists. }
  destruct (Z.eqb_spec (nw_proto f) IPPROTO_UDP) as [Ep|_].
  { rewrite (parse_udp_eq b _ Hh) by done. destruct (ports_composed f c4 h Ht Hl 8 g) as [-> ->]; [by left|].
    by eexists. }
  destruct (Z.eqb_spec (nw_proto f) IPPROTO_SCTP) as [Ep|_].
  { rewrite (parse_sctp_eq b _ Hh) by done. destruct (ports_composed f c4 h Ht Hl 12 g) as [-> ->]; [by right|].
    by eexists. }
  destruct (Z.eqb_spec (nw_proto f) IPPROTO_ICMPV6) as [Ep|_]; [|by eexists].
  destruct (parse_icmpv6_composed b f c4 h g Hh Ht Hl Ep Es Et) as (e & E).
  rewrite E. cbn [rbind orb andb]. by eexists.
Qed.

Lemma ipv6_l4_nothing b h q g : holds b h -> exists b', ipv6_l4 q (cut b (length h)) g = Ok (b', g).
Proof.
  intros Hh. unfold ipv6_l4, parse_icmpv6, pull_icmpv6.
  rewrite (parse_tcp_eq b _ Hh), (parse_udp_eq b _ Hh), (parse_sctp_eq b _ Hh) by done.
  rewrite (try_pull_pulled b _ Hh _ 8) by done. unfold tcp_end, fixed_end.
  repeat (case_decide; [lia|]). cbn [tp_parsed pulled rbind]. repeat case_match; by eexists.
Qed.

Lemma extract_ipv6_composed b f plen c4 h : holds b (h ++ ip6_bytes f plen ++ l4_bytes f c4) ->
  bytes_ok h -> composable f -> in_u16 plen -> in_u16 c4 -> dl_type f = htons ETH_TYPE_IPV6 ->
  exists b', extract_rest b (cut b (length h)) (l2_part f) =
    Ok (b', l4_part IPPROTO_ICMPV6 f (ip6_part f (l2_part f))).
Proof.
  intros Hh Hb Hc U1 U2 Et. pose proof (co_typed _ Hc) as Ht.
  assert (Hb' : bytes_ok (h ++ ip6_bytes f plen ++ l4_bytes f c4)).
  { apply bytes_ok_app; [done|]. apply bytes_ok_app; [by apply ip6_bytes_ok|].
    apply l4_bytes_ok; auto using co_icmp. }
  unfold extract_rest. simpl (dl_type (l2_part f)). rewrite Et.
  change (eth_type_mpls (htons ETH_TYPE_IPV6)) with false. cbn [rbind]. simpl (dl_type (l2_part f)). rewrite Et.
  change (htons ETH_TYPE_IPV6 =? htons ETH_TYPE_IP) with false. rewrite Z.eqb_refl. unfold extract_ipv6.
  rewrite (parse_ipv6_composed b f plen c4 h) by done. cbn [rbind]. change (negb (0 =? 0)) with false. cbv iota zeta.
  assert (L6 : length (h ++ ip6_bytes f plen) = (length h + 40)%nat).
  { pose proof Ht as []. unfold ip6_bytes. rewrite !length_app, (proj2 ft_ipv6_src), (proj2 ft_ipv6_dst). done. }
  rewrite app_assoc in Hh. rewrite <- L6. fold (ipv6_l4 (set_l4 (Some (b_data (cut b (length (h ++ ip6_bytes f plen)))))
    (set_l3 (Some (b_data (cut b (length h)))) (with_layers b (Some (b_data b)) None None None None)))
    (cut b (length (h ++ ip6_bytes f plen))) (ip6_part f (l2_part f))).
  destruct (has_l4 f) eqn:Hl; [by apply (ipv6_l4_composed b f c4)|].
  rewrite (l4_part_none _ _ _ Hl). apply ipv6_l4_nothing.
  unfold l4_bytes in Hh. fold (has_l4 f) in Hh. rewrite Hl, app_nil_r in Hh. done.
Qed.

(** ** Other types *)

Lemma extract_mpls_composed b f h : holds b (h ++ le32_bytes (mpls_lse f)) -> bytes_ok h -> composable f ->
  eth_type_mpls (dl_type f) = true ->
  exists b', extract_rest b (cut b (length h)) (l2_part f) =
    Ok (b', set_flow_mpls_lse (mpls_lse f) (l2_part f)).
Proof.
  intros Hh Hb Hc Em. pose proof (co_typed _ Hc) as []. set (xs := h ++ le32_bytes (mpls_lse f)) in *.
  assert (Lx : length xs = (length h + 4)%nat) by (unfold xs; by rewrite length_app).
  assert (Hb' : bytes_ok xs) by (apply bytes_ok_app; [done|by apply le32_bytes_ok]).
  unfold extract_rest. simpl (dl_type (l2_part f)). rewrite Em.
  assert (Ep : exists c, parse_mpls (cut b (length h)) (l2_part f) =
                         Ok (c, set_flow_mpls_lse (mpls_lse f) (l2_part f))).
  { unfold parse_mpls. rewrite (cut_size b xs Hh) by lia. replace (length xs - length h)%nat with 4%nat by lia.
    change (S (Z.to_nat (Z.of_nat 4))) with 5%nat.
    assert (Un : forall n c top fl, parse_mpls_loop (S n) c top fl =
      let* (mh, c) := ofpbuf_try_pull c MPLS_HLEN in
      match mh with
      | None => Ok (c, fl)
      | Some mh =>
          let* lse := get_16aligned_be32 c mh in
          let fl := if top then set_flow_mpls_lse lse fl else fl in
          if negb (Z.land lse (htonl MPLS_BOS_MASK) =? 0) then Ok (c, fl) else parse_mpls_loop n c false fl
      end) by done.
    rewrite Un.
    rewrite (try_pull_pulled b xs Hh _ 4) by (done || lia). unfold fixed_end. case_decide; [|lia].
    cbn [pulled rbind]. rewrite (cut_be32 b xs Hh Hb' _ (length h)) by lia. cbn [rbind].
    pose proof (f32_app h (le32_bytes (mpls_lse f)) 0) as E0. rewrite Nat.add_0_r in E0. fold xs in E0.
    rewrite E0. change (f32 0 (le32_bytes (mpls_lse f))) with (le_word (le32_bytes (mpls_lse f))).
    rewrite le_word_le32 by done. case_match; [by eexists|].
    rewrite Un. rewrite (try_pull_pulled b xs Hh _ 4) by (done || lia). unfold fixed_end. case_decide; [lia|]. by eexists. }
  destruct Ep as (c & ->). cbn [rbind]. simpl (dl_type (set_flow_mpls_lse _ _)).
  destruct (not_mpls _ Em) as (-> & -> & ->). by eexists.
Qed.

Lemma link_bytes_ok f : flow_typed f -> bytes_ok (link_bytes f).
Proof.
  intros []. destruct ft_dl_src as [Bs Ls], ft_dl_dst as [Bd Ld].
  assert (He : bytes_ok (eth_bytes (dl_dst f) (dl_src f) (ntohs (dl_type f)))).
  { unfold eth_bytes. apply bytes_ok_app; [done|]. apply bytes_ok_app; [done|]. apply le16_bytes_ok, htons_u16. }
  unfold link_bytes, push_tag. case_match; [|done].
  repeat apply bytes_ok_app; try (by apply Forall_take || by apply Forall_drop);
    apply le16_bytes_ok; auto using htons_u16, land_u16.
Qed.

(** A frame without a type. *)
Lemma compose_none b f : roomy b -> flow_typed f -> dl_type f = htons FLOW_DL_TYPE_NONE ->
  exists b', flow_compose b f = Ok b' /\ holds b' (eth_bytes (dl_dst f) (dl_src f) 14).
Proof.
  intros Hr Ht Et. pose proof Ht as []. destruct ft_dl_src as [_ Ls], ft_dl_dst as [_ Ld].
  destruct (eth_compose_room b (dl_dst f) (dl_src f) (ntohs (dl_type f)) Hr Ld Ls)
    as (p & b1 & E1 & H1 & _ & _ & _ & D1 & L1 & _).
  unfold flow_compose. rewrite E1. cbn [rbind]. rewrite Et, Z.eqb_refl, L1. cbn [the rbind].
  assert (Hl : length (eth_bytes (dl_dst f) (dl_src f) (ntohs (dl_type f))) = 14%nat)
    by (unfold eth_bytes; by rewrite !length_app, Ls, Ld).
  rewrite <- (holds_length _ _ H1), Hl.
  destruct (st16_at b1 _ H1 12 (6 + eth_type_ofs) (htons (Z.of_nat 14))) as (b' & E & H' & _);
    [unfold eth_type_ofs; lia|lia|apply htons_u16|].
  exists b'. split; [done|].
  destruct (explicit6 _ Ls) as (?&?&?&?&?&?& Es), (explicit6 _ Ld) as (?&?&?&?&?&?& Ed).
  unfold eth_bytes in *. rewrite Es, Ed in *. exact H'.
Qed.

Lemma extract_none b f dst src : holds b (eth_bytes dst src 14) -> length dst = 6%nat -> length src = 6%nat ->
  dst = dl_dst f -> src = dl_src f -> dl_type f = htons FLOW_DL_TYPE_NONE ->
  exists b', flow_extract b (skb_priority f) (pkt_mark f) (Some (tunnel f)) (Some (in_port f)) =
    Ok (b', set_vlan_tci 0 (l2_part f)).
Proof.
  intros Hh Ld Ls Ed Es Et.
  destruct (explicit6 _ Ls) as (?&?&?&?&?&?& Es'), (explicit6 _ Ld) as (?&?&?&?&?&?& Ed'). subst src dst.
  unfold eth_bytes in Hh. rewrite Es', Ed' in Hh.
  rewrite (flow_extract_eq b _ _ _ _ _ Hh) by (simpl; lia).
  eexists. cbn -[htons set_vlan_tci l2_part extract_rest cut]. unfold l2_part. rewrite Et, Ed', Es'. reflexivity.
Qed.

(** C13. A flow composed into a packet in a buffer with room, and extracted again,
    comes back with exactly the fields that such a packet carries ([canonical]):
    for IPv4, IPv6, ARP, RARP, MPLS and other types, with or without a tag,
    with TCP, UDP, SCTP, ICMP, ICMPv6 and neighbor discovery.  In particular a
    flow that has no other fields comes back unchanged. *)
Theorem flow_compose_extract b f : roomy b -> b_source b <> OFPBUF_STACK -> composable f ->
  exists b' b'', flow_compose b f = Ok b' /\
    flow_extract b' (skb_priority f) (pkt_mark f) (Some (tunnel f)) (Some (in_port f)) =
      Ok (b'', canonical f).
Proof.
  intros Hr Hs Hc. pose proof (co_typed _ Hc) as Ht. unfold canonical.
  destruct (Z.eqb_spec (dl_type f) (htons FLOW_DL_TYPE_NONE)) as [En|En].
  { destruct (compose_none b f Hr Ht En) as (b' & E & H'). exists b'.
    destruct (extract_none b' f _ _ H') as (b'' & E''); try done; [apply Ht..|]. by exists b''. }
  destruct (co_type _ Hc) as [?|[Hm Hv]]; [done|].
  destruct (flow_compose_bytes b f Hr Hs Ht (co_icmp _ Hc) En) as (b' & p & E & H' & Hp). exists b'.
  destruct (link_composed f p (skb_priority f) (pkt_mark f) (Some (tunnel f)) (Some (in_port f)) Ht Hm Hv)
    as (k & Ee & El).
  assert (Hlen : (14 <= length (link_bytes f ++ p))%nat).
  { rewrite length_app, length_link_bytes by done. case_match; lia. }
  rewrite (flow_extract_eq b' _ _ _ _ _ H' Hlen). unfold link_flow in El. rewrite El, Ee, start_flow.
  pose proof (link_bytes_ok f Ht) as Hb. rewrite E. unfold payload in Hp.
  destruct (Z.eqb_spec (dl_type f) (htons ETH_TYPE_IP)) as [Et|N1].
  { destruct Hp as (tot & c & c4 & U1 & U2 & U3 & ->).
    destruct (extract_ip_composed b' f tot c c4 (link_bytes f)) as (b'' & ->); try done. by exists b''. }
  destruct (Z.eqb_spec (dl_type f) (htons ETH_TYPE_IPV6)) as [Et|N2].
  { destruct Hp as (plen & c4 & U1 & U2 & ->).
    destruct (extract_ipv6_composed b' f plen c4 (link_bytes f)) as (b'' & ->); try done. by exists b''. }
  destruct ((dl_type f =? htons ETH_TYPE_ARP) || (dl_type f =? htons ETH_TYPE_RARP)) eqn:Ea.
  { subst p. destruct (extract_arp_composed b' f (link_bytes f)) as (b'' & ->); try done; [|by exists b''].
    apply orb_true_iff in Ea as [?%Z.eqb_eq|?%Z.eqb_eq]; auto. }
  destruct (eth_type_mpls (dl_type f)) eqn:Em.
  { subst p. destruct (extract_mpls_composed b' f (link_bytes f)) as (b'' & ->); try done. by exists b''. }
  subst p. unfold extract_rest. simpl (dl_type (l2_part f)). rewrite Em. cbn [rbind].
  simpl (dl_type (l2_part f)). apply Z.eqb_neq in N1 as ->, N2 as ->. rewrite Ea. by eexists.
Qed.

(** A neighbor solicitation, and a TCP packet, both over IPv6. *)
Definition ipv6_example (proto src : Z) (target sha : list Z) : flow :=
  Mk_flow zero_tnl 0 (replicate 8 0) 7 0 3 [0; 35; 32; 0; 0; 2] [0; 35; 32; 0; 0; 1] (htons ETH_TYPE_IPV6)
    (htons 0x1005) 0 (replicate 15 7 ++ [2]) (replicate 15 7 ++ [1]) target 0 0 0 0 32 255 proto
    sha (replicate 6 0) 0 0 src 0.
Definition nd_flow : flow :=
  ipv6_example IPPROTO_ICMPV6 (htons 135) (replicate 15 0 ++ [1]) [0; 35; 32; 0; 0; 2].
Definition tcp6_flow : flow := ipv6_example IPPROTO_TCP (htons 80) (replicate 16 0) (replicate 6 0).

Definition test_buffer (n : Z) : ofpbuf := ofpbuf_new 1 n.

Lemma nd_flow_typed : flow_typed nd_flow.
Proof.
  assert (Hb : forall l, forallb (fun b => (0 <=? b) && (b <? 256)) l = true -> bytes_n (length l) l)
    by (intros l Hl; split; [by apply bytes_ok_dec|done]).
  split; simpl; try (by apply Hb); try apply htons_u16; try (unfold in_u8, in_u16, in_u32, in_u64; lia); try done.
  split; [|done]. repeat constructor; unfold in_u32; lia.
Qed.

Lemma nd_flow_composable : composable nd_flow.
Proof.
  split.
  - exact nd_flow_typed.
  - right. split; vm_compute; discriminate.
  - intros _. split; split; vm_compute; congruence.
  - reflexivity.
  - reflexivity.
  - intros _. rewrite !not_elem_of_cons. split_and!; try (vm_compute; discriminate). apply not_elem_of_nil.
Qed.

Lemma flow_compose_extract_witness :
  canonical nd_flow = nd_flow /\
  exists b' b'', flow_compose (test_buffer 128) nd_flow = Ok b' /\
    flow_extract b' 7 0 (Some zero_tnl) (Some 3) = Ok (b'', nd_flow).
Proof.
  assert (E : canonical nd_flow = nd_flow) by reflexivity. split; [exact E|].
  destruct (flow_compose_extract (test_buffer 128) nd_flow) as (b' & b'' & E1 & E2).
  - split; [split; vm_compute; congruence|]. split; [vm_compute; discriminate|reflexivity].
  - discriminate.
  - exact nd_flow_composable.
  - exists b', b''. split; [exact E1|]. rewrite E in E2. exact E2.
Defined.

(** Without room, the header pointer that [flow_compose] keeps is left behind by
    the reallocation: an IPv6 packet with a TCP header in an empty buffer. *)
Lemma compose_use_after_free :
  flow_compose (test_buffer 0) tcp6_flow = Fault UseAfterFree.
Proof. reflexivity. Qed.
