(* ===== verification/Miniflow.v ===== *)
(** * Compressed flows and masks ([lib/flow.c], [lib/flow.h], [lib/match.c])

    A [struct flow] seen as an array of 32-bit words, masks of flows
    ([struct flow_wildcards]), and the sparse representation of both
    ([struct miniflow], [struct minimask], [struct minimatch]) that the flow
    tables are made of: a map of the words that are present, and their values
    in an array that is part of the structure, allocated, or provided by the
    caller.

    A flow is the list of its words, [flow_u32] the cast from the structure.
    The number of words depends on the padding of the structure: 44 on i686 and
    46 on x86-64.  Pointers into arrays of values are indices; loads outside an
    array and of values never stored are faults. *)

From Stdlib Require Import ZArith Lia List Bool.
From stdpp Require Import base option list_relations list.
From S2P Require Import Prelude Bytes Hash Csum Packets Bits Flow.
#[local] Open Scope Z_scope.
#[local] Open Scope res_scope.

(** ** The program: flows as words *)

Definition word (l : list Z) (i : Z) : Res Z :=
  match l !! Z.to_nat i with Some v => Ok v | None => Fault OutOfBounds end.

Definition set_word (l : list Z) (i v : Z) : Res (list Z) :=
  if decide (Z.to_nat i < length l)%nat then Ok (<[Z.to_nat i := v]> l) else Fault OutOfBounds.

Section Target.
Variable target : abi.

Definition is_64bit : bool := (u64_align target =? 8)%nat.

Definition sizeof_flow_tnl : nat := align_up 20 (u64_align target).
Definition sizeof_flow : nat := align_up (sizeof_flow_tnl + 156) (u64_align target).
Definition FLOW_U32S : nat := (sizeof_flow / 4)%nat.
Definition MINI_N_INLINE : Z := if is_64bit then 8 else 7.

(** Offsets in [struct flow]. *)
Definition metadata_ofs : nat := sizeof_flow_tnl.
Definition regs_ofs : nat := (sizeof_flow_tnl + 8)%nat.
Definition vlan_tci_ofs : nat := (sizeof_flow_tnl + 66)%nat.

Definition le64_bytes (x : Z) : list Z := le32_bytes (x mod 2 ^ 32) ++ le32_bytes (x / 2 ^ 32).

Definition tnl_bytes (t : flow_tnl) : list Z :=
  le64_bytes (tun_id t) ++ le32_bytes (ip_src t) ++ le32_bytes (ip_dst t) ++ le16_bytes (flags t)
  ++ [ip_tos t; ip_ttl t] ++ replicate (sizeof_flow_tnl - 20) 0.

(** The bytes of the structure on a little-endian host, with its padding. *)
Definition flow_bytes (f : flow) : list Z :=
  tnl_bytes (tunnel f) ++ le64_bytes (metadata f) ++ concat (map le32_bytes (regs f))
  ++ le32_bytes (skb_priority f) ++ le32_bytes (pkt_mark f) ++ le32_bytes (in_port f)
  ++ dl_src f ++ dl_dst f ++ le16_bytes (dl_type f) ++ le16_bytes (vlan_tci f)
  ++ le32_bytes (mpls_lse f) ++ ipv6_src f ++ ipv6_dst f ++ nd_target f
  ++ le32_bytes (ipv6_label f) ++ le32_bytes (nw_src f) ++ le32_bytes (nw_dst f)
  ++ [nw_frag f; nw_tos f; nw_ttl f; nw_proto f] ++ arp_sha f ++ arp_tha f
  ++ le16_bytes (tcp_flags f) ++ le16_bytes (pad f) ++ le16_bytes (tp_src f) ++ le16_bytes (tp_dst f)
  ++ replicate (sizeof_flow - (sizeof_flow_tnl + 156)) 0.

(** [(const uint32_t * ) flow] *)
Definition flow_u32 (f : flow) : list Z := words32 (flow_bytes f).

Definition flow_equal (a b : list Z) : bool := bool_decide (a = b).
Definition flow_hash (flow : list Z) (basis : Z) : Z := hash_words flow basis.

(** ** The program: masks *)

Definition flow_zero_wildcards (flow wildcards : list Z) : list Z := zip_with Z.land flow wildcards.

Definition flow_wildcards_init_catchall : list Z := replicate FLOW_U32S 0.

Definition flow_wildcards_clear_non_packet_fields (wc : list Z) : list Z :=
  take (metadata_ofs / 4) wc ++ replicate (2 + FLOW_N_REGS) 0
  ++ drop (metadata_ofs / 4 + 2 + FLOW_N_REGS) wc.

Definition flow_wildcards_is_catchall (wc : list Z) : bool := forallb (fun w => w =? 0) wc.

Definition flow_wildcards_and (src1 src2 : list Z) : list Z := zip_with Z.land src1 src2.
Definition flow_wildcards_or (src1 src2 : list Z) : list Z := zip_with Z.lor src1 src2.

Definition flow_wildcards_hash (wc : list Z) (basis : Z) : Z := flow_hash wc basis.
Definition flow_wildcards_equal (a b : list Z) : bool := flow_equal a b.

Fixpoint flow_wildcards_has_extra (a b : list Z) : bool :=
  match a, b with
  | x :: a, y :: b => if negb (Z.land x y =? y) then true else flow_wildcards_has_extra a b
  | _, _ => false
  end.

Fixpoint flow_equal_except (a b wc : list Z) : bool :=
  match a, b, wc with
  | x :: a, y :: b, m :: wc => if negb (Z.land (Z.lxor x y) m =? 0) then false else flow_equal_except a b wc
  | _, _, _ => true
  end.

Definition flow_wildcards_set_reg_mask (wc : list Z) (idx mask : Z) : Res (list Z) :=
  set_word wc (Z.of_nat (regs_ofs / 4) + idx) mask.

Definition flow_hash_in_wildcards (flow wc : list Z) (basis : Z) : Z :=
  mhash_finish (fold_left mhash_add (zip_with Z.land flow wc) basis) (4 * Z.of_nat FLOW_U32S).

(** ** The program: compressed flows *)

(** Where [values] points to. *)
Inductive values_ptr :=
  | Inline
  | Heap (block : cbuf)
  | Storage (block : cbuf).

Record miniflow := Mk_miniflow {
  mf_map : Z;
  mf_values : values_ptr;
  inline_values : cbuf
}.

Record minimask := Mk_minimask { masks : miniflow }.

Definition values (mf : miniflow) : cbuf :=
  match mf_values mf with Inline => inline_values mf | Heap b => b | Storage b => b end.

(** [flow->values[k]] *)
Definition ld_value (mf : miniflow) (k : Z) : Res Z :=
  match values mf !! Z.to_nat k with
  | Some (Some v) => Ok v
  | Some None => Fault UninitRead
  | None => Fault OutOfBounds
  end.

(** New contents for the array [flow->values] points to. *)
Definition with_block (mf : miniflow) (b : cbuf) : miniflow :=
  match mf_values mf with
  | Inline => Mk_miniflow (mf_map mf) Inline b
  | Heap _ => Mk_miniflow (mf_map mf) (Heap b) (inline_values mf)
  | Storage _ => Mk_miniflow (mf_map mf) (Storage b) (inline_values mf)
  end.

(** [flow->values[k] = v] *)
Definition st_value (mf : miniflow) (k v : Z) : Res miniflow :=
  if decide (Z.to_nat k < length (values mf))%nat
  then Ok (with_block mf (<[Z.to_nat k := Some v]> (values mf)))
  else Fault OutOfBounds.

Definition set_map (mf : miniflow) (map : Z) : miniflow :=
  Mk_miniflow map (mf_values mf) (inline_values mf).
Definition set_values (mf : miniflow) (p : values_ptr) : miniflow :=
  Mk_miniflow (mf_map mf) p (inline_values mf).

Definition miniflow_n_values (flow : miniflow) : Z := count_1bits target (mf_map flow).

Definition miniflow_alloc_values (n : Z) : values_ptr :=
  if n <=? MINI_N_INLINE then Inline else Heap (replicate (Z.to_nat n) None).

Definition miniflow_init__ (dst : miniflow) (src_u32 : list Z) (n : Z) : Res miniflow :=
  let dst := set_values dst (miniflow_alloc_values n) in
  let* (dst, _) := for_map (mf_map dst) (fun map '(dst, ofs) =>
      let* v := word src_u32 (raw_ctz map) in
      let* dst := st_value dst ofs v in
      Ok (dst, ofs + 1)) (dst, 0) in
  Ok dst.

(** The loop of [miniflow_init] over the words from number [i] on. *)
Fixpoint init_map (src_u32 : list Z) (i map n : Z) : Z * Z :=
  match src_u32 with
  | [] => (map, n)
  | w :: src_u32 =>
      if w =? 0 then init_map src_u32 (i + 1) map n
      else init_map src_u32 (i + 1) (Z.lor map (u64 (Z.shiftl 1 i))) (n + 1)
  end.

Definition miniflow_init (dst : miniflow) (src_u32 : list Z) : Res miniflow :=
  let '(map, n) := init_map src_u32 0 0 0 in
  miniflow_init__ (set_map dst map) src_u32 n.

Definition miniflow_init_with_minimask (dst : miniflow) (src_u32 : list Z) (mask : minimask) : Res miniflow :=
  let dst := set_map dst (mf_map (masks mask)) in
  miniflow_init__ dst src_u32 (miniflow_n_values dst).

(** [memcpy(dst->values, src->values, n * sizeof *dst->values)] *)
Definition copy_values (dst src : miniflow) (n : Z) : Res miniflow :=
  let k := Z.to_nat n in
  if decide (k <= length (values src) /\ k <= length (values dst))%nat
  then Ok (with_block dst (take k (values src) ++ drop k (values dst)))
  else Fault OutOfBounds.

Definition miniflow_clone (dst src : miniflow) : Res miniflow :=
  let n := miniflow_n_values src in
  let dst := set_map dst (mf_map src) in
  let dst := set_values dst (miniflow_alloc_values n) in
  copy_values dst src n.

Definition miniflow_move (dst src : miniflow) : Res miniflow :=
  let* dst := match mf_values src with
              | Inline => copy_values (set_values dst Inline) src (miniflow_n_values src)
              | p => Ok (set_values dst p)
              end in
  Ok (set_map dst (mf_map src)).

(** What is freed; the storage of a caller must not be. *)
Definition miniflow_destroy (flow : miniflow) : Res (option cbuf) :=
  match mf_values flow with
  | Inline => Ok None
  | Heap b => Ok (Some b)
  | Storage _ => Fault UseAfterFree
  end.

Definition flow_union_with_miniflow (dst_u32 : list Z) (src : miniflow) : Res (list Z) :=
  let* (dst_u32, _) := for_map (mf_map src) (fun map '(dst_u32, p) =>
      let* v := ld_value src p in
      let* w := word dst_u32 (raw_ctz map) in
      let* dst_u32 := set_word dst_u32 (raw_ctz map) (Z.lor w v) in
      Ok (dst_u32, p + 1)) (dst_u32, 0) in
  Ok dst_u32.

Definition miniflow_expand (src : miniflow) : Res (list Z) :=
  flow_union_with_miniflow (replicate FLOW_U32S 0) src.

(** The load through the pointer that [miniflow_get__] returns. *)
Definition miniflow_get__ (flow : miniflow) (u32_ofs : Z) : Res Z :=
  if Z.land (mf_map flow) (u64 (Z.shiftl 1 u32_ofs)) =? 0 then Ok 0
  else ld_value flow (count_1bits target (Z.land (mf_map flow) (u64 (u64 (Z.shiftl 1 u32_ofs) - 1)))).

Definition miniflow_get (flow : miniflow) (u32_ofs : Z) : Res Z := miniflow_get__ flow u32_ofs.

Definition miniflow_get_be16 (flow : miniflow) (u8_ofs : Z) : Res Z :=
  let* u := miniflow_get__ flow (u8_ofs / 4) in
  Ok (if u8_ofs mod 4 =? 0 then u mod 2 ^ 16 else u / 2 ^ 16).

Definition vlan_tci_to_vid (vlan_tci : Z) : Z := Z.land (ntohs vlan_tci) VLAN_VID_MASK.

Definition miniflow_get_vid (flow : miniflow) : Res Z :=
  let* tci := miniflow_get_be16 flow (Z.of_nat vlan_tci_ofs) in
  Ok (vlan_tci_to_vid tci).

Definition htonll (n : Z) : Z := ntohll n.

Definition miniflow_get_metadata (flow : miniflow) : Res Z :=
  let* hi := miniflow_get flow (Z.of_nat (metadata_ofs / 4)) in
  let* lo := miniflow_get flow (Z.of_nat (metadata_ofs / 4) + 1) in
  Ok (htonll (Z.lor (u64 (Z.shiftl (ntohl hi) 32)) (ntohl lo))).

(** The loops of [miniflow_equal]: over the common map of both, and over the
    union of two maps. *)
Definition equal_same_map (a b : miniflow) (a_map : Z) : Res bool :=
  let* r := for_each_1bit 64 a_map (fun map '(ap, bp) =>
      let* x := ld_value a ap in
      let* y := ld_value b bp in
      Ok (if negb (x =? y) then inr false else inl (ap + 1, bp + 1))) (0, 0) in
  Ok (match r with inl _ => true | inr r => r end).

Definition equal_any_map (a b : miniflow) (a_map b_map : Z) : Res bool :=
  let* r := for_each_1bit 64 (Z.lor a_map b_map) (fun map '(ap, bp) =>
      let bit := rightmost_1bit map in
      let* (a_value, ap) := if Z.land a_map bit =? 0 then Ok (0, ap)
                            else let* v := ld_value a ap in Ok (v, ap + 1) in
      let* (b_value, bp) := if Z.land b_map bit =? 0 then Ok (0, bp)
                            else let* v := ld_value b bp in Ok (v, bp + 1) in
      Ok (if negb (a_value =? b_value) then inr false else inl (ap, bp))) (0, 0) in
  Ok (match r with inl _ => true | inr r => r end).

Definition miniflow_equal (a b : miniflow) : Res bool :=
  if mf_map a =? mf_map b then equal_same_map a b (mf_map a)
  else equal_any_map a b (mf_map a) (mf_map b).

Definition miniflow_equal_in_minimask (a b : miniflow) (mask : minimask) : Res bool :=
  let* r := for_each_1bit 64 (mf_map (masks mask)) (fun map p =>
      let ofs := raw_ctz map in
      let* x := miniflow_get a ofs in
      let* y := miniflow_get b ofs in
      let* m := ld_value (masks mask) p in
      Ok (if negb (Z.land (Z.lxor x y) m =? 0) then inr false else inl (p + 1))) 0 in
  Ok (match r with inl _ => true | inr r => r end).

Definition miniflow_equal_flow_in_minimask (a : miniflow) (b_u32 : list Z) (mask : minimask) : Res bool :=
  let* r := for_each_1bit 64 (mf_map (masks mask)) (fun map p =>
      let ofs := raw_ctz map in
      let* x := miniflow_get a ofs in
      let* y := word b_u32 ofs in
      let* m := ld_value (masks mask) p in
      Ok (if negb (Z.land (Z.lxor x y) m =? 0) then inr false else inl (p + 1))) 0 in
  Ok (match r with inl _ => true | inr r => r end).

Definition miniflow_hash (flow : miniflow) (basis : Z) : Res Z :=
  let* (p, hash, hash_map) := for_map (mf_map flow) (fun map '(p, hash, hash_map) =>
      let* v := ld_value flow p in
      Ok (if v =? 0 then (p + 1, hash, hash_map)
          else (p + 1, mhash_add hash v, Z.lor hash_map (rightmost_1bit map)))) (0, basis, 0) in
  let hash := mhash_add hash (u32 hash_map) in
  let hash := mhash_add hash (u32 (Z.shiftr hash_map 32)) in
  Ok (mhash_finish hash p).

Definition miniflow_hash_in_minimask (flow : miniflow) (mask : minimask) (basis : Z) : Res Z :=
  let* (p, hash) := for_map (mf_map (masks mask)) (fun map '(p, hash) =>
      let* v := miniflow_get flow (raw_ctz map) in
      let* m := ld_value (masks mask) p in
      Ok (p + 1, mhash_add hash (Z.land v m))) (0, basis) in
  Ok (mhash_finish hash (p * 4)).

Definition flow_hash_in_minimask (flow_u32 : list Z) (mask : minimask) (basis : Z) : Res Z :=
  let* (p, hash) := for_map (mf_map (masks mask)) (fun map '(p, hash) =>
      let* v := word flow_u32 (raw_ctz map) in
      let* m := ld_value (masks mask) p in
      Ok (p + 1, mhash_add hash (Z.land v m))) (0, basis) in
  Ok (mhash_finish hash (p * 4)).

(** The map of the words in [start, end), and the number of values before. *)
Definition miniflow_get_map_in_range (flow : miniflow) (start end_ : Z) : Z * Z :=
  let map := mf_map flow in
  let '(map, offset) :=
    if 0 <? start
    then let msk := u64 (u64 (Z.shiftl 1 start) - 1) in
         (Z.land map (u64 (Z.lnot msk)), count_1bits target (Z.land map msk))
    else (map, 0) in
  let map := if end_ <? Z.of_nat FLOW_U32S then Z.land map (u64 (u64 (Z.shiftl 1 end_) - 1)) else map in
  (map, offset).

(** The hash, and the unfinished value left in [*basis]. *)
Definition flow_hash_in_minimask_range (flow_u32 : list Z) (mask : minimask) (start end_ basis : Z)
    : Res (Z * Z) :=
  let '(map, offset) := miniflow_get_map_in_range (masks mask) start end_ in
  let* (p, hash) := for_map map (fun map '(p, hash) =>
      let* v := word flow_u32 (raw_ctz map) in
      let* m := ld_value (masks mask) p in
      Ok (p + 1, mhash_add hash (Z.land v m))) (offset, basis) in
  Ok (mhash_finish hash (p * 4), hash).

Definition flow_wildcards_fold_minimask (wc : list Z) (mask : minimask) : Res (list Z) :=
  flow_union_with_miniflow wc (masks mask).

Definition flow_wildcards_fold_minimask_range (wc : list Z) (mask : minimask) (start end_ : Z) : Res (list Z) :=
  let '(map, offset) := miniflow_get_map_in_range (masks mask) start end_ in
  let* (dst_u32, _) := for_map map (fun map '(dst_u32, p) =>
      let* v := ld_value (masks mask) p in
      let* w := word dst_u32 (raw_ctz map) in
      let* dst_u32 := set_word dst_u32 (raw_ctz map) (Z.lor w v) in
      Ok (dst_u32, p + 1)) (wc, offset) in
  Ok dst_u32.

(** ** The program: compressed masks *)

Definition minimask_init (mask : minimask) (wc : list Z) : Res minimask :=
  rmap Mk_minimask (miniflow_init (masks mask) wc).
Definition minimask_clone (dst src : minimask) : Res minimask :=
  rmap Mk_minimask (miniflow_clone (masks dst) (masks src)).
Definition minimask_move (dst src : minimask) : Res minimask :=
  rmap Mk_minimask (miniflow_move (masks dst) (masks src)).
Definition minimask_destroy (mask : minimask) : Res (option cbuf) := miniflow_destroy (masks mask).
Definition minimask_expand (mask : minimask) : Res (list Z) := miniflow_expand (masks mask).
Definition minimask_get (mask : minimask) (u32_ofs : Z) : Res Z := miniflow_get (masks mask) u32_ofs.
Definition minimask_get_vid_mask (mask : minimask) : Res Z := miniflow_get_vid (masks mask).
Definition minimask_get_metadata_mask (mask : minimask) : Res Z := miniflow_get_metadata (masks mask).
Definition minimask_equal (a b : minimask) : Res bool := miniflow_equal (masks a) (masks b).
Definition minimask_hash (mask : minimask) (basis : Z) : Res Z := miniflow_hash (masks mask) basis.

Definition minimask_combine (dst_ a_ b_ : minimask) (storage : cbuf) : Res minimask :=
  let a := masks a_ in
  let b := masks b_ in
  let dst := set_map (set_values (masks dst_) (Storage storage)) 0 in
  let* (dst, _) := for_map (Z.land (mf_map a) (mf_map b)) (fun map '(dst, n) =>
      let ofs := raw_ctz map in
      let* x := miniflow_get a ofs in
      let* y := miniflow_get b ofs in
      let mask := Z.land x y in
      if mask =? 0 then Ok (dst, n)
      else let dst := set_map dst (Z.lor (mf_map dst) (rightmost_1bit map)) in
           let* dst := st_value dst n mask in
           Ok (dst, n + 1)) (dst, 0) in
  Ok (Mk_minimask dst).

Definition minimask_has_extra (a_ b_ : minimask) : Res bool :=
  let a := masks a_ in
  let b := masks b_ in
  let* r := for_each_1bit 64 (Z.lor (mf_map a) (mf_map b)) (fun map (_ : unit) =>
      let ofs := raw_ctz map in
      let* a_u32 := miniflow_get a ofs in
      let* b_u32 := miniflow_get b ofs in
      Ok (if negb (Z.land a_u32 b_u32 =? b_u32) then inr true else inl tt)) tt in
  Ok (match r with inl _ => false | inr r => r end).

Definition minimask_is_catchall (mask_ : minimask) : Res bool :=
  let mask := masks mask_ in
  let* r := for_each_1bit 64 (mf_map mask) (fun map p =>
      let* v := ld_value mask p in
      Ok (if negb (v =? 0) then inr false else inl (p + 1))) 0 in
  Ok (match r with inl _ => true | inr r => r end).

(** ** The program: compressed matches *)

(** [struct match], its flow and its mask as words. *)
Record match_ := Mk_match { match_flow : list Z; match_wc : list Z }.

Record minimatch := Mk_minimatch { mm_flow : miniflow; mm_mask : minimask }.

Definition minimatch_init (dst : minimatch) (src : match_) : Res minimatch :=
  let* mask := minimask_init (mm_mask dst) (match_wc src) in
  let* flow := miniflow_init_with_minimask (mm_flow dst) (match_flow src) mask in
  Ok (Mk_minimatch flow mask).

Definition minimatch_clone (dst src : minimatch) : Res minimatch :=
  let* flow := miniflow_clone (mm_flow dst) (mm_flow src) in
  let* mask := minimask_clone (mm_mask dst) (mm_mask src) in
  Ok (Mk_minimatch flow mask).

Definition minimatch_move (dst src : minimatch) : Res minimatch :=
  let* flow := miniflow_move (mm_flow dst) (mm_flow src) in
  let* mask := minimask_move (mm_mask dst) (mm_mask src) in
  Ok (Mk_minimatch flow mask).

Definition minimatch_destroy (m : minimatch) : Res (option cbuf * option cbuf) :=
  let* x := miniflow_destroy (mm_flow m) in
  let* y := minimask_destroy (mm_mask m) in
  Ok (x, y).

Definition minimatch_expand (src : minimatch) : Res match_ :=
  let* flow := miniflow_expand (mm_flow src) in
  let* wc := minimask_expand (mm_mask src) in
  Ok (Mk_match flow wc).

Definition minimatch_equal (a b : minimatch) : Res bool :=
  let* x := miniflow_equal (mm_flow a) (mm_flow b) in
  if x then minimask_equal (mm_mask a) (mm_mask b) else Ok false.

Definition minimatch_hash (m : minimatch) (basis : Z) : Res Z :=
  let* h := minimask_hash (mm_mask m) basis in
  miniflow_hash (mm_flow m) h.

Definition minimatch_matches_flow (m : minimatch) (target_u32 : list Z) : Res bool :=
  let* r := for_each_1bit 64 (mf_map (mm_flow m)) (fun map '(flowp, maskp) =>
      let* x := ld_value (mm_flow m) flowp in
      let* y := word target_u32 (raw_ctz map) in
      let* k := ld_value (masks (mm_mask m)) maskp in
      Ok (if negb (Z.land (Z.lxor x y) k =? 0) then inr false else inl (flowp + 1, maskp + 1))) (0, 0) in
  Ok (match r with inl _ => true | inr r => r end).

(** The loop of [minimatch_hash_range] with [n] steps to go. *)
Fixpoint hash_range_loop (m : minimatch) (offset : Z) (n : nat) (i hash : Z) : Res Z :=
  match n with
  | O => Ok hash
  | S n =>
      let* p := ld_value (mm_flow m) (offset + i) in
      let* q := ld_value (masks (mm_mask m)) (offset + i) in
      hash_range_loop m offset n (i + 1) (mhash_add hash (Z.land p q))
  end.

Definition minimatch_hash_range (m : minimatch) (start end_ basis : Z) : Res (Z * Z) :=
  let '(map, offset) := miniflow_get_map_in_range (masks (mm_mask m)) start end_ in
  let n := count_1bits target map in
  let* hash := hash_range_loop m offset (Z.to_nat n) 0 basis in
  Ok (mhash_finish hash ((offset + n) * 4), hash).

End Target.
