(* ===== verification/MiniflowFacts.v ===== *)
(** * Compressed flows: representation and loops

    [mf_rep mf w] says that the compressed flow [mf] stands for the words [w]:
    words outside the map are zero and the values array starts with the words
    in the map, in order.  Each operation of [Miniflow] has a lemma that gives
    its result in terms of the words. *)

From Stdlib Require Import ZArith Lia List Bool.
From stdpp Require Import base option list_relations list sets.
From S2P Require Import Prelude Bytes Hash Csum Packets Bits Flow Miniflow.
#[local] Open Scope Z_scope.
#[local] Open Scope res_scope.

(** ** Bits of maps *)

Lemma one_bits_restrict n m s e : (s <= e <= 64)%nat ->
  (forall i, (i < 64)%nat -> Z.testbit m (Z.of_nat i) =
     if decide (s <= i < e)%nat then Z.testbit n (Z.of_nat i) else false) ->
  one_bits m = one_bits_from s (e - s) n.
Proof.
  intros Hse H. unfold one_bits. rewrite (one_bits_split 0 64 m s), (one_bits_split (0 + s) (64 - s) m (e - s)) by lia.
  rewrite (one_bits_none 0 s m), (one_bits_none (0 + s + (e - s)) _ m).
  - cbn [app]. rewrite app_nil_r. apply one_bits_from_ext. intros i Hi. rewrite H, decide_True by lia. done.
  - intros i Hi. rewrite H, decide_False by lia. done.
  - intros i Hi. rewrite H, decide_False by lia. done.
Qed.

Lemma bit_word i : (i < 64)%nat -> u64 (Z.shiftl 1 (Z.of_nat i)) = 2 ^ Z.of_nat i.
Proof.
  intros Hi. rewrite Z.shiftl_mul_pow2, Z.mul_1_l by lia. apply u64_id.
  split; [lia|]. apply Z.pow_lt_mono_r; lia.
Qed.

Lemma low_mask i : (i < 64)%nat -> u64 (2 ^ Z.of_nat i - 1) = 2 ^ Z.of_nat i - 1.
Proof.
  intros Hi. apply u64_id. assert (0 < 2 ^ Z.of_nat i) by lia.
  assert (2 ^ Z.of_nat i < 2 ^ 64) by (apply Z.pow_lt_mono_r; lia). unfold in_u64. lia.
Qed.

Lemma testbit_low_mask i j : (j < 64)%nat ->
  Z.testbit (2 ^ Z.of_nat i - 1) (Z.of_nat j) = bool_decide (j < i)%nat.
Proof.
  intros Hj. replace (2 ^ Z.of_nat i - 1) with (Z.ones (Z.of_nat i)) by (rewrite Z.ones_equiv; lia).
  case_bool_decide; [apply Z.ones_spec_low | apply Z.ones_spec_high]; lia.
Qed.

Lemma land_one_bit n i : (Z.land n (2 ^ Z.of_nat i) =? 0) = negb (Z.testbit n (Z.of_nat i)).
Proof.
  destruct (Z.testbit n (Z.of_nat i)) eqn:E; cbn [negb].
  - apply Z.eqb_neq. intros H. assert (Z.testbit (Z.land n (2 ^ Z.of_nat i)) (Z.of_nat i) = true) as H'.
    { rewrite Z.land_spec, E, Z.pow2_bits_true by lia. done. }
    rewrite H, Z.testbit_0_l in H'. done.
  - apply Z.eqb_eq. apply Z.bits_inj'. intros j Hj. rewrite Z.land_spec, Z.testbit_0_l.
    destruct (Z.eq_dec j (Z.of_nat i)) as [->|Hn]; [rewrite E; done|].
    rewrite Z.pow2_bits_false by lia. apply andb_false_r.
Qed.

Lemma one_bits_below n i : (i < 64)%nat -> one_bits (Z.land n (2 ^ Z.of_nat i - 1)) = one_bits_from 0 i n.
Proof.
  intros Hi. rewrite (one_bits_restrict n _ 0 i); [f_equal; lia | lia |].
  intros j Hj. rewrite Z.land_spec, testbit_low_mask by lia.
  case_bool_decide; [rewrite decide_True by lia; apply andb_true_r | rewrite decide_False by lia; apply andb_false_r].
Qed.

(** The map as what comes before a position, the position, and what follows. *)
Lemma one_bits_at n i : (i < 64)%nat -> Z.testbit n (Z.of_nat i) = true ->
  one_bits n = one_bits_from 0 i n ++ i :: one_bits_from (S i) (63 - i) n.
Proof.
  intros Hi Hb. unfold one_bits at 1. rewrite (one_bits_split 0 64 n i) by lia. f_equal.
  rewrite (one_bits_split (0 + i) (64 - i) n 1) by lia.
  unfold one_bits_from at 1. cbn [seq]. rewrite filter_cons, decide_True, Nat.add_0_l by (rewrite Nat.add_0_l; done).
  cbn [filter list_filter app]. f_equal. f_equal; lia.
Qed.

Lemma one_bits_elem n pre i post : one_bits n = pre ++ i :: post ->
  Z.testbit n (Z.of_nat i) = true /\ (i < 64)%nat.
Proof. intros E. apply elem_of_one_bits. rewrite E. set_solver. Qed.

Lemma split_at_elem {A} (i : A) pre post l l2 : pre ++ i :: post = l ++ i :: l2 -> i ∉ pre -> i ∉ l -> pre = l.
Proof.
  revert l. induction pre as [|x pre IH]; intros [|y l] E H1 H2; [done|..].
  - inversion E. set_solver.
  - inversion E. set_solver.
  - inversion E as [[Ex El]]. f_equal. apply IH; [done | set_solver..].
Qed.

(** What precedes a position in the list are the positions below it. *)
Lemma one_bits_prefix n pre i post : one_bits n = pre ++ i :: post -> pre = one_bits_from 0 i n.
Proof.
  intros E. destruct (one_bits_elem n pre i post E) as [Hb Hi].
  apply (split_at_elem i pre post _ (one_bits_from (S i) (63 - i) n)).
  - rewrite <- E. apply one_bits_at; done.
  - pose proof (one_bits_nodup n) as Hd. rewrite E in Hd. apply NoDup_app in Hd. set_solver.
  - unfold one_bits_from. rewrite list_elem_of_filter, elem_of_seq. lia.
Qed.

Lemma one_bits_whole n : one_bits n = one_bits_from 0 64 n.
Proof. reflexivity. Qed.

(** ** The representation *)

#[local] Opaque one_bits for_each_1bit.

Section Facts.
Variable target : abi.
Hypothesis Htarget : target = i686 \/ target = x86_64.

Lemma FLOW_U32S_64 : (FLOW_U32S target <= 64)%nat.
Proof. destruct Htarget as [-> | ->]; vm_compute; lia. Qed.

Record mf_rep (mf : miniflow) (w : list Z) : Prop := {
  rep_map : in_u64 (mf_map mf);
  rep_len : length w = FLOW_U32S target;
  rep_u32 : Forall in_u32 w;
  rep_out : forall i, Z.testbit (mf_map mf) (Z.of_nat i) = false -> nth i w 0 = 0;
  rep_in : forall i, Z.testbit (mf_map mf) (Z.of_nat i) = true -> (i < FLOW_U32S target)%nat;
  rep_values : exists rest, values mf = map (fun i => Some (nth i w 0)) (one_bits (mf_map mf)) ++ rest
}.

Lemma ld_value_at mf w pre i post : mf_rep mf w -> one_bits (mf_map mf) = pre ++ i :: post ->
  ld_value mf (Z.of_nat (length pre)) = Ok (nth i w 0).
Proof.
  intros H E. destruct (rep_values mf w H) as [rest Hv]. unfold ld_value, cbuf. rewrite Nat2Z.id, Hv, E, map_app.
  rewrite <- app_assoc, lookup_app_r by (rewrite length_map; done).
  rewrite length_map, Nat.sub_diag. done.
Qed.

Lemma word_nth w i : length w = FLOW_U32S target -> (i < FLOW_U32S target)%nat -> word w (Z.of_nat i) = Ok (nth i w 0).
Proof.
  intros Hl Hi. unfold word. rewrite Nat2Z.id. destruct (w !! i) as [x|] eqn:E.
  - rewrite (nth_lookup_Some w i 0 x E). done.
  - apply lookup_ge_None in E. lia.
Qed.

Lemma miniflow_get_rep mf w i : mf_rep mf w -> (i < 64)%nat -> miniflow_get target mf (Z.of_nat i) = Ok (nth i w 0).
Proof.
  intros H Hi. unfold miniflow_get, miniflow_get__. rewrite bit_word, low_mask, land_one_bit by done.
  destruct (Z.testbit (mf_map mf) (Z.of_nat i)) eqn:E; cbn [negb].
  - rewrite count_1bits_ok.
    + rewrite one_bits_below by done. apply (ld_value_at mf w _ i (one_bits_from (S i) (63 - i) (mf_map mf)) H).
      apply one_bits_at; done.
    + pose proof (rep_map mf w H). assert (2 ^ Z.of_nat i < 2 ^ 64) by (apply Z.pow_lt_mono_r; lia).
      apply land_range_r; lia.
  - rewrite (rep_out mf w H i E). done.
Qed.

(** ** Making compressed flows *)

Lemma values_with_block mf b : values (with_block mf b) = b.
Proof. unfold with_block, values. destruct (mf_values mf); done. Qed.
Lemma map_with_block mf b : mf_map (with_block mf b) = mf_map mf.
Proof. unfold with_block. destruct (mf_values mf); done. Qed.
Lemma with_block_twice mf b c : with_block (with_block mf b) c = with_block mf c.
Proof. destruct mf as [m [| |] ?]; done. Qed.
Lemma with_block_self mf : with_block mf (values mf) = mf.
Proof. destruct mf as [m [| |] ?]; done. Qed.

(** Filling an array from the front. *)
Definition filled (vs : list Z) (b : list (option Z)) : list (option Z) := map Some vs ++ drop (length vs) b.

Lemma filled_step vs b v : (length vs < length b)%nat ->
  <[length vs := Some v]> (filled vs b) = filled (vs ++ [v]) b.
Proof.
  intros H. unfold filled. rewrite insert_app_r_alt by (rewrite length_map; done).
  rewrite length_map, Nat.sub_diag, map_app, <- app_assoc, length_app. f_equal.
  destruct (drop (length vs) b) as [|x l] eqn:E.
  - apply (f_equal length) in E. rewrite length_drop in E. cbn [length] in E. lia.
  - cbn [map app length]. apply (f_equal (drop 1)) in E. rewrite drop_drop in E. cbn [drop] in E. rewrite E. done.
Qed.

Lemma length_filled vs b : (length vs <= length b)%nat -> length (filled vs b) = length b.
Proof. intros H. unfold filled. rewrite length_app, length_map, length_drop. lia. Qed.

Lemma st_value_filled mf vs b v k : (length vs < length b)%nat -> k = Z.of_nat (length vs) ->
  st_value (with_block mf (filled vs b)) k v = Ok (with_block mf (filled (vs ++ [v]) b)).
Proof.
  intros H ->. unfold st_value, cbuf. rewrite values_with_block, Nat2Z.id, decide_True.
  - rewrite with_block_twice, filled_step by done. done.
  - rewrite length_filled by lia. done.
Qed.

(** A structure whose inline array has its size. *)
Definition has_room (mf : miniflow) : Prop := length (inline_values mf) = Z.to_nat (MINI_N_INLINE target).

Lemma room_with_block mf b : has_room mf -> length b = length (values mf) -> has_room (with_block mf b).
Proof. unfold has_room, with_block, values. destruct mf as [? [| |] ?]; cbn; congruence. Qed.

(** An array for [n] values. *)
Lemma alloc_length mf n : has_room mf -> 0 <= n ->
  (Z.to_nat n <= length (values (set_values mf (miniflow_alloc_values target n))))%nat.
Proof.
  intros Hi Hn. unfold miniflow_alloc_values. destruct (Z.leb_spec n (MINI_N_INLINE target)); cbn [values mf_values set_values].
  - unfold values. cbn. rewrite (Hi : length (inline_values mf) = _). lia.
  - unfold values. cbn. rewrite length_replicate. done.
Qed.

(** The words of [w] in a map, the others zero. *)
Definition in_map (m : Z) (w : list Z) : list Z :=
  imap (fun i x => if Z.testbit m (Z.of_nat i) then x else 0) w.

Lemma nth_in_map m w i : nth i (in_map m w) 0 = if Z.testbit m (Z.of_nat i) then nth i w 0 else 0.
Proof.
  unfold in_map. rewrite !nth_lookup, list_lookup_imap. destruct (w !! i); cbn; destruct (Z.testbit _ _); done.
Qed.

Lemma miniflow_init_ok dst src n : in_u64 (mf_map dst) ->
  has_room dst ->
  length src = FLOW_U32S target -> Forall in_u32 src ->
  (forall i, Z.testbit (mf_map dst) (Z.of_nat i) = true -> (i < FLOW_U32S target)%nat) ->
  n = Z.of_nat (length (one_bits (mf_map dst))) ->
  exists mf, miniflow_init__ target dst src n = Ok mf /\ mf_map mf = mf_map dst /\
    mf_rep mf (in_map (mf_map dst) src) /\ has_room mf.
Proof.
  intros Hm Hi Hl Hs Hb ->. unfold miniflow_init__.
  set (n := Z.of_nat (length (one_bits (mf_map dst)))).
  set (d := set_values dst (miniflow_alloc_values target n)).
  pose proof (alloc_length dst n Hi ltac:(lia)) as Ha. fold d in Ha. unfold n in Ha. rewrite Nat2Z.id in Ha.
  set (b := values d) in *. change (mf_map d) with (mf_map dst).
  set (st := fun pre : list nat => (with_block d (filled (map (fun i => nth i src 0) pre) b), Z.of_nat (length pre))).
  assert (for_map (mf_map dst) (fun map '(dst, ofs) =>
      let* v := word src (raw_ctz map) in let* dst := st_value dst ofs v in Ok (dst, ofs + 1)) (d, 0)
    = Ok (st (one_bits (mf_map dst)))) as ->.
  { rewrite (for_map_bits _ _ (fun i '(dst, ofs) => let* v := word src (Z.of_nat i) in
      let* dst := st_value dst ofs v in Ok (dst, ofs + 1))).
    2:{ done. } 2:{ intros m i [x y] (-> & _). done. }
    replace (d, 0) with (st []) by (unfold st, filled; cbn; unfold b; rewrite with_block_self; done).
    apply fold_bits_st. intros pre i post E. unfold st at 1.
    destruct (one_bits_elem _ _ _ _ E) as [Hbit _]. rewrite word_nth by (done || apply Hb, Hbit). cbn [rbind].
    rewrite st_value_filled; [| |rewrite length_map; done].
    2:{ rewrite length_map. rewrite E, length_app in Ha. cbn [length] in Ha. lia. }
    cbn [rbind]. unfold st. rewrite map_app, length_app. cbn [map length]. do 2 f_equal. lia. }
  cbn [rbind]. eexists. split; [done|]. unfold st. cbn [fst]. rewrite map_with_block. split; [done|].
  split; [|apply room_with_block; [exact Hi | rewrite length_filled by (rewrite length_map; exact Ha); done]].
  split; rewrite ?map_with_block; change (mf_map d) with (mf_map dst).
  - done.
  - unfold in_map. rewrite length_imap. done.
  - apply Forall_lookup. intros i x Hx. unfold in_map in Hx. rewrite list_lookup_imap in Hx.
    destruct (src !! i) as [y|] eqn:E; [|done]. cbn in Hx. pose proof (Forall_lookup_1 _ _ _ _ Hs E).
    destruct (Z.testbit _ _); simplify_eq; [done | unfold in_u32; lia].
  - intros i Hi'. rewrite nth_in_map, Hi'. done.
  - done.
  - rewrite values_with_block. eexists. unfold filled. f_equal. rewrite map_map. apply map_ext_in.
    intros i Hi'. apply list_elem_of_In in Hi'. apply elem_of_one_bits in Hi' as [Hi' _].
    rewrite nth_in_map, Hi'. done.
Qed.

Lemma one_bits_snoc i n : one_bits_from 0 (S i) n =
  one_bits_from 0 i n ++ (if Z.testbit n (Z.of_nat i) then [i] else []).
Proof.
  rewrite (one_bits_split 0 (S i) n i) by lia. f_equal. replace (S i - i)%nat with 1%nat by lia.
  unfold one_bits_from. cbn [seq]. rewrite filter_cons, Nat.add_0_l.
  destruct (Z.testbit n (Z.of_nat i)); [rewrite decide_True by done | rewrite decide_False by done]; done.
Qed.

(** The map of the nonzero words and their number. *)
Lemma init_map_spec src : forall i m n, (i + length src <= 64)%nat -> 0 <= m < 2 ^ Z.of_nat i ->
  n = Z.of_nat (length (one_bits_from 0 i m)) ->
  exists m', init_map src (Z.of_nat i) m n = (m', Z.of_nat (length (one_bits_from 0 (i + length src) m'))) /\
    0 <= m' < 2 ^ Z.of_nat (i + length src) /\
    forall j, Z.testbit m' (Z.of_nat j) = if decide (j < i)%nat then Z.testbit m (Z.of_nat j)
                                         else negb (nth (j - i) src 0 =? 0).
Proof.
  induction src as [|w src IH]; intros i m n Hl Hm ->; cbn [init_map length].
  - exists m. rewrite Nat.add_0_r. split; [done|]. split; [done|]. intros j.
    destruct (decide (j < i)%nat); [done|]. replace (nth (j - i) [] 0) with 0 by (destruct (j - i)%nat; done).
    rewrite Z.eqb_refl. rewrite <- (Z.mod_small m (2 ^ Z.of_nat i)) by done.
    apply Z.mod_pow2_bits_high. lia.
  - cbn [length] in Hl.
    assert (2 ^ Z.of_nat (S i) = 2 * 2 ^ Z.of_nat i) as Hp by (rewrite <- Z.pow_succ_r by lia; f_equal; lia).
    assert (Z.testbit m (Z.of_nat i) = false) as Hbm.
    { rewrite <- (Z.mod_small m (2 ^ Z.of_nat i)) by done. apply Z.mod_pow2_bits_high. lia. }
    destruct (Z.eqb_spec w 0) as [->|Hw]; replace (Z.of_nat i + 1) with (Z.of_nat (S i)) by lia.
    + destruct (IH (S i) m (Z.of_nat (length (one_bits_from 0 i m)))) as (m' & E & Hr & Hb); [lia | lia | |].
      { rewrite one_bits_snoc, Hbm, app_nil_r. done. }
      exists m'. rewrite E. replace (S i + length src)%nat with (i + S (length src))%nat in * by lia.
      split; [done|]. split; [done|]. intros j. rewrite Hb.
      destruct (decide (j < S i)%nat), (decide (j < i)%nat); try done; try lia.
      * assert (j = i) as -> by lia. rewrite Nat.sub_diag. done.
      * replace (j - i)%nat with (S (j - S i)) by lia. done.
    + rewrite bit_word by lia.
      assert (0 <= Z.lor m (2 ^ Z.of_nat i) < 2 ^ Z.of_nat (S i)) as Hr'.
      { apply lor_range; lia. }
      destruct (IH (S i) (Z.lor m (2 ^ Z.of_nat i)) (Z.of_nat (length (one_bits_from 0 i m)) + 1)) as (m' & E & Hr & Hb);
        [lia | done | |].
      { rewrite one_bits_snoc, Z.lor_spec, Z.pow2_bits_true, orb_true_r, length_app by lia.
        rewrite (one_bits_from_ext 0 i (Z.lor m _) m); [cbn [length]; lia|].
        intros j Hj. rewrite Z.lor_spec, Z.pow2_bits_false, orb_false_r by lia. done. }
      exists m'. rewrite E. replace (S i + length src)%nat with (i + S (length src))%nat in * by lia.
      split; [done|]. split; [done|]. intros j. rewrite Hb.
      destruct (decide (j < S i)%nat), (decide (j < i)%nat); try done; try lia.
      * rewrite Z.lor_spec, Z.pow2_bits_false, orb_false_r by lia. done.
      * assert (j = i) as -> by lia. rewrite Nat.sub_diag, Z.lor_spec, Z.pow2_bits_true, orb_true_r by lia.
        cbn [nth]. symmetry. apply negb_true_iff, Z.eqb_neq, Hw.
      * replace (j - i)%nat with (S (j - S i)) by lia. done.
Qed.

(** Maps whose 1-bits are the nonzero words: masks, and flows not made for a mask. *)
Definition tight (mf : miniflow) (w : list Z) : Prop :=
  forall i, Z.testbit (mf_map mf) (Z.of_nat i) = negb (nth i w 0 =? 0).

Lemma in_map_all m w : (forall i, Z.testbit m (Z.of_nat i) = false -> nth i w 0 = 0) -> in_map m w = w.
Proof.
  intros H. unfold in_map. apply list_eq. intros i. rewrite list_lookup_imap.
  destruct (w !! i) as [x|] eqn:E; [|done]. cbn. specialize (H i). rewrite (nth_lookup_Some _ _ 0 _ E) in H.
  destruct (Z.testbit _ _); [done|]. rewrite H; done.
Qed.

Lemma miniflow_init_rep dst w : has_room dst -> length w = FLOW_U32S target -> Forall in_u32 w ->
  exists mf, miniflow_init target dst w = Ok mf /\ mf_rep mf w /\ tight mf w /\ has_room mf.
Proof.
  intros Hi Hl Hw. unfold miniflow_init. pose proof FLOW_U32S_64.
  destruct (init_map_spec w 0 0 0) as (m & E & Hr & Hb); [lia | cbn; lia | done |].
  change (Z.of_nat 0) with 0 in E. rewrite E. rewrite Nat.add_0_l in *.
  assert (2 ^ Z.of_nat (length w) <= 2 ^ 64) by (apply Z.pow_le_mono_r; lia).
  assert (in_u64 m) as Hu by (unfold in_u64; lia).
  assert (forall i, Z.testbit m (Z.of_nat i) = negb (nth i w 0 =? 0)) as Ht.
  { intros i. rewrite Hb, Nat.sub_0_r, decide_False by lia. done. }
  assert (forall i, Z.testbit m (Z.of_nat i) = true -> (i < FLOW_U32S target)%nat) as Hin.
  { intros i. rewrite Ht. intros Hn. destruct (decide (i < length w)%nat); [lia|].
    rewrite nth_overflow in Hn by lia. done. }
  destruct (miniflow_init_ok (set_map dst m) w (Z.of_nat (length (one_bits_from 0 (length w) m)))) as (mf & Em & Hmap & Hrep & Hroom);
    try done.
  - cbn [mf_map set_map]. rewrite one_bits_whole, (one_bits_split 0 64 m (length w)) by lia.
    rewrite (one_bits_none (0 + length w)), app_nil_r; [done|].
    intros i Hi'. destruct (Z.testbit m (Z.of_nat i)) eqn:Eb; [|done]. apply Hin in Eb. lia.
  - exists mf. split; [done|]. cbn [mf_map set_map] in Hmap, Hrep. rewrite in_map_all in Hrep.
    + split; [done|]. split; [|done]. unfold tight. rewrite Hmap. done.
    + intros i. rewrite Ht. intros Hn%negb_false_iff%Z.eqb_eq. done.
Qed.

(** ** Loads in the middle of a map *)

(** The 1-bits of [m] are those of the compressed flow from number [k] on. *)
Definition part (mf : miniflow) (m : Z) (k : nat) : Prop :=
  in_u64 m /\ exists pre post, one_bits (mf_map mf) = pre ++ one_bits m ++ post /\ length pre = k.

Lemma part_all mf w : mf_rep mf w -> part mf (mf_map mf) 0.
Proof. intros H. split; [apply (rep_map mf w H)|]. exists [], []. rewrite app_nil_r. done. Qed.

Lemma part_value mf w m k pre i post : mf_rep mf w -> part mf m k -> one_bits m = pre ++ i :: post ->
  ld_value mf (Z.of_nat (k + length pre)) = Ok (nth i w 0).
Proof.
  intros H (_ & p & q & E & <-) Em. rewrite <- length_app.
  apply (ld_value_at mf w (p ++ pre) i (post ++ q) H). rewrite E, Em, <- !app_assoc. done.
Qed.

Lemma part_bound mf w m k pre i post : mf_rep mf w -> part mf m k -> one_bits m = pre ++ i :: post ->
  (i < FLOW_U32S target)%nat /\ Z.testbit (mf_map mf) (Z.of_nat i) = true.
Proof.
  intros H (_ & p & q & E & _) Em. rewrite Em in E.
  destruct (one_bits_elem (mf_map mf) (p ++ pre) i (post ++ q)) as [Hb _]; [rewrite E, <- !app_assoc; done|].
  split; [apply (rep_in mf w H), Hb | done].
Qed.

(** The words of [d] with those of [w] at some positions or-ed in. *)
Definition fold_at (bits : list nat) (d w : list Z) : list Z :=
  imap (fun j x => if decide (j ∈ bits) then Z.lor x (nth j w 0) else x) d.

Lemma length_fold_at bits d w : length (fold_at bits d w) = length d.
Proof. apply length_imap. Qed.

Lemma nth_fold_at bits d w j : (j < length d)%nat ->
  nth j (fold_at bits d w) 0 = if decide (j ∈ bits) then Z.lor (nth j d 0) (nth j w 0) else nth j d 0.
Proof.
  intros Hj. destruct (lookup_lt_is_Some_2 d j Hj) as [x E].
  rewrite (nth_lookup_Some _ _ 0 _ E). apply nth_lookup_Some. unfold fold_at. rewrite list_lookup_imap, E. done.
Qed.

Lemma set_word_ok d i v : (i < length d)%nat -> set_word d (Z.of_nat i) v = Ok (<[i := v]> d).
Proof. intros H. unfold set_word. rewrite Nat2Z.id, decide_True by done. done. Qed.

Lemma fold_at_step bits i d w : (i < length d)%nat -> i ∉ bits ->
  <[i := Z.lor (nth i d 0) (nth i w 0)]> (fold_at bits d w) = fold_at (bits ++ [i]) d w.
Proof.
  intros Hi Hn. apply list_eq. intros j. destruct (decide (i = j)) as [<-|Hne].
  - rewrite list_lookup_insert_eq by (rewrite length_fold_at; done). unfold fold_at. rewrite list_lookup_imap.
    destruct (lookup_lt_is_Some_2 d i Hi) as [x E]. rewrite (nth_lookup_Some _ _ 0 _ E), E. cbn [fmap option_fmap option_map]. rewrite decide_True by set_solver. done.
  - rewrite list_lookup_insert_ne by done. unfold fold_at. rewrite !list_lookup_imap.
    destruct (d !! j) as [x|]; [|done]. cbn.
    destruct (decide (j ∈ bits)), (decide (j ∈ bits ++ [i])); try done; set_solver.
Qed.

(** The loop that folds a part of a compressed flow into words. *)
Lemma union_loop mf w d m k : mf_rep mf w -> part mf m k -> length d = FLOW_U32S target ->
  for_map m (fun map '(dst_u32, p) =>
      let* v := ld_value mf p in
      let* x := word dst_u32 (raw_ctz map) in
      let* dst_u32 := set_word dst_u32 (raw_ctz map) (Z.lor x v) in
      Ok (dst_u32, p + 1)) (d, Z.of_nat k)
  = Ok (fold_at (one_bits m) d w, Z.of_nat (k + length (one_bits m))).
Proof.
  intros H Hp Hd. rewrite (for_map_bits _ _ (fun i '(dst_u32, p) =>
      let* v := ld_value mf p in let* x := word dst_u32 (Z.of_nat i) in
      let* dst_u32 := set_word dst_u32 (Z.of_nat i) (Z.lor x v) in Ok (dst_u32, p + 1))).
  2:{ apply Hp. } 2:{ intros m' i [x y] (-> & _). done. }
  set (st := fun pre : list nat => (fold_at pre d w, Z.of_nat (k + length pre))).
  replace (d, Z.of_nat k) with (st []).
  2:{ unfold st. rewrite Nat.add_0_r. f_equal. unfold fold_at. apply list_eq. intros j. rewrite list_lookup_imap.
      destruct (d !! j); done. }
  apply (fold_bits_st st). intros pre i post E. unfold st at 1. cbv beta iota.
  destruct (part_bound mf w m k pre i post H Hp E) as [Hi _].
  rewrite (part_value mf w m k pre i post H Hp E). cbn [rbind].
  assert (i ∉ pre) as Hn.
  { pose proof (one_bits_nodup m) as Hnd. rewrite E in Hnd. apply NoDup_app in Hnd. set_solver. }
  rewrite word_nth by (rewrite ?length_fold_at; done). cbn [rbind].
  rewrite nth_fold_at, decide_False, set_word_ok by (rewrite ?length_fold_at; lia || done). cbn [rbind].
  rewrite fold_at_step by (lia || done). unfold st. rewrite length_app. cbn [length]. do 2 f_equal. lia.
Qed.

Lemma fold_at_all mf w d : mf_rep mf w -> length d = FLOW_U32S target ->
  fold_at (one_bits (mf_map mf)) d w = zip_with Z.lor d w.
Proof.
  intros H Hd. apply list_eq. intros j. unfold fold_at. rewrite list_lookup_imap, lookup_zip_with.
  destruct (d !! j) as [x|] eqn:E; [|done]. cbn. pose proof (lookup_lt_Some _ _ _ E).
  destruct (lookup_lt_is_Some_2 w j) as [y Ey]; [rewrite (rep_len mf w H); lia|]. rewrite Ey. cbn.
  rewrite (nth_lookup_Some _ _ 0 _ Ey). destruct (decide _) as [|Hn]; [done|].
  pose proof (rep_out mf w H j) as Ho. rewrite (nth_lookup_Some _ _ 0 _ Ey) in Ho.
  rewrite Ho, Z.lor_0_r; [done|]. destruct (Z.testbit (mf_map mf) (Z.of_nat j)) eqn:Eb; [|done].
  destruct Hn. apply elem_of_one_bits. pose proof FLOW_U32S_64. split; [done | lia].
Qed.

Lemma union_rep mf w d : mf_rep mf w -> length d = FLOW_U32S target ->
  flow_union_with_miniflow d mf = Ok (zip_with Z.lor d w).
Proof.
  intros H Hd. unfold flow_union_with_miniflow.
  pose proof (union_loop mf w d (mf_map mf) 0 H (part_all mf w H) Hd) as E. change (Z.of_nat 0) with 0 in E.
  rewrite E. cbn [rbind]. rewrite (fold_at_all mf w d H Hd). done.
Qed.

Lemma miniflow_expand_rep mf w : mf_rep mf w -> miniflow_expand target mf = Ok w.
Proof.
  intros H. unfold miniflow_expand. rewrite (union_rep mf w) by (done || apply length_replicate). f_equal.
  rewrite <- (rep_len mf w H). clear H. induction w as [|x w IH]; [done|]. cbn [length replicate zip_with].
  f_equal. exact IH.
Qed.

(** ** Ranges of words *)

Lemma high_mask i j : (i < 64)%nat -> (j < 64)%nat ->
  Z.testbit (u64 (Z.lnot (2 ^ Z.of_nat i - 1))) (Z.of_nat j) = negb (bool_decide (j < i)%nat).
Proof.
  intros Hi Hj. unfold u64. rewrite Z.mod_pow2_bits_low, Z.lnot_spec, testbit_low_mask by lia. done.
Qed.

Definition clip (e : nat) : nat := Nat.min e (FLOW_U32S target).

Lemma bits_out mf w i : mf_rep mf w -> (FLOW_U32S target <= i)%nat -> Z.testbit (mf_map mf) (Z.of_nat i) = false.
Proof.
  intros H Hi. destruct (Z.testbit (mf_map mf) (Z.of_nat i)) eqn:E; [|done]. apply (rep_in mf w H) in E. lia.
Qed.

Lemma land_u64 x y : in_u64 x -> 0 <= y -> in_u64 (Z.land x y).
Proof. intros Hx Hy. rewrite Z.land_comm. apply land_range_r; [lia | exact Hx]. Qed.

(** The map of a range is the part of the map there, and the offset is its place. *)
Lemma map_in_range_rep mf w s e : mf_rep mf w -> (s <= e)%nat -> (s < 64)%nat ->
  exists m k, miniflow_get_map_in_range target mf (Z.of_nat s) (Z.of_nat e) = (m, Z.of_nat k) /\
    part mf m k /\ k = length (one_bits_from 0 s (mf_map mf)) /\
    one_bits m = one_bits_from s (clip e - s) (mf_map mf).
Proof.
  intros H Hse Hs. pose proof FLOW_U32S_64 as H64. pose proof (rep_map mf w H) as Hu.
  set (N := mf_map mf) in *.
  set (m1 := if 0 <? Z.of_nat s then Z.land N (u64 (Z.lnot (2 ^ Z.of_nat s - 1))) else N).
  set (m := if Z.of_nat e <? Z.of_nat (FLOW_U32S target) then Z.land m1 (2 ^ Z.of_nat e - 1) else m1).
  exists m, (length (one_bits_from 0 s N)).
  assert (in_u64 m1) as Hm1.
  { unfold m1. destruct (0 <? _); [|done]. apply land_u64; [done | apply u64_range]. }
  assert (in_u64 m) as Hm.
  { unfold m. destruct (Z.of_nat e <? _); [|done]. apply land_u64; [done|].
    assert (0 < 2 ^ Z.of_nat e) by lia. lia. }
  assert (forall i, (i < 64)%nat -> Z.testbit m1 (Z.of_nat i) = if decide (s <= i)%nat then Z.testbit N (Z.of_nat i) else false) as Hb1.
  { intros i Hi. unfold m1. destruct (Z.ltb_spec 0 (Z.of_nat s)); [|rewrite decide_True by lia; done].
    rewrite Z.land_spec, high_mask by lia. case_bool_decide; [rewrite decide_False by lia; apply andb_false_r|].
    rewrite decide_True by lia. apply andb_true_r. }
  assert (forall i, (i < 64)%nat -> Z.testbit m (Z.of_nat i) =
    if decide (s <= i < clip e)%nat then Z.testbit N (Z.of_nat i) else false) as Hb.
  { intros i Hi. unfold m, clip. destruct (Z.ltb_spec (Z.of_nat e) (Z.of_nat (FLOW_U32S target))).
    - rewrite Z.land_spec, testbit_low_mask, Hb1 by lia.
      case_bool_decide; destruct (decide (s <= i)%nat), (decide _); try lia; cbn [andb]; rewrite ?andb_true_r, ?andb_false_r; done.
    - rewrite Hb1 by done. destruct (decide (s <= i)%nat), (decide _); try lia; try done.
      apply (bits_out mf w i H). lia. }
  assert (one_bits m = one_bits_from s (clip e - s) N) as Ho.
  { destruct (decide (s <= clip e)%nat) as [Hc|Hc].
    - apply one_bits_restrict; [unfold clip in *; lia | exact Hb].
    - replace (clip e - s)%nat with 0%nat by lia. rewrite one_bits_whole. apply one_bits_none.
      intros i Hi. rewrite Hb, decide_False by lia. done. }
  split; [|split; [|split; done]].
  - unfold miniflow_get_map_in_range. fold N. rewrite bit_word, low_mask by done.
    replace (if 0 <? Z.of_nat s then _ else _) with (m1, Z.of_nat (length (one_bits_from 0 s N))).
    + cbv beta iota. f_equal. unfold m. destruct (Z.ltb_spec (Z.of_nat e) (Z.of_nat (FLOW_U32S target))); [|done].
      rewrite bit_word, low_mask by lia. done.
    + unfold m1. destruct (Z.ltb_spec 0 (Z.of_nat s)).
      * f_equal. rewrite count_1bits_ok, one_bits_below by (done || (apply land_u64; [done | lia])). done.
      * replace s with 0%nat by lia. done.
  - split; [done|].
    destruct (decide (s <= clip e)%nat) as [Hc|Hc].
    + exists (one_bits_from 0 s N), (one_bits_from (clip e) (64 - clip e) N). split; [|done].
      fold N. rewrite Ho, one_bits_whole, (one_bits_split 0 64 N s), (one_bits_split (0 + s) (64 - s) N (clip e - s))
        by (unfold clip in *; lia).
      rewrite Nat.add_0_l. do 2 f_equal. f_equal; unfold clip in *; lia.
    + exists (one_bits_from 0 s N), []. split; [|done]. fold N.
      rewrite Ho. replace (clip e - s)%nat with 0%nat by lia. cbn [app].
      rewrite (one_bits_none s 0 N) by lia. rewrite one_bits_whole, (one_bits_split 0 64 N s) by lia. f_equal.
      apply one_bits_none. intros i Hi. apply (bits_out mf w i H). unfold clip in *. lia.
Qed.

(** ** Hashes *)

(** The masked words at some positions, hashed one after the other. *)
Definition hash_at (bits : list nat) (f w : list Z) (basis : Z) : Z :=
  fold_left mhash_add (map (fun i => Z.land (nth i f 0) (nth i w 0)) bits) basis.

Lemma hash_at_app a b f w basis : hash_at (a ++ b) f w basis = hash_at b f w (hash_at a f w basis).
Proof. unfold hash_at. rewrite map_app, fold_left_app. done. Qed.

(** The loop of the three hash functions, whatever gives the words of the flow. *)
Lemma hash_loop mask w f m k (ld : Z -> Res Z) basis : mf_rep (masks mask) w -> part (masks mask) m k ->
  (forall i, (i < FLOW_U32S target)%nat -> ld (Z.of_nat i) = Ok (nth i f 0)) ->
  for_map m (fun map '(p, hash) =>
      let* v := ld (raw_ctz map) in
      let* m := ld_value (masks mask) p in
      Ok (p + 1, mhash_add hash (Z.land v m))) (Z.of_nat k, basis)
  = Ok (Z.of_nat (k + length (one_bits m)), hash_at (one_bits m) f w basis).
Proof.
  intros H Hp Hld. rewrite (for_map_bits _ _ (fun i '(p, hash) =>
      let* v := ld (Z.of_nat i) in let* m := ld_value (masks mask) p in
      Ok (p + 1, mhash_add hash (Z.land v m)))).
  2:{ apply Hp. } 2:{ intros m' i [x y] (-> & _). done. }
  set (st := fun pre : list nat => (Z.of_nat (k + length pre), hash_at pre f w basis)).
  replace (Z.of_nat k, basis) with (st []) by (unfold st; rewrite Nat.add_0_r; done).
  apply (fold_bits_st st). intros pre i post E. unfold st at 1. cbv beta iota.
  destruct (part_bound _ w m k pre i post H Hp E) as [Hi _].
  rewrite Hld by done. cbn [rbind]. rewrite (part_value _ w m k pre i post H Hp E). cbn [rbind].
  unfold st. rewrite hash_at_app, length_app. cbn [length]. do 2 f_equal. lia.
Qed.

Lemma flow_hash_in_minimask_rep f mask w basis : length f = FLOW_U32S target -> mf_rep (masks mask) w ->
  flow_hash_in_minimask f mask basis =
    Ok (mhash_finish (hash_at (one_bits (mf_map (masks mask))) f w basis)
          (Z.of_nat (length (one_bits (mf_map (masks mask)))) * 4)).
Proof.
  intros Hf H. unfold flow_hash_in_minimask.
  pose proof (hash_loop mask w f (mf_map (masks mask)) 0 (word f) basis H (part_all _ w H)) as E.
  change (Z.of_nat 0) with 0 in E. rewrite E; [done|]. intros i Hi. apply word_nth; done.
Qed.

Lemma miniflow_hash_in_minimask_rep mf f mask w basis : mf_rep mf f -> mf_rep (masks mask) w ->
  miniflow_hash_in_minimask target mf mask basis =
    Ok (mhash_finish (hash_at (one_bits (mf_map (masks mask))) f w basis)
          (Z.of_nat (length (one_bits (mf_map (masks mask)))) * 4)).
Proof.
  intros Hf H. unfold miniflow_hash_in_minimask. pose proof FLOW_U32S_64.
  pose proof (hash_loop mask w f (mf_map (masks mask)) 0 (miniflow_get target mf) basis H (part_all _ w H)) as E.
  change (Z.of_nat 0) with 0 in E. rewrite E; [done|]. intros i Hi. apply miniflow_get_rep; [done | lia].
Qed.

Lemma flow_hash_in_minimask_range_rep f mask w s e basis :
  length f = FLOW_U32S target -> mf_rep (masks mask) w -> (s <= e)%nat -> (s < 64)%nat ->
  let N := mf_map (masks mask) in
  let h := hash_at (one_bits_from s (clip e - s) N) f w basis in
  flow_hash_in_minimask_range target f mask (Z.of_nat s) (Z.of_nat e) basis =
    Ok (mhash_finish h (Z.of_nat (length (one_bits_from 0 s N) + length (one_bits_from s (clip e - s) N)) * 4), h).
Proof.
  intros Hf H Hse Hs N h. unfold flow_hash_in_minimask_range.
  destruct (map_in_range_rep _ w s e H Hse Hs) as (m & k & -> & Hp & Hk & Hm).
  pose proof (hash_loop mask w f m k (word f) basis H Hp) as E. rewrite E.
  - cbn [rbind]. rewrite Hm, Hk. done.
  - intros i Hi. apply word_nth; done.
Qed.

(** ** Comparisons *)

Lemma nth_zero_len (w : list Z) i : (length w <= i)%nat -> nth i w 0 = 0.
Proof. apply nth_overflow. Qed.

Lemma words_eq a b : length a = length b -> (forall i, (i < length a)%nat -> nth i a 0 = nth i b 0) -> a = b.
Proof.
  intros Hl H. apply list_eq. intros i. destruct (decide (i < length a)%nat) as [Hi|Hi].
  - destruct (lookup_lt_is_Some_2 a i Hi) as [x Ex], (lookup_lt_is_Some_2 b i) as [y Ey]; [lia|].
    specialize (H i Hi). rewrite (nth_lookup_Some _ _ 0 _ Ex), (nth_lookup_Some _ _ 0 _ Ey) in H. congruence.
  - rewrite !lookup_ge_None_2 by lia. done.
Qed.

Lemma equal_except_spec a b w : length a = length b -> length a = length w ->
  flow_equal_except a b w = true <-> forall i, Z.land (Z.lxor (nth i a 0) (nth i b 0)) (nth i w 0) = 0.
Proof.
  revert b w. induction a as [|x a IH]; intros [|y b] [|m w] H1 H2; try done.
  - split; [|done]. intros _ i. destruct i; done.
  - cbn [flow_equal_except]. destruct (Z.eqb_spec (Z.land (Z.lxor x y) m) 0) as [E|E]; cbn [negb].
    + rewrite IH by (cbn in *; lia). split; [intros H [|i]; [done | apply H] | intros H i; apply (H (S i))].
    + split; [done|]. intros H. destruct (E (H 0%nat)).
Qed.

(** Positions outside the map of a mask do not matter. *)
Lemma masked_bits a b mf w : mf_rep mf w -> length a = FLOW_U32S target -> length b = FLOW_U32S target ->
  forallb (fun i => Z.land (Z.lxor (nth i a 0) (nth i b 0)) (nth i w 0) =? 0) (one_bits (mf_map mf))
  = flow_equal_except a b w.
Proof.
  intros H Ha Hb. apply eq_true_iff_eq. rewrite equal_except_spec by (rewrite ?(rep_len mf w H); lia).
  rewrite forallb_forall. split.
  - intros Hf i. destruct (Z.testbit (mf_map mf) (Z.of_nat i)) eqn:E.
    + apply Z.eqb_eq, Hf, list_elem_of_In, elem_of_one_bits. split; [done|].
      pose proof (rep_in mf w H i E). pose proof FLOW_U32S_64. lia.
    + rewrite (rep_out mf w H i E). apply Z.land_0_r.
  - intros Hf i _. apply Z.eqb_eq, Hf.
Qed.

(** The loop over a mask that compares what [x] and [y] give. *)
Lemma compare_loop mask w a b (x y : Z -> Res Z) : mf_rep (masks mask) w ->
  (forall i, (i < FLOW_U32S target)%nat -> x (Z.of_nat i) = Ok (nth i a 0)) ->
  (forall i, (i < FLOW_U32S target)%nat -> y (Z.of_nat i) = Ok (nth i b 0)) ->
  length a = FLOW_U32S target -> length b = FLOW_U32S target ->
  (let* r := for_each_1bit 64 (mf_map (masks mask)) (fun map p =>
      let ofs := raw_ctz map in
      let* u := x ofs in
      let* v := y ofs in
      let* m := ld_value (masks mask) p in
      Ok (if negb (Z.land (Z.lxor u v) m =? 0) then inr false else inl (p + 1))) 0 in
   Ok (match r with inl _ => true | inr r => r end)) = Ok (flow_equal_except a b w).
Proof.
  intros H Hx Hy Ha Hb. rewrite (for_each_bits _ _ (fun i p => let* u := x (Z.of_nat i) in
    let* v := y (Z.of_nat i) in let* m := ld_value (masks mask) p in
    Ok (if negb (Z.land (Z.lxor u v) m =? 0) then inr false else inl (p + 1)))).
  2:{ apply (rep_map _ w H). } 2:{ intros m' i s (-> & _). done. }
  rewrite (for_bits_st (fun pre => Z.of_nat (length pre))
    (fun i => Z.land (Z.lxor (nth i a 0) (nth i b 0)) (nth i w 0) =? 0) false).
  - rewrite (masked_bits a b _ w) by done. cbn [rbind]. destruct (flow_equal_except a b w); done.
  - intros pre i post E. destruct (part_bound _ w _ _ pre i post H (part_all _ w H) E) as [Hi _].
    rewrite Hx, Hy by done. cbn [rbind]. rewrite (ld_value_at _ w pre i post H E). cbn [rbind].
    rewrite length_app. cbn [length]. destruct (_ =? 0); cbn [negb]; [do 2 f_equal; lia | done].
Qed.

Lemma miniflow_equal_in_minimask_rep ma a mb b mask w : mf_rep ma a -> mf_rep mb b -> mf_rep (masks mask) w ->
  miniflow_equal_in_minimask target ma mb mask = Ok (flow_equal_except a b w).
Proof.
  intros Ha Hb H. pose proof FLOW_U32S_64. apply (compare_loop mask w a b); try done;
    try (intros i Hi; apply miniflow_get_rep; [done | lia]); [apply (rep_len _ _ Ha) | apply (rep_len _ _ Hb)].
Qed.

Lemma miniflow_equal_flow_in_minimask_rep ma a b mask w : mf_rep ma a -> length b = FLOW_U32S target ->
  mf_rep (masks mask) w -> miniflow_equal_flow_in_minimask target ma b mask = Ok (flow_equal_except a b w).
Proof.
  intros Ha Hb H. pose proof FLOW_U32S_64. apply (compare_loop mask w a b); try done.
  - intros i Hi; apply miniflow_get_rep; [done | lia].
  - intros i Hi; apply word_nth; done.
  - apply (rep_len _ _ Ha).
Qed.

Lemma equal_same_map_rep ma a mb b : mf_rep ma a -> mf_rep mb b -> mf_map ma = mf_map mb ->
  equal_same_map ma mb (mf_map ma) = Ok (flow_equal a b).
Proof.
  intros Ha Hb Em. unfold equal_same_map. rewrite (for_each_bits _ _ (fun i '(ap, bp) =>
    let* x := ld_value ma ap in let* y := ld_value mb bp in
    Ok (if negb (x =? y) then inr false else inl (ap + 1, bp + 1)))).
  2:{ apply (rep_map _ a Ha). } 2:{ intros m' i [? ?] _. done. }
  rewrite (for_bits_st (fun pre => (Z.of_nat (length pre), Z.of_nat (length pre)))
    (fun i => nth i a 0 =? nth i b 0) false).
  - cbn [rbind]. unfold flow_equal. destruct (forallb _ _) eqn:E.
    + rewrite forallb_forall in E. rewrite bool_decide_eq_true_2; [done|].
      pose proof (rep_len _ _ Ha) as La. pose proof (rep_len _ _ Hb) as Lb.
      apply words_eq; [lia|]. intros i Hi.
      destruct (Z.testbit (mf_map ma) (Z.of_nat i)) eqn:Eb.
      * apply Z.eqb_eq, E, list_elem_of_In, elem_of_one_bits. pose proof FLOW_U32S_64. split; [done | lia].
      * rewrite (rep_out _ _ Ha i Eb). rewrite Em in Eb. rewrite (rep_out _ _ Hb i Eb). done.
    + rewrite bool_decide_eq_false_2; [done|]. intros ->. rewrite (proj2 (forallb_forall _ _)) in E; [done|].
      intros i _. apply Z.eqb_refl.
  - intros pre i post E. rewrite (ld_value_at _ a pre i post Ha E). rewrite Em in E.
    rewrite (ld_value_at _ b pre i post Hb E). cbn [rbind]. rewrite length_app. cbn [length].
    destruct (_ =? _); cbn [negb]; [|done]. do 3 f_equal; lia.
Qed.

Lemma filter_below n m pre i post : one_bits m = pre ++ i :: post ->
  (forall j, Z.testbit n (Z.of_nat j) = true -> Z.testbit m (Z.of_nat j) = true) ->
  filter (fun j => Z.testbit n (Z.of_nat j) = true) pre = one_bits_from 0 i n.
Proof.
  intros E H. rewrite (one_bits_prefix m pre i post E). unfold one_bits_from. rewrite list_filter_filter.
  apply list_filter_iff. intros j. naive_solver.
Qed.

(** The step of one of the two pointers. *)
Lemma step_value mf w m pre i post : mf_rep mf w -> one_bits m = pre ++ i :: post ->
  (forall j, Z.testbit (mf_map mf) (Z.of_nat j) = true -> Z.testbit m (Z.of_nat j) = true) ->
  let at_ l := Z.of_nat (length (filter (fun j => Z.testbit (mf_map mf) (Z.of_nat j) = true) l)) in
  (if Z.land (mf_map mf) (2 ^ Z.of_nat i) =? 0 then Ok (0, at_ pre)
   else let* v := ld_value mf (at_ pre) in Ok (v, at_ pre + 1))
  = Ok (nth i w 0, at_ (pre ++ [i])).
Proof.
  intros H E Hsub. cbv zeta. rewrite land_one_bit, filter_app, length_app.
  rewrite filter_cons. destruct (Z.testbit (mf_map mf) (Z.of_nat i)) eqn:Eb; cbn [negb].
  - rewrite (filter_below _ m pre i post E Hsub), decide_True by done.
    destruct (one_bits_elem m pre i post E) as [_ Hi].
    rewrite (ld_value_at mf w _ i _ H (one_bits_at _ i Hi Eb)). cbn [rbind length filter list_filter]. do 2 f_equal. lia.
  - rewrite decide_False, (rep_out mf w H i Eb) by done. cbn [length filter list_filter]. do 2 f_equal. lia.
Qed.

Lemma equal_any_map_rep ma a mb b : mf_rep ma a -> mf_rep mb b ->
  equal_any_map ma mb (mf_map ma) (mf_map mb) = Ok (flow_equal a b).
Proof.
  intros Ha Hb. unfold equal_any_map. set (m := Z.lor (mf_map ma) (mf_map mb)).
  assert (in_u64 m) as Hm by (apply lor_range; [lia | apply (rep_map _ a Ha) | apply (rep_map _ b Hb)]).
  assert (forall j, Z.testbit (mf_map ma) (Z.of_nat j) = true -> Z.testbit m (Z.of_nat j) = true) as Sa.
  { intros j Hj. unfold m. rewrite Z.lor_spec, Hj. done. }
  assert (forall j, Z.testbit (mf_map mb) (Z.of_nat j) = true -> Z.testbit m (Z.of_nat j) = true) as Sb.
  { intros j Hj. unfold m. rewrite Z.lor_spec, Hj. apply orb_true_r. }
  rewrite (for_each_bits _ _ (fun i '(ap, bp) =>
      let* (a_value, ap) := if Z.land (mf_map ma) (2 ^ Z.of_nat i) =? 0 then Ok (0, ap)
                            else let* v := ld_value ma ap in Ok (v, ap + 1) in
      let* (b_value, bp) := if Z.land (mf_map mb) (2 ^ Z.of_nat i) =? 0 then Ok (0, bp)
                            else let* v := ld_value mb bp in Ok (v, bp + 1) in
      Ok (if negb (a_value =? b_value) then inr false else inl (ap, bp)))).
  2:{ done. } 2:{ intros m' i [? ?] (_ & -> & _). done. }
  set (at_ := fun n l => Z.of_nat (length (filter (fun j => Z.testbit n (Z.of_nat j) = true) l))).
  pose proof (for_bits_st (fun pre => (at_ (mf_map ma) pre, at_ (mf_map mb) pre))
    (fun i => nth i a 0 =? nth i b 0) false) as L. change (0, 0) with (at_ (mf_map ma) [], at_ (mf_map mb) []).
  rewrite L; clear L.
  - cbn [rbind]. unfold flow_equal. destruct (forallb _ _) eqn:E.
    + rewrite forallb_forall in E. rewrite bool_decide_eq_true_2; [done|].
      pose proof (rep_len _ _ Ha) as La. pose proof (rep_len _ _ Hb) as Lb.
      apply words_eq; [lia|]. intros i Hi.
      destruct (Z.testbit m (Z.of_nat i)) eqn:Eb.
      * apply Z.eqb_eq, E, list_elem_of_In, elem_of_one_bits. pose proof FLOW_U32S_64. split; [done | lia].
      * unfold m in Eb. rewrite Z.lor_spec in Eb. apply orb_false_elim in Eb as [Eb1 Eb2].
        rewrite (rep_out _ _ Ha i Eb1), (rep_out _ _ Hb i Eb2). done.
    + rewrite bool_decide_eq_false_2; [done|]. intros ->. rewrite (proj2 (forallb_forall _ _)) in E; [done|].
      intros i _. apply Z.eqb_refl.
  - intros pre i post E. unfold at_. rewrite (step_value ma a m pre i post Ha E Sa). cbn [rbind].
    rewrite (step_value mb b m pre i post Hb E Sb). cbn [rbind]. destruct (_ =? _); done.
Qed.

Lemma miniflow_equal_rep ma a mb b : mf_rep ma a -> mf_rep mb b ->
  miniflow_equal ma mb = Ok (flow_equal a b).
Proof.
  intros Ha Hb. unfold miniflow_equal. destruct (Z.eqb_spec (mf_map ma) (mf_map mb)).
  - apply equal_same_map_rep; done.
  - apply equal_any_map_rep; done.
Qed.

(** ** Masks *)

Lemma has_extra_spec a b : length a = length b ->
  flow_wildcards_has_extra a b = false <-> forall i, Z.land (nth i a 0) (nth i b 0) = nth i b 0.
Proof.
  revert b. induction a as [|x a IH]; intros [|y b] Hl; try done.
  - split; [|done]. intros _ i. destruct i; done.
  - cbn [flow_wildcards_has_extra]. destruct (Z.eqb_spec (Z.land x y) y) as [E|E]; cbn [negb].
    + rewrite IH by (cbn in *; lia). split; [intros H [|i]; [done | apply H] | intros H i; apply (H (S i))].
    + split; [done|]. intros H. destruct (E (H 0%nat)).
Qed.

Lemma minimask_has_extra_rep ma a mb b : mf_rep (masks ma) a -> mf_rep (masks mb) b ->
  minimask_has_extra target ma mb = Ok (flow_wildcards_has_extra a b).
Proof.
  intros Ha Hb. unfold minimask_has_extra. set (m := Z.lor (mf_map (masks ma)) (mf_map (masks mb))).
  assert (in_u64 m) as Hm by (apply lor_range; [lia | apply (rep_map _ a Ha) | apply (rep_map _ b Hb)]).
  rewrite (for_each_bits _ _ (fun i (_ : unit) => let* x := miniflow_get target (masks ma) (Z.of_nat i) in
     let* y := miniflow_get target (masks mb) (Z.of_nat i) in
     Ok (if negb (Z.land x y =? y) then inr true else inl tt))).
  2:{ done. } 2:{ intros m' i [] (-> & _). done. }
  rewrite (for_bits_st (fun _ => tt) (fun i => Z.land (nth i a 0) (nth i b 0) =? nth i b 0) true).
  - cbn [rbind]. f_equal. destruct (forallb _ _) eqn:E; symmetry.
    + apply has_extra_spec; [rewrite (rep_len _ _ Ha), (rep_len _ _ Hb); done|].
      rewrite forallb_forall in E. intros i. destruct (Z.testbit (mf_map (masks mb)) (Z.of_nat i)) eqn:Eb.
      * apply Z.eqb_eq, E, list_elem_of_In, elem_of_one_bits. pose proof FLOW_U32S_64.
        pose proof (rep_in _ _ Hb i Eb). unfold m. rewrite Z.lor_spec, Eb, orb_true_r. split; [done | lia].
      * rewrite (rep_out _ _ Hb i Eb). apply Z.land_0_r.
    + apply not_false_is_true. intros Hn. rewrite has_extra_spec in Hn by (rewrite (rep_len _ _ Ha), (rep_len _ _ Hb); done).
      rewrite (proj2 (forallb_forall _ _)) in E; [done|]. intros i _. apply Z.eqb_eq, Hn.
  - intros pre i post E. destruct (one_bits_elem _ _ _ _ E) as [_ Hi].
    rewrite (miniflow_get_rep _ a), (miniflow_get_rep _ b) by done. cbn [rbind]. destruct (_ =? _); done.
Qed.

Lemma minimask_is_catchall_rep ma a : mf_rep (masks ma) a ->
  minimask_is_catchall ma = Ok (flow_wildcards_is_catchall a).
Proof.
  intros Ha. unfold minimask_is_catchall.
  rewrite (for_each_bits _ _ (fun i p => let* v := ld_value (masks ma) p in
    Ok (if negb (v =? 0) then inr false else inl (p + 1)))).
  2:{ apply (rep_map _ a Ha). } 2:{ done. }
  rewrite (for_bits_st (fun pre => Z.of_nat (length pre)) (fun i => nth i a 0 =? 0) false).
  - cbn [rbind]. f_equal. unfold flow_wildcards_is_catchall.
    transitivity (forallb (fun i => nth i a 0 =? 0) (one_bits (mf_map (masks ma)))); [destruct (forallb _ _); done|].
    apply eq_true_iff_eq. rewrite !forallb_forall. split; intros E x Hx.
    + apply list_elem_of_In, list_elem_of_lookup in Hx as [i Hi].
      destruct (Z.testbit (mf_map (masks ma)) (Z.of_nat i)) eqn:Eb.
      * rewrite <- (nth_lookup_Some _ _ 0 _ Hi). apply E, list_elem_of_In, elem_of_one_bits.
        pose proof FLOW_U32S_64. pose proof (rep_in _ _ Ha i Eb). split; [done | lia].
      * rewrite <- (nth_lookup_Some _ _ 0 _ Hi), (rep_out _ _ Ha i Eb). done.
    + destruct (a !! x) as [y|] eqn:Ey; [|rewrite nth_zero_len by (apply lookup_ge_None, Ey); done].
      rewrite (nth_lookup_Some _ _ 0 _ Ey). apply E, list_elem_of_In. apply list_elem_of_lookup_2 in Ey. done.
  - intros pre i post E. rewrite (ld_value_at _ a pre i post Ha E). cbn [rbind]. rewrite length_app. cbn [length].
    destruct (_ =? 0); cbn [negb]; [do 2 f_equal; lia | done].
Qed.

(** The map of a list of positions. *)
Definition map_of (l : list nat) : Z := fold_left (fun m i => Z.lor m (2 ^ Z.of_nat i)) l 0.

Lemma map_of_snoc l i : map_of (l ++ [i]) = Z.lor (map_of l) (2 ^ Z.of_nat i).
Proof. unfold map_of. rewrite fold_left_app. done. Qed.

Lemma map_of_bits l j : Z.testbit (map_of l) (Z.of_nat j) = bool_decide (j ∈ l).
Proof.
  induction l as [|i l IH] using rev_ind; [rewrite Z.testbit_0_l; rewrite bool_decide_eq_false_2; [done | set_solver]|].
  rewrite map_of_snoc, Z.lor_spec, IH. destruct (decide (j = i)) as [->|Hn].
  - rewrite Z.pow2_bits_true, orb_true_r by lia. rewrite bool_decide_eq_true_2; [done | set_solver].
  - rewrite Z.pow2_bits_false, orb_false_r by lia. apply bool_decide_ext. set_solver.
Qed.

Lemma map_of_u64 l : (forall i, i ∈ l -> (i < 64)%nat) -> in_u64 (map_of l).
Proof.
  induction l as [|i l IH] using rev_ind; intros H; [unfold in_u64, map_of; cbn; lia|].
  rewrite map_of_snoc. apply lor_range; [lia | apply IH; set_solver|].
  split; [lia|]. apply Z.pow_lt_mono_r; [lia..|]. specialize (H i). set_solver by lia.
Qed.

(** The positions that a test keeps are the 1-bits of their map. *)
Lemma one_bits_filter m (keep : nat -> bool) :
  one_bits (map_of (filter (fun i => keep i = true) (one_bits m))) = filter (fun i => keep i = true) (one_bits m).
Proof.
  set (F := filter _ (one_bits m)). rewrite (one_bits_whole (map_of F)).
  assert (forall i, (i < 64)%nat -> Z.testbit (map_of F) (Z.of_nat i) = keep i && Z.testbit m (Z.of_nat i)) as HF.
  { intros i Hi. rewrite map_of_bits. apply eq_true_iff_eq. rewrite bool_decide_eq_true, andb_true_iff.
    unfold F. rewrite list_elem_of_filter, elem_of_one_bits. naive_solver. }
  assert (F = filter (fun i => keep i = true) (one_bits_from 0 64 m)) as EF by (unfold F; rewrite (one_bits_whole m); done).
  etrans; [|symmetry; exact EF]. clear EF. clearbody F. unfold one_bits_from.
  assert (forall i, i ∈ seq 0 64 -> (i < 64)%nat) as Hl by (intros i Hi; apply elem_of_seq in Hi; lia).
  revert Hl. generalize (seq 0 64) as l. induction l as [|i l IH]; intros Hl; [done|].
  rewrite !filter_cons, HF by (apply Hl; set_solver).
  assert (forall j, j ∈ l -> (j < 64)%nat) as Hl' by (intros j Hj; apply Hl; set_solver).
  destruct (Z.testbit m (Z.of_nat i)).
  - rewrite (decide_True (P := true = true)), filter_cons, andb_true_r by done.
    destruct (decide (keep i = true)); rewrite IH by done; done.
  - rewrite andb_false_r, !decide_False by done. apply IH, Hl'.
Qed.

Lemma nth_zip_land a b i : length a = length b ->
  nth i (zip_with Z.land a b) 0 = Z.land (nth i a 0) (nth i b 0).
Proof.
  intros Hl. destruct (a !! i) as [x|] eqn:Ex.
  - destruct (lookup_lt_is_Some_2 b i) as [y Ey]; [apply lookup_lt_Some in Ex; lia|].
    rewrite (nth_lookup_Some _ _ 0 _ Ex), (nth_lookup_Some _ _ 0 _ Ey). apply nth_lookup_Some.
    rewrite lookup_zip_with, Ex, Ey. done.
  - apply lookup_ge_None in Ex. rewrite (nth_zero_len a), nth_zero_len by (rewrite ?length_zip_with; lia). done.
Qed.

Lemma zip_land_u32 a b : Forall in_u32 b -> Forall in_u32 (zip_with Z.land a b).
Proof.
  intros Hb. apply Forall_lookup. intros i x. rewrite lookup_zip_with.
  destruct (a !! i) as [u|]; [|done]. destruct (b !! i) as [v|] eqn:E2; [|done]. cbn. intros [= <-].
  apply land_range_r; [lia|]. apply (Forall_lookup_1 _ _ _ _ Hb E2).
Qed.

Lemma st_value_set_map mf M k v : st_value (set_map mf M) k v = rmap (fun x => set_map x M) (st_value mf k v).
Proof. unfold st_value. destruct mf as [? [| |] ?]; cbn; destruct (decide _); done. Qed.

(** Distinct positions below a bound are no more than the bound. *)
Lemma positions_fit l n : NoDup l -> (forall i, i ∈ l -> (i < n)%nat) -> (length l <= n)%nat.
Proof.
  intros Hd Hl. rewrite <- (length_seq n 0). apply submseteq_length, NoDup_submseteq; [done|].
  intros x Hx. apply elem_of_seq. specialize (Hl x Hx). lia.
Qed.

(** [minimask_combine]: the words that both masks have bits of in common. *)
Lemma minimask_combine_rep dst ma a mb b storage : mf_rep (masks ma) a -> mf_rep (masks mb) b ->
  length storage = FLOW_U32S target ->
  exists mc, minimask_combine target dst ma mb storage = Ok mc /\
    mf_rep (masks mc) (zip_with Z.land a b) /\ tight (masks mc) (zip_with Z.land a b).
Proof.
  intros Ha Hb Hs. unfold minimask_combine. pose proof FLOW_U32S_64 as H64.
  set (m := Z.land (mf_map (masks ma)) (mf_map (masks mb))).
  pose proof (rep_len _ _ Ha) as La. pose proof (rep_len _ _ Hb) as Lb.
  assert (in_u64 m) as Hm by (apply land_u64; [apply (rep_map _ a Ha) | apply (rep_map _ b Hb)]).
  set (g := fun i => Z.land (nth i a 0) (nth i b 0)).
  set (sel := fun pre : list nat => filter (fun i => negb (g i =? 0) = true) pre).
  set (d0 := set_values (masks dst) (Storage storage)).
  set (st := fun pre : list nat => (set_map (with_block d0 (filled (map g (sel pre)) storage)) (map_of (sel pre)),
    Z.of_nat (length (sel pre)))).
  rewrite (for_map_bits _ _ (fun i '(dst, n) => let* x := miniflow_get target (masks ma) (Z.of_nat i) in
      let* y := miniflow_get target (masks mb) (Z.of_nat i) in
      let mask := Z.land x y in
      if mask =? 0 then Ok (dst, n)
      else let dst := set_map dst (Z.lor (mf_map dst) (2 ^ Z.of_nat i)) in
           let* dst := st_value dst n mask in Ok (dst, n + 1))).
  2:{ done. } 2:{ intros m' i [? ?] (-> & -> & _). done. }
  change (set_map d0 0, 0) with (st []). rewrite (fold_bits_st st).
  - cbn [rbind]. eexists. split; [done|]. cbn [masks st fst]. unfold st. cbn [fst].
    set (l := sel (one_bits m)). 
    assert (one_bits (map_of l) = l) as Hob by (apply (one_bits_filter m (fun i => negb (g i =? 0)))).
    assert (forall i, nth i (zip_with Z.land a b) 0 = g i) as Hn.
    { intros i. apply nth_zip_land. lia. }
    assert (forall i, Z.testbit (map_of l) (Z.of_nat i) = negb (g i =? 0)) as Ht.
    { intros i. rewrite map_of_bits. apply eq_true_iff_eq. rewrite bool_decide_eq_true. unfold l, sel.
      rewrite list_elem_of_filter, elem_of_one_bits. split; [tauto|]. intros Hg. split; [done|].
      apply negb_true_iff, Z.eqb_neq in Hg. unfold m. rewrite Z.land_spec.
      destruct (Z.testbit (mf_map (masks ma)) (Z.of_nat i)) eqn:E1.
      - destruct (Z.testbit (mf_map (masks mb)) (Z.of_nat i)) eqn:E2; [pose proof (rep_in _ _ Ha i E1); split; [done | lia]|].
        destruct Hg. unfold g. rewrite (rep_out _ _ Hb i E2). apply Z.land_0_r.
      - destruct Hg. unfold g. rewrite (rep_out _ _ Ha i E1). apply Z.land_0_l. }
    split; [|intros i; rewrite Hn; apply Ht].
    split.
    + apply map_of_u64. intros i Hi. unfold l, sel in Hi. apply list_elem_of_filter in Hi as [_ Hi]. apply elem_of_one_bits in Hi. tauto.
    + rewrite length_zip_with. lia.
    + apply zip_land_u32, (rep_u32 _ _ Hb).
    + intros i Hi. rewrite Hn. change (Z.testbit (map_of l) (Z.of_nat i) = false) in Hi. rewrite Ht in Hi.
      apply negb_false_iff, Z.eqb_eq in Hi. done.
    + intros i Hi. change (Z.testbit (map_of l) (Z.of_nat i) = true) in Hi. rewrite Ht in Hi.
      apply negb_true_iff, Z.eqb_neq in Hi. destruct (decide (i < length a)%nat); [lia|].
      destruct Hi. unfold g. rewrite nth_zero_len by lia. apply Z.land_0_l.
    + eexists. change (values (set_map ?x _)) with (values x). rewrite values_with_block. unfold filled. f_equal.
      cbn [mf_map set_map]. rewrite Hob. rewrite map_map. apply map_ext. intros i. rewrite Hn. done.
  - intros pre i post E. unfold st at 1. cbv beta iota. destruct (one_bits_elem _ _ _ _ E) as [Hbit Hi].
    rewrite (miniflow_get_rep _ a), (miniflow_get_rep _ b) by done. cbn [rbind]. fold (g i).
    assert (sel (pre ++ [i]) = if g i =? 0 then sel pre else sel pre ++ [i]) as Es.
    { unfold sel. rewrite filter_app, filter_cons. destruct (g i =? 0); cbn [negb];
        [rewrite decide_False by done; apply app_nil_r | rewrite decide_True by done; done]. }
    unfold st. rewrite Es. destruct (g i =? 0); [done|].
    assert (length (sel pre) < length storage)%nat as Hlen.
    { assert (length (sel pre ++ [i]) <= FLOW_U32S target)%nat as Hle.
      { apply positions_fit.
        - assert (NoDup (pre ++ i :: post)) as Hnd by (rewrite <- E; apply one_bits_nodup).
          apply NoDup_app in Hnd as (H1 & H2 & _). apply NoDup_app. split; [apply NoDup_filter, H1|].
          split; [|apply NoDup_singleton]. intros x Hx. apply list_elem_of_filter in Hx. set_solver.
        - intros x Hx. apply (rep_in _ _ Ha). assert (x ∈ one_bits m) as Hx'.
          { rewrite E. apply elem_of_app in Hx as [Hx|Hx]; [apply list_elem_of_filter in Hx|]; set_solver. }
          apply elem_of_one_bits in Hx' as [Hx' _]. unfold m in Hx'. rewrite Z.land_spec in Hx'.
          apply andb_true_iff in Hx' as [Hx' _]. done. }
      rewrite length_app in Hle. cbn [length] in Hle. lia. }
    cbn zeta.
    change (set_map (set_map ?x ?y) ?z) with (set_map x z). rewrite st_value_set_map.
    rewrite st_value_filled by (rewrite ?length_map; done). cbn [rmap rbind].
    rewrite map_app, map_of_snoc, length_app. cbn [map length]. do 2 f_equal. lia.
Qed.

(** ** Copies *)

Lemma rep_same_values mf mf' w rest : mf_rep mf w -> mf_map mf' = mf_map mf ->
  values mf' = map (fun i => Some (nth i w 0)) (one_bits (mf_map mf)) ++ rest -> mf_rep mf' w.
Proof.
  intros [H1 H2 H3 H4 H5 _] Em Ev. split; rewrite ?Em; try done. exists rest. done.
Qed.

Lemma n_values_rep mf w : mf_rep mf w -> miniflow_n_values target mf = Z.of_nat (length (one_bits (mf_map mf))).
Proof. intros H. apply count_1bits_ok, (rep_map _ _ H). Qed.

Lemma copy_values_rep dst src w : mf_rep src w -> mf_map dst = mf_map src ->
  (length (one_bits (mf_map src)) <= length (values dst))%nat ->
  exists mf, copy_values dst src (miniflow_n_values target src) = Ok mf /\ mf_rep mf w /\
    mf_map mf = mf_map src /\ (has_room dst -> has_room mf).
Proof.
  intros H Em Hl. unfold copy_values. rewrite (n_values_rep src w H), Nat2Z.id.
  destruct (rep_values _ _ H) as [rest Hv].
  assert (length (one_bits (mf_map src)) <= length (values src))%nat as Hs by (rewrite Hv, length_app, length_map; lia).
  rewrite decide_True by done. eexists. split; [done|]. rewrite map_with_block.
  split; [|split; [done|]; intros Hr; apply room_with_block; [exact Hr|]; rewrite length_app, length_take, length_drop; lia].
  apply (rep_same_values src _ w (drop (length (one_bits (mf_map src))) (values dst)) H); [rewrite map_with_block; done|].
  rewrite values_with_block, Hv. f_equal. rewrite take_app_le, take_ge by (rewrite length_map; lia). done.
Qed.

Lemma copy_values_map dst src n M : copy_values (set_map dst M) src n = rmap (fun x => set_map x M) (copy_values dst src n).
Proof. unfold copy_values. destruct dst as [? [| |] ?]; cbn; destruct (decide _); done. Qed.

Lemma miniflow_clone_rep dst src w : has_room dst -> mf_rep src w ->
  exists mf, miniflow_clone target dst src = Ok mf /\ mf_rep mf w /\ mf_map mf = mf_map src /\ has_room mf.
Proof.
  intros Hr H. unfold miniflow_clone.
  destruct (copy_values_rep (set_values (set_map dst (mf_map src)) (miniflow_alloc_values target (miniflow_n_values target src))) src w H)
    as (mf & E & Hm & Em & Hroom); [done | |exists mf; split; [exact E|]; split; [done|]; split; [done | apply Hroom, Hr]].
  rewrite (n_values_rep src w H).
  pose proof (alloc_length (set_map dst (mf_map src)) (Z.of_nat (length (one_bits (mf_map src)))) Hr ltac:(lia)) as Ha.
  rewrite Nat2Z.id in Ha. exact Ha.
Qed.

(** What [values] points to is large enough wherever it is. *)
Lemma miniflow_move_rep dst src w : has_room dst -> has_room src -> mf_rep src w ->
  exists mf, miniflow_move target dst src = Ok mf /\ mf_rep mf w /\ mf_map mf = mf_map src.
Proof.
  intros Hd Hs H. unfold miniflow_move. destruct (mf_values src) eqn:Ev.
  - destruct (copy_values_rep (set_map (set_values dst Inline) (mf_map src)) src w H) as (mf & E & Hm & Em & _); [done | |].
    + destruct (rep_values _ _ H) as [rest Hv]. unfold values in Hv |- *. rewrite Ev in Hv. cbn.
      rewrite Hd, <- Hs, Hv, length_app, length_map. lia.
    + rewrite copy_values_map in E. destruct (copy_values (set_values dst Inline) src _) as [x|]; [|done].
      cbn [rmap rbind] in E |- *. injection E as <-. eexists. split; [done|]. done.
  - eexists. split; [done|]. split; [|done].
    destruct (rep_values _ _ H) as [rest Hv]. apply (rep_same_values src _ w rest H); [done|].
    rewrite <- Hv. unfold values. rewrite Ev. done.
  - eexists. split; [done|]. split; [|done].
    destruct (rep_values _ _ H) as [rest Hv]. apply (rep_same_values src _ w rest H); [done|].
    rewrite <- Hv. unfold values. rewrite Ev. done.
Qed.

(** ** Matches *)

(** A compressed match: the words of the flow where the mask has words. *)
Definition mm_rep (m : minimatch) (f w : list Z) : Prop :=
  mf_rep (mm_flow m) (in_map (mf_map (masks (mm_mask m))) f) /\ mf_rep (masks (mm_mask m)) w /\
  tight (masks (mm_mask m)) w /\ mf_map (mm_flow m) = mf_map (masks (mm_mask m)).

Lemma minimatch_init_rep dst f w : has_room (mm_flow dst) -> has_room (masks (mm_mask dst)) ->
  length f = FLOW_U32S target -> Forall in_u32 f -> length w = FLOW_U32S target -> Forall in_u32 w ->
  exists m, minimatch_init target dst (Mk_match f w) = Ok m /\ mm_rep m f w.
Proof.
  intros Hrf Hrw Hlf Hf Hlw Hw. unfold minimatch_init, minimask_init. cbn [match_wc match_flow].
  destruct (miniflow_init_rep (masks (mm_mask dst)) w Hrw Hlw Hw) as (mk & -> & Hk & Ht & _). cbn [rmap rbind].
  unfold miniflow_init_with_minimask. cbn [masks].
  destruct (miniflow_init_ok (set_map (mm_flow dst) (mf_map mk)) f (miniflow_n_values target (set_map (mm_flow dst) (mf_map mk))))
    as (mf & -> & Em & Hm & _); try done.
  - apply (rep_map _ _ Hk).
  - apply (rep_in _ _ Hk).
  - apply count_1bits_ok, (rep_map _ _ Hk).
  - eexists. split; [done|]. split; [exact Hm|]. split; [exact Hk|]. split; [exact Ht|]. exact Em.
Qed.

(** The words outside the map are masked out. *)
Lemma land_in_map m w f i : mf_rep m w ->
  Z.land (nth i (in_map (mf_map m) f) 0) (nth i w 0) = Z.land (nth i f 0) (nth i w 0).
Proof.
  intros H. rewrite nth_in_map. destruct (Z.testbit (mf_map m) (Z.of_nat i)) eqn:E; [done|].
  rewrite (rep_out _ _ H i E), !Z.land_0_r. done.
Qed.

Lemma equal_except_in_map m w f t : mf_rep m w -> length f = FLOW_U32S target -> length t = FLOW_U32S target ->
  flow_equal_except (in_map (mf_map m) f) t w = flow_equal_except f t w.
Proof.
  intros H Hf Ht. pose proof (rep_len _ _ H). apply eq_true_iff_eq.
  rewrite !equal_except_spec by (unfold in_map; rewrite ?length_imap; lia).
  split; intros E i; specialize (E i); rewrite nth_in_map in *;
    (destruct (Z.testbit (mf_map m) (Z.of_nat i)) eqn:Eb; [done|]); rewrite (rep_out _ _ H i Eb); apply Z.land_0_r.
Qed.

Lemma minimatch_matches_flow_rep m f w t : mm_rep m f w -> length f = FLOW_U32S target -> length t = FLOW_U32S target ->
  minimatch_matches_flow m t = Ok (flow_equal_except f t w).
Proof.
  intros (Hf & Hw & _ & Em) Hlf Hlt. unfold minimatch_matches_flow. set (fm := in_map _ f) in *.
  rewrite (for_each_bits _ _ (fun i '(flowp, maskp) => let* x := ld_value (mm_flow m) flowp in
      let* y := word t (Z.of_nat i) in let* k := ld_value (masks (mm_mask m)) maskp in
      Ok (if negb (Z.land (Z.lxor x y) k =? 0) then inr false else inl (flowp + 1, maskp + 1)))).
  2:{ apply (rep_map _ _ Hf). } 2:{ intros m' i [? ?] (-> & _). done. }
  rewrite (for_bits_st (fun pre => (Z.of_nat (length pre), Z.of_nat (length pre)))
    (fun i => Z.land (Z.lxor (nth i fm 0) (nth i t 0)) (nth i w 0) =? 0) false).
  - cbn [rbind]. rewrite Em, (masked_bits fm t _ w Hw) by (try done; unfold fm, in_map; rewrite length_imap; done).
    unfold fm. rewrite equal_except_in_map by done. destruct (flow_equal_except f t w); done.
  - intros pre i post E. pose proof E as E2. rewrite Em in E2.
    destruct (part_bound _ _ _ _ pre i post Hf (part_all _ _ Hf) E) as [Hi _].
    rewrite (ld_value_at _ fm pre i post Hf E), word_nth by done. cbn [rbind].
    rewrite (ld_value_at _ w pre i post Hw E2). cbn [rbind]. rewrite length_app. cbn [length].
    destruct (_ =? 0); cbn [negb]; [|done]. do 3 f_equal; lia.
Qed.

Lemma hash_at_in_map bits m w f basis : mf_rep m w ->
  hash_at bits (in_map (mf_map m) f) w basis = hash_at bits f w basis.
Proof. intros H. unfold hash_at. f_equal. apply map_ext. intros i. apply land_in_map, H. Qed.

Lemma hash_range_loop_rep m f w k h : mm_rep m f w ->
  forall bits pre post, one_bits (mf_map (masks (mm_mask m))) = pre ++ bits ++ post ->
  forall i0, (k + i0)%nat = length pre ->
  hash_range_loop m (Z.of_nat k) (length bits) (Z.of_nat i0) h =
    Ok (hash_at bits f w h).
Proof.
  intros (Hf & Hw & _ & Em). intros bits. revert h. induction bits as [|i bits IH]; intros h pre post E i0 Hk; [done|].
  cbn [length hash_range_loop]. replace (Z.of_nat k + Z.of_nat i0) with (Z.of_nat (length pre)) by lia.
  cbn [app] in E. rewrite (ld_value_at _ w pre i (bits ++ post) Hw E).
  rewrite (ld_value_at _ _ pre i (bits ++ post) Hf) by (rewrite Em; exact E). cbn [rbind].
  replace (Z.of_nat i0 + 1) with (Z.of_nat (S i0)) by lia.
  rewrite (IH _ (pre ++ [i]) post); [| rewrite E, <- app_assoc; done | rewrite length_app; cbn [length]; lia].
  rewrite (land_in_map _ w f i Hw). done.
Qed.

Lemma minimatch_hash_range_rep m f w s e basis : mm_rep m f w -> (s <= e)%nat -> (s < 64)%nat ->
  let N := mf_map (masks (mm_mask m)) in
  let h := hash_at (one_bits_from s (clip e - s) N) f w basis in
  minimatch_hash_range target m (Z.of_nat s) (Z.of_nat e) basis =
    Ok (mhash_finish h (Z.of_nat (length (one_bits_from 0 s N) + length (one_bits_from s (clip e - s) N)) * 4), h).
Proof.
  intros H Hse Hs N h. unfold minimatch_hash_range. pose proof H as (_ & Hw & _).
  destruct (map_in_range_rep _ w s e Hw Hse Hs) as (mm & k & -> & [Hu (p & q & E & Hp)] & Hk & Hm).
  rewrite count_1bits_ok, Nat2Z.id by done. change 0 with (Z.of_nat 0).
  rewrite (hash_range_loop_rep m f w k basis H (one_bits mm) p q) by (done || lia). cbn [rbind].
  rewrite Hm. fold N. fold h. rewrite Hk. fold N. do 4 f_equal. lia.
Qed.

End Facts.
