(* ===== verification/MiniflowProps.v ===== *)
(** * Compressed flows: the properties

    What the compressed flows, masks and matches of [Miniflow] promise to the
    flow tables: they stand for flows and masks exactly, comparisons and hashes
    do not depend on the representation, and a match and the flows it matches
    have the same hash, over the whole mask and segment by segment. *)

From Stdlib Require Import ZArith Lia List Bool.
From stdpp Require Import base option list_relations list sets.
From S2P Require Import Prelude Bytes Hash Csum Packets PacketsFacts PacketsProps Bits Flow FlowFacts Miniflow.
From S2P Require Import FlowCompose MiniflowFacts.
#[local] Open Scope Z_scope.
#[local] Open Scope res_scope.

(** ** The words of a flow *)

Lemma words32_app a b n : length a = (4 * n)%nat -> words32 (a ++ b) = words32 a ++ words32 b.
Proof.
  revert a. induction n as [|n IH]; intros a Ha.
  - destruct a; [done | cbn in Ha; lia].
  - destruct a as [|b0 [|b1 [|b2 [|b3 a]]]]; try (cbn in Ha; lia).
    cbn [words32 app]. rewrite IH; [done | cbn in Ha; lia].
Qed.

Lemma words32_length l n : length l = (4 * n)%nat -> length (words32 l) = n.
Proof.
  revert l. induction n as [|n IH]; intros l Hl.
  - destruct l; [done | cbn in Hl; lia].
  - destruct l as [|b0 [|b1 [|b2 [|b3 l]]]]; try (cbn in Hl; lia).
    cbn [words32 length]. rewrite IH; [done | cbn in Hl; lia].
Qed.

Lemma words32_u32 l : bytes_ok l -> Forall in_u32 (words32 l).
Proof.
  enough (forall n l, (length l <= n)%nat -> bytes_ok l -> Forall in_u32 (words32 l)) as H.
  { intros Hl. apply (H (length l)); done. }
  induction n as [|n IH]; intros l' Hn Hl; destruct l' as [|b0 [|b1 [|b2 [|b3 l']]]]; try constructor;
    try (cbn in Hn; lia).
  - apply le_word4_u32. unfold bytes_ok in *. rewrite !Forall_cons in *. pose proof (Forall_nil_2 in_u8). tauto.
  - apply IH; [cbn in Hn; lia|]. unfold bytes_ok in *. rewrite !Forall_cons in *. tauto.
Qed.

Section Words.
Variable target : abi.
Hypothesis Htarget : target = i686 \/ target = x86_64.

Ltac byte_list := repeat (apply Forall_cons; split; [assumption|]); apply Forall_nil_2.

(** The parts of the structure around the tag and around the metadata. *)
Definition before_tag (f : flow) : list Z :=
  tnl_bytes target (tunnel f) ++ le64_bytes (metadata f) ++ concat (map le32_bytes (regs f))
  ++ le32_bytes (skb_priority f) ++ le32_bytes (pkt_mark f) ++ le32_bytes (in_port f) ++ dl_src f ++ dl_dst f.

Definition after_tag (f : flow) : list Z :=
  le32_bytes (mpls_lse f) ++ ipv6_src f ++ ipv6_dst f ++ nd_target f
  ++ le32_bytes (ipv6_label f) ++ le32_bytes (nw_src f) ++ le32_bytes (nw_dst f)
  ++ [nw_frag f; nw_tos f; nw_ttl f; nw_proto f] ++ arp_sha f ++ arp_tha f
  ++ le16_bytes (tcp_flags f) ++ le16_bytes (pad f) ++ le16_bytes (tp_src f) ++ le16_bytes (tp_dst f)
  ++ replicate (sizeof_flow target - (sizeof_flow_tnl target + 156)) 0.

Lemma flow_bytes_parts f :
  flow_bytes target f = before_tag f ++ (le16_bytes (dl_type f) ++ le16_bytes (vlan_tci f)) ++ after_tag f.
Proof. unfold flow_bytes, before_tag, after_tag. rewrite <- !app_assoc. done. Qed.

Lemma length_le64 x : length (le64_bytes x) = 8%nat.
Proof. reflexivity. Qed.
Lemma length_le32 x : length (le32_bytes x) = 4%nat.
Proof. reflexivity. Qed.
Lemma length_le16 x : length (le16_bytes x) = 2%nat.
Proof. reflexivity. Qed.

Lemma le64_ok x : in_u64 x -> bytes_ok (le64_bytes x).
Proof.
  intros Hx. unfold le64_bytes, in_u64 in *. apply Forall_app. split; apply le32_bytes_ok; unfold in_u32.
  - apply Z.mod_pos_bound. lia.
  - split; [apply Z.div_pos; lia | apply Z.div_lt_upper_bound; lia].
Qed.

Lemma regs_bytes l : Forall in_u32 l -> bytes_ok (concat (map le32_bytes l)) /\
  length (concat (map le32_bytes l)) = (4 * length l)%nat.
Proof.
  induction 1 as [|r l Hr _ [IH1 IH2]]; [split; [constructor | reflexivity]|]. cbn [map concat]. split.
  - apply Forall_app. split; [apply le32_bytes_ok, Hr | exact IH1].
  - rewrite length_app, IH2, length_le32. cbn [length]. lia.
Qed.

Lemma zeros_ok n : bytes_ok (replicate n 0).
Proof. apply bytes_n_zeros. Qed.

Lemma tnl_bytes_ok t : tnl_ok t -> bytes_ok (tnl_bytes target t) /\ length (tnl_bytes target t) = sizeof_flow_tnl target.
Proof.
  intros (H1 & H2 & H3 & H4 & H5 & H6). unfold tnl_bytes. split.
  - unfold bytes_ok. rewrite !Forall_app. repeat split;
      [apply le64_ok | apply le32_bytes_ok | apply le32_bytes_ok | apply le16_bytes_ok | byte_list | apply zeros_ok];
      try assumption.
  - rewrite !length_app, length_le64, !length_le32, length_le16, length_replicate. cbn [length].
    destruct Htarget as [-> | ->]; reflexivity.
Qed.

Lemma before_tag_ok f : flow_typed f -> bytes_ok (before_tag f) /\ length (before_tag f) = (sizeof_flow_tnl target + 64)%nat.
Proof.
  intros [Ht Hm [Hr Hrl] Hs Hp Hi [H1 L1] [H2 L2] _ _ _ _ _ _ _ _ _ _ _ _ _ _ _ _ _ _ _].
  destruct (tnl_bytes_ok _ Ht) as [Bt Lt], (regs_bytes _ Hr) as [Br Lr]. unfold before_tag. split.
  - unfold bytes_ok in *. rewrite !Forall_app. repeat split; try assumption; try (apply le64_ok; assumption);
      apply le32_bytes_ok; assumption.
  - rewrite !length_app, Lt, Lr, Hrl, L1, L2, length_le64, !length_le32. change FLOW_N_REGS with 8%nat. lia.
Qed.

Lemma after_tag_ok f : flow_typed f -> bytes_ok (after_tag f) /\
  length (after_tag f) = (sizeof_flow target - sizeof_flow_tnl target - 68)%nat.
Proof.
  intros [_ _ _ _ _ _ _ _ _ _ Hmp [H1 L1] [H2 L2] [H3 L3] Hl Hns Hnd Hf Hto Htt Hpr [H4 L4] [H5 L5] Htf Hpad Hts Htd].
  unfold after_tag. split.
  - unfold bytes_ok in *. rewrite !Forall_app.
    repeat split; try assumption; try (apply le32_bytes_ok; assumption); try (apply le16_bytes_ok; assumption);
      try byte_list; [|apply zeros_ok].
    apply le16_bytes_ok. rewrite Hpad. unfold in_u16. lia.
  - rewrite !length_app, L1, L2, L3, L4, L5, !length_le32, !length_le16, length_replicate. cbn [length].
    destruct Htarget as [-> | ->]; reflexivity.
Qed.

Lemma flow_u32_ok f : flow_typed f ->
  length (flow_u32 target f) = FLOW_U32S target /\ Forall in_u32 (flow_u32 target f).
Proof.
  intros Hf. destruct (before_tag_ok f Hf) as [B1 L1], (after_tag_ok f Hf) as [B2 L2]. unfold flow_u32.
  pose proof (ft_dl_type f Hf) as Hd. pose proof (ft_vlan_tci f Hf) as Hv.
  rewrite flow_bytes_parts. split.
  - apply words32_length. rewrite !length_app, L1, L2, !length_le16.
    destruct Htarget as [-> | ->]; reflexivity.
  - apply words32_u32. unfold bytes_ok in *. rewrite !Forall_app. repeat split; try assumption; apply le16_bytes_ok; assumption.
Qed.

(** The word with the tag. *)
Lemma tag_word f : flow_typed f ->
  nth (vlan_tci_ofs target / 4) (flow_u32 target f) 0 = dl_type f + 2 ^ 16 * vlan_tci f.
Proof.
  intros Hf. destruct (before_tag_ok f Hf) as [_ L1]. unfold flow_u32. rewrite flow_bytes_parts.
  rewrite (words32_app _ _ (vlan_tci_ofs target / 4)).
  2:{ rewrite L1. destruct Htarget as [-> | ->]; reflexivity. }
  assert (length (words32 (before_tag f)) = (vlan_tci_ofs target / 4)%nat) as Lw.
  { apply words32_length. rewrite L1. destruct Htarget as [-> | ->]; reflexivity. }
  rewrite app_nth2, Lw, Nat.sub_diag by lia.
  pose proof (ft_dl_type f Hf). pose proof (ft_vlan_tci f Hf). unfold in_u16 in *.
  cbn [app le16_bytes words32 nth]. unfold le_word. cbn [foldr].
  pose proof (Z.div_mod (dl_type f) (2 ^ 8)). pose proof (Z.div_mod (vlan_tci f) (2 ^ 8)). lia.
Qed.

(** The words of the metadata. *)
Lemma metadata_words f : flow_typed f ->
  nth (metadata_ofs target / 4) (flow_u32 target f) 0 = metadata f mod 2 ^ 32 /\
  nth (metadata_ofs target / 4 + 1) (flow_u32 target f) 0 = metadata f / 2 ^ 32.
Proof.
  intros Hf. destruct (tnl_bytes_ok _ (ft_tunnel f Hf)) as [_ L1]. unfold flow_u32, flow_bytes.
  rewrite (words32_app _ _ (metadata_ofs target / 4)).
  2:{ rewrite L1. destruct Htarget as [-> | ->]; reflexivity. }
  assert (length (words32 (tnl_bytes target (tunnel f))) = (metadata_ofs target / 4)%nat) as Lw.
  { apply words32_length. rewrite L1. destruct Htarget as [-> | ->]; reflexivity. }
  rewrite !app_nth2, Lw by lia. rewrite Nat.sub_diag.
  replace (metadata_ofs target / 4 + 1 - metadata_ofs target / 4)%nat with 1%nat by lia.
  pose proof (ft_metadata f Hf) as Hm. unfold in_u64 in Hm.
  set (lo := metadata f mod 2 ^ 32). set (hi := metadata f / 2 ^ 32).
  assert (0 <= lo < 2 ^ 32) by (apply Z.mod_pos_bound; lia).
  assert (0 <= hi < 2 ^ 32) by (split; [apply Z.div_pos; lia | apply Z.div_lt_upper_bound; lia]).
  split.
  - transitivity (le_word (le32_bytes lo)); [reflexivity|]. apply le_word_le32. done.
  - transitivity (le_word (le32_bytes hi)); [reflexivity|]. apply le_word_le32. done.
Qed.

End Words.

Lemma vlan_word_half t d v : in_u16 d -> in_u16 v -> t mod 4 <> 0 ->
  (if t mod 4 =? 0 then (d + 2 ^ 16 * v) mod 2 ^ 16 else (d + 2 ^ 16 * v) / 2 ^ 16) = v.
Proof.
  intros Hd Hv Ht. rewrite (proj2 (Z.eqb_neq _ _)) by done. unfold in_u16 in *.
  rewrite Z.add_comm, (Z.mul_comm (2 ^ 16)), Z.div_add_l, Z.div_small by lia. lia.
Qed.

Lemma lor_halves a b : in_u32 a -> in_u32 b -> Z.lor (Z.shiftl a 32) b = 2 ^ 32 * a + b.
Proof. intros Ha Hb. rewrite lor_add_disjoint by (lia || exact Hb). lia. Qed.

Lemma htonll_halves m : in_u64 m ->
  htonll (Z.lor (u64 (Z.shiftl (ntohl (m mod 2 ^ 32)) 32)) (ntohl (m / 2 ^ 32))) = m.
Proof.
  intros Hm. unfold in_u64 in Hm. set (lo := m mod 2 ^ 32). set (hi := m / 2 ^ 32).
  assert (in_u32 lo) as Hlo by (apply Z.mod_pos_bound; lia).
  assert (in_u32 hi) as Hhi by (split; [apply Z.div_pos; lia | apply Z.div_lt_upper_bound; lia]).
  assert (in_u32 (ntohl lo)) as Hl by apply byteswap_u32. assert (in_u32 (ntohl hi)) as Hh by apply byteswap_u32.
  rewrite u64_id.
  2:{ unfold in_u32, in_u64 in *. rewrite Z.shiftl_mul_pow2 by lia. lia. }
  rewrite lor_halves by done. unfold htonll, ntohll. rewrite (proj2 (Z.eqb_neq (htonl 1) 1)) by done.
  assert (u32 (2 ^ 32 * ntohl lo + ntohl hi) = ntohl hi) as ->.
  { unfold u32, in_u32 in *. rewrite Z.add_comm, (Z.mul_comm (2 ^ 32)), Z.mod_add, Z.mod_small by lia. done. }
  assert (u32 (Z.shiftr (2 ^ 32 * ntohl lo + ntohl hi) 32) = ntohl lo) as ->.
  { unfold in_u32 in *. rewrite Z.shiftr_div_pow2, Z.add_comm, (Z.mul_comm (2 ^ 32)), Z.div_add, Z.div_small by lia.
    apply u32_id, Hl. }
  unfold ntohl. rewrite !byteswap_invol by done. rewrite lor_halves by done.
  symmetry. unfold hi, lo. apply Z.div_mod. lia.
Qed.

(** ** The properties *)

(** A flow survives compression: initialized from a [struct flow], copied,
    moved to another structure and expanded, a compressed flow gives the flow
    back, on 32-bit and 64-bit hosts, and the tag and the metadata can be read
    off without expanding it. *)
Theorem miniflow_roundtrip target dst1 dst2 dst3 f : target = i686 \/ target = x86_64 ->
  has_room target dst1 -> has_room target dst2 -> has_room target dst3 -> flow_typed f ->
  exists m1 m2 m3, miniflow_init target dst1 (flow_u32 target f) = Ok m1 /\
    miniflow_clone target dst2 m1 = Ok m2 /\ miniflow_move target dst3 m2 = Ok m3 /\
    miniflow_expand target m3 = Ok (flow_u32 target f) /\
    miniflow_get_vid target m3 = Ok (vlan_tci_to_vid (vlan_tci f)) /\
    miniflow_get_metadata target m3 = Ok (metadata f).
Proof.
  intros Ht H1 H2 H3 Hf. destruct (flow_u32_ok target Ht f Hf) as [Hl Hu].
  destruct (miniflow_init_rep target Ht dst1 _ H1 Hl Hu) as (m1 & E1 & R1 & _ & _).
  destruct (miniflow_clone_rep target dst2 m1 _ H2 R1) as (m2 & E2 & R2 & _ & Hr2).
  destruct (miniflow_move_rep target dst3 m2 _ H3 Hr2 R2) as (m3 & E3 & R3 & _).
  exists m1, m2, m3. split; [done|]. split; [done|]. split; [done|].
  split; [apply miniflow_expand_rep; done|]. pose proof (FLOW_U32S_64 target Ht).
  split.
  - unfold miniflow_get_vid, miniflow_get_be16. change 4 with (Z.of_nat 4).
    rewrite <- Nat2Z.inj_div.
    pose proof (miniflow_get_rep target m3 _ (vlan_tci_ofs target / 4) R3) as G. unfold miniflow_get in G.
    rewrite G by (destruct Ht as [-> | ->]; vm_compute; lia). cbn [rbind].
    rewrite tag_word by done. change (Z.of_nat 4) with 4.
    rewrite vlan_word_half; [done | apply (ft_dl_type f Hf) | apply (ft_vlan_tci f Hf) | destruct Ht as [-> | ->]; vm_compute; lia].
  - unfold miniflow_get_metadata. replace (Z.of_nat (metadata_ofs target / 4) + 1) with (Z.of_nat (metadata_ofs target / 4 + 1)) by lia.
    rewrite !(miniflow_get_rep target m3 _ _ R3) by (destruct Ht as [-> | ->]; vm_compute; lia). cbn [rbind].
    destruct (metadata_words target Ht f Hf) as [-> ->]. rewrite htonll_halves by apply (ft_metadata f Hf). done.
Qed.

(** A structure before its initialization. *)
Definition raw_miniflow (target : abi) : miniflow :=
  Mk_miniflow 0 Inline (replicate (Z.to_nat (MINI_N_INLINE target)) None).

Definition sample_flow : flow :=
  Mk_flow (Mk_tnl 0 0 0 0 0 0) 0x0123456789abcdef (replicate 8 0) 0 0 1 [0; 1; 2; 3; 4; 5] [6; 7; 8; 9; 10; 11]
    (htons ETH_TYPE_IP) (htons (VLAN_CFI + 9)) 0 (replicate 16 0) (replicate 16 0) (replicate 16 0) 0
    0x0100000a 0x0200000a 0 0 64 6 (replicate 6 0) (replicate 6 0) 0 0 (htons 1000) (htons 80).

Lemma sample_typed : flow_typed sample_flow.
Proof.
  assert (bytes_n 6 [0; 1; 2; 3; 4; 5]) as H1 by (split; [repeat constructor; unfold in_u8; lia | reflexivity]).
  assert (bytes_n 6 [6; 7; 8; 9; 10; 11]) as H2 by (split; [repeat constructor; unfold in_u8; lia | reflexivity]).
  pose proof (htons_u16) as Hh. pose proof bytes_n_zeros as Hz.
  split; cbn [tunnel metadata regs skb_priority pkt_mark in_port dl_src dl_dst dl_type vlan_tci mpls_lse ipv6_src
    ipv6_dst nd_target ipv6_label nw_src nw_dst nw_frag nw_tos nw_ttl nw_proto arp_sha arp_tha tcp_flags pad
    tp_src tp_dst sample_flow]; try assumption; try apply Hh; try apply Hz; try reflexivity;
    try (unfold in_u8, in_u16, in_u32, in_u64; lia).
  - unfold tnl_ok, in_u64, in_u32, in_u16, in_u8. cbn. lia.
  - split; [repeat constructor; unfold in_u32; lia | reflexivity].
Qed.

Lemma miniflow_roundtrip_witness : flow_typed sample_flow /\ exists m1 m2 m3,
  miniflow_init i686 (raw_miniflow i686) (flow_u32 i686 sample_flow) = Ok m1 /\
  miniflow_clone i686 (raw_miniflow i686) m1 = Ok m2 /\ miniflow_move i686 (raw_miniflow i686) m2 = Ok m3 /\
  miniflow_expand i686 m3 = Ok (flow_u32 i686 sample_flow) /\ miniflow_get_vid i686 m3 = Ok 9.
Proof.
  split; [exact sample_typed|].
  destruct (miniflow_roundtrip i686 (raw_miniflow i686) (raw_miniflow i686) (raw_miniflow i686) sample_flow)
    as (m1 & m2 & m3 & E1 & E2 & E3 & E4 & E5 & _); [left; reflexivity | reflexivity.. | exact sample_typed |].
  exists m1, m2, m3. split; [exact E1|]. split; [exact E2|]. split; [exact E3|]. split; [exact E4|].
  rewrite E5. vm_compute. reflexivity.
Defined.

(** The hash of a compressed flow by its map and its words. *)
Definition hash_step (w : list Z) (s : Z * Z) (i : nat) : Z * Z :=
  if nth i w 0 =? 0 then s else (mhash_add (fst s) (nth i w 0), Z.lor (snd s) (2 ^ Z.of_nat i)).

Definition hash_of (m : Z) (w : list Z) (basis : Z) : Z :=
  let '(hash, hash_map) := fold_left (hash_step w) (one_bits m) (basis, 0) in
  mhash_finish (mhash_add (mhash_add hash (u32 hash_map)) (u32 (Z.shiftr hash_map 32)))
    (Z.of_nat (length (one_bits m))).

Lemma miniflow_hash_rep target mf w basis : mf_rep target mf w ->
  miniflow_hash mf basis = Ok (hash_of (mf_map mf) w basis).
Proof.
  intros H. unfold miniflow_hash, hash_of.
  set (st := fun pre : list nat => (Z.of_nat (length pre), fst (fold_left (hash_step w) pre (basis, 0)),
    snd (fold_left (hash_step w) pre (basis, 0)))).
  rewrite (for_map_bits _ _ (fun i '(p, hash, hash_map) => let* v := ld_value mf p in
      Ok (if v =? 0 then (p + 1, hash, hash_map)
          else (p + 1, mhash_add hash v, Z.lor hash_map (2 ^ Z.of_nat i))))).
  2:{ apply (rep_map _ _ _ H). } 2:{ intros m' i [[? ?] ?] (_ & -> & _). done. }
  change (0, basis, 0) with (st []). rewrite (fold_bits_st st).
  - cbn [rbind]. unfold st. destruct (fold_left _ _ _) as [h hm]. done.
  - intros pre i post E. unfold st at 1. rewrite (ld_value_at target mf w pre i post H E). cbn [rbind].
    unfold st. rewrite fold_left_app, length_app. cbn [fold_left length].
    destruct (fold_left (hash_step w) pre (basis, 0)) as [h hm]. cbn [fst snd]. unfold hash_step. cbn [fst snd].
    destruct (_ =? 0); cbn [fst snd]; do 3 f_equal; lia.
Qed.

(** Masks have one representation: their map is where the words are nonzero. *)
Lemma tight_map target mf mf' w : mf_rep target mf w -> mf_rep target mf' w -> tight mf w -> tight mf' w ->
  mf_map mf = mf_map mf'.
Proof.
  intros H H' T T'. pose proof (rep_map _ _ _ H). pose proof (rep_map _ _ _ H'). unfold in_u64 in *.
  apply Z.bits_inj'. intros i Hi. rewrite <- (Z2Nat.id i) by done. rewrite T, T'. done.
Qed.

(** C17. Compressed masks implement masks: initializing two masks and combining
    them gives the mask of the bits in both; equality, the test for extra
    wildcards and the test for the mask that matches everything answer as on the
    masks themselves; folding adds exactly the bits of the mask; and the hash
    under which a subtable is filed depends only on the mask, however it was
    made. *)
Theorem minimask_refines target da db dc de storage a b basis : target = i686 \/ target = x86_64 ->
  has_room target (masks da) -> has_room target (masks db) -> has_room target (masks de) ->
  length storage = FLOW_U32S target ->
  length a = FLOW_U32S target -> Forall in_u32 a -> length b = FLOW_U32S target -> Forall in_u32 b ->
  exists ma mb mc me, minimask_init target da a = Ok ma /\ minimask_init target db b = Ok mb /\
    minimask_combine target dc ma mb storage = Ok mc /\ minimask_expand target mc = Ok (flow_wildcards_and a b) /\
    minimask_init target de (flow_wildcards_and a b) = Ok me /\ minimask_hash mc basis = minimask_hash me basis /\
    minimask_equal ma mb = Ok (flow_wildcards_equal a b) /\
    minimask_has_extra target ma mb = Ok (flow_wildcards_has_extra a b) /\
    minimask_is_catchall ma = Ok (flow_wildcards_is_catchall a) /\
    flow_wildcards_fold_minimask b ma = Ok (flow_wildcards_or b a).
Proof.
  intros Ht Ha Hb He Hs La Ua Lb Ub. unfold minimask_init, minimask_expand, minimask_hash, minimask_equal.
  destruct (miniflow_init_rep target Ht _ a Ha La Ua) as (xa & -> & Ra & Ta & _).
  destruct (miniflow_init_rep target Ht _ b Hb Lb Ub) as (xb & -> & Rb & Tb & _).
  destruct (minimask_combine_rep target Ht dc (Mk_minimask xa) a (Mk_minimask xb) b storage Ra Rb Hs) as (mc & Ec & Rc & Tc).
  destruct (miniflow_init_rep target Ht _ (flow_wildcards_and a b) He) as (xe & Ee & Re & Te & _).
  { apply (rep_len _ _ _ Rc). } { apply (rep_u32 _ _ _ Rc). }
  exists (Mk_minimask xa), (Mk_minimask xb), mc, (Mk_minimask xe). rewrite Ee.
  split; [done|]. split; [done|]. split; [exact Ec|]. split; [apply miniflow_expand_rep; done|]. split; [done|].
  split.
  { rewrite (miniflow_hash_rep target _ _ _ Rc), (miniflow_hash_rep target _ _ _ Re).
    rewrite (tight_map target _ _ _ Rc Re Tc Te). done. }
  split; [apply (miniflow_equal_rep target Ht); done|].
  split; [apply (minimask_has_extra_rep target Ht (Mk_minimask xa) a (Mk_minimask xb) b); done|].
  split; [apply (minimask_is_catchall_rep target Ht (Mk_minimask xa)); done|].
  apply (union_rep target Ht); done.
Qed.

Definition sample_mask (target : abi) (x y : Z) : list Z := 0 :: x :: y :: replicate (FLOW_U32S target - 3) 0.

Lemma sample_mask_u32 target x y : in_u32 x -> in_u32 y -> Forall in_u32 (sample_mask target x y).
Proof.
  intros Hx Hy. assert (in_u32 0) by (unfold in_u32; lia).
  apply Forall_cons; split; [done|]. apply Forall_cons; split; [done|]. apply Forall_cons; split; [done|].
  apply Forall_replicate. done.
Qed.

Lemma minimask_refines_witness :
  exists ma mb mc, minimask_init x86_64 (Mk_minimask (raw_miniflow x86_64)) (sample_mask x86_64 0xff00 0xffffffff) = Ok ma /\
    minimask_init x86_64 (Mk_minimask (raw_miniflow x86_64)) (sample_mask x86_64 0x00ff 0xffff0000) = Ok mb /\
    minimask_combine x86_64 (Mk_minimask (raw_miniflow x86_64)) ma mb (replicate 46 None) = Ok mc /\
    minimask_expand x86_64 mc = Ok (sample_mask x86_64 0 0xffff0000).
Proof.
  destruct (minimask_refines x86_64 (Mk_minimask (raw_miniflow x86_64)) (Mk_minimask (raw_miniflow x86_64))
    (Mk_minimask (raw_miniflow x86_64)) (Mk_minimask (raw_miniflow x86_64)) (replicate 46 None)
    (sample_mask x86_64 0xff00 0xffffffff) (sample_mask x86_64 0x00ff 0xffff0000) 0)
    as (ma & mb & mc & me & E1 & E2 & E3 & E4 & _);
    try reflexivity; try (apply sample_mask_u32; unfold in_u32; lia); [right; reflexivity|].
  exists ma, mb, mc. split; [exact E1|]. split; [exact E2|]. split; [exact E3|].
  rewrite E4. vm_compute. reflexivity.
Defined.

(** ** Matching and hashing *)

(** Words that agree under the mask are the same words under the mask. *)
Lemma land_lxor_zero a b w : Z.land (Z.lxor a b) w = 0 -> Z.land a w = Z.land b w.
Proof.
  intros H. apply Z.bits_inj'. intros i Hi. assert (Z.testbit (Z.land (Z.lxor a b) w) i = false) as E by (rewrite H; apply Z.bits_0).
  rewrite !Z.land_spec, Z.lxor_spec in *. destruct (Z.testbit a i), (Z.testbit b i), (Z.testbit w i); done.
Qed.

Lemma hash_at_match bits f t w basis : length f = length t -> length f = length w ->
  flow_equal_except f t w = true -> hash_at bits t w basis = hash_at bits f w basis.
Proof.
  intros H1 H2 E. rewrite equal_except_spec in E by done. unfold hash_at. f_equal. apply map_ext. intros i.
  symmetry. apply land_lxor_zero, E.
Qed.

(** C15. A compressed match decides exactly the flows that agree with its flow
    under its mask, as [miniflow_equal_flow_in_minimask] does, and a flow it
    matches has the hash of the match, over the whole mask and over every range
    of words, from the same basis and with the same value left for the next
    range: so a lookup by the hash of a packet's flow finds the matching rule. *)
Theorem minimatch_matches_flow_ok target dst f w t : target = i686 \/ target = x86_64 ->
  has_room target (mm_flow dst) -> has_room target (masks (mm_mask dst)) ->
  length f = FLOW_U32S target -> Forall in_u32 f -> length w = FLOW_U32S target -> Forall in_u32 w ->
  length t = FLOW_U32S target ->
  exists m, minimatch_init target dst (Mk_match f w) = Ok m /\
    minimatch_matches_flow m t = Ok (flow_equal_except f t w) /\
    miniflow_equal_flow_in_minimask target (mm_flow m) t (mm_mask m) = Ok (flow_equal_except f t w) /\
    (flow_equal_except f t w = true -> forall basis,
      flow_hash_in_minimask t (mm_mask m) basis = miniflow_hash_in_minimask target (mm_flow m) (mm_mask m) basis /\
      forall s e, (s <= e)%nat -> (s < 64)%nat ->
        flow_hash_in_minimask_range target t (mm_mask m) (Z.of_nat s) (Z.of_nat e) basis =
          minimatch_hash_range target m (Z.of_nat s) (Z.of_nat e) basis).
Proof.
  intros Ht Hrf Hrw Lf Uf Lw Uw Lt.
  destruct (minimatch_init_rep target Ht dst f w Hrf Hrw Lf Uf Lw Uw) as (m & Em & Hm).
  pose proof Hm as (Hmf & Hmw & _ & _).
  exists m. split; [done|]. split; [apply (minimatch_matches_flow_rep target); done|]. split.
  - rewrite (miniflow_equal_flow_in_minimask_rep target Ht _ _ t _ w Hmf Lt Hmw).
    rewrite (equal_except_in_map target) by done. done.
  - intros E basis. split.
    + rewrite (flow_hash_in_minimask_rep target t _ w basis Lt Hmw).
      rewrite (miniflow_hash_in_minimask_rep target Ht _ _ _ w basis Hmf Hmw).
      rewrite (hash_at_in_map target) by done. rewrite (hash_at_match _ f t) by (done || lia). done.
    + intros s e Hse Hs.
      rewrite (flow_hash_in_minimask_range_rep target Ht t _ w s e basis Lt Hmw Hse Hs).
      rewrite (minimatch_hash_range_rep target Ht m f w s e basis Hm Hse Hs).
      rewrite (hash_at_match _ f t) by (done || lia). done.
Qed.

Definition raw_minimatch (target : abi) : minimatch :=
  Mk_minimatch (raw_miniflow target) (Mk_minimask (raw_miniflow target)).

Lemma minimatch_matches_flow_ok_witness : exists m,
  minimatch_init i686 (raw_minimatch i686) (Mk_match (sample_mask i686 0x1234 7) (sample_mask i686 0xff00 0)) = Ok m /\
  minimatch_matches_flow m (sample_mask i686 0x12ff 9) = Ok true /\
  flow_hash_in_minimask_range i686 (sample_mask i686 0x12ff 9) (mm_mask m) 1 20 5 = minimatch_hash_range i686 m 1 20 5.
Proof.
  destruct (minimatch_matches_flow_ok i686 (raw_minimatch i686) (sample_mask i686 0x1234 7) (sample_mask i686 0xff00 0)
    (sample_mask i686 0x12ff 9)) as (m & E1 & E2 & _ & E3);
    try reflexivity; try (apply sample_mask_u32; unfold in_u32; lia); [left; reflexivity|].
  exists m. split; [exact E1|]. split; [exact E2|].
  assert (flow_equal_except (sample_mask i686 0x1234 7) (sample_mask i686 0x12ff 9) (sample_mask i686 0xff00 0) = true) as E
    by (vm_compute; reflexivity).
  destruct (E3 E 5) as [_ E4]. apply (E4 1%nat 20%nat); lia.
Defined.

(** Hashing in stages: every stage goes on from the value the one before left. *)
Fixpoint staged_hash (hash_range : Z -> Z -> Z -> Res (Z * Z)) (start : nat) (ends : list nat) (basis : Z)
    : Res (Z * Z) :=
  match ends with
  | [] => Fault OutOfBounds
  | [end_] => hash_range (Z.of_nat start) (Z.of_nat end_) basis
  | end_ :: ends =>
      let* (_, basis) := hash_range (Z.of_nat start) (Z.of_nat end_) basis in
      staged_hash hash_range end_ ends basis
  end.

(** Stages that rise from [start] to the last word. *)
Inductive rising (last : nat) : nat -> list nat -> Prop :=
  | rising_last s : (s <= last)%nat -> rising last s [last]
  | rising_next s e ends : (s <= e)%nat -> (e <= last)%nat -> rising last e ends -> rising last s (e :: ends).

Lemma staged_hash_rep target N f w (hash_range : Z -> Z -> Z -> Res (Z * Z)) :
  target = i686 \/ target = x86_64 ->
  (forall s e basis, (s <= e)%nat -> (s < 64)%nat ->
    let h := hash_at (one_bits_from s (clip target e - s) N) f w basis in
    hash_range (Z.of_nat s) (Z.of_nat e) basis =
      Ok (mhash_finish h (Z.of_nat (length (one_bits_from 0 s N) + length (one_bits_from s (clip target e - s) N)) * 4), h)) ->
  forall s ends, rising (FLOW_U32S target) s ends -> forall basis,
    let h := hash_at (one_bits_from s (FLOW_U32S target - s) N) f w basis in
    staged_hash hash_range s ends basis =
      Ok (mhash_finish h (Z.of_nat (length (one_bits_from 0 (FLOW_U32S target) N)) * 4), h).
Proof.
  intros Ht H s ends Hr. assert (FLOW_U32S target < 64)%nat as H64 by (destruct Ht as [-> | ->]; vm_compute; lia).
  induction Hr as [s Hs | s e ends Hse He Hr IH]; intros basis; cbn [staged_hash].
  - rewrite H by lia. unfold clip. rewrite Nat.min_id.
    rewrite (one_bits_split 0 (FLOW_U32S target) N s), length_app by lia. rewrite Nat.add_0_l. done.
  - assert (exists x l, ends = x :: l) as (x & l & ->) by (inversion Hr; eauto).
    rewrite H by lia. cbn [rbind]. rewrite IH. unfold clip. rewrite Nat.min_l by lia.
    rewrite (one_bits_split s (FLOW_U32S target - s) N (e - s)) by lia.
    replace (s + (e - s))%nat with e by lia.
    replace (FLOW_U32S target - s - (e - s))%nat with (FLOW_U32S target - e)%nat by lia.
    rewrite hash_at_app. done.
Qed.

(** C16. Hashing a flow, or a match, segment by segment as the staged lookup of
    the classifier does, every segment going on from the value the one before
    left, gives in the last segment the hash over the whole mask, wherever the
    segments are cut. *)
Theorem staged_hash_ok target dst f w t ends basis : target = i686 \/ target = x86_64 ->
  has_room target (mm_flow dst) -> has_room target (masks (mm_mask dst)) ->
  length f = FLOW_U32S target -> Forall in_u32 f -> length w = FLOW_U32S target -> Forall in_u32 w ->
  length t = FLOW_U32S target -> rising (FLOW_U32S target) 0 ends ->
  exists m, minimatch_init target dst (Mk_match f w) = Ok m /\
    rmap fst (staged_hash (flow_hash_in_minimask_range target t (mm_mask m)) 0 ends basis) =
      flow_hash_in_minimask t (mm_mask m) basis /\
    rmap fst (staged_hash (minimatch_hash_range target m) 0 ends basis) =
      miniflow_hash_in_minimask target (mm_flow m) (mm_mask m) basis.
Proof.
  intros Ht Hrf Hrw Lf Uf Lw Uw Lt Hr.
  destruct (minimatch_init_rep target Ht dst f w Hrf Hrw Lf Uf Lw Uw) as (m & Em & Hm).
  pose proof Hm as (Hmf & Hmw & _ & _). exists m. split; [done|].
  set (N := mf_map (masks (mm_mask m))).
  assert (one_bits N = one_bits_from 0 (FLOW_U32S target) N) as EN.
  { pose proof (FLOW_U32S_64 target Ht). rewrite one_bits_whole, (one_bits_split 0 64 N (FLOW_U32S target)) by lia.
    rewrite (one_bits_none (0 + FLOW_U32S target)), app_nil_r; [done|].
    intros i Hi. apply (bits_out target _ _ i Hmw). lia. }
  split.
  - rewrite (staged_hash_rep target N t w _ Ht) with (ends := ends) by
      (done || (intros; apply flow_hash_in_minimask_range_rep; done)).
    cbn [rmap rbind fst]. rewrite (flow_hash_in_minimask_rep target t _ w basis Lt Hmw). fold N.
    rewrite EN, Nat.sub_0_r. done.
  - rewrite (staged_hash_rep target N f w _ Ht) with (ends := ends) by
      (done || (intros; apply minimatch_hash_range_rep; done)).
    cbn [rmap rbind fst]. rewrite (miniflow_hash_in_minimask_rep target Ht _ _ _ w basis Hmf Hmw).
    rewrite (hash_at_in_map target) by done. fold N. rewrite EN, Nat.sub_0_r. done.
Qed.

Lemma staged_hash_ok_witness : exists m,
  minimatch_init x86_64 (raw_minimatch x86_64) (Mk_match (sample_mask x86_64 0x1234 7) (sample_mask x86_64 0xff00 0xff)) = Ok m /\
  rmap fst (staged_hash (minimatch_hash_range x86_64 m) 0 [2; 9; 46]%nat 5) =
    miniflow_hash_in_minimask x86_64 (mm_flow m) (mm_mask m) 5.
Proof.
  destruct (staged_hash_ok x86_64 (raw_minimatch x86_64) (sample_mask x86_64 0x1234 7) (sample_mask x86_64 0xff00 0xff)
    (sample_mask x86_64 0 0) [2; 9; 46]%nat 5) as (m & E1 & _ & E2);
    try reflexivity; try (apply sample_mask_u32; unfold in_u32; lia); [right; reflexivity | |].
  - change 46%nat with (FLOW_U32S x86_64).
    apply rising_next; [lia | vm_compute; lia |]. apply rising_next; [lia | vm_compute; lia |].
    apply rising_last. vm_compute. lia.
  - exists m. split; [exact E1|]. exact E2.
Defined.

(** The hash of a compressed flow depends on its map: [miniflow_hash] skips the
    words that are 0 but finishes with the number of all the words in the map.
    So two compressed flows that [miniflow_equal] takes for the same flow can
    have different hashes, when one was made for a mask that has a word where
    the flow is 0. *)
Theorem miniflow_hash_counts_zero_words target : target = i686 \/ target = x86_64 ->
  exists mask a b,
    minimask_init target (Mk_minimask (raw_miniflow target)) (sample_mask target 0xff 0xff) = Ok mask /\
    miniflow_init target (raw_miniflow target) (sample_mask target 1 0) = Ok a /\
    miniflow_init_with_minimask target (raw_miniflow target) (sample_mask target 1 0) mask = Ok b /\
    miniflow_equal a b = Ok true /\ miniflow_hash a 0 <> miniflow_hash b 0.
Proof.
  intros [-> | ->]; do 3 eexists; (split; [vm_compute; reflexivity|]); (split; [vm_compute; reflexivity|]);
    (split; [vm_compute; reflexivity|]); split; vm_compute; congruence.
Qed.
