(* ===== verification/MatchSet.v ===== *)
(** * Matches and their setters ([lib/match.c], [lib/flow.c])

    A [struct match] with its flow and its mask as structures, the functions
    that make a match test a field, and the setters of the VLAN and MPLS fields
    of a flow.  Values of the types [ovs_be16] to [ovs_be64] are what a
    little-endian host loads; Ethernet and IPv6 addresses are lists of bytes. *)

From Stdlib Require Import ZArith Lia List Bool.
From stdpp Require Import base option list_relations list.
From S2P Require Import Prelude Bytes Hash Csum Packets Flow Miniflow.
#[local] Open Scope Z_scope.
#[local] Open Scope res_scope.

(** ** Stores to the fields of a flow *)

Definition set_tunnel (v : flow_tnl) (f : flow) : flow :=
  Mk_flow v (metadata f) (regs f) (skb_priority f) (pkt_mark f) (in_port f) (dl_src f) (dl_dst
    f) (dl_type f) (vlan_tci f) (mpls_lse f) (ipv6_src f) (ipv6_dst f) (nd_target f) (ipv6_label
    f) (nw_src f) (nw_dst f) (nw_frag f) (nw_tos f) (nw_ttl f) (nw_proto f) (arp_sha f) (arp_tha
    f) (tcp_flags f) (pad f) (tp_src f) (tp_dst f).

Definition set_skb_priority (v : Z) (f : flow) : flow :=
  Mk_flow (tunnel f) (metadata f) (regs f) v (pkt_mark f) (in_port f) (dl_src f) (dl_dst f)
    (dl_type f) (vlan_tci f) (mpls_lse f) (ipv6_src f) (ipv6_dst f) (nd_target f) (ipv6_label f)
    (nw_src f) (nw_dst f) (nw_frag f) (nw_tos f) (nw_ttl f) (nw_proto f) (arp_sha f) (arp_tha f)
    (tcp_flags f) (pad f) (tp_src f) (tp_dst f).

Definition set_pkt_mark (v : Z) (f : flow) : flow :=
  Mk_flow (tunnel f) (metadata f) (regs f) (skb_priority f) v (in_port f) (dl_src f) (dl_dst f)
    (dl_type f) (vlan_tci f) (mpls_lse f) (ipv6_src f) (ipv6_dst f) (nd_target f) (ipv6_label f)
    (nw_src f) (nw_dst f) (nw_frag f) (nw_tos f) (nw_ttl f) (nw_proto f) (arp_sha f) (arp_tha f)
    (tcp_flags f) (pad f) (tp_src f) (tp_dst f).

Definition set_in_port (v : Z) (f : flow) : flow :=
  Mk_flow (tunnel f) (metadata f) (regs f) (skb_priority f) (pkt_mark f) v (dl_src f) (dl_dst f)
    (dl_type f) (vlan_tci f) (mpls_lse f) (ipv6_src f) (ipv6_dst f) (nd_target f) (ipv6_label f)
    (nw_src f) (nw_dst f) (nw_frag f) (nw_tos f) (nw_ttl f) (nw_proto f) (arp_sha f) (arp_tha f)
    (tcp_flags f) (pad f) (tp_src f) (tp_dst f).

Definition tnl_tun_id (v : Z) (f : flow_tnl) : flow_tnl :=
  Mk_tnl v (ip_src f) (ip_dst f) (flags f) (ip_tos f) (ip_ttl f).

Definition tnl_ip_src (v : Z) (f : flow_tnl) : flow_tnl :=
  Mk_tnl (tun_id f) v (ip_dst f) (flags f) (ip_tos f) (ip_ttl f).

Definition tnl_ip_dst (v : Z) (f : flow_tnl) : flow_tnl :=
  Mk_tnl (tun_id f) (ip_src f) v (flags f) (ip_tos f) (ip_ttl f).

Definition tnl_flags (v : Z) (f : flow_tnl) : flow_tnl :=
  Mk_tnl (tun_id f) (ip_src f) (ip_dst f) v (ip_tos f) (ip_ttl f).

Definition tnl_ip_tos (v : Z) (f : flow_tnl) : flow_tnl :=
  Mk_tnl (tun_id f) (ip_src f) (ip_dst f) (flags f) v (ip_ttl f).

Definition tnl_ip_ttl (v : Z) (f : flow_tnl) : flow_tnl :=
  Mk_tnl (tun_id f) (ip_src f) (ip_dst f) (flags f) (ip_tos f) v.


(** [in_port.ofp_port], the first two bytes of the union. *)
Definition ofp_port (f : flow) : Z := in_port f mod 2 ^ 16.
Definition set_ofp_port (v : Z) (f : flow) : flow := set_in_port (in_port f / 2 ^ 16 * 2 ^ 16 + v) f.

Definition UINT8_MAX : Z := 2 ^ 8 - 1.
Definition UINT16_MAX : Z := 2 ^ 16 - 1.
Definition OVS_BE16_MAX : Z := 2 ^ 16 - 1.
Definition OVS_BE32_MAX : Z := 2 ^ 32 - 1.
Definition OVS_BE64_MAX : Z := 2 ^ 64 - 1.
Definition IP_ECN_MASK : Z := 0x03.
Definition IP_DSCP_MASK : Z := 0xfc.
Definition FLOW_NW_FRAG_MASK : Z := 3.
Definition FLOW_TNL_F_KEY : Z := 4.
Definition OFP10_VLAN_NONE : Z := 0xffff.

Definition mac_ones : list Z := replicate 6 UINT8_MAX.
Definition in6addr_exact : list Z := replicate 16 UINT8_MAX.
Definition in6addr_any : list Z := replicate 16 0.

Definition ipv6_addr_bitand (a b : list Z) : list Z := zip_with Z.land a b.
Definition ipv6_addr_equals (a b : list Z) : bool := bool_decide (a = b).
Definition ipv6_mask_is_any (mask : list Z) : bool := ipv6_addr_equals mask in6addr_any.
Definition ipv6_mask_is_exact (mask : list Z) : bool := ipv6_addr_equals mask in6addr_exact.

Definition vlan_tci_to_pcp (vlan_tci : Z) : Z := Z.shiftr (Z.land (ntohs vlan_tci) VLAN_PCP_MASK) VLAN_PCP_SHIFT.

Definition dl_type_is_ip_any (dl_type : Z) : bool :=
  (dl_type =? htons ETH_TYPE_IP) || (dl_type =? htons ETH_TYPE_IPV6).
Definition is_ip_any (f : flow) : bool := dl_type_is_ip_any (dl_type f).
Definition is_icmpv4 (f : flow) : bool := (dl_type f =? htons ETH_TYPE_IP) && (nw_proto f =? IPPROTO_ICMP).
Definition is_icmpv6 (f : flow) : bool := (dl_type f =? htons ETH_TYPE_IPV6) && (nw_proto f =? IPPROTO_ICMPV6).

(** [x & ~m] for 8-bit, 16-bit and 32-bit [x]. *)
Definition clear8 (x m : Z) : Z := Z.land x (u8 (Z.lnot m)).
Definition clear16 (x m : Z) : Z := Z.land x (u16 (Z.lnot m)).
Definition clear32 (x m : Z) : Z := Z.land x (u32 (Z.lnot m)).

(** ** The program: VLAN and MPLS fields of a flow *)

Definition flow_set_dl_vlan (vid : Z) (f : flow) : flow :=
  if vid =? htons OFP10_VLAN_NONE then set_vlan_tci (htons 0) f
  else
    let vid := Z.land vid (htons VLAN_VID_MASK) in
    let f := set_vlan_tci (clear16 (vlan_tci f) (htons VLAN_VID_MASK)) f in
    set_vlan_tci (Z.lor (vlan_tci f) (Z.lor (htons VLAN_CFI) vid)) f.

Definition flow_set_vlan_vid (vid : Z) (f : flow) : flow :=
  let mask := htons (Z.lor VLAN_VID_MASK VLAN_CFI) in
  let f := set_vlan_tci (clear16 (vlan_tci f) mask) f in
  set_vlan_tci (Z.lor (vlan_tci f) (Z.land vid mask)) f.

Definition flow_set_vlan_pcp (pcp : Z) (f : flow) : flow :=
  let pcp := Z.land pcp 0x07 in
  let f := set_vlan_tci (clear16 (vlan_tci f) (htons VLAN_PCP_MASK)) f in
  set_vlan_tci (Z.lor (vlan_tci f) (htons (Z.lor (Z.shiftl pcp VLAN_PCP_SHIFT) VLAN_CFI))) f.

Definition flow_set_mpls_label (label : Z) (f : flow) : flow := set_flow_mpls_lse (set_mpls_lse_label (mpls_lse f) label) f.
Definition flow_set_mpls_ttl (ttl : Z) (f : flow) : flow := set_flow_mpls_lse (set_mpls_lse_ttl (mpls_lse f) ttl) f.
Definition flow_set_mpls_tc (tc : Z) (f : flow) : flow := set_flow_mpls_lse (set_mpls_lse_tc (mpls_lse f) tc) f.
Definition flow_set_mpls_bos (bos : Z) (f : flow) : flow := set_flow_mpls_lse (set_mpls_lse_bos (mpls_lse f) bos) f.

Record flow_metadata := Mk_fmd {
  fmd_tun_id : Z;
  fmd_tun_src : Z;
  fmd_tun_dst : Z;
  fmd_metadata : Z;
  fmd_regs : list Z;
  fmd_pkt_mark : Z;
  fmd_in_port : Z
}.

Definition flow_get_metadata (f : flow) : flow_metadata :=
  Mk_fmd (tun_id (tunnel f)) (ip_src (tunnel f)) (ip_dst (tunnel f)) (metadata f) (regs f) (pkt_mark f) (ofp_port f).

Definition flow_unwildcard_tp_ports (f wc : flow) : flow :=
  if negb (nw_proto f =? IPPROTO_ICMP)
  then set_tp_dst OVS_BE16_MAX (set_tp_src OVS_BE16_MAX wc)
  else set_tp_dst (htons 0xff) (set_tp_src (htons 0xff) wc).

(** All bytes zero. *)
Definition flow_zero : flow :=
  Mk_flow (Mk_tnl 0 0 0 0 0 0) 0 (replicate FLOW_N_REGS 0) 0 0 0 (replicate 6 0) (replicate 6 0) 0 0 0
    in6addr_any in6addr_any in6addr_any 0 0 0 0 0 0 0 (replicate 6 0) (replicate 6 0) 0 0 0 0.

(** [flow_zero_wildcards] on structures; [zero_wildcards_u32] shows that it is
    the loop over the words. *)
Definition zero_wildcards (f m : flow) : flow :=
  Mk_flow
    (Mk_tnl (Z.land (tun_id (tunnel f)) (tun_id (tunnel m))) (Z.land (ip_src (tunnel f)) (ip_src (tunnel m)))
       (Z.land (ip_dst (tunnel f)) (ip_dst (tunnel m))) (Z.land (flags (tunnel f)) (flags (tunnel m)))
       (Z.land (ip_tos (tunnel f)) (ip_tos (tunnel m))) (Z.land (ip_ttl (tunnel f)) (ip_ttl (tunnel m))))
    (Z.land (metadata f) (metadata m)) (zip_with Z.land (regs f) (regs m))
    (Z.land (skb_priority f) (skb_priority m)) (Z.land (pkt_mark f) (pkt_mark m)) (Z.land (in_port f) (in_port m))
    (zip_with Z.land (dl_src f) (dl_src m)) (zip_with Z.land (dl_dst f) (dl_dst m))
    (Z.land (dl_type f) (dl_type m)) (Z.land (vlan_tci f) (vlan_tci m)) (Z.land (mpls_lse f) (mpls_lse m))
    (zip_with Z.land (ipv6_src f) (ipv6_src m)) (zip_with Z.land (ipv6_dst f) (ipv6_dst m))
    (zip_with Z.land (nd_target f) (nd_target m)) (Z.land (ipv6_label f) (ipv6_label m))
    (Z.land (nw_src f) (nw_src m)) (Z.land (nw_dst f) (nw_dst m)) (Z.land (nw_frag f) (nw_frag m))
    (Z.land (nw_tos f) (nw_tos m)) (Z.land (nw_ttl f) (nw_ttl m)) (Z.land (nw_proto f) (nw_proto m))
    (zip_with Z.land (arp_sha f) (arp_sha m)) (zip_with Z.land (arp_tha f) (arp_tha m))
    (Z.land (tcp_flags f) (tcp_flags m)) (Z.land (pad f) (pad m)) (Z.land (tp_src f) (tp_src m)) (Z.land (tp_dst f) (tp_dst m)).

(** ** The program: matches *)

(** [struct match] *)
Record smatch := Mk_smatch { m_flow : flow; m_wc : flow }.

(** [match->flow.field = ...] and [match->wc.masks.field = ...] *)
Definition on_flow (g : flow -> flow) (m : smatch) : smatch := Mk_smatch (g (m_flow m)) (m_wc m).
Definition on_wc (g : flow -> flow) (m : smatch) : smatch := Mk_smatch (m_flow m) (g (m_wc m)).

Definition match_zero_wildcarded_fields (m : smatch) : smatch := Mk_smatch (zero_wildcards (m_flow m) (m_wc m)) (m_wc m).
Definition match_init (f wc : flow) : smatch := match_zero_wildcarded_fields (Mk_smatch f wc).
Definition match_init_catchall : smatch := Mk_smatch flow_zero flow_zero.

(** The loop of [match_wc_init] over the registers. *)
Definition wc_init_regs (regs masks : list Z) : list Z :=
  zip_with (fun r m => if negb (r =? 0) then UINT32_MAX else m) regs masks.

Definition wc_init_tunnel (t m : flow_tnl) : flow_tnl :=
  if negb (ip_dst t =? 0) then
    let m := if negb (Z.land (flags t) FLOW_TNL_F_KEY =? 0) then tnl_tun_id OVS_BE64_MAX m else m in
    tnl_ip_ttl UINT8_MAX (tnl_ip_tos UINT8_MAX (tnl_flags UINT16_MAX
      (tnl_ip_dst OVS_BE32_MAX (tnl_ip_src OVS_BE32_MAX m))))
  else if negb (tun_id t =? 0) then tnl_tun_id OVS_BE64_MAX m else m.

(** What follows the test [is_ip_any] in [match_wc_init]. *)
Definition wc_init_ip (f wc : flow) : flow :=
  let wc := set_nw_ttl UINT8_MAX (set_nw_tos UINT8_MAX wc) in
  let frag := negb (nw_frag f =? 0) in
  let wc := if frag then set_nw_frag UINT8_MAX wc else wc in
  if frag && negb (Z.land (nw_frag f) FLOW_NW_FRAG_LATER =? 0) then wc
  else
    let wc := if (nw_proto f =? IPPROTO_ICMP) || (nw_proto f =? IPPROTO_ICMPV6)
                 || (negb (tp_src f =? 0) || negb (tp_dst f =? 0))
              then set_tp_dst OVS_BE16_MAX (set_tp_src OVS_BE16_MAX wc) else wc in
    let wc := if nw_proto f =? IPPROTO_TCP then set_tcp_flags OVS_BE16_MAX wc else wc in
    if nw_proto f =? IPPROTO_ICMPV6 then set_arp_tha mac_ones (set_arp_sha mac_ones wc) else wc.

Definition match_wc_init (f : flow) : smatch :=
  let wc := set_dl_type OVS_BE16_MAX flow_zero in
  let wc := if negb (nw_proto f =? 0) then set_nw_proto UINT8_MAX wc else wc in
  let wc := if negb (skb_priority f =? 0) then set_skb_priority UINT32_MAX wc else wc in
  let wc := if negb (pkt_mark f =? 0) then set_pkt_mark UINT32_MAX wc else wc in
  let wc := set_regs (wc_init_regs (regs f) (regs wc)) wc in
  let wc := set_tunnel (wc_init_tunnel (tunnel f) (tunnel wc)) wc in
  let wc := set_metadata OVS_BE64_MAX wc in
  let wc := set_in_port UINT32_MAX wc in
  let wc := set_vlan_tci OVS_BE16_MAX wc in
  let wc := set_dl_dst mac_ones (set_dl_src mac_ones wc) in
  let arp := (dl_type f =? htons ETH_TYPE_ARP) || (dl_type f =? htons ETH_TYPE_RARP) in
  let wc := if dl_type f =? htons ETH_TYPE_IPV6
            then set_ipv6_label OVS_BE32_MAX (set_ipv6_dst in6addr_exact (set_ipv6_src in6addr_exact wc))
            else if (dl_type f =? htons ETH_TYPE_IP) || arp
            then set_nw_dst OVS_BE32_MAX (set_nw_src OVS_BE32_MAX wc)
            else if eth_type_mpls (dl_type f) then set_flow_mpls_lse OVS_BE32_MAX wc else wc in
  let wc := if arp then set_arp_tha mac_ones (set_arp_sha mac_ones wc) else wc in
  Mk_smatch f (if is_ip_any f then wc_init_ip f wc else wc).

(** *** Metadata *)

Definition match_set_reg_masked (reg_idx value mask : Z) (m : smatch) : Res smatch :=
  ovs_assert (reg_idx <? Z.of_nat FLOW_N_REGS) ;;*
  let i := Z.to_nat reg_idx in
  let m := on_wc (fun wc => set_regs (<[i := mask]> (regs wc)) wc) m in
  Ok (on_flow (fun f => set_regs (<[i := Z.land value mask]> (regs f)) f) m).
Definition match_set_reg (reg_idx value : Z) (m : smatch) : Res smatch := match_set_reg_masked reg_idx value UINT32_MAX m.

Definition match_set_metadata_masked (value mask : Z) (m : smatch) : smatch :=
  on_flow (set_metadata (Z.land value mask)) (on_wc (set_metadata mask) m).
Definition match_set_metadata (value : Z) (m : smatch) : smatch := match_set_metadata_masked value OVS_BE64_MAX m.

Definition match_set_tun_id_masked (value mask : Z) (m : smatch) : smatch :=
  on_flow (fun f => set_tunnel (tnl_tun_id (Z.land value mask) (tunnel f)) f) (on_wc (fun f => set_tunnel (tnl_tun_id mask (tunnel f)) f) m).
Definition match_set_tun_id (value : Z) (m : smatch) : smatch := match_set_tun_id_masked value OVS_BE64_MAX m.

Definition match_set_tun_src_masked (value mask : Z) (m : smatch) : smatch :=
  on_flow (fun f => set_tunnel (tnl_ip_src (Z.land value mask) (tunnel f)) f) (on_wc (fun f => set_tunnel (tnl_ip_src mask (tunnel f)) f) m).
Definition match_set_tun_src (value : Z) (m : smatch) : smatch := match_set_tun_src_masked value OVS_BE32_MAX m.

Definition match_set_tun_dst_masked (value mask : Z) (m : smatch) : smatch :=
  on_flow (fun f => set_tunnel (tnl_ip_dst (Z.land value mask) (tunnel f)) f) (on_wc (fun f => set_tunnel (tnl_ip_dst mask (tunnel f)) f) m).
Definition match_set_tun_dst (value : Z) (m : smatch) : smatch := match_set_tun_dst_masked value OVS_BE32_MAX m.

Definition match_set_tun_ttl_masked (value mask : Z) (m : smatch) : smatch :=
  on_flow (fun f => set_tunnel (tnl_ip_ttl (Z.land value mask) (tunnel f)) f) (on_wc (fun f => set_tunnel (tnl_ip_ttl mask (tunnel f)) f) m).
Definition match_set_tun_ttl (value : Z) (m : smatch) : smatch := match_set_tun_ttl_masked value UINT8_MAX m.

Definition match_set_tun_tos_masked (value mask : Z) (m : smatch) : smatch :=
  on_flow (fun f => set_tunnel (tnl_ip_tos (Z.land value mask) (tunnel f)) f) (on_wc (fun f => set_tunnel (tnl_ip_tos mask (tunnel f)) f) m).
Definition match_set_tun_tos (value : Z) (m : smatch) : smatch := match_set_tun_tos_masked value UINT8_MAX m.

Definition match_set_tun_flags_masked (value mask : Z) (m : smatch) : smatch :=
  on_flow (fun f => set_tunnel (tnl_flags (Z.land value mask) (tunnel f)) f) (on_wc (fun f => set_tunnel (tnl_flags mask (tunnel f)) f) m).
Definition match_set_tun_flags (value : Z) (m : smatch) : smatch := match_set_tun_flags_masked value UINT16_MAX m.

Definition match_set_in_port (ofp_port : Z) (m : smatch) : smatch := on_flow (set_ofp_port ofp_port) (on_wc (set_ofp_port UINT16_MAX) m).
Definition match_set_skb_priority (v : Z) (m : smatch) : smatch := on_flow (set_skb_priority v) (on_wc (set_skb_priority UINT32_MAX) m).

Definition match_set_pkt_mark_masked (value mask : Z) (m : smatch) : smatch :=
  on_flow (set_pkt_mark (Z.land value mask)) (on_wc (set_pkt_mark mask) m).
Definition match_set_pkt_mark (value : Z) (m : smatch) : smatch := match_set_pkt_mark_masked value UINT32_MAX m.

(** *** Ethernet, VLAN and MPLS *)

Definition match_set_dl_type (v : Z) (m : smatch) : smatch := on_flow (set_dl_type v) (on_wc (set_dl_type OVS_BE16_MAX) m).

Definition match_set_dl_src (value : list Z) (m : smatch) : smatch := on_flow (set_dl_src value) (on_wc (set_dl_src mac_ones) m).
Definition match_set_dl_src_masked (value mask : (list Z)) (m : smatch) : smatch :=
  on_flow (set_dl_src (zip_with Z.land value mask)) (on_wc (set_dl_src mask) m).

Definition match_set_dl_dst (value : list Z) (m : smatch) : smatch := on_flow (set_dl_dst value) (on_wc (set_dl_dst mac_ones) m).
Definition match_set_dl_dst_masked (value mask : (list Z)) (m : smatch) : smatch :=
  on_flow (set_dl_dst (zip_with Z.land value mask)) (on_wc (set_dl_dst mask) m).

Definition match_set_dl_tci_masked (value mask : Z) (m : smatch) : smatch :=
  on_flow (set_vlan_tci (Z.land value mask)) (on_wc (set_vlan_tci mask) m).
Definition match_set_dl_tci (value : Z) (m : smatch) : smatch := match_set_dl_tci_masked value (htons 0xffff) m.

Definition match_set_any_vid (m : smatch) : smatch :=
  if negb (Z.land (vlan_tci (m_wc m)) (htons VLAN_PCP_MASK) =? 0) then
    let m := on_wc (fun wc => set_vlan_tci (clear16 (vlan_tci wc) (htons VLAN_VID_MASK)) wc) m in
    on_flow (fun f => set_vlan_tci (clear16 (vlan_tci f) (htons VLAN_VID_MASK)) f) m
  else match_set_dl_tci_masked (htons 0) (htons 0) m.

Definition match_set_dl_vlan (dl_vlan : Z) (m : smatch) : smatch :=
  let m := on_flow (flow_set_dl_vlan dl_vlan) m in
  if dl_vlan =? htons OFP10_VLAN_NONE then on_wc (set_vlan_tci OVS_BE16_MAX) m
  else on_wc (fun wc => set_vlan_tci (Z.lor (vlan_tci wc) (htons (Z.lor VLAN_VID_MASK VLAN_CFI))) wc) m.

Definition match_set_vlan_vid_masked (vid mask : Z) (m : smatch) : smatch :=
  let pcp_mask := htons VLAN_PCP_MASK in
  let vid_mask := htons (Z.lor VLAN_VID_MASK VLAN_CFI) in
  let mask := Z.land mask vid_mask in
  let m := on_flow (flow_set_vlan_vid (Z.land vid mask)) m in
  on_wc (fun wc => set_vlan_tci (Z.lor mask (Z.land (vlan_tci wc) pcp_mask)) wc) m.
Definition match_set_vlan_vid (vid : Z) (m : smatch) : smatch := match_set_vlan_vid_masked vid (htons (Z.lor VLAN_VID_MASK VLAN_CFI)) m.

Definition match_set_any_pcp (m : smatch) : smatch :=
  if negb (Z.land (vlan_tci (m_wc m)) (htons VLAN_VID_MASK) =? 0) then
    let m := on_wc (fun wc => set_vlan_tci (clear16 (vlan_tci wc) (htons VLAN_PCP_MASK)) wc) m in
    on_flow (fun f => set_vlan_tci (clear16 (vlan_tci f) (htons VLAN_PCP_MASK)) f) m
  else match_set_dl_tci_masked (htons 0) (htons 0) m.

Definition match_set_dl_vlan_pcp (dl_vlan_pcp : Z) (m : smatch) : smatch :=
  let m := on_flow (flow_set_vlan_pcp dl_vlan_pcp) m in
  on_wc (fun wc => set_vlan_tci (Z.lor (vlan_tci wc) (htons (Z.lor VLAN_CFI VLAN_PCP_MASK))) wc) m.

Definition match_set_any_mpls_label (m : smatch) : smatch :=
  on_flow (flow_set_mpls_label (htonl 0)) (on_wc (fun wc => set_flow_mpls_lse (clear32 (mpls_lse wc) (htonl MPLS_LABEL_MASK)) wc) m).
Definition match_set_mpls_label (mpls_label : Z) (m : smatch) : smatch :=
  on_flow (flow_set_mpls_label mpls_label) (on_wc (fun wc => set_flow_mpls_lse (Z.lor (mpls_lse wc) (htonl MPLS_LABEL_MASK)) wc) m).
Definition match_set_any_mpls_tc (m : smatch) : smatch :=
  on_flow (flow_set_mpls_tc 0) (on_wc (fun wc => set_flow_mpls_lse (clear32 (mpls_lse wc) (htonl MPLS_TC_MASK)) wc) m).
Definition match_set_mpls_tc (mpls_tc : Z) (m : smatch) : smatch :=
  on_flow (flow_set_mpls_tc mpls_tc) (on_wc (fun wc => set_flow_mpls_lse (Z.lor (mpls_lse wc) (htonl MPLS_TC_MASK)) wc) m).
Definition match_set_any_mpls_bos (m : smatch) : smatch :=
  on_flow (flow_set_mpls_bos 0) (on_wc (fun wc => set_flow_mpls_lse (clear32 (mpls_lse wc) (htonl MPLS_BOS_MASK)) wc) m).
Definition match_set_mpls_bos (mpls_bos : Z) (m : smatch) : smatch :=
  on_flow (flow_set_mpls_bos mpls_bos) (on_wc (fun wc => set_flow_mpls_lse (Z.lor (mpls_lse wc) (htonl MPLS_BOS_MASK)) wc) m).

(** *** Network and transport *)

Definition match_set_tp_src_masked (value mask : Z) (m : smatch) : smatch :=
  on_flow (set_tp_src (Z.land value mask)) (on_wc (set_tp_src mask) m).
Definition match_set_tp_src (value : Z) (m : smatch) : smatch := match_set_tp_src_masked value OVS_BE16_MAX m.

Definition match_set_tp_dst_masked (value mask : Z) (m : smatch) : smatch :=
  on_flow (set_tp_dst (Z.land value mask)) (on_wc (set_tp_dst mask) m).
Definition match_set_tp_dst (value : Z) (m : smatch) : smatch := match_set_tp_dst_masked value OVS_BE16_MAX m.

Definition match_set_tcp_flags_masked (value mask : Z) (m : smatch) : smatch :=
  on_flow (set_tcp_flags (Z.land value mask)) (on_wc (set_tcp_flags mask) m).
Definition match_set_tcp_flags (value : Z) (m : smatch) : smatch := match_set_tcp_flags_masked value OVS_BE16_MAX m.

Definition match_set_nw_proto (value : Z) (m : smatch) : smatch := on_flow (set_nw_proto value) (on_wc (set_nw_proto UINT8_MAX) m).

Definition match_set_nw_src (value : Z) (m : smatch) : smatch := on_flow (set_nw_src value) (on_wc (set_nw_src OVS_BE32_MAX) m).
Definition match_set_nw_src_masked (value mask : Z) (m : smatch) : smatch :=
  on_flow (set_nw_src (Z.land value mask)) (on_wc (set_nw_src mask) m).

Definition match_set_nw_dst (value : Z) (m : smatch) : smatch := on_flow (set_nw_dst value) (on_wc (set_nw_dst OVS_BE32_MAX) m).
Definition match_set_nw_dst_masked (value mask : Z) (m : smatch) : smatch :=
  on_flow (set_nw_dst (Z.land value mask)) (on_wc (set_nw_dst mask) m).

Definition match_set_nw_dscp (nw_dscp : Z) (m : smatch) : smatch :=
  let m := on_wc (fun wc => set_nw_tos (Z.lor (nw_tos wc) IP_DSCP_MASK) wc) m in
  let m := on_flow (fun f => set_nw_tos (clear8 (nw_tos f) IP_DSCP_MASK) f) m in
  on_flow (fun f => set_nw_tos (Z.lor (nw_tos f) (Z.land nw_dscp IP_DSCP_MASK)) f) m.

Definition match_set_nw_ecn (nw_ecn : Z) (m : smatch) : smatch :=
  let m := on_wc (fun wc => set_nw_tos (Z.lor (nw_tos wc) IP_ECN_MASK) wc) m in
  let m := on_flow (fun f => set_nw_tos (clear8 (nw_tos f) IP_ECN_MASK) f) m in
  on_flow (fun f => set_nw_tos (Z.lor (nw_tos f) (Z.land nw_ecn IP_ECN_MASK)) f) m.

Definition match_set_nw_ttl (value : Z) (m : smatch) : smatch := on_flow (set_nw_ttl value) (on_wc (set_nw_ttl UINT8_MAX) m).

Definition match_set_nw_frag (nw_frag_ : Z) (m : smatch) : smatch :=
  on_flow (set_nw_frag nw_frag_) (on_wc (fun wc => set_nw_frag (Z.lor (nw_frag wc) FLOW_NW_FRAG_MASK) wc) m).
Definition match_set_nw_frag_masked (value mask : Z) (m : smatch) : smatch :=
  on_flow (set_nw_frag (Z.land value mask)) (on_wc (set_nw_frag mask) m).

Definition match_set_icmp_type (icmp_type : Z) (m : smatch) : smatch := match_set_tp_src (htons icmp_type) m.
Definition match_set_icmp_code (icmp_code : Z) (m : smatch) : smatch := match_set_tp_dst (htons icmp_code) m.

Definition match_set_arp_sha (value : list Z) (m : smatch) : smatch := on_flow (set_arp_sha value) (on_wc (set_arp_sha mac_ones) m).
Definition match_set_arp_sha_masked (value mask : (list Z)) (m : smatch) : smatch :=
  on_flow (set_arp_sha (zip_with Z.land value mask)) (on_wc (set_arp_sha mask) m).

Definition match_set_arp_tha (value : list Z) (m : smatch) : smatch := on_flow (set_arp_tha value) (on_wc (set_arp_tha mac_ones) m).
Definition match_set_arp_tha_masked (value mask : (list Z)) (m : smatch) : smatch :=
  on_flow (set_arp_tha (zip_with Z.land value mask)) (on_wc (set_arp_tha mask) m).

Definition match_set_ipv6_src (value : list Z) (m : smatch) : smatch := on_flow (set_ipv6_src value) (on_wc (set_ipv6_src in6addr_exact) m).
Definition match_set_ipv6_src_masked (value mask : (list Z)) (m : smatch) : smatch :=
  on_flow (set_ipv6_src (ipv6_addr_bitand value mask)) (on_wc (set_ipv6_src mask) m).

Definition match_set_ipv6_dst (value : list Z) (m : smatch) : smatch := on_flow (set_ipv6_dst value) (on_wc (set_ipv6_dst in6addr_exact) m).
Definition match_set_ipv6_dst_masked (value mask : (list Z)) (m : smatch) : smatch :=
  on_flow (set_ipv6_dst (ipv6_addr_bitand value mask)) (on_wc (set_ipv6_dst mask) m).

Definition match_set_nd_target (value : list Z) (m : smatch) : smatch := on_flow (set_nd_target value) (on_wc (set_nd_target in6addr_exact) m).
Definition match_set_nd_target_masked (value mask : (list Z)) (m : smatch) : smatch :=
  on_flow (set_nd_target (ipv6_addr_bitand value mask)) (on_wc (set_nd_target mask) m).

Definition match_set_ipv6_label (value : Z) (m : smatch) : smatch := on_flow (set_ipv6_label value) (on_wc (set_ipv6_label OVS_BE32_MAX) m).
Definition match_set_ipv6_label_masked (value mask : Z) (m : smatch) : smatch :=
  on_flow (set_ipv6_label (Z.land value mask)) (on_wc (set_ipv6_label mask) m).

Definition match_equal (a b : smatch) (target : abi) : bool :=
  flow_wildcards_equal (flow_u32 target (m_wc a)) (flow_u32 target (m_wc b))
  && flow_equal (flow_u32 target (m_flow a)) (flow_u32 target (m_flow b)).

Definition match_hash (m : smatch) (target : abi) (basis : Z) : Z :=
  flow_wildcards_hash (flow_u32 target (m_wc m)) (flow_hash (flow_u32 target (m_flow m)) basis).
