(* ===== verification/MetaFlow.v ===== *)
(** * Match fields ([lib/meta-flow.c], [lib/meta-flow.h])

    The fields a flow table can match on and an action can set: their sizes,
    prerequisites and maskability, and the functions that read, write, mask and
    match them.

    A [union mf_value] is the list of its 16 bytes; a store to a member leaves
    the bytes behind it as they are. *)

From Stdlib Require Import ZArith Lia List Bool.
From stdpp Require Import base option list_relations list.
From S2P Require Import Prelude Bytes Hash Csum Packets Bits Flow Miniflow MatchSet.
#[local] Open Scope Z_scope.
#[local] Open Scope res_scope.

(** ** The program: data *)

Inductive mf_field_id :=
  | MFF_TUN_ID | MFF_TUN_SRC | MFF_TUN_DST | MFF_TUN_FLAGS | MFF_TUN_TTL | MFF_TUN_TOS | MFF_METADATA
  | MFF_IN_PORT | MFF_IN_PORT_OXM | MFF_SKB_PRIORITY | MFF_PKT_MARK | MFF_REG0 | MFF_REG1 | MFF_REG2
  | MFF_REG3 | MFF_REG4 | MFF_REG5 | MFF_REG6 | MFF_REG7 | MFF_ETH_SRC | MFF_ETH_DST | MFF_ETH_TYPE
  | MFF_VLAN_TCI | MFF_DL_VLAN | MFF_VLAN_VID | MFF_DL_VLAN_PCP | MFF_VLAN_PCP | MFF_MPLS_LABEL
  | MFF_MPLS_TC | MFF_MPLS_BOS | MFF_IPV4_SRC | MFF_IPV4_DST | MFF_IPV6_SRC | MFF_IPV6_DST
  | MFF_IPV6_LABEL | MFF_IP_PROTO | MFF_IP_DSCP | MFF_IP_DSCP_SHIFTED | MFF_IP_ECN | MFF_IP_TTL
  | MFF_IP_FRAG | MFF_ARP_OP | MFF_ARP_SPA | MFF_ARP_TPA | MFF_ARP_SHA | MFF_ARP_THA | MFF_TCP_SRC
  | MFF_TCP_DST | MFF_TCP_FLAGS | MFF_UDP_SRC | MFF_UDP_DST | MFF_SCTP_SRC | MFF_SCTP_DST
  | MFF_ICMPV4_TYPE | MFF_ICMPV4_CODE | MFF_ICMPV6_TYPE | MFF_ICMPV6_CODE | MFF_ND_TARGET | MFF_ND_SLL
  | MFF_ND_TLL.

#[global] Instance mf_field_id_eq_dec : EqDecision mf_field_id.
Proof. solve_decision. Defined.

Inductive mf_prereqs :=
  | MFP_NONE | MFP_ARP | MFP_VLAN_VID | MFP_IPV4 | MFP_IPV6 | MFP_IP_ANY | MFP_MPLS | MFP_TCP | MFP_UDP
  | MFP_SCTP | MFP_ICMPV4 | MFP_ICMPV6 | MFP_ND | MFP_ND_SOLICIT | MFP_ND_ADVERT.

Inductive mf_maskable := MFM_NONE | MFM_FULLY.

(** The members that the functions below use. *)
Record mf_field := Mk_mf_field {
  mf_id : mf_field_id;
  n_bytes : Z;
  n_bits : Z;
  maskable : mf_maskable;
  prereqs : mf_prereqs;
  writable : bool;
  usable_protocols : Z;
  usable_protocols_bitwise : Z;
  flow_be32ofs : Z
}.

(** [enum ofputil_protocol] *)
Definition OFPUTIL_P_NONE : Z := 0.
Definition OFPUTIL_P_OF10_STD : Z := 1.
Definition OFPUTIL_P_OF10_STD_TID : Z := 2.
Definition OFPUTIL_P_OF10_NXM : Z := 4.
Definition OFPUTIL_P_OF10_NXM_TID : Z := 8.
Definition OFPUTIL_P_OF10_NXM_ANY : Z := Z.lor OFPUTIL_P_OF10_NXM OFPUTIL_P_OF10_NXM_TID.
Definition OFPUTIL_P_OF11_STD : Z := 16.
Definition OFPUTIL_P_OF12_OXM : Z := 32.
Definition OFPUTIL_P_OF13_OXM : Z := 64.
Definition OFPUTIL_P_ANY_OXM : Z := Z.lor OFPUTIL_P_OF12_OXM OFPUTIL_P_OF13_OXM.
Definition OFPUTIL_P_NXM_OF11_UP : Z := Z.lor (Z.lor OFPUTIL_P_OF10_NXM_ANY OFPUTIL_P_OF11_STD) OFPUTIL_P_ANY_OXM.
Definition OFPUTIL_P_NXM_OXM_ANY : Z := Z.lor OFPUTIL_P_OF10_NXM_ANY OFPUTIL_P_ANY_OXM.
Definition OFPUTIL_P_OF11_UP : Z := Z.lor OFPUTIL_P_OF11_STD OFPUTIL_P_ANY_OXM.
Definition OFPUTIL_P_ANY : Z := Z.shiftl 1 7 - 1.

(** [FLOW_U32OFS(field)] from the offset of the field; the offsets behind the
    tunnel depend on its padding. *)
Definition FLOW_U32OFS (ofs : Z) : Z := ofs / 4.

Definition register (id : mf_field_id) : mf_field :=
  Mk_mf_field id 4 32 MFM_FULLY MFP_NONE true OFPUTIL_P_NXM_OXM_ANY OFPUTIL_P_NXM_OXM_ANY (-1).

(** [mf_fields[id]] *)
Definition mf_from_id (target : abi) (id : mf_field_id) : mf_field :=
  let T := Z.of_nat (sizeof_flow_tnl target) in
  match id with
  | MFF_TUN_ID => Mk_mf_field MFF_TUN_ID 8 64 MFM_FULLY MFP_NONE true OFPUTIL_P_NXM_OXM_ANY OFPUTIL_P_NXM_OXM_ANY
      (FLOW_U32OFS 0)
  | MFF_TUN_SRC => Mk_mf_field MFF_TUN_SRC 4 32 MFM_FULLY MFP_NONE true OFPUTIL_P_NXM_OXM_ANY OFPUTIL_P_NXM_OXM_ANY
      (FLOW_U32OFS 8)
  | MFF_TUN_DST => Mk_mf_field MFF_TUN_DST 4 32 MFM_FULLY MFP_NONE true OFPUTIL_P_NXM_OXM_ANY OFPUTIL_P_NXM_OXM_ANY
      (FLOW_U32OFS 12)
  | MFF_TUN_FLAGS => Mk_mf_field MFF_TUN_FLAGS 2 16 MFM_NONE MFP_NONE false OFPUTIL_P_NONE OFPUTIL_P_NONE (-1)
  | MFF_TUN_TTL => Mk_mf_field MFF_TUN_TTL 1 8 MFM_NONE MFP_NONE false OFPUTIL_P_NONE OFPUTIL_P_NONE (-1)
  | MFF_TUN_TOS => Mk_mf_field MFF_TUN_TOS 1 8 MFM_NONE MFP_NONE false OFPUTIL_P_NONE OFPUTIL_P_NONE (-1)
  | MFF_METADATA => Mk_mf_field MFF_METADATA 8 64 MFM_FULLY MFP_NONE true OFPUTIL_P_NXM_OF11_UP
      OFPUTIL_P_NXM_OF11_UP (-1)
  | MFF_IN_PORT => Mk_mf_field MFF_IN_PORT 2 16 MFM_NONE MFP_NONE true OFPUTIL_P_ANY OFPUTIL_P_NONE (-1)
  | MFF_IN_PORT_OXM => Mk_mf_field MFF_IN_PORT_OXM 4 32 MFM_NONE MFP_NONE true OFPUTIL_P_OF11_UP
      OFPUTIL_P_NONE (-1)
  | MFF_SKB_PRIORITY => Mk_mf_field MFF_SKB_PRIORITY 4 32 MFM_NONE MFP_NONE false OFPUTIL_P_NONE
      OFPUTIL_P_NONE (-1)
  | MFF_PKT_MARK => Mk_mf_field MFF_PKT_MARK 4 32 MFM_FULLY MFP_NONE true OFPUTIL_P_NXM_OXM_ANY OFPUTIL_P_NXM_OXM_ANY (-1)
  | MFF_REG0 => register MFF_REG0
  | MFF_REG1 => register MFF_REG1
  | MFF_REG2 => register MFF_REG2
  | MFF_REG3 => register MFF_REG3
  | MFF_REG4 => register MFF_REG4
  | MFF_REG5 => register MFF_REG5
  | MFF_REG6 => register MFF_REG6
  | MFF_REG7 => register MFF_REG7
  | MFF_ETH_SRC => Mk_mf_field MFF_ETH_SRC 6 48 MFM_FULLY MFP_NONE true OFPUTIL_P_ANY
      OFPUTIL_P_NXM_OF11_UP (-1)
  | MFF_ETH_DST => Mk_mf_field MFF_ETH_DST 6 48 MFM_FULLY MFP_NONE true OFPUTIL_P_ANY
      OFPUTIL_P_NXM_OF11_UP (-1)
  | MFF_ETH_TYPE => Mk_mf_field MFF_ETH_TYPE 2 16 MFM_NONE MFP_NONE false OFPUTIL_P_ANY OFPUTIL_P_NONE (-1)
  | MFF_VLAN_TCI => Mk_mf_field MFF_VLAN_TCI 2 16 MFM_FULLY MFP_NONE true OFPUTIL_P_ANY
      OFPUTIL_P_NXM_OXM_ANY (-1)
  | MFF_DL_VLAN => Mk_mf_field MFF_DL_VLAN 2 12 MFM_NONE MFP_NONE true OFPUTIL_P_ANY
      OFPUTIL_P_NXM_OXM_ANY (-1)
  | MFF_VLAN_VID => Mk_mf_field MFF_VLAN_VID 2 12 MFM_FULLY MFP_NONE true OFPUTIL_P_ANY
      OFPUTIL_P_NXM_OXM_ANY (-1)
  | MFF_DL_VLAN_PCP => Mk_mf_field MFF_DL_VLAN_PCP 1 3 MFM_NONE MFP_NONE true OFPUTIL_P_ANY
      OFPUTIL_P_NONE (-1)
  | MFF_VLAN_PCP => Mk_mf_field MFF_VLAN_PCP 1 3 MFM_NONE MFP_VLAN_VID true OFPUTIL_P_ANY OFPUTIL_P_NONE (-1)
  | MFF_MPLS_LABEL => Mk_mf_field MFF_MPLS_LABEL 4 20 MFM_NONE MFP_MPLS true OFPUTIL_P_NXM_OF11_UP
      OFPUTIL_P_NONE (-1)
  | MFF_MPLS_TC => Mk_mf_field MFF_MPLS_TC 1 3 MFM_NONE MFP_MPLS true OFPUTIL_P_NXM_OF11_UP
      OFPUTIL_P_NONE (-1)
  | MFF_MPLS_BOS => Mk_mf_field MFF_MPLS_BOS 1 1 MFM_NONE MFP_MPLS false OFPUTIL_P_NXM_OXM_ANY
      OFPUTIL_P_NONE (-1)
  | MFF_IPV4_SRC => Mk_mf_field MFF_IPV4_SRC 4 32 MFM_FULLY MFP_IPV4 true OFPUTIL_P_ANY
      OFPUTIL_P_NXM_OF11_UP (FLOW_U32OFS (T + 124))
  | MFF_IPV4_DST => Mk_mf_field MFF_IPV4_DST 4 32 MFM_FULLY MFP_IPV4 true OFPUTIL_P_ANY
      OFPUTIL_P_NXM_OF11_UP (FLOW_U32OFS (T + 128))
  | MFF_IPV6_SRC => Mk_mf_field MFF_IPV6_SRC 16 128 MFM_FULLY MFP_IPV6 true OFPUTIL_P_NXM_OXM_ANY
      OFPUTIL_P_NXM_OXM_ANY (FLOW_U32OFS (T + 72))
  | MFF_IPV6_DST => Mk_mf_field MFF_IPV6_DST 16 128 MFM_FULLY MFP_IPV6 true OFPUTIL_P_NXM_OXM_ANY
      OFPUTIL_P_NXM_OXM_ANY (FLOW_U32OFS (T + 88))
  | MFF_IPV6_LABEL => Mk_mf_field MFF_IPV6_LABEL 4 20 MFM_FULLY MFP_IPV6 false OFPUTIL_P_NXM_OXM_ANY
      OFPUTIL_P_NXM_OXM_ANY (-1)
  | MFF_IP_PROTO => Mk_mf_field MFF_IP_PROTO 1 8 MFM_NONE MFP_IP_ANY false OFPUTIL_P_ANY OFPUTIL_P_NONE (-1)
  | MFF_IP_DSCP => Mk_mf_field MFF_IP_DSCP 1 8 MFM_NONE MFP_IP_ANY true OFPUTIL_P_ANY OFPUTIL_P_NONE (-1)
  | MFF_IP_DSCP_SHIFTED => Mk_mf_field MFF_IP_DSCP_SHIFTED 1 6 MFM_NONE MFP_IP_ANY true
      OFPUTIL_P_ANY OFPUTIL_P_NONE (-1)
  | MFF_IP_ECN => Mk_mf_field MFF_IP_ECN 1 2 MFM_NONE MFP_IP_ANY true OFPUTIL_P_NXM_OXM_ANY
      OFPUTIL_P_NONE (-1)
  | MFF_IP_TTL => Mk_mf_field MFF_IP_TTL 1 8 MFM_NONE MFP_IP_ANY true OFPUTIL_P_NXM_OXM_ANY
      OFPUTIL_P_NONE (-1)
  | MFF_IP_FRAG => Mk_mf_field MFF_IP_FRAG 1 2 MFM_FULLY MFP_IP_ANY false OFPUTIL_P_NXM_OXM_ANY OFPUTIL_P_NXM_OXM_ANY (-1)
  | MFF_ARP_OP => Mk_mf_field MFF_ARP_OP 2 16 MFM_NONE MFP_ARP true OFPUTIL_P_ANY OFPUTIL_P_NONE (-1)
  | MFF_ARP_SPA => Mk_mf_field MFF_ARP_SPA 4 32 MFM_FULLY MFP_ARP true OFPUTIL_P_ANY
      OFPUTIL_P_NXM_OF11_UP (-1)
  | MFF_ARP_TPA => Mk_mf_field MFF_ARP_TPA 4 32 MFM_FULLY MFP_ARP true OFPUTIL_P_ANY
      OFPUTIL_P_NXM_OF11_UP (-1)
  | MFF_ARP_SHA => Mk_mf_field MFF_ARP_SHA 6 48 MFM_FULLY MFP_ARP true OFPUTIL_P_NXM_OXM_ANY OFPUTIL_P_NXM_OXM_ANY (-1)
  | MFF_ARP_THA => Mk_mf_field MFF_ARP_THA 6 48 MFM_FULLY MFP_ARP true OFPUTIL_P_NXM_OXM_ANY OFPUTIL_P_NXM_OXM_ANY (-1)
  | MFF_TCP_SRC => Mk_mf_field MFF_TCP_SRC 2 16 MFM_FULLY MFP_TCP true OFPUTIL_P_ANY
      OFPUTIL_P_NXM_OXM_ANY (-1)
  | MFF_TCP_DST => Mk_mf_field MFF_TCP_DST 2 16 MFM_FULLY MFP_TCP true OFPUTIL_P_ANY
      OFPUTIL_P_NXM_OXM_ANY (-1)
  | MFF_TCP_FLAGS => Mk_mf_field MFF_TCP_FLAGS 2 12 MFM_FULLY MFP_TCP false OFPUTIL_P_NXM_OXM_ANY OFPUTIL_P_NXM_OXM_ANY (-1)
  | MFF_UDP_SRC => Mk_mf_field MFF_UDP_SRC 2 16 MFM_FULLY MFP_UDP true OFPUTIL_P_ANY
      OFPUTIL_P_NXM_OXM_ANY (-1)
  | MFF_UDP_DST => Mk_mf_field MFF_UDP_DST 2 16 MFM_FULLY MFP_UDP true OFPUTIL_P_ANY
      OFPUTIL_P_NXM_OXM_ANY (-1)
  | MFF_SCTP_SRC => Mk_mf_field MFF_SCTP_SRC 2 16 MFM_FULLY MFP_SCTP true OFPUTIL_P_NXM_OF11_UP
      OFPUTIL_P_NXM_OXM_ANY (-1)
  | MFF_SCTP_DST => Mk_mf_field MFF_SCTP_DST 2 16 MFM_FULLY MFP_SCTP true OFPUTIL_P_NXM_OF11_UP
      OFPUTIL_P_NXM_OXM_ANY (-1)
  | MFF_ICMPV4_TYPE => Mk_mf_field MFF_ICMPV4_TYPE 1 8 MFM_NONE MFP_ICMPV4 false OFPUTIL_P_ANY
      OFPUTIL_P_NONE (-1)
  | MFF_ICMPV4_CODE => Mk_mf_field MFF_ICMPV4_CODE 1 8 MFM_NONE MFP_ICMPV4 false OFPUTIL_P_ANY
      OFPUTIL_P_NONE (-1)
  | MFF_ICMPV6_TYPE => Mk_mf_field MFF_ICMPV6_TYPE 1 8 MFM_NONE MFP_ICMPV6 false
      OFPUTIL_P_NXM_OXM_ANY OFPUTIL_P_NONE (-1)
  | MFF_ICMPV6_CODE => Mk_mf_field MFF_ICMPV6_CODE 1 8 MFM_NONE MFP_ICMPV6 false
      OFPUTIL_P_NXM_OXM_ANY OFPUTIL_P_NONE (-1)
  | MFF_ND_TARGET => Mk_mf_field MFF_ND_TARGET 16 128 MFM_FULLY MFP_ND false OFPUTIL_P_NXM_OXM_ANY OFPUTIL_P_NXM_OXM_ANY (-1)
  | MFF_ND_SLL => Mk_mf_field MFF_ND_SLL 6 48 MFM_FULLY MFP_ND_SOLICIT false OFPUTIL_P_NXM_OXM_ANY OFPUTIL_P_NXM_OXM_ANY (-1)
  | MFF_ND_TLL => Mk_mf_field MFF_ND_TLL 6 48 MFM_FULLY MFP_ND_ADVERT false OFPUTIL_P_NXM_OXM_ANY OFPUTIL_P_NXM_OXM_ANY (-1)
  end.

(** [mf->id - MFF_REG0] *)
Definition reg_idx (id : mf_field_id) : nat :=
  match id with
  | MFF_REG1 => 1 | MFF_REG2 => 2 | MFF_REG3 => 3 | MFF_REG4 => 4 | MFF_REG5 => 5 | MFF_REG6 => 6 | MFF_REG7 => 7
  | _ => 0
  end.

(** [union mf_value] *)
Abbreviation mf_value := (list Z).

Definition be64 (v : mf_value) : Z := le_word (take 8 v).
Definition be32 (v : mf_value) : Z := le_word (take 4 v).
Definition be16 (v : mf_value) : Z := le_word (take 2 v).
Definition val8 (v : mf_value) : Z := nth 0 v 0.
Definition mac (v : mf_value) : list Z := take 6 v.
Definition ipv6 (v : mf_value) : list Z := take 16 v.
Definition put (bytes : list Z) (v : mf_value) : mf_value := bytes ++ drop (length bytes) v.

Definition exact_match_mask : mf_value := in6addr_exact.

Definition is_all_zeros (p : list Z) (n : Z) : bool := forallb (fun b => b =? 0x00) (take (Z.to_nat n) p).
Definition is_all_ones (p : list Z) (n : Z) : bool := forallb (fun b => b =? 0xff) (take (Z.to_nat n) p).

(** *** Ports *)

Definition OFPP_MAX : Z := 0xff00.
Definition OFPP_NONE : Z := 0xffff.
Definition OFPP11_MAX : Z := 0xffffff00.
Definition OFPP11_OFFSET : Z := 0xffff0000.

(** Whether the port is accepted, and the port. *)
Definition ofputil_port_from_ofp11 (ofp11_port : Z) : bool * Z :=
  let ofp11_port_h := ntohl ofp11_port in
  if ofp11_port_h <? OFPP_MAX then (true, u16 ofp11_port_h)
  else if OFPP11_MAX <=? ofp11_port_h then (true, u16 (ofp11_port_h - OFPP11_OFFSET))
  else (false, OFPP_NONE).

Definition ofputil_port_to_ofp11 (ofp10_port : Z) : Z :=
  htonl (if ofp10_port <? OFPP_MAX then ofp10_port else u32 (ofp10_port + OFPP11_OFFSET)).

(** ** The program: the functions *)


Definition mf_is_all_wild (mf : mf_field) (wc : flow) : bool :=
  match mf_id mf with
  | MFF_TUN_SRC => ip_src (tunnel wc) =? 0
  | MFF_TUN_DST => ip_dst (tunnel wc) =? 0
  | MFF_TUN_ID | MFF_TUN_TOS | MFF_TUN_TTL | MFF_TUN_FLAGS => tun_id (tunnel wc) =? 0
  | MFF_METADATA => metadata wc =? 0
  | MFF_IN_PORT | MFF_IN_PORT_OXM => ofp_port wc =? 0
  | MFF_SKB_PRIORITY => skb_priority wc =? 0
  | MFF_PKT_MARK => pkt_mark wc =? 0
  | MFF_REG0 | MFF_REG1 | MFF_REG2 | MFF_REG3 | MFF_REG4 | MFF_REG5 | MFF_REG6 | MFF_REG7
      => nth (reg_idx (mf_id mf)) (regs wc) 0 =? 0
  | MFF_ETH_SRC => eth_addr_is_zero (dl_src wc)
  | MFF_ETH_DST => eth_addr_is_zero (dl_dst wc)
  | MFF_ETH_TYPE => dl_type wc =? 0
  | MFF_ARP_SHA | MFF_ND_SLL => eth_addr_is_zero (arp_sha wc)
  | MFF_ARP_THA | MFF_ND_TLL => eth_addr_is_zero (arp_tha wc)
  | MFF_VLAN_TCI => vlan_tci wc =? 0
  | MFF_DL_VLAN => Z.land (vlan_tci wc) (htons VLAN_VID_MASK) =? 0
  | MFF_VLAN_VID => Z.land (vlan_tci wc) (htons (Z.lor VLAN_VID_MASK VLAN_CFI)) =? 0
  | MFF_DL_VLAN_PCP | MFF_VLAN_PCP => Z.land (vlan_tci wc) (htons VLAN_PCP_MASK) =? 0
  | MFF_MPLS_LABEL => Z.land (mpls_lse wc) (htonl MPLS_LABEL_MASK) =? 0
  | MFF_MPLS_TC => Z.land (mpls_lse wc) (htonl MPLS_TC_MASK) =? 0
  | MFF_MPLS_BOS => Z.land (mpls_lse wc) (htonl MPLS_BOS_MASK) =? 0
  | MFF_IPV4_SRC | MFF_ARP_SPA => nw_src wc =? 0
  | MFF_IPV4_DST | MFF_ARP_TPA => nw_dst wc =? 0
  | MFF_IPV6_SRC => ipv6_mask_is_any (ipv6_src wc)
  | MFF_IPV6_DST => ipv6_mask_is_any (ipv6_dst wc)
  | MFF_IPV6_LABEL => ipv6_label wc =? 0
  | MFF_IP_PROTO | MFF_ARP_OP => nw_proto wc =? 0
  | MFF_IP_DSCP | MFF_IP_DSCP_SHIFTED => Z.land (nw_tos wc) IP_DSCP_MASK =? 0
  | MFF_IP_ECN => Z.land (nw_tos wc) IP_ECN_MASK =? 0
  | MFF_IP_TTL => nw_ttl wc =? 0
  | MFF_ND_TARGET => ipv6_mask_is_any (nd_target wc)
  | MFF_IP_FRAG => Z.land (nw_frag wc) FLOW_NW_FRAG_MASK =? 0
  | MFF_TCP_SRC | MFF_UDP_SRC | MFF_SCTP_SRC | MFF_ICMPV4_TYPE | MFF_ICMPV6_TYPE => tp_src wc =? 0
  | MFF_TCP_DST | MFF_UDP_DST | MFF_SCTP_DST | MFF_ICMPV4_CODE | MFF_ICMPV6_CODE => tp_dst wc =? 0
  | MFF_TCP_FLAGS => tcp_flags wc =? 0
  end.

Definition mf_is_mask_valid (mf : mf_field) (mask : mf_value) : bool :=
  match maskable mf with
  | MFM_NONE => is_all_zeros mask (n_bytes mf) || is_all_ones mask (n_bytes mf)
  | MFM_FULLY => true
  end.

Definition mf_are_prereqs_ok (mf : mf_field) (f : flow) : bool :=
  match prereqs mf with
  | MFP_NONE => true
  | MFP_ARP => (dl_type f =? htons ETH_TYPE_ARP) || (dl_type f =? htons ETH_TYPE_RARP)
  | MFP_IPV4 => dl_type f =? htons ETH_TYPE_IP
  | MFP_IPV6 => dl_type f =? htons ETH_TYPE_IPV6
  | MFP_VLAN_VID => negb (Z.land (vlan_tci f) (htons VLAN_CFI) =? 0)
  | MFP_MPLS => eth_type_mpls (dl_type f)
  | MFP_IP_ANY => is_ip_any f
  | MFP_TCP => is_ip_any f && (nw_proto f =? IPPROTO_TCP)
  | MFP_UDP => is_ip_any f && (nw_proto f =? IPPROTO_UDP)
  | MFP_SCTP => is_ip_any f && (nw_proto f =? IPPROTO_SCTP)
  | MFP_ICMPV4 => is_icmpv4 f
  | MFP_ICMPV6 => is_icmpv6 f
  | MFP_ND =>
      is_icmpv6 f && (tp_dst f =? htons 0)
      && ((tp_src f =? htons ND_NEIGHBOR_SOLICIT) || (tp_src f =? htons ND_NEIGHBOR_ADVERT))
  | MFP_ND_SOLICIT => is_icmpv6 f && (tp_dst f =? htons 0) && (tp_src f =? htons ND_NEIGHBOR_SOLICIT)
  | MFP_ND_ADVERT => is_icmpv6 f && (tp_dst f =? htons 0) && (tp_src f =? htons ND_NEIGHBOR_ADVERT)
  end.

Definition mf_is_value_valid (mf : mf_field) (value : mf_value) : bool :=
  match mf_id mf with
  | MFF_IN_PORT_OXM => fst (ofputil_port_from_ofp11 (be32 value))
  | MFF_IP_DSCP => Z.land (val8 value) (Z.lnot IP_DSCP_MASK) =? 0
  | MFF_IP_DSCP_SHIFTED => Z.land (val8 value) (Z.shiftr (Z.lnot IP_DSCP_MASK) 2) =? 0
  | MFF_IP_ECN => Z.land (val8 value) (Z.lnot IP_ECN_MASK) =? 0
  | MFF_IP_FRAG => Z.land (val8 value) (Z.lnot FLOW_NW_FRAG_MASK) =? 0
  | MFF_TCP_FLAGS => Z.land (be16 value) (Z.lnot (htons 0x0fff)) =? 0
  | MFF_ARP_OP => Z.land (be16 value) (htons 0xff00) =? 0
  | MFF_DL_VLAN => Z.land (be16 value) (htons (Z.lor VLAN_CFI VLAN_PCP_MASK)) =? 0
  | MFF_VLAN_VID => Z.land (be16 value) (htons VLAN_PCP_MASK) =? 0
  | MFF_DL_VLAN_PCP | MFF_VLAN_PCP => Z.land (val8 value) (Z.lnot (Z.shiftr VLAN_PCP_MASK VLAN_PCP_SHIFT)) =? 0
  | MFF_IPV6_LABEL => Z.land (be32 value) (u32 (Z.lnot (htonl IPV6_LABEL_MASK))) =? 0
  | MFF_MPLS_LABEL => Z.land (be32 value) (u32 (Z.lnot (htonl (Z.shiftr MPLS_LABEL_MASK MPLS_LABEL_SHIFT)))) =? 0
  | MFF_MPLS_TC => Z.land (val8 value) (Z.lnot (Z.shiftr MPLS_TC_MASK MPLS_TC_SHIFT)) =? 0
  | MFF_MPLS_BOS => Z.land (val8 value) (Z.lnot (Z.shiftr MPLS_BOS_MASK MPLS_BOS_SHIFT)) =? 0
  | _ => true
  end.

(** The members of the value that are stored. *)
Definition mf_get_bytes (id : mf_field_id) (f : flow) : list Z :=
  match id with
  | MFF_TUN_ID => le64_bytes (tun_id (tunnel f))
  | MFF_TUN_SRC => le32_bytes (ip_src (tunnel f))
  | MFF_TUN_DST => le32_bytes (ip_dst (tunnel f))
  | MFF_TUN_FLAGS => le16_bytes (htons (flags (tunnel f)))
  | MFF_TUN_TTL => [ip_ttl (tunnel f)]
  | MFF_TUN_TOS => [ip_tos (tunnel f)]
  | MFF_METADATA => le64_bytes (metadata f)
  | MFF_IN_PORT => le16_bytes (htons (ofp_port f))
  | MFF_IN_PORT_OXM => le32_bytes (ofputil_port_to_ofp11 (ofp_port f))
  | MFF_SKB_PRIORITY => le32_bytes (htonl (skb_priority f))
  | MFF_PKT_MARK => le32_bytes (htonl (pkt_mark f))
  | MFF_REG0 | MFF_REG1 | MFF_REG2 | MFF_REG3 | MFF_REG4 | MFF_REG5 | MFF_REG6 | MFF_REG7
      => le32_bytes (htonl (nth (reg_idx id) (regs f) 0))
  | MFF_ETH_SRC => dl_src f
  | MFF_ETH_DST => dl_dst f
  | MFF_ETH_TYPE => le16_bytes (dl_type f)
  | MFF_VLAN_TCI => le16_bytes (vlan_tci f)
  | MFF_DL_VLAN => le16_bytes (Z.land (vlan_tci f) (htons VLAN_VID_MASK))
  | MFF_VLAN_VID => le16_bytes (Z.land (vlan_tci f) (htons (Z.lor VLAN_VID_MASK VLAN_CFI)))
  | MFF_DL_VLAN_PCP | MFF_VLAN_PCP => [vlan_tci_to_pcp (vlan_tci f)]
  | MFF_MPLS_LABEL => le32_bytes (htonl (mpls_lse_to_label (mpls_lse f)))
  | MFF_MPLS_TC => [mpls_lse_to_tc (mpls_lse f)]
  | MFF_MPLS_BOS => [Z.b2z (mpls_lse_to_bos (mpls_lse f))]
  | MFF_IPV4_SRC | MFF_ARP_SPA => le32_bytes (nw_src f)
  | MFF_IPV4_DST | MFF_ARP_TPA => le32_bytes (nw_dst f)
  | MFF_IPV6_SRC => ipv6_src f
  | MFF_IPV6_DST => ipv6_dst f
  | MFF_IPV6_LABEL => le32_bytes (ipv6_label f)
  | MFF_IP_PROTO => [nw_proto f]
  | MFF_IP_DSCP => [Z.land (nw_tos f) IP_DSCP_MASK]
  | MFF_IP_DSCP_SHIFTED => [Z.shiftr (nw_tos f) 2]
  | MFF_IP_ECN => [Z.land (nw_tos f) IP_ECN_MASK]
  | MFF_IP_TTL => [nw_ttl f]
  | MFF_IP_FRAG => [nw_frag f]
  | MFF_ARP_OP => le16_bytes (htons (nw_proto f))
  | MFF_ARP_SHA | MFF_ND_SLL => arp_sha f
  | MFF_ARP_THA | MFF_ND_TLL => arp_tha f
  | MFF_TCP_SRC | MFF_UDP_SRC | MFF_SCTP_SRC => le16_bytes (tp_src f)
  | MFF_TCP_DST | MFF_UDP_DST | MFF_SCTP_DST => le16_bytes (tp_dst f)
  | MFF_TCP_FLAGS => le16_bytes (tcp_flags f)
  | MFF_ICMPV4_TYPE | MFF_ICMPV6_TYPE => [u8 (ntohs (tp_src f))]
  | MFF_ICMPV4_CODE | MFF_ICMPV6_CODE => [u8 (ntohs (tp_dst f))]
  | MFF_ND_TARGET => nd_target f
  end.

Definition mf_get_value (mf : mf_field) (f : flow) (value : mf_value) : mf_value := put (mf_get_bytes (mf_id mf) f) value.

Definition mf_get_mask (mf : mf_field) (wc : flow) (mask : mf_value) : mf_value := mf_get_value mf wc mask.

Definition mf_is_zero (mf : mf_field) (f : flow) (uninit : mf_value) : bool :=
  is_all_zeros (mf_get_value mf f uninit) (n_bytes mf).

Definition mf_set_flow_value (mf : mf_field) (value : mf_value) (f : flow) : flow :=
  match mf_id mf with
  | MFF_TUN_ID => set_tunnel (tnl_tun_id (be64 value) (tunnel f)) f
  | MFF_TUN_SRC => set_tunnel (tnl_ip_src (be32 value) (tunnel f)) f
  | MFF_TUN_DST => set_tunnel (tnl_ip_dst (be32 value) (tunnel f)) f
  | MFF_TUN_FLAGS => set_tunnel (tnl_flags (ntohs (be16 value)) (tunnel f)) f
  | MFF_TUN_TOS => set_tunnel (tnl_ip_tos (val8 value) (tunnel f)) f
  | MFF_TUN_TTL => set_tunnel (tnl_ip_ttl (val8 value) (tunnel f)) f
  | MFF_METADATA => set_metadata (be64 value) f
  | MFF_IN_PORT => set_ofp_port (ntohs (be16 value)) f
  | MFF_IN_PORT_OXM => set_ofp_port (snd (ofputil_port_from_ofp11 (be32 value))) f
  | MFF_SKB_PRIORITY => set_skb_priority (ntohl (be32 value)) f
  | MFF_PKT_MARK => set_pkt_mark (ntohl (be32 value)) f
  | MFF_REG0 | MFF_REG1 | MFF_REG2 | MFF_REG3 | MFF_REG4 | MFF_REG5 | MFF_REG6 | MFF_REG7
      => set_regs (<[reg_idx (mf_id mf) := ntohl (be32 value)]> (regs f)) f
  | MFF_ETH_SRC => set_dl_src (mac value) f
  | MFF_ETH_DST => set_dl_dst (mac value) f
  | MFF_ETH_TYPE => set_dl_type (be16 value) f
  | MFF_VLAN_TCI => set_vlan_tci (be16 value) f
  | MFF_DL_VLAN => flow_set_dl_vlan (be16 value) f
  | MFF_VLAN_VID => flow_set_vlan_vid (be16 value) f
  | MFF_DL_VLAN_PCP | MFF_VLAN_PCP => flow_set_vlan_pcp (val8 value) f
  | MFF_MPLS_LABEL => flow_set_mpls_label (be32 value) f
  | MFF_MPLS_TC => flow_set_mpls_tc (val8 value) f
  | MFF_MPLS_BOS => flow_set_mpls_bos (val8 value) f
  | MFF_IPV4_SRC | MFF_ARP_SPA => set_nw_src (be32 value) f
  | MFF_IPV4_DST | MFF_ARP_TPA => set_nw_dst (be32 value) f
  | MFF_IPV6_SRC => set_ipv6_src (ipv6 value) f
  | MFF_IPV6_DST => set_ipv6_dst (ipv6 value) f
  | MFF_IPV6_LABEL => set_ipv6_label (clear32 (be32 value) (htonl IPV6_LABEL_MASK)) f
  | MFF_IP_PROTO => set_nw_proto (val8 value) f
  | MFF_IP_DSCP => set_nw_tos (Z.lor (clear8 (nw_tos f) IP_DSCP_MASK) (Z.land (val8 value) IP_DSCP_MASK)) f
  | MFF_IP_DSCP_SHIFTED => set_nw_tos (u8 (Z.lor (clear8 (nw_tos f) IP_DSCP_MASK) (Z.shiftl (val8 value) 2))) f
  | MFF_IP_ECN => set_nw_tos (Z.lor (clear8 (nw_tos f) IP_ECN_MASK) (Z.land (val8 value) IP_ECN_MASK)) f
  | MFF_IP_TTL => set_nw_ttl (val8 value) f
  | MFF_IP_FRAG => set_nw_frag (Z.land (val8 value) FLOW_NW_FRAG_MASK) f
  | MFF_ARP_OP => set_nw_proto (u8 (ntohs (be16 value))) f
  | MFF_ARP_SHA | MFF_ND_SLL => set_arp_sha (mac value) f
  | MFF_ARP_THA | MFF_ND_TLL => set_arp_tha (mac value) f
  | MFF_TCP_SRC | MFF_UDP_SRC | MFF_SCTP_SRC => set_tp_src (be16 value) f
  | MFF_TCP_DST | MFF_UDP_DST | MFF_SCTP_DST => set_tp_dst (be16 value) f
  | MFF_TCP_FLAGS => set_tcp_flags (be16 value) f
  | MFF_ICMPV4_TYPE | MFF_ICMPV6_TYPE => set_tp_src (htons (val8 value)) f
  | MFF_ICMPV4_CODE | MFF_ICMPV6_CODE => set_tp_dst (htons (val8 value)) f
  | MFF_ND_TARGET => set_nd_target (ipv6 value) f
  end.

Definition mf_mask_field (mf : mf_field) (mask : flow) : flow :=
  if decide (mf_id mf = MFF_DL_VLAN) then flow_set_dl_vlan (htons VLAN_VID_MASK) mask
  else mf_set_flow_value mf exact_match_mask mask.

Definition mf_mask_field_and_prereqs (mf : mf_field) (mask : flow) : flow :=
  let mask := mf_set_flow_value mf exact_match_mask mask in
  let l3 mask := set_dl_type OVS_BE16_MAX mask in
  let l4 mask := l3 (set_nw_proto 0xff mask) in
  match prereqs mf with
  | MFP_ND | MFP_ND_SOLICIT | MFP_ND_ADVERT => l4 (set_tp_dst OVS_BE16_MAX (set_tp_src OVS_BE16_MAX mask))
  | MFP_TCP | MFP_UDP | MFP_SCTP | MFP_ICMPV4 | MFP_ICMPV6 => l4 mask
  | MFP_ARP | MFP_IPV4 | MFP_IPV6 | MFP_MPLS | MFP_IP_ANY => l3 mask
  | MFP_VLAN_VID => set_vlan_tci (Z.lor (vlan_tci mask) (htons VLAN_CFI)) mask
  | MFP_NONE => mask
  end.

(** *** Matches *)

Definition mf_set_value (mf : mf_field) (value : mf_value) (m : smatch) : Res smatch :=
  match mf_id mf with
  | MFF_TUN_ID => Ok (match_set_tun_id (be64 value) m)
  | MFF_TUN_SRC => Ok (match_set_tun_src (be32 value) m)
  | MFF_TUN_DST => Ok (match_set_tun_dst (be32 value) m)
  | MFF_TUN_FLAGS => Ok (match_set_tun_flags (ntohs (be16 value)) m)
  | MFF_TUN_TOS => Ok (match_set_tun_tos (val8 value) m)
  | MFF_TUN_TTL => Ok (match_set_tun_ttl (val8 value) m)
  | MFF_METADATA => Ok (match_set_metadata (be64 value) m)
  | MFF_IN_PORT => Ok (match_set_in_port (ntohs (be16 value)) m)
  | MFF_IN_PORT_OXM => Ok (match_set_in_port (snd (ofputil_port_from_ofp11 (be32 value))) m)
  | MFF_SKB_PRIORITY => Ok (match_set_skb_priority (ntohl (be32 value)) m)
  | MFF_PKT_MARK => Ok (match_set_pkt_mark (ntohl (be32 value)) m)
  | MFF_REG0 | MFF_REG1 | MFF_REG2 | MFF_REG3 | MFF_REG4 | MFF_REG5 | MFF_REG6 | MFF_REG7
      => match_set_reg (Z.of_nat (reg_idx (mf_id mf))) (ntohl (be32 value)) m
  | MFF_ETH_SRC => Ok (match_set_dl_src (mac value) m)
  | MFF_ETH_DST => Ok (match_set_dl_dst (mac value) m)
  | MFF_ETH_TYPE => Ok (match_set_dl_type (be16 value) m)
  | MFF_VLAN_TCI => Ok (match_set_dl_tci (be16 value) m)
  | MFF_DL_VLAN => Ok (match_set_dl_vlan (be16 value) m)
  | MFF_VLAN_VID => Ok (match_set_vlan_vid (be16 value) m)
  | MFF_DL_VLAN_PCP | MFF_VLAN_PCP => Ok (match_set_dl_vlan_pcp (val8 value) m)
  | MFF_MPLS_LABEL => Ok (match_set_mpls_label (be32 value) m)
  | MFF_MPLS_TC => Ok (match_set_mpls_tc (val8 value) m)
  | MFF_MPLS_BOS => Ok (match_set_mpls_bos (val8 value) m)
  | MFF_IPV4_SRC | MFF_ARP_SPA => Ok (match_set_nw_src (be32 value) m)
  | MFF_IPV4_DST | MFF_ARP_TPA => Ok (match_set_nw_dst (be32 value) m)
  | MFF_IPV6_SRC => Ok (match_set_ipv6_src (ipv6 value) m)
  | MFF_IPV6_DST => Ok (match_set_ipv6_dst (ipv6 value) m)
  | MFF_IPV6_LABEL => Ok (match_set_ipv6_label (be32 value) m)
  | MFF_IP_PROTO => Ok (match_set_nw_proto (val8 value) m)
  | MFF_IP_DSCP => Ok (match_set_nw_dscp (val8 value) m)
  | MFF_IP_DSCP_SHIFTED => Ok (match_set_nw_dscp (u8 (Z.shiftl (val8 value) 2)) m)
  | MFF_IP_ECN => Ok (match_set_nw_ecn (val8 value) m)
  | MFF_IP_TTL => Ok (match_set_nw_ttl (val8 value) m)
  | MFF_IP_FRAG => Ok (match_set_nw_frag (val8 value) m)
  | MFF_ARP_OP => Ok (match_set_nw_proto (u8 (ntohs (be16 value))) m)
  | MFF_ARP_SHA | MFF_ND_SLL => Ok (match_set_arp_sha (mac value) m)
  | MFF_ARP_THA | MFF_ND_TLL => Ok (match_set_arp_tha (mac value) m)
  | MFF_TCP_SRC | MFF_UDP_SRC | MFF_SCTP_SRC => Ok (match_set_tp_src (be16 value) m)
  | MFF_TCP_DST | MFF_UDP_DST | MFF_SCTP_DST => Ok (match_set_tp_dst (be16 value) m)
  | MFF_TCP_FLAGS => Ok (match_set_tcp_flags (be16 value) m)
  | MFF_ICMPV4_TYPE | MFF_ICMPV6_TYPE => Ok (match_set_icmp_type (val8 value) m)
  | MFF_ICMPV4_CODE | MFF_ICMPV6_CODE => Ok (match_set_icmp_code (val8 value) m)
  | MFF_ND_TARGET => Ok (match_set_nd_target (ipv6 value) m)
  end.

Definition mf_set_wild (mf : mf_field) (m : smatch) : Res smatch :=
  let zero {A} (set : A -> flow -> flow) (z : A) := Ok (on_flow (set z) (on_wc (set z) m)) in
  match mf_id mf with
  | MFF_TUN_ID => Ok (match_set_tun_id_masked 0 0 m)
  | MFF_TUN_SRC => Ok (match_set_tun_src_masked 0 0 m)
  | MFF_TUN_DST => Ok (match_set_tun_dst_masked 0 0 m)
  | MFF_TUN_FLAGS => Ok (match_set_tun_flags_masked 0 0 m)
  | MFF_TUN_TOS => Ok (match_set_tun_tos_masked 0 0 m)
  | MFF_TUN_TTL => Ok (match_set_tun_ttl_masked 0 0 m)
  | MFF_METADATA => Ok (match_set_metadata_masked 0 0 m)
  | MFF_IN_PORT | MFF_IN_PORT_OXM => zero set_ofp_port 0
  | MFF_SKB_PRIORITY => zero set_skb_priority 0
  | MFF_PKT_MARK => zero set_pkt_mark 0
  | MFF_REG0 | MFF_REG1 | MFF_REG2 | MFF_REG3 | MFF_REG4 | MFF_REG5 | MFF_REG6 | MFF_REG7
      => match_set_reg_masked (Z.of_nat (reg_idx (mf_id mf))) 0 0 m
  | MFF_ETH_SRC => zero set_dl_src (replicate 6 0)
  | MFF_ETH_DST => zero set_dl_dst (replicate 6 0)
  | MFF_ETH_TYPE => zero set_dl_type 0
  | MFF_VLAN_TCI => Ok (match_set_dl_tci_masked (htons 0) (htons 0) m)
  | MFF_DL_VLAN | MFF_VLAN_VID => Ok (match_set_any_vid m)
  | MFF_DL_VLAN_PCP | MFF_VLAN_PCP => Ok (match_set_any_pcp m)
  | MFF_MPLS_LABEL => Ok (match_set_any_mpls_label m)
  | MFF_MPLS_TC => Ok (match_set_any_mpls_tc m)
  | MFF_MPLS_BOS => Ok (match_set_any_mpls_bos m)
  | MFF_IPV4_SRC | MFF_ARP_SPA => Ok (match_set_nw_src_masked (htonl 0) (htonl 0) m)
  | MFF_IPV4_DST | MFF_ARP_TPA => Ok (match_set_nw_dst_masked (htonl 0) (htonl 0) m)
  | MFF_IPV6_SRC => zero set_ipv6_src in6addr_any
  | MFF_IPV6_DST => zero set_ipv6_dst in6addr_any
  | MFF_IPV6_LABEL => zero set_ipv6_label (htonl 0)
  | MFF_IP_PROTO | MFF_ARP_OP => zero set_nw_proto 0
  | MFF_IP_DSCP | MFF_IP_DSCP_SHIFTED =>
      let clear f := set_nw_tos (clear8 (nw_tos f) IP_DSCP_MASK) f in Ok (on_flow clear (on_wc clear m))
  | MFF_IP_ECN =>
      let clear f := set_nw_tos (clear8 (nw_tos f) IP_ECN_MASK) f in Ok (on_flow clear (on_wc clear m))
  | MFF_IP_TTL => zero set_nw_ttl 0
  | MFF_IP_FRAG =>
      Ok (on_flow (fun f => set_nw_frag (clear8 (nw_frag f) FLOW_NW_FRAG_MASK) f)
           (on_wc (fun wc => set_nw_frag (Z.lor (nw_frag wc) FLOW_NW_FRAG_MASK) wc) m))
  | MFF_ARP_SHA | MFF_ND_SLL => zero set_arp_sha (replicate 6 0)
  | MFF_ARP_THA | MFF_ND_TLL => zero set_arp_tha (replicate 6 0)
  | MFF_TCP_SRC | MFF_UDP_SRC | MFF_SCTP_SRC | MFF_ICMPV4_TYPE | MFF_ICMPV6_TYPE => zero set_tp_src (htons 0)
  | MFF_TCP_DST | MFF_UDP_DST | MFF_SCTP_DST | MFF_ICMPV4_CODE | MFF_ICMPV6_CODE => zero set_tp_dst (htons 0)
  | MFF_TCP_FLAGS => zero set_tcp_flags (htons 0)
  | MFF_ND_TARGET => zero set_nd_target in6addr_any
  end.

(** A mask of leading 1-bits in network order. *)
Definition ip_is_cidr (netmask : Z) : bool :=
  let x := u32 (Z.lnot (ntohl netmask)) in
  Z.land x (u32 (x + 1)) =? 0.

(** The [switch] of [mf_set]; [None] where it returns [OFPUTIL_P_NONE]. *)
Definition mf_set_masked (mf : mf_field) (value mask : mf_value) (m : smatch) : Res (option smatch) :=
  let done m := Ok (Some m) in
  match mf_id mf with
  | MFF_IN_PORT | MFF_IN_PORT_OXM | MFF_SKB_PRIORITY | MFF_ETH_TYPE | MFF_DL_VLAN | MFF_DL_VLAN_PCP | MFF_VLAN_PCP
  | MFF_MPLS_LABEL | MFF_MPLS_TC | MFF_MPLS_BOS | MFF_IP_PROTO | MFF_IP_TTL | MFF_IP_DSCP | MFF_IP_DSCP_SHIFTED
  | MFF_IP_ECN | MFF_ARP_OP | MFF_ICMPV4_TYPE | MFF_ICMPV4_CODE | MFF_ICMPV6_TYPE | MFF_ICMPV6_CODE => Ok None
  | MFF_TUN_ID => done (match_set_tun_id_masked (be64 value) (be64 mask) m)
  | MFF_TUN_SRC => done (match_set_tun_src_masked (be32 value) (be32 mask) m)
  | MFF_TUN_DST => done (match_set_tun_dst_masked (be32 value) (be32 mask) m)
  | MFF_TUN_FLAGS => done (match_set_tun_flags_masked (ntohs (be16 value)) (ntohs (be16 mask)) m)
  | MFF_TUN_TTL => done (match_set_tun_ttl_masked (val8 value) (val8 mask) m)
  | MFF_TUN_TOS => done (match_set_tun_tos_masked (val8 value) (val8 mask) m)
  | MFF_METADATA => done (match_set_metadata_masked (be64 value) (be64 mask) m)
  | MFF_REG0 | MFF_REG1 | MFF_REG2 | MFF_REG3 | MFF_REG4 | MFF_REG5 | MFF_REG6 | MFF_REG7 =>
      let* m := match_set_reg_masked (Z.of_nat (reg_idx (mf_id mf))) (ntohl (be32 value)) (ntohl (be32 mask)) m in
      done m
  | MFF_PKT_MARK => done (match_set_pkt_mark_masked (ntohl (be32 value)) (ntohl (be32 mask)) m)
  | MFF_ETH_DST => done (match_set_dl_dst_masked (mac value) (mac mask) m)
  | MFF_ETH_SRC => done (match_set_dl_src_masked (mac value) (mac mask) m)
  | MFF_ARP_SHA | MFF_ND_SLL => done (match_set_arp_sha_masked (mac value) (mac mask) m)
  | MFF_ARP_THA | MFF_ND_TLL => done (match_set_arp_tha_masked (mac value) (mac mask) m)
  | MFF_VLAN_TCI => done (match_set_dl_tci_masked (be16 value) (be16 mask) m)
  | MFF_VLAN_VID => done (match_set_vlan_vid_masked (be16 value) (be16 mask) m)
  | MFF_IPV4_SRC | MFF_ARP_SPA => done (match_set_nw_src_masked (be32 value) (be32 mask) m)
  | MFF_IPV4_DST | MFF_ARP_TPA => done (match_set_nw_dst_masked (be32 value) (be32 mask) m)
  | MFF_IPV6_SRC => done (match_set_ipv6_src_masked (ipv6 value) (ipv6 mask) m)
  | MFF_IPV6_DST => done (match_set_ipv6_dst_masked (ipv6 value) (ipv6 mask) m)
  | MFF_IPV6_LABEL =>
      if Z.land (be32 mask) (htonl IPV6_LABEL_MASK) =? htonl IPV6_LABEL_MASK
      then let* m := mf_set_value mf value m in done m
      else done (match_set_ipv6_label_masked (be32 value) (be32 mask) m)
  | MFF_ND_TARGET => done (match_set_nd_target_masked (ipv6 value) (ipv6 mask) m)
  | MFF_IP_FRAG => done (match_set_nw_frag_masked (val8 value) (val8 mask) m)
  | MFF_TCP_SRC | MFF_UDP_SRC | MFF_SCTP_SRC => done (match_set_tp_src_masked (be16 value) (be16 mask) m)
  | MFF_TCP_DST | MFF_UDP_DST | MFF_SCTP_DST => done (match_set_tp_dst_masked (be16 value) (be16 mask) m)
  | MFF_TCP_FLAGS => done (match_set_tcp_flags_masked (be16 value) (be16 mask) m)
  end.

(** The protocols that can express the match, and the match. *)
Definition mf_set (mf : mf_field) (value : mf_value) (mask : option mf_value) (m : smatch) : Res (Z * smatch) :=
  match mask with
  | Some mask =>
      if is_all_ones mask (n_bytes mf) then let* m := mf_set_value mf value m in Ok (usable_protocols mf, m)
      else if is_all_zeros mask (n_bytes mf) then let* m := mf_set_wild mf m in Ok (OFPUTIL_P_ANY, m)
      else
        let* r := mf_set_masked mf value mask m in
        match r with
        | None => Ok (OFPUTIL_P_NONE, m)
        | Some m =>
            let cidr_check :=
              bool_decide (mf_id mf = MFF_IPV4_SRC) || bool_decide (mf_id mf = MFF_IPV4_DST)
              || bool_decide (mf_id mf = MFF_ARP_SPA) || bool_decide (mf_id mf = MFF_ARP_TPA) in
            Ok (if cidr_check && ip_is_cidr (be32 mask) then usable_protocols mf else usable_protocols_bitwise mf, m)
        end
  | None => let* m := mf_set_value mf value m in Ok (usable_protocols mf, m)
  end.

(** *** Subfields *)

Record mf_subfield := Mk_subfield { sf_field : option mf_field; sf_ofs : Z; sf_n_bits : Z }.

Inductive mf_ofperr := OFPERR_OFPBAC_BAD_SET_TYPE | OFPERR_OFPBAC_BAD_SET_LEN | OFPERR_OFPBAC_MATCH_INCONSISTENT
  | OFPERR_OFPBAC_BAD_SET_ARGUMENT.

Definition mf_check__ (sf : mf_subfield) (f : option flow) : option mf_ofperr :=
  match sf_field sf with
  | None => Some OFPERR_OFPBAC_BAD_SET_TYPE
  | Some field =>
      if sf_n_bits sf =? 0 then Some OFPERR_OFPBAC_BAD_SET_LEN
      else if n_bits field <=? sf_ofs sf then Some OFPERR_OFPBAC_BAD_SET_LEN
      else if n_bits field <? u32 (sf_ofs sf + sf_n_bits sf) then Some OFPERR_OFPBAC_BAD_SET_LEN
      else match f with
           | Some f => if mf_are_prereqs_ok field f then None else Some OFPERR_OFPBAC_MATCH_INCONSISTENT
           | None => None
           end
  end.

Definition mf_check_src (sf : mf_subfield) (f : option flow) : option mf_ofperr := mf_check__ sf f.

Definition mf_check_dst (sf : mf_subfield) (f : option flow) : option mf_ofperr :=
  match mf_check__ sf f with
  | None =>
      match sf_field sf with
      | Some field => if negb (writable field) then Some OFPERR_OFPBAC_BAD_SET_ARGUMENT else None
      | None => None
      end
  | error => error
  end.

(** The value and the mask. *)
Definition mf_get (mf : mf_field) (m : smatch) (value mask : mf_value) : mf_value * mf_value :=
  (mf_get_value mf (m_flow m) value, mf_get_mask mf (m_wc m) mask).
