(* ===== verification/MatchFacts.v ===== *)
(** * Matches and match fields: facts

    Clearing the wildcarded bits of a structure is the loop over its words, and a
    field written to a flow or a match is read back. *)

From Stdlib Require Import ZArith Lia List Bool.
From stdpp Require Import base option list_relations list.
From S2P Require Import Prelude Bytes Hash Csum Packets PacketsFacts Bits Flow FlowFacts FlowRoundtrip Miniflow MiniflowFacts MiniflowProps MatchSet MetaFlow.
#[local] Open Scope Z_scope.
#[local] Open Scope res_scope.

(** ** Words and bytes under a mask *)

Lemma land_mod x y k : 0 <= k -> Z.land x y mod 2 ^ k = Z.land (x mod 2 ^ k) (y mod 2 ^ k).
Proof.
  intros Hk. apply Z.bits_inj'. intros i Hi. rewrite Z.land_spec. destruct (Z.ltb_spec i k).
  - rewrite !Z.mod_pow2_bits_low, Z.land_spec by lia. done.
  - rewrite !Z.mod_pow2_bits_high by lia. done.
Qed.

Lemma land_div x y k : 0 <= k -> Z.land x y / 2 ^ k = Z.land (x / 2 ^ k) (y / 2 ^ k).
Proof. intros Hk. rewrite <- !Z.shiftr_div_pow2 by done. apply Z.shiftr_land. Qed.

Lemma land_byte_add b x b' x' : in_u8 b -> in_u8 b' -> Z.land (b + 2 ^ 8 * x) (b' + 2 ^ 8 * x') = Z.land b b' + 2 ^ 8 * Z.land x x'.
Proof.
  intros Hb Hb'. unfold in_u8 in *. assert (forall c y, 0 <= c < 2 ^ 8 -> (c + 2 ^ 8 * y) mod 2 ^ 8 = c /\ (c + 2 ^ 8 * y) / 2 ^ 8 = y) as H.
  { intros c y Hc. rewrite (Z.mul_comm _ y), Z_mod_plus_full, Z.div_add, Z.mod_small, Z.div_small by lia. lia. }
  destruct (H b x) as [M D]; [lia|]. destruct (H b' x') as [M' D']; [lia|].
  rewrite (Z.div_mod (Z.land (b + 2 ^ 8 * x) (b' + 2 ^ 8 * x')) (2 ^ 8)) by lia. rewrite land_mod, land_div, M, D, M', D' by lia. lia.
Qed.

Lemma le_word_land a b : bytes_ok a -> bytes_ok b -> length a = length b -> le_word (zip_with Z.land a b) = Z.land (le_word a) (le_word b).
Proof.
  intros Ha. revert b. induction Ha as [|x a Hx Ha IH]; intros b Hb Hl; destruct b as [|y b]; try done.
  inversion_clear Hb as [|? ? Hy Hb']. cbn [zip_with le_word foldr]. change (foldr _ 0 ?l) with (le_word l).
  rewrite IH by (done || (cbn in Hl; lia)). rewrite land_byte_add by done. done.
Qed.

Lemma words32_land n : forall a b, length a = (4 * n)%nat -> length b = (4 * n)%nat -> bytes_ok a -> bytes_ok b ->
  words32 (zip_with Z.land a b) = zip_with Z.land (words32 a) (words32 b).
Proof.
  induction n as [|n IH]; intros a b La Lb Ha Hb; [destruct a; [done | cbn in La; lia]|].
  destruct a as [|a0 [|a1 [|a2 [|a3 a]]]]; try (cbn in La; lia). destruct b as [|b0 [|b1 [|b2 [|b3 b]]]]; try (cbn in Lb; lia).
  cbn [zip_with words32]. unfold bytes_ok in *. rewrite !Forall_cons in Ha, Hb. f_equal.
  - apply (le_word_land [a0; a1; a2; a3] [b0; b1; b2; b3]); unfold bytes_ok; rewrite ?Forall_cons; rewrite ?Forall_nil; tauto.
  - apply IH; [cbn in La; lia | cbn in Lb; lia | tauto | tauto].
Qed.

Lemma le16_land x y : le16_bytes (Z.land x y) = zip_with Z.land (le16_bytes x) (le16_bytes y).
Proof. unfold le16_bytes. cbn [zip_with]. rewrite land_mod, land_div by lia. done. Qed.

Lemma le32_land x y : le32_bytes (Z.land x y) = zip_with Z.land (le32_bytes x) (le32_bytes y).
Proof.
  unfold le32_bytes. rewrite land_mod, land_div, !le16_land by lia. rewrite zip_with_app by done. done.
Qed.

Lemma le64_land x y : le64_bytes (Z.land x y) = zip_with Z.land (le64_bytes x) (le64_bytes y).
Proof. unfold le64_bytes. rewrite land_mod, land_div, !le32_land by lia. rewrite zip_with_app by done. done. Qed.

Lemma regs_land a b : length a = length b -> concat (map le32_bytes (zip_with Z.land a b)) = zip_with Z.land (concat (map le32_bytes a)) (concat (map le32_bytes b)).
Proof.
  revert b. induction a as [|x a IH]; intros [|y b] Hl; try done. cbn [zip_with map concat]. rewrite le32_land, IH by (cbn in Hl; lia).
  rewrite zip_with_app by done. done.
Qed.

Lemma zeros_land n : replicate n 0 = zip_with Z.land (replicate n 0) (replicate n 0).
Proof. induction n as [|n IH]; [done|]. cbn. rewrite <- IH. done. Qed.

(** ** The words of a flow determine the flow *)

Lemma le16_inj x y : in_u16 x -> in_u16 y -> le16_bytes x = le16_bytes y -> x = y.
Proof. intros Hx Hy E. rewrite <- (le_word_le16 x), <- (le_word_le16 y), E by done. done. Qed.

Lemma le32_inj x y : in_u32 x -> in_u32 y -> le32_bytes x = le32_bytes y -> x = y.
Proof. intros Hx Hy E. rewrite <- (le_word_le32 x), <- (le_word_le32 y), E by done. done. Qed.

Lemma le64_inj x y : in_u64 x -> in_u64 y -> le64_bytes x = le64_bytes y -> x = y.
Proof.
  intros Hx Hy E. apply app_inj_1 in E as [E1 E2]; [|by rewrite !length_le32].
  assert (forall z, in_u64 z -> in_u32 (z mod 2 ^ 32) /\ in_u32 (z / 2 ^ 32)) as R.
  { intros z Hz. unfold in_u64, in_u32 in *. split; [apply Z.mod_pos_bound; lia|]. split; [apply Z.div_pos; lia | apply Z.div_lt_upper_bound; lia]. }
  destruct (R x Hx), (R y Hy). apply le32_inj in E1, E2; try done. rewrite (Z.div_mod x (2 ^ 32)), (Z.div_mod y (2 ^ 32)) by lia. congruence.
Qed.

Lemma regs_inj a : forall b, Forall in_u32 a -> Forall in_u32 b -> length a = length b -> concat (map le32_bytes a) = concat (map le32_bytes b) -> a = b.
Proof.
  induction a as [|x a IH]; intros [|y b] Ha Hb L E; try done. apply Forall_cons in Ha as [Hx Ha], Hb as [Hy Hb].
  cbn [map concat] in E. apply app_inj_1 in E as [E1 E2]; [|by rewrite !length_le32]. f_equal; [by apply le32_inj | apply IH; try done; cbn in L; lia].
Qed.

Lemma words32_inj n : forall a b, length a = (4 * n)%nat -> length b = (4 * n)%nat -> bytes_ok a -> bytes_ok b -> words32 a = words32 b -> a = b.
Proof.
  induction n as [|n IH]; intros a b La Lb Ha Hb E; [destruct a, b; try done; cbn in La, Lb; lia|].
  destruct a as [|a0 [|a1 [|a2 [|a3 a]]]]; try (cbn in La; lia). destruct b as [|b0 [|b1 [|b2 [|b3 b]]]]; try (cbn in Lb; lia).
  change (a0 :: a1 :: a2 :: a3 :: a) with ([a0; a1; a2; a3] ++ a) in *. change (b0 :: b1 :: b2 :: b3 :: b) with ([b0; b1; b2; b3] ++ b) in *.
  unfold bytes_ok in *. apply Forall_app in Ha as [Ha Ha'], Hb as [Hb Hb']. cbn [app words32] in E. injection E as E1 E2.
  f_equal; [by apply le_word_inj | apply IH; try done; cbn in La, Lb; lia].
Qed.

Section Zero.
Variable target : abi.
Hypothesis Htarget : target = i686 \/ target = x86_64.

Lemma tnl_land a b : tnl_ok a -> tnl_ok b ->
  tnl_bytes target (Mk_tnl (Z.land (tun_id a) (tun_id b)) (Z.land (ip_src a) (ip_src b)) (Z.land (ip_dst a) (ip_dst b)) (Z.land (flags a) (flags b))
    (Z.land (ip_tos a) (ip_tos b)) (Z.land (ip_ttl a) (ip_ttl b))) = zip_with Z.land (tnl_bytes target a) (tnl_bytes target b).
Proof.
  intros _ _. unfold tnl_bytes. cbn [tun_id ip_src ip_dst flags ip_tos ip_ttl]. rewrite le64_land, !le32_land, le16_land, zeros_land at 1.
  rewrite !zip_with_app by done. done.
Qed.

Lemma flow_bytes_ok g : flow_typed g -> bytes_ok (flow_bytes target g) /\ length (flow_bytes target g) = (4 * FLOW_U32S target)%nat.
Proof.
  intros Hg. destruct (before_tag_ok target Htarget g Hg) as [Ba La], (after_tag_ok target Htarget g Hg) as [Bb Lb]. rewrite flow_bytes_parts. split.
  - unfold bytes_ok in *. rewrite !Forall_app. repeat split; try done; apply le16_bytes_ok; apply Hg.
  - rewrite !length_app, La, Lb. destruct Htarget as [-> | ->]; done.
Qed.

Lemma tnl_inj a b : tnl_ok a -> tnl_ok b -> tnl_bytes target a = tnl_bytes target b -> a = b.
Proof.
  intros (A1 & A2 & A3 & A4 & A5 & A6) (B1 & B2 & B3 & B4 & B5 & B6). unfold tnl_bytes. intros E.
  do 4 (apply app_inj_1 in E as [? E]; [|done]). apply app_inj_1 in E as [E _]; [|done]. injection E as E5 E6.
  destruct a, b; cbn in *. f_equal; first [done | by apply le64_inj | by apply le32_inj | by apply le16_inj].
Qed.

Lemma flow_u32_inj f g : flow_typed f -> flow_typed g -> flow_u32 target f = flow_u32 target g -> f = g.
Proof.
  intros Hf Hg E. destruct (flow_bytes_ok f Hf) as [B1 L1], (flow_bytes_ok g Hg) as [B2 L2].
  apply (words32_inj (FLOW_U32S target)) in E; try done. clear B1 B2 L1 L2.
  destruct Hf as [T1 M1 [R1 LR1] K1 P1 I1 [_ S1] [_ D1] Y1 V1 W1 [_ A1] [_ C1] [_ N1] Q1 O1 U1 F1 X1 Z1 G1 [_ H1] [_ J1] E1 PD1 TS1 TD1].
  destruct Hg as [T2 M2 [R2 LR2] K2 P2 I2 [_ S2] [_ D2] Y2 V2 W2 [_ A2] [_ C2] [_ N2] Q2 O2 U2 F2 X2 Z2 G2 [_ H2] [_ J2] E2 PD2 TS2 TD2].
  assert (forall l, length (concat (map le32_bytes l)) = (4 * length l)%nat) as LC.
  { induction l as [|x l IH]; [done|]. cbn [map concat length]. rewrite length_app, IH, length_le32. lia. }
  unfold flow_bytes in E. do 24 (apply app_inj_1 in E as [? E]; [|first [done | congruence | rewrite !LC; congruence]]). clear E.
  destruct f, g; cbn in *. 
  f_equal; first [done | congruence | by apply tnl_inj | by apply le64_inj | by apply le32_inj | by apply le16_inj | by apply regs_inj; congruence].
Qed.

(** [flow_zero_wildcards], the loop over the words of a flow. *)
Lemma zero_wildcards_u32 f m : flow_typed f -> flow_typed m ->
  flow_u32 target (zero_wildcards f m) = flow_zero_wildcards (flow_u32 target f) (flow_u32 target m).
Proof.
  intros Hf Hm. unfold flow_zero_wildcards. destruct (flow_bytes_ok f Hf) as [B1 L1], (flow_bytes_ok m Hm) as [B2 L2].
  unfold flow_u32. rewrite <- (words32_land (FLOW_U32S target)) by done. f_equal. clear L1 L2 B1 B2.
  destruct Hf as [T1 _ [_ R1] _ _ _ [_ S1] [_ D1] _ _ _ [_ I1] [_ J1] [_ N1] _ _ _ _ _ _ _ [_ A1] [_ H1] _ _ _ _].
  destruct Hm as [T2 _ [_ R2] _ _ _ [_ S2] [_ D2] _ _ _ [_ I2] [_ J2] [_ N2] _ _ _ _ _ _ _ [_ A2] [_ H2] _ _ _ _].
  unfold flow_bytes, zero_wildcards. cbn -[le16_bytes le32_bytes le64_bytes tnl_bytes zip_with sizeof_flow sizeof_flow_tnl].
  rewrite (tnl_land _ _ T1 T2), le64_land, regs_land, !le32_land, !le16_land by congruence.
  rewrite (zeros_land (sizeof_flow target - _)) at 1.
  assert (length (concat (map le32_bytes (regs f))) = length (concat (map le32_bytes (regs m)))) as LR.
  { assert (forall l, length (concat (map le32_bytes l)) = (4 * length l)%nat) as H; [|rewrite !H; congruence].
    induction l as [|x l IH]; [done|]. cbn [map concat length]. rewrite length_app, IH. cbn. lia. }
  assert (length (tnl_bytes target (tunnel f)) = length (tnl_bytes target (tunnel m))) as LT by done.
  rewrite !zip_with_app by (try done; congruence). cbn [zip_with]. rewrite !zip_with_app by (try done; congruence). done.
Qed.

End Zero.
