(* ===== verification/MetaProps.v ===== *)
(** * Match fields: properties

    A value written to a field is read back, from a flow and from a match, and a
    match on a field is met by exactly the flows whose field has the value. *)

From Stdlib Require Import ZArith Lia List Bool.
From stdpp Require Import base option list_relations list.
From S2P Require Import Prelude Bytes Hash Csum Packets PacketsFacts PacketsProps Bits Flow FlowFacts FlowCompose FlowRoundtrip Miniflow MiniflowFacts MiniflowProps MatchSet MetaFlow MatchFacts.
#[local] Open Scope Z_scope.
#[local] Open Scope res_scope.

(** ** Bits under masks *)

Lemma land_part x m m' : Z.land x (Z.lor m m') = x -> Z.land x m' = 0 -> Z.land x m = x.
Proof. intros E Z. rewrite <- E at 2. rewrite Z.land_lor_distr_r, Z, Z.lor_0_r. done. Qed.

Lemma land_max k x : 0 <= k -> 0 <= x < 2 ^ k -> Z.land x (2 ^ k - 1) = x.
Proof. intros Hk Hx. rewrite land_mask, Z.mod_small by done. done. Qed.

Lemma land_keep k x m m' : 0 <= k -> 0 <= x < 2 ^ k -> Z.lor m m' = 2 ^ k - 1 -> Z.land x m' = 0 -> Z.land x m = x.
Proof. intros Hk Hx E. apply land_part. rewrite E. by apply land_max. Qed.

(** [x & ~m] with the bits of [y] set instead. *)
Lemma clear_lor k x y m : 0 <= k -> 0 <= m < 2 ^ k -> Z.land (Z.lor (Z.land x (Z.lnot m mod 2 ^ k)) y) m = Z.land y m.
Proof.
  intros Hk Hm. apply Z.bits_inj'. intros i Hi. rewrite !Z.land_spec, Z.lor_spec, Z.land_spec. destruct (Z.ltb_spec i k).
  - rewrite Z.mod_pow2_bits_low, Z.lnot_spec by lia. destruct (Z.testbit x i), (Z.testbit m i), (Z.testbit y i); done.
  - rewrite (proj2 (proj1 (bits_range_iff k m Hk) Hm) i) by lia. by rewrite !andb_false_r.
Qed.

Lemma land_lor_iff x y a b : Z.land x (Z.lor a b) = Z.land y (Z.lor a b) <-> Z.land x a = Z.land y a /\ Z.land x b = Z.land y b.
Proof.
  rewrite !Z.land_lor_distr_r. split; [|intros [-> ->]; done]. intros E.
  split; apply Z.bits_inj'; intros i Hi; apply (f_equal (fun z => Z.testbit z i)) in E; rewrite !Z.lor_spec, !Z.land_spec in E; rewrite !Z.land_spec;
    destruct (Z.testbit x i), (Z.testbit y i), (Z.testbit a i), (Z.testbit b i); done.
Qed.

Lemma small_values x n : 0 <= x < Z.of_nat n -> In x (map Z.of_nat (seq 0 n)).
Proof. intros Hx. apply in_map_iff. exists (Z.to_nat x). rewrite in_seq. lia. Qed.

(** ** The members of a value *)

Section Value.
Variable v : mf_value.
Hypothesis Hv : bytes_n 16 v.

Lemma value_be16 : in_u16 (be16 v) /\ le16_bytes (be16 v) = take 2 v.
Proof.
  destruct Hv as [B L]. unfold be16. destruct v as [|a [|b l]]; try done. inversion_clear B as [|? ? Ha B']. inversion_clear B' as [|? ? Hb _]. cbn [take]; rewrite ?take_0.
  split; [by apply le_word16_range|]. rewrite le_word2. unfold le16_bytes, in_u8 in *. change (2 ^ 8) with 256 in *. f_equal; [|f_equal]; zdm.
Qed.

Lemma value_be32 : in_u32 (be32 v) /\ le32_bytes (be32 v) = take 4 v.
Proof.
  destruct Hv as [B L]. unfold be32. destruct v as [|a [|b [|c [|d l]]]]; try done. cbn [take]; rewrite ?take_0. pose proof (Forall_take _ 4 _ B) as B'. cbn [take] in B'. rewrite take_0 in B'.
  split; [by apply le_word4_u32 | by apply le32_bytes_le_word].
Qed.

Lemma value_be64 : in_u64 (be64 v) /\ le64_bytes (be64 v) = take 8 v.
Proof.
  destruct Hv as [B L]. unfold be64. destruct v as [|a [|b [|c [|d [|e [|f [|g [|h l]]]]]]]]; try done. cbn [take]; rewrite ?take_0.
  pose proof (Forall_take _ 4 _ B) as B1. pose proof (Forall_take _ 4 _ (Forall_drop _ 4 _ B)) as B2. cbn [take drop] in B1, B2; rewrite ?take_0 in B1, B2.
  assert (le_word [a; b; c; d; e; f; g; h] = le_word [a; b; c; d] + 2 ^ 32 * le_word [e; f; g; h]) as E by (unfold le_word; cbn [foldr]; lia).
  pose proof (le_word4_u32 _ _ _ _ B1) as R1. pose proof (le_word4_u32 _ _ _ _ B2) as R2. rewrite E. unfold in_u32, in_u64 in *.
  split; [lia|]. unfold le64_bytes. rewrite (Z.mul_comm (2 ^ 32)), Z_mod_plus_full, Z.div_add, Z.mod_small, Z.div_small by lia.
  rewrite Z.add_0_l. rewrite !le32_bytes_le_word by done. done.
Qed.

Lemma value_val8 : in_u8 (val8 v) /\ [val8 v] = take 1 v.
Proof. destruct Hv as [B L]. unfold val8. destruct v as [|a l]; [done|]. cbn [take]. rewrite take_0. inversion_clear B. done. Qed.

Lemma value_mac : bytes_n 6 (mac v).
Proof. destruct Hv as [B L]. split; [by apply Forall_take | unfold mac; rewrite length_take; lia]. Qed.

Lemma value_ipv6 : bytes_n 16 (ipv6 v).
Proof. destruct Hv as [B L]. split; [by apply Forall_take | unfold ipv6; rewrite length_take; lia]. Qed.

End Value.

(** ** Fields inside words: VLAN, MPLS, type of service, ports *)

Lemma htons_swap_land x m : in_u16 m -> Z.land (htons x) m = htons (Z.land x (htons m)).
Proof. intros Hm. rewrite <- htons_land. f_equal. symmetry. by apply htons_invol. Qed.

Lemma swap_land x m : in_u32 m -> Z.land (uint32_byteswap x) m = uint32_byteswap (Z.land x (uint32_byteswap m)).
Proof. intros Hm. rewrite byteswap_land, (byteswap_invol m Hm). done. Qed.

Lemma pcp_of t pcp : 0 <= pcp < 8 ->
  vlan_tci_to_pcp (Z.lor (clear16 t (htons VLAN_PCP_MASK)) (htons (Z.lor (Z.shiftl pcp VLAN_PCP_SHIFT) VLAN_CFI))) = pcp.
Proof.
  intros Hp. unfold vlan_tci_to_pcp, ntohs, clear16, u16. rewrite htons_swap_land by done. rewrite clear_lor by done.
  assert (forallb (fun p => Z.shiftr (htons (Z.land (htons (Z.lor (Z.shiftl p VLAN_PCP_SHIFT) VLAN_CFI)) (htons VLAN_PCP_MASK))) VLAN_PCP_SHIFT =? p)
            (map Z.of_nat (seq 0 8)) = true) as A by (vm_compute; reflexivity).
  rewrite forallb_forall in A. apply Z.eqb_eq. apply A. apply small_values. done.
Qed.

Lemma lse_field lse mask w shift : in_u32 mask ->
  Z.land (ntohl (set_lse_field lse mask w shift)) mask = Z.land (u32 (Z.shiftl w shift)) mask.
Proof.
  intros Hm. unfold ntohl, set_lse_field, htonl, u32. rewrite swap_land, clear_lor by (try done; try lia; apply byteswap_u32).
  rewrite <- byteswap_land, <- Z.land_assoc, Z.land_diag, byteswap_invol by (by apply land_u32). done.
Qed.

Lemma label_of label : 0 <= label < 2 ^ 20 ->
  Z.shiftr (Z.land (u32 (Z.shiftl label MPLS_LABEL_SHIFT)) MPLS_LABEL_MASK) MPLS_LABEL_SHIFT = label.
Proof.
  intros Hl. change MPLS_LABEL_MASK with (Z.shiftl (2 ^ 20 - 1) 12); change MPLS_LABEL_SHIFT with 12. unfold u32.
  rewrite Z.mod_small by (rewrite Z.shiftl_mul_pow2; lia). rewrite <- Z.shiftl_land, land_max, Z.shiftr_shiftl_l, Z.shiftl_0_r by lia. done.
Qed.

Lemma valid_bits x m m' : Z.lor m m' = -1 -> Z.land x m' = 0 -> Z.land x m = x.
Proof. intros E. apply land_part. rewrite E. apply Z.land_m1_r. Qed.

Lemma below_pow2 x k : 0 <= k -> Z.land x (2 ^ k - 1) = x -> 0 <= x < 2 ^ k.
Proof. intros Hk <-. rewrite land_mask by done. apply Z.mod_pos_bound. lia. Qed.

Lemma dscp_of t d : in_u8 t -> 0 <= d < 2 ^ 6 ->
  let x := Z.lor (clear8 t IP_DSCP_MASK) (Z.shiftl d 2) in in_u8 x /\ Z.shiftr x 2 = d /\ Z.land (u8 (Z.shiftl d 2)) IP_DSCP_MASK = Z.shiftl d 2.
Proof.
  intros Ht Hd x. assert (0 <= Z.shiftl d 2 < 2 ^ 8) as Hs by (rewrite Z.shiftl_mul_pow2; lia). split; [|split].
  - apply lor_range; [lia | | done]. apply land_range_r; [lia | vm_compute; split; [discriminate | reflexivity]].
  - unfold x. rewrite Z.shiftr_lor, Z.shiftr_shiftl_l, Z.shiftl_0_r by lia. unfold clear8. rewrite Z.shiftr_land.
    change (Z.shiftr (u8 (Z.lnot IP_DSCP_MASK)) 2) with 0. rewrite Z.land_0_r. done.
  - unfold u8. rewrite Z.mod_small by done. change IP_DSCP_MASK with (Z.shiftl (2 ^ 6 - 1) 2). rewrite <- Z.shiftl_land, land_max by lia. done.
Qed.

Lemma ofp_port_set p f : in_u16 p -> ofp_port (set_ofp_port p f) = p.
Proof.
  intros Hp. unfold ofp_port, set_ofp_port, in_u16 in *. cbn [in_port set_in_port]. rewrite Z.add_comm, Z_mod_plus_full, Z.mod_small by done. done.
Qed.

(** Port numbers of OpenFlow 1.1 and later. *)
Lemma ofp11_port v p : in_u32 v -> in_u16 p -> fst (ofputil_port_from_ofp11 v) = true ->
  ofputil_port_to_ofp11 p = v <-> p = snd (ofputil_port_from_ofp11 v).
Proof.
  intros Hv Hp. pose proof (byteswap_invol v Hv) as E. pose proof (byteswap_u32 v) as Hh. unfold ofputil_port_to_ofp11, ofputil_port_from_ofp11, ntohl, htonl in *.
  set (h := uint32_byteswap v) in *. assert (forall z, in_u32 z -> uint32_byteswap z = v <-> z = h) as W.
  { intros z Hz. split; [intros <-; unfold h; rewrite byteswap_invol by done; done | intros ->; done]. }
  assert (in_u32 (if p <? OFPP_MAX then p else u32 (p + OFPP11_OFFSET))) as R.
  { destruct (p <? OFPP_MAX); [|apply u32_range]. unfold in_u16, in_u32 in *. lia. }
  rewrite (W _ R). unfold OFPP_MAX, OFPP11_MAX, OFPP11_OFFSET, u16, u32, in_u16, in_u32 in *.
  destruct (Z.ltb_spec h 0xff00) as [H1|H1]; [|destruct (Z.leb_spec 0xffffff00 h) as [H2|H2]]; cbn [fst snd]; [intros _..|done];
    destruct (Z.ltb_spec p 0xff00); zdm.
Qed.

Lemma dl_vlan_set vid f : Z.land vid (htons VLAN_VID_MASK) = vid -> (vid =? htons OFP10_VLAN_NONE) = false ->
  Z.land (vlan_tci (flow_set_dl_vlan vid f)) (htons VLAN_VID_MASK) = vid.
Proof.
  intros E N. unfold flow_set_dl_vlan. rewrite N. cbn [vlan_tci set_vlan_tci]. unfold clear16, u16.
  rewrite clear_lor by done. rewrite Z.land_lor_distr_l, E, E. done.
Qed.

Lemma vlan_vid_set vid f : Z.land vid (htons (Z.lor VLAN_VID_MASK VLAN_CFI)) = vid ->
  Z.land (vlan_tci (flow_set_vlan_vid vid f)) (htons (Z.lor VLAN_VID_MASK VLAN_CFI)) = vid.
Proof.
  intros E. unfold flow_set_vlan_vid. cbn [vlan_tci set_vlan_tci]. unfold clear16, u16. rewrite clear_lor by done. rewrite E, E. done.
Qed.

Lemma vlan_pcp_set pcp f : 0 <= pcp < 8 -> Z.land pcp 7 = pcp -> vlan_tci_to_pcp (vlan_tci (flow_set_vlan_pcp pcp f)) = pcp.
Proof. intros Hp E. unfold flow_set_vlan_pcp. rewrite E. cbn [vlan_tci set_vlan_tci]. by apply pcp_of. Qed.

Lemma label_set lse label : in_u32 label -> 0 <= ntohl label < 2 ^ 20 -> htonl (mpls_lse_to_label (set_mpls_lse_label lse label)) = label.
Proof. intros R H. unfold mpls_lse_to_label, set_mpls_lse_label. rewrite lse_field, label_of by done. by apply byteswap_invol. Qed.

Lemma tc_set lse tc : 0 <= tc < 8 -> mpls_lse_to_tc (set_mpls_lse_tc lse tc) = tc.
Proof.
  intros H. unfold mpls_lse_to_tc, set_mpls_lse_tc. rewrite lse_field by done.
  assert (forallb (fun c => Z.shiftr (Z.land (u32 (Z.shiftl c MPLS_TC_SHIFT)) MPLS_TC_MASK) MPLS_TC_SHIFT =? c) (map Z.of_nat (seq 0 8)) = true) as A
    by (vm_compute; reflexivity).
  rewrite forallb_forall in A. apply Z.eqb_eq, A, small_values. done.
Qed.

Lemma bos_of lse bos : 0 <= bos < 2 -> Z.land (set_mpls_lse_bos lse bos) (htonl MPLS_BOS_MASK) = bos * htonl MPLS_BOS_MASK.
Proof.
  intros H. unfold set_mpls_lse_bos, set_lse_field, u32 at 1. rewrite clear_lor by done. assert (bos = 0 \/ bos = 1) as [-> | ->] by lia; done.
Qed.

Lemma bos_set lse bos : 0 <= bos < 2 -> Z.b2z (mpls_lse_to_bos (set_mpls_lse_bos lse bos)) = bos.
Proof. intros H. unfold mpls_lse_to_bos. rewrite bos_of by done. assert (bos = 0 \/ bos = 1) as [-> | ->] by lia; done. Qed.

Lemma icmp_byte x : in_u8 x -> u8 (ntohs (htons x)) = x.
Proof.
  intros H. assert (in_u16 x) as H16 by (unfold in_u8, in_u16 in *; lia). apply htons_invol in H16. unfold ntohs in *. rewrite H16. apply Z.mod_small. done.
Qed.

(** ** Reading back what was written *)

Section Meta.
Variable target : abi.
Abbreviation MF id := (mf_from_id target id).

Lemma mf_from_id_id id : mf_id (MF id) = id.
Proof. destruct id; done. Qed.

Abbreviation size id := (Z.to_nat (n_bytes (MF id))).

Lemma invol16 x : in_u16 x -> htons (ntohs x) = x.
Proof. apply htons_invol. Qed.
Lemma invol32 x : in_u32 x -> htonl (ntohl x) = x.
Proof. apply byteswap_invol. Qed.

(** What validity of a value says of the parts of words that fields are in. *)
Lemma valid_word id v : bytes_n 16 v -> mf_is_value_valid (MF id) v = true ->
  match id with
  | MFF_DL_VLAN => Z.land (be16 v) (htons VLAN_VID_MASK) = be16 v /\ (be16 v =? htons OFP10_VLAN_NONE) = false
  | MFF_VLAN_VID => Z.land (be16 v) (htons (Z.lor VLAN_VID_MASK VLAN_CFI)) = be16 v
  | MFF_DL_VLAN_PCP | MFF_VLAN_PCP => 0 <= val8 v < 8 /\ Z.land (val8 v) 7 = val8 v
  | MFF_MPLS_LABEL => 0 <= ntohl (be32 v) < 2 ^ 20
  | MFF_MPLS_TC => 0 <= val8 v < 8
  | MFF_MPLS_BOS => 0 <= val8 v < 2
  | MFF_IP_DSCP => Z.land (val8 v) IP_DSCP_MASK = val8 v
  | MFF_IP_DSCP_SHIFTED => 0 <= val8 v < 2 ^ 6
  | MFF_IP_ECN => Z.land (val8 v) IP_ECN_MASK = val8 v
  | MFF_IP_FRAG => Z.land (val8 v) FLOW_NW_FRAG_MASK = val8 v
  | MFF_ARP_OP => in_u8 (ntohs (be16 v))
  | MFF_IN_PORT_OXM => fst (ofputil_port_from_ofp11 (be32 v)) = true
  | _ => True
  end.
Proof.
  intros Hv. destruct (value_be16 v Hv) as [R16 _], (value_be32 v Hv) as [R32 _], (value_val8 v Hv) as [R8 _].
  destruct id; cbn [mf_is_value_valid mf_from_id mf_id]; try done; try (intros E%Z.eqb_eq).
  - split; [|apply Z.eqb_neq; intros X; rewrite X in E; done]. eapply (land_keep 16); [lia | exact R16 | | exact E]; reflexivity.
  - eapply (land_keep 16); [lia | exact R16 | | exact E]; reflexivity.
  - assert (Z.land (val8 v) 7 = val8 v) as V by (eapply valid_bits; [|exact E]; reflexivity). split; [apply (below_pow2 _ 3); done | done].
  - assert (Z.land (val8 v) 7 = val8 v) as V by (eapply valid_bits; [|exact E]; reflexivity). split; [apply (below_pow2 _ 3); done | done].
  - apply (below_pow2 _ 20); [lia|]. change (2 ^ 20 - 1) with (Z.shiftr MPLS_LABEL_MASK MPLS_LABEL_SHIFT). unfold ntohl. rewrite swap_land by done. f_equal.
    eapply (land_keep 32); [lia | exact R32 | | exact E]; reflexivity.
  - apply (below_pow2 _ 3); [lia|]. eapply valid_bits; [|exact E]; reflexivity.
  - apply (below_pow2 _ 1); [lia|]. eapply valid_bits; [|exact E]; reflexivity.
  - eapply valid_bits; [|exact E]; reflexivity.
  - apply (below_pow2 _ 6); [lia|]. eapply valid_bits; [|exact E]; reflexivity.
  - eapply valid_bits; [|exact E]; reflexivity.
  - eapply valid_bits; [|exact E]; reflexivity.
  - apply (below_pow2 _ 8); [lia|]. change (2 ^ 8 - 1) with 0xff. unfold ntohs. rewrite htons_swap_land by done. f_equal.
    eapply (land_keep 16); [lia | exact R16 | | exact E]; reflexivity.
Qed.

(** The constants and functions that are not to be unfolded when a field is chosen. *)
Ltac choose_field :=
  cbn -[le16_bytes le32_bytes le64_bytes htons ntohs htonl ntohl take be16 be32 be64 val8 VLAN_VID_MASK VLAN_CFI flow_set_dl_vlan flow_set_vlan_vid
    flow_set_vlan_pcp vlan_tci_to_pcp mpls_lse_to_label mpls_lse_to_tc mpls_lse_to_bos set_ofp_port ofp_port ofputil_port_to_ofp11 ofputil_port_from_ofp11 insert nth
    set_mpls_lse_label set_mpls_lse_tc set_mpls_lse_bos Z.land Z.lor Z.shiftl Z.shiftr clear8 u8 Z.to_nat mac_ones in6addr_exact] in *.

Lemma set_flow_value_get id v f : bytes_n 16 v -> flow_typed f -> mf_is_value_valid (MF id) v = true -> id <> MFF_IPV6_LABEL ->
  mf_get_bytes id (mf_set_flow_value (MF id) v f) = take (size id) v.
Proof.
  intros Hv Hf Hval Hid. pose proof (valid_word id v Hv Hval) as W.
  destruct (value_be16 v Hv) as [R16 E16], (value_be32 v Hv) as [R32 E32], (value_be64 v Hv) as [R64 E64], (value_val8 v Hv) as [R8 E8].
  pose proof (invol16 _ R16) as I16. pose proof (invol32 _ R32) as I32. destruct (ft_regs f Hf) as [_ Lr].
  assert (forall i, (i < 8)%nat -> nth i (<[i := ntohl (be32 v)]> (regs f)) 0 = ntohl (be32 v)) as HR.
  { intros i Hi. rewrite nth_lookup, list_lookup_insert_eq by (rewrite Lr; done). done. }
  destruct id; choose_field; try (exfalso; apply Hid; reflexivity); try (rewrite HR by lia); rewrite ?I16, ?I32; try done.
  - rewrite ofp_port_set, I16 by apply htons_u16. done.
  - change (Z.to_nat 4) with 4%nat. rewrite <- E32. f_equal. assert (in_u16 (snd (ofputil_port_from_ofp11 (be32 v)))) as P.
    { unfold ofputil_port_from_ofp11. repeat (destruct (_ <? _) || destruct (_ <=? _)); try apply u16_range; done. }
    rewrite ofp_port_set by done. by apply ofp11_port.
  - rewrite dl_vlan_set by apply W. done.
  - rewrite vlan_vid_set by apply W. done.
  - rewrite vlan_pcp_set by apply W. done.
  - rewrite vlan_pcp_set by apply W. done.
  - rewrite label_set by done. done.
  - rewrite tc_set by done. done.
  - rewrite bos_set by done. done.
  - unfold clear8, u8. rewrite clear_lor by done. rewrite W, W. done.
  - destruct (dscp_of (nw_tos f) (val8 v) (ft_nw_tos f Hf) W) as (X & Y & _). unfold u8. rewrite Z.mod_small, Y by done. done.
  - unfold clear8, u8. rewrite clear_lor by done. rewrite W, W. done.
  - rewrite W. done.
  - unfold u8. rewrite Z.mod_small, I16 by done. done.
  - rewrite icmp_byte by done. done.
  - rewrite icmp_byte by done. done.
  - rewrite icmp_byte by done. done.
  - rewrite icmp_byte by done. done.
Qed.

(** Setting a field of a match sets it in the flow of the match; only the label
    differs, which [mf_set_flow_value] clears. *)
Lemma set_value_flow id v m : bytes_n 16 v -> flow_typed (m_flow m) -> mf_is_value_valid (MF id) v = true ->
  exists m', mf_set_value (MF id) v m = Ok m' /\
    m_flow m' = match id with MFF_IPV6_LABEL => set_ipv6_label (be32 v) (m_flow m) | _ => mf_set_flow_value (MF id) v (m_flow m) end.
Proof.
  intros Hv Hf Hval. pose proof (valid_word id v Hv Hval) as W.
  destruct (value_be16 v Hv) as [R16 _], (value_be32 v Hv) as [R32 _], (value_be64 v Hv) as [R64 _], (value_val8 v Hv) as [R8 _].
  assert (forall x, in_u16 x -> Z.land x OVS_BE16_MAX = x) as M16 by (intros x; by apply (land_max 16)).
  assert (forall x, in_u32 x -> Z.land x OVS_BE32_MAX = x) as M32 by (intros x; by apply (land_max 32)).
  assert (forall x, in_u64 x -> Z.land x OVS_BE64_MAX = x) as M64 by (intros x; by apply (land_max 64)).
  assert (forall x, in_u8 x -> Z.land x UINT8_MAX = x) as M8 by (intros x; by apply (land_max 8)).
  pose proof (htons_u16 (be16 v)) as S16. pose proof (byteswap_u32 (be32 v)) as S32. assert (in_u16 (htons (val8 v))) as S8 by apply htons_u16.
  destruct id; choose_field; eexists; (split; [reflexivity|]); choose_field; change UINT32_MAX with OVS_BE32_MAX; change UINT16_MAX with OVS_BE16_MAX;
    rewrite ?M16, ?M32, ?M64, ?M8 by assumption; try done.
  - unfold match_set_dl_vlan. destruct W as [_ ->]. done.
  - unfold flow_set_vlan_vid. rewrite Z.land_diag, !W. done.
  - destruct (dscp_of (nw_tos (m_flow m)) (val8 v) (ft_nw_tos _ Hf) W) as (X & _ & Z). rewrite Z. unfold u8. rewrite Z.mod_small by done. done.
  - rewrite W. done.
Qed.

(** *** Types *)

Lemma clear_typed k x m y : 0 <= k -> 0 <= y < 2 ^ k -> 0 <= Z.lor (Z.land x (Z.lnot m mod 2 ^ k)) y < 2 ^ k.
Proof. intros Hk Hy. apply lor_range; [done | | done]. apply land_range_r; [done|]. apply Z.mod_pos_bound. lia. Qed.

Lemma dl_vlan_typed vid f : flow_typed f -> flow_typed (flow_set_dl_vlan vid f).
Proof.
  intros Hf. unfold flow_set_dl_vlan. destruct (_ =? _); apply typed_vlan_tci; [done | apply htons_u16 | by apply typed_vlan_tci; [|apply land_u16, u16_range] |].
  apply (clear_typed 16); [lia|]. apply lor_range; [lia | apply htons_u16 | apply land_u16, htons_u16].
Qed.

Lemma vlan_vid_typed vid f : flow_typed f -> flow_typed (flow_set_vlan_vid vid f).
Proof.
  intros Hf. unfold flow_set_vlan_vid. apply typed_vlan_tci; [by apply typed_vlan_tci; [|apply land_u16, u16_range]|].
  apply (clear_typed 16); [lia|]. apply land_u16, htons_u16.
Qed.

Lemma vlan_pcp_typed pcp f : flow_typed f -> flow_typed (flow_set_vlan_pcp pcp f).
Proof.
  intros Hf. unfold flow_set_vlan_pcp. apply typed_vlan_tci; [by apply typed_vlan_tci; [|apply land_u16, u16_range]|].
  apply (clear_typed 16); [lia|]. apply htons_u16.
Qed.

Lemma lse_typed lse mask w shift : in_u32 (set_lse_field lse mask w shift).
Proof. apply (clear_typed 32); [lia|]. apply byteswap_u32. Qed.

Lemma tos_typed x t m : in_u8 x -> in_u8 (Z.lor (clear8 t m) x).
Proof. apply (clear_typed 8). lia. Qed.

Lemma ofp_port_typed p f : flow_typed f -> in_u16 p -> flow_typed (set_ofp_port p f).
Proof.
  intros [] Hp. split; cbn -[Z.pow Z.div Z.mul Z.add]; auto. unfold in_u16, in_u32 in *. zdm.
Qed.

Lemma ofp11_typed v : in_u16 (snd (ofputil_port_from_ofp11 v)).
Proof. unfold ofputil_port_from_ofp11. repeat (destruct (_ <? _) || destruct (_ <=? _)); try apply u16_range; done. Qed.

Lemma regs_typed i x f : flow_typed f -> in_u32 x -> flow_typed (set_regs (<[i := x]> (regs f)) f).
Proof.
  intros Hf Hx. destruct Hf. split; cbn [set_regs tunnel metadata regs skb_priority pkt_mark in_port dl_src dl_dst dl_type vlan_tci mpls_lse ipv6_src ipv6_dst
    nd_target ipv6_label nw_src nw_dst nw_frag nw_tos nw_ttl nw_proto arp_sha arp_tha tcp_flags pad tp_src tp_dst]; auto.
  destruct ft_regs as [R L]. split; [by apply Forall_insert | by rewrite length_insert].
Qed.

Lemma typed_tunnel t f : flow_typed f -> tnl_ok t -> flow_typed (set_tunnel t f).
Proof. typed_set. Qed.
Lemma typed_metadata x f : flow_typed f -> in_u64 x -> flow_typed (set_metadata x f).
Proof. typed_set. Qed.
Lemma typed_skb_priority x f : flow_typed f -> in_u32 x -> flow_typed (set_skb_priority x f).
Proof. typed_set. Qed.
Lemma typed_pkt_mark x f : flow_typed f -> in_u32 x -> flow_typed (set_pkt_mark x f).
Proof. typed_set. Qed.

Ltac tunnel_typed Hf := apply typed_tunnel; [exact Hf|]; destruct (ft_tunnel _ Hf) as (? & ? & ? & ? & ? & ?);
  refine (conj _ (conj _ (conj _ (conj _ (conj _ _))))); assumption.

Lemma set_flow_value_typed id v f : bytes_n 16 v -> flow_typed f -> flow_typed (mf_set_flow_value (MF id) v f).
Proof.
  intros Hv Hf.
  destruct (value_be16 v Hv) as [R16 _], (value_be32 v Hv) as [R32 _], (value_be64 v Hv) as [R64 _], (value_val8 v Hv) as [R8 _].
  pose proof (value_mac v Hv) as R6. pose proof (value_ipv6 v Hv) as R128.
  assert (in_u16 (ntohs (be16 v))) as S16 by apply htons_u16. assert (in_u32 (ntohl (be32 v))) as S32 by apply byteswap_u32.
  assert (in_u16 (htons (val8 v))) as S8 by apply htons_u16.
  destruct id; choose_field; auto using dl_vlan_typed, vlan_vid_typed, vlan_pcp_typed, ofp_port_typed, ofp11_typed, regs_typed with sdpa.
  all: try (apply typed_metadata || apply typed_skb_priority || apply typed_pkt_mark || apply typed_mpls_lse; [done|]; try apply lse_typed; done).
  all: try (tunnel_typed Hf).
  - apply typed_ipv6_label; [done|]. apply land_u32, u32_range.
  - apply typed_nw_tos; [done|]. apply tos_typed. by apply (land_range_r _ _ 8).
  - apply typed_nw_tos; [done|]. apply tos_typed. by apply (land_range_r _ _ 8).
  - apply typed_nw_frag; [done|]. by apply (land_range_r _ _ 8).
Qed.

Lemma set_value_wc_typed id v m m' : flow_typed (m_wc m) -> mf_set_value (MF id) v m = Ok m' -> flow_typed (m_wc m').
Proof.
  intros Hw E.
  assert (forall x, in_u16 x -> in_u16 (Z.lor (vlan_tci (m_wc m)) x)) as L16 by (intros x Hx; apply (lor_range 16); [lia | apply Hw | done]).
  assert (forall x, in_u32 x -> in_u32 (Z.lor (mpls_lse (m_wc m)) x)) as L32 by (intros x Hx; apply (lor_range 32); [lia | apply Hw | done]).
  assert (forall x, in_u8 x -> in_u8 (Z.lor (nw_tos (m_wc m)) x)) as L8 by (intros x Hx; apply (lor_range 8); [lia | apply Hw | done]).
  assert (bytes_n 6 mac_ones) as B6 by (split; [apply (bool_decide_unpack _); vm_compute; exact I | done]).
  assert (bytes_n 16 in6addr_exact) as B16 by (split; [apply (bool_decide_unpack _); vm_compute; exact I | done]).
  assert (in_u8 UINT8_MAX /\ in_u16 OVS_BE16_MAX /\ in_u16 UINT16_MAX /\ in_u32 OVS_BE32_MAX /\ in_u32 UINT32_MAX /\ in_u64 OVS_BE64_MAX) as (? & ? & ? & ? & ? & ?) by done.
  destruct id; choose_field; injection E as <-; choose_field; auto using ofp_port_typed, regs_typed, typed_metadata, typed_skb_priority, typed_pkt_mark with sdpa;
    try (tunnel_typed Hw).
  - unfold match_set_dl_vlan. destruct (_ =? _); apply typed_vlan_tci; [done | done | done |]. apply L16, htons_u16.
  - apply typed_nw_frag; [done|]. apply (lor_range 8); [lia | apply Hw | done].
Qed.

Hypothesis Htarget : target = i686 \/ target = x86_64.

(** *** Matching on one field *)

Lemma zip_land_bytes a b n : bytes_n n a -> bytes_n n b -> bytes_n n (zip_with Z.land a b).
Proof.
  intros [Ba La] [Bb Lb]. split; [|rewrite length_zip_with; lia]. clear La Lb. revert b Bb. induction Ba as [|x a Hx Ha IH]; intros b Bb; [constructor|].
  destruct Bb as [|y b Hy Hb]; [constructor|]. cbn [zip_with]. constructor; [by apply (land_range_r _ _ 8) | by apply IH].
Qed.

Lemma zero_wildcards_typed f w : flow_typed f -> flow_typed w -> flow_typed (zero_wildcards f w).
Proof.
  intros Hf Hw. destruct (ft_tunnel _ Hw) as (T1 & T2 & T3 & T4 & T5 & T6).
  split; cbn -[Z.pow]; try (apply (land_range_r _ _ 64); [lia | apply Hw]); try (apply (land_range_r _ _ 32); [lia | apply Hw]);
    try (apply (land_range_r _ _ 16); [lia | apply Hw]); try (apply (land_range_r _ _ 8); [lia | apply Hw]); try (apply zip_land_bytes; [apply Hf | apply Hw]).
  - refine (conj _ (conj _ (conj _ (conj _ (conj _ _))))); cbn -[Z.pow].
    all: first [by apply (land_range_r _ _ 64) | by apply (land_range_r _ _ 32) | by apply (land_range_r _ _ 16) | by apply (land_range_r _ _ 8)].
  - destruct (ft_regs _ Hf) as [_ L1], (ft_regs _ Hw) as [R2 L2]. split; [by apply zip_land_u32 | rewrite length_zip_with; lia].
  - rewrite (ft_pad _ Hf). done.
Qed.

Lemma except_iff f a w : flow_typed f -> flow_typed a -> flow_typed w ->
  flow_equal_except (flow_u32 target f) (flow_u32 target a) (flow_u32 target w) = true <-> zero_wildcards f w = zero_wildcards a w.
Proof.
  intros Hf Ha Hw. destruct (flow_u32_ok target Htarget f Hf) as [Lf _], (flow_u32_ok target Htarget a Ha) as [La _], (flow_u32_ok target Htarget w Hw) as [Lw _].
  rewrite equal_except_spec by congruence.
  assert (zero_wildcards f w = zero_wildcards a w <-> flow_zero_wildcards (flow_u32 target f) (flow_u32 target w) = flow_zero_wildcards (flow_u32 target a) (flow_u32 target w)) as ->.
  { rewrite <- !zero_wildcards_u32 by done. split; [by intros -> | intros E]. apply (flow_u32_inj target Htarget); try by apply zero_wildcards_typed. done. }
  unfold flow_zero_wildcards. split.
  - intros H. apply (nth_ext _ _ 0 0); [rewrite !length_zip_with; lia|]. intros i _. rewrite !nth_zip_land by congruence. by apply land_lxor_zero.
  - intros E i. apply (f_equal (fun l => nth i l 0)) in E. rewrite !nth_zip_land in E by congruence.
    apply Z.bits_inj'. intros k Hk. apply (f_equal (fun z => Z.testbit z k)) in E. rewrite !Z.land_spec in E. rewrite Z.land_spec, Z.lxor_spec, Z.bits_0.
    destruct (Z.testbit _ k), (Z.testbit (nth i (flow_u32 target a) 0) k), (Z.testbit (nth i (flow_u32 target w) 0) k); done.
Qed.

(** A match that tests only the field [get], under a mask. *)
Lemma matches_field {A} (get : flow -> A) (set : A -> flow -> flow) (lnd : A -> A -> A) x mk g :
  (forall f, flow_typed f -> zero_wildcards f (set mk flow_zero) = set (lnd (get f) mk) flow_zero) -> (forall y, get (set y flow_zero) = y) ->
  flow_typed g -> flow_typed (set x flow_zero) -> flow_typed (set mk flow_zero) ->
  flow_equal_except (flow_u32 target g) (flow_u32 target (set x flow_zero)) (flow_u32 target (set mk flow_zero)) = true <-> lnd (get g) mk = lnd x mk.
Proof.
  intros HZ HG Hg Hx Hm. rewrite except_iff, !HZ, HG by done. split; [|by intros ->]. intros E. apply (f_equal get) in E. by rewrite !HG in E.
Qed.

Lemma zip_zeros l n : length l = n -> zip_with Z.land l (replicate n 0) = replicate n 0.
Proof. revert n. induction l as [|x l IH]; intros [|n] L; try done. cbn. rewrite Z.land_0_r, IH by (cbn in L; lia). done. Qed.

(** [zero_wildcards] under a mask that is zero but for one field. *)
Ltac one_field :=
  intros [_ _ [_ ?] _ _ _ [_ ?] [_ ?] _ _ _ [_ ?] [_ ?] [_ ?] _ _ _ _ _ _ _ [_ ?] [_ ?] _ _ _ _];
  unfold zero_wildcards, flow_zero, in6addr_any;
  cbn [set_tunnel set_metadata set_regs set_skb_priority set_pkt_mark set_in_port set_dl_src set_dl_dst set_dl_type set_vlan_tci set_flow_mpls_lse set_ipv6_src set_ipv6_dst
    set_nd_target set_ipv6_label set_nw_src set_nw_dst set_nw_frag set_nw_tos set_nw_ttl set_nw_proto set_arp_sha set_arp_tha set_tcp_flags set_tp_src set_tp_dst
    tunnel metadata regs skb_priority pkt_mark in_port dl_src dl_dst dl_type vlan_tci mpls_lse ipv6_src ipv6_dst tun_id ip_src ip_dst flags ip_tos ip_ttl
    nd_target ipv6_label nw_src nw_dst nw_frag nw_tos nw_ttl nw_proto arp_sha arp_tha tcp_flags pad tp_src tp_dst];
  rewrite ?Z.land_0_r, ?zip_zeros by assumption; reflexivity.

Lemma one_tun_id f mk : flow_typed f -> zero_wildcards f (set_tunnel (tnl_tun_id mk (tunnel flow_zero)) flow_zero) =
  set_tunnel (tnl_tun_id (Z.land (tun_id (tunnel f)) mk) (tunnel flow_zero)) flow_zero.
Proof. one_field. Qed.
Lemma one_ip_src f mk : flow_typed f -> zero_wildcards f (set_tunnel (tnl_ip_src mk (tunnel flow_zero)) flow_zero) =
  set_tunnel (tnl_ip_src (Z.land (ip_src (tunnel f)) mk) (tunnel flow_zero)) flow_zero.
Proof. one_field. Qed.
Lemma one_ip_dst f mk : flow_typed f -> zero_wildcards f (set_tunnel (tnl_ip_dst mk (tunnel flow_zero)) flow_zero) =
  set_tunnel (tnl_ip_dst (Z.land (ip_dst (tunnel f)) mk) (tunnel flow_zero)) flow_zero.
Proof. one_field. Qed.
Lemma one_flags f mk : flow_typed f -> zero_wildcards f (set_tunnel (tnl_flags mk (tunnel flow_zero)) flow_zero) =
  set_tunnel (tnl_flags (Z.land (flags (tunnel f)) mk) (tunnel flow_zero)) flow_zero.
Proof. one_field. Qed.
Lemma one_ip_tos f mk : flow_typed f -> zero_wildcards f (set_tunnel (tnl_ip_tos mk (tunnel flow_zero)) flow_zero) =
  set_tunnel (tnl_ip_tos (Z.land (ip_tos (tunnel f)) mk) (tunnel flow_zero)) flow_zero.
Proof. one_field. Qed.
Lemma one_ip_ttl f mk : flow_typed f -> zero_wildcards f (set_tunnel (tnl_ip_ttl mk (tunnel flow_zero)) flow_zero) =
  set_tunnel (tnl_ip_ttl (Z.land (ip_ttl (tunnel f)) mk) (tunnel flow_zero)) flow_zero.
Proof. one_field. Qed.
Lemma one_metadata f mk : flow_typed f -> zero_wildcards f (set_metadata mk flow_zero) = set_metadata (Z.land (metadata f) mk) flow_zero.
Proof. one_field. Qed.
Lemma one_regs f mk : flow_typed f -> zero_wildcards f (set_regs mk flow_zero) = set_regs (zip_with Z.land (regs f) mk) flow_zero.
Proof. one_field. Qed.
Lemma one_skb_priority f mk : flow_typed f -> zero_wildcards f (set_skb_priority mk flow_zero) = set_skb_priority (Z.land (skb_priority f) mk) flow_zero.
Proof. one_field. Qed.
Lemma one_pkt_mark f mk : flow_typed f -> zero_wildcards f (set_pkt_mark mk flow_zero) = set_pkt_mark (Z.land (pkt_mark f) mk) flow_zero.
Proof. one_field. Qed.
Lemma one_in_port f mk : flow_typed f -> zero_wildcards f (set_in_port mk flow_zero) = set_in_port (Z.land (in_port f) mk) flow_zero.
Proof. one_field. Qed.
Lemma one_dl_src f mk : flow_typed f -> zero_wildcards f (set_dl_src mk flow_zero) = set_dl_src (zip_with Z.land (dl_src f) mk) flow_zero.
Proof. one_field. Qed.
Lemma one_dl_dst f mk : flow_typed f -> zero_wildcards f (set_dl_dst mk flow_zero) = set_dl_dst (zip_with Z.land (dl_dst f) mk) flow_zero.
Proof. one_field. Qed.
Lemma one_dl_type f mk : flow_typed f -> zero_wildcards f (set_dl_type mk flow_zero) = set_dl_type (Z.land (dl_type f) mk) flow_zero.
Proof. one_field. Qed.
Lemma one_vlan_tci f mk : flow_typed f -> zero_wildcards f (set_vlan_tci mk flow_zero) = set_vlan_tci (Z.land (vlan_tci f) mk) flow_zero.
Proof. one_field. Qed.
Lemma one_mpls_lse f mk : flow_typed f -> zero_wildcards f (set_flow_mpls_lse mk flow_zero) = set_flow_mpls_lse (Z.land (mpls_lse f) mk) flow_zero.
Proof. one_field. Qed.
Lemma one_ipv6_src f mk : flow_typed f -> zero_wildcards f (set_ipv6_src mk flow_zero) = set_ipv6_src (zip_with Z.land (ipv6_src f) mk) flow_zero.
Proof. one_field. Qed.
Lemma one_ipv6_dst f mk : flow_typed f -> zero_wildcards f (set_ipv6_dst mk flow_zero) = set_ipv6_dst (zip_with Z.land (ipv6_dst f) mk) flow_zero.
Proof. one_field. Qed.
Lemma one_nd_target f mk : flow_typed f -> zero_wildcards f (set_nd_target mk flow_zero) = set_nd_target (zip_with Z.land (nd_target f) mk) flow_zero.
Proof. one_field. Qed.
Lemma one_ipv6_label f mk : flow_typed f -> zero_wildcards f (set_ipv6_label mk flow_zero) = set_ipv6_label (Z.land (ipv6_label f) mk) flow_zero.
Proof. one_field. Qed.
Lemma one_nw_src f mk : flow_typed f -> zero_wildcards f (set_nw_src mk flow_zero) = set_nw_src (Z.land (nw_src f) mk) flow_zero.
Proof. one_field. Qed.
Lemma one_nw_dst f mk : flow_typed f -> zero_wildcards f (set_nw_dst mk flow_zero) = set_nw_dst (Z.land (nw_dst f) mk) flow_zero.
Proof. one_field. Qed.
Lemma one_nw_frag f mk : flow_typed f -> zero_wildcards f (set_nw_frag mk flow_zero) = set_nw_frag (Z.land (nw_frag f) mk) flow_zero.
Proof. one_field. Qed.
Lemma one_nw_tos f mk : flow_typed f -> zero_wildcards f (set_nw_tos mk flow_zero) = set_nw_tos (Z.land (nw_tos f) mk) flow_zero.
Proof. one_field. Qed.
Lemma one_nw_ttl f mk : flow_typed f -> zero_wildcards f (set_nw_ttl mk flow_zero) = set_nw_ttl (Z.land (nw_ttl f) mk) flow_zero.
Proof. one_field. Qed.
Lemma one_nw_proto f mk : flow_typed f -> zero_wildcards f (set_nw_proto mk flow_zero) = set_nw_proto (Z.land (nw_proto f) mk) flow_zero.
Proof. one_field. Qed.
Lemma one_arp_sha f mk : flow_typed f -> zero_wildcards f (set_arp_sha mk flow_zero) = set_arp_sha (zip_with Z.land (arp_sha f) mk) flow_zero.
Proof. one_field. Qed.
Lemma one_arp_tha f mk : flow_typed f -> zero_wildcards f (set_arp_tha mk flow_zero) = set_arp_tha (zip_with Z.land (arp_tha f) mk) flow_zero.
Proof. one_field. Qed.
Lemma one_tcp_flags f mk : flow_typed f -> zero_wildcards f (set_tcp_flags mk flow_zero) = set_tcp_flags (Z.land (tcp_flags f) mk) flow_zero.
Proof. one_field. Qed.
Lemma one_tp_src f mk : flow_typed f -> zero_wildcards f (set_tp_src mk flow_zero) = set_tp_src (Z.land (tp_src f) mk) flow_zero.
Proof. one_field. Qed.
Lemma one_tp_dst f mk : flow_typed f -> zero_wildcards f (set_tp_dst mk flow_zero) = set_tp_dst (Z.land (tp_dst f) mk) flow_zero.
Proof. one_field. Qed.

(** *** The words of a field under its mask, and its bytes *)

Lemma test8 a b : in_u8 a -> in_u8 b -> Z.land a UINT8_MAX = Z.land b UINT8_MAX <-> [a] = [b].
Proof. intros Ha Hb. unfold UINT8_MAX. rewrite !(land_max 8) by done. split; [by intros -> | by intros [=]]. Qed.

Lemma test16 a b : in_u16 a -> in_u16 b -> Z.land a OVS_BE16_MAX = Z.land b OVS_BE16_MAX <-> le16_bytes a = le16_bytes b.
Proof. intros Ha Hb. unfold OVS_BE16_MAX. rewrite !(land_max 16) by done. split; [by intros -> | by apply le16_inj]. Qed.

Lemma test32 a b : in_u32 a -> in_u32 b -> Z.land a OVS_BE32_MAX = Z.land b OVS_BE32_MAX <-> le32_bytes a = le32_bytes b.
Proof. intros Ha Hb. unfold OVS_BE32_MAX. rewrite !(land_max 32) by done. split; [by intros -> | by apply le32_inj]. Qed.

Lemma test64 a b : in_u64 a -> in_u64 b -> Z.land a OVS_BE64_MAX = Z.land b OVS_BE64_MAX <-> le64_bytes a = le64_bytes b.
Proof. intros Ha Hb. unfold OVS_BE64_MAX. rewrite !(land_max 64) by done. split; [by intros -> | by apply le64_inj]. Qed.

(** Members in host byte order. *)
Lemma swap16_iff a b : in_u16 a -> in_u16 b -> a = ntohs b <-> htons a = b.
Proof. intros Ha Hb. split; [intros ->; by apply htons_invol | intros <-]. symmetry. by apply htons_invol. Qed.

Lemma swap32_iff a b : in_u32 a -> in_u32 b -> a = ntohl b <-> htonl a = b.
Proof. intros Ha Hb. split; [intros ->; by apply byteswap_invol | intros <-]. symmetry. by apply byteswap_invol. Qed.

Lemma test16h a b : in_u16 a -> in_u16 b -> Z.land a OVS_BE16_MAX = Z.land (ntohs b) OVS_BE16_MAX <-> le16_bytes (htons a) = le16_bytes b.
Proof.
  intros Ha Hb. unfold OVS_BE16_MAX. rewrite !(land_max 16) by (done || lia || apply htons_u16). rewrite swap16_iff by done.
  split; [by intros -> | apply le16_inj; [apply htons_u16 | done]].
Qed.

Lemma test32h a b : in_u32 a -> in_u32 b -> Z.land a OVS_BE32_MAX = Z.land (ntohl b) OVS_BE32_MAX <-> le32_bytes (htonl a) = le32_bytes b.
Proof.
  intros Ha Hb. unfold OVS_BE32_MAX. rewrite !(land_max 32) by (done || lia || apply byteswap_u32). rewrite swap32_iff by done.
  split; [by intros -> | apply le32_inj; [apply byteswap_u32 | done]].
Qed.

Lemma zip_ones a n : bytes_n n a -> zip_with Z.land a (replicate n UINT8_MAX) = a.
Proof.
  intros [B L]. revert n L. induction B as [|x a Hx Ha IH]; intros [|n] L; try done. cbn [replicate zip_with]. rewrite IH by (cbn in L; lia).
  f_equal. by apply (land_max 8).
Qed.

Lemma test_bytes n a b : bytes_n n a -> bytes_n n b -> zip_with Z.land a (replicate n UINT8_MAX) = zip_with Z.land b (replicate n UINT8_MAX) <-> a = b.
Proof. intros Ha Hb. rewrite !zip_ones by done. done. Qed.

Lemma nth_one_reg i j x : (i < 8)%nat -> nth j (<[i := x]> (replicate FLOW_N_REGS 0)) 0 = if decide (j = i) then x else 0.
Proof.
  intros Hi. rewrite nth_lookup. destruct (decide (j = i)) as [->|D]; [rewrite list_lookup_insert_eq by (rewrite length_replicate; done); done|].
  rewrite list_lookup_insert_ne by done. destruct (replicate FLOW_N_REGS 0 !! j) eqn:E; [|done].
  apply lookup_replicate in E as [-> _]. done.
Qed.

Lemma test_reg i rs w : (i < 8)%nat -> Forall in_u32 rs -> length rs = FLOW_N_REGS -> in_u32 w ->
  zip_with Z.land rs (<[i := OVS_BE32_MAX]> (replicate FLOW_N_REGS 0)) =
  zip_with Z.land (<[i := w]> (replicate FLOW_N_REGS 0)) (<[i := OVS_BE32_MAX]> (replicate FLOW_N_REGS 0)) <-> nth i rs 0 = w.
Proof.
  intros Hi R L Hw. assert (in_u32 (nth i rs 0)) as Hn by (apply List.Forall_nth; [done | rewrite L; done]).
  assert (forall x, in_u32 x -> Z.land x OVS_BE32_MAX = x) as M by (intros x; by apply (land_max 32)).
  assert (length (replicate FLOW_N_REGS 0) = FLOW_N_REGS) as LZ by apply length_replicate. split.
  - intros E. apply (f_equal (fun l => nth i l 0)) in E. rewrite !nth_zip_land in E by (rewrite ?length_insert, ?LZ; done).
    rewrite !nth_one_reg in E by done. destruct (decide (i = i)) as [_|D]; [|done]. by rewrite !M in E by done.
  - intros E. apply (nth_ext _ _ 0 0); [rewrite !length_zip_with, !length_insert, LZ, L; done|]. intros j _.
    rewrite !nth_zip_land by (rewrite ?length_insert, ?LZ; done). rewrite !nth_one_reg by done. destruct (decide (j = i)) as [->|D]; [by rewrite E | by rewrite !Z.land_0_r].
Qed.

(** *** Parts of words *)

Lemma cfi_bit t : Z.land t (htons VLAN_CFI) <> 0 <-> Z.land t (htons VLAN_CFI) = Z.land (htons VLAN_CFI) (htons VLAN_CFI).
Proof.
  change (htons VLAN_CFI) with (2 ^ 4). rewrite Z.land_diag. split; [|intros ->; done]. intros H. apply Z.bits_inj'. intros i Hi.
  rewrite Z.land_spec. destruct (Z.eq_dec i 4) as [->|D].
  - rewrite Z.pow2_bits_true, andb_true_r by lia. destruct (Z.testbit t 4) eqn:B; [done|]. exfalso. apply H. apply Z.bits_inj'. intros j Hj.
    rewrite Z.land_spec, Z.bits_0. destruct (Z.eq_dec j 4) as [->|]; [by rewrite B | rewrite Z.pow2_bits_false, andb_false_r by lia; done].
  - rewrite Z.pow2_bits_false, andb_false_r by lia. done.
Qed.

Lemma land_absorb a y c : Z.land y c = c -> Z.land (Z.lor a y) c = c.
Proof.
  intros E. apply Z.bits_inj'. intros i Hi. apply (f_equal (fun z => Z.testbit z i)) in E. rewrite Z.land_spec in E. rewrite Z.land_spec, Z.lor_spec.
  destruct (Z.testbit a i), (Z.testbit y i), (Z.testbit c i); done.
Qed.

(** A field of [n] bits at position [k]. *)
Lemma shift_field y m n k : 0 <= n -> 0 <= k -> m = Z.shiftl (2 ^ n - 1) k -> Z.shiftl (Z.shiftr (Z.land y m) k) k = Z.land y m.
Proof.
  intros Hn Hk ->. apply Z.bits_inj'. intros i Hi. rewrite Z.shiftl_spec by done. destruct (Z.ltb_spec i k).
  - rewrite Z.testbit_neg_r, Z.land_spec, (Z.shiftl_spec_low _ _ i), andb_false_r by lia. done.
  - rewrite Z.shiftr_spec by lia. f_equal. lia.
Qed.

Lemma test_vid t vid f : Z.land vid (htons VLAN_VID_MASK) = vid -> (vid =? htons OFP10_VLAN_NONE) = false ->
  Z.land t (htons (Z.lor VLAN_VID_MASK VLAN_CFI)) = Z.land (vlan_tci (flow_set_dl_vlan vid f)) (htons (Z.lor VLAN_VID_MASK VLAN_CFI)) <->
  Z.land t (htons VLAN_VID_MASK) = vid /\ Z.land t (htons VLAN_CFI) <> 0.
Proof.
  intros E N. change (htons (Z.lor VLAN_VID_MASK VLAN_CFI)) with (Z.lor (htons VLAN_VID_MASK) (htons VLAN_CFI)).
  rewrite land_lor_iff, dl_vlan_set, cfi_bit by done. unfold flow_set_dl_vlan. rewrite N. cbn [vlan_tci set_vlan_tci].
  rewrite land_absorb; [done|]. rewrite Z.lor_comm. by apply land_absorb.
Qed.

Lemma pcp_iff t x : vlan_tci_to_pcp t = vlan_tci_to_pcp x <-> Z.land t (htons VLAN_PCP_MASK) = Z.land x (htons VLAN_PCP_MASK).
Proof.
  unfold vlan_tci_to_pcp, ntohs. split.
  - intros E. apply (f_equal (fun z => Z.shiftl z VLAN_PCP_SHIFT)) in E. rewrite !(shift_field _ VLAN_PCP_MASK 3 VLAN_PCP_SHIFT) in E by done.
    rewrite !htons_swap_land in E by done. apply (f_equal htons) in E.
    assert (forall z, in_u16 z -> htons (htons z) = z) as I by (intros z Hz; by apply htons_invol). rewrite !I in E by (apply land_u16, htons_u16). done.
  - intros E. rewrite !htons_swap_land, E by done. done.
Qed.

Lemma test_pcp t pcp f : 0 <= pcp < 8 -> Z.land pcp 7 = pcp ->
  Z.land t (htons (Z.lor VLAN_CFI VLAN_PCP_MASK)) = Z.land (vlan_tci (flow_set_vlan_pcp pcp f)) (htons (Z.lor VLAN_CFI VLAN_PCP_MASK)) <->
  vlan_tci_to_pcp t = pcp /\ Z.land t (htons VLAN_CFI) <> 0.
Proof.
  intros Hp E. change (htons (Z.lor VLAN_CFI VLAN_PCP_MASK)) with (Z.lor (htons VLAN_PCP_MASK) (htons VLAN_CFI)).
  rewrite land_lor_iff, <- pcp_iff, vlan_pcp_set, cfi_bit by done. unfold flow_set_vlan_pcp. cbn [vlan_tci set_vlan_tci].
  rewrite land_absorb; [done|]. rewrite E.
  assert (forallb (fun p => Z.land (htons (Z.lor (Z.shiftl p VLAN_PCP_SHIFT) VLAN_CFI)) (htons VLAN_CFI) =? htons VLAN_CFI) (map Z.of_nat (seq 0 8)) = true) as A
    by (vm_compute; reflexivity).
  rewrite forallb_forall in A. apply Z.eqb_eq, A, small_values. done.
Qed.

Lemma lse_iff m n k t x : in_u32 m -> 0 <= n -> 0 <= k -> m = Z.shiftl (2 ^ n - 1) k ->
  Z.shiftr (Z.land (ntohl t) m) k = Z.shiftr (Z.land (ntohl x) m) k <-> Z.land t (htonl m) = Z.land x (htonl m).
Proof.
  intros Hm Hn Hk Em. unfold ntohl. split.
  - intros E. apply (f_equal (fun z => Z.shiftl z k)) in E. rewrite !(shift_field _ m n k) in E by done.
    rewrite !swap_land in E by done. apply (f_equal uint32_byteswap) in E. rewrite !byteswap_invol in E by (apply land_u32, byteswap_u32). done.
  - intros E. rewrite !swap_land by done. unfold htonl in E. rewrite E. done.
Qed.

Lemma test_label t label lse : in_u32 label -> 0 <= ntohl label < 2 ^ 20 ->
  Z.land t (htonl MPLS_LABEL_MASK) = Z.land (set_mpls_lse_label lse label) (htonl MPLS_LABEL_MASK) <-> htonl (mpls_lse_to_label t) = label.
Proof.
  intros R H. rewrite <- (lse_iff MPLS_LABEL_MASK 20 MPLS_LABEL_SHIFT) by done. fold (mpls_lse_to_label t).
  fold (mpls_lse_to_label (set_mpls_lse_label lse label)). pose proof (label_set lse label R H) as L. split; [intros ->; done|].
  intros E. rewrite <- L in E. apply (f_equal uint32_byteswap) in E. unfold htonl in E.
  assert (forall z, in_u32 (mpls_lse_to_label z)) as RL.
  { intros z. unfold mpls_lse_to_label. pose proof (land_range_r (ntohl z) MPLS_LABEL_MASK 32 ltac:(lia) ltac:(done)) as B. unfold in_u32.
    rewrite Z.shiftr_div_pow2 by done. change (2 ^ MPLS_LABEL_SHIFT) with 4096. zdm. }
  by rewrite !byteswap_invol in E by apply RL.
Qed.

Lemma test_tc t tc lse : 0 <= tc < 8 ->
  Z.land t (htonl MPLS_TC_MASK) = Z.land (set_mpls_lse_tc lse tc) (htonl MPLS_TC_MASK) <-> mpls_lse_to_tc t = tc.
Proof.
  intros H. rewrite <- (lse_iff MPLS_TC_MASK 3 MPLS_TC_SHIFT) by done. fold (mpls_lse_to_tc t). fold (mpls_lse_to_tc (set_mpls_lse_tc lse tc)).
  rewrite tc_set by done. done.
Qed.

Lemma test_bos t bos lse : 0 <= bos < 2 ->
  Z.land t (htonl MPLS_BOS_MASK) = Z.land (set_mpls_lse_bos lse bos) (htonl MPLS_BOS_MASK) <-> Z.b2z (mpls_lse_to_bos t) = bos.
Proof.
  intros H. rewrite bos_of by done. unfold mpls_lse_to_bos. change (htonl MPLS_BOS_MASK) with (2 ^ 16).
  assert (Z.land t (2 ^ 16) = 0 \/ Z.land t (2 ^ 16) = 2 ^ 16) as [-> | ->].
  { destruct (Z.testbit t 16) eqn:B; [right|left]; apply Z.bits_inj'; intros i Hi; rewrite Z.land_spec, ?Z.bits_0; destruct (Z.eq_dec i 16) as [->|];
      rewrite ?B, ?Z.pow2_bits_true, ?Z.pow2_bits_false, ?andb_false_r by lia; done. }
  - cbn. lia.
  - assert (bos = 0 \/ bos = 1) as [-> | ->] by lia; done.
Qed.

Lemma test_dscp t d : in_u8 t -> 0 <= d < 2 ^ 6 -> Z.land t IP_DSCP_MASK = Z.shiftl d 2 <-> Z.shiftr t 2 = d.
Proof.
  intros Ht Hd. change IP_DSCP_MASK with (Z.shiftl (2 ^ 6 - 1) 2). rewrite <- (shift_field t _ 6 2 ltac:(lia) ltac:(lia) eq_refl), Z.shiftr_land.
  rewrite Z.shiftr_shiftl_l, Z.shiftl_0_r, land_max by (try lia; unfold in_u8 in Ht; rewrite Z.shiftr_div_pow2 by lia; change (2 ^ 2) with 4; zdm).
  split; [|by intros ->]. intros E. apply (f_equal (fun z => Z.shiftr z 2)) in E. by rewrite !Z.shiftr_shiftl_l, !Z.shiftl_0_r in E by lia.
Qed.

(** *** A match on one field *)

(** The fields whose setters also make a match test that there is a tag. *)
Definition needs_tag (id : mf_field_id) : bool :=
  match id with MFF_DL_VLAN | MFF_DL_VLAN_PCP | MFF_VLAN_PCP => true | _ => false end.

(** What packets have in these members: [flow_extract] makes fragment flags of
    two bits and ICMP types and codes of eight. *)
Definition carries (id : mf_field_id) (g : flow) : bool :=
  match id with
  | MFF_IP_FRAG => Z.land (nw_frag g) FLOW_NW_FRAG_MASK =? nw_frag g
  | MFF_ICMPV4_TYPE | MFF_ICMPV6_TYPE => ntohs (tp_src g) <? 2 ^ 8
  | MFF_ICMPV4_CODE | MFF_ICMPV6_CODE => ntohs (tp_dst g) <? 2 ^ 8
  | _ => true
  end.

Lemma flow_zero_typed : flow_typed flow_zero.
Proof. split; try done; try apply bytes_n_zeros. split; [repeat constructor; done | done]. Qed.

Lemma tag_free (A B C : Prop) : (A <-> B) -> A <-> B /\ (false = true -> C).
Proof. intros H. split; [intros HA; split; [by apply H | done] | intros [HB _]; by apply H]. Qed.

Lemma tag_too (A B C : Prop) : (A <-> B /\ C) -> A <-> B /\ (true = true -> C).
Proof. intros H. split; [intros HA; apply H in HA as [HB HC]; done | intros [HB HC]; apply H; auto]. Qed.

(** The match on one field as an assignment of the field in a flow and in a mask. *)
Ltac tests_field get set lnd one :=
  etransitivity; [apply (matches_field get set lnd _ _ _ (fun f => one f _)); [done | assumption | assumption | assumption]|]; cbv beta.
Ltac tests :=
  lazymatch goal with
  | |- context [tnl_tun_id _ _] => tests_field (fun f => tun_id (tunnel f)) (fun y f => set_tunnel (tnl_tun_id y (tunnel f)) f) Z.land one_tun_id
  | |- context [tnl_ip_src _ _] => tests_field (fun f => ip_src (tunnel f)) (fun y f => set_tunnel (tnl_ip_src y (tunnel f)) f) Z.land one_ip_src
  | |- context [tnl_ip_dst _ _] => tests_field (fun f => ip_dst (tunnel f)) (fun y f => set_tunnel (tnl_ip_dst y (tunnel f)) f) Z.land one_ip_dst
  | |- context [tnl_flags _ _] => tests_field (fun f => flags (tunnel f)) (fun y f => set_tunnel (tnl_flags y (tunnel f)) f) Z.land one_flags
  | |- context [tnl_ip_tos _ _] => tests_field (fun f => ip_tos (tunnel f)) (fun y f => set_tunnel (tnl_ip_tos y (tunnel f)) f) Z.land one_ip_tos
  | |- context [tnl_ip_ttl _ _] => tests_field (fun f => ip_ttl (tunnel f)) (fun y f => set_tunnel (tnl_ip_ttl y (tunnel f)) f) Z.land one_ip_ttl
  | |- context [set_metadata _ flow_zero] => tests_field metadata set_metadata Z.land one_metadata
  | |- context [set_regs _ flow_zero] => tests_field regs set_regs (zip_with Z.land) one_regs
  | |- context [set_skb_priority _ flow_zero] => tests_field skb_priority set_skb_priority Z.land one_skb_priority
  | |- context [set_pkt_mark _ flow_zero] => tests_field pkt_mark set_pkt_mark Z.land one_pkt_mark
  | |- context [set_in_port _ flow_zero] => tests_field in_port set_in_port Z.land one_in_port
  | |- context [set_dl_src _ flow_zero] => tests_field dl_src set_dl_src (zip_with Z.land) one_dl_src
  | |- context [set_dl_dst _ flow_zero] => tests_field dl_dst set_dl_dst (zip_with Z.land) one_dl_dst
  | |- context [set_dl_type _ flow_zero] => tests_field dl_type set_dl_type Z.land one_dl_type
  | |- context [set_vlan_tci _ flow_zero] => tests_field vlan_tci set_vlan_tci Z.land one_vlan_tci
  | |- context [set_flow_mpls_lse _ flow_zero] => tests_field mpls_lse set_flow_mpls_lse Z.land one_mpls_lse
  | |- context [set_ipv6_src _ flow_zero] => tests_field ipv6_src set_ipv6_src (zip_with Z.land) one_ipv6_src
  | |- context [set_ipv6_dst _ flow_zero] => tests_field ipv6_dst set_ipv6_dst (zip_with Z.land) one_ipv6_dst
  | |- context [set_nd_target _ flow_zero] => tests_field nd_target set_nd_target (zip_with Z.land) one_nd_target
  | |- context [set_ipv6_label _ flow_zero] => tests_field ipv6_label set_ipv6_label Z.land one_ipv6_label
  | |- context [set_nw_src _ flow_zero] => tests_field nw_src set_nw_src Z.land one_nw_src
  | |- context [set_nw_dst _ flow_zero] => tests_field nw_dst set_nw_dst Z.land one_nw_dst
  | |- context [set_nw_frag _ flow_zero] => tests_field nw_frag set_nw_frag Z.land one_nw_frag
  | |- context [set_nw_tos _ flow_zero] => tests_field nw_tos set_nw_tos Z.land one_nw_tos
  | |- context [set_nw_ttl _ flow_zero] => tests_field nw_ttl set_nw_ttl Z.land one_nw_ttl
  | |- context [set_nw_proto _ flow_zero] => tests_field nw_proto set_nw_proto Z.land one_nw_proto
  | |- context [set_arp_sha _ flow_zero] => tests_field arp_sha set_arp_sha (zip_with Z.land) one_arp_sha
  | |- context [set_arp_tha _ flow_zero] => tests_field arp_tha set_arp_tha (zip_with Z.land) one_arp_tha
  | |- context [set_tcp_flags _ flow_zero] => tests_field tcp_flags set_tcp_flags Z.land one_tcp_flags
  | |- context [set_tp_src _ flow_zero] => tests_field tp_src set_tp_src Z.land one_tp_src
  | |- context [set_tp_dst _ flow_zero] => tests_field tp_dst set_tp_dst Z.land one_tp_dst
  end.

Lemma one_byte (x y : Z) : [x] = [y] <-> x = y.
Proof. split; [by intros [=] | by intros ->]. Qed.

Lemma test_icmp t x : in_u16 t -> ntohs t < 2 ^ 8 -> in_u8 x -> Z.land t OVS_BE16_MAX = Z.land (htons x) OVS_BE16_MAX <-> [u8 (ntohs t)] = [x].
Proof.
  intros Ht Hl Hx. unfold OVS_BE16_MAX. rewrite !(land_max 16) by (done || lia || apply htons_u16). rewrite one_byte.
  pose proof (htons_u16 t) as R. unfold ntohs in *. unfold u8. rewrite Z.mod_small by (unfold in_u16 in R; lia).
  rewrite <- swap16_iff by (done || (unfold in_u8, in_u16 in *; lia)). done.
Qed.

Lemma test_port g p : in_u16 p -> Z.land (in_port g) OVS_BE16_MAX = Z.land p OVS_BE16_MAX <-> ofp_port g = p.
Proof. intros Hp. unfold OVS_BE16_MAX. rewrite (land_max 16 p), land_mask by (done || lia). done. Qed.

Lemma clear8_lor t y m : in_u8 m -> Z.land (Z.lor (clear8 t m) y) m = Z.land y m.
Proof. apply (clear_lor 8). lia. Qed.

Lemma le16_iff a b : in_u16 a -> in_u16 b -> le16_bytes a = le16_bytes b <-> a = b.
Proof. intros Ha Hb. split; [by apply le16_inj | by intros ->]. Qed.

Lemma le32_iff a b : in_u32 a -> in_u32 b -> le32_bytes a = le32_bytes b <-> a = b.
Proof. intros Ha Hb. split; [by apply le32_inj | by intros ->]. Qed.

Lemma ofp_port_u16 g : in_u16 (ofp_port g).
Proof. apply Z.mod_pos_bound. lia. Qed.

Lemma to_ofp11_u32 p : in_u32 (ofputil_port_to_ofp11 p).
Proof. apply byteswap_u32. Qed.

Lemma test_in_port g b : in_u16 b -> Z.land (in_port g) OVS_BE16_MAX = Z.land (ntohs b) OVS_BE16_MAX <-> le16_bytes (htons (ofp_port g)) = le16_bytes b.
Proof.
  intros Hb. rewrite test_port, swap16_iff, le16_iff by (try apply htons_u16; try apply ofp_port_u16; done). done.
Qed.

Lemma test_in_port_oxm g b : in_u32 b -> fst (ofputil_port_from_ofp11 b) = true ->
  Z.land (in_port g) OVS_BE16_MAX = Z.land (snd (ofputil_port_from_ofp11 b)) OVS_BE16_MAX <-> le32_bytes (ofputil_port_to_ofp11 (ofp_port g)) = le32_bytes b.
Proof.
  intros Hb Hok. rewrite test_port by apply ofp11_typed. rewrite le32_iff by (done || apply to_ofp11_u32). symmetry. apply ofp11_port; [done | apply ofp_port_u16 | done].
Qed.

Lemma test_register i g b : (i < 8)%nat -> flow_typed g -> in_u32 b ->
  zip_with Z.land (regs g) (<[i := OVS_BE32_MAX]> (replicate FLOW_N_REGS 0)) =
  zip_with Z.land (<[i := Z.land (ntohl b) OVS_BE32_MAX]> (replicate FLOW_N_REGS 0)) (<[i := OVS_BE32_MAX]> (replicate FLOW_N_REGS 0)) <->
  le32_bytes (htonl (nth i (regs g) 0)) = le32_bytes b.
Proof.
  intros Hi Hg Hb. destruct (ft_regs g Hg) as [R L]. pose proof (byteswap_u32 b) as Sb. unfold OVS_BE32_MAX at 2. rewrite (land_max 32 (ntohl b)) by (done || lia).
  rewrite test_reg by done. assert (in_u32 (nth i (regs g) 0)) as Hn by (apply List.Forall_nth; [done | rewrite L; done]).
  rewrite swap32_iff, le32_iff by (done || apply byteswap_u32). done.
Qed.

Lemma dl_vlan_field vid f : (vid =? htons OFP10_VLAN_NONE) = false -> flow_set_dl_vlan vid f = set_vlan_tci (vlan_tci (flow_set_dl_vlan vid f)) f.
Proof. intros N. unfold flow_set_dl_vlan. rewrite N. done. Qed.

Lemma test_arp_op p b : in_u8 p -> in_u16 b -> in_u8 (ntohs b) ->
  Z.land p UINT8_MAX = Z.land (u8 (ntohs b)) UINT8_MAX <-> le16_bytes (htons p) = le16_bytes b.
Proof.
  intros Hp Hb Hn. unfold u8. rewrite (Z.mod_small (ntohs b)) by done. unfold UINT8_MAX. rewrite !(land_max 8) by done.
  assert (in_u16 p) as Hp' by (unfold in_u8, in_u16 in *; lia). rewrite swap16_iff, le16_iff by (done || apply htons_u16). done.
Qed.

Lemma match_exact id v g : bytes_n 16 v -> mf_is_value_valid (MF id) v = true -> flow_typed g -> carries id g = true ->
  exists m', mf_set_value (MF id) v match_init_catchall = Ok m' /\
    (flow_equal_except (flow_u32 target g) (flow_u32 target (m_flow m')) (flow_u32 target (m_wc m')) = true <->
     mf_get_bytes id g = take (size id) v /\ (needs_tag id = true -> Z.land (vlan_tci g) (htons VLAN_CFI) <> 0)).
Proof.
  intros Hv Hval Hg Hfrag. pose proof (valid_word id v Hv Hval) as W.
  destruct (value_be16 v Hv) as [R16 E16], (value_be32 v Hv) as [R32 E32], (value_be64 v Hv) as [R64 E64], (value_val8 v Hv) as [R8 E8].
  pose proof (value_mac v Hv) as R6. pose proof (value_ipv6 v Hv) as R128. destruct (ft_tunnel g Hg) as (? & ? & ? & ? & ? & ?).
  destruct (set_value_flow id v match_init_catchall Hv flow_zero_typed Hval) as (m' & E & F). exists m'. split; [done|].
  assert (flow_typed (m_flow m')) as TF.
  { rewrite F. destruct id; try (by apply set_flow_value_typed, flow_zero_typed). apply typed_ipv6_label; [apply flow_zero_typed | done]. }
  pose proof (set_value_wc_typed id v match_init_catchall m' flow_zero_typed E) as TW. clear F Hval.
  destruct id; choose_field; try (injection E as <-); choose_field.
  all: try (apply tag_free).
  all: change UINT32_MAX with OVS_BE32_MAX in *; change UINT16_MAX with OVS_BE16_MAX in *.
  all: change (Z.to_nat 1) with 1%nat; change (Z.to_nat 2) with 2%nat; change (Z.to_nat 4) with 4%nat; change (Z.to_nat 8) with 8%nat;
    rewrite <- ?E8, <- ?E16, <- ?E32, <- ?E64.
  all: try tests.
  all: rewrite <- ?Z.land_assoc, ?Z.land_diag; try (first [apply test8 | apply test16 | apply test32 | apply test64 | apply test16h | apply test32h
    | apply (test_bytes 6) | apply (test_bytes 16)]; first [assumption | apply Hg]).
  - change (set_ofp_port ?p flow_zero) with (set_in_port p flow_zero) in *. tests. by apply test_in_port.
  - change (set_ofp_port ?p flow_zero) with (set_in_port p flow_zero) in *. tests. by apply test_in_port_oxm.
  - apply (test_register 0); [lia | done | done].
  - apply (test_register 1); [lia | done | done].
  - apply (test_register 2); [lia | done | done].
  - apply (test_register 3); [lia | done | done].
  - apply (test_register 4); [lia | done | done].
  - apply (test_register 5); [lia | done | done].
  - apply (test_register 6); [lia | done | done].
  - apply (test_register 7); [lia | done | done].
  - destruct W as [W N]. unfold match_set_dl_vlan in *. rewrite N in *. cbn [m_flow m_wc on_flow on_wc match_init_catchall] in *. rewrite dl_vlan_field in * by done.
    tests. apply tag_too. rewrite le16_iff by (done || apply land_u16, htons_u16). by apply test_vid.
  - pose proof (vlan_vid_set (be16 v) flow_zero W) as V. unfold flow_set_vlan_vid in V. cbn [vlan_tci set_vlan_tci] in V |- *.
    change (Z.lor ?m (Z.land 0 _)) with (Z.lor m 0). rewrite Z.lor_0_r, V, le16_iff by (done || apply land_u16, htons_u16). done.
  - apply tag_too. rewrite one_byte. apply (test_pcp _ _ flow_zero); apply W.
  - apply tag_too. rewrite one_byte. apply (test_pcp _ _ flow_zero); apply W.
  - rewrite le32_iff by (done || apply byteswap_u32). by apply (test_label _ _ 0).
  - rewrite one_byte. by apply (test_tc _ _ 0).
  - rewrite one_byte. by apply (test_bos _ _ 0).
  - rewrite one_byte. change (Z.lor 0 ?m) with m. rewrite clear8_lor, W, W by done. done.
  - rewrite one_byte. change (Z.lor 0 ?m) with m. rewrite clear8_lor, <- Z.land_assoc, Z.land_diag by done. rewrite (proj2 (proj2 (dscp_of 0 _ ltac:(done) W))).
    rewrite <- test_dscp by (apply Hg || done). done.
  - rewrite one_byte. change (Z.lor 0 ?m) with m. rewrite clear8_lor, W, W by done. done.
  - apply Z.eqb_eq in Hfrag. rewrite one_byte. change (Z.lor 0 ?m) with m. rewrite Hfrag, W. done.
  - apply test_arp_op; [apply Hg | done | done].
  - apply test_icmp; [apply Hg | by apply Z.ltb_lt | done].
  - apply test_icmp; [apply Hg | by apply Z.ltb_lt | done].
  - apply test_icmp; [apply Hg | by apply Z.ltb_lt | done].
  - apply test_icmp; [apply Hg | by apply Z.ltb_lt | done].
Qed.

Lemma get_bytes_length id g : flow_typed g -> length (mf_get_bytes id g) = size id.
Proof.
  intros Hg. destruct id; choose_field; rewrite ?length_le64, ?length_le32, ?length_le16; try done;
    first [apply (proj2 (ft_dl_src g Hg)) | apply (proj2 (ft_dl_dst g Hg)) | apply (proj2 (ft_arp_sha g Hg)) | apply (proj2 (ft_arp_tha g Hg))
      | apply (proj2 (ft_ipv6_src g Hg)) | apply (proj2 (ft_ipv6_dst g Hg)) | apply (proj2 (ft_nd_target g Hg))].
Qed.

Lemma size_le id : (size id <= 16)%nat.
Proof. destruct id; cbn; lia. Qed.

Lemma put_take b n v u : bytes_n 16 v -> (n <= 16)%nat -> b = take n v -> put b u = take n v ++ drop n u.
Proof. intros [_ L] Hn ->. unfold put. rewrite length_take, L, Nat.min_l by done. done. Qed.

Lemma get_value_iff id g v : bytes_n 16 v -> flow_typed g -> mf_get_value (MF id) g v = v <-> mf_get_bytes id g = take (size id) v.
Proof.
  intros Hv Hg. unfold mf_get_value, put. rewrite mf_from_id_id, get_bytes_length by done. split.
  - intros E. apply (f_equal (take (size id))) in E. rewrite take_app_length' in E by (symmetry; by apply get_bytes_length). done.
  - intros ->. apply take_drop.
Qed.

End Meta.

(** ** Findings *)

(** [mf_set_flow_value] clears an IPv6 label instead of setting it. *)
Lemma ipv6_label_cleared target v f : mf_is_value_valid (mf_from_id target MFF_IPV6_LABEL) v = true ->
  ipv6_label (mf_set_flow_value (mf_from_id target MFF_IPV6_LABEL) v f) = 0.
Proof. intros E%Z.eqb_eq. exact E. Qed.

(** [mf_set_wild] of the fragment flags makes the match test them. *)
Lemma wild_frag_tested target : exists m, mf_set_wild (mf_from_id target MFF_IP_FRAG) match_init_catchall = Ok m /\
  mf_is_all_wild (mf_from_id target MFF_IP_FRAG) (m_wc m) = false.
Proof. eexists. split; reflexivity. Qed.

(** [mf_is_all_wild] looks at the tunnel identifier for the other members. *)
Lemma tun_tos_called_wild target : exists m, mf_set_value (mf_from_id target MFF_TUN_TOS) (1 :: replicate 15 0) match_init_catchall = Ok m /\
  ip_tos (tunnel (m_wc m)) = UINT8_MAX /\ mf_is_all_wild (mf_from_id target MFF_TUN_TOS) (m_wc m) = true.
Proof. eexists. split; [reflexivity|]. split; reflexivity. Qed.

(** ** The properties *)

(** C25. A valid value written to a field is read back: from a flow after
    [mf_set_flow_value], with the one exception of the IPv6 label (see the
    findings), and from a match after [mf_set], which never fails for a whole
    value.  Both keep every member in the range of its C type. *)
Theorem mf_value_roundtrip target id v f m : bytes_n 16 v -> flow_typed f -> flow_typed (m_flow m) -> flow_typed (m_wc m) ->
  mf_is_value_valid (mf_from_id target id) v = true ->
  let mf := mf_from_id target id in let n := Z.to_nat (n_bytes mf) in
  flow_typed (mf_set_flow_value mf v f) /\
  (id <> MFF_IPV6_LABEL -> forall u, mf_get_value mf (mf_set_flow_value mf v f) u = take n v ++ drop n u) /\
  exists m', mf_set mf v None m = Ok (usable_protocols mf, m') /\ flow_typed (m_flow m') /\ flow_typed (m_wc m') /\
    forall u mask, fst (mf_get mf m' u mask) = take n v ++ drop n u.
Proof.
  intros Hv Hf Hm Hw Hval mf n. destruct (set_value_flow target id v m Hv Hm Hval) as (m' & E & F).
  pose proof (size_le target id) as Hn. split; [by apply set_flow_value_typed|]. split.
  - intros Hid u. unfold mf_get_value. apply put_take; [done | done |]. unfold mf. rewrite mf_from_id_id. by apply set_flow_value_get.
  - exists m'. assert (flow_typed (m_flow m')) as TF.
    { rewrite F. destruct id; try (by apply set_flow_value_typed). apply typed_ipv6_label; [done | by apply (value_be32 v)]. }
    split; [unfold mf_set, mf; rewrite E; done|]. split; [done|]. split; [by apply (set_value_wc_typed target id v m)|].
    intros u mask. cbn [mf_get fst]. unfold mf_get_value. apply put_take; [done | done |]. unfold mf. rewrite mf_from_id_id, F.
    destruct (decide (id = MFF_IPV6_LABEL)) as [->|D]; [apply (value_be32 v Hv)|].
    replace (match id with MFF_IPV6_LABEL => _ | _ => _ end) with (mf_set_flow_value (mf_from_id target id) v (m_flow m)) by (destruct id; done).
    by apply set_flow_value_get.
Qed.

Definition sample_value : mf_value := [0x0a; 0x01; 0x02; 0x03] ++ replicate 12 0.

Lemma mf_value_roundtrip_witness :
  mf_get_value (mf_from_id x86_64 MFF_IPV4_DST) (mf_set_flow_value (mf_from_id x86_64 MFF_IPV4_DST) sample_value flow_zero) (replicate 16 0xff)
    = [0x0a; 0x01; 0x02; 0x03] ++ replicate 12 0xff.
Proof.
  assert (bytes_n 16 sample_value) as Hv by (split; [apply (bool_decide_unpack _); vm_compute; exact I | reflexivity]).
  apply (proj1 (proj2 (mf_value_roundtrip x86_64 MFF_IPV4_DST sample_value flow_zero match_init_catchall Hv flow_zero_typed flow_zero_typed flow_zero_typed eq_refl))).
  discriminate.
Defined.

(** C26. Matching on a field is testing the field: in a match made from nothing by
    setting one field to a valid value, exactly the flows whose field has the
    value match, as [flow_equal_except] and with it the classifier compare them;
    the OpenFlow 1.0 VLAN fields and the priority of a tag also test that there
    is a tag. *)
Theorem mf_match_exact target id v g : target = i686 \/ target = x86_64 -> bytes_n 16 v -> mf_is_value_valid (mf_from_id target id) v = true ->
  flow_typed g -> carries id g = true ->
  let mf := mf_from_id target id in
  exists m', mf_set mf v None match_init_catchall = Ok (usable_protocols mf, m') /\
    (flow_equal_except (flow_u32 target g) (flow_u32 target (m_flow m')) (flow_u32 target (m_wc m')) = true <->
     mf_get_value mf g v = v /\ (needs_tag id = true -> Z.land (vlan_tci g) (htons VLAN_CFI) <> 0)).
Proof.
  intros Ht Hv Hval Hg Hc mf. destruct (match_exact target Ht id v g Hv Hval Hg Hc) as (m' & E & H). exists m'. split; [unfold mf_set, mf; rewrite E; done|].
  rewrite H, <- get_value_iff by done. done.
Qed.

Lemma mf_match_exact_witness : exists m', mf_set (mf_from_id x86_64 MFF_IPV4_DST) sample_value None match_init_catchall = Ok (OFPUTIL_P_ANY, m') /\
  flow_equal_except (flow_u32 x86_64 (set_nw_dst (htonl 0x0a010203) flow_zero)) (flow_u32 x86_64 (m_flow m')) (flow_u32 x86_64 (m_wc m')) = true.
Proof.
  assert (bytes_n 16 sample_value) as Hv by (split; [apply (bool_decide_unpack _); vm_compute; exact I | reflexivity]).
  assert (flow_typed (set_nw_dst (htonl 0x0a010203) flow_zero)) as Hg by (apply typed_nw_dst; [apply flow_zero_typed | vm_compute; split; [discriminate | reflexivity]]).
  destruct (mf_match_exact x86_64 MFF_IPV4_DST sample_value _ (or_intror eq_refl) Hv eq_refl Hg eq_refl) as (m' & E & H).
  exists m'. split; [exact E|]. apply H. split; [vm_compute; reflexivity | discriminate].
Defined.
