(* ===== verification/Tag.v ===== *)
(** * Tags and tag trackers ([lib/tag.h], [lib/tag.c])

    A tag is a word with two 1-bits, drawn from a hash; a combination of tags is
    the bitwise or of them.  A tracker counts for every bit the tags in a
    combination that have it, so that a tag can be taken out again. *)

From Stdlib Require Import ZArith Lia List Bool.
From stdpp Require Import base option list_relations list sets.
From S2P Require Import Prelude Bits.
#[local] Open Scope Z_scope.
#[local] Open Scope res_scope.

(** ** The program *)

Definition N_TAG_BITS : Z := 32.
Definition LOG2_N_TAG_BITS : Z := 5.
Definition TAG_ALL : Z := UINT32_MAX.
Definition TAG_ARBITRARY : Z := 3.

Definition tag_intersects (a b : Z) : bool :=
  let x := Z.land a b in
  negb (Z.land x (u32 (x - 1)) =? 0).

Definition tag_create_deterministic (seed : Z) : Z :=
  let x := Z.land seed (N_TAG_BITS - 1) in
  let y := Z.shiftr seed LOG2_N_TAG_BITS mod (N_TAG_BITS - 1) in
  let y := if x <=? y then y + 1 else y in
  Z.lor (u32 (Z.shiftl 1 x)) (u32 (Z.shiftl 1 y)).

Definition rightmost_1bit_idx (x : Z) : Z := ctz32 x.

(** [struct tag_tracker] *)
Abbreviation tag_tracker := (list Z).

Definition tag_tracker_init : tag_tracker := replicate (Z.to_nat N_TAG_BITS) 0.

Definition get_count (counts : list Z) (i : Z) : Res Z :=
  match counts !! Z.to_nat i with Some c => Ok c | None => Fault OutOfBounds end.

(** The counts and [*tags] afterwards. *)
Definition tag_tracker_add (tracker : list Z) (tags add : Z) : Res (tag_tracker * Z) :=
  let tags := Z.lor tags add in
  let* tracker := for_map add (fun add tracker =>
      let i := rightmost_1bit_idx add in
      let* c := get_count tracker i in
      Ok (<[Z.to_nat i := u32 (c + 1)]> tracker)) tracker in
  Ok (tracker, tags).

Definition tag_tracker_subtract (tracker : list Z) (tags sub : Z) : Res (tag_tracker * Z) :=
  for_map sub (fun sub '(tracker, tags) =>
      let i := rightmost_1bit_idx sub in
      let* c := get_count tracker i in
      let c := u32 (c - 1) in
      let tracker := <[Z.to_nat i := c]> tracker in
      Ok (tracker, if c =? 0 then Z.land tags (u32 (Z.lnot (rightmost_1bit sub))) else tags)) (tracker, tags).

(** ** Tags *)

Lemma u32_pow x : 0 <= x < 32 -> u32 (Z.shiftl 1 x) = 2 ^ x.
Proof.
  intros Hx. rewrite Z.shiftl_1_l. apply u32_id. split; [apply Z.pow_nonneg; lia | apply Z.pow_lt_mono_r; lia].
Qed.

(** Two different bits in common. *)
Lemma tag_intersects_bits a b i j : in_u32 b -> 0 <= i < j ->
  (forall k, k = i \/ k = j -> Z.testbit a k = true /\ Z.testbit b k = true) -> tag_intersects a b = true.
Proof.
  intros Hb Hij H. unfold tag_intersects. set (x := Z.land a b).
  assert (in_u32 x) as Hx by (apply land_range_r; [lia | exact Hb]).
  assert (forall k, k = i \/ k = j -> Z.testbit x k = true) as Hxb.
  { intros k Hk. unfold x. rewrite Z.land_spec. destruct (H k Hk) as [-> ->]. done. }
  unfold in_u32 in Hx. destruct (Z.eq_dec x 0) as [E|E].
  { specialize (Hxb i (or_introl eq_refl)). rewrite E, Z.bits_0 in Hxb. done. }
  assert (u32 (x - 1) = x - 1) as -> by (apply u32_id; unfold in_u32; lia).
  destruct (ends_in_exists x ltac:(lia)) as (t & q & Ht & Hq & Et).
  assert (Z.land x (x - 1) = 2 ^ (t + 1) * q) as ->.
  { pose proof (zero_rightmost_split t q Ht Hq) as Hz. unfold zero_rightmost_1bit in Hz. rewrite <- Et in Hz.
    rewrite u64_id in Hz by (unfold in_u64; lia). rewrite Hz by lia. done. }
  assert (0 < 2 ^ (t + 1)) by (apply Z.pow_pos_nonneg; lia).
  destruct (Z.eqb_spec (2 ^ (t + 1) * q) 0) as [E0|E0]; [|done]. assert (q = 0) as -> by nia.
  rewrite Z.mul_0_r, Z.add_0_l, Z.mul_1_r in Et.
  assert (forall k, Z.testbit x k = true -> k = t) as Hone.
  { intros k Hk. destruct (Z.eq_dec k t); [done|]. rewrite Et, Z.pow2_bits_false in Hk by done. done. }
  pose proof (Hone i (Hxb i (or_introl eq_refl))). pose proof (Hone j (Hxb j (or_intror eq_refl))). lia.
Qed.

(** A tag has two 1-bits. *)
Definition two_bits (tag : Z) : Prop := in_u32 tag /\
  exists i j, 0 <= i < j /\ Z.testbit tag i = true /\ Z.testbit tag j = true.

Lemma tag_intersects_sub tags tag : two_bits tag ->
  (forall k, Z.testbit tag k = true -> Z.testbit tags k = true) -> tag_intersects tags tag = true.
Proof.
  intros (Hu & i & j & Hij & Hi & Hj) H. apply (tag_intersects_bits _ _ i j); [done | done |].
  intros k [-> | ->]; auto.
Qed.

Lemma TAG_ALL_two_bits : two_bits TAG_ALL.
Proof. split; [unfold in_u32; vm_compute; split; congruence|]. exists 0, 1. done. Qed.

Lemma TAG_ALL_bits k : 0 <= k < 32 -> Z.testbit TAG_ALL k = true.
Proof. intros Hk. change TAG_ALL with (Z.ones 32). apply Z.ones_spec_low. lia. Qed.

(** A tag for all subtables intersects everything that has two bits. *)
Lemma tag_intersects_all tags : two_bits tags -> tag_intersects tags TAG_ALL = true.
Proof.
  intros (Hu & i & j & Hij & Hi & Hj). apply (tag_intersects_bits _ _ i j); [apply TAG_ALL_two_bits | done |].
  assert (forall k, Z.testbit tags k = true -> k < 32) as Hk.
  { intros k H. destruct (Z.lt_ge_cases k 32); [done|]. apply bits_range_iff in Hu as [_ Hu]; [|lia].
    rewrite Hu in H by lia. done. }
  intros k [-> | ->]; (split; [done|]; apply TAG_ALL_bits).
  - pose proof (Hk i Hi). lia.
  - pose proof (Hk j Hj). lia.
Qed.

Lemma tag_create_two_bits seed : 0 <= seed -> two_bits (tag_create_deterministic seed).
Proof.
  intros Hs. unfold tag_create_deterministic, N_TAG_BITS, LOG2_N_TAG_BITS.
  replace (Z.land seed (32 - 1)) with (seed mod 2 ^ 5) by (symmetry; apply (land_mask seed 5); lia).
  set (x := seed mod 2 ^ 5). assert (0 <= x < 32) as Hx by (apply Z.mod_pos_bound; lia).
  set (y0 := Z.shiftr seed 5 mod (32 - 1)). assert (0 <= y0 < 31) as Hy by (apply Z.mod_pos_bound; lia).
  set (y := if x <=? y0 then y0 + 1 else y0).
  assert (0 <= y < 32 /\ y <> x) as [Hy' Hne] by (unfold y; case_bool; lia).
  rewrite !u32_pow by lia. split.
  - apply lor_range; [lia|..]; (split; [apply Z.pow_nonneg; lia | apply Z.pow_lt_mono_r; lia]).
  - assert (forall k, k = x \/ k = y -> Z.testbit (Z.lor (2 ^ x) (2 ^ y)) k = true) as Hb.
    { intros k [-> | ->]; rewrite Z.lor_spec, Z.pow2_bits_true by lia; [done | apply orb_true_r]. }
    destruct (Z.lt_ge_cases x y); [exists x, y | exists y, x]; (split; [lia|]); split; apply Hb; auto.
Qed.

(** ** Trackers *)

Definition tags_of (l : list Z) : Z := foldr Z.lor 0 l.
Definition having (i : nat) (l : list Z) : list Z := filter (fun t => Z.testbit t (Z.of_nat i) = true) l.

(** The tracker and the word of a collection of tags. *)
Definition tracks (tracker : list Z) (tags : Z) (l : list Z) : Prop :=
  length tracker = 32%nat /\ tags = tags_of l /\ Forall in_u32 l /\ Z.of_nat (length l) < 2 ^ 32 /\
  forall i, (i < 32)%nat -> nth i tracker 0 = Z.of_nat (length (having i l)).

Lemma tags_of_bit l i : Z.testbit (tags_of l) i = true <-> exists t, t ∈ l /\ Z.testbit t i = true.
Proof.
  induction l as [|t l IH]; cbn.
  - rewrite Z.bits_0. split; [done|]. intros (t & Ht & _). set_solver.
  - rewrite Z.lor_spec, orb_true_iff, IH. split.
    + intros [H|(u & Hu & H)]; [exists t; split; [left|done] | exists u; split; [right; done | done]].
    + intros (u & Hu & H). apply elem_of_cons in Hu as [-> | Hu]; [by left | right; eauto].
Qed.

Lemma tags_of_u32 l : Forall in_u32 l -> in_u32 (tags_of l).
Proof. induction 1; cbn; [unfold in_u32; lia | apply lor_range; done || lia]. Qed.

(** The bits of a 32-bit word, by the functions the loop uses. *)
Lemma first_bit_idx m i : first_bit m i -> rightmost_1bit_idx m = Z.of_nat i.
Proof.
  intros (E & Hr & _). unfold rightmost_1bit_idx, ctz32. destruct (Z.eqb_spec m 0) as [->|]; [|done].
  change (rightmost_1bit 0) with 0 in Hr. assert (0 < 2 ^ Z.of_nat i) by (apply Z.pow_pos_nonneg; lia). lia.
Qed.

Lemma one_bits_u32 n i : in_u32 n -> i ∈ one_bits n -> (i < 32)%nat.
Proof.
  intros Hn Hi. apply elem_of_one_bits in Hi as [Hi _]. destruct (decide (i < 32)%nat); [done|].
  apply bits_range_iff in Hn as [_ Hn]; [|lia]. rewrite Hn in Hi by lia. done.
Qed.

(** The counts after the positions [pre]. *)
Definition counted (d : Z) (pre : list nat) (counts : list Z) : tag_tracker :=
  imap (fun i c => if bool_decide (i ∈ pre) then u32 (c + d) else c) counts.

Lemma counted_nil d counts : counted d [] counts = counts.
Proof.
  unfold counted. apply list_eq. intros i. rewrite list_lookup_imap. destruct (counts !! i); [|done]. cbn.
  rewrite bool_decide_false by set_solver. done.
Qed.

Lemma length_counted d pre counts : length (counted d pre counts) = length counts.
Proof. apply length_imap. Qed.

Lemma nth_counted d pre counts i : (i < length counts)%nat ->
  nth i (counted d pre counts) 0 = if bool_decide (i ∈ pre) then u32 (nth i counts 0 + d) else nth i counts 0.
Proof.
  intros Hi. destruct (lookup_lt_is_Some_2 counts i Hi) as [c E]. rewrite (nth_lookup_Some counts i 0 c E).
  apply nth_lookup_Some. unfold counted. rewrite list_lookup_imap, E. done.
Qed.

Lemma counted_step d pre counts i : i ∉ pre -> (i < length counts)%nat ->
  get_count (counted d pre counts) (Z.of_nat i) = Ok (nth i counts 0) /\
  <[i := u32 (nth i counts 0 + d)]> (counted d pre counts) = counted d (pre ++ [i]) counts.
Proof.
  intros Hn Hi. destruct (lookup_lt_is_Some_2 counts i Hi) as [c E]. rewrite (nth_lookup_Some counts i 0 c E).
  split.
  - unfold get_count, counted. rewrite Nat2Z.id, list_lookup_imap, E. cbn. rewrite bool_decide_false by done. done.
  - apply list_eq. intros j. destruct (decide (i = j)) as [<-|Hne].
    + rewrite list_lookup_insert_eq by (rewrite length_counted; done).
      unfold counted. rewrite list_lookup_imap, E. cbn. rewrite bool_decide_true by set_solver. done.
    + rewrite list_lookup_insert_ne by done. unfold counted. rewrite !list_lookup_imap.
      destruct (counts !! j); [|done]. cbn. f_equal.
      rewrite (bool_decide_ext (j ∈ pre) (j ∈ pre ++ [i])) by set_solver. done.
Qed.

(** A position splits the positions before it from itself. *)
Lemma bits_split n pre i post : one_bits n = pre ++ i :: post -> i ∉ pre.
Proof. intros E. pose proof (one_bits_nodup n) as Hn. rewrite E in Hn. apply NoDup_app in Hn as (_ & H & _). intros Hi. apply (H i Hi). left. Qed.

Lemma having_cons i t l : length (having i (t :: l)) = ((if Z.testbit t (Z.of_nat i) then 1 else 0) + length (having i l))%nat.
Proof.
  unfold having. rewrite filter_cons. destruct (Z.testbit t (Z.of_nat i)) eqn:E; [rewrite decide_True by done | rewrite decide_False by done]; done.
Qed.

Lemma having_le i l : (length (having i l) <= length l)%nat.
Proof. apply length_filter. Qed.

Lemma tag_tracker_init_ok : tracks tag_tracker_init 0 [].
Proof.
  split; [done|]. split; [done|]. split; [constructor|]. split; [cbn; lia|]. intros i Hi.
  do 32 (destruct i as [|i]; [done|]). lia.
Qed.

Lemma tag_tracker_add_ok tracker tags l add : tracks tracker tags l -> in_u32 add -> Z.of_nat (length l) + 1 < 2 ^ 32 ->
  exists tracker', tag_tracker_add tracker tags add = Ok (tracker', Z.lor tags add) /\
    tracks tracker' (Z.lor tags add) (add :: l).
Proof.
  intros (Hl & Ht & Hu & Hn & Hc) Ha Hn1. unfold tag_tracker_add.
  rewrite (for_map_bits _ _ (fun i tracker => let* c := get_count tracker (Z.of_nat i) in Ok (<[i := u32 (c + 1)]> tracker))).
  2:{ unfold in_u32, in_u64 in *. lia. }
  2:{ intros m i s Hf. rewrite (first_bit_idx m i Hf), Nat2Z.id. done. }
  match goal with |- context [fold_bits _ ?f _] =>
    assert (fold_bits (one_bits add) f (counted 1 [] tracker) = Ok (counted 1 (one_bits add) tracker)) as E end.
  { apply (fold_bits_st (fun pre => counted 1 pre tracker)). intros pre i post E. destruct (counted_step 1 pre tracker i) as [-> H]; [eapply bits_split, E | |].
      { rewrite Hl. apply (one_bits_u32 add i Ha). rewrite E. set_solver. }
      cbn [rbind]. rewrite H. done. }
  rewrite counted_nil in E. rewrite E. cbn [rbind]. eexists. split; [done|]. split; [rewrite length_counted; done|].
  split; [rewrite Ht; apply Z.lor_comm|]. split; [constructor; done|]. split; [cbn [length]; lia|].
  intros i Hi. rewrite nth_counted by lia. rewrite Hc by done. rewrite having_cons.
  pose proof (having_le i l). case_bool_decide as Hin; rewrite elem_of_one_bits in Hin.
  - destruct Hin as [-> _]. rewrite u32_id by (unfold in_u32; lia). lia.
  - destruct (Z.testbit add (Z.of_nat i)); [destruct Hin; split; [done|lia] | done].
Qed.

(** The bits taken out of the word after the positions [pre]. *)
Definition cleared (counts : list Z) (pre : list nat) (tags : Z) : Z :=
  fold_left (fun tags i => if u32 (nth i counts 0 - 1) =? 0 then Z.land tags (u32 (Z.lnot (2 ^ Z.of_nat i))) else tags) pre tags.

Lemma cleared_bit counts pre tags j : in_u32 tags -> Forall (fun i => i < 32)%nat pre -> 0 <= j ->
  Z.testbit (cleared counts pre tags) j =
    Z.testbit tags j && negb (bool_decide (Z.to_nat j ∈ pre) && (u32 (nth (Z.to_nat j) counts 0 - 1) =? 0)).
Proof.
  intros Ht Hp Hj. unfold cleared. revert tags Ht. induction Hp as [|i pre Hi _ IH]; intros tags Ht; cbn [fold_left].
  { rewrite bool_decide_false by set_solver. cbn. rewrite andb_true_r. done. }
  rewrite IH by (destruct (u32 (nth i counts 0 - 1) =? 0); [apply land_range_r; [lia | apply u32_range] | done]).
  assert (Z.testbit (if u32 (nth i counts 0 - 1) =? 0 then Z.land tags (u32 (Z.lnot (2 ^ Z.of_nat i))) else tags) j
    = Z.testbit tags j && negb (bool_decide (Z.to_nat j = i) && (u32 (nth i counts 0 - 1) =? 0))) as ->.
  { destruct (u32 (nth i counts 0 - 1) =? 0); [|rewrite andb_false_r, andb_true_r; done].
    rewrite Z.land_spec, andb_true_r. destruct (Z.testbit tags j) eqn:E; [|done]. rewrite !andb_true_l.
    assert (j < 32) as Hj32.
    { destruct (Z.lt_ge_cases j 32); [done|]. apply bits_range_iff in Ht as [_ Ht]; [|lia]. rewrite Ht in E by lia. done. }
    unfold u32. rewrite Z.mod_pow2_bits_low, Z.lnot_spec by lia. f_equal.
    clear IH. case_bool_decide as Hc; [rewrite <- Hc, Z2Nat.id by lia; apply Z.pow2_bits_true; lia | apply Z.pow2_bits_false; lia]. }
  rewrite <- andb_assoc. f_equal. destruct (decide (Z.to_nat j = i)) as [->|Hne].
  - rewrite (bool_decide_true (i = i)), (bool_decide_true (i ∈ i :: pre)) by set_solver.
    destruct (u32 (nth i counts 0 - 1) =? 0); cbn; [done|]. rewrite andb_false_r. done.
  - rewrite (bool_decide_false (Z.to_nat j = i)) by done. cbn.
    rewrite (bool_decide_ext (Z.to_nat j ∈ i :: pre) (Z.to_nat j ∈ pre)) by set_solver. done.
Qed.

Lemma having_zero i l : length (having i l) = 0%nat <-> forall t, t ∈ l -> Z.testbit t (Z.of_nat i) = false.
Proof.
  unfold having. split.
  - intros H t Ht. destruct (Z.testbit t (Z.of_nat i)) eqn:E; [|done]. apply nil_length_inv in H.
    assert (t ∈ filter (fun t => Z.testbit t (Z.of_nat i) = true) l) as Hin by (apply list_elem_of_filter; done).
    rewrite H in Hin. set_solver.
  - intros H. induction l as [|t l IH]; [done|]. rewrite filter_cons, decide_False.
    + apply IH. intros u Hu. apply H. right. done.
    + rewrite (H t) by left. done.
Qed.

Lemma having_perm i l l' : l ≡ₚ l' -> length (having i l) = length (having i l').
Proof. intros H. unfold having. rewrite H. done. Qed.

Lemma tag_tracker_subtract_ok tracker tags l sub l' : tracks tracker tags l -> l ≡ₚ sub :: l' ->
  exists tracker' tags', tag_tracker_subtract tracker tags sub = Ok (tracker', tags') /\ tracks tracker' tags' l'.
Proof.
  intros (Hl & Ht & Hu & Hn & Hc) HP.
  assert (in_u32 sub /\ Forall in_u32 l') as [Hs Hu'] by (rewrite HP in Hu; apply Forall_cons in Hu; done).
  pose proof (tags_of_u32 l Hu) as Htu. rewrite <- Ht in Htu.
  assert (length l = S (length l')) as Hlen by (rewrite HP; done).
  assert (Forall (fun i => i < 32)%nat (one_bits sub)) as Hbits.
  { apply Forall_forall. intros i. apply one_bits_u32, Hs. }
  unfold tag_tracker_subtract.
  rewrite (for_map_bits _ _ (fun i '(tracker, tags) => let* c := get_count tracker (Z.of_nat i) in
      let c := u32 (c - 1) in let tracker := <[i := c]> tracker in
      Ok (tracker, if c =? 0 then Z.land tags (u32 (Z.lnot (2 ^ Z.of_nat i))) else tags))).
  2:{ unfold in_u32, in_u64 in *. lia. }
  2:{ intros m i [s s'] Hf. rewrite (first_bit_idx m i Hf), Nat2Z.id. destruct Hf as (_ & -> & _). done. }
  replace (tracker, tags) with (counted (-1) [] tracker, cleared tracker [] tags) by (rewrite counted_nil; done).
  rewrite (fold_bits_st (fun pre => (counted (-1) pre tracker, cleared tracker pre tags))).
  2:{ intros pre i post E. destruct (counted_step (-1) pre tracker i) as [-> H]; [eapply bits_split, E | |].
      { rewrite Hl. apply (one_bits_u32 sub i Hs). rewrite E. set_solver. }
      cbn [rbind]. cbv zeta. change (nth i tracker 0 - 1) with (nth i tracker 0 + -1). rewrite H.
      unfold cleared. rewrite fold_left_app. done. }
  eexists _, _. split; [done|].
  assert (forall i, (i < 32)%nat -> nth i tracker 0 = Z.of_nat ((if Z.testbit sub (Z.of_nat i) then 1 else 0) + length (having i l'))) as Hc'.
  { intros i Hi. rewrite Hc by done. rewrite (having_perm i _ _ HP), having_cons. done. }
  split; [rewrite length_counted; done|]. split; [|split; [done|split; [lia|]]].
  - apply Z.bits_inj'. intros j Hj. rewrite cleared_bit by done.
    assert (Z.testbit tags j = Z.testbit (tags_of (sub :: l')) j) as ->.
    { rewrite Ht. apply eq_true_iff_eq. rewrite !tags_of_bit. setoid_rewrite HP. done. }
    cbn [tags_of foldr]. fold (tags_of l'). rewrite Z.lor_spec.
    destruct (Z.testbit (tags_of l') j) eqn:Ej.
    + rewrite orb_true_r, andb_true_l. destruct (decide (j < 32)) as [Hj32|Hj32].
      * rewrite (Hc' (Z.to_nat j)) by lia. rewrite Z2Nat.id by done.
        apply tags_of_bit in Ej as (t & Htl & Htj).
        assert (length (having (Z.to_nat j) l') <> 0%nat) as Hh.
        { rewrite having_zero. intros Hz. specialize (Hz t Htl). rewrite Z2Nat.id in Hz by done. congruence. }
        pose proof (having_le (Z.to_nat j) l').
        destruct (Z.testbit sub j) eqn:Es.
        -- rewrite u32_id by (unfold in_u32; lia). rewrite (proj2 (Z.eqb_neq _ 0)) by lia. rewrite andb_false_r. done.
        -- rewrite bool_decide_false; [done|]. rewrite elem_of_one_bits, Z2Nat.id by done. rewrite Es. intros [? _]. done.
      * rewrite bool_decide_false; [done|]. intros Hin. apply (one_bits_u32 sub _ Hs) in Hin. lia.
    + rewrite orb_false_r. destruct (Z.testbit sub j) eqn:Es; [|done]. rewrite andb_true_l.
      assert (j < 32) as Hj32.
      { destruct (Z.lt_ge_cases j 32); [done|]. apply bits_range_iff in Hs as [_ Hs]; [|lia]. rewrite Hs in Es by lia. done. }
      rewrite bool_decide_true by (rewrite elem_of_one_bits, Z2Nat.id by done; split; [done|lia]).
      rewrite (Hc' (Z.to_nat j)) by lia. rewrite Z2Nat.id by done. rewrite Es.
      assert (length (having (Z.to_nat j) l') = 0%nat) as ->; [|done].
      apply having_zero. intros t Htl. rewrite Z2Nat.id by done. destruct (Z.testbit t j) eqn:E; [|done].
      assert (Z.testbit (tags_of l') j = true) as Hx by (apply tags_of_bit; eauto). congruence.
  - intros i Hi. rewrite nth_counted by lia. rewrite Hc' by done. pose proof (having_le i l').
    case_bool_decide as Hin; rewrite elem_of_one_bits in Hin.
    + destruct Hin as [-> _]. rewrite u32_id by (unfold in_u32; lia). lia.
    + destruct (Z.testbit sub (Z.of_nat i)); [destruct Hin; split; [done|lia] | done].
Qed.
