(* ===== verification/Trie.v ===== *)
(** * Prefix tries ([lib/classifier.c])

    The longest-prefix match trees in which the classifier tracks the prefixes
    its rules match on: insertion, removal with pruning, and the lookup that
    reports how many bits of an address decide its longest match.

    A node is owned by the edge that points to it, so a pointer to a node is the
    tree below it and [Null] is the null pointer; a store through a [struct
    trie_node **] replaces the tree at that edge.  The walk of [trie_remove]
    keeps the edges it went through in an array of 128 elements; in the model
    they are on the stack of the recursion, and the depth is an argument, so
    that a store beyond the array is a fault. *)

From Stdlib Require Import ZArith Lia List Bool.
From stdpp Require Import base option list_relations list.
From S2P Require Import Prelude Bytes Csum Bits Miniflow.
#[local] Open Scope Z_scope.
#[local] Open Scope res_scope.

(** ** The program *)

Definition TRIE_PREFIX_BITS : Z := 32.

(** [sizeof(union mf_value) * 8] *)
Definition MAX_EDGES : nat := 128.

Inductive trie_node :=
  | Null
  | Node (prefix nbits n_rules : Z) (edge0 edge1 : trie_node).

Definition raw_get_prefix (pr : list Z) (ofs plen : Z) : Res Z :=
  let i := ofs / 32 in
  let ofs := ofs mod 32 in
  let* w := word pr i in
  let prefix := u32 (Z.shiftl (ntohl w) ofs) in
  if 32 - ofs <? plen
  then let* w := word pr (i + 1) in
       Ok (Z.lor prefix (Z.shiftr (ntohl w) (32 - ofs)))
  else Ok prefix.

Definition trie_get_prefix (pr : list Z) (ofs plen : Z) : Res Z :=
  if plen =? 0 then Ok 0
  else
    let plen := if TRIE_PREFIX_BITS <? plen then TRIE_PREFIX_BITS else plen in
    let* p := raw_get_prefix pr ofs plen in
    Ok (Z.land p (u32 (Z.shiftl (u32 (Z.lnot 0)) (32 - plen)))).

Definition prefix_equal_bits (prefix nbits : Z) (value : list Z) (ofs : Z) : Res Z :=
  let* p := raw_get_prefix value ofs nbits in
  let diff := Z.lxor prefix p in
  Ok (raw_clz64 (Z.lor (u64 (Z.shiftl diff 32)) (Z.shiftl 1 (63 - nbits)))).

Definition trie_prefix_equal_bits (node_prefix node_nbits : Z) (prefix : list Z) (ofs plen : Z) : Res Z :=
  prefix_equal_bits node_prefix (Z.min node_nbits (u32 (plen - ofs))) prefix ofs.

(** The byte is a byte of the little-endian word. *)
Definition be_get_bit_at (value : list Z) (ofs : Z) : Res Z :=
  let* w := word value (ofs / 8 / 4) in
  let byte := Z.shiftr w (8 * (ofs / 8 mod 4)) mod 2 ^ 8 in
  Ok (Z.land (Z.shiftr byte (7 - ofs mod 8)) 1).

Definition get_bit_at (prefix ofs : Z) : Z := Z.land (Z.shiftr prefix (31 - ofs)) 1.

Definition set_edge (node : trie_node) (bit : Z) (e : trie_node) : trie_node :=
  match node with
  | Null => Null
  | Node p nb nr e0 e1 => if bit =? 0 then Node p nb nr e e1 else Node p nb nr e0 e
  end.

(** The fuel bounds the nodes of the new branch. *)
Fixpoint branch_create (fuel : nat) (prefix : list Z) (ofs plen n_rules : Z) : Res trie_node :=
  let* p := trie_get_prefix prefix ofs plen in
  if plen <=? TRIE_PREFIX_BITS then Ok (Node p plen n_rules Null Null)
  else
    match fuel with
    | O => Fault OutOfFuel
    | S fuel =>
        let* subnode := branch_create fuel prefix (ofs + TRIE_PREFIX_BITS) (plen - TRIE_PREFIX_BITS) n_rules in
        let bit := match subnode with Null => 0 | Node p _ _ _ _ => get_bit_at p 0 end in
        Ok (set_edge (Node p TRIE_PREFIX_BITS 0 Null Null) bit subnode)
    end.

Definition trie_branch_create (prefix : list Z) (ofs plen n_rules : Z) : Res trie_node :=
  branch_create (Z.to_nat plen) prefix ofs plen n_rules.

Definition trie_is_leaf (e0 e1 : trie_node) : bool :=
  match e0, e1 with Null, Null => true | _, _ => false end.

(** The nodes that are freed. *)
Fixpoint trie_destroy (node : trie_node) : nat :=
  match node with
  | Null => 0
  | Node _ _ _ e0 e1 => trie_destroy e0 + trie_destroy e1 + 1
  end.

(** The loop of [trie_lookup_value] from [node] on: [prev_leaf] tells whether
    [prev] is null or a leaf.  The results are the length of the match and
    [*checkbits]. *)
Fixpoint lookup_loop (node : trie_node) (value : list Z) (prev_leaf : bool) (plen match_len : Z) : Res (Z * Z) :=
  match node with
  | Null => Ok (match_len, if prev_leaf then plen else plen + 1)
  | Node prefix nbits n_rules e0 e1 =>
      let* eqbits := prefix_equal_bits prefix nbits value plen in
      let plen := plen + eqbits in
      if eqbits <? nbits then Ok (match_len, plen + 1)
      else
        let match_len := if 0 <? n_rules then plen else match_len in
        let* bit := be_get_bit_at value plen in
        if bit =? 0 then lookup_loop e0 value (trie_is_leaf e0 e1) plen match_len
        else lookup_loop e1 value (trie_is_leaf e0 e1) plen match_len
  end.

Definition trie_lookup_value (node : trie_node) (value : list Z) : Res (Z * Z) :=
  lookup_loop node value true 0 0.

(** The loop of [trie_insert] at the edge that points to [node]. *)
Fixpoint insert_loop (node : trie_node) (prefix : list Z) (mlen ofs : Z) : Res trie_node :=
  match node with
  | Null => trie_branch_create prefix ofs (mlen - ofs) 1
  | Node pr nbits n_rules e0 e1 =>
      let* eqbits := trie_prefix_equal_bits pr nbits prefix ofs mlen in
      let ofs := ofs + eqbits in
      if eqbits <? nbits then
        let old_branch := get_bit_at pr eqbits in
        let* parent := trie_branch_create prefix (ofs - eqbits) eqbits (if ofs =? mlen then 1 else 0) in
        let node := Node (u32 (Z.shiftl pr eqbits)) (u8 (nbits - eqbits)) n_rules e0 e1 in
        let parent := set_edge parent old_branch node in
        if ofs <? mlen then
          let* branch := trie_branch_create prefix ofs (mlen - ofs) 1 in
          Ok (set_edge parent (1 - old_branch) branch)
        else Ok parent
      else if ofs =? mlen then Ok (Node pr nbits (u32 (n_rules + 1)) e0 e1)
      else
        let* bit := be_get_bit_at prefix ofs in
        if bit =? 0 then
          let* e0 := insert_loop e0 prefix mlen ofs in
          Ok (Node pr nbits n_rules e0 e1)
        else
          let* e1 := insert_loop e1 prefix mlen ofs in
          Ok (Node pr nbits n_rules e0 e1)
  end.

Definition trie_insert_prefix (root : trie_node) (prefix : list Z) (mlen : Z) : Res trie_node :=
  insert_loop root prefix mlen 0.

(** One round of the pruning loop of [trie_remove] at [node]: what its edge
    points to afterwards, and whether the loop goes on with the parent. *)
Definition prune (node : trie_node) : trie_node * bool :=
  match node with
  | Null => (Null, false)
  | Node prefix nbits n_rules e0 e1 =>
      match e0, e1 with
      | Node _ _ _ _ _, Node _ _ _ _ _ => (node, false)
      | _, _ =>
          if negb (n_rules =? 0) then (node, false)
          else
            match (match e0 with Null => e1 | Node _ _ _ _ _ => e0 end) with
            | Null => (Null, true)
            | Node next_prefix next_nbits next_rules f0 f1 =>
                if TRIE_PREFIX_BITS <? nbits + next_nbits then (node, false)
                else (Node (Z.lor prefix (Z.shiftr next_prefix nbits)) (u8 (next_nbits + nbits)) next_rules f0 f1, false)
            end
      end
  end.

(** The loop of [trie_remove] at the edge [edges[depth]], and the pruning on
    the way back.  The flag tells whether the pruning goes on above; [None] is
    the warning about a rule that is not in the trie. *)
Fixpoint remove_loop (node : trie_node) (prefix : list Z) (mlen : Z) (depth : nat) (ofs : Z)
    : Res (option (trie_node * bool)) :=
  if decide (depth < MAX_EDGES)%nat then
    match node with
    | Null => Ok None
    | Node pr nbits n_rules e0 e1 =>
        let* eqbits := trie_prefix_equal_bits pr nbits prefix ofs mlen in
        if eqbits <? nbits then Ok None
        else
          let ofs := ofs + eqbits in
          if ofs =? mlen then
            if n_rules =? 0 then Ok None
            else Ok (Some (prune (Node pr nbits (u32 (n_rules - 1)) e0 e1)))
          else
            let* bit := be_get_bit_at prefix ofs in
            if bit =? 0 then
              let* r := remove_loop e0 prefix mlen (S depth) ofs in
              match r with
              | None => Ok None
              | Some (e0, again) =>
                  let node := Node pr nbits n_rules e0 e1 in
                  Ok (Some (if again then prune node else (node, false)))
              end
            else
              let* r := remove_loop e1 prefix mlen (S depth) ofs in
              match r with
              | None => Ok None
              | Some (e1, again) =>
                  let node := Node pr nbits n_rules e0 e1 in
                  Ok (Some (if again then prune node else (node, false)))
              end
    end
  else Fault OutOfBounds.

(** The root, and whether the prefix was in the trie. *)
Definition trie_remove_prefix (root : trie_node) (prefix : list Z) (mlen : Z) : Res (trie_node * bool) :=
  let* r := remove_loop root prefix mlen 0 0 in
  Ok (match r with None => (root, false) | Some (root, _) => (root, true) end).
