(* ===== verification/TrieFacts.v ===== *)
(** * Prefix tries as sets of bit strings

    The words of a node and of an address read as strings of bits; the strings
    a trie stands for; and what insertion, removal and lookup do to them. *)

From Stdlib Require Import ZArith Lia List Bool.
From stdpp Require Import base option list_relations list sets.
From S2P Require Import Prelude Bytes Csum Bits Miniflow FlowCompose MiniflowFacts Trie.
#[local] Open Scope Z_scope.
#[local] Open Scope res_scope.

(** ** Strings of bits *)

(** The length of the longest common prefix. *)
Fixpoint lcp (a b : list bool) : nat :=
  match a, b with
  | x :: a, y :: b => if bool_decide (x = y) then S (lcp a b) else O
  | _, _ => O
  end.

Lemma lcp_le a b : (lcp a b <= length a)%nat /\ (lcp a b <= length b)%nat.
Proof.
  revert b. induction a as [|x a IH]; intros [|y b]; cbn; try lia. case_bool_decide; cbn; [|lia].
  destruct (IH b). lia.
Qed.

Lemma lcp_take a b : take (lcp a b) a = take (lcp a b) b.
Proof.
  revert b. induction a as [|x a IH]; intros [|y b]; cbn; try done.
  case_bool_decide; cbn; [|done]. subst. f_equal. apply IH.
Qed.

Lemma lcp_drop a b x a' y b' : drop (lcp a b) a = x :: a' -> drop (lcp a b) b = y :: b' -> x <> y.
Proof.
  revert b. induction a as [|u a IH]; intros [|v b]; cbn; try done.
  case_bool_decide; cbn; [apply IH|]. congruence.
Qed.

Lemma lcp_full a b : lcp a b = length a -> b = a ++ drop (length a) b.
Proof. intros E. pose proof (lcp_take a b) as H. rewrite E, take_ge in H by done. rewrite H at 1. rewrite take_drop. done. Qed.

Lemma lcp_app a b c : lcp (a ++ b) (a ++ c) = (length a + lcp b c)%nat.
Proof. induction a as [|x a IH]; [done|]. cbn. rewrite bool_decide_true, IH by done. done. Qed.

(** Equality up to a first difference determines the common prefix. *)
Lemma lcp_spec a b k : (k <= length a)%nat -> (k <= length b)%nat ->
  (forall i, (i < k)%nat -> nth i a false = nth i b false) ->
  ((k < length a)%nat -> (k < length b)%nat -> nth k a false <> nth k b false) ->
  (k = length a \/ (k < length b)%nat) -> (k = length b \/ (k < length a)%nat) ->
  lcp a b = k.
Proof.
  revert b k. induction a as [|x a IH]; intros [|y b] k Ha Hb He Hd H1 H2; cbn in *; try lia.
  destruct k as [|k].
  - rewrite bool_decide_false; [done|]. apply Hd; lia.
  - rewrite bool_decide_true by (apply (He 0%nat); lia). f_equal. apply IH; try lia.
    + intros i Hi. apply (He (S i)). lia.
    + intros. apply Hd; lia.
Qed.

Lemma nth_take_low (l : list bool) i k : (i < k)%nat -> nth i (take k l) false = nth i l false.
Proof. revert i k. induction l as [|x l IH]; intros [|i] [|k] Hi; cbn; try done; try lia. apply IH. lia. Qed.

Definition node_bits (prefix nbits : Z) : list bool :=
  map (fun i => Z.testbit prefix (31 - Z.of_nat i)) (seq 0 (Z.to_nat nbits)).

Definition vbit (v : list Z) (i : nat) : bool :=
  Z.testbit (ntohl (nth (i / 32) v 0)) (31 - Z.of_nat (i mod 32)).

Definition vbits (v : list Z) (ofs n : nat) : list bool := map (vbit v) (seq ofs n).

Lemma length_node_bits p nb : length (node_bits p nb) = Z.to_nat nb.
Proof. unfold node_bits. rewrite length_map, length_seq. done. Qed.

Lemma length_vbits v ofs n : length (vbits v ofs n) = n.
Proof. unfold vbits. rewrite length_map, length_seq. done. Qed.

Lemma nth_node_bits p nb i : (i < Z.to_nat nb)%nat -> nth i (node_bits p nb) false = Z.testbit p (31 - Z.of_nat i).
Proof.
  intros Hi. unfold node_bits. rewrite (nth_indep _ _ (Z.testbit p (31 - Z.of_nat 0)))
    by (rewrite length_map, length_seq; done).
  rewrite map_nth with (d := 0%nat) (f := fun i => Z.testbit p (31 - Z.of_nat i)). rewrite seq_nth by done. done.
Qed.

Lemma nth_vbits v ofs n i : (i < n)%nat -> nth i (vbits v ofs n) false = vbit v (ofs + i).
Proof.
  intros Hi. unfold vbits. rewrite (nth_indep _ _ (vbit v 0)) by (rewrite length_map, length_seq; done).
  rewrite map_nth, seq_nth by done. done.
Qed.

Lemma vbits_app v ofs n m : vbits v ofs (n + m) = vbits v ofs n ++ vbits v (ofs + n) m.
Proof. unfold vbits. rewrite seq_app, map_app. done. Qed.

Lemma vbits_take v ofs n k : (k <= n)%nat -> take k (vbits v ofs n) = vbits v ofs k.
Proof.
  intros H. replace n with (k + (n - k))%nat by lia. rewrite vbits_app.
  rewrite take_app_le by (rewrite length_vbits; done). apply take_ge. rewrite length_vbits. done.
Qed.

Lemma vbits_drop v ofs n k : (k <= n)%nat -> drop k (vbits v ofs n) = vbits v (ofs + k) (n - k).
Proof.
  intros H. replace n with (k + (n - k))%nat at 1 by lia. rewrite vbits_app.
  rewrite drop_app_ge by (rewrite length_vbits; done). rewrite length_vbits, Nat.sub_diag. done.
Qed.

Lemma bits_ext (a b : list bool) : length a = length b ->
  (forall i, (i < length a)%nat -> nth i a false = nth i b false) -> a = b.
Proof.
  revert b. induction a as [|x a IH]; intros [|y b] Hl H; cbn in *; try done.
  f_equal; [apply (H 0%nat); lia|]. apply IH; [lia|]. intros i Hi. apply (H (S i)). lia.
Qed.

(** ** The operations on words *)

Record node_ok (p nb : Z) : Prop := {
  no_u32 : in_u32 p;
  no_bits : 0 <= nb <= 32;
  no_zero : forall i, nb <= i < 32 -> Z.testbit p (31 - i) = false
}.

Lemma word_at v i : (i < length v)%nat -> word v (Z.of_nat i) = Ok (nth i v 0).
Proof.
  intros Hi. unfold word. rewrite Nat2Z.id. destruct (lookup_lt_is_Some_2 v i Hi) as [x E].
  rewrite E, (nth_lookup_Some _ _ 0 _ E). done.
Qed.

Lemma ntohl_in_u32 x : in_u32 (ntohl x).
Proof. apply byteswap_u32. Qed.

Lemma u32_testbit x i : 0 <= i -> Z.testbit (u32 x) i = (i <? 32) && Z.testbit x i.
Proof.
  intros Hi. unfold u32. destruct (Z.ltb_spec i 32).
  - rewrite Z.mod_pow2_bits_low by lia. done.
  - rewrite Z.mod_pow2_bits_high by lia. done.
Qed.

Lemma in_u32_high x i : in_u32 x -> 32 <= i -> Z.testbit x i = false.
Proof. intros Hx Hi. apply bits_range_iff in Hx as [_ H]; [|lia]. apply H, Hi. Qed.

Lemma shiftr_in_u32 x k : in_u32 x -> 0 <= k -> in_u32 (Z.shiftr x k).
Proof.
  intros Hx Hk. apply bits_range_iff; [lia|]. split; [apply Z.shiftr_nonneg; unfold in_u32 in Hx; lia|].
  intros i Hi. rewrite Z.shiftr_spec by lia. apply in_u32_high; [done|lia].
Qed.

Lemma raw_get_prefix_spec v ofs nb : (nb <= 32)%nat -> (ofs + nb <= 32 * length v)%nat -> (ofs < 32 * length v)%nat ->
  exists W, raw_get_prefix v (Z.of_nat ofs) (Z.of_nat nb) = Ok W /\ in_u32 W /\
    forall i, (i < nb)%nat -> Z.testbit W (31 - Z.of_nat i) = vbit v (ofs + i).
Proof.
  intros Hn Hl Ho. unfold raw_get_prefix.
  replace (Z.of_nat ofs / 32) with (Z.of_nat (ofs / 32)) by (rewrite Nat2Z.inj_div; done).
  replace (Z.of_nat ofs mod 32) with (Z.of_nat (ofs mod 32)) by (rewrite Nat2Z.inj_mod; done).
  pose proof (Nat.div_mod ofs 32 ltac:(lia)) as Hdm. pose proof (Nat.mod_upper_bound ofs 32 ltac:(lia)) as Hmb.
  set (q := (ofs / 32)%nat) in *. set (r := (ofs mod 32)%nat) in *.
  rewrite word_at by lia. cbn [rbind].
  assert (forall j, (r + j < 32)%nat -> vbit v (ofs + j) = Z.testbit (ntohl (nth q v 0)) (31 - Z.of_nat (r + j))) as Hlow.
  { intros j Hj. unfold vbit. replace ((ofs + j) / 32)%nat with q.
    2:{ apply (Nat.div_unique (ofs + j) 32 q (r + j)); lia. }
    replace ((ofs + j) mod 32)%nat with (r + j)%nat; [done|]. apply (Nat.mod_unique (ofs + j) 32 q (r + j)); lia. }
  assert (forall j, (32 <= r + j < 64)%nat -> vbit v (ofs + j) = Z.testbit (ntohl (nth (q + 1) v 0)) (31 - Z.of_nat (r + j - 32))) as Hhigh.
  { intros j Hj. unfold vbit. replace ((ofs + j) / 32)%nat with (q + 1)%nat.
    2:{ apply (Nat.div_unique (ofs + j) 32 (q + 1) (r + j - 32)); lia. }
    replace ((ofs + j) mod 32)%nat with (r + j - 32)%nat; [done|].
    apply (Nat.mod_unique (ofs + j) 32 (q + 1) (r + j - 32)); lia. }
  pose proof (ntohl_in_u32 (nth q v 0)) as Hw.
  destruct (Z.ltb_spec (32 - Z.of_nat r) (Z.of_nat nb)) as [H|H].
  - change 1 with (Z.of_nat 1). rewrite <- Nat2Z.inj_add, word_at by lia. cbn [rbind].
    pose proof (ntohl_in_u32 (nth (q + 1) v 0)) as Hw2.
    eexists. split; [reflexivity|]. split; [apply lor_range; [lia | apply u32_range | apply shiftr_in_u32; [done | lia]]|].
    intros i Hi. rewrite Z.lor_spec, u32_testbit, Z.shiftl_spec, Z.shiftr_spec by lia.
    rewrite (proj2 (Z.ltb_lt _ _)) by lia. rewrite andb_true_l. destruct (decide (r + i < 32)%nat) as [Hc|Hc].
    + rewrite Hlow by done. rewrite (in_u32_high (ntohl (nth (q + 1) v 0))) by (done || lia).
      rewrite orb_false_r. f_equal. lia.
    + rewrite Hhigh by lia. rewrite Z.testbit_neg_r by lia. rewrite orb_false_l. f_equal. lia.
  - eexists. split; [reflexivity|]. split; [apply u32_range|]. intros i Hi.
    rewrite u32_testbit, Z.shiftl_spec by lia. rewrite (proj2 (Z.ltb_lt _ _)) by lia. rewrite andb_true_l.
    rewrite Hlow by lia. f_equal. lia.
Qed.

(** The count of leading zeros, by the first difference of the words. *)
Lemma clz_diff d nb k : in_u32 d -> (k <= nb <= 32)%nat ->
  (forall i, (i < k)%nat -> Z.testbit d (31 - Z.of_nat i) = false) ->
  ((k < nb)%nat -> Z.testbit d (31 - Z.of_nat k) = true) ->
  raw_clz64 (Z.lor (u64 (Z.shiftl d 32)) (Z.shiftl 1 (63 - Z.of_nat nb))) = Z.of_nat k.
Proof.
  intros Hd Hk H0 H1.
  assert (u64 (Z.shiftl d 32) = Z.shiftl d 32) as ->.
  { apply u64_id. unfold in_u32, in_u64 in *. rewrite Z.shiftl_mul_pow2 by lia. lia. }
  set (n := Z.lor _ _).
  assert (forall j, 0 <= j -> Z.testbit n j = Z.testbit d (j - 32) || (j =? 63 - Z.of_nat nb)) as Hb.
  { intros j Hj. unfold n. rewrite Z.lor_spec, !Z.shiftl_spec by lia. f_equal.
    destruct (Z.eqb_spec j (63 - Z.of_nat nb)) as [->|Hne].
    - rewrite Z.sub_diag. done.
    - destruct (Z.lt_ge_cases j (63 - Z.of_nat nb)); [apply Z.testbit_neg_r; lia|].
      apply Z.bits_above_log2; [lia|]. cbn. lia. }
  assert (0 <= n) as Hn0.
  { apply Z.lor_nonneg. split; [apply Z.shiftl_nonneg; unfold in_u32 in Hd; lia | apply Z.shiftl_nonneg; lia]. }
  assert (n < 2 ^ (63 - Z.of_nat k + 1)) as Hlt.
  { apply (bits_range_iff (63 - Z.of_nat k + 1) n); [lia|]. split; [done|]. intros j Hj. rewrite Hb by lia.
    apply orb_false_iff. split; [|apply Z.eqb_neq; lia].
    destruct (Z.lt_ge_cases j 64); [|apply in_u32_high; [done | lia]].
    replace (j - 32) with (31 - Z.of_nat (Z.to_nat (63 - j))) by lia. apply H0. lia. }
  assert (Z.testbit n (63 - Z.of_nat k) = true) as Ht.
  { rewrite Hb by lia. destruct (decide (k < nb)%nat) as [Hc|Hc].
    - replace (63 - Z.of_nat k - 32) with (31 - Z.of_nat k) by lia. rewrite H1 by done. done.
    - replace k with nb by lia. rewrite Z.eqb_refl. apply orb_true_r. }
  assert (0 < n) as Hpos by (destruct (Z.eq_dec n 0) as [E|]; [rewrite E, Z.bits_0 in Ht; done | lia]).
  rewrite raw_clz64_ok.
  - rewrite (proj2 (log2_bits n (63 - Z.of_nat k) ltac:(lia) Hpos)) by done. lia.
  - split; [done|]. apply Z.lt_le_trans with (1 := Hlt). apply Z.pow_le_mono_r; lia.
Qed.

Lemma prefix_equal_bits_spec p nb v ofs : in_u32 p -> (nb <= 32)%nat -> (ofs + nb <= 32 * length v)%nat ->
  (ofs < 32 * length v)%nat ->
  prefix_equal_bits p (Z.of_nat nb) v (Z.of_nat ofs) = Ok (Z.of_nat (lcp (node_bits p (Z.of_nat nb)) (vbits v ofs nb))).
Proof.
  intros Hp Hn Hl Ho. unfold prefix_equal_bits.
  destruct (raw_get_prefix_spec v ofs nb Hn Hl Ho) as (W & -> & HW & Hb). cbn [rbind]. f_equal.
  pose proof (lcp_le (node_bits p (Z.of_nat nb)) (vbits v ofs nb)) as [L1 L2].
  rewrite length_node_bits, length_vbits, Nat2Z.id in *.
  set (k := lcp _ _) in *. pose proof (lcp_take (node_bits p (Z.of_nat nb)) (vbits v ofs nb)) as Htk. fold k in Htk.
  assert (forall i, (i < nb)%nat -> Z.testbit (Z.lxor p W) (31 - Z.of_nat i)
    = xorb (nth i (node_bits p (Z.of_nat nb)) false) (nth i (vbits v ofs nb) false)) as Hx.
  { intros i Hi. rewrite Z.lxor_spec, Hb by done. rewrite nth_node_bits, nth_vbits by (rewrite ?Nat2Z.id; done). done. }
  apply clz_diff; [apply lxor_range; done || lia | lia | |].
  - intros i Hi. rewrite Hx by lia. rewrite <- (nth_take_low _ i k) , Htk, nth_take_low by done. apply xorb_nilpotent.
  - intros Hk. rewrite Hx by done.
    destruct (drop k (node_bits p (Z.of_nat nb))) as [|x a'] eqn:E1.
    { apply (f_equal length) in E1. rewrite length_drop, length_node_bits, Nat2Z.id in E1. cbn in E1. lia. }
    destruct (drop k (vbits v ofs nb)) as [|y b'] eqn:E2.
    { apply (f_equal length) in E2. rewrite length_drop, length_vbits in E2. cbn in E2. lia. }
    pose proof (lcp_drop _ _ _ _ _ _ E1 E2) as Hne.
    rewrite <- (take_drop k (node_bits p (Z.of_nat nb))), <- (take_drop k (vbits v ofs nb)), E1, E2.
    rewrite !app_nth2; rewrite !length_take, ?length_node_bits, ?length_vbits, ?Nat2Z.id; try lia.
    rewrite Nat.min_l by lia. rewrite Nat.sub_diag. cbn. destruct x, y; done.
Qed.

(** The part of an address a node needs. *)
Lemma trie_prefix_equal_bits_spec p nb v ofs mlen : node_ok p nb -> (ofs < mlen)%nat -> (mlen <= 32 * length v)%nat ->
  Z.of_nat mlen < 2 ^ 32 ->
  trie_prefix_equal_bits p nb v (Z.of_nat ofs) (Z.of_nat mlen) =
    Ok (Z.of_nat (lcp (node_bits p nb) (vbits v ofs (mlen - ofs)))).
Proof.
  intros [Hp Hn _] Ho Hm Hb. unfold trie_prefix_equal_bits.
  rewrite u32_id by (unfold in_u32; lia).
  set (n := Nat.min (Z.to_nat nb) (mlen - ofs)).
  replace (Z.min nb (Z.of_nat mlen - Z.of_nat ofs)) with (Z.of_nat n) by lia.
  rewrite prefix_equal_bits_spec by (done || lia). f_equal. f_equal.
  assert (node_bits p (Z.of_nat n) = take n (node_bits p nb)) as ->.
  { apply bits_ext; rewrite ?length_take, !length_node_bits, Nat2Z.id; [lia|]. intros i Hi.
    rewrite nth_take_low, !nth_node_bits by lia. done. }
  rewrite <- (vbits_take v ofs (mlen - ofs) n) by lia.
  set (a := node_bits p nb). set (b := vbits v ofs (mlen - ofs)).
  assert (length a = Z.to_nat nb) as La by apply length_node_bits.
  assert (length b = (mlen - ofs)%nat) as Lb by apply length_vbits.
  clearbody a b. assert (n = Nat.min (length a) (length b)) as -> by lia. clear.
  revert b. induction a as [|x a IH]; intros [|y b]; cbn; try done. case_bool_decide; [|done]. f_equal. apply IH.
Qed.

Lemma be_get_bit_at_spec v ofs : (ofs < 32 * length v)%nat ->
  be_get_bit_at v (Z.of_nat ofs) = Ok (Z.b2z (vbit v ofs)).
Proof.
  intros Ho. unfold be_get_bit_at.
  pose proof (Nat.div_mod ofs 32 ltac:(lia)) as Hdm. pose proof (Nat.mod_upper_bound ofs 32 ltac:(lia)) as Hmb.
  unfold vbit. set (q := (ofs / 32)%nat) in *. set (r := (ofs mod 32)%nat) in *.
  replace (Z.of_nat ofs / 8 / 4) with (Z.of_nat q) by (unfold q; zdm).
  rewrite word_at by lia. cbn [rbind]. f_equal.
  replace (Z.of_nat ofs / 8 mod 4) with (Z.of_nat r / 8) by zdm.
  replace (Z.of_nat ofs mod 8) with (Z.of_nat r mod 8) by zdm.
  unfold ntohl. rewrite byteswap_bit by lia. set (w := nth q v 0).
  change 1 with (2 ^ 1 - 1) at 1. rewrite land_mask by lia. change (2 ^ 1) with 2. rewrite <- Z.bit0_mod.
  assert (0 <= Z.of_nat r mod 8 < 8) by (apply Z.mod_pos_bound; lia).
  assert (0 <= Z.of_nat r / 8) by (apply Z.div_pos; lia).
  rewrite Z.shiftr_spec by lia. rewrite Z.mod_pow2_bits_low by lia. rewrite Z.shiftr_spec by lia.
  f_equal. f_equal. unfold swap_ix. zdm.
Qed.

Lemma get_bit_at_spec p i : (i < 32)%nat -> get_bit_at p (Z.of_nat i) = Z.b2z (Z.testbit p (31 - Z.of_nat i)).
Proof.
  intros Hi. unfold get_bit_at. change 1 with (2 ^ 1 - 1) at 1. rewrite land_mask by lia.
  change (2 ^ 1) with 2. rewrite <- Z.bit0_mod, Z.shiftr_spec by lia. f_equal.
Qed.

Lemma node_bits_nil p : node_bits p 0 = [].
Proof. reflexivity. Qed.

Lemma high_ones_bit n i : (n <= 32)%nat -> (i < 32)%nat ->
  Z.testbit (u32 (Z.shiftl (u32 (Z.lnot 0)) (32 - Z.of_nat n))) (31 - Z.of_nat i) = bool_decide (i < n)%nat.
Proof.
  intros Hn Hi. rewrite u32_testbit, Z.shiftl_spec by lia.
  rewrite (proj2 (Z.ltb_lt _ _)) by lia. rewrite andb_true_l. case_bool_decide.
  - rewrite u32_testbit, Z.lnot_spec, Z.bits_0 by lia. rewrite (proj2 (Z.ltb_lt _ _)) by lia. done.
  - apply Z.testbit_neg_r. lia.
Qed.

Lemma trie_get_prefix_spec v ofs plen : (ofs + plen <= 32 * length v)%nat ->
  let n := Nat.min plen 32 in
  exists p, trie_get_prefix v (Z.of_nat ofs) (Z.of_nat plen) = Ok p /\ node_ok p (Z.of_nat n) /\
    node_bits p (Z.of_nat n) = vbits v ofs n.
Proof.
  intros Hl n. unfold trie_get_prefix. destruct (Z.eqb_spec (Z.of_nat plen) 0) as [E|E].
  - exists 0. replace n with 0%nat by lia. split; [done|]. split; [|done].
    split; [unfold in_u32; lia | lia |]. intros i Hi. apply Z.bits_0.
  - replace (if TRIE_PREFIX_BITS <? Z.of_nat plen then TRIE_PREFIX_BITS else Z.of_nat plen) with (Z.of_nat n).
    2:{ unfold TRIE_PREFIX_BITS. case_bool; lia. }
    destruct (raw_get_prefix_spec v ofs n) as (W & -> & HW & Hb); try lia. cbn [rbind].
    eexists. split; [done|].
    assert (forall i, (i < 32)%nat -> Z.testbit (Z.land W (u32 (Z.shiftl (u32 (Z.lnot 0)) (32 - Z.of_nat n)))) (31 - Z.of_nat i)
      = Z.testbit W (31 - Z.of_nat i) && bool_decide (i < n)%nat) as Hx.
    { intros i Hi. rewrite Z.land_spec, high_ones_bit by lia. done. }
    split.
    + split; [apply land_range_r; [lia | apply u32_range] | lia |]. intros i Hi.
      replace i with (Z.of_nat (Z.to_nat i)) by lia. rewrite Hx by lia. rewrite bool_decide_false by lia. apply andb_false_r.
    + apply bits_ext; rewrite length_node_bits, ?length_vbits, Nat2Z.id; [done|]. intros i Hi.
      rewrite nth_node_bits, nth_vbits by (rewrite ?Nat2Z.id; done). rewrite Hx by lia.
      rewrite bool_decide_true by done. rewrite andb_true_r. apply Hb. done.
Qed.

(** Shifting a node's prefix drops bits in front. *)
Lemma node_shift p nb k : node_ok p nb -> (k < Z.to_nat nb)%nat ->
  node_ok (u32 (Z.shiftl p (Z.of_nat k))) (u8 (nb - Z.of_nat k)) /\
  node_bits (u32 (Z.shiftl p (Z.of_nat k))) (u8 (nb - Z.of_nat k)) = drop k (node_bits p nb).
Proof.
  intros [Hp Hn Hz] Hk. assert (u8 (nb - Z.of_nat k) = nb - Z.of_nat k) as -> by (unfold u8; apply Z.mod_small; lia).
  assert (forall i, 0 <= i < 32 -> Z.testbit (u32 (Z.shiftl p (Z.of_nat k))) (31 - i) = Z.testbit p (31 - (i + Z.of_nat k))) as Hx.
  { intros i Hi. rewrite u32_testbit, Z.shiftl_spec by lia. rewrite (proj2 (Z.ltb_lt _ _)) by lia.
    rewrite andb_true_l. f_equal. lia. }
  split.
  - split; [apply u32_range | lia |]. intros i Hi. rewrite Hx by lia.
    destruct (decide (i + Z.of_nat k < 32)) as [?|?]; [apply Hz; lia | apply Z.testbit_neg_r; lia].
  - apply bits_ext; rewrite length_node_bits, ?length_drop, ?length_node_bits; [lia|]. intros i Hi.
    rewrite nth_node_bits by done. rewrite Hx by lia. rewrite nth_skipn, nth_node_bits by lia. f_equal. lia.
Qed.

(** Joining the prefixes of a node and its child. *)
Lemma node_join p nb p' nb' : node_ok p nb -> node_ok p' nb' -> nb + nb' <= 32 ->
  node_ok (Z.lor p (Z.shiftr p' nb)) (u8 (nb' + nb)) /\
  node_bits (Z.lor p (Z.shiftr p' nb)) (u8 (nb' + nb)) = node_bits p nb ++ node_bits p' nb'.
Proof.
  intros [Hp Hn Hz] [Hp' Hn' Hz'] Hs.
  assert (u8 (nb' + nb) = nb + nb') as -> by (unfold u8; rewrite Z.mod_small; lia).
  assert (forall i, 0 <= i < 32 -> Z.testbit (Z.lor p (Z.shiftr p' nb)) (31 - i)
    = Z.testbit p (31 - i) || Z.testbit p' (31 - (i - nb))) as Hx.
  { intros i Hi. rewrite Z.lor_spec, Z.shiftr_spec by lia. f_equal. f_equal. lia. }
  split.
  - split; [apply lor_range; [lia | done | apply shiftr_in_u32; [done | lia]] | lia |].
    intros i Hi. rewrite Hx, Hz by lia. rewrite orb_false_l. apply Hz'. lia.
  - apply bits_ext; rewrite ?length_app, !length_node_bits; [lia|]. intros i Hi.
    rewrite nth_node_bits by lia. rewrite Hx by lia. destruct (decide (i < Z.to_nat nb)%nat) as [Hc|Hc].
    + rewrite app_nth1 by (rewrite length_node_bits; done). rewrite nth_node_bits by done.
      rewrite (in_u32_high p') by (done || lia). apply orb_false_r.
    + rewrite app_nth2 by (rewrite length_node_bits; lia). rewrite length_node_bits, nth_node_bits by lia.
      rewrite Hz by lia. rewrite orb_false_l. f_equal. lia.
Qed.

(** ** The prefixes in a trie *)

(** The prefixes, once for every rule. *)
Fixpoint rules (t : trie_node) : list (list bool) :=
  match t with
  | Null => []
  | Node p nb nr e0 e1 =>
      replicate (Z.to_nat nr) (node_bits p nb) ++ map (app (node_bits p nb)) (rules e0 ++ rules e1)
  end.

(** Nodes are in range, the first bit below an edge is the bit of the edge, and
    there is a rule at or below every node. *)
Fixpoint trie_wf (first : option bool) (t : trie_node) : Prop :=
  match t with
  | Null => True
  | Node p nb nr e0 e1 =>
      node_ok p nb /\ in_u32 nr /\ (forall b, first = Some b -> head (node_bits p nb) = Some b) /\
      (nr <> 0 \/ e0 <> Null \/ e1 <> Null) /\ trie_wf (Some false) e0 /\ trie_wf (Some true) e1
  end.

Lemma head_app {A} (a b : list A) x : head a = Some x -> head (a ++ b) = Some x.
Proof. destruct a; done. Qed.

Lemma rules_first t b p : trie_wf (Some b) t -> p ∈ rules t -> head p = Some b.
Proof.
  destruct t as [|pr nb nr e0 e1]; [set_solver|]. intros (_ & _ & Hf & _) Hp. specialize (Hf b eq_refl). cbn in Hp.
  apply elem_of_app in Hp as [Hp|Hp].
  - apply elem_of_replicate in Hp as [-> _]. done.
  - apply list_elem_of_fmap in Hp as (q & -> & _). apply head_app, Hf.
Qed.

Lemma trie_wf_weaken first t : trie_wf first t -> trie_wf None t.
Proof. destruct t; [done|]. cbn. intros (? & ? & _ & ?). split; [done|]. split; [done|]. split; [|done]. congruence. Qed.

Lemma rules_null first t : trie_wf first t -> rules t = [] -> t = Null.
Proof.
  revert first. induction t as [|p nb nr e0 IH0 e1 IH1]; intros first; [done|]. cbn.
  intros (_ & Hr & _ & Hl & H0 & H1) E. exfalso.
  apply app_eq_nil in E as [E1 E2]. apply (f_equal length) in E1. rewrite length_replicate in E1. cbn in E1.
  unfold in_u32 in Hr. apply map_eq_nil, app_eq_nil in E2 as [E2 E3].
  destruct Hl as [Hl|[Hl|Hl]]; [lia | apply Hl, (IH0 _ H0 E2) | apply Hl, (IH1 _ H1 E3)].
Qed.

(** Only the bits of a node matter for the rules below it. *)
Lemma rules_cut p nb p' nb' nr e0 e1 a b : node_bits p nb = a ++ b -> node_bits p' nb' = b ->
  map (app a) (rules (Node p' nb' nr e0 e1)) = rules (Node p nb nr e0 e1).
Proof.
  intros E1 E2. cbn. rewrite E1, E2, map_app. f_equal.
  - induction (Z.to_nat nr) as [|n IH]; cbn; [done|]. rewrite IH. done.
  - rewrite map_map. apply map_ext. intros q. rewrite app_assoc. done.
Qed.

Lemma branch_create_spec v n_rules : in_u32 n_rules -> 0 < n_rules ->
  forall fuel ofs plen, (plen <= fuel)%nat -> (ofs + plen <= 32 * length v)%nat ->
  exists t, branch_create fuel v (Z.of_nat ofs) (Z.of_nat plen) n_rules = Ok t /\ trie_wf None t /\
    rules t = replicate (Z.to_nat n_rules) (vbits v ofs plen) /\ t <> Null /\
    forall p nb nr e0 e1, t = Node p nb nr e0 e1 -> (0 < plen)%nat -> head (node_bits p nb) = Some (vbit v ofs).
Proof.
  intros Hr Hpos. induction fuel as [|fuel IH]; intros ofs plen Hf Hl; cbn [branch_create];
    destruct (trie_get_prefix_spec v ofs plen Hl) as (p & -> & Hok & Hb); cbn [rbind]; unfold TRIE_PREFIX_BITS.
  - replace plen with 0%nat in * by lia. eexists. split; [done|]. cbn [trie_wf]. split.
    { split; [exact Hok|]. split; [done|]. split; [done|]. split; [left; lia|done]. }
    split; [cbn [rules]; rewrite app_nil_r; done|]. split; [done|]. lia.
  - destruct (Z.leb_spec (Z.of_nat plen) 32) as [H|H].
    + rewrite Nat.min_l in * by lia. eexists. split; [done|]. cbn [trie_wf]. split.
      { split; [exact Hok|]. split; [done|]. split; [done|]. split; [left; lia|done]. }
      split; [cbn [rules]; rewrite app_nil_r, Hb; done|]. split; [done|].
      intros ? ? ? ? ? [= <- <- _ _ _] Hp. rewrite Hb. destruct plen; [lia|done].
    + rewrite Nat.min_r in * by lia. change (Z.of_nat 32) with 32 in *.
      destruct (IH (ofs + 32)%nat (plen - 32)%nat) as (s & E & Hw & Hs & Hn & Hh); [lia | lia |].
      replace (Z.of_nat (ofs + 32)) with (Z.of_nat ofs + 32) in E by lia.
      replace (Z.of_nat (plen - 32)) with (Z.of_nat plen - 32) in E by lia.
      rewrite E. cbn [rbind]. destruct s as [|sp sn sr s0 s1]; [done|].
      specialize (Hh sp sn sr s0 s1 eq_refl ltac:(lia)). pose proof Hw as (Hsok & _).
      assert (get_bit_at sp 0 = Z.b2z (vbit v (ofs + 32))) as ->.
      { change 0 with (Z.of_nat 0). rewrite get_bit_at_spec by lia. f_equal. unfold node_bits in Hh.
        destruct (Z.to_nat sn); [done|]. cbn in Hh. injection Hh as Hh. done. }
      assert (trie_wf (Some (vbit v (ofs + 32))) (Node sp sn sr s0 s1)) as Hw'.
      { destruct Hw as (? & ? & _ & ?). split; [done|]. split; [done|]. split; [|done]. intros b [= <-]. exact Hh. }
      assert (map (app (node_bits p 32)) (rules (Node sp sn sr s0 s1)) = replicate (Z.to_nat n_rules) (vbits v ofs plen)) as Hrl.
      { rewrite Hs, Hb. replace plen with (32 + (plen - 32))%nat at 2 by lia. rewrite (vbits_app v ofs 32).
        apply (fmap_replicate (app (vbits v ofs 32))). }
      eexists. split; [done|]. destruct (vbit v (ofs + 32)) eqn:Eb; cbn [Z.b2z set_edge Z.eqb].
      * split; [|split; [|split; [done|]]].
        { split; [exact Hok|]. split; [unfold in_u32; lia|]. split; [done|]. split; [by right; right|]. split; [done|exact Hw']. }
        { change (rules (Node p 32 0 Null (Node sp sn sr s0 s1))) with (map (app (node_bits p 32)) (rules (Node sp sn sr s0 s1))). exact Hrl. }
        { intros ? ? ? ? ? [= <- <- _ _ _] _. rewrite Hb. done. }
      * split; [|split; [|split; [done|]]].
        { split; [exact Hok|]. split; [unfold in_u32; lia|]. split; [done|]. split; [by right; left|]. split; [exact Hw'|done]. }
        { change (rules (Node p 32 0 (Node sp sn sr s0 s1) Null)) with (map (app (node_bits p 32)) (rules (Node sp sn sr s0 s1) ++ [])).
          rewrite app_nil_r. exact Hrl. }
        { intros ? ? ? ? ? [= <- <- _ _ _] _. rewrite Hb. done. }
Qed.

Lemma trie_branch_create_spec v ofs plen : (0 < plen)%nat -> (ofs + plen <= 32 * length v)%nat ->
  exists t, trie_branch_create v (Z.of_nat ofs) (Z.of_nat plen) 1 = Ok t /\ trie_wf (Some (vbit v ofs)) t /\
    rules t = [vbits v ofs plen] /\ t <> Null.
Proof.
  intros Hp Hl. unfold trie_branch_create. rewrite Nat2Z.id.
  destruct (branch_create_spec v 1 ltac:(unfold in_u32; lia) ltac:(lia) plen ofs plen ltac:(lia) Hl)
    as (t & E & Hw & Hr & Hn & Hh). exists t. split; [done|]. split; [|done].
  destruct t as [|p nb nr e0 e1]; [done|]. destruct Hw as (? & ? & _ & ?). split; [done|]. split; [done|].
  split; [|done]. intros b [= <-]. apply (Hh _ _ _ _ _ eq_refl Hp).
Qed.

(** The new node above a mismatch. *)
Lemma trie_branch_create_parent v ofs plen nr : (plen < 32)%nat -> (ofs + plen <= 32 * length v)%nat ->
  exists p, trie_branch_create v (Z.of_nat ofs) (Z.of_nat plen) nr = Ok (Node p (Z.of_nat plen) nr Null Null) /\
    node_ok p (Z.of_nat plen) /\ node_bits p (Z.of_nat plen) = vbits v ofs plen.
Proof.
  intros Hp Hl. unfold trie_branch_create.
  destruct (trie_get_prefix_spec v ofs plen Hl) as (p & E & Hok & Hb). rewrite Nat.min_l in * by lia.
  exists p. split; [|done]. destruct (Z.to_nat (Z.of_nat plen)); cbn [branch_create]; rewrite E; cbn [rbind];
    unfold TRIE_PREFIX_BITS; rewrite (proj2 (Z.leb_le _ _)) by lia; done.
Qed.

Lemma lcp_head a b x : head a = Some x -> head b = Some x -> (0 < lcp a b)%nat.
Proof. destruct a, b; cbn; try done. intros [= ->] [= ->]. rewrite bool_decide_true by done. lia. Qed.

Lemma head_vbits v ofs n : (0 < n)%nat -> head (vbits v ofs n) = Some (vbit v ofs).
Proof. destruct n; [lia|done]. Qed.

Lemma head_take {A} (l : list A) k : (0 < k)%nat -> head (take k l) = head l.
Proof. destruct l, k; try done. lia. Qed.

Lemma bool_other (a b : bool) : a <> b -> 1 - Z.b2z b = Z.b2z a.
Proof. destruct a, b; done. Qed.

(** A node whose prefix was cut in front. *)
Lemma wf_cut first p nb nr e0 e1 k x B' : trie_wf first (Node p nb nr e0 e1) -> drop k (node_bits p nb) = x :: B' ->
  let t := Node (u32 (Z.shiftl p (Z.of_nat k))) (u8 (nb - Z.of_nat k)) nr e0 e1 in
  trie_wf (Some x) t /\ map (app (take k (node_bits p nb))) (rules t) = rules (Node p nb nr e0 e1) /\
  get_bit_at p (Z.of_nat k) = Z.b2z x.
Proof.
  intros (Hok & Hr & _ & Hl & H0 & H1) E t.
  assert (k < Z.to_nat nb)%nat as Hk.
  { destruct (decide (k < Z.to_nat nb)%nat); [done|]. rewrite drop_ge in E; [done|]. rewrite length_node_bits. lia. }
  destruct (node_shift p nb k Hok Hk) as [Hok' Hb]. split; [|split].
  - split; [exact Hok'|]. split; [done|]. split; [|done]. intros b [= <-]. rewrite Hb, E. done.
  - apply rules_cut with (b := drop k (node_bits p nb)); [symmetry; apply take_drop | exact Hb].
  - pose proof (no_bits _ _ Hok). rewrite get_bit_at_spec by lia. f_equal.
    rewrite <- (nth_node_bits p nb k Hk). rewrite <- (take_drop k (node_bits p nb)), E.
    rewrite app_nth2 by (rewrite length_take; lia).
    rewrite length_take, length_node_bits, Nat.min_l, Nat.sub_diag by lia. done.
Qed.

Lemma insert_loop_spec v mlen : (mlen <= 32 * length v)%nat -> Z.of_nat mlen < 2 ^ 31 ->
  forall t first ofs, trie_wf first t -> (ofs < mlen)%nat -> (forall b, first = Some b -> vbit v ofs = b) ->
  Z.of_nat (length (rules t)) + 1 < 2 ^ 32 ->
  exists t', insert_loop t v (Z.of_nat mlen) (Z.of_nat ofs) = Ok t' /\ trie_wf first t' /\ t' <> Null /\
    rules t' ≡ₚ vbits v ofs (mlen - ofs) :: rules t.
Proof.
  intros Hm Hmb. induction t as [|p nb nr e0 IH0 e1 IH1]; intros first ofs Hwf Ho Hf Hn; cbn [insert_loop].
  { rewrite <- Nat2Z.inj_sub by lia.
    destruct (trie_branch_create_spec v ofs (mlen - ofs)) as (t & -> & Hw & Ert & Ht); [lia | lia |].
    exists t. split; [done|]. split; [|split; [done|rewrite Ert; done]]. destruct first as [b|]; [rewrite <- (Hf b eq_refl); done|].
    apply trie_wf_weaken with (1 := Hw). }
  pose proof Hwf as (Hok & Hr & Hfirst & Hl & H0 & H1). pose proof (no_bits _ _ Hok) as Hnb.
  rewrite trie_prefix_equal_bits_spec by (done || lia). cbn [rbind]. cbv zeta.
  set (B := node_bits p nb). set (X := vbits v ofs (mlen - ofs)). set (eq := lcp B X).
  assert (length B = Z.to_nat nb) as LB by apply length_node_bits.
  assert (length X = (mlen - ofs)%nat) as LX by apply length_vbits.
  pose proof (lcp_le B X) as [Le1 Le2]. fold eq in Le1, Le2. pose proof (lcp_take B X) as Htk. fold eq in Htk.
  assert (head X = Some (vbit v ofs)) as HX by (apply head_vbits; lia).
  destruct (Z.ltb_spec (Z.of_nat eq) nb) as [Hlt|Hge].
  - destruct (drop eq B) as [|x B'] eqn:EB.
    { apply (f_equal length) in EB. rewrite length_drop in EB. cbn in EB. lia. }
    destruct (wf_cut first p nb nr e0 e1 eq x B' Hwf EB) as (Hw & Hrl & ->).
    set (old := Node (u32 _) _ nr e0 e1) in *. fold B in Hrl.
    destruct (trie_branch_create_parent v ofs eq (if Z.of_nat ofs + Z.of_nat eq =? Z.of_nat mlen then 1 else 0))
      as (q & Eq & Hqok & Hqb); [lia | lia |].
    replace (Z.of_nat ofs + Z.of_nat eq - Z.of_nat eq) with (Z.of_nat ofs) by lia. rewrite Eq. cbn [rbind].
    assert (node_bits q (Z.of_nat eq) = take eq B) as Hqb'.
    { rewrite Hqb, Htk. unfold X. rewrite vbits_take by lia. done. }
    assert (forall b, first = Some b -> head (node_bits q (Z.of_nat eq)) = Some b) as Hqf.
    { intros b Eb. rewrite Hqb', head_take; [apply Hfirst, Eb|]. apply (lcp_head B X b); [apply Hfirst, Eb|].
      rewrite HX, (Hf b Eb). done. }
    assert (length (rules old) = length (rules (Node p nb nr e0 e1))) as Lold by (rewrite <- Hrl, length_map; done).
    destruct (Z.eqb_spec (Z.of_nat ofs + Z.of_nat eq) (Z.of_nat mlen)) as [Em|Em].
    + rewrite (proj2 (Z.ltb_ge _ _)) by lia. eexists. split; [done|].
      assert (take eq B = X) as EX by (rewrite Htk; apply take_ge; lia).
      destruct x; cbn [Z.b2z set_edge Z.eqb]; (split; [|split; [done|]]);
        try (split; [exact Hqok|]; split; [unfold in_u32; lia|]; split; [exact Hqf|]; split; [left; lia|]; done);
        cbn [rules]; fold (rules old); rewrite Hqb'; change (Z.to_nat 1) with 1%nat; cbn [replicate app];
        rewrite ?app_nil_r, Hrl, EX; done.
    + rewrite (proj2 (Z.ltb_lt _ _)) by lia.
      destruct (drop eq X) as [|y X'] eqn:EX.
      { apply (f_equal length) in EX. rewrite length_drop in EX. cbn in EX. lia. }
      pose proof (lcp_drop _ _ _ _ _ _ EB EX) as Hne.
      assert (vbits v (ofs + eq) (mlen - ofs - eq) = y :: X') as EX2 by (rewrite <- EX; unfold X; rewrite vbits_drop by lia; done).
      assert (vbit v (ofs + eq) = y) as Ey.
      { pose proof (head_vbits v (ofs + eq) (mlen - ofs - eq) ltac:(lia)) as Hh. rewrite EX2 in Hh. cbn in Hh. congruence. }
      destruct (trie_branch_create_spec v (ofs + eq) (mlen - ofs - eq)) as (br & Ebr & Hbw & Hbr & Hbn); [lia | lia |].
      replace (Z.of_nat ofs + Z.of_nat eq) with (Z.of_nat (ofs + eq)) by lia.
      replace (Z.of_nat mlen - Z.of_nat (ofs + eq)) with (Z.of_nat (mlen - ofs - eq)) by lia.
      rewrite Ebr. cbn [rbind]. rewrite Ey in Hbw. rewrite EX2 in Hbr.
      assert (take eq B ++ y :: X' = X) as EXX by (rewrite Htk, <- EX; apply take_drop).
      eexists. split; [done|]. rewrite (bool_other y x) by done.
      destruct x, y; try done; cbn [Z.b2z set_edge Z.eqb]; (split; [|split; [done|]]);
        try (split; [exact Hqok|]; split; [unfold in_u32; lia|]; split; [exact Hqf|]; split; [by right; left|]; done);
        cbn [rules]; fold (rules old); rewrite Hqb'; change (Z.to_nat 0) with 0%nat; cbn [replicate app];
        rewrite map_app, Hrl, Hbr; cbn [map]; rewrite EXX; [done | symmetry; apply Permutation_cons_append].
  - assert (eq = length B) as Eeq by lia. pose proof (lcp_full B X Eeq) as EX. rewrite <- Eeq in EX.
    destruct (Z.eqb_spec (Z.of_nat ofs + Z.of_nat eq) (Z.of_nat mlen)) as [Em|Em].
    + eexists. split; [done|].
      assert (X = B) as EXB by (rewrite EX, drop_ge, app_nil_r by lia; done).
      cbn [rules] in Hn. rewrite length_app, length_replicate in Hn.
      assert (u32 (nr + 1) = nr + 1) as -> by (apply u32_id; unfold in_u32 in *; lia).
      split; [|split; [done|]].
      * split; [done|]. split; [unfold in_u32 in *; lia|]. split; [done|]. split; [left; unfold in_u32 in *; lia|]. done.
      * cbn [rules]. fold B. rewrite EXB, Z2Nat.inj_add by (unfold in_u32 in *; lia).
        rewrite Nat.add_1_r. cbn [replicate]. done.
    + replace (Z.of_nat ofs + Z.of_nat eq) with (Z.of_nat (ofs + eq)) by lia.
      rewrite be_get_bit_at_spec by lia. cbn [rbind].
      assert (X = B ++ vbits v (ofs + eq) (mlen - (ofs + eq))) as EX2.
      { rewrite EX at 1. f_equal. unfold X. rewrite vbits_drop by lia. f_equal. lia. }
      cbn [rules] in Hn. rewrite length_app, length_map, length_app in Hn.
      destruct (vbit v (ofs + eq)) eqn:Eb; cbn [Z.b2z Z.eqb].
      * destruct (IH1 (Some true) (ofs + eq)%nat H1) as (e' & -> & Hw & Hne & Hp); [lia | congruence | lia |]. cbn [rbind].
        eexists. split; [done|]. split; [|split; [done|]].
        { split; [done|]. split; [done|]. split; [done|]. split; [by right; right|]. done. }
        { cbn [rules]. fold B. rewrite Hp, EX2. rewrite !map_app. cbn [map]. solve_Permutation. }
      * destruct (IH0 (Some false) (ofs + eq)%nat H0) as (e' & -> & Hw & Hne & Hp); [lia | congruence | lia |]. cbn [rbind].
        eexists. split; [done|]. split; [|split; [done|]].
        { split; [done|]. split; [done|]. split; [done|]. split; [by right; left|]. done. }
        { cbn [rules]. fold B. rewrite Hp, EX2. rewrite !map_app. cbn [map]. solve_Permutation. }
Qed.

(** ** Removal *)

Lemma rules_member first p nb nr e0 e1 X : trie_wf first (Node p nb nr e0 e1) ->
  X ∈ rules (Node p nb nr e0 e1) <-> (X = node_bits p nb /\ nr <> 0) \/
    exists b Y, X = node_bits p nb ++ b :: Y /\ b :: Y ∈ rules (if b : bool then e1 else e0).
Proof.
  intros (_ & Hr & _ & _ & H0 & H1). cbn [rules]. rewrite elem_of_app, elem_of_replicate, list_elem_of_fmap.
  unfold in_u32 in Hr. split.
  - intros [[-> Hn]|(Y & -> & HY)]; [left; split; [done|lia]|]. right. apply elem_of_app in HY as [HY|HY].
    + pose proof (rules_first _ _ _ H0 HY) as Hh. destruct Y as [|b Y]; [done|]. injection Hh as ->. exists false, Y. done.
    + pose proof (rules_first _ _ _ H1 HY) as Hh. destruct Y as [|b Y]; [done|]. injection Hh as ->. exists true, Y. done.
  - intros [[-> Hn]|(b & Y & -> & HY)]; [left; split; [done|lia]|]. right. exists (b :: Y). split; [done|].
    apply elem_of_app. destruct b; [right|left]; done.
Qed.

Lemma prune_spec first p nb nr e0 e1 t' again : node_ok p nb -> in_u32 nr ->
  (forall b, first = Some b -> head (node_bits p nb) = Some b) -> trie_wf (Some false) e0 -> trie_wf (Some true) e1 ->
  prune (Node p nb nr e0 e1) = (t', again) ->
  trie_wf first t' /\ rules t' = rules (Node p nb nr e0 e1) /\ (t' = Null <-> again = true).
Proof.
  intros Hok Hr Hf H0 H1. cbn [prune].
  assert (nr <> 0 \/ e0 <> Null \/ e1 <> Null -> trie_wf first (Node p nb nr e0 e1)) as Hkeep.
  { intros Hl. cbn. done. }
  assert (forall q qb qr f0 f1, nr = 0 -> nb + qb <= 32 -> trie_wf (Some false) (Node q qb qr f0 f1) \/ trie_wf (Some true) (Node q qb qr f0 f1) ->
    let t := Node (Z.lor p (Z.shiftr q nb)) (u8 (qb + nb)) qr f0 f1 in
    trie_wf first t /\ rules t = map (app (node_bits p nb)) (rules (Node q qb qr f0 f1))) as Hjoin.
  { intros q qb qr f0 f1 _ Hs Hw. assert (trie_wf None (Node q qb qr f0 f1)) as (Hq & Hqr & _ & Hql & Hw0 & Hw1)
      by (destruct Hw as [Hw|Hw]; apply trie_wf_weaken with (1 := Hw)).
    destruct (node_join p nb q qb Hok Hq Hs) as [Hok' Hb]. split.
    - split; [exact Hok'|]. split; [done|]. split; [|done]. intros b Eb. rewrite Hb. apply head_app, Hf, Eb.
    - symmetry. apply rules_cut with (b := node_bits q qb); [exact Hb | done]. }
  destruct e0 as [|q qb qr f0 f1].
  - destruct (Z.eqb_spec nr 0) as [En|En]; cbn [negb].
    + destruct e1 as [|q qb qr f0 f1]; [intros [= <- <-]; subst nr; done|]. unfold TRIE_PREFIX_BITS.
      destruct (Z.ltb_spec 32 (nb + qb)) as [Hb|Hb]; intros [= <- <-].
      * split; [apply Hkeep; by right; right|]. done.
      * destruct (Hjoin q qb qr f0 f1 En Hb (or_intror H1)) as [Hw Hrl]. split; [exact Hw|]. split; [|done].
        rewrite Hrl, En. done.
    + destruct e1; intros [= <- <-]; (split; [apply Hkeep; by left|]; done).
  - destruct e1 as [|r rb rr g0 g1]; [|intros [= <- <-]; split; [apply Hkeep; by right; left|]; done].
    destruct (Z.eqb_spec nr 0) as [En|En]; cbn [negb]; [|intros [= <- <-]; split; [apply Hkeep; by left|]; done].
    unfold TRIE_PREFIX_BITS. destruct (Z.ltb_spec 32 (nb + qb)) as [Hb|Hb]; intros [= <- <-].
    + split; [apply Hkeep; by right; left|]. done.
    + destruct (Hjoin q qb qr f0 f1 En Hb (or_introl H0)) as [Hw Hrl]. split; [exact Hw|]. split; [|done].
      rewrite Hrl, En. change (rules (Node p nb 0 (Node q qb qr f0 f1) Null)) with
        (map (app (node_bits p nb)) (rules (Node q qb qr f0 f1) ++ [])). rewrite app_nil_r. done.
Qed.

(** What [remove_loop] does to the tree at an edge. *)
Definition removed (first : option bool) (t : trie_node) (X : list bool) (r : Res (option (trie_node * bool))) : Prop :=
  match r with
  | Ok (Some (t', again)) => trie_wf first t' /\ X :: rules t' ≡ₚ rules t /\ (t' = Null <-> again = true)
  | Ok None => X ∉ rules t
  | Fault _ => False
  end.

(** On the way back up. *)
Lemma removed_child first p nb nr e0 e1 b X r : trie_wf first (Node p nb nr e0 e1) -> head X = Some b ->
  removed (Some b) (if b then e1 else e0) X r ->
  removed first (Node p nb nr e0 e1) (node_bits p nb ++ X)
    (let* r := r in
     match r with
     | None => Ok None
     | Some (e, again) =>
         let node := if b then Node p nb nr e0 e else Node p nb nr e e1 in
         Ok (Some (if again then prune node else (node, false)))
     end).
Proof.
  intros Hwf HX H. pose proof Hwf as (Hok & Hr & Hf & Hl & H0 & H1).
  destruct r as [[[e again]|]|]; cbn [rbind removed] in *; [|intros HXin|done].
  - destruct H as (Hw & Hp & Ha). cbv zeta.
    set (node := if b then Node p nb nr e0 e else Node p nb nr e e1).
    assert ((node_bits p nb ++ X) :: rules node ≡ₚ rules (Node p nb nr e0 e1)) as HP.
    { unfold node. destruct b; cbn [rules]; rewrite <- Hp, !map_app; cbn [map]; solve_Permutation. }
    destruct again.
    + destruct (prune node) as [t' ag] eqn:Ep.
      assert (trie_wf first t' /\ rules t' = rules node /\ (t' = Null <-> ag = true)) as (Hw' & Hrl & Hag).
      { unfold node in *. destruct b; (eapply prune_spec; [..|exact Ep]); done. }
      split; [done|]. split; [rewrite Hrl; done|done].
    + split; [|split; [done|]].
      * assert (e <> Null) as He by (intros ->; destruct Ha as [Ha _]; specialize (Ha eq_refl); done).
        unfold node. destruct b; (split; [done|]; split; [done|]; split; [done|]; split; [by right; auto|]; done).
      * unfold node. destruct b; done.
  - apply (rules_member _ _ _ _ _ _ _ Hwf) in HXin. destruct X as [|x X]; [done|]. injection HX as ->.
    destruct HXin as [[E _]|(c & Y & E & HY)].
    + apply (f_equal length) in E. rewrite length_app in E. cbn in E. lia.
    + apply app_inv_head in E. injection E as <- <-. done.
Qed.

(** The array has room for the path: every node but a root without bits takes
    at least one bit. *)
Lemma remove_loop_spec v mlen : (mlen <= 32 * length v)%nat -> Z.of_nat mlen < 2 ^ 31 ->
  forall t first ofs depth c, trie_wf first t -> (ofs < mlen)%nat ->
  (depth + (mlen - ofs) + c <= MAX_EDGES)%nat ->
  (c = 0%nat -> forall p nb nr e0 e1, t = Node p nb nr e0 e1 -> 0 < nb) ->
  removed first t (vbits v ofs (mlen - ofs)) (remove_loop t v (Z.of_nat mlen) depth (Z.of_nat ofs)).
Proof.
  intros Hm Hmb. induction t as [|p nb nr e0 IH0 e1 IH1]; intros first ofs depth c Hwf Ho Hd Hc; cbn [remove_loop];
    rewrite decide_True by lia.
  { cbn. set_solver. }
  pose proof Hwf as (Hok & Hr & Hfirst & Hl & H0 & H1). pose proof (no_bits _ _ Hok) as Hnb.
  rewrite trie_prefix_equal_bits_spec by (done || lia). cbn [rbind]. cbv zeta.
  set (B := node_bits p nb). set (X := vbits v ofs (mlen - ofs)). set (eq := lcp B X).
  assert (length B = Z.to_nat nb) as LB by apply length_node_bits.
  assert (length X = (mlen - ofs)%nat) as LX by apply length_vbits.
  pose proof (lcp_le B X) as [Le1 Le2]. fold eq in Le1, Le2.
  destruct (Z.ltb_spec (Z.of_nat eq) nb) as [Hlt|Hge].
  - cbn. intros HX. apply (rules_member _ _ _ _ _ _ _ Hwf) in HX. fold B in HX. unfold eq in Hlt.
    assert (exists Y, X = B ++ Y) as (Y & E) by (destruct HX as [[E _]|(b & Y & E & _)]; [exists []; rewrite app_nil_r; done | eauto]).
    rewrite E in Hlt. rewrite <- (app_nil_r B) in Hlt at 1. rewrite lcp_app in Hlt. cbn in Hlt. lia.
  - assert (eq = length B) as Eeq by lia. pose proof (lcp_full B X Eeq) as EX. rewrite <- Eeq in EX.
    destruct (Z.eqb_spec (Z.of_nat ofs + Z.of_nat eq) (Z.of_nat mlen)) as [Em|Em].
    + assert (X = B) as EXB by (rewrite EX, drop_ge, app_nil_r by lia; done). rewrite EXB.
      destruct (Z.eqb_spec nr 0) as [En|En].
      * cbn. intros HX. apply (rules_member _ _ _ _ _ _ _ Hwf) in HX as [[_ ?]|(b & Y & E & _)]; [done|].
        apply (f_equal length) in E. rewrite length_app in E. cbn in E. fold B in E. lia.
      * destruct (prune _) as [t' again] eqn:Ep. unfold in_u32 in Hr.
        assert (u32 (nr - 1) = nr - 1) as Eu by (apply u32_id; unfold in_u32; lia). rewrite Eu in Ep.
        destruct (prune_spec first p nb (nr - 1) e0 e1 t' again) as (Hw & Hrl & Ha); try done; [unfold in_u32; lia|].
        cbn. split; [done|]. split; [|done]. rewrite Hrl. cbn [rules]. fold B.
        replace (Z.to_nat nr) with (S (Z.to_nat (nr - 1))) by lia. done.
    + replace (Z.of_nat ofs + Z.of_nat eq) with (Z.of_nat (ofs + eq)) by lia.
      rewrite be_get_bit_at_spec by lia. cbn [rbind].
      assert (X = B ++ vbits v (ofs + eq) (mlen - (ofs + eq))) as EX2.
      { rewrite EX at 1. f_equal. unfold X. rewrite vbits_drop by lia. f_equal. lia. }
      assert (eq = 0%nat -> c <> 0%nat) as Hce by (intros E0 Ec; specialize (Hc Ec _ _ _ _ _ eq_refl); lia).
      assert (forall b e, trie_wf (Some b) e -> forall q qb qr f0 f1, e = Node q qb qr f0 f1 -> 0 < qb) as Hpos.
      { intros b e He q qb qr f0 f1 ->. destruct He as (Hq & _ & Hh & _). specialize (Hh b eq_refl).
        pose proof (no_bits _ _ Hq). destruct (Z.eq_dec qb 0) as [->|]; [done | lia]. }
      rewrite EX2. pose proof (head_vbits v (ofs + eq) (mlen - (ofs + eq)) ltac:(lia)) as Hh.
      destruct (vbit v (ofs + eq)) eqn:Eb; cbn [Z.b2z Z.eqb].
      * apply (removed_child first p nb nr e0 e1 true); [done | done |].
        apply (IH1 (Some true) (ofs + eq)%nat (S depth) 0%nat H1); [lia | lia |]. intros _. apply (Hpos _ _ H1).
      * apply (removed_child first p nb nr e0 e1 false); [done | done |].
        apply (IH0 (Some false) (ofs + eq)%nat (S depth) 0%nat H0); [lia | lia |]. intros _. apply (Hpos _ _ H0).
Qed.

(** ** Lookup *)

(** The string of bits [q] is in the address from bit [ofs] on. *)
Definition matches (v : list Z) (ofs : nat) (q : list bool) : Prop := q = vbits v ofs (length q).

(** [m] is the end of the longest of the strings that match, or [ml]. *)
Definition longest (R : list (list bool)) (v : list Z) (ofs : nat) (ml m : Z) : Prop :=
  (exists p, p ∈ R /\ matches v ofs p /\ m = Z.of_nat (ofs + length p) /\
     forall q, q ∈ R -> matches v ofs q -> (length q <= length p)%nat) \/
  ((forall q, q ∈ R -> ~ matches v ofs q) /\ m = ml).

Lemma matches_app v ofs a b : matches v ofs (a ++ b) <-> matches v ofs a /\ matches v (ofs + length a) b.
Proof.
  unfold matches. rewrite length_app, vbits_app. split.
  - intros E. apply app_inj_1 in E; [done | rewrite length_vbits; done].
  - intros [<- <-]. done.
Qed.

Lemma lcp_agree a x x' : (lcp a x < length a)%nat -> (lcp a x < length x)%nat ->
  take (S (lcp a x)) x = take (S (lcp a x)) x' -> lcp a x' = lcp a x.
Proof.
  revert x x'. induction a as [|u a IH]; intros [|y x] [|y' x']; cbn; try done; try lia.
  case_bool_decide; cbn; intros Ha Hx E.
  - injection E as <- E. rewrite bool_decide_true by done. f_equal. apply IH; [lia | lia |]. exact E.
  - injection E as <-. rewrite bool_decide_false by done. done.
Qed.

Lemma vbits_agree v v' ofs n c : (forall i, (i < c)%nat -> vbit v' i = vbit v i) -> (ofs + n <= c)%nat ->
  vbits v' ofs n = vbits v ofs n.
Proof. intros H Hc. unfold vbits. apply map_ext_in. intros i Hi%in_seq. apply H. lia. Qed.

(** A node that matches passes the search on to the edge of the next bit. *)
Lemma longest_node first p nb nr e0 e1 v ofs ml m : trie_wf first (Node p nb nr e0 e1) ->
  matches v ofs (node_bits p nb) ->
  let ofs' := (ofs + Z.to_nat nb)%nat in
  longest (rules (if vbit v ofs' then e1 else e0)) v ofs' (if 0 <? nr then Z.of_nat ofs' else ml) m ->
  longest (rules (Node p nb nr e0 e1)) v ofs ml m.
Proof.
  intros Hwf HB ofs' H. pose proof Hwf as (Hok & Hr & _ & _ & H0 & H1).
  assert (forall q, q ∈ rules (Node p nb nr e0 e1) -> matches v ofs q ->
    (q = node_bits p nb /\ nr <> 0) \/ exists Y, q = node_bits p nb ++ Y /\ Y ∈ rules (if vbit v ofs' then e1 else e0) /\ matches v ofs' Y) as Hin.
  { intros q Hq Hm. apply (rules_member _ _ _ _ _ _ _ Hwf) in Hq as [?|(b & Y & -> & HY)]; [by left|right].
    exists (b :: Y). split; [done|]. apply matches_app in Hm as [_ Hm]. rewrite length_node_bits in Hm. fold ofs' in Hm.
    assert (vbit v ofs' = b) as -> by (unfold matches in Hm; cbn in Hm; congruence). done. }
  assert (forall Y, Y ∈ rules (if vbit v ofs' then e1 else e0) -> node_bits p nb ++ Y ∈ rules (Node p nb nr e0 e1)) as Hout.
  { intros Y HY. apply (rules_member _ _ _ _ _ _ _ Hwf). right. exists (vbit v ofs').
    assert (head Y = Some (vbit v ofs')) as Hh by (destruct (vbit v ofs'); eapply rules_first; eassumption).
    destruct Y as [|y Y]; [done|]. injection Hh as ->. eauto. }
  destruct H as [(q & Hq & Hm & -> & Hmax)|[Hno ->]].
  - left. exists (node_bits p nb ++ q). split; [apply Hout, Hq|]. split.
    { apply matches_app. rewrite length_node_bits. done. }
    split; [rewrite length_app, length_node_bits; unfold ofs'; lia|].
    intros q' Hq' Hm'. rewrite length_app. destruct (Hin q' Hq' Hm') as [[-> _]|(Y & -> & HY & HmY)]; [lia|].
    rewrite length_app. pose proof (Hmax Y HY HmY). lia.
  - unfold in_u32 in Hr. destruct (Z.ltb_spec 0 nr) as [Hn|Hn].
    + left. exists (node_bits p nb). split; [apply (rules_member _ _ _ _ _ _ _ Hwf); left; split; [done|lia]|].
      split; [done|]. split; [rewrite length_node_bits; done|]. intros q' Hq' Hm'.
      destruct (Hin q' Hq' Hm') as [[-> _]|(Y & -> & HY & HmY)]; [lia | destruct (Hno Y HY HmY)].
    + right. split; [|done]. intros q' Hq' Hm'.
      destruct (Hin q' Hq' Hm') as [[_ ?]|(Y & -> & HY & HmY)]; [lia | destruct (Hno Y HY HmY)].
Qed.

Lemma rules_nonempty first t : trie_wf first t -> t <> Null -> exists q, q ∈ rules t.
Proof.
  intros Hw Hn. destruct (rules t) as [|q l] eqn:E; [destruct Hn; eapply rules_null; eassumption|].
  exists q. apply list_elem_of_here.
Qed.

(** Every rule below a node has the bits of the node. *)
Lemma rules_prefix first p nb nr e0 e1 q : trie_wf first (Node p nb nr e0 e1) -> q ∈ rules (Node p nb nr e0 e1) ->
  exists Y, q = node_bits p nb ++ Y.
Proof.
  intros Hwf Hq. apply (rules_member _ _ _ _ _ _ _ Hwf) in Hq as [[-> _]|(b & Y & -> & _)]; [exists []|eauto].
  rewrite app_nil_r. done.
Qed.

Definition fits (R : list (list bool)) (v : list Z) (ofs : nat) : Prop :=
  forall q, q ∈ R -> (ofs + length q < 32 * length v)%nat.

Lemma fits_node first p nb nr e0 e1 v ofs : trie_wf first (Node p nb nr e0 e1) -> fits (rules (Node p nb nr e0 e1)) v ofs ->
  (ofs + Z.to_nat nb < 32 * length v)%nat /\
  forall b : bool, fits (rules (if b then e1 else e0)) v (ofs + Z.to_nat nb).
Proof.
  intros Hwf Hf. split.
  - destruct (rules_nonempty _ _ Hwf ltac:(done)) as (q & Hq).
    destruct (rules_prefix _ _ _ _ _ _ _ Hwf Hq) as (Y & ->). specialize (Hf _ Hq). rewrite length_app, length_node_bits in Hf. lia.
  - pose proof Hwf as (_ & _ & _ & _ & H0 & H1). intros b Y HY.
    assert (node_bits p nb ++ Y ∈ rules (Node p nb nr e0 e1)) as Hq.
    { apply (rules_member _ _ _ _ _ _ _ Hwf). right. exists b.
      assert (head Y = Some b) as Hh by (destruct b; eapply rules_first; eassumption).
      destruct Y as [|y Y]; [done|]. injection Hh as ->. eauto. }
    specialize (Hf _ Hq). rewrite length_app, length_node_bits in Hf. lia.
Qed.

Lemma lookup_loop_spec t : forall first v pl ofs ml, trie_wf first t -> fits (rules t) v ofs ->
  exists m c, lookup_loop t v pl (Z.of_nat ofs) ml = Ok (m, Z.of_nat c) /\ longest (rules t) v ofs ml m /\
    (pl = false -> first <> None -> (ofs < c)%nat) /\ (ofs <= c)%nat /\
    forall v', length v' = length v -> (forall i, (i < c)%nat -> vbit v' i = vbit v i) ->
      lookup_loop t v' pl (Z.of_nat ofs) ml = Ok (m, Z.of_nat c).
Proof.
  induction t as [|p nb nr e0 IH0 e1 IH1]; intros first v pl ofs ml Hwf Hfit; cbn [lookup_loop].
  { exists ml, (ofs + (if pl then 0 else 1))%nat. split; [destruct pl; do 2 f_equal; lia|].
    split; [right; split; [intros q Hq; cbn in Hq; set_solver | done]|]. split; [intros -> _; lia|]. split; [lia|].
    intros v' _ _. destruct pl; do 2 f_equal; lia. }
  pose proof Hwf as (Hok & Hr & Hfirst & Hl & H0 & H1). pose proof (no_bits _ _ Hok) as Hnb.
  destruct (fits_node _ _ _ _ _ _ _ _ Hwf Hfit) as [Hlen Hfits].
  assert (forall v', length v' = length v -> prefix_equal_bits p nb v' (Z.of_nat ofs) =
    Ok (Z.of_nat (lcp (node_bits p nb) (vbits v' ofs (Z.to_nat nb))))) as Hpeb.
  { intros v' Hv'. pose proof (prefix_equal_bits_spec p (Z.to_nat nb) v' ofs (no_u32 _ _ Hok)) as Hs.
    rewrite Z2Nat.id in Hs by lia. apply Hs; lia. }
  rewrite Hpeb by done. cbn [rbind]. cbv zeta.
  set (B := node_bits p nb) in *. set (X := vbits v ofs (Z.to_nat nb)). set (eq := lcp B X).
  assert (length B = Z.to_nat nb) as LB by apply length_node_bits.
  assert (length X = Z.to_nat nb) as LX by apply length_vbits.
  pose proof (lcp_le B X) as [Le1 Le2]. fold eq in Le1, Le2.
  destruct (Z.ltb_spec (Z.of_nat eq) nb) as [Hlt|Hge].
  - exists ml, (ofs + eq + 1)%nat. split; [do 2 f_equal; lia|]. split; [|split; [lia|split; [lia|]]].
    + right. split; [|done]. intros q Hq Hm. destruct (rules_prefix _ _ _ _ _ _ _ Hwf Hq) as (Y & ->).
      apply matches_app in Hm as [Hm _]. unfold matches in Hm. rewrite length_node_bits in Hm. fold B X in Hm.
      unfold eq in Hlt. rewrite <- Hm in Hlt. pose proof (lcp_app B [] []) as Happ. rewrite app_nil_r in Happ. cbn in Happ. lia.
    + intros v' Hv' Hag. rewrite Hpeb by done. cbn [rbind].
      assert (lcp B (vbits v' ofs (Z.to_nat nb)) = eq) as ->.
      { apply lcp_agree; fold eq; [lia | lia |]. fold eq. unfold X. rewrite !vbits_take by lia. symmetry.
        apply (vbits_agree v v' ofs (S eq) _ Hag). lia. }
      rewrite (proj2 (Z.ltb_lt _ _)) by lia. do 2 f_equal. lia.
  - assert (eq = length B) as Eeq by lia.
    assert (X = B) as EX by (pose proof (lcp_full B X Eeq) as EX; rewrite drop_ge, app_nil_r in EX by lia; done).
    assert (matches v ofs B) as HB by (unfold matches; rewrite LB; fold X; done).
    replace (Z.of_nat ofs + Z.of_nat eq) with (Z.of_nat (ofs + Z.to_nat nb)) by lia.
    rewrite be_get_bit_at_spec by lia. cbn [rbind]. set (ofs' := (ofs + Z.to_nat nb)%nat) in *.
    set (ml' := if 0 <? nr then Z.of_nat ofs' else ml).
    assert (exists m c, lookup_loop (if vbit v ofs' then e1 else e0) v (trie_is_leaf e0 e1) (Z.of_nat ofs') ml' = Ok (m, Z.of_nat c) /\
      longest (rules (if vbit v ofs' then e1 else e0)) v ofs' ml' m /\
      (trie_is_leaf e0 e1 = false -> (ofs' < c)%nat) /\ (ofs' <= c)%nat /\
      forall v', length v' = length v -> (forall i, (i < c)%nat -> vbit v' i = vbit v i) ->
        lookup_loop (if vbit v ofs' then e1 else e0) v' (trie_is_leaf e0 e1) (Z.of_nat ofs') ml' = Ok (m, Z.of_nat c))
      as (m & c & E & Hlong & Hc & Hc2 & Hag).
    { specialize (Hfits (vbit v ofs')).
      destruct (vbit v ofs'); [destruct (IH1 (Some true) v (trie_is_leaf e0 e1) ofs' ml' H1 Hfits) as (m & c & E1 & E2 & E3 & E4 & E5)
        | destruct (IH0 (Some false) v (trie_is_leaf e0 e1) ofs' ml' H0 Hfits) as (m & c & E1 & E2 & E3 & E4 & E5)];
        exists m, c; (split; [exact E1|]; split; [exact E2|]; split; [intros E; apply E3; done|]; done). }
    exists m, c. split; [destruct (vbit v ofs'); exact E|].
    split; [eapply longest_node; eassumption|]. split; [intros _ Hn; destruct first as [b|]; [|done]; specialize (Hfirst b eq_refl); fold B in Hfirst; destruct B; [done | cbn in LB; lia]|]. split; [lia|].
    intros v' Hv' Hvv. rewrite Hpeb by done. cbn [rbind].
    assert (vbits v' ofs (Z.to_nat nb) = X) as -> by (apply (vbits_agree v v' ofs _ c Hvv); lia). fold eq.
    rewrite (proj2 (Z.ltb_ge _ _)) by lia.
    replace (Z.of_nat ofs + Z.of_nat eq) with (Z.of_nat ofs') by lia.
    rewrite be_get_bit_at_spec by (rewrite Hv'; lia). cbn [rbind]. specialize (Hag v' Hv' Hvv).
    destruct (decide (ofs' < c)%nat) as [Hlt|Hlt].
    + rewrite Hvv by done. destruct (vbit v ofs'); exact Hag.
    + destruct (trie_is_leaf e0 e1) eqn:El; [|specialize (Hc eq_refl); lia].
      destruct e0, e1; try done. destruct (vbit v ofs'), (vbit v' ofs'); exact Hag.
Qed.

(** The bits that decide a lookup are bits of the address. *)
Lemma lookup_loop_bound t : forall first v pl ofs ml m c, trie_wf first t -> fits (rules t) v ofs ->
  (ofs < 32 * length v)%nat -> lookup_loop t v pl (Z.of_nat ofs) ml = Ok (m, c) -> c <= Z.of_nat (32 * length v).
Proof.
  induction t as [|p nb nr e0 IH0 e1 IH1]; intros first v pl ofs ml m c Hwf Hfit Hofs; cbn [lookup_loop].
  { intros [= _ <-]. destruct pl; lia. }
  pose proof Hwf as (Hok & Hr & Hfirst & Hl & H0 & H1). pose proof (no_bits _ _ Hok) as Hnb.
  destruct (fits_node _ _ _ _ _ _ _ _ Hwf Hfit) as [Hlen Hfits].
  pose proof (prefix_equal_bits_spec p (Z.to_nat nb) v ofs (no_u32 _ _ Hok)) as Hs. rewrite Z2Nat.id in Hs by lia.
  rewrite Hs by lia. cbn [rbind]. cbv zeta.
  pose proof (lcp_le (node_bits p nb) (vbits v ofs (Z.to_nat nb))) as [Le _]. rewrite length_node_bits in Le.
  set (eq := lcp _ _) in *. destruct (Z.ltb_spec (Z.of_nat eq) nb) as [Hlt|Hge]; [intros [= _ <-]; lia|].
  replace (Z.of_nat ofs + Z.of_nat eq) with (Z.of_nat (ofs + Z.to_nat nb)) by lia.
  rewrite be_get_bit_at_spec by lia. cbn [rbind].
  destruct (_ =? 0); intros E; [eapply (IH0 (Some false)) | eapply (IH1 (Some true))]; try exact E; try done.
  - apply (Hfits false).
  - apply (Hfits true).
Qed.

(** A lookup from the root. *)
Lemma lookup_value_spec t v : trie_wf None t -> fits (rules t) v 0 ->
  exists m c, trie_lookup_value t v = Ok (Z.of_nat m, Z.of_nat c) /\ (c <= 32 * length v)%nat /\
    (m = 0%nat \/ exists p, p ∈ rules t /\ matches v 0 p /\ length p = m) /\
    (forall p, p ∈ rules t -> matches v 0 p -> (length p <= m)%nat) /\
    forall v', length v' = length v -> vbits v' 0 c = vbits v 0 c ->
      trie_lookup_value t v' = Ok (Z.of_nat m, Z.of_nat c).
Proof.
  intros Hw Hf. unfold trie_lookup_value. change 0 with (Z.of_nat 0).
  destruct (lookup_loop_spec t None v true 0%nat (Z.of_nat 0) Hw Hf) as (m & c & E & Hl & _ & _ & Ha).
  assert (exists n, m = Z.of_nat n /\ (n = 0%nat \/ exists p, p ∈ rules t /\ matches v 0 p /\ length p = n) /\
    forall p, p ∈ rules t -> matches v 0 p -> (length p <= n)%nat) as (n & -> & Hn & Hmax).
  { destruct Hl as [(p & Hp & Hm & -> & Hmax)|[Hno ->]].
    - exists (length p). split; [lia|]. split; [right; eauto|]. exact Hmax.
    - exists 0%nat. split; [done|]. split; [by left|]. intros q Hq Hmq. destruct (Hno q Hq Hmq). }
  exists n, c. split; [done|].
  split.
  { assert (t = Null \/ t <> Null) as [->|Ht] by (destruct t; [by left | by right]); [injection E as _ E; lia|].
    destruct (rules_nonempty None t Hw Ht) as [q Hq]. pose proof (Hf q Hq).
    pose proof (lookup_loop_bound _ _ _ _ 0 _ _ _ Hw Hf ltac:(lia) E). lia. }
  split; [done|]. split; [done|]. intros v' Hv' Hb. apply Ha; [done|].
  intros i Hi. change (vbit v' (0 + i) = vbit v (0 + i)). rewrite <- !(nth_vbits _ 0 c i Hi), Hb. done.
Qed.
