(* ===== verification/TrieProps.v ===== *)
(** * Prefix tries: the properties

    A trie behaves as the collection of the prefixes of the rules in it; a
    lookup finds the longest of them and how many bits of the address decide
    it; and the array of [trie_remove] is one element too short for the
    longest paths. *)

From Stdlib Require Import ZArith Lia List Bool.
From stdpp Require Import base option list_relations list sets.
From S2P Require Import Prelude Bytes Csum Bits Miniflow FlowCompose MiniflowFacts Trie TrieFacts.
#[local] Open Scope Z_scope.
#[local] Open Scope res_scope.

(** ** Collections of prefixes *)

Inductive trie_op :=
  | Insert (v : list Z) (mlen : nat)
  | Remove (v : list Z) (mlen : nat).

(** The program: the trie after an operation, and what was found missing. *)
Definition trie_apply (t : trie_node) (op : trie_op) : Res (trie_node * bool) :=
  match op with
  | Insert v mlen => rmap (fun t => (t, true)) (trie_insert_prefix t v (Z.of_nat mlen))
  | Remove v mlen => trie_remove_prefix t v (Z.of_nat mlen)
  end.

(** The specification: a list of bit strings. *)
Definition spec_apply (R : list (list bool)) (op : trie_op) : list (list bool) * bool :=
  match op with
  | Insert v mlen => (vbits v 0 mlen :: R, true)
  | Remove v mlen =>
      match list_find (eq (vbits v 0 mlen)) R with
      | Some (i, _) => (delete i R, true)
      | None => (R, false)
      end
  end.

Fixpoint trie_run (t : trie_node) (ops : list trie_op) : Res (trie_node * list bool) :=
  match ops with
  | [] => Ok (t, [])
  | op :: ops =>
      let* (t, found) := trie_apply t op in
      let* (t, l) := trie_run t ops in
      Ok (t, found :: l)
  end.

Fixpoint spec_run (R : list (list bool)) (ops : list trie_op) : list (list bool) * list bool :=
  match ops with
  | [] => (R, [])
  | op :: ops =>
      let '(R, found) := spec_apply R op in
      let '(R, l) := spec_run R ops in
      (R, found :: l)
  end.

(** Prefixes of at most 127 bits of an address that is long enough. *)
Definition op_ok (op : trie_op) : Prop :=
  match op with Insert v mlen | Remove v mlen => (0 < mlen < 128)%nat /\ (mlen <= 32 * length v)%nat end.

Lemma delete_perm {A} (l : list A) i x : l !! i = Some x -> x :: delete i l ≡ₚ l.
Proof. intros H. symmetry. apply delete_Permutation, H. Qed.

Lemma trie_apply_ok t R op : trie_wf None t -> rules t ≡ₚ R -> op_ok op -> Z.of_nat (length R) + 1 < 2 ^ 32 ->
  exists t', trie_apply t op = Ok (t', snd (spec_apply R op)) /\ trie_wf None t' /\ rules t' ≡ₚ fst (spec_apply R op).
Proof.
  intros Hw HR Hop Hn. rewrite <- HR in Hn. destruct op as [v mlen | v mlen]; destruct Hop as [Hm Hv]; cbn [trie_apply spec_apply].
  - unfold trie_insert_prefix. change 0 with (Z.of_nat 0).
    destruct (insert_loop_spec v mlen Hv ltac:(lia) t None 0%nat Hw) as (t' & -> & Hw' & _ & Hp); [lia | done | done |].
    exists t'. split; [done|]. split; [done|]. rewrite Nat.sub_0_r in Hp. cbn. rewrite Hp, HR. done.
  - unfold trie_remove_prefix. change 0 with (Z.of_nat 0).
    pose proof (remove_loop_spec v mlen Hv ltac:(lia) t None 0%nat 0%nat 1%nat Hw) as H. rewrite Nat.sub_0_r in H.
    specialize (H ltac:(lia) ltac:(unfold MAX_EDGES; lia) ltac:(lia)).
    destruct (remove_loop _ _ _ _ _) as [[[t' again]|]|]; cbn [removed rbind] in *; [| |done].
    + destruct H as (Hw' & Hp & _). destruct (list_find _ R) as [[i X]|] eqn:E; cbn.
      * apply list_find_Some in E as (Hi & <- & _). exists t'. split; [done|]. split; [done|].
        apply (Permutation_cons_inv (a := vbits v 0 mlen)). rewrite Hp, HR, delete_perm by done. done.
      * apply list_find_None in E. rewrite Forall_forall in E. destruct (E (vbits v 0 mlen)); [|done].
        rewrite <- HR, <- Hp. apply list_elem_of_here.
    + destruct (list_find _ R) as [[i X]|] eqn:E; cbn; [|exists t; done].
      apply list_find_Some in E as (Hi & <- & _). apply list_elem_of_lookup_2 in Hi. rewrite <- HR in Hi. done.
Qed.

Lemma spec_apply_length R op : (length (fst (spec_apply R op)) <= S (length R))%nat.
Proof.
  destruct op; cbn; [lia|]. destruct (list_find _ R) as [[i X]|] eqn:E; cbn; [|lia].
  apply list_find_Some in E as (Hi & _). rewrite length_delete by (rewrite Hi; eauto). lia.
Qed.

Lemma trie_run_ok ops : Forall op_ok ops -> forall t R, trie_wf None t -> rules t ≡ₚ R ->
  Z.of_nat (length R + length ops) < 2 ^ 32 ->
  exists t', trie_run t ops = Ok (t', snd (spec_run R ops)) /\ trie_wf None t' /\ rules t' ≡ₚ fst (spec_run R ops).
Proof.
  induction 1 as [|op ops Hop _ IH]; intros t R Hw HR Hn; cbn [trie_run spec_run].
  { exists t. done. }
  cbn [length] in Hn. destruct (trie_apply_ok t R op Hw HR Hop) as (t1 & -> & Hw1 & HR1); [lia|]. cbn [rbind].
  pose proof (spec_apply_length R op) as Hl. destruct (spec_apply R op) as [R1 found]. cbn [fst snd] in *.
  destruct (IH t1 R1 Hw1 HR1) as (t' & -> & Hw' & HR'); [lia|]. cbn [rbind].
  destruct (spec_run R1 ops) as [R' l]. exists t'. done.
Qed.

(** C18. A prefix trie implements a collection of bit strings with repetitions:
    over any sequence of insertions and removals of prefixes of 1 to 127 bits,
    the trie stays well-formed, holds exactly the strings of the collection, a
    removal reports a string that is not there and nothing else, and the trie is
    empty exactly when the collection is (all nodes without use are pruned).
    Removing a string of 128 bits can write past an array
    ([trie_remove_overflow]). *)
Theorem trie_refines_collection ops : Forall op_ok ops -> Z.of_nat (length ops) < 2 ^ 32 ->
  exists t, trie_run Null ops = Ok (t, snd (spec_run [] ops)) /\ trie_wf None t /\
    rules t ≡ₚ fst (spec_run [] ops) /\ (fst (spec_run [] ops) = [] <-> t = Null).
Proof.
  intros Hops Hlen. destruct (trie_run_ok ops Hops Null []) as (t & E & Hw & Hr); [done | done | exact Hlen |].
  exists t. split; [done|]. split; [done|]. split; [done|]. split.
  - intros E0. rewrite E0 in Hr. apply Permutation_nil_r in Hr. apply (rules_null None); done.
  - intros ->. apply Permutation_nil_l in Hr. done.
Qed.

(** The addresses of an example, from their dotted form. *)
Definition ip (a b c d : Z) : list Z := [ntohl (a * 2 ^ 24 + b * 2 ^ 16 + c * 2 ^ 8 + d); 0].

Definition sample_ops : list trie_op :=
  [Insert (ip 10 0 0 0) 8; Insert (ip 10 1 0 0) 16; Insert (ip 192 168 0 0) 16; Remove (ip 10 0 0 0) 8;
   Remove (ip 10 0 0 0) 8].

Lemma sample_ops_ok : Forall op_ok sample_ops.
Proof. repeat constructor; cbn; lia. Qed.

Lemma sample_rules q : q ∈ fst (spec_run [] sample_ops) <->
  q = vbits (ip 192 168 0 0) 0 16 \/ q = vbits (ip 10 1 0 0) 0 16.
Proof.
  assert (fst (spec_run [] sample_ops) = [vbits (ip 192 168 0 0) 0 16; vbits (ip 10 1 0 0) 0 16]) as -> by (vm_compute; reflexivity).
  rewrite elem_of_cons, list_elem_of_singleton. done.
Qed.

Lemma trie_refines_collection_witness : Forall op_ok sample_ops /\
  exists t, trie_run Null sample_ops = Ok (t, [true; true; true; true; false]) /\
    rules t ≡ₚ [vbits (ip 192 168 0 0) 0 16; vbits (ip 10 1 0 0) 0 16].
Proof.
  split; [exact sample_ops_ok|].
  destruct (trie_refines_collection sample_ops sample_ops_ok) as (t & E & _ & Hr & _); [cbn; lia|].
  exists t. split; [exact E|]. exact Hr.
Defined.

(** C19. A lookup returns the length of the longest prefix in the trie that the
    address has (0 if it has none), and the number of its bits that decide this:
    every other address with the same bits up to that number gives the same
    answer. *)
Theorem trie_lookup_ok t v : trie_wf None t -> fits (rules t) v 0 ->
  exists m c, trie_lookup_value t v = Ok (Z.of_nat m, Z.of_nat c) /\
    (m = 0%nat \/ exists p, p ∈ rules t /\ matches v 0 p /\ length p = m) /\
    (forall p, p ∈ rules t -> matches v 0 p -> (length p <= m)%nat) /\
    forall v', length v' = length v -> vbits v' 0 c = vbits v 0 c ->
      trie_lookup_value t v' = Ok (Z.of_nat m, Z.of_nat c).
Proof.
  intros Hw Hf. destruct (lookup_value_spec t v Hw Hf) as (m & c & E & _ & H). exists m, c. done.
Qed.

Lemma trie_lookup_ok_witness : exists t c,
  trie_run Null sample_ops = Ok (t, [true; true; true; true; false]) /\
  trie_lookup_value t (ip 10 1 2 3) = Ok (16, Z.of_nat c) /\
  forall v', length v' = 2%nat -> vbits v' 0 c = vbits (ip 10 1 2 3) 0 c -> trie_lookup_value t v' = Ok (16, Z.of_nat c).
Proof.
  destruct (trie_run_ok sample_ops sample_ops_ok Null []) as (t & E & Hw & Hr); [done | done | cbn; lia |].
  destruct (trie_lookup_ok t (ip 10 1 2 3) Hw) as (m & c & E1 & H1 & H2 & H3).
  { intros q. rewrite Hr, sample_rules. intros [-> | ->]; rewrite length_vbits; cbn; lia. }
  assert (m = 16%nat) as ->.
  { assert (16 <= m)%nat by (apply (H2 (vbits (ip 10 1 0 0) 0 16)); [rewrite Hr, sample_rules; by right | vm_compute; reflexivity]).
    destruct H1 as [->|(p & Hp & _ & <-)]; [lia|]. rewrite Hr, sample_rules in Hp. destruct Hp as [-> | ->]; apply length_vbits. }
  exists t, c. split; [exact E|]. split; [exact E1|]. exact H3.
Defined.

(** ** Longest paths *)

(** The address of which every bit is 1. *)
Definition ones : list Z := [2 ^ 32 - 1; 2 ^ 32 - 1; 2 ^ 32 - 1; 2 ^ 32 - 1].

(** The prefixes 1, 11, 111, ... of 1 to 128 bits, and one that starts with 0. *)
Definition nested_ops : list trie_op :=
  Insert [0; 0; 0; 0] 1 :: map (Insert ones) (seq 1 128).

Lemma nested_run :
  match trie_run Null nested_ops with
  | Ok (t, _) =>
      match trie_remove_prefix t ones 128, trie_remove_prefix t ones 127 with
      | Fault OutOfBounds, Ok _ => true
      | _, _ => false
      end
  | _ => false
  end = true.
Proof. vm_compute. reflexivity. Qed.

(** The array [edges] of [trie_remove] has an element for every bit of the
    longest field.  A path can have 129 edges: a root without bits, and a node
    for each of the 128 bits of an IPv6 address.  Removing the rule at the end
    of it writes past the array. *)
Theorem trie_remove_overflow : exists t l,
  trie_run Null nested_ops = Ok (t, l) /\
  trie_remove_prefix t ones 128 = Fault OutOfBounds /\ is_ok (trie_remove_prefix t ones 127) = true.
Proof.
  pose proof nested_run as H. destruct (trie_run Null nested_ops) as [[t l]|f]; [|done].
  exists t, l. split; [done|].
  destruct (trie_remove_prefix t ones 128) as [|[]], (trie_remove_prefix t ones 127); done.
Qed.
