(* ===== verification/Classifier.v ===== *)
(** * The flow classifier ([lib/classifier.c], [lib/classifier.h])

    The flow table of the switch: rules, each a match with a priority, kept in a
    subtable for every mask; subtables in the order of their highest priority;
    staged hash indexes, prefix tries and partitions by metadata, which let a
    lookup skip subtables and un-wildcard fewer bits.

    Rules, subtables and partitions are objects with addresses, in the maps of
    the state; [hmap]s and lists hold addresses.  The list of identical rules of
    lower priority is circular in the code and starts at the rule that is in the
    hash map; here it is the contents of the node of this rule, the addresses in
    order, the rule itself first.  [subtables_priority] is the sequence of the
    elements of the list, and moving an element with [list_splice] is removing
    it from the sequence and putting it where the splice puts it. *)

From Stdlib Require Import ZArith Lia List Bool.
From stdpp Require Import base option list_relations list sets gmap.
From S2P Require Import Prelude Bytes Hash Csum Packets Bits Hmap Hindex Flow Miniflow MatchSet MetaFlow Tag Trie.
#[local] Open Scope Z_scope.
#[local] Open Scope res_scope.

(** ** The program: data *)

Definition CLS_MAX_INDICES : nat := 3.
Definition CLS_MAX_TRIES : nat := 3.

Record cls_rule := Mk_rule {
  match_of : minimatch;
  priority : Z;
  partition : option nat;
  node_hash_of : Z;        (* [hmap_node.hash] *)
  index_hashes : list Z    (* [index_nodes[i].hash] *)
}.

(** The address of a rule stands for its [index_nodes] too. *)
Abbreviation rule_index := (hmap (list (nat * unit))).

Record cls_subtable := Mk_subtable {
  rules_of : hmap (list nat);
  mask_of : minimask;
  st_n_rules : Z;
  max_priority : Z;
  max_count : Z;
  st_tag : Z;
  indices : list (Z * rule_index);   (* [index_ofs[i]] and [indices[i]], i < [n_indices] *)
  trie_plen : list Z
}.

Record cls_trie := Mk_trie { trie_field : option mf_field; trie_root : trie_node }.

Record cls_partition := Mk_partition { p_metadata : Z; p_tags : Z; p_tracker : tag_tracker }.

Record classifier := Mk_classifier {
  n_rules : Z;
  flow_segments : list Z;
  subtables : hmap unit;
  subtables_priority : list nat;
  partitions : hmap unit;
  tries : list cls_trie;
  n_tries : nat;
  rule_at : gmap nat cls_rule;
  subtable_at : gmap nat cls_subtable;
  partition_at : gmap nat cls_partition
}.

(** *** Loads and stores *)

Definition load {A} (m : gmap nat A) (a : nat) : Res A :=
  match m !! a with Some x => Ok x | None => Fault UseAfterFree end.

Definition set_n_rules (v : Z) (c : classifier) : classifier :=
  Mk_classifier v (flow_segments c) (subtables c) (subtables_priority c) (partitions c) (tries c) (n_tries c)
    (rule_at c) (subtable_at c) (partition_at c).
Definition set_subtables (v : hmap unit) (c : classifier) : classifier :=
  Mk_classifier (n_rules c) (flow_segments c) v (subtables_priority c) (partitions c) (tries c) (n_tries c)
    (rule_at c) (subtable_at c) (partition_at c).
Definition set_subtables_priority (v : list nat) (c : classifier) : classifier :=
  Mk_classifier (n_rules c) (flow_segments c) (subtables c) v (partitions c) (tries c) (n_tries c)
    (rule_at c) (subtable_at c) (partition_at c).
Definition set_partitions (v : hmap unit) (c : classifier) : classifier :=
  Mk_classifier (n_rules c) (flow_segments c) (subtables c) (subtables_priority c) v (tries c) (n_tries c)
    (rule_at c) (subtable_at c) (partition_at c).
Definition set_tries (v : list cls_trie) (c : classifier) : classifier :=
  Mk_classifier (n_rules c) (flow_segments c) (subtables c) (subtables_priority c) (partitions c) v (n_tries c)
    (rule_at c) (subtable_at c) (partition_at c).
Definition set_n_tries (v : nat) (c : classifier) : classifier :=
  Mk_classifier (n_rules c) (flow_segments c) (subtables c) (subtables_priority c) (partitions c) (tries c) v
    (rule_at c) (subtable_at c) (partition_at c).
Definition set_rule_at (v : gmap nat cls_rule) (c : classifier) : classifier :=
  Mk_classifier (n_rules c) (flow_segments c) (subtables c) (subtables_priority c) (partitions c) (tries c)
    (n_tries c) v (subtable_at c) (partition_at c).
Definition set_subtable_at (v : gmap nat cls_subtable) (c : classifier) : classifier :=
  Mk_classifier (n_rules c) (flow_segments c) (subtables c) (subtables_priority c) (partitions c) (tries c)
    (n_tries c) (rule_at c) v (partition_at c).
Definition set_partition_at (v : gmap nat cls_partition) (c : classifier) : classifier :=
  Mk_classifier (n_rules c) (flow_segments c) (subtables c) (subtables_priority c) (partitions c) (tries c)
    (n_tries c) (rule_at c) (subtable_at c) v.

Definition put_rule (a : nat) (r : cls_rule) (c : classifier) : classifier := set_rule_at (<[a := r]> (rule_at c)) c.
Definition put_subtable (a : nat) (t : cls_subtable) (c : classifier) : classifier :=
  set_subtable_at (<[a := t]> (subtable_at c)) c.
Definition put_partition (a : nat) (p : cls_partition) (c : classifier) : classifier :=
  set_partition_at (<[a := p]> (partition_at c)) c.

Definition with_partition (p : option nat) (r : cls_rule) : cls_rule :=
  Mk_rule (match_of r) (priority r) p (node_hash_of r) (index_hashes r).
Definition with_hashes (h : Z) (l : list Z) (r : cls_rule) : cls_rule :=
  Mk_rule (match_of r) (priority r) (partition r) h l.

Definition with_rules (v : hmap (list nat)) (t : cls_subtable) : cls_subtable :=
  Mk_subtable v (mask_of t) (st_n_rules t) (max_priority t) (max_count t) (st_tag t) (indices t) (trie_plen t).
Definition with_n_rules (v : Z) (t : cls_subtable) : cls_subtable :=
  Mk_subtable (rules_of t) (mask_of t) v (max_priority t) (max_count t) (st_tag t) (indices t) (trie_plen t).
Definition with_max (p n : Z) (t : cls_subtable) : cls_subtable :=
  Mk_subtable (rules_of t) (mask_of t) (st_n_rules t) p n (st_tag t) (indices t) (trie_plen t).
Definition with_tag (v : Z) (t : cls_subtable) : cls_subtable :=
  Mk_subtable (rules_of t) (mask_of t) (st_n_rules t) (max_priority t) (max_count t) v (indices t) (trie_plen t).
Definition with_indices (v : list (Z * rule_index)) (t : cls_subtable) : cls_subtable :=
  Mk_subtable (rules_of t) (mask_of t) (st_n_rules t) (max_priority t) (max_count t) (st_tag t) v (trie_plen t).
Definition with_trie_plen (v : list Z) (t : cls_subtable) : cls_subtable :=
  Mk_subtable (rules_of t) (mask_of t) (st_n_rules t) (max_priority t) (max_count t) (st_tag t) (indices t) v.

(** The nodes [HMAP_FOR_EACH] visits; the fuel is the number of nodes. *)
Definition each {A} (h : hmap A) : list (hmap_node A) := hmap_for_each (length (hmap_nodes h)) h.

Section Target.
Variable target : abi.

(** ** The program: rules *)

(** [dst] is the contents of the memory of the rule before. *)
Definition cls_rule_init (dst : cls_rule) (m : match_) (prio : Z) : Res cls_rule :=
  let* mm := minimatch_init target (match_of dst) m in
  Ok (Mk_rule mm prio (partition dst) (node_hash_of dst) (index_hashes dst)).

Definition cls_rule_init_from_minimatch (dst : cls_rule) (m : minimatch) (prio : Z) : Res cls_rule :=
  let* mm := minimatch_clone target (match_of dst) m in
  Ok (Mk_rule mm prio (partition dst) (node_hash_of dst) (index_hashes dst)).

Definition cls_rule_clone (dst src : cls_rule) : Res cls_rule :=
  let* mm := minimatch_clone target (match_of dst) (match_of src) in
  Ok (Mk_rule mm (priority src) (partition dst) (node_hash_of dst) (index_hashes dst)).

Definition cls_rule_move (dst src : cls_rule) : Res cls_rule :=
  let* mm := minimatch_move target (match_of dst) (match_of src) in
  Ok (Mk_rule mm (priority src) (partition dst) (node_hash_of dst) (index_hashes dst)).

Definition cls_rule_destroy (r : cls_rule) : Res (option cbuf * option cbuf) := minimatch_destroy (match_of r).

Definition cls_rule_equal (a b : cls_rule) : Res bool :=
  if priority a =? priority b then minimatch_equal (match_of a) (match_of b) else Ok false.

Definition cls_rule_hash (r : cls_rule) (basis : Z) : Res Z :=
  minimatch_hash (match_of r) (hash_int (priority r) basis).

Definition cls_rule_is_catchall (r : cls_rule) : Res bool := minimask_is_catchall (mm_mask (match_of r)).

Definition cls_rule_is_loose_match (r : cls_rule) (criteria : minimatch) : Res bool :=
  let* extra := minimask_has_extra target (mm_mask (match_of r)) (mm_mask criteria) in
  if extra then Ok false
  else miniflow_equal_in_minimask target (mm_flow (match_of r)) (mm_flow criteria) (mm_mask criteria).

(** [next_rule_in_list] from the rule with priority [prio] on, where [l] is
    the rest of the list and [head_prio] the priority of the rule it closes
    with; the rules it visits. *)
Fixpoint rules_in_list (c : classifier) (head_prio prio : Z) (l : list nat) : Res (list (nat * cls_rule)) :=
  match l with
  | [] => if head_prio <? prio then Fault OutOfFuel else Ok []
  | a :: l =>
      let* r := load (rule_at c) a in
      if priority r <? prio then
        let* rest := rules_in_list c head_prio (priority r) l in
        Ok ((a, r) :: rest)
      else Ok []
  end.

(** [FOR_EACH_RULE_IN_LIST] *)
Definition each_rule_in_list (c : classifier) (ring : list nat) : Res (list (nat * cls_rule)) :=
  match ring with
  | [] => Fault NullDeref
  | a :: l =>
      let* r := load (rule_at c) a in
      let* rest := rules_in_list c (priority r) (priority r) l in
      Ok ((a, r) :: rest)
  end.

(** ** The program: prefix fields *)

(** The loop of [minimask_get_prefix_len] over [n] words; [mask_tz] is not 0
    when the end of the mask has been seen. *)
Fixpoint prefix_len_loop (mask : minimask) (n : nat) (u32_ofs mask_tz nbits : Z) : Res Z :=
  match n with
  | O => Ok nbits
  | S n =>
      let* m := minimask_get target mask u32_ofs in
      let m := ntohl m in
      if negb (mask_tz =? 0) then
        if negb (m =? 0) then Ok 0 else prefix_len_loop mask n (u32_ofs + 1) mask_tz nbits
      else
        let x := u32 (Z.lnot m) in
        if negb (Z.land x (u32 (x + 1)) =? 0) then Ok 0
        else
          let mask_tz := ctz32 m in
          prefix_len_loop mask n (u32_ofs + 1) mask_tz (nbits + (32 - mask_tz))
  end.

Definition minimask_get_prefix_len (mask : minimask) (mf : mf_field) : Res Z :=
  prefix_len_loop mask (Z.to_nat (n_bytes mf / 4)) (flow_be32ofs mf) 0 0.

(** The initialized values of an array. *)
Fixpoint initialized (b : cbuf) : list Z :=
  match b with
  | Some v :: b => v :: initialized b
  | _ => []
  end.

(** The values from the pointer on; a load behind them is a fault. *)
Definition minimatch_get_prefix (m : minimatch) (mf : mf_field) : list Z :=
  let k := count_1bits target (Z.land (mf_map (mm_flow m)) (u64 (u64 (Z.shiftl 1 (flow_be32ofs mf)) - 1))) in
  initialized (drop (Z.to_nat k) (values (mm_flow m))).

Definition the_field (t : cls_trie) : Res mf_field :=
  match trie_field t with Some mf => Ok mf | None => Fault NullDeref end.

Definition trie_insert (t : cls_trie) (r : cls_rule) (mlen : Z) : Res cls_trie :=
  let* mf := the_field t in
  let prefix := minimatch_get_prefix (match_of r) mf in
  let* root := trie_insert_prefix (trie_root t) prefix mlen in
  Ok (Mk_trie (trie_field t) root).

Definition trie_remove (t : cls_trie) (r : cls_rule) (mlen : Z) : Res cls_trie :=
  let* mf := the_field t in
  let prefix := minimatch_get_prefix (match_of r) mf in
  let* (root, _) := trie_remove_prefix (trie_root t) prefix mlen in
  Ok (Mk_trie (trie_field t) root).

(** The length of the match and [*checkbits]. *)
Definition trie_lookup (t : cls_trie) (f : flow) : Res (Z * Z) :=
  let* mf := the_field t in
  if mf_are_prereqs_ok mf f
  then trie_lookup_value (trie_root t) (drop (Z.to_nat (flow_be32ofs mf)) (flow_u32 target f))
  else Ok (UINT_MAX, 0).

(** [for (i = 0; i < nbits / 32; i++) mask[i] = OVS_BE32_MAX;] with the mask
    from [p] on, [n] words to go. *)
Fixpoint set_words (wc : list Z) (p : Z) (n : nat) : Res (list Z) :=
  match n with
  | O => Ok wc
  | S n => let* wc := set_word wc p OVS_BE32_MAX in set_words wc (p + 1) n
  end.

Definition mask_set_prefix_bits (wc : list Z) (be32ofs nbits : Z) : Res (list Z) :=
  let* wc := set_words wc be32ofs (Z.to_nat (nbits / 32)) in
  if negb (nbits mod 32 =? 0) then
    let* w := word wc (be32ofs + nbits / 32) in
    set_word wc (be32ofs + nbits / 32) (Z.lor w (htonl (u32 (Z.shiftl (u32 (Z.lnot 0)) (32 - nbits mod 32)))))
  else Ok wc.

Fixpoint zeroes_of (wc : list Z) (p : Z) (n : nat) (zeroes : Z) : Res Z :=
  match n with
  | O => Ok zeroes
  | S n => let* w := word wc p in zeroes_of wc (p + 1) n (Z.lor zeroes (u32 (Z.lnot w)))
  end.

Definition mask_prefix_bits_set (wc : list Z) (be32ofs nbits : Z) : Res bool :=
  let* zeroes := zeroes_of wc be32ofs (Z.to_nat (nbits / 32)) 0 in
  let* zeroes :=
    if negb (nbits mod 32 =? 0) then
      let* w := word wc (be32ofs + nbits / 32) in
      Ok (Z.lor zeroes (Z.land (u32 (Z.lnot w)) (htonl (u32 (Z.shiftl (u32 (Z.lnot 0)) (32 - nbits mod 32))))))
    else Ok zeroes in
  Ok (zeroes =? 0).

(** ** The program: subtables *)

Fixpoint find_in_bucket {A} (test : A -> Res bool) (get : nat -> Res A) (l : list (hmap_node unit)) : Res (option nat) :=
  match l with
  | [] => Ok None
  | nd :: l =>
      let* x := get (node_addr nd) in
      let* found := test x in
      if found then Ok (Some (node_addr nd)) else find_in_bucket test get l
  end.

Definition find_subtable (c : classifier) (mask : minimask) : Res (option nat) :=
  let* hash := minimask_hash mask 0 in
  let* b := hmap_first_in_bucket (subtables c) hash in
  find_in_bucket (fun t => minimask_equal mask (mask_of t)) (load (subtable_at c)) b.

(** [xzalloc] *)
Definition zero_mini : miniflow := Mk_miniflow 0 Inline (replicate (Z.to_nat (MINI_N_INLINE target)) (Some 0)).

(** The loop of [insert_subtable] over the flow segments: the indexes, and
    [new] and [prev] at its end. *)
Fixpoint init_indices (mask : minimask) (segments : list Z) (old new : list Z) (prev : Z)
    : Res (list (Z * rule_index) * list Z * list Z * Z) :=
  match segments with
  | [] => Ok ([], old, new, prev)
  | s :: segments =>
      let* new := flow_wildcards_fold_minimask_range target new mask prev s in
      if negb (flow_wildcards_equal new old) then
        let* (l, old, new, prev) := init_indices mask segments new new s in
        Ok ((s, hindex_init) :: l, old, new, prev)
      else init_indices mask segments old new s
  end.

Fixpoint plens_of (mask : minimask) (l : list cls_trie) : Res (list Z) :=
  match l with
  | [] => Ok []
  | t :: l =>
      let* mf := the_field t in
      let* plen := minimask_get_prefix_len mask mf in
      let* rest := plens_of mask l in
      Ok (plen :: rest)
  end.

(** [addr] is the address of the new subtable. *)
Definition insert_subtable (c : classifier) (addr : nat) (mask : minimask) : Res classifier :=
  let* hash := minimask_hash mask 0 in
  let* st_mask := minimask_clone target (Mk_minimask zero_mini) mask in
  let new := flow_wildcards_init_catchall target in
  let* (l, old, new, prev) := init_indices mask (flow_segments c) new new 0 in
  let* l :=
    match l with
    | [] => Ok []
    | _ :: _ =>
        let* new := flow_wildcards_fold_minimask_range target new mask prev (Z.of_nat (FLOW_U32S target)) in
        Ok (if flow_wildcards_equal new old then take (length l - 1) l else l)
    end in
  let* h := hmap_insert_at (subtables c) (Mk_node addr 0 tt) hash in
  let* metadata_mask := minimask_get_metadata_mask target mask in
  let tag := if metadata_mask =? OVS_BE64_MAX then tag_create_deterministic hash else TAG_ALL in
  let* plen := plens_of mask (take (n_tries c) (tries c)) in
  let t := Mk_subtable hmap_init st_mask 0 0 0 tag l (plen ++ replicate (CLS_MAX_TRIES - n_tries c) 0) in
  Ok (put_subtable addr t (set_subtables_priority (subtables_priority c ++ [addr]) (set_subtables h c))).

(** The node of the subtable in [cls->subtables]. *)
Definition subtable_node (c : classifier) (s : nat) : Res (hmap_node unit) :=
  match List.find (fun nd => bool_decide (node_addr nd = s)) (hmap_nodes (subtables c)) with
  | Some nd => Ok nd
  | None => Fault UseAfterFree
  end.

Definition destroy_subtable (c : classifier) (s : nat) : Res classifier :=
  let* nd := subtable_node c s in
  let* h := hmap_remove (subtables c) nd in
  let c := set_subtables_priority (List.filter (fun a => negb (bool_decide (a = s))) (subtables_priority c)) (set_subtables h c) in
  Ok (set_subtable_at (delete s (subtable_at c)) c).

(** The elements of a list before and after [s]. *)
Fixpoint split_at (s : nat) (l : list nat) : list nat * list nat :=
  match l with
  | [] => ([], [])
  | a :: l => if decide (a = s) then ([], l) else let '(x, y) := split_at s l in (a :: x, y)
  end.

(** The elements a loop goes over until [stop] holds of one, and the rest. *)
Fixpoint walk_until (get : nat -> Res cls_subtable) (stop : cls_subtable -> bool) (l : list nat) : Res (list nat * list nat) :=
  match l with
  | [] => Ok ([], [])
  | a :: l' =>
      let* iter := get a in
      if stop iter then Ok ([], l)
      else let* (x, y) := walk_until get stop l' in Ok (a :: x, y)
  end.

Definition update_subtables_after_insertion (c : classifier) (s : nat) (new_priority : Z) : Res classifier :=
  let* t := load (subtable_at c) s in
  if new_priority =? max_priority t then
    Ok (put_subtable s (with_max (max_priority t) (u32 (max_count t + 1)) t) c)
  else if max_priority t <? new_priority then
    let t := with_max new_priority 1 t in
    let c := put_subtable s t c in
    let '(before, after) := split_at s (subtables_priority c) in
    let* (passed, rest) := walk_until (load (subtable_at c)) (fun iter => max_priority t <=? max_priority iter) (rev before) in
    Ok (set_subtables_priority (rev rest ++ s :: rev passed ++ after) c)
  else Ok c.

(** The new [max_priority] and [max_count], from those before. *)
Fixpoint max_heads (c : classifier) (l : list (hmap_node (list nat))) (mp mc : Z) : Res (Z * Z) :=
  match l with
  | [] => Ok (mp, mc)
  | nd :: l =>
      let* head := load (rule_at c) (node_addr nd) in
      if mp <? priority head then max_heads c l (priority head) 1
      else if priority head =? mp then max_heads c l mp (u32 (mc + 1))
      else max_heads c l mp mc
  end.

Definition update_subtables_after_removal (c : classifier) (s : nat) (del_priority : Z) : Res classifier :=
  let* t := load (subtable_at c) s in
  if del_priority =? max_priority t then
    let t := with_max (max_priority t) (u32 (max_count t - 1)) t in
    let c := put_subtable s t c in
    if max_count t =? 0 then
      let* (mp, mc) := max_heads c (each (rules_of t)) 0 0 in
      let t := with_max mp mc t in
      let c := put_subtable s t c in
      let '(before, after) := split_at s (subtables_priority c) in
      let* (passed, rest) := walk_until (load (subtable_at c)) (fun iter => max_priority iter <=? max_priority t) after in
      Ok (set_subtables_priority (before ++ passed ++ s :: rest) c)
    else Ok c
  else Ok c.

(** ** The program: rules of a subtable *)

Fixpoint find_equal_in (c : classifier) (flow : miniflow) (l : list (hmap_node (list nat)))
    : Res (option (hmap_node (list nat))) :=
  match l with
  | [] => Ok None
  | nd :: l =>
      let* head := load (rule_at c) (node_addr nd) in
      let* eq := miniflow_equal (mm_flow (match_of head)) flow in
      if eq then Ok (Some nd) else find_equal_in c flow l
  end.

Definition find_equal (c : classifier) (t : cls_subtable) (flow : miniflow) (hash : Z)
    : Res (option (hmap_node (list nat))) :=
  let* l := hmap_for_each_with_hash (rules_of t) hash in
  find_equal_in c flow l.

(** The loop of [insert_rule] over the indexes: the indexes with the rule, its
    hashes there, and the end of the last segment and the basis. *)
Fixpoint add_to_indices (m : minimatch) (a : nat) (l : list (Z * rule_index)) (prev_be32ofs basis : Z)
    : Res (list (Z * rule_index) * list Z * Z * Z) :=
  match l with
  | [] => Ok ([], [], prev_be32ofs, basis)
  | (ofs, h) :: l =>
      let* (hash, basis) := minimatch_hash_range target m prev_be32ofs ofs basis in
      let* h := hindex_insert h a tt hash in
      let* (l, hashes, prev, basis) := add_to_indices m a l ofs basis in
      Ok ((ofs, h) :: l, hash :: hashes, prev, basis)
  end.

Fixpoint remove_from_indices (a : nat) (l : list (Z * rule_index)) (hashes : list Z) : Res (list (Z * rule_index)) :=
  match l, hashes with
  | (ofs, h) :: l, hash :: hashes =>
      let* h := hindex_remove h a hash in
      let* l := remove_from_indices a l hashes in
      Ok ((ofs, h) :: l)
  | [], _ => Ok []
  | _ :: _, [] => Fault UninitRead
  end.

(** The list with [new] put before the first rule of at most its priority, or
    at the end, and the rule it replaces, if that has the same priority. *)
Fixpoint insert_in_list (new : nat) (prio : Z) (l : list (nat * cls_rule)) : list nat * option nat :=
  match l with
  | [] => ([new], None)
  | (a, r) :: l =>
      if priority r <=? prio then
        if prio =? priority r then (new :: map fst l, Some a) else (new :: a :: map fst l, None)
      else let '(l, old) := insert_in_list new prio l in (a :: l, old)
  end.

(** The classifier, and [old]. *)
Definition insert_rule (c : classifier) (s new : nat) : Res (classifier * option nat) :=
  let* t := load (subtable_at c) s in
  let* r := load (rule_at c) new in
  let* (l, hashes, prev, basis) := add_to_indices (match_of r) new (indices t) 0 0 in
  let t := with_indices l t in
  let* (hash, _) := minimatch_hash_range target (match_of r) prev (Z.of_nat (FLOW_U32S target)) basis in
  let r := with_hashes hash hashes r in
  let c := put_rule new r c in
  let* found := find_equal c t (mm_flow (match_of r)) hash in
  match found with
  | None =>
      let* h := hmap_insert_at (rules_of t) (Mk_node new 0 [new]) hash in
      let c := put_subtable s (with_rules h t) c in
      let* c := update_subtables_after_insertion c s (priority r) in
      Ok (c, None)
  | Some nd =>
      let* rules := each_rule_in_list c (node_val nd) in
      let '(ring, old) := insert_in_list new (priority r) rules in
      let* h :=
        if bool_decide (head ring = Some new)
        then hmap_replace (rules_of t) nd (Mk_node new hash ring)
        else Ok (store_val (rules_of t) (node_addr nd) (fun _ => ring)) in
      let t := with_rules h t in
      match old with
      | None =>
          let* c := update_subtables_after_insertion (put_subtable s t c) s (priority r) in
          Ok (c, None)
      | Some o =>
          let* old_rule := load (rule_at c) o in
          let* l := remove_from_indices o (indices t) (index_hashes old_rule) in
          Ok (put_subtable s (with_indices l t) c, Some o)
      end
  end.

(** ** The program: partitions *)

Definition hash_metadata (metadata : Z) : Z := hash_2words (u32 metadata) (u32 (Z.shiftr metadata 32)).

Definition find_partition (c : classifier) (metadata hash : Z) : Res (option nat) :=
  let* b := hmap_first_in_bucket (partitions c) hash in
  find_in_bucket (fun p => Ok (p_metadata p =? metadata)) (load (partition_at c)) b.

(** [addr] is the address of a new partition, if one is made. *)
Definition create_partition (c : classifier) (addr s : nat) (metadata : Z) : Res (classifier * nat) :=
  let hash := hash_metadata metadata in
  let* p := find_partition c metadata hash in
  let* (c, p) :=
    match p with
    | Some p => Ok (c, p)
    | None =>
        let* h := hmap_insert_at (partitions c) (Mk_node addr 0 tt) hash in
        Ok (put_partition addr (Mk_partition metadata 0 tag_tracker_init) (set_partitions h c), addr)
    end in
  let* t := load (subtable_at c) s in
  let* pt := load (partition_at c) p in
  let* (tracker, tags) := tag_tracker_add (p_tracker pt) (p_tags pt) (st_tag t) in
  Ok (put_partition p (Mk_partition (p_metadata pt) tags tracker) c, p).

Definition remove_partition (c : classifier) (p : nat) : Res classifier :=
  match List.find (fun nd => bool_decide (node_addr nd = p)) (hmap_nodes (partitions c)) with
  | Some nd =>
      let* h := hmap_remove (partitions c) nd in
      Ok (set_partition_at (delete p (partition_at c)) (set_partitions h c))
  | None => Fault UseAfterFree
  end.

(** ** The program: the classifier *)

(** The loop over the segments in [classifier_init]. *)
Fixpoint init_segments (n : nat) (flow_segments : list Z) : Res (list Z) :=
  match n, flow_segments with
  | O, _ => Ok []
  | S n, s :: l =>
      if s <? Z.of_nat (FLOW_U32S target) then let* l := init_segments n l in Ok (s :: l) else Ok []
  | S _, [] => Fault OutOfBounds
  end.

Definition classifier_init (flow_segments : option (list Z)) (rules : gmap nat cls_rule) : Res classifier :=
  let* segments := match flow_segments with None => Ok [] | Some l => init_segments CLS_MAX_INDICES l end in
  Ok (Mk_classifier 0 segments hmap_init [] hmap_init (replicate CLS_MAX_TRIES (Mk_trie None Null)) 0 rules ∅ ∅).

Fixpoint destroy_all (c : classifier) (destroy : classifier -> nat -> Res classifier) (l : list (hmap_node unit)) : Res classifier :=
  match l with
  | [] => Ok c
  | nd :: l => let* c := destroy c (node_addr nd) in destroy_all c destroy l
  end.

(** The classifier, and the number of trie nodes that are freed. *)
Definition classifier_destroy (c : classifier) : Res (classifier * nat) :=
  let freed := list_sum (map (fun t => trie_destroy (trie_root t)) (take (n_tries c) (tries c))) in
  let* c := destroy_all c destroy_subtable (each (subtables c)) in
  let* c := destroy_all c remove_partition (each (partitions c)) in
  Ok (c, freed).

Definition classifier_is_empty (c : classifier) : bool := n_rules c =? 0.
Definition classifier_count (c : classifier) : Z := n_rules c.

Fixpoint insert_rules (t : cls_trie) (plen : Z) (l : list (nat * cls_rule)) : Res cls_trie :=
  match l with
  | [] => Ok t
  | (_, r) :: l => let* t := trie_insert t r plen in insert_rules t plen l
  end.

Fixpoint insert_heads (c : classifier) (t : cls_trie) (plen : Z) (l : list (hmap_node (list nat))) : Res cls_trie :=
  match l with
  | [] => Ok t
  | nd :: l =>
      let* rules := each_rule_in_list c (node_val nd) in
      let* t := insert_rules t plen rules in
      insert_heads c t plen l
  end.

(** The loop of [trie_init] over the subtables. *)
Fixpoint trie_init_loop (c : classifier) (i : nat) (t : cls_trie) (l : list nat) : Res (classifier * cls_trie) :=
  match l with
  | [] => Ok (c, t)
  | s :: l =>
      let* st := load (subtable_at c) s in
      let* plen := match trie_field t with Some mf => minimask_get_prefix_len (mask_of st) mf | None => Ok 0 end in
      let c := put_subtable s (with_trie_plen (<[i := plen]> (trie_plen st)) st) c in
      let* t := if negb (plen =? 0) then insert_heads c t plen (each (rules_of st)) else Ok t in
      trie_init_loop c i t l
  end.

Definition trie_init (c : classifier) (trie_idx : nat) (field : option mf_field) : Res classifier :=
  let* (c, t) := trie_init_loop c trie_idx (Mk_trie field Null) (subtables_priority c) in
  if decide (trie_idx < length (tries c))%nat then Ok (set_tries (<[trie_idx := t]> (tries c)) c) else Fault OutOfBounds.

(** [enum mf_field_id] as a number: the fields are a set of bits. *)
Definition same_field (a : option mf_field) (b : mf_field) : bool :=
  match a with Some a => bool_decide (mf_id a = mf_id b) | None => false end.

Fixpoint set_prefix_fields (c : classifier) (trie_fields : list mf_field_id) (fields : list mf_field_id) (trie : nat)
    : Res (classifier * nat) :=
  match trie_fields with
  | [] => Ok (c, trie)
  | id :: trie_fields =>
      if decide (trie < CLS_MAX_TRIES)%nat then
        let field := mf_from_id target id in
        if (flow_be32ofs field <? 0) || negb (n_bits field mod 32 =? 0) then set_prefix_fields c trie_fields fields trie
        else if bool_decide (id ∈ fields) then set_prefix_fields c trie_fields fields trie
        else
          let fields := id :: fields in
          let* c :=
            if bool_decide (n_tries c <= trie)%nat || negb (same_field ((tries c !! trie) ≫= trie_field) field)
            then trie_init c trie (Some field) else Ok c in
          set_prefix_fields c trie_fields fields (trie + 1)
      else Ok (c, trie)
  end.

Fixpoint clear_tries (c : classifier) (i : nat) (n : nat) : Res classifier :=
  match n with
  | O => Ok c
  | S n => let* c := trie_init c i None in clear_tries c (i + 1) n
  end.

Definition classifier_set_prefix_fields (c : classifier) (trie_fields : list mf_field_id) : Res classifier :=
  let* (c, trie) := set_prefix_fields c trie_fields [] 0 in
  let* c := clear_tries c trie (n_tries c - trie) in
  Ok (set_n_tries trie c).

(** [for (i = 0; i < cls->n_tries; i++)] with an operation on the tries that
    the subtable matches on. *)
Fixpoint on_tries (op : cls_trie -> cls_rule -> Z -> Res cls_trie) (r : cls_rule) (n : nat) (l : list cls_trie) (plen : list Z)
    : Res (list cls_trie) :=
  match n, l, plen with
  | S n, t :: l, p :: plen =>
      let* t := if negb (p =? 0) then op t r p else Ok t in
      let* l := on_tries op r n l plen in
      Ok (t :: l)
  | O, _, _ => Ok l
  | _, _, _ => Fault OutOfBounds
  end.

(** [s] and [p] are the addresses of a new subtable and a new partition. *)
Definition classifier_replace (c : classifier) (s p rule : nat) : Res (classifier * option nat) :=
  let* r := load (rule_at c) rule in
  let* found := find_subtable c (mm_mask (match_of r)) in
  let* (c, s) :=
    match found with
    | Some s => Ok (c, s)
    | None => let* c := insert_subtable c s (mm_mask (match_of r)) in Ok (c, s)
    end in
  let* (c, old) := insert_rule c s rule in
  let* r := load (rule_at c) rule in
  match old with
  | None =>
      let* metadata_mask := minimask_get_metadata_mask target (mm_mask (match_of r)) in
      let* c :=
        if metadata_mask =? OVS_BE64_MAX then
          let* metadata := miniflow_get_metadata target (mm_flow (match_of r)) in
          let* (c, p) := create_partition c p s metadata in
          Ok (put_rule rule (with_partition (Some p) r) c)
        else Ok (put_rule rule (with_partition None r) c) in
      let* t := load (subtable_at c) s in
      let c := put_subtable s (with_n_rules (s32 (st_n_rules t + 1)) t) c in
      let c := set_n_rules (s32 (n_rules c + 1)) c in
      let* l := on_tries trie_insert r (n_tries c) (tries c) (trie_plen t) in
      Ok (set_tries l c, None)
  | Some o =>
      let* old_rule := load (rule_at c) o in
      Ok (put_rule rule (with_partition (partition old_rule) r) c, Some o)
  end.

Definition classifier_insert (c : classifier) (s p rule : nat) : Res classifier :=
  let* (c, displaced_rule) := classifier_replace c s p rule in
  ovs_assert (match displaced_rule with None => true | Some _ => false end) ;;*
  Ok c.

Definition classifier_remove (c : classifier) (rule : nat) : Res classifier :=
  let* r := load (rule_at c) rule in
  let* found := find_subtable c (mm_mask (match_of r)) in
  match found with
  | None => Fault NullDeref
  | Some s =>
      let* t := load (subtable_at c) s in
      let* tries := on_tries trie_remove r (n_tries c) (tries c) (trie_plen t) in
      let c := set_tries tries c in
      let* l := remove_from_indices rule (indices t) (index_hashes r) in
      let t := with_indices l t in
      let* head := find_equal c t (mm_flow (match_of r)) (node_hash_of r) in
      match head with
      | None => Fault NullDeref
      | Some nd =>
          let others := List.filter (fun a => negb (bool_decide (a = rule))) (node_val nd) in
          let* h :=
            if negb (bool_decide (node_addr nd = rule)) then Ok (store_val (rules_of t) (node_addr nd) (fun _ => others))
            else
              match others with
              | [] => hmap_remove (rules_of t) nd
              | next :: _ => hmap_replace (rules_of t) nd (Mk_node next (node_hash nd) others)
              end in
          let t := with_rules h t in
          let* c :=
            match partition r with
            | None => Ok c
            | Some p =>
                let* pt := load (partition_at c) p in
                let* (tracker, tags) := tag_tracker_subtract (p_tracker pt) (p_tags pt) (st_tag t) in
                let c := put_partition p (Mk_partition (p_metadata pt) tags tracker) c in
                if tags =? 0 then remove_partition c p else Ok c
            end in
          let t := with_n_rules (s32 (st_n_rules t - 1)) t in
          let c := put_subtable s t c in
          let* c :=
            if st_n_rules t =? 0 then destroy_subtable c s
            else update_subtables_after_removal c s (priority r) in
          Ok (set_n_rules (s32 (n_rules c - 1)) c)
      end
  end.

(** ** The program: lookup *)

(** [None] while [lookup_done] is false, then [match_plen] and [maskbits]. *)
Record trie_ctx := Mk_ctx { ctx_trie : cls_trie; be32ofs : Z; lookup_done : option (Z * Z) }.

Definition trie_ctx_init (t : cls_trie) : Res trie_ctx :=
  let* mf := the_field t in Ok (Mk_ctx t (flow_be32ofs mf) None).

Fixpoint ctxs_init (l : list cls_trie) : Res (list trie_ctx) :=
  match l with
  | [] => Ok []
  | t :: l => let* x := trie_ctx_init t in let* l := ctxs_init l in Ok (x :: l)
  end.

(** The answer, the contexts and the wildcards afterwards. *)
Fixpoint check_tries (ctxs : list trie_ctx) (field_plen : list Z) (start end_ : Z) (f : flow) (wc : list Z)
    : Res (bool * list trie_ctx * list Z) :=
  match ctxs, field_plen with
  | ctx :: ctxs, plen :: field_plen =>
      let skip ctx :=
        let* (b, ctxs, wc) := check_tries ctxs field_plen start end_ f wc in Ok (b, ctx :: ctxs, wc) in
      if negb (plen =? 0) && ((start <=? be32ofs ctx) && (be32ofs ctx <? end_)) then
        let* (match_plen, maskbits) :=
          match lookup_done ctx with
          | Some r => Ok r
          | None => trie_lookup (ctx_trie ctx) f
          end in
        let ctx := Mk_ctx (ctx_trie ctx) (be32ofs ctx) (Some (match_plen, maskbits)) in
        if match_plen <? plen then
          let* set := mask_prefix_bits_set wc (be32ofs ctx) maskbits in
          if set then Ok (true, ctx :: ctxs, wc)
          else if maskbits <=? plen then
            let* wc := mask_set_prefix_bits wc (be32ofs ctx) maskbits in
            Ok (true, ctx :: ctxs, wc)
          else skip ctx
        else skip ctx
      else skip ctx
  | [], _ => Ok (false, [], wc)
  | _ :: _, [] => Fault OutOfBounds
  end.

Fixpoint find_match_in (c : classifier) (f : list Z) (l : list (hmap_node (list nat))) : Res (option nat) :=
  match l with
  | [] => Ok None
  | nd :: l =>
      let* r := load (rule_at c) (node_addr nd) in
      let* m := minimatch_matches_flow (match_of r) f in
      if m then Ok (Some (node_addr nd)) else find_match_in c f l
  end.

Definition find_match (c : classifier) (t : cls_subtable) (f : flow) (hash : Z) : Res (option nat) :=
  let* l := hmap_for_each_with_hash (rules_of t) hash in
  find_match_in c (flow_u32 target f) l.

(** Where the loop of [find_match_wc] over the indexes ends: at [range_out], at
    [out] with a rule, or behind the last index, with the rule that the flow
    has been narrowed down to and the basis. *)
Inductive stage :=
  | RangeOut (ofs_start : Z)
  | Out (rule : nat)
  | Final (ofs_start basis : Z) (rule : option nat).

Fixpoint check_indices (c : classifier) (t : cls_subtable) (f : flow) (l : list (Z * rule_index)) (start basis : Z)
    (rule : option nat) (ctxs : list trie_ctx) (wc : list Z) : Res (stage * list trie_ctx * list Z) :=
  match l with
  | [] => Ok (Final start basis rule, ctxs, wc)
  | (ofs_end, h) :: l =>
      let* (skip, ctxs, wc) := check_tries ctxs (trie_plen t) start ofs_end f wc in
      if skip then Ok (RangeOut start, ctxs, wc)
      else
        let* (hash, basis) := flow_hash_in_minimask_range target (flow_u32 target f) (mask_of t) start ofs_end basis in
        let start := ofs_end in
        let* inode := hindex_node_with_hash h hash in
        match inode with
        | [] => Ok (RangeOut start, ctxs, wc)
        | inode :: _ =>
            match node_val inode, rule with
            | [_], None =>
                let* r := load (rule_at c) (node_addr inode) in
                let* m := minimatch_matches_flow (match_of r) (flow_u32 target f) in
                if m then Ok (Out (node_addr inode), ctxs, wc)
                else check_indices c t f l start basis (Some (node_addr inode)) ctxs wc
            | _, _ => check_indices c t f l start basis rule ctxs wc
            end
        end
  end.

Definition find_match_wc (c : classifier) (t : cls_subtable) (f : flow) (ctxs : list trie_ctx) (wc : option (list Z))
    : Res (option nat * list trie_ctx * option (list Z)) :=
  match wc with
  | None =>
      let* hash := flow_hash_in_minimask (flow_u32 target f) (mask_of t) 0 in
      let* r := find_match c t f hash in
      Ok (r, ctxs, None)
  | Some wc =>
      let out rule ctxs wc :=
        let* wc := flow_wildcards_fold_minimask wc (mask_of t) in Ok (rule, ctxs, Some wc) in
      let range_out start ctxs wc :=
        let* wc := if negb (start =? 0) then flow_wildcards_fold_minimask_range target wc (mask_of t) 0 start else Ok wc in
        Ok (None, ctxs, Some wc) in
      let* (st, ctxs, wc) := check_indices c t f (indices t) 0 0 None ctxs wc in
      match st with
      | RangeOut start => range_out start ctxs wc
      | Out rule => out (Some rule) ctxs wc
      | Final start basis rule =>
          let* (skip, ctxs, wc) := check_tries ctxs (trie_plen t) start (Z.of_nat (FLOW_U32S target)) f wc in
          if skip then range_out start ctxs wc
          else
            match rule with
            | None =>
                let* (hash, _) := flow_hash_in_minimask_range target (flow_u32 target f) (mask_of t) start
                                    (Z.of_nat (FLOW_U32S target)) basis in
                let* rule := find_match c t f hash in
                out rule ctxs wc
            | Some _ => out None ctxs wc
            end
      end
  end.

(** The two loops of [classifier_lookup], the second with a best rule so far. *)
Fixpoint lookup_rest (c : classifier) (f : flow) (tags : Z) (l : list nat) (best : nat * Z) (ctxs : list trie_ctx)
    (wc : option (list Z)) : Res (option nat * option (list Z)) :=
  match l with
  | [] => Ok (Some (fst best), wc)
  | s :: l =>
      let* t := load (subtable_at c) s in
      if max_priority t <=? snd best then Ok (Some (fst best), wc)
      else if negb (tag_intersects tags (st_tag t)) then lookup_rest c f tags l best ctxs wc
      else
        let* (rule, ctxs, wc) := find_match_wc c t f ctxs wc in
        match rule with
        | None => lookup_rest c f tags l best ctxs wc
        | Some a =>
            let* r := load (rule_at c) a in
            lookup_rest c f tags l (if snd best <? priority r then (a, priority r) else best) ctxs wc
        end
  end.

Fixpoint lookup_first (c : classifier) (f : flow) (tags : Z) (l : list nat) (ctxs : list trie_ctx)
    (wc : option (list Z)) : Res (option nat * option (list Z)) :=
  match l with
  | [] => Ok (None, wc)
  | s :: l =>
      let* t := load (subtable_at c) s in
      if negb (tag_intersects tags (st_tag t)) then lookup_first c f tags l ctxs wc
      else
        let* (rule, ctxs, wc) := find_match_wc c t f ctxs wc in
        match rule with
        | None => lookup_first c f tags l ctxs wc
        | Some a =>
            let* r := load (rule_at c) a in
            lookup_rest c f tags l (a, priority r) ctxs wc
        end
  end.

Definition classifier_lookup (c : classifier) (f : flow) (wc : option (list Z)) : Res (option nat * option (list Z)) :=
  let* partition :=
    if hmap_is_empty (partitions c) then Ok None else find_partition c (metadata f) (hash_metadata (metadata f)) in
  let* tags :=
    match partition with
    | Some p => let* pt := load (partition_at c) p in Ok (p_tags pt)
    | None => Ok TAG_ARBITRARY
    end in
  let* ctxs := ctxs_init (take (n_tries c) (tries c)) in
  lookup_first c f tags (subtables_priority c) ctxs wc.

(** ** The program: search *)

Fixpoint find_priority (prio : Z) (l : list (nat * cls_rule)) : option nat :=
  match l with
  | [] => None
  | (a, r) :: l =>
      if priority r <=? prio then if prio =? priority r then Some a else None
      else find_priority prio l
  end.

Definition classifier_find_rule_exactly (c : classifier) (tgt : cls_rule) : Res (option nat) :=
  let* found := find_subtable c (mm_mask (match_of tgt)) in
  match found with
  | None => Ok None
  | Some s =>
      let* t := load (subtable_at c) s in
      if max_priority t <? priority tgt then Ok None
      else
        let* hash := miniflow_hash_in_minimask target (mm_flow (match_of tgt)) (mm_mask (match_of tgt)) 0 in
        let* head := find_equal c t (mm_flow (match_of tgt)) hash in
        match head with
        | None => Ok None
        | Some nd =>
            let* l := each_rule_in_list c (node_val nd) in
            Ok (find_priority (priority tgt) l)
        end
  end.

(** [uninit] is the contents of the local variable [cr]. *)
Definition classifier_find_match_exactly (c : classifier) (tgt : match_) (prio : Z) (uninit : cls_rule) : Res (option nat) :=
  let* cr := cls_rule_init uninit tgt prio in
  classifier_find_rule_exactly c cr.

(** The loop over the list of identical rules in [classifier_rule_overlaps]. *)
Fixpoint overlaps_list (tgt : cls_rule) (mask : minimask) (l : list (nat * cls_rule)) : Res bool :=
  match l with
  | [] => Ok false
  | (_, r) :: l =>
      if priority r <? priority tgt then Ok false
      else if priority r =? priority tgt then
        let* eq := miniflow_equal_in_minimask target (mm_flow (match_of tgt)) (mm_flow (match_of r)) mask in
        if eq then Ok true else overlaps_list tgt mask l
      else overlaps_list tgt mask l
  end.

Fixpoint overlaps_heads (c : classifier) (tgt : cls_rule) (mask : minimask) (l : list (hmap_node (list nat))) : Res bool :=
  match l with
  | [] => Ok false
  | nd :: l =>
      let* rules := each_rule_in_list c (node_val nd) in
      let* b := overlaps_list tgt mask rules in
      if b then Ok true else overlaps_heads c tgt mask l
  end.

Fixpoint overlaps_subtables (c : classifier) (tgt : cls_rule) (l : list nat) : Res bool :=
  match l with
  | [] => Ok false
  | s :: l =>
      let* t := load (subtable_at c) s in
      if max_priority t <? priority tgt then Ok false
      else
        let* mask := minimask_combine target (Mk_minimask zero_mini) (mm_mask (match_of tgt)) (mask_of t)
                       (replicate (FLOW_U32S target) None) in
        let* b := overlaps_heads c tgt mask (each (rules_of t)) in
        if b then Ok true else overlaps_subtables c tgt l
  end.

Definition classifier_rule_overlaps (c : classifier) (tgt : cls_rule) : Res bool :=
  overlaps_subtables c tgt (subtables_priority c).

(** ** The program: iteration *)

Definition rule_matches (r : cls_rule) (tgt : option cls_rule) : Res bool :=
  match tgt with
  | None => Ok true
  | Some g => miniflow_equal_in_minimask target (mm_flow (match_of r)) (mm_flow (match_of g)) (mm_mask (match_of g))
  end.

Fixpoint first_match (c : classifier) (tgt : option cls_rule) (l : list (hmap_node (list nat))) : Res (option nat) :=
  match l with
  | [] => Ok None
  | nd :: l =>
      let* r := load (rule_at c) (node_addr nd) in
      let* m := rule_matches r tgt in
      if m then Ok (Some (node_addr nd)) else first_match c tgt l
  end.

Definition search_subtable (c : classifier) (t : cls_subtable) (tgt : option cls_rule) : Res (option nat) :=
  let* extra :=
    match tgt with
    | None => Ok false
    | Some g => minimask_has_extra target (mask_of t) (mm_mask (match_of g))
    end in
  if negb extra then first_match c tgt (each (rules_of t)) else Ok None.

Record cls_cursor := Mk_cursor { cur_subtable : option nat; cur_target : option cls_rule }.

Definition cls_cursor_init (tgt : option cls_rule) : Res cls_cursor :=
  match tgt with
  | None => Ok (Mk_cursor None None)
  | Some g =>
      let* catchall := cls_rule_is_catchall g in
      Ok (Mk_cursor None (if negb catchall then Some g else None))
  end.

Fixpoint search_subtables (c : classifier) (tgt : option cls_rule) (l : list (hmap_node unit))
    : Res (option (nat * nat)) :=
  match l with
  | [] => Ok None
  | nd :: l =>
      let* t := load (subtable_at c) (node_addr nd) in
      let* r := search_subtable c t tgt in
      match r with
      | Some r => Ok (Some (node_addr nd, r))
      | None => search_subtables c tgt l
      end
  end.

(** The rule, if there is one, and the cursor. *)
Definition found_at (cur : cls_cursor) (r : option (nat * nat)) : option nat * cls_cursor :=
  match r with
  | Some (s, a) => (Some a, Mk_cursor (Some s) (cur_target cur))
  | None => (None, cur)
  end.

Definition cls_cursor_first (c : classifier) (cur : cls_cursor) : Res (option nat * cls_cursor) :=
  let* r := search_subtables c (cur_target cur) (each (subtables c)) in
  Ok (found_at cur r).

(** The elements of a loop behind the node at [a]. *)
Fixpoint behind {A} (a : nat) (l : list (hmap_node A)) : list (hmap_node A) :=
  match l with
  | [] => []
  | nd :: l => if decide (node_addr nd = a) then l else behind a l
  end.

(** The list a rule is on, and the element behind it in the circle. *)
Definition list_of_rule (t : cls_subtable) (a : nat) : Res (list nat) :=
  match List.find (fun nd => bool_decide (a ∈ node_val nd)) (hmap_nodes (rules_of t)) with
  | Some nd => Ok (node_val nd)
  | None => Fault UseAfterFree
  end.

Fixpoint next_of (a : nat) (first : nat) (l : list nat) : nat :=
  match l with
  | [] => first
  | x :: l' => if decide (x = a) then match l' with [] => first | y :: _ => y end else next_of a first l'
  end.

Definition next_rule_in_list__ (t : cls_subtable) (a : nat) : Res nat :=
  let* ring := list_of_rule t a in
  match ring with
  | [] => Fault NullDeref
  | first :: _ => Ok (next_of a first ring)
  end.

Definition cls_cursor_next (c : classifier) (cur : cls_cursor) (a : nat) : Res (option nat * cls_cursor) :=
  match cur_subtable cur with
  | None => Fault UninitRead
  | Some s =>
      let* t := load (subtable_at c) s in
      let* rule := load (rule_at c) a in
      let* next := next_rule_in_list__ t a in
      let* next_rule := load (rule_at c) next in
      if priority next_rule <? priority rule then Ok (Some next, cur)
      else
        let* r := first_match c (cur_target cur) (behind next (each (rules_of t))) in
        match r with
        | Some r => Ok (Some r, cur)
        | None =>
            let* r := search_subtables c (cur_target cur) (behind s (each (subtables c))) in
            Ok (found_at cur r)
        end
  end.

End Target.
