(* ===== verification/ClsFacts.v ===== *)
(** * The classifier: the words under a mask

    What a mask leaves of a flow, the hashes of the stages of a lookup, which
    bits the wildcards of a lookup have, and prefixes of words. *)

From Stdlib Require Import ZArith Lia List Bool.
From stdpp Require Import base option list_relations list sets gmap.
From S2P Require Import Prelude Bytes Hash Csum Packets Bits Hmap Hindex Flow FlowFacts FlowCompose Miniflow MiniflowFacts MiniflowProps MatchSet MetaFlow Tag Trie TrieFacts Classifier.
#[local] Open Scope Z_scope.
#[local] Open Scope res_scope.

#[local] Opaque one_bits for_each_1bit.

(** ** Masked words *)

(** The bits of [x] under the mask [w]. *)
Definition masked (w x : list Z) : list Z := zip_with Z.land x w.

Lemma nth_masked w x i : length x = length w -> nth i (masked w x) 0 = Z.land (nth i x 0) (nth i w 0).
Proof. intros H. unfold masked. apply nth_zip_land. done. Qed.

Lemma length_masked w x : length x = length w -> length (masked w x) = length w.
Proof. intros H. unfold masked. rewrite length_zip_with. lia. Qed.

Lemma masked_eq w x y : length x = length w -> length y = length w ->
  masked w x = masked w y <-> forall i, Z.land (nth i x 0) (nth i w 0) = Z.land (nth i y 0) (nth i w 0).
Proof.
  intros Hx Hy. split.
  - intros E i. rewrite <- !nth_masked by done. rewrite E. done.
  - intros H. apply words_eq; [rewrite !length_masked; done|]. intros i _. rewrite !nth_masked by done. apply H.
Qed.

Lemma masked_idem w x : length x = length w -> masked w (masked w x) = masked w x.
Proof.
  intros H. apply masked_eq; [rewrite length_masked; done | done |]. intros i.
  rewrite nth_masked by done. rewrite <- Z.land_assoc, Z.land_diag. done.
Qed.

Lemma land_lxor_iff a b w : Z.land (Z.lxor a b) w = 0 <-> Z.land a w = Z.land b w.
Proof.
  split; [apply land_lxor_zero|]. intros H. apply Z.bits_inj'. intros i Hi.
  apply (f_equal (fun z => Z.testbit z i)) in H. rewrite !Z.land_spec in H. rewrite Z.land_spec, Z.lxor_spec, Z.bits_0.
  destruct (Z.testbit a i), (Z.testbit b i), (Z.testbit w i); done.
Qed.

(** A rule whose words have no bits outside its mask matches exactly the flows
    that it is the masked words of. *)
Lemma matches_masked v w x : length v = length w -> length x = length w -> masked w v = v ->
  flow_equal_except v x w = bool_decide (v = masked w x).
Proof.
  intros Hv Hx Hz. apply eq_true_iff_eq. rewrite bool_decide_eq_true, equal_except_spec by lia.
  transitivity (masked w v = masked w x); [rewrite masked_eq by done | rewrite Hz; done]. split; intros H i; specialize (H i); apply land_lxor_iff; done.
Qed.

(** ** Hashes of stages *)

Section Stages.
Variable target : abi.
Hypothesis Htarget : target = i686 \/ target = x86_64.

Abbreviation nw := (FLOW_U32S target).

Lemma nw_bound : (nw < 64)%nat.
Proof. destruct Htarget as [-> | ->]; vm_compute; lia. Qed.

(** The value left after the words below [e], and the hash finished there. *)
Definition acc (N : Z) (w x : list Z) (e : nat) : Z := hash_at (one_bits_from 0 e N) x w 0.
Definition seg_hash (N : Z) (w x : list Z) (e : nat) : Z :=
  mhash_finish (acc N w x e) (Z.of_nat (length (one_bits_from 0 e N)) * 4).

Lemma seg_hash_u32 N w x e : in_u32 (seg_hash N w x e).
Proof. apply mhash_finish_u32. Qed.

Lemma acc_step N w x s e : (s <= e)%nat ->
  hash_at (one_bits_from s (e - s) N) x w (acc N w x s) = acc N w x e.
Proof.
  intros H. unfold acc. rewrite (one_bits_split 0 e N s) by done. rewrite hash_at_app. do 2 f_equal; lia.
Qed.

Lemma bits_step N s e : (s <= e)%nat ->
  (length (one_bits_from 0 s N) + length (one_bits_from s (e - s) N))%nat = length (one_bits_from 0 e N).
Proof. intros H. rewrite (one_bits_split 0 e N s) by done. rewrite length_app. done. Qed.

Lemma flow_stage mask w x s e : mf_rep target (masks mask) w -> length x = nw -> (s <= e <= nw)%nat ->
  let N := mf_map (masks mask) in
  flow_hash_in_minimask_range target x mask (Z.of_nat s) (Z.of_nat e) (acc N w x s) = Ok (seg_hash N w x e, acc N w x e).
Proof.
  intros Hw Hx Hse N. pose proof nw_bound.
  rewrite (flow_hash_in_minimask_range_rep target Htarget x mask w s e) by (done || lia).
  unfold clip. rewrite Nat.min_l by lia. fold N. rewrite acc_step, bits_step by lia. done.
Qed.

Lemma rule_stage m v w s e : mm_rep target m v w -> (s <= e <= nw)%nat ->
  let N := mf_map (masks (mm_mask m)) in
  minimatch_hash_range target m (Z.of_nat s) (Z.of_nat e) (acc N w v s) = Ok (seg_hash N w v e, acc N w v e).
Proof.
  intros Hm Hse N. pose proof nw_bound.
  rewrite (minimatch_hash_range_rep target Htarget m v w s e) by (done || lia).
  unfold clip. rewrite Nat.min_l by lia. fold N. rewrite acc_step, bits_step by lia. done.
Qed.

Lemma acc_0 N w x : acc N w x 0 = 0.
Proof. reflexivity. Qed.

(** A hash depends only on the words under the mask below its end. *)
Lemma seg_hash_local N w x y e : (forall i, (i < e)%nat -> Z.land (nth i x 0) (nth i w 0) = Z.land (nth i y 0) (nth i w 0)) ->
  seg_hash N w x e = seg_hash N w y e.
Proof.
  intros H. unfold seg_hash, acc, hash_at. do 2 f_equal. apply map_ext_in. intros i Hi. apply H.
  apply list_elem_of_In in Hi. unfold one_bits_from in Hi. rewrite list_elem_of_filter, elem_of_seq in Hi. lia.
Qed.

Lemma seg_hash_masked N w x y e : length x = length w -> length y = length w -> masked w x = masked w y ->
  seg_hash N w x e = seg_hash N w y e.
Proof. intros Hx Hy E. apply seg_hash_local. intros i _. apply masked_eq; done. Qed.

(** The hash over the whole mask. *)
Definition full_hash (N : Z) (w x : list Z) : Z := seg_hash N w x nw.

Lemma whole_bits mf w : mf_rep target mf w -> one_bits (mf_map mf) = one_bits_from 0 nw (mf_map mf).
Proof.
  intros H. pose proof nw_bound. rewrite one_bits_whole, (one_bits_split 0 64 _ nw) by lia.
  replace (one_bits_from (0 + nw) (64 - nw) (mf_map mf)) with (@nil nat); [apply app_nil_r|]. symmetry.
  unfold one_bits_from. apply elem_of_nil_inv. intros i. rewrite list_elem_of_filter, elem_of_seq. intros [Hb Hi].
  apply (rep_in _ _ _ H) in Hb. lia.
Qed.

Lemma flow_whole mask w x : mf_rep target (masks mask) w -> length x = nw ->
  flow_hash_in_minimask x mask 0 = Ok (full_hash (mf_map (masks mask)) w x).
Proof.
  intros Hw Hx. rewrite (flow_hash_in_minimask_rep target x mask w 0 Hx Hw), (whole_bits _ _ Hw). done.
Qed.

Lemma rule_whole m v w : mm_rep target m v w ->
  miniflow_hash_in_minimask target (mm_flow m) (mm_mask m) 0 = Ok (full_hash (mf_map (masks (mm_mask m))) w v).
Proof.
  intros (Hf & Hw & _ & _). rewrite (miniflow_hash_in_minimask_rep target Htarget _ _ _ w 0 Hf Hw), (whole_bits _ _ Hw).
  rewrite (hash_at_in_map target _ _ _ _ _ Hw). done.
Qed.

(** ** Wildcards of a lookup *)

(** [a] has all bits of [b]. *)
Definition covers (a b : list Z) : Prop := forall i j, 0 <= j -> Z.testbit (nth i b 0) j = true -> Z.testbit (nth i a 0) j = true.

Lemma covers_refl a : covers a a.
Proof. intros i j _ H. done. Qed.
Lemma covers_trans a b c : covers a b -> covers b c -> covers a c.
Proof. intros H1 H2 i j Hj H. apply H1, H2; done. Qed.

(** Two flows have the same bits under wildcards. *)
Definition agree_on (wc x y : list Z) : Prop := forall i, Z.land (nth i x 0) (nth i wc 0) = Z.land (nth i y 0) (nth i wc 0).

Lemma agree_bits wc x y : agree_on wc x y <->
  forall i j, 0 <= j -> Z.testbit (nth i wc 0) j = true -> Z.testbit (nth i x 0) j = Z.testbit (nth i y 0) j.
Proof.
  split.
  - intros H i j _ Hb. specialize (H i). apply (f_equal (fun z => Z.testbit z j)) in H. rewrite !Z.land_spec, Hb, !andb_true_r in H. done.
  - intros H i. apply Z.bits_inj'. intros j Hj. rewrite !Z.land_spec. destruct (Z.testbit (nth i wc 0) j) eqn:E; [|rewrite !andb_false_r; done].
    rewrite (H i j Hj E). done.
Qed.

Lemma agree_covers a b x y : covers a b -> agree_on a x y -> agree_on b x y.
Proof. rewrite !agree_bits. intros Hc H i j Hj Hb. apply H; [done|]. apply Hc; done. Qed.

Lemma agree_masked w x y : length x = length w -> length y = length w -> agree_on w x y <-> masked w x = masked w y.
Proof. intros Hx Hy. rewrite masked_eq by done. done. Qed.

Record words_ok (wc : list Z) : Prop := { wo_len : length wc = nw; wo_u32 : Forall in_u32 wc }.

Lemma lor_u32 x y : in_u32 x -> in_u32 y -> in_u32 (Z.lor x y).
Proof. apply lor_range. lia. Qed.

Lemma nth_u32 (l : list Z) i : Forall in_u32 l -> in_u32 (nth i l 0).
Proof.
  intros H. destruct (nth_in_or_default i l 0) as [Hi| ->]; [|unfold in_u32; lia].
  rewrite Forall_forall in H. apply H, list_elem_of_In, Hi.
Qed.

(** The fold of a whole mask, and of its words below [e]. *)
Lemma fold_mask mask w wc : mf_rep target (masks mask) w -> words_ok wc ->
  exists wc', flow_wildcards_fold_minimask wc mask = Ok wc' /\ words_ok wc' /\ covers wc' wc /\ covers wc' w.
Proof.
  intros Hw [Hl Hu]. exists (zip_with Z.lor wc w). pose proof (rep_len _ _ _ Hw) as Lw.
  assert (forall i, nth i (zip_with Z.lor wc w) 0 = Z.lor (nth i wc 0) (nth i w 0)) as Hn.
  { intros i. rewrite !nth_lookup, lookup_zip_with. destruct (wc !! i) as [x|] eqn:Ex.
    - destruct (lookup_lt_is_Some_2 w i) as [y Ey]; [apply lookup_lt_Some in Ex; lia|]. rewrite Ey. done.
    - rewrite (lookup_ge_None_2 w); [done|]. apply lookup_ge_None in Ex. lia. }
  split; [apply (union_rep target Htarget); done|]. split.
  { split; [rewrite length_zip_with; lia|]. apply Forall_lookup. intros i x. rewrite lookup_zip_with.
    destruct (wc !! i) as [a|] eqn:Ea; [|done]. destruct (w !! i) as [b|] eqn:Eb; [|done]. cbn. intros [= <-].
    apply lor_u32; [apply (Forall_lookup_1 _ _ _ _ Hu Ea) | apply (Forall_lookup_1 _ _ _ _ (rep_u32 _ _ _ Hw) Eb)]. }
  split; intros i j _ H; rewrite Hn, Z.lor_spec, H; [done | apply orb_true_r].
Qed.

Lemma fold_range mask w wc s e : mf_rep target (masks mask) w -> length wc = nw -> (s <= e <= nw)%nat ->
  flow_wildcards_fold_minimask_range target wc mask (Z.of_nat s) (Z.of_nat e) =
    Ok (fold_at (one_bits_from s (e - s) (mf_map (masks mask))) wc w).
Proof.
  intros Hw Hl Hse. unfold flow_wildcards_fold_minimask_range. pose proof nw_bound.
  destruct (map_in_range_rep target Htarget _ w s e Hw) as (m & k & -> & Hp & _ & Hm); [lia..|].
  rewrite (union_loop target Htarget _ w wc m k Hw Hp Hl). cbn [rbind]. rewrite Hm. unfold clip. rewrite Nat.min_l by lia. done.
Qed.

Lemma fold_prefix mask w wc e : mf_rep target (masks mask) w -> words_ok wc -> (e <= nw)%nat ->
  exists wc', flow_wildcards_fold_minimask_range target wc mask 0 (Z.of_nat e) = Ok wc' /\ words_ok wc' /\ covers wc' wc /\
    forall i j, (i < e)%nat -> Z.testbit (nth i w 0) j = true -> Z.testbit (nth i wc' 0) j = true.
Proof.
  intros Hw [Hl Hu] He. exists (fold_at (one_bits_from 0 e (mf_map (masks mask))) wc w).
  split; [pose proof (fold_range mask w wc 0 e Hw Hl ltac:(lia)) as E; rewrite Nat.sub_0_r in E; exact E|].
  assert (forall i, (i < nw)%nat -> nth i (fold_at (one_bits_from 0 e (mf_map (masks mask))) wc w) 0 =
    if decide (i ∈ one_bits_from 0 e (mf_map (masks mask))) then Z.lor (nth i wc 0) (nth i w 0) else nth i wc 0) as Hn.
  { intros i Hi. apply nth_fold_at. lia. }
  split.
  { split; [rewrite length_fold_at; done|]. unfold fold_at. apply Forall_lookup. intros i x. rewrite list_lookup_imap.
    destruct (wc !! i) as [a|] eqn:Ea; [|done]. cbn. pose proof (Forall_lookup_1 _ _ _ _ Hu Ea) as Ha.
    intros [= <-]. destruct (decide _); [apply lor_u32; [done | apply nth_u32, (rep_u32 _ _ _ Hw)] | done]. }
  split.
  - intros i j _ H. destruct (decide (i < nw)%nat); [|rewrite nth_overflow in H by lia; rewrite Z.bits_0 in H; done].
    rewrite Hn by done. destruct (decide _); [rewrite Z.lor_spec, H; done | done].
  - intros i j Hi H. assert (i ∈ one_bits_from 0 e (mf_map (masks mask))) as Hin.
    { unfold one_bits_from. rewrite list_elem_of_filter, elem_of_seq. split; [|lia].
      destruct (Z.testbit (mf_map (masks mask)) (Z.of_nat i)) eqn:E; [done|].
      rewrite (rep_out _ _ _ Hw i E), Z.bits_0 in H. done. }
    rewrite Hn, decide_True by (done || lia).
    rewrite Z.lor_spec, H. apply orb_true_r.
Qed.

(** ** Prefixes *)

(** Leading 1-bits: what the test in [minimask_get_prefix_len] accepts. *)
Lemma contiguous_bits m : in_u32 m -> Z.land (u32 (Z.lnot m)) (u32 (u32 (Z.lnot m) + 1)) = 0 ->
  exists t, (t <= 32)%nat /\ ctz32 m = Z.of_nat t /\ (m = 0 <-> t = 32%nat) /\
    forall i, (i < 32)%nat -> Z.testbit m (31 - Z.of_nat i) = bool_decide (i < 32 - t)%nat.
Proof.
  intros Hm H. destruct (Z.eq_dec m 0) as [->|Hnz].
  { exists 32%nat. split; [lia|]. split; [done|]. split; [lia|]. intros i Hi. rewrite Z.bits_0, bool_decide_eq_false_2 by lia. done. }
  unfold in_u32 in Hm. assert (u32 (Z.lnot m) = 2 ^ 32 - 1 - m) as Ex by (unfold u32, Z.lnot; zdm). rewrite Ex in H.
  rewrite u32_id in H by (unfold in_u32; lia). unfold ctz32. rewrite (proj2 (Z.eqb_neq m 0)) by done.
  destruct (ends_in_exists m) as [t Ht]; [lia|]. rewrite (raw_ctz_ok m t Ht) by (unfold in_u64; lia).
  destruct Ht as (q & H0 & Hq & Em).
  assert (t < 32) as H32 by (apply (Z.pow_lt_mono_r_iff 2); nia).
  assert (2 ^ 32 = 2 ^ (t + 1) * 2 ^ (31 - t)) as E32 by (rewrite <- Z.pow_add_r by lia; f_equal; lia).
  assert (2 ^ (t + 1) = 2 * 2 ^ t) as Hp by (rewrite Z.pow_add_r; lia).
  assert (0 < 2 ^ t) as Hpos by lia.
  assert (2 ^ (31 - t) = q + 1) as Eq.
  { apply (f_equal (fun z => Z.shiftr z (t + 1))) in H. rewrite Z.shiftr_land, Z.shiftr_0_l, !Z.shiftr_div_pow2 in H by lia.
    assert ((2 ^ 32 - 1 - m) / 2 ^ (t + 1) = 2 ^ (31 - t) - q - 1) as E1.
    { symmetry. apply (Z.div_unique _ _ _ (2 ^ t - 1)); [lia|]. nia. }
    assert ((2 ^ 32 - 1 - m + 1) / 2 ^ (t + 1) = 2 ^ (31 - t) - q - 1) as E2.
    { symmetry. apply (Z.div_unique _ _ _ (2 ^ t)); [lia|]. nia. }
    rewrite E1, E2, Z.land_diag in H. lia. }
  assert (m = Z.shiftl (Z.ones (32 - t)) t) as Eo.
  { rewrite Z.shiftl_mul_pow2, Z.ones_equiv by lia. replace (32 - t) with (31 - t + 1) by lia. rewrite Z.pow_add_r, Eq by lia. nia. }
  exists (Z.to_nat t). split; [lia|]. split; [lia|]. split; [lia|]. intros i Hi. rewrite Eo, Z.shiftl_spec by lia.
  case_bool_decide; [apply Z.ones_spec_low; lia|].
  destruct (Z.lt_ge_cases (31 - Z.of_nat i - t) 0); [apply Z.testbit_neg_r; lia | apply Z.ones_spec_high; lia].
Qed.

Lemma vbit_word v i : vbit v i = Z.testbit (ntohl (nth (i / 32) v 0)) (31 - Z.of_nat (i mod 32)).
Proof. reflexivity. Qed.

Lemma ntohl_zero x : in_u32 x -> ntohl x = 0 -> x = 0.
Proof.
  intros Hx H. rewrite <- (byteswap_invol x Hx). change (uint32_byteswap x) with (ntohl x). rewrite H. reflexivity.
Qed.

(** The bits a loop over [k] words from word [o] on goes over. *)
Lemma prefix_len_spec mask w : mf_rep target (masks mask) w -> forall n o tz nb, (o + n <= nw)%nat -> 0 <= tz -> 0 <= nb ->
  exists r, prefix_len_loop target mask n (Z.of_nat o) tz nb = Ok r /\ 0 <= r /\
    (r <> 0 -> exists p, (p <= 32 * n)%nat /\ r = nb + Z.of_nat p /\ (tz <> 0 -> p = 0%nat) /\
       forall i, (i < 32 * n)%nat -> vbit (drop o w) i = bool_decide (i < p)%nat).
Proof.
  intros Hw. induction n as [|n IH]; intros o tz nb Ho Htz Hnb; cbn [prefix_len_loop].
  { exists nb. split; [done|]. split; [done|]. intros _. exists 0%nat. split; [lia|]. split; [lia|]. split; [done|]. lia. }
  pose proof nw_bound. unfold minimask_get. rewrite (miniflow_get_rep target _ w o Hw) by lia.
  cbn [rbind]. assert (in_u32 (ntohl (nth o w 0))) as Hu by apply ntohl_in_u32.
  assert (forall i, (i < 32 * S n)%nat -> vbit (drop o w) i =
    if decide (i < 32)%nat then Z.testbit (ntohl (nth o w 0)) (31 - Z.of_nat i) else vbit (drop (S o) w) (i - 32)) as Hv.
  { intros i Hi. rewrite vbit_word, nth_skipn. destruct (decide (i < 32)%nat).
    - rewrite Nat.div_small, Nat.mod_small, Nat.add_0_r by done. done.
    - rewrite vbit_word, nth_skipn. replace i with (i - 32 + 1 * 32)%nat at 1 2 by lia.
      rewrite Nat.div_add, Nat.Div0.mod_add by lia. do 3 f_equal. lia. }
  replace (Z.of_nat o + 1) with (Z.of_nat (S o)) by lia.
  destruct (Z.eqb_spec tz 0) as [->|Htz0]; cbn [negb].
  - destruct (Z.eqb_spec (Z.land (u32 (Z.lnot (ntohl (nth o w 0)))) (u32 (u32 (Z.lnot (ntohl (nth o w 0))) + 1))) 0) as [Hc|Hc];
      cbn [negb]; [|exists 0; split; [done|]; split; [done|]; done].
    destruct (contiguous_bits _ Hu Hc) as (t & Ht & -> & Htm & Hb).
    destruct (IH (S o) (Z.of_nat t) (nb + (32 - Z.of_nat t))) as (r & -> & Hr & Hrp); [lia..|].
    exists r. split; [done|]. split; [done|]. intros Hr0. destruct (Hrp Hr0) as (p & Hp & -> & Hpt & Hbits).
    exists (32 - t + p)%nat. split; [lia|]. split; [lia|]. split; [done|]. intros i Hi. rewrite Hv by done.
    destruct (decide (i < 32)%nat).
    + rewrite Hb by done. destruct t as [|t].
      * rewrite !bool_decide_eq_true_2 by lia. done.
      * rewrite (Hpt ltac:(lia)), Nat.add_0_r. done.
    + rewrite Hbits by lia. destruct t as [|t].
      * apply bool_decide_ext. lia.
      * rewrite (Hpt ltac:(lia)). rewrite !bool_decide_eq_false_2 by lia. done.
  - destruct (Z.eqb_spec (ntohl (nth o w 0)) 0) as [Hz|Hz]; cbn [negb]; [|exists 0; split; [done|]; split; [done|]; done].
    destruct (IH (S o) tz nb) as (r & -> & Hr & Hrp); [lia..|]. exists r. split; [done|]. split; [done|].
    intros Hr0. destruct (Hrp Hr0) as (p & Hp & -> & Hpt & Hbits). specialize (Hpt Htz0). subst p.
    exists 0%nat. split; [lia|]. split; [lia|]. split; [done|]. intros i Hi. rewrite Hv by done. rewrite bool_decide_eq_false_2 by lia.
    destruct (decide (i < 32)%nat); [rewrite Hz; apply Z.bits_0|]. rewrite Hbits by lia. apply bool_decide_eq_false_2. lia.
Qed.

Lemma initialized_app l b : initialized (map Some l ++ b) = l ++ initialized b.
Proof. induction l as [|x l IH]; cbn; [done|]. rewrite IH. done. Qed.

Lemma all_bits_from o c N : (forall i, (o <= i < o + c)%nat -> Z.testbit N (Z.of_nat i) = true) -> one_bits_from o c N = seq o c.
Proof.
  revert o. induction c as [|c IH]; intros o H; [done|]. unfold one_bits_from. cbn [seq]. rewrite filter_cons, decide_True.
  - f_equal. apply IH. intros i Hi. apply H. lia.
  - apply H. lia.
Qed.

(** The word of a bit of a prefix is not 0. *)
Lemma prefix_word_nonzero (w : list Z) o i : vbit (drop o w) i = true -> nth (o + i / 32) w 0 <> 0.
Proof. intros H E. rewrite vbit_word, nth_skipn, E in H. change (ntohl 0) with 0 in H. rewrite Z.bits_0 in H. done. Qed.

(** The pointer into the compressed flow of a rule sees the prefix of its words. *)
Lemma get_prefix_spec m v w mf o p : mm_rep target m v w -> masked w v = v -> length v = nw -> flow_be32ofs mf = Z.of_nat o ->
  (0 < p)%nat -> (o + (p - 1) / 32 < nw)%nat -> (forall i, (i < p)%nat -> vbit (drop o w) i = true) ->
  (p <= 32 * length (minimatch_get_prefix target m mf))%nat /\
  vbits (minimatch_get_prefix target m mf) 0 p = vbits (drop o v) 0 p.
Proof.
  intros (Hf & Hw & _ & Em) Hz Hv Ho Hp Hb Hc. unfold minimatch_get_prefix. rewrite Ho, Em. pose proof nw_bound.
  set (N := mf_map (masks (mm_mask m))) in *. set (c := S ((p - 1) / 32)).
  assert (p <= 32 * c)%nat as Hpc by (unfold c; pose proof (Nat.div_mod_eq (p - 1) 32); pose proof (Nat.mod_upper_bound (p - 1) 32); lia).
  rewrite bit_word, low_mask by lia. rewrite count_1bits_ok by (apply land_u64; [apply (rep_map _ _ _ Hw) | lia]).
  rewrite Nat2Z.id, one_bits_below by lia.
  destruct (rep_values _ _ _ Hf) as [rest ->]. rewrite Em. fold N. rewrite one_bits_whole, (one_bits_split 0 64 N o) by lia.
  rewrite map_app, <- app_assoc, drop_app_length' by (rewrite length_map; done). rewrite Nat.add_0_l.
  rewrite (one_bits_split o (64 - o) N c) by (unfold c; lia). rewrite all_bits_from.
  2:{ intros i Hi. destruct (Z.testbit N (Z.of_nat i)) eqn:E; [done|]. apply (rep_out _ _ _ Hw) in E.
      assert (vbit (drop o w) (32 * (i - o)) = true) as Hb1.
      { apply Hc. unfold c in Hi. pose proof (Nat.Div0.mul_div_le (p - 1) 32). lia. }
      apply prefix_word_nonzero in Hb1. rewrite Nat.mul_comm, Nat.div_mul in Hb1 by lia. destruct Hb1.
      replace (o + (i - o))%nat with i by lia. exact E. }
  rewrite <- (map_map (fun i => nth i (in_map N v) 0) Some), map_app, map_app, <- app_assoc, initialized_app.
  set (l := map (fun i => nth i (in_map N v) 0) (seq o c)). set (r := initialized _).
  assert (length l = c) as Hl by (unfold l; rewrite length_map, length_seq; done).
  split; [rewrite length_app; lia|]. unfold vbits. apply map_ext_in. intros i Hi. apply in_seq in Hi. rewrite !vbit_word.
  assert (i / 32 < c)%nat as Hic by (apply Nat.Div0.div_lt_upper_bound; lia).
  rewrite app_nth1 by lia. do 2 f_equal. unfold l. rewrite nth_skipn.
  rewrite (nth_indep _ 0 (nth (o + i / 32) (in_map N v) 0)) by (rewrite length_map, length_seq; done).
  rewrite (map_nth (fun i => nth i (in_map N v) 0) (seq o c) (o + i / 32)%nat (i / 32)).
  rewrite seq_nth by done. rewrite nth_in_map. destruct (Z.testbit N (Z.of_nat (o + i / 32))) eqn:E; [done|].
  pose proof (rep_out _ _ _ Hw _ E) as E0. rewrite <- Hz, nth_masked, E0, Z.land_0_r by (rewrite (rep_len _ _ _ Hw); done). done.
Qed.

(** *** Prefixes of the wildcards *)

Lemma htonl_bit x i : 0 <= i < 32 -> Z.testbit (ntohl (htonl x)) i = Z.testbit x i.
Proof.
  intros Hi. unfold ntohl, htonl. rewrite !byteswap_bit by (unfold swap_ix; zdm). f_equal. unfold swap_ix. zdm.
Qed.

Lemma ntohl_lor x y : ntohl (Z.lor x y) = Z.lor (ntohl x) (ntohl y).
Proof. apply byteswap_lor. Qed.

Lemma vbit_drop (v : list Z) o i : vbit (drop o v) i = Z.testbit (ntohl (nth (o + i / 32) v 0)) (31 - Z.of_nat (i mod 32)).
Proof. rewrite vbit_word, nth_skipn. done. Qed.

Lemma bit_pos i : 0 <= 31 - Z.of_nat (i mod 32) < 32.
Proof. pose proof (Nat.mod_upper_bound i 32). lia. Qed.

(** A bit that the wildcards have is the same in flows that agree. *)
Lemma agree_vbit wc x y o i : agree_on wc x y -> vbit (drop o wc) i = true -> vbit (drop o x) i = vbit (drop o y) i.
Proof.
  intros Ha. pose proof (bit_pos i). rewrite !vbit_drop. unfold ntohl. rewrite !byteswap_bit by done.
  intros Hb. apply (proj1 (agree_bits wc x y) Ha); [unfold swap_ix; zdm | done].
Qed.

Lemma covers_vbit a b o i : covers a b -> vbit (drop o b) i = true -> vbit (drop o a) i = true.
Proof.
  intros Hc. pose proof (bit_pos i). rewrite !vbit_drop. unfold ntohl. rewrite !byteswap_bit by done.
  apply Hc. unfold swap_ix. zdm.
Qed.

Lemma all_ones_bit x i : in_u32 x -> u32 (Z.lnot x) = 0 -> 0 <= i < 32 -> Z.testbit (ntohl x) i = true.
Proof.
  intros Hx H Hi. assert (x = OVS_BE32_MAX) as -> by (unfold in_u32, u32, Z.lnot, OVS_BE32_MAX in *; zdm).
  change (ntohl OVS_BE32_MAX) with (Z.ones 32). apply Z.ones_spec_low. lia.
Qed.

Definition n_words (n : nat) : nat := ((n + 31) / 32)%nat.

Lemma n_words_split n : n_words n = (n / 32 + (if decide (n mod 32 = 0) then 0 else 1))%nat.
Proof.
  unfold n_words. pose proof (Nat.div_mod_eq n 32) as E. pose proof (Nat.mod_upper_bound n 32).
  destruct (decide _) as [E0|E0].
  - symmetry. apply (Nat.div_unique _ 32 _ 31); lia.
  - symmetry. apply (Nat.div_unique _ 32 _ (n mod 32 - 1)); lia.
Qed.

Lemma zeroes_of_spec wc : words_ok wc -> forall n o z, (o + n <= nw)%nat -> 0 <= z ->
  exists z', zeroes_of wc (Z.of_nat o) n z = Ok z' /\ 0 <= z' /\
    (z' = 0 <-> z = 0 /\ forall i, (i < n)%nat -> u32 (Z.lnot (nth (o + i) wc 0)) = 0).
Proof.
  intros [Hl Hu]. induction n as [|n IH]; intros o z Ho Hz; cbn [zeroes_of].
  { exists z. split; [done|]. split; [done|]. split; [intros ->; split; [done | lia] | tauto]. }
  rewrite (word_nth target wc o Hl) by lia. cbn [rbind]. replace (Z.of_nat o + 1) with (Z.of_nat (S o)) by lia.
  pose proof (u32_range (Z.lnot (nth o wc 0))) as Hr. unfold in_u32 in Hr.
  destruct (IH (S o) (Z.lor z (u32 (Z.lnot (nth o wc 0))))) as (z' & -> & Hz' & Hi); [lia | apply Z.lor_nonneg; lia |].
  exists z'. split; [done|]. split; [done|]. rewrite Hi, Z.lor_eq_0_iff. split.
  - intros [[-> H0] H]. split; [done|]. intros [|i] Hlt; [rewrite Nat.add_0_r; done|].
    replace (o + S i)%nat with (S o + i)%nat by lia. apply H. lia.
  - intros [-> H]. split; [split; [done|]; specialize (H 0%nat); rewrite Nat.add_0_r in H; apply H; lia|].
    intros i Hlt. replace (S o + i)%nat with (o + S i)%nat by lia. apply H. lia.
Qed.

Lemma last_bits r i : (0 < r < 32)%nat -> (i < 32)%nat ->
  Z.testbit (ntohl (htonl (u32 (Z.shiftl (u32 (Z.lnot 0)) (32 - Z.of_nat r))))) (31 - Z.of_nat i) = bool_decide (i < r)%nat.
Proof. intros Hr Hi. rewrite htonl_bit by lia. apply high_ones_bit; lia. Qed.

Lemma mod_of_nat n k : (0 < k)%nat -> Z.of_nat n mod Z.of_nat k = Z.of_nat (n mod k).
Proof. intros H. rewrite Nat2Z.inj_mod. done. Qed.

Lemma prefix_bits_set_spec wc o n : words_ok wc -> (o + n_words n <= nw)%nat ->
  exists b, mask_prefix_bits_set wc (Z.of_nat o) (Z.of_nat n) = Ok b /\
    (b = true -> forall i, (i < n)%nat -> vbit (drop o wc) i = true).
Proof.
  intros Hwc Ho. pose proof Hwc as [Hl Hu]. rewrite n_words_split in Ho. unfold mask_prefix_bits_set.
  change 32 with (Z.of_nat 32). rewrite <- Nat2Z.inj_div, Nat2Z.id, mod_of_nat by lia.
  pose proof (Nat.div_mod_eq n 32) as En. pose proof (Nat.mod_upper_bound n 32) as Hr.
  destruct (zeroes_of_spec wc Hwc (n / 32) o 0) as (z & -> & Hz & Hi); [lia..|]. cbn [rbind].
  assert (forall i, (i < n / 32 * 32)%nat -> u32 (Z.lnot (nth (o + i / 32) wc 0)) = 0 -> vbit (drop o wc) i = true) as Hfull.
  { intros i Hlt H0. rewrite vbit_drop. apply all_ones_bit; [apply nth_u32, Hu | done | apply bit_pos]. }
  destruct (decide (n mod 32 = 0)%nat) as [E0|E0].
  - rewrite (proj2 (Z.eqb_eq (Z.of_nat (n mod 32)) 0)) by lia. cbn [negb rbind]. eexists. split; [done|].
    rewrite Z.eqb_eq. intros H i Hlt. apply Hi in H as [_ H]. apply Hfull; [lia|]. apply H. apply Nat.Div0.div_lt_upper_bound. lia.
  - rewrite (proj2 (Z.eqb_neq (Z.of_nat (n mod 32)) 0)) by lia. cbn [negb].
    rewrite <- Nat2Z.inj_add, (word_nth target wc _ Hl) by lia. cbn [rbind]. eexists. split; [done|].
    rewrite Z.eqb_eq, Z.lor_eq_0_iff. intros [H1 H2] i Hlt. apply Hi in H1 as [_ H1].
    destruct (decide (i < n / 32 * 32)%nat) as [Hb|Hb]; [apply Hfull; [done|]; apply H1, Nat.Div0.div_lt_upper_bound; lia|].
    assert (i / 32 = n / 32)%nat as Ed by (symmetry; apply (Nat.div_unique i 32 _ (i - 32 * (n / 32))); lia).
    assert (i mod 32 < n mod 32)%nat as Hm by (pose proof (Nat.div_mod_eq i 32); lia).
    rewrite vbit_drop, Ed. apply (f_equal (fun x => Z.testbit (ntohl x) (31 - Z.of_nat (i mod 32)))) in H2.
    unfold ntohl at 1 in H2. rewrite byteswap_land in H2. change (uint32_byteswap 0) with 0 in H2.
    rewrite Z.land_spec, Z.bits_0 in H2.
    change (uint32_byteswap (htonl ?x)) with (ntohl (htonl x)) in H2. rewrite last_bits in H2 by lia.
    rewrite bool_decide_eq_true_2, andb_true_r in H2 by done. pose proof (bit_pos i) as Hp.
    rewrite byteswap_bit in H2 by done. rewrite u32_testbit, Z.lnot_spec in H2 by (unfold swap_ix; zdm).
    unfold ntohl. rewrite byteswap_bit by done.
    rewrite (proj2 (Z.ltb_lt (swap_ix (31 - Z.of_nat (i mod 32))) 32)) in H2 by (unfold swap_ix; zdm).
    destruct (Z.testbit _ _); [done|]. discriminate H2.
Qed.

Lemma nth_insert (l : list Z) i v k : (i < length l)%nat -> nth k (<[i := v]> l) 0 = if decide (k = i) then v else nth k l 0.
Proof.
  intros Hi. rewrite !nth_lookup. destruct (decide (k = i)) as [->|Hn]; [rewrite list_lookup_insert_eq by done; done|].
  rewrite list_lookup_insert_ne by congruence. done.
Qed.

Lemma insert_words_ok wc i v : words_ok wc -> in_u32 v -> words_ok (<[i := v]> wc).
Proof. intros [Hl Hu] Hv. split; [rewrite length_insert; done | apply Forall_insert; done]. Qed.

Lemma set_words_spec n : forall wc o, words_ok wc -> (o + n <= nw)%nat ->
  exists wc', set_words wc (Z.of_nat o) n = Ok wc' /\ words_ok wc' /\
    forall k, nth k wc' 0 = if decide (o <= k < o + n)%nat then OVS_BE32_MAX else nth k wc 0.
Proof.
  induction n as [|n IH]; intros wc o Hwc Ho; cbn [set_words].
  { exists wc. split; [done|]. split; [done|]. intros k. rewrite decide_False by lia. done. }
  pose proof Hwc as [Hl _]. rewrite (set_word_ok wc o) by lia. cbn [rbind].
  replace (Z.of_nat o + 1) with (Z.of_nat (S o)) by lia.
  destruct (IH (<[o := OVS_BE32_MAX]> wc) (S o)) as (wc' & -> & Hwc' & Hk); [apply insert_words_ok; done | lia |].
  exists wc'. split; [done|]. split; [done|]. intros k. rewrite Hk, nth_insert by lia.
  destruct (decide (S o <= k < S o + n)%nat), (decide (o <= k < o + S n)%nat), (decide (k = o)); done || lia.
Qed.

Lemma max_covers x j : in_u32 x -> Z.testbit x j = true -> Z.testbit OVS_BE32_MAX j = true.
Proof.
  intros Hx H. destruct (Z.lt_ge_cases j 0); [rewrite Z.testbit_neg_r in H by done; done|].
  change OVS_BE32_MAX with (Z.ones 32). apply Z.ones_spec_low. split; [done|].
  destruct (Z.lt_ge_cases j 32) as [|Hj]; [done|]. rewrite (in_u32_high x j Hx Hj) in H. done.
Qed.

Lemma set_prefix_bits_spec wc o n : words_ok wc -> (o + n_words n <= nw)%nat ->
  exists wc', mask_set_prefix_bits wc (Z.of_nat o) (Z.of_nat n) = Ok wc' /\ words_ok wc' /\ covers wc' wc /\
    forall i, (i < n)%nat -> vbit (drop o wc') i = true.
Proof.
  intros Hwc Ho. rewrite n_words_split in Ho. unfold mask_set_prefix_bits.
  change 32 with (Z.of_nat 32). rewrite <- Nat2Z.inj_div, Nat2Z.id, mod_of_nat by lia.
  pose proof (Nat.div_mod_eq n 32) as En. pose proof (Nat.mod_upper_bound n 32) as Hr.
  destruct (set_words_spec (n / 32) wc o Hwc) as (w1 & -> & Hw1 & Hk); [lia|]. cbn [rbind].
  pose proof Hwc as [Hl Hu].
  assert (covers w1 wc) as Hc1.
  { intros i j _ H. rewrite Hk. destruct (decide (o <= i < o + n / 32)%nat); [|exact H]. apply (max_covers (nth i wc 0)); [apply nth_u32, Hu | done]. }
  assert (forall i, (i < n / 32 * 32)%nat -> vbit (drop o w1) i = true) as Hfull.
  { intros i Hi. rewrite vbit_drop, Hk, decide_True by (pose proof (Nat.Div0.div_lt_upper_bound i 32 (n / 32)); lia).
    apply all_ones_bit; [unfold in_u32, OVS_BE32_MAX; lia | done | apply bit_pos]. }
  destruct (decide (n mod 32 = 0)%nat) as [E0|E0].
  - rewrite (proj2 (Z.eqb_eq (Z.of_nat (n mod 32)) 0)) by lia. cbn [negb]. exists w1. repeat split; try done; try apply Hw1.
    intros i Hi. apply Hfull. lia.
  - rewrite (proj2 (Z.eqb_neq (Z.of_nat (n mod 32)) 0)) by lia. cbn [negb]. pose proof Hw1 as [Hl1 Hu1].
    rewrite <- Nat2Z.inj_add, (word_nth target w1 _ Hl1) by lia. cbn [rbind]. rewrite set_word_ok by lia.
    set (last := htonl _). set (x := Z.lor _ last). eexists. split; [done|].
    assert (covers (<[(o + n / 32)%nat := x]> w1) w1) as Hc2.
    { intros i j _ H. rewrite nth_insert by lia. destruct (decide _) as [->|]; [|done]. unfold x. rewrite Z.lor_spec, H. done. }
    split; [apply insert_words_ok; [done|]; apply lor_u32; [apply nth_u32, Hu1 | apply byteswap_u32]|].
    split; [exact (covers_trans _ _ _ Hc2 Hc1)|]. intros i Hi.
    destruct (decide (i < n / 32 * 32)%nat) as [Hb|Hb]; [exact (covers_vbit _ _ o i Hc2 (Hfull i Hb))|].
    assert (i / 32 = n / 32)%nat as Ed by (symmetry; apply (Nat.div_unique i 32 _ (i - 32 * (n / 32))); lia).
    assert (i mod 32 < n mod 32)%nat as Hm by (pose proof (Nat.div_mod_eq i 32); lia).
    rewrite vbit_drop, Ed, nth_insert, decide_True by (done || lia). unfold x. rewrite ntohl_lor, Z.lor_spec.
    unfold last. rewrite last_bits, bool_decide_eq_true_2 by lia. apply orb_true_r.
Qed.

End Stages.
