(* ===== verification/ClsRep.v ===== *)
(** * The classifier: what a state stands for

    A subtable is seen as a [view]: its mask, and for every value its identical
    rules by falling priority.  [st_rep] relates a subtable to its view, and
    [cls_rep] a classifier to the views of its subtables in the order of their
    priorities. *)

From Stdlib Require Import ZArith Lia List Bool Sorted.
From stdpp Require Import base option list_relations list sets gmap.
From S2P Require Import Prelude Bytes Hash Csum Packets Bits Hmap Hindex Flow FlowFacts FlowCompose Miniflow MiniflowFacts MiniflowProps MatchSet MetaFlow Tag Trie TrieFacts Classifier ClsFacts.
#[local] Open Scope Z_scope.
#[local] Open Scope res_scope.

#[local] Opaque one_bits for_each_1bit.

(** ** Views *)

(** Identical rules: the words of their flow, and their addresses and priorities. *)
Record cls_group := Mk_group { g_val : list Z; g_rules : list (nat * Z) }.

Definition g_head (g : cls_group) : nat * Z := default (0%nat, 0) (head (g_rules g)).

Record view := Mk_view {
  v_addr : nat;
  v_mask : list Z;
  v_ofs : list nat;        (* where the segments of the indexes end *)
  v_plens : list nat;      (* the prefixes for the tries *)
  v_tag : Z;
  v_max : Z;
  v_count : Z;             (* [max_count] *)
  v_n : Z;                 (* [n_rules] *)
  v_groups : list cls_group
}.

(** A rule: its address, its priority and its words. *)
Record cls_entry := Mk_entry { e_addr : nat; e_prio : Z; e_val : list Z }.

Definition g_entries (g : cls_group) : list cls_entry := map (fun ap => Mk_entry (fst ap) (snd ap) (g_val g)) (g_rules g).
Definition entries (vw : view) : list cls_entry := concat (map g_entries (v_groups vw)).

Lemma elem_of_entries vw e : e ∈ entries vw <->
  exists g, g ∈ v_groups vw /\ (e_addr e, e_prio e) ∈ g_rules g /\ e_val e = g_val g.
Proof.
  unfold entries. rewrite list_elem_of_In, in_concat. split.
  - intros (l & Hl & He). apply in_map_iff in Hl as (g & <- & Hg). apply in_map_iff in He as ([a p] & <- & Hap).
    exists g. split; [apply list_elem_of_In; done|]. split; [apply list_elem_of_In; done | done].
  - intros (g & Hg & Hap & Hv). exists (g_entries g). apply list_elem_of_In in Hg. apply list_elem_of_In in Hap.
    split; [apply (List.in_map g_entries); done|]. apply in_map_iff. exists (e_addr e, e_prio e). split; [|done].
    destruct e; cbn in *. congruence.
Qed.

(** The rule a subtable has for a flow. *)
Definition hit (vw : view) (x : list Z) : option (nat * Z) :=
  g_head <$> List.find (fun g => bool_decide (g_val g = masked (v_mask vw) x)) (v_groups vw).

Lemma hit_none vw x : hit vw x = None <-> forall g, g ∈ v_groups vw -> g_val g <> masked (v_mask vw) x.
Proof.
  unfold hit. destruct (List.find _ _) as [g|] eqn:E; cbn [fmap option_fmap option_map].
  - apply find_some in E as [Hg He]. apply bool_decide_eq_true in He. split; [done|]. intros H. destruct (H g); [|done].
    apply list_elem_of_In. done.
  - split; [|done]. intros _ g Hg. apply list_elem_of_In in Hg. pose proof (find_none _ _ E g Hg) as H.
    apply bool_decide_eq_false in H. done.
Qed.

Lemma hit_masked vw x y : masked (v_mask vw) x = masked (v_mask vw) y -> hit vw x = hit vw y.
Proof. intros E. unfold hit. rewrite E. done. Qed.

Lemma hit_some vw x g : NoDup (g_val <$> v_groups vw) -> g ∈ v_groups vw -> g_val g = masked (v_mask vw) x ->
  hit vw x = Some (g_head g).
Proof.
  intros Hn Hg He. unfold hit. destruct (List.find _ _) as [g'|] eqn:E.
  - apply find_some in E as [Hg' He']. apply bool_decide_eq_true in He'. apply list_elem_of_In in Hg'.
    apply list_elem_of_lookup in Hg as [i Hi]. apply list_elem_of_lookup in Hg' as [j Hj].
    assert (i = j) as ->.
    { apply (NoDup_lookup _ i j (g_val g) Hn); rewrite list_lookup_fmap; [rewrite Hi | rewrite Hj]; cbn; [done|].
      rewrite He', <- He. done. }
    rewrite Hi in Hj. injection Hj as ->. done.
  - pose proof (find_none _ _ E g) as H. apply list_elem_of_In in Hg. specialize (H Hg). apply bool_decide_eq_false in H. done.
Qed.

(** The rules of the classifier, with their masks. *)
Record frule := Mk_frule { f_addr : nat; f_prio : Z; f_val : list Z; f_mask : list Z }.

Definition vrules (vw : view) : list frule := map (fun e => Mk_frule (e_addr e) (e_prio e) (e_val e) (v_mask vw)) (entries vw).
Definition table (V : list view) : list frule := concat (map vrules V).

Section Rep.
Variable target : abi.
Hypothesis Htarget : target = i686 \/ target = x86_64.

Abbreviation nw := (FLOW_U32S target).

(** ** Subtables *)


(** The metadata of words. *)
Definition md_of (x : list Z) : Z := nth (metadata_ofs target / 4) x 0 + 2 ^ 32 * nth (metadata_ofs target / 4 + 1) x 0.

Definition full_md (w : list Z) : bool := md_of w =? OVS_BE64_MAX.

(** The map of a mask. *)
Definition wmap (w : list Z) : Z := map_of (List.filter (fun i => negb (nth i w 0 =? 0)) (seq 0 nw)).

Lemma tight_wmap mf w : mf_rep target mf w -> tight mf w -> mf_map mf = wmap w.
Proof.
  intros H T. pose proof (rep_map _ _ _ H) as Hm. pose proof (FLOW_U32S_64 target Htarget).
  assert (in_u64 (wmap w)) as Hw.
  { apply (map_of_u64 target Htarget). intros i Hi. apply list_elem_of_In, filter_In in Hi as [Hi _]. apply in_seq in Hi. lia. }
  unfold in_u64 in *. apply Z.bits_inj'. intros i Hi. rewrite <- (Z2Nat.id i) by done. rewrite T. unfold wmap. rewrite (map_of_bits target Htarget).
  destruct (Z.eqb_spec (nth (Z.to_nat i) w 0) 0) as [E|E]; cbn [negb]; symmetry.
  - apply bool_decide_eq_false. rewrite list_elem_of_In, filter_In, E. intros [_ ?]. done.
  - apply bool_decide_eq_true. rewrite list_elem_of_In, filter_In, in_seq. split; [|apply negb_true_iff, Z.eqb_neq; done].
    destruct (decide (Z.to_nat i < nw)%nat); [lia|]. destruct E. apply nth_overflow. rewrite (rep_len _ _ _ H). lia.
Qed.

(** The hash of a subtable and of a rule. *)
Definition mask_hash (w : list Z) : Z := hash_of (wmap w) w 0.
Definition val_hash (w v : list Z) : Z := full_hash target (wmap w) w v.
Definition stage_hash (w : list Z) (o : nat) (v : list Z) : Z := seg_hash (wmap w) w v o.

(** The rule at an address in the store: its words, its priority and its hashes
    in the tables of its subtable. *)
Definition rule_ok (R : gmap nat cls_rule) (w : list Z) (ofs : list nat) (e : cls_entry) : Prop :=
  exists r, R !! e_addr e = Some r /\ mm_rep target (match_of r) (e_val e) w /\ priority r = e_prio e /\
    node_hash_of r = val_hash w (e_val e) /\ index_hashes r = map (fun o => stage_hash w o (e_val e)) ofs.

(** Values have no bits outside the mask, identical rules have falling priorities. *)
Record group_ok (w : list Z) (g : cls_group) : Prop := {
  go_words : words_ok target (g_val g);
  go_masked : masked w (g_val g) = g_val g;
  go_rules : g_rules g <> [];
  go_sorted : StronglySorted (fun a b => snd b < snd a) (g_rules g);
  go_prio : Forall (fun ap => in_u32 (snd ap)) (g_rules g)
}.

Definition gnode (w : list Z) (g : cls_group) : hmap_node (list nat) :=
  Mk_node (fst (g_head g)) (val_hash w (g_val g)) (fst <$> g_rules g).

(** The rules with a hash in a stage. *)
Definition at_stage (w : list Z) (o : nat) (k : Z) (l : list cls_entry) : list cls_entry :=
  List.filter (fun e => stage_hash w o (e_val e) =? k) l.

Definition index_ok (w : list Z) (l : list cls_entry) (o : nat) (ih : Z * rule_index) : Prop :=
  fst ih = Z.of_nat o /\ hindex_wf (snd ih) /\ forall k, igroup (snd ih) k ≡ₚ map (fun e => (e_addr e, tt)) (at_stage w o k l).

(** Segments end one behind the other, inside a flow. *)
Definition ends_ok (l : list nat) : Prop := StronglySorted le l /\ Forall (fun o => o <= nw)%nat l.

Record st_rep (R : gmap nat cls_rule) (t : cls_subtable) (vw : view) : Prop := {
  sr_mask : mf_rep target (masks (mask_of t)) (v_mask vw);
  sr_tight : tight (masks (mask_of t)) (v_mask vw);
  sr_wf : hmap_wf (rules_of t);
  sr_nodes : hmap_nodes (rules_of t) ≡ₚ gnode (v_mask vw) <$> v_groups vw;
  sr_groups : Forall (group_ok (v_mask vw)) (v_groups vw);
  sr_vals : NoDup (g_val <$> v_groups vw);
  sr_addrs : NoDup (e_addr <$> entries vw);
  sr_rules : Forall (rule_ok R (v_mask vw) (v_ofs vw)) (entries vw);
  sr_ends : ends_ok (v_ofs vw);
  sr_indices : Forall2 (index_ok (v_mask vw) (entries vw)) (v_ofs vw) (indices t);
  sr_n_rules : st_n_rules t = v_n vw;
  sr_max : max_priority t = v_max vw;
  sr_max_u32 : in_u32 (v_max vw);
  sr_count : max_count t = v_count vw;
  sr_tag : st_tag t = v_tag vw;
  sr_two_bits : two_bits (v_tag vw);
  sr_tag_all : full_md (v_mask vw) = false -> v_tag vw = TAG_ALL;
  sr_plens : trie_plen t = Z.of_nat <$> v_plens vw;
  sr_n_plens : length (v_plens vw) = CLS_MAX_TRIES
}.

(** The highest priority, and the number of rules that have it. *)
Definition heads (vw : view) : list Z := map (fun g => snd (g_head g)) (v_groups vw).

Definition max_of (m n : Z) (l : list Z) : Prop :=
  Forall (fun p => p <= m) l /\ n = Z.of_nat (length (List.filter (Z.eqb m) l)).

Definition max_ok (vw : view) : Prop := max_of (v_max vw) (v_count vw) (heads vw).

(** ** The classifier *)

Definition all_entries (V : list view) : list cls_entry := concat (map entries V).

Definition snode (vw : view) : hmap_node unit := Mk_node (v_addr vw) (mask_hash (v_mask vw)) tt.

Definition view_at (c : classifier) (vw : view) : Prop :=
  exists t, subtable_at c !! v_addr vw = Some t /\ st_rep (rule_at c) t vw.

(** The subtables and the order of the list. *)
Record tables_core (c : classifier) (V : list view) : Prop := {
  tr_views : Forall (view_at c) V;
  tr_wf : hmap_wf (subtables c);
  tr_nodes : hmap_nodes (subtables c) ≡ₚ snode <$> V;
  tr_masks : NoDup (v_mask <$> V);
  tr_order : subtables_priority c = v_addr <$> V;
  tr_addrs : NoDup (e_addr <$> all_entries V);
  tr_segments : exists l, flow_segments c = Z.of_nat <$> l /\ ends_ok l
}.

Definition falling (V : list view) : Prop := StronglySorted (fun a b => v_max b <= v_max a) V.

Record tables_rep (c : classifier) (V : list view) : Prop := {
  tr_core :> tables_core c V;
  tr_max : Forall max_ok V;
  tr_sorted : falling V
}.

(** The partitions: an address for every metadata that a rule requires. *)
Definition md_tags (V : list view) (m : Z) : list Z :=
  concat (map (fun vw => if full_md (v_mask vw)
    then map (fun _ => v_tag vw) (List.filter (fun e => md_of (e_val e) =? m) (entries vw)) else []) V).

Definition pnode (p : nat * Z) : hmap_node unit := Mk_node (fst p) (hash_metadata (snd p)) tt.

(** [T] gives the tags of the rules with a metadata. *)
Definition part_ok (c : classifier) (T : Z -> list Z) (p : nat * Z) : Prop :=
  exists pt l, partition_at c !! fst p = Some pt /\ p_metadata pt = snd p /\
    tracks (p_tracker pt) (p_tags pt) l /\ l ≡ₚ T (snd p) /\ l <> [].

Record parts_core (c : classifier) (T : Z -> list Z) (P : list (nat * Z)) : Prop := {
  pr_wf : hmap_wf (partitions c);
  pr_nodes : hmap_nodes (partitions c) ≡ₚ pnode <$> P;
  pr_metadata : NoDup (snd <$> P);
  pr_parts : Forall (part_ok c T) P
}.

Definition rule_part (P : list (nat * Z)) (w v : list Z) (o : option nat) : Prop :=
  if full_md w then exists p, o = Some p /\ (p, md_of v) ∈ P else o = None.

Record parts_rep (c : classifier) (V : list view) (P : list (nat * Z)) : Prop := {
  pr_core :> parts_core c (md_tags V) P;
  pr_rules : forall vw e r, vw ∈ V -> e ∈ entries vw -> rule_at c !! e_addr e = Some r ->
    rule_part P (v_mask vw) (e_val e) (partition r)
}.

(** A field that a trie can be made for: [k] words from word [o] on. *)
Definition field_ok (mf : mf_field) (o k : nat) : Prop :=
  flow_be32ofs mf = Z.of_nat o /\ n_bytes mf = 4 * Z.of_nat k /\ (o + k < nw)%nat /\ (1 <= k <= 4)%nat.

Definition plen_ok (mf : mf_field) (w : list Z) (p : nat) : Prop :=
  forall mask, mf_rep target (masks mask) w -> minimask_get_prefix_len target mask mf = Ok (Z.of_nat p).

Definition plen (i : nat) (vw : view) : nat := nth i (v_plens vw) 0%nat.

Definition prefix_of (o p : nat) (v : list Z) : list bool := vbits (drop o v) 0 p.

(** The prefixes of the rules for a trie. *)
Definition prefixes (i o : nat) (V : list view) : list (list bool) :=
  concat (map (fun vw => if decide (plen i vw = 0%nat) then [] else map (fun e => prefix_of o (plen i vw) (e_val e)) (entries vw)) V).

Definition trie_rep (V : list view) (i : nat) (ct : cls_trie) : Prop :=
  exists mf o k, trie_field ct = Some mf /\ field_ok mf o k /\ Forall (fun vw => plen_ok mf (v_mask vw) (plen i vw)) V /\
    trie_wf None (trie_root ct) /\ rules (trie_root ct) ≡ₚ prefixes i o V.

Record tries_rep (c : classifier) (V : list view) : Prop := {
  tt_len : length (tries c) = CLS_MAX_TRIES;
  tt_n : (n_tries c <= CLS_MAX_TRIES)%nat;
  tt_tries : forall i ct, (i < n_tries c)%nat -> tries c !! i = Some ct -> trie_rep V i ct
}.

Record cls_rep (c : classifier) (V : list view) (P : list (nat * Z)) : Prop := {
  cr_tables : tables_rep c V;
  cr_parts : parts_rep c V P;
  cr_tries : tries_rep c V;
  cr_n_rules : n_rules c = Z.of_nat (length (all_entries V));
  cr_counts : Forall (fun vw => v_n vw = Z.of_nat (length (entries vw))) V;
  cr_small : Z.of_nat (length (all_entries V)) < 2 ^ 31
}.

End Rep.
