(* ===== verification/ClsLookup.v ===== *)
(** * The classifier: lookup

    Lookup in a subtable, with the indexes and the tries that cut it short, and
    the wildcards it leaves: every flow that agrees on them has the same rule in
    the subtable. *)

From Stdlib Require Import ZArith Lia List Bool Sorted.
From stdpp Require Import base option list_relations list sets gmap.
From S2P Require Import Prelude Bytes Hash Csum Packets Bits Hmap Hindex Flow FlowFacts FlowCompose Miniflow MiniflowFacts MiniflowProps MatchSet MetaFlow Tag Trie TrieFacts Classifier ClsFacts ClsRep.
#[local] Open Scope Z_scope.
#[local] Open Scope res_scope.

#[local] Opaque one_bits for_each_1bit.

Lemma load_some {A} (m : gmap nat A) a x : m !! a = Some x -> load m a = Ok x.
Proof. intros H. unfold load. rewrite H. done. Qed.

Section Lookup.
Variable target : abi.
Hypothesis Htarget : target = i686 \/ target = x86_64.

Abbreviation nw := (FLOW_U32S target).

(** ** Rules of a subtable *)

Section Subtable.
Context (c : classifier) (t : cls_subtable) (vw : view).
Context (Hst : st_rep target (rule_at c) t vw).

Abbreviation w := (v_mask vw).

Lemma mask_len : length w = nw.
Proof. apply (rep_len _ _ _ (sr_mask _ _ _ _ Hst)). Qed.

Lemma mask_map : mf_map (masks (mask_of t)) = wmap target w.
Proof. apply (tight_wmap target Htarget _ _ (sr_mask _ _ _ _ Hst) (sr_tight _ _ _ _ Hst)). Qed.

Lemma group_at g : g ∈ v_groups vw -> group_ok target w g.
Proof. apply Forall_forall, (sr_groups _ _ _ _ Hst). Qed.

Lemma entry_at e : e ∈ entries vw -> rule_ok target (rule_at c) w (v_ofs vw) e.
Proof. apply Forall_forall, (sr_rules _ _ _ _ Hst). Qed.

Lemma entry_group e : e ∈ entries vw -> exists g, g ∈ v_groups vw /\ e_val e = g_val g.
Proof. rewrite elem_of_entries. intros (g & Hg & _ & Hv). eauto. Qed.

(** The first of identical rules is an entry. *)
Lemma head_entry g : g ∈ v_groups vw -> Mk_entry (fst (g_head g)) (snd (g_head g)) (g_val g) ∈ entries vw.
Proof.
  intros Hg. apply elem_of_entries. exists g. split; [done|]. split; [|done]. cbn.
  destruct (group_at g Hg) as [_ _ Hne _ _]. unfold g_head. destruct (g_rules g) as [|[a p] l]; [done|]. cbn. left.
Qed.

(** The values of two flows under the mask. *)
Lemma group_value g x : g ∈ v_groups vw -> length x = nw ->
  g_val g = masked w x <-> forall i, nth i (g_val g) 0 = Z.land (nth i x 0) (nth i w 0).
Proof.
  intros Hg Hx. destruct (group_at g Hg) as [[Hl _] _ _ _ _]. pose proof mask_len as Hw. split.
  - intros -> i. apply nth_masked. lia.
  - intros H. apply words_eq; [rewrite length_masked; lia|]. intros i _. rewrite H, nth_masked by lia. done.
Qed.

Lemma find_match_in_spec x l : length x = nw -> Forall (fun nd => nd ∈ gnode target w <$> v_groups vw) l ->
  exists r, find_match_in c x l = Ok r /\
    match r with
    | Some a => exists g, g ∈ v_groups vw /\ g_val g = masked w x /\ a = fst (g_head g)
    | None => forall g, gnode target w g ∈ l -> g ∈ v_groups vw -> g_val g <> masked w x
    end.
Proof.
  intros Hx. induction l as [|nd l IH]; intros Hl; cbn [find_match_in].
  { exists None. split; [done|]. intros g Hg. inversion Hg. }
  inversion_clear Hl as [|? ? Hnd Hl']. apply list_elem_of_fmap in Hnd as (g & -> & Hg).
  destruct (entry_at _ (head_entry g Hg)) as (r & Hr & Hm & _). cbn in Hr, Hm.
  unfold gnode at 1. cbn [node_addr]. rewrite (load_some _ _ _ Hr). cbn [rbind].
  destruct (group_at g Hg) as [[Hv _] Hz _ _ _]. pose proof mask_len as Hw.
  rewrite (minimatch_matches_flow_rep target Htarget _ _ w x Hm) by done. cbn [rbind].
  rewrite matches_masked by (done || lia). case_bool_decide as E.
  - exists (Some (fst (g_head g))). split; [done|]. exists g. done.
  - destruct (IH Hl') as (r' & -> & H). exists r'. split; [done|]. destruct r' as [a|]; [done|].
    intros g' Hin Hg'. apply elem_of_cons in Hin as [Eq|Hin]; [|apply H; done].
    intros Ev. apply E.
    (* the same address, so the same entry *)
    assert (Mk_entry (fst (g_head g)) (snd (g_head g)) (g_val g) ∈ entries vw) as He by (apply head_entry; done).
    assert (Mk_entry (fst (g_head g')) (snd (g_head g')) (g_val g') ∈ entries vw) as He' by (apply head_entry; done).
    unfold gnode in Eq. injection Eq as Ea _ _.
    apply list_elem_of_lookup in He as [i Hi]. apply list_elem_of_lookup in He' as [j Hj].
    assert (i = j) as ->.
    { apply (NoDup_lookup _ i j (fst (g_head g)) (sr_addrs _ _ _ _ Hst)); rewrite list_lookup_fmap;
        [rewrite Hi | rewrite Hj]; cbn; congruence. }
    congruence.
Qed.

Lemma find_match_spec f x : flow_u32 target f = x -> length x = nw ->
  find_match target c t f (val_hash target w x) = Ok (fst <$> hit vw x).
Proof.
  intros Ef Hx. unfold find_match. rewrite Ef. rewrite (hmap_for_each_with_hash_spec _ _ (sr_wf _ _ _ _ Hst)). cbn [rbind].
  destruct (find_match_in_spec _ (with_hash (rules_of t) (val_hash target w x)) Hx) as (r & -> & Hr).
  { apply Forall_forall. intros nd Hnd. apply (elem_of_with_hash _ _ _ (sr_wf _ _ _ _ Hst)) in Hnd as [Hnd _].
    rewrite (sr_nodes _ _ _ _ Hst) in Hnd. done. }
  f_equal. destruct r as [a|].
  - destruct Hr as (g & Hg & Ev & ->). rewrite (hit_some vw _ g (sr_vals _ _ _ _ Hst) Hg Ev). done.
  - destruct (hit vw x) as [ap|] eqn:E; [|done]. exfalso.
    assert (hit vw x <> None) as Hn by congruence. apply Hn, hit_none. intros g Hg Ev.
    apply (Hr g); [|done | done]. apply (elem_of_with_hash _ _ _ (sr_wf _ _ _ _ Hst)).
    split; [rewrite (sr_nodes _ _ _ _ Hst); apply list_elem_of_fmap_2; done|]. cbn.
    unfold val_hash. destruct (group_at g Hg) as [[Hv _] Hz _ _ _]. pose proof mask_len as Hw.
    apply seg_hash_masked; [lia | lia |]. rewrite Hz, Ev. done.
Qed.

End Subtable.
(** ** Tries *)

Definition plen_bits (o k : nat) (w : list Z) (p : nat) : Prop :=
  p <> 0%nat -> (p <= 32 * k)%nat /\ forall j, (j < p)%nat -> vbit (drop o w) j = true.

Lemma plen_ok_bits mask w mf o k p : mf_rep target (masks mask) w -> field_ok target mf o k -> plen_ok target mf w p ->
  plen_bits o k w p.
Proof.
  intros Hw (Ho & Hk & Hok & _) Hp Hp0. specialize (Hp mask Hw). unfold minimask_get_prefix_len in Hp.
  rewrite Hk, Ho, Z.mul_comm, Z.div_mul, Nat2Z.id in Hp by lia.
  destruct (prefix_len_spec target Htarget mask w Hw k o 0 0) as (r & E & _ & Hr); [lia..|].
  rewrite E in Hp. injection Hp as ->. destruct (Hr ltac:(lia)) as (q & Hq & Eq & _ & Hb). assert (q = p) as -> by lia.
  split; [done|]. intros j Hj. rewrite Hb by lia. apply bool_decide_eq_true. done.
Qed.

(** A prefix of a value is a prefix of the flows that match it. *)
Lemma prefix_of_masked o p w y : length w = nw -> length y = nw -> (forall j, (j < p)%nat -> vbit (drop o w) j = true) ->
  prefix_of o p (masked w y) = prefix_of o p y.
Proof.
  intros Hw Hy Hb. unfold prefix_of. apply map_ext_in. intros j Hj. apply in_seq in Hj.
  apply (agree_vbit w); [|apply Hb; lia]. intros i. rewrite nth_masked by lia. rewrite <- Z.land_assoc, Z.land_diag. done.
Qed.

Lemma elem_of_prefixes i o V q : q ∈ prefixes i o V <->
  exists vw e, vw ∈ V /\ e ∈ entries vw /\ plen i vw <> 0%nat /\ q = prefix_of o (plen i vw) (e_val e).
Proof.
  unfold prefixes. rewrite list_elem_of_In, in_concat. split.
  - intros (l & Hl & Hq). apply in_map_iff in Hl as (vw & <- & Hv). destruct (decide _) as [|Hn]; [destruct Hq|].
    apply in_map_iff in Hq as (e & <- & He). exists vw, e. rewrite !list_elem_of_In. done.
  - intros (vw & e & Hv & He & Hn & ->). eexists. split; [apply in_map_iff; exists vw; split; [done|]; apply list_elem_of_In; done|].
    rewrite decide_False by done. apply in_map_iff. exists e. split; [done|]. apply list_elem_of_In. done.
Qed.

Lemma length_prefix_of o p v : length (prefix_of o p v) = p.
Proof. apply length_vbits. Qed.

(** What the answer of a trie says about the flows that have the bits it has seen. *)
Definition trie_shows (V : list view) (i o : nat) (x : list Z) (m : Z) (n : nat) : Prop :=
  forall vw e y, vw ∈ V -> m < Z.of_nat (plen i vw) -> length y = nw ->
    (forall j, (j < n)%nat -> vbit (drop o y) j = vbit (drop o x) j) -> e ∈ entries vw -> e_val e <> masked (v_mask vw) y.

Lemma trie_lookup_spec V i ct f x mf o k : flow_u32 target f = x -> length x = nw ->
  trie_field ct = Some mf -> field_ok target mf o k ->
  Forall (fun vw => length (v_mask vw) = nw /\ plen_bits o k (v_mask vw) (plen i vw)) V ->
  trie_wf None (trie_root ct) -> rules (trie_root ct) ≡ₚ prefixes i o V ->
  exists m n, trie_lookup target ct f = Ok (m, Z.of_nat n) /\ (o + n_words n <= nw)%nat /\ trie_shows V i o x m n.
Proof.
  intros Ef Hx Hmf (Ho & Hk & Hok & Hk4) Hp Hwf Hr. unfold trie_lookup, the_field. rewrite Hmf. cbn [rbind].
  rewrite Forall_forall in Hp. destruct (mf_are_prereqs_ok mf f).
  2:{ exists UINT_MAX, 0%nat. split; [done|]. split; [change (n_words 0) with 0%nat; lia|]. intros vw e y Hv Hlt.
      destruct (Hp vw Hv) as [_ Hb]. destruct (decide (plen i vw = 0%nat)) as [E|E]; [rewrite E in Hlt; change UINT_MAX with (2^32 - 1) in Hlt; lia|].
      destruct (Hb E) as [Hb' _]. change UINT_MAX with (2 ^ 32 - 1) in Hlt. lia. }
  rewrite Ef, Ho, Nat2Z.id. assert (length (drop o x) = nw - o)%nat as Hd by (rewrite length_drop; lia).
  assert (fits (rules (trie_root ct)) (drop o x) 0) as Hfit.
  { intros q Hq. rewrite Hr in Hq. apply elem_of_prefixes in Hq as (vw & e & Hv & _ & Hn & ->). rewrite length_prefix_of.
    destruct (Hp vw Hv) as [_ Hb]. destruct (Hb Hn) as [Hb' _]. lia. }
  destruct (lookup_value_spec _ _ Hwf Hfit) as (m & n & E & Hn & _ & _ & Hag). exists (Z.of_nat m), n. split; [done|].
  split. { unfold n_words. assert ((n + 31) / 32 < nw - o + 1)%nat; [|lia]. apply Nat.Div0.div_lt_upper_bound. lia. }
  intros vw e y Hv Hlt Hy Hbits He Ev. assert (plen i vw <> 0%nat) as Hn0 by lia. destruct (Hp vw Hv) as [Hl Hb].
  destruct (Hb Hn0) as [Hb1 Hb2].
  assert (length (drop o y) = nw - o)%nat as Hdy by (rewrite length_drop; lia).
  assert (trie_lookup_value (trie_root ct) (drop o y) = Ok (Z.of_nat m, Z.of_nat n)) as Ey.
  { apply Hag; [lia|]. apply map_ext_in. intros j Hj. apply in_seq in Hj. apply Hbits. lia. }
  assert (fits (rules (trie_root ct)) (drop o y) 0) as Hfy by (intros q Hq; rewrite Hdy, <- Hd; apply Hfit; done).
  destruct (lookup_value_spec _ _ Hwf Hfy) as (m' & n' & E' & _ & _ & Hmax & _). rewrite Ey in E'. injection E' as E' _.
  assert (prefix_of o (plen i vw) (e_val e) ∈ rules (trie_root ct)) as Hin.
  { rewrite Hr. apply elem_of_prefixes. exists vw, e. done. }
  apply Hmax in Hin; [rewrite length_prefix_of in Hin; lia|]. unfold matches. rewrite length_prefix_of, Ev.
  apply (prefix_of_masked o (plen i vw) (v_mask vw) y); done.
Qed.

(** *** The contexts of a lookup *)

Record trie_is (V : list view) (i : nat) (ct : cls_trie) (mf : mf_field) (o k : nat) : Prop := {
  ti_field : trie_field ct = Some mf;
  ti_ok : field_ok target mf o k;
  ti_plens : Forall (fun vw => length (v_mask vw) = nw /\ plen_bits o k (v_mask vw) (plen i vw)) V;
  ti_wf : trie_wf None (trie_root ct);
  ti_rules : rules (trie_root ct) ≡ₚ prefixes i o V
}.

Definition ctx_ok (V : list view) (x : list Z) (i : nat) (ctx : trie_ctx) : Prop :=
  exists mf o k, trie_is V i (ctx_trie ctx) mf o k /\ be32ofs ctx = Z.of_nat o /\
    match lookup_done ctx with
    | None => True
    | Some (m, b) => exists n, b = Z.of_nat n /\ (o + n_words n <= nw)%nat /\ trie_shows V i o x m n
    end.

Definition ctxs_ok (V : list view) (x : list Z) (j : nat) (ctxs : list trie_ctx) : Prop :=
  forall i ctx, ctxs !! i = Some ctx -> ctx_ok V x (j + i) ctx.

Lemma ctxs_ok_cons V x j ctx ctxs : ctxs_ok V x j (ctx :: ctxs) <-> ctx_ok V x j ctx /\ ctxs_ok V x (S j) ctxs.
Proof.
  split.
  - intros H. split; [specialize (H 0%nat ctx eq_refl); rewrite Nat.add_0_r in H; done|].
    intros i ctx' Hi. specialize (H (S i) ctx' Hi). rewrite Nat.add_succ_r in H. done.
  - intros [H0 H] [|i] ctx' Hi; [injection Hi as <-; rewrite Nat.add_0_r; done|].
    rewrite Nat.add_succ_r. apply (H i ctx'). done.
Qed.

(** The answer of a context: looked up now or before. *)
Lemma ctx_lookup V x i ctx f : ctx_ok V x i ctx -> flow_u32 target f = x -> length x = nw ->
  exists m n o, (match lookup_done ctx with Some r => Ok r | None => trie_lookup target (ctx_trie ctx) f end) = Ok (m, Z.of_nat n) /\
    be32ofs ctx = Z.of_nat o /\ (o + n_words n <= nw)%nat /\ trie_shows V i o x m n /\
    ctx_ok V x i (Mk_ctx (ctx_trie ctx) (be32ofs ctx) (Some (m, Z.of_nat n))).
Proof.
  intros (mf & o & k & Hti & Ho & Hd) Ef Hx. pose proof Hti as [H1 H2 H3 H4 H5].
  assert (exists m n, (match lookup_done ctx with Some r => Ok r | None => trie_lookup target (ctx_trie ctx) f end) = Ok (m, Z.of_nat n) /\
    (o + n_words n <= nw)%nat /\ trie_shows V i o x m n) as (m & n & E & Hn & Hs).
  { destruct (lookup_done ctx) as [[m b]|]; [destruct Hd as (n & -> & Hn & Hs); exists m, n; done|].
    apply (trie_lookup_spec V i (ctx_trie ctx) f x mf o k); done. }
  exists m, n, o. split; [done|]. split; [done|]. split; [done|]. split; [done|].
  exists mf, o, k. split; [done|]. split; [done|]. cbn. exists n. done.
Qed.

(** No rule of the subtable matches a flow. *)
Definition none_match (vw : view) (y : list Z) : Prop := forall e, e ∈ entries vw -> e_val e <> masked (v_mask vw) y.

(** Wildcards that rule the subtable out. *)
Definition rules_out (vw : view) (x wc : list Z) : Prop := forall y, length y = nw -> agree_on wc x y -> none_match vw y.

Lemma shows_rules_out V vw x i o m n wc : vw ∈ V -> trie_shows V i o x m n -> m < Z.of_nat (plen i vw) ->
  (forall j, (j < n)%nat -> vbit (drop o wc) j = true) -> rules_out vw x wc.
Proof.
  intros Hv Hs Hlt Hb y Hy Ha e He. apply (Hs vw e y); try done. intros j Hj. symmetry. apply (agree_vbit wc); [done|].
  apply Hb. done.
Qed.

Lemma check_tries_spec V vw f x start end_ : vw ∈ V -> flow_u32 target f = x -> length x = nw ->
  forall ctxs j l wc, ctxs_ok V x j ctxs -> (length ctxs <= length l)%nat ->
  (forall i p, l !! i = Some p -> p = plen (j + i) vw) -> words_ok target wc ->
  exists b ctxs' wc', check_tries target ctxs (Z.of_nat <$> l) start end_ f wc = Ok (b, ctxs', wc') /\
    ctxs_ok V x j ctxs' /\ length ctxs' = length ctxs /\ words_ok target wc' /\ covers wc' wc /\
    (b = true -> rules_out vw x wc').
Proof.
  intros Hv Ef Hx. induction ctxs as [|ctx ctxs IH]; intros j l wc Hc Hlen Hl Hwc.
  { exists false, [], wc. destruct l; (split; [done|]; repeat split; try done; try apply Hwc; apply covers_refl). }
  destruct l as [|p l]; [cbn in Hlen; lia|]. apply ctxs_ok_cons in Hc as [Hctx Hc]. cbn [fmap list_fmap check_tries length] in Hlen |- *.
  assert (p = plen j vw) as -> by (rewrite <- (Nat.add_0_r j); apply Hl; done).
  (* going on with the other tries *)
  assert (forall ctx', ctx_ok V x j ctx' -> exists b ctxs' wc',
    (let* (b, ctxs, wc) := check_tries target ctxs (Z.of_nat <$> l) start end_ f wc in Ok (b, ctx' :: ctxs, wc)) = Ok (b, ctxs', wc') /\
    ctxs_ok V x j ctxs' /\ length ctxs' = S (length ctxs) /\ words_ok target wc' /\ covers wc' wc /\
    (b = true -> rules_out vw x wc')) as Hskip.
  { intros ctx' Hctx'. destruct (IH (S j) l wc Hc ltac:(lia)) as (b & ctxs' & wc' & -> & H1 & H2 & H3 & H4 & H5); [|done|].
    - intros i q Hi. rewrite Nat.add_succ_comm. apply Hl. done.
    - exists b, (ctx' :: ctxs'), wc'. split; [done|]. split; [apply ctxs_ok_cons; done|]. cbn. rewrite H2. done. }
  destruct (negb _ && _); [|apply Hskip; done].
  destruct (ctx_lookup V x j ctx f Hctx Ef Hx) as (m & n & o & -> & Ho & Hn & Hs & Hctx'). cbn [rbind].
  cbv zeta. cbn [be32ofs ctx_trie].
  destruct (Z.ltb_spec m (Z.of_nat (plen j vw))) as [Hlt|]; [|apply Hskip; done]. rewrite Ho in Hctx' |- *.
  destruct (prefix_bits_set_spec target Htarget wc o n Hwc Hn) as (b & -> & Hb). cbn [rbind]. destruct b.
  - exists true, (Mk_ctx (ctx_trie ctx) (Z.of_nat o) (Some (m, Z.of_nat n)) :: ctxs), wc. split; [done|]. split; [apply ctxs_ok_cons; done|]. split; [done|]. split; [done|]. split; [apply covers_refl|].
    intros _. apply (shows_rules_out V vw x j o m n); try done. apply Hb. done.
  - destruct (Z.of_nat n <=? Z.of_nat (plen j vw)); [|apply Hskip; done].
    destruct (set_prefix_bits_spec target wc o n Hwc Hn) as (wc' & -> & Hwc' & Hcov & Hb'). cbn [rbind].
    exists true, (Mk_ctx (ctx_trie ctx) (Z.of_nat o) (Some (m, Z.of_nat n)) :: ctxs), wc'.
    split; [done|]. split; [apply ctxs_ok_cons; done|]. split; [done|]. split; [done|]. split; [done|].
    intros _. apply (shows_rules_out V vw x j o m n); done.
Qed.

(** ** The indexes *)

Definition agree_below (w x y : list Z) (n : nat) : Prop :=
  forall i, (i < n)%nat -> Z.land (nth i x 0) (nth i w 0) = Z.land (nth i y 0) (nth i w 0).

Section Indices.
Context (c : classifier) (t : cls_subtable) (vw : view) (V : list view) (f : flow) (x : list Z).
Context (Hst : st_rep target (rule_at c) t vw) (Hv : vw ∈ V) (Ef : flow_u32 target f = x) (Hx : length x = nw).

Abbreviation w := (v_mask vw).

Lemma none_hit y : none_match vw y <-> hit vw y = None.
Proof.
  rewrite hit_none. split.
  - intros H g Hg. apply (H _ (head_entry c t vw Hst g Hg)).
  - intros H e He. destruct (entry_group vw e He) as (g & Hg & ->). apply H. done.
Qed.

Lemma entry_words e : e ∈ entries vw -> length (e_val e) = nw /\ masked w (e_val e) = e_val e.
Proof.
  intros He. destruct (entry_group vw e He) as (g & Hg & ->). destruct (group_at c t vw Hst g Hg) as [[Hl _] Hz _ _ _]. done.
Qed.

Lemma stage_hash_entry o e y : e ∈ entries vw -> e_val e = masked w y -> length y = nw ->
  stage_hash target w o (e_val e) = stage_hash target w o y.
Proof.
  intros He Ev Hy. destruct (entry_words e He) as [Hl Hz]. pose proof (mask_len c t vw Hst).
  apply seg_hash_masked; [lia | lia | congruence].
Qed.

Lemma at_stage_in o k e : e ∈ entries vw -> stage_hash target w o (e_val e) = k -> e ∈ at_stage target w o k (entries vw).
Proof. intros He E. apply list_elem_of_In, filter_In. rewrite <- list_elem_of_In. split; [done|]. apply Z.eqb_eq. done. Qed.

(** No rule has the hash of the flow. *)
Lemma stage_empty o y : (o <= nw)%nat -> at_stage target w o (stage_hash target w o x) (entries vw) = [] ->
  length y = nw -> agree_below w x y o -> none_match vw y.
Proof.
  intros Ho H0 Hy Ha e He Ev. pose proof (stage_hash_entry o e y He Ev Hy) as E.
  assert (stage_hash target w o y = stage_hash target w o x) as E' by (symmetry; apply seg_hash_local; done).
  pose proof (at_stage_in o _ e He (eq_trans E E')) as Hin. rewrite H0 in Hin. inversion Hin.
Qed.

(** One rule has the hash of the flow. *)
Lemma stage_single o e : at_stage target w o (stage_hash target w o x) (entries vw) = [e] ->
  e ∈ entries vw /\
  (e_val e = masked w x -> fst <$> hit vw x = Some (e_addr e)) /\ (e_val e <> masked w x -> hit vw x = None).
Proof.
  intros H1. assert (e ∈ entries vw) as He.
  { assert (e ∈ [e]) as Hi by left. rewrite <- H1 in Hi. apply list_elem_of_In, filter_In in Hi as [Hi _]. apply list_elem_of_In. done. }
  assert (forall e', e' ∈ entries vw -> e_val e' = masked w x -> e' = e) as Hone.
  { intros e' He' Ev. pose proof (at_stage_in o _ e' He' (stage_hash_entry o e' x He' Ev Hx)) as Hi. rewrite H1 in Hi.
    apply list_elem_of_singleton in Hi. done. }
  split; [done|]. split.
  - intros Ev. destruct (entry_group vw e He) as (g & Hg & Eg).
    rewrite (hit_some vw x g (sr_vals _ _ _ _ Hst) Hg) by congruence.
    rewrite <- (Hone _ (head_entry c t vw Hst g Hg)); [done | cbn; congruence].
  - intros Hne. apply none_hit. intros e' He' Ev. rewrite (Hone e' He' Ev) in Ev. done.
Qed.

(** What holds where the loop over the indexes stops. *)
Definition stage_ok (wc : list Z) (st : stage) : Prop :=
  match st with
  | RangeOut s => exists n, s = Z.of_nat n /\ (n <= nw)%nat /\
      forall y, length y = nw -> agree_on wc x y -> agree_below w x y n -> none_match vw y
  | Out a => fst <$> hit vw x = Some a
  | Final s basis rule => exists n, s = Z.of_nat n /\ (n <= nw)%nat /\ basis = acc (wmap target w) w x n /\
      (rule <> None -> hit vw x = None)
  end.

Lemma check_indices_spec ofs : forall l s rule ctxs wc,
  Forall2 (index_ok target w (entries vw)) ofs l -> StronglySorted le ofs -> Forall (fun o => s <= o <= nw)%nat ofs ->
  (s <= nw)%nat -> (rule <> None -> hit vw x = None) -> ctxs_ok V x 0 ctxs -> (length ctxs <= length (v_plens vw))%nat ->
  words_ok target wc ->
  exists st ctxs' wc', check_indices target c t f l (Z.of_nat s) (acc (wmap target w) w x s) rule ctxs wc = Ok (st, ctxs', wc') /\
    ctxs_ok V x 0 ctxs' /\ length ctxs' = length ctxs /\ words_ok target wc' /\ covers wc' wc /\ stage_ok wc' st.
Proof.
  induction ofs as [|o ofs IH]; intros l s rule ctxs wc Hl Hsort Hge Hs Hrule Hc Hlen Hwc.
  { apply Forall2_nil_inv_l in Hl as ->. exists (Final (Z.of_nat s) (acc (wmap target w) w x s) rule), ctxs, wc.
    split; [done|]. repeat split; try done; try apply Hwc; try apply covers_refl. exists s. done. }
  apply Forall2_cons_inv_l in Hl as ([o' h] & l' & (Eo & Hh & Hgr) & Hl & ->). cbn in Eo, Hh, Hgr. subst o'.
  inversion_clear Hge as [|? ? [Hso Hon] Hge']. apply StronglySorted_inv in Hsort as [Hsort Hle].
  assert (Forall (fun o' => o <= o' <= nw)%nat ofs) as Hge2.
  { rewrite Forall_forall in Hle, Hge' |- *. intros o' Ho'. specialize (Hle o' Ho'). specialize (Hge' o' Ho'). lia. }
  cbn [check_indices]. rewrite (sr_plens _ _ _ _ Hst).
  destruct (check_tries_spec V vw f x (Z.of_nat s) (Z.of_nat o) Hv Ef Hx ctxs 0%nat (v_plens vw) wc Hc) as
    (b & ctxs1 & wc1 & -> & Hc1 & Hl1 & Hwc1 & Hcov1 & Hb); [lia | | done |].
  { intros i p Hi. unfold plen. cbn. rewrite nth_lookup, Hi. done. }
  cbn [rbind]. destruct b.
  { exists (RangeOut (Z.of_nat s)), ctxs1, wc1. split; [done|]. repeat split; try done; try apply Hwc1.
    exists s. split; [done|]. split; [done|]. intros y Hy Ha _. apply Hb; done. }
  pose proof (mask_map c t vw Hst) as Hm. pose proof (sr_mask _ _ _ _ Hst) as Hw.
  rewrite Ef. pose proof (flow_stage target Htarget (mask_of t) w x s o Hw Hx ltac:(lia)) as E. cbv zeta in E. rewrite Hm in E.
  rewrite E. clear E. cbn [rbind]. change (seg_hash (wmap target w) w x o) with (stage_hash target w o x).
  destruct (hindex_node_with_hash_spec h (stage_hash target w o x) Hh) as (p & -> & Hp). cbn [rbind].
  destruct Hp as [(-> & H0 & _)|(nd & rest & -> & _ & Hnd & _ & Eg & Hne)].
  { exists (RangeOut (Z.of_nat o)), ctxs1, wc1. split; [done|]. repeat split; try done; try apply Hwc1.
    exists o. split; [done|]. split; [done|]. intros y Hy _ Ha. apply (stage_empty o y Hon); [|done | done].
    pose proof (Hgr (stage_hash target w o x)) as Hg0. rewrite H0 in Hg0. apply Permutation_nil_l in Hg0.
    symmetry in Hg0. apply map_eq_nil in Hg0. done. }
  (* going on with the next index *)
  assert (forall rule', (rule' <> None -> hit vw x = None) -> exists st ctxs' wc',
    check_indices target c t f l' (Z.of_nat o) (acc (wmap target w) w x o) rule' ctxs1 wc1 = Ok (st, ctxs', wc') /\
    ctxs_ok V x 0 ctxs' /\ length ctxs' = length ctxs /\ words_ok target wc' /\ covers wc' wc /\ stage_ok wc' st) as Hnext.
  { intros rule' Hr'. destruct (IH l' o rule' ctxs1 wc1 Hl Hsort Hge2 Hon Hr' Hc1 ltac:(lia) Hwc1) as (st & ctxs' & wc' & -> & H1 & H2 & H3 & H4 & H5).
    exists st, ctxs', wc'. split; [done|]. split; [done|]. split; [lia|]. split; [done|]. split; [|done].
    apply (covers_trans _ _ _ H4 Hcov1). }
  pose proof (hi_head _ Hh nd Hnd) as Hhd. rewrite <- Eg in Hhd |- *. pose proof (Hgr (stage_hash target w o x)) as Hg0.
  destruct (igroup h (stage_hash target w o x)) as [|[a u] [|]]; [apply Hnext; done | | apply Hnext; done].
  destruct rule as [a'|]; [apply Hnext; done|].
  apply Permutation_singleton_l in Hg0.
  destruct (at_stage target w o (stage_hash target w o x) (entries vw)) as [|e [|]] eqn:Es; try discriminate Hg0.
  injection Hg0 as Ea Eu. destruct (stage_single o e Es) as (He & Hyes & Hno).
  injection Hhd as ->. destruct (entry_at c t vw Hst e He) as (r & Hr & Hrm & _). rewrite Ea.
  rewrite (load_some _ _ _ Hr). cbn [rbind]. destruct (entry_words e He) as [Hle' Hz].
  rewrite (minimatch_matches_flow_rep target Htarget _ _ w x Hrm) by done. cbn [rbind].
  rewrite matches_masked by (rewrite ?(mask_len c t vw Hst); done). case_bool_decide as E.
  - exists (Out (e_addr e)), ctxs1, wc1. split; [done|]. split; [done|]. split; [done|]. split; [done|]. split; [done|].
    apply Hyes. done.
  - apply Hnext. intros _. apply Hno. done.
Qed.
(** The wildcards after the lookup in a subtable. *)
Definition wc_step (wc wc' : option (list Z)) : Prop :=
  match wc, wc' with
  | None, None => True
  | Some a, Some b => words_ok target b /\ covers b a /\ forall y, length y = nw -> agree_on b x y -> hit vw y = hit vw x
  | _, _ => False
  end.

Definition wc_opt_ok (wc : option (list Z)) : Prop := match wc with None => True | Some a => words_ok target a end.

(** The whole mask is un-wildcarded. *)
Lemma out_spec wc ctxs (r : option nat) : words_ok target wc ->
  exists wc', (let* wc := flow_wildcards_fold_minimask wc (mask_of t) in Ok (r, ctxs, Some wc)) = Ok (r, ctxs : list trie_ctx, Some wc') /\
    words_ok target wc' /\ covers wc' wc /\ forall y, length y = nw -> agree_on wc' x y -> hit vw y = hit vw x.
Proof.
  intros Hwc. destruct (fold_mask target Htarget (mask_of t) w wc (sr_mask _ _ _ _ Hst) Hwc) as (wc' & -> & H1 & H2 & H3).
  exists wc'. split; [done|]. split; [done|]. split; [done|]. intros y Hy Ha. apply hit_masked.
  pose proof (mask_len c t vw Hst). symmetry. apply agree_masked; [lia | lia |]. apply (agree_covers _ _ _ _ H3 Ha).
Qed.

Lemma rules_out_hit wc : words_ok target wc -> rules_out vw x wc -> hit vw x = None /\
  forall y, length y = nw -> agree_on wc x y -> hit vw y = hit vw x.
Proof.
  intros Hwc H. assert (hit vw x = None) as E by (apply none_hit, H; [done | intros i; done]). split; [done|].
  intros y Hy Ha. rewrite E. apply none_hit, H; done.
Qed.

Lemma range_out_spec wc n ctxs : words_ok target wc -> (n <= nw)%nat ->
  (forall y, length y = nw -> agree_on wc x y -> agree_below w x y n -> none_match vw y) ->
  exists wc', (let* wc := if negb (Z.of_nat n =? 0) then flow_wildcards_fold_minimask_range target wc (mask_of t) 0 (Z.of_nat n) else Ok wc in
      Ok (None, ctxs, Some wc)) = Ok (@None nat, ctxs : list trie_ctx, Some wc') /\
    words_ok target wc' /\ covers wc' wc /\ rules_out vw x wc'.
Proof.
  intros Hwc Hn Hnone. destruct (Z.eqb_spec (Z.of_nat n) 0) as [E|E]; cbn [negb rbind].
  - exists wc. split; [done|]. split; [done|]. split; [apply covers_refl|]. intros y Hy Ha. apply Hnone; try done. intros i Hi. lia.
  - destruct (fold_prefix target Htarget (mask_of t) w wc n (sr_mask _ _ _ _ Hst) Hwc Hn) as (wc' & -> & H1 & H2 & H3). cbn [rbind].
    exists wc'. split; [done|]. split; [done|]. split; [done|]. intros y Hy Ha. apply Hnone; [done | apply (agree_covers _ _ _ _ H2 Ha) |].
    intros i Hi. apply Z.bits_inj'. intros j Hj. rewrite !Z.land_spec. destruct (Z.testbit (nth i w 0) j) eqn:Eb; [|rewrite !andb_false_r; done].
    rewrite (proj1 (agree_bits wc' x y) Ha i j Hj (H3 i j Hi Eb)). done.
Qed.

Lemma find_match_wc_spec ctxs wc : ctxs_ok V x 0 ctxs -> (length ctxs <= length (v_plens vw))%nat -> wc_opt_ok wc ->
  exists ctxs' wc', find_match_wc target c t f ctxs wc = Ok (fst <$> hit vw x, ctxs', wc') /\
    ctxs_ok V x 0 ctxs' /\ length ctxs' = length ctxs /\ wc_step wc wc'.
Proof.
  intros Hc Hlen Hwc. pose proof (sr_mask _ _ _ _ Hst) as Hw. pose proof (mask_map c t vw Hst) as Hm.
  destruct wc as [wc|]; unfold find_match_wc.
  2:{ rewrite Ef, (flow_whole target Htarget (mask_of t) w x Hw Hx), Hm. cbn [rbind].
      change (full_hash target (wmap target w) w x) with (val_hash target w x). rewrite (find_match_spec c t vw Hst f x Ef Hx). exists ctxs, None. done. }
  cbn in Hwc. destruct (check_indices_spec (v_ofs vw) (indices t) 0 None ctxs wc) as (st & ctxs1 & wc1 & E & Hc1 & Hl1 & Hwc1 & Hcov1 & Hok).
  { apply (sr_indices _ _ _ _ Hst). } { apply (sr_ends _ _ _ _ Hst). }
  { eapply Forall_impl; [apply (sr_ends _ _ _ _ Hst)|]. cbn. lia. } { lia. } { done. } { done. } { done. } { done. }
  rewrite acc_0 in E. change (Z.of_nat 0) with 0 in E. rewrite E. clear E. cbn [rbind]. cbv zeta.
  destruct st as [s|a|s basis rule]; cbn [stage_ok] in Hok.
  - destruct Hok as (n & -> & Hn & Hnone). destruct (range_out_spec wc1 n ctxs1 Hwc1 Hn Hnone) as (wc2 & -> & Hwc2 & Hcov2 & Hro).
    destruct (rules_out_hit wc2 Hwc2 Hro) as [E0 Hh]. rewrite E0. exists ctxs1, (Some wc2). split; [done|]. split; [done|]. split; [done|].
    split; [done|]. split; [apply (covers_trans _ _ _ Hcov2 Hcov1) | done].
  - destruct (out_spec wc1 ctxs1 (Some a) Hwc1) as (wc2 & -> & Hwc2 & Hcov2 & Hh). exists ctxs1, (Some wc2). rewrite Hok.
    split; [done|]. split; [done|]. split; [done|]. split; [done|]. split; [apply (covers_trans _ _ _ Hcov2 Hcov1) | done].
  - destruct Hok as (n & -> & Hn & -> & Hrule).
    rewrite (sr_plens _ _ _ _ Hst).
    destruct (check_tries_spec V vw f x (Z.of_nat n) (Z.of_nat nw) Hv Ef Hx ctxs1 0%nat (v_plens vw) wc1 Hc1) as
      (b & ctxs2 & wc2 & -> & Hc2 & Hl2 & Hwc2 & Hcov2 & Hb); [lia | | done |].
    { intros i p Hi. unfold plen. cbn. rewrite nth_lookup, Hi. done. }
    cbn [rbind]. destruct b.
    { destruct (range_out_spec wc2 n ctxs2 Hwc2 Hn) as (wc3 & -> & Hwc3 & Hcov3 & Hro).
      { intros y Hy Ha _. apply Hb; done. }
      destruct (rules_out_hit wc3 Hwc3 Hro) as [E0 Hh]. rewrite E0. exists ctxs2, (Some wc3). split; [done|]. split; [done|]. split; [lia|].
      split; [done|]. split; [apply (covers_trans _ _ _ Hcov3 (covers_trans _ _ _ Hcov2 Hcov1)) | done]. }
    assert (forall r, r = fst <$> hit vw x -> exists ctxs' wc',
      (let* wc := flow_wildcards_fold_minimask wc2 (mask_of t) in Ok (r, ctxs2, Some wc)) = Ok (fst <$> hit vw x, ctxs', wc') /\
      ctxs_ok V x 0 ctxs' /\ length ctxs' = length ctxs /\ wc_step (Some wc) wc') as Hout.
    { intros r ->. destruct (out_spec wc2 ctxs2 (fst <$> hit vw x) Hwc2) as (wc3 & -> & Hwc3 & Hcov3 & Hh). exists ctxs2, (Some wc3).
      split; [done|]. split; [done|]. split; [lia|]. split; [done|].
      split; [apply (covers_trans _ _ _ Hcov3 (covers_trans _ _ _ Hcov2 Hcov1)) | done]. }
    destruct rule as [a|]; [apply Hout; rewrite Hrule by done; done|].
    rewrite Ef. pose proof (flow_stage target Htarget (mask_of t) w x n nw Hw Hx ltac:(lia)) as E. cbv zeta in E. rewrite Hm in E.
    rewrite E. clear E. cbn [rbind]. change (seg_hash (wmap target w) w x nw) with (val_hash target w x).
    rewrite (find_match_spec c t vw Hst f x Ef Hx). cbn [rbind]. apply Hout. done.
Qed.

End Indices.

(** ** Searches in buckets *)

Lemma find_in_bucket_spec {A B} (h : hmap unit) k (test : A -> Res bool) get (l : list B) (node : B -> hmap_node unit)
    (ok : B -> bool) : hmap_wf h -> hmap_nodes h ≡ₚ node <$> l ->
  (forall b, b ∈ l -> exists a, get (node_addr (node b)) = Ok a /\ test a = Ok (ok b)) ->
  (forall b, b ∈ l -> ok b = true -> node_hash (node b) = k) ->
  exists r, (let* b := hmap_first_in_bucket h k in find_in_bucket test get b) = Ok r /\
    match r with
    | Some a => exists b, b ∈ l /\ ok b = true /\ a = node_addr (node b)
    | None => forall b, b ∈ l -> ok b = false
    end.
Proof.
  intros Hwf Hn Hget Hk. unfold hmap_first_in_bucket. destruct (get_bucket_ok h k Hwf) as (b & -> & Hb & Hwith & _). cbn [rbind].
  assert (Forall (fun nd => nd ∈ hmap_nodes h) b) as Hin.
  { apply Forall_forall. intros nd Hnd. apply elem_of_nodes. eauto. }
  assert (forall x, x ∈ l -> ok x = true -> node x ∈ b) as Hall.
  { intros x Hx Ho. assert (node x ∈ with_hash h k) as Hw.
    { apply (elem_of_with_hash h k _ Hwf). split; [rewrite Hn; apply list_elem_of_fmap_2; done | apply Hk; done]. }
    rewrite Hwith in Hw. apply list_elem_of_In, filter_In in Hw as [Hw _]. apply list_elem_of_In. done. }
  clear Hb Hwith. assert (exists r, find_in_bucket test get b = Ok r /\
    match r with
    | Some a => exists x, x ∈ l /\ ok x = true /\ a = node_addr (node x)
    | None => forall x, x ∈ l -> node x ∈ b -> ok x = false
    end) as (r & E & Hr).
  { clear Hall. induction b as [|nd b IH]; cbn [find_in_bucket].
    { exists None. split; [done|]. intros x _ Hx. inversion Hx. }
    inversion_clear Hin as [|? ? Hnd Hin']. rewrite Hn in Hnd. apply list_elem_of_fmap in Hnd as (x & -> & Hx).
    destruct (Hget x Hx) as (a & Ha & Ht). rewrite Ha. cbn [rbind]. rewrite Ht. cbn [rbind]. destruct (ok x) eqn:Ho; [exists (Some (node_addr (node x))); eauto|].
    destruct (IH Hin') as (r & -> & Hr). exists r. split; [done|]. destruct r as [a'|]; [done|].
    intros y Hy Hyb. apply elem_of_cons in Hyb as [Eq|Hyb]; [|apply Hr; done].
    destruct (Hget y Hy) as (a' & Ha' & Ht').
    rewrite Eq, Ha in Ha'. congruence. }
  exists r. split; [done|]. destruct r as [a|]; [done|]. intros x Hx. destruct (ok x) eqn:Ho; [|done].
  specialize (Hr x Hx (Hall x Hx Ho)). congruence.
Qed.

(** *** Partitions *)

Lemma find_partition_spec c T P m : parts_core c T P ->
  exists o, find_partition c m (hash_metadata m) = Ok o /\
    match o with Some p => (p, m) ∈ P | None => forall p, (p, m) ∉ P end.
Proof.
  intros [Hwf Hn _ Hparts]. unfold find_partition. rewrite Forall_forall in Hparts.
  destruct (find_in_bucket_spec (partitions c) (hash_metadata m) (fun p => Ok (p_metadata p =? m)) (load (partition_at c)) P pnode
    (fun p => snd p =? m) Hwf Hn) as (o & E & Ho).
  - intros p Hp. destruct (Hparts p Hp) as (pt & l & Hat & Hmd & _). exists pt. split; [apply load_some; done|]. rewrite Hmd. done.
  - intros p _ Hm. apply Z.eqb_eq in Hm as <-. done.
  - exists o. split; [exact E|]. destruct o as [a|].
    + destruct Ho as ([p md] & Hp & Hm & ->). apply Z.eqb_eq in Hm. cbn in Hm |- *. subst md. done.
    + intros p Hp. apply Ho in Hp. cbn in Hp. rewrite Z.eqb_refl in Hp. done.
Qed.

(** The metadata under a mask that has it all. *)
Lemma full_md_words v : words_ok target v -> full_md target v = true ->
  nth (metadata_ofs target / 4) v 0 = 2 ^ 32 - 1 /\ nth (metadata_ofs target / 4 + 1) v 0 = 2 ^ 32 - 1.
Proof.
  intros [_ Hu] H. apply Z.eqb_eq in H. unfold md_of, OVS_BE64_MAX in H.
  pose proof (nth_u32 v (metadata_ofs target / 4) Hu) as H1. pose proof (nth_u32 v (metadata_ofs target / 4 + 1) Hu) as H2.
  unfold in_u32 in *. lia.
Qed.

Lemma land_ones32 x : in_u32 x -> Z.land x (2 ^ 32 - 1) = x.
Proof. intros Hx. change (2 ^ 32 - 1) with (Z.ones 32). rewrite Z.land_ones by lia. apply Z.mod_small. unfold in_u32 in Hx. lia. Qed.

Lemma md_of_masked w y : words_ok target w -> words_ok target y -> full_md target w = true -> md_of target (masked w y) = md_of target y.
Proof.
  intros Hw [Hl Hu] Hf. destruct (full_md_words w Hw Hf) as [H1 H2]. destruct Hw as [Hlw _]. unfold md_of.
  rewrite !nth_masked, H1, H2 by lia. rewrite !land_ones32 by (apply nth_u32; done). done.
Qed.

(** The tags a lookup goes by: a subtable they do not intersect has no rule for
    a flow with the metadata. *)
Definition tags_sound (V : list view) (tags m : Z) : Prop :=
  forall vw y, vw ∈ V -> tag_intersects tags (v_tag vw) = false -> words_ok target y -> md_of target y = m -> none_match vw y.

Lemma mask_words c V vw : tables_core target c V -> vw ∈ V -> words_ok target (v_mask vw).
Proof.
  intros HT Hv. pose proof (tr_views _ _ _ HT) as Hf. rewrite Forall_forall in Hf. destruct (Hf vw Hv) as (t & _ & Hst).
  pose proof (sr_mask _ _ _ _ Hst) as Hw. split; [apply (rep_len _ _ _ Hw) | apply (rep_u32 _ _ _ Hw)].
Qed.

Lemma elem_of_md_tags V m tag : tag ∈ md_tags target V m <->
  exists vw e, vw ∈ V /\ full_md target (v_mask vw) = true /\ e ∈ entries vw /\ md_of target (e_val e) = m /\ tag = v_tag vw.
Proof.
  unfold md_tags. rewrite list_elem_of_In, in_concat. split.
  - intros (l & Hl & Hq). apply in_map_iff in Hl as (vw & <- & Hv). destruct (full_md target (v_mask vw)) eqn:Ef; [|destruct Hq].
    apply in_map_iff in Hq as (e & <- & He). apply filter_In in He as [He Hm]. exists vw, e. rewrite !list_elem_of_In, <- Z.eqb_eq. done.
  - intros (vw & e & Hv & Ef & He & Hm & ->). eexists. split; [apply in_map_iff; exists vw; split; [done|]; apply list_elem_of_In; done|].
    rewrite Ef. apply in_map_iff. exists e. split; [done|]. apply filter_In. rewrite <- list_elem_of_In, Z.eqb_eq. done.
Qed.

Lemma part_tags_sound c V P p pt m : tables_core target c V -> parts_rep target c V P -> (p, m) ∈ P ->
  partition_at c !! p = Some pt -> tags_sound V (p_tags pt) m.
Proof.
  intros HT HP Hp Hpt vw y Hv Hi Hy Hm e He Ev. pose proof (pr_parts _ _ _ HP) as Hparts. rewrite Forall_forall in Hparts.
  destruct (Hparts _ Hp) as (pt' & l & Hat & _ & (_ & Etags & Hu & _) & Hl & Hne). cbn in Hat, Hl. rewrite Hpt in Hat. injection Hat as <-.
  pose proof (tr_views _ _ _ HT) as Hf. rewrite Forall_forall in Hf. destruct (Hf vw Hv) as (t & _ & Hst).
  destruct (full_md target (v_mask vw)) eqn:Efull.
  - assert (v_tag vw ∈ l) as Hin.
    { rewrite Hl. apply elem_of_md_tags. exists vw, e. repeat split; try done. rewrite Ev, md_of_masked; [done | | done | done].
      apply (mask_words c V vw HT Hv). }
    rewrite tag_intersects_sub in Hi; [done | apply (sr_two_bits _ _ _ _ Hst) |].
    intros k Hk. rewrite Etags. apply tags_of_bit. eauto.
  - rewrite (sr_tag_all _ _ _ _ Hst Efull) in Hi. rewrite tag_intersects_all in Hi; [done|]. split; [rewrite Etags; apply tags_of_u32; done|].
    destruct l as [|tag l]; [done|]. assert (tag ∈ md_tags target V m) as Ht by (rewrite <- Hl; left).
    apply elem_of_md_tags in Ht as (vw' & _ & Hv' & _ & _ & _ & ->). destruct (Hf vw' Hv') as (t' & _ & Hst').
    destruct (sr_two_bits _ _ _ _ Hst') as [_ (i & j & Hij & Hbi & Hbj)]. exists i, j. split; [done|]. rewrite Etags.
    split; apply tags_of_bit; exists (v_tag vw'); (split; [left | done]).
Qed.

Lemma arbitrary_two_bits : two_bits TAG_ARBITRARY.
Proof. split; [unfold in_u32, TAG_ARBITRARY; lia|]. exists 0, 1. done. Qed.

(** Without a partition for the metadata. *)
Lemma no_part_tags_sound c V P m : tables_core target c V -> parts_rep target c V P -> (forall p, (p, m) ∉ P) ->
  tags_sound V TAG_ARBITRARY m.
Proof.
  intros HT HP Hno vw y Hv Hi Hy Hm e He Ev.
  pose proof (tr_views _ _ _ HT) as Hf. rewrite Forall_forall in Hf. destruct (Hf vw Hv) as (t & _ & Hst).
  destruct (full_md target (v_mask vw)) eqn:Efull.
  - destruct (entry_at c t vw Hst e He) as (r & Hr & _). pose proof (pr_rules _ _ _ _ HP vw e r Hv He Hr) as Hrp.
    unfold rule_part in Hrp. rewrite Efull in Hrp. destruct Hrp as (p & _ & Hp). apply (Hno p).
    rewrite Ev, md_of_masked, Hm in Hp; [done | apply (mask_words c V vw HT Hv) | done | done].
  - rewrite (sr_tag_all _ _ _ _ Hst Efull), (tag_intersects_all _ arbitrary_two_bits) in Hi. done.
Qed.

(** ** All subtables *)

(** The better of two rules, the first one if they have the same priority. *)
Definition better (b h : option (nat * Z)) : option (nat * Z) :=
  match b, h with
  | Some bp, Some hp => if snd bp <? snd hp then h else b
  | None, _ => h
  | Some _, None => b
  end.

Fixpoint best_from (b : option (nat * Z)) (V : list view) (x : list Z) : option (nat * Z) :=
  match V with
  | [] => b
  | vw :: V => best_from (better b (hit vw x)) V x
  end.

Lemma hit_entry c vw x a p : view_at target c vw -> max_ok vw -> hit vw x = Some (a, p) ->
  exists e, e ∈ entries vw /\ e_addr e = a /\ e_prio e = p /\ e_val e = masked (v_mask vw) x /\ p <= v_max vw /\
    exists r, rule_at c !! a = Some r /\ priority r = p.
Proof.
  intros (t & _ & Hst) [Hm _] H. unfold hit in H. destruct (List.find _ _) as [g|] eqn:E; [|done]. cbn in H. injection H as Eh.
  apply find_some in E as [Hg Ev]. apply list_elem_of_In in Hg. apply bool_decide_eq_true in Ev.
  pose proof (head_entry c t vw Hst g Hg) as He. pose proof (entry_at c t vw Hst _ He) as (r & Hr & _ & Hp & _).
  rewrite Eh in *. cbn in *. eexists. split; [exact He|]. cbn. split; [done|]. split; [done|]. split; [done|].
  split; [|exists r; done]. rewrite Forall_forall in Hm. specialize (Hm (snd (g_head g))). rewrite Eh in Hm. apply Hm.
  apply list_elem_of_In, in_map_iff. exists g. rewrite Eh. split; [done|]. apply list_elem_of_In. done.
Qed.

Lemma best_from_low c V x b : Forall (fun vw => view_at target c vw /\ max_ok vw) V -> (forall vw, vw ∈ V -> v_max vw <= snd b) -> best_from (Some b) V x = Some b.
Proof.
  revert b. induction V as [|vw V IH]; intros b HV Hle; [done|]. inversion_clear HV as [|? ? [Hvw Hmx] HV']. cbn [best_from].
  assert (better (Some b) (hit vw x) = Some b) as ->; [|apply IH; [done|]; intros vw' Hv'; apply Hle; right; done].
  destruct (hit vw x) as [[a p]|] eqn:E; [|done]. destruct (hit_entry c vw x a p Hvw Hmx E) as (_ & _ & _ & _ & _ & Hp & _).
  pose proof (Hle vw ltac:(left)). cbn. rewrite (proj2 (Z.ltb_ge _ _)) by lia. done.
Qed.

(** What the wildcards of a lookup promise: flows that agree on them, with the
    metadata, have the same answer. *)
Definition decided (ans : list Z -> option (nat * Z)) (x : list Z) (wc wc' : option (list Z)) : Prop :=
  match wc, wc' with
  | None, None => True
  | Some a, Some b => words_ok target b /\ covers b a /\
      forall y, words_ok target y -> md_of target y = md_of target x -> agree_on b x y -> ans y = ans x
  | _, _ => False
  end.

Lemma decided_refl ans x wc : wc_opt_ok wc -> (forall y, words_ok target y -> ans y = ans x) -> decided ans x wc wc.
Proof. destruct wc; [|done]. intros H Ha. split; [done|]. split; [apply covers_refl|]. intros y Hy _ _. apply Ha. done. Qed.

(** A subtable, then the others. *)
Lemma decided_step vw b V x wc wc1 wc' : wc_step vw x wc wc1 ->
  decided (fun y => best_from (better b (hit vw x)) V y) x wc1 wc' ->
  decided (fun y => best_from b (vw :: V) y) x wc wc'.
Proof.
  destruct wc as [a|], wc1 as [a1|], wc' as [a'|]; try done. intros (_ & Hc1 & Hh) (Hw & Hc & Ha). split; [done|].
  split; [apply (covers_trans _ _ _ Hc Hc1)|]. intros y Hy Hm Hag. cbn [best_from].
  rewrite (Hh y (wo_len _ _ Hy) (agree_covers _ _ _ _ Hc Hag)). apply Ha; done.
Qed.

Lemma wc_step_ok vw x wc wc' : wc_step vw x wc wc' -> wc_opt_ok wc'.
Proof. destruct wc, wc'; try done. intros (H & _). exact H. Qed.

Section Loops.
Context (c : classifier) (V : list view) (f : flow) (x : list Z) (tags : Z).
Context (HV : Forall (fun vw => view_at target c vw /\ max_ok vw) V) (Ef : flow_u32 target f = x) (Hx : words_ok target x).
Context (Htags : tags_sound V tags (md_of target x)).

(** The tags rule the subtable out. *)
Lemma tags_skip vw b l wc wc' : vw ∈ V -> tag_intersects tags (v_tag vw) = false ->
  decided (best_from b l) x wc wc' -> hit vw x = None /\ decided (best_from b (vw :: l)) x wc wc'.
Proof.
  intros Hv Hi Hd. pose proof HV as HV'. rewrite Forall_forall in HV'. destruct (HV' vw Hv) as ((t & _ & Hst) & _).
  assert (forall y, words_ok target y -> md_of target y = md_of target x -> hit vw y = None) as Hn.
  { intros y Hy Hm. apply (none_hit c t vw Hst). apply (Htags vw y Hv Hi Hy Hm). }
  split; [apply Hn; done|]. destruct wc as [a|], wc' as [a'|]; try done. destruct Hd as (Hw & Hc & Ha).
  split; [done|]. split; [done|]. intros y Hy Hm Hag. cbn [best_from]. rewrite (Hn y Hy Hm), (Hn x Hx eq_refl).
  assert (better b None = b) as -> by (destruct b; done). apply Ha; done.
Qed.

Lemma view_load vw : vw ∈ V -> exists t, load (subtable_at c) (v_addr vw) = Ok t /\ st_rep target (rule_at c) t vw.
Proof.
  intros Hv. pose proof HV as HV'. rewrite Forall_forall in HV'. destruct (HV' vw Hv) as ((t & Ht & Hst) & _). exists t.
  split; [apply load_some; done | done].
Qed.

Context (Hplens : forall vw, vw ∈ V -> length (v_plens vw) = CLS_MAX_TRIES).

Lemma lookup_rest_spec l : forall b ctxs wc, (forall vw, vw ∈ l -> vw ∈ V) -> StronglySorted (fun a b => v_max b <= v_max a) l ->
  ctxs_ok V x 0 ctxs -> (length ctxs <= CLS_MAX_TRIES)%nat -> wc_opt_ok wc ->
  exists wc', lookup_rest target c f tags (v_addr <$> l) b ctxs wc = Ok (fst <$> best_from (Some b) l x, wc') /\
    decided (best_from (Some b) l) x wc wc'.
Proof.
  induction l as [|vw l IH]; intros b ctxs wc Hl Hsort Hc Hlen Hwc; cbn [fmap list_fmap lookup_rest].
  { exists wc. split; [done|]. apply decided_refl; done. }
  assert (vw ∈ V) as Hv by (apply Hl; left). apply StronglySorted_inv in Hsort as [Hsort Hmax].
  assert (forall vw, vw ∈ l -> vw ∈ V) as Hl' by (intros vw' Hv'; apply Hl; right; done).
  destruct (view_load vw Hv) as (t & -> & Hst). cbn [rbind]. rewrite (sr_max _ _ _ _ Hst), (sr_tag _ _ _ _ Hst).
  destruct (Z.leb_spec (v_max vw) (snd b)) as [Hle|_].
  { assert (forall y, best_from (Some b) (vw :: l) y = Some b) as Hlow.
    { intros y. apply (best_from_low c).
      - apply Forall_forall. intros vw' Hv'. apply (proj1 (Forall_forall _ _) HV), Hl. done.
      - intros vw' Hv'. apply elem_of_cons in Hv' as [->|Hv']; [done|]. rewrite Forall_forall in Hmax. specialize (Hmax vw' Hv'). lia. }
    exists wc. split; [rewrite Hlow; done|]. apply decided_refl; [done|]. intros y _. rewrite !Hlow. done. }
  destruct (tag_intersects tags (v_tag vw)) eqn:Hi; cbn [negb].
  2:{ destruct (IH b ctxs wc Hl' Hsort Hc Hlen Hwc) as (wc' & -> & Hd). destruct (tags_skip vw _ l wc wc' Hv Hi Hd) as [Hn Hd'].
      exists wc'. split; [|done]. cbn [best_from]. rewrite Hn. done. }
  destruct (find_match_wc_spec c t vw V f x Hst Hv Ef (wo_len _ _ Hx) ctxs wc Hc) as (ctxs1 & wc1 & -> & Hc1 & Hl1 & Hstep);
    [rewrite (Hplens vw Hv); done | done |]. cbn [rbind].
  assert (forall b', Some b' = better (Some b) (hit vw x) -> exists wc',
    lookup_rest target c f tags (v_addr <$> l) b' ctxs1 wc1 = Ok (fst <$> best_from (Some b) (vw :: l) x, wc') /\
    decided (best_from (Some b) (vw :: l)) x wc wc') as Hnext.
  { intros b' Eb. destruct (IH b' ctxs1 wc1 Hl' Hsort Hc1) as (wc' & -> & Hd); [lia | apply (wc_step_ok _ _ _ _ Hstep) |].
    exists wc'. rewrite Eb in Hd |- *. split; [done|]. apply (decided_step vw _ l x wc wc1 wc' Hstep Hd). }
  destruct (hit vw x) as [[a p]|] eqn:Eh; cbn [fmap option_fmap option_map fst]; [|apply Hnext; done].
  destruct (proj1 (Forall_forall _ _) HV vw Hv) as [Hvw Hmx]. destruct (hit_entry c vw x a p Hvw Hmx Eh) as (_ & _ & _ & _ & _ & _ & r & Hr & Hp).
  rewrite (load_some _ _ _ Hr). cbn [rbind]. rewrite Hp. apply Hnext. cbn. destruct (snd b <? p); done.
Qed.

Lemma lookup_first_spec l : forall ctxs wc, (forall vw, vw ∈ l -> vw ∈ V) -> StronglySorted (fun a b => v_max b <= v_max a) l ->
  ctxs_ok V x 0 ctxs -> (length ctxs <= CLS_MAX_TRIES)%nat -> wc_opt_ok wc ->
  exists wc', lookup_first target c f tags (v_addr <$> l) ctxs wc = Ok (fst <$> best_from None l x, wc') /\
    decided (best_from None l) x wc wc'.
Proof.
  induction l as [|vw l IH]; intros ctxs wc Hl Hsort Hc Hlen Hwc; cbn [fmap list_fmap lookup_first].
  { exists wc. split; [done|]. apply decided_refl; done. }
  assert (vw ∈ V) as Hv by (apply Hl; left). apply StronglySorted_inv in Hsort as [Hsort Hmax].
  assert (forall vw, vw ∈ l -> vw ∈ V) as Hl' by (intros vw' Hv'; apply Hl; right; done).
  destruct (view_load vw Hv) as (t & -> & Hst). cbn [rbind]. rewrite (sr_tag _ _ _ _ Hst).
  destruct (tag_intersects tags (v_tag vw)) eqn:Hi; cbn [negb].
  2:{ destruct (IH ctxs wc Hl' Hsort Hc Hlen Hwc) as (wc' & -> & Hd). destruct (tags_skip vw _ l wc wc' Hv Hi Hd) as [Hn Hd'].
      exists wc'. split; [|done]. cbn [best_from]. rewrite Hn. done. }
  destruct (find_match_wc_spec c t vw V f x Hst Hv Ef (wo_len _ _ Hx) ctxs wc Hc) as (ctxs1 & wc1 & -> & Hc1 & Hl1 & Hstep);
    [rewrite (Hplens vw Hv); done | done |]. cbn [rbind]. pose proof (wc_step_ok _ _ _ _ Hstep) as Hwc1.
  destruct (hit vw x) as [[a p]|] eqn:Eh; cbn [fmap option_fmap option_map fst].
  - destruct (proj1 (Forall_forall _ _) HV vw Hv) as [Hvw Hmx]. destruct (hit_entry c vw x a p Hvw Hmx Eh) as (_ & _ & _ & _ & _ & _ & r & Hr & Hp).
    rewrite (load_some _ _ _ Hr). cbn [rbind]. rewrite Hp.
    destruct (lookup_rest_spec l (a, p) ctxs1 wc1 Hl' Hsort Hc1) as (wc' & -> & Hd); [lia | done |].
    exists wc'. split; [cbn [best_from]; rewrite Eh; done|]. apply (decided_step vw _ l x wc wc1 wc' Hstep). rewrite Eh. done.
  - destruct (IH ctxs1 wc1 Hl' Hsort Hc1) as (wc' & -> & Hd); [lia | done |]. exists wc'.
    split; [cbn [best_from]; rewrite Eh; done|]. apply (decided_step vw _ l x wc wc1 wc' Hstep). rewrite Eh. done.
Qed.

End Loops.

(** ** The lookup *)

Lemma elem_of_all_entries V e : e ∈ all_entries V <-> exists vw, vw ∈ V /\ e ∈ entries vw.
Proof.
  unfold all_entries. rewrite list_elem_of_In, in_concat. split.
  - intros (l & Hl & He). apply in_map_iff in Hl as (vw & <- & Hv). exists vw. rewrite !list_elem_of_In. done.
  - intros (vw & Hv & He). exists (entries vw). split; [|apply list_elem_of_In; done].
    apply in_map_iff. exists vw. split; [done|]. apply list_elem_of_In. done.
Qed.

(** There are no more partitions than rules. *)
Lemma parts_few c V P : parts_rep target c V P -> (length P <= length (all_entries V))%nat.
Proof.
  intros HP. rewrite <- (length_map (fun e => md_of target (e_val e)) (all_entries V)), <- (length_map snd P).
  apply NoDup_incl_length; [apply NoDup_ListNoDup, (pr_metadata _ _ _ HP)|]. intros m Hm.
  apply in_map_iff in Hm as ([p m'] & <- & Hp). pose proof (pr_parts _ _ _ HP) as Hparts. rewrite Forall_forall in Hparts.
  apply list_elem_of_In in Hp. destruct (Hparts _ Hp) as (pt & l & _ & _ & _ & Hl & Hne). cbn in Hl |- *.
  destruct l as [|tag l]; [done|]. assert (tag ∈ md_tags target V m') as Ht by (rewrite <- Hl; left).
  apply elem_of_md_tags in Ht as (vw & e & Hv & _ & He & Hmd & _). apply in_map_iff. exists e. split; [done|].
  apply list_elem_of_In, elem_of_all_entries. eauto.
Qed.

Lemma lookup_tags_spec c V P m : cls_rep target c V P ->
  exists tags, (let* partition := if hmap_is_empty (partitions c) then Ok None else find_partition c m (hash_metadata m) in
      match partition with
      | Some p => let* pt := load (partition_at c) p in Ok (p_tags pt)
      | None => Ok TAG_ARBITRARY
      end) = Ok tags /\ tags_sound V tags m.
Proof.
  intros [HT HP _ _ _ Hsmall]. unfold hmap_is_empty. destruct (Z.eqb_spec (hmap_n (partitions c)) 0) as [E|E]; cbn [rbind].
  - exists TAG_ARBITRARY. split; [done|]. apply (no_part_tags_sound c V P m HT HP). intros p Hp.
    rewrite (wf_n _ (pr_wf _ _ _ HP)) in E. pose proof (parts_few c V P HP) as Hf.
    rewrite (pr_nodes _ _ _ HP), length_fmap, u32_id in E by (unfold in_u32; lia).
    destruct P; [inversion Hp | cbn in E; lia].
  - destruct (find_partition_spec c _ P m HP) as ([p|] & -> & Ho); cbn [rbind].
    + pose proof (pr_parts _ _ _ HP) as Hparts. rewrite Forall_forall in Hparts. destruct (Hparts _ Ho) as (pt & l & Hat & _).
      cbn in Hat. rewrite (load_some _ _ _ Hat). cbn [rbind]. exists (p_tags pt). split; [done|].
      apply (part_tags_sound c V P p pt m HT HP Ho Hat).
    + exists TAG_ARBITRARY. split; [done|]. apply (no_part_tags_sound c V P m HT HP). done.
Qed.

Lemma trie_rep_is c V i ct : tables_core target c V -> trie_rep target V i ct ->
  exists mf o k, trie_is V i ct mf o k.
Proof.
  intros HT (mf & o & k & Hmf & Hf & Hp & Hwf & Hr). exists mf, o, k. split; try done.
  apply Forall_forall. intros vw Hv. rewrite Forall_forall in Hp. specialize (Hp vw Hv).
  pose proof (tr_views _ _ _ HT) as HV. rewrite Forall_forall in HV. destruct (HV vw Hv) as (t & _ & Hst).
  split; [apply (mask_len c t vw Hst)|]. apply (plen_ok_bits _ _ _ _ _ _ (sr_mask _ _ _ _ Hst) Hf Hp).
Qed.

Lemma ctxs_init_spec c V x l : tables_core target c V -> forall j, (forall i ct, l !! i = Some ct -> trie_rep target V (j + i) ct) ->
  exists ctxs, ctxs_init l = Ok ctxs /\ length ctxs = length l /\ ctxs_ok V x j ctxs.
Proof.
  intros HT. induction l as [|ct l IH]; intros j Hl; cbn [ctxs_init].
  { exists []. split; [done|]. split; [done|]. intros i ctx Hi. done. }
  destruct (trie_rep_is c V j ct HT) as (mf & o & k & Hti); [rewrite <- (Nat.add_0_r j); apply Hl; done|].
  destruct (IH (S j)) as (ctxs & -> & Hlen & Hc); [intros i ct' Hi; rewrite Nat.add_succ_comm; apply Hl; done|].
  unfold trie_ctx_init, the_field. rewrite (ti_field _ _ _ _ _ _ Hti). cbn [rbind]. eexists. split; [done|]. split; [cbn; lia|].
  apply ctxs_ok_cons. split; [|done]. exists mf, o, k. split; [done|]. split; [apply (ti_ok _ _ _ _ _ _ Hti) | done].
Qed.

Lemma metadata_of_words f : flow_typed f -> metadata f = md_of target (flow_u32 target f).
Proof.
  intros Hf. unfold md_of. destruct (metadata_words target Htarget f Hf) as [-> ->]. pose proof (Z.div_mod (metadata f) (2 ^ 32)). lia.
Qed.

Lemma classifier_lookup_rep c V P f wc : cls_rep target c V P -> flow_typed f -> wc_opt_ok wc ->
  exists wc', classifier_lookup target c f wc = Ok (fst <$> best_from None V (flow_u32 target f), wc') /\
    decided (best_from None V) (flow_u32 target f) wc wc'.
Proof.
  intros HC Hf Hwc. pose proof HC as [HT _ Htr _ _ _]. destruct (flow_u32_ok target Htarget f Hf) as [Hl Hu].
  destruct (lookup_tags_spec c V P (metadata f) HC) as (tags & Et & Htags). unfold classifier_lookup.
  rewrite <- rbind_assoc, Et. cbn [rbind].
  destruct (ctxs_init_spec c V (flow_u32 target f) (take (n_tries c) (tries c)) HT 0) as (ctxs & -> & Hlen & Hc).
  { intros i ct Hi. apply lookup_take_Some in Hi as [Hi Hn]. apply (tt_tries _ _ _ Htr i ct); done. }
  cbn [rbind]. rewrite (tr_order _ _ _ HT). rewrite (metadata_of_words f Hf) in Htags.
  assert (Forall (fun vw => view_at target c vw /\ max_ok vw) V) as Hviews by (apply Forall_and; split; [apply (tr_views _ _ _ HT) | apply (tr_max _ _ _ HT)]).
  apply (lookup_first_spec c V f (flow_u32 target f) tags Hviews eq_refl (Build_words_ok _ _ Hl Hu) Htags); try done.
  - intros vw Hv. pose proof (tr_views _ _ _ HT) as HV. rewrite Forall_forall in HV. destruct (HV vw Hv) as (t & _ & Hst).
    apply (sr_n_plens _ _ _ _ Hst).
  - apply (tr_sorted _ _ _ HT).
  - rewrite Hlen, length_take. pose proof (tt_n _ _ _ Htr). lia.
Qed.

End Lookup.
