(* ===== verification/ClsTables.v ===== *)
(** * The classifier: subtables

    Subtables are found by their masks, made empty at the end of the list, moved
    in the list when their highest priority changes, and destroyed. *)

From Stdlib Require Import ZArith Lia List Bool Sorted.
From stdpp Require Import base option list_relations list sets gmap sorting.
From S2P Require Import Prelude Bytes Hash Csum Packets Bits Hmap Hindex Flow FlowFacts FlowCompose Miniflow MiniflowFacts MiniflowProps MatchSet MetaFlow Tag Trie TrieFacts Classifier ClsFacts ClsRep ClsLookup.
#[local] Open Scope Z_scope.
#[local] Open Scope res_scope.

#[local] Opaque one_bits for_each_1bit.

Lemma fmap_rev {A B} (f : A -> B) (l : list A) : f <$> rev l = rev (f <$> l).
Proof. apply map_rev. Qed.

Section Tables.
Variable target : abi.
Hypothesis Htarget : target = i686 \/ target = x86_64.

Abbreviation nw := (FLOW_U32S target).

(** ** Masks *)

(** A compressed mask for words, as rules and subtables have it. *)
Definition mask_rep (mask : minimask) (w : list Z) : Prop := mf_rep target (masks mask) w /\ tight (masks mask) w.

Lemma mask_rep_words mask w : mask_rep mask w -> words_ok target w.
Proof. intros [H _]. split; [apply (rep_len _ _ _ H) | apply (rep_u32 _ _ _ H)]. Qed.

Lemma mask_rep_hash mask w : mask_rep mask w -> minimask_hash mask 0 = Ok (mask_hash target w).
Proof.
  intros [H T]. unfold minimask_hash. rewrite (miniflow_hash_rep target _ w 0 H), (tight_wmap target Htarget _ w H T). done.
Qed.

Lemma minimask_equal_rep a va b vb : mask_rep a va -> mask_rep b vb -> minimask_equal a b = Ok (bool_decide (va = vb)).
Proof. intros [Ha _] [Hb _]. unfold minimask_equal. apply (miniflow_equal_rep target Htarget _ _ _ _ Ha Hb). Qed.

Lemma mini_md mf w : mf_rep target mf w -> miniflow_get_metadata target mf = Ok (md_of target w).
Proof.
  intros H. unfold miniflow_get_metadata. replace (Z.of_nat (metadata_ofs target / 4) + 1) with (Z.of_nat (metadata_ofs target / 4 + 1)) by lia.
  rewrite !(miniflow_get_rep target mf w _ H) by (destruct Htarget as [-> | ->]; vm_compute; lia). cbn [rbind].
  pose proof (nth_u32 w (metadata_ofs target / 4) (rep_u32 _ _ _ H)) as H1.
  pose proof (nth_u32 w (metadata_ofs target / 4 + 1) (rep_u32 _ _ _ H)) as H2.
  unfold md_of. set (a := nth (metadata_ofs target / 4) w 0) in *. set (b := nth (metadata_ofs target / 4 + 1) w 0) in *. unfold in_u32 in *.
  rewrite <- (htonll_halves (a + 2 ^ 32 * b)) by (unfold in_u64; lia).
  rewrite (Z.mul_comm (2 ^ 32) b), Z.mod_add, Z.div_add, Z.mod_small, Z.div_small, Z.add_0_l by lia. done.
Qed.

(** ** Search *)

Lemma snode_inj c V a b : tables_core target c V -> a ∈ V -> b ∈ V -> v_mask a = v_mask b -> a = b.
Proof.
  intros HT Ha Hb E. apply list_elem_of_lookup in Ha as [i Hi]. apply list_elem_of_lookup in Hb as [j Hj].
  assert (i = j) as ->; [|congruence]. apply (NoDup_lookup _ i j (v_mask a) (tr_masks _ _ _ HT)); rewrite list_lookup_fmap;
    [rewrite Hi | rewrite Hj]; cbn; congruence.
Qed.

Lemma find_subtable_spec c V mask w : tables_core target c V -> mask_rep mask w ->
  exists o, find_subtable c mask = Ok o /\
    match o with
    | Some s => exists vw, vw ∈ V /\ v_mask vw = w /\ v_addr vw = s
    | None => forall vw, vw ∈ V -> v_mask vw <> w
    end.
Proof.
  intros HT Hm. unfold find_subtable. rewrite (mask_rep_hash mask w Hm). cbn [rbind].
  pose proof (tr_views _ _ _ HT) as HV. rewrite Forall_forall in HV.
  destruct (find_in_bucket_spec (subtables c) (mask_hash target w) (fun t => minimask_equal mask (mask_of t)) (load (subtable_at c))
    V (snode target) (fun vw => bool_decide (w = v_mask vw)) (tr_wf _ _ _ HT) (tr_nodes _ _ _ HT)) as (o & E & Ho).
  - intros vw Hv. destruct (HV vw Hv) as (t & Ht & Hst). exists t. split; [apply load_some; done|].
    apply (minimask_equal_rep mask w (mask_of t) (v_mask vw) Hm). split; [apply (sr_mask _ _ _ _ Hst) | apply (sr_tight _ _ _ _ Hst)].
  - intros vw _ Hd. apply bool_decide_eq_true in Hd as ->. done.
  - exists o. split; [exact E|]. destruct o as [a|].
    + destruct Ho as (vw & Hv & Hd & ->). apply bool_decide_eq_true in Hd. exists vw. done.
    + intros vw Hv Ew. specialize (Ho vw Hv). apply bool_decide_eq_false in Ho. congruence.
Qed.

(** ** A new subtable *)

Lemma prefix_len_loop_eq m1 m2 w : mf_rep target (masks m1) w -> mf_rep target (masks m2) w -> forall n o tz nb, (o + n <= nw)%nat ->
  prefix_len_loop target m1 n (Z.of_nat o) tz nb = prefix_len_loop target m2 n (Z.of_nat o) tz nb.
Proof.
  intros H1 H2. pose proof (nw_bound target Htarget). induction n as [|n IH]; intros o tz nb Ho; [done|]. cbn [prefix_len_loop].
  unfold minimask_get. rewrite (miniflow_get_rep target _ w o H1), (miniflow_get_rep target _ w o H2) by lia. cbn [rbind].
  replace (Z.of_nat o + 1) with (Z.of_nat (S o)) by lia. rewrite !IH by lia. done.
Qed.

Lemma get_plen mask w mf o k : mf_rep target (masks mask) w -> field_ok target mf o k ->
  exists p, minimask_get_prefix_len target mask mf = Ok (Z.of_nat p) /\ plen_ok target mf w p.
Proof.
  intros Hw (Ho & Hk & Hok & _). assert (forall m, minimask_get_prefix_len target m mf = prefix_len_loop target m k (Z.of_nat o) 0 0) as E.
  { intros m. unfold minimask_get_prefix_len. rewrite Hk, Ho, Z.mul_comm, Z.div_mul, Nat2Z.id by lia. done. }
  destruct (prefix_len_spec target Htarget mask w Hw k o 0 0) as (r & Er & Hr & _); [lia..|].
  exists (Z.to_nat r). rewrite Z2Nat.id by done. split; [rewrite E; done|]. intros m Hm. rewrite E, Z2Nat.id by done.
  rewrite (prefix_len_loop_eq m mask w Hm Hw) by lia. done.
Qed.

Lemma plens_of_spec mask w l : mf_rep target (masks mask) w ->
  Forall (fun ct => exists mf o k, trie_field ct = Some mf /\ field_ok target mf o k) l ->
  exists ps, plens_of target mask l = Ok (Z.of_nat <$> ps) /\ length ps = length l /\
    forall i ct mf, l !! i = Some ct -> trie_field ct = Some mf -> plen_ok target mf w (nth i ps 0%nat).
Proof.
  intros Hw. induction 1 as [|ct l (mf & o & k & Hmf & Hf) _ (ps & E & Hlen & Hp)]; cbn [plens_of].
  { exists []. split; [done|]. split; [done|]. intros i ct mf Hi. done. }
  unfold the_field. rewrite Hmf. cbn [rbind]. destruct (get_plen mask w mf o k Hw Hf) as (p & -> & Hpok). rewrite E. cbn [rbind].
  exists (p :: ps). split; [done|]. split; [cbn; lia|]. intros [|i] ct' mf' Hi Hmf'; cbn in Hi |- *.
  - injection Hi as <-. assert (mf' = mf) as -> by congruence; done.
  - apply (Hp i ct'); done.
Qed.

Definition new_index (o : nat) : Z * rule_index := (Z.of_nat o, hindex_init).

Lemma init_indices_spec mask w segs : mf_rep target (masks mask) w -> StronglySorted le segs -> forall old new prev,
  Forall (fun s => prev <= s <= nw)%nat segs -> (prev <= nw)%nat -> length new = nw ->
  exists ofs old' new' prev', init_indices target mask (Z.of_nat <$> segs) old new (Z.of_nat prev) =
      Ok (map new_index ofs, old', new', Z.of_nat prev') /\
    length new' = nw /\ (prev' <= nw)%nat /\ StronglySorted le ofs /\ (forall o, o ∈ ofs -> o ∈ segs).
Proof.
  intros Hw. induction 1 as [|s segs Hsort IH Hle]; intros old new prev Hge Hprev Hnew; cbn [fmap list_fmap init_indices].
  { exists [], old, new, prev. split; [done|]. split; [done|]. split; [done|]. split; [constructor|]. intros o Ho. inversion Ho. }
  inversion_clear Hge as [|? ? [Hs Hsn] Hge'].
  rewrite (fold_range target Htarget mask w new prev s Hw Hnew) by lia. cbn [rbind]. set (new1 := fold_at _ new w).
  assert (length new1 = nw) as Hnew1 by (unfold new1; rewrite length_fold_at; done).
  assert (Forall (fun s' => s <= s' <= nw)%nat segs) as Hge2.
  { rewrite Forall_forall in Hle, Hge' |- *. intros s' Hs'. specialize (Hle s' Hs'). specialize (Hge' s' Hs'). lia. }
  destruct (negb _).
  - destruct (IH new1 new1 s Hge2 Hsn Hnew1) as (ofs & old' & new' & prev' & -> & H1 & H2 & H3 & H4). cbn [rbind].
    exists (s :: ofs), old', new', prev'. split; [done|]. split; [done|]. split; [done|]. split.
    + constructor; [done|]. rewrite Forall_forall in Hle |- *. intros o Ho. apply Hle, H4. done.
    + intros o Ho. apply elem_of_cons in Ho as [->|Ho]; [left | right; apply H4; done].
  - destruct (IH old new1 s Hge2 Hsn Hnew1) as (ofs & old' & new' & prev' & -> & H1 & H2 & H3 & H4).
    exists ofs, old', new', prev'. split; [done|]. split; [done|]. split; [done|]. split; [done|].
    intros o Ho. right. apply H4. done.
Qed.

(** The fields that the operations on subtables leave alone. *)
Record same_rest (c c' : classifier) : Prop := {
  fr_n_rules : n_rules c' = n_rules c;
  fr_segments : flow_segments c' = flow_segments c;
  fr_parts : partitions c' = partitions c;
  fr_part_at : partition_at c' = partition_at c;
  fr_tries : tries c' = tries c;
  fr_n_tries : n_tries c' = n_tries c
}.

Lemma frame_refl c : same_rest c c.
Proof. done. Qed.

Lemma frame_trans a b c : same_rest a b -> same_rest b c -> same_rest a c.
Proof. intros [] []. split; congruence. Qed.

Lemma st_rep_rules R R' t vw : (forall e, e ∈ entries vw -> R' !! e_addr e = R !! e_addr e) ->
  st_rep target R t vw -> st_rep target R' t vw.
Proof.
  intros Heq []. split; try done. rewrite Forall_forall in sr_rules |- *. intros e He.
  destruct (sr_rules e He) as (r & Hr & H). exists r. rewrite (Heq e He). done.
Qed.

Lemma view_at_eq c c' vw : subtable_at c' !! v_addr vw = subtable_at c !! v_addr vw ->
  (forall e, e ∈ entries vw -> rule_at c' !! e_addr e = rule_at c !! e_addr e) -> view_at target c vw -> view_at target c' vw.
Proof. intros Hs Hr (t & Ht & Hst). exists t. rewrite Hs. split; [done|]. apply (st_rep_rules (rule_at c)); done. Qed.

Lemma mask_hash_u32 w : in_u32 (mask_hash target w).
Proof.
  unfold mask_hash, hash_of. destruct (fold_left _ _ _) as [h m]. apply mhash_finish_u32.
Qed.

Lemma tables_addrs c V : tables_core target c V -> NoDup (v_addr <$> V).
Proof.
  intros HT. pose proof (wf_addr _ (tr_wf _ _ _ HT)) as Hn. rewrite (tr_nodes _ _ _ HT) in Hn.
  rewrite <- list_fmap_compose in Hn. exact Hn.
Qed.

Lemma index_ok_empty w o : index_ok target w [] o (Z.of_nat o, hindex_init).
Proof.
  split; [done|]. split; [apply hindex_init_wf|]. intros k. cbn [snd]. unfold igroup, hindex_init. 
  rewrite (with_hash_nodes _ _ hmap_init_wf). done.
Qed.

(** The view of a subtable without rules. *)
Definition empty_view (vw : view) (addr : nat) (w : list Z) : Prop :=
  v_addr vw = addr /\ v_mask vw = w /\ v_groups vw = [] /\ v_max vw = 0 /\ v_count vw = 0 /\ v_n vw = 0.

Lemma insert_subtable_spec c V addr mask w : tables_core target c V -> tries_rep target c V -> mask_rep mask w ->
  addr ∉ v_addr <$> V -> w ∉ v_mask <$> V ->
  exists c' vw, insert_subtable target c addr mask = Ok c' /\ empty_view vw addr w /\ tables_core target c' (V ++ [vw]) /\
    tries_rep target c' (V ++ [vw]) /\ same_rest c c' /\ rule_at c' = rule_at c.
Proof.
  intros HT [Hlen Hn Htr] Hm Haddr Hmask. pose proof Hm as [Hw Htight]. pose proof (mask_rep_words mask w Hm) as Hwo.
  unfold insert_subtable. rewrite (mask_rep_hash mask w Hm). cbn [rbind].
  destruct (miniflow_clone_rep target (zero_mini target) (masks mask) w) as (mf & Emf & Hmf & Hmap & _).
  { unfold has_room, zero_mini. cbn. rewrite length_replicate. done. } { done. }
  unfold minimask_clone. cbn [masks]. rewrite Emf. cbn [rmap rbind].
  destruct (tr_segments _ _ _ HT) as (segs & Esegs & Hsort & Hle). rewrite Esegs.
  assert (length (flow_wildcards_init_catchall target) = nw) as Hcatch by apply length_replicate.
  destruct (init_indices_spec mask w segs Hw Hsort (flow_wildcards_init_catchall target) (flow_wildcards_init_catchall target) 0)
    as (ofs & old & new & prev & E & Hnew & Hprev & Hofs & Hin); [eapply Forall_impl; [exact Hle|]; cbn; lia | lia | done |].
  change (Z.of_nat 0) with 0 in E. rewrite E. clear E. cbn [rbind].
  assert (exists ofs', (match map new_index ofs with
      | [] => Ok []
      | _ :: _ =>
          let* new := flow_wildcards_fold_minimask_range target new mask (Z.of_nat prev) (Z.of_nat nw) in
          Ok (if flow_wildcards_equal new old then take (length (map new_index ofs) - 1) (map new_index ofs)
              else map new_index ofs)
      end) = Ok (map new_index ofs') /\ ends_ok target ofs') as (ofs' & El & Hends).
  { assert (forall l, (exists l2, ofs = l ++ l2) -> ends_ok target l) as Hsub.
    { intros l [l2 ->]. split; [apply StronglySorted_app_1_l in Hofs; done|]. apply Forall_forall. intros o Ho.
      rewrite Forall_forall in Hle. apply Hle, Hin, elem_of_app. by left. }
    destruct ofs as [|o ofs]; [exists []; split; [done | apply Hsub; exists []; done]|]. cbn [map].
    rewrite (fold_range target Htarget mask w new prev nw Hw Hnew) by lia. cbn [rbind]. destruct (flow_wildcards_equal _ _).
    - exists (take (length (o :: ofs) - 1) (o :: ofs)). split; [rewrite <- firstn_map; cbn [map length]; rewrite length_map; done|].
      apply Hsub. exists (drop (length (o :: ofs) - 1) (o :: ofs)). rewrite take_drop. done.
    - exists (o :: ofs). split; [done|]. apply Hsub. exists []. rewrite app_nil_r. done. }
  rewrite El. clear El. cbn [rbind].
  destruct (hmap_insert_at_spec (subtables c) (Mk_node addr 0 tt) (mask_hash target w) (tr_wf _ _ _ HT) (mask_hash_u32 w)) as
    (h & -> & Hwf' & Hnodes' & _).
  { cbn. rewrite (tr_nodes _ _ _ HT), <- list_fmap_compose. exact Haddr. }
  cbn [rbind node_addr node_val] in Hnodes' |- *. unfold minimask_get_metadata_mask. rewrite (mini_md _ w Hw). cbn [rbind].
  destruct (plens_of_spec mask w (take (n_tries c) (tries c)) Hw) as (ps & -> & Hps & Hpsok).
  { apply Forall_forall. intros ct Hct. apply list_elem_of_lookup in Hct as [i Hi]. apply lookup_take_Some in Hi as [Hi Hlt].
    destruct (Htr i ct Hlt Hi) as (mf' & o & k & H1 & H2 & _). eauto. }
  cbn [rbind]. rewrite length_take in Hps.
  set (tag := if md_of target w =? OVS_BE64_MAX then tag_create_deterministic (mask_hash target w) else TAG_ALL).
  set (plens := ps ++ replicate (CLS_MAX_TRIES - n_tries c) 0%nat).
  set (vw := Mk_view addr w ofs' plens tag 0 0 0 []).
  set (t := Mk_subtable hmap_init (Mk_minimask mf) 0 0 0 tag (map new_index ofs')
     ((Z.of_nat <$> ps) ++ replicate (CLS_MAX_TRIES - n_tries c) 0)).
  assert (st_rep target (rule_at c) t vw) as Hst.
  { split; cbn; try done; try (constructor; fail).
    - intros i. rewrite Hmap. apply Htight.
    - apply hmap_init_wf.
    - clear. induction ofs' as [|o l IH]; cbn; constructor; [apply index_ok_empty | done].
    - unfold tag. destruct (_ =? _); [|apply TAG_ALL_two_bits]. apply tag_create_two_bits.
      pose proof (mask_hash_u32 w) as Hu. unfold in_u32 in Hu. lia.
    - intros Hf. unfold tag. unfold full_md in Hf. rewrite Hf. done.
    - unfold plens. rewrite fmap_app, fmap_replicate. done.
    - unfold plens. rewrite length_app, length_replicate. lia. }
  eexists _, vw. split; [done|]. split; [done|].
  assert (forall V', entries vw = [] -> all_entries (V' ++ [vw]) = all_entries V') as Hall.
  { intros V' He. unfold all_entries. rewrite map_app, concat_app. cbn. rewrite app_nil_r. done. }
  split; [|split; [|done]].
  - split; cbn.
    + apply Forall_app. split; [|constructor; [|constructor]].
      * pose proof (tr_views _ _ _ HT) as HV. rewrite Forall_forall in HV |- *. intros v Hv. apply (view_at_eq c); [|done | apply HV; done].
        cbn. apply lookup_insert_ne. intros Ea. apply Haddr. rewrite Ea. apply list_elem_of_fmap_2. done.
      * exists t. cbn. rewrite lookup_insert_eq. done.
    + done.
    + rewrite Hnodes', (tr_nodes _ _ _ HT), fmap_app. cbn. rewrite Permutation_app_comm. done.
    + rewrite fmap_app. apply NoDup_app. split; [apply (tr_masks _ _ _ HT)|]. cbn.
      split; [|apply NoDup_singleton]. intros x Hx Hx'. apply list_elem_of_singleton in Hx' as ->. done.
    + rewrite fmap_app, (tr_order _ _ _ HT). done.
    + rewrite Hall by done. apply (tr_addrs _ _ _ HT).
    + exists segs. done.
  - split; cbn; [done | done |]. intros i ct Hi Hct. destruct (Htr i ct Hi Hct) as (mf' & o & k & H1 & H2 & H3 & H4 & H5).
    exists mf', o, k. split; [done|]. split; [done|]. split; [|split; [done|]].
    + apply Forall_app. split; [done|]. constructor; [|constructor]. cbn. unfold plen. cbn. unfold plens.
      rewrite app_nth1 by lia. apply (Hpsok i ct mf'); [|done]. apply lookup_take_Some; done.
    + rewrite H5. unfold prefixes. rewrite map_app, concat_app. cbn. destruct (decide _); rewrite app_nil_r; done.
Qed.


(** ** Changing one subtable *)

Lemma concat_map_perm {A B} (f : A -> list B) l l' : l ≡ₚ l' -> concat (map f l) ≡ₚ concat (map f l').
Proof.
  induction 1 as [|x l l' _ IH|x y l|l l' l'' _ IH1 _ IH2]; cbn; [done | rewrite IH; done | | etransitivity; done].
  rewrite !app_assoc. apply Permutation_app_tail, Permutation_app_comm.
Qed.

Lemma all_entries_perm V V' : V ≡ₚ V' -> all_entries V ≡ₚ all_entries V'.
Proof. apply concat_map_perm. Qed.

Lemma all_entries_cons vw V : all_entries (vw :: V) = entries vw ++ all_entries V.
Proof. done. Qed.

Lemma tables_core_replace c c' A vw B V' t' vw' : tables_core target c (A ++ vw :: B) ->
  subtables c' = subtables c -> subtable_at c' = <[v_addr vw := t']> (subtable_at c) -> flow_segments c' = flow_segments c ->
  subtables_priority c' = v_addr <$> V' -> V' ≡ₚ vw' :: A ++ B -> v_addr vw' = v_addr vw -> v_mask vw' = v_mask vw ->
  st_rep target (rule_at c') t' vw' ->
  (forall v e, v ∈ A ++ B -> e ∈ entries v -> rule_at c' !! e_addr e = rule_at c !! e_addr e) ->
  NoDup (e_addr <$> all_entries V') -> tables_core target c' V'.
Proof.
  intros HT Hs Hat Hseg Hord Hperm Ha Hm Hst Hrules Hnd.
  assert (A ++ vw :: B ≡ₚ vw :: A ++ B) as Hp by (symmetry; apply Permutation_middle).
  pose proof (tables_addrs c _ HT) as Haddrs. rewrite Hp in Haddrs. cbn in Haddrs. apply NoDup_cons in Haddrs as [Hnot _].
  split.
  - rewrite Hperm. constructor; [exists t'; rewrite Ha, Hat, lookup_insert_eq; done|].
    pose proof (tr_views _ _ _ HT) as HV. rewrite Hp in HV. inversion_clear HV as [|? ? _ HV']. rewrite Forall_forall in HV' |- *.
    intros v Hv. apply (view_at_eq c); [|intros e He; apply (Hrules v); done | apply HV'; done].
    rewrite Hat. apply lookup_insert_ne. intros E. apply Hnot. rewrite E. apply list_elem_of_fmap_2. done.
  - rewrite Hs. apply (tr_wf _ _ _ HT).
  - rewrite Hs, (tr_nodes _ _ _ HT), Hp, Hperm. cbn. unfold snode at 1 3. rewrite Ha, Hm. done.
  - rewrite Hperm. cbn. rewrite Hm. pose proof (tr_masks _ _ _ HT) as Hn. rewrite Hp in Hn. exact Hn.
  - done.
  - done.
  - rewrite Hseg. apply (tr_segments _ _ _ HT).
Qed.

(** ** The order of the subtables *)

Definition set_max (m n : Z) (vw : view) : view :=
  Mk_view (v_addr vw) (v_mask vw) (v_ofs vw) (v_plens vw) (v_tag vw) m n (v_n vw) (v_groups vw).

Lemma split_at_spec vw A B : v_addr vw ∉ v_addr <$> A ->
  split_at (v_addr vw) (v_addr <$> A ++ vw :: B) = (v_addr <$> A, v_addr <$> B).
Proof.
  induction A as [|a A IH]; intros Hn; cbn; [rewrite decide_True by done; done|].
  cbn in Hn. apply not_elem_of_cons in Hn as [Hne Hn]. rewrite decide_False by congruence. rewrite IH by done. done.
Qed.

Lemma walk_until_spec (get : nat -> Res cls_subtable) (stop : cls_subtable -> bool) (stop' : Z -> bool) L :
  (forall v, v ∈ L -> exists t, get (v_addr v) = Ok t /\ stop t = stop' (v_max v)) ->
  exists L1 L2, L = L1 ++ L2 /\ walk_until get stop (v_addr <$> L) = Ok (v_addr <$> L1, v_addr <$> L2) /\
    Forall (fun v => stop' (v_max v) = false) L1 /\ (forall v, head L2 = Some v -> stop' (v_max v) = true).
Proof.
  induction L as [|v L IH]; intros Hget; cbn [fmap list_fmap walk_until].
  { exists [], []. done. }
  destruct (Hget v ltac:(left)) as (t & -> & Hstop). cbn [rbind]. destruct (stop t) eqn:E.
  - exists [], (v :: L). split; [done|]. split; [done|]. split; [constructor|]. intros v' [= <-]. done.
  - destruct IH as (L1 & L2 & -> & -> & H1 & H2); [intros v' Hv'; apply Hget; right; done|]. cbn [rbind].
    exists (v :: L1), L2. split; [done|]. split; [done|]. split; [constructor; done | done].
Qed.

(** What a subtable's [max_priority] reads as, while another one changes. *)
Lemma other_load c V A vw B t' v : tables_core target c V -> V = A ++ vw :: B -> v ∈ A ++ B ->
  exists t, load (<[v_addr vw := t']> (subtable_at c)) (v_addr v) = Ok t /\ max_priority t = v_max v.
Proof.
  intros HT -> Hv. assert (A ++ vw :: B ≡ₚ vw :: A ++ B) as Hp by (symmetry; apply Permutation_middle).
  pose proof (tables_addrs c _ HT) as Haddrs. rewrite Hp in Haddrs. cbn in Haddrs. apply NoDup_cons in Haddrs as [Hnot _].
  pose proof (tr_views _ _ _ HT) as HV. rewrite Forall_forall in HV. destruct (HV v) as (t & Ht & Hst); [rewrite Hp; right; done|].
  exists t. split; [|apply (sr_max _ _ _ _ Hst)]. apply load_some. rewrite lookup_insert_ne; [done|]. intros E. apply Hnot.
  rewrite E. apply list_elem_of_fmap_2. done.
Qed.

Lemma st_rep_set_max R t vw m n : in_u32 m -> st_rep target R t vw -> st_rep target R (with_max m n t) (set_max m n vw).
Proof. intros Hm []. split; done. Qed.

Lemma falling_app A B : falling (A ++ B) <-> (forall a b, a ∈ A -> b ∈ B -> v_max b <= v_max a) /\ falling A /\ falling B.
Proof. apply StronglySorted_app. Qed.

Lemma falling_cons vw V : falling (vw :: V) <-> (forall b, b ∈ V -> v_max b <= v_max vw) /\ falling V.
Proof. unfold falling. rewrite StronglySorted_cons, Forall_forall. done. Qed.

(** A subtable with a new highest priority, where the list has moved it. *)
Lemma tables_moved c A vw B V' t m n : tables_core target c (A ++ vw :: B) -> subtable_at c !! v_addr vw = Some t ->
  V' ≡ₚ set_max m n vw :: A ++ B -> in_u32 m -> Forall max_ok (A ++ B) -> max_of m n (heads vw) -> falling V' ->
  let c' := set_subtables_priority (v_addr <$> V') (put_subtable (v_addr vw) (with_max m n t) c) in
  tables_rep target c' V' /\ same_rest c c' /\ rule_at c' = rule_at c.
Proof.
  intros HT Ht Hperm Hm Hmax Hmx Hfall. split; [|done]. split.
  - apply (tables_core_replace c _ A vw B V' (with_max m n t) (set_max m n vw) HT); try done.
    + apply st_rep_set_max; [done|]. pose proof (tr_views _ _ _ HT) as HV. rewrite Forall_forall in HV.
      destruct (HV vw) as (t' & Ht' & Hst); [apply elem_of_app; right; left|]. rewrite Ht in Ht'. injection Ht' as <-. done.
    + rewrite (all_entries_perm _ _ Hperm), all_entries_cons. change (entries (set_max m n vw)) with (entries vw).
      rewrite <- all_entries_cons, (all_entries_perm _ _ (Permutation_middle A B vw)). apply (tr_addrs _ _ _ HT).
  - rewrite Hperm. constructor; done.
  - done.
Qed.

Lemma set_priority_same c l : subtables_priority c = l -> set_subtables_priority l c = c.
Proof. intros <-. destruct c. done. Qed.

(** A new highest rule of a value, instead of one with a lower priority or of
    none; or a rule behind a higher one. *)
Definition heads_add (p : Z) (H H' : list Z) : Prop :=
  (exists low rest, H ≡ₚ low ++ rest /\ Forall (fun q => q < p) low /\ H' ≡ₚ p :: rest) \/
  (H' ≡ₚ H /\ exists q, q ∈ H /\ p < q).

Lemma filter_eqb_perm m (l l' : list Z) : l ≡ₚ l' -> length (List.filter (Z.eqb m) l) = length (List.filter (Z.eqb m) l').
Proof. induction 1 as [|x l l' _ IH|x y l|]; cbn; repeat case_match; cbn; lia. Qed.

Lemma filter_eqb_none m (l : list Z) : Forall (fun q => q < m) l -> List.filter (Z.eqb m) l = [].
Proof. induction 1 as [|x l Hx _ IH]; cbn; [done|]. rewrite (proj2 (Z.eqb_neq m x)) by lia. done. Qed.

Lemma max_of_perm m n H H' : H ≡ₚ H' -> max_of m n H -> max_of m n H'.
Proof. intros Hp [Hle ->]. split; [rewrite <- Hp; done | rewrite (filter_eqb_perm m _ _ Hp); done]. Qed.

Lemma filter_app_length m (a b : list Z) : length (List.filter (Z.eqb m) (a ++ b)) =
  (length (List.filter (Z.eqb m) a) + length (List.filter (Z.eqb m) b))%nat.
Proof. rewrite List.filter_app, length_app. done. Qed.

Lemma max_add m n H H' p : max_of m n H -> heads_add p H H' ->
  (p = m -> max_of m (n + 1) H') /\ (m < p -> max_of p 1 H') /\ (p < m -> max_of m n H').
Proof.
  intros [Hle ->] [(low & rest & HH & Hlow & HH')|(HH' & q & Hq & Hpq)].
  - rewrite HH in Hle. apply Forall_app in Hle as [Hle1 Hle2]. rewrite (filter_eqb_perm m _ _ HH), filter_app_length.
    assert (forall m' n', max_of m' n' (p :: rest) -> max_of m' n' H') as Hmx by (intros m' n'; apply max_of_perm; done).
    split; [|split].
    + intros ->. apply Hmx. split; [constructor; [lia | done]|]. cbn. rewrite Z.eqb_refl. rewrite (filter_eqb_none m low Hlow). cbn. lia.
    + intros Hlt. apply Hmx. split; [constructor; [lia|]; eapply Forall_impl; [exact Hle2|]; cbn; lia|]. cbn. rewrite Z.eqb_refl.
      rewrite filter_eqb_none; [done|]. eapply Forall_impl; [exact Hle2|]. cbn. lia.
    + intros Hlt. apply Hmx. split; [constructor; [lia | done]|]. cbn. rewrite (proj2 (Z.eqb_neq m p)) by lia.
      rewrite (filter_eqb_none m low); [done|]. eapply Forall_impl; [exact Hlow|]. cbn. lia.
  - rewrite Forall_forall in Hle. pose proof (Hle q Hq). split; [lia|]. split; [lia|]. intros _.
    apply (max_of_perm m _ H); [done|]. split; [apply Forall_forall; done | done].
Qed.

(** A subtable that changes where it is. *)
Lemma falling_swap A vw vw' B : v_max vw' = v_max vw -> falling (A ++ vw :: B) -> falling (A ++ vw' :: B).
Proof.
  intros E Hf. apply falling_app in Hf as (Hab & HA & HB). apply falling_cons in HB as [HB1 HB2]. apply falling_app.
  split; [|split; [done | apply falling_cons; rewrite E; done]].
  intros a b Ha Hb. apply elem_of_cons in Hb as [->|Hb]; [rewrite E; apply (Hab a vw Ha); left | apply (Hab a b Ha); right; done].
Qed.

Lemma tables_stay c A vw B t n : tables_core target c (A ++ vw :: B) -> falling (A ++ vw :: B) -> Forall max_ok (A ++ B) ->
  subtable_at c !! v_addr vw = Some t -> in_u32 (v_max vw) -> max_of (v_max vw) n (heads vw) ->
  let c' := put_subtable (v_addr vw) (with_max (v_max vw) n t) c in
  exists V', V' ≡ₚ set_max (v_max vw) n vw :: A ++ B /\ tables_rep target c' V' /\ same_rest c c' /\ rule_at c' = rule_at c.
Proof.
  intros HT Hf Hmax Ht Hu Hmn c'. exists (A ++ set_max (v_max vw) n vw :: B). split; [symmetry; apply Permutation_middle|].
  rewrite <- (set_priority_same c' (v_addr <$> (A ++ set_max (v_max vw) n vw :: B))).
  - apply (tables_moved c A vw B); try done; [symmetry; apply Permutation_middle | apply (falling_swap A vw); done].
  - cbn. rewrite (tr_order _ _ _ HT), !fmap_app. done.
Qed.

Lemma split_at_here c A vw B : tables_core target c (A ++ vw :: B) ->
  split_at (v_addr vw) (subtables_priority c) = (v_addr <$> A, v_addr <$> B).
Proof.
  intros HT. rewrite (tr_order _ _ _ HT). apply split_at_spec. intros Hin.
  pose proof (tables_addrs c _ HT) as Haddrs. rewrite fmap_app in Haddrs. apply NoDup_app in Haddrs as (_ & Hdisj & _).
  apply (Hdisj _ Hin). left.
Qed.

(** Up in the list, past the subtables with lower priorities. *)
Lemma move_up c A vw B t p n : tables_core target c (A ++ vw :: B) -> falling (A ++ vw :: B) -> Forall max_ok (A ++ B) ->
  subtable_at c !! v_addr vw = Some t -> in_u32 p -> v_max vw < p -> max_of p n (heads vw) ->
  let c1 := put_subtable (v_addr vw) (with_max p n t) c in
  exists l1 l2 V', walk_until (load (subtable_at c1)) (fun iter => p <=? max_priority iter) (rev (v_addr <$> A)) = Ok (l1, l2) /\
    let c' := set_subtables_priority (rev l2 ++ v_addr vw :: rev l1 ++ (v_addr <$> B)) c1 in
    V' ≡ₚ set_max p n vw :: A ++ B /\ tables_rep target c' V' /\ same_rest c c' /\ rule_at c' = rule_at c.
Proof.
  intros HT Hf Hmax Ht Hp Hlt Hmx c1.
  destruct (walk_until_spec (load (subtable_at c1)) (fun iter => p <=? max_priority iter) (fun m => p <=? m) (rev A))
    as (L1 & L2 & EA & Ew & HL1 & HL2).
  { intros v Hv. destruct (other_load c _ A vw B (with_max p n t) v HT eq_refl) as (tv & Htv & Hmv).
    - apply elem_of_app. left. apply list_elem_of_In, in_rev, list_elem_of_In. done.
    - exists tv. rewrite Hmv. done. }
  rewrite <- fmap_rev, Ew.
  assert (A = rev L2 ++ rev L1) as EA' by (rewrite <- rev_app_distr, <- EA, rev_involutive; done).
  exists (v_addr <$> L1), (v_addr <$> L2), (rev L2 ++ set_max p n vw :: rev L1 ++ B). split; [done|]. cbv zeta.
  assert (rev L2 ++ set_max p n vw :: rev L1 ++ B ≡ₚ set_max p n vw :: A ++ B) as Hperm.
  { rewrite EA', <- app_assoc. symmetry. apply Permutation_middle. }
  split; [done|]. pose proof (tables_moved c A vw B _ t p n HT Ht Hperm Hp Hmax Hmx) as Hmoved.
  assert (v_addr <$> (rev L2 ++ set_max p n vw :: rev L1 ++ B) =
    (rev (v_addr <$> L2)) ++ v_addr vw :: (rev (v_addr <$> L1)) ++ (v_addr <$> B)) as Eo.
  { rewrite fmap_app. cbn. rewrite fmap_app, !fmap_rev. done. }
  rewrite Eo in Hmoved. apply Hmoved. clear Hmoved Eo.
  rewrite EA' in Hf. rewrite <- app_assoc in Hf. apply falling_app in Hf as (Hab & HA & HB). apply falling_app.
  assert (forall v, v ∈ rev L2 -> v ∈ L2) as Hrev by (intros v Hv; apply list_elem_of_In, in_rev, list_elem_of_In; done).
  assert (forall v, v ∈ L2 -> p <= v_max v) as HL2'.
  { intros v Hv. destruct L2 as [|v2 L2]; [inversion Hv|]. specialize (HL2 v2 eq_refl). apply Z.leb_le in HL2.
    apply elem_of_cons in Hv as [->|Hv]; [done|]. cbn in HA. apply falling_app in HA as (HA & _ & _).
    apply (Z.le_trans _ _ _ HL2), HA; [apply list_elem_of_In, in_rev; rewrite rev_involutive; apply list_elem_of_In; done | left]. }
  assert (forall v, v ∈ rev L1 -> v_max v < p) as HL1'.
  { intros v Hv. rewrite Forall_forall in HL1. apply Z.leb_gt, HL1. apply list_elem_of_In, in_rev, list_elem_of_In. done. }
  apply falling_app in HB as (Hab' & HB1 & HB2). apply falling_cons in HB2 as [HB3 HB4].
  split; [|split; [done|]].
  - intros a b Ha Hb. apply elem_of_cons in Hb as [->|Hb]; [apply HL2'; auto|]. apply Hab; [done|]. apply elem_of_app.
    apply elem_of_app in Hb as [Hb|Hb]; [by left | right; right; done].
  - apply falling_cons. split.
    + intros b Hb. apply elem_of_app in Hb as [Hb|Hb]; [cbn; specialize (HL1' b Hb); lia|]. specialize (HB3 b Hb). cbn. lia.
    + apply falling_app. split; [|done]. intros a b Ha Hb. apply Hab'; [done | right; done].
Qed.

(** Down in the list, past the subtables with higher priorities. *)
Lemma move_down c A vw B t p n : tables_core target c (A ++ vw :: B) -> falling (A ++ vw :: B) -> Forall max_ok (A ++ B) ->
  subtable_at c !! v_addr vw = Some t -> in_u32 p -> p <= v_max vw -> max_of p n (heads vw) ->
  let c1 := put_subtable (v_addr vw) (with_max p n t) c in
  exists l1 l2 V', walk_until (load (subtable_at c1)) (fun iter => max_priority iter <=? p) (v_addr <$> B) = Ok (l1, l2) /\
    let c' := set_subtables_priority ((v_addr <$> A) ++ l1 ++ v_addr vw :: l2) c1 in
    V' ≡ₚ set_max p n vw :: A ++ B /\ tables_rep target c' V' /\ same_rest c c' /\ rule_at c' = rule_at c.
Proof.
  intros HT Hf Hmax Ht Hp Hle Hmx c1.
  destruct (walk_until_spec (load (subtable_at c1)) (fun iter => max_priority iter <=? p) (fun m => m <=? p) B)
    as (L1 & L2 & EB & Ew & HL1 & HL2).
  { intros v Hv. destruct (other_load c _ A vw B (with_max p n t) v HT eq_refl) as (tv & Htv & Hmv).
    - apply elem_of_app. right. done.
    - exists tv. rewrite Hmv. done. }
  rewrite Ew. exists (v_addr <$> L1), (v_addr <$> L2), (A ++ L1 ++ set_max p n vw :: L2). split; [done|]. cbv zeta.
  assert (A ++ L1 ++ set_max p n vw :: L2 ≡ₚ set_max p n vw :: A ++ B) as Hperm.
  { rewrite EB, !app_assoc. symmetry. apply Permutation_middle. }
  split; [done|]. pose proof (tables_moved c A vw B _ t p n HT Ht Hperm Hp Hmax Hmx) as Hmoved.
  assert (v_addr <$> (A ++ L1 ++ set_max p n vw :: L2) =
    (v_addr <$> A) ++ (v_addr <$> L1) ++ v_addr vw :: (v_addr <$> L2)) as Eo by (rewrite !fmap_app; done).
  rewrite Eo in Hmoved. apply Hmoved. clear Hmoved Eo.
  apply falling_app in Hf as (Hab & HA & HB). apply falling_cons in HB as [HB1 HB2]. rewrite EB in HB2.
  apply falling_app in HB2 as (HL12 & HF1 & HF2). rewrite Forall_forall in HL1.
  assert (forall v, v ∈ L2 -> v_max v <= p) as HL2'.
  { intros v Hv. destruct L2 as [|v2 L2]; [inversion Hv|]. specialize (HL2 v2 eq_refl). apply Z.leb_le in HL2.
    apply elem_of_cons in Hv as [->|Hv]; [done|]. apply falling_cons in HF2 as [HF2 _]. specialize (HF2 v Hv). lia. }
  apply falling_app. split; [|split; [done|]].
  - intros a b Ha Hb. pose proof (Hab a vw Ha ltac:(left)) as Hav.
    rewrite elem_of_app, elem_of_cons in Hb. destruct Hb as [Hb|[->|Hb]]; [| cbn; lia |];
      apply Hab; [done | right; rewrite EB; apply elem_of_app; by left | done | right; rewrite EB; apply elem_of_app; by right].
  - apply falling_app. split; [|split; [done | apply falling_cons; done]].
    intros a b Ha Hb. apply elem_of_cons in Hb as [->|Hb]; [|apply HL12; done]. specialize (HL1 a Ha). apply Z.leb_gt in HL1. cbn. lia.
Qed.

Lemma update_after_insertion_spec c A vw B p H : tables_core target c (A ++ vw :: B) -> falling (A ++ vw :: B) ->
  Forall max_ok (A ++ B) -> max_of (v_max vw) (v_count vw) H -> heads_add p H (heads vw) -> in_u32 p ->
  Z.of_nat (length H) < 2 ^ 31 ->
  exists c' m n V', update_subtables_after_insertion c (v_addr vw) p = Ok c' /\ V' ≡ₚ set_max m n vw :: A ++ B /\
    tables_rep target c' V' /\ same_rest c c' /\ rule_at c' = rule_at c.
Proof.
  intros HT Hf Hmax Hmx Hadd Hp Hsmall. pose proof (tr_views _ _ _ HT) as HV. rewrite Forall_forall in HV.
  destruct (HV vw) as (t & Ht & Hst); [apply elem_of_app; right; left|].
  unfold update_subtables_after_insertion. rewrite (load_some _ _ _ Ht). cbn [rbind].
  rewrite (sr_max _ _ _ _ Hst), (sr_count _ _ _ _ Hst). destruct (max_add _ _ _ _ _ Hmx Hadd) as (H1 & H2 & H3).
  pose proof (sr_max_u32 _ _ _ _ Hst) as Hu.
  destruct (Z.eqb_spec p (v_max vw)) as [->|Hne]; [|destruct (Z.ltb_spec (v_max vw) p) as [Hlt|Hge]].
  - destruct (tables_stay c A vw B t (v_count vw + 1) HT Hf Hmax Ht Hu (H1 eq_refl)) as (V' & Hrest).
    assert (u32 (v_count vw + 1) = v_count vw + 1) as ->.
    { apply u32_id. destruct Hmx as [_ ->]. unfold in_u32. pose proof (filter_length_le (Z.eqb (v_max vw)) H). lia. }
    eexists _, _, _, V'. split; [done | exact Hrest].
  - destruct (move_up c A vw B t p 1 HT Hf Hmax Ht Hp Hlt (H2 Hlt)) as (l1 & l2 & V' & Ew & Hrest).
    cbn [subtables_priority put_subtable set_subtable_at]. rewrite (split_at_here c A vw B HT). cbn [max_priority with_max].
    rewrite Ew. cbn [rbind]. eexists _, _, _, V'. split; [done | exact Hrest].
  - destruct (tables_stay c A vw B t (v_count vw) HT Hf Hmax Ht Hu) as (V' & Hrest); [apply H3; lia|].
    assert (put_subtable (v_addr vw) (with_max (v_max vw) (v_count vw) t) c = c) as Ec.
    { unfold put_subtable. assert (with_max (v_max vw) (v_count vw) t = t) as ->.
      { rewrite <- (sr_max _ _ _ _ Hst), <- (sr_count _ _ _ _ Hst). destruct t. done. }
      rewrite insert_id by done. destruct c. done. }
    rewrite Ec in Hrest. eexists c, _, _, V'. split; [done | exact Hrest].
Qed.

(** The same without the rule that was added. *)
Lemma max_sub m n H H' p : max_of m n H -> heads_add p H' H ->
  (p = m -> max_of m (n - 1) H' /\ 1 <= n) /\ (p <> m -> max_of m n H').
Proof.
  intros [Hle ->] [(low & rest & HH' & Hlow & HH)|(HH & q & Hq & Hpq)].
  - rewrite HH in Hle. apply Forall_cons in Hle as [Hp Hle]. rewrite (filter_eqb_perm m _ _ HH).
    assert (forall m' n', max_of m' n' (low ++ rest) -> max_of m' n' H') as Hmx by (intros m' n'; apply max_of_perm; done).
    assert (Forall (fun q => q <= m) (low ++ rest)) as Hall.
    { apply Forall_app. split; [|done]. eapply Forall_impl; [exact Hlow|]. cbn. lia. }
    split; intros E.
    + subst p. cbn [List.filter]. rewrite Z.eqb_refl. cbn [length]. split; [|lia]. apply Hmx. split; [done|].
      rewrite filter_app_length, (filter_eqb_none m low Hlow). cbn. lia.
    + apply Hmx. split; [done|]. cbn [List.filter]. rewrite (proj2 (Z.eqb_neq m p)) by lia. rewrite filter_app_length.
      rewrite (filter_eqb_none m low); [done|]. eapply Forall_impl; [exact Hlow|]. cbn. lia.
  - rewrite Forall_forall in Hle. assert (q <= m) as Hqm by (apply Hle; rewrite HH; done). split; [lia|]. intros _.
    apply (max_of_perm m _ H); [symmetry; done|]. split; [apply Forall_forall; done | done].
Qed.

(** The scan of the highest rules. *)
Lemma max_heads_spec c l : (forall nd, nd ∈ l -> exists r, rule_at c !! node_addr nd = Some r) ->
  forall done mp mc, max_of mp mc done -> Z.of_nat (length done + length l) < 2 ^ 32 ->
  exists mp' mc', max_heads c l mp mc = Ok (mp', mc') /\
    let heads := map (fun nd => match rule_at c !! node_addr nd with Some r => priority r | None => 0 end) l in
    max_of mp' mc' (heads ++ done) /\ (mp' = mp \/ mp' ∈ heads).
Proof.
  induction l as [|nd l IH]; intros Hl dn mp mc Hmx Hlen; cbn [max_heads].
  { exists mp, mc. split; [done|]. split; [done | by left]. }
  destruct (Hl nd ltac:(left)) as (r & Hr). rewrite (load_some _ _ _ Hr). cbn [rbind map]. rewrite Hr.
  assert (forall mp1 mc1, max_of mp1 mc1 (priority r :: dn) -> mp1 = mp \/ mp1 = priority r -> exists mp' mc', max_heads c l mp1 mc1 = Ok (mp', mc') /\
    let heads := map (fun nd => match rule_at c !! node_addr nd with Some r => priority r | None => 0 end) l in
    max_of mp' mc' (priority r :: heads ++ dn) /\ (mp' = mp \/ mp' ∈ priority r :: heads)) as Hnext.
  { intros mp1 mc1 H1 Hor. destruct (IH (fun nd' Hnd' => Hl nd' (list_elem_of_further _ _ _ Hnd')) (priority r :: dn) mp1 mc1 H1) as (mp' & mc' & -> & H2 & H3);
      [cbn in Hlen |- *; lia|]. exists mp', mc'. split; [done|]. cbv zeta in *. split.
    - apply (max_of_perm _ _ _ _ (symmetry (Permutation_middle _ _ _)) H2).
    - destruct H3 as [->|H3]; [|right; right; done]. destruct Hor as [-> | ->]; [by left | right; left]. }
  destruct Hmx as [Hle Hmc].
  destruct (Z.ltb_spec mp (priority r)) as [Hlt|Hge].
  - apply Hnext; [|by right]. split; [constructor; [lia|]; eapply Forall_impl; [exact Hle|]; cbn; lia|]. cbn. rewrite Z.eqb_refl.
    rewrite filter_eqb_none; [done|]. eapply Forall_impl; [exact Hle|]. cbn. lia.
  - destruct (Z.eqb_spec (priority r) mp) as [E|E].
    + apply Hnext; [|by left]. split; [constructor; [lia | done]|]. cbn. rewrite E, Z.eqb_refl.
      pose proof (filter_length_le (Z.eqb mp) dn). cbn in Hlen. rewrite u32_id by (unfold in_u32; lia). cbn. lia.
    + apply Hnext; [|by left]. split; [constructor; [lia | done]|]. cbn. rewrite (proj2 (Z.eqb_neq mp (priority r))) by lia. done.
Qed.

(** The scan over the nodes of a subtable. *)
Lemma max_heads_subtable c t vw : st_rep target (rule_at c) t vw -> Z.of_nat (length (v_groups vw)) < 2 ^ 31 ->
  exists m n, max_heads c (each (rules_of t)) 0 0 = Ok (m, n) /\ max_of m n (heads vw) /\ (m = 0 \/ m ∈ heads vw).
Proof.
  intros Hst Hsmall. unfold each. rewrite (hmap_for_each_spec _ _ (sr_wf _ _ _ _ Hst)) by lia.
  pose proof (sr_nodes _ _ _ _ Hst) as Hn.
  assert (forall g, g ∈ v_groups vw -> exists r, rule_at c !! fst (g_head g) = Some r /\ priority r = snd (g_head g)) as Hg.
  { intros g Hg. destruct (entry_at target c t vw Hst _ (head_entry target c t vw Hst g Hg)) as (r & Hr & _ & Hp & _). eauto. }
  destruct (max_heads_spec c (hmap_nodes (rules_of t))) with (done := @nil Z) (mp := 0) (mc := 0) as (m & n & E & Hmx & Hor).
  { intros nd Hnd. rewrite Hn in Hnd. apply list_elem_of_fmap in Hnd as (g & -> & Hg'). destruct (Hg g Hg') as (r & Hr & _). eauto. }
  { split; [constructor | done]. }
  { rewrite Hn, length_fmap. cbn. lia. }
  cbv zeta in Hmx, Hor. rewrite app_nil_r in Hmx. set (l := map _ _) in Hmx, Hor. assert (l ≡ₚ heads vw) as Hl.
  { unfold l. rewrite Hn. unfold heads. rewrite map_map. erewrite map_ext_in; [reflexivity|]. intros g Hin.
    apply list_elem_of_In in Hin. destruct (Hg g Hin) as (r & Hr & Hp). cbn. rewrite Hr, Hp. done. }
  exists m, n. split; [done|]. split; [apply (max_of_perm _ _ _ _ Hl Hmx)|]. rewrite <- Hl. done.
Qed.

Lemma update_after_removal_spec c A vw B p H : tables_core target c (A ++ vw :: B) -> falling (A ++ vw :: B) ->
  Forall max_ok (A ++ B) -> max_of (v_max vw) (v_count vw) H -> heads_add p (heads vw) H ->
  Z.of_nat (length H) < 2 ^ 31 -> Z.of_nat (length (v_groups vw)) < 2 ^ 31 ->
  exists c' m n V', update_subtables_after_removal c (v_addr vw) p = Ok c' /\ V' ≡ₚ set_max m n vw :: A ++ B /\
    tables_rep target c' V' /\ same_rest c c' /\ rule_at c' = rule_at c.
Proof.
  intros HT Hf Hmax Hmx Hadd Hsmall Hsm2. pose proof (tr_views _ _ _ HT) as HV. rewrite Forall_forall in HV.
  destruct (HV vw) as (t & Ht & Hst); [apply elem_of_app; right; left|].
  unfold update_subtables_after_removal. rewrite (load_some _ _ _ Ht). cbn [rbind].
  rewrite (sr_max _ _ _ _ Hst), (sr_count _ _ _ _ Hst). destruct (max_sub _ _ _ _ _ Hmx Hadd) as (H1 & H2).
  pose proof (sr_max_u32 _ _ _ _ Hst) as Hu.
  destruct (Z.eqb_spec p (v_max vw)) as [->|Hne].
  2:{ destruct (tables_stay c A vw B t (v_count vw) HT Hf Hmax Ht Hu (H2 Hne)) as (V' & Hrest).
      assert (put_subtable (v_addr vw) (with_max (v_max vw) (v_count vw) t) c = c) as Ec.
      { unfold put_subtable. assert (with_max (v_max vw) (v_count vw) t = t) as ->.
        { rewrite <- (sr_max _ _ _ _ Hst), <- (sr_count _ _ _ _ Hst). destruct t. done. }
        rewrite insert_id by done. destruct c. done. }
      rewrite Ec in Hrest. eexists c, _, _, V'. split; [done | exact Hrest]. }
  destruct (H1 eq_refl) as [Hmx1 Hn]. cbn [max_count with_max].
  assert (u32 (v_count vw - 1) = v_count vw - 1) as ->.
  { apply u32_id. destruct Hmx as [_ E]. unfold in_u32. pose proof (filter_length_le (Z.eqb (v_max vw)) H). lia. }
  destruct (Z.eqb_spec (v_count vw - 1) 0) as [E0|E0].
  2:{ destruct (tables_stay c A vw B t (v_count vw - 1) HT Hf Hmax Ht Hu Hmx1) as (V' & Hrest).
      eexists _, _, _, V'. split; [done | exact Hrest]. }
  destruct (max_heads_subtable (put_subtable (v_addr vw) (with_max (v_max vw) (v_count vw - 1) t) c) t vw Hst Hsm2)
    as (m & n & Em & Hmn & Hor).
  cbn [rules_of with_max]. rewrite Em. cbn [rbind].
  assert (in_u32 m /\ m <= v_max vw) as [Hmu Hmle].
  { unfold in_u32 in *. destruct Hor as [->|Hor]; [lia|]. destruct Hmx1 as [Hall _]. rewrite Forall_forall in Hall.
    pose proof (Hall m Hor). apply list_elem_of_In, in_map_iff in Hor as (g & <- & Hg). apply list_elem_of_In in Hg.
    destruct (group_at target c t vw Hst g Hg) as [_ _ Hne _ Hp]. unfold g_head in *. destruct (g_rules g) as [|ap l]; [done|].
    inversion_clear Hp as [|? ? Hap]. unfold in_u32 in Hap. cbn in *. lia. }
  destruct (move_down c A vw B t m n HT Hf Hmax Ht Hmu Hmle Hmn) as (l1 & l2 & V' & Ew & Hrest). cbv zeta in Hrest.
  cbn [subtables_priority put_subtable set_subtable_at]. rewrite (split_at_here c A vw B HT). cbn [max_priority with_max].
  assert (put_subtable (v_addr vw) (with_max m n (with_max (v_max vw) (v_count vw - 1) t))
    (put_subtable (v_addr vw) (with_max (v_max vw) (v_count vw - 1) t) c) = put_subtable (v_addr vw) (with_max m n t) c) as ->.
  { unfold put_subtable at 1 2 3, set_subtable_at. cbn. rewrite insert_insert_eq. done. }
  rewrite Ew. cbn [rbind]. eexists _, _, _, V'. split; [done | exact Hrest].
Qed.

(** ** Destruction *)

Lemma find_node {A} (h : hmap A) (nd : hmap_node A) : NoDup (node_addr <$> hmap_nodes h) -> nd ∈ hmap_nodes h ->
  List.find (fun x => bool_decide (node_addr x = node_addr nd)) (hmap_nodes h) = Some nd.
Proof.
  intros Hn Hin. destruct (List.find _ _) as [x|] eqn:E.
  - apply find_some in E as [Hx Ea]. apply bool_decide_eq_true in Ea. apply list_elem_of_In in Hx.
    apply list_elem_of_lookup in Hin as [i Hi]. apply list_elem_of_lookup in Hx as [j Hj].
    assert (i = j) as ->; [|congruence]. apply (NoDup_lookup _ i j (node_addr nd) Hn); rewrite list_lookup_fmap;
      [rewrite Hi | rewrite Hj]; cbn; congruence.
  - apply list_elem_of_In in Hin. pose proof (find_none _ _ E nd Hin) as Hd. cbn in Hd. apply bool_decide_eq_false in Hd. done.
Qed.

Lemma filter_without (a : nat) (A B : list nat) : a ∉ A -> a ∉ B ->
  List.filter (fun x => negb (bool_decide (x = a))) (A ++ a :: B) = A ++ B.
Proof.
  assert (forall l, a ∉ l -> List.filter (fun x => negb (bool_decide (x = a))) l = l) as Hall.
  { induction l as [|x l IH]; intros Hn; [done|]. apply not_elem_of_cons in Hn as [Hne Hn]. cbn.
    rewrite bool_decide_eq_false_2 by congruence. cbn. rewrite IH by done. done. }
  intros HA HB. rewrite List.filter_app. cbn. rewrite bool_decide_eq_true_2 by done. cbn. rewrite !Hall by done. done.
Qed.

Lemma destroy_subtable_spec c A vw B : tables_core target c (A ++ vw :: B) -> entries vw = [] ->
  exists c', destroy_subtable c (v_addr vw) = Ok c' /\ tables_core target c' (A ++ B) /\ same_rest c c' /\ rule_at c' = rule_at c.
Proof.
  intros HT He. assert (A ++ vw :: B ≡ₚ vw :: A ++ B) as Hp by (symmetry; apply Permutation_middle).
  pose proof (tables_addrs c _ HT) as Haddrs. pose proof Haddrs as Haddrs2. rewrite Hp in Haddrs. cbn in Haddrs. apply NoDup_cons in Haddrs as [Hnot _].
  assert (snode target vw ∈ hmap_nodes (subtables c)) as Hin.
  { rewrite (tr_nodes _ _ _ HT), Hp. left. }
  unfold destroy_subtable. assert (subtable_node c (v_addr vw) = Ok (snode target vw)) as ->.
  { unfold subtable_node. pose proof (find_node _ _ (wf_addr _ (tr_wf _ _ _ HT)) Hin) as E. cbn [snode node_addr] in E. 
    rewrite E. done. }
  cbn [rbind]. destruct (hmap_remove_spec (subtables c) (snode target vw) (tr_wf _ _ _ HT) Hin) as (h & -> & Hwf & Hnodes & _). cbn [rbind].
  eexists. split; [done|]. split; [|done].
  assert (v_addr vw ∉ v_addr <$> A /\ v_addr vw ∉ v_addr <$> B) as [HnA HnB] by (rewrite fmap_app, not_elem_of_app in Hnot; done).
  split; cbn.
  - pose proof (tr_views _ _ _ HT) as HV. rewrite Hp in HV. inversion_clear HV as [|? ? _ HV']. rewrite Forall_forall in HV' |- *.
    intros v Hv. apply (view_at_eq c); [|done | apply HV'; done]. cbn. apply lookup_delete_ne. intros E. apply Hnot. rewrite E.
    apply list_elem_of_fmap_2. done.
  - done.
  - rewrite (tr_nodes _ _ _ HT), Hp in Hnodes. cbn in Hnodes. apply Permutation_cons_inv in Hnodes. done.
  - pose proof (tr_masks _ _ _ HT) as Hn. rewrite Hp in Hn. cbn in Hn. apply NoDup_cons in Hn as [_ Hn]. done.
  - rewrite (tr_order _ _ _ HT), !fmap_app. cbn. apply filter_without; done.
  - pose proof (tr_addrs _ _ _ HT) as Hn. rewrite (all_entries_perm _ _ Hp), all_entries_cons, He in Hn. exact Hn.
  - apply (tr_segments _ _ _ HT).
Qed.

End Tables.
