(* ===== verification/ClsRules.v ===== *)
(** * The classifier: the rules of a subtable

    A rule is inserted into the indexes and the hash map of its subtable, into
    the list of the rules identical to it, and taken out again. *)

From Stdlib Require Import ZArith Lia List Bool Sorted.
From stdpp Require Import base option list_relations list sets gmap sorting.
From S2P Require Import Prelude Bytes Hash Csum Packets Bits Hmap Hindex Flow FlowFacts FlowCompose Miniflow MiniflowFacts MiniflowProps MatchSet MetaFlow Tag Trie TrieFacts Classifier ClsFacts ClsRep ClsLookup ClsTables.
#[local] Open Scope Z_scope.
#[local] Open Scope res_scope.

#[local] Opaque one_bits for_each_1bit.

Lemma head_fmap {A B} (f : A -> B) (l : list A) : head (f <$> l) = f <$> head l.
Proof. destruct l; done. Qed.

Section Rules.
Variable target : abi.
Hypothesis Htarget : target = i686 \/ target = x86_64.

Abbreviation nw := (FLOW_U32S target).

(** ** The indexes *)

Lemma at_stage_perm w o k l l' : l ≡ₚ l' -> at_stage target w o k l ≡ₚ at_stage target w o k l'.
Proof. induction 1 as [|x l l' _ IH|x y l|l l' l'' _ IH1 _ IH2]; cbn; repeat case_match; try done; [rewrite IH; done | constructor | etransitivity; done]. Qed.

Lemma index_ok_perm w l l' o ih : l ≡ₚ l' -> index_ok target w l o ih -> index_ok target w l' o ih.
Proof.
  intros Hp (H1 & H2 & H3). split; [done|]. split; [done|]. intros k. rewrite H3. apply Permutation_map, at_stage_perm. done.
Qed.

Lemma inodes_igroup {A} (h : hmap (list (nat * A))) x : hindex_wf h -> x ∈ inodes h -> exists k, x ∈ igroup h k.
Proof.
  intros Hh Hx. unfold inodes in Hx. apply list_elem_of_In, in_concat in Hx as (g & Hg & Hx).
  apply in_map_iff in Hg as (nd & <- & Hnd). apply list_elem_of_In in Hnd. exists (node_hash nd). unfold igroup.
  apply list_elem_of_In, in_concat. exists (node_val nd). split; [|done]. apply (List.in_map node_val), list_elem_of_In.
  apply (elem_of_with_hash h _ _ (hi_wf _ Hh)). done.
Qed.

(** An address that no rule has is not in the indexes. *)
Lemma index_fresh w l o ih a : index_ok target w l o ih -> a ∉ e_addr <$> l -> a ∉ fst <$> inodes (snd ih).
Proof.
  intros (_ & Hh & Hg) Ha Hin. apply Ha. apply list_elem_of_fmap in Hin as ([a' u] & -> & Hin).
  destruct (inodes_igroup _ _ Hh Hin) as [k Hk]. rewrite Hg in Hk. apply list_elem_of_In, in_map_iff in Hk as (e & Ee & He).
  injection Ee as <- _. apply filter_In in He as [He _]. change (e_addr e ∈ e_addr <$> l). apply list_elem_of_fmap_2, list_elem_of_In. done.
Qed.

Lemma index_add w l o ih e h : index_ok target w l o ih -> hindex_wf h ->
  (forall k, igroup h k ≡ₚ if decide (k = stage_hash target w o (e_val e)) then (e_addr e, tt) :: igroup (snd ih) k else igroup (snd ih) k) ->
  index_ok target w (e :: l) o (fst ih, h).
Proof.
  intros (H1 & H2 & H3) Hwf Hg. split; [done|]. split; [done|]. intros k. cbn [snd]. rewrite Hg. cbn [at_stage List.filter].
  destruct (decide _) as [->|Hne]; [rewrite Z.eqb_refl | rewrite (proj2 (Z.eqb_neq _ _)) by congruence]; [|apply H3].
  cbn [map]. rewrite H3. done.
Qed.

Lemma indices_perm w l l' ofs ihs : Forall2 (index_ok target w l) ofs ihs -> l ≡ₚ l' -> Forall2 (index_ok target w l') ofs ihs.
Proof. intros H Hp. eapply Forall2_impl; [exact H|]. intros o ih. apply index_ok_perm. done. Qed.

Lemma add_to_indices_spec m a v w l ofs : mm_rep target m v w -> masked w v = v -> forall es prev,
  Forall2 (index_ok target w es) ofs l -> StronglySorted le ofs -> Forall (fun o => prev <= o <= nw)%nat ofs -> (prev <= nw)%nat ->
  a ∉ e_addr <$> es -> forall p,
  exists l' last, add_to_indices target m a l (Z.of_nat prev) (acc (wmap target w) w v prev) =
      Ok (l', map (fun o => stage_hash target w o v) ofs, Z.of_nat last, acc (wmap target w) w v last) /\
    Forall2 (index_ok target w (Mk_entry a p v :: es)) ofs l' /\ (last <= nw)%nat.
Proof.
  intros Hm Hz. pose proof Hm as (_ & Hw & Ht & _). pose proof (tight_wmap target Htarget _ _ Hw Ht) as HN.
  revert ofs. induction l as [|[o' h] l IH]; intros ofs es prev Hl Hsort Hge Hprev Ha p.
  { apply Forall2_nil_inv_r in Hl as ->. cbn. exists [], prev. split; [done|]. split; [constructor | done]. }
  apply Forall2_cons_inv_r in Hl as (o & ofs' & Hi & Hl & ->). pose proof Hi as (Eo & Hh & _). cbn in Eo, Hh. subst o'.
  inversion_clear Hge as [|? ? [Hpo Hon] Hge']. apply StronglySorted_inv in Hsort as [Hsort Hle]. cbn [add_to_indices map].
  pose proof (rule_stage target Htarget m v w prev o Hm ltac:(lia)) as E. cbv zeta in E. rewrite HN in E. rewrite E. clear E. cbn [rbind].
  change (seg_hash (wmap target w) w v o) with (stage_hash target w o v).
  destruct (hindex_insert_spec h a tt (stage_hash target w o v) Hh) as (h' & -> & Hh' & _ & Hg'); [apply seg_hash_u32 | |].
  { apply (index_fresh w es o _ a Hi Ha). }
  cbn [rbind]. destruct (IH ofs' es o Hl Hsort) with (p := p) as (l' & last & -> & Hl' & Hlast); [|done | done |].
  { rewrite Forall_forall in Hle, Hge' |- *. intros o' Ho'. specialize (Hle o' Ho'). specialize (Hge' o' Ho'). lia. }
  cbn [rbind]. exists ((Z.of_nat o, h') :: l'), last. split; [done|]. split; [|done]. constructor; [|done].
  apply (index_add w es o (Z.of_nat o, h) (Mk_entry a p v) h' Hi Hh' Hg').
Qed.

Lemma remove_from_indices_spec w e es l ofs : Forall2 (index_ok target w (e :: es)) ofs l ->
  exists l', remove_from_indices (e_addr e) l (map (fun o => stage_hash target w o (e_val e)) ofs) = Ok l' /\
    Forall2 (index_ok target w es) ofs l'.
Proof.
  induction 1 as [|o [o' h] ofs l Hi Hl (l' & E & Hl')]; cbn [map remove_from_indices]; [exists []; done|].
  pose proof Hi as (Eo & Hh & Hg). cbn in Eo, Hh, Hg.
  destruct (hindex_remove_spec h (e_addr e) tt (stage_hash target w o (e_val e)) Hh) as (h' & -> & Hh' & _ & Hg').
  { rewrite Hg. cbn. rewrite Z.eqb_refl. left. }
  cbn [rbind]. rewrite E. cbn [rbind]. exists ((o', h') :: l'). split; [done|]. constructor; [|done].
  split; [done|]. split; [done|]. intros k. specialize (Hg k). specialize (Hg' k). cbn [snd]. cbn [at_stage List.filter] in Hg.
  destruct (decide (k = _)) as [->|Hne].
  - rewrite Z.eqb_refl in Hg. rewrite Hg' in Hg. cbn in Hg. apply Permutation_cons_inv in Hg. done.
  - rewrite (proj2 (Z.eqb_neq _ _)) in Hg by congruence. rewrite <- Hg'. done.
Qed.

(** ** Identical rules *)

Lemma in_map_masked mask w v : mf_rep target (masks mask) w -> masked w v = v -> length v = nw -> in_map (mf_map (masks mask)) v = v.
Proof.
  intros Hw Hz Hl. apply in_map_all. intros i Hi. rewrite <- Hz, nth_masked by (rewrite (rep_len _ _ _ Hw); done).
  rewrite (rep_out _ _ _ Hw i Hi). apply Z.land_0_r.
Qed.

Lemma mm_flow_rep m v w : mm_rep target m v w -> masked w v = v -> length v = nw -> mf_rep target (mm_flow m) v.
Proof. intros (Hf & Hw & _ & _) Hz Hl. rewrite <- (in_map_masked _ w v Hw Hz Hl). done. Qed.

Lemma find_equal_in_spec c t vw flow v l : st_rep target (rule_at c) t vw -> mf_rep target flow v ->
  Forall (fun nd => nd ∈ gnode target (v_mask vw) <$> v_groups vw) l ->
  exists r, find_equal_in c flow l = Ok r /\
    match r with
    | Some nd => exists g, g ∈ v_groups vw /\ g_val g = v /\ nd = gnode target (v_mask vw) g
    | None => forall g, g ∈ v_groups vw -> g_val g = v -> gnode target (v_mask vw) g ∉ l
    end.
Proof.
  intros Hst Hv. induction l as [|nd l IH]; intros Hl; cbn [find_equal_in].
  { exists None. split; [done|]. intros g _ _ Hin. inversion Hin. }
  inversion_clear Hl as [|? ? Hnd Hl']. apply list_elem_of_fmap in Hnd as (g & -> & Hg).
  destruct (entry_at target c t vw Hst _ (head_entry target c t vw Hst g Hg)) as (r & Hr & Hm & _). cbn in Hr, Hm.
  unfold gnode at 1. cbn [node_addr]. rewrite (load_some _ _ _ Hr). cbn [rbind].
  destruct (group_at target c t vw Hst g Hg) as [[Hlen _] Hz _ _ _].
  rewrite (miniflow_equal_rep target Htarget _ (g_val g) _ v (mm_flow_rep _ _ _ Hm Hz Hlen) Hv). cbn [rbind]. unfold flow_equal.
  case_bool_decide as E; [exists (Some (gnode target (v_mask vw) g)); split; [done|]; exists g; done|].
  destruct (IH Hl') as (r' & -> & H). exists r'. split; [done|]. destruct r' as [nd'|]; [done|].
  intros g' Hg' Ev Hin. apply elem_of_cons in Hin as [Eq|Hin]; [|apply (H g'); done]. apply E. rewrite <- Ev.
  (* the same first rule *)
  unfold gnode in Eq. injection Eq as Ea _ _.
  assert (Mk_entry (fst (g_head g)) (snd (g_head g)) (g_val g) ∈ entries vw) as He by (apply (head_entry target c t vw Hst); done).
  assert (Mk_entry (fst (g_head g')) (snd (g_head g')) (g_val g') ∈ entries vw) as He' by (apply (head_entry target c t vw Hst); done).
  apply list_elem_of_lookup in He as [i Hi]. apply list_elem_of_lookup in He' as [j Hj].
  assert (i = j) as ->; [|congruence]. apply (NoDup_lookup _ i j (fst (g_head g)) (sr_addrs _ _ _ _ Hst)); rewrite list_lookup_fmap;
    [rewrite Hi | rewrite Hj]; cbn; congruence.
Qed.

Lemma find_equal_spec c t vw flow v : st_rep target (rule_at c) t vw -> mf_rep target flow v ->
  exists r, find_equal c t flow (val_hash target (v_mask vw) v) = Ok r /\
    match r with
    | Some nd => exists g, g ∈ v_groups vw /\ g_val g = v /\ nd = gnode target (v_mask vw) g
    | None => forall g, g ∈ v_groups vw -> g_val g <> v
    end.
Proof.
  intros Hst Hv. unfold find_equal. rewrite (hmap_for_each_with_hash_spec _ _ (sr_wf _ _ _ _ Hst)). cbn [rbind].
  destruct (find_equal_in_spec c t vw flow v (with_hash (rules_of t) (val_hash target (v_mask vw) v)) Hst Hv) as (r & -> & Hr).
  { apply Forall_forall. intros nd Hnd. apply (elem_of_with_hash _ _ _ (sr_wf _ _ _ _ Hst)) in Hnd as [Hnd _].
    rewrite (sr_nodes _ _ _ _ Hst) in Hnd. done. }
  exists r. split; [done|]. destruct r as [nd|]; [done|]. intros g Hg Ev. apply (Hr g Hg Ev).
  apply (elem_of_with_hash _ _ _ (sr_wf _ _ _ _ Hst)). rewrite (sr_nodes _ _ _ _ Hst). split; [apply list_elem_of_fmap_2; done|].
  cbn. rewrite Ev. done.
Qed.

(** *** The list of identical rules *)

Lemma rules_in_list_spec c hp rs : forall p, Forall (fun ap => exists r, rule_at c !! fst ap = Some r /\ priority r = snd ap) rs ->
  StronglySorted (fun a b => snd b < snd a) rs -> Forall (fun ap => snd ap < p) rs -> p <= hp ->
  exists l, rules_in_list c hp p (fst <$> rs) = Ok l /\ map (fun ar => (fst ar, priority (snd ar))) l = rs.
Proof.
  induction rs as [|[a q] rs IH]; intros p Hrs Hsort Hlt Hp; cbn [fmap list_fmap rules_in_list fst].
  { rewrite (proj2 (Z.ltb_ge _ _)) by lia. exists []. done. }
  inversion_clear Hrs as [|? ? (r & Hr & Hq) Hrs']. inversion_clear Hlt as [|? ? Hqp Hlt']. apply StronglySorted_inv in Hsort as [Hsort Hall].
  cbn in Hr, Hq, Hqp. rewrite (load_some _ _ _ Hr). cbn [rbind]. rewrite Hq, (proj2 (Z.ltb_lt _ _)) by lia.
  destruct (IH q Hrs' Hsort Hall ltac:(lia)) as (lr & -> & El). cbn [rbind]. exists ((a, r) :: lr). split; [done|]. cbn. rewrite El, Hq. done.
Qed.

Lemma each_rule_spec c g w : group_ok target w g ->
  Forall (fun ap => exists r, rule_at c !! fst ap = Some r /\ priority r = snd ap) (g_rules g) ->
  exists l, each_rule_in_list c (fst <$> g_rules g) = Ok l /\ map (fun ar => (fst ar, priority (snd ar))) l = g_rules g.
Proof.
  intros [_ _ Hne Hsort _] Hrs. destruct (g_rules g) as [|[a p] rs]; [done|]. cbn [fmap list_fmap each_rule_in_list fst].
  inversion_clear Hrs as [|? ? (r & Hr & Hp) Hrs']. apply StronglySorted_inv in Hsort as [Hsort Hall]. cbn in Hr, Hp, Hall.
  rewrite (load_some _ _ _ Hr). cbn [rbind]. rewrite Hp.
  destruct (rules_in_list_spec c p rs p Hrs' Hsort Hall ltac:(lia)) as (lr & -> & El). cbn [rbind].
  exists ((a, r) :: lr). split; [done|]. cbn. rewrite El, Hp. done.
Qed.

(** The list with a rule added, and the rule it replaces. *)
Lemma insert_in_list_spec a p l rs : map (fun ar => (fst ar, priority (snd ar))) l = rs ->
  StronglySorted (fun a b => snd b < snd a) rs ->
  exists rs' old, insert_in_list a p l = (fst <$> rs', old) /\ StronglySorted (fun a b => snd b < snd a) rs' /\ rs' <> [] /\
    (forall b, Forall (fun ap => snd ap < b) rs -> p < b -> Forall (fun ap => snd ap < b) rs') /\
    match old with
    | None => rs' ≡ₚ (a, p) :: rs
    | Some o => exists rest, rs ≡ₚ (o, p) :: rest /\ rs' ≡ₚ (a, p) :: rest
    end /\
    match rs with
    | [] => head rs' = Some (a, p)
    | (b, q) :: _ => if q <=? p then head rs' = Some (a, p) /\ (old = None -> q < p) /\ (old <> None -> q = p) else head rs' = Some (b, q)
    end.
Proof.
  intros E Hsort. revert l E. induction Hsort as [|[b q] rs Hsort IH Hall]; intros l E; destruct l as [|[b' r] l]; try discriminate E; cbn [insert_in_list].
  { exists [(a, p)], None. split; [done|]. split; [repeat constructor|]. split; [done|].
    split; [intros b0 _ Hb; constructor; [done | constructor]|]. split; done. }
  cbn [map fst snd] in E. injection E as -> Eq E.
  assert (map fst l = fst <$> rs) as Efst.
  { rewrite <- E. change (map fst l = map fst (map (fun ar : nat * cls_rule => (fst ar, priority (snd ar))) l)). rewrite map_map. done. }
  rewrite Eq. destruct (Z.leb_spec q p) as [Hle|Hgt].
  - destruct (Z.eqb_spec p q) as [->|Hne].
    + exists ((a, q) :: rs), (Some b). rewrite Efst. split; [done|]. split; [constructor; done|]. split; [done|]. split.
      { intros x Hx Hqx. inversion_clear Hx. constructor; done. }
      split; [exists rs; done|]. done.
    + exists ((a, p) :: (b, q) :: rs), None. rewrite Efst. split; [done|]. split.
      { constructor; [constructor; done|]. constructor; [cbn; lia|]. eapply Forall_impl; [exact Hall|]. cbn. intros; lia. }
      split; [done|]. split; [intros x Hx Hpx; constructor; done|]. split; [done|]. split; [done|]. split; [intros _; lia | done].
  - destruct (IH l E) as (rs' & old & -> & Hs' & Hne' & Hbound & Hmem & _). exists ((b, q) :: rs'), old. split; [done|].
    split; [constructor; [done|]; apply Hbound; done|]. split; [done|]. split.
    { intros x Hx Hpx. inversion_clear Hx. constructor; [done|]. apply Hbound; done. }
    split; [|done]. destruct old as [o|].
    + destruct Hmem as (rest & H1 & H2). exists ((b, q) :: rest). rewrite H1, H2. split; constructor.
    + rewrite Hmem. constructor.
Qed.

(** ** The hash map of a subtable *)

Definition set_groups (G : list cls_group) (vw : view) : view :=
  Mk_view (v_addr vw) (v_mask vw) (v_ofs vw) (v_plens vw) (v_tag vw) (v_max vw) (v_count vw) (v_n vw) G.

Lemma st_rep_groups R R' t vw G' h' l' : st_rep target R t vw ->
  hmap_wf h' -> hmap_nodes h' ≡ₚ gnode target (v_mask vw) <$> G' -> Forall (group_ok target (v_mask vw)) G' -> NoDup (g_val <$> G') ->
  NoDup (e_addr <$> entries (set_groups G' vw)) -> Forall (rule_ok target R' (v_mask vw) (v_ofs vw)) (entries (set_groups G' vw)) ->
  Forall2 (index_ok target (v_mask vw) (entries (set_groups G' vw))) (v_ofs vw) l' ->
  st_rep target R' (with_rules h' (with_indices l' t)) (set_groups G' vw).
Proof. intros []. intros. split; done. Qed.

(** The group of the node at the address of a rule's list, with another list. *)
Lemma store_group h w G g rest rs' : hmap_wf h -> hmap_nodes h ≡ₚ gnode target w <$> G -> G ≡ₚ g :: rest ->
  head rs' = Some (g_head g) ->
  let h' := store_val h (fst (g_head g)) (fun _ => fst <$> rs') in
  hmap_wf h' /\ hmap_nodes h' ≡ₚ gnode target w <$> (Mk_group (g_val g) rs' :: rest).
Proof.
  intros Hwf Hn HG Hhd h'. split; [apply store_val_wf; done|].
  assert (gnode target w g ∈ hmap_nodes h) as Hin by (rewrite Hn, HG; left).
  destruct (store_one (hmap_nodes h) (gnode target w g) (fun _ => fst <$> rs') (wf_addr _ Hwf) Hin) as (r & H1 & H2).
  unfold h'. rewrite hmap_nodes_store. etransitivity; [exact H2|]. cbn. unfold gnode at 1, g_head. cbn. rewrite Hhd. cbn.
  apply Permutation_cons; [done|]. rewrite Hn, HG in H1. cbn in H1. apply Permutation_cons_inv in H1. done.
Qed.

(** The node replaced by the node of another rule. *)
Lemma replace_group h w G g rest rs' new : hmap_wf h -> hmap_nodes h ≡ₚ gnode target w <$> G -> G ≡ₚ g :: rest ->
  fst <$> head rs' = Some (node_addr new) -> node_val new = fst <$> rs' -> node_addr new ∉ (fun g => fst (g_head g)) <$> rest ->
  exists h', hmap_replace h (gnode target w g) new = Ok h' /\ hmap_wf h' /\
    hmap_nodes h' ≡ₚ gnode target w <$> (Mk_group (g_val g) rs' :: rest).
Proof.
  intros Hwf Hn HG Hhd Hval Hfresh. assert (gnode target w g ∈ hmap_nodes h) as Hin by (rewrite Hn, HG; left).
  destruct (hmap_replace_spec h (gnode target w g) new Hwf Hin) as (h' & r & -> & Hwf' & H1 & H2 & _).
  { intros Ha. rewrite Hn, HG in Ha. cbn in Ha. apply elem_of_cons in Ha as [Ha|Ha]; [done|]. destruct Hfresh.
    rewrite <- list_fmap_compose in Ha. exact Ha. }
  exists h'. split; [done|]. split; [done|]. etransitivity; [exact H2|]. cbn. unfold gnode at 1, g_head. cbn.
  destruct (head rs') as [[a p]|]; [|discriminate Hhd]. cbn in Hhd. injection Hhd as Ha. subst a. cbn. rewrite Hval.
  apply Permutation_cons; [done|]. rewrite Hn, HG in H1. cbn in H1. apply Permutation_cons_inv in H1. done.
Qed.

Lemma entries_perm G G' vw : G ≡ₚ G' -> entries (set_groups G vw) ≡ₚ entries (set_groups G' vw).
Proof. intros H. apply (concat_map_perm g_entries G G' H). Qed.

Lemma set_groups_same vw : set_groups (v_groups vw) vw = vw.
Proof. destruct vw. done. Qed.

(** Where the groups differ, the entries do. *)
Lemma entries_cons g G vw : entries (set_groups (g :: G) vw) = g_entries g ++ entries (set_groups G vw).
Proof. done. Qed.

Lemma g_entries_perm v rs rs' : rs ≡ₚ rs' -> g_entries (Mk_group v rs) ≡ₚ g_entries (Mk_group v rs').
Proof. intros H. unfold g_entries. cbn. apply Permutation_map. done. Qed.

(** ** Insertion *)

(** The rules of a subtable with a rule more, or with one replaced. *)
Definition entries_add (e : cls_entry) (old : option nat) (l l' : list cls_entry) : Prop :=
  match old with
  | None => l' ≡ₚ e :: l
  | Some o => exists rest, l ≡ₚ Mk_entry o (e_prio e) (e_val e) :: rest /\ l' ≡ₚ e :: rest
  end.

Lemma entries_add_in e old l l' x : entries_add e old l l' -> x ∈ l' -> x = e \/ x ∈ l.
Proof.
  destruct old as [o|]; cbn.
  - intros (rest & H1 & H2) Hx. rewrite H2 in Hx. apply elem_of_cons in Hx as [->|Hx]; [by left|]. right. rewrite H1. right. done.
  - intros H Hx. rewrite H in Hx. apply elem_of_cons in Hx. done.
Qed.

Lemma entries_add_nodup e old l l' m : entries_add e old l l' -> e_addr e ∉ e_addr <$> (l ++ m) -> NoDup (e_addr <$> (l ++ m)) ->
  NoDup (e_addr <$> (l' ++ m)).
Proof.
  intros Ha Hnot Hn. destruct old as [o|]; cbn in Ha.
  - destruct Ha as (rest & H1 & H2). rewrite H2. rewrite H1 in Hn, Hnot. cbn in *. apply NoDup_cons in Hn as [_ Hn].
    apply not_elem_of_cons in Hnot as [_ Hnot]. apply NoDup_cons. done.
  - rewrite Ha. cbn. apply NoDup_cons. done.
Qed.

Lemma rule_ok_other R R' w ofs e : R' !! e_addr e = R !! e_addr e -> rule_ok target R w ofs e -> rule_ok target R' w ofs e.
Proof. intros E (r & Hr & H). exists r. rewrite E. done. Qed.

Section Insert.
Context (c : classifier) (A B : list view) (vw : view) (t : cls_subtable).
Context (HT : tables_core target c (A ++ vw :: B)) (Ht : subtable_at c !! v_addr vw = Some t) (Hst : st_rep target (rule_at c) t vw).
Context (e : cls_entry) (r' : cls_rule).
Context (Hfresh : e_addr e ∉ e_addr <$> all_entries (A ++ vw :: B)).

Abbreviation w := (v_mask vw).
Abbreviation c1 := (put_rule (e_addr e) r' c).

Lemma middle : A ++ vw :: B ≡ₚ vw :: A ++ B.
Proof. symmetry. apply Permutation_middle. Qed.

Lemma fresh_split : e_addr e ∉ (e_addr <$> entries vw) /\ e_addr e ∉ (e_addr <$> all_entries (A ++ B)).
Proof. rewrite (all_entries_perm _ _ middle), all_entries_cons, fmap_app, not_elem_of_app in Hfresh. done. Qed.

Lemma kept_rule x : x ∈ all_entries (A ++ vw :: B) -> rule_at c1 !! e_addr x = rule_at c !! e_addr x.
Proof.
  intros Hx. cbn. apply lookup_insert_ne. intros E. apply Hfresh. rewrite E. apply list_elem_of_fmap_2. done.
Qed.

Lemma own_entry x : x ∈ entries vw -> x ∈ all_entries (A ++ vw :: B).
Proof. intros Hx. apply elem_of_all_entries. exists vw. split; [apply elem_of_app; right; left | done]. Qed.

Lemma st_rep_put : st_rep target (rule_at c1) t vw.
Proof. apply (st_rep_rules target (rule_at c)); [|done]. intros x Hx. apply kept_rule, own_entry. done. Qed.

Context (He : rule_ok target (rule_at c1) w (v_ofs vw) e).

(** The subtable with other groups. *)
Lemma tables_groups old h' l' G' : entries_add e old (entries vw) (entries (set_groups G' vw)) ->
  hmap_wf h' -> hmap_nodes h' ≡ₚ gnode target w <$> G' -> Forall (group_ok target w) G' -> NoDup (g_val <$> G') ->
  Forall2 (index_ok target w (entries (set_groups G' vw))) (v_ofs vw) l' ->
  tables_core target (put_subtable (v_addr vw) (with_rules h' (with_indices l' t)) c1) (A ++ set_groups G' vw :: B).
Proof.
  intros Hadd Hwf Hn HG Hv Hl. destruct fresh_split as [Hf1 Hf2]. pose proof (tr_addrs _ _ _ HT) as Hnd.
  rewrite (all_entries_perm _ _ middle), all_entries_cons in Hnd.
  assert (NoDup (e_addr <$> all_entries (set_groups G' vw :: A ++ B))) as Hnd'.
  { rewrite all_entries_cons. apply (entries_add_nodup e old (entries vw)); [done | | done].
    rewrite fmap_app, not_elem_of_app. done. }
  apply (tables_core_replace target c _ A vw B _ (with_rules h' (with_indices l' t)) (set_groups G' vw) HT); try done.
  - cbn. rewrite (tr_order _ _ _ HT), !fmap_app. done.
  - symmetry. apply Permutation_middle.
  - apply (st_rep_groups (rule_at c) _ t vw G' h' l' Hst Hwf Hn HG Hv); [| |done].
    + rewrite all_entries_cons, fmap_app in Hnd'. apply NoDup_app in Hnd' as [Hnd' _]. done.
    + apply Forall_forall. intros x Hx. destruct (entries_add_in _ _ _ _ _ Hadd Hx) as [->|Hx']; [exact He|].
      apply (rule_ok_other (rule_at c)); [apply kept_rule, own_entry; done | apply (entry_at target c t vw Hst); done].
  - intros v x Hv' Hx. apply kept_rule. apply elem_of_all_entries. exists v. split; [|done]. rewrite middle. right. done.
  - rewrite (all_entries_perm _ (set_groups G' vw :: A ++ B)); [done | symmetry; apply Permutation_middle].
Qed.

(** Both ways to put the rule into the hash map. *)
Lemma new_group v p : e = Mk_entry (e_addr e) p v -> words_ok target v -> masked w v = v -> in_u32 p ->
  (forall g, g ∈ v_groups vw -> g_val g <> v) ->
  exists h', hmap_insert_at (rules_of t) (Mk_node (e_addr e) 0 [e_addr e]) (val_hash target w v) = Ok h' /\ hmap_wf h' /\
    let G' := Mk_group v [(e_addr e, p)] :: v_groups vw in
    hmap_nodes h' ≡ₚ gnode target w <$> G' /\ Forall (group_ok target w) G' /\ NoDup (g_val <$> G') /\
    entries_add e None (entries vw) (entries (set_groups G' vw)) /\ heads_add p (heads vw) (heads (set_groups G' vw)).
Proof.
  intros Ee Hv Hz Hp Hno. destruct fresh_split as [Hf1 _].
  destruct (hmap_insert_at_spec (rules_of t) (Mk_node (e_addr e) 0 [e_addr e]) (val_hash target w v) (sr_wf _ _ _ _ Hst)) as (h' & -> & Hwf & Hn & _).
  { apply seg_hash_u32. }
  { cbn. rewrite (sr_nodes _ _ _ _ Hst), <- list_fmap_compose. intros Hin. apply list_elem_of_fmap in Hin as (g & Ea & Hg). apply Hf1.
    cbn in Ea. rewrite Ea. pose proof (head_entry target c t vw Hst g Hg) as Hh.
    apply (list_elem_of_fmap_2 e_addr) in Hh. done. }
  exists h'. split; [done|]. split; [done|]. cbv zeta. split; [|split; [|split; [|split]]].
  - rewrite Hn. cbn. rewrite (sr_nodes _ _ _ _ Hst). done.
  - constructor; [|apply (sr_groups _ _ _ _ Hst)]. split; cbn; try done; [repeat constructor | constructor; [done | constructor]].
  - cbn. apply NoDup_cons. split; [|apply (sr_vals _ _ _ _ Hst)]. intros Hin. apply list_elem_of_fmap in Hin as (g & Ev & Hg).
    apply (Hno g Hg). done.
  - unfold entries_add. rewrite entries_cons, set_groups_same. cbn [g_entries g_rules g_val map fst snd app]. rewrite <- Ee. done.
  - left. exists [], (heads vw). split; [done|]. split; [constructor | done].
Qed.

Lemma joined_group v p g rest rs' old (h : hmap (list nat)) : e = Mk_entry (e_addr e) p v -> in_u32 p -> v_groups vw ≡ₚ g :: rest -> g_val g = v ->
  StronglySorted (fun a b => snd b < snd a) rs' -> rs' <> [] ->
  match old with
  | None => rs' ≡ₚ (e_addr e, p) :: g_rules g
  | Some o => exists rest, g_rules g ≡ₚ (o, p) :: rest /\ rs' ≡ₚ (e_addr e, p) :: rest
  end ->
  let G' := Mk_group v rs' :: rest in
  Forall (group_ok target w) G' /\ NoDup (g_val <$> G') /\ entries_add e old (entries vw) (entries (set_groups G' vw)).
Proof.
  intros Ee Hp HG Hv Hsort Hne Hmem. cbv zeta. pose proof (sr_groups _ _ _ _ Hst) as Hgs. rewrite HG in Hgs.
  inversion_clear Hgs as [|? ? Hg Hrest]. split; [|split].
  - constructor; [|done]. destruct Hg as [H1 H2 _ _ H5]. subst v. split; cbn; try done.
    destruct old as [o|]; [destruct Hmem as (r0 & Hm1 & Hm2); rewrite Hm1 in H5; rewrite Hm2; inversion_clear H5; constructor; done|].
    rewrite Hmem. constructor; done.
  - pose proof (sr_vals _ _ _ _ Hst) as Hn. rewrite HG in Hn. subst v. exact Hn.
  - assert (entries vw ≡ₚ g_entries (Mk_group v (g_rules g)) ++ entries (set_groups rest vw)) as Eo.
    { rewrite <- (set_groups_same vw) at 1. rewrite (entries_perm _ _ vw HG). subst v. destruct g. done. }
    assert (e_prio e = p /\ e_val e = v) as [E1 E2] by (rewrite Ee; done).
    assert (Mk_entry (e_addr e) p v = e) as E3 by (symmetry; exact Ee).
    rewrite entries_cons. unfold entries_add. destruct old as [o|].
    + destruct Hmem as (r0 & Hm1 & Hm2). exists (g_entries (Mk_group v r0) ++ entries (set_groups rest vw)).
      rewrite Eo, (g_entries_perm v _ _ Hm2), (g_entries_perm v _ _ Hm1), E1, E2. split; [done|].
      cbn [g_entries g_rules g_val map fst snd app]. rewrite E3. done.
    + rewrite (g_entries_perm v _ _ Hmem), Eo. cbn [g_entries g_rules g_val map fst snd app]. rewrite E3. done.
Qed.

End Insert.

(** The rule as it is stored. *)
Definition rule_in (R : gmap nat cls_rule) (a : nat) (r : cls_rule) (w : list Z) (e : cls_entry) : Prop :=
  R !! a = Some r /\ mm_rep target (match_of r) (e_val e) w /\ priority r = e_prio e /\ e_addr e = a /\
  words_ok target (e_val e) /\ masked w (e_val e) = e_val e /\ in_u32 (e_prio e).

Definition same_shape (vw vw' : view) : Prop :=
  v_addr vw' = v_addr vw /\ v_mask vw' = v_mask vw /\ v_ofs vw' = v_ofs vw /\ v_plens vw' = v_plens vw /\ v_tag vw' = v_tag vw.

(** What the insertion of a rule does. *)
Record inserted (c c' : classifier) (V' : list view) (vw vw' : view) (A B : list view) (new : nat) (r : cls_rule) (e : cls_entry)
    (old : option nat) : Prop := {
  in_perm : V' ≡ₚ vw' :: A ++ B;
  in_tables : tables_rep target c' V';
  in_frame : same_rest c c';
  in_shape : same_shape vw vw';
  in_n : v_n vw' = v_n vw;
  in_rules : exists r', rule_at c' = <[new := r']> (rule_at c) /\ match_of r' = match_of r /\ partition r' = partition r /\
    priority r' = priority r;
  in_entries : entries_add e old (entries vw) (entries vw')
}.

Lemma length_heads_le c t vw : st_rep target (rule_at c) t vw -> (length (heads vw) <= length (entries vw))%nat.
Proof.
  intros Hst. pose proof (sr_groups _ _ _ _ Hst) as Hg. unfold heads, entries. rewrite length_map.
  induction Hg as [|g G Hg _ IH]; cbn; [lia|]. rewrite length_app. unfold g_entries at 1. rewrite length_map.
  destruct Hg as [_ _ Hne _ _]. destruct (g_rules g); [done|]. cbn. lia.
Qed.

Lemma insert_rule_spec c A vw B new r e : tables_rep target c (A ++ vw :: B) ->
  rule_in (rule_at c) new r (v_mask vw) e -> new ∉ e_addr <$> all_entries (A ++ vw :: B) ->
  Z.of_nat (length (entries vw)) < 2 ^ 31 ->
  exists c' old vw' V', insert_rule target c (v_addr vw) new = Ok (c', old) /\ inserted c c' V' vw vw' A B new r e old.
Proof.
  intros [HT Hmax Hf] (Hr & Hm & Hp & Ha & Hv & Hz & Hpu) Hfresh Hsmall.
  pose proof (tr_views _ _ _ HT) as HV. rewrite Forall_forall in HV.
  destruct (HV vw) as (t & Ht & Hst); [apply elem_of_app; right; left|]. set (v := e_val e) in *.
  unfold insert_rule. rewrite (load_some _ _ _ Ht). cbn [rbind]. rewrite (load_some _ _ _ Hr). cbn [rbind].
  subst new. pose proof (fresh_split A B vw e Hfresh) as [Hf1 Hf2].
  destruct (sr_ends _ _ _ _ Hst) as [Hends1 Hends2].
  destruct (add_to_indices_spec (match_of r) (e_addr e) v (v_mask vw) (indices t) (v_ofs vw) Hm Hz (entries vw) 0 (sr_indices _ _ _ _ Hst) Hends1) with (p := e_prio e)
    as (l1 & last & E & Hl1 & Hlast); [eapply Forall_impl; [exact Hends2|]; cbn; lia | lia | exact Hf1 |].
  rewrite acc_0 in E. change (Z.of_nat 0) with 0 in E. rewrite E. clear E. cbn [rbind].
  pose proof (tight_wmap target Htarget _ _ (proj1 (proj2 Hm)) (proj1 (proj2 (proj2 Hm)))) as HN.
  pose proof (rule_stage target Htarget (match_of r) v (v_mask vw) last nw Hm ltac:(lia)) as E. cbv zeta in E. rewrite HN in E. rewrite E. clear E. cbn [rbind].
  change (seg_hash (wmap target (v_mask vw)) (v_mask vw) v nw) with (val_hash target (v_mask vw) v).
  set (hashes := map (fun o => stage_hash target (v_mask vw) o v) (v_ofs vw)). set (r' := with_hashes (val_hash target (v_mask vw) v) hashes r).
  set (c1 := put_rule (e_addr e) r' c). assert (Mk_entry (e_addr e) (e_prio e) v = e) as Ee by (destruct e; done). rewrite Ee in Hl1.
  pose proof (st_rep_put c A B vw t Hst e r' Hfresh) as Hst1. change (put_rule (e_addr e) r' c) with c1 in Hst1.
  assert (rule_ok target (rule_at c1) (v_mask vw) (v_ofs vw) e) as Hro.
  { exists r'. split; [apply lookup_insert_eq|]. done. }
  assert (Forall max_ok (A ++ B)) as HmaxAB by (rewrite middle in Hmax; inversion_clear Hmax; done).
  assert (max_ok vw) as Hmaxvw by (rewrite middle in Hmax; inversion_clear Hmax; done).
  pose proof (length_heads_le c t vw Hst) as Hheads.
  cbn [match_of r' with_hashes]. change (priority r') with (priority r). rewrite Hp.
  destruct (find_equal_spec c1 t vw (mm_flow (match_of r)) v Hst1 (mm_flow_rep _ _ _ Hm Hz (wo_len _ _ Hv))) as (found & Ef & Hfound).
  change (find_equal c1 (with_indices l1 t)) with (find_equal c1 t). rewrite Ef. clear Ef. cbn [rbind].
  (* a new highest rule, or a rule behind others *)
  assert (forall h' G', hmap_wf h' -> hmap_nodes h' ≡ₚ gnode target (v_mask vw) <$> G' -> Forall (group_ok target (v_mask vw)) G' -> NoDup (g_val <$> G') ->
      entries_add e None (entries vw) (entries (set_groups G' vw)) -> heads_add (e_prio e) (heads vw) (heads (set_groups G' vw)) ->
      exists c' old vw' V', (let* c := update_subtables_after_insertion (put_subtable (v_addr vw) (with_rules h' (with_indices l1 t)) c1) (v_addr vw) (e_prio e) in
        Ok (c, None)) = Ok (c', old) /\ inserted c c' V' vw vw' A B (e_addr e) r e old) as Hadd.
  { intros h' G' Hwf Hn HG Hvals Hent Hheads'.
    pose proof (tables_groups c A B vw t HT Hst e r' Hfresh Hro None h' l1 G' Hent Hwf Hn HG Hvals) as HT2.
    assert (falling (A ++ set_groups G' vw :: B)) as Hf2'.
    { apply (falling_swap A vw); done. }
    change (put_rule (e_addr e) r' c) with c1 in HT2. specialize (HT2 (indices_perm _ _ _ _ _ Hl1 (Permutation_sym Hent))).
    destruct (update_after_insertion_spec target _ A (set_groups G' vw) B (e_prio e) (heads vw) HT2 Hf2' HmaxAB Hmaxvw Hheads' Hpu) as
      (c' & m & n & V' & Eu & HV' & HT' & Hfr & Hrules); [lia|].
    cbn [v_addr set_groups] in Eu. rewrite Eu. cbn [rbind].
    eexists c', None, _, V'. split; [done|]. split; [exact HV' | done | | done | done | | exact Hent].
    - apply (frame_trans _ (put_subtable (v_addr vw) (with_rules h' (with_indices l1 t)) c1)); done.
    - exists r'. rewrite Hrules. done. }
  change (rules_of (with_indices l1 t)) with (rules_of t). destruct found as [nd|].
  2:{ destruct (new_group c A B vw t Hst e Hfresh v (e_prio e)) as (h' & -> & Hwf & H1 & H2 & H3 & H4 & H5); try done.
      cbn [rbind]. apply (Hadd h' _ Hwf H1 H2 H3 H4 H5). }
  destruct Hfound as (g & Hg & Eg & ->). pose proof (group_at target c t vw Hst g Hg) as Hgok.
  destruct (proj1 (elem_of_Permutation _ _) Hg) as [rest HG].
  destruct (each_rule_spec c1 g (v_mask vw) Hgok) as (lr & El & Elr).
  { apply Forall_forall. intros [a q] Hin. destruct (entry_at target c1 t vw Hst1 (Mk_entry a q (g_val g))) as (ra & Hra & _ & Hq & _).
    - apply elem_of_entries. exists g. done.
    - exists ra. done. }
  cbn [node_val gnode]. rewrite El. cbn [rbind].
  destruct (insert_in_list_spec (e_addr e) (e_prio e) lr (g_rules g) Elr (go_sorted _ _ _ Hgok)) as
    (rs' & old & -> & Hsort' & Hne' & _ & Hmem & Hhead).
  assert (exists b q, head (g_rules g) = Some (b, q) /\ g_head g = (b, q) /\
    if q <=? e_prio e then head rs' = Some (e_addr e, e_prio e) /\ (old = None -> q < e_prio e) /\ (old <> None -> q = e_prio e)
    else head rs' = Some (b, q)) as (b & q & Hhd & Hgh & Hcase).
  { unfold g_head. pose proof (go_rules _ _ _ Hgok) as Hne. destruct (g_rules g) as [|[b q] l]; [done|]. exists b, q. done. }
  set (ring := fst <$> rs').
  assert (g_entries g ⊆ entries vw) as Hgent.
  { intros x Hx. unfold entries. apply list_elem_of_In, in_concat. exists (g_entries g). split; [|apply list_elem_of_In; done].
    apply in_map_iff. exists g. split; [done|]. apply list_elem_of_In. done. }
  assert (b <> e_addr e) as Hb.
  { intros ->. apply Hf1. pose proof (head_entry target c t vw Hst g Hg) as Hh. rewrite Hgh in Hh.
    apply (list_elem_of_fmap_2 e_addr) in Hh. done. }
  assert (exists h', (if bool_decide (head ring = Some (e_addr e)) then hmap_replace (rules_of t) (gnode target (v_mask vw) g) (Mk_node (e_addr e) (val_hash target (v_mask vw) v) ring)
      else Ok (store_val (rules_of t) (node_addr (gnode target (v_mask vw) g)) (fun _ => ring))) = Ok h' /\ hmap_wf h' /\
      hmap_nodes h' ≡ₚ gnode target (v_mask vw) <$> (Mk_group (g_val g) rs' :: rest)) as (h' & Eh & Hwf & Hn).
  { unfold ring. destruct (q <=? e_prio e).
    - destruct Hcase as (Hh & _). rewrite bool_decide_eq_true_2 by (rewrite head_fmap, Hh; done).
      apply (replace_group _ _ (v_groups vw)); [apply (sr_wf _ _ _ _ Hst) | apply (sr_nodes _ _ _ _ Hst) | done | rewrite Hh; done | done |].
      cbn. intros Hin. apply list_elem_of_fmap in Hin as (g' & Ea & Hg'). apply Hf1. rewrite Ea.
      assert (g' ∈ v_groups vw) as Hg2 by (rewrite HG; right; done).
      pose proof (head_entry target c t vw Hst g' Hg2) as Hh'. apply (list_elem_of_fmap_2 e_addr) in Hh'. done.
    - rewrite bool_decide_eq_false_2 by (rewrite head_fmap, Hcase; cbn; congruence). eexists. split; [done|].
      apply (store_group _ _ (v_groups vw)); [apply (sr_wf _ _ _ _ Hst) | apply (sr_nodes _ _ _ _ Hst) | done | rewrite Hcase, Hgh; done]. }
  rewrite Eh. clear Eh. cbn [rbind]. rewrite Eg in Hn.
  destruct (joined_group c vw t Hst e v (e_prio e) g rest rs' old (rules_of t)) as (H1 & H2 & H3); try done.
  assert (forall H, heads (set_groups (g :: rest) vw) ≡ₚ H -> heads vw ≡ₚ H) as Hheadsp.
  { intros H <-. unfold heads. cbn. change (snd (g_head g) :: map (fun g => snd (g_head g)) rest) with (map (fun g => snd (g_head g)) (g :: rest)).
    apply Permutation_map. done. }
  assert (snd (g_head (Mk_group v rs')) = match head rs' with Some ap => snd ap | None => 0 end) as Ehd.
  { unfold g_head. cbn. destruct (head rs'); done. }
  destruct old as [o|].
  2:{ apply (Hadd h' _ Hwf Hn H1 H2 H3). destruct (Z.leb_spec q (e_prio e)) as [Hle|Hgt].
      - destruct Hcase as (Hh & Hlt & _). left. exists [q], (map (fun g => snd (g_head g)) rest).
        split; [apply Hheadsp; cbn; rewrite Hgh; done|]. split; [constructor; [auto | constructor]|]. cbn. rewrite Ehd, Hh. done.
      - right. assert (heads (set_groups (Mk_group v rs' :: rest) vw) ≡ₚ heads vw) as Hsame.
        { symmetry. apply Hheadsp. cbn. rewrite Ehd, Hcase, Hgh. done. }
        split; [done|]. exists q. split; [|done]. rewrite <- Hsame. cbn. rewrite Ehd, Hcase. left. }
  (* the rule of the same priority leaves the indexes *)
  destruct Hmem as (rest0 & Hm1 & Hm2). set (eo := Mk_entry o (e_prio e) v).
  destruct H3 as (es & Hes1 & Hes2). fold v in Hes1. change (Mk_entry o (e_prio e) v) with eo in Hes1.
  assert (eo ∈ entries vw) as Heo by (rewrite Hes1; left).
  destruct (entry_at target c1 t vw Hst1 eo Heo) as (ro & Hro' & _ & _ & _ & Hhs). cbn [e_addr eo] in Hro'.
  rewrite (load_some _ _ _ Hro'). cbn [rbind]. rewrite Hhs.
  destruct (remove_from_indices_spec (v_mask vw) eo (e :: es) l1 (v_ofs vw)) as (l2 & El2 & Hl2).
  { apply (indices_perm _ _ _ _ _ Hl1). rewrite Hes1. constructor. }
  cbn [e_addr eo] in El2. cbn [indices with_rules with_indices]. rewrite El2. cbn [rbind].
  assert (heads (set_groups (Mk_group v rs' :: rest) vw) ≡ₚ heads vw) as Hsame.
  { symmetry. apply Hheadsp. cbn. rewrite Ehd, Hgh. destruct (q <=? e_prio e); [|rewrite Hcase; done].
    destruct Hcase as (Hh & _ & Heq). rewrite Hh, Heq by done. done. }
  eexists _, (Some o), (set_groups (Mk_group v rs' :: rest) vw), (A ++ set_groups (Mk_group v rs' :: rest) vw :: B).
  split; [done|]. assert (entries_add e (Some o) (entries vw) (entries (set_groups (Mk_group v rs' :: rest) vw))) as Hent.
  { exists es. done. }
  split; [symmetry; apply Permutation_middle | | done | done | done | exists r'; done | exact Hent].
  split.
  - apply (tables_groups c A B vw t HT Hst e r' Hfresh Hro (Some o) h' l2 _ Hent Hwf Hn H1 H2).
    apply (indices_perm _ _ _ _ _ Hl2). symmetry. exact Hes2.
  - rewrite <- Permutation_middle. constructor; [|done]. apply (max_of_perm _ _ (heads vw)); [symmetry; done | exact Hmaxvw].
  - apply (falling_swap A vw); done.
Qed.

End Rules.
