(* ===== verification/ClsParts.v ===== *)
(** * The classifier: partitions

    The partition of a metadata is made for the first rule that requires it,
    tracks the tags of the rules that do, and goes with the last one. *)

From Stdlib Require Import ZArith Lia List Bool.
From stdpp Require Import base option list_relations list sets gmap.
From S2P Require Import Prelude Bytes Hash Bits Hmap Hindex Miniflow MatchSet MetaFlow Tag Trie Classifier ClsFacts ClsRep ClsLookup ClsTables.
#[local] Open Scope Z_scope.
#[local] Open Scope res_scope.

(** What changes with the partitions. *)
Definition with_parts (h : hmap unit) (m : gmap nat cls_partition) (c : classifier) : classifier :=
  set_partition_at m (set_partitions h c).

Lemma parts_addrs c T P : parts_core c T P -> NoDup (fst <$> P).
Proof.
  intros HP. pose proof (wf_addr _ (pr_wf _ _ _ HP)) as Hn. rewrite (pr_nodes _ _ _ HP), <- list_fmap_compose in Hn. exact Hn.
Qed.

Lemma same_fst (P : list (nat * Z)) p m m' : NoDup (fst <$> P) -> (p, m) ∈ P -> (p, m') ∈ P -> m = m'.
Proof.
  intros Hn H1 H2. apply list_elem_of_lookup in H1 as [i Hi]. apply list_elem_of_lookup in H2 as [j Hj].
  assert (i = j) as ->; [|congruence]. apply (NoDup_lookup _ i j p Hn); rewrite list_lookup_fmap; [rewrite Hi | rewrite Hj]; done.
Qed.

Lemma same_snd (P : list (nat * Z)) p p' m : NoDup (snd <$> P) -> (p, m) ∈ P -> (p', m) ∈ P -> p = p'.
Proof.
  intros Hn H1 H2. apply list_elem_of_lookup in H1 as [i Hi]. apply list_elem_of_lookup in H2 as [j Hj].
  assert (i = j) as ->; [|congruence]. apply (NoDup_lookup _ i j m Hn); rewrite list_lookup_fmap; [rewrite Hi | rewrite Hj]; done.
Qed.

Lemma hash_metadata_u32 m : in_u32 (hash_metadata m).
Proof. apply mhash_finish_u32. Qed.

(** A store to one partition. *)
Lemma parts_store c T T' P p m pt l : parts_core c T P -> (p, m) ∈ P -> p_metadata pt = m -> tracks (p_tracker pt) (p_tags pt) l ->
  l ≡ₚ T' m -> l <> [] -> (forall m', m' <> m -> T' m' = T m') ->
  parts_core (put_partition p pt c) T' P.
Proof.
  intros HP Hp Hm Ht Hl Hne HT. pose proof (parts_addrs _ _ _ HP) as Ha. destruct HP as [Hwf Hn Hmd Hparts].
  split; cbn; try done. rewrite Forall_forall in Hparts |- *. intros [p' m'] Hp'. destruct (decide (p' = p)) as [->|Hne'].
  - assert (m' = m) as -> by (apply (same_fst P p _ _ Ha); done). exists pt, l. cbn. rewrite lookup_insert_eq. done.
  - assert (m' <> m) as Hm' by (intros ->; apply Hne', (same_snd P _ _ m Hmd); done).
    destruct (Hparts _ Hp') as (pt' & l' & H1 & H2). exists pt', l'. cbn in *. rewrite lookup_insert_ne by congruence.
    rewrite (HT m' Hm'). done.
Qed.

Definition more_tags (m tag : Z) (T : Z -> list Z) (m' : Z) : list Z := if m' =? m then tag :: T m' else T m'.

Lemma create_partition_spec c T P addr s t m : parts_core c T P -> subtable_at c !! s = Some t -> in_u32 (st_tag t) ->
  addr ∉ fst <$> P -> Z.of_nat (length (T m)) + 1 < 2 ^ 32 -> ((forall p, (p, m) ∉ P) -> T m = []) ->
  exists p P' h mp, create_partition c addr s m = Ok (with_parts h mp c, p) /\ parts_core (with_parts h mp c) (more_tags m (st_tag t) T) P' /\
    (p, m) ∈ P' /\ (forall x, x ∈ P -> x ∈ P') /\ (forall x, x ∈ P' -> x ∈ P \/ fst x = addr).
Proof.
  intros HP Ht Htag Haddr Hsmall Hnone. unfold create_partition. destruct (find_partition_spec c T P m HP) as (o & -> & Ho). cbn [rbind].
  destruct o as [p|]; cbn [rbind].
  - rewrite (load_some _ _ _ Ht). cbn [rbind]. pose proof (pr_parts _ _ _ HP) as Hparts. rewrite Forall_forall in Hparts.
    destruct (Hparts _ Ho) as (pt & l & Hpt & Hm & Htr & Hl & Hne). cbn in Hpt, Hm, Hl. rewrite (load_some _ _ _ Hpt). cbn [rbind].
    destruct (tag_tracker_add_ok (p_tracker pt) (p_tags pt) l (st_tag t) Htr Htag) as (tr & -> & Htr'); [rewrite Hl; done|]. cbn [rbind].
    set (pt' := Mk_partition (p_metadata pt) (Z.lor (p_tags pt) (st_tag t)) tr).
    exists p, P, (partitions c), (<[p := pt']> (partition_at c)). split; [destruct c; done|].
    split; [|split; [done|]; split; [done|]; intros x Hx; by left].
    assert (with_parts (partitions c) (<[p := pt']> (partition_at c)) c = put_partition p pt' c) as -> by (destruct c; done).
    apply (parts_store c T _ P p m pt' (st_tag t :: l) HP Ho); try done.
    + unfold more_tags. rewrite Z.eqb_refl, Hl. done.
    + intros m' Hm'. unfold more_tags. rewrite (proj2 (Z.eqb_neq m' m)) by done. done.
  - destruct HP as [Hwf Hn Hmd Hparts].
    destruct (hmap_insert_at_spec (partitions c) (Mk_node addr 0 tt) (hash_metadata m) Hwf (hash_metadata_u32 m)) as (h & -> & Hwf' & Hn' & _).
    { cbn. rewrite Hn, <- list_fmap_compose. exact Haddr. }
    cbn [rbind node_addr node_val] in Hn' |- *.
    change (subtable_at (put_partition addr (Mk_partition m 0 tag_tracker_init) (set_partitions h c))) with (subtable_at c).
    rewrite (load_some _ _ _ Ht). cbn [rbind].
    change (partition_at (put_partition addr (Mk_partition m 0 tag_tracker_init) (set_partitions h c))) with
      (<[addr := Mk_partition m 0 tag_tracker_init]> (partition_at c)).
    rewrite (load_some _ addr (Mk_partition m 0 tag_tracker_init)) by apply lookup_insert_eq. cbn [rbind p_tracker p_tags p_metadata].
    destruct (tag_tracker_add_ok tag_tracker_init 0 [] (st_tag t) tag_tracker_init_ok Htag) as (tr & -> & Htr'); [cbn; lia|]. cbn [rbind].
    set (pt := Mk_partition m (Z.lor 0 (st_tag t)) tr).
    exists addr, ((addr, m) :: P), h, (<[addr := pt]> (partition_at c)).
    split. { unfold put_partition, set_partition_at, with_parts. cbn. rewrite insert_insert_eq. destruct c. done. }
    split; [|split; [left|]; split; [intros x Hx; right; done|]; intros x Hx; apply elem_of_cons in Hx as [->|Hx]; [by right | by left]].
    split; cbn.
    + done.
    + rewrite Hn', Hn. done.
    + apply NoDup_cons. split; [|done]. intros Hin. apply list_elem_of_fmap in Hin as ([p m'] & Em & Hp). cbn in Em. subst m'. apply (Ho p Hp).
    + constructor.
      * exists pt, [st_tag t]. cbn. rewrite lookup_insert_eq. unfold more_tags. rewrite Z.eqb_refl, (Hnone Ho). done.
      * rewrite Forall_forall in Hparts |- *. intros [p m'] Hp. destruct (Hparts _ Hp) as (pt' & l & H1 & H2). exists pt', l. cbn in *.
        rewrite lookup_insert_ne; [|intros ->; apply Haddr; apply (list_elem_of_fmap_2 fst) in Hp; done].
        unfold more_tags. rewrite (proj2 (Z.eqb_neq m' m)); [done|]. intros ->. apply (Ho p Hp).
Qed.

(** The tag of a rule taken out of the partition of its metadata. *)
Definition drop_part (c : classifier) (p : nat) (tag : Z) : Res classifier :=
  let* pt := load (partition_at c) p in
  let* (tracker, tags) := tag_tracker_subtract (p_tracker pt) (p_tags pt) tag in
  let c := put_partition p (Mk_partition (p_metadata pt) tags tracker) c in
  if tags =? 0 then remove_partition c p else Ok c.

Lemma tags_of_zero l : Forall two_bits l -> tags_of l = 0 <-> l = [].
Proof.
  intros Hl. split; [|intros ->; done]. intros E. destruct l as [|tag l]; [done|]. inversion_clear Hl as [|? ? (_ & i & _ & _ & Hi & _) _].
  assert (Z.testbit (tags_of (tag :: l)) i = true) as Hb by (apply tags_of_bit; exists tag; split; [left | done]).
  rewrite E, Z.bits_0 in Hb. done.
Qed.

Lemma drop_part_spec c T T' P p m tag : parts_core c T P -> (p, m) ∈ P -> T m ≡ₚ tag :: T' m -> (forall m', m' <> m -> T m' = T' m') ->
  Forall two_bits (T m) ->
  exists h mp P', drop_part c p tag = Ok (with_parts h mp c) /\ parts_core (with_parts h mp c) T' P' /\
    (forall x, x ∈ P' -> x ∈ P) /\ (forall p' m', (p', m') ∈ P -> T' m' <> [] -> (p', m') ∈ P').
Proof.
  intros HP Hp HT Hother Htwo. pose proof (pr_parts _ _ _ HP) as Hparts. rewrite Forall_forall in Hparts.
  destruct (Hparts _ Hp) as (pt & l & Hpt & Hm & Htr & Hl & Hne). cbn in Hpt, Hm, Hl. unfold drop_part. rewrite (load_some _ _ _ Hpt). cbn [rbind].
  assert (l ≡ₚ tag :: T' m) as Hl' by (rewrite Hl; done).
  destruct (tag_tracker_subtract_ok (p_tracker pt) (p_tags pt) l tag (T' m) Htr Hl') as (tr & tags & -> & Htr'). cbn [rbind].
  set (pt' := Mk_partition (p_metadata pt) tags tr). pose proof Htr' as (_ & Etags & _).
  rewrite HT in Htwo. inversion_clear Htwo as [|? ? _ Htwo']. pose proof (tags_of_zero _ Htwo') as Hzero. rewrite <- Etags in Hzero.
  destruct (Z.eqb_spec tags 0) as [E|E].
  - apply Hzero in E as E'. unfold remove_partition. cbn [partitions put_partition set_partition_at].
    assert (pnode (p, m) ∈ hmap_nodes (partitions c)) as Hin.
    { rewrite (pr_nodes _ _ _ HP). apply (list_elem_of_fmap_2 pnode). done. }
    pose proof (find_node _ _ (wf_addr _ (pr_wf _ _ _ HP)) Hin) as Ef. cbn [pnode node_addr fst] in Ef. rewrite Ef.
    destruct (hmap_remove_spec (partitions c) (pnode (p, m)) (pr_wf _ _ _ HP) Hin) as (h & Eh & Hwf & Hn & _). cbn [pnode fst snd] in Eh. rewrite Eh. cbn [rbind].
    destruct (proj1 (elem_of_Permutation _ _) Hp) as [P' HP'].
    exists h, (delete p (<[p := pt']> (partition_at c))), P'. split; [destruct c; done|].
    assert (forall x, x ∈ P' -> x ∈ P) as Hsub by (intros x Hx; rewrite HP'; right; done).
    split; [|split; [done|]].
    + split; cbn.
      * done.
      * rewrite (pr_nodes _ _ _ HP), HP' in Hn. cbn in Hn. apply Permutation_cons_inv in Hn. done.
      * pose proof (pr_metadata _ _ _ HP) as Hmd. rewrite HP' in Hmd. cbn in Hmd. apply NoDup_cons in Hmd. apply Hmd.
      * pose proof (parts_addrs _ _ _ HP) as Ha. rewrite HP' in Ha. cbn in Ha. apply NoDup_cons in Ha as [Ha _].
        pose proof (pr_metadata _ _ _ HP) as Hmd. rewrite HP' in Hmd. cbn in Hmd. apply NoDup_cons in Hmd as [Hmd _].
        apply Forall_forall. intros [p' m'] Hx. destruct (Hparts _ (Hsub _ Hx)) as (pt2 & l2 & H1 & H2). exists pt2, l2. cbn in *.
        assert (p' <> p) by (intros ->; apply Ha; apply (list_elem_of_fmap_2 fst) in Hx; done).
        assert (m' <> m) as Hm' by (intros ->; apply Hmd; apply (list_elem_of_fmap_2 snd) in Hx; done).
        rewrite lookup_delete_ne, lookup_insert_ne by congruence. rewrite <- (Hother m' Hm'). done.
    + intros p' m' Hx Hne'. rewrite HP' in Hx. apply elem_of_cons in Hx as [[= -> ->]|Hx]; [|done]. done.
  - exists (partitions c), (<[p := pt']> (partition_at c)), P. split; [destruct c; done|]. split; [|done].
    assert (with_parts (partitions c) (<[p := pt']> (partition_at c)) c = put_partition p pt' c) as -> by (destruct c; done).
    apply (parts_store c T T' P p m pt' (T' m) HP Hp); try done.
    + intros E0. apply E. apply Hzero. done.
    + intros m' Hm'. symmetry. apply Hother. done.
Qed.
