(* ===== verification/ClsUpdate.v ===== *)
(** * The classifier: insertion and removal of rules

    [classifier_replace] and [classifier_remove] on states that stand for views:
    the subtable, the partition and the tries change together. *)

From Stdlib Require Import ZArith Lia List Bool Sorted.
From stdpp Require Import base option list_relations list sets gmap sorting.
From S2P Require Import Prelude Bytes Hash Csum Packets Bits Hmap Hindex Flow FlowFacts FlowCompose Miniflow MiniflowFacts MiniflowProps MatchSet MetaFlow Tag Trie TrieFacts Classifier ClsFacts ClsRep ClsLookup ClsTables ClsRules ClsParts.
#[local] Open Scope Z_scope.
#[local] Open Scope res_scope.

#[local] Opaque one_bits for_each_1bit.

Section Update.
Variable target : abi.
Hypothesis Htarget : target = i686 \/ target = x86_64.

Abbreviation nw := (FLOW_U32S target).

(** ** What depends on the rules of a view *)

Lemma md_tags_perm V V' m : V ≡ₚ V' -> md_tags target V m ≡ₚ md_tags target V' m.
Proof. apply concat_map_perm. Qed.

Lemma prefixes_perm i o V V' : V ≡ₚ V' -> prefixes i o V ≡ₚ prefixes i o V'.
Proof. apply concat_map_perm. Qed.

Lemma filter_perm {A} (f : A -> bool) l l' : l ≡ₚ l' -> List.filter f l ≡ₚ List.filter f l'.
Proof.
  induction 1 as [|x l l' _ IH|x y l|l l' l'' _ IH1 _ IH2]; cbn; [done | destruct (f x); [rewrite IH|]; done | | etransitivity; done].
  destruct (f x), (f y); try done. constructor.
Qed.

(** One rule more or less in one view, the same otherwise. *)
Record one_more (e : cls_entry) (V V' : list view) (vw vw' : view) (W : list view) : Prop := {
  om_before : V ≡ₚ vw :: W;
  om_after : V' ≡ₚ vw' :: W;
  om_shape : same_shape vw vw';
  om_entries : entries vw' ≡ₚ e :: entries vw
}.

Lemma md_tags_more e V V' vw vw' W m : one_more e V V' vw vw' W ->
  md_tags target V' m ≡ₚ (if full_md target (v_mask vw) && (md_of target (e_val e) =? m) then [v_tag vw] else []) ++ md_tags target V m.
Proof.
  intros [HV HV' (_ & Em & _ & _ & Et) He]. rewrite (md_tags_perm _ _ m HV), (md_tags_perm _ _ m HV'). unfold md_tags. cbn [map concat].
  rewrite Em, Et. destruct (full_md target (v_mask vw)); [|done]. cbn [andb]. rewrite (filter_perm _ _ _ He). cbn [List.filter].
  destruct (_ =? m); done.
Qed.

Lemma prefixes_more e V V' vw vw' W i o : one_more e V V' vw vw' W ->
  prefixes i o V' ≡ₚ (if decide (plen i vw = 0%nat) then [] else [prefix_of o (plen i vw) (e_val e)]) ++ prefixes i o V.
Proof.
  intros [HV HV' (_ & _ & _ & Ep & _) He]. rewrite (prefixes_perm i o _ _ HV), (prefixes_perm i o _ _ HV'). unfold prefixes. cbn [map concat].
  assert (plen i vw' = plen i vw) as -> by (unfold plen; rewrite Ep; done). destruct (decide _); [done|]. rewrite He. done.
Qed.

Lemma all_entries_more e V V' vw vw' W : one_more e V V' vw vw' W -> all_entries V' ≡ₚ e :: all_entries V.
Proof.
  intros [HV HV' _ He]. rewrite (all_entries_perm _ _ HV), (all_entries_perm _ _ HV'), !all_entries_cons, He. done.
Qed.

Lemma prefixes_length i o V : (length (prefixes i o V) <= length (all_entries V))%nat.
Proof.
  unfold prefixes, all_entries. induction V as [|vw V IH]; cbn; [lia|]. rewrite !length_app.
  destruct (decide _); cbn; [|rewrite length_map]; lia.
Qed.

(** ** Tries *)

Lemma plens_more e V V' vw vw' W mf i : one_more e V V' vw vw' W ->
  Forall (fun vw => plen_ok target mf (v_mask vw) (plen i vw)) V <-> Forall (fun vw => plen_ok target mf (v_mask vw) (plen i vw)) V'.
Proof.
  intros [HV HV' (_ & Em & _ & Ep & _) _]. rewrite HV, HV'. rewrite !Forall_cons.
  assert (plen i vw' = plen i vw) as -> by (unfold plen; rewrite Ep; done). rewrite Em. done.
Qed.

(** The prefix of a rule in its compressed flow. *)
Lemma rule_prefix m v w mf o k p : mm_rep target m v w -> masked w v = v -> words_ok target v -> field_ok target mf o k ->
  plen_ok target mf w p -> p <> 0%nat ->
  (p <= 32 * length (minimatch_get_prefix target m mf))%nat /\ (p <= 32 * k)%nat /\
  vbits (minimatch_get_prefix target m mf) 0 p = prefix_of o p v.
Proof.
  intros Hm Hz Hv Hf Hp Hp0. pose proof Hf as (Ho & _ & Hok & Hk).
  destruct (plen_ok_bits target Htarget (mm_mask m) w mf o k p (proj1 (proj2 Hm)) Hf Hp Hp0) as [Hle Hb].
  destruct (get_prefix_spec target Htarget m v w mf o p Hm Hz (wo_len _ _ Hv) Ho ltac:(lia)) as [H1 H2]; [|done|done].
  assert ((p - 1) / 32 < k)%nat by (apply Nat.Div0.div_lt_upper_bound; lia). lia.
Qed.

Lemma trie_insert_one ct mf o k p r v w : trie_field ct = Some mf -> field_ok target mf o k -> plen_ok target mf w p -> p <> 0%nat ->
  mm_rep target (match_of r) v w -> masked w v = v -> words_ok target v -> trie_wf None (trie_root ct) ->
  Z.of_nat (length (rules (trie_root ct))) + 1 < 2 ^ 32 ->
  exists ct', trie_insert target ct r (Z.of_nat p) = Ok ct' /\ trie_field ct' = Some mf /\ trie_wf None (trie_root ct') /\
    rules (trie_root ct') ≡ₚ prefix_of o p v :: rules (trie_root ct).
Proof.
  intros Hmf Hf Hpv Hp0 Hm Hz Hv Hwf Hsmall. destruct (rule_prefix _ _ _ _ _ _ _ Hm Hz Hv Hf Hpv Hp0) as (Hle & Hk & Hb).
  pose proof Hf as (_ & _ & _ & Hk4). unfold trie_insert, the_field. rewrite Hmf. cbn [rbind]. unfold trie_insert_prefix. change 0 with (Z.of_nat 0).
  destruct (insert_loop_spec _ p Hle ltac:(lia) (trie_root ct) None 0%nat Hwf) as (t' & -> & Hwf' & _ & Hperm); [lia | done | done |].
  cbn [rbind]. eexists. split; [done|]. split; [done|]. split; [done|]. cbn [trie_root]. rewrite Nat.sub_0_r in Hperm. rewrite Hperm, Hb. done.
Qed.

Lemma trie_insert_rep e V V' vw vw' W i ct r : one_more e V V' vw vw' W -> trie_rep target V i ct -> plen i vw <> 0%nat ->
  mm_rep target (match_of r) (e_val e) (v_mask vw) -> masked (v_mask vw) (e_val e) = e_val e -> words_ok target (e_val e) ->
  Z.of_nat (length (all_entries V)) < 2 ^ 31 ->
  exists ct', trie_insert target ct r (Z.of_nat (plen i vw)) = Ok ct' /\ trie_rep target V' i ct'.
Proof.
  intros Hom (mf & o & k & Hmf & Hf & Hp & Hwf & Hr) Hp0 Hm Hz Hv Hsmall.
  assert (plen_ok target mf (v_mask vw) (plen i vw)) as Hpv.
  { rewrite (om_before _ _ _ _ _ _ Hom) in Hp. inversion_clear Hp. done. }
  destruct (trie_insert_one ct mf o k _ r _ _ Hmf Hf Hpv Hp0 Hm Hz Hv Hwf) as (ct' & E & Hmf' & Hwf' & Hr').
  { rewrite Hr. pose proof (prefixes_length i o V). lia. }
  exists ct'. split; [done|]. exists mf, o, k. split; [done|]. split; [done|]. split; [apply (plens_more _ _ _ _ _ _ _ _ Hom); done|].
  split; [done|]. rewrite Hr', Hr, (prefixes_more _ _ _ _ _ _ i o Hom), decide_False by done. done.
Qed.

Lemma trie_rep_skip e V V' vw vw' W i ct : one_more e V V' vw vw' W -> plen i vw = 0%nat ->
  trie_rep target V i ct <-> trie_rep target V' i ct.
Proof.
  intros Hom Hp0. assert (forall o, prefixes i o V' ≡ₚ prefixes i o V) as Heq.
  { intros o. rewrite (prefixes_more _ _ _ _ _ _ i o Hom), decide_True by done. done. }
  split; intros (mf & o & k & Hmf & Hf & Hp & Hwf & Hr); exists mf, o, k; (split; [done|]; split; [done|]; split; [apply (plens_more _ _ _ _ _ _ _ _ Hom); done|]);
    (split; [done|]); rewrite Hr, Heq; done.
Qed.

(** Taking the prefix of a rule out again; the array of the loop has room for
    prefixes of at most 127 bits. *)
Lemma trie_remove_rep e V V' vw vw' W i ct r : one_more e V V' vw vw' W -> trie_rep target V' i ct -> plen i vw <> 0%nat ->
  mm_rep target (match_of r) (e_val e) (v_mask vw) -> masked (v_mask vw) (e_val e) = e_val e -> words_ok target (e_val e) ->
  (plen i vw < 128)%nat ->
  exists ct', trie_remove target ct r (Z.of_nat (plen i vw)) = Ok ct' /\ trie_rep target V i ct'.
Proof.
  intros Hom (mf & o & k & Hmf & Hf & Hp & Hwf & Hr) Hp0 Hm Hz Hv H128. apply (plens_more _ _ _ _ _ _ _ _ Hom) in Hp.
  assert (plen_ok target mf (v_mask vw) (plen i vw)) as Hpv.
  { rewrite (om_before _ _ _ _ _ _ Hom) in Hp. inversion_clear Hp. done. }
  destruct (rule_prefix _ _ _ _ _ _ _ Hm Hz Hv Hf Hpv Hp0) as (Hle & Hk & Hb).
  unfold trie_remove, the_field. rewrite Hmf. cbn [rbind]. unfold trie_remove_prefix. change 0 with (Z.of_nat 0).
  pose proof (remove_loop_spec _ (plen i vw) Hle ltac:(lia) (trie_root ct) None 0%nat 0%nat 1%nat Hwf) as H. rewrite Nat.sub_0_r in H.
  specialize (H ltac:(lia) ltac:(unfold MAX_EDGES; lia) ltac:(lia)). rewrite Hb in H.
  assert (rules (trie_root ct) ≡ₚ prefix_of o (plen i vw) (e_val e) :: prefixes i o V) as Hr'.
  { rewrite Hr, (prefixes_more _ _ _ _ _ _ i o Hom), decide_False by done. done. }
  destruct (remove_loop _ _ _ _ _) as [[[t' again]|]|]; cbn [removed rbind] in *; [| |done].
  - destruct H as (Hwf' & Hperm & _). eexists. split; [done|]. exists mf, o, k. split; [done|]. split; [done|]. split; [done|]. split; [done|].
    cbn [trie_root]. rewrite Hr' in Hperm. apply Permutation_cons_inv in Hperm. done.
  - destruct H. rewrite Hr'. left.
Qed.

(** The loop over the tries of the classifier. *)
Lemma on_tries_spec op r (T T' : nat -> cls_trie -> Prop) vw : (forall i ct, T i ct -> plen i vw <> 0%nat ->
    exists ct', op ct r (Z.of_nat (plen i vw)) = Ok ct' /\ T' i ct') ->
  (forall i ct, T i ct -> plen i vw = 0%nat -> T' i ct) ->
  forall n l ps j, (n <= length l)%nat -> (n <= length ps)%nat -> (forall i ct, (i < n)%nat -> l !! i = Some ct -> T (j + i)%nat ct) ->
  (forall i p, ps !! i = Some p -> p = plen (j + i) vw) ->
  exists l', on_tries op r n l (Z.of_nat <$> ps) = Ok l' /\ length l' = length l /\
    forall i ct, (i < n)%nat -> l' !! i = Some ct -> T' (j + i)%nat ct.
Proof.
  intros Hop Hskip. induction n as [|n IH]; intros l ps j Hl Hps Hr Hp; cbn [on_tries].
  { exists l. destruct l; (split; [done|]; split; [done|]; lia). }
  destruct l as [|ct l]; [cbn in Hl; lia|]. destruct ps as [|p ps]; [cbn in Hps; lia|]. cbn [fmap list_fmap on_tries length] in *.
  assert (p = plen j vw) as -> by (rewrite <- (Nat.add_0_r j); apply Hp; done).
  assert (T j ct) as Hct by (rewrite <- (Nat.add_0_r j); apply Hr; [lia | done]).
  assert (exists ct', (if negb (Z.of_nat (plen j vw) =? 0) then op ct r (Z.of_nat (plen j vw)) else Ok ct) = Ok ct' /\ T' j ct') as (ct' & -> & Hct').
  { destruct (Z.eqb_spec (Z.of_nat (plen j vw)) 0) as [E|E]; cbn [negb].
    - exists ct. split; [done|]. apply Hskip; [done | lia].
    - apply Hop; [done | lia]. }
  cbn [rbind]. destruct (IH l ps (S j) ltac:(lia) ltac:(lia)) as (l' & -> & Hlen & Hl').
  - intros i ct0 Hi Hct0. rewrite Nat.add_succ_comm. apply Hr; [lia | done].
  - intros i p Hi. rewrite Nat.add_succ_comm. apply Hp. done.
  - cbn [rbind]. exists (ct' :: l'). split; [done|]. split; [cbn; lia|]. intros [|i] ct0 Hi Hct0; cbn in Hct0.
    + injection Hct0 as <-. rewrite Nat.add_0_r. done.
    + rewrite Nat.add_succ_r. apply (Hl' i); [lia | done].
Qed.

(** The fields of the tries stay. *)
Definition same_fields (c c' : classifier) : Prop := n_tries c' = n_tries c /\ trie_field <$> tries c' = trie_field <$> tries c.

Lemma trie_op_field op r : op = trie_insert target \/ op = trie_remove target -> forall n l ps l', on_tries op r n l ps = Ok l' ->
  trie_field <$> l' = trie_field <$> l.
Proof.
  intros Hop. induction n as [|n IH]; intros l ps l'; cbn [on_tries]; [destruct l; intros [= <-]; done|].
  destruct l as [|ct l]; [done|]. destruct ps as [|p ps]; [done|].
  assert (forall ct1, (if negb (p =? 0) then op ct r p else Ok ct) = Ok ct1 -> trie_field ct1 = trie_field ct) as Hf.
  { intros ct1. destruct (negb _); [|intros [= <-]; done]. destruct Hop as [-> | ->]; unfold trie_insert, trie_remove; destruct (the_field ct) as [mf|]; cbn [rbind]; try done.
    - destruct (trie_insert_prefix _ _ _); [|done]. cbn [rbind]. intros [= <-]. done.
    - destruct (trie_remove_prefix _ _ _) as [[? ?]|]; [|done]. cbn [rbind]. intros [= <-]. done. }
  destruct (if negb (p =? 0) then op ct r p else Ok ct) as [ct1|]; [|done]. cbn [rbind].
  destruct (on_tries op r n l ps) as [l1|] eqn:E; [|done]. cbn [rbind]. intros [= <-]. cbn. rewrite (Hf ct1 eq_refl). f_equal. apply (IH _ _ _ E).
Qed.

(** ** Parts of the state that an operation does not touch *)

Lemma tables_core_frame c c' V : subtables c' = subtables c -> subtable_at c' = subtable_at c ->
  subtables_priority c' = subtables_priority c -> flow_segments c' = flow_segments c -> rule_at c' = rule_at c ->
  tables_core target c V -> tables_core target c' V.
Proof.
  intros E1 E2 E3 E4 E5 []. split; rewrite ?E1, ?E3, ?E4; try done. eapply Forall_impl; [exact tr_views|].
  intros vw (t & Ht & Hst). exists t. rewrite E2, E5. done.
Qed.

Lemma tables_rep_frame c c' V : subtables c' = subtables c -> subtable_at c' = subtable_at c ->
  subtables_priority c' = subtables_priority c -> flow_segments c' = flow_segments c -> rule_at c' = rule_at c ->
  tables_rep target c V -> tables_rep target c' V.
Proof. intros E1 E2 E3 E4 E5 []. split; [apply (tables_core_frame c)|..]; done. Qed.

Lemma parts_core_frame c c' T T' P : partitions c' = partitions c -> partition_at c' = partition_at c -> (forall m, T m ≡ₚ T' m) ->
  parts_core c T P -> parts_core c' T' P.
Proof.
  intros E1 E2 HT []. split; rewrite ?E1; try done. eapply Forall_impl; [exact pr_parts|].
  intros p (pt & l & H1 & H2 & H3 & H4 & H5). exists pt, l. rewrite E2, <- HT. done.
Qed.

Lemma tries_rep_frame c c' V V' : tries c' = tries c -> n_tries c' = n_tries c -> (forall i ct, trie_rep target V i ct -> trie_rep target V' i ct) ->
  tries_rep target c V -> tries_rep target c' V'.
Proof. intros E1 E2 HV []. split; rewrite ?E1, ?E2; auto. Qed.

Lemma trie_rep_perm V V' i ct : V ≡ₚ V' -> trie_rep target V i ct -> trie_rep target V' i ct.
Proof.
  intros HV (mf & o & k & H1 & H2 & H3 & H4 & H5). exists mf, o, k. split; [done|]. split; [done|]. split; [rewrite <- HV; done|].
  split; [done|]. rewrite H5. apply prefixes_perm. done.
Qed.

(** A rule with another partition. *)
Lemma st_rep_partition R t vw a q r : R !! a = Some r -> st_rep target R t vw -> st_rep target (<[a := with_partition q r]> R) t vw.
Proof.
  intros Hr []. split; try done. eapply Forall_impl; [exact sr_rules|]. intros e (r' & H1 & H2 & H3 & H4 & H5).
  destruct (decide (e_addr e = a)) as [E|E].
  - exists (with_partition q r). rewrite E in H1 |- *. rewrite lookup_insert_eq. assert (r' = r) as -> by congruence. done.
  - exists r'. rewrite lookup_insert_ne by congruence. done.
Qed.

Lemma tables_rep_partition c V a q r : rule_at c !! a = Some r -> tables_rep target c V ->
  tables_rep target (put_rule a (with_partition q r) c) V.
Proof.
  intros Hr [[]]. split; [split|..]; try done. eapply Forall_impl; [exact tr_views|].
  intros vw (t & Ht & Hst). exists t. split; [done|]. apply st_rep_partition; done.
Qed.

Definition set_n (n : Z) (vw : view) : view :=
  Mk_view (v_addr vw) (v_mask vw) (v_ofs vw) (v_plens vw) (v_tag vw) (v_max vw) (v_count vw) n (v_groups vw).

(** A subtable with another number of rules. *)
Lemma tables_rep_n c V vw W t n : tables_rep target c V -> V ≡ₚ vw :: W -> subtable_at c !! v_addr vw = Some t ->
  exists V', V' ≡ₚ set_n n vw :: W /\ tables_rep target (put_subtable (v_addr vw) (with_n_rules n t) c) V'.
Proof.
  intros [HT Hmax Hf] HV Ht. assert (vw ∈ V) as Hin by (rewrite HV; left).
  apply list_elem_of_split in Hin as (A & B & ->). exists (A ++ set_n n vw :: B).
  assert (W ≡ₚ A ++ B) as HW by (rewrite middle in HV; apply Permutation_cons_inv in HV; done).
  assert (A ++ set_n n vw :: B ≡ₚ set_n n vw :: A ++ B) as Hp by (symmetry; apply Permutation_middle).
  split; [rewrite Hp, HW; done|]. split.
  - apply (tables_core_replace target c _ A vw B _ (with_n_rules n t) (set_n n vw) HT); try done.
    + cbn. rewrite (tr_order _ _ _ HT), !fmap_app. done.
    + cbn. pose proof (tr_views _ _ _ HT) as HVs. rewrite Forall_forall in HVs. destruct (HVs vw) as (t' & Ht' & Hst); [apply elem_of_app; right; left|].
      rewrite Ht in Ht'. injection Ht' as <-. destruct Hst. split; done.
    + rewrite (all_entries_perm _ _ Hp), all_entries_cons. change (entries (set_n n vw)) with (entries vw).
      rewrite <- all_entries_cons, <- (all_entries_perm _ _ (middle A B vw)). apply (tr_addrs _ _ _ HT).
  - rewrite Hp. rewrite middle in Hmax. inversion_clear Hmax. constructor; done.
  - apply (falling_swap A vw); done.
Qed.

(** ** Insertion *)

Lemma all_entries_snoc_empty V vw : v_groups vw = [] -> all_entries (V ++ [vw]) = all_entries V.
Proof. intros E. unfold all_entries, entries. rewrite map_app, concat_app. cbn. rewrite E. cbn. rewrite app_nil_r. done. Qed.

Lemma md_tags_snoc_empty V vw m : v_groups vw = [] -> md_tags target (V ++ [vw]) m = md_tags target V m.
Proof.
  intros E. unfold md_tags. rewrite map_app, concat_app. cbn [map concat]. unfold entries at 2. rewrite E. cbn [map concat List.filter].
  destruct (full_md target (v_mask vw)); rewrite app_nil_r; done.
Qed.

(** The subtable of a mask, made if there is none. *)
Lemma find_or_insert c V P mask w s : cls_rep target c V P -> mask_rep target mask w -> s ∉ v_addr <$> V ->
  exists c0 A vw B, (let* found := find_subtable c mask in
      match found with
      | Some s => Ok (c, s)
      | None => let* c := insert_subtable target c s mask in Ok (c, s)
      end) = Ok (c0, v_addr vw) /\
    cls_rep target c0 (A ++ vw :: B) P /\ v_mask vw = w /\ rule_at c0 = rule_at c /\ same_fields c c0 /\
    (V = A ++ vw :: B \/ V = A /\ B = [] /\ v_groups vw = [] /\ v_addr vw = s).
Proof.
  intros HC Hm Hs. pose proof HC as [HT HP Htr Hn Hcnt Hsmall].
  destruct (find_subtable_spec target Htarget c V mask w HT Hm) as (o & -> & Ho). cbn [rbind]. destruct o as [s'|]; cbn [rbind].
  - destruct Ho as (vw & Hv & Hw & <-). apply list_elem_of_split in Hv as (A & B & ->). exists c, A, vw, B.
    split; [done|]. split; [done|]. split; [done|]. split; [done|]. split; [done|]. by left.
  - destruct (insert_subtable_spec target Htarget c V s mask w HT Htr Hm Hs) as (c0 & vw & -> & (Ea & Ew & Eg & Emx & Ec & En) & HT0 & Htr0 & Hfr & Hrules).
    { intros Hin. apply list_elem_of_fmap in Hin as (vw & E & Hv). apply (Ho vw Hv). done. }
    cbn [rbind]. exists c0, V, vw, []. rewrite Ea. split; [done|]. split; [|split; [done|]; split; [done|]; split; [split; [apply (fr_n_tries _ _ Hfr) | rewrite (fr_tries _ _ Hfr); done] | by right]].
    assert (all_entries (V ++ [vw]) = all_entries V) as Eall by (apply all_entries_snoc_empty; done).
    split.
    + split; [done | |].
      * apply Forall_app. split; [apply (tr_max _ _ _ HT)|]. constructor; [|constructor]. unfold max_ok, heads. rewrite Emx, Ec, Eg.
        split; [constructor | done].
      * apply falling_app. split; [|split; [apply (tr_sorted _ _ _ HT) | constructor; constructor]].
        intros a b Ha Hb. apply list_elem_of_singleton in Hb as ->. rewrite Emx. pose proof (tr_views _ _ _ HT) as HV.
        rewrite Forall_forall in HV. destruct (HV a Ha) as (t & _ & Hst). pose proof (sr_max_u32 _ _ _ _ Hst) as Hu. unfold in_u32 in Hu. lia.
    + split; [apply (parts_core_frame c _ (md_tags target V)); [apply (fr_parts _ _ Hfr) | apply (fr_part_at _ _ Hfr) | | apply HP]|].
      * intros m. rewrite md_tags_snoc_empty by done. done.
      * intros v e r Hv He Hr. rewrite Hrules in Hr. apply elem_of_app in Hv as [Hv|Hv]; [apply (pr_rules _ _ _ _ HP v e r); done|].
        apply list_elem_of_singleton in Hv as ->. unfold entries in He. rewrite Eg in He. inversion He.
    + done.
    + rewrite Eall, (fr_n_rules _ _ Hfr). done.
    + apply Forall_app. split; [done|]. constructor; [|constructor]. rewrite En. unfold entries. rewrite Eg. done.
    + rewrite Eall. done.
Qed.

Lemma md_tags_length V m : (length (md_tags target V m) <= length (all_entries V))%nat.
Proof.
  unfold md_tags, all_entries. induction V as [|vw V IH]; cbn; [lia|]. rewrite !length_app.
  destruct (full_md target (v_mask vw)); cbn; [|lia]. rewrite length_map. pose proof (filter_length_le (fun e => md_of target (e_val e) =? m) (entries vw)). lia.
Qed.

(** Metadata without a partition is required by no rule. *)
Lemma no_part_no_tags c V P m : tables_core target c V -> parts_rep target c V P -> (forall p, (p, m) ∉ P) -> md_tags target V m = [].
Proof.
  intros HT HP Hno. apply elem_of_nil_inv. intros tag Hin. apply elem_of_md_tags in Hin as (vw & e & Hv & Hf & He & Hm & _).
  pose proof (tr_views _ _ _ HT) as HV. rewrite Forall_forall in HV. destruct (HV vw Hv) as (t & _ & Hst).
  destruct (entry_at target c t vw Hst e He) as (r & Hr & _). pose proof (pr_rules _ _ _ _ HP vw e r Hv He Hr) as Hrp.
  unfold rule_part in Hrp. rewrite Hf in Hrp. destruct Hrp as (p & _ & Hp). rewrite Hm in Hp. apply (Hno p Hp).
Qed.

Lemma tag_u32 c V vw : tables_core target c V -> vw ∈ V -> exists t, subtable_at c !! v_addr vw = Some t /\ st_tag t = v_tag vw /\ in_u32 (v_tag vw) /\
  trie_plen t = Z.of_nat <$> v_plens vw /\ length (v_plens vw) = CLS_MAX_TRIES /\ st_n_rules t = v_n vw.
Proof.
  intros HT Hv. pose proof (tr_views _ _ _ HT) as HV. rewrite Forall_forall in HV. destruct (HV vw Hv) as (t & Ht & Hst).
  exists t. split; [done|]. split; [apply (sr_tag _ _ _ _ Hst)|]. split; [apply (sr_two_bits _ _ _ _ Hst)|].
  split; [apply (sr_plens _ _ _ _ Hst)|]. split; [apply (sr_n_plens _ _ _ _ Hst) | apply (sr_n_rules _ _ _ _ Hst)].
Qed.

(** The partition step of [classifier_replace]: [q] is the partition of the new rule. *)
Lemma partition_step c1 T P p s t r1 w v rule : parts_core c1 T P -> subtable_at c1 !! s = Some t -> in_u32 (st_tag t) ->
  mm_rep target (match_of r1) v w -> masked w v = v -> words_ok target v -> p ∉ fst <$> P ->
  (forall m, Z.of_nat (length (T m)) + 1 < 2 ^ 32) -> (forall m, (forall p, (p, m) ∉ P) -> T m = []) ->
  exists q h mp P', (let* metadata_mask := minimask_get_metadata_mask target (mm_mask (match_of r1)) in
      if metadata_mask =? OVS_BE64_MAX then
        let* metadata := miniflow_get_metadata target (mm_flow (match_of r1)) in
        let* (c, p) := create_partition c1 p s metadata in
        Ok (put_rule rule (with_partition (Some p) r1) c)
      else Ok (put_rule rule (with_partition None r1) c1)) = Ok (put_rule rule (with_partition q r1) (with_parts h mp c1)) /\
    parts_core (with_parts h mp c1) (fun m => (if full_md target w && (md_of target v =? m) then [st_tag t] else []) ++ T m) P' /\
    rule_part target P' w v q /\ (forall x, x ∈ P -> x ∈ P') /\ (forall x, x ∈ P' -> x ∈ P \/ fst x = p).
Proof.
  intros HP Ht Htag Hm Hz Hv Hp Hsmall Hnone. unfold minimask_get_metadata_mask. rewrite (mini_md target Htarget _ w (proj1 (proj2 Hm))). cbn [rbind].
  unfold rule_part, full_md. destruct (md_of target w =? OVS_BE64_MAX) eqn:Ef; cbn [andb].
  - rewrite (mini_md target Htarget _ v (mm_flow_rep target _ _ _ Hm Hz (wo_len _ _ Hv))). cbn [rbind].
    destruct (create_partition_spec c1 T P p s t (md_of target v) HP Ht Htag Hp (Hsmall _) (Hnone _)) as (q & P' & h & mp & -> & H1 & H2 & H3 & H4).
    cbn [rbind]. exists (Some q), h, mp, P'. split; [done|]. split; [|split; [exists q; done | done]].
    refine (parts_core_frame _ _ _ _ _ eq_refl eq_refl _ H1). intros m. unfold more_tags. rewrite Z.eqb_sym. destruct (_ =? m); done.
  - exists None, (partitions c1), (partition_at c1), P. assert (with_parts (partitions c1) (partition_at c1) c1 = c1) as -> by (destruct c1; done).
    split; [done|]. split; [done|]. split; [done|]. split; [done|]. intros x Hx. by left.
Qed.

(** The same change in the table of all rules. *)
Definition table_add (f : frule) (old : option nat) (T T' : list frule) : Prop :=
  match old with
  | None => T' ≡ₚ f :: T
  | Some o => exists rest, T ≡ₚ Mk_frule o (f_prio f) (f_val f) (f_mask f) :: rest /\ T' ≡ₚ f :: rest
  end.

Definition frule_of (w : list Z) (e : cls_entry) : frule := Mk_frule (e_addr e) (e_prio e) (e_val e) w.

Lemma table_perm V V' : V ≡ₚ V' -> table V ≡ₚ table V'.
Proof. apply concat_map_perm. Qed.

Lemma vrules_perm vw l : entries vw ≡ₚ l -> vrules vw ≡ₚ map (frule_of (v_mask vw)) l.
Proof. intros H. unfold vrules. apply (Permutation_map (frule_of (v_mask vw)) H). Qed.

Lemma entries_table e old V V' vw vw' W : V ≡ₚ vw :: W -> V' ≡ₚ vw' :: W -> v_mask vw' = v_mask vw ->
  entries_add e old (entries vw) (entries vw') -> table_add (frule_of (v_mask vw) e) old (table V) (table V').
Proof.
  intros HV HV' Em He. pose proof (table_perm _ _ HV) as HT. pose proof (table_perm _ _ HV') as HT'. unfold table in HT, HT'.
  cbn [map concat] in HT, HT'. unfold table_add. destruct old as [o|]; cbn in He.
  - destruct He as (rest & H1 & H2). exists (map (frule_of (v_mask vw)) rest ++ table W).
    split; [etransitivity; [exact HT|] | etransitivity; [exact HT'|]].
    + rewrite (vrules_perm vw _ H1). done.
    + rewrite (vrules_perm vw' _ H2), Em. done.
  - etransitivity; [exact HT'|]. etransitivity; [|apply Permutation_cons; [reflexivity | symmetry; exact HT]].
    rewrite (vrules_perm vw' _ He), Em. cbn. done.
Qed.

Lemma entries_all e old V V' vw vw' W : V ≡ₚ vw :: W -> V' ≡ₚ vw' :: W ->
  entries_add e old (entries vw) (entries vw') -> entries_add e old (all_entries V) (all_entries V').
Proof.
  intros HV HV' He. pose proof (all_entries_perm _ _ HV) as HT. pose proof (all_entries_perm _ _ HV') as HT'.
  rewrite all_entries_cons in HT, HT'. destruct old as [o|]; cbn in He |- *.
  - destruct He as (rest & H1 & H2). exists (rest ++ all_entries W). rewrite HT, HT', H1, H2. done.
  - rewrite HT, HT', He. done.
Qed.

(** A view with given entries. *)
Definition view_of (vw : view) (l : list cls_entry) : view :=
  set_groups (map (fun e => Mk_group (e_val e) [(e_addr e, e_prio e)]) l) vw.

Lemma entries_view_of vw l : entries (view_of vw l) = l.
Proof. unfold entries. cbn. induction l as [|[a p v] l IH]; cbn in *; [done|]. rewrite IH. done. Qed.

(** A rule replaced by one with the same words changes neither the tags nor the
    prefixes. *)
Lemma replaced_same e o V V' vw vw' W : V ≡ₚ vw :: W -> V' ≡ₚ vw' :: W -> same_shape vw vw' ->
  entries_add e (Some o) (entries vw) (entries vw') ->
  (forall m, md_tags target V m ≡ₚ md_tags target V' m) /\ (forall i ct, trie_rep target V i ct -> trie_rep target V' i ct).
Proof.
  intros HV HV' Hs (rest & H1 & H2). set (u := view_of vw rest). set (eo := Mk_entry o (e_prio e) (e_val e)) in *.
  assert (one_more eo (u :: W) V u vw W) as Hom1 by (split; [done | done | done | unfold u; rewrite entries_view_of; done]).
  assert (one_more e (u :: W) V' u vw' W) as Hom2 by (split; [done | done | done | unfold u; rewrite entries_view_of; done]).
  split.
  - intros m. etransitivity; [apply (md_tags_more _ _ _ _ _ _ m Hom1)|]. symmetry. apply (md_tags_more _ _ _ _ _ _ m Hom2).
  - intros i ct (mf & o' & k & G1 & G2 & G3 & G4 & G5). exists mf, o', k. split; [done|]. split; [done|].
    split; [apply (plens_more _ _ _ _ _ _ _ _ Hom2), (plens_more _ _ _ _ _ _ _ _ Hom1); done|]. split; [done|].
    rewrite G5. etransitivity; [apply (prefixes_more _ _ _ _ _ _ i o' Hom1)|]. symmetry. apply (prefixes_more _ _ _ _ _ _ i o' Hom2).
Qed.

(** The partitions of the rules, after a rule was added. *)
Lemma rules_parts c c' V V' vw vw' W e old rule r2 P P' : parts_rep target c V P -> V ≡ₚ vw :: W -> V' ≡ₚ vw' :: W ->
  v_mask vw' = v_mask vw -> entries_add e old (entries vw) (entries vw') -> e_addr e = rule -> rule ∉ e_addr <$> all_entries V ->
  rule_at c' !! rule = Some r2 -> (forall a, a <> rule -> rule_at c' !! a = rule_at c !! a) ->
  rule_part target P' (v_mask vw) (e_val e) (partition r2) -> (forall x, x ∈ P -> x ∈ P') ->
  forall v x r, v ∈ V' -> x ∈ entries v -> rule_at c' !! e_addr x = Some r -> rule_part target P' (v_mask v) (e_val x) (partition r).
Proof.
  intros HP HV HV' Em He Ea Hfresh Hr2 Hother Hpart Hsub v x r Hv Hx Hr.
  assert (forall v0, v0 ∈ V -> x ∈ entries v0 -> v_mask v0 = v_mask v -> rule_part target P' (v_mask v) (e_val x) (partition r)) as Hold.
  { intros v0 Hv0 Hx0 E. rewrite Hother in Hr.
    - pose proof (pr_rules _ _ _ _ HP v0 x r Hv0 Hx0 Hr) as Hrp. unfold rule_part in *. rewrite E in Hrp.
      destruct (full_md target (v_mask v)); [|done]. destruct Hrp as (p & E1 & E2). exists p. auto.
    - intros E2. apply Hfresh. rewrite <- E2. apply list_elem_of_fmap_2. apply elem_of_all_entries. eauto. }
  rewrite HV' in Hv. apply elem_of_cons in Hv as [->|Hv]; [|apply (Hold v); [rewrite HV; right; done | done | done]].
  destruct (entries_add_in _ _ _ _ _ He Hx) as [->|Hx']; [|apply (Hold vw); [rewrite HV; left | done | done]].
  rewrite Em. rewrite Ea, Hr2 in Hr. injection Hr as <-. done.
Qed.

(** What [classifier_replace] promises. *)
Record replaced (c c' : classifier) (V V' : list view) (P P' : list (nat * Z)) (s p rule : nat) (r : cls_rule) (f : frule)
    (old : option nat) : Prop := {
  re_rep : cls_rep target c' V' P';
  re_table : table_add f old (table V) (table V');
  re_rules : exists r', rule_at c' = <[rule := r']> (rule_at c) /\ match_of r' = match_of r /\ priority r' = priority r;
  re_subtables : forall x, x ∈ v_addr <$> V' -> x ∈ v_addr <$> V \/ x = s;
  re_parts : forall x, x ∈ fst <$> P' -> x ∈ fst <$> P \/ x = p;
  re_fields : same_fields c c'
}.

Lemma rule_mask_rep R a r w e : rule_in target R a r w e -> mask_rep target (mm_mask (match_of r)) w.
Proof. intros (_ & (_ & H1 & H2 & _) & _). done. Qed.

Section Replace.
Context (c : classifier) (A B : list view) (vw : view) (P : list (nat * Z)) (p rule : nat) (r : cls_rule) (e : cls_entry).
Abbreviation V := (A ++ vw :: B).
Context (HC : cls_rep target c V P) (Hr : rule_in target (rule_at c) rule r (v_mask vw) e).
Context (Hfresh : rule ∉ e_addr <$> all_entries V) (Hp : p ∉ fst <$> P) (Hsmall : Z.of_nat (length (all_entries V)) + 1 < 2 ^ 31).
Context (c1 : classifier) (vw1 : view) (V1 : list view) (old : option nat) (Hin : inserted target c c1 V1 vw vw1 A B rule r e old).

Lemma views_before : V ≡ₚ vw :: A ++ B.
Proof. apply middle. Qed.

(** The rule as [insert_rule] leaves it. *)
Lemma rule_after : exists r1, rule_at c1 !! rule = Some r1 /\ rule_at c1 = <[rule := r1]> (rule_at c) /\ match_of r1 = match_of r /\
  partition r1 = partition r /\ priority r1 = priority r.
Proof.
  destruct (in_rules _ _ _ _ _ _ _ _ _ _ _ _ Hin) as (r1 & E & H). exists r1. rewrite E, lookup_insert_eq. done.
Qed.

Lemma entries_after : entries_add e old (all_entries V) (all_entries V1).
Proof. apply (entries_all e old V V1 vw vw1 (A ++ B) views_before (in_perm _ _ _ _ _ _ _ _ _ _ _ _ Hin) (in_entries _ _ _ _ _ _ _ _ _ _ _ _ Hin)). Qed.

(** With a displaced rule. *)
Lemma replace_displaced s o r1 ro : old = Some o -> rule_at c1 !! rule = Some r1 -> rule_at c1 !! o = Some ro ->
  replaced c (put_rule rule (with_partition (partition ro) r1) c1) V V1 P P s p rule r (frule_of (v_mask vw) e) (Some o).
Proof.
  intros Eold Hr1 Hro. pose proof Hin as [Hperm HT Hfr Hshape Hn (r1' & Er1 & Em1 & Ep1 & Eq1) Hent].
  pose proof HC as [HT0 HP0 Htr0 Hn0 Hcnt0 _]. pose proof entries_after as Hall. rewrite Eold in Hent, Hall. cbn in Hall.
  destruct (replaced_same e o V V1 vw vw1 (A ++ B) views_before Hperm Hshape Hent) as [Htags Htries].
  assert (r1' = r1) as -> by (rewrite Er1, lookup_insert_eq in Hr1; congruence).
  pose proof Hent as (rest & Hs1 & Hs2). set (eo := Mk_entry o (e_prio e) (e_val e)) in *.
  assert (vw ∈ V) as Hvw by (apply elem_of_app; right; left).
  assert (eo ∈ entries vw) as Heo by (rewrite Hs1; left).
  assert (o <> rule) as Hne.
  { intros ->. apply Hfresh. apply (list_elem_of_fmap_2' e_addr _ eo); [|done]. apply elem_of_all_entries. eauto. }
  destruct Hall as (rest2 & Ha1 & Ha2).
  assert (length (all_entries V1) = length (all_entries V)) as Hlen by (rewrite Ha1, Ha2; done).
  split.
  - split.
    + apply tables_rep_partition; done.
    + split; [apply (parts_core_frame c _ (md_tags target V)); [apply (fr_parts _ _ Hfr) | apply (fr_part_at _ _ Hfr) | exact Htags | apply HP0]|].
      apply (rules_parts c _ V V1 vw vw1 (A ++ B) e (Some o) rule (with_partition (partition ro) r1) P P HP0 views_before Hperm); try done.
      * apply Hshape.
      * apply Hr.
      * cbn. apply lookup_insert_eq.
      * intros a Ha. cbn. rewrite Er1, !lookup_insert_ne by congruence. done.
      * cbn [partition with_partition]. apply (pr_rules _ _ _ _ HP0 vw eo ro Hvw Heo). cbn. rewrite Er1, lookup_insert_ne in Hro by congruence. done.
    + apply (tries_rep_frame c _ V V1); [apply (fr_tries _ _ Hfr) | apply (fr_n_tries _ _ Hfr) | exact Htries | done].
    + cbn. rewrite (fr_n_rules _ _ Hfr), Hn0, Hlen. done.
    + rewrite Hperm. rewrite views_before in Hcnt0. inversion_clear Hcnt0 as [|? ? Hc1 Hc2]. constructor; [|done].
      rewrite Hn, Hc1, Hs1, Hs2. done.
    + lia.
  - apply (entries_table e (Some o) V V1 vw vw1 (A ++ B) views_before Hperm); [apply Hshape | done].
  - exists (with_partition (partition ro) r1). cbn. rewrite Er1, insert_insert_eq. done.
  - intros x Hx. left. rewrite Hperm in Hx. rewrite views_before. cbn in *. rewrite (proj1 Hshape) in Hx. done.
  - intros x Hx. by left.
  - split; cbn; [apply (fr_n_tries _ _ Hfr) | rewrite (fr_tries _ _ Hfr); done].
Qed.

Lemma replace_new s : old = None -> exists r1 c' V' P', rule_at c1 !! rule = Some r1 /\
  (let* metadata_mask := minimask_get_metadata_mask target (mm_mask (match_of r1)) in
   let* c :=
     if metadata_mask =? OVS_BE64_MAX then
       let* metadata := miniflow_get_metadata target (mm_flow (match_of r1)) in
       let* (c, p) := create_partition c1 p (v_addr vw) metadata in
       Ok (put_rule rule (with_partition (Some p) r1) c)
     else Ok (put_rule rule (with_partition None r1) c1) in
   let* t := load (subtable_at c) (v_addr vw) in
   let c := put_subtable (v_addr vw) (with_n_rules (s32 (st_n_rules t + 1)) t) c in
   let c := set_n_rules (s32 (n_rules c + 1)) c in
   let* l := on_tries (trie_insert target) r1 (n_tries c) (tries c) (trie_plen t) in
   Ok (set_tries l c, None)) = Ok (c', @None nat) /\
  replaced c c' V V' P P' s p rule r (frule_of (v_mask vw) e) None.
Proof.
  intros Eold. pose proof Hin as [Hperm HT Hfr Hshape Hn (r1 & Er1 & Em1 & Ep1 & Eq1) Hent].
  pose proof HC as [HT0 HP0 Htr0 Hn0 Hcnt0 _]. pose proof entries_after as Hall. rewrite Eold in Hent, Hall. cbn in Hent, Hall.
  assert (rule_at c1 !! rule = Some r1) as Hr1 by (rewrite Er1; apply lookup_insert_eq).
  destruct Hr as (_ & Hm & _ & Hea & Hv & Hz & _). rewrite <- Em1 in Hm.
  assert (vw1 ∈ V1) as Hvw1 by (rewrite Hperm; left). destruct Hshape as (Ea & Em & Eo & Epl & Et) eqn:EH. clear EH.
  destruct (tag_u32 c1 V1 vw1 HT Hvw1) as (t & Ht & Htag & Htagu & Hplens & Hnplens & Hst). rewrite Ea in Ht. rewrite <- Htag in Htagu.
  assert (parts_core c1 (md_tags target V) P) as HPc.
  { apply (parts_core_frame c _ (md_tags target V)); [apply (fr_parts _ _ Hfr) | apply (fr_part_at _ _ Hfr) | done | apply HP0]. }
  destruct (partition_step c1 (md_tags target V) P p (v_addr vw) t r1 (v_mask vw) (e_val e) rule HPc Ht Htagu Hm Hz Hv Hp) as
    (q & h & mp & P' & E & HP' & Hpart & Hsub & Hsup).
  { intros m. pose proof (md_tags_length V m). lia. }
  { intros m. apply (no_part_no_tags c V P m HT0 HP0). }
  set (c2 := put_rule rule (with_partition q r1) (with_parts h mp c1)) in *.
  assert (tables_rep target c2 V1) as HT2.
  { apply tables_rep_partition; [done|]. apply (tables_rep_frame c1); done. }
  assert (subtable_at c2 !! v_addr vw1 = Some t) as Ht2 by (rewrite Ea; exact Ht).
  destruct (tables_rep_n c2 V1 vw1 (A ++ B) t (v_n vw1 + 1) HT2 Hperm Ht2) as (V2 & HV2 & HT3).
  assert (length (all_entries V1) = S (length (all_entries V))) as Hlen by (rewrite Hall; done).
  rewrite views_before in Hcnt0. inversion_clear Hcnt0 as [|? ? Hc1 Hc2].
  assert (length (entries vw) <= length (all_entries V))%nat as Hle.
  { rewrite (all_entries_perm _ _ views_before), all_entries_cons, length_app. lia. }
  assert (one_more e V V2 vw (set_n (v_n vw1 + 1) vw1) (A ++ B)) as Hom.
  { split; [apply views_before | exact HV2 | done | exact Hent]. }
  set (c3 := put_subtable (v_addr vw) (with_n_rules (v_n vw1 + 1) t) c2).
  destruct (on_tries_spec (trie_insert target) r1 (trie_rep target V) (trie_rep target V2) vw) with (n := n_tries c) (l := tries c) (ps := v_plens vw1) (j := 0%nat) as (l' & El & Hll & Hl').
  { intros i ct Hct Hne. apply (trie_insert_rep e V V2 vw _ _ i ct r1 Hom Hct Hne Hm Hz Hv). lia. }
  { intros i ct Hct Hne. apply (trie_rep_skip _ _ _ _ _ _ i ct Hom Hne). done. }
  { rewrite (tt_len _ _ _ Htr0). apply (tt_n _ _ _ Htr0). }
  { rewrite Hnplens. apply (tt_n _ _ _ Htr0). }
  { apply (tt_tries _ _ _ Htr0). }
  { intros i x Hi. unfold plen. cbn. rewrite <- Epl, nth_lookup, Hi. done. }
  exists r1, (set_tries l' (set_n_rules (n_rules c + 1) c3)), V2, P'. split; [done|]. split.
  - rewrite <- rbind_assoc, E. cbn [rbind]. change (subtable_at c2) with (subtable_at c1). rewrite (load_some _ _ _ Ht). cbn [rbind]. cbv zeta.
    rewrite Hst, Hn, Hc1, (s32_small (Z.of_nat (length (entries vw)) + 1)) by lia. change (n_rules (put_subtable _ _ c2)) with (n_rules c1). rewrite (fr_n_rules _ _ Hfr), Hn0, s32_small by lia.
    change (n_tries (set_n_rules _ _)) with (n_tries c1). change (tries (set_n_rules _ _)) with (tries c1).
    rewrite (fr_tries _ _ Hfr), (fr_n_tries _ _ Hfr). change (trie_plen t) with (trie_plen t). rewrite Hplens, El. cbn [rbind].
    unfold c3. rewrite Hn, Hc1. done.
  - assert (rule_at c3 = <[rule := with_partition q r1]> (rule_at c)) as Er3 by (cbn; rewrite Er1, insert_insert_eq; done).
    split.
    + split.
      * apply (tables_rep_frame c3); try done. unfold c3. rewrite <- Ea. exact HT3.
      * split.
        -- refine (parts_core_frame (with_parts h mp c1) (set_tries l' (set_n_rules (n_rules c + 1) c3)) _ _ P' eq_refl eq_refl _ HP'). intros m. rewrite Htag, Et. symmetry.
           apply (md_tags_more _ _ _ _ _ _ m Hom).
        -- apply (rules_parts c _ V V2 vw (set_n (v_n vw1 + 1) vw1) (A ++ B) e None rule (with_partition q r1) P P' HP0 views_before HV2); try done.
           ++ cbn. rewrite Er1, insert_insert_eq. apply lookup_insert_eq.
           ++ intros a Ha. cbn. rewrite Er1, !lookup_insert_ne by congruence. done.
      * split; cbn.
        -- rewrite Hll. apply (tt_len _ _ _ Htr0).
        -- rewrite (fr_n_tries _ _ Hfr). apply (tt_n _ _ _ Htr0).
        -- rewrite (fr_n_tries _ _ Hfr). apply Hl'.
      * cbn. rewrite (all_entries_more _ _ _ _ _ _ Hom). cbn [length]. lia.
      * rewrite HV2. constructor; [|done]. cbn. rewrite Hn, Hc1. change (entries (set_n _ vw1)) with (entries vw1). rewrite Hent. cbn [length]. lia.
      * rewrite (all_entries_more _ _ _ _ _ _ Hom). cbn [length]. lia.
    + apply (entries_table e None V V2 vw (set_n (v_n vw1 + 1) vw1) (A ++ B) views_before HV2); done.
    + exists (with_partition q r1). cbn in Er3 |- *. done.
    + intros x Hx. left. rewrite HV2 in Hx. rewrite views_before. cbn in *. rewrite Ea in Hx. done.
    + intros x Hx. apply list_elem_of_fmap in Hx as (y & -> & Hy). destruct (Hsup y Hy) as [Hy'|Hy']; [left; apply list_elem_of_fmap_2; done | by right].
    + split; cbn; [apply (fr_n_tries _ _ Hfr) | apply (trie_op_field _ _ (or_introl eq_refl) _ _ _ _ El)].
Qed.

End Replace.

Lemma table_snoc_empty V vw : v_groups vw = [] -> table (V ++ [vw]) = table V.
Proof. intros E. unfold table, vrules, entries. rewrite map_app, concat_app. cbn. rewrite E. cbn. rewrite app_nil_r. done. Qed.

Lemma classifier_replace_rep c V P s p rule r w e : cls_rep target c V P -> rule_in target (rule_at c) rule r w e ->
  s ∉ v_addr <$> V -> p ∉ fst <$> P -> rule ∉ e_addr <$> all_entries V -> Z.of_nat (length (all_entries V)) + 1 < 2 ^ 31 ->
  exists c' old V' P', classifier_replace target c s p rule = Ok (c', old) /\
    replaced c c' V V' P P' s p rule r (frule_of w e) old.
Proof.
  intros HC Hr Hs Hp Hfresh Hsmall. pose proof (rule_mask_rep _ _ _ _ _ Hr) as Hm. unfold classifier_replace.
  rewrite (load_some _ _ _ (proj1 Hr)). cbn [rbind]. rewrite <- rbind_assoc.
  destruct (find_or_insert c V P (mm_mask (match_of r)) w s HC Hm Hs) as (c0 & A & vw & B & -> & HC0 & Hw & Hrules0 & [Hf1 Hf2] & HV). cbn [rbind].
  assert (all_entries (A ++ vw :: B) = all_entries V /\ table (A ++ vw :: B) = table V) as [Eall Etab].
  { destruct HV as [-> | (-> & -> & Hg & _)]; [done|]. split; [apply all_entries_snoc_empty | apply table_snoc_empty]; done. }
  subst w. rewrite <- Hrules0 in Hr. rewrite <- Eall in Hfresh, Hsmall.
  assert (length (entries vw) <= length (all_entries (A ++ vw :: B)))%nat as Hle.
  { rewrite (all_entries_perm _ _ (middle A B vw)), all_entries_cons, length_app. lia. }
  destruct (insert_rule_spec target Htarget c0 A vw B rule r e (cr_tables _ _ _ _ HC0) Hr Hfresh) as (c1 & old & vw1 & V1 & -> & Hin); [lia|].
  cbn [rbind].
  (* back to the state before *)
  assert (forall c' V' P' o, replaced c0 c' (A ++ vw :: B) V' P P' s p rule r (frule_of (v_mask vw) e) o ->
    replaced c c' V V' P P' s p rule r (frule_of (v_mask vw) e) o) as Hback.
  { intros c' V' P' o [H1 H2 H3 H4 H5 [H6 H7]]. split; [done | rewrite <- Etab; done | rewrite <- Hrules0; done | | done | split; congruence].
    intros x Hx. destruct (H4 x Hx) as [Hx'|Hx']; [|by right]. destruct HV as [-> | (-> & -> & _ & Ea)]; [by left|].
    rewrite fmap_app in Hx'. apply elem_of_app in Hx' as [Hx'|Hx']; [by left|]. apply list_elem_of_singleton in Hx' as ->. by right. }
  destruct old as [o|].
  - destruct (rule_after c0 A B vw rule r e c1 vw1 V1 (Some o) Hin) as (r1 & Hr1 & Er1 & _).
    rewrite (load_some _ _ _ Hr1). cbn [rbind].
    assert (exists ro, rule_at c1 !! o = Some ro) as (ro & Hro).
    { destruct (in_entries _ _ _ _ _ _ _ _ _ _ _ _ Hin) as (rest & He & _).
      assert (Mk_entry o (e_prio e) (e_val e) ∈ entries vw) as Hin' by (rewrite He; left).
      pose proof (tr_views _ _ _ (cr_tables _ _ _ _ HC0)) as HVs. rewrite Forall_forall in HVs.
      destruct (HVs vw) as (t & _ & Hst); [apply elem_of_app; right; left|].
      destruct (entry_at target c0 t vw Hst _ Hin') as (ro & Hro & _). cbn in Hro. exists ro. rewrite Er1.
      rewrite lookup_insert_ne; [done|]. intros ->. apply Hfresh. apply (list_elem_of_fmap_2' e_addr _ (Mk_entry o (e_prio e) (e_val e))); [|done].
      apply elem_of_all_entries. exists vw. split; [apply elem_of_app; right; left | done]. }
    rewrite (load_some _ _ _ Hro). cbn [rbind]. eexists _, (Some o), V1, P. split; [done|]. apply Hback.
    apply (replace_displaced c0 A B vw P p rule r e HC0 Hr Hfresh Hsmall c1 vw1 V1 (Some o) Hin s o r1 ro); done.
  - destruct (replace_new c0 A B vw P p rule r e HC0 Hr Hfresh Hp Hsmall c1 vw1 V1 None Hin s eq_refl) as (r1 & c' & V' & P' & Hr1 & E & H).
    rewrite (load_some _ _ _ Hr1). cbn [rbind]. exists c', None, V', P'. split; [exact E|]. apply Hback. done.
Qed.

End Update.
