(* ===== verification/ClsRemove.v ===== *)
(** * The classifier: removal of rules

    [classifier_remove] takes a rule out of the list of the rules identical to it,
    of its subtable, its partition and the tries. *)

From Stdlib Require Import ZArith Lia List Bool Sorted.
From stdpp Require Import base option list_relations list sets gmap sorting.
From S2P Require Import Prelude Bytes Hash Csum Packets Bits Hmap Hindex Flow FlowFacts FlowCompose Miniflow MiniflowFacts MiniflowProps MatchSet MetaFlow Tag Trie TrieFacts Classifier ClsFacts ClsRep ClsLookup ClsTables ClsRules ClsParts ClsUpdate.
#[local] Open Scope Z_scope.
#[local] Open Scope res_scope.

#[local] Opaque one_bits for_each_1bit.

Lemma sorted_without {A} (R : A -> A -> Prop) l1 x l2 : StronglySorted R (l1 ++ x :: l2) -> StronglySorted R (l1 ++ l2).
Proof.
  induction l1 as [|y l1 IH]; cbn; intros H; inversion_clear H as [|? ? H1 H2]; [done|]. constructor; [apply IH; done|].
  rewrite Forall_app, Forall_cons in H2. apply Forall_app. tauto.
Qed.

Section Remove.
Variable target : abi.
Hypothesis Htarget : target = i686 \/ target = x86_64.

Abbreviation nw := (FLOW_U32S target).

Lemma addrs_of_group g : e_addr <$> g_entries g = fst <$> g_rules g.
Proof. unfold g_entries. rewrite <- list_fmap_compose. done. Qed.

(** ** The list of identical rules *)

Section Group.
Context (c : classifier) (t : cls_subtable) (vw : view).
Context (Hst : st_rep target (rule_at c) t vw).
Abbreviation w := (v_mask vw).

(** The group of a rule, and the others. *)
Lemma group_of e : e ∈ entries vw -> exists g rest l1 l2, v_groups vw ≡ₚ g :: rest /\ g_val g = e_val e /\
  g_rules g = l1 ++ (e_addr e, e_prio e) :: l2 /\ e_addr e ∉ fst <$> l1 /\ e_addr e ∉ fst <$> l2 /\
  e_addr e ∉ e_addr <$> entries (set_groups rest vw) /\ NoDup (e_addr <$> entries vw).
Proof.
  intros He. apply elem_of_entries in He as (g & Hg & Hap & Hv). apply elem_of_Permutation in Hg as [rest HG].
  apply list_elem_of_split in Hap as (l1 & l2 & Hl). exists g, rest, l1, l2.
  pose proof (sr_addrs _ _ _ _ Hst) as Hn. assert (entries vw ≡ₚ g_entries g ++ entries (set_groups rest vw)) as E.
  { rewrite <- (set_groups_same vw) at 1. rewrite (entries_perm _ _ vw HG). done. }
  assert (NoDup (e_addr <$> entries vw)) as Hn2 by done.
  rewrite E, fmap_app, addrs_of_group, Hl, fmap_app in Hn. cbn in Hn.
  rewrite <- Permutation_middle in Hn. cbn in Hn. apply NoDup_cons in Hn as [Hn _]. rewrite !not_elem_of_app in Hn.
  destruct Hn as [[H1 H2] H3]. done.
Qed.

(** The groups without a rule. *)
Lemma without_rule e g rest l1 l2 : v_groups vw ≡ₚ g :: rest -> g_val g = e_val e -> g_rules g = l1 ++ (e_addr e, e_prio e) :: l2 ->
  l1 ++ l2 <> [] ->
  let G' := Mk_group (g_val g) (l1 ++ l2) :: rest in
  Forall (group_ok target w) G' /\ NoDup (g_val <$> G') /\ entries vw ≡ₚ e :: entries (set_groups G' vw) /\
  heads_add (e_prio e) (heads (set_groups G' vw)) (heads vw).
Proof.
  intros HG Hv Hl Hne. cbv zeta. pose proof (sr_groups _ _ _ _ Hst) as Hgs. rewrite HG in Hgs. inversion_clear Hgs as [|? ? Hg Hrest].
  destruct Hg as [H1 H2 _ H4 H5]. rewrite Hl in H4, H5. split; [|split; [|split]].
  - constructor; [|done]. split; cbn; [done | done | done | apply (sorted_without _ _ _ _ H4) |].
    rewrite Forall_app, Forall_cons in H5. apply Forall_app. tauto.
  - pose proof (sr_vals _ _ _ _ Hst) as Hn. rewrite HG in Hn. exact Hn.
  - rewrite <- (set_groups_same vw) at 1. rewrite (entries_perm _ _ vw HG), !entries_cons. unfold g_entries. cbn. rewrite Hl, !map_app. cbn.
    rewrite Hv. rewrite <- Permutation_middle. destruct e. done.
  - assert (heads vw ≡ₚ snd (g_head g) :: heads (set_groups rest vw)) as Eh by (unfold heads; rewrite (Permutation_map _ HG); done).
    unfold heads_add. change (heads (set_groups (Mk_group (g_val g) (l1 ++ l2) :: rest) vw)) with
      (snd (g_head (Mk_group (g_val g) (l1 ++ l2))) :: heads (set_groups rest vw)). unfold g_head. cbn [g_rules].
    destruct l1 as [|[b q] l1]; cbn.
    + left. destruct l2 as [|[b q] l2]; [done|]. exists [q], (heads (set_groups rest vw)). cbn.
      split; [done|]. split; [|rewrite Eh; unfold g_head at 1; rewrite Hl; done]. constructor; [|constructor].
      inversion_clear H4 as [|? ? _ H]. inversion_clear H. done.
    + right. split; [rewrite Eh; unfold g_head at 1; rewrite Hl; done|]. exists q. split; [left|]. inversion_clear H4 as [|? ? _ H]. rewrite Forall_app in H. destruct H as [_ H].
      inversion_clear H. done.
Qed.

Lemma without_group e g rest : v_groups vw ≡ₚ g :: rest -> g_val g = e_val e -> g_rules g = [(e_addr e, e_prio e)] ->
  Forall (group_ok target w) rest /\ NoDup (g_val <$> rest) /\ entries vw ≡ₚ e :: entries (set_groups rest vw) /\
  heads_add (e_prio e) (heads (set_groups rest vw)) (heads vw).
Proof.
  intros HG Hv Hl. pose proof (sr_groups _ _ _ _ Hst) as Hgs. rewrite HG in Hgs. inversion_clear Hgs as [|? ? _ Hrest].
  split; [done|]. split; [|split].
  - pose proof (sr_vals _ _ _ _ Hst) as Hn. rewrite HG in Hn. cbn in Hn. apply NoDup_cons in Hn as [_ Hn]. done.
  - rewrite <- (set_groups_same vw) at 1. rewrite (entries_perm _ _ vw HG), entries_cons. unfold g_entries. rewrite Hl, Hv. cbn. destruct e. done.
  - left. exists [], (heads (set_groups rest vw)). split; [done|]. split; [constructor|].
    unfold heads. rewrite (Permutation_map _ HG). cbn. unfold g_head at 1. rewrite Hl. done.
Qed.

Lemma remove_group e : e ∈ entries vw -> exists g h' G', g ∈ v_groups vw /\ g_val g = e_val e /\
  (let others := List.filter (fun a => negb (bool_decide (a = e_addr e))) (fst <$> g_rules g) in
   if negb (bool_decide (fst (g_head g) = e_addr e)) then Ok (store_val (rules_of t) (fst (g_head g)) (fun _ => others))
   else match others with
     | [] => hmap_remove (rules_of t) (gnode target w g)
     | next :: _ => hmap_replace (rules_of t) (gnode target w g) (Mk_node next (val_hash target w (g_val g)) others)
     end) = Ok h' /\
  hmap_wf h' /\ hmap_nodes h' ≡ₚ gnode target w <$> G' /\ Forall (group_ok target w) G' /\ NoDup (g_val <$> G') /\
  entries vw ≡ₚ e :: entries (set_groups G' vw) /\ heads_add (e_prio e) (heads (set_groups G' vw)) (heads vw).
Proof.
  intros He. destruct (group_of e He) as (g & rest & l1 & l2 & HG & Hv & Hl & Hn1 & Hn2 & Hn3 & Hnd). exists g.
  pose proof (sr_wf _ _ _ _ Hst) as Hwf. pose proof (sr_nodes _ _ _ _ Hst) as Hn.
  assert (g ∈ v_groups vw) as Hg by (rewrite HG; left). cbv zeta.
  rewrite Hl, fmap_app. cbn [fmap list_fmap fst]. rewrite (filter_without _ _ _ Hn1 Hn2), <- fmap_app.
  destruct l1 as [|[b q] l1].
  - cbn [app] in *. rewrite bool_decide_eq_true_2 by (unfold g_head; rewrite Hl; done). cbn [negb].
    destruct l2 as [|[b q] l2]; cbn [fmap list_fmap fst].
    + assert (gnode target w g ∈ hmap_nodes (rules_of t)) as Hin by (rewrite Hn; apply list_elem_of_fmap_2; done).
      destruct (hmap_remove_spec _ _ Hwf Hin) as (h' & -> & Hwf' & Hn' & _). exists h', rest. split; [done|]. split; [done|]. split; [done|]. split; [done|].
      split; [|apply (without_group e g); done]. rewrite Hn, HG in Hn'. cbn in Hn'. apply Permutation_cons_inv in Hn'. done.
    + destruct (replace_group target (rules_of t) w (v_groups vw) g rest ((b, q) :: l2) (Mk_node b (val_hash target w (g_val g)) (b :: (fst <$> l2))) Hwf Hn HG)
        as (h' & -> & Hwf' & Hn'); [done | done | |].
      { cbn. intros Hin. apply list_elem_of_fmap in Hin as (g' & -> & Hg').
        rewrite <- (set_groups_same vw), (entries_perm _ _ vw HG), entries_cons, fmap_app, addrs_of_group, Hl in Hnd. cbn in Hnd.
        apply NoDup_cons in Hnd as [_ Hnd]. apply NoDup_cons in Hnd as [Hnd _]. apply Hnd. apply elem_of_app. right.
        pose proof (group_at target c t vw Hst g') as Hgo. rewrite HG in Hgo. specialize (Hgo ltac:(right; done)).
        pose proof (go_rules _ _ _ Hgo) as Hne. unfold g_head. destruct (g_rules g') as [|[a0 q0] l0] eqn:Eg; [done|]. cbn.
        apply (list_elem_of_fmap_2' e_addr _ (Mk_entry a0 q0 (g_val g'))); [|done]. apply (proj2 (elem_of_entries (set_groups rest vw) _)). exists g'. cbn. rewrite Eg.
        split; [done|]. split; [left | done]. }
      exists h', (Mk_group (g_val g) ((b, q) :: l2) :: rest). split; [done|]. split; [done|]. split; [done|]. split; [done|]. split; [done|].
      apply (without_rule e g rest [] ((b, q) :: l2)); done.
  - assert (b <> e_addr e) as Hb by (intros ->; apply Hn1; left).
    assert (g_head g = (b, q)) as Hh by (unfold g_head; rewrite Hl; done).
    rewrite bool_decide_eq_false_2 by (rewrite Hh; done). cbn [negb].
    destruct (store_group target (rules_of t) w (v_groups vw) g rest ((b, q) :: l1 ++ l2) Hwf Hn HG) as [Hwf' Hn'].
    { rewrite Hh. done. }
    eexists _, (Mk_group (g_val g) ((b, q) :: l1 ++ l2) :: rest). split; [done|]. split; [done|]. split; [done|]. split; [exact Hwf'|]. split; [exact Hn'|].
    apply (without_rule e g rest ((b, q) :: l1) l2); done.
Qed.

End Group.

Lemma st_rep_n R t vw n : st_rep target R t vw -> st_rep target R (with_n_rules n t) (set_n n vw).
Proof. intros []. split; done. Qed.

(** ** The subtable *)

(** The subtable destroyed, or its highest priority updated. *)
Definition shrunk (V1 V3 W : list view) (vw : view) : Prop :=
  V1 ≡ₚ vw :: W /\ (V3 ≡ₚ W /\ entries vw = [] \/ exists m n, V3 ≡ₚ set_max m n vw :: W).

Lemma shrink c A vw B p H n : tables_core target c (A ++ vw :: B) -> falling (A ++ vw :: B) -> Forall max_ok (A ++ B) ->
  max_of (v_max vw) (v_count vw) H -> heads_add p (heads vw) H -> Z.of_nat (length H) < 2 ^ 31 ->
  Z.of_nat (length (entries vw)) < 2 ^ 31 -> n = Z.of_nat (length (entries vw)) ->
  exists c' V', (if n =? 0 then destroy_subtable c (v_addr vw) else update_subtables_after_removal c (v_addr vw) p) = Ok c' /\
    tables_rep target c' V' /\ same_rest c c' /\ rule_at c' = rule_at c /\ shrunk (A ++ vw :: B) V' (A ++ B) vw.
Proof.
  intros HT Hf Hmax Hm Hadd HH He ->. destruct (Z.eqb_spec (Z.of_nat (length (entries vw))) 0) as [E|E].
  - assert (entries vw = []) as Hnil by (destruct (entries vw); [done | cbn in E; lia]).
    destruct (destroy_subtable_spec target c A vw B HT Hnil) as (c' & -> & HT' & Hfr & Hr). exists c', (A ++ B).
    split; [done|]. split; [|split; [done|]; split; [done|]; split; [apply middle | left; done]].
    split; [done | done |]. apply falling_app in Hf as (H1 & H2 & H3). apply falling_cons in H3 as [H3 H4]. apply falling_app.
    split; [|done]. intros a b Ha Hb. apply H1; [done | right; done].
  - assert (exists t, st_rep target (rule_at c) t vw) as (t & Hst).
    { pose proof (tr_views _ _ _ HT) as HV. rewrite Forall_forall in HV. destruct (HV vw) as (t & _ & Hst); [|eauto].
      apply elem_of_app. right. left. }
    destruct (update_after_removal_spec target c A vw B p H HT Hf Hmax Hm Hadd HH) as (c' & m & k & V' & -> & HV & HT' & Hfr & Hr).
    { pose proof (length_heads_le target c t vw Hst) as Hl. unfold heads in Hl. rewrite length_map in Hl. lia. }
    exists c', V'. split; [done|]. split; [done|]. split; [done|]. split; [done|]. split; [apply middle | right; eauto].
Qed.

Section Settled.
Context (V1 V3 W : list view) (vw : view) (HS : shrunk V1 V3 W vw).

Lemma settled_entries : all_entries V3 ≡ₚ all_entries V1.
Proof.
  destruct HS as [H1 [[H3 He]|(m & n & H3)]]; rewrite (all_entries_perm _ _ H1), (all_entries_perm _ _ H3), all_entries_cons; [rewrite He|]; done.
Qed.

Lemma settled_table : table V3 ≡ₚ table V1.
Proof.
  destruct HS as [H1 [[H3 He]|(m & n & H3)]]; rewrite (table_perm _ _ H1), (table_perm _ _ H3); [|done].
  unfold table. cbn. unfold vrules at 2. rewrite He. done.
Qed.

Lemma settled_tags m : md_tags target V1 m ≡ₚ md_tags target V3 m.
Proof.
  destruct HS as [H1 [[H3 He]|(p & n & H3)]]; rewrite (md_tags_perm target _ _ m H1), (md_tags_perm target _ _ m H3); [|done].
  unfold md_tags. cbn. rewrite He. cbn. destruct (full_md _ _); done.
Qed.

Lemma settled_tries i ct : trie_rep target V1 i ct -> trie_rep target V3 i ct.
Proof.
  destruct HS as [H1 [[H3 He]|(p & n & H3)]]; intros Ht; apply (trie_rep_perm target _ _ i ct H1) in Ht; symmetry in H3;
    apply (trie_rep_perm target _ _ i ct H3); destruct Ht as (mf & o & k & Hmf & Hf & Hp & Hwf & Hr); exists mf, o, k; inversion_clear Hp as [|? ? Hp1 Hp2];
    (split; [done|]; split; [done|]).
  - split; [done|]. split; [done|]. rewrite Hr. unfold prefixes. cbn. rewrite He. destruct (decide _); done.
  - split; [constructor; done|]. done.
Qed.

Lemma settled_counts : Forall (fun vw => v_n vw = Z.of_nat (length (entries vw))) V1 -> Forall (fun vw => v_n vw = Z.of_nat (length (entries vw))) V3.
Proof. destruct HS as [H1 [[H3 He]|(p & n & H3)]]; rewrite H1, H3; intros H; inversion_clear H; [done | constructor; done]. Qed.

Lemma settled_addrs x : x ∈ v_addr <$> V3 -> x ∈ v_addr <$> V1.
Proof. destruct HS as [H1 [[H3 He]|(p & n & H3)]]; rewrite H1, H3; intros H; [right|]; exact H. Qed.

Lemma settled_in v x : v ∈ V3 -> x ∈ entries v -> exists v0, v0 ∈ V1 /\ x ∈ entries v0 /\ v_mask v0 = v_mask v.
Proof.
  destruct HS as [H1 [[H3 He]|(p & n & H3)]]; rewrite H3; intros Hv Hx.
  - exists v. rewrite H1. split; [right; done | done].
  - apply elem_of_cons in Hv as [->|Hv]; [exists vw | exists v]; rewrite H1; (split; [|done]); [left | right; done].
Qed.

End Settled.

(** ** The partition *)

Lemma md_tags_in V v x : v ∈ V -> full_md target (v_mask v) = true -> x ∈ entries v -> v_tag v ∈ md_tags target V (md_of target (e_val x)).
Proof.
  intros Hv Hf Hx. unfold md_tags. apply list_elem_of_In, in_concat. eexists. split.
  - apply in_map_iff. exists v. split; [done|]. apply list_elem_of_In. done.
  - rewrite Hf. apply in_map_iff. exists x. split; [done|]. apply filter_In. split; [apply list_elem_of_In; done | apply Z.eqb_refl].
Qed.

Lemma md_tags_two_bits c V m : tables_core target c V -> Forall two_bits (md_tags target V m).
Proof.
  intros HT. apply Forall_forall. intros tag Hin. unfold md_tags in Hin. apply list_elem_of_In, in_concat in Hin as (l & Hl & Hin).
  apply in_map_iff in Hl as (v & <- & Hv). apply list_elem_of_In in Hv. pose proof (tr_views _ _ _ HT) as HV. rewrite Forall_forall in HV.
  destruct (HV v Hv) as (t & _ & Hst). destruct (full_md _ _); [|done]. apply in_map_iff in Hin as (? & <- & _). apply (sr_two_bits _ _ _ _ Hst).
Qed.

Lemma with_parts_same c : with_parts (partitions c) (partition_at c) c = c.
Proof. destruct c. done. Qed.

Lemma drop_step c V P V1 vw vw1 W e r : tables_core target c V -> parts_rep target c V P -> one_more e V1 V vw1 vw W ->
  rule_at c !! e_addr e = Some r ->
  exists h mp P', (match partition r with None => Ok c | Some p => drop_part c p (v_tag vw) end) = Ok (with_parts h mp c) /\
    parts_rep target (with_parts h mp c) V1 P' /\ (forall x, x ∈ P' -> x ∈ P).
Proof.
  intros HT HP Hom Hr. pose proof Hom as [HV1 HV (_ & Em & _ & _ & Et) He].
  assert (vw ∈ V) as Hvw by (rewrite HV; left). assert (e ∈ entries vw) as Hevw by (rewrite He; left).
  pose proof (pr_rules _ _ _ _ HP vw e r Hvw Hevw Hr) as Hpart. unfold rule_part in Hpart.
  pose proof (fun m => md_tags_more target e V1 V vw1 vw W m Hom) as Htags. rewrite <- Em in Htags.
  assert (forall v x, v ∈ V1 -> x ∈ entries v -> exists v0, v0 ∈ V /\ x ∈ entries v0 /\ v_mask v0 = v_mask v) as Hold.
  { intros v x. rewrite HV1. intros Hv Hx. apply elem_of_cons in Hv as [->|Hv]; [exists vw | exists v]; rewrite HV.
    - split; [left|]. split; [rewrite He; right; done | done].
    - split; [right; done | done]. }
  destruct (full_md target (v_mask vw)) eqn:Ef; cbn [andb] in Htags.
  - destruct Hpart as (p & -> & Hp). set (m := md_of target (e_val e)) in *.
    set (T' := fun m' : Z => if m' =? m then md_tags target V1 m else md_tags target V m').
    destruct (drop_part_spec c (md_tags target V) T' P p m (v_tag vw) HP Hp) as (h & mp & P' & E & HP' & Hsub & Hkeep).
    + unfold T'. rewrite Z.eqb_refl, (Htags m), Z.eqb_refl, Et. done.
    + intros m' Hm'. unfold T'. destruct (Z.eqb_spec m' m); done.
    + apply (md_tags_two_bits c). done.
    + assert (forall m', T' m' ≡ₚ md_tags target V1 m') as HT'.
      { intros m'. unfold T'. destruct (Z.eqb_spec m' m) as [->|Hne]; [done|]. rewrite (Htags m'). destruct (Z.eqb_spec m m'); [congruence | done]. }
      exists h, mp, P'. split; [done|]. split; [|done]. split; [apply (parts_core_frame (with_parts h mp c) _ T'); done|].
      intros v x r' Hv Hx Hr'. destruct (Hold v x Hv Hx) as (v0 & Hv0 & Hx0 & Em0). pose proof (pr_rules _ _ _ _ HP v0 x r' Hv0 Hx0 Hr') as H.
      rewrite Em0 in H. unfold rule_part in *. destruct (full_md target (v_mask v)) eqn:Ef'; [|done].
      destruct H as (p' & Ep' & Hp'). exists p'. split; [done|]. apply Hkeep; [done|]. intros Hnil. pose proof (md_tags_in V1 v x Hv Ef' Hx) as Hin.
      pose proof (HT' (md_of target (e_val x))) as Hq.
      rewrite Hnil in Hq. apply Permutation_nil in Hq. rewrite Hq in Hin. inversion Hin.
  - rewrite Hpart. exists (partitions c), (partition_at c), P. rewrite with_parts_same. split; [done|]. split; [|done].
    split; [apply (parts_core_frame c _ (md_tags target V)); [done | done | exact Htags | apply HP]|].
    intros v x r' Hv Hx Hr'. destruct (Hold v x Hv Hx) as (v0 & Hv0 & Hx0 & <-). apply (pr_rules _ _ _ _ HP v0 x r' Hv0 Hx0 Hr').
Qed.

(** ** The operation *)

Lemma group_inj (G : list cls_group) g g' : NoDup (g_val <$> G) -> g ∈ G -> g' ∈ G -> g_val g = g_val g' -> g = g'.
Proof.
  intros Hn Hg Hg' E. apply list_elem_of_lookup in Hg as [i Hi]. apply list_elem_of_lookup in Hg' as [j Hj].
  assert (i = j) as -> by (apply (NoDup_lookup _ i j (g_val g) Hn); rewrite list_lookup_fmap; [rewrite Hi | rewrite Hj]; cbn; congruence).
  congruence.
Qed.

Lemma rbind_step {A B} (m : Res A) (k : A -> Res B) x y : m = Ok x -> k x = y -> rbind m k = y.
Proof. intros ->. done. Qed.

(** The tries are for fields of at most three words. *)
Definition short_fields (c : classifier) : Prop :=
  Forall (fun field => match field with Some mf => n_bytes mf < 16 | None => True end) (trie_field <$> tries c).

(** What [classifier_remove] promises. *)
Record taken_out (c c' : classifier) (V V' : list view) (P P' : list (nat * Z)) (f : frule) : Prop := {
  to_rep : cls_rep target c' V' P';
  to_table : table V ≡ₚ f :: table V';
  to_rules : rule_at c' = rule_at c;
  to_subtables : forall x, x ∈ v_addr <$> V' -> x ∈ v_addr <$> V;
  to_parts : forall x, x ∈ fst <$> P' -> x ∈ fst <$> P;
  to_fields : same_fields c c'
}.

Section Classifier.
Context (c : classifier) (A B : list view) (vw : view) (P : list (nat * Z)) (e : cls_entry) (t : cls_subtable) (r : cls_rule).
Abbreviation V := (A ++ vw :: B).
Context (HC : cls_rep target c V P) (He : e ∈ entries vw) (Ht : subtable_at c !! v_addr vw = Some t) (Hst : st_rep target (rule_at c) t vw).
Context (Hr : rule_at c !! e_addr e = Some r) (Hm : mm_rep target (match_of r) (e_val e) (v_mask vw)).
Context (Hshort : short_fields c).

(** The subtable without the rule. *)
Context (h' : hmap (list nat)) (G' : list cls_group) (l1 : list (Z * rule_index)).
Context (Hwf : hmap_wf h') (Hn : hmap_nodes h' ≡ₚ gnode target (v_mask vw) <$> G') (HG : Forall (group_ok target (v_mask vw)) G').
Context (Hvals : NoDup (g_val <$> G')) (Hent : entries vw ≡ₚ e :: entries (set_groups G' vw)).
Context (Hheads : heads_add (e_prio e) (heads (set_groups G' vw)) (heads vw)).
Context (Hl1 : Forall2 (index_ok target (v_mask vw) (entries (set_groups G' vw))) (v_ofs vw) l1).

Abbreviation vw1 := (set_n (v_n vw - 1) (set_groups G' vw)).
Abbreviation V1 := (A ++ vw1 :: B).
Abbreviation t1 := (with_n_rules (v_n vw - 1) (with_rules h' (with_indices l1 t))).

Lemma one_less : one_more e V1 V vw1 vw (A ++ B).
Proof. split; [apply middle | apply middle | done | exact Hent]. Qed.

Lemma count_before : v_n vw = Z.of_nat (length (entries vw)) /\ length (entries vw) = S (length (entries vw1)) /\
  (length (entries vw) <= length (all_entries V))%nat /\ Z.of_nat (length (all_entries V)) < 2 ^ 31.
Proof.
  pose proof (cr_counts _ _ _ _ HC) as H. rewrite middle in H. inversion_clear H as [|? ? H1 _].
  split; [done|]. split; [rewrite Hent; done|]. split; [|apply (cr_small _ _ _ _ HC)].
  rewrite (all_entries_perm _ _ (middle A B vw)), all_entries_cons, length_app. lia.
Qed.

Lemma tables_without c2 : subtables c2 = subtables c -> subtable_at c2 = <[v_addr vw := t1]> (subtable_at c) -> flow_segments c2 = flow_segments c ->
  subtables_priority c2 = subtables_priority c -> rule_at c2 = rule_at c -> tables_core target c2 V1.
Proof.
  intros E1 E2 E3 E4 E5. pose proof (cr_tables _ _ _ _ HC) as [HT _ _].
  apply (tables_core_replace target c c2 A vw B V1 t1 vw1 HT E1 E2 E3); [|apply middle | done | done | | intros; rewrite E5; done |].
  - rewrite E4, (tr_order _ _ _ HT), !fmap_app. done.
  - apply st_rep_n. apply (st_rep_groups target (rule_at c) (rule_at c2) t vw G' h' l1 Hst Hwf Hn HG Hvals); [| |done].
    + pose proof (sr_addrs _ _ _ _ Hst) as Hnd. rewrite Hent in Hnd. cbn in Hnd. apply NoDup_cons in Hnd as [_ Hnd]. done.
    + rewrite E5. pose proof (sr_rules _ _ _ _ Hst) as HR. rewrite Hent in HR. inversion_clear HR. done.
  - pose proof (tr_addrs _ _ _ HT) as Hnd. rewrite (all_entries_more _ _ _ _ _ _ one_less) in Hnd. cbn in Hnd. apply NoDup_cons in Hnd as [_ Hnd]. done.
Qed.

Lemma tries_without : exists l', on_tries (trie_remove target) r (n_tries c) (tries c) (trie_plen t) = Ok l' /\ length l' = CLS_MAX_TRIES /\
  trie_field <$> l' = trie_field <$> tries c /\
  forall i ct, (i < n_tries c)%nat -> l' !! i = Some ct -> trie_rep target V1 i ct.
Proof.
  pose proof (cr_tries _ _ _ _ HC) as Htr. apply elem_of_entries in He as (g & Hg & _ & Ev).
  pose proof (group_at target c t vw Hst g Hg) as [Hw Hz _ _ _]. rewrite <- Ev in Hw, Hz. rewrite (sr_plens _ _ _ _ Hst).
  destruct (on_tries_spec (trie_remove target) r (fun i ct => trie_rep target V i ct /\ match trie_field ct with Some mf => n_bytes mf < 16 | None => True end)
    (trie_rep target V1) vw) with (n := n_tries c) (l := tries c) (ps := v_plens vw) (j := 0%nat) as (l' & El & Hll & Hl').
  - intros i ct [Hct Hsf] Hne. apply (trie_remove_rep target Htarget e V1 V vw1 vw _ i ct r one_less Hct Hne Hm Hz Hw).
    destruct Hct as (mf & o & k & Hmf & Hf & Hp & _). rewrite Hmf in Hsf. cbn in Hsf. pose proof Hf as (_ & Hk & _). rewrite middle in Hp. inversion_clear Hp as [|? ? Hpv _].
    destruct (rule_prefix target Htarget _ _ _ _ _ _ _ Hm Hz Hw Hf Hpv Hne) as (_ & Hle & _). change (plen i vw1) with (plen i vw). lia.
  - intros i ct [Hct _] Hne. apply (trie_rep_skip target _ _ _ _ _ _ i ct one_less); done.
  - rewrite (tt_len _ _ _ Htr). apply (tt_n _ _ _ Htr).
  - rewrite (sr_n_plens _ _ _ _ Hst). apply (tt_n _ _ _ Htr).
  - intros i ct Hi Hct. split; [apply (tt_tries _ _ _ Htr); done|]. unfold short_fields in Hshort. rewrite Forall_fmap, Forall_lookup in Hshort. apply (Hshort i ct Hct).
  - intros i x Hi. unfold plen. cbn. rewrite nth_lookup, Hi. done.
  - exists l'. rewrite Hll, (tt_len _ _ _ Htr). split; [done|]. split; [done|]. split; [apply (trie_op_field target _ _ (or_intror eq_refl) _ _ _ _ El) | done].
Qed.

Lemma finish_removal l' h mp P' : length l' = CLS_MAX_TRIES -> trie_field <$> l' = trie_field <$> tries c ->
  (forall i ct, (i < n_tries c)%nat -> l' !! i = Some ct -> trie_rep target V1 i ct) ->
  parts_rep target (with_parts h mp (set_tries l' c)) V1 P' -> (forall x, x ∈ P' -> x ∈ P) ->
  let c2 := put_subtable (v_addr vw) t1 (with_parts h mp (set_tries l' c)) in
  exists c3 V', (if v_n vw - 1 =? 0 then destroy_subtable c2 (v_addr vw) else update_subtables_after_removal c2 (v_addr vw) (e_prio e)) = Ok c3 /\
    taken_out c (set_n_rules (s32 (n_rules c3 - 1)) c3) V V' P P' (frule_of (v_mask vw) e).
Proof.
  intros Hll Hlf Hl' HP' Hsub c2. pose proof HC as [[HT Hmax Hf] HP Htr Hnr Hcnt Hsmall]. pose proof count_before as (Hvn & Hlen & Hle & _).
  pose proof (tables_without c2 eq_refl eq_refl eq_refl eq_refl eq_refl) as HT2. rewrite middle in Hmax. inversion_clear Hmax as [|? ? Hmaxvw HmaxAB].
  pose proof (length_heads_le target c t vw Hst) as Hhl.
  destruct (shrink c2 A vw1 B (e_prio e) (heads vw) (v_n vw - 1) HT2) as (c3 & V' & E & HT3 & Hfr & Hrules & HS); try done; [| lia | lia | lia |].
  { apply (falling_swap A vw); done. }
  exists c3, V'. split; [exact E|]. assert (all_entries V ≡ₚ e :: all_entries V') as Hall.
  { rewrite (settled_entries _ _ _ _ HS). apply (all_entries_more _ _ _ _ _ _ one_less). }
  assert (n_rules c3 = n_rules c) as Hn3 by (rewrite (fr_n_rules _ _ Hfr); done).
  rewrite Hall in Hnr, Hsmall. cbn [length] in Hnr, Hsmall. rewrite Hn3, Hnr, s32_small by lia. split.
  - split.
    + apply (tables_rep_frame target c3); done.
    + split.
      * apply (parts_core_frame (with_parts h mp (set_tries l' c)) _ (md_tags target V1)); [apply (fr_parts _ _ Hfr) | apply (fr_part_at _ _ Hfr) | | apply HP'].
        apply (settled_tags _ _ _ _ HS).
      * intros v x r' Hv Hx Hr'. destruct (settled_in _ _ _ _ HS v x Hv Hx) as (v0 & Hv0 & Hx0 & <-).
        apply (pr_rules _ _ _ _ HP' v0 x r' Hv0 Hx0). rewrite <- Hr'. cbn. rewrite Hrules. done.
    + assert (tries c3 = l' /\ n_tries c3 = n_tries c) as [Et En] by (rewrite (fr_tries _ _ Hfr), (fr_n_tries _ _ Hfr); done).
      split; cbn; rewrite ?Et, ?En; [done | apply (tt_n _ _ _ Htr) |].
      intros i ct Hi Hct. apply (settled_tries _ _ _ _ HS). apply (Hl' i ct Hi Hct).
    + cbn. lia.
    + apply (settled_counts _ _ _ _ HS). rewrite middle in Hcnt |- *. inversion_clear Hcnt as [|? ? _ Hcnt']. constructor; [|done]. cbn [v_n set_n]. lia.
    + lia.
  - rewrite (settled_table _ _ _ _ HS). rewrite (table_perm _ _ (middle A B vw)), (table_perm _ _ (middle A B vw1)). unfold table. cbn [map concat].
    rewrite (vrules_perm vw _ Hent). done.
  - cbn. rewrite Hrules. done.
  - intros x Hx. apply (settled_addrs _ _ _ _ HS) in Hx. rewrite middle in Hx |- *. exact Hx.
  - intros x Hx. apply list_elem_of_fmap in Hx as (y & -> & Hy). apply list_elem_of_fmap_2, Hsub. done.
  - split; cbn; [rewrite (fr_n_tries _ _ Hfr); done | rewrite (fr_tries _ _ Hfr); done].
Qed.

End Classifier.

Lemma classifier_remove_rep c V P vw e : cls_rep target c V P -> vw ∈ V -> e ∈ entries vw -> short_fields c ->
  exists c' V' P', classifier_remove target c (e_addr e) = Ok c' /\ taken_out c c' V V' P P' (frule_of (v_mask vw) e).
Proof.
  intros HC Hvw He Hshort. pose proof HC as [[HT _ _] HP _ _ _ _]. pose proof (tr_views _ _ _ HT) as HV. rewrite Forall_forall in HV.
  destruct (HV vw Hvw) as (t & Ht & Hst). destruct (entry_at target c t vw Hst e He) as (r & Hr & Hm & Hprio & Hnh & Hih).
  destruct (remove_group c t vw Hst e He) as (g & h' & G' & Hg & Ev & Eh & Hwf & Hn & HG & Hvals & Hent & Hheads).
  pose proof (group_at target c t vw Hst g Hg) as [Hw Hz _ _ _]. rewrite Ev in Hw, Hz.
  destruct (remove_from_indices_spec target (v_mask vw) e (entries (set_groups G' vw)) (indices t) (v_ofs vw)) as (l1 & El1 & Hl1).
  { apply (indices_perm _ _ _ _ _ _ (sr_indices _ _ _ _ Hst) Hent). }
  assert (mask_rep target (mm_mask (match_of r)) (v_mask vw)) as Hmask by (destruct Hm as (_ & H1 & H2 & _); done).
  destruct (find_subtable_spec target Htarget c V _ _ HT Hmask) as (o & Ef & Ho). destruct o as [s|]; [|destruct (Ho vw Hvw eq_refl)].
  destruct Ho as (vw' & Hvw' & Em & <-). pose proof (snode_inj target c V vw' vw HT Hvw' Hvw Em) as ->.
  apply list_elem_of_split in Hvw as (A & B & ->).
  destruct (tries_without c A B vw P e t r HC He Hst Hm Hshort G' Hent) as (l' & El' & Hll & Hlf & Hl').
  destruct (find_equal_spec target Htarget (set_tries l' c) t vw (mm_flow (match_of r)) (e_val e) Hst (mm_flow_rep target _ _ _ Hm Hz (wo_len _ _ Hw))) as (o & Eo & Ho).
  destruct o as [nd|]; [|destruct (Ho g Hg Ev)]. destruct Ho as (g' & Hg' & Ev' & ->).
  assert (g' = g) as -> by (apply (group_inj (v_groups vw)); [apply (sr_vals _ _ _ _ Hst) | done | done | congruence]).
  assert (parts_rep target (set_tries l' c) (A ++ vw :: B) P) as HP2.
  { split; [apply (parts_core_frame c _ (md_tags target (A ++ vw :: B))); [done | done | done | apply HP] | apply (pr_rules _ _ _ _ HP)]. }
  assert (tables_core target (set_tries l' c) (A ++ vw :: B)) as HT2 by (apply (tables_core_frame target c); done).
  destruct (drop_step (set_tries l' c) _ P _ vw _ _ e r HT2 HP2 (one_less A B vw e G' Hent) Hr) as (h & mp & P' & Ed & HP' & Hsub).
  destruct (finish_removal c A B vw P e t HC Hst h' G' l1 Hwf Hn HG Hvals Hent Hheads Hl1 l' h mp P' Hll Hlf Hl' HP' Hsub) as (c3 & V' & Es & Hout).
  destruct (count_before c A B vw P e HC G' Hent) as (Hvn & Hlen & Hle & Hsm).
  exists (set_n_rules (s32 (n_rules c3 - 1)) c3), V', P'. split; [|exact Hout]. unfold classifier_remove.
  rewrite (load_some _ _ _ Hr). cbn [rbind]. rewrite Ef. cbn [rbind]. rewrite (load_some _ _ _ Ht). cbn [rbind]. rewrite El'. cbn [rbind].
  rewrite Hih, El1. cbn [rbind]. rewrite Hnh. change (find_equal (set_tries l' c) (with_indices l1 t)) with (find_equal (set_tries l' c) t). rewrite Eo. cbn [rbind].
  refine (rbind_step _ _ _ _ Eh _). cbn beta zeta. rewrite <- (sr_tag _ _ _ _ Hst) in Ed. refine (rbind_step _ _ _ _ Ed _). cbn beta zeta.
  assert (s32 (st_n_rules (with_rules h' (with_indices l1 t)) - 1) = v_n vw - 1) as ->.
  { cbn. rewrite (sr_n_rules _ _ _ _ Hst), s32_small by lia. done. }
  rewrite Hprio. refine (rbind_step _ _ _ _ Es _). done.
Qed.

End Remove.
