(* ===== verification/ClsInit.v ===== *)
(** * The classifier: its creation, and the fields of its tries

    An empty classifier, and [classifier_set_prefix_fields], which makes the tries
    of new fields from the rules there are. *)

From Stdlib Require Import ZArith Lia List Bool Sorted.
From stdpp Require Import base option list_relations list sets gmap sorting.
From S2P Require Import Prelude Bytes Hash Csum Packets Bits Hmap Hindex Flow FlowFacts FlowCompose Miniflow MiniflowFacts MiniflowProps MatchSet MetaFlow Tag Trie TrieFacts Classifier ClsFacts ClsRep ClsLookup ClsTables ClsRules ClsParts ClsUpdate ClsRemove.
#[local] Open Scope Z_scope.
#[local] Open Scope res_scope.

#[local] Opaque one_bits for_each_1bit.

Section Init.
Variable target : abi.
Hypothesis Htarget : target = i686 \/ target = x86_64.

Abbreviation nw := (FLOW_U32S target).

(** ** The empty classifier *)

Lemma init_segments_spec n l l' : init_segments target n l = Ok l' -> exists k, l' = take k l /\ Forall (fun s => s < Z.of_nat nw) l'.
Proof.
  revert l l'. induction n as [|n IH]; intros l l'; cbn [init_segments].
  { intros [= <-]. exists 0%nat. split; [done | constructor]. }
  destruct l as [|s l]; [done|]. destruct (Z.ltb_spec s (Z.of_nat nw)) as [H|H]; [|intros [= <-]; exists 0%nat; split; [done | constructor]].
  destruct (init_segments target n l) as [l1|] eqn:E; [|done]. cbn [rbind]. intros [= <-]. destruct (IH _ _ E) as (k & -> & Hk).
  exists (S k). split; [done | constructor; done].
Qed.

Lemma init_rep (segs : option (list nat)) rules c : classifier_init target (option_map (map Z.of_nat) segs) rules = Ok c -> StronglySorted le (default [] segs) ->
  cls_rep target c [] [].
Proof.
  intros H Hs. assert (exists l, c = Mk_classifier 0 (Z.of_nat <$> l) hmap_init [] hmap_init (replicate CLS_MAX_TRIES (Mk_trie None Null)) 0 rules ∅ ∅ /\
    ends_ok target l) as (l & -> & Hl).
  { revert H. unfold classifier_init. destruct segs as [segs|]; cbn [option_map default from_option] in *.
    - destruct (init_segments _ _ _) as [l|] eqn:E; [|done]. cbn [rbind]. intros [= <-].
      destruct (init_segments_spec _ _ _ E) as (k & -> & Hk). 
      rewrite firstn_map in *. exists (take k segs). split; [done|]. split.
      + rewrite <- (take_drop k segs) in Hs. apply StronglySorted_app in Hs. tauto.
      + apply Forall_forall. intros o Ho. rewrite Forall_forall in Hk. specialize (Hk (Z.of_nat o)).
        rewrite list_elem_of_In in Hk. specialize (Hk (List.in_map _ _ _ (proj1 (list_elem_of_In _ _) Ho))). lia.
    - cbn [rbind]. intros [= <-]. exists []. split; [done|]. split; constructor. }
  split.
  - split; [|constructor|constructor]. split; cbn; try done; try apply NoDup_nil_2; try apply hmap_init_wf; try constructor.
    exists l. done.
  - split; [split; cbn; try done; try apply NoDup_nil_2; try apply hmap_init_wf; constructor|]. intros vw e r Hin. inversion Hin.
  - split; [done | cbn; lia |]. cbn. intros i ct Hi. lia.
  - done.
  - constructor.
  - done.
Qed.

(** ** The rules of a subtable in a trie *)

Lemma rules_in_list_loads c hp l : forall p l', rules_in_list c hp p l = Ok l' -> Forall (fun ar => rule_at c !! fst ar = Some (snd ar)) l'.
Proof.
  induction l as [|a l IH]; intros p l'; cbn [rules_in_list]; [destruct (hp <? p); [done | intros [= <-]; constructor]|].
  unfold load at 1. destruct (rule_at c !! a) as [r|] eqn:E; [|done]. cbn [rbind]. destruct (priority r <? p); [|intros [= <-]; constructor].
  destruct (rules_in_list c hp (priority r) l) as [l1|] eqn:El; [|done]. cbn [rbind]. intros [= <-]. constructor; [done | apply (IH _ _ El)].
Qed.

Lemma each_rule_loads c ring l : each_rule_in_list c ring = Ok l -> Forall (fun ar => rule_at c !! fst ar = Some (snd ar)) l.
Proof.
  unfold each_rule_in_list. destruct ring as [|a ring]; [done|]. unfold load at 1. destruct (rule_at c !! a) as [r|] eqn:E; [|done]. cbn [rbind].
  destruct (rules_in_list c _ _ ring) as [l1|] eqn:El; [|done]. cbn [rbind]. intros [= <-]. constructor; [done | apply (rules_in_list_loads _ _ _ _ _ El)].
Qed.

Section Trie.
Context (mf : mf_field) (o k p : nat) (w : list Z).
Context (Hf : field_ok target mf o k) (Hp : plen_ok target mf w p) (Hp0 : p <> 0%nat).

(** A trie for the field, and one with more prefixes. *)
Definition field_trie (ct : cls_trie) : Prop := trie_field ct = Some mf /\ trie_wf None (trie_root ct).
Definition trie_more (l : list (list bool)) (ct ct' : cls_trie) : Prop :=
  field_trie ct' /\ rules (trie_root ct') ≡ₚ l ++ rules (trie_root ct).

Lemma insert_rules_spec v l : Forall (fun ar => mm_rep target (match_of (snd ar)) v w) l -> masked w v = v -> words_ok target v ->
  forall ct, field_trie ct -> Z.of_nat (length (rules (trie_root ct)) + length l) < 2 ^ 32 ->
  exists ct', insert_rules target ct (Z.of_nat p) l = Ok ct' /\ trie_more (map (fun _ => prefix_of o p v) l) ct ct'.
Proof.
  intros Hl Hz Hv. induction Hl as [|[a r] l Hm Hl IH]; intros ct [Hmf Hwf] Hn; cbn [insert_rules length] in *; [exists ct; done|].
  destruct (trie_insert_one target Htarget ct mf o k p r v w Hmf Hf Hp Hp0 Hm Hz Hv Hwf) as (ct1 & -> & Hmf1 & Hwf1 & Hr1); [lia|]. cbn [rbind].
  destruct (IH ct1) as (ct' & -> & Hft & Hr'); [done | rewrite Hr1; cbn [length]; lia |]. exists ct'. split; [done|]. split; [done|].
  rewrite Hr', Hr1. cbn. symmetry. apply Permutation_middle.
Qed.

Section Heads.
Context (c : classifier) (t : cls_subtable) (vw : view).
Context (Hst : st_rep target (rule_at c) t vw) (Ew : v_mask vw = w).

Definition group_prefixes (G : list cls_group) : list (list bool) := map (fun e => prefix_of o p (e_val e)) (concat (map g_entries G)).

Lemma insert_heads_spec G : (forall g, g ∈ G -> g ∈ v_groups vw) -> forall ct, field_trie ct ->
  Z.of_nat (length (rules (trie_root ct)) + length (group_prefixes G)) < 2 ^ 32 ->
  exists ct', insert_heads target c ct (Z.of_nat p) (gnode target w <$> G) = Ok ct' /\ trie_more (group_prefixes G) ct ct'.
Proof.
  induction G as [|g G IH]; intros HG ct Hct Hn; [exists ct; done|]. cbn [fmap list_fmap insert_heads gnode node_val].
  assert (g ∈ v_groups vw) as Hg by (apply HG; left). pose proof (group_at target c t vw Hst g Hg) as Hgo. rewrite Ew in Hgo.
  destruct (each_rule_spec target c g w Hgo) as (l & El & Hl).
  { apply Forall_forall. intros [a q] Hin. destruct (entry_at target c t vw Hst (Mk_entry a q (g_val g))) as (r & Hr & _ & Hq & _); [|exists r; done].
    apply elem_of_entries. exists g. done. }
  rewrite El. cbn [rbind]. apply each_rule_loads in El.
  assert (map (fun _ => prefix_of o p (g_val g)) l = map (fun e => prefix_of o p (e_val e)) (g_entries g)) as Em.
  { unfold g_entries. rewrite <- Hl, !map_map. done. }
  unfold group_prefixes in Hn. cbn [map concat] in Hn. rewrite map_app, length_app, <- Em, length_map in Hn.
  destruct (insert_rules_spec (g_val g) l) with (ct := ct) as (ct1 & -> & Hct1 & Hr1); [ | apply Hgo | apply Hgo | done | lia |].
  { rewrite Forall_forall in El |- *. intros [a r] Hin. specialize (El _ Hin). cbn in El |- *.
    assert ((a, priority r) ∈ g_rules g) as Hin2 by (rewrite <- Hl; apply list_elem_of_In, in_map_iff; exists (a, r); split; [done | apply list_elem_of_In; done]).
    destruct (entry_at target c t vw Hst (Mk_entry a (priority r) (g_val g))) as (r' & Hr' & Hm & _).
    - apply elem_of_entries. exists g. done.
    - cbn in Hr', Hm. rewrite Hr' in El. injection El as ->. rewrite <- Ew. done. }
  cbn [rbind]. destruct (IH ltac:(intros g' Hg'; apply HG; right; done) ct1 Hct1) as (ct' & -> & Hct' & Hr').
  { rewrite Hr1, length_app, length_map. unfold group_prefixes. lia. }
  exists ct'. split; [done|]. split; [done|]. rewrite Hr', Hr1, Em. unfold group_prefixes. cbn [map concat]. rewrite map_app, !app_assoc.
  apply Permutation_app_tail, Permutation_app_comm.
Qed.

(** All of them, in the order of the hash map. *)
Lemma insert_subtable_rules ct : field_trie ct -> Z.of_nat (length (rules (trie_root ct)) + length (entries vw)) < 2 ^ 32 ->
  exists ct', insert_heads target c ct (Z.of_nat p) (each (rules_of t)) = Ok ct' /\
    trie_more (map (fun e => prefix_of o p (e_val e)) (entries vw)) ct ct'.
Proof.
  intros Hct Hn. unfold each. rewrite (hmap_for_each_spec _ _ (sr_wf _ _ _ _ Hst)) by lia.
  destruct (Permutation_map_inv _ _ (sr_nodes _ _ _ _ Hst)) as (G & -> & HG).
  assert (group_prefixes G ≡ₚ map (fun e => prefix_of o p (e_val e)) (entries vw)) as Hperm.
  { unfold group_prefixes, entries. apply Permutation_map, concat_map_perm. symmetry. done. }
  destruct (insert_heads_spec G) with (ct := ct) as (ct' & E & Hct' & Hr'); [intros g; rewrite HG; done | done | |].
  { rewrite Hperm, length_map. done. }
  exists ct'. rewrite Ew. split; [exact E|]. split; [done|]. rewrite Hr', Hperm. done.
Qed.

End Heads.
End Trie.

(** ** One trie *)

Definition set_plens (ps : list nat) (vw : view) : view :=
  Mk_view (v_addr vw) (v_mask vw) (v_ofs vw) ps (v_tag vw) (v_max vw) (v_count vw) (v_n vw) (v_groups vw).

Lemma tables_rep_plens c A vw B t ps : tables_rep target c (A ++ vw :: B) -> subtable_at c !! v_addr vw = Some t -> length ps = CLS_MAX_TRIES ->
  tables_rep target (put_subtable (v_addr vw) (with_trie_plen (Z.of_nat <$> ps) t) c) (A ++ set_plens ps vw :: B).
Proof.
  intros [HT Hmax Hf] Ht Hps. split.
  - apply (tables_core_replace target c _ A vw B _ (with_trie_plen (Z.of_nat <$> ps) t) (set_plens ps vw) HT); try done.
    + cbn. rewrite (tr_order _ _ _ HT), !fmap_app. done.
    + symmetry. apply Permutation_middle.
    + cbn. pose proof (tr_views _ _ _ HT) as HVs. rewrite Forall_forall in HVs. destruct (HVs vw) as (t' & Ht' & Hst); [apply elem_of_app; right; left|].
      rewrite Ht in Ht'. injection Ht' as <-. destruct Hst. split; done.
    + pose proof (tr_addrs _ _ _ HT) as Hn. rewrite (all_entries_perm _ _ (middle A B vw)) in Hn.
      rewrite (all_entries_perm _ _ (middle A B (set_plens ps vw))). exact Hn.
  - rewrite middle in Hmax |- *. inversion_clear Hmax. constructor; done.
  - apply (falling_swap A vw); done.
Qed.

(** Only the prefix for trie [i] changes. *)
Definition replen (i : nat) (v v' : view) : Prop :=
  exists ps, v' = set_plens ps v /\ length ps = CLS_MAX_TRIES /\ forall j, j <> i -> nth j ps 0%nat = nth j (v_plens v) 0%nat.

Lemma prefixes_snoc i o D v : prefixes i o (D ++ [v]) =
  prefixes i o D ++ (if decide (plen i v = 0%nat) then [] else map (fun e => prefix_of o (plen i v) (e_val e)) (entries v)).
Proof. unfold prefixes. rewrite map_app, concat_app. cbn. rewrite app_nil_r. done. Qed.

Lemma nth_insert_eq (l : list nat) i x : (i < length l)%nat -> nth i (<[i := x]> l) 0%nat = x.
Proof. intros H. rewrite nth_lookup, list_lookup_insert_eq by done. done. Qed.

Lemma nth_insert_ne (l : list nat) i j x : j <> i -> nth j (<[i := x]> l) 0%nat = nth j l 0%nat.
Proof. intros H. rewrite !nth_lookup, list_lookup_insert_ne by done. done. Qed.

(** The trie of a field for some of the views. *)
Definition trie_for (field : option mf_field) (D : list view) (i : nat) (ct : cls_trie) : Prop :=
  trie_field ct = field /\ (field <> None -> trie_rep target D i ct).

Lemma trie_init_step c D vw R i field ct t : tables_rep target c (D ++ vw :: R) -> (i < CLS_MAX_TRIES)%nat ->
  subtable_at c !! v_addr vw = Some t -> trie_for field D i ct -> Z.of_nat (length (all_entries (D ++ vw :: R))) < 2 ^ 31 ->
  exists p vw' ct', (match trie_field ct with Some mf => minimask_get_prefix_len target (mask_of t) mf | None => Ok 0 end) = Ok p /\
    replen i vw vw' /\ let c' := put_subtable (v_addr vw) (with_trie_plen (<[i := p]> (trie_plen t)) t) c in
    (if negb (p =? 0) then insert_heads target c' ct p (each (rules_of t)) else Ok ct) = Ok ct' /\
    tables_rep target c' (D ++ vw' :: R) /\ trie_for field (D ++ [vw']) i ct'.
Proof.
  intros HT Hi Ht [Efield Htr] Hsmall. pose proof (tr_views _ _ _ (tr_core _ _ _ HT)) as HVs. rewrite Forall_forall in HVs.
  destruct (HVs vw) as (t' & Ht' & Hst); [apply elem_of_app; right; left|]. rewrite Ht in Ht'. injection Ht' as <-.
  pose proof (sr_n_plens _ _ _ _ Hst) as Hlp. rewrite (sr_plens _ _ _ _ Hst).
  assert (forall p, tables_rep target (put_subtable (v_addr vw) (with_trie_plen (<[i := Z.of_nat p]> (Z.of_nat <$> v_plens vw)) t) c)
      (D ++ set_plens (<[i := p]> (v_plens vw)) vw :: R) /\ replen i vw (set_plens (<[i := p]> (v_plens vw)) vw)) as Hset.
  { intros p. rewrite <- list_fmap_insert. split; [apply tables_rep_plens; [done | done | rewrite length_insert; done]|].
    eexists. split; [done|]. split; [rewrite length_insert; done|]. intros j Hj. apply nth_insert_ne. done. }
  assert (forall p, plen i (set_plens (<[i := p]> (v_plens vw)) vw) = p) as Hpl by (intros p; apply nth_insert_eq; lia).
  assert (forall D', all_entries (D' ++ vw :: R) ≡ₚ all_entries D' ++ entries vw ++ all_entries R) as Hae.
  { intros D'. unfold all_entries. rewrite map_app, concat_app. done. }
  destruct field as [mf|]; rewrite Efield.
  2:{ destruct (Hset 0%nat) as [H1 H2]. exists 0, (set_plens (<[i := 0%nat]> (v_plens vw)) vw), ct. split; [done|]. split; [done|]. split; [done|]. split; [done|].
      split; [done|]. congruence. }
  destruct (Htr ltac:(done)) as (mf' & o & k & Emf & Hf & Hps & Hwf & Hr). rewrite Efield in Emf. injection Emf as <-.
  destruct (get_plen target Htarget (mask_of t) (v_mask vw) mf o k (sr_mask _ _ _ _ Hst) Hf) as (p & -> & Hp). destruct (Hset p) as [H1 H2].
  assert (forall ct', trie_field ct' = Some mf -> trie_wf None (trie_root ct') ->
    rules (trie_root ct') ≡ₚ prefixes i o (D ++ [set_plens (<[i := p]> (v_plens vw)) vw]) ->
    trie_for (Some mf) (D ++ [set_plens (<[i := p]> (v_plens vw)) vw]) i ct') as Hfor.
  { intros ct' E1 E2 E3. split; [done|]. intros _. exists mf, o, k. split; [done|]. split; [done|]. split; [|done].
    apply Forall_app. split; [done|]. constructor; [|constructor]. rewrite Hpl. done. }
  destruct (decide (p = 0%nat)) as [->|Hp0].
  - exists 0, (set_plens (<[i := 0%nat]> (v_plens vw)) vw), ct. split; [done|]. split; [done|]. split; [done|]. split; [done|].
    apply Hfor; [done | done |]. rewrite prefixes_snoc, decide_True, app_nil_r by apply Hpl. done.
  - exists (Z.of_nat p), (set_plens (<[i := p]> (v_plens vw)) vw). rewrite (proj2 (Z.eqb_neq (Z.of_nat p) 0)) by lia. cbn [negb].
    pose proof (prefixes_length i o D) as Hpn. rewrite (Hae D), !length_app in Hsmall.
    destruct (insert_subtable_rules mf o k p (v_mask vw) Hf Hp Hp0 (put_subtable (v_addr vw) (with_trie_plen (<[i := Z.of_nat p]> (Z.of_nat <$> v_plens vw)) t) c) t vw Hst eq_refl ct)
      as (ct' & E & [Emf' Hwf'] & Hr'); [done | rewrite Hr; lia |].
    exists ct'. split; [done|]. split; [done|]. split; [exact E|]. split; [done|]. apply Hfor; [done | done |].
    rewrite Hr', Hr, prefixes_snoc, decide_False by (rewrite Hpl; done). rewrite Hpl. apply Permutation_app_comm.
Qed.

Lemma trie_init_loop_spec i field R : (i < CLS_MAX_TRIES)%nat -> forall c D ct, tables_rep target c (D ++ R) -> trie_for field D i ct ->
  Z.of_nat (length (all_entries (D ++ R))) < 2 ^ 31 ->
  exists c' R' ct', trie_init_loop target c i ct (v_addr <$> R) = Ok (c', ct') /\ tables_rep target c' (D ++ R') /\ Forall2 (replen i) R R' /\
    same_rest c c' /\ rule_at c' = rule_at c /\ trie_for field (D ++ R') i ct'.
Proof.
  intros Hi. induction R as [|vw R IH]; intros c D ct HT Hct Hn; cbn [fmap list_fmap trie_init_loop].
  { exists c, [], ct. split; [done|]. split; [done|]. split; [constructor|]. split; [apply frame_refl|]. split; [done|]. rewrite app_nil_r. done. }
  pose proof (tr_views _ _ _ (tr_core _ _ _ HT)) as HVs. rewrite Forall_forall in HVs.
  destruct (HVs vw) as (t & Ht & Hst); [apply elem_of_app; right; left|]. rewrite (load_some _ _ _ Ht). cbn [rbind].
  destruct (trie_init_step c D vw R i field ct t HT Hi Ht Hct Hn) as (p & vw' & ct1 & -> & Hre & E & HT' & Hct'). cbn [rbind] in *. cbv zeta in E |- *.
  rewrite E. cbn [rbind]. rewrite cons_middle, app_assoc in HT'.
  destruct (IH _ (D ++ [vw']) ct1 HT' Hct') as (c' & R' & ct' & -> & HT2 & HR & Hfr & Hrules & Hct2).
  { destruct Hre as (ps & -> & _). rewrite <- app_assoc. unfold all_entries in Hn |- *. rewrite map_app, concat_app in Hn |- *. exact Hn. }
  exists c', (vw' :: R'), ct'. rewrite <- app_assoc in HT2, Hct2. split; [done|]. split; [done|]. split; [constructor; done|].
  split; [|done]. destruct Hfr. split; done.
Qed.

Lemma trie_init_spec c V i field : tables_rep target c V -> length (tries c) = CLS_MAX_TRIES -> (i < CLS_MAX_TRIES)%nat ->
  Z.of_nat (length (all_entries V)) < 2 ^ 31 -> (forall mf, field = Some mf -> exists o k, field_ok target mf o k) ->
  exists c' V' ct c1, trie_init target c i field = Ok c' /\ tables_rep target c' V' /\ Forall2 (replen i) V V' /\
    c' = set_tries (<[i := ct]> (tries c)) c1 /\ same_rest c c1 /\ rule_at c1 = rule_at c /\ (field <> None -> trie_rep target V' i ct).
Proof.
  intros HT Hl Hi Hn Hf. unfold trie_init. rewrite (tr_order _ _ _ (tr_core _ _ _ HT)).
  destruct (trie_init_loop_spec i field V Hi c [] (Mk_trie field Null) HT) as (c1 & V' & ct & -> & HT' & HV & Hfr & Hr & _ & Hct); [|done|].
  - split; [done|]. intros Hne. destruct field as [mf|]; [|done]. destruct (Hf mf eq_refl) as (o & k & Hfo). exists mf, o, k.
    split; [done|]. split; [done|]. split; [constructor|]. split; done.
  - cbn [rbind]. rewrite (fr_tries _ _ Hfr), decide_True by lia. eexists _, V', ct, c1. split; [done|]. split; [apply (tables_rep_frame target c1); done|].
    split; [done|]. split; [done|]. split; [done|]. split; [done|]. exact Hct.
Qed.

(** Views that differ in the prefixes for the tries only. *)
Definition similar (v v' : view) : Prop := exists ps, v' = set_plens ps v.

Lemma similar_trans V1 V2 V3 : Forall2 similar V1 V2 -> Forall2 similar V2 V3 -> Forall2 similar V1 V3.
Proof.
  intros H. revert V3. induction H as [|v1 v2 V1 V2 (ps & ->) H IH]; intros V3 H2; inversion_clear H2 as [|? v3 ? ? (ps' & ->)]; constructor; [|apply IH; done].
  exists ps'. done.
Qed.

Lemma replen_similar i V V' : Forall2 (replen i) V V' -> Forall2 similar V V'.
Proof. intros H. eapply Forall2_impl; [exact H|]. intros v v' (ps & -> & _). exists ps. done. Qed.

Lemma similar_all V V' : Forall2 similar V V' -> all_entries V' = all_entries V /\ table V' = table V /\ v_addr <$> V' = v_addr <$> V /\
  (forall m, md_tags target V' m = md_tags target V m) /\
  (Forall (fun vw => v_n vw = Z.of_nat (length (entries vw))) V -> Forall (fun vw => v_n vw = Z.of_nat (length (entries vw))) V').
Proof.
  induction 1 as [|v v' V V' (ps & ->) H (E1 & E2 & E3 & E4 & E5)]; [done|]. unfold all_entries, table, md_tags in *. cbn. rewrite E1, E2. cbn in E3. rewrite E3.
  split; [done|]. split; [done|]. split; [done|]. split; [intros m; rewrite E4; done|]. intros Hc. inversion_clear Hc. constructor; [done | auto].
Qed.

Lemma similar_in V V' v : Forall2 similar V V' -> v ∈ V' -> exists v0, v0 ∈ V /\ entries v0 = entries v /\ v_mask v0 = v_mask v.
Proof.
  intros H Hv. apply list_elem_of_lookup in Hv as [i Hi]. destruct (Forall2_lookup_r _ _ _ _ _ H Hi) as (v0 & H0 & ps & ->).
  exists v0. split; [|done]. apply list_elem_of_lookup. eauto.
Qed.

Lemma trie_rep_replen i j V V' ct : Forall2 (replen i) V V' -> j <> i -> trie_rep target V j ct -> trie_rep target V' j ct.
Proof.
  intros H Hj (mf & o & k & Hmf & Hf & Hp & Hwf & Hr). exists mf, o, k. split; [done|]. split; [done|].
  assert (Forall2 (fun v v' => plen j v' = plen j v /\ entries v' = entries v /\ v_mask v' = v_mask v) V V') as H2.
  { eapply Forall2_impl; [exact H|]. intros v v' (ps & -> & _ & Hps). split; [apply Hps; done | done]. }
  split; [|split; [done|]].
  - clear - H2 Hp. induction H2 as [|v v' V V' (E1 & _ & E3) H2 IH]; [constructor|]. inversion_clear Hp. constructor; [rewrite E1, E3; done | auto].
  - rewrite Hr. assert (prefixes j o V' = prefixes j o V) as ->; [|done]. unfold prefixes. f_equal. clear - H2. induction H2 as [|v v' V V' (E1 & E2 & _) H2 IH]; [done|].
    cbn. rewrite IH, E1, E2. done.
Qed.

(** ** [classifier_set_prefix_fields] *)

Lemma prefix_field_ok id : (flow_be32ofs (mf_from_id target id) <? 0) || negb (n_bits (mf_from_id target id) mod 32 =? 0) = false ->
  exists o k, field_ok target (mf_from_id target id) o k.
Proof.
  intros H. exists (Z.to_nat (flow_be32ofs (mf_from_id target id))), (Z.to_nat (n_bytes (mf_from_id target id) / 4)).
  revert H. destruct Htarget as [-> | ->]; destruct id; vm_compute; first [discriminate | intros _; repeat split; try discriminate; repeat constructor].
Qed.

(** While the fields are set: the first tries are those of the views. *)
Record setting (c0 : classifier) (V0 : list view) (P : list (nat * Z)) (c : classifier) (V : list view) (n : nat) : Prop := {
  sg_tables : tables_rep target c V;
  sg_views : Forall2 similar V0 V;
  sg_rules : rule_at c = rule_at c0;
  sg_parts : partitions c = partitions c0;
  sg_part_at : partition_at c = partition_at c0;
  sg_n_rules : n_rules c = n_rules c0;
  sg_n_tries : n_tries c = n_tries c0;
  sg_len : length (tries c) = CLS_MAX_TRIES;
  sg_tries : forall i ct, (i < n)%nat -> tries c !! i = Some ct -> trie_rep target V i ct
}.

Section Setting.
Context (c0 : classifier) (V0 : list view) (P : list (nat * Z)).
Context (HC : cls_rep target c0 V0 P).

Lemma setting_small c V n : setting c0 V0 P c V n -> Z.of_nat (length (all_entries V)) < 2 ^ 31.
Proof. intros H. destruct (similar_all _ _ (sg_views _ _ _ _ _ _ H)) as (-> & _). apply (cr_small _ _ _ _ HC). Qed.

(** One more trie. *)
Lemma setting_trie c V n i field n' : setting c0 V0 P c V n -> (i < CLS_MAX_TRIES)%nat -> (forall mf, field = Some mf -> exists o k, field_ok target mf o k) ->
  (forall j, (j < n')%nat -> j = i /\ field <> None \/ (j < n)%nat /\ j <> i) ->
  exists c' V', trie_init target c i field = Ok c' /\ setting c0 V0 P c' V' n'.
Proof.
  intros Hs Hi Hf Hn'. destruct (trie_init_spec c V i field) as (c' & V' & ct & c1 & -> & HT & HV & -> & Hfr & Hr & Hct); [apply Hs | apply Hs | done | | done |].
  { apply (setting_small _ _ _ Hs). }
  exists (set_tries (<[i := ct]> (tries c)) c1), V'. split; [done|]. destruct Hs as [H1 H2 H3 H4 H5 H6 H7 H8 H9]. destruct Hfr as [F1 F2 F3 F4 F5 F6].
  split; cbn; try congruence.
  - apply (similar_trans _ V); [done | apply (replen_similar i); done].
  - rewrite length_insert. done.
  - intros j ct' Hj. destruct (Hn' j Hj) as [[-> Hne]|[Hjn Hne]].
    + rewrite list_lookup_insert_eq by lia. intros [= <-]. apply Hct. done.
    + rewrite list_lookup_insert_ne by done. intros Ej. apply (trie_rep_replen i j V); [done | done | apply H9; done].
Qed.

Lemma set_prefix_fields_spec l : forall c V fields trie, (trie <= CLS_MAX_TRIES)%nat -> setting c0 V0 P c V (Nat.max trie (n_tries c0)) ->
  exists c' V' trie', set_prefix_fields target c l fields trie = Ok (c', trie') /\ (trie' <= CLS_MAX_TRIES)%nat /\
    setting c0 V0 P c' V' (Nat.max trie' (n_tries c0)).
Proof.
  induction l as [|id l IH]; intros c V fields trie Hle Hs; cbn [set_prefix_fields]; [exists c, V, trie; done|].
  destruct (decide (trie < CLS_MAX_TRIES)%nat) as [Hlt|]; [|exists c, V, trie; done]. cbv zeta.
  destruct ((_ <? 0) || _) eqn:Ef; [apply (IH c V); done|]. destruct (bool_decide (id ∈ fields)); [apply (IH c V); done|].
  rewrite (sg_n_tries _ _ _ _ _ _ Hs). destruct (bool_decide (n_tries c0 <= trie)%nat || _) eqn:Eb.
  - destruct (setting_trie c V _ trie (Some (mf_from_id target id)) (Nat.max (trie + 1) (n_tries c0)) Hs Hlt) as (c' & V' & -> & Hs').
    + intros mf [= <-]. apply prefix_field_ok. done.
    + intros j Hj. destruct (decide (j = trie)) as [->|Hne]; [left; done|]. right. split; [|done]. lia.
    + cbn [rbind]. apply (IH c' V'); [lia | done].
  - cbn [rbind]. apply (IH c V); [lia|]. apply orb_false_iff in Eb as [Eb _]. apply bool_decide_eq_false in Eb.
    replace (Nat.max (trie + 1) (n_tries c0)) with (Nat.max trie (n_tries c0)) by lia. done.
Qed.

Lemma clear_tries_spec n : forall c V i m, (m <= i)%nat -> (i + n <= CLS_MAX_TRIES)%nat -> setting c0 V0 P c V m ->
  exists c' V', clear_tries target c i n = Ok c' /\ setting c0 V0 P c' V' m.
Proof.
  induction n as [|n IH]; intros c V i m Hm Hn Hs; cbn [clear_tries]; [exists c, V; done|].
  destruct (setting_trie c V m i None m Hs) as (c' & V' & -> & Hs'); [lia | done | intros j Hj; right; lia |]. cbn [rbind].
  apply (IH c' V'); [lia | lia | done].
Qed.

Lemma setting_less c V n m : (m <= n)%nat -> setting c0 V0 P c V n -> setting c0 V0 P c V m.
Proof. intros Hm []. split; try done. intros i ct Hi. apply sg_tries0. lia. Qed.

Lemma set_prefix_fields_rep l : exists c' V', classifier_set_prefix_fields target c0 l = Ok c' /\ cls_rep target c' V' P /\
  Forall2 similar V0 V' /\ rule_at c' = rule_at c0 /\ (n_tries c' <= length l)%nat.
Proof.
  unfold classifier_set_prefix_fields. assert (setting c0 V0 P c0 V0 (Nat.max 0 (n_tries c0))) as Hs.
  { pose proof (cr_tries _ _ _ _ HC) as [T1 T2 T3]. split; try done; [apply HC|]. apply Forall2_same_length_lookup. split; [done|].
    intros i v v' Hv Hv'. rewrite Hv in Hv'. injection Hv' as <-. exists (v_plens v). destruct v. done. }
  destruct (set_prefix_fields_spec l c0 V0 [] 0%nat ltac:(lia) Hs) as (c1 & V1 & trie & E & Hle & Hs1).
  assert (trie <= length l)%nat as Hll.
  { clear - E. assert (forall l c fields trie c' trie', set_prefix_fields target c l fields trie = Ok (c', trie') -> (trie' <= trie + length l)%nat) as H.
    { clear. induction l as [|id l IH]; intros c fields trie c' trie'; cbn [set_prefix_fields length]; [intros [= <- <-]; lia|].
      destruct (decide _); [|intros [= <- <-]; lia]. cbv zeta. destruct (_ || _); [intros H; apply IH in H; lia|].
      destruct (bool_decide _); [intros H; apply IH in H; lia|]. match goal with |- rbind ?m _ = _ -> _ => destruct m as [c2|]; [|done] end. cbn [rbind].
      intros H. apply IH in H. lia. }
    apply H in E. lia. }
  rewrite E. cbn [rbind]. apply (setting_less _ _ _ trie) in Hs1; [|lia].
  pose proof (tt_n _ _ _ (cr_tries _ _ _ _ HC)) as Hn0.
  destruct (clear_tries_spec (n_tries c1 - trie) c1 V1 trie trie) as (c2 & V2 & -> & Hs2); [lia | rewrite (sg_n_tries _ _ _ _ _ _ Hs1); lia | done |]. cbn [rbind].
  exists (set_n_tries trie c2), V2. split; [done|]. destruct Hs2 as [H1 H2 H3 H4 H5 H6 H7 H8 H9].
  destruct (similar_all _ _ H2) as (E1 & E2 & E3 & E4 & E5). pose proof HC as [HT HP Htr Hnr Hcnt Hsmall].
  split; [|done]. split.
  - apply (tables_rep_frame target c2); done.
  - split; [apply (parts_core_frame c0 _ (md_tags target V0)); [done | done | intros m; rewrite E4; done | apply HP]|].
    intros v e r Hv He Hr. destruct (similar_in _ _ _ H2 Hv) as (v0 & Hv0 & Ee & <-). rewrite <- Ee in He. cbn in Hr. rewrite H3 in Hr.
    apply (pr_rules _ _ _ _ HP v0 e r Hv0 He Hr).
  - split; [done | cbn; lia | exact H9].
  - cbn. rewrite H6, E1. done.
  - auto.
  - rewrite E1. done.
Qed.

End Setting.

End Init.
