(* ===== verification/ClsHistory.v ===== *)
(** * The classifier: a table of rules

    What callers of the classifier rely on: it is a table of rules, and its
    operations add a rule to the table, take one out, and leave it as it is.
    [cls_built] is the classifiers that these operations make, with their tables. *)

From Stdlib Require Import ZArith Lia List Bool Sorted.
From stdpp Require Import base option list_relations list sets gmap sorting.
From S2P Require Import Prelude Bytes Hash Csum Packets Bits Hmap Hindex Flow FlowFacts FlowCompose Miniflow MiniflowFacts MiniflowProps MatchSet MetaFlow Tag Trie TrieFacts Classifier ClsFacts ClsRep ClsLookup ClsTables ClsRules ClsParts ClsUpdate ClsRemove ClsInit.
#[local] Open Scope Z_scope.
#[local] Open Scope res_scope.

#[local] Opaque one_bits for_each_1bit.

(** ** Tables *)

#[export] Instance frule_eq_dec : EqDecision frule.
Proof. solve_decision. Defined.

(** A rule matches the words of a flow. *)
Definition f_matches (f : frule) (x : list Z) : Prop := f_val f = masked (f_mask f) x.

(** Identical rules: the same match with the same priority. *)
Definition f_same (f g : frule) : bool :=
  bool_decide (f_mask f = f_mask g) && bool_decide (f_val f = f_val g) && (f_prio f =? f_prio g).

(** The table with a rule in place of the identical one, and without a rule. *)
Definition t_replace (f : frule) (T : list frule) : list frule := f :: List.filter (fun g => negb (f_same f g)) T.
Definition t_displaced (f : frule) (T : list frule) : option nat := f_addr <$> List.find (f_same f) T.
Definition t_remove (a : nat) (T : list frule) : list frule := List.filter (fun g => negb (bool_decide (f_addr g = a))) T.

(** The answer to a lookup: a rule with the highest priority of those that match. *)
Definition answers (T : list frule) (x : list Z) (a : option nat) : Prop :=
  match a with
  | Some a => exists f, f ∈ T /\ f_addr f = a /\ f_matches f x /\ forall g, g ∈ T -> f_matches g x -> f_prio g <= f_prio f
  | None => forall g, g ∈ T -> ~ f_matches g x
  end.

Lemma f_same_spec f g : f_same f g = true <-> f_mask f = f_mask g /\ f_val f = f_val g /\ f_prio f = f_prio g.
Proof. unfold f_same. rewrite !andb_true_iff, !bool_decide_eq_true, Z.eqb_eq. tauto. Qed.

Lemma filter_all {A} (p : A -> bool) l : (forall x, x ∈ l -> p x = true) -> List.filter p l = l.
Proof.
  induction l as [|x l IH]; intros H; [done|]. cbn. rewrite (H x) by left. f_equal. apply IH. intros y Hy. apply H. right. done.
Qed.

(** Both ways a table gains a rule, where identical rules have one address. *)
Lemma table_replaced f old T T' : table_add f old T T' -> NoDup (f_addr <$> T') ->
  (forall g h, g ∈ T' -> h ∈ T' -> f_same g h = true -> f_addr g = f_addr h) ->
  T' ≡ₚ t_replace f T /\ old = t_displaced f T.
Proof.
  intros Hadd Hnd Hkey. assert (forall rest, T' ≡ₚ f :: rest -> forall g, g ∈ rest -> f_same f g = false) as Hno.
  { intros rest HT g Hg. apply not_true_iff_false. intros Hs. rewrite HT in Hnd. cbn in Hnd. apply NoDup_cons in Hnd as [Hn _]. apply Hn.
    rewrite (Hkey f g); [apply list_elem_of_fmap_2; done | rewrite HT; left | rewrite HT; right; done | done]. }
  unfold t_replace, t_displaced. destruct old as [o|]; cbn in Hadd.
  - destruct Hadd as (rest & HT & HT'). specialize (Hno rest HT'). set (fo := Mk_frule o (f_prio f) (f_val f) (f_mask f)) in *.
    assert (f_same f fo = true) as Hfo by (apply f_same_spec; done). split.
    + rewrite (filter_perm _ _ _ HT). cbn. rewrite Hfo. cbn. rewrite filter_all; [done|]. intros g Hg. rewrite Hno; done.
    + destruct (List.find (f_same f) T) as [g|] eqn:E.
      * apply find_some in E as [Hg Hs]. apply list_elem_of_In in Hg. rewrite HT in Hg. apply elem_of_cons in Hg as [->|Hg]; [done|].
        rewrite (Hno g Hg) in Hs. done.
      * assert (fo ∈ T) as Hin by (rewrite HT; left). apply list_elem_of_In in Hin. pose proof (find_none _ _ E fo Hin). congruence.
  - specialize (Hno T Hadd). split; [rewrite filter_all; [done|]; intros g Hg; rewrite Hno; done|].
    destruct (List.find (f_same f) T) as [g|] eqn:E; [|done]. apply find_some in E as [Hg Hs]. apply list_elem_of_In in Hg.
    rewrite (Hno g Hg) in Hs. done.
Qed.

Lemma table_removed f T T' : T ≡ₚ f :: T' -> NoDup (f_addr <$> T) -> T' ≡ₚ t_remove (f_addr f) T.
Proof.
  intros HT Hnd. unfold t_remove. rewrite (filter_perm _ _ _ HT). cbn. rewrite bool_decide_eq_true_2 by done. cbn.
  rewrite filter_all; [done|]. intros g Hg. apply negb_true_iff, bool_decide_eq_false. intros E. rewrite HT in Hnd. cbn in Hnd.
  apply NoDup_cons in Hnd as [Hn _]. apply Hn. rewrite <- E. apply list_elem_of_fmap_2. done.
Qed.

Lemma answers_perm T T' x a : T ≡ₚ T' -> answers T x a -> answers T' x a.
Proof.
  intros H. destruct a as [a|]; cbn.
  - intros (f & Hf & Ha & Hm & Hbest). exists f. split; [rewrite <- H; done|]. split; [done|]. split; [done|]. intros g Hg. apply Hbest. rewrite H. done.
  - intros Hn g Hg. apply Hn. rewrite H. done.
Qed.

Section History.
Variable target : abi.
Hypothesis Htarget : target = i686 \/ target = x86_64.

(** ** The tables of views *)

Lemma elem_of_table f V : f ∈ table V <-> exists vw e, vw ∈ V /\ e ∈ entries vw /\ f = frule_of (v_mask vw) e.
Proof.
  unfold table, vrules. rewrite list_elem_of_In, in_concat. split.
  - intros (l & Hl & Hf). apply in_map_iff in Hl as (vw & <- & Hv). apply in_map_iff in Hf as (e & <- & He). exists vw, e.
    rewrite !list_elem_of_In. done.
  - intros (vw & e & Hv & He & ->). rewrite list_elem_of_In in Hv. rewrite list_elem_of_In in He. eexists. split; [apply in_map_iff; exists vw; done|].
    apply in_map_iff. exists e. done.
Qed.

Lemma table_addrs V : f_addr <$> table V = e_addr <$> all_entries V.
Proof.
  unfold table, all_entries. induction V as [|vw V IH]; [done|]. cbn. rewrite !fmap_app, IH. f_equal. unfold vrules.
  rewrite <- list_fmap_compose. done.
Qed.

Lemma table_length V : length (table V) = length (all_entries V).
Proof. rewrite <- (length_fmap f_addr), table_addrs, length_fmap. done. Qed.

Lemma table_nodup c V : tables_core target c V -> NoDup (f_addr <$> table V).
Proof. intros HT. rewrite table_addrs. apply (tr_addrs _ _ _ HT). Qed.

Lemma sorted_prio_addr (l : list (nat * Z)) a b q : StronglySorted (fun a b => snd b < snd a) l -> (a, q) ∈ l -> (b, q) ∈ l -> a = b.
Proof.
  induction 1 as [|[x p] l H IH Hx]; intros Ha Hb; [inversion Ha|]. rewrite Forall_forall in Hx.
  apply elem_of_cons in Ha as [Ea|Ha]; apply elem_of_cons in Hb as [Eb|Hb].
  - congruence.
  - injection Ea as <- <-. specialize (Hx _ Hb). cbn in Hx. lia.
  - injection Eb as <- <-. specialize (Hx _ Ha). cbn in Hx. lia.
  - auto.
Qed.

(** Identical rules have one address. *)
Lemma table_keys c V f g : tables_core target c V -> f ∈ table V -> g ∈ table V -> f_same f g = true -> f_addr f = f_addr g.
Proof.
  intros HT Hf Hg Hs. apply f_same_spec in Hs as (Em & Ev & Ep). apply elem_of_table in Hf as (vw & e & Hv & He & ->).
  apply elem_of_table in Hg as (vw' & e' & Hv' & He' & ->). cbn in *. pose proof (snode_inj target c V vw vw' HT Hv Hv' Em) as <-.
  pose proof (tr_views _ _ _ HT) as HV. rewrite Forall_forall in HV. destruct (HV vw Hv) as (t & _ & Hst).
  apply elem_of_entries in He as (g & Hg & Hap & Eg). apply elem_of_entries in He' as (g' & Hg' & Hap' & Eg').
  assert (g = g') as <- by (apply (group_inj (v_groups vw)); [apply (sr_vals _ _ _ _ Hst) | done | done | congruence]).
  rewrite <- Ep in Hap'. apply (sorted_prio_addr _ _ _ _ (go_sorted _ _ _ (group_at target c t vw Hst g Hg)) Hap Hap').
Qed.

(** ** The answer of a view *)

(** The answer so far and the rest of the views. *)
Lemma best_from_answers c V x : tables_rep target c V -> words_ok target x -> forall W b, (forall vw, vw ∈ W -> vw ∈ V) ->
  match b with Some ap => exists vw e, vw ∈ V /\ e ∈ entries vw /\ e_addr e = fst ap /\ e_prio e = snd ap /\ e_val e = masked (v_mask vw) x | None => True end ->
  match best_from b W x with
  | Some ap => (exists vw e, vw ∈ V /\ e ∈ entries vw /\ e_addr e = fst ap /\ e_prio e = snd ap /\ e_val e = masked (v_mask vw) x) /\
      (forall bp, b = Some bp -> snd bp <= snd ap) /\
      forall vw e, vw ∈ W -> e ∈ entries vw -> e_val e = masked (v_mask vw) x -> e_prio e <= snd ap
  | None => b = None /\ forall vw e, vw ∈ W -> e ∈ entries vw -> e_val e <> masked (v_mask vw) x
  end.
Proof.
  intros [HT Hmax _] Hx. pose proof (tr_views _ _ _ HT) as HV. rewrite Forall_forall in HV, Hmax.
  induction W as [|vw W IH]; intros b HW Hb; cbn [best_from].
  { destruct b as [ap|]; [split; [done|]; split; [intros bp [= ->]; lia|] | split; [done|]]; intros vw e Hvw; inversion Hvw. }
  assert (vw ∈ V) as Hv by (apply HW; left). destruct (HV vw Hv) as (t & Ht & Hst).
  (* the rules of this view *)
  assert (match hit vw x with
    | Some ap => (exists e, e ∈ entries vw /\ e_addr e = fst ap /\ e_prio e = snd ap /\ e_val e = masked (v_mask vw) x) /\
        forall e, e ∈ entries vw -> e_val e = masked (v_mask vw) x -> e_prio e <= snd ap
    | None => forall e, e ∈ entries vw -> e_val e <> masked (v_mask vw) x
    end) as Hhit.
  { destruct (hit vw x) as [[a p]|] eqn:E.
    - destruct (hit_entry target c vw x a p (HV vw Hv) (Hmax vw Hv) E) as (e & He & Ea & Ep & Ev & _). split; [exists e; done|].
      intros e' He' Ev'. apply elem_of_entries in He' as (g & Hg & Hap & Eg).
      rewrite (hit_some vw x g (sr_vals _ _ _ _ Hst) Hg) in E by congruence. injection E as Eh. unfold g_head in Eh.
      pose proof (group_at target c t vw Hst g Hg) as [_ _ _ Hsort _]. destruct (g_rules g) as [|[a0 p0] l]; [inversion Hap|]. cbn in Eh.
      injection Eh as -> ->. cbn. apply elem_of_cons in Hap as [Ee|Hap]; [injection Ee as _ ->; lia|].
      inversion_clear Hsort as [|? ? _ Hall]. rewrite Forall_forall in Hall. specialize (Hall _ Hap). cbn in Hall. lia.
    - intros e He Ev. apply elem_of_entries in He as (g & Hg & _ & Eg). apply (proj1 (hit_none vw x) E g Hg). congruence. }
  specialize (IH (better b (hit vw x)) ltac:(intros v Hvw; apply HW; right; done)).
  assert (forall e, e ∈ entries vw -> e_val e = masked (v_mask vw) x -> exists bp, better b (hit vw x) = Some bp /\ e_prio e <= snd bp) as Hbest.
  { intros e He Ev. destruct (hit vw x) as [ap|]; [|destruct (Hhit e He Ev)]. destruct Hhit as [_ Hh]. specialize (Hh e He Ev).
    destruct b as [bp|]; cbn; [|eauto]. destruct (Z.ltb_spec (snd bp) (snd ap)); [eauto|]. exists bp. split; [done | lia]. }
  assert (forall bp, b = Some bp -> exists bp', better b (hit vw x) = Some bp' /\ snd bp <= snd bp') as Hkeep.
  { intros bp ->. destruct (hit vw x) as [ap|]; cbn; [|eauto using Z.le_refl]. destruct (Z.ltb_spec (snd bp) (snd ap)); eauto using Z.le_refl, Z.lt_le_incl. }
  destruct (best_from (better b (hit vw x)) W x) as [ap|].
  - destruct IH as (H1 & H2 & H3).
    + destruct b as [bp|], (hit vw x) as [ap'|]; cbn; try done; [destruct (snd bp <? snd ap'); [|done]|]; destruct Hhit as [(e & He & Hrest) _]; exists vw, e; done.
    + split; [done|]. split.
      * intros bp Eb. destruct (Hkeep bp Eb) as (bp' & E & Hle). specialize (H2 bp' E). lia.
      * intros v e Hvw He Ev. apply elem_of_cons in Hvw as [->|Hvw]; [|apply (H3 v e); done].
        destruct (Hbest e He Ev) as (bp & E & Hle). specialize (H2 bp E). lia.
  - destruct IH as (H1 & H2).
    + destruct b as [bp|], (hit vw x) as [ap'|]; cbn; try done; [destruct (snd bp <? snd ap'); [|done]|]; destruct Hhit as [(e & He & Hrest) _]; exists vw, e; done.
    + split; [destruct b as [bp|]; [|done]; destruct (Hkeep bp eq_refl) as (? & ? & _); congruence|].
      intros v e Hvw He Ev. apply elem_of_cons in Hvw as [->|Hvw]; [|apply (H2 v e Hvw He Ev)].
      destruct (Hbest e He Ev) as (bp & E & _). congruence.
Qed.

Lemma best_answers c V x : tables_rep target c V -> words_ok target x -> answers (table V) x (fst <$> best_from None V x).
Proof.
  intros HT Hx. pose proof (best_from_answers c V x HT Hx V None (fun _ H => H) I) as H.
  destruct (best_from None V x) as [ap|]; cbn.
  - destruct H as ((vw & e & Hv & He & Ea & Ep & Ev) & _ & Hbest). exists (frule_of (v_mask vw) e). split; [apply elem_of_table; eauto|].
    split; [done|]. split; [done|]. intros g Hg Hm. apply elem_of_table in Hg as (v & e' & Hv' & He' & ->). cbn. rewrite Ep. apply (Hbest v e'); done.
  - destruct H as [_ H]. intros g Hg Hm. apply elem_of_table in Hg as (v & e & Hv & He & ->). apply (H v e Hv He Hm).
Qed.

(** ** The classifiers that the operations make *)

(** The rule of the table is in the store. *)
Definition rule_stored (R : gmap nat cls_rule) (f : frule) : Prop :=
  exists r, R !! f_addr f = Some r /\ mm_rep target (match_of r) (f_val f) (f_mask f) /\ priority r = f_prio f /\
    words_ok target (f_val f) /\ masked (f_mask f) (f_val f) = f_val f /\ in_u32 (f_prio f).

(** [cls_rule_init] makes such a rule of a match that has no bits outside its mask. *)
Lemma rule_init_stored R dst f w prio a r : has_room target (mm_flow (match_of dst)) -> has_room target (masks (mm_mask (match_of dst))) ->
  words_ok target f -> words_ok target w -> masked w f = f -> in_u32 prio ->
  cls_rule_init target dst (Mk_match f w) prio = Ok r -> R !! a = Some r -> rule_stored R (Mk_frule a prio f w).
Proof.
  intros Hf Hw Hfo Hwo Hm Hp Hr Ha. unfold cls_rule_init in Hr.
  destruct (minimatch_init_rep target Htarget (match_of dst) f w Hf Hw (wo_len _ _ Hfo) (wo_u32 _ _ Hfo) (wo_len _ _ Hwo) (wo_u32 _ _ Hwo)) as (m & Em & Hmm).
  rewrite Em in Hr. cbn [rbind] in Hr. injection Hr as <-. eexists. split; [exact Ha|]. done.
Qed.

Inductive cls_built : classifier -> list frule -> Prop :=
  | built_init (segs : option (list nat)) R c : StronglySorted le (default [] segs) ->
      classifier_init target (option_map (map Z.of_nat) segs) R = Ok c -> cls_built c []
  | built_prefix c T l c' : cls_built c T -> classifier_set_prefix_fields target c l = Ok c' -> cls_built c' T
  | built_store c T R : cls_built c T -> (forall f, f ∈ T -> R !! f_addr f = rule_at c !! f_addr f) -> cls_built (set_rule_at R c) T
  | built_replace c T s p f c' old : cls_built c T -> rule_stored (rule_at c) f -> f_addr f ∉ f_addr <$> T -> subtable_at c !! s = None ->
      partition_at c !! p = None -> Z.of_nat (length T) + 1 < 2 ^ 31 ->
      classifier_replace target c s p (f_addr f) = Ok (c', old) -> cls_built c' (t_replace f T)
  | built_remove c T f c' : cls_built c T -> f ∈ T -> short_fields c -> classifier_remove target c (f_addr f) = Ok c' ->
      cls_built c' (t_remove (f_addr f) T).

(** Such a classifier stands for views of its table. *)
Definition stands (c : classifier) (T : list frule) : Prop := exists V P, cls_rep target c V P /\ table V ≡ₚ T.

Lemma stands_store c T R : stands c T -> (forall f, f ∈ T -> R !! f_addr f = rule_at c !! f_addr f) -> stands (set_rule_at R c) T.
Proof.
  intros (V & P & HC & HT) HR. exists V, P. split; [|done]. destruct HC as [[[H1 H2 H3 H4 H5 H6 H7] H8 H9] HP Htr Hn Hcnt Hsm].
  assert (forall vw e, vw ∈ V -> e ∈ entries vw -> R !! e_addr e = rule_at c !! e_addr e) as HR'.
  { intros vw e Hv He. apply (HR (frule_of (v_mask vw) e)). rewrite <- HT. apply elem_of_table. eauto. }
  split; [split; [split; try done | done | done] | | | done | done | done].
  - rewrite Forall_forall in H1 |- *. intros vw Hv. apply (view_at_eq target c); [done | intros e He; apply (HR' vw); done | apply H1; done].
  - split; [apply (parts_core_frame c _ (md_tags target V)); [done | done | done | apply HP]|].
    intros vw e r Hv He Hr. apply (pr_rules _ _ _ _ HP vw e r Hv He). rewrite <- (HR' vw e Hv He). exact Hr.
  - destruct Htr. split; done.
Qed.

Lemma stands_replace c T s p f : stands c T -> rule_stored (rule_at c) f -> f_addr f ∉ f_addr <$> T -> subtable_at c !! s = None ->
  partition_at c !! p = None -> Z.of_nat (length T) + 1 < 2 ^ 31 ->
  exists c', classifier_replace target c s p (f_addr f) = Ok (c', t_displaced f T) /\ stands c' (t_replace f T) /\ same_fields c c' /\
    (forall a, a <> f_addr f -> rule_at c' !! a = rule_at c !! a).
Proof.
  intros (V & P & HC & HT) (r & Hr & Hm & Hp & Hw & Hz & Hu) Hfresh Hs Hpp Hn. set (e := Mk_entry (f_addr f) (f_prio f) (f_val f)).
  destruct (classifier_replace_rep target Htarget c V P s p (f_addr f) r (f_mask f) e HC) as (c' & old & V' & P' & E & [HC' Hadd Hrules _ _ Hsf]).
  - done.
  - intros Hin. apply list_elem_of_fmap in Hin as (vw & -> & Hv). pose proof (tr_views _ _ _ (tr_core _ _ _ (cr_tables _ _ _ _ HC))) as HV.
    rewrite Forall_forall in HV. destruct (HV vw Hv) as (t & Ht & _). congruence.
  - intros Hin. apply list_elem_of_fmap in Hin as (q & -> & Hq). pose proof (pr_parts _ _ _ (pr_core _ _ _ _ (cr_parts _ _ _ _ HC))) as HPs.
    rewrite Forall_forall in HPs. destruct (HPs q Hq) as (pt & l & Hpt & _). congruence.
  - rewrite <- table_addrs, HT. done.
  - rewrite <- table_length, HT. done.
  - assert (frule_of (f_mask f) e = f) as Ef by (destruct f; done). rewrite Ef in Hadd.
    assert (table_add f old T (table V')) as Hadd'.
    { destruct old as [o|]; cbn in Hadd |- *; [destruct Hadd as (rest & H1 & H2); exists rest; rewrite <- HT; done | rewrite <- HT; done]. }
    pose proof (tr_core _ _ _ (cr_tables _ _ _ _ HC')) as HT'.
    destruct (table_replaced f old T (table V') Hadd' (table_nodup c' V' HT') (fun g h => table_keys c' V' g h HT')) as [Hperm ->].
    exists c'. split; [exact E|]. split; [exists V', P'; done|]. split; [done|]. destruct Hrules as (r' & -> & _). intros a Ha.
    apply lookup_insert_ne. done.
Qed.

Lemma stands_remove c T f : stands c T -> f ∈ T -> short_fields c ->
  exists c', classifier_remove target c (f_addr f) = Ok c' /\ stands c' (t_remove (f_addr f) T) /\ same_fields c c' /\ rule_at c' = rule_at c.
Proof.
  intros (V & P & HC & HT) Hf Hshort. rewrite <- HT in Hf. apply elem_of_table in Hf as (vw & e & Hv & He & ->).
  destruct (classifier_remove_rep target Htarget c V P vw e HC Hv He Hshort) as (c' & V' & P' & E & [HC' Htab Hrules _ _ Hsf]).
  exists c'. split; [exact E|]. split; [|done]. exists V', P'. split; [done|].
  rewrite (table_removed _ _ _ Htab (table_nodup c V (tr_core _ _ _ (cr_tables _ _ _ _ HC)))). unfold t_remove. apply filter_perm. done.
Qed.

Lemma stands_prefix c T l : stands c T -> exists c', classifier_set_prefix_fields target c l = Ok c' /\ stands c' T /\ rule_at c' = rule_at c /\
  (n_tries c' <= length l)%nat.
Proof.
  intros (V & P & HC & HT). destruct (set_prefix_fields_rep target Htarget c V P HC l) as (c' & V' & E & HC' & Hsim & Hr & Hn).
  exists c'. split; [done|]. split; [|done]. exists V', P. split; [done|]. destruct (similar_all target _ _ Hsim) as (_ & -> & _). done.
Qed.

(** Every classifier of a history does. *)
Lemma built_stands c T : cls_built c T -> stands c T.
Proof.
  induction 1 as [segs R c Hs E|c T l c' _ IH E|c T R _ IH HR|c T s p f c' old _ IH Hst Hf Hs Hp Hn E|c T f c' _ IH Hf Hsh E].
  - exists [], []. split; [apply (init_rep target Htarget segs R); done | done].
  - destruct (stands_prefix c T l IH) as (c1 & E1 & H & _). congruence.
  - apply stands_store; done.
  - destruct (stands_replace c T s p f IH Hst Hf Hs Hp Hn) as (c1 & E1 & H & _). congruence.
  - destruct (stands_remove c T f IH Hf Hsh) as (c1 & E1 & H & _). congruence.
Qed.

(** A lookup in it. *)
Lemma stands_lookup c T f wc : stands c T -> flow_typed f -> wc_opt_ok target wc ->
  exists a wc', classifier_lookup target c f wc = Ok (a, wc') /\ answers T (flow_u32 target f) a /\
    match wc, wc' with
    | None, None => True
    | Some w, Some w' => words_ok target w' /\ covers w' w /\
        forall g, flow_typed g -> metadata g = metadata f -> agree_on w' (flow_u32 target f) (flow_u32 target g) ->
          classifier_lookup target c g None = Ok (a, None)
    | _, _ => False
    end.
Proof.
  intros (V & P & HC & HT) Hf Hwc. destruct (classifier_lookup_rep target Htarget c V P f wc HC Hf Hwc) as (wc' & E & Hd).
  destruct (flow_u32_ok target Htarget f Hf) as [Hl Hu]. exists (fst <$> best_from None V (flow_u32 target f)), wc'. split; [done|]. split.
  - apply (answers_perm _ _ _ _ HT). apply (best_answers c); [apply HC | split; done].
  - destruct wc as [w|], wc' as [w'|]; try done. destruct Hd as (H1 & H2 & H3). split; [done|]. split; [done|]. intros g Hg Hmd Hag.
    destruct (classifier_lookup_rep target Htarget c V P g None HC Hg I) as (wg & Eg & Hdg). destruct wg; [done|]. rewrite Eg.
    destruct (flow_u32_ok target Htarget g Hg) as [Hlg Hug]. rewrite (H3 (flow_u32 target g)); [done | split; done | | done].
    rewrite <- !(metadata_of_words target Htarget); done.
Qed.

End History.
