(* ===== verification/ClsProps.v ===== *)
(** * The classifier: properties

    In every classifier that its operations make, a lookup finds the best rule
    of the table and leaves wildcards that decide it, insertion and removal change
    the table by one rule, and the tries are there for speed only. *)

From Stdlib Require Import ZArith Lia List Bool Sorted.
From stdpp Require Import base option list_relations list sets gmap sorting.
From S2P Require Import Prelude Bytes Hash Csum Packets Bits Hmap Hindex Flow FlowFacts FlowCompose Miniflow MiniflowFacts MiniflowProps MatchSet MetaFlow Tag Trie TrieFacts Classifier ClsFacts ClsRep ClsLookup ClsTables ClsRules ClsParts ClsUpdate ClsRemove ClsInit ClsHistory.
#[local] Open Scope Z_scope.
#[local] Open Scope res_scope.

(** ** Helpers *)

Lemma stands_count target c T : stands target c T -> classifier_count c = Z.of_nat (length T).
Proof.
  intros (V & P & HC & HT). unfold classifier_count. rewrite (cr_n_rules _ _ _ _ HC), <- table_length, HT. done.
Qed.

Lemma stands_empty target c T : stands target c T -> classifier_is_empty c = bool_decide (T = []).
Proof.
  intros H. apply stands_count in H. unfold classifier_is_empty, classifier_count in *. rewrite H.
  destruct T; [done|]. rewrite bool_decide_eq_false_2 by done. apply Z.eqb_neq. cbn. lia.
Qed.

(** The prefixes for the tries are not in the answer. *)
Lemma similar_best V V' x : Forall2 similar V V' -> forall b, best_from b V' x = best_from b V x.
Proof. induction 1 as [|v v' V V' (ps & ->) H IH]; intros b; [done|]. cbn [best_from]. apply IH. Qed.

(** ** A sample: two networks, a metadata and a rule for everything *)

Definition sample_dst : cls_rule := Mk_rule (raw_minimatch x86_64) 0 None 0 [].
Definition sample_match (k : nat) : smatch :=
  match k with
  | 1%nat | 5%nat => match_set_dl_type (htons 0x800) (match_set_nw_dst_masked (htonl 0x0a000000) (htonl 0xff000000) match_init_catchall)
  | 2%nat => match_set_dl_type (htons 0x800) (match_set_nw_dst_masked (htonl 0x0a010000) (htonl 0xffff0000) match_init_catchall)
  | 3%nat => match_set_metadata 7 (match_set_dl_type (htons 0x800) match_init_catchall)
  | _ => match_init_catchall
  end.
Definition sample_prio (k : nat) : Z := nth k [0; 10; 5; 20; 0; 10] 0.
Definition sample_rule (k : nat) : frule :=
  Mk_frule k (sample_prio k) (flow_u32 x86_64 (m_flow (sample_match k))) (flow_u32 x86_64 (m_wc (sample_match k))).
Definition sample_init (k : nat) : Res cls_rule :=
  cls_rule_init x86_64 sample_dst (Mk_match (f_val (sample_rule k)) (f_mask (sample_rule k))) (sample_prio k).
Definition sample_store : gmap nat cls_rule :=
  list_to_map (map (fun k => (k, match sample_init k with Ok r => r | Fault _ => sample_dst end)) [1; 2; 3; 4; 5]%nat).
Definition sample_segments : option (list nat) := Some [24; 28; 49; 255]%nat.

(** The classifier after its creation, with tries, and after each rule. *)
Definition sample_start : classifier :=
  match classifier_init x86_64 (option_map (map Z.of_nat) sample_segments) sample_store with
  | Ok c => c
  | Fault _ => Mk_classifier 0 [] hmap_init [] hmap_init [] 0 ∅ ∅ ∅
  end.
Fixpoint sample (n : nat) : classifier :=
  match n with
  | O => match classifier_set_prefix_fields x86_64 sample_start [MFF_IPV4_DST; MFF_IPV4_SRC] with Ok c => c | Fault _ => sample_start end
  | S k => match classifier_replace x86_64 (sample k) (100 + n) (200 + n) n with Ok (c, _) => c | Fault _ => sample k end
  end.
Fixpoint sample_table (n : nat) : list frule :=
  match n with O => [] | S k => t_replace (sample_rule n) (sample_table k) end.
Definition sample_packet : flow := set_nw_dst (htonl 0x0a010203) (set_dl_type (htons 0x800) flow_zero).

Lemma words_check l : length l = FLOW_U32S x86_64 -> forallb (fun x => (0 <=? x) && (x <? 2 ^ 32)) l = true -> words_ok x86_64 l.
Proof.
  intros Hl H. split; [done|]. apply Forall_forall. intros x Hx. rewrite forallb_forall in H. apply list_elem_of_In in Hx. specialize (H x Hx).
  unfold in_u32. lia.
Qed.

Lemma sample_stored k : k ∈ [1; 2; 3; 4; 5]%nat -> forall R, R !! k = sample_store !! k -> rule_stored x86_64 R (sample_rule k).
Proof.
  intros Hk R HR. assert (exists r, sample_init k = Ok r /\ sample_store !! k = Some r) as (r & Er & Hr).
  { rewrite !elem_of_cons in Hk. destruct Hk as [->|[->|[->|[->|[->|Hk]]]]]; [..|inversion Hk]; eexists; (split; [vm_compute; reflexivity | vm_compute; reflexivity]). }
  apply (rule_init_stored x86_64 (or_intror eq_refl) R sample_dst _ _ _ k r); try done; [.. | rewrite HR; done];
    rewrite !elem_of_cons in Hk; destruct Hk as [->|[->|[->|[->|[->|Hk]]]]]; try (inversion Hk; fail);
    first [apply words_check; vm_compute; reflexivity | vm_compute; reflexivity | unfold in_u32, sample_prio; cbn; lia].
Qed.

Lemma sample_packet_typed : flow_typed sample_packet.
Proof.
  unfold sample_packet. apply typed_nw_dst; [apply typed_dl_type|]; [|vm_compute; intuition congruence..].
  assert (flow_typed flow_zero) as H.
  { split; try apply bytes_n_zeros; try (cbn; unfold in_u64, in_u32, in_u16, in_u8; lia); [split; cbn; unfold in_u64, in_u32, in_u16, in_u8; lia|].
    split; [|done]. repeat constructor; done. }
  exact H.
Qed.

Lemma sample_step n : (n < 5)%nat -> exists old, classifier_replace x86_64 (sample n) (100 + S n) (200 + S n) (S n) = Ok (sample (S n), old).
Proof.
  intros Hn. destruct n as [|[|[|[|[|n]]]]]; [.. | lia]; eexists; vm_compute; reflexivity.
Qed.

Lemma sample_built n : (n <= 5)%nat -> cls_built x86_64 (sample n) (sample_table n).
Proof.
  assert (cls_built x86_64 (sample 0) []) as H0.
  { apply (built_prefix x86_64 sample_start [] [MFF_IPV4_DST; MFF_IPV4_SRC]); [|vm_compute; reflexivity].
    apply (built_init x86_64 sample_segments sample_store); [|vm_compute; reflexivity].
    repeat (constructor; [|repeat constructor; lia]). constructor. }
  induction n as [|n IH]; intros Hn; [exact H0|]. destruct (sample_step n) as (old & E); [lia|].
  apply (built_replace x86_64 (sample n) (sample_table n) (100 + S n) (200 + S n) (sample_rule (S n)) _ old); [apply IH; lia | | | | | | exact E].
  - apply sample_stored; [apply list_elem_of_In; cbn; lia|]. destruct n as [|[|[|[|[|n]]]]]; [.. | lia]; vm_compute; reflexivity.
  - apply (bool_decide_unpack _). destruct n as [|[|[|[|[|n]]]]]; [.. | lia]; vm_compute; exact I.
  - destruct n as [|[|[|[|[|n]]]]]; [.. | lia]; vm_compute; reflexivity.
  - destruct n as [|[|[|[|[|n]]]]]; [.. | lia]; vm_compute; reflexivity.
  - destruct n as [|[|[|[|[|n]]]]]; [.. | lia]; vm_compute; reflexivity.
Qed.

(** ** Lookup *)

(** C20. In every classifier made by initialization, insertions, replacements,
    removals and changes of the prefix fields, [classifier_lookup] does not fault
    and returns a rule that matches the flow and has the highest priority of those
    that do; it returns none only when no rule of the table matches. Stages,
    partitions, tries and the order of the subtables only cut the search short. *)
Theorem classifier_lookup_best target c T f wc : target = i686 \/ target = x86_64 -> cls_built target c T -> flow_typed f -> wc_opt_ok target wc ->
  exists a wc', classifier_lookup target c f wc = Ok (a, wc') /\ answers T (flow_u32 target f) a.
Proof.
  intros Ht Hb Hf Hwc. destruct (stands_lookup target Ht c T f wc (built_stands target Ht c T Hb) Hf Hwc) as (a & wc' & E & H & _).
  exists a, wc'. done.
Qed.

Lemma classifier_lookup_best_witness : exists wc',
  classifier_lookup x86_64 (sample 5) sample_packet (Some (flow_wildcards_init_catchall x86_64)) = Ok (Some 5%nat, wc') /\
  answers (sample_table 5) (flow_u32 x86_64 sample_packet) (Some 5%nat).
Proof.
  destruct (classifier_lookup_best x86_64 (sample 5) (sample_table 5) sample_packet (Some (flow_wildcards_init_catchall x86_64)))
    as (a & wc' & E & H); [right; reflexivity | apply sample_built; lia | apply sample_packet_typed | apply words_check; vm_compute; reflexivity |].
  assert (a = Some 5%nat) as ->.
  { assert (option_map fst (match classifier_lookup x86_64 (sample 5) sample_packet (Some (flow_wildcards_init_catchall x86_64)) with
      Ok r => Some r | Fault _ => None end) = Some (Some 5%nat)) as E2 by (vm_compute; reflexivity). rewrite E in E2. cbn in E2. congruence. }
  exists wc'. split; assumption.
Defined.

(** C21. The wildcards that a lookup leaves justify a cached answer: they keep the
    bits that were there before, and every flow with the same metadata that agrees
    with the packet's on the bits they name has the same answer from the same
    classifier. *)
Theorem classifier_wildcards_decide target c T f w : target = i686 \/ target = x86_64 -> cls_built target c T -> flow_typed f -> words_ok target w ->
  exists a w', classifier_lookup target c f (Some w) = Ok (a, Some w') /\ words_ok target w' /\ covers w' w /\
    forall g, flow_typed g -> metadata g = metadata f -> agree_on w' (flow_u32 target f) (flow_u32 target g) ->
      classifier_lookup target c g None = Ok (a, None).
Proof.
  intros Ht Hb Hf Hw. destruct (stands_lookup target Ht c T f (Some w) (built_stands target Ht c T Hb) Hf Hw) as (a & [w'|] & E & _ & H); [|done].
  exists a, w'. split; [done | exact H].
Qed.

Lemma classifier_wildcards_decide_witness : exists a w',
  classifier_lookup x86_64 (sample 5) sample_packet (Some (flow_wildcards_init_catchall x86_64)) = Ok (a, Some w') /\
  (agree_on w' (flow_u32 x86_64 sample_packet) (flow_u32 x86_64 (set_tp_src 80 sample_packet)) ->
    classifier_lookup x86_64 (sample 5) (set_tp_src 80 sample_packet) None = Ok (a, None)).
Proof.
  destruct (classifier_wildcards_decide x86_64 (sample 5) (sample_table 5) sample_packet (flow_wildcards_init_catchall x86_64))
    as (a & w' & E & _ & _ & H); [right; reflexivity | apply sample_built; lia | apply sample_packet_typed | apply words_check; vm_compute; reflexivity |].
  exists a, w'. split; [exact E|]. apply H; [|reflexivity]. apply typed_tp_src; [apply sample_packet_typed | unfold in_u16; lia].
Defined.

(** What the wildcards leave out: the metadata of the flow selects the partition,
    and with it the subtables that are searched, but is not added to them.  A flow
    that differs in its metadata alone agrees on all they name and has another
    rule. *)
Lemma wildcards_omit_metadata : exists w',
  classifier_lookup x86_64 (sample 5) sample_packet (Some (flow_wildcards_init_catchall x86_64)) = Ok (Some 5%nat, Some w') /\
  flow_equal_except (flow_u32 x86_64 sample_packet) (flow_u32 x86_64 (set_metadata 7 sample_packet)) w' = true /\
  exists wc, classifier_lookup x86_64 (sample 5) (set_metadata 7 sample_packet) None = Ok (Some 3%nat, wc).
Proof.
  eexists. split; [vm_compute; reflexivity|]. split; [vm_compute; reflexivity|]. eexists. vm_compute. reflexivity.
Qed.

(** ** Changes *)

(** C22. [classifier_replace] does not fault, and returns the rule of the table with
    the same match and priority, if there is one; the table then has the new rule
    in its place, every lookup afterwards is answered from that table, the rules
    are counted, and of the rules in memory only the new one is written.
    [classifier_insert] does the same and aborts exactly when a rule is displaced. *)
Theorem classifier_replace_refines target c T s p f : target = i686 \/ target = x86_64 -> cls_built target c T ->
  rule_stored target (rule_at c) f -> f_addr f ∉ (f_addr <$> T) -> subtable_at c !! s = None -> partition_at c !! p = None ->
  Z.of_nat (length T) + 1 < 2 ^ 31 ->
  exists c', classifier_replace target c s p (f_addr f) = Ok (c', t_displaced f T) /\ cls_built target c' (t_replace f T) /\
    (forall g wc, flow_typed g -> wc_opt_ok target wc ->
      exists a wc', classifier_lookup target c' g wc = Ok (a, wc') /\ answers (t_replace f T) (flow_u32 target g) a) /\
    classifier_count c' = Z.of_nat (length (t_replace f T)) /\
    (forall a, a <> f_addr f -> rule_at c' !! a = rule_at c !! a) /\
    classifier_insert target c s p (f_addr f) = match t_displaced f T with None => Ok c' | Some _ => Fault AssertFail end.
Proof.
  intros Ht Hb Hst Hf Hs Hp Hn. destruct (stands_replace target Ht c T s p f (built_stands target Ht c T Hb) Hst Hf Hs Hp Hn) as (c' & E & Hc' & _ & Hr).
  exists c'. split; [done|]. split; [apply (built_replace target c T s p f c' _ Hb Hst Hf Hs Hp Hn E)|]. split; [|split; [apply (stands_count _ _ _ Hc')|split; [done|]]].
  - intros g wc Hg Hwc. destruct (stands_lookup target Ht c' _ g wc Hc' Hg Hwc) as (a & wc' & El & H & _). exists a, wc'. done.
  - unfold classifier_insert. rewrite E. cbn [rbind]. destruct (t_displaced f T); done.
Qed.

Lemma classifier_replace_refines_witness : exists c',
  classifier_replace x86_64 (sample 4) 105 205 5 = Ok (c', Some 1%nat) /\ classifier_count c' = 4 /\
  classifier_insert x86_64 (sample 4) 105 205 5 = Fault AssertFail.
Proof.
  destruct (classifier_replace_refines x86_64 (sample 4) (sample_table 4) 105 205 (sample_rule 5)) as (c' & E & _ & _ & Hn & _ & Hi).
  - right. reflexivity.
  - apply sample_built. lia.
  - apply sample_stored; [apply list_elem_of_In; cbn; lia | vm_compute; reflexivity].
  - apply (bool_decide_unpack _). vm_compute. exact I.
  - vm_compute. reflexivity.
  - vm_compute. reflexivity.
  - vm_compute. reflexivity.
  - assert (t_displaced (sample_rule 5) (sample_table 4) = Some 1%nat) as Ed by (vm_compute; reflexivity). rewrite Ed in E, Hi.
    exists c'. split; [exact E|]. split; [rewrite Hn; vm_compute; reflexivity | exact Hi].
Defined.

(** C23. When the fields of the tries have at most three words (no IPv6 address:
    with longer ones [trie_remove] can write past an array, see the findings),
    [classifier_remove] of a rule of the table does not fault and takes exactly
    this rule out of it: lookups afterwards are answered from the table without
    the rule, the rules are counted, and the classifier is empty exactly when the
    table is. *)
Theorem classifier_remove_refines target c T f : target = i686 \/ target = x86_64 -> cls_built target c T -> f ∈ T -> short_fields c ->
  exists c', classifier_remove target c (f_addr f) = Ok c' /\ cls_built target c' (t_remove (f_addr f) T) /\
    (forall g wc, flow_typed g -> wc_opt_ok target wc ->
      exists a wc', classifier_lookup target c' g wc = Ok (a, wc') /\ answers (t_remove (f_addr f) T) (flow_u32 target g) a) /\
    classifier_count c' = Z.of_nat (length (t_remove (f_addr f) T)) /\
    classifier_is_empty c' = bool_decide (t_remove (f_addr f) T = []) /\ rule_at c' = rule_at c.
Proof.
  intros Ht Hb Hf Hs. destruct (stands_remove target Ht c T f (built_stands target Ht c T Hb) Hf Hs) as (c' & E & Hc' & _ & Hr).
  exists c'. split; [done|]. split; [apply (built_remove target c T f c' Hb Hf Hs E)|]. split; [|split; [apply (stands_count _ _ _ Hc')|split; [|done]]].
  - intros g wc Hg Hwc. destruct (stands_lookup target Ht c' _ g wc Hc' Hg Hwc) as (a & wc' & El & H & _). exists a, wc'. done.
  - apply (stands_empty _ _ _ Hc').
Qed.

Lemma classifier_remove_refines_witness : exists c',
  classifier_remove x86_64 (sample 5) 3 = Ok c' /\ classifier_count c' = 3 /\
  exists wc', classifier_lookup x86_64 c' sample_packet None = Ok (Some 5%nat, wc').
Proof.
  destruct (classifier_remove_refines x86_64 (sample 5) (sample_table 5) (sample_rule 3)) as (c' & E & _ & Hl & Hn & _).
  - right. reflexivity.
  - apply sample_built. lia.
  - apply (bool_decide_unpack _). vm_compute. exact I.
  - vm_compute. repeat constructor.
  - exists c'. split; [exact E|]. split; [rewrite Hn; vm_compute; reflexivity|].
    destruct (Hl sample_packet None sample_packet_typed I) as (a & wc' & El & _). exists wc'. rewrite El.
    assert (match classifier_remove x86_64 (sample 5) 3 with
      Ok c => match classifier_lookup x86_64 c sample_packet None with Ok r => fst r | Fault _ => None end | Fault _ => None end = Some 5%nat) as E2
      by (vm_compute; reflexivity). cbn [f_addr sample_rule] in E. rewrite E, El in E2. cbn in E2. rewrite E2. reflexivity.
Defined.

(** C24. [classifier_set_prefix_fields] accepts any list of fields in any
    classifier: it makes at most one trie for each from the rules there are, and
    every lookup has the same answer as before, with wildcards or without. *)
Theorem classifier_prefix_fields_keep target c T l : target = i686 \/ target = x86_64 -> cls_built target c T ->
  exists c', classifier_set_prefix_fields target c l = Ok c' /\ cls_built target c' T /\ (n_tries c' <= length l)%nat /\
    (forall g wc, flow_typed g -> wc_opt_ok target wc -> exists a wc1 wc2,
      classifier_lookup target c g wc = Ok (a, wc1) /\ classifier_lookup target c' g wc = Ok (a, wc2)) /\
    classifier_count c' = classifier_count c.
Proof.
  intros Ht Hb. destruct (built_stands target Ht c T Hb) as (V & P & HC & HT).
  destruct (set_prefix_fields_rep target Ht c V P HC l) as (c' & V' & E & HC' & Hsim & Hr & Hn).
  exists c'. split; [done|]. split; [apply (built_prefix target c T l c' Hb E)|]. split; [done|]. split.
  - intros g wc Hg Hwc. destruct (classifier_lookup_rep target Ht c V P g wc HC Hg Hwc) as (wc1 & E1 & _).
    destruct (classifier_lookup_rep target Ht c' V' P g wc HC' Hg Hwc) as (wc2 & E2 & _). rewrite (similar_best _ _ _ Hsim) in E2.
    eexists _, wc1, wc2. done.
  - unfold classifier_count. rewrite (cr_n_rules _ _ _ _ HC), (cr_n_rules _ _ _ _ HC').
    destruct (similar_all target _ _ Hsim) as (-> & _). done.
Qed.

Lemma classifier_prefix_fields_keep_witness : exists c',
  classifier_set_prefix_fields x86_64 (sample 5) [MFF_IPV6_SRC; MFF_IPV4_SRC] = Ok c' /\ (n_tries c' <= 2)%nat /\ classifier_count c' = classifier_count (sample 5).
Proof.
  destruct (classifier_prefix_fields_keep x86_64 (sample 5) (sample_table 5) [MFF_IPV6_SRC; MFF_IPV4_SRC]) as (c' & E & _ & Hn & _ & Hc);
    [right; reflexivity | apply sample_built; lia |]. exists c'. split; [exact E|]. split; [exact Hn | exact Hc].
Defined.
