(* ===== verification/Sfa.v ===== *)
(** * The stateful forwarding module: tables and messages ([ofproto/sfa.h],
      [ofproto/sfa.c])

    The switch keeps, per controller application, a status table (match string
    to status), a status transition table and an action table (match string and
    status to action).  This file has the data of [sfa.h] and the whole of the
    message handlers of [sfa.c]: table creation, status-entry and action-entry
    modification, and the dispatch on the message type.

    Fields of enumeration type are assigned from the wire without a check, so
    they hold arbitrary 32-bit values: the enumerations are given as constants. *)

From Stdlib Require Import ZArith Lia List.
From stdpp Require Import base list option.
From S2P Require Import Prelude Bytes Hash Hmap.
#[local] Open Scope Z_scope.
#[local] Open Scope res_scope.

(** ** Data ([sfa.h]) *)

Inductive sfaerr := SFA_MSG_PROCESS_OK | SFA_MSG_PROCESS_ERROR.

Definition OFPTYPE_SFA_TABLE_CREATE : Z := 90.
Definition OFPTYPE_SFA_ST_ENTRY_MOD : Z := 91.
Definition OFPTYPE_SFA_AT_ENTRY_MOD : Z := 92.

(** [enum PARAM_TYPE] *)
Definition PARAM_NON : Z := 0.
Definition SFAPARAM_IN_PORT : Z := 1.
Definition SFAPARAM_DL_VLAN : Z := 2.
Definition SFAPARAM_DL_VLAN_PCP : Z := 3.
Definition SFAPARAM_DL_TYPE : Z := 4.
Definition SFAPARAM_NW_TOS : Z := 5.
Definition SFAPARAM_NW_PROTO : Z := 6.
Definition SFAPARAM_TP_SRC : Z := 7.
Definition SFAPARAM_TP_DST : Z := 8.
Definition SFAPARAM_TP_FLAG : Z := 9.
Definition SFAPARAM_DL_SRC : Z := 10.
Definition SFAPARAM_DL_DST : Z := 11.
Definition SFAPARAM_NW_SRC : Z := 12.
Definition SFAPARAM_NW_DST : Z := 13.
Definition SFAPARAM_METADATA : Z := 14.
Definition SFAPARAM_CONST : Z := 15.

(** [enum OPRATOR] *)
Definition OPRATOR_NON : Z := 0.
Definition OPRATOR_ISEQUAL : Z := 1.
Definition OPRATOR_ADD : Z := 2.
Definition OPRATOR_SUB : Z := 3.
Definition OPRATOR_BITAND : Z := 4.
Definition OPRATOR_BITOR : Z := 5.
Definition OPRATOR_BITWISE : Z := 6.
Definition OPRATOR_GREATER : Z := 7.
Definition OPRATOR_LESS : Z := 8.
Definition OPRATOR_EQUALGREATER : Z := 9.
Definition OPRATOR_EQUALLESS : Z := 10.

(** [enum SFA_ACTION_TYPE] *)
Definition SAT_NON : Z := 0.
Definition SAT_OUTPUT : Z := 1.
Definition SAT_DROP : Z := 2.
Definition SAT_TOOPENFLOW : Z := 3.
Definition ACT_SETSRCFIELD : Z := 4.
Definition ACT_SETDSTFIELD : Z := 5.

(** [enum MOD_TYPE] *)
Definition ENTRY_ADD : Z := 0.
Definition ENTRY_UPDATE : Z := 1.
Definition ENTRY_DEL : Z := 2.

Record STT_MATCH_ENTRY := Mk_stt {
  param_left_type : Z;
  param_left : Z;
  oprator : Z;
  param_right_type : Z;
  param_right : Z;
  stt_last_status : Z;
  cur_status : Z
}.

Record SFA_ACTION := Mk_action { actype : Z; acparam : Z }.

Record AT_MATCH_ENTRY := Mk_at_entry {
  at_data : cbuf;
  at_last_status : Z;
  act : SFA_ACTION
}.

Record ACTION_TABLE := Mk_at { at_bitmap : Z; at_entrys : hmap AT_MATCH_ENTRY }.

Record ST_MATCH_ENTRY := Mk_st_entry { st_data : cbuf; st_last_status : Z }.

Record STATUS_TABLE := Mk_st { match_bitmap : Z; st_entrys : hmap ST_MATCH_ENTRY }.

Record CONTROLLAPP := Mk_app {
  appid : Z;
  pst : STATUS_TABLE;
  pstt : list STT_MATCH_ENTRY;
  pat : ACTION_TABLE
}.

(** The global [g_apps].  Its list head is all zeroes until the first creation
    message initializes it ([None]). *)
Record APPS := Mk_apps { islistinit : bool; appslist : option (list CONTROLLAPP) }.

(** The state of the module: [g_apps] and the number of objects allocated so
    far, the source of fresh node addresses. *)
Record sfa_state := Mk_state { g_apps : APPS; next_addr : nat }.

Definition sfa_initial : sfa_state := Mk_state (Mk_apps false None) 0.

(** ** Layout of the message structures

    The handlers cast the message to C structures, so the offsets they read
    depend on the alignment of [uint64_t] inside a structure: 4 on i686, the
    platform of the repository's build, and 8 on x86-64. *)

Section Layout.
Variable target : abi.

(** [struct sfa_msg_init_st] *)
Definition st_mmp_off : nat := align_up 4 (u64_align target).
Definition st_counts_off : nat := st_mmp_off + 8.
Definition sizeof_init_st : nat := align_up (st_counts_off + 4) (u64_align target).

(** [struct sfa_msg_init_stt] *)
Definition stt_left_off : nat := align_up 4 (u64_align target).
Definition stt_right_type_off : nat := stt_left_off + 8.
Definition stt_right_off : nat := align_up (stt_right_type_off + 4) (u64_align target).
Definition stt_oprator_off : nat := stt_right_off + 8.
Definition stt_last_off : nat := stt_oprator_off + 4.
Definition stt_cur_off : nat := stt_last_off + 4.
Definition sizeof_init_stt : nat := align_up (stt_cur_off + 4) (u64_align target).

(** [struct sfa_msg_init_at] *)
Definition at_counts_off : nat := 8.
Definition sizeof_init_at : nat := align_up (at_counts_off + 4) (u64_align target).
End Layout.

Definition sizeof_ofp_header : nat := 8.
Definition sizeof_SFA_ACTION : nat := 8.

(** ** Reading a message *)

(** [ntohl( *(uint32_t * ) (p + k))] *)
Definition ld_be32 (p : list Z) (k : nat) : Res Z := rmap ntohl (ld_u32 p k).
(** [ntohll( *(uint64_t * ) (p + k))] *)
Definition ld_be64 (p : list Z) (k : nat) : Res Z := rmap ntohll (ld_u64 p k).

(** The null-terminated copy of [len] bytes at [p + off] that every branch but
    the action-table creation makes. *)
Definition copy_data (len : Z) (p : list Z) (off : nat) : Res cbuf :=
  let data := xmalloc (u32 (len + 2)) in
  let* data := buf_set data (u32 (len + 1)) 0 in
  let* data := buf_set data len 0 in
  memcpy data p off len.

(** The copy made when an action table is created. *)
Definition copy_data_at (len : Z) (p : list Z) (off : nat) : Res cbuf :=
  let data := xmalloc (u32 (len + 2)) in
  let* data := buf_set data (u32 (len - 1)) 0 in
  let* data := buf_set data len 0 in
  memcpy data p off len.

Definition advance (p : list Z) (k : Z) : list Z := drop (Z.to_nat k) p.

(** ** [sfa_msg_init] *)

Fixpoint init_st_loop (n : nat) (cursor : list Z) (addr : nat) (h : hmap ST_MATCH_ENTRY)
  : Res (list Z * nat * hmap ST_MATCH_ENTRY) :=
  match n with
  | O => Ok (cursor, addr, h)
  | S n =>
      let* last_status := ld_be32 cursor 0 in
      let cursor := advance cursor 4 in
      let* len := ld_be32 cursor 0 in
      let* data := copy_data len cursor 4 in
      let cursor := advance cursor (4 + len) in
      let* hash := hash_string data 0 in
      let* h := hmap_insert_at h (Mk_node addr 0 (Mk_st_entry data last_status)) hash in
      init_st_loop n cursor (S addr) h
  end.

Definition ld_stt (target : abi) (p : list Z) : Res STT_MATCH_ENTRY :=
  let* cur := ld_be32 p (stt_cur_off target) in
  let* op := ld_be32 p (stt_oprator_off target) in
  let* pleft := ld_be64 p (stt_left_off target) in
  let* left_type := ld_be32 p 0 in
  let* pright := ld_be64 p (stt_right_off target) in
  let* right_type := ld_be32 p (stt_right_type_off target) in
  let* last := ld_be32 p (stt_last_off target) in
  Ok (Mk_stt left_type pleft op right_type pright last cur).

(** [list_insert] of the head appends. *)
Fixpoint init_stt_loop (target : abi) (n : nat) (p : list Z) (entrys : list STT_MATCH_ENTRY)
  : Res (list Z * list STT_MATCH_ENTRY) :=
  match n with
  | O => Ok (p, entrys)
  | S n =>
      let* e := ld_stt target p in
      init_stt_loop target n (drop (sizeof_init_stt target) p) (entrys ++ [e])
  end.

Fixpoint init_at_loop (n : nat) (cursor : list Z) (addr : nat) (h : hmap AT_MATCH_ENTRY)
  : Res (list Z * nat * hmap AT_MATCH_ENTRY) :=
  match n with
  | O => Ok (cursor, addr, h)
  | S n =>
      let* ty := ld_be32 cursor 0 in
      let* param := ld_be32 cursor 4 in
      let* last_status := ld_be32 cursor sizeof_SFA_ACTION in
      let* len := ld_be32 cursor (sizeof_SFA_ACTION + 4) in
      let* data := copy_data_at len cursor (sizeof_SFA_ACTION + 2 * 4) in
      let* hash := hash_string data 0 in
      let* h := hmap_insert_at h
                  (Mk_node addr 0 (Mk_at_entry data last_status (Mk_action ty param))) hash in
      init_at_loop n (advance cursor (Z.of_nat sizeof_SFA_ACTION + 2 * 4 + len)) (S addr) h
  end.

(** [for (i = 0; i < n; i++)] with a signed [n]. *)
Definition int_iters (x : Z) : nat := Z.to_nat (s32 x).

Definition sfa_msg_init (target : abi) (s : sfa_state) (sfah : list Z)
  : Res (sfaerr * sfa_state) :=
  let g := if islistinit (g_apps s) then g_apps s else Mk_apps true (Some []) in
  let s := Mk_state g (next_addr s) in
  let p := drop sizeof_ofp_header sfah in
  let cursor := drop (sizeof_init_st target) p in
  let* aid := ld_be32 p 0 in
  match appslist g with
  | None => Fault NullDeref
  | Some apps =>
      if existsb (fun a => appid a =? aid) apps then Ok (SFA_MSG_PROCESS_OK, s)
      else
        let* counts := ld_be32 p (st_counts_off target) in
        let* mmp := ld_be64 p (st_mmp_off target) in
        let* (cursor, addr, st) := init_st_loop (int_iters counts) cursor (next_addr s) hmap_init in
        let* stt_count := ld_be32 cursor 0 in
        let* (cursor, stt) := init_stt_loop target (Z.to_nat stt_count) (drop 4 cursor) [] in
        let* at_count := ld_be32 cursor at_counts_off in
        let* bitmap := ld_be64 cursor 0 in
        let cursor := drop (sizeof_init_at target) cursor in
        let* (_, addr, at_) := init_at_loop (int_iters at_count) cursor addr hmap_init in
        let app := Mk_app aid (Mk_st mmp st) stt (Mk_at bitmap at_) in
        Ok (SFA_MSG_PROCESS_OK, Mk_state (Mk_apps true (Some (apps ++ [app]))) addr)
  end.

(** ** [sfa_msg_st_mod] *)

(** The search [LIST_FOR_EACH (app, node, &g_apps.appslist)] and the update of
    the application found. *)
Definition find_app (apps : list CONTROLLAPP) (aid : Z) : option CONTROLLAPP :=
  List.find (fun a => appid a =? aid) apps.

Fixpoint update_app (apps : list CONTROLLAPP) (aid : Z) (f : CONTROLLAPP -> CONTROLLAPP)
  : list CONTROLLAPP :=
  match apps with
  | [] => []
  | a :: apps => if appid a =? aid then f a :: apps else a :: update_app apps aid f
  end.

Definition set_pst (st : STATUS_TABLE) (a : CONTROLLAPP) : CONTROLLAPP :=
  Mk_app (appid a) st (pstt a) (pat a).
Definition set_pat (at_ : ACTION_TABLE) (a : CONTROLLAPP) : CONTROLLAPP :=
  Mk_app (appid a) (pst a) (pstt a) at_.
Definition set_st_status (status : Z) (e : ST_MATCH_ENTRY) : ST_MATCH_ENTRY :=
  Mk_st_entry (st_data e) status.

Fixpoint st_mod_loop (n : nat) (cursor : list Z) (addr : nat) (h : hmap ST_MATCH_ENTRY)
  : Res (sfaerr * nat * hmap ST_MATCH_ENTRY) :=
  match n with
  | O => Ok (SFA_MSG_PROCESS_OK, addr, h)
  | S n =>
      let* ty := ld_be32 cursor 0 in
      if ty =? ENTRY_ADD then
        let* status := ld_be32 cursor 4 in
        let* len := ld_be32 cursor (2 * 4) in
        let* data := copy_data len cursor (3 * 4) in
        let* hash := hash_string data 0 in
        let* first := hmap_first_with_hash h hash in
        match first with
        | _ :: _ => st_mod_loop n (advance cursor (3 * 4 + len)) addr h
        | [] =>
            let* h := hmap_insert_at h (Mk_node addr 0 (Mk_st_entry data status)) hash in
            st_mod_loop n (advance cursor (3 * 4 + len)) (S addr) h
        end
      else if ty =? ENTRY_UPDATE then
        let* status := ld_be32 cursor 4 in
        let* len := ld_be32 cursor (2 * 4) in
        let* data := copy_data len cursor (3 * 4) in
        let* hash := hash_string data 0 in
        let* first := hmap_first_with_hash h hash in
        match first with
        | [] => st_mod_loop n (advance cursor (3 * 4 + len)) addr h
        | node :: _ =>
            st_mod_loop n (advance cursor (3 * 4 + len)) addr
              (store_val h (node_addr node) (set_st_status status))
        end
      else if ty =? ENTRY_DEL then
        let* len := ld_be32 cursor (2 * 4) in
        let* data := copy_data len cursor (3 * 4) in
        let* hash := hash_string data 0 in
        let* first := hmap_first_with_hash h hash in
        match first with
        | [] => st_mod_loop n (advance cursor (3 * 4 + len)) addr h
        | node :: _ =>
            let* h := hmap_remove h node in
            st_mod_loop n (advance cursor (3 * 4 + len)) addr h
        end
      else Ok (SFA_MSG_PROCESS_ERROR, addr, h)
  end.

Definition sfa_msg_st_mod (s : sfa_state) (sfah : list Z) : Res (sfaerr * sfa_state) :=
  let pmsg := drop sizeof_ofp_header sfah in
  let* aid := ld_be32 pmsg 0 in
  if negb (islistinit (g_apps s)) then Ok (SFA_MSG_PROCESS_ERROR, s) else
  match appslist (g_apps s) with
  | None => Fault NullDeref
  | Some apps =>
      match find_app apps aid with
      | None => Ok (SFA_MSG_PROCESS_ERROR, s)
      | Some app =>
          let st := pst app in
          let* count := ld_be32 pmsg 4 in
          let* (err, addr, h) :=
            st_mod_loop (int_iters count) (drop (2 * 4) pmsg) (next_addr s) (st_entrys st) in
          let st := Mk_st (match_bitmap st) h in
          Ok (err, Mk_state (Mk_apps true (Some (update_app apps aid (set_pst st)))) addr)
      end
  end.

(** ** [sfa_msg_at_mod] *)

Definition set_at_action (status : Z) (a : SFA_ACTION) (e : AT_MATCH_ENTRY) : AT_MATCH_ENTRY :=
  Mk_at_entry (at_data e) status a.

Fixpoint at_mod_loop (n : nat) (cursor : list Z) (addr : nat) (h : hmap AT_MATCH_ENTRY)
  : Res (sfaerr * nat * hmap AT_MATCH_ENTRY) :=
  match n with
  | O => Ok (SFA_MSG_PROCESS_OK, addr, h)
  | S n =>
      (* the type is read without [ntohl] *)
      let* ty := ld_u32 cursor 0 in
      if ty =? ENTRY_ADD then
        let* status := ld_be32 cursor (4 + sizeof_SFA_ACTION) in
        let* len := ld_be32 cursor (sizeof_SFA_ACTION + 2 * 4) in
        let* data := copy_data len cursor (sizeof_SFA_ACTION + 3 * 4) in
        let* aty := ld_be32 cursor 4 in
        let* param := ld_be32 cursor (4 + 4) in
        let* hash := hash_string data 0 in
        let* h := hmap_insert_at h
                    (Mk_node addr 0 (Mk_at_entry data status (Mk_action aty param))) hash in
        at_mod_loop n (advance cursor (Z.of_nat sizeof_SFA_ACTION + 3 * 4 + len)) (S addr) h
      else if ty =? ENTRY_UPDATE then
        let* status := ld_be32 cursor (4 + sizeof_SFA_ACTION) in
        let* len := ld_be32 cursor (sizeof_SFA_ACTION + 2 * 4) in
        let* data := copy_data len cursor (sizeof_SFA_ACTION + 3 * 4) in
        let* hash := hash_string data 0 in
        let* first := hmap_first_with_hash h hash in
        match first with
        | [] => at_mod_loop n (advance cursor (Z.of_nat sizeof_SFA_ACTION + 3 * 4 + len)) addr h
        | node :: _ =>
            let* param := ld_be32 cursor (4 + 4) in
            let* aty := ld_be32 cursor 4 in
            at_mod_loop n (advance cursor (Z.of_nat sizeof_SFA_ACTION + 3 * 4 + len)) addr
              (store_val h (node_addr node) (set_at_action status (Mk_action aty param)))
        end
      else if ty =? ENTRY_DEL then
        let* len := ld_be32 cursor (sizeof_SFA_ACTION + 2 * 4) in
        let* data := copy_data len cursor (sizeof_SFA_ACTION + 3 * 4) in
        let* hash := hash_string data 0 in
        let* first := hmap_first_with_hash h hash in
        match first with
        | [] => at_mod_loop n (advance cursor (Z.of_nat sizeof_SFA_ACTION + 3 * 4 + len)) addr h
        | node :: _ =>
            (* the cursor stays on the record *)
            let* h := hmap_remove h node in
            at_mod_loop n cursor addr h
        end
      else Ok (SFA_MSG_PROCESS_ERROR, addr, h)
  end.

Definition sfa_msg_at_mod (s : sfa_state) (sfah : list Z) : Res (sfaerr * sfa_state) :=
  let pmsg := drop sizeof_ofp_header sfah in
  let* aid := ld_be32 pmsg 0 in
  if negb (islistinit (g_apps s)) then Ok (SFA_MSG_PROCESS_ERROR, s) else
  match appslist (g_apps s) with
  | None => Fault NullDeref
  | Some apps =>
      match find_app apps aid with
      | None => Ok (SFA_MSG_PROCESS_ERROR, s)
      | Some app =>
          let at_ := pat app in
          let* count := ld_be32 pmsg 4 in
          let* (err, addr, h) :=
            at_mod_loop (Z.to_nat count) (drop (2 * 4) pmsg) (next_addr s) (at_entrys at_) in
          let at_ := Mk_at (at_bitmap at_) h in
          Ok (err, Mk_state (Mk_apps true (Some (update_app apps aid (set_pat at_)))) addr)
      end
  end.

(** ** [sfa_handle_pkt] *)

(** [oh->type] *)
Definition ofp_type (msg : list Z) : Res Z :=
  match msg !! 1%nat with Some t => Ok t | None => Fault OutOfBounds end.

(** Returns 0 when the message was handled here, -1 when the ordinary OpenFlow
    code has to handle it. *)
Definition sfa_handle_pkt (target : abi) (s : sfa_state) (msg : list Z) : Res (Z * sfa_state) :=
  let* ty := ofp_type msg in
  let finish (r : Res (sfaerr * sfa_state)) :=
    let* (error, s) := r in
    match error with
    | SFA_MSG_PROCESS_OK => Ok (0, s)
    | SFA_MSG_PROCESS_ERROR => Ok (-1, s)
    end in
  if ty =? OFPTYPE_SFA_TABLE_CREATE then finish (sfa_msg_init target s msg)
  else if ty =? OFPTYPE_SFA_ST_ENTRY_MOD then finish (sfa_msg_st_mod s msg)
  else if ty =? OFPTYPE_SFA_AT_ENTRY_MOD then finish (sfa_msg_at_mod s msg)
  else Ok (-1, s).
