(* ===== verification/SfaTables.v ===== *)
(** * Invariants of the stateful forwarding tables

    What every message leaves true of [g_apps]: the hash maps are well formed,
    every entry is filed under the hash of its match string, application
    identifiers are unique, and node addresses are fresh.  The same proofs show
    that the only fault a message can cause is a read or write outside an
    object, the consequence of the handlers not checking the message length. *)

From Stdlib Require Import ZArith Lia List.
From stdpp Require Import base list option sets.
From S2P Require Import Prelude Bytes Hash Hmap Sfa.
#[local] Open Scope Z_scope.
#[local] Open Scope res_scope.

(** ** Keyed tables

    Status and action entries share the way they are filed: under the hash of a
    C string owned by the entry. *)

Class Keyed (A : Type) := {
  key_buf : A -> cbuf;
  entry_ok : A -> Prop
}.

#[export] Instance st_keyed : Keyed ST_MATCH_ENTRY := {
  key_buf := st_data;
  entry_ok e := in_u32 (st_last_status e)
}.

Definition action_ok (a : SFA_ACTION) : Prop := in_u32 (actype a) /\ in_u32 (acparam a).

#[export] Instance at_keyed : Keyed AT_MATCH_ENTRY := {
  key_buf := at_data;
  entry_ok e := in_u32 (at_last_status e) /\ action_ok (act e)
}.

Definition node_ok {A} `{Keyed A} (bound : nat) (nd : hmap_node A) : Prop :=
  hash_string (key_buf (node_val nd)) 0 = Ok (node_hash nd) /\
  entry_ok (node_val nd) /\ (node_addr nd < bound)%nat.

Record table_ok {A} `{Keyed A} (bound : nat) (h : hmap A) : Prop := {
  tbl_wf : hmap_wf h;
  tbl_node : Forall (node_ok bound) (hmap_nodes h)
}.

Definition oob (f : fault) : Prop := f = OutOfBounds.

Section Tables.
Context {A : Type} `{Keyed A}.
Implicit Types (h : hmap A) (nd : hmap_node A).

Lemma table_ok_init bound : table_ok bound (hmap_init (A := A)).
Proof. split; [apply hmap_init_wf|constructor]. Qed.

Lemma table_ok_mono b b' h : (b <= b')%nat -> table_ok b h -> table_ok b' h.
Proof.
  intros Hb [Hw Hn]. split; [done|].
  eapply Forall_impl; [exact Hn|]. intros nd (? & ? & ?). repeat split; auto. lia.
Qed.

Lemma table_ok_fresh b h : table_ok b h -> b ∉ node_addr <$> hmap_nodes h.
Proof.
  intros [_ Hn] (nd & -> & Hin)%list_elem_of_fmap.
  rewrite Forall_forall in Hn. destruct (Hn nd Hin) as (_ & _ & ?). lia.
Qed.

(** Filing a fresh entry under its hash. *)
Lemma table_insert_within b h v hash F :
  table_ok b h -> entry_ok v -> hash_string (key_buf v) 0 = Ok hash ->
  within F (fun h' => table_ok (S b) h' /\
                      hmap_nodes h' ≡ₚ Mk_node b hash v :: hmap_nodes h)
    (hmap_insert_at h (Mk_node b 0 v) hash).
Proof.
  intros Ht Hv Hh. assert (in_u32 hash).
  { unfold hash_string in Hh. inv_res. auto with sdpa. }
  destruct (hmap_insert_at_spec h (Mk_node b 0 v) hash) as (h' & -> & Hw & Hp & _);
    [apply Ht|done|by apply table_ok_fresh|].
  simpl in Hp. simpl. split; [|done]. split; [done|]. rewrite Hp. constructor.
  - repeat split; auto.
  - apply (tbl_node _ _ (table_ok_mono b (S b) h ltac:(lia) Ht)).
Qed.

Lemma table_remove_within b h nd F : table_ok b h -> nd ∈ hmap_nodes h ->
  within F (fun h' => table_ok b h' /\ hmap_nodes h ≡ₚ nd :: hmap_nodes h')
    (hmap_remove h nd).
Proof.
  intros [Hw Hn] Hin.
  destruct (hmap_remove_spec h nd Hw Hin) as (h' & -> & Hw' & Hp & _).
  simpl. split; [|done]. split; [done|]. rewrite Hp in Hn. by apply Forall_cons in Hn as [].
Qed.

Lemma table_store_ok b h a f : table_ok b h ->
  (forall v, key_buf (f v) = key_buf v) -> (forall v, entry_ok v -> entry_ok (f v)) ->
  table_ok b (store_val h a f).
Proof.
  intros [Hw Hn] Hk He. split; [by apply store_val_wf|].
  rewrite hmap_nodes_store. apply Forall_fmap. eapply Forall_impl; [exact Hn|].
  intros nd (Hh & Ho & Ha). unfold compose, upd_node. case_decide; [|by repeat split].
  repeat split; simpl; [by rewrite Hk|auto|done].
Qed.

Lemma table_first_within b h hash F : table_ok b h ->
  within F (fun p => forall nd p', p = nd :: p' -> nd ∈ hmap_nodes h /\ node_hash nd = hash)
    (hmap_first_with_hash h hash).
Proof.
  intros [Hw _]. destruct (hmap_first_with_hash_spec h hash Hw) as (p & -> & Hh).
  simpl. intros nd p' ->. simpl in Hh. apply (elem_of_with_hash h hash nd Hw).
  destruct (with_hash h hash); [done|]. injection Hh as ->. left.
Qed.
End Tables.

(** ** Reading a message *)

Lemma ld_u32_within p k : bytes_ok p -> within oob in_u32 (ld_u32 p k).
Proof.
  intros Hp. unfold ld_u32. assert (Hd : bytes_ok (drop k p)) by by apply Forall_drop.
  destruct (drop k p) as [|b0 [|b1 [|b2 [|b3 r]]]]; try done.
  unfold bytes_ok in Hd. rewrite !Forall_cons in Hd. unfold in_u8 in Hd.
  destruct Hd as (? & ? & ? & ? & _). simpl. unfold in_u32. lia.
Qed.

Lemma ntohl_u32 x : in_u32 x -> in_u32 (ntohl x).
Proof.
  intros H. unfold in_u32 in H.
  replace x with (x mod 2 ^ 8 + 2 ^ 8 * (x / 2 ^ 8 mod 2 ^ 8)
    + 2 ^ 16 * (x / 2 ^ 16 mod 2 ^ 8) + 2 ^ 24 * (x / 2 ^ 24)) by zdm.
  unfold ntohl. rewrite uint32_byteswap_bytes by (unfold in_u8; zdm).
  unfold in_u32. zdm.
Qed.

Lemma ld_be32_within p k : bytes_ok p -> within oob in_u32 (ld_be32 p k).
Proof.
  intros Hp. wstep ld_u32_within. intros x Hx. by apply ntohl_u32.
Qed.

Lemma ld_be64_within p k : bytes_ok p -> within oob in_u64 (ld_be64 p k).
Proof.
  intros Hp. eapply within_bind with (Q := fun _ => True).
  { wstep ld_u32_within. intros lo _. wstep ld_u32_within. done. }
  intros x _. change (in_u64 (ntohll x)). unfold ntohll.
  change (htonl 1 =? 1) with false. cbv iota.
  pose proof (ntohl_u32 _ (u32_range x)) as Hl.
  pose proof (ntohl_u32 _ (u32_range (Z.shiftr x 32))) as Hh. unfold in_u32 in *.
  rewrite lor_add_disjoint by lia. unfold in_u64. lia.
Qed.

#[export] Hint Resolve ld_u32_within ld_be32_within ld_be64_within : sdpa.

(** A copied string is terminated. *)
Definition terminated (b : cbuf) : Prop := exists s, c_str b = Ok s.

Lemma memcpy_within b src off n : 0 <= n -> b !! Z.to_nat n = Some (Some 0) ->
  within oob terminated (memcpy b src off n).
Proof.
  intros Hn Hb. unfold memcpy. case_match; [|done]. simpl.
  apply drop_S in Hb. rewrite Hb. eexists. apply c_str_bytes.
Qed.

Lemma buf_set_within b i c :
  within oob (fun b' => 0 <= i < Z.of_nat (length b) /\ b' = <[Z.to_nat i := Some c]> b)
    (buf_set b i c).
Proof.
  unfold buf_set. destruct (Z.leb_spec 0 i), (Z.ltb_spec i (Z.of_nat (length b))); done.
Qed.

Lemma copy_data_within len p off : in_u32 len -> within oob terminated (copy_data len p off).
Proof.
  unfold in_u32. intros Hl. wstep buf_set_within. intros b (Hi & ->).
  wstep buf_set_within. intros b' (Hi' & ->). apply memcpy_within; [lia|].
  apply list_lookup_insert_eq. lia.
Qed.

Lemma copy_data_at_within len p off : in_u32 len -> within oob terminated (copy_data_at len p off).
Proof.
  unfold in_u32. intros Hl. wstep buf_set_within. intros b (Hi & ->).
  wstep buf_set_within. intros b' (Hi' & ->). apply memcpy_within; [lia|].
  apply list_lookup_insert_eq. lia.
Qed.

Lemma hash_string_within b F : terminated b ->
  within F (fun hash => hash_string b 0 = Ok hash) (hash_string b 0).
Proof. intros [s Hs]. unfold hash_string. by rewrite Hs. Qed.

#[export] Hint Resolve copy_data_within copy_data_at_within hash_string_within : sdpa.

Lemma bytes_ok_drop k p : bytes_ok p -> bytes_ok (drop k p).
Proof. apply Forall_drop. Qed.
Lemma bytes_ok_advance k p : bytes_ok p -> bytes_ok (advance p k).
Proof. apply bytes_ok_drop. Qed.
#[export] Hint Resolve bytes_ok_drop bytes_ok_advance table_ok_init : sdpa.

(** ** The loops of the handlers *)

(** What a loop over a table leaves: the allocation counter only grows and the
    table is in order with respect to it. *)
Definition loop_post {A} `{Keyed A} (addr : nat) (addr' : nat) (h' : hmap A) : Prop :=
  (addr <= addr')%nat /\ table_ok addr' h'.

Lemma init_st_loop_within n : forall cursor addr h, bytes_ok cursor -> table_ok addr h ->
  within oob (fun '(c, addr', h') => bytes_ok c /\ loop_post addr addr' h')
    (init_st_loop n cursor addr h).
Proof.
  induction n as [|n IH]; intros cursor addr h Hc Ht; simpl.
  { repeat split; auto; apply Ht. }
  wstep ld_be32_within. intros status Hs. wstep ld_be32_within. intros len Hl.
  wstep copy_data_within. intros data Hd. wstep hash_string_within. intros hash Hh.
  wstep (table_insert_within addr h (Mk_st_entry data status)). intros h' [Ht' _].
  eapply within_mono; [apply IH; eauto with sdpa|].
  intros [[c a'] h''] (? & ? & ?). split; [done|]. split; [lia|done].
Qed.

Lemma init_at_loop_within n : forall cursor addr h, bytes_ok cursor -> table_ok addr h ->
  within oob (fun '(c, addr', h') => bytes_ok c /\ loop_post addr addr' h')
    (init_at_loop n cursor addr h).
Proof.
  induction n as [|n IH]; intros cursor addr h Hc Ht; cbn [init_at_loop].
  { repeat split; auto; apply Ht. }
  wstep ld_be32_within. intros ty Hty. wstep ld_be32_within. intros param Hpa.
  wstep ld_be32_within. intros status Hs. wstep ld_be32_within. intros len Hl.
  wstep copy_data_at_within. intros data Hd. wstep hash_string_within. intros hash Hh.
  wstep (table_insert_within addr h (Mk_at_entry data status (Mk_action ty param)));
    [by split; [|split]|].
  intros h' [Ht' _]. eapply within_mono; [apply IH; eauto with sdpa|].
  intros [[c a'] h''] (? & ? & ?). split; [done|]. split; [lia|done].
Qed.

Definition stt_ok (e : STT_MATCH_ENTRY) : Prop :=
  in_u32 (param_left_type e) /\ in_u64 (param_left e) /\ in_u32 (oprator e) /\
  in_u32 (param_right_type e) /\ in_u64 (param_right e) /\
  in_u32 (stt_last_status e) /\ in_u32 (cur_status e).

Lemma ld_stt_within target p : bytes_ok p -> within oob stt_ok (ld_stt target p).
Proof.
  intros Hp. unfold ld_stt. wstep ld_be32_within. intros cur ?. wstep ld_be32_within.
  intros op ?. wstep ld_be64_within. intros pl ?. wstep ld_be32_within. intros lt_ ?.
  wstep ld_be64_within. intros pr ?. wstep ld_be32_within. intros rt ?.
  wstep ld_be32_within. intros last ?. by refine (conj _ (conj _ (conj _ (conj _ (conj _ (conj _ _)))))).
Qed.

Lemma init_stt_loop_within target n : forall p es, bytes_ok p -> Forall stt_ok es ->
  within oob (fun '(c, es') => bytes_ok c /\ Forall stt_ok es')
    (init_stt_loop target n p es).
Proof.
  induction n as [|n IH]; intros p es Hp He; simpl; [done|].
  wstep ld_stt_within. intros e Hok. apply IH; [by apply bytes_ok_drop|].
  apply Forall_app. by split; [|constructor].
Qed.

Lemma st_mod_loop_within n : forall cursor addr h, bytes_ok cursor -> table_ok addr h ->
  within oob (fun '(_, addr', h') => loop_post addr addr' h')
    (st_mod_loop n cursor addr h).
Proof.
  induction n as [|n IH]; intros cursor addr h Hc Ht; cbn [st_mod_loop]; [done|].
  wstep ld_be32_within. intros ty _. case_bool; [|case_bool; [|case_bool; [|done]]].
  - wstep ld_be32_within. intros status Hs. wstep ld_be32_within. intros len Hl.
    wstep copy_data_within. intros data Hd. wstep hash_string_within. intros hash Hh.
    wstep (table_first_within addr h). intros [|nd p'] Hf; [|apply IH; auto with sdpa].
    wstep (table_insert_within addr h (Mk_st_entry data status)). intros h' [Ht' _].
    eapply within_mono; [apply IH; eauto with sdpa|].
    intros [[c a'] h''] [? ?]. split; [lia|done].
  - wstep ld_be32_within. intros status Hs. wstep ld_be32_within. intros len Hl.
    wstep copy_data_within. intros data Hd. wstep hash_string_within. intros hash Hh.
    wstep (table_first_within addr h). intros [|nd p'] Hf; apply IH; auto with sdpa.
    by apply table_store_ok.
  - wstep ld_be32_within. intros len Hl.
    wstep copy_data_within. intros data Hd. wstep hash_string_within. intros hash Hh.
    wstep (table_first_within addr h). intros [|nd p'] Hf; [apply IH; auto with sdpa|].
    wstep (table_remove_within addr h); [by eapply Hf|]. intros h' [Ht' _]. apply IH; auto with sdpa.
Qed.

Lemma at_mod_loop_within n : forall cursor addr h, bytes_ok cursor -> table_ok addr h ->
  within oob (fun '(_, addr', h') => loop_post addr addr' h')
    (at_mod_loop n cursor addr h).
Proof.
  induction n as [|n IH]; intros cursor addr h Hc Ht; cbn [at_mod_loop]; [done|].
  wstep ld_u32_within. intros ty _. case_bool; [|case_bool; [|case_bool; [|done]]].
  - wstep ld_be32_within. intros status Hs. wstep ld_be32_within. intros len Hl.
    wstep copy_data_within. intros data Hd. wstep ld_be32_within. intros aty Hty.
    wstep ld_be32_within. intros param Hpa. wstep hash_string_within. intros hash Hh.
    wstep (table_insert_within addr h (Mk_at_entry data status (Mk_action aty param)));
      [by split; [|split]|]. intros h' [Ht' _].
    eapply within_mono; [apply IH; eauto with sdpa|].
    intros [[c a'] h''] [? ?]. split; [lia|done].
  - wstep ld_be32_within. intros status Hs. wstep ld_be32_within. intros len Hl.
    wstep copy_data_within. intros data Hd. wstep hash_string_within. intros hash Hh.
    wstep (table_first_within addr h). intros [|nd p'] Hf; [apply IH; auto with sdpa|].
    wstep ld_be32_within. intros param Hpa. wstep ld_be32_within. intros aty Hty.
    apply IH; auto with sdpa. by apply table_store_ok.
  - wstep ld_be32_within. intros len Hl.
    wstep copy_data_within. intros data Hd. wstep hash_string_within. intros hash Hh.
    wstep (table_first_within addr h). intros [|nd p'] Hf; [apply IH; auto with sdpa|].
    wstep (table_remove_within addr h); [by eapply Hf|]. intros h' [Ht' _]. apply IH; auto with sdpa.
Qed.

(** ** The invariant of [g_apps] *)

Record app_ok (bound : nat) (a : CONTROLLAPP) : Prop := {
  app_id : in_u32 (appid a);
  app_bitmaps : in_u64 (match_bitmap (pst a)) /\ in_u64 (at_bitmap (pat a));
  app_st : table_ok bound (st_entrys (pst a));
  app_stt : Forall stt_ok (pstt a);
  app_at : table_ok bound (at_entrys (pat a))
}.

Definition apps_ok (bound : nat) (apps : list CONTROLLAPP) : Prop :=
  Forall (app_ok bound) apps /\ NoDup (appid <$> apps).

Definition sfa_inv (s : sfa_state) : Prop :=
  match appslist (g_apps s) with
  | None => islistinit (g_apps s) = false
  | Some apps => islistinit (g_apps s) = true /\ apps_ok (next_addr s) apps
  end.

Lemma sfa_initial_inv : sfa_inv sfa_initial.
Proof. reflexivity. Qed.

Lemma apps_ok_mono b b' apps : (b <= b')%nat -> apps_ok b apps -> apps_ok b' apps.
Proof.
  intros Hb [Ha Hn]. split; [|done]. eapply Forall_impl; [exact Ha|].
  intros a []. split; eauto using table_ok_mono.
Qed.

Lemma find_app_Some apps aid app : find_app apps aid = Some app ->
  app ∈ apps /\ appid app = aid.
Proof.
  intros H. apply List.find_some in H as [Hin E].
  by apply list_elem_of_In in Hin; apply Z.eqb_eq in E.
Qed.

Lemma update_app_appid apps aid f : (forall a, appid (f a) = appid a) ->
  appid <$> update_app apps aid f = appid <$> apps.
Proof.
  intros Hf. induction apps as [|a apps IH]; [done|]. simpl. case_bool; csimpl.
  - by rewrite Hf.
  - by rewrite IH.
Qed.

Lemma update_app_ok b apps aid f : (forall a, appid (f a) = appid a) ->
  (forall a, find_app apps aid = Some a -> app_ok b a -> app_ok b (f a)) ->
  apps_ok b apps -> apps_ok b (update_app apps aid f).
Proof.
  intros Hi Hf [Ha Hn]. split; [|by rewrite update_app_appid]. clear Hn.
  induction Ha as [|a apps Ha Hs IH]; simpl; [done|]. simpl in Hf. case_bool_in Hf.
  - constructor; auto.
  - constructor; auto.
Qed.

(** ** The handlers *)

Lemma existsb_app_fresh aid apps :
  existsb (fun a => appid a =? aid) apps = false -> aid ∉ appid <$> apps.
Proof.
  intros Hf (a & -> & Hin)%list_elem_of_fmap.
  assert (existsb (fun b => appid b =? appid a) apps = true); [|congruence].
  apply existsb_exists. exists a. rewrite Z.eqb_refl. by apply list_elem_of_In in Hin.
Qed.

Lemma sfa_msg_init_within target s msg : sfa_inv s -> bytes_ok msg ->
  within oob (fun '(_, s') => sfa_inv s') (sfa_msg_init target s msg).
Proof.
  intros Hi Hm. unfold sfa_msg_init.
  set (g := if islistinit _ then _ else _).
  assert (exists apps, g = Mk_apps true (Some apps) /\ apps_ok (next_addr s) apps)
    as (apps & -> & Ho).
  { unfold g, sfa_inv in *. destruct (g_apps s) as [[] [apps|]]; simpl in *; try done;
      try (by destruct Hi).
    - exists apps. by split; [|apply Hi].
    - exists []. split; [done|]. split; constructor. }
  wstep ld_be32_within. intros aid Haid. simpl.
  destruct (existsb _ apps) eqn:Ee; [done|].
  wstep ld_be32_within. intros counts _. wstep ld_be64_within. intros mmp Hmmp.
  wstep init_st_loop_within. intros [[c1 a1] st] (Hc1 & Hl1 & Hst).
  wstep ld_be32_within. intros sttc _.
  eapply within_bind; [apply init_stt_loop_within; [by apply bytes_ok_drop|constructor]|].
  intros [c2 stt] [Hc2 Hstt].
  wstep ld_be32_within. intros atc _. wstep ld_be64_within. intros bitmap Hb.
  wstep init_at_loop_within. intros [[c3 a3] at_] (_ & Hl3 & Hat).
  simpl. split; [done|]. destruct (apps_ok_mono (next_addr s) a3 apps ltac:(lia) Ho) as [Hf Hn].
  split.
  - apply Forall_app. split; [done|]. constructor; [|done].
    split; simpl; auto. by apply (table_ok_mono a1).
  - rewrite fmap_app. apply NoDup_app. split; [done|]. split; [|apply NoDup_singleton].
    intros x Hx ->%list_elem_of_singleton. by apply (existsb_app_fresh aid apps).
Qed.

Lemma sfa_msg_st_mod_within s msg : sfa_inv s -> bytes_ok msg ->
  within oob (fun '(_, s') => sfa_inv s') (sfa_msg_st_mod s msg).
Proof.
  intros Hi Hm. unfold sfa_msg_st_mod. wstep ld_be32_within. intros aid _.
  assert (Hi' := Hi). unfold sfa_inv in Hi.
  destruct (islistinit (g_apps s)); simpl; [|done].
  destruct (appslist (g_apps s)) as [apps|]; [|done]. destruct Hi as [_ Ho].
  destruct (find_app apps aid) as [app|] eqn:Ef; [|done].
  pose proof (find_app_Some _ _ _ Ef) as [Hin _].
  pose proof (proj1 (Forall_forall _ _) (proj1 Ho) app Hin) as Ha.
  wstep ld_be32_within. intros count _.
  eapply within_bind; [apply st_mod_loop_within; [by apply bytes_ok_drop, bytes_ok_drop|apply Ha]|].
  intros [[err addr] h] [Hl Hh]. simpl. split; [done|].
  apply update_app_ok; [done| |by apply (apps_ok_mono (next_addr s))].
  intros a Ea Hok. simplify_eq. destruct Hok. by split.
Qed.

Lemma sfa_msg_at_mod_within s msg : sfa_inv s -> bytes_ok msg ->
  within oob (fun '(_, s') => sfa_inv s') (sfa_msg_at_mod s msg).
Proof.
  intros Hi Hm. unfold sfa_msg_at_mod. wstep ld_be32_within. intros aid _.
  assert (Hi' := Hi). unfold sfa_inv in Hi.
  destruct (islistinit (g_apps s)); simpl; [|done].
  destruct (appslist (g_apps s)) as [apps|]; [|done]. destruct Hi as [_ Ho].
  destruct (find_app apps aid) as [app|] eqn:Ef; [|done].
  pose proof (find_app_Some _ _ _ Ef) as [Hin _].
  pose proof (proj1 (Forall_forall _ _) (proj1 Ho) app Hin) as Ha.
  wstep ld_be32_within. intros count _.
  eapply within_bind; [apply at_mod_loop_within; [by apply bytes_ok_drop, bytes_ok_drop|apply Ha]|].
  intros [[err addr] h] [Hl Hh]. simpl. split; [done|].
  apply update_app_ok; [done| |by apply (apps_ok_mono (next_addr s))].
  intros a Ea Hok. simplify_eq. destruct Hok. by split.
Qed.

(** Every message keeps the invariant and is answered by 0 or -1; the only
    fault is an access outside an object. *)
Lemma sfa_handle_pkt_within target s msg : sfa_inv s -> bytes_ok msg ->
  within oob (fun '(r, s') => (r = 0 \/ r = -1) /\ sfa_inv s') (sfa_handle_pkt target s msg).
Proof.
  intros Hi Hm. unfold sfa_handle_pkt.
  eapply within_bind with (Q := fun _ => True); [unfold ofp_type; by case_match|].
  intros ty _.
  assert (Hfin : forall r, within oob (fun '(_, s') => sfa_inv s') r ->
    within oob (fun '(r, s') => (r = 0 \/ r = -1) /\ sfa_inv s')
      (let* (error, s) := r in
       match error with
       | SFA_MSG_PROCESS_OK => Ok (0, s)
       | SFA_MSG_PROCESS_ERROR => Ok (-1, s)
       end)).
  { intros r Hr. eapply within_bind; [exact Hr|]. intros [[] s'] Hs; simpl; auto. }
  case_bool; [|case_bool; [|case_bool; [|simpl; auto]]]; apply Hfin.
  - by apply sfa_msg_init_within.
  - by apply sfa_msg_st_mod_within.
  - by apply sfa_msg_at_mod_within.
Qed.
