(* ===== verification/SfaWire.v ===== *)
(** * The message format of the stateful module and what the handlers make of it

    [sfa.h] documents the messages a controller sends.  This file encodes a
    description of tables, or a list of modifications, in that format and shows
    what the handlers of [sfa.c] do with the bytes: creation installs exactly
    the described tables, status modification implements an abstract map, and
    action modification installs added entries but rejects the update and
    delete requests of a conforming controller. *)

From Stdlib Require Import ZArith Lia List.
From stdpp Require Import base list option sets gmap.
From S2P Require Import Prelude Bytes Hash Hmap Sfa SfaTables.
#[local] Open Scope Z_scope.
#[local] Open Scope res_scope.

(** ** Descriptions and their encodings *)

Class Wire (A : Type) := {
  wire_ok : A -> Prop;
  enc : A -> list Z
}.

(** A sequence of records on the wire. *)
Definition encs {A} `{Wire A} (l : list A) : list Z := concat (enc <$> l).
Definition wires_ok {A} `{Wire A} (l : list A) : Prop :=
  Forall wire_ok l /\ Z.of_nat (length l) < 2 ^ 31.

(** A match string: bytes other than the terminator, of a length whose buffer
    size does not wrap around. *)
Definition key_ok (k : list Z) : Prop :=
  Forall (fun c => 0 < c < 2 ^ 8) k /\ Z.of_nat (length k) < 2 ^ 32 - 2.

Definition enc_key (k : list Z) : list Z := be32_bytes (Z.of_nat (length k)) ++ k.

(** A status entry: match string and status. *)
Definition st_desc : Type := list Z * Z.

#[export] Instance st_desc_wire : Wire st_desc := {
  wire_ok '(k, status) := key_ok k /\ in_u32 status;
  enc '(k, status) := be32_bytes status ++ enc_key k
}.

#[export] Instance stt_wire : Wire STT_MATCH_ENTRY := {
  wire_ok := stt_ok;
  enc e := be32_bytes (param_left_type e) ++ be64_bytes (param_left e) ++
           be32_bytes (param_right_type e) ++ be64_bytes (param_right e) ++
           be32_bytes (oprator e) ++ be32_bytes (stt_last_status e) ++
           be32_bytes (cur_status e)
}.

(** An action entry: match string, status and action. *)
Definition at_desc : Type := list Z * Z * SFA_ACTION.

#[export] Instance at_desc_wire : Wire at_desc := {
  wire_ok '(k, status, a) := key_ok k /\ k <> [] /\ in_u32 status /\ action_ok a;
  enc '(k, status, a) :=
    be32_bytes (actype a) ++ be32_bytes (acparam a) ++ be32_bytes status ++ enc_key k
}.

(** The creation message. *)
Record app_desc := Mk_app_desc {
  d_appid : Z;
  d_mmp : Z;
  d_st : list st_desc;
  d_stt : list STT_MATCH_ENTRY;
  d_bitmap : Z;
  d_at : list at_desc
}.

Definition app_desc_ok (d : app_desc) : Prop :=
  in_u32 (d_appid d) /\ in_u64 (d_mmp d) /\ wires_ok (d_st d) /\
  wires_ok (d_stt d) /\ in_u64 (d_bitmap d) /\ wires_ok (d_at d).

(** [hdr] stands for the eight bytes of the OpenFlow header. *)
Definition enc_init (hdr : list Z) (d : app_desc) : list Z :=
  hdr ++ be32_bytes (d_appid d) ++ be64_bytes (d_mmp d) ++
  be32_bytes (Z.of_nat (length (d_st d))) ++ encs (d_st d) ++
  be32_bytes (Z.of_nat (length (d_stt d))) ++ encs (d_stt d) ++
  be64_bytes (d_bitmap d) ++ be32_bytes (Z.of_nat (length (d_at d))) ++ encs (d_at d).

(** Modification records. *)
Inductive mod_type := Add | Update | Del.

Definition mod_code (m : mod_type) : Z :=
  match m with Add => ENTRY_ADD | Update => ENTRY_UPDATE | Del => ENTRY_DEL end.

Definition st_mod : Type := mod_type * st_desc.
Definition at_mod : Type := mod_type * at_desc.

#[export] Instance st_mod_wire : Wire st_mod := {
  wire_ok '(_, d) := wire_ok d;
  enc '(m, d) := be32_bytes (mod_code m) ++ enc d
}.

#[export] Instance at_mod_wire : Wire at_mod := {
  wire_ok '(_, d) := wire_ok d;
  enc '(m, d) := be32_bytes (mod_code m) ++ enc d
}.

Definition enc_mod {A} `{Wire A} (hdr : list Z) (aid : Z) (l : list A) : list Z :=
  hdr ++ be32_bytes aid ++ be32_bytes (Z.of_nat (length l)) ++ encs l.

(** ** The contents of a table *)

Definition str_of (b : cbuf) : list Z :=
  match c_str b with Ok s => s | Fault _ => [] end.

Definition st_view (nd : hmap_node ST_MATCH_ENTRY) : st_desc :=
  (str_of (st_data (node_val nd)), st_last_status (node_val nd)).
Definition at_view (nd : hmap_node AT_MATCH_ENTRY) : at_desc :=
  (str_of (at_data (node_val nd)), at_last_status (node_val nd), act (node_val nd)).

Definition st_contents (h : hmap ST_MATCH_ENTRY) : list st_desc := st_view <$> hmap_nodes h.
Definition at_contents (h : hmap AT_MATCH_ENTRY) : list at_desc := at_view <$> hmap_nodes h.

(** ** Reading encoded fields *)

Lemma ld_be32_here x r : in_u32 x -> ld_be32 (be32_bytes x ++ r) 0 = Ok x.
Proof. apply ld_u32_be32. Qed.
Lemma ld_be64_here x r : in_u64 x -> ld_be64 (be64_bytes x ++ r) 0 = Ok x.
Proof. apply ld_u64_be64. Qed.

Lemma ld_be32_skip4 x r k : ld_be32 (be32_bytes x ++ r) (S (S (S (S k)))) = ld_be32 r k.
Proof. unfold ld_be32. rewrite ld_u32_app_skip by (simpl; lia). simpl. by rewrite Nat.sub_0_r. Qed.
Lemma ld_be64_skip4 x r k : ld_be64 (be32_bytes x ++ r) (S (S (S (S k)))) = ld_be64 r k.
Proof. unfold ld_be64. rewrite ld_u64_app_skip by (simpl; lia). simpl. by rewrite Nat.sub_0_r. Qed.
Lemma ld_be32_skip8 x r k : ld_be32 (be64_bytes x ++ r) (S (S (S (S (S (S (S (S k)))))))) = ld_be32 r k.
Proof. unfold ld_be32. rewrite ld_u32_app_skip by (simpl; lia). simpl. by rewrite Nat.sub_0_r. Qed.
Lemma ld_be64_skip8 x r k : ld_be64 (be64_bytes x ++ r) (S (S (S (S (S (S (S (S k)))))))) = ld_be64 r k.
Proof. unfold ld_be64. rewrite ld_u64_app_skip by (simpl; lia). simpl. by rewrite Nat.sub_0_r. Qed.

(** Evaluate the reads at the front of an encoded message. *)
Ltac rd := cbn [rbind];
  repeat first
    [ rewrite ld_be32_here by (done || auto with sdpa)
    | rewrite ld_be64_here by (done || auto with sdpa)
    | progress rewrite ?ld_be32_skip8, ?ld_be64_skip8
    | progress rewrite ?ld_be32_skip4, ?ld_be64_skip4 ];
  cbn [rbind].

Lemma advance_app (l r : list Z) k : k = Z.of_nat (length l) -> advance (l ++ r) k = r.
Proof. intros ->. unfold advance. by rewrite Nat2Z.id, drop_app_length. Qed.

Lemma key_length_u32 k : key_ok k -> in_u32 (Z.of_nat (length k)).
Proof. unfold key_ok, in_u32. lia. Qed.
#[export] Hint Resolve key_length_u32 : sdpa.

(** What the two ways of copying a match string leave after the string. *)
Lemma copy_data_key pre key r off : key_ok key -> off = length pre ->
  copy_data (Z.of_nat (length key)) (pre ++ key ++ r) off
  = Ok ((Some <$> key) ++ [Some 0; Some 0]).
Proof.
  intros [_ Hl] ->. set (n := length key) in *. unfold copy_data.
  rewrite !u32_id, xmalloc_ok by (unfold in_u32; lia).
  replace (Z.to_nat (Z.of_nat n + 2)) with (n + 2)%nat by lia.
  rewrite buf_set_ok by (rewrite length_replicate; lia). cbn [rbind].
  rewrite buf_set_ok by (rewrite length_insert, length_replicate; lia). cbn [rbind].
  rewrite memcpy_key; [|done|rewrite !length_insert, length_replicate; lia].
  do 2 f_equal. fold n. rewrite drop_insert_ge by lia.
  rewrite drop_insert_ge by lia. rewrite drop_replicate.
  replace (n + 2 - n)%nat with 2%nat by lia.
  replace (Z.to_nat (Z.of_nat n + 1) - n)%nat with 1%nat by lia.
  by replace (Z.to_nat (Z.of_nat n) - n)%nat with 0%nat by lia.
Qed.

Lemma copy_data_at_key pre key r off : key_ok key -> key <> [] -> off = length pre ->
  copy_data_at (Z.of_nat (length key)) (pre ++ key ++ r) off
  = Ok ((Some <$> key) ++ [Some 0; None]).
Proof.
  intros [_ Hl] Hne ->. assert (0 < Z.of_nat (length key)) by (destruct key; [done|simpl; lia]).
  set (n := length key) in *. unfold copy_data_at.
  rewrite !u32_id, xmalloc_ok by (unfold in_u32; lia).
  replace (Z.to_nat (Z.of_nat n + 2)) with (n + 2)%nat by lia.
  rewrite buf_set_ok by (rewrite length_replicate; lia). cbn [rbind].
  rewrite buf_set_ok by (rewrite length_insert, length_replicate; lia). cbn [rbind].
  rewrite memcpy_key; [|done|rewrite !length_insert, length_replicate; lia].
  do 2 f_equal. fold n. rewrite drop_insert_ge by lia.
  rewrite drop_insert_lt by lia. rewrite drop_replicate.
  replace (n + 2 - n)%nat with 2%nat by lia.
  by replace (Z.to_nat (Z.of_nat n) - n)%nat with 0%nat by lia.
Qed.

(** The string a copied key denotes, and its hash. *)
Lemma c_str_key key c : key_ok key -> c_str ((Some <$> key) ++ [Some 0; c]) = Ok key.
Proof.
  intros [Hk _]. rewrite c_str_bytes, upto_nul_id; [done|].
  eapply Forall_impl; [exact Hk|]. simpl. lia.
Qed.

Definition key_hash (key : list Z) : Z := hash_bytes key 0.

Lemma hash_key key c : key_ok key ->
  hash_string ((Some <$> key) ++ [Some 0; c]) 0 = Ok (key_hash key).
Proof. intros Hk. unfold hash_string. by rewrite c_str_key. Qed.

Lemma str_of_key key c : key_ok key -> str_of ((Some <$> key) ++ [Some 0; c]) = key.
Proof. intros Hk. unfold str_of. by rewrite c_str_key. Qed.

Lemma st_view_key a hash key status c : key_ok key ->
  st_view (Mk_node a hash (Mk_st_entry ((Some <$> key) ++ [Some 0; c]) status)) = (key, status).
Proof. intros Hk. unfold st_view. simpl. by rewrite str_of_key. Qed.

Lemma at_view_key a hash key status ac c : key_ok key ->
  at_view (Mk_node a hash (Mk_at_entry ((Some <$> key) ++ [Some 0; c]) status ac))
  = (key, status, ac).
Proof. intros Hk. unfold at_view. simpl. by rewrite str_of_key. Qed.

(** The fields before the match string of a record, as one prefix. *)
Lemma fields2 (a b r : list Z) : a ++ b ++ r = (a ++ b) ++ r.
Proof. apply app_assoc. Qed.
Lemma fields3 (a b c r : list Z) : a ++ b ++ c ++ r = (a ++ b ++ c) ++ r.
Proof. by rewrite <- !app_assoc. Qed.
Lemma fields4 (a b c d r : list Z) : a ++ b ++ c ++ d ++ r = (a ++ b ++ c ++ d) ++ r.
Proof. by rewrite <- !app_assoc. Qed.
Lemma fields5 (a b c d e r : list Z) :
  a ++ b ++ c ++ d ++ e ++ r = (a ++ b ++ c ++ d ++ e) ++ r.
Proof. by rewrite <- !app_assoc. Qed.

(** ** Creation *)

Lemma encs_cons {A} `{Wire A} (x : A) l r : encs (x :: l) ++ r = enc x ++ encs l ++ r.
Proof. unfold encs. csimpl. by rewrite <- app_assoc. Qed.

Lemma init_st_loop_enc (l : list st_desc) r : forall addr h,
  Forall wire_ok l -> table_ok addr h ->
  exists h', init_st_loop (length l) (encs l ++ r) addr h = Ok (r, (addr + length l)%nat, h') /\
    table_ok (addr + length l) h' /\ st_contents h' ≡ₚ l ++ st_contents h.
Proof.
  induction l as [|[key status] l IH]; intros addr h Hl Ht.
  { exists h. simpl. by rewrite Nat.add_0_r. }
  apply Forall_cons in Hl as [[Hk Hs] Hl]. cbn [length init_st_loop].
  rewrite encs_cons. cbn [enc st_desc_wire]. unfold enc_key. rewrite <- !app_assoc. rd.
  rewrite (advance_app (be32_bytes status)) by done. rd.
  rewrite (copy_data_key (be32_bytes _)) by done. cbn [rbind].
  rewrite app_assoc, advance_app by (rewrite length_app; simpl; lia).
  rewrite hash_key by done. cbn [rbind].
  destruct (proj1 (within_none _ _) (table_insert_within addr h
    (Mk_st_entry ((Some <$> key) ++ [Some 0; Some 0]) status) (key_hash key) _ Ht Hs
    (hash_key _ _ Hk))) as (h1 & -> & Ht1 & Hp). cbn [rbind].
  destruct (IH (S addr) h1 Hl Ht1) as (h' & -> & Ht' & Hc).
  exists h'. rewrite <- Nat.add_succ_comm. split; [done|]. split; [done|].
  rewrite Hc. unfold st_contents. rewrite Hp. csimpl. rewrite st_view_key by done.
  symmetry. apply Permutation_middle.
Qed.

Lemma init_stt_loop_enc (l : list STT_MATCH_ENTRY) r : forall es, Forall wire_ok l ->
  init_stt_loop i686 (length l) (encs l ++ r) es = Ok (r, es ++ l).
Proof.
  induction l as [|e l IH]; intros es Hl; [by rewrite app_nil_r|].
  apply Forall_cons in Hl as [(? & ? & ? & ? & ? & ? & ?) Hl].
  cbn [length init_stt_loop]. rewrite encs_cons. unfold ld_stt.
  change (stt_cur_off i686) with 32%nat. change (stt_oprator_off i686) with 24%nat.
  change (stt_left_off i686) with 4%nat. change (stt_right_off i686) with 16%nat.
  change (stt_right_type_off i686) with 12%nat. change (stt_last_off i686) with 28%nat.
  change (sizeof_init_stt i686) with 36%nat.
  cbn [enc stt_wire]. rewrite <- !app_assoc. rd.
  replace (drop 36 _) with (encs l ++ r) by reflexivity. rewrite IH by done.
  rewrite <- app_assoc. by destruct e.
Qed.

Lemma init_at_loop_enc (l : list at_desc) r : forall addr h,
  Forall wire_ok l -> table_ok addr h ->
  exists h', init_at_loop (length l) (encs l ++ r) addr h = Ok (r, (addr + length l)%nat, h') /\
    table_ok (addr + length l) h' /\ at_contents h' ≡ₚ l ++ at_contents h.
Proof.
  induction l as [|[[key status] [ty param]] l IH]; intros addr h Hl Ht.
  { exists h. simpl. by rewrite Nat.add_0_r. }
  apply Forall_cons in Hl as [(Hk & Hne & Hs & Hty & Hpa) Hl]. cbn [actype acparam] in *.
  cbn [length init_at_loop]. rewrite encs_cons. cbn [enc at_desc_wire actype acparam].
  unfold enc_key. rewrite <- !app_assoc.
  change (sizeof_SFA_ACTION + 4)%nat with 12%nat. change (sizeof_SFA_ACTION + 2 * 4)%nat with 16%nat.
  change sizeof_SFA_ACTION with 8%nat. rd.
  rewrite fields4. rewrite (copy_data_at_key (_ ++ _)) by done. cbn [rbind].
  rewrite hash_key by done. cbn [rbind].
  rewrite app_assoc, advance_app by (rewrite !length_app; simpl; lia).
  destruct (proj1 (within_none _ _) (table_insert_within addr h
    (Mk_at_entry ((Some <$> key) ++ [Some 0; None]) status (Mk_action ty param))
    (key_hash key) _ Ht (conj Hs (conj Hty Hpa)) (hash_key _ _ Hk))) as (h1 & -> & Ht1 & Hp).
  cbn [rbind]. destruct (IH (S addr) h1 Hl Ht1) as (h' & -> & Ht' & Hc).
  exists h'. rewrite <- Nat.add_succ_comm. split; [done|]. split; [done|].
  rewrite Hc. unfold at_contents. rewrite Hp. csimpl. rewrite at_view_key by done.
  symmetry. apply Permutation_middle.
Qed.

(** The tables an application has, as described. *)
Definition describes (d : app_desc) (app : CONTROLLAPP) : Prop :=
  appid app = d_appid d /\ match_bitmap (pst app) = d_mmp d /\
  st_contents (st_entrys (pst app)) ≡ₚ d_st d /\ pstt app = d_stt d /\
  at_bitmap (pat app) = d_bitmap d /\ at_contents (at_entrys (pat app)) ≡ₚ d_at d.

(** The applications installed so far. *)
Definition installed (s : sfa_state) : list CONTROLLAPP := default [] (appslist (g_apps s)).

Lemma count_u32 {A} `{Wire A} (l : list A) : wires_ok l -> in_u32 (Z.of_nat (length l)).
Proof. intros [_ Hl]. unfold in_u32. lia. Qed.

Lemma count_iters {A} `{Wire A} (l : list A) : wires_ok l ->
  int_iters (Z.of_nat (length l)) = length l.
Proof. intros [_ Hl]. unfold int_iters. rewrite s32_small; lia. Qed.

Lemma find_app_fresh apps aid : find_app apps aid = None ->
  existsb (fun a => appid a =? aid) apps = false.
Proof.
  intros H. apply not_true_is_false. intros (a & Hin & E)%existsb_exists.
  by rewrite (List.find_none _ _ H a Hin) in E.
Qed.

Lemma sfa_inv_installed s : sfa_inv s ->
  (if islistinit (g_apps s) then g_apps s else Mk_apps true (Some []))
  = Mk_apps true (Some (installed s)).
Proof.
  unfold sfa_inv, installed. destruct (g_apps s) as [[] [apps|]]; simpl; try done.
  by intros [? _].
Qed.

Lemma sfa_msg_init_enc s hdr d : sfa_inv s -> length hdr = sizeof_ofp_header ->
  app_desc_ok d -> find_app (installed s) (d_appid d) = None ->
  exists app addr, describes d app /\ app_ok addr app /\ (next_addr s <= addr)%nat /\
    sfa_msg_init i686 s (enc_init hdr d)
    = Ok (SFA_MSG_PROCESS_OK, Mk_state (Mk_apps true (Some (installed s ++ [app]))) addr).
Proof.
  intros Hi Hh (Hid & Hmmp & Hst & Hstt & Hbm & Hat) Hf.
  pose proof (count_u32 _ Hst). pose proof (count_u32 _ Hstt). pose proof (count_u32 _ Hat).
  unfold sfa_msg_init, enc_init.
  rewrite sfa_inv_installed, drop_app_length' by done.
  change (sizeof_init_st i686) with 16%nat. change (st_counts_off i686) with 12%nat.
  change (st_mmp_off i686) with 4%nat. change (sizeof_init_at i686) with 12%nat.
  change at_counts_off with 8%nat.
  set (rest := encs (d_st d) ++ _).
  replace (drop 16 _) with rest by reflexivity. rd. cbn [appslist next_addr].
  rewrite find_app_fresh by done. rd. rewrite count_iters by done. unfold rest.
  set (rest1 := be32_bytes (Z.of_nat (length (d_stt d))) ++ _).
  destruct (init_st_loop_enc (d_st d) rest1 (next_addr s) hmap_init (proj1 Hst)
    (table_ok_init _)) as (st & -> & Hts & Hcs). cbn [rbind]. unfold rest1. rd.
  replace (drop 4 _) with (encs (d_stt d) ++ be64_bytes (d_bitmap d) ++
    be32_bytes (Z.of_nat (length (d_at d))) ++ encs (d_at d)) by reflexivity.
  rewrite Nat2Z.id, init_stt_loop_enc by apply Hstt. rd.
  replace (drop 12 _) with (encs (d_at d) ++ []) by (rewrite app_nil_r; reflexivity).
  rewrite count_iters by done.
  destruct (init_at_loop_enc (d_at d) [] (next_addr s + length (d_st d)) hmap_init (proj1 Hat)
    (table_ok_init _)) as (at_ & -> & Hta & Hca). cbn [rbind].
  eexists _, _. split; [|split; [|split; [|done]]]; [| |lia].
  - rewrite app_nil_r in *. done.
  - split; simpl; auto; [|apply Hstt]. eapply table_ok_mono; [|exact Hts]. lia.
Qed.

(** A creation message for an application that exists changes nothing. *)
Lemma sfa_msg_init_again s hdr d app : sfa_inv s -> length hdr = sizeof_ofp_header ->
  app_desc_ok d -> find_app (installed s) (d_appid d) = Some app ->
  sfa_msg_init i686 s (enc_init hdr d) = Ok (SFA_MSG_PROCESS_OK, s).
Proof.
  intros Hi Hh (Hid & _) Hf. unfold sfa_msg_init, enc_init.
  rewrite sfa_inv_installed, drop_app_length' by done. rd. cbn [appslist].
  apply find_app_Some in Hf as [Hin He].
  assert (existsb (fun a => appid a =? d_appid d) (installed s) = true) as ->.
  { apply existsb_exists. exists app. rewrite He, Z.eqb_refl.
    by apply list_elem_of_In in Hin. }
  unfold sfa_inv, installed in *. destruct s as [[[] [apps|]] n]; simpl in *; try done.
  - by destruct Hi.
  - by apply not_elem_of_nil in Hin.
Qed.

(** ** Status modification *)

(** The abstract status table: match strings to statuses. *)
Abbreviation st_map := (gmap (list Z) Z).

(** Adding keeps an existing entry; updating and deleting need one. *)
Definition st_mod_spec (m : st_map) (r : st_mod) : st_map :=
  match r with
  | (Add, (k, v)) => match m !! k with None => <[k := v]> m | Some _ => m end
  | (Update, (k, v)) => match m !! k with None => m | Some _ => <[k := v]> m end
  | (Del, (k, _)) => delete k m
  end.

Definition st_abs (h : hmap ST_MATCH_ENTRY) (m : st_map) : Prop :=
  st_contents h ≡ₚ map_to_list m.

(** No two of the keys collide: the lookups compare hashes only. *)
Definition hash_inj_on (K : gset (list Z)) : Prop :=
  forall k k', k ∈ K -> k' ∈ K -> key_hash k = key_hash k' -> k = k'.

Definition mod_keys (l : list st_mod) : gset (list Z) :=
  list_to_set ((fun r : st_mod => r.2.1) <$> l).

Lemma node_hash_key {A} `{Keyed A} b (nd : hmap_node A) : node_ok b nd ->
  node_hash nd = key_hash (str_of (key_buf (node_val nd))).
Proof.
  intros (Hh & _). unfold hash_string in Hh. apply rbind_Ok in Hh as (s & Hs & [= <-]).
  unfold str_of. by rewrite Hs.
Qed.

Section Lookup.
Context (b : nat) (h : hmap ST_MATCH_ENTRY) (m : st_map) (K : gset (list Z)).
Hypothesis (Ht : table_ok b h) (Ha : st_abs h m) (Hinj : hash_inj_on K) (HK : dom m ⊆ K).

Lemma st_abs_node nd : nd ∈ hmap_nodes h -> m !! (st_view nd).1 = Some (st_view nd).2.
Proof.
  intros Hin. apply elem_of_map_to_list. rewrite <- surjective_pairing, <- Ha.
  by apply list_elem_of_fmap_2.
Qed.

Lemma st_node_hash nd : nd ∈ hmap_nodes h -> node_hash nd = key_hash (st_view nd).1.
Proof.
  intros Hin. change (node_hash nd = key_hash (str_of (key_buf (node_val nd)))).
  apply (node_hash_key b). by apply (proj1 (Forall_forall _ _) (tbl_node _ _ Ht)).
Qed.

(** The first node with the hash of a key is the entry of the key. *)
Lemma st_chain k : k ∈ K ->
  match with_hash h (key_hash k) with
  | [] => m !! k = None
  | nd :: _ => exists v, m !! k = Some v /\ nd ∈ hmap_nodes h /\ st_view nd = (k, v)
  end.
Proof.
  intros Hk. destruct (with_hash h (key_hash k)) as [|nd p] eqn:Ew.
  - destruct (m !! k) as [v|] eqn:Em; [|done]. exfalso.
    apply elem_of_map_to_list in Em. rewrite <- Ha in Em.
    apply list_elem_of_fmap in Em as (nd & E & Hin).
    assert (nd ∈ with_hash h (key_hash k)) as Hw.
    { apply elem_of_with_hash; [apply Ht|]. split; [done|].
      rewrite st_node_hash by done. by rewrite <- E. }
    rewrite Ew in Hw. by apply not_elem_of_nil in Hw.
  - assert (nd ∈ with_hash h (key_hash k)) as Hw by (rewrite Ew; left).
    apply elem_of_with_hash in Hw as [Hin Hh]; [|apply Ht].
    pose proof (st_abs_node nd Hin) as Hm. rewrite st_node_hash in Hh by done.
    apply Hinj in Hh as E; [|apply HK, elem_of_dom; eauto|done].
    exists (st_view nd).2. rewrite <- E. rewrite <- surjective_pairing. auto.
Qed.

Lemma st_lookup k : k ∈ K ->
  exists p, hmap_first_with_hash h (key_hash k) = Ok p /\
    match p with
    | [] => m !! k = None
    | nd :: _ => exists v, m !! k = Some v /\ nd ∈ hmap_nodes h /\ st_view nd = (k, v)
    end.
Proof.
  intros Hk. destruct (hmap_first_with_hash_spec h (key_hash k)) as (p & -> & Hp); [apply Ht|].
  exists p. split; [done|]. pose proof (st_chain k Hk) as Hc.
  destruct p as [|nd p], (with_hash h (key_hash k)); simpl in Hp; try done. by simplify_eq.
Qed.

Lemma st_abs_store nd k v w : nd ∈ hmap_nodes h -> st_view nd = (k, v) -> m !! k = Some v ->
  st_abs (store_val h (node_addr nd) (set_st_status w)) (<[k := w]> m).
Proof.
  intros Hin Hv Hm. unfold st_abs, st_contents in *. rewrite hmap_nodes_store.
  apply elem_of_Permutation in Hin as (l & Hl).
  pose proof (wf_addr h (tbl_wf _ _ Ht)) as Hn. unfold hmap_nodes in Hl.
  fold (hmap_nodes h) in Hl, Hn. rewrite Hl in Hn, Ha. csimpl in Hn. csimpl in Ha.
  apply NoDup_cons in Hn as [Hn _].
  assert (List.map (upd_node (node_addr nd) (set_st_status w)) l = l) as El.
  { clear - Hn. induction l as [|x l IH]; [done|]. csimpl in Hn. simpl. f_equal.
    - unfold upd_node. rewrite decide_False; [done|]. set_solver.
    - apply IH. set_solver. }
  change (List.map ?f ?l) with (f <$> l) in *. rewrite Hl. csimpl. rewrite El.
  assert (st_view (upd_node (node_addr nd) (set_st_status w) nd) = (k, w)) as ->.
  { unfold upd_node. rewrite decide_True by done. unfold st_view in *. simpl. congruence. }
  rewrite <- (insert_delete_eq m k w), map_to_list_insert by apply lookup_delete_eq.
  constructor. rewrite Hv, <- (map_to_list_delete m k v Hm) in Ha.
  by apply Permutation_cons_inv in Ha.
Qed.

Lemma st_abs_insert k v : key_ok k -> in_u32 v -> m !! k = None ->
  exists h', hmap_insert_at h (Mk_node b 0 (Mk_st_entry ((Some <$> k) ++ [Some 0; Some 0]) v))
    (key_hash k) = Ok h' /\ table_ok (S b) h' /\ st_abs h' (<[k := v]> m).
Proof.
  intros Hk Hv Em. destruct (proj1 (within_none _ _) (table_insert_within b h
    (Mk_st_entry _ v) (key_hash k) _ Ht Hv (hash_key k (Some 0) Hk))) as (h' & -> & Ht' & Hp').
  exists h'. split; [done|]. split; [done|]. unfold st_abs, st_contents in *.
  rewrite Hp', map_to_list_insert by done. csimpl. rewrite st_view_key by done.
  by rewrite Ha.
Qed.

Lemma st_abs_remove nd k v : nd ∈ hmap_nodes h -> st_view nd = (k, v) -> m !! k = Some v ->
  exists h', hmap_remove h nd = Ok h' /\ table_ok b h' /\ st_abs h' (delete k m).
Proof.
  intros Hin Hv Hm. destruct (proj1 (within_none _ _) (table_remove_within b h nd _ Ht Hin))
    as (h' & -> & Ht' & Hp). exists h'. split; [done|]. split; [done|].
  unfold st_abs, st_contents in *. rewrite Hp in Ha. csimpl in Ha.
  rewrite Hv, <- (map_to_list_delete m k v Hm) in Ha. by apply Permutation_cons_inv in Ha.
Qed.
End Lookup.

Lemma st_mod_loop_enc (K : gset (list Z)) (l : list st_mod) r : forall addr h m,
  Forall wire_ok l -> table_ok addr h -> st_abs h m ->
  hash_inj_on K -> dom m ⊆ K -> mod_keys l ⊆ K ->
  exists addr' h', st_mod_loop (length l) (encs l ++ r) addr h = Ok (SFA_MSG_PROCESS_OK, addr', h') /\
    (addr <= addr')%nat /\ table_ok addr' h' /\ st_abs h' (fold_left st_mod_spec l m).
Proof.
  induction l as [|[op [k v]] l IH]; intros addr h m Hl Ht Ha Hinj HK Hkeys.
  { exists addr, h. auto. }
  apply Forall_cons in Hl as [[Hk Hv] Hl].
  assert (k ∈ K /\ mod_keys l ⊆ K) as [HkK HlK].
  { unfold mod_keys in *. csimpl in Hkeys. set_solver. }
  destruct (st_lookup addr h m K Ht Ha Hinj HK k HkK) as (p & Hf & Hp).
  cbn [length st_mod_loop fold_left]. rewrite encs_cons. cbn [enc st_mod_wire st_desc_wire].
  unfold enc_key. rewrite <- !app_assoc.
  change (2 * 4)%nat with 8%nat. change (3 * 4)%nat with 12%nat.
  assert (in_u32 (mod_code op)) by by destruct op.
  assert (Hadv : forall l', advance (be32_bytes (mod_code op) ++ be32_bytes v ++
    be32_bytes (Z.of_nat (length k)) ++ k ++ l') (3 * 4 + Z.of_nat (length k)) = l').
  { intros l'. rewrite fields4. apply advance_app. rewrite !length_app. simpl. lia. }
  assert (Hcp : forall l', copy_data (Z.of_nat (length k)) (be32_bytes (mod_code op) ++
    be32_bytes v ++ be32_bytes (Z.of_nat (length k)) ++ k ++ l') 12
    = Ok ((Some <$> k) ++ [Some 0; Some 0])).
  { intros l'. rewrite fields3. by apply (copy_data_key (_ ++ _ ++ _)). }
  rd. destruct op; cbn [mod_code] in *;
    cbn [Z.eqb ENTRY_ADD ENTRY_UPDATE ENTRY_DEL Pos.eqb st_mod_spec]; rd;
    rewrite Hcp; cbn [rbind]; rewrite hash_key by done; cbn [rbind]; rewrite Hf; cbn [rbind];
    rewrite ?Hadv.
  - destruct p as [|nd p].
    + destruct (st_abs_insert addr h m Ht Ha k v Hk Hv Hp) as (h' & -> & Ht' & Ha'). cbn [rbind]. rewrite Hp.
      destruct (IH (S addr) h' _ Hl Ht' Ha' Hinj) as (a2 & h2 & -> & ? & ? & ?); [set_solver..|].
      exists a2, h2. split; [done|]. split; [lia|done].
    + destruct Hp as (v' & -> & _). apply IH; auto.
  - destruct p as [|nd p]; [rewrite Hp; apply IH; auto|].
    destruct Hp as (v' & Em & Hin & Hvw). rewrite Em. apply IH; auto; [|by eapply st_abs_store|set_solver].
    by apply table_store_ok.
  - destruct p as [|nd p]; [rewrite delete_id by done; apply IH; auto|].
    destruct Hp as (v' & Em & Hin & Hvw).
    destruct (st_abs_remove addr h m Ht Ha nd k v' Hin Hvw Em) as (h' & -> & Ht' & Ha').
    cbn [rbind]. apply IH; auto. set_solver.
Qed.

Lemma find_update_app apps aid f app : find_app apps aid = Some app -> appid (f app) = aid ->
  find_app (update_app apps aid f) aid = Some (f app).
Proof.
  intros Hf Hi. unfold find_app in *. induction apps as [|a apps IH]; [done|]. simpl in *.
  destruct (Z.eqb_spec (appid a) aid); simpl.
  - simplify_eq. by rewrite Z.eqb_refl.
  - destruct (Z.eqb_spec (appid a) aid); [done|]. auto.
Qed.

(** A status modification message applies its records in order to the abstract
    table of the application, as long as no two of the keys involved collide. *)
Lemma sfa_msg_st_mod_enc s hdr aid (l : list st_mod) app m :
  sfa_inv s -> length hdr = sizeof_ofp_header -> in_u32 aid -> wires_ok l ->
  find_app (installed s) aid = Some app -> st_abs (st_entrys (pst app)) m ->
  hash_inj_on (dom m ∪ mod_keys l) ->
  exists addr h',
    sfa_msg_st_mod s (enc_mod hdr aid l) = Ok (SFA_MSG_PROCESS_OK,
      Mk_state (Mk_apps true (Some (update_app (installed s) aid
        (set_pst (Mk_st (match_bitmap (pst app)) h'))))) addr) /\
    st_abs h' (fold_left st_mod_spec l m).
Proof.
  intros Hi Hh Hid Hl Hf Ha Hinj. pose proof (count_u32 _ Hl).
  unfold sfa_msg_st_mod, enc_mod. rewrite drop_app_length' by done. rd.
  change (drop (2 * 4) _) with (encs l). unfold sfa_inv, installed in *.
  destruct s as [[[] [apps|]] n]; simpl in *; try done; [|by destruct Hi].
  destruct Hi as [_ Ho]. rewrite Hf. rd. rewrite count_iters by done.
  pose proof (proj1 (Forall_forall _ _) (proj1 Ho) app (proj1 (find_app_Some _ _ _ Hf))) as Hok.
  destruct (st_mod_loop_enc (dom m ∪ mod_keys l) l [] n (st_entrys (pst app)) m (proj1 Hl)
    (app_st _ _ Hok) Ha Hinj) as (a' & h' & E & _ & _ & Ha'); [set_solver..|].
  rewrite app_nil_r in E. rewrite E. simpl. eauto.
Qed.

(** ** Action modification *)

(** The records before the first one that is not an addition. *)
Fixpoint leading_adds (l : list at_mod) : list at_desc :=
  match l with (Add, d) :: l => d :: leading_adds l | _ => [] end.

Definition all_adds (l : list at_mod) : bool :=
  forallb (fun r => match r.1 with Add => true | _ => false end) l.

Lemma at_mod_loop_enc (l : list at_mod) r : forall addr h,
  Forall wire_ok l -> table_ok addr h ->
  exists addr' h', at_mod_loop (length l) (encs l ++ r) addr h
      = Ok (if all_adds l then SFA_MSG_PROCESS_OK else SFA_MSG_PROCESS_ERROR, addr', h') /\
    at_contents h' ≡ₚ leading_adds l ++ at_contents h.
Proof.
  induction l as [|[op [[k v] [ty param]]] l IH]; intros addr h Hl Ht.
  { exists addr, h. auto. }
  apply Forall_cons in Hl as [(Hk & _ & Hv & Hty & Hpa) Hl]. cbn [actype acparam] in *.
  cbn [length at_mod_loop]. rewrite encs_cons.
  destruct op; [|by exists addr, h..].
  cbn [enc at_mod_wire at_desc_wire actype acparam]. unfold enc_key. rewrite <- !app_assoc.
  change (ld_u32 _ 0) with (Ok 0). cbn [rbind Z.eqb ENTRY_ADD].
  change (4 + sizeof_SFA_ACTION)%nat with 12%nat.
  change (sizeof_SFA_ACTION + 2 * 4)%nat with 16%nat.
  change (sizeof_SFA_ACTION + 3 * 4)%nat with 20%nat. change (4 + 4)%nat with 8%nat. rd.
  rewrite fields5, (copy_data_key (_ ++ _ ++ _ ++ _ ++ _)), <- fields5 by done. rd.
  rewrite hash_key by done. cbn [rbind].
  destruct (proj1 (within_none _ _) (table_insert_within addr h
    (Mk_at_entry ((Some <$> k) ++ [Some 0; Some 0]) v (Mk_action ty param)) (key_hash k) _ Ht
    (conj Hv (conj Hty Hpa)) (hash_key _ _ Hk))) as (h1 & -> & Ht1 & Hp). cbn [rbind].
  rewrite fields5, (app_assoc _ k), advance_app
    by (rewrite !length_app; unfold sizeof_SFA_ACTION; simpl; lia).
  destruct (IH (S addr) h1 Hl Ht1) as (a' & h' & -> & Hc).
  exists a', h'. split; [done|]. rewrite Hc. unfold at_contents. rewrite Hp. csimpl.
  rewrite at_view_key by done. symmetry. apply Permutation_middle.
Qed.

(** An action modification message installs the additions up to its first
    update or delete record, which ends it with an error. *)
Lemma sfa_msg_at_mod_enc s hdr aid (l : list at_mod) app :
  sfa_inv s -> length hdr = sizeof_ofp_header -> in_u32 aid -> wires_ok l ->
  find_app (installed s) aid = Some app ->
  exists addr h',
    sfa_msg_at_mod s (enc_mod hdr aid l)
    = Ok (if all_adds l then SFA_MSG_PROCESS_OK else SFA_MSG_PROCESS_ERROR,
        Mk_state (Mk_apps true (Some (update_app (installed s) aid
          (set_pat (Mk_at (at_bitmap (pat app)) h'))))) addr) /\
    at_contents h' ≡ₚ leading_adds l ++ at_contents (at_entrys (pat app)).
Proof.
  intros Hi Hh Hid Hl Hf. pose proof (count_u32 _ Hl).
  unfold sfa_msg_at_mod, enc_mod. rewrite drop_app_length' by done. rd.
  change (drop (2 * 4) _) with (encs l). unfold sfa_inv, installed in *.
  destruct s as [[[] [apps|]] n]; simpl in *; try done; [|by destruct Hi].
  destruct Hi as [_ Ho]. rewrite Hf. rd. rewrite Nat2Z.id.
  pose proof (proj1 (Forall_forall _ _) (proj1 Ho) app (proj1 (find_app_Some _ _ _ Hf))) as Hok.
  destruct (at_mod_loop_enc l [] n (at_entrys (pat app)) (proj1 Hl) (app_at _ _ Hok))
    as (a' & h' & E & Hc).
  rewrite app_nil_r in E. rewrite E. simpl. eauto.
Qed.
