(* ===== verification/SfaMatch.v ===== *)
(** * Match strings and events ([ofproto/ofproto-dpif-xlate.c])

    The packet side of the stateful module before the table lookups: the
    rendering of the packet's fields selected by a bitmap as a string
    ([parse_match]) and the evaluation of the transition guards
    ([get_event_param], [get_event]). *)

From Stdlib Require Import ZArith Lia List.
From stdpp Require Import base list option sets.
From S2P Require Import Prelude Bytes Hash Sfa.
#[local] Open Scope Z_scope.
#[local] Open Scope res_scope.

(** ** The packet *)

(** The fields of [struct flow] that the module reads, as the integers the
    little-endian host loads from them; the fields of type [ovs_be16],
    [ovs_be32] and [ovs_be64] are in network byte order and are not converted. *)
Record flow := Mk_flow {
  metadata : Z;
  ofp_port : Z;
  dl_type : Z;
  vlan_tci : Z;
  mpls_lse : Z;
  ipv6_label : Z;
  nw_src : Z;
  nw_dst : Z;
  nw_frag : Z;
  nw_tos : Z;
  nw_ttl : Z;
  nw_proto : Z;
  tcp_flags : Z;
  tp_src : Z;
  tp_dst : Z
}.

(** The part of [struct xlate_ctx] and [struct xlate_in] the module uses. *)
Record xlate_ctx := Mk_ctx {
  xin_flow : flow;
  xin_tcp_flags : Z;
  ctx_exit : bool
}.

Definition flow_ok (f : flow) : Prop :=
  in_u64 (metadata f) /\ in_u16 (ofp_port f) /\ in_u16 (dl_type f) /\
  in_u16 (vlan_tci f) /\ in_u32 (mpls_lse f) /\ in_u32 (ipv6_label f) /\
  in_u32 (nw_src f) /\ in_u32 (nw_dst f) /\ in_u8 (nw_frag f) /\ in_u8 (nw_tos f) /\
  in_u8 (nw_ttl f) /\ in_u8 (nw_proto f) /\ in_u16 (tcp_flags f) /\
  in_u16 (tp_src f) /\ in_u16 (tp_dst f).

(** ** Formatted output *)

(** Decimal digits, as [%u] and its 64-bit version print them: at most twenty. *)
Fixpoint udec_loop (fuel : nat) (x : Z) (acc : list Z) : list Z :=
  match fuel with
  | O => acc
  | S fuel =>
      let acc := (48 + x mod 10) :: acc in
      if x <? 10 then acc else udec_loop fuel (x / 10) acc
  end.
Definition udec (x : Z) : list Z := udec_loop 20 x [].

(** [inet_ntoa] of an address in network byte order. *)
Definition inet_ntoa (a : Z) : list Z :=
  udec (a mod 2 ^ 8) ++ [46] ++ udec (a / 2 ^ 8 mod 2 ^ 8) ++ [46] ++
  udec (a / 2 ^ 16 mod 2 ^ 8) ++ [46] ++ udec (a / 2 ^ 24).

(** [sprintf] and [strcpy] of an output string into a buffer. *)
Definition put_string (b : cbuf) (s : list Z) : Res cbuf :=
  memcpy b (s ++ [0]) 0 (Z.of_nat (length s) + 1).

Definition strcat (dst src : cbuf) : Res cbuf :=
  let* d := c_str dst in
  let* s := c_str src in
  if (length d + length s + 1 <=? length dst)%nat
  then Ok ((Some <$> (d ++ s ++ [0])) ++ drop (length d + length s + 1) dst)
  else Fault OutOfBounds.

(** ** [parse_match] *)

(** The buffer [temp] after the switch on field [i].  The cases for Ethernet
    addresses print through a pointer that was never set; the undefined
    identifiers leave the buffer unwritten. *)
Definition field_temp (f : flow) (i : nat) : Res cbuf :=
  let temp := xmalloc 1024 in
  match i with
  | 1%nat => put_string temp (udec (metadata f))
  | 5%nat => put_string temp (udec (ofp_port f))
  | 6%nat | 7%nat => Fault UninitRead
  | 8%nat => put_string temp (udec (dl_type f))
  | 9%nat => put_string temp (udec (vlan_tci f))
  | 10%nat => put_string temp (udec (mpls_lse f))
  | 14%nat => put_string temp (udec (ipv6_label f))
  | 15%nat => put_string temp (inet_ntoa (nw_src f))
  | 16%nat => put_string temp (inet_ntoa (nw_dst f))
  | 17%nat => put_string temp (udec (nw_frag f))
  | 18%nat => put_string temp (udec (nw_tos f))
  | 19%nat => put_string temp (udec (nw_ttl f))
  | 20%nat => put_string temp (udec (nw_proto f))
  | 21%nat | 22%nat => Fault UninitRead
  | 23%nat => put_string temp (udec (tcp_flags f))
  | 25%nat => put_string temp (udec (tp_src f))
  | 26%nat => put_string temp (udec (tp_dst f))
  | _ => Ok temp
  end.

Fixpoint parse_match_loop (n i : nat) (f : flow) (bitmap : Z) (mtch : option cbuf)
  : Res (option cbuf) :=
  match n with
  | O => Ok mtch
  | S n =>
      if Z.land bitmap (Z.shiftl 1 (Z.of_nat i)) =? 0
      then parse_match_loop n (S i) f bitmap mtch
      else
        let* temp := field_temp f i in
        match mtch with
        | None => parse_match_loop n (S i) f bitmap (Some temp)
        | Some m =>
            let* m := strcat m temp in
            parse_match_loop n (S i) f bitmap (Some m)
        end
  end.

(** The result is [NULL] when no bit selects a field. *)
Definition parse_match (ctx : xlate_ctx) (bitmap : Z) : Res (option cbuf) :=
  parse_match_loop 26 0 (xin_flow ctx) bitmap None.

(** ** Events *)

Definition get_event_param (ctx : xlate_ctx) (param : Z) : Z :=
  let f := xin_flow ctx in
  if param =? SFAPARAM_IN_PORT then ofp_port f
  else if param =? SFAPARAM_DL_VLAN then vlan_tci f
  else if param =? SFAPARAM_DL_VLAN_PCP then u64 (-1)
  else if param =? SFAPARAM_DL_TYPE then dl_type f
  else if param =? SFAPARAM_NW_TOS then nw_tos f
  else if param =? SFAPARAM_NW_PROTO then nw_proto f
  else if param =? SFAPARAM_TP_SRC then tp_src f
  else if param =? SFAPARAM_TP_DST then tp_dst f
  else if param =? SFAPARAM_TP_FLAG then xin_tcp_flags ctx
  else if param =? SFAPARAM_DL_SRC then u64 (-1)
  else if param =? SFAPARAM_DL_DST then u64 (-1)
  else if param =? SFAPARAM_NW_SRC then nw_src f
  else if param =? SFAPARAM_NW_DST then nw_dst f
  else if param =? SFAPARAM_METADATA then metadata f
  else u64 (-1).

Definition get_event (param1 param2 op : Z) : bool :=
  if op =? OPRATOR_NON then true
  else if op =? OPRATOR_ADD then negb (u64 (param1 + param2) =? 0)
  else if op =? OPRATOR_BITAND then negb (Z.land param1 param2 =? 0)
  else if op =? OPRATOR_BITOR then negb (Z.lor param1 param2 =? 0)
  else if op =? OPRATOR_ISEQUAL then param1 =? param2
  else if op =? OPRATOR_GREATER then param2 <? param1
  else if op =? OPRATOR_LESS then param1 <? param2
  else if op =? OPRATOR_EQUALGREATER then param2 <=? param1
  else if op =? OPRATOR_EQUALLESS then param1 <=? param2
  else false.

(** ** Decimal output is readable back *)

Definition undec (l : list Z) : Z := fold_left (fun a d => 10 * a + (d - 48)) l 0.

Definition is_digit (c : Z) : Prop := 48 <= c <= 57.

Lemma undec_app_acc l : forall a, fold_left (fun a d => 10 * a + (d - 48)) l a
  = a * 10 ^ Z.of_nat (length l) + undec l.
Proof.
  unfold undec. induction l as [|d l IH]; intros a; cbn [fold_left length].
  { rewrite Z.pow_0_r. lia. }
  rewrite IH, (IH (10 * 0 + (d - 48))). rewrite Nat2Z.inj_succ, Z.pow_succ_r by lia. lia.
Qed.

Lemma undec_cons d l : undec (d :: l) = (d - 48) * 10 ^ Z.of_nat (length l) + undec l.
Proof. unfold undec at 1. cbn [fold_left]. rewrite undec_app_acc. lia. Qed.

(** The digits of a number below [10 ^ k], [k] at least one. *)
Lemma udec_loop_spec fuel : forall x acc (k : nat), 0 <= x < 10 ^ Z.of_nat k ->
  (1 <= k <= fuel)%nat -> exists l, udec_loop fuel x acc = l ++ acc /\
    (1 <= length l <= k)%nat /\ Forall is_digit l /\ undec l = x.
Proof.
  induction fuel as [|fuel IH]; intros x acc k Hx Hk; [lia|]. cbn [udec_loop].
  pose proof (Z.mod_pos_bound x 10 ltac:(lia)) as Hm. case_bool.
  - exists [48 + x mod 10]. split; [done|]. split; [simpl; lia|].
    split; [repeat constructor; unfold is_digit; lia|].
    rewrite undec_cons. simpl. rewrite Z.mod_small by lia. unfold undec. simpl. lia.
  - assert (2 <= k)%nat.
    { destruct k as [|[|k]]; [lia| |lia]. simpl in Hx. lia. }
    destruct (IH (x / 10) ((48 + x mod 10) :: acc) (pred k)) as (l & E & Hl & Hd & Hv).
    { split; [apply Z.div_pos; lia|]. apply Z.div_lt_upper_bound; [lia|].
      rewrite <- Z.pow_succ_r by lia. replace (Z.succ (Z.of_nat (pred k))) with (Z.of_nat k) by lia.
      lia. }
    { lia. }
    exists (l ++ [48 + x mod 10]). rewrite E, <- app_assoc. split; [done|].
    rewrite length_app. split; [simpl; lia|]. split.
    + apply Forall_app. split; [done|]. repeat constructor; unfold is_digit; lia.
    + unfold undec in *. rewrite fold_left_app, Hv. cbn [fold_left].
      pose proof (Z.div_mod x 10 ltac:(lia)). lia.
Qed.

Lemma udec_spec x (k : nat) : 0 <= x < 10 ^ Z.of_nat k -> (1 <= k <= 20)%nat ->
  (1 <= length (udec x) <= k)%nat /\ Forall is_digit (udec x) /\ undec (udec x) = x.
Proof.
  intros Hx Hk. destruct (udec_loop_spec 20 x [] k Hx Hk) as (l & E & H).
  unfold udec. by rewrite E, app_nil_r.
Qed.

Lemma udec_u64 x : in_u64 x ->
  (1 <= length (udec x) <= 20)%nat /\ Forall is_digit (udec x) /\ undec (udec x) = x.
Proof. unfold in_u64. intros H. apply udec_spec; [simpl; lia|lia]. Qed.

Lemma udec_inj x y : in_u64 x -> in_u64 y -> udec x = udec y -> x = y.
Proof.
  intros Hx Hy E. apply udec_u64 in Hx as (_ & _ & <-), Hy as (_ & _ & <-). by rewrite E.
Qed.

Definition is_dot_digit (c : Z) : Prop := c = 46 \/ is_digit c.

Lemma inet_ntoa_spec a : in_u32 a ->
  (1 <= length (inet_ntoa a) <= 15)%nat /\ Forall is_dot_digit (inet_ntoa a).
Proof.
  unfold in_u32, inet_ntoa. intros Ha.
  assert (Hb : forall b, 0 <= b < 2 ^ 8 ->
    (1 <= length (udec b) <= 3)%nat /\ Forall is_dot_digit (udec b)).
  { intros b Hb. destruct (udec_spec b 3) as (Hl & Hd & _); [simpl; lia|lia|].
    split; [done|]. eapply Forall_impl; [exact Hd|]. by right. }
  destruct (Hb (a mod 2 ^ 8)) as [L0 D0]; [zdm|].
  destruct (Hb (a / 2 ^ 8 mod 2 ^ 8)) as [L1 D1]; [zdm|].
  destruct (Hb (a / 2 ^ 16 mod 2 ^ 8)) as [L2 D2]; [zdm|].
  destruct (Hb (a / 2 ^ 24)) as [L3 D3]; [zdm|].
  rewrite !length_app. cbn [length]. split; [lia|].
  rewrite !Forall_app. repeat split; try done; by repeat constructor.
Qed.

(** A run of digits ends at the first dot. *)
Lemma dotted_inj l l' r r' : Forall is_digit l -> Forall is_digit l' ->
  l ++ [46] ++ r = l' ++ [46] ++ r' -> l = l' /\ r = r'.
Proof.
  unfold is_digit. intros Hl. revert l'. induction Hl as [|c l Hc Hl IH]; intros l' Hl' E.
  - destruct Hl' as [|c' l' Hc' Hl']; simpl in E; [by simplify_eq|]. simplify_eq. lia.
  - destruct Hl' as [|c' l' Hc' Hl']; injection E as -> E; [lia|].
    apply IH in E as [-> ->]; auto.
Qed.

Lemma inet_ntoa_inj a b : in_u32 a -> in_u32 b -> inet_ntoa a = inet_ntoa b -> a = b.
Proof.
  unfold in_u32. intros Ha Hb E. unfold inet_ntoa in E.
  assert (H : forall x, 0 <= x < 2 ^ 8 -> Forall is_digit (udec x)).
  { intros x Hx. apply (udec_spec x 3); simpl; lia. }
  assert (Hi : forall x y, 0 <= x < 2 ^ 8 -> 0 <= y < 2 ^ 8 -> udec x = udec y -> x = y).
  { intros x y ? ?. apply udec_inj; unfold in_u64; lia. }
  apply dotted_inj in E as [E0 E]; [|apply H; zdm..].
  apply dotted_inj in E as [E1 E]; [|apply H; zdm..].
  apply dotted_inj in E as [E2 E3]; [|apply H; zdm..].
  apply Hi in E0; [|zdm..]. apply Hi in E1; [|zdm..].
  apply Hi in E2; [|zdm..]. apply Hi in E3; [|zdm..]. zdm.
Qed.

(** ** What [parse_match] builds *)

(** The string of a field the function can render. *)
Definition field_string (f : flow) (i : nat) : option (list Z) :=
  match i with
  | 1%nat => Some (udec (metadata f))
  | 5%nat => Some (udec (ofp_port f))
  | 8%nat => Some (udec (dl_type f))
  | 9%nat => Some (udec (vlan_tci f))
  | 10%nat => Some (udec (mpls_lse f))
  | 14%nat => Some (udec (ipv6_label f))
  | 15%nat => Some (inet_ntoa (nw_src f))
  | 16%nat => Some (inet_ntoa (nw_dst f))
  | 17%nat => Some (udec (nw_frag f))
  | 18%nat => Some (udec (nw_tos f))
  | 19%nat => Some (udec (nw_ttl f))
  | 20%nat => Some (udec (nw_proto f))
  | 23%nat => Some (udec (tcp_flags f))
  | 25%nat => Some (udec (tp_src f))
  | _ => None
  end.

(** The fields that can be rendered. *)
Definition renderable : list nat := [1; 5; 8; 9; 10; 14; 15; 16; 17; 18; 19; 20; 23; 25]%nat.

(** The bits of a bitmap that name a field. *)
Definition selected (bitmap : Z) : list nat :=
  List.filter (fun i => Z.testbit bitmap (Z.of_nat i)) (seq 0 26).

Definition renders (bitmap : Z) : Prop := Forall (fun i => i ∈ renderable) (selected bitmap).

Definition match_string (f : flow) (bitmap : Z) : list Z :=
  concat (default [] <$> (field_string f <$> selected bitmap)).

#[export] Instance renders_dec bitmap : Decision (renders bitmap).
Proof. unfold renders. apply _. Defined.

(** A buffer of [parse_match] that holds a string. *)
Definition holds (b : cbuf) (s : list Z) : Prop :=
  length b = 1024%nat /\ c_str b = Ok s /\ Forall is_dot_digit s.

Lemma dot_digit_nonzero s : Forall is_dot_digit s -> Forall (fun c => c <> 0) s.
Proof. intros H. eapply Forall_impl; [exact H|]. unfold is_dot_digit, is_digit. lia. Qed.

Lemma put_string_holds s : Forall is_dot_digit s -> (length s < 1024)%nat ->
  exists b, put_string (xmalloc 1024) s = Ok b /\ holds b s.
Proof.
  intros Hs Hl. unfold put_string.
  assert (E : memcpy (xmalloc 1024) (s ++ [0]) 0 (Z.of_nat (length s) + 1)
    = Ok ((Some <$> (s ++ [0])) ++ drop (length (s ++ [0])) (xmalloc 1024))).
  { rewrite <- (memcpy_key (xmalloc 1024) [] (s ++ [0]) [] (Z.of_nat (length s) + 1)).
    - by rewrite app_nil_r.
    - rewrite length_app. simpl. lia.
    - rewrite length_app. change (length (xmalloc 1024)) with 1024%nat. simpl. lia. }
  rewrite E. eexists. split; [done|]. split; [|split; [|done]].
  - rewrite length_app, length_fmap, length_drop, length_app.
    change (length (xmalloc 1024)) with 1024%nat. simpl. lia.
  - rewrite fmap_app, <- app_assoc. change ((Some <$> [0]) ++ ?r) with (Some 0 :: r).
    rewrite c_str_bytes. by rewrite upto_nul_id by by apply dot_digit_nonzero.
Qed.

Lemma strcat_holds dst src d s : holds dst d -> holds src s ->
  (length d + length s < 1024)%nat -> exists b, strcat dst src = Ok b /\ holds b (d ++ s).
Proof.
  intros (Hld & Hd & Fd) (_ & Hs & Fs) Hl. unfold strcat. rewrite Hd, Hs. cbn [rbind].
  destruct (Nat.leb_spec (length d + length s + 1) (length dst)); [|lia].
  eexists. split; [done|]. assert (Forall is_dot_digit (d ++ s)) by by apply Forall_app.
  split; [|split; [|done]].
  - rewrite length_app, length_fmap, length_drop, !length_app. simpl. lia.
  - rewrite (app_assoc d), fmap_app, <- app_assoc.
    change ((Some <$> [0]) ++ ?r) with (Some 0 :: r).
    rewrite c_str_bytes. by rewrite upto_nul_id by by apply dot_digit_nonzero.
Qed.

Lemma udec_field x : in_u64 x -> Forall is_dot_digit (udec x) /\ (1 <= length (udec x) <= 20)%nat.
Proof.
  intros H. apply udec_u64 in H as (Hl & Hd & _). split; [|done].
  eapply Forall_impl; [exact Hd|]. by right.
Qed.

Lemma field_string_bound f i s : flow_ok f -> field_string f i = Some s ->
  Forall is_dot_digit s /\ (1 <= length s <= 20)%nat.
Proof.
  intros Hf E. unfold flow_ok, in_u8, in_u16, in_u32, in_u64 in Hf. unfold field_string in E.
  assert (Hip : forall a, 0 <= a < 2 ^ 32 ->
    Forall is_dot_digit (inet_ntoa a) /\ (1 <= length (inet_ntoa a) <= 20)%nat).
  { intros a Ha. destruct (inet_ntoa_spec a); [done|]. split; [done|lia]. }
  do 26 (destruct i as [|i]; [first [discriminate E | injection E as <-;
    first [apply Hip; lia | apply udec_field; unfold in_u64; lia]]|]). discriminate E.
Qed.

Lemma field_temp_holds f i : flow_ok f -> i ∈ renderable ->
  exists s b, field_string f i = Some s /\ field_temp f i = Ok b /\ holds b s /\
    (1 <= length s <= 20)%nat.
Proof.
  intros Hf Hi.
  assert (exists s, field_string f i = Some s /\ field_temp f i = put_string (xmalloc 1024) s)
    as (s & Es & Et).
  { unfold renderable in Hi. repeat (apply elem_of_cons in Hi as [->|Hi]; [eauto|]).
    by apply not_elem_of_nil in Hi. }
  destruct (field_string_bound f i s Hf Es) as [Fs Ls].
  destruct (put_string_holds s Fs) as (b & Eb & Hb); [lia|].
  exists s, b. rewrite Et. auto.
Qed.

Lemma land_bit bitmap i : (Z.land bitmap (Z.shiftl 1 (Z.of_nat i)) =? 0)
  = negb (Z.testbit bitmap (Z.of_nat i)).
Proof.
  rewrite Z.shiftl_1_l. destruct (Z.eqb_spec (Z.land bitmap (2 ^ Z.of_nat i)) 0) as [E|E].
  - apply (f_equal (fun z => Z.testbit z (Z.of_nat i))) in E.
    rewrite Z.land_spec, Z.pow2_bits_true, andb_true_r, Z.bits_0 in E by lia. by rewrite E.
  - destruct (Z.testbit bitmap (Z.of_nat i)) eqn:Et; [done|]. exfalso. apply E.
    apply Z.bits_inj. intros j. rewrite Z.land_spec, Z.bits_0.
    destruct (Z.eq_dec j (Z.of_nat i)) as [->|Hj]; [by rewrite Et|].
    rewrite Z.pow2_bits_false by lia. apply andb_false_r.
Qed.

(** The string built so far: null until a field was selected. *)
Definition built (mtch : option cbuf) (s : list Z) : Prop :=
  match mtch with None => s = [] | Some b => s <> [] /\ holds b s end.

Lemma parse_match_loop_spec f bitmap n : forall i mtch s, flow_ok f ->
  Forall (fun j => j ∈ renderable)
    (List.filter (fun j => Z.testbit bitmap (Z.of_nat j)) (seq i n)) ->
  built mtch s -> (length s <= 20 * i)%nat -> (i + n <= 26)%nat ->
  exists mtch', parse_match_loop n i f bitmap mtch = Ok mtch' /\
    built mtch' (s ++ concat (default [] <$> (field_string f <$>
      List.filter (fun j => Z.testbit bitmap (Z.of_nat j)) (seq i n)))).
Proof.
  induction n as [|n IH]; intros i mtch s Hf Hr Hm Hl Hn.
  { exists mtch. simpl. by rewrite app_nil_r. }
  cbn [parse_match_loop seq List.filter] in *. rewrite land_bit.
  destruct (Z.testbit bitmap (Z.of_nat i)); cbn [negb]; [|apply IH; auto; lia].
  apply Forall_cons in Hr as [Hi Hr].
  destruct (field_temp_holds f i Hf Hi) as (t & b & Es & -> & Hb & Hlt). cbn [rbind].
  csimpl. rewrite Es. cbn [default from_option id]. rewrite app_assoc.
  destruct mtch as [m|]; cbn [built] in Hm.
  - destruct Hm as [Hne Hm]. destruct (strcat_holds m b s t Hm Hb) as (m' & -> & Hm'); [lia|].
    cbn [rbind]. apply IH; auto; [|rewrite length_app; lia|lia].
    split; [|done]. by destruct s.
  - subst s. apply IH; auto; [|simpl; lia|lia]. split; [|done]. simpl. by destruct t; [simpl in *; lia|].
Qed.

(** On a bitmap of renderable fields the result is the concatenation of their
    strings, or null when there is none; it always fits in the buffer. *)
Lemma parse_match_spec ctx bitmap : flow_ok (xin_flow ctx) -> renders bitmap ->
  exists mtch, parse_match ctx bitmap = Ok mtch /\
    built mtch (match_string (xin_flow ctx) bitmap).
Proof.
  unfold parse_match, match_string, renders, selected. intros Hf Hr.
  pose proof (parse_match_loop_spec (xin_flow ctx) bitmap 26 0 None []) as H.
  rewrite app_nil_l in H. apply H; [done|done|done| |]; simpl; lia.
Qed.

(** Bits 26 and above never select anything. *)
Lemma parse_match_loop_mask f bitmap n : forall i mtch, (i + n <= 26)%nat ->
  parse_match_loop n i f bitmap mtch = parse_match_loop n i f (bitmap mod 2 ^ 26) mtch.
Proof.
  induction n as [|n IH]; intros i mtch Hn; [done|]. cbn [parse_match_loop].
  rewrite !land_bit, Z.mod_pow2_bits_low by lia.
  destruct (Z.testbit bitmap (Z.of_nat i)); cbn [negb]; [|apply IH; lia].
  destruct (field_temp f i) as [t|]; [|done]. cbn [rbind].
  destruct mtch as [m|]; [|apply IH; lia].
  destruct (strcat m t) as [m'|]; [|done]. cbn [rbind]. apply IH. lia.
Qed.
