(* ===== verification/SfaXlate.v ===== *)
(** * The stateful pipeline stage ([ofproto/ofproto-dpif-xlate.c])

    The instruction [GOTO_FP] hands a packet to [xlate_fp]: look up the packet's
    status, find the transition whose guard holds, look up and execute the
    action of the new status, store the new status.  [fp_spec] is the state
    machine this is meant to implement; [goto_fp_refines] shows that it does,
    and on which packets the code has no defined behaviour. *)

From Stdlib Require Import ZArith Lia List.
From stdpp Require Import base list option sets gmap.
From S2P Require Import Prelude Bytes Hash Hmap Sfa SfaTables SfaWire SfaMatch.
#[local] Open Scope Z_scope.
#[local] Open Scope res_scope.

(** ** Actions *)

Definition set_nw_src (f : flow) (a : Z) : flow :=
  Mk_flow (metadata f) (ofp_port f) (dl_type f) (vlan_tci f) (mpls_lse f) (ipv6_label f)
    a (nw_dst f) (nw_frag f) (nw_tos f) (nw_ttl f) (nw_proto f) (tcp_flags f)
    (tp_src f) (tp_dst f).
Definition set_nw_dst (f : flow) (a : Z) : flow :=
  Mk_flow (metadata f) (ofp_port f) (dl_type f) (vlan_tci f) (mpls_lse f) (ipv6_label f)
    (nw_src f) a (nw_frag f) (nw_tos f) (nw_ttl f) (nw_proto f) (tcp_flags f)
    (tp_src f) (tp_dst f).

Definition xlate_setsrcfield_action (ctx : xlate_ctx) (src_ip : Z) : xlate_ctx :=
  Mk_ctx (set_nw_src (xin_flow ctx) src_ip) (xin_tcp_flags ctx) (ctx_exit ctx).
Definition xlate_setdstfield_action (ctx : xlate_ctx) (dst_ip : Z) : xlate_ctx :=
  Mk_ctx (set_nw_dst (xin_flow ctx) dst_ip) (xin_tcp_flags ctx) (ctx_exit ctx).

Definition execute_fp_actions (ctx : xlate_ctx) (at_entry : AT_MATCH_ENTRY) : Z * xlate_ctx :=
  let ty := actype (act at_entry) in
  let param := acparam (act at_entry) in
  if ty =? SAT_OUTPUT then (0, ctx)
  else if ty =? SAT_DROP then (1, ctx)
  else if ty =? SAT_TOOPENFLOW then (0, ctx)
  else if ty =? ACT_SETSRCFIELD then (0, xlate_setsrcfield_action ctx param)
  else if ty =? ACT_SETDSTFIELD then (0, xlate_setdstfield_action ctx param)
  else (0, ctx).

(** ** [xlate_fp] *)

(** The loop over the transition table: [next_state], [event_exist] and
    [stt_entry_found] at its end. *)
Fixpoint stt_loop (ctx : xlate_ctx) (current_state : Z) (entrys : list STT_MATCH_ENTRY)
    (next_state : Z) (event_exist : bool) : Z * bool * bool :=
  match entrys with
  | [] => (next_state, event_exist, false)
  | e :: entrys =>
      let left_param := if param_left_type e =? SFAPARAM_CONST then param_left e
                        else get_event_param ctx (param_left_type e) in
      let right_param := if param_right_type e =? SFAPARAM_CONST then param_right e
                         else get_event_param ctx (param_right_type e) in
      if get_event left_param right_param (oprator e)
      then if current_state =? stt_last_status e then (cur_status e, true, true)
           else stt_loop ctx current_state entrys next_state true
      else stt_loop ctx current_state entrys next_state event_exist
  end.

(** The loop over the action entries with the hash: [should_drop], if it was
    assigned, and the packet after the action. *)
Fixpoint at_loop (ctx : xlate_ctx) (next_state : Z) (entrys : list (hmap_node AT_MATCH_ENTRY))
  : option Z * xlate_ctx :=
  match entrys with
  | [] => (None, ctx)
  | nd :: entrys =>
      if at_last_status (node_val nd) =? next_state
      then let '(should_drop, ctx) := execute_fp_actions ctx (node_val nd) in
           (Some should_drop, ctx)
      else at_loop ctx next_state entrys
  end.

Definition store_status (s : sfa_state) (apps : list CONTROLLAPP) (app : CONTROLLAPP)
    (st_entry : hmap_node ST_MATCH_ENTRY) (status : Z) : sfa_state :=
  let st := pst app in
  let h := store_val (st_entrys st) (node_addr st_entry) (set_st_status status) in
  Mk_state (Mk_apps (islistinit (g_apps s))
    (Some (update_app apps (appid app) (set_pst (Mk_st (match_bitmap st) h))))) (next_addr s).

(** [bitmap] is a [uint8_t], here and in the instruction.  The [int] result is
    [None] where the code returns no value ([return;]) or decides on the never
    assigned [should_drop]. *)
Definition xlate_fp (ctx : xlate_ctx) (s : sfa_state) (bitmap : Z)
  : Res (option Z * xlate_ctx * sfa_state) :=
  match appslist (g_apps s) with
  | None => Fault NullDeref
  | Some apps =>
      match find_app apps bitmap with
      | None => Ok (None, ctx, s)
      | Some app =>
          let st := pst app in
          let* st_match_string := parse_match ctx (match_bitmap st) in
          match st_match_string with
          | None => Ok (None, ctx, s)
          | Some st_match_string =>
              let* hash := hash_string st_match_string 0 in
              let* st_nodes := hmap_for_each_with_hash (st_entrys st) hash in
              match st_nodes with
              | [] => Ok (None, ctx, s)
              | st_entry :: _ =>
                  let current_state := st_last_status (node_val st_entry) in
                  let '(next_state, event_exist, stt_entry_found) :=
                    stt_loop ctx current_state (pstt app) current_state false in
                  let next_state :=
                    if negb stt_entry_found && event_exist then 0 else next_state in
                  let* at_match_string := parse_match ctx (at_bitmap (pat app)) in
                  let* hash := match at_match_string with
                               | None => Fault NullDeref
                               | Some at_match_string => hash_string at_match_string 0
                               end in
                  let* at_nodes := hmap_for_each_with_hash (at_entrys (pat app)) hash in
                  let '(should_drop, ctx) := at_loop ctx next_state at_nodes in
                  let s := if next_state =? 0 then s
                           else store_status s apps app st_entry next_state in
                  match should_drop with
                  | None => Ok (None, ctx, s)
                  | Some d => Ok (Some (if d =? 1 then 1 else 0), ctx, s)
                  end
              end
          end
      end
  end.

(** The case [OFPACT_GOTO_FP] of [do_xlate_actions]. *)
Definition goto_fp (ctx : xlate_ctx) (s : sfa_state) (bitmap : Z) : Res (xlate_ctx * sfa_state) :=
  let* (should_stop, ctx, s) := xlate_fp ctx s bitmap in
  match should_stop with
  | None => Fault UninitRead
  | Some r =>
      Ok (if r =? 1 then Mk_ctx (xin_flow ctx) (xin_tcp_flags ctx) true else ctx, s)
  end.

(** ** The state machine *)

Definition operand (ctx : xlate_ctx) (ty v : Z) : Z :=
  if ty =? SFAPARAM_CONST then v else get_event_param ctx ty.

Definition guard (ctx : xlate_ctx) (e : STT_MATCH_ENTRY) : bool :=
  get_event (operand ctx (param_left_type e) (param_left e))
            (operand ctx (param_right_type e) (param_right e)) (oprator e).

(** The first transition from the current status whose guard holds; status 0
    when guards hold but none for the current status; the current status when
    no guard holds. *)
Definition next_status (ctx : xlate_ctx) (stt : list STT_MATCH_ENTRY) (cur : Z) : Z :=
  match List.find (fun e => guard ctx e && (stt_last_status e =? cur)) stt with
  | Some e => cur_status e
  | None => if existsb (guard ctx) stt then 0 else cur
  end.

Definition apply_action (ctx : xlate_ctx) (a : SFA_ACTION) : xlate_ctx :=
  if actype a =? SAT_DROP then Mk_ctx (xin_flow ctx) (xin_tcp_flags ctx) true
  else if actype a =? ACT_SETSRCFIELD then xlate_setsrcfield_action ctx (acparam a)
  else if actype a =? ACT_SETDSTFIELD then xlate_setdstfield_action ctx (acparam a)
  else ctx.

(** Abstract action table: match string and status to action. *)
Abbreviation at_map := (gmap (list Z * Z) SFA_ACTION).

Definition fp_spec (ctx : xlate_ctx) (stt : list STT_MATCH_ENTRY) (sm : st_map) (am : at_map)
    (st_key at_key : list Z) : option (xlate_ctx * st_map) :=
  cur ← sm !! st_key;
  let next := next_status ctx stt cur in
  a ← am !! (at_key, next);
  Some (apply_action ctx a, if next =? 0 then sm else <[st_key := next]> sm).

Definition at_abs (h : hmap AT_MATCH_ENTRY) (m : at_map) : Prop :=
  at_contents h ≡ₚ map_to_list m.

Definition at_keys (m : at_map) : gset (list Z) := set_map fst (dom m).

(** ** The loops compute the abstract lookups *)

Lemma stt_loop_spec ctx cur es : forall next ev,
  let '(n, ev', found) := stt_loop ctx cur es next ev in
  (if negb found && ev' then 0 else n)
  = match List.find (fun e => guard ctx e && (stt_last_status e =? cur)) es with
    | Some e => cur_status e
    | None => if ev || existsb (guard ctx) es then 0 else next
    end.
Proof.
  induction es as [|e es IH]; intros next ev; cbn [stt_loop List.find existsb].
  { simpl. by rewrite orb_false_r. }
  change (get_event _ _ _) with (guard ctx e). rewrite (Z.eqb_sym cur).
  destruct (guard ctx e); cbn [andb orb].
  - destruct (stt_last_status e =? cur); [done|]. rewrite orb_true_r. apply IH.
  - apply IH.
Qed.

Lemma at_loop_find ctx next l :
  at_loop ctx next l
  = match List.find (fun nd => at_last_status (node_val nd) =? next) l with
    | None => (None, ctx)
    | Some nd => let '(d, ctx) := execute_fp_actions ctx (node_val nd) in (Some d, ctx)
    end.
Proof.
  induction l as [|nd l IH]; [done|]. cbn [at_loop List.find].
  by destruct (at_last_status (node_val nd) =? next).
Qed.

(** What [goto_fp] makes of an executed action. *)
Lemma execute_fp_actions_spec ctx e :
  let '(d, ctx') := execute_fp_actions ctx e in
  (if (if d =? 1 then 1 else 0) =? 1
   then Mk_ctx (xin_flow ctx') (xin_tcp_flags ctx') true else ctx')
  = apply_action ctx (act e).
Proof.
  unfold execute_fp_actions, apply_action.
  unfold SAT_OUTPUT, SAT_DROP, SAT_TOOPENFLOW, ACT_SETSRCFIELD, ACT_SETDSTFIELD.
  repeat case_bool; try done; lia.
Qed.

Lemma next_status_u32 ctx stt cur : Forall stt_ok stt -> in_u32 cur ->
  in_u32 (next_status ctx stt cur).
Proof.
  intros Hs Hc. unfold next_status. destruct (List.find _ stt) as [e|] eqn:E.
  - apply List.find_some in E as [Hin _]. rewrite Forall_forall in Hs.
    apply list_elem_of_In, Hs in Hin. apply Hin.
  - by case_match.
Qed.

Lemma at_lookup b h am k next : table_ok b h -> at_abs h am ->
  hash_inj_on ({[k]} ∪ at_keys am) ->
  match List.find (fun nd => at_last_status (node_val nd) =? next) (with_hash h (key_hash k)) with
  | None => am !! (k, next) = None
  | Some nd => am !! (k, next) = Some (act (node_val nd))
  end.
Proof.
  intros Ht Ha Hinj.
  assert (Hn : forall nd, nd ∈ hmap_nodes h ->
    node_hash nd = key_hash (at_view nd).1.1 /\ am !! (at_view nd).1 = Some (at_view nd).2).
  { intros nd Hin. split.
    - change (node_hash nd = key_hash (str_of (key_buf (node_val nd)))).
      apply (node_hash_key b). by apply (proj1 (Forall_forall _ _) (tbl_node _ _ Ht)).
    - apply elem_of_map_to_list. rewrite <- surjective_pairing, <- Ha.
      by apply list_elem_of_fmap_2. }
  destruct (List.find _ _) as [nd|] eqn:Ef.
  - apply List.find_some in Ef as [Hin Es]. apply Z.eqb_eq in Es.
    apply list_elem_of_In, elem_of_with_hash in Hin as [Hin Hh]; [|apply Ht].
    destruct (Hn nd Hin) as [Hk Hm]. rewrite Hh in Hk.
    apply Hinj in Hk; [|set_solver|].
    + rewrite Hk, <- Es. done.
    + unfold at_keys. apply elem_of_union_r, elem_of_map. exists (at_view nd).1. split; [done|].
      by apply elem_of_dom.
  - destruct (am !! (k, next)) as [a|] eqn:Em; [|done]. exfalso.
    apply elem_of_map_to_list in Em. rewrite <- Ha in Em.
    apply list_elem_of_fmap in Em as (nd & E & Hin).
    assert (nd ∈ with_hash h (key_hash k)) as Hw.
    { apply elem_of_with_hash; [apply Ht|]. split; [done|].
      rewrite (proj1 (Hn nd Hin)), <- E. done. }
    apply list_elem_of_In in Hw. pose proof (List.find_none _ _ Ef nd Hw) as Hne.
    unfold at_view in E. injection E as _ -> _. by rewrite Z.eqb_refl in Hne.
Qed.

(** ** Refinement *)

(** The application's tables stand for the abstract ones, and neither they nor
    the packet's keys collide under the hash. *)
Record fp_ready (ctx : xlate_ctx) (s : sfa_state) (bitmap : Z) (app : CONTROLLAPP)
    (sm : st_map) (am : at_map) : Prop := {
  fp_inv : sfa_inv s;
  fp_flow : flow_ok (xin_flow ctx);
  fp_app : find_app (installed s) bitmap = Some app;
  fp_st : st_abs (st_entrys (pst app)) sm;
  fp_at : at_abs (at_entrys (pat app)) am;
  fp_st_bits : renders (match_bitmap (pst app)) /\ selected (match_bitmap (pst app)) <> [];
  fp_at_bits : renders (at_bitmap (pat app)) /\ selected (at_bitmap (pat app)) <> [];
  fp_st_inj : hash_inj_on ({[match_string (xin_flow ctx) (match_bitmap (pst app))]} ∪ dom sm);
  fp_at_inj : hash_inj_on ({[match_string (xin_flow ctx) (at_bitmap (pat app))]} ∪ at_keys am)
}.

Lemma match_string_nonempty f bitmap : flow_ok f -> renders bitmap -> selected bitmap <> [] ->
  match_string f bitmap <> [].
Proof.
  intros Hf Hr Hs. unfold match_string, renders in *. destruct (selected bitmap) as [|i l]; [done|].
  apply Forall_cons in Hr as [Hi _]. destruct (field_temp_holds f i Hf Hi) as (s & b & E & _ & _ & Hl).
  csimpl. rewrite E. simpl. destruct s; [simpl in Hl; lia|done].
Qed.

(** The hash of the packet's match string. *)
Lemma parse_match_hash ctx bitmap : flow_ok (xin_flow ctx) -> renders bitmap ->
  selected bitmap <> [] -> exists b, parse_match ctx bitmap = Ok (Some b) /\
    hash_string b 0 = Ok (key_hash (match_string (xin_flow ctx) bitmap)).
Proof.
  intros Hf Hr Hs. destruct (parse_match_spec ctx bitmap Hf Hr) as ([b|] & -> & Hb).
  - exists b. split; [done|]. destruct Hb as (_ & _ & Hb & _). unfold hash_string. by rewrite Hb.
  - by apply match_string_nonempty in Hb.
Qed.

(** The installed applications after a status was stored for [app]. *)
Definition with_statuses (s : sfa_state) (app : CONTROLLAPP) (h : hmap ST_MATCH_ENTRY) : sfa_state :=
  Mk_state (Mk_apps true (Some (update_app (installed s) (appid app)
    (set_pst (Mk_st (match_bitmap (pst app)) h))))) (next_addr s).

Lemma goto_fp_refines_aux ctx s bitmap app sm am : fp_ready ctx s bitmap app sm am ->
  match fp_spec ctx (pstt app) sm am (match_string (xin_flow ctx) (match_bitmap (pst app)))
          (match_string (xin_flow ctx) (at_bitmap (pat app))) with
  | None => goto_fp ctx s bitmap = Fault UninitRead
  | Some (ctx', sm') =>
      exists s', goto_fp ctx s bitmap = Ok (ctx', s') /\
        (s' = s /\ sm' = sm \/
         exists h', s' = with_statuses s app h' /\ table_ok (next_addr s) h' /\ st_abs h' sm')
  end.
Proof.
  intros [Hi Hf Hap Hst Hat [Hsr Hss] [Har Has] Hsi Hai].
  set (sk := match_string _ (match_bitmap _)) in *. set (ak := match_string _ (at_bitmap _)) in *.
  unfold goto_fp, xlate_fp. unfold sfa_inv in Hi.
  assert (Hg : appslist (g_apps s) = Some (installed s) /\ islistinit (g_apps s) = true
    /\ apps_ok (next_addr s) (installed s)).
  { unfold installed in *. destruct (appslist (g_apps s)); [|done]. simpl. tauto. }
  destruct Hg as (-> & Hinit & Ho). rewrite Hap.
  pose proof (find_app_Some _ _ _ Hap) as [Hin Hid].
  pose proof (proj1 (Forall_forall _ _) (proj1 Ho) app Hin) as Hok.
  destruct (parse_match_hash ctx _ Hf Hsr Hss) as (b & -> & Hb). cbn [rbind]. rewrite Hb.
  fold sk in Hb |- *. cbn [rbind].
  rewrite hmap_for_each_with_hash_spec by apply (app_st _ _ Hok). cbn [rbind].
  destruct (parse_match_hash ctx _ Hf Har Has) as (b' & -> & Hb').
  pose proof (st_chain _ _ sm _ (app_st _ _ Hok) Hst Hsi (union_subseteq_r _ _) sk) as Hlk.
  specialize (Hlk ltac:(set_solver)).
  destruct (with_hash (st_entrys (pst app)) (key_hash sk)) as [|st_entry st_rest].
  { unfold fp_spec. by rewrite Hlk. }
  destruct Hlk as (cur & Em & Hnd & Hv). unfold fp_spec. rewrite Em. cbn [mbind option_bind].
  assert (Hcur : st_last_status (node_val st_entry) = cur) by (unfold st_view in Hv; congruence).
  rewrite Hcur. pose proof (stt_loop_spec ctx cur (pstt app) cur false) as Hstt.
  destruct (stt_loop ctx cur (pstt app) cur false) as [[n ev] found].
  rewrite Hstt. cbn [orb]. fold (next_status ctx (pstt app) cur).
  cbn [rbind]. rewrite Hb'. fold ak. cbn [rbind].
  rewrite hmap_for_each_with_hash_spec by apply (app_at _ _ Hok). cbn [rbind].
  set (next := next_status ctx (pstt app) cur).
  rewrite at_loop_find. pose proof (at_lookup _ _ am ak next (app_at _ _ Hok) Hat Hai) as Hal.
  destruct (List.find (fun nd => at_last_status (node_val nd) =? next) _) as [nd|]; rewrite Hal; cbn [mbind option_bind]; [|done].
  pose proof (execute_fp_actions_spec ctx (node_val nd)) as Hx.
  destruct (execute_fp_actions ctx (node_val nd)) as [d ctx']. cbn [rbind].
  rewrite Hx. destruct (Z.eqb_spec next 0) as [E|E].
  - eexists. split; [done|]. by left.
  - eexists. split; [done|]. right.
    exists (store_val (st_entrys (pst app)) (node_addr st_entry) (set_st_status next)).
    unfold store_status. rewrite Hinit. split; [done|]. split.
    + apply table_store_ok; [apply (app_st _ _ Hok)|done|]. intros v _.
      apply next_status_u32; [apply (app_stt _ _ Hok)|]. rewrite <- Hcur.
      by apply (proj1 (Forall_forall _ _) (tbl_node _ _ (app_st _ _ Hok))).
    + eapply st_abs_store; eauto. apply (app_st _ _ Hok).
Qed.

(** ** Runs of packets *)

(** Packets of one [GOTO_FP] instruction, one after the other. *)
Fixpoint run_packets (s : sfa_state) (bitmap : Z) (pkts : list xlate_ctx)
  : Res (list xlate_ctx * sfa_state) :=
  match pkts with
  | [] => Ok ([], s)
  | ctx :: pkts =>
      let* (ctx, s) := goto_fp ctx s bitmap in
      let* (out, s) := run_packets s bitmap pkts in
      Ok (ctx :: out, s)
  end.

Fixpoint run_spec (app : CONTROLLAPP) (sm : st_map) (am : at_map) (pkts : list xlate_ctx)
  : option (list xlate_ctx * st_map) :=
  match pkts with
  | [] => Some ([], sm)
  | ctx :: pkts =>
      '(ctx', sm) ← fp_spec ctx (pstt app) sm am
                      (match_string (xin_flow ctx) (match_bitmap (pst app)))
                      (match_string (xin_flow ctx) (at_bitmap (pat app)));
      '(out, sm) ← run_spec app sm am pkts;
      Some (ctx' :: out, sm)
  end.

(** The keys the packets look up in the two tables. *)
Definition pkt_keys (bitmap : Z) (pkts : list xlate_ctx) : gset (list Z) :=
  list_to_set ((fun c => match_string (xin_flow c) bitmap) <$> pkts).

Record run_ready (s : sfa_state) (bitmap : Z) (app : CONTROLLAPP) (sm : st_map) (am : at_map)
    (pkts : list xlate_ctx) : Prop := {
  rr_inv : sfa_inv s;
  rr_flow : Forall (fun c => flow_ok (xin_flow c)) pkts;
  rr_app : find_app (installed s) bitmap = Some app;
  rr_st : st_abs (st_entrys (pst app)) sm;
  rr_at : at_abs (at_entrys (pat app)) am;
  rr_st_bits : renders (match_bitmap (pst app)) /\ selected (match_bitmap (pst app)) <> [];
  rr_at_bits : renders (at_bitmap (pat app)) /\ selected (at_bitmap (pat app)) <> [];
  rr_st_inj : hash_inj_on (pkt_keys (match_bitmap (pst app)) pkts ∪ dom sm);
  rr_at_inj : hash_inj_on (pkt_keys (at_bitmap (pat app)) pkts ∪ at_keys am)
}.

Lemma hash_inj_on_mono K K' : K ⊆ K' -> hash_inj_on K' -> hash_inj_on K.
Proof. intros HK H k k' Hk Hk'. apply H; set_solver. Qed.

Lemma run_ready_head s bitmap app sm am ctx pkts :
  run_ready s bitmap app sm am (ctx :: pkts) -> fp_ready ctx s bitmap app sm am.
Proof.
  intros [? Hf ? ? ? ? ? Hs Ha]. apply Forall_cons in Hf as [? _]. unfold pkt_keys in *.
  csimpl in Hs. csimpl in Ha. split; try assumption.
  - eapply hash_inj_on_mono; [|exact Hs]. apply union_mono_r, union_subseteq_l.
  - eapply hash_inj_on_mono; [|exact Ha]. apply union_mono_r, union_subseteq_l.
Qed.

Lemma with_statuses_inv s app h : sfa_inv s -> find_app (installed s) (appid app) = Some app ->
  table_ok (next_addr s) h -> sfa_inv (with_statuses s app h).
Proof.
  intros Hi Hf Hh. unfold sfa_inv, with_statuses. simpl. split; [done|].
  assert (apps_ok (next_addr s) (installed s)).
  { unfold sfa_inv, installed in *. destruct (appslist (g_apps s)); [apply Hi|]. by destruct Hi. }
  apply update_app_ok; auto. intros a E [? ? ? ? ?]. rewrite Hf in E. injection E as <-. by split.
Qed.

Lemma fp_spec_dom ctx stt sm am k k' ctx' sm' :
  fp_spec ctx stt sm am k k' = Some (ctx', sm') -> dom sm' = dom sm.
Proof.
  unfold fp_spec. intros H. destruct (sm !! k) as [cur|] eqn:E; [|done]. cbn in H.
  destruct (am !! _); [|done]. cbn in H. injection H as _ <-. case_match; [done|].
  apply dom_insert_lookup_L. eauto.
Qed.

(** The state and application that the rest of a run starts from. *)
Lemma run_ready_tail s bitmap app sm am ctx pkts ctx' sm' h' :
  run_ready s bitmap app sm am (ctx :: pkts) ->
  fp_spec ctx (pstt app) sm am (match_string (xin_flow ctx) (match_bitmap (pst app)))
    (match_string (xin_flow ctx) (at_bitmap (pat app))) = Some (ctx', sm') ->
  table_ok (next_addr s) h' -> st_abs h' sm' ->
  run_ready (with_statuses s app h') bitmap (set_pst (Mk_st (match_bitmap (pst app)) h') app)
    sm' am pkts.
Proof.
  intros [Hi Hf Hap Hst Hat Hsb Hab Hs Ha] Hsp Hh Habs. apply Forall_cons in Hf as [_ Hf].
  pose proof (find_app_Some _ _ _ Hap) as [_ Hid].
  unfold pkt_keys in *. csimpl in Hs. csimpl in Ha.
  split; simpl; try assumption.
  - apply with_statuses_inv; [done|by rewrite Hid|done].
  - unfold installed, with_statuses. simpl. rewrite Hid. apply find_update_app; [done|].
    by rewrite <- Hid.
  - rewrite (fp_spec_dom _ _ _ _ _ _ _ _ Hsp). eapply hash_inj_on_mono; [|exact Hs].
    apply union_mono_r, union_subseteq_r.
  - eapply hash_inj_on_mono; [|exact Ha]. apply union_mono_r, union_subseteq_r.
Qed.

Lemma set_pst_same app : set_pst (Mk_st (match_bitmap (pst app)) (st_entrys (pst app))) app = app.
Proof. by destruct app as [? [] ? ?]. Qed.

Lemma installed_app_ok s bitmap app : sfa_inv s -> find_app (installed s) bitmap = Some app ->
  app_ok (next_addr s) app /\ appid app = bitmap.
Proof.
  intros Hi Hf. apply find_app_Some in Hf as [Hin Hid]. split; [|done].
  unfold sfa_inv, installed in *. destruct (appslist (g_apps s)) as [apps|].
  - by apply (proj1 (Forall_forall _ _) (proj1 (proj2 Hi))).
  - by apply not_elem_of_nil in Hin.
Qed.

Lemma update_app_twice apps aid f g : (forall a, appid (f a) = appid a) ->
  update_app (update_app apps aid f) aid g = update_app apps aid (fun a => g (f a)).
Proof.
  intros Hf. induction apps as [|a apps IH]; [done|]. simpl.
  destruct (appid a =? aid) eqn:E; simpl.
  - by rewrite Hf, E.
  - by rewrite E, IH.
Qed.

Lemma with_statuses_twice s app h h' :
  with_statuses (with_statuses s app h) (set_pst (Mk_st (match_bitmap (pst app)) h) app) h'
  = with_statuses s app h'.
Proof.
  unfold with_statuses, installed. simpl. by rewrite update_app_twice.
Qed.

(** Storing a table over itself changes nothing. *)
Lemma update_app_same apps aid app : find_app apps aid = Some app ->
  update_app apps aid (set_pst (pst app)) = apps.
Proof.
  unfold find_app. induction apps as [|a apps IH]; [done|]. simpl.
  destruct (appid a =? aid); intros H; [|by rewrite IH]. injection H as ->. by destruct app.
Qed.

Lemma with_statuses_same s app : sfa_inv s -> find_app (installed s) (appid app) = Some app ->
  with_statuses s app (st_entrys (pst app)) = s.
Proof.
  intros Hi Hf. unfold with_statuses.
  replace (Mk_st _ _) with (pst app) by by destruct (pst app).
  rewrite update_app_same by done. unfold sfa_inv, installed in *.
  destruct s as [[i [apps|]] n]; simpl in *; [|by destruct Hi]. destruct Hi as [-> _]. done.
Qed.

Lemma run_spec_set_pst app h sm am pkts :
  run_spec (set_pst (Mk_st (match_bitmap (pst app)) h) app) sm am pkts = run_spec app sm am pkts.
Proof.
  revert sm. induction pkts as [|c pkts IH]; intros sm; [done|]. cbn [run_spec]. simpl.
  destruct (fp_spec _ _ _ _ _ _) as [[c' sm']|]; [|done]. cbn. by rewrite IH.
Qed.

(** A run of packets goes through the outputs and statuses of the state machine
    and is undefined exactly where the machine is. *)
Lemma run_packets_refines_aux bitmap am pkts : forall s app sm,
  run_ready s bitmap app sm am pkts ->
  match run_spec app sm am pkts with
  | None => run_packets s bitmap pkts = Fault UninitRead
  | Some (out, sm') =>
      exists h', run_packets s bitmap pkts = Ok (out, with_statuses s app h') /\
        table_ok (next_addr s) h' /\ st_abs h' sm'
  end.
Proof.
  induction pkts as [|ctx pkts IH]; intros s app sm Hr; cbn [run_spec run_packets].
  { destruct Hr as [Hi _ Hf Hs _ _ _ _ _]. exists (st_entrys (pst app)).
    destruct (installed_app_ok _ _ _ Hi Hf) as [Hok Hid].
    rewrite with_statuses_same by (done || by rewrite Hid). split; [done|].
    split; [apply Hok|done]. }
  pose proof (goto_fp_refines_aux _ _ _ _ _ _ (run_ready_head _ _ _ _ _ _ _ Hr)) as Hg.
  destruct (fp_spec _ _ _ _ _ _) as [[ctx' sm1]|] eqn:Esp; [|by rewrite Hg].
  destruct Hg as (s1 & -> & Hs1). cbn [rbind mbind option_bind].
  assert (exists h1, s1 = with_statuses s app h1 /\ table_ok (next_addr s) h1 /\ st_abs h1 sm1)
    as (h1 & -> & Hh1 & Ha1).
  { destruct Hs1 as [[-> ->]|H]; [|done]. exists (st_entrys (pst app)).
    destruct Hr as [Hi _ Hf Hs _ _ _ _ _]. destruct (installed_app_ok _ _ _ Hi Hf) as [Hok Hid].
    rewrite with_statuses_same by (done || by rewrite Hid). split; [done|].
    split; [apply Hok|done]. }
  specialize (IH _ _ _ (run_ready_tail _ _ _ _ _ _ _ _ _ _ Hr Esp Hh1 Ha1)).
  rewrite run_spec_set_pst in IH.
  destruct (run_spec app sm1 am pkts) as [[out sm2]|]; cbn [mbind option_bind];
    [|by rewrite IH].
  destruct IH as (h2 & -> & Hh2 & Ha2). cbn [rbind]. exists h2.
  by rewrite with_statuses_twice.
Qed.

(** ** Reachable states *)

Lemma xlate_fp_inv ctx s bitmap ret ctx' s' : sfa_inv s ->
  xlate_fp ctx s bitmap = Ok (ret, ctx', s') ->
  s' = s \/ exists app h, find_app (installed s) bitmap = Some app /\
    table_ok (next_addr s) h /\ s' = with_statuses s app h.
Proof.
  intros Hi H. unfold xlate_fp in H.
  destruct (appslist (g_apps s)) as [apps|] eqn:Ea; [|done].
  assert (Hins : installed s = apps) by (unfold installed; by rewrite Ea).
  assert (Hinit : islistinit (g_apps s) = true) by (unfold sfa_inv in Hi; rewrite Ea in Hi; apply Hi).
  destruct (find_app apps bitmap) as [app|] eqn:Ef; [|left; congruence].
  rewrite <- Hins in Ef. destruct (installed_app_ok _ _ _ Hi Ef) as [Hok Hid].
  apply rbind_Ok in H as ([b|] & _ & H); [|left; congruence].
  apply rbind_Ok in H as (hash & _ & H). apply rbind_Ok in H as ([|nd p] & Hw & H); [left; congruence|].
  rewrite hmap_for_each_with_hash_spec in Hw by apply (app_st _ _ Hok). injection Hw as Hw.
  pose proof (stt_loop_spec ctx (st_last_status (node_val nd)) (pstt app)
    (st_last_status (node_val nd)) false) as Hstt.
  destruct (stt_loop _ _ _ _ _) as [[n ev] found]. rewrite Hstt in H. cbn [orb] in H.
  fold (next_status ctx (pstt app) (st_last_status (node_val nd))) in H.
  set (next := next_status _ _ _) in H.
  apply rbind_Ok in H as (b' & _ & H). apply rbind_Ok in H as (hash' & _ & H).
  apply rbind_Ok in H as (nodes & _ & H). destruct (at_loop _ _ _) as [d c].
  assert (Hs : s' = if next =? 0 then s else store_status s apps app nd next)
    by (destruct d; congruence).
  destruct (next =? 0); [by left|right].
  exists app, (store_val (st_entrys (pst app)) (node_addr nd) (set_st_status next)).
  split; [done|]. split; [|rewrite Hs; unfold store_status, with_statuses; by rewrite Hinit, Hins].
  apply table_store_ok; [apply (app_st _ _ Hok)|done|]. intros v _.
  apply next_status_u32; [apply (app_stt _ _ Hok)|].
  assert (nd ∈ with_hash (st_entrys (pst app)) hash) as Hin by (rewrite Hw; left).
  apply elem_of_with_hash in Hin as [Hin _]; [|apply (app_st _ _ Hok)].
  by apply (proj1 (Forall_forall _ _) (tbl_node _ _ (app_st _ _ Hok))).
Qed.

(** A step of the switch: a message from the controller or a packet. *)
Inductive sfa_step (s : sfa_state) : sfa_state -> Prop :=
  | step_message target msg r s' : bytes_ok msg ->
      sfa_handle_pkt target s msg = Ok (r, s') -> sfa_step s s'
  | step_packet ctx bitmap ret ctx' s' :
      xlate_fp ctx s bitmap = Ok (ret, ctx', s') -> sfa_step s s'.

Lemma sfa_step_inv s s' : sfa_inv s -> sfa_step s s' -> sfa_inv s'.
Proof.
  intros Hi [target msg r s1 Hm E|ctx bitmap ret ctx' s1 E].
  - pose proof (sfa_handle_pkt_within target s msg Hi Hm) as Hw. rewrite E in Hw. apply Hw.
  - apply xlate_fp_inv in E as [->|(app & h & Hf & Hh & ->)]; [done| |done].
    apply with_statuses_inv; auto. destruct (installed_app_ok _ _ _ Hi Hf) as [_ Hid].
    by rewrite Hid.
Qed.

(** What of an application no step changes. *)
Definition app_config (a : CONTROLLAPP) : Z * Z * list STT_MATCH_ENTRY * Z :=
  (appid a, match_bitmap (pst a), pstt a, at_bitmap (pat a)).

Lemma update_app_config apps aid f :
  (forall a, find_app apps aid = Some a -> app_config (f a) = app_config a) ->
  app_config <$> update_app apps aid f = app_config <$> apps.
Proof.
  unfold find_app. induction apps as [|a apps IH]; intros Hf; [done|]. simpl in *.
  destruct (appid a =? aid); csimpl; f_equal; auto.
Qed.

Lemma sfa_msg_init_config target s msg err s' : sfa_inv s ->
  sfa_msg_init target s msg = Ok (err, s') ->
  (app_config <$> installed s) `prefix_of` (app_config <$> installed s').
Proof.
  intros Hi H. unfold sfa_msg_init in H. rewrite sfa_inv_installed in H by done.
  apply rbind_Ok in H as (aid & _ & H). cbn [appslist] in H.
  destruct (existsb _ _); [by injection H as _ <-|].
  do 2 apply rbind_Ok in H as (? & _ & H). apply rbind_Ok in H as ([[? ?] ?] & _ & H).
  apply rbind_Ok in H as (? & _ & H). apply rbind_Ok in H as ([? ?] & _ & H).
  do 2 apply rbind_Ok in H as (? & _ & H). apply rbind_Ok in H as ([[? ?] ?] & _ & H).
  injection H as _ <-. unfold installed at 2. simpl. rewrite fmap_app. by apply prefix_app_r.
Qed.

Lemma sfa_msg_st_mod_config s msg err s' : sfa_msg_st_mod s msg = Ok (err, s') ->
  app_config <$> installed s' = app_config <$> installed s.
Proof.
  intros H. unfold sfa_msg_st_mod in H. apply rbind_Ok in H as (aid & _ & H).
  destruct (islistinit _); cbn [negb] in H; [|by injection H as _ <-].
  destruct (appslist (g_apps s)) as [apps|] eqn:Ea; [|done].
  destruct (find_app apps aid) as [app|] eqn:Ef; [|by injection H as _ <-].
  apply rbind_Ok in H as (? & _ & H). apply rbind_Ok in H as ([[? ?] ?] & _ & H).
  injection H as _ <-. unfold installed. rewrite Ea. simpl. apply update_app_config.
  intros a E. by simplify_eq.
Qed.

Lemma sfa_msg_at_mod_config s msg err s' : sfa_msg_at_mod s msg = Ok (err, s') ->
  app_config <$> installed s' = app_config <$> installed s.
Proof.
  intros H. unfold sfa_msg_at_mod in H. apply rbind_Ok in H as (aid & _ & H).
  destruct (islistinit _); cbn [negb] in H; [|by injection H as _ <-].
  destruct (appslist (g_apps s)) as [apps|] eqn:Ea; [|done].
  destruct (find_app apps aid) as [app|] eqn:Ef; [|by injection H as _ <-].
  apply rbind_Ok in H as (? & _ & H). apply rbind_Ok in H as ([[? ?] ?] & _ & H).
  injection H as _ <-. unfold installed. rewrite Ea. simpl. apply update_app_config.
  intros a E. by simplify_eq.
Qed.

Lemma sfa_step_config s s' : sfa_inv s -> sfa_step s s' ->
  (app_config <$> installed s) `prefix_of` (app_config <$> installed s').
Proof.
  intros Hi [target msg r s1 Hm E|ctx bitmap ret ctx' s1 E].
  - unfold sfa_handle_pkt in E. apply rbind_Ok in E as (ty & _ & E).
    repeat case_bool_in E; try (apply rbind_Ok in E as ([[] s2] & E & E2);
      injection E2 as _ <-).
    + by apply sfa_msg_init_config in E.
    + by apply sfa_msg_init_config in E.
    + apply sfa_msg_st_mod_config in E. by rewrite E.
    + apply sfa_msg_st_mod_config in E. by rewrite E.
    + apply sfa_msg_at_mod_config in E. by rewrite E.
    + apply sfa_msg_at_mod_config in E. by rewrite E.
    + by injection E as _ <-.
  - apply xlate_fp_inv in E as [->|(app & h & Hf & Hh & ->)]; [done| |done].
    unfold with_statuses, installed at 2. simpl. rewrite update_app_config; [done|].
    destruct (installed_app_ok _ _ _ Hi Hf) as [_ Hid].
    intros a E. rewrite Hid in E. by simplify_eq.
Qed.

(** Induction over the steps from the initial state. *)
Lemma reachable_ind (P : sfa_state -> Prop) : P sfa_initial ->
  (forall s s', sfa_inv s -> P s -> sfa_step s s' -> P s') ->
  forall s, rtc sfa_step sfa_initial s -> sfa_inv s /\ P s.
Proof.
  intros H0 Hs. apply (rtc_ind_r (fun s => sfa_inv s /\ P s)).
  - split; [apply sfa_initial_inv|done].
  - intros s s' _ Hst [Hi IH]. split; [by eapply sfa_step_inv|by eapply Hs].
Qed.
