(* ===== verification/SfaProps.v ===== *)
(** * Properties of the stateful forwarding module

    The theorems about [ofproto/sfa.c] and the [GOTO_FP] stage of
    [ofproto/ofproto-dpif-xlate.c], stated for the whole handlers and for the
    runs of a switch, each with an instance on a concrete firewall application.
    The lemmas they rest on are in [SfaTables] (invariant), [SfaWire] (message
    format), [SfaMatch] (match strings) and [SfaXlate] (packets). *)

From Stdlib Require Import ZArith Lia List.
From stdpp Require Import base list option sets gmap relations.
From S2P Require Import Prelude Bytes Hash Hmap Sfa SfaTables SfaWire SfaMatch SfaXlate.
#[local] Open Scope Z_scope.
#[local] Open Scope res_scope.

(** ** An application for the examples *)

Module Firewall.

Definition hdr (ty : Z) : list Z := [1; ty; 0; 0; 0; 0; 0; 0].

(** The match string of 10.0.0.1 and its address as the host loads it. *)
Definition host : list Z := [49; 48; 46; 48; 46; 48; 46; 49].
Definition host_addr : Z := 10 + 2 ^ 24.

(** A connection to port 22 takes a host from status 1 to status 2, where its
    packets are dropped. *)
Definition to_blocked : STT_MATCH_ENTRY :=
  Mk_stt SFAPARAM_TP_DST 0 OPRATOR_ISEQUAL SFAPARAM_CONST (22 * 2 ^ 8) 1 2.

Definition desc : app_desc :=
  Mk_app_desc 7 (2 ^ 15) [(host, 1)] [to_blocked] (2 ^ 15)
    [(host, 1, Mk_action SAT_TOOPENFLOW 0); (host, 2, Mk_action SAT_DROP 0)].

Definition packet (src dport : Z) : xlate_ctx :=
  Mk_ctx (Mk_flow 0 1 8 0 0 0 src 0 0 0 64 6 0 0 dport) 0 false.

Definition create (d : app_desc) : sfa_state :=
  match sfa_handle_pkt i686 sfa_initial (enc_init (hdr 90) d) with
  | Ok (_, s) => s
  | Fault _ => sfa_initial
  end.
Definition state : sfa_state := create desc.
Definition app : CONTROLLAPP :=
  default (Mk_app 0 (Mk_st 0 hmap_init) [] (Mk_at 0 hmap_init)) (find_app (installed state) 7).

Definition statuses : st_map := {[ host := 1 ]}.
Definition actions : at_map :=
  <[(host, 1) := Mk_action SAT_TOOPENFLOW 0]> {[ (host, 2) := Mk_action SAT_DROP 0 ]}.

Lemma bytes_dec (l : list Z) : forallb (fun b => (0 <=? b) && (b <? 2 ^ 8)) l = true -> bytes_ok l.
Proof.
  intros H. apply Forall_forall. intros b Hb. apply list_elem_of_In in Hb.
  apply (proj1 (forallb_forall _ _) H) in Hb. unfold in_u8. lia.
Qed.

Lemma host_ok : key_ok host.
Proof. split; [repeat constructor|reflexivity]; cbn; lia. Qed.


Lemma state_ok : sfa_inv state.
Proof.
  pose proof (sfa_handle_pkt_within i686 sfa_initial (enc_init (hdr 90) desc) sfa_initial_inv) as H.
  unfold state, create. destruct (sfa_handle_pkt _ _ _) as [[r s]|]; [|done].
  apply H. by apply bytes_dec.
Qed.

Lemma app_found : find_app (installed state) 7 = Some app.
Proof. vm_compute. reflexivity. Qed.

Lemma statuses_ok : st_abs (st_entrys (pst app)) statuses.
Proof. unfold st_abs, statuses. rewrite map_to_list_singleton. vm_compute. reflexivity. Qed.

Lemma actions_ok : at_abs (at_entrys (pat app)) actions.
Proof.
  unfold at_abs, actions. rewrite map_to_list_insert by done. rewrite map_to_list_singleton.
  vm_compute. reflexivity.
Qed.

Lemma one_key_inj (K : gset (list Z)) : K ⊆ {[host]} -> hash_inj_on K.
Proof.
  intros HK k k' Hk Hk' _. apply HK, elem_of_singleton in Hk. apply HK, elem_of_singleton in Hk'.
  congruence.
Qed.

Lemma packet_ok dport : in_u16 dport -> flow_ok (xin_flow (packet host_addr dport)).
Proof. unfold flow_ok, in_u8, in_u16, in_u32, in_u64, host_addr. simpl. lia. Qed.

Lemma bits_ok : renders (2 ^ 15) /\ selected (2 ^ 15) <> [].
Proof. split; [apply (bool_decide_unpack _); vm_compute; exact I|by vm_compute]. Qed.

Lemma packet_key dport : match_string (xin_flow (packet host_addr dport)) (2 ^ 15) = host.
Proof. vm_compute. reflexivity. Qed.

Lemma pkts_ready dports : Forall in_u16 dports ->
  run_ready state 7 app statuses actions (packet host_addr <$> dports).
Proof.
  intros Hd.
  assert (Hk : pkt_keys (2 ^ 15) (packet host_addr <$> dports) ⊆ {[host]}).
  { unfold pkt_keys. intros k Hin. apply elem_of_list_to_set, list_elem_of_fmap in Hin as (c & -> & Hc).
    apply list_elem_of_fmap in Hc as (p & -> & _). rewrite packet_key. set_solver. }
  assert (Ha : at_keys actions ⊆ {[host]}).
  { unfold at_keys, actions. rewrite dom_insert_L, dom_singleton_L. set_solver. }
  split; try change (match_bitmap (pst app)) with (2 ^ 15); try change (at_bitmap (pat app)) with (2 ^ 15).
  - apply state_ok.
  - apply Forall_fmap. eapply Forall_impl; [exact Hd|]. intros p Hp. by apply packet_ok.
  - apply app_found.
  - apply statuses_ok.
  - apply actions_ok.
  - apply bits_ok.
  - apply bits_ok.
  - apply one_key_inj. unfold statuses. rewrite dom_singleton_L. set_solver.
  - apply one_key_inj. set_solver.
Qed.

End Firewall.

(** ** Dispatch *)

Lemma ofp_type_hdr hdr ty r : length hdr = sizeof_ofp_header -> hdr !! 1%nat = Some ty ->
  ofp_type (hdr ++ r) = Ok ty.
Proof. intros Hl Ht. unfold ofp_type. by rewrite lookup_app_l, Ht by (rewrite Hl; cbv; lia). Qed.

Lemma find_update_other apps aid aid' f : (forall a, appid (f a) = appid a) -> aid' <> aid ->
  find_app (update_app apps aid f) aid' = find_app apps aid'.
Proof.
  intros Hf Hne. unfold find_app. induction apps as [|a apps IH]; [done|]. simpl.
  destruct (Z.eqb_spec (appid a) aid) as [E|E]; simpl; [|by rewrite IH].
  rewrite Hf. by destruct (Z.eqb_spec (appid a) aid'); [lia|].
Qed.

Lemma installed_mk b l n : installed (Mk_state (Mk_apps b (Some l)) n) = l.
Proof. reflexivity. Qed.

(** ** Packets *)

(** C1. On a packet whose keys do not collide with the stored ones, [GOTO_FP]
    does what the state machine does: the status of the packet's host moves
    along the first transition whose guard holds, the action of the new status
    is applied to the packet, and all other statuses stay.  Where the machine
    has no entry for the packet the code reads a value that was never assigned. *)
Theorem goto_fp_refines ctx s bitmap app sm am : fp_ready ctx s bitmap app sm am ->
  match fp_spec ctx (pstt app) sm am (match_string (xin_flow ctx) (match_bitmap (pst app)))
          (match_string (xin_flow ctx) (at_bitmap (pat app))) with
  | None => goto_fp ctx s bitmap = Fault UninitRead
  | Some (ctx', sm') =>
      exists s' app', goto_fp ctx s bitmap = Ok (ctx', s') /\ sfa_inv s' /\
        find_app (installed s') bitmap = Some app' /\ st_abs (st_entrys (pst app')) sm' /\
        pat app' = pat app /\
        forall aid, aid <> bitmap -> find_app (installed s') aid = find_app (installed s) aid
  end.
Proof.
  intros Hr. pose proof (goto_fp_refines_aux _ _ _ _ _ _ Hr) as H.
  destruct (fp_spec _ _ _ _ _ _) as [[ctx' sm']|]; [|done]. destruct Hr as [Hi _ Hf Hs _ _ _ _ _].
  destruct H as (s' & E & [[-> ->]|(h' & -> & Hh & Ha)]); [by exists s, app|].
  destruct (installed_app_ok _ _ _ Hi Hf) as [_ Hid].
  eexists _, _. split; [exact E|]. split; [apply with_statuses_inv; [done|by rewrite Hid|done]|].
  unfold with_statuses. rewrite !installed_mk, Hid.
  rewrite (find_update_app _ _ _ app Hf) by (simpl; done).
  split; [reflexivity|]. split; [done|]. split; [done|].
  intros aid Hne. by apply find_update_other.
Qed.

Lemma goto_fp_refines_witness :
  exists s', goto_fp (Firewall.packet Firewall.host_addr (22 * 2 ^ 8)) Firewall.state 7
    = Ok (Mk_ctx (xin_flow (Firewall.packet Firewall.host_addr (22 * 2 ^ 8))) 0 true, s').
Proof.
  pose proof (goto_fp_refines (Firewall.packet Firewall.host_addr (22 * 2 ^ 8)) Firewall.state 7
    Firewall.app Firewall.statuses Firewall.actions) as H.
  assert (Hs : fp_spec (Firewall.packet Firewall.host_addr (22 * 2 ^ 8)) (pstt Firewall.app)
    Firewall.statuses Firewall.actions Firewall.host Firewall.host
    = Some (Mk_ctx (xin_flow (Firewall.packet Firewall.host_addr (22 * 2 ^ 8))) 0 true,
            <[Firewall.host := 2]> Firewall.statuses)) by (vm_compute; reflexivity).
  change (match_bitmap (pst Firewall.app)) with (2 ^ 15) in H.
  change (at_bitmap (pat Firewall.app)) with (2 ^ 15) in H.
  rewrite Firewall.packet_key, Hs in H.
  destruct H as (s' & app' & E & _).
  - eapply run_ready_head. apply (Firewall.pkts_ready [22 * 2 ^ 8]).
    repeat constructor; unfold in_u16; lia.
  - exists s'. exact E.
Defined.

(** C2. As long as no two of the match strings of the packets and of the tables
    collide under the hash, and the bitmaps of the application name fields that
    [parse_match] can print ([run_ready]), a sequence of packets goes through
    the outputs and the statuses of the state machine, each packet seeing the
    statuses the earlier ones left, and is undefined exactly when the machine
    gets stuck on one of them.  [hosts_collide] shows that the first condition
    is needed. *)
Theorem run_packets_refines bitmap am pkts s app sm : run_ready s bitmap app sm am pkts ->
  match run_spec app sm am pkts with
  | None => run_packets s bitmap pkts = Fault UninitRead
  | Some (out, sm') =>
      exists h', run_packets s bitmap pkts = Ok (out, with_statuses s app h') /\
        table_ok (next_addr s) h' /\ st_abs h' sm'
  end.
Proof. apply run_packets_refines_aux. Qed.

(** The host is blocked from its connection to port 22 on. *)
Lemma run_packets_refines_witness :
  exists out s', run_packets Firewall.state 7
      (Firewall.packet Firewall.host_addr <$> [20480; 5632; 20480]) = Ok (out, s') /\
    ctx_exit <$> out = [false; true; true].
Proof.
  pose proof (run_packets_refines 7 Firewall.actions
    (Firewall.packet Firewall.host_addr <$> [20480; 5632; 20480])
    Firewall.state Firewall.app Firewall.statuses) as H.
  set (pkts := Firewall.packet Firewall.host_addr <$> [20480; 5632; 20480]) in *.
  set (blocked c := Mk_ctx (xin_flow c) (xin_tcp_flags c) true).
  assert (Hs : run_spec Firewall.app Firewall.statuses Firewall.actions pkts
    = Some ([Firewall.packet Firewall.host_addr 20480; blocked (Firewall.packet Firewall.host_addr 5632);
             blocked (Firewall.packet Firewall.host_addr 20480)],
            <[Firewall.host := 2]> Firewall.statuses)) by (vm_compute; reflexivity).
  rewrite Hs in H. destruct H as (h' & E & _).
  - apply Firewall.pkts_ready. repeat constructor; unfold in_u16; lia.
  - eexists _, _. split; [exact E|]. reflexivity.
Defined.

(** ** Messages *)



(** A creation message for an application that is already installed is
    accepted and changes nothing, whatever tables it describes. *)
Theorem sfa_create_again s hdr d app : sfa_inv s -> length hdr = sizeof_ofp_header ->
  hdr !! 1%nat = Some OFPTYPE_SFA_TABLE_CREATE -> app_desc_ok d ->
  find_app (installed s) (d_appid d) = Some app ->
  sfa_handle_pkt i686 s (enc_init hdr d) = Ok (0, s).
Proof.
  intros Hi Hl Ht Hd Hf. unfold sfa_handle_pkt. unfold enc_init at 1.
  rewrite (ofp_type_hdr hdr _ _ Hl Ht). cbn [rbind Z.eqb OFPTYPE_SFA_TABLE_CREATE Pos.eqb].
  by rewrite (sfa_msg_init_again s hdr d app Hi Hl Hd Hf).
Qed.

Lemma sfa_create_again_witness :
  sfa_handle_pkt i686 Firewall.state
    (enc_init (Firewall.hdr 90) (Mk_app_desc 7 0 [] [] 0 [])) = Ok (0, Firewall.state).
Proof.
  apply (sfa_create_again _ _ _ Firewall.app);
    [apply Firewall.state_ok|reflexivity|reflexivity| |apply Firewall.app_found].
  repeat (apply conj || constructor); simpl; lia.
Defined.

(** C4. As long as no two keys of the table and of the message collide under the
    hash, a status modification message in the documented format applies its
    records in order to the abstract status table of the application: additions
    keep an existing entry, updates and deletions need one.  The other tables
    and the other applications stay as they are.  (With a collision the code
    finds the entry of another key: see the findings.) *)
Theorem sfa_st_mod_refines s hdr aid (l : list st_mod) app m :
  sfa_inv s -> length hdr = sizeof_ofp_header -> hdr !! 1%nat = Some OFPTYPE_SFA_ST_ENTRY_MOD ->
  in_u32 aid -> wires_ok l -> find_app (installed s) aid = Some app ->
  st_abs (st_entrys (pst app)) m -> hash_inj_on (dom m ∪ mod_keys l) ->
  exists s' app', sfa_handle_pkt i686 s (enc_mod hdr aid l) = Ok (0, s') /\
    find_app (installed s') aid = Some app' /\
    st_abs (st_entrys (pst app')) (fold_left st_mod_spec l m) /\
    app_config app' = app_config app /\ pat app' = pat app /\
    forall aid', aid' <> aid -> find_app (installed s') aid' = find_app (installed s) aid'.
Proof.
  intros Hi Hl Ht Ha Hw Hf Hm Hinj.
  destruct (sfa_msg_st_mod_enc s hdr aid l app m Hi Hl Ha Hw Hf Hm Hinj) as (addr & h' & E & Hm').
  unfold sfa_handle_pkt. unfold enc_mod at 1. rewrite (ofp_type_hdr hdr _ _ Hl Ht).
  cbn [rbind Z.eqb OFPTYPE_SFA_TABLE_CREATE OFPTYPE_SFA_ST_ENTRY_MOD Pos.eqb]. rewrite E. cbn [rbind].
  eexists _, _. split; [reflexivity|]. rewrite !installed_mk.
  rewrite (find_update_app _ _ _ app Hf) by (by apply find_app_Some in Hf as [_ Hf]).
  split; [reflexivity|]. split; [done|]. split; [done|]. split; [done|].
  intros aid' Hne. by apply find_update_other.
Qed.

Lemma sfa_st_mod_refines_witness :
  exists s' app', sfa_handle_pkt i686 Firewall.state
      (enc_mod (Firewall.hdr 91) 7 [(Update, (Firewall.host, 3)); (Add, (Firewall.host, 9)) : st_mod])
      = Ok (0, s') /\
    find_app (installed s') 7 = Some app' /\
    st_abs (st_entrys (pst app')) (<[Firewall.host := 3]> Firewall.statuses).
Proof.
  set (l := [(Update, (Firewall.host, 3)); (Add, (Firewall.host, 9)) : st_mod]).
  destruct (sfa_st_mod_refines Firewall.state (Firewall.hdr 91) 7 l Firewall.app Firewall.statuses)
    as (s' & app' & E & Hf & Hm & _).
  - apply Firewall.state_ok.
  - reflexivity.
  - reflexivity.
  - unfold in_u32. lia.
  - split; [|simpl; lia]. repeat constructor; try apply Firewall.host_ok; simpl; lia.
  - apply Firewall.app_found.
  - apply Firewall.statuses_ok.
  - apply Firewall.one_key_inj. unfold Firewall.statuses, mod_keys. rewrite dom_singleton_L. set_solver.
  - exists s', app'. split; [exact E|]. split; [exact Hf|]. exact Hm.
Defined.

(** C5. An action modification message in the documented format installs the
    entries added before its first update or delete record; such a record ends
    the message with an error, since the record type is compared without the
    conversion from network byte order. *)
Theorem sfa_at_mod_effect s hdr aid (l : list at_mod) app :
  sfa_inv s -> length hdr = sizeof_ofp_header -> hdr !! 1%nat = Some OFPTYPE_SFA_AT_ENTRY_MOD ->
  in_u32 aid -> wires_ok l -> find_app (installed s) aid = Some app ->
  exists s' app', sfa_handle_pkt i686 s (enc_mod hdr aid l)
      = Ok (if all_adds l then 0 else -1, s') /\
    find_app (installed s') aid = Some app' /\
    at_contents (at_entrys (pat app')) ≡ₚ leading_adds l ++ at_contents (at_entrys (pat app)) /\
    app_config app' = app_config app /\ pst app' = pst app /\
    forall aid', aid' <> aid -> find_app (installed s') aid' = find_app (installed s) aid'.
Proof.
  intros Hi Hl Ht Ha Hw Hf.
  destruct (sfa_msg_at_mod_enc s hdr aid l app Hi Hl Ha Hw Hf) as (addr & h' & E & Hc).
  unfold sfa_handle_pkt. unfold enc_mod at 1. rewrite (ofp_type_hdr hdr _ _ Hl Ht).
  cbn [rbind Z.eqb OFPTYPE_SFA_TABLE_CREATE OFPTYPE_SFA_ST_ENTRY_MOD OFPTYPE_SFA_AT_ENTRY_MOD Pos.eqb].
  rewrite E. cbn [rbind].
  eexists _, _. split; [by destruct (all_adds l)|].
  rewrite !installed_mk.
  rewrite (find_update_app _ _ _ app Hf) by (by apply find_app_Some in Hf as [_ Hf]).
  split; [reflexivity|]. split; [done|]. split; [done|]. split; [done|].
  intros aid' Hne. by apply find_update_other.
Qed.

(** A request to update the action of status 1 is refused. *)
Lemma sfa_at_mod_effect_witness :
  exists s', sfa_handle_pkt i686 Firewall.state (enc_mod (Firewall.hdr 92) 7
    [(Update, (Firewall.host, 1, Mk_action SAT_DROP 0)) : at_mod]) = Ok (-1, s').
Proof.
  destruct (sfa_at_mod_effect Firewall.state (Firewall.hdr 92) 7
    [(Update, (Firewall.host, 1, Mk_action SAT_DROP 0)) : at_mod] Firewall.app) as (s' & app' & E & _).
  - apply Firewall.state_ok.
  - reflexivity.
  - reflexivity.
  - unfold in_u32. lia.
  - split; [|simpl; lia]. constructor; [|constructor]. split; [apply Firewall.host_ok|].
    split; [discriminate|]. unfold action_ok, in_u32. simpl. unfold SAT_DROP. lia.
  - apply Firewall.app_found.
  - exists s'. exact E.
Defined.

(** ** Safety and reachable states *)

(** C6. Whatever bytes a message consists of and whichever layout the target
    has, the handler answers 0 or -1 and keeps the tables well formed, or reads
    or writes outside an object: no message leads to a null or uninitialized
    pointer, a failed assertion or a corrupted table. *)
Theorem sfa_handle_pkt_safe target s msg : sfa_inv s -> bytes_ok msg ->
  match sfa_handle_pkt target s msg with
  | Ok (r, s') => (r = 0 \/ r = -1) /\ sfa_inv s'
  | Fault f => f = OutOfBounds
  end.
Proof.
  intros Hi Hm. pose proof (sfa_handle_pkt_within target s msg Hi Hm) as H.
  by destruct (sfa_handle_pkt target s msg) as [[r s']|f].
Qed.

(** A creation message cut off inside its header structure. *)
Lemma sfa_handle_pkt_safe_witness :
  match sfa_handle_pkt i686 sfa_initial (Firewall.hdr 90 ++ [0; 0; 0]) with
  | Ok (r, s') => (r = 0 \/ r = -1) /\ sfa_inv s'
  | Fault f => f = OutOfBounds
  end.
Proof.
  apply (sfa_handle_pkt_safe i686 sfa_initial (Firewall.hdr 90 ++ [0; 0; 0]));
    [apply sfa_initial_inv|by apply Firewall.bytes_dec].
Defined.

(** C7. In every state the switch reaches by messages and packets from the
    start, application identifiers are unique, every table is a well formed
    hash map, and every entry is filed under the hash of its match string. *)
Theorem sfa_reachable_inv s : rtc sfa_step sfa_initial s ->
  NoDup (appid <$> installed s) /\
  Forall (fun a => hmap_wf (st_entrys (pst a)) /\ hmap_wf (at_entrys (pat a)) /\
    Forall (fun nd => hash_string (st_data (node_val nd)) 0 = Ok (node_hash nd))
      (hmap_nodes (st_entrys (pst a))) /\
    Forall (fun nd => hash_string (at_data (node_val nd)) 0 = Ok (node_hash nd))
      (hmap_nodes (at_entrys (pat a)))) (installed s).
Proof.
  intros Hs. destruct (reachable_ind (fun _ => True) I (fun _ _ _ _ _ => I) s Hs) as [Hi _].
  unfold sfa_inv, installed in *. destruct (appslist (g_apps s)) as [apps|]; simpl; [|by split; constructor].
  destruct Hi as (_ & Ha & Hn). split; [done|]. eapply Forall_impl; [exact Ha|].
  intros a [_ _ [Hw1 H1] _ [Hw2 H2]]. split; [done|]. split; [done|].
  split; [eapply Forall_impl; [exact H1|]|eapply Forall_impl; [exact H2|]]; intros nd Hnd; apply Hnd.
Qed.

Lemma sfa_reachable_inv_witness :
  rtc sfa_step sfa_initial Firewall.state /\ NoDup (appid <$> installed Firewall.state).
Proof.
  assert (H : rtc sfa_step sfa_initial Firewall.state).
  { apply rtc_once. apply (step_message _ i686 (enc_init (Firewall.hdr 90) Firewall.desc) 0).
    - by apply Firewall.bytes_dec.
    - vm_compute. reflexivity. }
  split; [exact H|]. exact (proj1 (sfa_reachable_inv Firewall.state H)).
Defined.

(** C8. Applications are never removed or reordered, and after its creation the
    identifier, the two match bitmaps and the transition table of an
    application stay the same through all later messages and packets. *)
Theorem sfa_config_stable s s' : rtc sfa_step sfa_initial s -> rtc sfa_step s s' ->
  (app_config <$> installed s) `prefix_of` (app_config <$> installed s').
Proof.
  intros Hs H. destruct (reachable_ind (fun _ => True) I (fun _ _ _ _ _ => I) s Hs) as [Hi _].
  clear Hs. induction H as [s|s s1 s2 Hst _ IH]; [done|].
  etrans; [by eapply sfa_step_config|]. apply IH. by eapply sfa_step_inv.
Qed.

Lemma sfa_config_stable_witness :
  (app_config <$> installed sfa_initial) `prefix_of` (app_config <$> installed Firewall.state).
Proof.
  apply (sfa_config_stable sfa_initial Firewall.state); [apply rtc_refl|]. apply rtc_once.
  apply (step_message _ i686 (enc_init (Firewall.hdr 90) Firewall.desc) 0).
  - by apply Firewall.bytes_dec.
  - vm_compute. reflexivity.
Defined.

(** ** Match strings *)

(** For a bitmap of fields the function can print, [parse_match] returns
    null when the bitmap selects no field and otherwise a buffer holding the
    concatenation of the decimal or dotted strings of the selected fields, in
    increasing bit order; the 1024 bytes always suffice. *)
Theorem parse_match_concat ctx bitmap : flow_ok (xin_flow ctx) -> renders bitmap ->
  exists mtch, parse_match ctx bitmap = Ok mtch /\
    match mtch with
    | None => selected bitmap = []
    | Some b => selected bitmap <> [] /\ length b = 1024%nat /\
                c_str b = Ok (match_string (xin_flow ctx) bitmap)
    end.
Proof.
  intros Hf Hr. destruct (parse_match_spec ctx bitmap Hf Hr) as (mtch & -> & Hb).
  exists mtch. split; [done|]. destruct mtch as [b|]; cbn [built] in Hb.
  - destruct Hb as (Hne & Hl & Hc & _). split; [|done]. intros E. apply Hne.
    unfold match_string. by rewrite E.
  - destruct (selected bitmap) as [|i l] eqn:E; [done|]. exfalso.
    apply (match_string_nonempty (xin_flow ctx) bitmap); [done|done|by rewrite E|done].
Qed.

Lemma parse_match_concat_witness :
  exists b, parse_match (Firewall.packet Firewall.host_addr 0) (2 ^ 15) = Ok (Some b) /\
    c_str b = Ok Firewall.host.
Proof.
  destruct (parse_match_concat (Firewall.packet Firewall.host_addr 0) (2 ^ 15)) as ([b|] & E & H).
  - apply Firewall.packet_ok. unfold in_u16. lia.
  - apply Firewall.bits_ok.
  - exists b. split; [exact E|]. destruct H as (_ & _ & H). rewrite H. vm_compute. reflexivity.
  - exfalso. by destruct Firewall.bits_ok as [_ ?].
Defined.

(** The documented bit 26 (the transport destination port) and the bits
    above it select nothing: the loop over the fields stops at bit 25. *)
Theorem parse_match_ignores_tp_dst ctx bitmap :
  parse_match ctx bitmap = parse_match ctx (bitmap mod 2 ^ 26).
Proof. apply parse_match_loop_mask. simpl. lia. Qed.

(** A match on one IPv4 address identifies it: packets with the same match
    string have the same source address. *)
Theorem parse_match_source_inj ctx ctx' b b' s : flow_ok (xin_flow ctx) -> flow_ok (xin_flow ctx') ->
  parse_match ctx (2 ^ 15) = Ok (Some b) -> parse_match ctx' (2 ^ 15) = Ok (Some b') ->
  c_str b = Ok s -> c_str b' = Ok s -> nw_src (xin_flow ctx) = nw_src (xin_flow ctx').
Proof.
  intros Hf Hf' E E' Hs Hs'.
  destruct (parse_match_spec ctx (2 ^ 15) Hf (proj1 Firewall.bits_ok)) as (m & Em & Hb).
  destruct (parse_match_spec ctx' (2 ^ 15) Hf' (proj1 Firewall.bits_ok)) as (m' & Em' & Hb').
  rewrite E in Em. rewrite E' in Em'. injection Em as <-. injection Em' as <-.
  destruct Hb as (_ & _ & Hb & _). destruct Hb' as (_ & _ & Hb' & _).
  rewrite Hs in Hb. rewrite Hs' in Hb'. injection Hb as Hb. injection Hb' as Hb'.
  rewrite Hb in Hb'. unfold match_string in Hb'. change (selected (2 ^ 15)) with [15%nat] in Hb'.
  cbn in Hb'. rewrite !app_nil_r in Hb'. apply inet_ntoa_inj; [..|exact Hb'].
  - unfold flow_ok in Hf. tauto.
  - unfold flow_ok in Hf'. tauto.
Qed.

Lemma parse_match_source_inj_witness :
  exists b, parse_match (Firewall.packet Firewall.host_addr 1) (2 ^ 15) = Ok (Some b) /\
    nw_src (xin_flow (Firewall.packet Firewall.host_addr 1))
    = nw_src (xin_flow (Firewall.packet Firewall.host_addr 2)).
Proof.
  eexists. split; [vm_compute; reflexivity|].
  eapply (parse_match_source_inj (Firewall.packet Firewall.host_addr 1)
    (Firewall.packet Firewall.host_addr 2)).
  - apply Firewall.packet_ok. unfold in_u16. lia.
  - apply Firewall.packet_ok. unfold in_u16. lia.
  - vm_compute. reflexivity.
  - vm_compute. reflexivity.
  - vm_compute. reflexivity.
  - vm_compute. reflexivity.
Defined.

(** A match on several fields does not identify them: the strings are
    concatenated without separators, so that port 1 with fragment bits 12 and
    port 11 with fragment bits 2 have the same match string. *)
Theorem parse_match_ambiguous :
  let pkt port frag := Mk_ctx (Mk_flow 0 port 8 0 0 0 0 0 frag 0 64 6 0 0 0) 0 false in
  exists b, parse_match (pkt 1 12) (2 ^ 5 + 2 ^ 17) = Ok (Some b) /\
    parse_match (pkt 11 2) (2 ^ 5 + 2 ^ 17) = Ok (Some b).
Proof. eexists. split; vm_compute; reflexivity. Qed.

(** ** Transitions *)

(** The operators [get_event] has a case for. *)
Definition supported (e : STT_MATCH_ENTRY) : bool :=
  (oprator e =? OPRATOR_NON) || (oprator e =? OPRATOR_ADD) || (oprator e =? OPRATOR_BITAND) ||
  (oprator e =? OPRATOR_BITOR) || (oprator e =? OPRATOR_ISEQUAL) || (oprator e =? OPRATOR_GREATER) ||
  (oprator e =? OPRATOR_LESS) || (oprator e =? OPRATOR_EQUALGREATER) || (oprator e =? OPRATOR_EQUALLESS).

Lemma guard_supported ctx e : guard ctx e = true -> supported e = true.
Proof.
  unfold guard, get_event, supported.
  destruct (oprator e =? OPRATOR_NON), (oprator e =? OPRATOR_ADD), (oprator e =? OPRATOR_BITAND),
    (oprator e =? OPRATOR_BITOR), (oprator e =? OPRATOR_ISEQUAL), (oprator e =? OPRATOR_GREATER),
    (oprator e =? OPRATOR_LESS), (oprator e =? OPRATOR_EQUALGREATER), (oprator e =? OPRATOR_EQUALLESS);
    done.
Qed.

(** Transitions with the declared operators [OPRATOR_SUB] and
    [OPRATOR_BITWISE], or with a number that names no operator, never take
    part: the loop over the transition table ends with the same status, the
    same event flag and the same verdict when they are left out. *)
Theorem stt_loop_supported ctx cur es : forall next ev,
  stt_loop ctx cur es next ev = stt_loop ctx cur (List.filter supported es) next ev.
Proof.
  induction es as [|e es IH]; intros next ev; [done|]. cbn [stt_loop List.filter].
  change (get_event _ _ (oprator e)) with (guard ctx e).
  destruct (supported e) eqn:Es; cbn [stt_loop].
  - change (get_event _ _ (oprator e)) with (guard ctx e).
    destruct (guard ctx e); [|apply IH]. destruct (cur =? stt_last_status e); [done|apply IH].
  - destruct (guard ctx e) eqn:Eg; [|apply IH]. by rewrite (guard_supported _ _ Eg) in Es.
Qed.

(** ** Hash collisions *)

Module Collision.
(** The match strings of 10.1.48.42 and 10.1.142.29. *)
Definition host_a : list Z := [49; 48; 46; 49; 46; 52; 56; 46; 52; 50].
Definition host_b : list Z := [49; 48; 46; 49; 46; 49; 52; 50; 46; 50; 57].
Definition addr_b : Z := 10 + 2 ^ 8 * 1 + 2 ^ 16 * 142 + 2 ^ 24 * 29.

Definition desc : app_desc :=
  Mk_app_desc 7 (2 ^ 15) [(host_a, 1)] [Firewall.to_blocked] (2 ^ 15)
    [(host_a, 2, Mk_action SAT_DROP 0)].

Definition packet_b : xlate_ctx := Firewall.packet addr_b (22 * 2 ^ 8).

Definition statuses (s : sfa_state) : list st_desc :=
  match find_app (installed s) 7 with
  | Some app => st_contents (st_entrys (pst app))
  | None => []
  end.
End Collision.

(** The lookups compare hashes and not match strings, so two hosts can
    share an entry: with a table that knows only 10.1.48.42, a packet from
    10.1.142.29 moves the status of 10.1.48.42 and is dropped by its action. *)
Theorem hosts_collide :
  let s := Firewall.create Collision.desc in
  match_string (xin_flow Collision.packet_b) (2 ^ 15) = Collision.host_b /\
  Collision.statuses s = [(Collision.host_a, 1)] /\
  exists ctx' s', goto_fp Collision.packet_b s 7 = Ok (ctx', s') /\ ctx_exit ctx' = true /\
    Collision.statuses s' = [(Collision.host_a, 2)].
Proof.
  split; [vm_compute; reflexivity|]. split; [vm_compute; reflexivity|].
  eexists _, _. split; [vm_compute; reflexivity|]. split; vm_compute; reflexivity.
Qed.

(** ** Layout and bounds *)

Lemma ld_be64_cross x y z r : in_u64 x -> in_u32 y ->
  ld_be64 (be32_bytes z ++ be64_bytes x ++ be32_bytes y ++ r) 8 = Ok (x mod 2 ^ 32 * 2 ^ 32 + y).
Proof.
  intros Hx Hy. unfold be64_bytes. rewrite ld_be64_skip4, <- app_assoc, ld_be64_skip4.
  replace (be32_bytes (x mod 2 ^ 32) ++ be32_bytes y ++ r)
    with (be64_bytes (x mod 2 ^ 32 * 2 ^ 32 + y) ++ r).
  - apply ld_be64_here. unfold in_u64, in_u32 in *. zdm.
  - unfold be64_bytes. rewrite <- app_assoc. f_equal; [|f_equal]; f_equal; unfold in_u32 in *; zdm.
Qed.

(** On x86-64, where [struct sfa_msg_init_st] has padding that the message
    format does not, a documented creation message that is accepted installs
    an application under the wrong match bitmap: the low half of the intended
    one followed by the number of status entries. *)
Theorem sfa_create_x86_64 s hdr d r s' : sfa_inv s -> length hdr = sizeof_ofp_header ->
  hdr !! 1%nat = Some OFPTYPE_SFA_TABLE_CREATE -> app_desc_ok d ->
  find_app (installed s) (d_appid d) = None ->
  sfa_handle_pkt x86_64 s (enc_init hdr d) = Ok (r, s') ->
  exists app, installed s' = installed s ++ [app] /\ appid app = d_appid d /\
    match_bitmap (pst app) = d_mmp d mod 2 ^ 32 * 2 ^ 32 + Z.of_nat (length (d_st d)).
Proof.
  intros Hi Hl Ht (Hid & Hmmp & Hst & _) Hf H. pose proof (count_u32 _ Hst) as Hn.
  unfold sfa_handle_pkt in H. unfold enc_init at 1 in H. rewrite (ofp_type_hdr hdr _ _ Hl Ht) in H.
  cbn [rbind Z.eqb OFPTYPE_SFA_TABLE_CREATE Pos.eqb] in H.
  apply rbind_Ok in H as ([err s1] & H & Hr). assert (s1 = s') as -> by (destruct err; congruence).
  unfold sfa_msg_init, enc_init in H. rewrite sfa_inv_installed, drop_app_length' in H by done.
  rewrite ld_be32_here in H by done. cbn [rbind appslist next_addr] in H.
  rewrite find_app_fresh in H by done. apply rbind_Ok in H as (c & _ & H).
  change (st_mmp_off x86_64) with 8%nat in H. rewrite ld_be64_cross in H by done. cbn [rbind] in H.
  apply rbind_Ok in H as ([[? ?] ?] & _ & H). apply rbind_Ok in H as (? & _ & H).
  apply rbind_Ok in H as ([? ?] & _ & H). do 2 apply rbind_Ok in H as (? & _ & H).
  apply rbind_Ok in H as ([[? ?] ?] & _ & H). injection H as _ <-.
  eexists. split; [apply installed_mk|]. by split.
Qed.

Lemma sfa_create_x86_64_witness :
  exists s' app, sfa_handle_pkt x86_64 sfa_initial
      (enc_init (Firewall.hdr 90)
        (Mk_app_desc 7 (2 ^ 15) [] [] 0 [(Firewall.host, 1, Mk_action SAT_OUTPUT 0)])) = Ok (0, s') /\
    installed s' = [app] /\ match_bitmap (pst app) = 2 ^ 47.
Proof.
  set (d := Mk_app_desc 7 (2 ^ 15) [] [] 0 [(Firewall.host, 1, Mk_action SAT_OUTPUT 0)]).
  destruct (sfa_handle_pkt x86_64 sfa_initial (enc_init (Firewall.hdr 90) d)) as [[r s']|] eqn:E;
    [|by vm_compute in E].
  destruct (sfa_create_x86_64 sfa_initial (Firewall.hdr 90) d r s') as (app & Ha & _ & Hm).
  - apply sfa_initial_inv.
  - reflexivity.
  - reflexivity.
  - unfold app_desc_ok, wires_ok, in_u32, in_u64, d. simpl.
    repeat (apply conj || constructor); simpl; try apply Firewall.host_ok; try done;
      unfold in_u32; simpl; lia.
  - reflexivity.
  - exact E.
  - exists s', app. split; [|split; [exact Ha|exact Hm]]. f_equal. f_equal.
    vm_compute in E. by injection E as <- _.
Defined.

(** An action entry with an empty match string makes the creation of the
    action table write the byte before the buffer of the string. *)
Theorem init_at_loop_empty_key n addr h ty param status r :
  in_u32 ty -> in_u32 param -> in_u32 status ->
  init_at_loop (S n) (be32_bytes ty ++ be32_bytes param ++ be32_bytes status ++ enc_key [] ++ r) addr h
  = Fault OutOfBounds.
Proof.
  intros Ht Hp Hs. cbn [init_at_loop]. unfold enc_key, sizeof_SFA_ACTION.
  change (8 + 4)%nat with 12%nat. change (Z.of_nat (length [])) with 0.
  rewrite !ld_be32_skip4, !ld_be32_here by (done || unfold in_u32; lia). reflexivity.
Qed.

Lemma init_at_loop_empty_key_witness :
  init_at_loop 1 (be32_bytes SAT_DROP ++ be32_bytes 0 ++ be32_bytes 1 ++ enc_key [] ++ []) 0 hmap_init
  = Fault OutOfBounds.
Proof. apply (init_at_loop_empty_key 0); unfold in_u32, SAT_DROP; lia. Defined.
