(* ===== verification/Instructions.v ===== *)
(** * OpenFlow instructions ([lib/ofp-actions.c], [lib/ofp-actions.h])

    How the instructions of a flow, among them the [GOTO_FP] instruction that
    sends packets to the SFA stage, are read from and written to OpenFlow 1.1+
    messages.  The conversion of the actions inside an instruction is the
    interface [ActionCodec]; everything holds for any implementation of it, the
    round trip for those that satisfy [ActionCodecLaws]. *)

From Stdlib Require Import ZArith Lia List.
From stdpp Require Import base list option.
From S2P Require Import Prelude Bytes.
#[local] Open Scope Z_scope.
#[local] Open Scope res_scope.

(** ** Data *)

(** In the order of execution. *)
Inductive ovs_instruction_type :=
  | OVSINST_OFPIT13_METER
  | OVSINST_OFPIT11_APPLY_ACTIONS
  | OVSINST_OFPIT11_CLEAR_ACTIONS
  | OVSINST_OFPIT11_WRITE_ACTIONS
  | OVSINST_OFPIT11_WRITE_METADATA
  | OVSINST_OFPIT11_GOTO_FP
  | OVSINST_OFPIT11_GOTO_TABLE.
#[global] Instance ovs_instruction_type_eq_dec : EqDecision ovs_instruction_type.
Proof. solve_decision. Defined.

(** The value of the enumeration, an index of arrays. *)
Definition inst_index (t : ovs_instruction_type) : nat :=
  match t with
  | OVSINST_OFPIT13_METER => 0
  | OVSINST_OFPIT11_APPLY_ACTIONS => 1
  | OVSINST_OFPIT11_CLEAR_ACTIONS => 2
  | OVSINST_OFPIT11_WRITE_ACTIONS => 3
  | OVSINST_OFPIT11_WRITE_METADATA => 4
  | OVSINST_OFPIT11_GOTO_FP => 5
  | OVSINST_OFPIT11_GOTO_TABLE => 6
  end.
Definition N_OVS_INSTRUCTIONS : nat := 7.

(** The table [OVS_INSTRUCTIONS]: the number on the wire, the size of the
    structure, and whether more may follow it. *)
Definition inst_code (t : ovs_instruction_type) : Z :=
  match t with
  | OVSINST_OFPIT13_METER => 6
  | OVSINST_OFPIT11_APPLY_ACTIONS => 4
  | OVSINST_OFPIT11_CLEAR_ACTIONS => 5
  | OVSINST_OFPIT11_WRITE_ACTIONS => 3
  | OVSINST_OFPIT11_WRITE_METADATA => 2
  | OVSINST_OFPIT11_GOTO_FP => 7
  | OVSINST_OFPIT11_GOTO_TABLE => 1
  end.
Definition inst_size (t : ovs_instruction_type) : Z :=
  match t with OVSINST_OFPIT11_WRITE_METADATA => 24 | _ => 8 end.
Definition inst_extensible (t : ovs_instruction_type) : bool :=
  match t with OVSINST_OFPIT11_APPLY_ACTIONS | OVSINST_OFPIT11_WRITE_ACTIONS => true | _ => false end.

Definition OFPIT11_EXPERIMENTER : Z := 0xffff.
Definition OFP11_INSTRUCTION_ALIGN : Z := 8.
Definition OFP11_VERSION : Z := 0x02.
Definition OFP13_VERSION : Z := 0x04.

Inductive ofperr :=
  | OFPERR_OFPBIC_BAD_EXPERIMENTER
  | OFPERR_OFPBIC_BAD_LEN
  | OFPERR_OFPBIC_UNKNOWN_INST
  | OFPERR_ONFBIC_DUP_INSTRUCTION
  | OFPERR_OFPBAC_BAD_TYPE
  | OFPERR_OFPBAC_UNSUPPORTED_ORDER
  | OFPERR_OTHER (code : Z).   (* an error of the conversion of actions *)

(** The internal actions; [Act] stands for all that belong to the instruction
    "apply actions". *)
Inductive ofpact (action : Type) :=
  | OFPACT_METER (meter_id : Z)
  | OFPACT_CLEAR_ACTIONS
  | OFPACT_WRITE_ACTIONS (actions : list (ofpact action))
  | OFPACT_WRITE_METADATA (metadata mask : Z)
  | OFPACT_GOTO_FP (bitmap : Z)
  | OFPACT_GOTO_TABLE (table_id : Z)
  | Act (a : action).
Arguments OFPACT_METER {action} _.
Arguments OFPACT_CLEAR_ACTIONS {action}.
Arguments OFPACT_WRITE_ACTIONS {action} _.
Arguments OFPACT_WRITE_METADATA {action} _ _.
Arguments OFPACT_GOTO_FP {action} _.
Arguments OFPACT_GOTO_TABLE {action} _.
Arguments Act {action} _.

(** [ofpacts_from_openflow], [ofpact_to_openflow11] and [ofpact_to_openflow12],
    and [ofpact_is_allowed_in_actions_set]. *)
Class ActionCodec (action : Type) := {
  from_openflow : Z -> list Z -> ofperr + list (ofpact action);
  to_openflow : Z -> ofpact action -> list Z;
  allowed_in_set : ofpact action -> bool
}.

(** ** Computations that fault or report an error *)

Definition ebind {A B} (c : Res (ofperr + A)) (k : A -> Res (ofperr + B)) : Res (ofperr + B) :=
  let* r := c in match r with inl e => Ok (inl e) | inr a => k a end.
Notation "'let!' x ':=' c 'in' k" := (ebind c (fun x => k))
  (at level 10, x pattern, c at level 100, k at level 200) : res_scope.
Definition eret {A} (a : A) : Res (ofperr + A) := Ok (inr a).
Definition efail {A} (e : ofperr) : Res (ofperr + A) := Ok (inl e).

(** A load of [n] bytes in network order. *)
Definition ld_be (b : list Z) (k n : nat) : Res Z :=
  if (k + n <=? length b)%nat then Ok (be_field b k n) else Fault OutOfBounds.

(** The array of instructions by type; an entry is the bytes of its instruction. *)
Abbreviation insts_array := (list (option (list Z))).

Section Instructions.
Context {action : Type} `{Codec : ActionCodec action}.
Implicit Types (a : ofpact action) (l : list (ofpact action)).

Definition ovs_instruction_type_from_ofpact_type a : ovs_instruction_type :=
  match a with
  | OFPACT_GOTO_FP _ => OVSINST_OFPIT11_GOTO_FP
  | OFPACT_METER _ => OVSINST_OFPIT13_METER
  | OFPACT_CLEAR_ACTIONS => OVSINST_OFPIT11_CLEAR_ACTIONS
  | OFPACT_WRITE_ACTIONS _ => OVSINST_OFPIT11_WRITE_ACTIONS
  | OFPACT_WRITE_METADATA _ _ => OVSINST_OFPIT11_WRITE_METADATA
  | OFPACT_GOTO_TABLE _ => OVSINST_OFPIT11_GOTO_TABLE
  | Act _ => OVSINST_OFPIT11_APPLY_ACTIONS
  end.

(** ** Reading *)

Definition instruction_is_valid (len : Z) (left : nat) : bool :=
  (len mod OFP11_INSTRUCTION_ALIGN =? 0) && (8 <=? len) && (len / 8 <=? Z.of_nat left).

(** The cases of the switch, in the order of [OVS_INSTRUCTIONS]. *)
Definition ovs_instructions : list ovs_instruction_type :=
  [OVSINST_OFPIT13_METER; OVSINST_OFPIT11_APPLY_ACTIONS; OVSINST_OFPIT11_CLEAR_ACTIONS;
   OVSINST_OFPIT11_WRITE_ACTIONS; OVSINST_OFPIT11_WRITE_METADATA; OVSINST_OFPIT11_GOTO_FP;
   OVSINST_OFPIT11_GOTO_TABLE].

Definition decode_openflow11_instruction (type len : Z) : ofperr + ovs_instruction_type :=
  if type =? OFPIT11_EXPERIMENTER then inl OFPERR_OFPBIC_BAD_EXPERIMENTER
  else match List.find (fun t => inst_code t =? type) ovs_instructions with
       | None => inl OFPERR_OFPBIC_UNKNOWN_INST
       | Some t =>
           if (if inst_extensible t then inst_size t <=? len else len =? inst_size t)
           then inr t else inl OFPERR_OFPBIC_BAD_LEN
       end.

Definition inst_get (out : insts_array) (t : ovs_instruction_type) : option (list Z) :=
  default None (out !! inst_index t).

(** [INSTRUCTION_FOR_EACH] from the instruction at [p]; every round uses up at
    least one unit of [left], so a fuel of [left] is enough. *)
Fixpoint decode_loop (fuel : nat) (p : list Z) (left : nat) (out : insts_array) : Res (ofperr + insts_array) :=
  match left with
  | O => eret out
  | _ =>
      match fuel with
      | O => efail OFPERR_OFPBIC_BAD_LEN
      | S fuel =>
          let* len := ld_be p 2 2 in
          if instruction_is_valid len left then
            let* type := ld_be p 0 2 in
            match decode_openflow11_instruction type len with
            | inl e => efail e
            | inr t =>
                match inst_get out t with
                | Some _ => efail OFPERR_ONFBIC_DUP_INSTRUCTION
                | None =>
                    decode_loop fuel (drop (Z.to_nat len) p) (left - Z.to_nat (len / 8))
                      (<[inst_index t := Some (take (Z.to_nat len) p)]> out)
                end
            end
          else efail OFPERR_OFPBIC_BAD_LEN
      end
  end.

Definition decode_openflow11_instructions (insts : list Z) (n_insts : nat) : Res (ofperr + insts_array) :=
  decode_loop n_insts insts n_insts (replicate N_OVS_INSTRUCTIONS None).

(** [instruction_get_*]: the type must be the right one. *)
Definition instruction_get (t : ovs_instruction_type) (inst : list Z) : Res (list Z) :=
  let* type := ld_be inst 0 2 in
  ovs_assert (type =? inst_code t) ;;* Ok inst.

Definition get_actions_from_instruction (inst : list Z) : Res (list Z) :=
  let* len := ld_be inst 2 2 in
  Ok (take (Z.to_nat ((len - 8) / OFP11_INSTRUCTION_ALIGN * OFP11_INSTRUCTION_ALIGN)) (drop 8 inst)).

Definition ofpacts_from_openflow11_for_action_set (version : Z) (actions : list Z) :
    Res (ofperr + list (ofpact action)) :=
  match from_openflow version actions with
  | inl e => efail e
  | inr l => if forallb allowed_in_set l then eret l else efail OFPERR_OFPBAC_BAD_TYPE
  end.

(** The actions of one instruction, if it is present. *)
Definition pull_instruction (version : Z) (t : ovs_instruction_type) (inst : list Z) :
    Res (ofperr + list (ofpact action)) :=
  match t with
  | OVSINST_OFPIT11_GOTO_FP =>
      let* inst := instruction_get t inst in
      let* bitmap := ld_be inst 4 1 in eret [OFPACT_GOTO_FP bitmap]
  | OVSINST_OFPIT13_METER =>
      let* meter_id := ld_be inst 4 4 in eret [OFPACT_METER meter_id]
  | OVSINST_OFPIT11_APPLY_ACTIONS =>
      let* actions := get_actions_from_instruction inst in
      match from_openflow version actions with inl e => efail e | inr l => eret l end
  | OVSINST_OFPIT11_CLEAR_ACTIONS =>
      let* _ := instruction_get t inst in eret [OFPACT_CLEAR_ACTIONS]
  | OVSINST_OFPIT11_WRITE_ACTIONS =>
      let* actions := get_actions_from_instruction inst in
      let! l := ofpacts_from_openflow11_for_action_set version actions in
      eret [OFPACT_WRITE_ACTIONS l]
  | OVSINST_OFPIT11_WRITE_METADATA =>
      let* metadata := ld_be inst 8 8 in
      let* mask := ld_be inst 16 8 in eret [OFPACT_WRITE_METADATA metadata mask]
  | OVSINST_OFPIT11_GOTO_TABLE =>
      let* inst := instruction_get t inst in
      let* table_id := ld_be inst 4 1 in eret [OFPACT_GOTO_TABLE table_id]
  end.

(** The order in which the code looks at the instructions. *)
Definition pull_order : list ovs_instruction_type :=
  [OVSINST_OFPIT11_GOTO_FP; OVSINST_OFPIT13_METER; OVSINST_OFPIT11_APPLY_ACTIONS;
   OVSINST_OFPIT11_CLEAR_ACTIONS; OVSINST_OFPIT11_WRITE_ACTIONS; OVSINST_OFPIT11_WRITE_METADATA;
   OVSINST_OFPIT11_GOTO_TABLE].

Fixpoint pull_all (version : Z) (insts : insts_array) (ts : list ovs_instruction_type) :
    Res (ofperr + list (ofpact action)) :=
  match ts with
  | [] => eret []
  | t :: ts =>
      let! l := match inst_get insts t with
                | Some inst => pull_instruction version t inst
                | None => eret []
                end in
      let! l' := pull_all version insts ts in
      eret (l ++ l')
  end.

Fixpoint verify_after (inst : ovs_instruction_type) l : bool :=
  match l with
  | [] => true
  | a :: l =>
      let next := ovs_instruction_type_from_ofpact_type a in
      if (if bool_decide (inst = OVSINST_OFPIT11_APPLY_ACTIONS)
          then (inst_index next <? inst_index inst)%nat else (inst_index next <=? inst_index inst)%nat)
      then false
      else verify_after next l
  end.

(** The first action is not compared with anything. *)
Definition ofpacts_verify l : bool :=
  match l with [] => true | a :: l => verify_after (ovs_instruction_type_from_ofpact_type a) l end.

(** The result and what is left of the message. *)
Definition ofpacts_pull_openflow_instructions (openflow : list Z) (instructions_len version : Z) :
    Res ((ofperr + list (ofpact action)) * list Z) :=
  if negb (instructions_len mod OFP11_INSTRUCTION_ALIGN =? 0) then Ok (inl OFPERR_OFPBIC_BAD_LEN, openflow)
  else if Z.of_nat (length openflow) <? instructions_len then Ok (inl OFPERR_OFPBIC_BAD_LEN, openflow)
  else
    let instructions := take (Z.to_nat instructions_len) openflow in
    let rest := drop (Z.to_nat instructions_len) openflow in
    let* r := (let! insts := decode_openflow11_instructions instructions
                               (Z.to_nat (instructions_len / OFP11_INSTRUCTION_ALIGN)) in
               pull_all version insts pull_order) in
    match r with
    | inl e => Ok (inl e, rest)
    | inr l => Ok ((if ofpacts_verify l then inr l else inl OFPERR_OFPBAC_UNSUPPORTED_ORDER), rest)
    end.

(** ** Writing *)

(** The header that [instruction_put_*] writes. *)
Definition inst_header (t : ovs_instruction_type) (len : Z) : list Z :=
  be16_bytes (inst_code t) ++ be16_bytes len.

Definition is_apply a : bool :=
  bool_decide (ovs_instruction_type_from_ofpact_type a = OVSINST_OFPIT11_APPLY_ACTIONS).

(** [ofpacts_update_instruction_actions]: the length is filled in, or the
    instruction deleted when it has no actions. *)
Definition ofpacts_update_instruction_actions (t : ovs_instruction_type) (body : list Z) : list Z :=
  match body with
  | [] => []
  | _ => inst_header t (u16 (8 + Z.of_nat (length body))) ++ [0; 0; 0; 0] ++ body
  end.

Definition put_actions (version : Z) l : list Z := concat (map (to_openflow version) l).

(** The actions up to the first that belongs to another instruction. *)
Fixpoint apply_run l : list (ofpact action) :=
  match l with
  | [] => []
  | a :: l => if is_apply a then a :: apply_run l else []
  end.

Fixpoint put_loop (fuel : nat) (version : Z) l : list Z :=
  match fuel, l with
  | O, _ | _, [] => []
  | S fuel, a :: l' =>
      match a with
      | OFPACT_GOTO_FP bitmap =>
          inst_header OVSINST_OFPIT11_GOTO_FP 8 ++ [bitmap; 0; 0; 0] ++ put_loop fuel version l'
      | OFPACT_CLEAR_ACTIONS =>
          inst_header OVSINST_OFPIT11_CLEAR_ACTIONS 8 ++ [0; 0; 0; 0] ++ put_loop fuel version l'
      | OFPACT_GOTO_TABLE table_id =>
          inst_header OVSINST_OFPIT11_GOTO_TABLE 8 ++ [table_id; 0; 0; 0] ++ put_loop fuel version l'
      | OFPACT_WRITE_METADATA metadata mask =>
          inst_header OVSINST_OFPIT11_WRITE_METADATA 24 ++ [0; 0; 0; 0] ++
          be64_bytes metadata ++ be64_bytes mask ++ put_loop fuel version l'
      | OFPACT_METER meter_id =>
          (if OFP13_VERSION <=? version
           then inst_header OVSINST_OFPIT13_METER 8 ++ be32_bytes meter_id else []) ++
          put_loop fuel version l'
      | Act _ =>
          let run := apply_run l in
          ofpacts_update_instruction_actions OVSINST_OFPIT11_APPLY_ACTIONS (put_actions version run) ++
          put_loop fuel version (drop (length run) l)
      | OFPACT_WRITE_ACTIONS on =>
          ofpacts_update_instruction_actions OVSINST_OFPIT11_WRITE_ACTIONS (put_actions version on) ++
          put_loop fuel version l'
      end
  end.

Definition ofpacts_put_openflow_instructions (version : Z) l : Res (list Z) :=
  ovs_assert (OFP11_VERSION <=? version) ;;* Ok (put_loop (length l) version l).

End Instructions.
