(* ===== verification/InstructionsProps.v ===== *)
(** * Properties of the OpenFlow instruction codec

    Reading arbitrary bytes is safe; what [GOTO_FP] can be combined with; and
    what is written is read back. *)

From Stdlib Require Import ZArith Lia List.
From stdpp Require Import base option list_relations list.
From S2P Require Import Prelude Bytes Instructions.
#[local] Open Scope Z_scope.
#[local] Open Scope res_scope.

(** ** Loads and the loop over instructions *)

Lemma ld_be_ok b k n : (k + n <= length b)%nat -> ld_be b k n = Ok (be_field b k n).
Proof. intros H. unfold ld_be. by rewrite (proj2 (Nat.leb_le _ _) H). Qed.

Lemma be_field_take p m k n : (k + n <= m)%nat -> be_field (take m p) k n = be_field p k n.
Proof.
  intros H. unfold be_field. rewrite skipn_firstn_comm, take_take. f_equal. f_equal. lia.
Qed.

Lemma ebind_inr {A B} (c : Res (ofperr + A)) (k : A -> Res (ofperr + B)) b :
  ebind c k = Ok (inr b) <-> exists a, c = Ok (inr a) /\ k a = Ok (inr b).
Proof.
  unfold ebind. destruct c as [[e|a]|f]; simpl; split.
  - done.
  - by intros (? & ? & _).
  - eauto.
  - by intros (a' & [= <-] & ?).
  - done.
  - by intros (? & ? & _).
Qed.

(** An instruction of type [t] that passed the checks. *)
Record entry_ok (t : ovs_instruction_type) (b : list Z) : Prop := {
  eo_type : be_field b 0 2 = inst_code t;
  eo_len : be_field b 2 2 = Z.of_nat (length b);
  eo_align : Z.of_nat (length b) mod 8 = 0;
  eo_size : if inst_extensible t then inst_size t <= Z.of_nat (length b)
            else Z.of_nat (length b) = inst_size t
}.

Definition out_ok (out : insts_array) : Prop :=
  length out = N_OVS_INSTRUCTIONS /\ forall t b, inst_get out t = Some b -> entry_ok t b.

Lemma inst_index_lt t : (inst_index t < N_OVS_INSTRUCTIONS)%nat.
Proof. destruct t; unfold N_OVS_INSTRUCTIONS; simpl; lia. Qed.
Lemma inst_index_inj t t' : inst_index t = inst_index t' -> t = t'.
Proof. by destruct t, t'. Qed.
Lemma inst_code_inj t t' : inst_code t = inst_code t' -> t = t'.
Proof. by destruct t, t'. Qed.

Lemma inst_get_insert out t t' b : length out = N_OVS_INSTRUCTIONS ->
  inst_get (<[inst_index t := Some b]> out) t' = if decide (t = t') then Some b else inst_get out t'.
Proof.
  intros Hl. pose proof (inst_index_lt t). unfold inst_get. case_decide as E.
  - subst. rewrite list_lookup_insert_eq by lia. done.
  - rewrite list_lookup_insert_ne; [done|]. intros Hi. by apply E, inst_index_inj.
Qed.

Lemma out_ok_insert out t b : out_ok out -> entry_ok t b -> out_ok (<[inst_index t := Some b]> out).
Proof.
  intros [Hl Ho] He. split; [by rewrite length_insert|]. intros t' b'.
  rewrite inst_get_insert by done. case_decide as E; [|apply Ho]. intros [= <-]. by subst.
Qed.

Lemma out_ok_empty : out_ok (replicate N_OVS_INSTRUCTIONS None).
Proof. split; [done|]. intros [] b; done. Qed.

Lemma decode_instruction_inr type len t : decode_openflow11_instruction type len = inr t ->
  type = inst_code t /\ (if inst_extensible t then inst_size t <= len else len = inst_size t).
Proof.
  unfold decode_openflow11_instruction. destruct (type =? _); [done|].
  destruct (List.find _ _) as [t'|] eqn:Ef; [|done].
  apply List.find_some in Ef as [_ Ef]. apply Z.eqb_eq in Ef.
  destruct (inst_extensible t') eqn:Ee; [destruct (Z.leb_spec (inst_size t') len)|destruct (Z.eqb_spec len (inst_size t'))];
    intros [= <-]; by rewrite Ee.
Qed.

Lemma instruction_is_valid_spec len left : instruction_is_valid len left = true ->
  len mod 8 = 0 /\ 8 <= len /\ len <= 8 * Z.of_nat left /\ len = 8 * (len / 8).
Proof.
  unfold instruction_is_valid, OFP11_INSTRUCTION_ALIGN.
  rewrite !andb_true_iff, Z.eqb_eq, !Z.leb_le. intros [[H1 H2] H3].
  assert (len = 8 * (len / 8)) by zdm. lia.
Qed.

(** The loop never reads outside the instructions, whatever they are. *)
Lemma decode_loop_ok fuel p left out :
  (8 * left <= length p)%nat -> (left <= fuel)%nat -> out_ok out ->
  exists r, decode_loop fuel p left out = Ok r /\ match r with inl _ => True | inr out' => out_ok out' end.
Proof.
  revert p left out. induction fuel as [|fuel IH]; intros p left out Hp Hf Ho.
  { replace left with 0%nat by lia. eexists. split; [done|done]. }
  destruct left as [|left]; [by eexists|]. cbn [decode_loop].
  rewrite !ld_be_ok by lia. cbn [rbind].
  destruct (instruction_is_valid _ _) eqn:Ev; [|by eexists].
  apply instruction_is_valid_spec in Ev as (Hm & H8 & Hle & Hdiv).
  destruct (decode_openflow11_instruction _ _) as [e|t] eqn:Ed; [by eexists|].
  apply decode_instruction_inr in Ed as [Et Es].
  destruct (inst_get out t) eqn:Eg; [by eexists|]. set (len := be_field p 2 2) in *.
  assert (length (take (Z.to_nat len) p) = Z.to_nat len) as Hlen by (rewrite length_take; lia).
  apply IH.
  - rewrite length_drop. lia.
  - lia.
  - apply out_ok_insert; [done|]. split; rewrite ?Hlen, ?Z2Nat.id by lia; try done.
    + rewrite be_field_take by lia. done.
    + rewrite be_field_take by lia. done.
Qed.

Section Pull.
Context {action : Type} `{Codec : ActionCodec action}.
Implicit Types (a : ofpact action) (l : list (ofpact action)).

(** Every instruction that passed the checks can be read. *)
Lemma pull_instruction_ok version t b : entry_ok t b -> exists r, pull_instruction version t b = Ok r.
Proof.
  intros [Et El _ Es].
  assert (instruction_get t b = Ok b) as Hg.
  { unfold instruction_get. rewrite ld_be_ok by (destruct t; simpl in Es; lia).
    simpl. by rewrite Et, Z.eqb_refl. }
  unfold pull_instruction, get_actions_from_instruction, ofpacts_from_openflow11_for_action_set.
  destruct t; simpl in Es; rewrite ?Hg; simpl; rewrite ?ld_be_ok by lia; simpl;
    try (by eexists); destruct (from_openflow _ _) as [e|l]; try (by eexists).
  destruct (forallb _ l); by eexists.
Qed.

Lemma pull_all_ok version insts ts : out_ok insts -> exists r, pull_all version insts ts = Ok r.
Proof.
  intros [_ Ho]. induction ts as [|t ts [r IH]]; simpl; [by eexists|]. unfold ebind at 1.
  destruct (inst_get insts t) as [b|] eqn:Eg; simpl.
  - destruct (pull_instruction_ok version t b (Ho t b Eg)) as [[e|l] ->]; simpl; [by eexists|].
    rewrite IH. simpl. destruct r; by eexists.
  - rewrite IH. simpl. destruct r; by eexists.
Qed.

(** A successful pull contains the actions of every instruction present. *)
Lemma pull_all_in version insts ts l t b : pull_all version insts ts = eret l -> In t ts ->
  inst_get insts t = Some b -> exists lt, pull_instruction version t b = eret lt /\ forall a, In a lt -> In a l.
Proof.
  revert l. induction ts as [|t' ts IH]; simpl; [done|]. intros l H Ht Hb.
  apply ebind_inr in H as (l1 & H1 & H). apply ebind_inr in H as (l2 & H2 & [= <-]).
  destruct Ht as [->|Ht].
  - rewrite Hb in H1. exists l1. split; [done|]. intros. apply in_or_app. by left.
  - destruct (IH l2 H2 Ht Hb) as (lt & Hlt & Hin). exists lt. split; [done|]. intros. apply in_or_app. auto.
Qed.

(** An instruction that always contributes something absent from the result was
    not present. *)
Lemma pull_absent version insts ts l t (P : ofpact action -> Prop) :
  pull_all version insts ts = eret l -> In t ts ->
  (forall inst lt, pull_instruction version t inst = eret lt -> exists a, In a lt /\ P a) ->
  (forall a, In a l -> ~ P a) -> inst_get insts t = None.
Proof.
  intros Hl Ht Hhas Hno. destruct (inst_get insts t) as [i|] eqn:Ei; [|done]. exfalso.
  destruct (pull_all_in _ _ _ _ _ _ Hl Ht Ei) as (lt & Hlt & Hin).
  destruct (Hhas i lt Hlt) as (a & Ha & HP). by eapply Hno; [apply Hin|].
Qed.

Definition is_goto a : Prop :=
  match a with OFPACT_GOTO_FP _ | OFPACT_GOTO_TABLE _ => True | _ => False end.

(** The instructions other than "apply actions" and the two jumps. *)
Lemma pull_not_goto version t inst lt :
  t <> OVSINST_OFPIT11_APPLY_ACTIONS -> t <> OVSINST_OFPIT11_GOTO_FP -> t <> OVSINST_OFPIT11_GOTO_TABLE ->
  pull_instruction version t inst = eret lt -> exists a, In a lt /\ ~ is_goto a.
Proof.
  intros H1 H2 H3 E. destruct t; try done; cbn [pull_instruction] in E;
    apply rbind_Ok in E as (x & _ & E);
    try first [apply ebind_inr in E as (y & _ & E)|apply rbind_Ok in E as (y & _ & E)];
    injection E as <-; (eexists; split; [by left|by intros []]).
Qed.

(** Only [GOTO_TABLE] may come behind [GOTO_FP]. *)
Lemma verify_after_goto_fp l : verify_after OVSINST_OFPIT11_GOTO_FP l = true ->
  l = [] \/ exists t, l = [OFPACT_GOTO_TABLE t].
Proof.
  destruct l as [|a l]; [by left|]. simpl. right.
  destruct a; simpl in *; try done. exists table_id.
  destruct l as [|a l]; [done|]. by destruct a.
Qed.

Lemma pull_goto_fp_first version insts b l : inst_get insts OVSINST_OFPIT11_GOTO_FP = Some b ->
  pull_all version insts pull_order = eret l ->
  exists bitmap l', l = OFPACT_GOTO_FP bitmap :: l'.
Proof.
  intros Hb H. unfold pull_order in H. cbn [pull_all] in H. rewrite Hb in H.
  apply ebind_inr in H as (l1 & H1 & H). apply ebind_inr in H as (l2 & _ & [= <-]).
  cbn [pull_instruction] in H1. inv_res. injection H1 as <-. by do 2 eexists.
Qed.

End Pull.

(** ** What is written is read back *)

(** What the instruction codec relies on: the actions an implementation supports
    survive the round trip and take up multiples of 8 bytes. *)
Class ActionCodecLaws (action : Type) `{Codec : ActionCodec action} := {
  supported : Z -> action -> bool;
  codec_roundtrip version (l : list action) : forallb (supported version) l = true ->
    from_openflow version (put_actions version (map Act l)) = inr (map Act l);
  codec_align version a : supported version a = true ->
    exists k, length (to_openflow version (Act a)) = (8 * S k)%nat
}.

(** The instructions of a flow. *)
Record flow_insts (action : Type) := Mk_insts {
  fi_meter : option Z;
  fi_apply : list action;
  fi_clear : bool;
  fi_write : list action;
  fi_metadata : option (Z * Z);
  fi_fp : option Z;
  fi_table : option Z
}.
Arguments Mk_insts {action} _ _ _ _ _ _ _.
Arguments fi_meter {action} _. Arguments fi_apply {action} _. Arguments fi_clear {action} _.
Arguments fi_write {action} _. Arguments fi_metadata {action} _. Arguments fi_fp {action} _.
Arguments fi_table {action} _.

Definition when {A B} (x : option A) (f : A -> B) : list B := match x with Some y => [f y] | None => [] end.

Section RoundTrip.
Context {action : Type} `{Laws : ActionCodecLaws action}.
Implicit Types (f : flow_insts action).

(** The internal actions of a flow, in the order of [OVS_INSTRUCTIONS]. *)
Definition ofpacts_of f : list (ofpact action) :=
  when (fi_meter f) OFPACT_METER ++ map Act (fi_apply f) ++
  (if fi_clear f then [OFPACT_CLEAR_ACTIONS] else []) ++
  match fi_write f with [] => [] | l => [OFPACT_WRITE_ACTIONS (map Act l)] end ++
  when (fi_metadata f) (fun m => OFPACT_WRITE_METADATA (fst m) (snd m)) ++
  when (fi_fp f) OFPACT_GOTO_FP ++ when (fi_table f) OFPACT_GOTO_TABLE.

Definition actions_fit (version : Z) (l : list action) : Prop :=
  forallb (supported version) l = true /\ Z.of_nat (length (put_actions version (map Act l))) + 8 < 2 ^ 16.

Record insts_wf (version : Z) f : Prop := {
  iw_version : OFP11_VERSION <= version;
  iw_meter : forall m, fi_meter f = Some m -> in_u32 m /\ OFP13_VERSION <= version;
  iw_apply : actions_fit version (fi_apply f);
  iw_write : actions_fit version (fi_write f) /\ forallb allowed_in_set (map Act (fi_write f)) = true;
  iw_metadata : forall m, fi_metadata f = Some m -> in_u64 (fst m) /\ in_u64 (snd m);
  iw_fp : forall b, fi_fp f = Some b -> in_u8 b /\ fi_meter f = None /\ fi_apply f = [] /\
    fi_clear f = false /\ fi_write f = [] /\ fi_metadata f = None;
  iw_table : forall t, fi_table f = Some t -> in_u8 t
}.

(** The bytes of each instruction. *)
Definition actions_piece (version : Z) (t : ovs_instruction_type) (l : list action) :
    list (ovs_instruction_type * list Z) :=
  match l with
  | [] => []
  | _ => [(t, ofpacts_update_instruction_actions t (put_actions version (map Act l)))]
  end.
Definition meter_bytes (m : Z) : list Z := inst_header OVSINST_OFPIT13_METER 8 ++ be32_bytes m.
Definition clear_bytes : list Z := inst_header OVSINST_OFPIT11_CLEAR_ACTIONS 8 ++ [0; 0; 0; 0].
Definition metadata_bytes (m : Z * Z) : list Z :=
  inst_header OVSINST_OFPIT11_WRITE_METADATA 24 ++ [0; 0; 0; 0] ++ be64_bytes (fst m) ++ be64_bytes (snd m).
Definition byte_inst (t : ovs_instruction_type) (x : Z) : list Z := inst_header t 8 ++ [x; 0; 0; 0].

Definition pieces (version : Z) f : list (ovs_instruction_type * list Z) :=
  when (fi_meter f) (fun m => (OVSINST_OFPIT13_METER, meter_bytes m)) ++
  actions_piece version OVSINST_OFPIT11_APPLY_ACTIONS (fi_apply f) ++
  (if fi_clear f then [(OVSINST_OFPIT11_CLEAR_ACTIONS, clear_bytes)] else []) ++
  actions_piece version OVSINST_OFPIT11_WRITE_ACTIONS (fi_write f) ++
  when (fi_metadata f) (fun m => (OVSINST_OFPIT11_WRITE_METADATA, metadata_bytes m)) ++
  when (fi_fp f) (fun b => (OVSINST_OFPIT11_GOTO_FP, byte_inst OVSINST_OFPIT11_GOTO_FP b)) ++
  when (fi_table f) (fun t => (OVSINST_OFPIT11_GOTO_TABLE, byte_inst OVSINST_OFPIT11_GOTO_TABLE t)).

(** *** Writing *)

Lemma apply_run_act (a : action) l : apply_run (Act a :: l) = Act a :: apply_run l.
Proof. reflexivity. Qed.

Lemma put_loop_fuel version n m (l : list (ofpact action)) : (length l <= n)%nat -> (length l <= m)%nat ->
  put_loop n version l = put_loop m version l.
Proof.
  revert m l. induction n as [|n IH]; intros m l Hn Hm.
  - destruct l; [by destruct m|simpl in Hn; lia].
  - destruct l as [|a l]; [by destruct m|]. destruct m as [|m]; [simpl in Hm; lia|]. simpl in Hn, Hm.
    cbn [put_loop].
    destruct a; try (by rewrite (IH m l) by lia).
    rewrite apply_run_act. cbn [length drop]. by rewrite (IH m) by (rewrite length_drop; lia).
Qed.

Lemma apply_run_acts (l : list action) (r : list (ofpact action)) :
  apply_run (map Act l ++ r) = map Act l ++ apply_run r.
Proof.
  induction l as [|a l IH]; [done|]. cbn [map app]. by rewrite apply_run_act, IH.
Qed.

Lemma put_actions_nonempty version (l : list action) : forallb (supported version) l = true -> l <> [] ->
  put_actions version (map Act l) <> [].
Proof.
  destruct l as [|a l]; [done|]. simpl. intros [Ha _]%andb_true_iff _.
  destruct (codec_align version a Ha) as [k Hk]. unfold put_actions. simpl.
  destruct (to_openflow version (Act a)); [simpl in Hk; lia|done].
Qed.

(** What comes behind the applied actions does not start with one. *)
Definition no_act_head (r : list (ofpact action)) : Prop := apply_run r = [].

Lemma put_loop_acts version n (l : list action) r : (length l + length r <= n)%nat -> no_act_head r ->
  put_loop n version (map Act l ++ r) =
    concat (map snd (actions_piece version OVSINST_OFPIT11_APPLY_ACTIONS l)) ++ put_loop (length r) version r.
Proof.
  intros Hn Hr. destruct l as [|a l]; [simpl in *; by apply put_loop_fuel|].
  destruct n as [|n]; [simpl in Hn; lia|].
  pose proof (apply_run_acts (a :: l) r) as E. rewrite Hr, app_nil_r in E.
  change (map Act (a :: l) ++ r) with (Act a :: (map Act l ++ r)) in *. cbn [put_loop]. rewrite E.
  simpl concat. rewrite app_nil_r. f_equal. rewrite length_map. simpl length. cbn [drop].
  rewrite drop_app_le, drop_ge by (rewrite length_map; lia). simpl in Hn.
  apply put_loop_fuel; simpl; lia.
Qed.

Lemma put_pieces version f : insts_wf version f ->
  put_loop (length (ofpacts_of f)) version (ofpacts_of f) = concat (map snd (pieces version f)).
Proof.
  intros H. destruct f as [me ap cl wr md fp tb]. unfold ofpacts_of, pieces. cbn [fi_meter fi_apply fi_clear fi_write fi_metadata fi_fp fi_table].
  set (r := (if cl then _ else _) ++ _).
  assert (no_act_head r) as Hr.
  { unfold no_act_head, r. by destruct cl, wr, md as [[]|], fp, tb. }
  assert (put_loop (length r) version r = concat (map snd ((if cl then [(OVSINST_OFPIT11_CLEAR_ACTIONS, clear_bytes)] else []) ++
    actions_piece version OVSINST_OFPIT11_WRITE_ACTIONS wr ++
    when md (fun m => (OVSINST_OFPIT11_WRITE_METADATA, metadata_bytes m)) ++
    when fp (fun b => (OVSINST_OFPIT11_GOTO_FP, byte_inst OVSINST_OFPIT11_GOTO_FP b)) ++
    when tb (fun t => (OVSINST_OFPIT11_GOTO_TABLE, byte_inst OVSINST_OFPIT11_GOTO_TABLE t))))) as Er.
  { unfold r. clear. destruct cl, wr, md as [[]|], fp, tb; simpl; rewrite ?app_nil_r, <- ?app_assoc; reflexivity. }
  destruct me as [m|]; cbn [when app].
  - destruct (iw_meter _ _ H m eq_refl) as [_ Hv].
    cbn [length put_loop]. rewrite (proj2 (Z.leb_le _ _) Hv).
    rewrite put_loop_acts by (done || rewrite length_app, length_map; lia).
    rewrite Er. cbn [map concat snd]. by rewrite (map_app snd (actions_piece _ _ ap)), concat_app.
  - rewrite put_loop_acts by (done || rewrite length_app, length_map; lia).
    rewrite Er. by rewrite (map_app snd (actions_piece _ _ ap)), concat_app.
Qed.

(** *** Reading *)

Lemma be_field_app_l (b r : list Z) k n : (k + n <= length b)%nat -> be_field (b ++ r) k n = be_field b k n.
Proof. intros H. unfold be_field. rewrite drop_app_le by lia. rewrite take_app_le; [done|]. rewrite length_drop. lia. Qed.

Lemma decode_instruction_code t len :
  (if inst_extensible t then inst_size t <= len else len = inst_size t) ->
  decode_openflow11_instruction (inst_code t) len = inr t.
Proof.
  unfold decode_openflow11_instruction. destruct t; simpl; intros H;
    first [by rewrite H|by rewrite (proj2 (Z.leb_le _ _) H)].
Qed.

Definition piece_ok (p : ovs_instruction_type * list Z) : Prop := entry_ok (fst p) (snd p).

Lemma entry_ok_size t b : entry_ok t b -> 8 <= Z.of_nat (length b).
Proof. intros [_ _ _ H]. destruct t; simpl in H; lia. Qed.

Definition store_all (out : insts_array) (ps : list (ovs_instruction_type * list Z)) : insts_array :=
  fold_left (fun o p => <[inst_index (fst p) := Some (snd p)]> o) ps out.

Lemma decode_pieces ps fuel out : Forall piece_ok ps -> NoDup (map fst ps) ->
  length out = N_OVS_INSTRUCTIONS -> (forall t, In t (map fst ps) -> inst_get out t = None) ->
  let bs := concat (map snd ps) in
  (length bs / 8 <= fuel)%nat ->
  decode_loop fuel bs (length bs / 8) out = eret (store_all out ps) /\ (length bs mod 8 = 0)%nat.
Proof.
  cbv zeta. revert fuel out. induction ps as [|[t b] ps IH]; intros fuel out Hok Hnd Hl Hnone Hf.
  { split; [by destruct fuel|done]. }
  apply Forall_cons_1 in Hok as [Hb Hok]. cbn [map fst] in Hnd. apply NoDup_cons in Hnd as [Hnin Hnd].
  pose proof (entry_ok_size _ _ Hb) as Hsz. destruct Hb as [Et El Ea Es]. cbn [fst snd] in *.
  set (bs := concat (map snd ps)) in *.
  change (concat (map snd ((t, b) :: ps))) with (b ++ bs) in *.
  assert (exists m, length b = (8 * S m)%nat) as [m Hm].
  { exists (Z.to_nat (Z.of_nat (length b) / 8 - 1)). zdm. }
  assert ((length (b ++ bs) / 8)%nat = (S m + length bs / 8)%nat) as Hdiv.
  { rewrite length_app, Hm, Nat.mul_comm. apply Nat.div_add_l. lia. }
  rewrite Hdiv in *. destruct fuel as [|fuel]; [lia|]. cbn [Nat.add decode_loop].
  rewrite !ld_be_ok by (rewrite length_app; lia). cbn [rbind].
  rewrite !be_field_app_l by lia. rewrite El, Et.
  assert (instruction_is_valid (Z.of_nat (length b)) (S (m + length bs / 8)) = true) as ->.
  { unfold instruction_is_valid, OFP11_INSTRUCTION_ALIGN. rewrite Ea. simpl andb.
    rewrite !andb_true_iff, !Z.leb_le. zdm. }
  rewrite (decode_instruction_code t _ Es), (Hnone t) by by left.
  rewrite Nat2Z.id, drop_app_length, take_app_length.
  replace (Z.of_nat (length b) / 8) with (Z.of_nat (S m)) by zdm. rewrite Nat2Z.id.
  replace (S (m + length bs / 8) - S m)%nat with (length bs / 8)%nat by lia.
  destruct (IH fuel (<[inst_index t := Some b]> out)) as [E Hmod]; try done.
  - by rewrite length_insert.
  - intros t' Ht'. rewrite inst_get_insert by done. case_decide as E.
    + subst. destruct Hnin. by apply list_elem_of_In.
    + apply Hnone. by right.
  - lia.
  - rewrite E. split; [done|]. rewrite length_app, Hm, Nat.mul_comm, Nat.add_comm.
    by rewrite Nat.Div0.mod_add.
Qed.

Fixpoint assoc (t : ovs_instruction_type) (ps : list (ovs_instruction_type * list Z)) : option (list Z) :=
  match ps with
  | [] => None
  | (t', b) :: ps => if decide (t' = t) then Some b else assoc t ps
  end.

Lemma assoc_None t ps : t ∉ map fst ps -> assoc t ps = None.
Proof.
  induction ps as [|[t' b] ps IH]; [done|]. cbn [map fst]. rewrite not_elem_of_cons. intros [Hne Hn].
  simpl. rewrite decide_False by congruence. by apply IH.
Qed.

Lemma store_all_get ps out t : NoDup (map fst ps) -> length out = N_OVS_INSTRUCTIONS ->
  inst_get (store_all out ps) t = match assoc t ps with Some b => Some b | None => inst_get out t end.
Proof.
  revert out. induction ps as [|[t' b] ps IH]; intros out Hnd Hl; [done|].
  cbn [map fst] in Hnd. apply NoDup_cons in Hnd as [Hn Hnd]. simpl.
  rewrite IH by (done || by rewrite length_insert). rewrite inst_get_insert by done.
  case_decide as E; [|done]. subst. by rewrite assoc_None.
Qed.

(** *** The pieces of a flow *)

Lemma put_actions_align version (l : list action) : forallb (supported version) l = true ->
  exists k, length (put_actions version (map Act l)) = (8 * k)%nat.
Proof.
  induction l as [|a l IH]; simpl; [by exists 0%nat|]. intros [Ha Hl]%andb_true_iff.
  destruct (IH Hl) as [k Hk]. destruct (codec_align version a Ha) as [m Hm].
  exists (S m + k)%nat. unfold put_actions in *. simpl. rewrite length_app. lia.
Qed.

Lemma inst_header_fields t len r : in_u16 len -> 4 + Z.of_nat (length r) = len -> len mod 8 = 0 ->
  (if inst_extensible t then inst_size t <= len else len = inst_size t) -> entry_ok t (inst_header t len ++ r).
Proof.
  intros Hu Hlen Hm Hs.
  assert (Z.of_nat (length (inst_header t len ++ r)) = len) as E by (rewrite length_app; simpl; lia).
  assert (in_u16 (inst_code t)) as Hc by (destruct t; vm_compute; split; done).
  split; rewrite ?E; try done; unfold inst_header; rewrite <- ?app_assoc.
  - change (be16_bytes (inst_code t) ++ be16_bytes len ++ r) with ([] ++ be16_bytes (inst_code t) ++ (be16_bytes len ++ r)).
    rewrite be_field_app by done. by apply be_value_16.
  - rewrite be_field_app by done. by apply be_value_16.
Qed.

Lemma actions_piece_ok version t l : inst_extensible t = true -> inst_size t = 8 -> actions_fit version l ->
  Forall piece_ok (actions_piece version t l).
Proof.
  intros Ht Hsz [Hs Hf]. destruct l as [|a l]; [constructor|].
  pose proof (put_actions_nonempty version (a :: l) Hs) as Hne.
  destruct (put_actions_align version (a :: l) Hs) as [k Hk].
  unfold actions_piece. constructor; [|constructor]. unfold piece_ok. cbn [fst snd].
  unfold ofpacts_update_instruction_actions. set (body := put_actions version (map Act (a :: l))) in *.
  destruct body as [|x b]; [by destruct Hne|].
  assert (u16 (8 + Z.of_nat (length (x :: b))) = 8 + Z.of_nat (length (x :: b))) as Eu
    by (apply Z.mod_small; lia).
  apply inst_header_fields; rewrite ?Eu, ?Ht, ?Hsz.
  - unfold in_u16. lia.
  - cbn [length app]. lia.
  - rewrite Hk. zdm.
  - lia.
Qed.

Lemma pieces_ok version f : insts_wf version f -> Forall piece_ok (pieces version f).
Proof.
  intros []. assert (forall t x, inst_extensible t = false -> inst_size t = 8 -> in_u8 x ->
    entry_ok t (byte_inst t x)) as Hbyte.
  { intros t x Ht Hs _. apply inst_header_fields; [vm_compute; split; done|done|done|by rewrite Ht]. }
  unfold pieces. repeat apply Forall_app_2.
  - destruct (fi_meter f); [|constructor]. constructor; [|constructor].
    apply inst_header_fields; [vm_compute; split; done|done..].
  - by apply actions_piece_ok.
  - destruct (fi_clear f); [|constructor]. constructor; [|constructor].
    apply inst_header_fields; [vm_compute; split; done|done..].
  - apply actions_piece_ok; tauto.
  - destruct (fi_metadata f) as [[m k]|]; [|constructor]. constructor; [|constructor].
    apply inst_header_fields; [vm_compute; split; done|done..].
  - destruct (fi_fp f) as [b|]; [|constructor]. constructor; [|constructor]. by apply Hbyte, iw_fp0.
  - destruct (fi_table f) as [b|]; [|constructor]. constructor; [|constructor]. by apply Hbyte, iw_table0.
Qed.

Lemma pieces_nodup version f : NoDup (map fst (pieces version f)).
Proof.
  destruct f as [me ap cl wr md fp tb]. unfold pieces.
  cbn [fi_meter fi_apply fi_clear fi_write fi_metadata fi_fp fi_table].
  destruct me, ap, cl, wr, md as [[]|], fp, tb; simpl; apply (bool_decide_unpack _); vm_compute; done.
Qed.

Definition actions_bytes (version : Z) (t : ovs_instruction_type) (l : list action) : option (list Z) :=
  match l with
  | [] => None
  | _ => Some (ofpacts_update_instruction_actions t (put_actions version (map Act l)))
  end.

Lemma assoc_pieces version f t : assoc t (pieces version f) =
  match t with
  | OVSINST_OFPIT13_METER => option_map meter_bytes (fi_meter f)
  | OVSINST_OFPIT11_APPLY_ACTIONS => actions_bytes version t (fi_apply f)
  | OVSINST_OFPIT11_CLEAR_ACTIONS => if fi_clear f then Some clear_bytes else None
  | OVSINST_OFPIT11_WRITE_ACTIONS => actions_bytes version t (fi_write f)
  | OVSINST_OFPIT11_WRITE_METADATA => option_map metadata_bytes (fi_metadata f)
  | OVSINST_OFPIT11_GOTO_FP => option_map (byte_inst t) (fi_fp f)
  | OVSINST_OFPIT11_GOTO_TABLE => option_map (byte_inst t) (fi_table f)
  end.
Proof.
  destruct f as [me ap cl wr md fp tb]. unfold pieces.
  cbn [fi_meter fi_apply fi_clear fi_write fi_metadata fi_fp fi_table].
  destruct me, ap, cl, wr, md as [[]|], fp, tb, t; reflexivity.
Qed.

(** *** Each instruction is read back *)

Lemma pull_byte version t x : in_u8 x ->
  (t = OVSINST_OFPIT11_GOTO_FP -> pull_instruction version t (byte_inst t x) = eret [OFPACT_GOTO_FP x]) /\
  (t = OVSINST_OFPIT11_GOTO_TABLE -> pull_instruction version t (byte_inst t x) = eret [OFPACT_GOTO_TABLE x]).
Proof. intros _. split; intros ->; reflexivity. Qed.

Lemma pull_meter version m : in_u32 m ->
  pull_instruction version OVSINST_OFPIT13_METER (meter_bytes m) = eret [OFPACT_METER m].
Proof.
  intros Hm. unfold pull_instruction. rewrite ld_be_ok by done. cbn [rbind].
  unfold meter_bytes. rewrite <- (app_nil_r (be32_bytes m)), be_field_app by done. by rewrite be_value_32.
Qed.

Lemma pull_metadata version m : in_u64 (fst m) -> in_u64 (snd m) ->
  pull_instruction version OVSINST_OFPIT11_WRITE_METADATA (metadata_bytes m) =
    eret [OFPACT_WRITE_METADATA (fst m) (snd m)].
Proof.
  intros H1 H2. unfold pull_instruction. rewrite !ld_be_ok by (apply Nat.leb_le; reflexivity). cbn [rbind]. unfold metadata_bytes.
  set (h := inst_header _ _). set (z := [0; 0; 0; 0]).
  replace (h ++ z ++ be64_bytes (fst m) ++ be64_bytes (snd m)) with ((h ++ z) ++ be64_bytes (fst m) ++ be64_bytes (snd m))
    by by rewrite <- app_assoc.
  rewrite be_field_app by done.
  replace ((h ++ z) ++ be64_bytes (fst m) ++ be64_bytes (snd m)) with
    (((h ++ z) ++ be64_bytes (fst m)) ++ be64_bytes (snd m) ++ []) by by rewrite app_nil_r, <- !app_assoc.
  rewrite be_field_app by done. by rewrite !be_value_64.
Qed.

Lemma get_actions_body t body k : body <> [] -> length body = (8 * k)%nat -> Z.of_nat (length body) + 8 < 2 ^ 16 ->
  get_actions_from_instruction (ofpacts_update_instruction_actions t body) = Ok body.
Proof.
  intros Hne Hk Hf. assert (ofpacts_update_instruction_actions t body =
    be16_bytes (inst_code t) ++ be16_bytes (8 + Z.of_nat (length body)) ++ ([0; 0; 0; 0] ++ body)) as ->.
  { destruct body as [|x b]; [done|]. unfold ofpacts_update_instruction_actions, inst_header.
    rewrite <- app_assoc. unfold u16. by rewrite Z.mod_small by lia. }
  unfold get_actions_from_instruction. rewrite ld_be_ok by (simpl; lia). cbn [rbind].
  rewrite be_field_app, be_value_16 by (done || unfold in_u16; lia). f_equal. unfold OFP11_INSTRUCTION_ALIGN.
  replace ((8 + Z.of_nat (length body) - 8) / 8 * 8) with (Z.of_nat (length body)) by (rewrite Hk; zdm).
  rewrite Nat2Z.id. apply take_ge. simpl. lia.
Qed.

Lemma get_actions_back version t l : l <> [] -> actions_fit version l ->
  get_actions_from_instruction (ofpacts_update_instruction_actions t (put_actions version (map Act l))) =
    Ok (put_actions version (map Act l)).
Proof.
  intros Hne [Hs Hf]. destruct (put_actions_align version l Hs) as [k Hk].
  apply (get_actions_body _ _ k); [by apply put_actions_nonempty|done|lia].
Qed.

Lemma pull_applied version l : l <> [] -> actions_fit version l ->
  pull_instruction version OVSINST_OFPIT11_APPLY_ACTIONS
    (ofpacts_update_instruction_actions OVSINST_OFPIT11_APPLY_ACTIONS (put_actions version (map Act l))) =
  eret (map Act l).
Proof.
  intros Hne Hf. unfold pull_instruction. rewrite get_actions_back by done. cbn [rbind].
  by rewrite codec_roundtrip by apply Hf.
Qed.

Lemma pull_written version l : l <> [] -> actions_fit version l -> forallb allowed_in_set (map Act l) = true ->
  pull_instruction version OVSINST_OFPIT11_WRITE_ACTIONS
    (ofpacts_update_instruction_actions OVSINST_OFPIT11_WRITE_ACTIONS (put_actions version (map Act l))) =
  eret [OFPACT_WRITE_ACTIONS (map Act l)].
Proof.
  intros Hne Hf Ha. unfold pull_instruction. rewrite get_actions_back by done. cbn [rbind].
  unfold ofpacts_from_openflow11_for_action_set. rewrite codec_roundtrip by apply Hf. by rewrite Ha.
Qed.

(** *** The whole flow *)

Lemma pull_pieces version f insts : insts_wf version f ->
  (forall t, inst_get insts t = assoc t (pieces version f)) ->
  pull_all version insts pull_order = eret (when (fi_fp f) OFPACT_GOTO_FP ++ when (fi_meter f) OFPACT_METER ++
    map Act (fi_apply f) ++ (if fi_clear f then [OFPACT_CLEAR_ACTIONS] else []) ++
    match fi_write f with [] => [] | l => [OFPACT_WRITE_ACTIONS (map Act l)] end ++
    when (fi_metadata f) (fun m => OFPACT_WRITE_METADATA (fst m) (snd m)) ++ when (fi_table f) OFPACT_GOTO_TABLE).
Proof.
  intros [Hv Hm Ha [Hw Haw] Hd Hfp Ht] Hi. unfold pull_order. cbn [pull_all]. rewrite !Hi, !assoc_pieces.
  destruct f as [me ap cl wr md fp tb]. cbn [fi_meter fi_apply fi_clear fi_write fi_metadata fi_fp fi_table] in *.
  assert (match option_map (byte_inst OVSINST_OFPIT11_GOTO_FP) fp with
    | Some b => pull_instruction version OVSINST_OFPIT11_GOTO_FP b | None => eret [] end =
    eret (when fp OFPACT_GOTO_FP)) as ->.
  { destruct fp as [b|]; [|done]. by apply pull_byte; [apply (Hfp b)|]. }
  assert (match option_map meter_bytes me with
    | Some b => pull_instruction version OVSINST_OFPIT13_METER b | None => eret [] end =
    eret (when me OFPACT_METER)) as ->.
  { destruct me as [m|]; [|done]. apply pull_meter, (Hm m eq_refl). }
  assert (match actions_bytes version OVSINST_OFPIT11_APPLY_ACTIONS ap with
    | Some b => pull_instruction version OVSINST_OFPIT11_APPLY_ACTIONS b | None => eret [] end =
    eret (map Act ap)) as ->.
  { destruct ap as [|a ap]; [done|]. by apply pull_applied. }
  assert (match (if cl then Some clear_bytes else None) with
    | Some b => pull_instruction version OVSINST_OFPIT11_CLEAR_ACTIONS b | None => eret [] end =
    eret (if cl then [OFPACT_CLEAR_ACTIONS] else [])) as -> by by destruct cl.
  assert (match actions_bytes version OVSINST_OFPIT11_WRITE_ACTIONS wr with
    | Some b => pull_instruction version OVSINST_OFPIT11_WRITE_ACTIONS b | None => eret [] end =
    eret (match wr with [] => [] | l => [OFPACT_WRITE_ACTIONS (map Act l)] end)) as ->.
  { destruct wr as [|a wr]; [done|]. by apply pull_written. }
  assert (match option_map metadata_bytes md with
    | Some b => pull_instruction version OVSINST_OFPIT11_WRITE_METADATA b | None => eret [] end =
    eret (when md (fun m => OFPACT_WRITE_METADATA (fst m) (snd m)))) as ->.
  { destruct md as [m|]; [|done]. apply pull_metadata; apply (Hd m eq_refl). }
  assert (match option_map (byte_inst OVSINST_OFPIT11_GOTO_TABLE) tb with
    | Some b => pull_instruction version OVSINST_OFPIT11_GOTO_TABLE b | None => eret [] end =
    eret (when tb OFPACT_GOTO_TABLE)) as ->.
  { destruct tb as [b|]; [|done]. by apply pull_byte; [apply (Ht b)|]. }
  unfold ebind, eret. cbn [rbind]. rewrite app_nil_r. by destruct wr.
Qed.

Lemma verify_acts t (l : list action) r : (inst_index t <= 1)%nat ->
  verify_after t (map Act l ++ r) =
    verify_after (match l with [] => t | _ => OVSINST_OFPIT11_APPLY_ACTIONS end) r.
Proof.
  revert t. induction l as [|a l IH]; intros t Ht; [done|]. cbn [map app].
  destruct t; simpl in Ht; try lia; simpl; rewrite IH by (simpl; lia); by destruct l.
Qed.

Lemma verify_of f : ofpacts_verify (ofpacts_of f) = true.
Proof.
  destruct f as [me ap cl wr md fp tb]. unfold ofpacts_of.
  cbn [fi_meter fi_apply fi_clear fi_write fi_metadata fi_fp fi_table].
  destruct me as [m|]; [|destruct ap as [|a ap]]; cbn [when app map ofpacts_verify].
  2: by destruct cl, wr, md as [[]|], fp, tb.
  all: rewrite verify_acts by (simpl; lia); destruct ap; by destruct cl, wr, md as [[]|], fp, tb.
Qed.

Lemma ofpacts_of_order version f : insts_wf version f ->
  when (fi_fp f) OFPACT_GOTO_FP ++ when (fi_meter f) OFPACT_METER ++
    map Act (fi_apply f) ++ (if fi_clear f then [OFPACT_CLEAR_ACTIONS] else []) ++
    match fi_write f with [] => [] | l => [OFPACT_WRITE_ACTIONS (map Act l)] end ++
    when (fi_metadata f) (fun m => OFPACT_WRITE_METADATA (fst m) (snd m)) ++ when (fi_table f) OFPACT_GOTO_TABLE =
  ofpacts_of f.
Proof.
  intros [_ _ _ _ _ Hfp _]. unfold ofpacts_of. destruct (fi_fp f) as [b|]; [|done].
  destruct (Hfp b eq_refl) as (_ & -> & -> & -> & -> & ->). done.
Qed.

End RoundTrip.

(** ** An implementation of the interface

    A codec for the output action of OpenFlow 1.1, [struct ofp11_action_output]:
    type, length, port, maximum length and padding. *)
Module Output.
Definition action : Type := Z * Z.

Definition enc (a : action) : list Z :=
  be16_bytes 0 ++ be16_bytes 16 ++ be32_bytes (fst a) ++ be16_bytes (snd a) ++ [0; 0; 0; 0; 0; 0].

Fixpoint dec (fuel : nat) (bs : list Z) : ofperr + list (ofpact action) :=
  match bs, fuel with
  | [], _ => inr []
  | _, O => inl OFPERR_OFPBIC_BAD_LEN
  | _, S fuel =>
      match dec fuel (drop 16 bs) with
      | inl e => inl e
      | inr l => inr (Act (be_field bs 4 4, be_field bs 8 2) :: l)
      end
  end.

#[global] Instance codec : ActionCodec action := {
  from_openflow _ bs := dec (length bs) bs;
  to_openflow _ a := match a with Act a => enc a | _ => [] end;
  allowed_in_set _ := true
}.

Definition fits (a : action) : bool :=
  (0 <=? fst a) && (fst a <? 2 ^ 32) && (0 <=? snd a) && (snd a <? 2 ^ 16).

Lemma dec_step fuel a r : fits a = true ->
  dec (S fuel) (enc a ++ r) =
    match dec fuel r with inl e => inl e | inr l => inr (Act a :: l) end.
Proof.
  unfold fits. rewrite !andb_true_iff, !Z.leb_le, !Z.ltb_lt. intros [[[? ?] ?] ?].
  assert (be_field (enc a ++ r) 4 4 = fst a) as E1.
  { change (enc a ++ r) with ((be16_bytes 0 ++ be16_bytes 16) ++ be32_bytes (fst a) ++
      (be16_bytes (snd a) ++ [0; 0; 0; 0; 0; 0] ++ r)).
    rewrite be_field_app by done. by apply be_value_32. }
  assert (be_field (enc a ++ r) 8 2 = snd a) as E2.
  { change (enc a ++ r) with ((be16_bytes 0 ++ be16_bytes 16 ++ be32_bytes (fst a)) ++ be16_bytes (snd a) ++
      ([0; 0; 0; 0; 0; 0] ++ r)).
    rewrite be_field_app by done. by apply be_value_16. }
  change (dec (S fuel) (enc a ++ r)) with
    (match dec fuel (drop 16 (enc a ++ r)) with
     | inl e => inl e
     | inr l => inr (Act (be_field (enc a ++ r) 4 4, be_field (enc a ++ r) 8 2) :: l)
     end).
  rewrite E1, E2. change (drop 16 (enc a ++ r)) with r. by destruct a.
Qed.

Lemma dec_enc fuel l : forallb fits l = true -> (length l <= fuel)%nat ->
  dec fuel (concat (map enc l)) = inr (map Act l).
Proof.
  revert fuel. induction l as [|a l IH]; intros fuel Hl Hf; [by destruct fuel|].
  simpl in Hl. apply andb_true_iff in Hl as [Ha Hl]. destruct fuel as [|fuel]; [simpl in Hf; lia|].
  change (concat (map enc (a :: l))) with (enc a ++ concat (map enc l)).
  rewrite dec_step by done. rewrite IH by (done || simpl in Hf; lia). done.
Qed.

Lemma put_actions_enc version l : put_actions version (map Act l) = concat (map enc l).
Proof. unfold put_actions. by rewrite map_map. Qed.

#[global, refine] Instance laws : ActionCodecLaws action := {
  supported _ := fits
}.
Proof.
  - intros version l Hl. rewrite put_actions_enc. simpl. apply dec_enc; [done|].
    clear Hl. induction l as [|a l IH]; [done|].
    change (concat (map enc (a :: l))) with (enc a ++ concat (map enc l)).
    rewrite length_app. cbn [length]. change (length (enc a)) with 16%nat. lia.
  - intros version a _. by exists 1%nat.
Defined.
End Output.

(** ** Properties *)

(** C10. Reading instructions from an OpenFlow message is safe for arbitrary
    bytes and lengths: it ends with a list of actions or an error, never reads
    outside the message and fails no assertion, and takes either nothing or the
    given number of bytes off the message. *)
Theorem instructions_pull_safe {action} `{ActionCodec action} (openflow : list Z) (instructions_len version : Z) :
  0 <= instructions_len ->
  exists (r : ofperr + list (ofpact action)) rest,
    ofpacts_pull_openflow_instructions openflow instructions_len version = Ok (r, rest) /\
    (rest = openflow /\ r = inl OFPERR_OFPBIC_BAD_LEN \/
     rest = drop (Z.to_nat instructions_len) openflow /\ (Z.to_nat instructions_len <= length openflow)%nat).
Proof.
  intros Hn. unfold ofpacts_pull_openflow_instructions.
  destruct (Z.eqb_spec (instructions_len mod OFP11_INSTRUCTION_ALIGN) 0) as [Ha|]; simpl negb; [|by eauto 10].
  destruct (Z.ltb_spec (Z.of_nat (length openflow)) instructions_len); [by eauto 10|].
  unfold OFP11_INSTRUCTION_ALIGN in *. set (n := Z.to_nat (instructions_len / 8)).
  destruct (decode_loop_ok n (take (Z.to_nat instructions_len) openflow) n
    (replicate N_OVS_INSTRUCTIONS None)) as (d & Ed & Hd).
  - rewrite length_take. unfold n. zdm.
  - done.
  - apply out_ok_empty.
  - unfold decode_openflow11_instructions, ebind. rewrite Ed. cbn [rbind].
    assert (Z.to_nat instructions_len <= length openflow)%nat by lia.
    destruct d as [e|insts]; [by eauto 10|].
    destruct (pull_all_ok version insts pull_order Hd) as [[e|l] ->]; cbn [rbind]; eauto 10.
Qed.

Lemma instructions_pull_safe_witness :
  0 <= 16 /\ exists (r : ofperr + list (ofpact Output.action)) rest,
    ofpacts_pull_openflow_instructions [0; 7; 0; 8; 3; 0; 0; 0; 0; 4; 255; 248; 1; 2; 3; 4] 16 4 = Ok (r, rest) /\
    (rest = [0; 7; 0; 8; 3; 0; 0; 0; 0; 4; 255; 248; 1; 2; 3; 4] /\ r = inl OFPERR_OFPBIC_BAD_LEN \/
     rest = [] /\ (16 <= 16)%nat).
Proof.
  split; [lia|].
  apply (instructions_pull_safe [0; 7; 0; 8; 3; 0; 0; 0; 0; 4; 255; 248; 1; 2; 3; 4] 16 4). lia.
Defined.

(** C9. A flow whose instructions contain [GOTO_FP] is accepted only if it has
    nothing else to do than going to another table: [GOTO_FP] is put in front of
    all other actions although it ranks behind them, so a meter, written
    metadata, a cleared or written action set, or any applied action makes the
    check of the order fail. *)
Theorem goto_fp_stands_alone {action} `{ActionCodec action} (openflow rest : list Z) (instructions_len version : Z)
    (insts : list (option (list Z))) (inst : list Z) (l : list (ofpact action)) :
  decode_openflow11_instructions (take (Z.to_nat instructions_len) openflow)
    (Z.to_nat (instructions_len / OFP11_INSTRUCTION_ALIGN)) = eret insts ->
  inst_get insts OVSINST_OFPIT11_GOTO_FP = Some inst ->
  ofpacts_pull_openflow_instructions openflow instructions_len version = Ok (inr l, rest) ->
  (exists bitmap, l = [OFPACT_GOTO_FP bitmap] \/ exists table_id, l = [OFPACT_GOTO_FP bitmap; OFPACT_GOTO_TABLE table_id]) /\
  inst_get insts OVSINST_OFPIT13_METER = None /\ inst_get insts OVSINST_OFPIT11_CLEAR_ACTIONS = None /\
  inst_get insts OVSINST_OFPIT11_WRITE_ACTIONS = None /\ inst_get insts OVSINST_OFPIT11_WRITE_METADATA = None.
Proof.
  intros Hdec Hfp Hp. unfold ofpacts_pull_openflow_instructions in Hp.
  destruct (negb _); [done|]. destruct (_ <? _); [done|]. rewrite Hdec in Hp. unfold ebind at 1 in Hp. cbn [rbind eret] in Hp.
  apply rbind_Ok in Hp as (r & Hr & Hp). destruct r as [e|l']; [done|].
  destruct (ofpacts_verify l') eqn:Ev; [|done]. injection Hp as -> _.
  destruct (pull_goto_fp_first version insts inst l Hfp Hr) as (b & l' & ->).
  assert (forall a, In a (OFPACT_GOTO_FP b :: l') -> is_goto a) as Hgoto.
  { destruct (verify_after_goto_fp l' Ev) as [->|[t ->]]; simpl; intros a Ha.
    - by destruct Ha as [<-|[]].
    - by destruct Ha as [<-|[<-|[]]]. }
  split.
  { exists b. destruct (verify_after_goto_fp l' Ev) as [->|[t ->]]; eauto. }
  split_and!; (eapply (pull_absent version insts _ _ _ (fun a => ~ is_goto a)); [exact Hr|simpl; tauto| |]);
    try (intros a Ha Hn; by apply Hn, Hgoto); intros i lt; by apply pull_not_goto.
Qed.

Lemma goto_fp_stands_alone_witness :
  let openflow := [0; 7; 0; 8; 3; 0; 0; 0; 0; 1; 0; 8; 5; 0; 0; 0] in
  exists insts inst (l : list (ofpact Output.action)),
    decode_openflow11_instructions openflow 2 = eret insts /\
    inst_get insts OVSINST_OFPIT11_GOTO_FP = Some inst /\
    ofpacts_pull_openflow_instructions openflow 16 4 = Ok (inr l, []) /\
    (exists bitmap, l = [OFPACT_GOTO_FP bitmap] \/ exists table_id, l = [OFPACT_GOTO_FP bitmap; OFPACT_GOTO_TABLE table_id]).
Proof.
  cbv zeta. do 3 eexists. split; [vm_compute; reflexivity|]. split; [vm_compute; reflexivity|].
  split; [vm_compute; reflexivity|].
  apply (goto_fp_stands_alone [0; 7; 0; 8; 3; 0; 0; 0; 0; 1; 0; 8; 5; 0; 0; 0] [] 16 4
    [None; None; None; None; None; Some [0; 7; 0; 8; 3; 0; 0; 0]; Some [0; 1; 0; 8; 5; 0; 0; 0]]
    [0; 7; 0; 8; 3; 0; 0; 0]); vm_compute; reflexivity.
Defined.

(** A flow that meters packets and sends them to an SFA application is refused. *)
Example goto_fp_with_meter :
  ofpacts_pull_openflow_instructions (action := Output.action)
    ([0; 6; 0; 8; 0; 0; 0; 1] ++ [0; 7; 0; 8; 3; 0; 0; 0]) 16 4 =
  Ok (inl OFPERR_OFPBAC_UNSUPPORTED_ORDER, []).
Proof. vm_compute. reflexivity. Qed.

(** C11. What is written is read back: for every flow with meter, applied
    actions, cleared and written action set, metadata and next table, or with a
    jump to an SFA application and a next table alone, whose parts fit the
    version and the length fields ([insts_wf]), writing its instructions to a
    message and reading them gives the same internal actions and leaves the rest
    of the message.  A jump beside other instructions is written but refused on
    reading ([goto_fp_stands_alone]). *)
Theorem instructions_roundtrip {action} `{ActionCodecLaws action} (version : Z) (f : flow_insts action) :
  insts_wf version f ->
  exists bytes, ofpacts_put_openflow_instructions version (ofpacts_of f) = Ok bytes /\
    forall rest, ofpacts_pull_openflow_instructions (bytes ++ rest) (Z.of_nat (length bytes)) version =
      Ok (inr (ofpacts_of f), rest).
Proof.
  intros Hf. exists (concat (map snd (pieces version f))). split.
  { unfold ofpacts_put_openflow_instructions, ovs_assert.
    rewrite (proj2 (Z.leb_le _ _) (iw_version _ _ Hf)). simpl. by rewrite put_pieces. }
  intros rest. set (bytes := concat _).
  destruct (decode_pieces (pieces version f) (length bytes / 8) (replicate N_OVS_INSTRUCTIONS None))
    as [Ed Hm]; [by apply pieces_ok|apply pieces_nodup|done|by intros []|done|]. fold bytes in Ed, Hm.
  assert (Z.of_nat (length bytes) mod 8 = 0) as Hmz by (rewrite <- (Nat2Z.inj_mod _ 8), Hm; done).
  assert (Z.to_nat (Z.of_nat (length bytes) / 8) = (length bytes / 8)%nat) as Hd
    by (rewrite <- (Nat2Z.inj_div _ 8); apply Nat2Z.id).
  unfold ofpacts_pull_openflow_instructions, OFP11_INSTRUCTION_ALIGN. rewrite Hmz, Hd. cbn [negb Z.eqb].
  rewrite (proj2 (Z.ltb_ge _ _)) by (rewrite length_app; lia).
  rewrite Nat2Z.id, take_app_length, drop_app_length.
  unfold decode_openflow11_instructions. rewrite Ed. unfold ebind at 1, eret at 1. cbn [rbind].
  rewrite (pull_pieces version f); [|done|].
  2:{ intros t. rewrite store_all_get by (done || apply pieces_nodup).
      destruct (assoc t (pieces version f)); [done|by destruct t]. }
  cbn [rbind eret]. by rewrite (ofpacts_of_order version f), verify_of.
Qed.

Lemma instructions_roundtrip_witness :
  let f := Mk_insts (action := Output.action) (Some 1) [(1, 0); (2, 65535)] true [(3, 0)] (Some (5, 255)) None (Some 2) in
  exists bytes, ofpacts_put_openflow_instructions 4 (ofpacts_of f) = Ok bytes /\
    forall rest, ofpacts_pull_openflow_instructions (bytes ++ rest) (Z.of_nat (length bytes)) 4 =
      Ok (inr (ofpacts_of f), rest).
Proof.
  apply instructions_roundtrip. split; simpl.
  - done.
  - intros m [= <-]. vm_compute. repeat split; done.
  - split; vm_compute; reflexivity.
  - split; [split; vm_compute; reflexivity|reflexivity].
  - intros m [= <-]. vm_compute. repeat split; done.
  - done.
  - intros t [= <-]. vm_compute. split; done.
Defined.
