(* ===== verification/TokenBucket.v ===== *)
(** * Token buckets ([lib/token-bucket.c], [lib/sat-math.h])

    The rate limiter of controller connections and log messages.  [time_msec] is
    an argument: the current time read by a withdrawal. *)

From Stdlib Require Import ZArith Lia List.
From stdpp Require Import base list option sets.
From S2P Require Import Prelude.
#[local] Open Scope Z_scope.
#[local] Open Scope res_scope.

(** ** Saturating arithmetic *)

Definition sat_add (x y : Z) : Z := if x <=? u32 (x + y) then u32 (x + y) else UINT_MAX.
Definition sat_sub (x y : Z) : Z := if y <=? x then x - y else 0.
Definition sat_mul (x y : Z) : Z :=
  if y =? 0 then 0 else if x <=? UINT_MAX / y then u32 (x * y) else UINT_MAX.

(** ** The bucket *)

Record token_bucket := Mk_tb {
  rate : Z;
  burst : Z;
  tokens : Z;
  last_fill : Z
}.

Definition token_bucket_init (rate burst : Z) : token_bucket := Mk_tb rate burst 0 LLONG_MIN.

Definition token_bucket_set (tb : token_bucket) (rate burst : Z) : token_bucket :=
  Mk_tb rate burst (if tokens tb <? burst then burst else tokens tb) (last_fill tb).

(** The refill inside [token_bucket_withdraw]. *)
Definition refill (tb : token_bucket) (now : Z) : token_bucket :=
  if last_fill tb <? now then
    let elapsed_ull := u64 (now - last_fill tb) in
    let elapsed := Z.min UINT_MAX elapsed_ull in
    let add := sat_mul (rate tb) elapsed in
    let t := sat_add (tokens tb) add in
    Mk_tb (rate tb) (burst tb) (Z.min t (burst tb)) now
  else tb.

Definition token_bucket_withdraw (tb : token_bucket) (n now : Z) : bool * token_bucket :=
  let tb := if tokens tb <? n then refill tb now else tb in
  if tokens tb <? n then (false, tb)
  else (true, Mk_tb (rate tb) (burst tb) (tokens tb - n) (last_fill tb)).

(** When the poll loop is to wake up.  A division by a zero rate is a fault. *)
Inductive wake := Immediately | At (t : Z).

Definition token_bucket_wait (tb : token_bucket) (n : Z) : Res wake :=
  if n <=? tokens tb then Ok Immediately
  else
    let need := n - tokens tb in
    if rate tb =? 0 then Fault DivByZero
    else Ok (At (last_fill tb + need / rate tb + 1)).

(** ** Saturation *)

Lemma sat_add_spec x y : in_u32 x -> in_u32 y -> sat_add x y = Z.min (x + y) UINT_MAX.
Proof.
  unfold in_u32, sat_add, UINT_MAX, u32. intros Hx Hy.
  destruct (Z.lt_ge_cases (x + y) (2 ^ 32)).
  - rewrite Z.mod_small by lia. case_bool; lia.
  - replace ((x + y) mod 2 ^ 32) with (x + y - 2 ^ 32) by zdm. case_bool; lia.
Qed.

Lemma sat_sub_spec x y : sat_sub x y = Z.max (x - y) 0.
Proof. unfold sat_sub. case_bool; lia. Qed.

Lemma sat_mul_spec x y : in_u32 x -> in_u32 y -> sat_mul x y = Z.min (x * y) UINT_MAX.
Proof.
  unfold in_u32, sat_mul. intros Hx Hy. case_bool; [subst; unfold UINT_MAX; lia|].
  pose proof (Z.div_mod UINT_MAX y ltac:(lia)). pose proof (Z.mod_pos_bound UINT_MAX y ltac:(lia)).
  case_bool.
  - assert (x * y <= UINT_MAX) by nia. rewrite u32_id; unfold UINT_MAX, in_u32 in *; nia.
  - assert (UINT_MAX <= x * y) by nia. lia.
Qed.

(** ** The bucket never holds more than its burst *)

Definition tb_ok (tb : token_bucket) : Prop :=
  in_u32 (rate tb) /\ in_u32 (burst tb) /\ in_u32 (tokens tb) /\
  LLONG_MIN <= last_fill tb <= LLONG_MAX.

Definition tb_inv (tb : token_bucket) : Prop := tb_ok tb /\ tokens tb <= burst tb.

Lemma elapsed_u32 now last : LLONG_MIN <= last < now -> now <= LLONG_MAX ->
  u64 (now - last) = now - last /\ in_u32 (Z.min UINT_MAX (now - last)).
Proof.
  unfold LLONG_MIN, LLONG_MAX, u64, in_u32, UINT_MAX. intros H1 H2.
  rewrite Z.mod_small by lia. lia.
Qed.

(** The refill in closed form: rate times elapsed time, capped by the burst. *)
Lemma refill_spec tb now : tb_ok tb -> last_fill tb < now <= LLONG_MAX ->
  refill tb now = Mk_tb (rate tb) (burst tb)
    (Z.min (tokens tb + rate tb * Z.min UINT_MAX (now - last_fill tb)) (burst tb)) now.
Proof.
  intros (Hr & Hb & Ht & Hl) Hn. unfold refill. destruct (Z.ltb_spec (last_fill tb) now); [|lia].
  destruct (elapsed_u32 now (last_fill tb)) as [-> He]; [lia..|].
  rewrite sat_mul_spec by done.
  assert (in_u32 (Z.min (rate tb * Z.min UINT_MAX (now - last_fill tb)) UINT_MAX)).
  { unfold in_u32, UINT_MAX in *. nia. }
  rewrite sat_add_spec by done. f_equal. unfold in_u32, UINT_MAX in *. nia.
Qed.

Lemma refill_ok tb now : tb_ok tb -> now <= LLONG_MAX -> tb_ok (refill tb now) /\
  rate (refill tb now) = rate tb /\ burst (refill tb now) = burst tb /\
  (tokens tb <= burst tb -> tokens tb <= tokens (refill tb now) <= burst tb).
Proof.
  intros H Hn. destruct (Z.lt_ge_cases (last_fill tb) now).
  - rewrite refill_spec by (done || lia). destruct H as (Hr & Hb & Ht & Hl).
    unfold tb_ok, in_u32, UINT_MAX in *. simpl. nia.
  - unfold refill. destruct (Z.ltb_spec (last_fill tb) now); [lia|]. split; [done|]. lia.
Qed.

Lemma withdraw_inv tb n now : tb_inv tb -> in_u32 n -> now <= LLONG_MAX ->
  tb_inv (token_bucket_withdraw tb n now).2.
Proof.
  intros [Hok Ht] Hn Hnow. unfold token_bucket_withdraw.
  destruct (refill_ok tb now Hok Hnow) as (Hok' & Hr & Hb & Hm).
  set (tb' := if tokens tb <? n then refill tb now else tb).
  assert (H' : tb_inv tb').
  { unfold tb'. case_bool; split; auto. specialize (Hm Ht). lia. }
  destruct H' as [(? & ? & ? & ?) Ht']. destruct (Z.ltb_spec (tokens tb') n); simpl.
  - by split.
  - unfold tb_inv, tb_ok, in_u32 in *. simpl. lia.
Qed.

(** A withdrawal succeeds exactly when the tokens held, or those held after
    crediting the elapsed time up to the burst, suffice. *)
Lemma withdraw_spec tb n now : tb_inv tb -> in_u32 n -> now <= LLONG_MAX ->
  let avail := if last_fill tb <? now
    then Z.min (tokens tb + rate tb * Z.min UINT_MAX (now - last_fill tb)) (burst tb)
    else tokens tb in
  (token_bucket_withdraw tb n now).1 = (n <=? tokens tb) || (n <=? avail).
Proof.
  intros [Hok Ht] Hn Hnow avail. unfold token_bucket_withdraw, avail. clear avail.
  destruct (Z.ltb_spec (tokens tb) n).
  - destruct (Z.leb_spec n (tokens tb)); [lia|]. cbn [orb].
    destruct (Z.ltb_spec (last_fill tb) now).
    + rewrite refill_spec by (done || lia). simpl.
      repeat case_bool; simpl; try done; lia.
    + unfold refill. destruct (Z.ltb_spec (last_fill tb) now); [lia|].
      repeat case_bool; simpl; try done; lia.
  - destruct (Z.ltb_spec (tokens tb) n); [lia|].
    destruct (Z.leb_spec n (tokens tb)); [done|lia].
Qed.

(** ** Rate limiting over a sequence of withdrawals *)

(** The amount granted over requests [(n, now)], in order. *)
Fixpoint granted (tb : token_bucket) (reqs : list (Z * Z)) : Z * token_bucket :=
  match reqs with
  | [] => (0, tb)
  | (n, now) :: reqs =>
      let '(ok, tb) := token_bucket_withdraw tb n now in
      let '(g, tb) := granted tb reqs in
      ((if ok then n else 0) + g, tb)
  end.

(** One withdrawal spends tokens that were there or were added since the last
    refill. *)
Lemma withdraw_budget tb n now : tb_inv tb -> in_u32 n -> now <= LLONG_MAX ->
  let '(ok, tb') := token_bucket_withdraw tb n now in
  (if ok then n else 0) + tokens tb' <= tokens tb + rate tb * (last_fill tb' - last_fill tb) /\
  rate tb' = rate tb /\ last_fill tb <= last_fill tb' <= Z.max (last_fill tb) now.
Proof.
  intros [Hok Ht] Hn Hnow. unfold token_bucket_withdraw.
  destruct (Z.ltb_spec (tokens tb) n).
  - destruct (Z.lt_ge_cases (last_fill tb) now).
    + rewrite refill_spec by (done || lia). destruct Hok as (Hr & Hb & Htk & Hl). simpl.
      unfold in_u32, UINT_MAX in *. case_bool; simpl; nia.
    + unfold refill. destruct (Z.ltb_spec (last_fill tb) now); [lia|].
      case_bool; simpl; lia.
  - destruct (Z.ltb_spec (tokens tb) n); [lia|]. simpl. lia.
Qed.

Lemma granted_budget reqs : forall tb T, tb_inv tb ->
  Forall (fun r => in_u32 r.1 /\ r.2 <= T) reqs -> T <= LLONG_MAX ->
  let '(g, tb') := granted tb reqs in
  g + tokens tb' <= tokens tb + rate tb * (last_fill tb' - last_fill tb) /\
  last_fill tb <= last_fill tb' <= Z.max (last_fill tb) T /\ tb_inv tb'.
Proof.
  induction reqs as [|[n now] reqs IH]; intros tb T Hi Hr HT; cbn [granted].
  { split; [lia|]. split; [lia|done]. }
  apply Forall_cons in Hr as [[Hn Hnow] Hr]. simpl in Hn, Hnow.
  pose proof (withdraw_budget tb n now Hi Hn ltac:(lia)) as Hb.
  pose proof (withdraw_inv tb n now Hi Hn ltac:(lia)) as Hi'.
  destruct (token_bucket_withdraw tb n now) as [ok tb1]. simpl in Hi'.
  specialize (IH tb1 T Hi' Hr HT). destruct (granted tb1 reqs) as [g tb2].
  destruct Hb as (H1 & H2 & H3), IH as (H4 & H5 & H6).
  rewrite H2 in H4. split; [nia|]. split; [lia|done].
Qed.

(** ** Properties *)

(** Over any sequence of withdrawals up to time [T] the tokens granted are at
    most the tokens in the bucket at the start plus the rate times the time
    since its last refill, and the bucket stays within its burst. *)
Theorem token_bucket_rate_limit tb reqs T : tb_inv tb -> last_fill tb <= T <= LLONG_MAX ->
  Forall (fun r => in_u32 r.1 /\ r.2 <= T) reqs ->
  let '(g, tb') := granted tb reqs in
  g <= tokens tb + rate tb * (T - last_fill tb) /\ tb_inv tb'.
Proof.
  intros Hi HT Hr. pose proof (granted_budget reqs tb T Hi Hr ltac:(lia)) as H.
  destruct (granted tb reqs) as [g tb']. destruct H as (Hg & Hl & Hi').
  split; [|done]. destruct Hi' as [(_ & _ & Ht & _) _], Hi as [(Hrt & _) _].
  unfold in_u32 in *. nia.
Qed.

Lemma token_bucket_rate_limit_witness :
  (granted (Mk_tb 2 10 10 100) [(10, 100); (3, 101); (4, 102)]).1 <= 10 + 2 * (102 - 100).
Proof.
  assert (H1 : tb_inv (Mk_tb 2 10 10 100)).
  { unfold tb_inv, tb_ok, in_u32, LLONG_MIN, LLONG_MAX. cbn [rate burst tokens last_fill]. lia. }
  assert (H2 : 100 <= 102 <= LLONG_MAX) by (unfold LLONG_MAX; lia).
  assert (H3 : Forall (fun r => in_u32 r.1 /\ r.2 <= 102) [(10, 100); (3, 101); (4, 102)]).
  { repeat constructor; cbn [fst snd]; lia. }
  pose proof (token_bucket_rate_limit _ _ 102 H1 H2 H3) as H.
  destruct (granted _ _) as [g tb']. apply H.
Defined.

(** A bucket with a positive rate behaves as full when it is first used. *)
Theorem token_bucket_initially_full r b n now : in_u32 r -> 1 <= r -> in_u32 b ->
  0 <= n <= b -> 0 <= now <= LLONG_MAX ->
  (token_bucket_withdraw (token_bucket_init r b) n now).1 = true /\
  tokens (token_bucket_withdraw (token_bucket_init r b) n now).2
  = (if n =? 0 then 0 else b - n).
Proof.
  intros Hr H1 Hb Hn Hnow. unfold token_bucket_withdraw.
  assert (Hok : tb_ok (token_bucket_init r b)).
  { unfold tb_ok, in_u32, LLONG_MIN, LLONG_MAX in *. cbn [rate burst tokens last_fill token_bucket_init].
    unfold LLONG_MIN. lia. }
  destruct (Z.eqb_spec n 0) as [->|Hne]; [done|].
  change (tokens (token_bucket_init r b)) with 0. destruct (Z.ltb_spec 0 n); [|lia].
  rewrite refill_spec; [|done|cbn [last_fill token_bucket_init]; unfold LLONG_MIN, LLONG_MAX in *; lia].
  cbn [rate burst tokens last_fill token_bucket_init].
  rewrite (Z.min_r (0 + _) b).
  { cbn [tokens]. destruct (Z.ltb_spec b n); [lia|done]. }
  unfold in_u32, UINT_MAX, LLONG_MIN in *. nia.
Qed.

Lemma token_bucket_initially_full_witness :
  (token_bucket_withdraw (token_bucket_init 1 60) 60 0).1 = true.
Proof.
  apply (token_bucket_initially_full 1 60 60 0); unfold in_u32, LLONG_MAX; lia.
Defined.

(** The time [token_bucket_wait] arms the poll loop for is late enough: at
    that time the withdrawal it waits for succeeds. *)
Theorem token_bucket_wait_enough tb n t : tb_inv tb -> 0 <= n <= burst tb ->
  token_bucket_wait tb n = Ok (At t) -> t <= LLONG_MAX ->
  (token_bucket_withdraw tb n t).1 = true.
Proof.
  intros Hi Hn Hw Ht. unfold token_bucket_wait in Hw.
  destruct (Z.leb_spec n (tokens tb)); [done|].
  destruct (Z.eqb_spec (rate tb) 0); [done|]. injection Hw as <-.
  assert (Hi' := Hi). destruct Hi' as [(Hr & Hb & Htk & Hl) Hle]. unfold in_u32 in *.
  rewrite withdraw_spec; [|done|unfold in_u32; lia|done].
  pose proof (Z.div_mod (n - tokens tb) (rate tb) ltac:(lia)) as Hd.
  pose proof (Z.mod_pos_bound (n - tokens tb) (rate tb) ltac:(lia)) as Hm.
  set (q := (n - tokens tb) / rate tb) in *. assert (0 <= q) by (apply Z.div_pos; lia).
  assert (q < 2 ^ 32) by nia.
  destruct (Z.ltb_spec (last_fill tb) (last_fill tb + q + 1)); [|lia].
  replace (last_fill tb + q + 1 - last_fill tb) with (q + 1) by lia.
  rewrite orb_true_iff. right. apply Z.leb_le. apply Z.min_glb; [|lia].
  unfold UINT_MAX. destruct (Z.lt_ge_cases (q + 1) (2 ^ 32 - 1)); [rewrite Z.min_r by lia; nia|].
  rewrite Z.min_l by lia. nia.
Qed.

Lemma token_bucket_wait_enough_witness :
  (token_bucket_withdraw (Mk_tb 2 10 1 100) 8 104).1 = true.
Proof.
  apply (token_bucket_wait_enough (Mk_tb 2 10 1 100) 8 104); [|simpl; lia|reflexivity|unfold LLONG_MAX; lia].
  unfold tb_inv, tb_ok, in_u32, LLONG_MIN, LLONG_MAX. simpl. lia.
Defined.

(** Reconfiguring a bucket does not cap its tokens: whatever was above the
    new burst stays, so the documented maximum does not hold afterwards. *)
Theorem token_bucket_set_keeps_excess tb r b : tb_inv tb -> b < tokens tb ->
  tokens (token_bucket_set tb r b) = tokens tb /\ burst (token_bucket_set tb r b) < tokens tb.
Proof.
  intros _ Hb. unfold token_bucket_set. simpl.
  destruct (Z.ltb_spec (tokens tb) b); [lia|]. done.
Qed.

Lemma token_bucket_set_keeps_excess_witness :
  tokens (token_bucket_set (Mk_tb 1 100 100 0) 1 5) = 100.
Proof.
  apply (token_bucket_set_keeps_excess (Mk_tb 1 100 100 0) 1 5); [|reflexivity].
  unfold tb_inv, tb_ok, in_u32, LLONG_MIN, LLONG_MAX. simpl. lia.
Defined.
