(* ===== verification/Reconnect.v ===== *)
(** * The reconnection state machine ([lib/reconnect.c])

    Decides when the switch connects to its controller, probes an idle
    connection and gives up on an attempt.  Every operation takes the current
    time, as in the source.  Log messages are left out; [long long] times are
    unbounded integers, with a theorem that says when the code's sums fit. *)

From Stdlib Require Import ZArith Lia List String.
From stdpp Require Import base list option relations.
From S2P Require Import Prelude.
#[local] Open Scope Z_scope.
#[local] Open Scope res_scope.

(** ** State *)

Inductive state := S_VOID | S_BACKOFF | S_CONNECTING | S_ACTIVE | S_IDLE | S_RECONNECT | S_LISTENING.

#[global] Instance state_eq_dec : EqDecision state.
Proof. solve_decision. Defined.

(** The bit of a state in the masks the code tests. *)
Definition state_bit (s : state) : Z :=
  match s with
  | S_VOID => Z.shiftl 1 0
  | S_BACKOFF => Z.shiftl 1 1
  | S_CONNECTING => Z.shiftl 1 3
  | S_ACTIVE => Z.shiftl 1 4
  | S_IDLE => Z.shiftl 1 5
  | S_RECONNECT => Z.shiftl 1 6
  | S_LISTENING => Z.shiftl 1 7
  end.

(** [state & (s1 | s2 | ...)] *)
Definition in_states (s : state) (l : list state) : bool :=
  negb (Z.land (state_bit s) (foldr Z.lor 0 (state_bit <$> l)) =? 0).

Definition is_connected_state (s : state) : bool := in_states s [S_ACTIVE; S_IDLE].

Inductive vlog_level := VLL_INFO | VLL_DBG.

Record reconnect := Mk_fsm {
  name : string;
  min_backoff : Z;
  max_backoff : Z;
  probe_interval : Z;
  passive : bool;
  info : vlog_level;
  fsm_state : state;
  state_entered : Z;
  backoff : Z;
  last_activity : Z;
  last_connected : Z;
  last_disconnected : Z;
  max_tries : Z;
  creation_time : Z;
  n_attempted_connections : Z;
  n_successful_connections : Z;
  total_connected_duration : Z;
  seqno : Z
}.

Definition RECONNECT_DEFAULT_MIN_BACKOFF : Z := 1000.
Definition RECONNECT_DEFAULT_MAX_BACKOFF : Z := 8000.
Definition RECONNECT_DEFAULT_PROBE_INTERVAL : Z := 5000.

Inductive reconnect_action := RECONNECT_NONE | RECONNECT_CONNECT | RECONNECT_DISCONNECT | RECONNECT_PROBE.

(** Field updates. *)
Definition with_backoff (b : Z) (f : reconnect) : reconnect :=
  Mk_fsm (name f) (min_backoff f) (max_backoff f) (probe_interval f) (passive f) (info f)
    (fsm_state f) (state_entered f) b (last_activity f) (last_connected f)
    (last_disconnected f) (max_tries f) (creation_time f) (n_attempted_connections f)
    (n_successful_connections f) (total_connected_duration f) (seqno f).
Definition with_times (act conn disc : Z) (f : reconnect) : reconnect :=
  Mk_fsm (name f) (min_backoff f) (max_backoff f) (probe_interval f) (passive f) (info f)
    (fsm_state f) (state_entered f) (backoff f) act conn disc (max_tries f) (creation_time f)
    (n_attempted_connections f) (n_successful_connections f) (total_connected_duration f) (seqno f).
Definition with_config (nm : string) (mn mx pr : Z) (ps : bool) (inf : vlog_level) (tries : Z)
    (f : reconnect) : reconnect :=
  Mk_fsm nm mn mx pr ps inf (fsm_state f) (state_entered f) (backoff f) (last_activity f)
    (last_connected f) (last_disconnected f) tries (creation_time f) (n_attempted_connections f)
    (n_successful_connections f) (total_connected_duration f) (seqno f).

(** ** Creation and configuration *)

Definition reconnect_create (now : Z) : reconnect :=
  Mk_fsm "void" RECONNECT_DEFAULT_MIN_BACKOFF RECONNECT_DEFAULT_MAX_BACKOFF
    RECONNECT_DEFAULT_PROBE_INTERVAL false VLL_INFO S_VOID now 0 now LLONG_MAX LLONG_MAX
    UINT_MAX now 0 0 0 0.

Definition reconnect_set_quiet (f : reconnect) (quiet : bool) : reconnect :=
  with_config (name f) (min_backoff f) (max_backoff f) (probe_interval f) (passive f)
    (if quiet then VLL_DBG else VLL_INFO) (max_tries f) f.

Definition reconnect_get_name (f : reconnect) : string := name f.
Definition reconnect_set_name (f : reconnect) (nm : option string) : reconnect :=
  with_config (default "void"%string nm) (min_backoff f) (max_backoff f) (probe_interval f)
    (passive f) (info f) (max_tries f) f.

Definition reconnect_get_min_backoff (f : reconnect) : Z := min_backoff f.
Definition reconnect_get_max_backoff (f : reconnect) : Z := max_backoff f.
Definition reconnect_get_probe_interval (f : reconnect) : Z := probe_interval f.

Definition reconnect_set_max_tries (f : reconnect) (tries : Z) : reconnect :=
  with_config (name f) (min_backoff f) (max_backoff f) (probe_interval f) (passive f) (info f)
    tries f.
Definition reconnect_get_max_tries (f : reconnect) : Z := max_tries f.

Definition reconnect_set_backoff (f : reconnect) (mn mx : Z) : reconnect :=
  let fmin := Z.max mn 1000 in
  let fmax := if mx =? 0 then RECONNECT_DEFAULT_MAX_BACKOFF else Z.max mx 1000 in
  let fmax := if fmax <? fmin then fmin else fmax in
  let f := with_config (name f) fmin fmax (probe_interval f) (passive f) (info f) (max_tries f) f in
  if bool_decide (fsm_state f = S_BACKOFF) && (mx <? backoff f) then with_backoff mx f else f.

Definition reconnect_set_probe_interval (f : reconnect) (pr : Z) : reconnect :=
  with_config (name f) (min_backoff f) (max_backoff f) (if pr =? 0 then 0 else Z.max 1000 pr)
    (passive f) (info f) (max_tries f) f.

Definition reconnect_is_passive (f : reconnect) : bool := passive f.
Definition reconnect_is_enabled (f : reconnect) : bool := bool_decide (fsm_state f <> S_VOID).
Definition reconnect_is_connected (f : reconnect) : bool := is_connected_state (fsm_state f).

(** ** Transitions *)

Definition reconnect_transition__ (f : reconnect) (now : Z) (s : state) : reconnect :=
  let connecting := bool_decide (fsm_state f = S_CONNECTING) in
  let attempted := if connecting then u32 (n_attempted_connections f + 1)
                   else n_attempted_connections f in
  let successful := if connecting && bool_decide (s = S_ACTIVE)
                    then u32 (n_successful_connections f + 1)
                    else n_successful_connections f in
  let was := is_connected_state (fsm_state f) in
  let changes := negb (Bool.eqb was (is_connected_state s)) in
  let total := if changes && was
               then u32 (total_connected_duration f + (now - last_connected f))
               else total_connected_duration f in
  let sq := if changes then u32 (seqno f + 1) else seqno f in
  Mk_fsm (name f) (min_backoff f) (max_backoff f) (probe_interval f) (passive f) (info f)
    s now (backoff f) (last_activity f) (last_connected f) (last_disconnected f) (max_tries f)
    (creation_time f) attempted successful total sq.

(** The answer and the state with its tries counted down. *)
Definition reconnect_may_retry (f : reconnect) : bool * reconnect :=
  let may_retry := 0 <? max_tries f in
  (may_retry,
   if may_retry && negb (max_tries f =? UINT_MAX)
   then reconnect_set_max_tries f (max_tries f - 1) else f).

Definition reconnect_set_passive (f : reconnect) (ps : bool) (now : Z) : reconnect :=
  if Bool.eqb (passive f) ps then f
  else
    let f := with_config (name f) (min_backoff f) (max_backoff f) (probe_interval f) ps (info f)
               (max_tries f) f in
    let '(back_off, f) :=
      if ps then (in_states (fsm_state f) [S_CONNECTING; S_RECONNECT], f)
      else if bool_decide (fsm_state f = S_LISTENING) then reconnect_may_retry f
      else (false, f) in
    if back_off then with_backoff 0 (reconnect_transition__ f now S_BACKOFF) else f.

Definition reconnect_enable (f : reconnect) (now : Z) : reconnect :=
  if bool_decide (fsm_state f = S_VOID) then
    let '(may_retry, f) := reconnect_may_retry f in
    if may_retry then with_backoff 0 (reconnect_transition__ f now S_BACKOFF) else f
  else f.

Definition reconnect_disable (f : reconnect) (now : Z) : reconnect :=
  if bool_decide (fsm_state f = S_VOID) then f else reconnect_transition__ f now S_VOID.

Definition reconnect_force_reconnect (f : reconnect) (now : Z) : reconnect :=
  if in_states (fsm_state f) [S_CONNECTING; S_ACTIVE; S_IDLE]
  then reconnect_transition__ f now S_RECONNECT else f.

(** The backoff part of [reconnect_disconnected]; [/] on a non-negative
    [max_backoff]. *)
Definition next_backoff (f : reconnect) : Z :=
  if in_states (fsm_state f) [S_ACTIVE; S_IDLE]
     && ((backoff f <=? last_activity f - last_connected f) || passive f)
  then if passive f then 0 else min_backoff f
  else if backoff f <? min_backoff f then min_backoff f
  else if max_backoff f / 2 <=? backoff f then max_backoff f
  else backoff f * 2.

Definition reconnect_disconnected (f : reconnect) (now : Z) (error : Z) : reconnect :=
  if in_states (fsm_state f) [S_BACKOFF; S_VOID] then f
  else
    let f := if in_states (fsm_state f) [S_ACTIVE; S_IDLE]
             then with_times (last_activity f) (last_connected f) now f else f in
    let f := with_backoff (next_backoff f) f in
    let '(may_retry, f) := reconnect_may_retry f in
    reconnect_transition__ f now (if may_retry then S_BACKOFF else S_VOID).

Definition reconnect_connecting (f : reconnect) (now : Z) : reconnect :=
  if bool_decide (fsm_state f = S_CONNECTING) then f
  else reconnect_transition__ f now S_CONNECTING.

Definition reconnect_listening (f : reconnect) (now : Z) : reconnect :=
  if bool_decide (fsm_state f = S_LISTENING) then f
  else reconnect_transition__ f now S_LISTENING.

Definition reconnect_listen_error (f : reconnect) (now error : Z) : reconnect :=
  if bool_decide (fsm_state f = S_LISTENING) then reconnect_disconnected f now error else f.

Definition reconnect_connected (f : reconnect) (now : Z) : reconnect :=
  if is_connected_state (fsm_state f) then f
  else
    let f := reconnect_transition__ (reconnect_connecting f now) now S_ACTIVE in
    with_times (last_activity f) now (last_disconnected f) f.

Definition reconnect_connect_failed (f : reconnect) (now error : Z) : reconnect :=
  reconnect_disconnected (reconnect_connecting f now) now error.

Definition reconnect_activity (f : reconnect) (now : Z) : reconnect :=
  let f := if bool_decide (fsm_state f = S_ACTIVE) then f
           else reconnect_transition__ f now S_ACTIVE in
  with_times now (last_connected f) (last_disconnected f) f.

(** ** Timers *)

Definition reconnect_deadline__ (f : reconnect) : Res Z :=
  ovs_assert (negb (state_entered f =? LLONG_MIN)) ;;*
  Ok match fsm_state f with
     | S_VOID | S_LISTENING => LLONG_MAX
     | S_BACKOFF => state_entered f + backoff f
     | S_CONNECTING => state_entered f + Z.max 1000 (backoff f)
     | S_ACTIVE =>
         if probe_interval f =? 0 then LLONG_MAX
         else Z.max (last_activity f) (state_entered f) + probe_interval f
     | S_IDLE =>
         if probe_interval f =? 0 then LLONG_MAX
         else state_entered f + probe_interval f
     | S_RECONNECT => state_entered f
     end.

Definition reconnect_run (f : reconnect) (now : Z) : Res (reconnect_action * reconnect) :=
  let* deadline := reconnect_deadline__ f in
  if deadline <=? now then
    Ok match fsm_state f with
       | S_VOID => (RECONNECT_NONE, f)
       | S_BACKOFF => (RECONNECT_CONNECT, f)
       | S_CONNECTING => (RECONNECT_DISCONNECT, f)
       | S_ACTIVE => (RECONNECT_PROBE, reconnect_transition__ f now S_IDLE)
       | S_IDLE => (RECONNECT_DISCONNECT, f)
       | S_RECONNECT => (RECONNECT_DISCONNECT, f)
       | S_LISTENING => (RECONNECT_NONE, f)
       end
  else Ok (RECONNECT_NONE, f).

Definition reconnect_timeout (f : reconnect) (now : Z) : Res Z :=
  let* deadline := reconnect_deadline__ f in
  if deadline =? LLONG_MAX then Ok (-1)
  else Ok (Z.max 0 (Z.min INT_MAX (deadline - now))).

(** The argument [reconnect_wait] passes to [poll_timer_wait], if any. *)
Definition reconnect_wait (f : reconnect) (now : Z) : Res (option Z) :=
  let* timeout := reconnect_timeout f now in
  Ok (if 0 <=? timeout then Some timeout else None).

(** ** Statistics *)

Definition reconnect_get_last_connect_elapsed (f : reconnect) (now : Z) : Z :=
  if last_connected f =? LLONG_MAX then UINT_MAX else u32 (now - last_connected f).
Definition reconnect_get_last_disconnect_elapsed (f : reconnect) (now : Z) : Z :=
  if last_disconnected f =? LLONG_MAX then UINT_MAX else u32 (now - last_disconnected f).

Definition reconnect_state_name__ (s : state) : string :=
  match s with
  | S_VOID => "VOID" | S_BACKOFF => "BACKOFF" | S_CONNECTING => "CONNECTING"
  | S_ACTIVE => "ACTIVE" | S_IDLE => "IDLE" | S_RECONNECT => "RECONNECT"
  | S_LISTENING => "LISTENING"
  end%string.

Record reconnect_stats := Mk_stats {
  stats_creation_time : Z;
  stats_last_activity : Z;
  stats_last_connected : Z;
  stats_last_disconnected : Z;
  stats_backoff : Z;
  stats_seqno : Z;
  stats_is_connected : bool;
  msec_since_connect : Z;
  msec_since_disconnect : Z;
  stats_total_connected_duration : Z;
  stats_n_attempted_connections : Z;
  stats_n_successful_connections : Z;
  stats_state : string;
  state_elapsed : Z
}.

Definition reconnect_get_stats (f : reconnect) (now : Z) : reconnect_stats :=
  Mk_stats (creation_time f) (last_activity f) (last_connected f) (last_disconnected f)
    (backoff f) (seqno f) (reconnect_is_connected f)
    (reconnect_get_last_connect_elapsed f now) (reconnect_get_last_disconnect_elapsed f now)
    (u32 (total_connected_duration f
          + (if is_connected_state (fsm_state f)
             then reconnect_get_last_connect_elapsed f now else 0)))
    (n_attempted_connections f) (n_successful_connections f)
    (reconnect_state_name__ (fsm_state f)) (u32 (now - state_entered f)).

(** ** Invariant *)

Record fsm_inv (f : reconnect) : Prop := {
  inv_backoff_config : 1000 <= min_backoff f <= max_backoff f /\ max_backoff f <= INT_MAX;
  inv_probe : probe_interval f = 0 \/ 1000 <= probe_interval f <= INT_MAX;
  inv_backoff : 0 <= backoff f <= INT_MAX;
  inv_tries : in_u32 (max_tries f);
  inv_counters : in_u32 (n_attempted_connections f) /\ in_u32 (n_successful_connections f) /\
                 in_u32 (total_connected_duration f) /\ in_u32 (seqno f);
  inv_entered : state_entered f <> LLONG_MIN;
  (* the sequence number counts connections and disconnections *)
  inv_seqno : Z.odd (seqno f) = is_connected_state (fsm_state f)
}.

Lemma odd_u32 x : Z.odd (u32 x) = Z.odd x.
Proof. rewrite <- !Z.bit0_odd. apply Z.mod_pow2_bits_low. lia. Qed.

Lemma reconnect_create_inv now : now <> LLONG_MIN -> fsm_inv (reconnect_create now).
Proof.
  intros H. split; simpl; unfold in_u32, UINT_MAX, INT_MAX, RECONNECT_DEFAULT_MIN_BACKOFF,
    RECONNECT_DEFAULT_MAX_BACKOFF, RECONNECT_DEFAULT_PROBE_INTERVAL; try lia; done.
Qed.

Lemma transition_inv f now s : fsm_inv f -> now <> LLONG_MIN ->
  fsm_inv (reconnect_transition__ f now s).
Proof.
  intros [? ? ? ? (? & ? & ? & ?) ? Hodd] Hn. split; simpl; auto.
  - repeat split; repeat case_match; try apply u32_range; auto; try (by apply u32_range);
      unfold in_u32 in *; lia.
  - set (c := is_connected_state s). destruct (is_connected_state (fsm_state f)), c; simpl;
      rewrite ?odd_u32, ?Z.odd_add, Hodd; done.
Qed.

Lemma with_backoff_inv f b : fsm_inv f -> 0 <= b <= INT_MAX -> fsm_inv (with_backoff b f).
Proof. intros [] Hb. by split. Qed.

Lemma with_times_inv f a c d : fsm_inv f -> fsm_inv (with_times a c d f).
Proof. intros []. by split. Qed.

Lemma with_config_inv f nm mn mx pr ps inf t : fsm_inv f ->
  1000 <= mn <= mx /\ mx <= INT_MAX -> pr = 0 \/ 1000 <= pr <= INT_MAX -> in_u32 t ->
  fsm_inv (with_config nm mn mx pr ps inf t f).
Proof. intros [] ? ? ?. by split. Qed.

Lemma may_retry_inv f : fsm_inv f -> fsm_inv (reconnect_may_retry f).2.
Proof.
  intros H. unfold reconnect_may_retry. simpl. case_match eqn:E; [|done].
  apply andb_true_iff in E as [E _]. apply Z.ltb_lt in E.
  destruct (H) as [? ? ? ? ? ? ?]. apply with_config_inv; auto. unfold in_u32 in *. lia.
Qed.

Lemma next_backoff_range f : fsm_inv f ->
  next_backoff f = 0 /\ passive f = true \/
  min_backoff f <= next_backoff f <= max_backoff f.
Proof.
  intros [(? & ?) _ ? _ _ _ _]. unfold next_backoff.
  destruct (_ && _); [destruct (passive f); [by left|right; lia]|right].
  repeat case_bool; try lia. zdm.
Qed.

Lemma with_disconnected_time_inv f now : fsm_inv f ->
  fsm_inv (if in_states (fsm_state f) [S_ACTIVE; S_IDLE]
           then with_times (last_activity f) (last_connected f) now f else f).
Proof. intros H. case_match; [by apply with_times_inv|done]. Qed.

#[local] Hint Resolve transition_inv with_backoff_inv with_times_inv may_retry_inv : sdpa.

Lemma disconnected_inv f now e : fsm_inv f -> now <> LLONG_MIN ->
  fsm_inv (reconnect_disconnected f now e).
Proof.
  intros H Hn. unfold reconnect_disconnected. case_match; [done|].
  set (f1 := if in_states (fsm_state f) _ then _ else f).
  assert (H1 : fsm_inv f1) by by apply with_disconnected_time_inv.
  assert (H2 : fsm_inv (with_backoff (next_backoff f1) f1)).
  { apply with_backoff_inv; [done|]. pose proof (next_backoff_range f1 H1).
    destruct H1 as [? _ _ _ _ _ _]. unfold INT_MAX in *. lia. }
  apply may_retry_inv in H2. destruct (reconnect_may_retry _) as [r f2]. auto with sdpa.
Qed.

Lemma connecting_inv f now : fsm_inv f -> now <> LLONG_MIN -> fsm_inv (reconnect_connecting f now).
Proof. intros H Hn. unfold reconnect_connecting. case_match; auto with sdpa. Qed.

Lemma run_inv f now r f' : fsm_inv f -> now <> LLONG_MIN ->
  reconnect_run f now = Ok (r, f') -> fsm_inv f'.
Proof.
  intros H Hn E. unfold reconnect_run in E. apply rbind_Ok in E as (d & _ & E).
  case_match; [|by injection E as _ <-].
  destruct (fsm_state f); injection E as _ <-; auto with sdpa.
Qed.

(** ** Runs *)

Inductive fsm_event :=
  | SetQuiet (quiet : bool)
  | SetName (nm : option string)
  | SetMaxTries (tries : Z)
  | SetBackoff (mn mx : Z)
  | SetProbeInterval (pr : Z)
  | SetPassive (ps : bool)
  | Enable
  | Disable
  | ForceReconnect
  | Disconnected (error : Z)
  | Connecting
  | Listening
  | ListenError (error : Z)
  | Connected
  | ConnectFailed (error : Z)
  | Activity.

(** The arguments the header file allows. *)
Definition event_ok (e : fsm_event) : Prop :=
  match e with
  | SetMaxTries t => in_u32 t
  | SetBackoff mn mx => 0 <= mn <= INT_MAX /\ 0 <= mx <= INT_MAX
  | SetProbeInterval pr => 0 <= pr <= INT_MAX
  | _ => True
  end.

Definition apply_event (e : fsm_event) (now : Z) (f : reconnect) : reconnect :=
  match e with
  | SetQuiet q => reconnect_set_quiet f q
  | SetName nm => reconnect_set_name f nm
  | SetMaxTries t => reconnect_set_max_tries f t
  | SetBackoff mn mx => reconnect_set_backoff f mn mx
  | SetProbeInterval pr => reconnect_set_probe_interval f pr
  | SetPassive ps => reconnect_set_passive f ps now
  | Enable => reconnect_enable f now
  | Disable => reconnect_disable f now
  | ForceReconnect => reconnect_force_reconnect f now
  | Disconnected e => reconnect_disconnected f now e
  | Connecting => reconnect_connecting f now
  | Listening => reconnect_listening f now
  | ListenError e => reconnect_listen_error f now e
  | Connected => reconnect_connected f now
  | ConnectFailed e => reconnect_connect_failed f now e
  | Activity => reconnect_activity f now
  end.

Inductive fsm_step (f : reconnect) : reconnect -> Prop :=
  | step_event e now : event_ok e -> now <> LLONG_MIN -> fsm_step f (apply_event e now f)
  | step_run now r f' : now <> LLONG_MIN -> reconnect_run f now = Ok (r, f') -> fsm_step f f'.

Lemma set_backoff_inv f mn mx : fsm_inv f -> 0 <= mn <= INT_MAX -> 0 <= mx <= INT_MAX ->
  fsm_inv (reconnect_set_backoff f mn mx).
Proof.
  intros H Hmn Hmx. unfold reconnect_set_backoff.
  set (f' := with_config _ _ _ _ _ _ _ _).
  assert (fsm_inv f') as H'.
  { destruct (H) as [? ? ? ? ? ? ?]. apply with_config_inv; auto.
    unfold RECONNECT_DEFAULT_MAX_BACKOFF, INT_MAX in *.
    repeat case_bool; lia. }
  case_match; [|done]. by apply with_backoff_inv.
Qed.

Lemma set_passive_inv f ps now : fsm_inv f -> now <> LLONG_MIN ->
  fsm_inv (reconnect_set_passive f ps now).
Proof.
  intros H Hn. unfold reconnect_set_passive. case_match; [done|].
  set (f' := with_config _ _ _ _ _ _ _ _).
  assert (fsm_inv f') as H' by (destruct (H); by apply with_config_inv).
  assert (Hb : forall g, fsm_inv g -> fsm_inv (with_backoff 0 (reconnect_transition__ g now S_BACKOFF))).
  { intros g Hg. apply with_backoff_inv; [auto with sdpa|]. unfold INT_MAX. lia. }
  destruct ps; [destruct (in_states (fsm_state f') _); auto|].
  destruct (bool_decide (fsm_state f' = S_LISTENING)); [|done].
  apply may_retry_inv in H'. destruct (reconnect_may_retry f') as [[] g]; auto.
Qed.

Lemma enable_inv f now : fsm_inv f -> now <> LLONG_MIN -> fsm_inv (reconnect_enable f now).
Proof.
  intros H Hn. unfold reconnect_enable. case_match; [|done].
  apply may_retry_inv in H. destruct (reconnect_may_retry f) as [[] g]; [|done].
  apply with_backoff_inv; [auto with sdpa|]. unfold INT_MAX. lia.
Qed.

Lemma apply_event_inv e now f : fsm_inv f -> event_ok e -> now <> LLONG_MIN ->
  fsm_inv (apply_event e now f).
Proof.
  intros H He Hn. destruct (H) as [Hb Hp ? Ht ? ? ?]. destruct e; simpl in *;
    try (by apply with_config_inv).
  - destruct He. by apply set_backoff_inv.
  - apply with_config_inv; auto. unfold INT_MAX in *. case_bool; lia.
  - by apply set_passive_inv.
  - by apply enable_inv.
  - unfold reconnect_disable. case_match; auto with sdpa.
  - unfold reconnect_force_reconnect. case_match; auto with sdpa.
  - by apply disconnected_inv.
  - by apply connecting_inv.
  - unfold reconnect_listening. case_match; auto with sdpa.
  - unfold reconnect_listen_error. case_match; [by apply disconnected_inv|done].
  - unfold reconnect_connected. case_match; [done|].
    apply with_times_inv, transition_inv; [|done]. by apply connecting_inv.
  - apply disconnected_inv; [|done]. by apply connecting_inv.
  - unfold reconnect_activity. apply with_times_inv. case_match; auto with sdpa.
Qed.

Lemma fsm_step_inv f f' : fsm_inv f -> fsm_step f f' -> fsm_inv f'.
Proof. intros H [e now He Hn|now r f1 Hn E]; [by apply apply_event_inv|by eapply run_inv]. Qed.

(** ** Consecutive failures *)

Definition fail_all (f : reconnect) (l : list (Z * Z)) : reconnect :=
  fold_left (fun f '(now, error) => reconnect_connect_failed f now error) l f.

(** The backoff after a failed attempt. *)
Definition bump (mn mx b : Z) : Z :=
  if b <? mn then mn else if mx / 2 <=? b then mx else b * 2.

Lemma connecting_state f now : fsm_state (reconnect_connecting f now) = S_CONNECTING.
Proof. unfold reconnect_connecting. by case_bool_decide. Qed.

Lemma connecting_keeps f now :
  min_backoff (reconnect_connecting f now) = min_backoff f /\
  max_backoff (reconnect_connecting f now) = max_backoff f /\
  backoff (reconnect_connecting f now) = backoff f /\
  max_tries (reconnect_connecting f now) = max_tries f.
Proof. unfold reconnect_connecting. by case_bool_decide. Qed.

Lemma connect_failed_spec f now e :
  let f' := reconnect_connect_failed f now e in
  min_backoff f' = min_backoff f /\ max_backoff f' = max_backoff f /\
  backoff f' = bump (min_backoff f) (max_backoff f) (backoff f) /\
  max_tries f' = (if (0 <? max_tries f) && negb (max_tries f =? UINT_MAX)
                  then max_tries f - 1 else max_tries f) /\
  fsm_state f' = (if 0 <? max_tries f then S_BACKOFF else S_VOID).
Proof.
  unfold reconnect_connect_failed. destruct (connecting_keeps f now) as (Hmn & Hmx & Hb & Ht).
  pose proof (connecting_state f now) as Hs. revert Hmn Hmx Hb Ht Hs.
  generalize (reconnect_connecting f now). intros g <- <- <- <- Hs.
  assert (Hn : next_backoff g = bump (min_backoff g) (max_backoff g) (backoff g))
    by (unfold next_backoff; by rewrite Hs).
  unfold reconnect_disconnected. rewrite Hs.
  change (in_states S_CONNECTING _) with false. cbv iota zeta. rewrite Hn.
  unfold reconnect_may_retry. cbn [max_tries with_backoff].
  destruct (0 <? max_tries g), (max_tries g =? UINT_MAX); done.
Qed.

Lemma bump_range mn mx b : 0 <= mn <= mx -> 0 <= b ->
  mn <= bump mn mx b <= mx /\ (forall c, mn <= c -> Z.min mx c <= b -> Z.min mx (2 * c) <= bump mn mx b).
Proof. intros H Hb. unfold bump. repeat case_bool; split; try intros c Hm Hc; zdm. Qed.

(** Doubling: [k] failures ago the backoff was at least [c]. *)
Lemma fail_all_backoff l : forall f c, 0 <= min_backoff f <= max_backoff f -> min_backoff f <= c ->
  Z.min (max_backoff f) c <= backoff f <= max_backoff f ->
  Z.min (max_backoff f) (c * 2 ^ Z.of_nat (length l)) <= backoff (fail_all f l) <= max_backoff f.
Proof.
  induction l as [|[now e] l IH]; intros f c Hc Hm Hb; cbn [fail_all fold_left length].
  { rewrite Z.mul_1_r. done. }
  destruct (connect_failed_spec f now e) as (Hmn & Hmx & Hbb & _ & _).
  destruct (bump_range (min_backoff f) (max_backoff f) (backoff f)) as [Hr Hg]; [lia..|].
  rewrite Nat2Z.inj_succ, Z.pow_succ_r, Z.mul_assoc, (Z.mul_comm c 2) by lia.
  rewrite <- Hmx. apply IH; rewrite ?Hmn, ?Hmx, ?Hbb; try lia. split; [apply Hg|]; lia.
Qed.

(** ** Properties *)

(** C39. In every state reachable from [reconnect_create] by client calls and by
    [reconnect_run], the configured and current backoffs are in range, the
    counters fit their type, and the sequence number is odd exactly when the
    machine believes it is connected. *)
Theorem reconnect_reachable_inv now f : now <> LLONG_MIN ->
  rtc fsm_step (reconnect_create now) f -> fsm_inv f.
Proof.
  intros Hn Hr. revert f Hr. apply rtc_ind_r.
  - by apply reconnect_create_inv.
  - intros f f' _ Hst Hi. by eapply fsm_step_inv.
Qed.

Lemma reconnect_reachable_inv_witness :
  fsm_inv (apply_event Connected 20 (apply_event Enable 10 (reconnect_create 5))).
Proof.
  apply (reconnect_reachable_inv 5); [done|].
  eapply rtc_l; [by apply (step_event _ Enable 10)|].
  eapply rtc_l; [by apply (step_event _ Connected 20)|]. apply rtc_refl.
Defined.

(** A disconnection outside [S_BACKOFF] and [S_VOID] starts a backoff of 0
    in passive mode after a usable connection, and otherwise of a length between
    the configured bounds; it counts one try, and disables the machine when
    none is left. *)
Theorem reconnect_disconnected_spec f now e : fsm_inv f ->
  fsm_state f <> S_BACKOFF -> fsm_state f <> S_VOID ->
  let f' := reconnect_disconnected f now e in
  (backoff f' = 0 /\ passive f = true \/ min_backoff f <= backoff f' <= max_backoff f) /\
  fsm_state f' = (if 0 <? max_tries f then S_BACKOFF else S_VOID) /\
  state_entered f' = now /\
  max_tries f' = (if (0 <? max_tries f) && negb (max_tries f =? UINT_MAX)
                  then max_tries f - 1 else max_tries f).
Proof.
  intros Hi Hb Hv. unfold reconnect_disconnected.
  replace (in_states (fsm_state f) [S_BACKOFF; S_VOID]) with false by (by destruct (fsm_state f)).
  set (f1 := if in_states (fsm_state f) _ then _ else f).
  assert (H1 : fsm_inv f1) by by apply with_disconnected_time_inv.
  assert (min_backoff f1 = min_backoff f /\ max_backoff f1 = max_backoff f /\
          passive f1 = passive f /\ max_tries f1 = max_tries f) as (<- & <- & <- & <-)
    by (unfold f1; by case_match).
  pose proof (next_backoff_range f1 H1) as Hr. unfold reconnect_may_retry.
  cbn [max_tries with_backoff].
  destruct (0 <? max_tries f1), (max_tries f1 =? UINT_MAX); simpl; auto.
Qed.

Lemma reconnect_disconnected_spec_witness :
  fsm_state (reconnect_disconnected (reconnect_connected (reconnect_create 5) 10) 20 0) = S_BACKOFF.
Proof.
  assert (H : fsm_inv (reconnect_connected (reconnect_create 5) 10)).
  { apply (apply_event_inv Connected 10); [by apply reconnect_create_inv|done|done]. }
  apply (reconnect_disconnected_spec _ 20 0 H); done.
Defined.

(** After [n] consecutive failed attempts the backoff is at least
    [min_backoff * 2 ^ (n - 1)] until it reaches [max_backoff], and never
    exceeds [max_backoff]. *)
Theorem reconnect_backoff_doubles f now e l : fsm_inv f ->
  Z.min (max_backoff f) (min_backoff f * 2 ^ Z.of_nat (length l))
  <= backoff (fail_all f ((now, e) :: l)) <= max_backoff f.
Proof.
  intros Hi. destruct Hi as [[Hc _] _ [Hb _] _ _ _ _].
  destruct (connect_failed_spec f now e) as (Hmn & Hmx & Hbb & _ & _).
  destruct (bump_range (min_backoff f) (max_backoff f) (backoff f)) as [Hr _]; [lia..|].
  cbn [fail_all fold_left]. fold (fail_all (reconnect_connect_failed f now e) l).
  rewrite <- Hmx. apply fail_all_backoff; lia.
Qed.

Lemma reconnect_backoff_doubles_witness :
  4000 <= backoff (fail_all (reconnect_create 5) [(10, 111); (20, 111); (30, 111)]) <= 8000.
Proof.
  apply (reconnect_backoff_doubles (reconnect_create 5) 10 111 [(20, 111); (30, 111)]).
  by apply reconnect_create_inv.
Defined.

(** With [max_tries] limited to [n], [n] consecutive failures leave the
    machine backing off and one more disables it. *)
Theorem reconnect_max_tries l : forall f, 0 <= max_tries f < UINT_MAX -> l <> [] ->
  fsm_state (fail_all f l)
  = if Z.of_nat (length l) <=? max_tries f then S_BACKOFF else S_VOID.
Proof.
  induction l as [|[now e] l IH]; intros f Ht Hl; [done|]. cbn [fail_all fold_left length].
  destruct (connect_failed_spec f now e) as (_ & _ & _ & Ht' & Hs).
  set (f' := reconnect_connect_failed f now e) in *.
  destruct (Z.eqb_spec (max_tries f) UINT_MAX); [lia|]. rewrite andb_true_r in Ht'.
  destruct l as [|x l].
  - simpl. rewrite Hs. repeat case_bool; try done; lia.
  - fold (fail_all f' (x :: l)). rewrite IH; [|rewrite Ht'; case_bool; lia|done].
    rewrite Ht'. cbn [length]. destruct (Z.ltb_spec 0 (max_tries f)); repeat case_bool; try done; lia.
Qed.

Lemma reconnect_max_tries_witness :
  fsm_state (fail_all (reconnect_set_max_tries (reconnect_create 5) 2)
    [(10, 111); (20, 111); (30, 111)]) = S_VOID.
Proof.
  rewrite (reconnect_max_tries [(10, 111); (20, 111); (30, 111)]
    (reconnect_set_max_tries (reconnect_create 5) 2));
    [reflexivity|by vm_compute|done].
Defined.

(** [reconnect_timeout] is exact: while it says nothing is due,
    [reconnect_run] does nothing, and when it expires [reconnect_run] asks for
    an action; -1 means that [reconnect_run] will never ask for one. *)
Theorem reconnect_timeout_exact f now t : reconnect_timeout f now = Ok t ->
  (t = -1 /\ (forall now', now' < LLONG_MAX -> reconnect_run f now' = Ok (RECONNECT_NONE, f))) \/
  (0 <= t <= INT_MAX /\
   (forall now', now <= now' < now + t -> reconnect_run f now' = Ok (RECONNECT_NONE, f)) /\
   (t < INT_MAX -> exists a f', reconnect_run f (now + t) = Ok (a, f') /\ a <> RECONNECT_NONE)).
Proof.
  intros H. unfold reconnect_timeout in H. apply rbind_Ok in H as (d & Hd & H).
  unfold reconnect_run. rewrite Hd. cbn [rbind].
  destruct (Z.eqb_spec d LLONG_MAX) as [->|Hne]; injection H as <-.
  - left. split; [done|]. intros now' Hn.
    destruct (Z.leb_spec LLONG_MAX now'); [lia|done].
  - right. unfold INT_MAX. split; [lia|]. split.
    + intros now' Hn. destruct (Z.leb_spec d now'); [lia|done].
    + intros Ht. destruct (Z.leb_spec d (now + Z.max 0 (Z.min (2 ^ 31 - 1) (d - now)))); [|lia].
      unfold reconnect_deadline__ in Hd. apply rbind_Ok in Hd as (? & _ & [= Hd]).
      destruct (fsm_state f); try congruence; eauto.
Qed.

Lemma reconnect_timeout_exact_witness :
  reconnect_run (reconnect_connected (reconnect_create 5) 15) 5014
  = Ok (RECONNECT_NONE, reconnect_connected (reconnect_create 5) 15).
Proof.
  destruct (reconnect_timeout_exact (reconnect_connected (reconnect_create 5) 15) 15 5000)
    as [[H _]|(_ & H & _)]; [reflexivity|discriminate H|apply H; lia].
Defined.

(** C40. An idle connection is probed after one probe interval without activity
    and given up after a second one; activity in between returns it to the
    active state. *)
Theorem reconnect_probe_protocol f t1 : fsm_inv f -> fsm_state f = S_ACTIVE ->
  probe_interval f <> 0 -> t1 <> LLONG_MIN ->
  Z.max (last_activity f) (state_entered f) + probe_interval f <= t1 ->
  exists f1, reconnect_run f t1 = Ok (RECONNECT_PROBE, f1) /\ fsm_state f1 = S_IDLE /\
    seqno f1 = seqno f /\
    (forall t, t < t1 + probe_interval f -> reconnect_run f1 t = Ok (RECONNECT_NONE, f1)) /\
    (forall t, t1 + probe_interval f <= t -> reconnect_run f1 t = Ok (RECONNECT_DISCONNECT, f1)) /\
    (forall t, let f2 := reconnect_activity f1 t in fsm_state f2 = S_ACTIVE /\
       seqno f2 = seqno f /\ last_activity f2 = t).
Proof.
  intros Hi Hs Hp Ht1 Hd.
  assert (He : ovs_assert (negb (state_entered f =? LLONG_MIN)) = Ok tt).
  { destruct (Z.eqb_spec (state_entered f) LLONG_MIN) as [E|E]; [|done].
    by destruct (inv_entered f Hi). }
  set (f1 := reconnect_transition__ f t1 S_IDLE).
  assert (Hd1 : reconnect_deadline__ f1 = Ok (t1 + probe_interval f)).
  { unfold reconnect_deadline__. simpl.
    destruct (Z.eqb_spec t1 LLONG_MIN); [done|]. simpl.
    by destruct (Z.eqb_spec (probe_interval f) 0). }
  exists f1. split; [|split; [done|split; [|split; [|split]]]].
  - unfold reconnect_run, reconnect_deadline__. rewrite He, Hs. cbn [rbind].
    destruct (Z.eqb_spec (probe_interval f) 0); [done|].
    by destruct (Z.leb_spec (Z.max (last_activity f) (state_entered f) + probe_interval f) t1); [|lia].
  - unfold f1, reconnect_transition__. rewrite Hs. done.
  - intros t Ht. unfold reconnect_run. rewrite Hd1. cbn [rbind].
    by destruct (Z.leb_spec (t1 + probe_interval f) t); [lia|].
  - intros t Ht. unfold reconnect_run. rewrite Hd1. cbn [rbind].
    by destruct (Z.leb_spec (t1 + probe_interval f) t); [|lia].
  - intros t. unfold reconnect_activity, f1, reconnect_transition__. rewrite Hs. done.
Qed.

Lemma reconnect_probe_protocol_witness :
  exists f1, reconnect_run (reconnect_connected (reconnect_create 5) 15) 5015
             = Ok (RECONNECT_PROBE, f1) /\ fsm_state f1 = S_IDLE.
Proof.
  assert (H : fsm_inv (reconnect_connected (reconnect_create 5) 15)).
  { apply (apply_event_inv Connected 15); [by apply reconnect_create_inv|done|done]. }
  destruct (reconnect_probe_protocol _ 5015 H) as (f1 & Hr & Hs & _);
    [reflexivity|discriminate|discriminate|vm_compute; discriminate|].
  by exists f1.
Defined.

(** As long as the clock leaves room for an [int] below [LLONG_MAX], the
    deadline computation does not overflow. *)
Theorem reconnect_deadline_fits f : fsm_inv f ->
  LLONG_MIN < state_entered f <= LLONG_MAX - INT_MAX ->
  LLONG_MIN <= last_activity f <= LLONG_MAX - INT_MAX ->
  exists d, reconnect_deadline__ f = Ok d /\ LLONG_MIN < d <= LLONG_MAX.
Proof.
  intros [[? ?] Hp ? _ _ _ _] He Ha. unfold reconnect_deadline__.
  destruct (Z.eqb_spec (state_entered f) LLONG_MIN); [lia|]. cbn [negb ovs_assert rbind].
  eexists. split; [reflexivity|]. unfold LLONG_MIN, LLONG_MAX, INT_MAX in *.
  destruct (fsm_state f); try case_bool; lia.
Qed.

Lemma reconnect_deadline_fits_witness :
  exists d, reconnect_deadline__ (reconnect_create 5) = Ok d /\ LLONG_MIN < d <= LLONG_MAX.
Proof.
  apply (reconnect_deadline_fits (reconnect_create 5)); [by apply reconnect_create_inv|..];
    vm_compute; split; congruence.
Defined.

(** Asking [reconnect_set_backoff] for the default maximum (0) while backing
    off cancels the current backoff altogether: the machine asks to connect at
    once, although the default maximum is 8 seconds. *)
Theorem reconnect_set_backoff_zero_max f mn : fsm_inv f -> fsm_state f = S_BACKOFF ->
  0 < backoff f -> mn <= RECONNECT_DEFAULT_MAX_BACKOFF ->
  let f' := reconnect_set_backoff f mn 0 in
  max_backoff f' = RECONNECT_DEFAULT_MAX_BACKOFF /\ backoff f' = 0 /\
  reconnect_run f' (state_entered f') = Ok (RECONNECT_CONNECT, f').
Proof.
  unfold RECONNECT_DEFAULT_MAX_BACKOFF. intros Hi Hs Hb Hmn. unfold reconnect_set_backoff.
  cbn [Z.eqb fsm_state with_config backoff]. rewrite Hs, bool_decide_true by done.
  destruct (Z.ltb_spec 0 (backoff f)); [|lia]. cbn [andb].
  split; [|split; [done|]].
  - simpl. unfold RECONNECT_DEFAULT_MAX_BACKOFF. case_bool; lia.
  - unfold reconnect_run, reconnect_deadline__. simpl. rewrite Hs.
    destruct (Z.eqb_spec (state_entered f) LLONG_MIN) as [E|_]; [by destruct (inv_entered f Hi)|].
    cbn [negb ovs_assert rbind]. by destruct (Z.leb_spec (state_entered f + 0) (state_entered f)); [|lia].
Qed.

Lemma reconnect_set_backoff_zero_max_witness :
  backoff (reconnect_set_backoff (reconnect_connect_failed (reconnect_create 5) 10 111) 0 0) = 0.
Proof.
  assert (H : fsm_inv (reconnect_connect_failed (reconnect_create 5) 10 111)).
  { apply (apply_event_inv (ConnectFailed 111) 10); [by apply reconnect_create_inv|done|done]. }
  apply (reconnect_set_backoff_zero_max _ 0 H); vm_compute; congruence.
Defined.
