(* ===== verification/Heap.v ===== *)
(** * Priority queues ([lib/heap.c], [lib/heap.h])

    A binary max-heap of nodes embedded in other objects: each node stores its
    own index, so that it can be removed or moved.  The nodes live in a memory
    [nat -> heap_node]; the array holds their addresses in elements 1 to [n]. *)

From Stdlib Require Import ZArith Lia List ZifyNat Sorted.
From stdpp Require Import base list option sets.
From S2P Require Import Prelude.
#[local] Open Scope res_scope.
#[local] Open Scope nat_scope.

(** ** Data *)

Record heap_node := Mk_hnode { idx : nat; priority : Z }.

(** The memory of nodes. *)
Definition nodes : Type := nat -> heap_node.

Definition upd (m : nodes) (p : nat) (v : heap_node) : nodes :=
  fun q => if decide (q = p) then v else m q.

Record heap := Mk_heap {
  array : list (option nat);
  n : nat;
  allocated : nat
}.

Definition heap_init : heap := Mk_heap [] 0 0.
Definition heap_clear (h : heap) : heap := Mk_heap (array h) 0 (allocated h).
Definition heap_swap (a b : heap) : heap * heap := (b, a).

Definition heap_parent__ (i : nat) : nat := i / 2.
Definition heap_left__ (i : nat) : nat := i * 2.
Definition heap_right__ (i : nat) : nat := i * 2 + 1.
Definition heap_is_leaf__ (h : heap) (i : nat) : bool := n h <? heap_left__ i.
Definition heap_count (h : heap) : nat := n h.
Definition heap_is_empty (h : heap) : bool := n h =? 0.

(** [heap->array[i]] *)
Definition elt (h : heap) (i : nat) : Res nat :=
  match array h !! i with
  | Some (Some p) => Ok p
  | Some None => Fault UninitRead
  | None => Fault OutOfBounds
  end.

(** [heap->array[i]->priority] *)
Definition elt_priority (m : nodes) (h : heap) (i : nat) : Res Z :=
  let* p := elt h i in Ok (priority (m p)).

Definition put_node (m : nodes) (h : heap) (p : nat) (i : nat) : Res (nodes * heap) :=
  if i <? length (array h)
  then Ok (upd m p (Mk_hnode i (priority (m p))),
           Mk_heap (<[i := Some p]> (array h)) (n h) (allocated h))
  else Fault OutOfBounds.

Definition swap_nodes (m : nodes) (h : heap) (i j : nat) : Res (nodes * heap) :=
  let* old_i := elt h i in
  let* old_j := elt h j in
  let* (m, h) := put_node m h old_j i in
  put_node m h old_i j.

(** The loops halve or double the index, so [i], respectively [n], steps are
    enough. *)
Fixpoint float_up (fuel : nat) (m : nodes) (h : heap) (i : nat) (moved : bool)
  : Res (bool * nodes * heap) :=
  match fuel with
  | O => Ok (moved, m, h)
  | S fuel =>
      if 1 <? i then
        let parent := heap_parent__ i in
        let* pp := elt_priority m h parent in
        let* pi := elt_priority m h i in
        if (pi <=? pp)%Z then Ok (moved, m, h)
        else
          let* (m, h) := swap_nodes m h parent i in
          float_up fuel m h parent true
      else Ok (moved, m, h)
  end.

Fixpoint float_down (fuel : nat) (m : nodes) (h : heap) (i : nat) : Res (nodes * heap) :=
  match fuel with
  | O => Ok (m, h)
  | S fuel =>
      if heap_is_leaf__ h i then Ok (m, h)
      else
        let lft := heap_left__ i in
        let rgt := heap_right__ i in
        let* pl := elt_priority m h lft in
        let* pi := elt_priority m h i in
        let max := if (pi <? pl)%Z then lft else i in
        let* max :=
          (if rgt <=? n h then
             let* pr := elt_priority m h rgt in
             let* pm := elt_priority m h max in
             Ok (if (pm <? pr)%Z then rgt else max)
           else Ok max) in
        if max =? i then Ok (m, h)
        else
          let* (m, h) := swap_nodes m h max i in
          float_down fuel m h max
  end.

Definition float_up_or_down (m : nodes) (h : heap) (i : nat) : Res (nodes * heap) :=
  let* (moved, m, h) := float_up i m h i false in
  if moved then Ok (m, h) else float_down (n h) m h i.

(** [xrealloc] keeps the old elements and leaves the new ones unwritten. *)
Definition xrealloc (a : list (option nat)) (size : nat) : list (option nat) :=
  take size a ++ replicate (size - length a) None.

Definition heap_raw_insert (m : nodes) (h : heap) (p : nat) (prio : Z) : Res (nodes * heap) :=
  let h :=
    if allocated h <=? n h
    then let a := if n h =? 0 then 1 else 2 * n h in
         Mk_heap (xrealloc (array h) (a + 1)) (n h) a
    else h in
  let h := Mk_heap (array h) (S (n h)) (allocated h) in
  let* (m, h) := put_node m h p (n h) in
  Ok (upd m p (Mk_hnode (idx (m p)) prio), h).

Definition heap_insert (m : nodes) (h : heap) (p : nat) (prio : Z) : Res (nodes * heap) :=
  let* (m, h) := heap_raw_insert m h p prio in
  let* (_, m, h) := float_up (idx (m p)) m h (idx (m p)) false in
  Ok (m, h).

Definition heap_raw_remove (m : nodes) (h : heap) (p : nat) : Res (nodes * heap) :=
  let i := idx (m p) in
  let* (m, h) :=
    (if i <? n h then let* last := elt h (n h) in put_node m h last i else Ok (m, h)) in
  Ok (m, Mk_heap (array h) (n h - 1) (allocated h)).

Definition heap_remove (m : nodes) (h : heap) (p : nat) : Res (nodes * heap) :=
  let i := idx (m p) in
  let* (m, h) := heap_raw_remove m h p in
  if i <=? n h then float_up_or_down m h i else Ok (m, h).

Definition heap_raw_change (m : nodes) (p : nat) (prio : Z) : nodes :=
  upd m p (Mk_hnode (idx (m p)) prio).

Definition heap_change (m : nodes) (h : heap) (p : nat) (prio : Z) : Res (nodes * heap) :=
  let m := heap_raw_change m p prio in
  float_up_or_down m h (idx (m p)).

(** The loop from [i] down to 1. *)
Fixpoint rebuild_loop (m : nodes) (h : heap) (i : nat) : Res (nodes * heap) :=
  match i with
  | O => Ok (m, h)
  | S i' => let* (m, h) := float_down (n h) m h i in rebuild_loop m h i'
  end.

Definition heap_rebuild (m : nodes) (h : heap) : Res (nodes * heap) := rebuild_loop m h (n h / 2).

Definition heap_max (h : heap) : Res nat := elt h 1.

Definition heap_pop (h : heap) : Res (nat * heap) :=
  let* p := elt h (n h) in Ok (p, Mk_heap (array h) (n h - 1) (allocated h)).

(** [HEAP_FOR_EACH]: the nodes visited. *)
Fixpoint walk (fuel : nat) (m : nodes) (h : heap) (p : nat) : Res (list nat) :=
  match fuel with
  | O => Ok [p]
  | S fuel =>
      if idx (m p) <? n h
      then let* q := elt h (idx (m p) + 1) in
           let* l := walk fuel m h q in Ok (p :: l)
      else Ok [p]
  end.

Definition heap_for_each (m : nodes) (h : heap) : Res (list nat) :=
  if 0 <? n h then let* p := elt h 1 in walk (n h) m h p else Ok [].

(** ** Well-formed heaps *)

Record heap_wf (m : nodes) (h : heap) : Prop := {
  wf_size : allocated h = 0 /\ array h = [] \/ length (array h) = allocated h + 1;
  wf_fits : n h <= allocated h;
  wf_elt : forall i, 1 <= i <= n h -> exists p, array h !! i = Some (Some p) /\ idx (m p) = i
}.

Definition in_heap (h : heap) (p : nat) : Prop :=
  exists i, 1 <= i <= n h /\ array h !! i = Some (Some p).

(** The priority stored at an index. *)
Definition key (m : nodes) (h : heap) (i : nat) : Z :=
  match array h !! i with Some (Some p) => priority (m p) | _ => 0%Z end.

Definition ordered (n : nat) (k : nat -> Z) : Prop :=
  forall i, 2 <= i <= n -> (k i <= k (i / 2)%nat)%Z.

Definition heap_ok (m : nodes) (h : heap) : Prop := heap_wf m h /\ ordered (n h) (key m h).

(** What moving nodes around does not change. *)
Definition same_nodes (m : nodes) (h : heap) (m' : nodes) (h' : heap) : Prop :=
  n h' = n h /\ allocated h' = allocated h /\
  (forall p, priority (m' p) = priority (m p)) /\
  (forall p, in_heap h' p <-> in_heap h p).

Lemma same_nodes_refl m h : same_nodes m h m h.
Proof. done. Qed.

Lemma same_nodes_trans m h m1 h1 m2 h2 :
  same_nodes m h m1 h1 -> same_nodes m1 h1 m2 h2 -> same_nodes m h m2 h2.
Proof.
  intros (A & B & C & D) (A' & B' & C' & D'). split; [congruence|]. split; [congruence|].
  split; [intros p; congruence|]. intros p. by rewrite D'.
Qed.

(** ** Array accesses *)

Lemma elt_ok m h i : heap_wf m h -> 1 <= i <= n h ->
  exists p, elt h i = Ok p /\ array h !! i = Some (Some p) /\ idx (m p) = i /\
    key m h i = priority (m p).
Proof.
  intros Hw Hi. destruct (wf_elt m h Hw i Hi) as (p & E & Hp). exists p.
  unfold elt, key. by rewrite E.
Qed.

Lemma elt_priority_ok m h i : heap_wf m h -> 1 <= i <= n h ->
  elt_priority m h i = Ok (key m h i).
Proof.
  intros Hw Hi. destruct (elt_ok m h i Hw Hi) as (p & E & _ & _ & ->).
  unfold elt_priority. by rewrite E.
Qed.

Lemma wf_length m h : heap_wf m h -> 1 <= n h -> n h < length (array h).
Proof. intros [[[? ?]|?] ? _] Hn; lia. Qed.

Definition swapped (k : nat -> Z) (i j : nat) : nat -> Z :=
  fun x => if decide (x = i) then k j else if decide (x = j) then k i else k x.

Lemma swap_nodes_ok m h i j : heap_wf m h -> 1 <= i <= n h -> 1 <= j <= n h -> i <> j ->
  exists m' h', swap_nodes m h i j = Ok (m', h') /\ heap_wf m' h' /\ same_nodes m h m' h' /\
    forall x, 1 <= x <= n h -> key m' h' x = swapped (key m h) i j x.
Proof.
  intros Hw Hi Hj Hij. pose proof (wf_length m h Hw ltac:(lia)) as Hl.
  destruct (elt_ok m h i Hw Hi) as (pi & Ei & Ai & Ii & Ki).
  destruct (elt_ok m h j Hw Hj) as (pj & Ej & Aj & Ij & Kj).
  assert (Hp : pi <> pj) by congruence.
  unfold swap_nodes. rewrite Ei, Ej. cbn [rbind]. unfold put_node at 1.
  destruct (Nat.ltb_spec i (length (array h))); [|lia]. cbn [rbind]. unfold put_node.
  cbn [array n allocated]. rewrite length_insert.
  destruct (Nat.ltb_spec j (length (array h))); [|lia].
  eexists _, _. split; [reflexivity|].
  set (m' := upd _ pi _). set (a' := <[j := Some pi]> (<[i := Some pj]> (array h))).
  assert (La : forall x, a' !! x = if decide (x = j) then Some (Some pi)
                         else if decide (x = i) then Some (Some pj) else array h !! x).
  { intros x. unfold a'. case_decide as E1; [subst; by rewrite list_lookup_insert_eq by (rewrite length_insert; lia)|].
    rewrite list_lookup_insert_ne by done. case_decide as E2;
      [subst; by rewrite list_lookup_insert_eq by lia|by rewrite list_lookup_insert_ne]. }
  assert (Hprio : forall p, priority (m' p) = priority (m p)).
  { intros p. unfold m', upd. repeat case_decide; simpl; congruence. }
  split; [|split; [split; [done|split; [done|split; [done|]]]|]].
  - split; cbn [array n allocated].
    + destruct (wf_size m h Hw) as [[? E]|E]; [rewrite E in Hl; simpl in Hl; lia|right].
      unfold a'. by rewrite !length_insert.
    + apply (wf_fits m h Hw).
    + intros x Hx. rewrite La. case_decide as E1; [|case_decide as E2].
      * exists pi. split; [done|]. unfold m', upd. by rewrite decide_True.
      * exists pj. split; [done|]. unfold m', upd. rewrite decide_False, decide_True by done. done.
      * destruct (wf_elt m h Hw x Hx) as (p & E & Hpx). exists p. split; [done|].
        unfold m', upd. rewrite !decide_False by congruence. done.
  - intros p. unfold in_heap. cbn [array n]. split; intros (x & Hx & E).
    + rewrite La in E. repeat case_decide; simplify_eq; eauto.
    + destruct (decide (p = pi)) as [->|]; [exists j; rewrite La, decide_True; auto|].
      destruct (decide (p = pj)) as [->|]; [exists i; rewrite La, decide_False, decide_True; auto|].
      exists x. split; [done|]. rewrite La, !decide_False by congruence. done.
  - intros x Hx. unfold key, swapped. cbn [array]. rewrite La.
    repeat case_decide; simplify_eq; rewrite ?Hprio; rewrite ?Ai, ?Aj; try done.
    case_match; [|done]. case_match; [|done]. by rewrite Hprio.
Qed.

(** ** Moving one element into place *)

(** Division by two. *)
Ltac half := zify; Z.div_mod_to_equations; lia.

(** The heap order below index [lo] holds except around index [i]. *)
Record gap (n : nat) (k : nat -> Z) (i lo : nat) : Prop := {
  gap_rest : forall j, 2 <= j <= n -> lo <= j / 2 -> j <> i -> j / 2 <> i ->
             (k j <= k (j / 2)%nat)%Z;
  gap_over : forall j, 2 <= j <= n -> j / 2 = i -> lo <= i / 2 -> (k j <= k (i / 2)%nat)%Z
}.

Definition above_ok (k : nat -> Z) (i lo : nat) : Prop := lo <= i / 2 -> (k i <= k (i / 2)%nat)%Z.
Definition below_ok (n : nat) (k : nat -> Z) (i : nat) : Prop :=
  forall j, 2 <= j <= n -> j / 2 = i -> (k j <= k i)%Z.

Definition ordered_from (n : nat) (k : nat -> Z) (lo : nat) : Prop :=
  forall j, 2 <= j <= n -> lo <= j / 2 -> (k j <= k (j / 2)%nat)%Z.

Lemma gap_close n k i lo : gap n k i lo -> above_ok k i lo -> below_ok n k i ->
  ordered_from n k lo.
Proof.
  intros Hg Ha Hb j Hj Hlo. destruct (decide (j = i)) as [->|Hne]; [by apply Ha|].
  destruct (decide (j / 2 = i)) as [E|E]; [rewrite E; by apply Hb|]. by apply (gap_rest _ _ _ _ Hg).
Qed.

Lemma swapped_l k i j : swapped k i j i = k j.
Proof. unfold swapped. by rewrite decide_True. Qed.
Lemma swapped_r k i j : i <> j -> swapped k i j j = k i.
Proof. intros H. unfold swapped. by rewrite decide_False, decide_True. Qed.
Lemma swapped_ne k i j x : x <> i -> x <> j -> swapped k i j x = k x.
Proof. intros H1 H2. unfold swapped. by rewrite !decide_False. Qed.

(** Swapping with a smaller parent moves the gap up. *)
Lemma gap_up n k i : 2 <= i <= n -> (k (i / 2)%nat < k i)%Z ->
  gap n k i 1 -> below_ok n k i ->
  gap n (swapped k (i / 2) i) (i / 2) 1 /\ below_ok n (swapped k (i / 2) i) (i / 2).
Proof.
  intros Hi Hlt [Hr Ho] Hb. set (p := i / 2) in *. assert (Hp : 1 <= p < i) by (unfold p; half).
  split; [split|].
  - intros j Hj Hlo Hjp Hj2. assert (j <> i) by (intros ->; done).
    rewrite (swapped_ne _ _ _ j) by done. destruct (decide (j / 2 = i)) as [E|E].
    + rewrite E, swapped_r by lia. apply Ho; [done|done|]. fold p. lia.
    + rewrite swapped_ne by done. by apply Hr.
  - intros j Hj Hjp Hlo. assert (p / 2 < p) by half.
    rewrite (swapped_ne _ _ _ (p / 2)) by lia.
    assert (Hpp : (k p <= k (p / 2)%nat)%Z) by (apply Hr; lia).
    destruct (decide (j = i)) as [->|Hne]; [by rewrite swapped_r by lia|].
    assert (j <> p) by (intros ->; lia). rewrite swapped_ne by done.
    assert ((k j <= k (j / 2)%nat)%Z) by (apply Hr; lia). rewrite Hjp in *. lia.
  - intros j Hj Hjp. rewrite swapped_l. destruct (decide (j = i)) as [->|Hne];
      [rewrite swapped_r by lia; lia|].
    assert (j <> p) by (intros ->; half). rewrite swapped_ne by done.
    assert ((k j <= k (j / 2)%nat)%Z) by (apply Hr; lia). rewrite Hjp in *. lia.
Qed.

(** Swapping with the larger child moves the gap down. *)
Lemma gap_down n k i lo c : 1 <= i -> 2 <= c <= n -> c / 2 = i -> lo <= i ->
  (k i < k c)%Z -> (forall j, 2 <= j <= n -> j / 2 = i -> (k j <= k c)%Z) ->
  gap n k i lo -> above_ok k i lo ->
  gap n (swapped k c i) c lo /\ above_ok (swapped k c i) c lo.
Proof.
  intros Hi Hc Hci Hlo Hlt Hmax [Hr Ho] Ha. assert (i < c) by half. split; [split|].
  - intros j Hj Hl Hjc Hj2. destruct (decide (j = i)) as [->|Hji].
    + rewrite swapped_r by lia. assert (i / 2 < i) by half.
      rewrite swapped_ne by lia. by apply Ho.
    + rewrite (swapped_ne _ _ _ j) by done. destruct (decide (j / 2 = i)) as [E|E].
      * rewrite E, swapped_r by lia. by apply Hmax.
      * rewrite swapped_ne by done. by apply Hr.
  - intros j Hj Hjc Hl. rewrite Hci, swapped_r by lia. assert (c < j) by half.
    rewrite swapped_ne by lia. assert ((k j <= k (j / 2)%nat)%Z) by (apply Hr; lia).
    by rewrite Hjc in *.
  - intros _. rewrite Hci, swapped_l, swapped_r by lia. lia.
Qed.

Lemma gap_ext n k k' i lo : (forall x, 1 <= x <= n -> k x = k' x) -> 1 <= lo -> i <= n ->
  gap n k i lo -> gap n k' i lo.
Proof.
  intros E Hlo Hi [Hr Ho]. split; intros j Hj.
  - intros Hl ? ?. rewrite <- !E by half. by apply Hr.
  - intros Hji Hl. rewrite <- !E by half. by apply Ho.
Qed.

Lemma above_ext n k k' i lo : (forall x, 1 <= x <= n -> k x = k' x) -> 1 <= lo -> i <= n ->
  above_ok k i lo -> above_ok k' i lo.
Proof. intros E Hlo Hi Ha Hl. rewrite <- !E by half. by apply Ha. Qed.

Lemma below_ext n k k' i : (forall x, 1 <= x <= n -> k x = k' x) -> 1 <= i <= n ->
  below_ok n k i -> below_ok n k' i.
Proof. intros E Hi Hb j Hj Hji. rewrite <- !E by lia. by apply Hb. Qed.

(** [float_up] from a gap with nothing larger below. *)
Lemma float_up_ok fuel : forall m h i moved, heap_wf m h -> 1 <= i <= n h -> i <= fuel ->
  gap (n h) (key m h) i 1 -> below_ok (n h) (key m h) i ->
  exists b m' h', float_up fuel m h i moved = Ok (b, m', h') /\
    heap_ok m' h' /\ same_nodes m h m' h'.
Proof.
  induction fuel as [|fuel IH]; intros m h i moved Hw Hi Hf Hg Hb; [lia|]. cbn [float_up].
  assert (Hdone : above_ok (key m h) i 1 -> exists b m' h',
    Ok (moved, m, h) = Ok (b, m', h') /\ heap_ok m' h' /\ same_nodes m h m' h').
  { intros Ha. exists moved, m, h. split; [done|]. split; [|done]. split; [done|].
    intros j Hj. apply (gap_close _ _ _ 1 Hg Ha Hb); [done|half]. }
  destruct (Nat.ltb_spec 1 i); [|apply Hdone; intros Hl; half].
  assert (1 <= i / 2 < i) by half. unfold heap_parent__.
  rewrite !elt_priority_ok by (done || lia). cbn [rbind].
  destruct (Z.leb_spec (key m h i) (key m h (i / 2))); [apply Hdone; by intros _|].
  destruct (swap_nodes_ok m h (i / 2) i Hw) as (m1 & h1 & -> & Hw1 & Hs1 & Hk1); [lia..|].
  cbn [rbind]. assert (Hn1 := proj1 Hs1).
  destruct (gap_up (n h) (key m h) i) as [Hg1 Hb1]; [lia|done|done|done|].
  destruct (IH m1 h1 (i / 2) true Hw1) as (b & m' & h' & -> & Ho & Hs); try lia.
  - rewrite Hn1. eapply gap_ext; [|lia|lia|exact Hg1]. intros x Hx. symmetry. apply Hk1. lia.
  - rewrite Hn1. eapply below_ext; [|lia|exact Hb1]. intros x Hx. symmetry. apply Hk1. lia.
  - exists b, m', h'. split; [done|]. split; [done|]. by eapply same_nodes_trans.
Qed.

(** Nothing moved means that the element was not larger than its parent. *)
Lemma float_up_stay fuel m h i : heap_wf m h -> 1 <= i <= n h -> 1 <= fuel ->
  above_ok (key m h) i 1 -> float_up fuel m h i false = Ok (false, m, h).
Proof.
  intros Hw Hi Hf Ha. destruct fuel as [|fuel]; [lia|]. cbn [float_up].
  destruct (Nat.ltb_spec 1 i); [|done]. assert (1 <= i / 2 < i) by half.
  unfold heap_parent__. rewrite !elt_priority_ok by (done || lia). cbn [rbind].
  destruct (Z.leb_spec (key m h i) (key m h (i / 2))); [done|].
  specialize (Ha ltac:(lia)). lia.
Qed.

Lemma float_up_moved fuel : forall m h i b m' h',
  float_up fuel m h i true = Ok (b, m', h') -> b = true.
Proof.
  induction fuel as [|fuel IH]; intros m h i b m' h' E; cbn [float_up] in E; [congruence|].
  destruct (1 <? i); [|congruence].
  apply rbind_Ok in E as (pp & _ & E). apply rbind_Ok in E as (pi & _ & E).
  destruct (pi <=? pp)%Z; [congruence|]. apply rbind_Ok in E as ([m1 h1] & _ & E). eauto.
Qed.

(** The index [float_down] picks holds the largest of the element and its
    children. *)
Lemma larger_child m h i : heap_wf m h -> 1 <= i -> i * 2 <= n h ->
  let c1 := if (key m h i <? key m h (i * 2))%Z then i * 2 else i in
  exists c, (if i * 2 + 1 <=? n h
      then let* pr := elt_priority m h (i * 2 + 1) in
           let* pm := elt_priority m h c1 in Ok (if (pm <? pr)%Z then i * 2 + 1 else c1)
      else Ok c1) = Ok c /\
    (c = i \/ c / 2 = i /\ 2 <= c <= n h /\ (key m h i < key m h c)%Z) /\
    forall j, 2 <= j <= n h -> j / 2 = i -> (key m h j <= key m h c)%Z.
Proof.
  intros Hw Hi Hn c1. assert (Hc1 : 1 <= c1 <= n h) by (unfold c1; case_match; lia).
  assert (Hch : forall j, j / 2 = i -> j = i * 2 \/ j = i * 2 + 1) by (intros j Hj; half).
  assert (i * 2 / 2 = i /\ (i * 2 + 1) / 2 = i) as [E1 E2] by (split; half).
  destruct (Nat.leb_spec (i * 2 + 1) (n h)).
  - rewrite !elt_priority_ok by (done || lia). cbn [rbind]. eexists. split; [done|].
    unfold c1. destruct (Z.ltb_spec (key m h i) (key m h (i * 2))); case_bool;
      (split; [first [left; lia | right; repeat split; lia]|]);
      intros j Hj [->| ->]%Hch; lia.
  - exists c1. split; [done|]. unfold c1.
    case_bool; (split; [first [left; lia | right; repeat split; lia]|]);
      intros j Hj [->| ->]%Hch; lia.
Qed.

Lemma float_down_ok fuel : forall m h i lo, heap_wf m h -> 1 <= lo <= i -> i <= n h ->
  n h < i + fuel -> gap (n h) (key m h) i lo -> above_ok (key m h) i lo ->
  exists m' h', float_down fuel m h i = Ok (m', h') /\
    heap_wf m' h' /\ ordered_from (n h) (key m' h') lo /\ same_nodes m h m' h'.
Proof.
  induction fuel as [|fuel IH]; intros m h i lo Hw Hlo Hi Hf Hg Ha; [lia|]. cbn [float_down].
  assert (Hdone : below_ok (n h) (key m h) i -> exists m' h', Ok (m, h) = Ok (m', h') /\
    heap_wf m' h' /\ ordered_from (n h) (key m' h') lo /\ same_nodes m h m' h').
  { intros Hb. exists m, h. split; [done|]. split; [done|]. split; [|done]. by eapply gap_close. }
  unfold heap_is_leaf__, heap_left__, heap_right__.
  destruct (Nat.ltb_spec (n h) (i * 2)); [apply Hdone; intros j Hj Hji; half|].
  rewrite !elt_priority_ok by (done || lia). cbn [rbind].
  destruct (larger_child m h i Hw) as (c & -> & Hc & Hmax); [lia..|].
  cbn [rbind]. destruct (Nat.eqb_spec c i) as [->|Hne]; [by apply Hdone|].
  destruct Hc as [?|(Hci & Hcn & Hlt)]; [done|].
  destruct (swap_nodes_ok m h c i Hw) as (m1 & h1 & -> & Hw1 & Hs1 & Hk1); [lia..|].
  cbn [rbind]. assert (Hn1 := proj1 Hs1).
  destruct (gap_down (n h) (key m h) i lo c) as [Hg1 Ha1]; try done; try lia.
  rewrite <- Hn1. destruct (IH m1 h1 c lo Hw1) as (m' & h' & -> & Hw' & Ho & Hs); try (lia || half).
  - rewrite Hn1. eapply gap_ext; [|lia|lia|exact Hg1]. intros x Hx. symmetry. apply Hk1. lia.
  - eapply (above_ext (n h)); [|lia|lia|exact Ha1]. intros x Hx. symmetry. apply Hk1. lia.
  - exists m', h'. split; [done|]. split; [done|]. split; [done|]. by eapply same_nodes_trans.
Qed.

Lemma float_up_or_down_ok m h i : heap_wf m h -> 1 <= i <= n h -> gap (n h) (key m h) i 1 ->
  exists m' h', float_up_or_down m h i = Ok (m', h') /\ heap_ok m' h' /\ same_nodes m h m' h'.
Proof.
  intros Hw Hi Hg. unfold float_up_or_down.
  destruct (decide (1 <= i / 2 /\ (key m h (i / 2) < key m h i)%Z)) as [[Hp Hlt]|Hn].
  - assert (Hb : below_ok (n h) (key m h) i).
    { intros j Hj Hji. pose proof (gap_over _ _ _ _ Hg j Hj Hji Hp). lia. }
    destruct (float_up_ok i m h i false Hw Hi (le_n i) Hg Hb) as (b & m' & h' & E & Ho & Hs).
    rewrite E. cbn [rbind].
    assert (b = true) as ->.
    { destruct i as [|i']; [lia|]. cbn [float_up] in E. revert E.
      destruct (Nat.ltb_spec 1 (S i')); [|half]. unfold heap_parent__.
      rewrite !elt_priority_ok by (done || half). cbn [rbind].
      destruct (Z.leb_spec (key m h (S i')) (key m h (S i' / 2))); [lia|].
      intros E. apply rbind_Ok in E as ([m1 h1] & _ & E). by eapply float_up_moved. }
    eauto.
  - assert (Ha : above_ok (key m h) i 1) by (intros Hp; lia).
    rewrite float_up_stay by (done || lia). cbn [rbind].
    destruct (float_down_ok (n h) m h i 1 Hw) as (m' & h' & -> & Hw' & Ho & Hs); try (done || lia).
    exists m', h'. split; [done|]. split; [|done]. split; [done|].
    rewrite (proj1 Hs). intros j Hj. apply Ho; [done|half].
Qed.

(** ** The operations *)

Lemma in_heap_idx m h p : heap_wf m h -> in_heap h p ->
  1 <= idx (m p) <= n h /\ array h !! idx (m p) = Some (Some p).
Proof.
  intros Hw (i & Hi & E). destruct (wf_elt m h Hw i Hi) as (q & E' & Hq). simplify_eq. auto.
Qed.

(** Room for one more element. *)
Lemma raw_insert_ok m h p prio : heap_wf m h -> ~ in_heap h p ->
  exists m' h', heap_raw_insert m h p prio = Ok (m', h') /\ heap_wf m' h' /\
    n h' = S (n h) /\ m' p = Mk_hnode (S (n h)) prio /\
    (forall q, q <> p -> m' q = m q) /\
    (forall i, 1 <= i <= n h -> array h' !! i = array h !! i) /\
    array h' !! S (n h) = Some (Some p).
Proof.
  intros Hw Hp. unfold heap_raw_insert.
  set (h1 := if allocated h <=? n h then _ else h).
  assert (Hh1 : n h1 = n h /\ length (array h1) = allocated h1 + 1 /\ n h < allocated h1 /\
    forall i, 1 <= i <= n h -> array h1 !! i = array h !! i).
  { unfold h1. destruct (Nat.leb_spec (allocated h) (n h)); cbn [array n allocated].
    - pose proof (wf_fits m h Hw). split; [done|].
      set (a := if n h =? 0 then 1 else 2 * n h).
      assert (n h < a) by (unfold a; destruct (Nat.eqb_spec (n h) 0); lia).
      assert (Hla : length (array h) <= a + 1)
        by (destruct (wf_size m h Hw) as [[_ ->]| ->]; simpl; lia).
      unfold xrealloc. rewrite take_ge by lia. split; [rewrite length_app, length_replicate; lia|].
      split; [lia|]. intros i Hi. apply lookup_app_l. apply wf_length in Hw; lia.
    - split; [done|]. split; [|done]. destruct (wf_size m h Hw) as [[? _]|]; lia. }
  destruct Hh1 as (Hn & Hl & Ha & Hsame). cbn [n array allocated]. unfold put_node. cbn [array n allocated].
  destruct (Nat.ltb_spec (S (n h1)) (length (array h1))); [|lia]. cbn [rbind]. rewrite Hn in *.
  eexists _, _. split; [reflexivity|]. cbn [array n allocated].
  assert (Hq : forall q, q <> p -> upd (upd m p (Mk_hnode (S (n h)) (priority (m p)))) p
      (Mk_hnode (idx (upd m p (Mk_hnode (S (n h)) (priority (m p))) p)) prio) q = m q).
  { intros q Hqp. unfold upd. by rewrite !decide_False. }
  assert (Hpp : upd (upd m p (Mk_hnode (S (n h)) (priority (m p)))) p
      (Mk_hnode (idx (upd m p (Mk_hnode (S (n h)) (priority (m p))) p)) prio) p
      = Mk_hnode (S (n h)) prio).
  { unfold upd. by rewrite !decide_True. }
  assert (Hi : forall i, 1 <= i <= n h ->
      <[S (n h) := Some p]> (array h1) !! i = array h !! i).
  { intros i Hi. rewrite list_lookup_insert_ne by lia. by apply Hsame. }
  assert (Hlast : <[S (n h) := Some p]> (array h1) !! S (n h) = Some (Some p)).
  { apply list_lookup_insert_eq. lia. }
  split; [|repeat split; auto]. split; cbn [array n allocated].
  - right. by rewrite length_insert.
  - lia.
  - intros i Hi'. destruct (decide (i = S (n h))) as [->|Hne].
    + exists p. split; [done|]. by rewrite Hpp.
    + destruct (wf_elt m h Hw i ltac:(lia)) as (q & E & Eq). exists q.
      split; [by rewrite Hi by lia|]. rewrite Hq; [done|]. intros ->. apply Hp. exists i. split; [lia|done].
Qed.

(** Contents after an operation. *)
Definition contents_are (m : nodes) (h : heap) (P : nat -> Z -> Prop) : Prop :=
  forall p x, in_heap h p /\ priority (m p) = x <-> P p x.

Lemma same_nodes_contents m h m' h' P :
  same_nodes m h m' h' -> contents_are m h P -> contents_are m' h' P.
Proof. intros (_ & _ & Hp & Hi) H p x. rewrite Hi, Hp. apply H. Qed.

(** Inserting a node that is not in the heap succeeds, keeps the heap order
    and every node's stored index right, and adds exactly that node with that
    priority. *)
Theorem heap_insert_ok m h p prio : heap_ok m h -> ~ in_heap h p ->
  exists m' h', heap_insert m h p prio = Ok (m', h') /\ heap_ok m' h' /\ n h' = S (n h) /\
    contents_are m' h' (fun q x => q = p /\ x = prio \/ in_heap h q /\ priority (m q) = x).
Proof.
  intros [Hw Ho] Hp. unfold heap_insert.
  destruct (raw_insert_ok m h p prio Hw Hp)
    as (m1 & h1 & -> & Hw1 & Hn1 & Hmp & Hmq & Ha & Hl). cbn [rbind].
  assert (Hk : forall i, 1 <= i <= n h -> key m1 h1 i = key m h i).
  { intros i Hi. unfold key. rewrite Ha by done. destruct (wf_elt m h Hw i Hi) as (q & E & _).
    rewrite E, Hmq; [done|]. intros ->. apply Hp. by exists i. }
  rewrite Hmp. cbn [idx].
  destruct (float_up_ok (S (n h)) m1 h1 (S (n h)) false Hw1) as (b & m' & h' & -> & Hok & Hs);
    [lia|lia| | |].
  - split; rewrite Hn1; intros j Hj; [|half]. intros _ Hj1 _.
    rewrite !Hk by half. apply Ho. lia.
  - intros j Hj Hji. half.
  - cbn [rbind]. exists m', h'. split; [done|]. split; [done|].
    split; [by rewrite (proj1 Hs)|]. eapply same_nodes_contents; [exact Hs|].
    intros q x. split.
    + intros [(i & Hi & E) Hx]. destruct (decide (i = S (n h))) as [->|Hne].
      * left. rewrite Hl in E. simplify_eq. by rewrite Hmp.
      * right. rewrite Ha in E by lia. assert (in_heap h q) by (exists i; split; [lia|done]).
        split; [done|]. rewrite Hmq in Hx; [done|]. by intros ->.
    + intros [[-> ->]|[(i & Hi & E) Hx]].
      * split; [exists (S (n h)); split; [lia|done]|by rewrite Hmp].
      * assert (q <> p) by (intros ->; apply Hp; by exists i).
        split; [exists i; split; [lia|by rewrite Ha]|by rewrite Hmq].
Qed.

(** Index uniqueness: a node is in one place. *)
Lemma elt_inj m h i j p : heap_wf m h -> 1 <= i <= n h -> 1 <= j <= n h ->
  array h !! i = Some (Some p) -> array h !! j = Some (Some p) -> i = j.
Proof.
  intros Hw Hi Hj Ei Ej. destruct (wf_elt m h Hw i Hi) as (q & E & Hq).
  destruct (wf_elt m h Hw j Hj) as (r & E' & Hr). congruence.
Qed.

Lemma raw_remove_ok m h p : heap_wf m h -> in_heap h p ->
  exists m' h', heap_raw_remove m h p = Ok (m', h') /\ heap_wf m' h' /\ n h' = n h - 1 /\
    (forall q, priority (m' q) = priority (m q)) /\
    (forall q, in_heap h' q <-> in_heap h q /\ q <> p) /\
    (forall i, 1 <= i <= n h' -> i <> idx (m p) -> key m' h' i = key m h i).
Proof.
  intros Hw Hin. destruct (in_heap_idx m h p Hw Hin) as [Hi Ei]. set (i := idx (m p)) in *.
  unfold heap_raw_remove. fold i. pose proof (wf_length m h Hw ltac:(lia)) as Hlen.
  destruct (Nat.ltb_spec i (n h)) as [Hlt|Hge]; cbn [rbind].
  - destruct (elt_ok m h (n h) Hw) as (l & El & Al & Il & _); [lia|]. rewrite El. cbn [rbind].
    unfold put_node. destruct (Nat.ltb_spec i (length (array h))); [|lia]. cbn [rbind].
    eexists _, _. split; [reflexivity|]. cbn [array n allocated].
    set (m' := upd m l _). assert (Hpr : forall q, priority (m' q) = priority (m q)).
    { intros q. unfold m', upd. by case_decide; subst. }
    assert (Hlp : l <> p) by (intros ->; unfold i in *; lia).
    split; [|split; [done|split; [done|split]]].
    + split; cbn [array n allocated].
      * destruct (wf_size m h Hw) as [[_ E]|E]; [rewrite E in Hlen; simpl in Hlen; lia|].
        right. by rewrite length_insert.
      * pose proof (wf_fits m h Hw). lia.
      * intros j Hj. destruct (decide (j = i)) as [->|Hne].
        -- exists l. rewrite list_lookup_insert_eq by lia. split; [done|].
           unfold m', upd. by rewrite decide_True.
        -- destruct (wf_elt m h Hw j ltac:(lia)) as (q & E & Hq). exists q.
           rewrite list_lookup_insert_ne by done. split; [done|]. unfold m', upd.
           rewrite decide_False; [done|]. intros ->. lia.
    + intros q. unfold in_heap. cbn [array n]. split.
      * intros (j & Hj & E). destruct (decide (j = i)) as [->|Hne].
        -- rewrite list_lookup_insert_eq in E by lia. simplify_eq. split; [|done].
           exists (n h). split; [lia|done].
        -- rewrite list_lookup_insert_ne in E by done. split; [exists j; split; [lia|done]|].
           intros ->. apply Hne. apply (elt_inj m h j i p Hw); [lia|lia|done|done].
      * intros [(j & Hj & E) Hqp]. destruct (decide (j = n h)) as [->|Hne].
        -- exists i. split; [lia|]. rewrite list_lookup_insert_eq by lia. congruence.
        -- exists j. split; [lia|]. rewrite list_lookup_insert_ne; [done|]. congruence.
    + intros j Hj Hne. unfold key. cbn [array]. rewrite list_lookup_insert_ne by done.
      case_match; [|done]. case_match; [|done]. by rewrite Hpr.
  - assert (E : i = n h) by lia. eexists _, _. split; [reflexivity|]. cbn [array n allocated].
    split; [|split; [done|split; [done|split; [|done]]]].
    + split; cbn [array n allocated].
      * apply (wf_size m h Hw).
      * pose proof (wf_fits m h Hw). lia.
      * intros j Hj. apply (wf_elt m h Hw). lia.
    + intros q. unfold in_heap. cbn [array n]. split.
      * intros (j & Hj & Eq). split; [exists j; split; [lia|done]|]. intros ->.
        assert (j = i) by (apply (elt_inj m h j i p Hw); [lia|lia|done|done]). lia.
      * intros [(j & Hj & Eq) Hqp]. exists j. split; [|done].
        assert (j <> n h) by congruence. lia.
Qed.

Lemma heap_remove_ok m h p : heap_ok m h -> in_heap h p ->
  exists m' h', heap_remove m h p = Ok (m', h') /\ heap_ok m' h' /\ n h' = n h - 1 /\
    contents_are m' h' (fun q x => (in_heap h q /\ q <> p) /\ priority (m q) = x).
Proof.
  intros [Hw Ho] Hin. destruct (in_heap_idx m h p Hw Hin) as [Hi _].
  unfold heap_remove. set (i := idx (m p)) in *.
  destruct (raw_remove_ok m h p Hw Hin) as (m1 & h1 & -> & Hw1 & Hn1 & Hpr & Hc & Hk).
  cbn [rbind]. fold i in Hk.
  assert (Hcont : contents_are m1 h1 (fun q x => (in_heap h q /\ q <> p) /\ priority (m q) = x)).
  { intros q x. rewrite Hpr. by rewrite Hc. }
  destruct (Nat.leb_spec i (n h1)).
  - destruct (float_up_or_down_ok m1 h1 i Hw1) as (m' & h' & -> & Hok & Hs); [lia| |].
    + split; rewrite Hn1.
      * intros j Hj _ Hji Hj2. rewrite !Hk by half. apply Ho. lia.
      * intros j Hj Hji Hl. assert (i / 2 < i) by half. rewrite !Hk by half.
        pose proof (Ho j ltac:(lia)) as H1. pose proof (Ho i ltac:(half)) as H2.
        rewrite Hji in H1. lia.
    + exists m', h'. split; [done|]. split; [done|]. split; [by rewrite (proj1 Hs)|].
      by eapply same_nodes_contents.
  - exists m1, h1. split; [done|]. split; [|done]. split; [done|].
    intros j Hj. rewrite !Hk by half. apply Ho. lia.
Qed.

(** Changing the priority of a node in the heap restores the heap order and
    changes no other node's priority. *)
Theorem heap_change_ok m h p prio : heap_ok m h -> in_heap h p ->
  exists m' h', heap_change m h p prio = Ok (m', h') /\ heap_ok m' h' /\ n h' = n h /\
    contents_are m' h' (fun q x => in_heap h q /\ x = (if decide (q = p) then prio else priority (m q))).
Proof.
  intros [Hw Ho] Hin. destruct (in_heap_idx m h p Hw Hin) as [Hi Ei].
  unfold heap_change. set (i := idx (m p)) in *. set (m1 := heap_raw_change m p prio).
  assert (Hidx : forall q, idx (m1 q) = idx (m q)).
  { intros q. unfold m1, heap_raw_change, upd. by case_decide; subst. }
  assert (Hpri : forall q, priority (m1 q) = if decide (q = p) then prio else priority (m q)).
  { intros q. unfold m1, heap_raw_change, upd. by case_decide. }
  assert (Hw1 : heap_wf m1 h).
  { split; [apply (wf_size m h Hw)|apply (wf_fits m h Hw)|]. intros j Hj.
    destruct (wf_elt m h Hw j Hj) as (q & E & Hq). exists q. by rewrite Hidx. }
  assert (Hk : forall j, 1 <= j <= n h -> j <> i -> key m1 h j = key m h j).
  { intros j Hj Hji. unfold key. destruct (wf_elt m h Hw j Hj) as (q & E & Hq). rewrite E, Hpri.
    rewrite decide_False; [done|]. intros ->. apply Hji. symmetry. exact Hq. }
  rewrite Hidx. fold i. destruct (float_up_or_down_ok m1 h i Hw1 Hi) as (m' & h' & -> & Hok & Hs).
  - split.
    + intros j Hj _ Hji Hj2. rewrite !Hk by half. by apply Ho.
    + intros j Hj Hji Hl. assert (i / 2 < i) by half. rewrite !Hk by half.
      pose proof (Ho j Hj) as H1. pose proof (Ho i ltac:(half)) as H2. rewrite Hji in H1. lia.
  - exists m', h'. split; [done|]. split; [done|]. split; [by rewrite (proj1 Hs)|].
    eapply same_nodes_contents; [exact Hs|]. intros q x. rewrite Hpri.
    split; intros [? ?]; split; congruence.
Qed.

Lemma rebuild_loop_ok i : forall m h, heap_wf m h -> i <= n h ->
  ordered_from (n h) (key m h) (S i) ->
  exists m' h', rebuild_loop m h i = Ok (m', h') /\ heap_wf m' h' /\
    ordered_from (n h') (key m' h') 1 /\ same_nodes m h m' h'.
Proof.
  induction i as [|i IH]; intros m h Hw Hi Ho; cbn [rebuild_loop].
  { exists m, h. split; [done|]. by split. }
  destruct (float_down_ok (n h) m h (S i) (S i) Hw) as (m1 & h1 & -> & Hw1 & Ho1 & Hs1); try lia.
  - split.
    + intros j Hj Hl ? ?. apply Ho; [done|]. lia.
    + intros j Hj Hji Hl. half.
  - intros Hl. half.
  - cbn [rbind]. assert (Hn1 := proj1 Hs1). rewrite <- Hn1 in Ho1.
    destruct (IH m1 h1 Hw1 ltac:(lia) Ho1) as (m' & h' & -> & Hw' & Ho' & Hs').
    exists m', h'. split; [done|]. split; [done|]. split; [done|]. by eapply same_nodes_trans.
Qed.

Lemma ordered_max n k i : ordered n k -> 1 <= i <= n -> (k i <= k 1%nat)%Z.
Proof.
  intros Ho. induction i as [i IH] using lt_wf_ind. intros Hi.
  destruct (decide (i = 1)) as [->|Hne]; [lia|].
  pose proof (Ho i ltac:(lia)). pose proof (IH (i / 2) ltac:(half) ltac:(half)). lia.
Qed.

Lemma heap_max_ok m h : heap_ok m h -> 1 <= n h ->
  exists p, heap_max h = Ok p /\ in_heap h p /\
    forall q, in_heap h q -> (priority (m q) <= priority (m p))%Z.
Proof.
  intros [Hw Ho] Hn. destruct (elt_ok m h 1 Hw ltac:(lia)) as (p & E & A & _ & K).
  exists p. split; [done|]. split; [by exists 1|]. intros q (i & Hi & Eq).
  pose proof (ordered_max _ _ i Ho Hi) as Hm. rewrite K in Hm.
  unfold key in Hm. by rewrite Eq in Hm.
Qed.

(** ** Taking out the maximum repeatedly *)

Fixpoint heap_drain (k : nat) (m : nodes) (h : heap) : Res (list nat) :=
  match k with
  | O => Ok []
  | S k =>
      let* p := heap_max h in
      let* (m, h) := heap_remove m h p in
      let* l := heap_drain k m h in
      Ok (p :: l)
  end.

Definition not_smaller (m : nodes) (p q : nat) : Prop := (priority (m q) <= priority (m p))%Z.

(** Taking out the maximum until the heap is empty yields every node of the
    heap exactly once, in order of decreasing priority. *)
Theorem heap_drain_ok k : forall m h, heap_ok m h -> n h = k ->
  exists l, heap_drain k m h = Ok l /\ NoDup l /\ (forall p, p ∈ l <-> in_heap h p) /\
    StronglySorted (not_smaller m) l.
Proof.
  induction k as [|k IH]; intros m h Hok Hk; cbn [heap_drain].
  { exists []. split; [done|]. split; [constructor|]. split; [|constructor].
    intros p. split; [by intros ?%not_elem_of_nil|]. intros (i & Hi & _). lia. }
  destruct (heap_max_ok m h Hok ltac:(lia)) as (p & -> & Hin & Hmax). cbn [rbind].
  destruct (heap_remove_ok m h p Hok Hin) as (m1 & h1 & -> & Hok1 & Hn1 & Hc). cbn [rbind].
  destruct (IH m1 h1 Hok1 ltac:(lia)) as (l & -> & Hnd & Hl & Hs). cbn [rbind].
  assert (H1 : forall q, in_heap h1 q -> (in_heap h q /\ q <> p) /\ priority (m q) = priority (m1 q)).
  { intros q Hq. by apply (Hc q (priority (m1 q))). }
  exists (p :: l). split; [done|]. split; [|split].
  - constructor; [|done]. intros Hpl. apply Hl, H1 in Hpl. by destruct Hpl as [[_ ?] _].
  - intros q. rewrite elem_of_cons, Hl. split.
    + intros [->|Hq]; [done|]. by apply H1.
    + intros Hq. destruct (decide (q = p)) as [->|Hne]; [by left|right].
      by apply (Hc q (priority (m q))).
  - constructor.
    + assert (Hs' : Forall (fun q => priority (m1 q) = priority (m q)) l).
      { apply Forall_forall. intros q Hq. apply Hl, H1 in Hq. by destruct Hq as [_ ->]. }
      clear - Hs Hs'. induction Hs as [|q l Hs IH Hf]; [constructor|].
      apply Forall_cons in Hs' as [Eq Hs']. constructor; [by apply IH|].
      rewrite Forall_forall in *. intros r Hr. specialize (Hf r Hr).
      unfold not_smaller in *. rewrite (Hs' r Hr), Eq in Hf. done.
    + apply Forall_forall. intros q Hq. apply Hmax. by apply Hl, H1 in Hq as [[? _] _].
Qed.

Lemma heap_init_ok m : heap_ok m heap_init.
Proof.
  split; [split; simpl; [by left|lia|intros i Hi; lia]|]. intros i Hi. simpl in Hi. lia.
Qed.

(** [heap_rebuild] makes a heap out of any array of nodes left by the raw
    operations, without losing or adding any. *)
Theorem heap_rebuild_ok m h : heap_wf m h ->
  exists m' h', heap_rebuild m h = Ok (m', h') /\ heap_ok m' h' /\ same_nodes m h m' h'.
Proof.
  intros Hw. destruct (rebuild_loop_ok (n h / 2) m h Hw) as (m' & h' & E & Hw' & Ho & Hs).
  - half.
  - intros j Hj Hl. half.
  - exists m', h'. split; [exact E|]. split; [|done]. split; [done|].
    intros j Hj. apply Ho; [done|half].
Qed.

(** [heap_pop] removes the last node of the array and keeps the heap order. *)
Theorem heap_pop_ok m h : heap_ok m h -> 1 <= n h ->
  exists p h', heap_pop h = Ok (p, h') /\ in_heap h p /\ heap_ok m h' /\
    forall q, in_heap h' q <-> in_heap h q /\ q <> p.
Proof.
  intros [Hw Ho] Hn. destruct (elt_ok m h (n h) Hw ltac:(lia)) as (p & E & A & Ip & _).
  unfold heap_pop. rewrite E. cbn [rbind]. eexists p, _. split; [reflexivity|].
  split; [exists (n h); split; [lia|done]|]. split.
  - split; [|intros i Hi; apply Ho; simpl in Hi; lia]. split; cbn [array n allocated].
    + apply (wf_size m h Hw).
    + pose proof (wf_fits m h Hw). lia.
    + intros i Hi. apply (wf_elt m h Hw). lia.
  - intros q. unfold in_heap. cbn [array n]. split.
    + intros (i & Hi & Eq). split; [exists i; split; [lia|done]|]. intros ->.
      assert (i = n h) by (apply (elt_inj m h i (n h) p Hw); [lia|lia|done|done]). lia.
    + intros [(i & Hi & Eq) Hqp]. exists i. split; [|done]. assert (i <> n h) by congruence. lia.
Qed.

Lemma walk_ok fuel : forall m h i p, heap_wf m h -> 1 <= i <= n h -> n h < i + fuel ->
  array h !! i = Some (Some p) ->
  exists l, walk fuel m h p = Ok l /\ Some <$> l = take (length l) (drop i (array h)) /\
    length l = n h - i + 1.
Proof.
  induction fuel as [|fuel IH]; intros m h i p Hw Hi Hf E; [lia|]. cbn [walk].
  destruct (wf_elt m h Hw i Hi) as (q & Eq & Hq). assert (q = p) as -> by congruence. rewrite Hq.
  rewrite (drop_S _ (Some p)) by done.
  destruct (Nat.ltb_spec i (n h)).
  - destruct (elt_ok m h (i + 1) Hw ltac:(lia)) as (r & -> & Ar & _). cbn [rbind].
    destruct (IH m h (i + 1) r Hw) as (l & -> & El & Hl); [lia|lia|done|]. cbn [rbind].
    exists (p :: l). split; [done|]. csimpl. rewrite El. replace (S i) with (i + 1) by lia.
    split; [done|lia].
  - exists [p]. split; [done|]. split; [done|]. simpl. lia.
Qed.

(** [HEAP_FOR_EACH] visits the array elements 1 to [n] in order, so every
    node once and the maximum first. *)
Theorem heap_for_each_ok m h : heap_ok m h ->
  exists l, heap_for_each m h = Ok l /\ Some <$> l = take (n h) (drop 1 (array h)) /\
    (forall p l', l = p :: l' -> forall q, in_heap h q -> (priority (m q) <= priority (m p))%Z).
Proof.
  intros [Hw Ho]. unfold heap_for_each. destruct (Nat.ltb_spec 0 (n h)).
  - destruct (elt_ok m h 1 Hw ltac:(lia)) as (p & -> & A & _ & Hk). cbn [rbind].
    destruct (walk_ok (n h) m h 1 p Hw ltac:(lia) ltac:(lia) A) as (l & -> & El & Hl).
    exists l. split; [done|]. replace (n h) with (length l) at 1 by lia. split; [done|].
    intros p' l' -> q (i & Hi & Eq).
    rewrite (drop_S _ (Some p)) in El by done. csimpl in El. injection El as -> _.
    pose proof (ordered_max _ _ i Ho Hi) as Hm. rewrite Hk in Hm. unfold key in Hm.
    by rewrite Eq in Hm.
  - exists []. split; [done|]. split; [by replace (n h) with 0 by lia|]. intros; done.
Qed.

(** ** Witnesses *)

(** Two nodes: 3 with priority 9, 7 with priority 5. *)
Definition example_nodes : nodes :=
  upd (upd (fun _ => Mk_hnode 0 0) 3 (Mk_hnode 1 9)) 7 (Mk_hnode 2 5).
Definition example_heap : heap := Mk_heap [None; Some 3; Some 7] 2 2.

Lemma example_heap_ok : heap_ok example_nodes example_heap.
Proof.
  split; [split; simpl; [by right|lia|]|].
  - intros [|[|[|i]]] Hi; simpl in *; try lia; eauto.
  - intros [|[|[|i]]] Hi; simpl in *; try lia. by vm_compute.
Qed.

Lemma heap_insert_ok_witness : exists m' h', heap_insert example_nodes example_heap 4 20 = Ok (m', h') /\ heap_ok m' h'.
Proof.
  destruct (heap_insert_ok example_nodes example_heap 4 20 example_heap_ok) as (m' & h' & E & Hk & _).
  - intros ([|[|[|i]]] & Hi & E); simpl in *; try lia; discriminate.
  - eauto.
Defined.

Lemma heap_change_ok_witness : exists m' h', heap_change example_nodes example_heap 7 20 = Ok (m', h') /\ heap_ok m' h'.
Proof.
  destruct (heap_change_ok example_nodes example_heap 7 20 example_heap_ok) as (m' & h' & E & Hk & _).
  - exists 2. split; [simpl; lia|reflexivity].
  - eauto.
Defined.

Lemma heap_drain_ok_witness : exists l, heap_drain 2 example_nodes example_heap = Ok l /\ NoDup l.
Proof.
  destruct (heap_drain_ok 2 example_nodes example_heap example_heap_ok eq_refl) as (l & E & H & _).
  eauto.
Defined.

Lemma heap_rebuild_ok_witness :
  exists m' h', heap_rebuild (heap_raw_change example_nodes 7 20) example_heap = Ok (m', h') /\ heap_ok m' h'.
Proof.
  destruct (heap_rebuild_ok (heap_raw_change example_nodes 7 20) example_heap)
    as (m' & h' & E & Hk & _); [|eauto].
  split; simpl; [by right|lia|]. intros [|[|[|i]]] Hi; simpl in *; try lia; eauto.
Defined.

Lemma heap_pop_ok_witness : exists p h', heap_pop example_heap = Ok (p, h') /\ heap_ok example_nodes h'.
Proof.
  destruct (heap_pop_ok example_nodes example_heap example_heap_ok) as (p & h' & E & _ & Hk & _);
    [simpl; lia|eauto].
Defined.

Lemma heap_for_each_ok_witness : exists l, heap_for_each example_nodes example_heap = Ok l.
Proof. destruct (heap_for_each_ok example_nodes example_heap example_heap_ok) as (l & E & _). eauto. Defined.
