(* ===== verification/Byteq.v ===== *)
(** * Byte queues ([lib/byteq.c])

    The circular queue of bytes of the JSON-RPC streams.  [head] and [tail] are
    free-running unsigned counters, reduced to buffer positions with a mask.
    [write] and [read] on a file descriptor are given by the sequence of the
    results the system calls return. *)

From Stdlib Require Import ZArith Lia List.
From stdpp Require Import base list option sets.
From S2P Require Import Prelude Bytes.
#[local] Open Scope Z_scope.
#[local] Open Scope res_scope.

Record byteq := Mk_byteq {
  buffer : list Z;
  size : Z;
  head : Z;
  tail : Z
}.

Definition byteq_init (buffer : list Z) (size : Z) : Res byteq :=
  ovs_assert (is_pow2 size) ;;* Ok (Mk_byteq buffer size 0 0).

Definition byteq_used (q : byteq) : Z := s32 (head q - tail q).
Definition byteq_avail (q : byteq) : Z := s32 (size q - byteq_used q).
Definition byteq_is_empty (q : byteq) : bool := byteq_used q =? 0.
Definition byteq_is_full (q : byteq) : bool := byteq_avail q =? 0.

(** The position a counter stands for: [counter & (size - 1)]. *)
Definition pos (q : byteq) (counter : Z) : Z := Z.land counter (u32 (size q - 1)).

Definition byteq_tailroom (q : byteq) : Z :=
  Z.min (byteq_used q) (s32 (size q - pos q (tail q))).
Definition byteq_headroom (q : byteq) : Z :=
  Z.min (byteq_avail q) (s32 (size q - pos q (head q))).

(** The bytes at [byteq_tail] and a store of bytes at [byteq_head]. *)
Definition load_tail (q : byteq) (k : nat) : Res (list Z) :=
  let i := Z.to_nat (pos q (tail q)) in
  if (i + k <=? length (buffer q))%nat then Ok (take k (drop i (buffer q)))
  else Fault OutOfBounds.

Definition store_head (q : byteq) (l : list Z) : Res byteq :=
  let i := Z.to_nat (pos q (head q)) in
  if (i + length l <=? length (buffer q))%nat
  then Ok (Mk_byteq (take i (buffer q) ++ l ++ drop (i + length l) (buffer q))
             (size q) (head q) (tail q))
  else Fault OutOfBounds.

Definition byteq_advance_tail (q : byteq) (n : Z) : Res byteq :=
  ovs_assert (n <=? u32 (byteq_tailroom q)) ;;*
  Ok (Mk_byteq (buffer q) (size q) (head q) (u32 (tail q + n))).

Definition byteq_advance_head (q : byteq) (n : Z) : Res byteq :=
  ovs_assert (n <=? u32 (byteq_headroom q)) ;;*
  Ok (Mk_byteq (buffer q) (size q) (u32 (head q + n)) (tail q)).

Definition byteq_put (q : byteq) (c : Z) : Res byteq :=
  ovs_assert (negb (byteq_is_full q)) ;;*
  let* q := store_head q [c] in
  Ok (Mk_byteq (buffer q) (size q) (u32 (head q + 1)) (tail q)).

(** The loop of [byteq_putn]; every round stores at least one byte, so the
    number of bytes bounds the rounds. *)
Fixpoint putn_loop (fuel : nat) (q : byteq) (p : list Z) : Res byteq :=
  match fuel with
  | O => Ok q
  | S fuel =>
      if (0 <? length p)%nat then
        let chunk := Z.min (Z.of_nat (length p)) (u32 (byteq_headroom q)) in
        let* q := store_head q (take (Z.to_nat chunk) p) in
        let* q := byteq_advance_head q chunk in
        putn_loop fuel q (drop (Z.to_nat chunk) p)
      else Ok q
  end.

Definition byteq_putn (q : byteq) (p : list Z) : Res byteq :=
  ovs_assert (Z.of_nat (length p) <=? u32 (byteq_avail q)) ;;*
  putn_loop (length p) q p.

(** The bytes up to the terminator. *)
Definition byteq_put_string (q : byteq) (s : cbuf) : Res byteq :=
  let* l := c_str s in byteq_putn q l.

Definition byteq_get (q : byteq) : Res (Z * byteq) :=
  ovs_assert (negb (byteq_is_empty q)) ;;*
  let* l := load_tail q 1 in
  match l with
  | c :: _ => Ok (c, Mk_byteq (buffer q) (size q) (head q) (u32 (tail q + 1)))
  | [] => Fault OutOfBounds
  end.

(** The results of successive [write] calls: a count, or an error number as a
    negative value.  With none left the descriptor would block (EAGAIN, 11). *)
Fixpoint byteq_write (results : list Z) (q : byteq) (written : list Z)
  : Res (Z * list Z * byteq) :=
  if byteq_is_empty q then Ok (0, written, q)
  else
    match results with
    | [] => Ok (11, written, q)
    | n :: results =>
        if 0 <? n then
          let* l := load_tail q (Z.to_nat (byteq_tailroom q)) in
          let* q := byteq_advance_tail q n in
          byteq_write results q (written ++ take (Z.to_nat n) l)
        else
          ovs_assert (n <? 0) ;;* Ok (- n, written, q)
    end.

(** The results of successive [read] calls. *)
Inductive read_result := Data (l : list Z) | Eof | Errno (e : Z).

Definition EOF : Z := -1.

Fixpoint byteq_read (results : list read_result) (q : byteq) : Res (Z * byteq) :=
  if byteq_is_full q then Ok (0, q)
  else
    match results with
    | [] => Ok (11, q)
    | Data l :: results =>
        if (0 <? length l)%nat then
          let* q := store_head q l in
          let* q := byteq_advance_head q (Z.of_nat (length l)) in
          byteq_read results q
        else Ok (EOF, q)
    | Eof :: _ => Ok (EOF, q)
    | Errno e :: _ => Ok (e, q)
    end.

(** ** Invariant and contents *)

Definition used (q : byteq) : Z := u32 (head q - tail q).

Record byteq_wf (q : byteq) : Prop := {
  bq_size : exists k, 0 <= k <= 30 /\ size q = 2 ^ k;
  bq_buffer : Z.of_nat (length (buffer q)) = size q;
  bq_used : used q <= size q;
  bq_head : in_u32 (head q);
  bq_tail : in_u32 (tail q)
}.

(** The queued bytes, oldest first. *)
Definition contents (q : byteq) : list Z :=
  (fun i => nth (Z.to_nat ((tail q + Z.of_nat i) mod size q)) (buffer q) 0)
    <$> seq 0 (Z.to_nat (used q)).

Section Wf.
Context (q : byteq) (Hq : byteq_wf q).

Lemma size_bounds : 1 <= size q <= 2 ^ 30.
Proof.
  destruct (bq_size q Hq) as (k & Hk & ->). split.
  - change 1 with (2 ^ 0). apply Z.pow_le_mono_r; lia.
  - apply Z.pow_le_mono_r; lia.
Qed.

(** The buffer size divides the range of the counters. *)
Lemma size_divides : exists c, 2 ^ 32 = c * size q.
Proof.
  destruct (bq_size q Hq) as (k & Hk & ->). exists (2 ^ (32 - k)).
  rewrite <- Z.pow_add_r by lia. f_equal. lia.
Qed.

Lemma pos_mod x : pos q x = x mod size q.
Proof.
  pose proof size_bounds. unfold pos. rewrite u32_id by (unfold in_u32; lia).
  destruct (bq_size q Hq) as (k & Hk & ->). apply land_mask. lia.
Qed.

Lemma mod_u32 x : u32 x mod size q = x mod size q.
Proof.
  unfold u32. apply Z.mod_mod_divide. destruct size_divides as [c Hc]. by exists c.
Qed.

Lemma used_range : 0 <= used q <= size q.
Proof. split; [apply u32_range|apply Hq]. Qed.

Lemma byteq_used_eq : byteq_used q = used q.
Proof.
  pose proof size_bounds. pose proof used_range. unfold byteq_used, s32.
  change (u32 (head q - tail q)) with (used q). destruct (Z.ltb_spec (used q) (2 ^ 31)); lia.
Qed.

Lemma byteq_avail_eq : byteq_avail q = size q - used q.
Proof.
  pose proof size_bounds. pose proof used_range. unfold byteq_avail. rewrite byteq_used_eq.
  apply s32_small. lia.
Qed.

Lemma head_mod : head q mod size q = (tail q + used q) mod size q.
Proof.
  pose proof size_bounds. unfold used. rewrite <- Zplus_mod_idemp_r, mod_u32, Zplus_mod_idemp_r.
  f_equal. lia.
Qed.

Lemma byteq_tailroom_eq : byteq_tailroom q = Z.min (used q) (size q - tail q mod size q).
Proof.
  pose proof size_bounds. pose proof (Z.mod_pos_bound (tail q) (size q) ltac:(lia)).
  unfold byteq_tailroom. rewrite byteq_used_eq, pos_mod, s32_small by lia. done.
Qed.

Lemma byteq_headroom_eq :
  byteq_headroom q = Z.min (size q - used q) (size q - head q mod size q).
Proof.
  pose proof size_bounds. pose proof (Z.mod_pos_bound (head q) (size q) ltac:(lia)).
  unfold byteq_headroom. rewrite byteq_avail_eq, pos_mod, s32_small by lia. done.
Qed.

Lemma length_queued : Z.of_nat (length (contents q)) = used q.
Proof.
  pose proof used_range. unfold contents. rewrite length_fmap, length_seq. lia.
Qed.
End Wf.

(** ** The two ends of the queue *)

Lemma mod_diff a b s : 0 < s -> a mod s = b mod s -> exists c, a - b = c * s.
Proof.
  intros Hs E. exists (a / s - b / s).
  pose proof (Z.div_mod a s ltac:(lia)). pose proof (Z.div_mod b s ltac:(lia)). lia.
Qed.

(** A short step from a position stays on its side of the end of the buffer. *)
Lemma mod_step a j s : 0 < s -> 0 <= j -> a mod s + j < s -> (a + j) mod s = a mod s + j.
Proof.
  intros Hs Hj H. rewrite <- Zplus_mod_idemp_l. apply Z.mod_small.
  pose proof (Z.mod_pos_bound a s Hs). lia.
Qed.

Lemma contents_lookup q (i : nat) : Z.of_nat i < used q ->
  contents q !! i = Some (nth (Z.to_nat ((tail q + Z.of_nat i) mod size q)) (buffer q) 0).
Proof.
  intros Hi. unfold contents. rewrite list_lookup_fmap, lookup_seq_lt by lia. done.
Qed.

Lemma contents_lookup_ge q (i : nat) : byteq_wf q -> used q <= Z.of_nat i -> contents q !! i = None.
Proof.
  intros Hq Hi. apply lookup_ge_None. pose proof (length_queued q Hq). lia.
Qed.

(** Reading from a buffer after a run of bytes was stored in it. *)
Lemma nth_splice (b l : list Z) (h x : nat) d : (h + length l <= length b)%nat ->
  nth x (take h b ++ l ++ drop (h + length l) b) d
  = if ((h <=? x) && (x <? h + length l))%nat then nth (x - h) l d else nth x b d.
Proof.
  intros Hl. destruct (Nat.leb_spec h x); cbn [andb].
  - rewrite app_nth2 by (rewrite length_take; lia). rewrite length_take, Nat.min_l by lia.
    destruct (Nat.ltb_spec x (h + length l)); [by rewrite app_nth1 by lia|].
    rewrite app_nth2 by lia. rewrite nth_skipn. f_equal. lia.
  - rewrite app_nth1 by (rewrite length_take; lia). rewrite nth_firstn.
    destruct (Nat.ltb_spec x h); [done|lia].
Qed.

(** The free space after the head overlaps no queued byte. *)
Lemma pos_disjoint q i j : byteq_wf q -> 0 <= i < used q -> 0 <= j < size q - used q ->
  head q mod size q + j < size q -> (tail q + i) mod size q <> head q mod size q + j.
Proof.
  intros Hq Hi Hj Hjs E. pose proof (size_bounds q Hq) as Hs.
  rewrite head_mod in Hjs, E by done. rewrite <- mod_step in E by lia.
  apply mod_diff in E as [c Hc]; [|lia].
  assert (- size q < c * size q < 0) as [Hc1 Hc2] by lia.
  clear - Hc1 Hc2 Hs. destruct (Z.lt_ge_cases c 0); nia.
Qed.

Lemma used_advance_head q n : byteq_wf q -> 0 <= n <= size q - used q -> forall buf,
  used (Mk_byteq buf (size q) (u32 (head q + n)) (tail q)) = used q + n.
Proof.
  intros Hq Hn buf. pose proof (size_bounds q Hq). pose proof (used_range q Hq).
  unfold used. cbn [head tail]. unfold u32 at 1 2. rewrite Zminus_mod_idemp_l.
  replace (head q + n - tail q) with (head q - tail q + n) by lia.
  rewrite <- Zplus_mod_idemp_l. change ((head q - tail q) mod 2 ^ 32) with (used q).
  change (u32 (head q - tail q)) with (used q). apply Z.mod_small. lia.
Qed.

Lemma store_advance q l : byteq_wf q -> Z.of_nat (length l) <= byteq_headroom q ->
  exists buf, store_head q l = Ok (Mk_byteq buf (size q) (head q) (tail q)) /\
    let q' := Mk_byteq buf (size q) (u32 (head q + Z.of_nat (length l))) (tail q) in
    byteq_wf q' /\ contents q' = contents q ++ l.
Proof.
  intros Hq Hl. rewrite byteq_headroom_eq in Hl by done. pose proof (size_bounds q Hq) as Hs.
  pose proof (used_range q Hq) as Hu. pose proof (bq_buffer q Hq) as Hb.
  pose proof (Z.mod_pos_bound (head q) (size q) ltac:(lia)) as Hh.
  unfold store_head. rewrite pos_mod by done. set (h := Z.to_nat (head q mod size q)) in *.
  assert (Eh : Z.of_nat h = head q mod size q) by (unfold h; lia).
  destruct (Nat.leb_spec (h + length l) (length (buffer q))); [|lia].
  eexists. split; [reflexivity|]. set (buf := take h _ ++ l ++ _). set (q' := Mk_byteq buf _ _ _).
  assert (Hlen : length buf = length (buffer q)).
  { unfold buf. rewrite !length_app, length_take, length_drop. lia. }
  assert (Hused : used q' = used q + Z.of_nat (length l)) by (apply used_advance_head; [done|lia]).
  assert (Hq' : byteq_wf q').
  { split; [apply (bq_size q Hq)|simpl; lia|rewrite Hused; simpl; lia|apply u32_range|apply Hq]. }
  split; [done|]. apply list_eq. intros i. pose proof (length_queued q Hq) as Hlc.
  destruct (Z.lt_ge_cases (Z.of_nat i) (used q')) as [Hi'|Hi'];
    [|rewrite contents_lookup_ge by done; symmetry; apply lookup_ge_None; rewrite length_app; lia].
  rewrite contents_lookup by done. cbn [tail size buffer q']. unfold buf. rewrite nth_splice by done.
  set (x := (tail q + Z.of_nat i) mod size q). assert (Hx : 0 <= x < size q) by (apply Z.mod_pos_bound; lia).
  destruct (Z.lt_ge_cases (Z.of_nat i) (used q)) as [Hi|Hi].
  - rewrite lookup_app_l, contents_lookup by lia. fold x.
    destruct (Nat.leb_spec h (Z.to_nat x)), (Nat.ltb_spec (Z.to_nat x) (h + length l)); try done.
    exfalso. apply (pos_disjoint q (Z.of_nat i) (x - Z.of_nat h) Hq); fold x; lia.
  - rewrite lookup_app_r by lia. set (j := (i - length (contents q))%nat).
    assert (x = head q mod size q + Z.of_nat j) as ->.
    { unfold x. replace (tail q + Z.of_nat i) with (tail q + used q + Z.of_nat j) by (unfold j; lia).
      rewrite mod_step; rewrite <- ?head_mod by done; unfold j; lia. }
    replace (Z.to_nat (head q mod size q + Z.of_nat j)) with (h + j)%nat by lia.
    destruct (Nat.leb_spec h (h + j)), (Nat.ltb_spec (h + j) (h + length l)); try (unfold j in *; lia).
    cbn [andb]. replace (h + j - h)%nat with j by lia.
    destruct (lookup_lt_is_Some_2 l j) as [v Ev]; [lia|]. rewrite Ev. f_equal. by apply nth_lookup_Some.
Qed.

Lemma load_tail_ok q (k : nat) : byteq_wf q -> Z.of_nat k <= byteq_tailroom q ->
  load_tail q k = Ok (take k (contents q)).
Proof.
  intros Hq Hk. rewrite byteq_tailroom_eq in Hk by done. pose proof (size_bounds q Hq) as Hs.
  pose proof (bq_buffer q Hq) as Hb. pose proof (Z.mod_pos_bound (tail q) (size q) ltac:(lia)) as Ht.
  unfold load_tail. rewrite pos_mod by done. set (t := Z.to_nat (tail q mod size q)) in *.
  assert (Et : Z.of_nat t = tail q mod size q) by (unfold t; lia).
  destruct (Nat.leb_spec (t + k) (length (buffer q))); [|lia]. f_equal. apply list_eq. intros i.
  destruct (Nat.lt_ge_cases i k) as [Hi|Hi]; [|by rewrite !lookup_take_ge].
  rewrite !lookup_take_lt by done. rewrite lookup_drop, contents_lookup by lia.
  rewrite mod_step by lia. replace (Z.to_nat (tail q mod size q + Z.of_nat i)) with (t + i)%nat by lia.
  destruct (lookup_lt_is_Some_2 (buffer q) (t + i)) as [v Ev]; [lia|].
  rewrite Ev. f_equal. symmetry. by apply nth_lookup_Some.
Qed.

Lemma advance_tail_ok q n : byteq_wf q -> 0 <= n <= used q ->
  let q' := Mk_byteq (buffer q) (size q) (head q) (u32 (tail q + n)) in
  byteq_wf q' /\ contents q' = drop (Z.to_nat n) (contents q).
Proof.
  intros Hq Hn q'. pose proof (size_bounds q Hq) as Hs. pose proof (used_range q Hq) as Hu.
  assert (Hused : used q' = used q - n).
  { unfold used, q'. cbn [head tail]. unfold u32 at 1 2. rewrite Zminus_mod_idemp_r.
    replace (head q - (tail q + n)) with (head q - tail q - n) by lia.
    rewrite <- Zminus_mod_idemp_l. change ((head q - tail q) mod 2 ^ 32) with (used q).
    change (u32 (head q - tail q)) with (used q). apply Z.mod_small. lia. }
  assert (Hq' : byteq_wf q').
  { split; [apply (bq_size q Hq)|apply (bq_buffer q Hq)|rewrite Hused; simpl; lia|apply Hq|apply u32_range]. }
  split; [done|]. apply list_eq. intros i. rewrite lookup_drop.
  destruct (Z.lt_ge_cases (Z.of_nat i) (used q')) as [Hi|Hi].
  - rewrite !contents_lookup by lia. do 3 f_equal. cbn [tail size q'].
    rewrite <- Zplus_mod_idemp_l, mod_u32, Zplus_mod_idemp_l by done. f_equal. lia.
  - by rewrite !contents_lookup_ge by (done || lia).
Qed.

(** ** The operations *)

Lemma byteq_init_wf buf k : 0 <= k <= 30 -> Z.of_nat (length buf) = 2 ^ k ->
  exists q, byteq_init buf (2 ^ k) = Ok q /\ byteq_wf q /\ contents q = [].
Proof.
  intros Hk Hb. unfold byteq_init. rewrite is_pow2_pow2 by lia. cbn [ovs_assert rbind].
  eexists. split; [done|]. split; [|done]. split; simpl; eauto; try (unfold in_u32; lia).
  unfold used, u32. simpl. rewrite Z.mod_0_l by lia. apply Z.pow_nonneg. lia.
Qed.

Lemma headroom_pos q : byteq_wf q -> used q < size q -> 0 < byteq_headroom q <= 2 ^ 30.
Proof.
  intros Hq Hu. pose proof (size_bounds q Hq). pose proof (used_range q Hq).
  rewrite byteq_headroom_eq by done.
  pose proof (Z.mod_pos_bound (head q) (size q) ltac:(lia)). lia.
Qed.

Lemma tailroom_pos q : byteq_wf q -> 0 < used q -> 0 < byteq_tailroom q <= used q.
Proof.
  intros Hq Hu. pose proof (size_bounds q Hq). rewrite byteq_tailroom_eq by done.
  pose proof (Z.mod_pos_bound (tail q) (size q) ltac:(lia)). lia.
Qed.

Lemma is_full_spec q : byteq_wf q -> byteq_is_full q = (used q =? size q).
Proof.
  intros Hq. unfold byteq_is_full. rewrite byteq_avail_eq by done. repeat case_bool; lia || done.
Qed.

Lemma is_empty_spec q : byteq_wf q -> byteq_is_empty q = (used q =? 0).
Proof. intros Hq. unfold byteq_is_empty. by rewrite byteq_used_eq. Qed.

Lemma advance_head_ok q (l : list Z) buf : byteq_wf (Mk_byteq buf (size q) (head q) (tail q)) ->
  Z.of_nat (length l) <= byteq_headroom q ->
  byteq_headroom (Mk_byteq buf (size q) (head q) (tail q)) = byteq_headroom q ->
  byteq_advance_head (Mk_byteq buf (size q) (head q) (tail q)) (Z.of_nat (length l))
  = Ok (Mk_byteq buf (size q) (u32 (head q + Z.of_nat (length l))) (tail q)).
Proof.
  intros Hq Hl E. unfold byteq_advance_head. rewrite E.
  assert (byteq_headroom q <= 2 ^ 30) as Hh.
  { rewrite <- E, byteq_headroom_eq by done. pose proof (size_bounds _ Hq) as Hs. simpl in *.
    pose proof (used_range _ Hq). lia. }
  rewrite u32_id by (unfold in_u32; lia).
  destruct (Z.leb_spec (Z.of_nat (length l)) (byteq_headroom q)); [done|lia].
Qed.

(** Storing a run of bytes at the head and advancing over it. *)
Lemma append_ok q l : byteq_wf q -> Z.of_nat (length l) <= byteq_headroom q ->
  exists q', (let* q := store_head q l in byteq_advance_head q (Z.of_nat (length l))) = Ok q' /\
    byteq_wf q' /\ contents q' = contents q ++ l /\ size q' = size q.
Proof.
  intros Hq Hl. destruct (store_advance q l Hq Hl) as (buf & -> & Hq' & Hc). cbn [rbind].
  exists (Mk_byteq buf (size q) (u32 (head q + Z.of_nat (length l))) (tail q)).
  split; [|done]. apply advance_head_ok; [|done|].
  - split; try apply Hq. apply (bq_buffer _ Hq').
  - done.
Qed.

Lemma putn_loop_ok fuel : forall q p, byteq_wf q -> (length p <= fuel)%nat ->
  used q + Z.of_nat (length p) <= size q ->
  exists q', putn_loop fuel q p = Ok q' /\ byteq_wf q' /\ contents q' = contents q ++ p.
Proof.
  induction fuel as [|fuel IH]; intros q p Hq Hf Hu; cbn [putn_loop].
  { exists q. destruct p; [by rewrite app_nil_r|simpl in Hf; lia]. }
  destruct (Nat.ltb_spec 0 (length p));
    [|exists q; destruct p; [by rewrite app_nil_r|simpl in *; lia]].
  pose proof (headroom_pos q Hq ltac:(lia)) as Hh. rewrite u32_id by (unfold in_u32; lia).
  set (chunk := Z.min (Z.of_nat (length p)) (byteq_headroom q)).
  set (l := take (Z.to_nat chunk) p).
  assert (El : Z.of_nat (length l) = chunk) by (unfold l; rewrite length_take; lia).
  destruct (append_ok q l Hq ltac:(lia)) as (q1 & E1 & Hq1 & Hc1 & Hs1).
  rewrite El in E1. rewrite <- rbind_assoc, E1. cbn [rbind].
  assert (Hu1 : used q1 = used q + chunk).
  { rewrite <- (length_queued q Hq), <- (length_queued q1 Hq1), Hc1, length_app. lia. }
  destruct (IH q1 (drop (Z.to_nat chunk) p) Hq1) as (q2 & -> & Hq2 & Hc2);
    [rewrite length_drop; lia..|].
  exists q2. split; [done|]. split; [done|]. rewrite Hc2, Hc1, <- app_assoc. unfold l.
  by rewrite take_drop.
Qed.

(** ** Properties *)

(** [byteq_put] adds its byte at the end of the queue unless the queue is
    full, in which case the assertion fails. *)
Theorem byteq_put_spec q c : byteq_wf q ->
  (used q = size q /\ byteq_put q c = Fault AssertFail) \/
  (used q < size q /\ exists q', byteq_put q c = Ok q' /\ byteq_wf q' /\
     contents q' = contents q ++ [c]).
Proof.
  intros Hq. unfold byteq_put. rewrite is_full_spec by done. pose proof (used_range q Hq).
  destruct (Z.eqb_spec (used q) (size q)); [by left|right]. split; [lia|]. cbn [negb ovs_assert rbind].
  destruct (store_advance q [c] Hq) as (buf & -> & Hq' & Hc).
  - pose proof (headroom_pos q Hq ltac:(lia)). simpl. lia.
  - cbn [rbind]. eauto.
Qed.

Lemma example_q_wf (b t : Z) : in_u32 b -> in_u32 t -> u32 (b - t) <= 4 ->
  byteq_wf (Mk_byteq [1; 2; 3; 4] 4 b t).
Proof. intros Hb Ht Hu. split; simpl; auto. by exists 2. Qed.

Lemma byteq_put_spec_witness :
  exists q', byteq_put (Mk_byteq [1; 2; 3; 4] 4 1 4294967295) 9 = Ok q' /\ contents q' = [4; 1; 9].
Proof.
  destruct (byteq_put_spec (Mk_byteq [1; 2; 3; 4] 4 1 4294967295) 9) as [[H _]|(_ & q' & E & _ & Hc)].
  - apply example_q_wf; vm_compute; try split; congruence.
  - discriminate H.
  - exists q'. split; [exact E|]. rewrite Hc. reflexivity.
Defined.

(** [byteq_get] removes and returns the oldest byte, also across the
    wrap-around of the counters and of the buffer; on an empty queue the
    assertion fails. *)
Theorem byteq_get_spec q : byteq_wf q ->
  match contents q with
  | [] => byteq_get q = Fault AssertFail
  | c :: l => exists q', byteq_get q = Ok (c, q') /\ byteq_wf q' /\ contents q' = l
  end.
Proof.
  intros Hq. unfold byteq_get. rewrite is_empty_spec by done.
  pose proof (length_queued q Hq) as Hl. destruct (contents q) as [|c l] eqn:Ec.
  - simpl in Hl. by rewrite <- Hl.
  - simpl in Hl. destruct (Z.eqb_spec (used q) 0); [lia|]. cbn [negb ovs_assert rbind].
    pose proof (tailroom_pos q Hq ltac:(lia)). rewrite load_tail_ok by (done || lia).
    rewrite Ec. cbn [rbind take]. destruct (advance_tail_ok q 1 Hq ltac:(lia)) as [Hq' Hc].
    eexists. split; [done|]. split; [done|]. rewrite Hc, Ec. done.
Qed.

Lemma byteq_get_spec_witness :
  exists q', byteq_get (Mk_byteq [1; 2; 3; 4] 4 1 4294967295) = Ok (4, q') /\ contents q' = [1].
Proof.
  assert (H : byteq_wf (Mk_byteq [1; 2; 3; 4] 4 1 4294967295))
    by (apply example_q_wf; vm_compute; try split; congruence).
  destruct (byteq_get_spec _ H) as (q' & E & _ & Hc). eauto.
Defined.

(** [byteq_putn] appends all of its bytes, splitting them over the end of
    the buffer, whenever they fit, and otherwise fails its assertion. *)
Theorem byteq_putn_spec q p : byteq_wf q -> Z.of_nat (length p) < 2 ^ 32 ->
  if used q + Z.of_nat (length p) <=? size q
  then exists q', byteq_putn q p = Ok q' /\ byteq_wf q' /\ contents q' = contents q ++ p
  else byteq_putn q p = Fault AssertFail.
Proof.
  intros Hq Hp. unfold byteq_putn. pose proof (size_bounds q Hq). pose proof (used_range q Hq).
  rewrite byteq_avail_eq, u32_id by (done || unfold in_u32; lia).
  destruct (Z.leb_spec (used q + Z.of_nat (length p)) (size q)).
  - destruct (Z.leb_spec (Z.of_nat (length p)) (size q - used q)); [|lia]. cbn [ovs_assert rbind].
    by apply putn_loop_ok.
  - by destruct (Z.leb_spec (Z.of_nat (length p)) (size q - used q)); [lia|].
Qed.

Lemma byteq_putn_spec_witness :
  exists q', byteq_putn (Mk_byteq [1; 2; 3; 4] 4 7 6) [7; 8; 9] = Ok q' /\ contents q' = [3; 7; 8; 9].
Proof.
  assert (H : byteq_wf (Mk_byteq [1; 2; 3; 4] 4 7 6))
    by (apply example_q_wf; vm_compute; try split; congruence).
  destruct (byteq_putn_spec _ [7; 8; 9] H) as (q' & E & _ & Hc); [done|].
  exists q'. split; [exact E|]. rewrite Hc. reflexivity.
Defined.

(** Whatever the descriptor accepts, [byteq_write] delivers a prefix of the
    queue in order and keeps the rest: nothing is lost, repeated or reordered;
    it reports success exactly when the queue was drained. *)
Theorem byteq_write_fifo results : forall q written err out q', byteq_wf q ->
  byteq_write results q written = Ok (err, out, q') ->
  byteq_wf q' /\ out ++ contents q' = written ++ contents q /\ (err = 0 <-> contents q' = []).
Proof.
  induction results as [|n results IH]; intros q written err out q' Hq E; cbn [byteq_write] in E;
    rewrite is_empty_spec in E by done; pose proof (length_queued q Hq) as Hl;
    destruct (Z.eqb_spec (used q) 0) as [Hz|Hz].
  1, 3: injection E as <- <- <-; rewrite Hz in Hl; destruct (contents q); [done|simpl in Hl; lia].
  - injection E as <- <- <-. split; [done|]. split; [done|]. split; [done|]. intros Ec.
    rewrite Ec in Hl. simpl in Hl. lia.
  - pose proof (used_range q Hq). pose proof (tailroom_pos q Hq ltac:(lia)) as Ht.
    destruct (Z.ltb_spec 0 n).
    + rewrite load_tail_ok in E by (done || lia). cbn [rbind] in E.
      apply rbind_Ok in E as (q1 & E1 & E). unfold byteq_advance_tail in E1.
      pose proof (size_bounds q Hq). rewrite u32_id in E1 by (unfold in_u32; lia).
      destruct (Z.leb_spec n (byteq_tailroom q)); [|done]. injection E1 as <-.
      destruct (advance_tail_ok q n Hq ltac:(lia)) as [Hq1 Hc1].
      apply IH in E as (Hq' & Ho & He); [|done]. split; [done|]. split; [|done].
      rewrite Ho, Hc1, <- app_assoc. f_equal.
      rewrite take_take, Nat.min_l by lia. apply take_drop.
    + apply rbind_Ok in E as ([] & Ea & E). injection E as <- <- <-.
      destruct (Z.ltb_spec n 0); [|done]. split; [done|]. split; [done|].
      split; [lia|]. intros Ec. rewrite Ec in Hl. simpl in Hl. lia.
Qed.

Lemma byteq_write_fifo_witness :
  exists q', byteq_write [2; -11] (Mk_byteq [1; 2; 3; 4] 4 8 4) [] = Ok (11, [1; 2], q') /\
    [1; 2] ++ contents q' = [1; 2; 3; 4].
Proof.
  assert (H : byteq_wf (Mk_byteq [1; 2; 3; 4] 4 8 4))
    by (apply example_q_wf; vm_compute; try split; congruence).
  eexists. split; [reflexivity|].
  eapply (byteq_write_fifo [2; -11] _ [] 11 [1; 2] _ H). reflexivity.
Defined.

(** With a descriptor that returns at most the bytes asked for, [byteq_read]
    appends what was read, in order, and stops with success exactly when the
    queue is full. *)
Theorem byteq_read_appends results : forall q err q', byteq_wf q ->
  byteq_read results q = Ok (err, q') ->
  Forall (fun r => match r with Errno e => 0 < e | _ => True end) results ->
  byteq_wf q' /\ (exists l, contents q' = contents q ++ l) /\ (err = 0 <-> used q' = size q').
Proof.
  induction results as [|r results IH]; intros q err q' Hq E Hr; cbn [byteq_read] in E;
    rewrite is_full_spec in E by done; destruct (Z.eqb_spec (used q) (size q)) as [Hz|Hz].
  1, 3: injection E as <- <-; split; [done|]; split; [exists []; by rewrite app_nil_r|done].
  - injection E as <- <-. split; [done|]. split; [exists []; by rewrite app_nil_r|done].
  - apply Forall_cons in Hr as [Hr0 Hr]. pose proof (used_range q Hq).
    destruct r as [l| |e].
    + destruct (Nat.ltb_spec 0 (length l)).
      * apply rbind_Ok in E as (q0 & E0 & E). apply rbind_Ok in E as (q1 & E1 & E).
        assert (Hl : Z.of_nat (length l) <= byteq_headroom q).
        { unfold store_head in E0. case_match; [|done]. injection E0 as <-.
          unfold byteq_advance_head in E1. apply rbind_Ok in E1 as (? & Ea & _).
          unfold ovs_assert in Ea. case_match eqn:El; [|done]. apply Z.leb_le in El.
          pose proof (headroom_pos q Hq ltac:(lia)) as Hh.
          change (byteq_headroom _) with (byteq_headroom q) in El.
          rewrite u32_id in El by (unfold in_u32; lia). done. }
        destruct (append_ok q l Hq Hl) as (q1' & Eq & Hq1 & Hc1 & _).
        rewrite E0 in Eq. cbn [rbind] in Eq. rewrite E1 in Eq. injection Eq as <-.
        apply IH in E as (Hq' & (l' & Hc') & He); [|done|done]. split; [done|]. split; [|done].
        exists (l ++ l'). by rewrite Hc', Hc1, app_assoc.
      * injection E as <- <-. split; [done|]. split; [exists []; by rewrite app_nil_r|done].
    + injection E as <- <-. split; [done|]. split; [exists []; by rewrite app_nil_r|done].
    + injection E as <- <-. split; [done|]. split; [exists []; by rewrite app_nil_r|]. split; lia.
Qed.

Lemma byteq_read_appends_witness :
  exists q', byteq_read [Data [7; 8]; Eof] (Mk_byteq [1; 2; 3; 4] 4 1 0) = Ok (-1, q') /\
    exists l, contents q' = [1] ++ l.
Proof.
  assert (H : byteq_wf (Mk_byteq [1; 2; 3; 4] 4 1 0))
    by (apply example_q_wf; vm_compute; try split; congruence).
  eexists. split; [reflexivity|].
  eapply (byteq_read_appends [Data [7; 8]; Eof] _ _ _ H); [reflexivity|by repeat constructor].
Defined.
