(* ===== verification/StrMap.v ===== *)
(** * String maps and sets ([lib/shash.c], [lib/simap.c], [lib/sset.c])

    The maps from names to pointers and to integers and the sets of names that
    the configuration code is built on: hash maps whose lookups compare hashes
    and then names.  A C string is the list of its bytes without the
    terminator.  The three modules share the lookup, insertion and deletion of
    named nodes, which the section [Named] has once. *)

From Stdlib Require Import ZArith Lia List Sorted.
From stdpp Require Import base list option sets gmap.
From S2P Require Import Prelude Hash Hmap.
#[local] Open Scope Z_scope.
#[local] Open Scope res_scope.

(** ** Strings *)

(** The byte at index [i], the terminator after the last one. *)
Definition char_at (s : list Z) (i : nat) : Z := default 0 (s !! i).

(** [strncmp(a, b, n)]: the difference at the first place where the strings
    differ among the first [n] bytes. *)
Fixpoint strncmp (n : nat) (a b : list Z) : Z :=
  match n with
  | O => 0
  | S n =>
      let ca := char_at a 0 in
      let cb := char_at b 0 in
      if negb (ca =? cb) then ca - cb
      else if ca =? 0 then 0
      else strncmp n (drop 1 a) (drop 1 b)
  end.

Definition strcmp (a b : list Z) : Z := strncmp (S (length a)) a b.

(** ** Named nodes *)

Class Named (A V : Type) := {
  node_name : A -> list Z;
  node_data : A -> V
}.

(** The test of the lookups by name and length. *)
Definition name_is (a name : list Z) (len : nat) : bool :=
  (strncmp len a name =? 0) && (char_at a len =? 0).

Section Named.
Context {A V : Type} `{Named A V}.

(** [HMAP_FOR_EACH_WITH_HASH] with the comparison by length. *)
Definition find__ (h : hmap A) (name : list Z) (name_len : nat) (hash : Z)
  : Res (option (hmap_node A)) :=
  let* l := hmap_for_each_with_hash h hash in
  Ok (List.find (fun nd => name_is (node_name (node_val nd)) name name_len) l).

(** Removal of every node, the next one being fetched before each removal. *)
Fixpoint remove_all (h : hmap A) (l : list (hmap_node A)) : Res (hmap A) :=
  match l with
  | [] => Ok h
  | nd :: l => let* h := hmap_remove h nd in remove_all h l
  end.

Definition clear (h : hmap A) : Res (hmap A) :=
  remove_all h (hmap_for_each (length (hmap_nodes h)) h).

(** Insertion sort by name in the place of [qsort]. *)
Fixpoint sort_insert (nd : hmap_node A) (l : list (hmap_node A)) : list (hmap_node A) :=
  match l with
  | [] => [nd]
  | x :: l' =>
      if strcmp (node_name (node_val nd)) (node_name (node_val x)) <=? 0
      then nd :: l else x :: sort_insert nd l'
  end.
Definition qsort_by_name (l : list (hmap_node A)) : list (hmap_node A) := foldr sort_insert [] l.

Definition sort (h : hmap A) : Res (option (list (hmap_node A))) :=
  if hmap_is_empty h then Ok None
  else
    let l := hmap_for_each (length (hmap_nodes h)) h in
    ovs_assert (Z.of_nat (length l) =? hmap_count h) ;;*
    Ok (Some (qsort_by_name l)).
End Named.

(** ** [shash]: names to pointers *)

Module Shash.
Section Shash.
Context {D : Type}.

Record shash_node := Mk_shash_node { name : list Z; data : D }.

#[export] Instance shash_named : Named shash_node D := {
  node_name := name;
  node_data := data
}.

Definition shash := hmap shash_node.

Definition hash_name (s : list Z) : Z := hash_bytes s 0.

Definition shash_init : shash := hmap_init.
Definition shash_swap (a b : shash) : shash * shash := (b, a).
Definition shash_clear (sh : shash) : Res shash := clear sh.
Definition shash_is_empty (sh : shash) : bool := hmap_is_empty sh.
Definition shash_count (sh : shash) : Z := hmap_count sh.

(** [addr] is the address of the new node. *)
Definition shash_add_nocopy__ (sh : shash) (addr : nat) (s : list Z) (d : D) (hash : Z) : Res shash :=
  hmap_insert_at sh (Mk_node addr 0 (Mk_shash_node s d)) hash.
Definition shash_add_nocopy (sh : shash) (addr : nat) (s : list Z) (d : D) : Res shash :=
  shash_add_nocopy__ sh addr s d (hash_name s).
Definition shash_add (sh : shash) (addr : nat) (s : list Z) (d : D) : Res shash :=
  shash_add_nocopy sh addr s d.

Definition shash_find__ (sh : shash) (s : list Z) (len : nat) (hash : Z)
  : Res (option (hmap_node shash_node)) := find__ sh s len hash.
Definition shash_find (sh : shash) (s : list Z) : Res (option (hmap_node shash_node)) :=
  shash_find__ sh s (length s) (hash_name s).
Definition shash_find_len (sh : shash) (s : list Z) (len : nat)
  : Res (option (hmap_node shash_node)) :=
  shash_find__ sh s len (hash_bytes (take len s) 0).
Definition shash_find_data (sh : shash) (s : list Z) : Res (option D) :=
  let* nd := shash_find sh s in Ok ((fun nd => data (node_val nd)) <$> nd).

Definition shash_add_once (sh : shash) (addr : nat) (s : list Z) (d : D) : Res (bool * shash) :=
  let* nd := shash_find sh s in
  match nd with
  | None => let* sh := shash_add sh addr s d in Ok (true, sh)
  | Some _ => Ok (false, sh)
  end.
Definition shash_add_assert (sh : shash) (addr : nat) (s : list Z) (d : D) : Res shash :=
  let* (added, sh) := shash_add_once sh addr s d in
  ovs_assert added ;;* Ok sh.

Definition set_data (d : D) (n : shash_node) : shash_node := Mk_shash_node (name n) d.

Definition shash_replace (sh : shash) (addr : nat) (s : list Z) (d : D) : Res (option D * shash) :=
  let hash := hash_name s in
  let* nd := shash_find__ sh s (length s) hash in
  match nd with
  | None => let* sh := shash_add_nocopy__ sh addr s d hash in Ok (None, sh)
  | Some nd => Ok (Some (data (node_val nd)), store_val sh (node_addr nd) (set_data d))
  end.

Definition shash_steal (sh : shash) (nd : hmap_node shash_node) : Res (list Z * shash) :=
  let* sh := hmap_remove sh nd in Ok (name (node_val nd), sh).
Definition shash_delete (sh : shash) (nd : hmap_node shash_node) : Res shash :=
  let* (_, sh) := shash_steal sh nd in Ok sh.
Definition shash_find_and_delete (sh : shash) (s : list Z) : Res (option D * shash) :=
  let* nd := shash_find sh s in
  match nd with
  | Some nd => let* sh := shash_delete sh nd in Ok (Some (data (node_val nd)), sh)
  | None => Ok (None, sh)
  end.
(** For data that is never a null pointer. *)
Definition shash_find_and_delete_assert (sh : shash) (s : list Z) : Res (option D * shash) :=
  let* (d, sh) := shash_find_and_delete sh s in
  ovs_assert (match d with Some _ => true | None => false end) ;;* Ok (d, sh).

Definition shash_first (sh : shash) : option (hmap_node shash_node) := List.hd_error (hmap_first sh).
Definition shash_sort (sh : shash) : Res (option (list (hmap_node shash_node))) := sort sh.

Fixpoint all_found (b : shash) (l : list (hmap_node shash_node)) : Res bool :=
  match l with
  | [] => Ok true
  | nd :: l =>
      let* f := shash_find b (name (node_val nd)) in
      match f with None => Ok false | Some _ => all_found b l end
  end.
Definition shash_equal_keys (a b : shash) : Res bool :=
  if negb (hmap_count a =? hmap_count b) then Ok false
  else all_found b (hmap_for_each (length (hmap_nodes a)) a).
End Shash.
Arguments shash_node : clear implicits.
Arguments shash : clear implicits.
End Shash.

(** ** [simap]: names to unsigned integers *)

Module Simap.
Record simap_node := Mk_simap_node { name : list Z; data : Z }.

#[export] Instance simap_named : Named simap_node Z := {
  node_name := name;
  node_data := data
}.

Definition simap := hmap simap_node.

Definition hash_name (s : list Z) (len : nat) : Z := hash_bytes (take len s) 0.

Definition simap_init : simap := hmap_init.
Definition simap_swap (a b : simap) : simap * simap := (b, a).
Definition simap_clear (m : simap) : Res simap := clear m.
Definition simap_is_empty (m : simap) : bool := hmap_is_empty m.
Definition simap_count (m : simap) : Z := hmap_count m.

Definition simap_find__ (m : simap) (s : list Z) (len : nat) (hash : Z)
  : Res (option (hmap_node simap_node)) := find__ m s len hash.
Definition simap_find_len (m : simap) (s : list Z) (len : nat) : Res (option (hmap_node simap_node)) :=
  simap_find__ m s len (hash_name s len).
Definition simap_find (m : simap) (s : list Z) : Res (option (hmap_node simap_node)) :=
  simap_find_len m s (length s).

Definition simap_add_nocopy__ (m : simap) (addr : nat) (s : list Z) (d hash : Z) : Res simap :=
  hmap_insert_at m (Mk_node addr 0 (Mk_simap_node s d)) hash.

Definition set_data (f : Z -> Z) (n : simap_node) : simap_node := Mk_simap_node (name n) (f (data n)).

Definition simap_put (m : simap) (addr : nat) (s : list Z) (d : Z) : Res (bool * simap) :=
  let len := length s in
  let hash := hash_name s len in
  let* nd := simap_find__ m s len hash in
  match nd with
  | Some nd => Ok (false, store_val m (node_addr nd) (set_data (fun _ => d)))
  | None => let* m := simap_add_nocopy__ m addr s d hash in Ok (true, m)
  end.

Definition simap_increase (m : simap) (addr : nat) (s : list Z) (amt : Z) : Res (Z * simap) :=
  if amt =? 0 then Ok (0, m)
  else
    let len := length s in
    let hash := hash_name s len in
    let* nd := simap_find__ m s len hash in
    match nd with
    | Some nd =>
        Ok (u32 (data (node_val nd) + amt), store_val m (node_addr nd) (set_data (fun d => u32 (d + amt))))
    | None => let* m := simap_add_nocopy__ m addr s amt hash in Ok (amt, m)
    end.

Definition simap_delete (m : simap) (nd : hmap_node simap_node) : Res simap := hmap_remove m nd.
Definition simap_find_and_delete (m : simap) (s : list Z) : Res (bool * simap) :=
  let* nd := simap_find m s in
  match nd with
  | Some nd => let* m := simap_delete m nd in Ok (true, m)
  | None => Ok (false, m)
  end.
Definition simap_get (m : simap) (s : list Z) : Res Z :=
  let* nd := simap_find m s in Ok (match nd with Some nd => data (node_val nd) | None => 0 end).
Definition simap_contains (m : simap) (s : list Z) : Res bool :=
  let* nd := simap_find m s in Ok (match nd with Some _ => true | None => false end).
Definition simap_sort (m : simap) : Res (option (list (hmap_node simap_node))) := sort m.
End Simap.

(** ** [sset]: sets of names *)

Module Sset.
Record sset_node := Mk_sset_node { name : list Z }.

#[export] Instance sset_named : Named sset_node unit := {
  node_name := name;
  node_data _ := tt
}.

Definition sset := hmap sset_node.

Definition hash_name__ (s : list Z) (len : nat) : Z := hash_bytes (take len s) 0.
Definition hash_name (s : list Z) : Z := hash_name__ s (length s).

Definition sset_find__ (set : sset) (s : list Z) (hash : Z) : Res (option (hmap_node sset_node)) :=
  let* l := hmap_for_each_with_hash set hash in
  Ok (List.find (fun nd => strcmp (name (node_val nd)) s =? 0) l).

Definition sset_add__ (set : sset) (addr : nat) (s : list Z) (hash : Z) : Res sset :=
  hmap_insert_at set (Mk_node addr 0 (Mk_sset_node s)) hash.

Definition sset_init : sset := hmap_init.
Definition sset_swap (a b : sset) : sset * sset := (b, a).
Definition sset_is_empty (set : sset) : bool := hmap_is_empty set.
Definition sset_count (set : sset) : Z := hmap_count set.

(** The nodes of a clone take the addresses from [addr] on. *)
Fixpoint clone_loop (set : sset) (addr : nat) (l : list (hmap_node sset_node)) : Res sset :=
  match l with
  | [] => Ok set
  | nd :: l =>
      let* set := sset_add__ set addr (name (node_val nd)) (node_hash nd) in
      clone_loop set (S addr) l
  end.
Definition sset_clone (addr : nat) (orig : sset) : Res sset :=
  clone_loop sset_init addr (hmap_for_each (length (hmap_nodes orig)) orig).

Definition sset_find (set : sset) (s : list Z) : Res (option (hmap_node sset_node)) :=
  sset_find__ set s (hash_name s).
Definition sset_contains (set : sset) (s : list Z) : Res bool :=
  let* nd := sset_find set s in Ok (match nd with Some _ => true | None => false end).

(** Whether a node was added. *)
Definition sset_add (set : sset) (addr : nat) (s : list Z) : Res (bool * sset) :=
  let hash := hash_name__ s (length s) in
  let* nd := sset_find__ set s hash in
  match nd with
  | Some _ => Ok (false, set)
  | None => let* set := sset_add__ set addr s hash in Ok (true, set)
  end.
Definition sset_add_assert (set : sset) (addr : nat) (s : list Z) : Res sset :=
  let* (added, set) := sset_add set addr s in ovs_assert added ;;* Ok set.
Fixpoint sset_add_array (set : sset) (addr : nat) (names : list (list Z)) : Res sset :=
  match names with
  | [] => Ok set
  | s :: names => let* (_, set) := sset_add set addr s in sset_add_array set (S addr) names
  end.

Definition sset_delete (set : sset) (nd : hmap_node sset_node) : Res sset := hmap_remove set nd.
Definition sset_clear (set : sset) : Res sset := clear set.
Definition sset_find_and_delete (set : sset) (s : list Z) : Res (bool * sset) :=
  let* nd := sset_find set s in
  match nd with
  | Some nd => let* set := sset_delete set nd in Ok (true, set)
  | None => Ok (false, set)
  end.
Definition sset_find_and_delete_assert (set : sset) (s : list Z) : Res sset :=
  let* (deleted, set) := sset_find_and_delete set s in ovs_assert deleted ;;* Ok set.

Definition sset_pop (set : sset) : Res (list Z * sset) :=
  match hmap_first set with
  | [] => Fault NullDeref
  | nd :: _ => let* set := sset_delete set nd in Ok (name (node_val nd), set)
  end.

Fixpoint all_found (b : sset) (l : list (hmap_node sset_node)) : Res bool :=
  match l with
  | [] => Ok true
  | nd :: l =>
      let* f := sset_find__ b (name (node_val nd)) (node_hash nd) in
      match f with None => Ok false | Some _ => all_found b l end
  end.
Definition sset_equals (a b : sset) : Res bool :=
  if negb (sset_count a =? sset_count b) then Ok false
  else all_found b (hmap_for_each (length (hmap_nodes a)) a).
End Sset.

(** ** Comparing strings *)

Definition strok (s : list Z) : Prop := Forall (fun c => 0 < c < 2 ^ 8) s.

Lemma strok_cons c s : strok (c :: s) <-> 0 < c < 2 ^ 8 /\ strok s.
Proof. unfold strok. by rewrite Forall_cons. Qed.

Lemma strncmp_sym n : forall a b, strncmp n b a = - strncmp n a b.
Proof.
  induction n as [|n IH]; intros a b; [done|]. cbn [strncmp]. rewrite (Z.eqb_sym (char_at b 0)).
  destruct (Z.eqb_spec (char_at a 0) (char_at b 0)) as [E|E]; cbn [negb]; [|lia].
  rewrite E. destruct (char_at b 0 =? 0); [done|apply IH].
Qed.

Lemma char_at_cons c s : char_at (c :: s) 0 = c.
Proof. done. Qed.

Lemma strncmp_0_take n : forall a b, strok a -> strok b -> (n <= length b)%nat ->
  strncmp n a b = 0 <-> take n a = take n b.
Proof.
  induction n as [|n IH]; intros a b Ha Hb Hn; [done|].
  destruct b as [|cb b]; [simpl in Hn; lia|]. apply strok_cons in Hb as [Hcb Hb].
  cbn [strncmp length] in *. rewrite char_at_cons. destruct a as [|ca a].
  - change (char_at [] 0) with 0. destruct (Z.eqb_spec 0 cb); [lia|]. cbn [negb]. split; [lia|done].
  - apply strok_cons in Ha as [Hca Ha]. rewrite char_at_cons.
    destruct (Z.eqb_spec ca cb) as [->|Hne]; cbn [negb].
    + destruct (Z.eqb_spec cb 0); [lia|]. cbn [drop]; rewrite ?drop_0. rewrite IH by (done || simpl in Hn; lia).
      cbn [take]. split; [by intros ->|by intros [=]].
    + split; [lia|]. cbn [take]. intros [= ? _]. done.
Qed.

(** The lookup test is equality with the first [len] bytes. *)
Lemma name_is_spec a s len : strok a -> strok s -> (len <= length s)%nat ->
  name_is a s len = bool_decide (a = take len s).
Proof.
  intros Ha Hs Hl. unfold name_is. apply eq_bool_prop_intro. rewrite bool_decide_spec.
  rewrite Is_true_true, andb_true_iff, !Z.eqb_eq, strncmp_0_take by done. split.
  - intros [E E0]. unfold char_at in E0. destruct (a !! len) as [c|] eqn:Ec.
    + simpl in E0. subst c. apply (Forall_lookup_1 _ _ _ _ Ha) in Ec. lia.
    + apply lookup_ge_None in Ec. by rewrite take_ge in E.
  - intros ->. rewrite take_take, Nat.min_id. split; [done|].
    unfold char_at. rewrite lookup_take_ge by lia. done.
Qed.

(** More bytes than the shorter string has do not change the comparison. *)
Lemma strncmp_ge n : forall a b k, strok a -> (length a < n)%nat ->
  strncmp (n + k) a b = strncmp n a b.
Proof.
  induction n as [|n IH]; intros a b k Ha Hn; [lia|]. cbn [strncmp Nat.add].
  destruct a as [|c a].
  - change (char_at [] 0) with 0. destruct (negb (0 =? char_at b 0)); done.
  - apply strok_cons in Ha as [Hc Ha]. rewrite char_at_cons.
    destruct (negb (c =? char_at b 0)); [done|]. destruct (Z.eqb_spec c 0); [lia|].
    cbn [drop]; rewrite ?drop_0. apply IH; [done|]. simpl in Hn. lia.
Qed.

Lemma strcmp_strncmp a b n : strok a -> (length a < n)%nat -> strcmp a b = strncmp n a b.
Proof.
  intros Ha Hn. unfold strcmp. replace n with (S (length a) + (n - S (length a)))%nat by lia.
  symmetry. apply strncmp_ge; [done|lia].
Qed.

Lemma strcmp_sym a b : strok a -> strok b -> strcmp b a = - strcmp a b.
Proof.
  intros Ha Hb. set (n := S (length a + length b)).
  rewrite (strcmp_strncmp a b n), (strcmp_strncmp b a n) by (done || unfold n; lia).
  apply strncmp_sym.
Qed.

Lemma strncmp_eq n : forall a b, strok a -> strok b -> (length a < n)%nat ->
  strncmp n a b = 0 <-> a = b.
Proof.
  induction n as [|n IH]; intros a b Ha Hb Hn; [lia|]. cbn [strncmp].
  destruct a as [|ca a], b as [|cb b]; try (apply strok_cons in Ha as [Hca Ha]);
    try (apply strok_cons in Hb as [Hcb Hb]); rewrite ?char_at_cons;
    change (char_at [] 0) with 0.
  - done.
  - destruct (Z.eqb_spec 0 cb); [lia|]. cbn [negb]. split; [lia|done].
  - destruct (Z.eqb_spec ca 0); [lia|]. cbn [negb]. split; [lia|done].
  - destruct (Z.eqb_spec ca cb) as [->|Hne]; cbn [negb].
    + destruct (Z.eqb_spec cb 0); [lia|]. cbn [drop]; rewrite ?drop_0. rewrite IH by (done || simpl in Hn; lia).
      split; [by intros ->|by intros [=]].
    + split; [lia|]. intros [= ? _]. done.
Qed.

Lemma strcmp_eq a b : strok a -> strok b -> strcmp a b = 0 <-> a = b.
Proof. intros Ha Hb. apply strncmp_eq; [done|done|lia]. Qed.

(** ** Tables of named nodes *)

Section NamedFacts.
Context {A V : Type} `{Named A V}.
Implicit Types (h : hmap A) (nd : hmap_node A) (m : gmap (list Z) V).

Definition nd_name nd : list Z := node_name (node_val nd).
Definition nd_data nd : V := node_data (node_val nd).

Definition named_node_ok (bound : nat) nd : Prop :=
  node_hash nd = hash_bytes (nd_name nd) 0 /\ strok (nd_name nd) /\ (node_addr nd < bound)%nat.

Record named_ok (bound : nat) h : Prop := {
  nm_wf : hmap_wf h;
  nm_node : Forall (named_node_ok bound) (hmap_nodes h)
}.

(** The map a table stands for. *)
Definition stands_for h m : Prop :=
  (fun nd => (nd_name nd, nd_data nd)) <$> hmap_nodes h ≡ₚ map_to_list m.

Definition named_rep (bound : nat) h m : Prop := named_ok bound h /\ stands_for h m.

Lemma named_init bound : named_rep bound (hmap_init (A := A)) ∅.
Proof.
  split; [split; [apply hmap_init_wf|constructor]|]. unfold stands_for.
  by rewrite map_to_list_empty.
Qed.

Lemma rep_mono b b' h m : (b <= b')%nat -> named_rep b h m -> named_rep b' h m.
Proof.
  intros Hb [[Hw Hn] Ha]. split; [split; [done|]|done]. eapply Forall_impl; [exact Hn|].
  intros nd (? & ? & ?). repeat split; auto. lia.
Qed.

Section Rep.
Context (b : nat) (h : hmap A) (m : gmap (list Z) V).
Hypothesis Hrep : named_rep b h m.

Lemma rep_node nd : nd ∈ hmap_nodes h ->
  node_hash nd = hash_bytes (nd_name nd) 0 /\ strok (nd_name nd) /\
  m !! nd_name nd = Some (nd_data nd).
Proof.
  destruct Hrep as [[Hw Hn] Ha]. intros Hin.
  destruct (proj1 (Forall_forall _ _) Hn nd Hin) as (? & ? & _). split; [done|]. split; [done|].
  apply elem_of_map_to_list. rewrite <- Ha.
  apply (list_elem_of_fmap_2 (fun nd => (nd_name nd, nd_data nd)) _ _ Hin).
Qed.

(** The node found by name among the nodes with the hash of the name. *)
Lemma rep_find s : strok s ->
  match List.find (fun nd => bool_decide (nd_name nd = s)) (with_hash h (hash_bytes s 0)) with
  | None => m !! s = None
  | Some nd => nd ∈ hmap_nodes h /\ nd_name nd = s /\ m !! s = Some (nd_data nd)
  end.
Proof.
  intros Hs. destruct (List.find _ _) as [nd|] eqn:Ef.
  - apply List.find_some in Ef as [Hin E]. apply bool_decide_eq_true in E.
    apply list_elem_of_In, elem_of_with_hash in Hin as [Hin _]; [|apply Hrep].
    destruct (rep_node nd Hin) as (_ & _ & Hm). rewrite E in Hm. auto.
  - destruct (m !! s) as [v|] eqn:Em; [|done]. exfalso. destruct Hrep as [[Hw Hn] Ha].
    apply elem_of_map_to_list in Em. rewrite <- Ha in Em.
    apply list_elem_of_fmap in Em as (nd & E & Hin). injection E as E _.
    assert (nd ∈ with_hash h (hash_bytes s 0)) as Hw'.
    { apply elem_of_with_hash; [done|]. split; [done|]. rewrite E. by apply rep_node. }
    apply list_elem_of_In in Hw'. pose proof (List.find_none _ _ Ef nd Hw') as Hd.
    rewrite bool_decide_eq_false in Hd. by apply Hd.
Qed.

Lemma find___spec s len : strok s -> (len <= length s)%nat ->
  find__ h s len (hash_bytes (take len s) 0)
  = Ok (List.find (fun nd => bool_decide (nd_name nd = take len s))
          (with_hash h (hash_bytes (take len s) 0))).
Proof.
  intros Hs Hl. unfold find__. rewrite hmap_for_each_with_hash_spec by apply Hrep. cbn [rbind].
  f_equal. assert (Hall : Forall (fun nd => strok (nd_name nd)) (with_hash h (hash_bytes (take len s) 0))).
  { apply Forall_forall. intros nd Hin. apply elem_of_with_hash in Hin as [Hin _]; [|apply Hrep].
    by apply rep_node. }
  induction Hall as [|nd l Hnd _ IH]; [done|]. cbn [List.find].
  rewrite name_is_spec by done. fold (nd_name nd). by rewrite IH.
Qed.

Lemma rep_insert v : strok (node_name v) -> m !! node_name v = None ->
  exists h', hmap_insert_at h (Mk_node b 0 v) (hash_bytes (node_name v) 0) = Ok h' /\
    named_rep (S b) h' (<[node_name v := node_data v]> m).
Proof.
  intros Hs Hm. destruct Hrep as [[Hw Hn] Ha].
  destruct (hmap_insert_at_spec h (Mk_node b 0 v) (hash_bytes (node_name v) 0))
    as (h' & -> & Hw' & Hp & _); [done|apply hash_bytes_u32| |].
  { intros (nd & E & Hin)%list_elem_of_fmap.
    destruct (proj1 (Forall_forall _ _) Hn nd Hin) as (_ & _ & ?). simpl in *. lia. }
  cbn [node_addr node_val] in Hp. exists h'. split; [done|].
  destruct (rep_mono b (S b) h m ltac:(lia) Hrep) as [[_ Hn'] _].
  split; [split; [done|]|].
  - rewrite Hp. constructor; [|done]. repeat split; auto.
  - unfold stands_for in *. rewrite Hp, map_to_list_insert by done. csimpl. by rewrite Ha.
Qed.

Lemma rep_perm nd : nd ∈ hmap_nodes h -> exists l, hmap_nodes h ≡ₚ nd :: l /\
  (fun x => (nd_name x, nd_data x)) <$> l ≡ₚ map_to_list (delete (nd_name nd) m).
Proof.
  intros Hin. destruct (rep_node nd Hin) as (_ & _ & Hm).
  apply elem_of_Permutation in Hin as (l & Hl). exists l. split; [done|].
  destruct Hrep as [_ Ha]. unfold stands_for in Ha. rewrite Hl in Ha. csimpl in Ha.
  rewrite <- (map_to_list_delete m _ _ Hm) in Ha. by apply Permutation_cons_inv in Ha.
Qed.

Lemma rep_remove nd : nd ∈ hmap_nodes h ->
  exists h', hmap_remove h nd = Ok h' /\ named_rep b h' (delete (nd_name nd) m).
Proof.
  intros Hin. destruct (rep_perm nd Hin) as (l & Hl & Hd). destruct Hrep as [[Hw Hn] _].
  destruct (hmap_remove_spec h nd Hw Hin) as (h' & -> & Hw' & Hp & _).
  exists h'. split; [done|]. assert (Hl' : hmap_nodes h' ≡ₚ l).
  { rewrite Hl in Hp. symmetry. by apply Permutation_cons_inv in Hp. }
  split; [split; [done|]|].
  - rewrite Hp in Hn. by apply Forall_cons in Hn as [].
  - unfold stands_for. by rewrite Hl'.
Qed.

Lemma rep_store nd f : nd ∈ hmap_nodes h -> (forall v, node_name (f v) = node_name v) ->
  named_rep b (store_val h (node_addr nd) f) (<[nd_name nd := node_data (f (node_val nd))]> m).
Proof.
  intros Hin Hf. destruct (rep_perm nd Hin) as (l & Hl & Hd). destruct Hrep as [[Hw Hn] _].
  split; [split; [by apply store_val_wf|]|].
  - rewrite hmap_nodes_store. apply Forall_fmap. eapply Forall_impl; [exact Hn|].
    intros x (Hh & Hs & Ha). unfold compose, upd_node. case_decide; [|by repeat split].
    unfold named_node_ok, nd_name in *. simpl. by rewrite Hf.
  - unfold stands_for. rewrite hmap_nodes_store. change (List.map ?g ?x) with (g <$> x).
    rewrite Hl. csimpl. pose proof (wf_addr h Hw) as Hna. fold (hmap_nodes h) in Hna.
    rewrite Hl in Hna. csimpl in Hna. apply NoDup_cons in Hna as [Hna _].
    assert (upd_node (node_addr nd) f <$> l = l) as El.
    { clear - Hna. induction l as [|x l IH]; [done|]. csimpl in Hna. csimpl. f_equal.
      - unfold upd_node. rewrite decide_False; [done|]. set_solver.
      - apply IH. set_solver. }
    rewrite El, Hd, <- (insert_delete_eq m). rewrite map_to_list_insert by apply lookup_delete_eq.
    apply Permutation_refl'. unfold upd_node. rewrite decide_True by done.
    unfold nd_name, nd_data. simpl. by rewrite Hf.
Qed.
End Rep.

(** Removing all nodes empties the table. *)
Lemma remove_all_rep b l : forall h m, named_rep b h m -> hmap_nodes h ≡ₚ l ->
  exists h', remove_all h l = Ok h' /\ named_rep b h' ∅.
Proof.
  induction l as [|nd l IH]; intros h m Hr Hp; cbn [remove_all].
  { exists h. split; [done|]. destruct Hr as [Hok Ha]. split; [done|]. unfold stands_for in *.
    apply Permutation_nil_r in Hp. rewrite Hp. by rewrite map_to_list_empty. }
  assert (Hin : nd ∈ hmap_nodes h) by (rewrite Hp; left).
  destruct (hmap_remove_spec h nd (nm_wf _ _ (proj1 Hr)) Hin) as (h1 & E & _ & Hp1 & _).
  destruct (rep_remove b h m Hr nd Hin) as (h1' & E' & Hr1). rewrite E in E'. injection E' as <-.
  rewrite E. cbn [rbind]. apply (IH h1 _ Hr1). rewrite Hp in Hp1. symmetry.
  by apply Permutation_cons_inv in Hp1.
Qed.

Lemma clear_rep b h m : named_rep b h m -> exists h', clear h = Ok h' /\ named_rep b h' ∅.
Proof.
  intros Hr. apply (remove_all_rep b _ h m Hr). rewrite hmap_for_each_spec; [done|apply Hr|done].
Qed.
End NamedFacts.

Lemma find_full {A V} `{Named A V} (b : nat) (h : hmap A) (m : gmap (list Z) V) (s : list Z) : named_rep b h m -> strok s ->
  exists r, find__ h s (length s) (hash_bytes s 0) = Ok r /\
    match r with
    | None => m !! s = None
    | Some nd => nd ∈ hmap_nodes h /\ nd_name nd = s /\ m !! s = Some (nd_data nd)
    end.
Proof.
  intros Hr Hs. pose proof (find___spec b h m Hr s (length s) Hs (le_n _)) as E.
  rewrite firstn_all in E. eexists. split; [exact E|]. by apply (rep_find b h m Hr).
Qed.

(** ** [shash] implements a finite map *)

Module ShashFacts.
Import Shash.
Section ShashFacts.
Context {D : Type}.

(** The operations on a map without duplicate names. *)
Inductive shash_op :=
  | AddOnce (s : list Z) (d : D)
  | Replace (s : list Z) (d : D)
  | FindAndDelete (s : list Z)
  | FindData (s : list Z).

Definition op_ok (o : shash_op) : Prop :=
  match o with AddOnce s _ | Replace s _ | FindAndDelete s | FindData s => strok s end.

Definition run_op (o : shash_op) (addr : nat) (sh : shash D) : Res ((bool + option D) * shash D) :=
  match o with
  | AddOnce s d => let* (r, sh) := shash_add_once sh addr s d in Ok (inl r, sh)
  | Replace s d => let* (r, sh) := shash_replace sh addr s d in Ok (inr r, sh)
  | FindAndDelete s => let* (r, sh) := shash_find_and_delete sh s in Ok (inr r, sh)
  | FindData s => let* r := shash_find_data sh s in Ok (inr r, sh)
  end.

Definition spec_op (o : shash_op) (m : gmap (list Z) D) : (bool + option D) * gmap (list Z) D :=
  match o with
  | AddOnce s d => match m !! s with None => (inl true, <[s := d]> m) | Some _ => (inl false, m) end
  | Replace s d => (inr (m !! s), <[s := d]> m)
  | FindAndDelete s => (inr (m !! s), delete s m)
  | FindData s => (inr (m !! s), m)
  end.

(** A sequence of operations; each one may take a fresh node address. *)
Fixpoint run_ops (l : list shash_op) (addr : nat) (sh : shash D)
  : Res (list (bool + option D) * shash D) :=
  match l with
  | [] => Ok ([], sh)
  | o :: l =>
      let* (r, sh) := run_op o addr sh in
      let* (rs, sh) := run_ops l (S addr) sh in
      Ok (r :: rs, sh)
  end.

Fixpoint spec_ops (l : list shash_op) (m : gmap (list Z) D)
  : list (bool + option D) * gmap (list Z) D :=
  match l with
  | [] => ([], m)
  | o :: l =>
      let '(r, m) := spec_op o m in
      let '(rs, m) := spec_ops l m in
      (r :: rs, m)
  end.

Lemma run_op_rep o addr sh m : named_rep addr sh m -> op_ok o ->
  exists r sh' m', run_op o addr sh = Ok (r, sh') /\ spec_op o m = (r, m') /\
    named_rep (S addr) sh' m'.
Proof.
  intros Hr Ho. assert (Hr' : named_rep (S addr) sh m) by (eapply rep_mono; [|exact Hr]; lia).
  assert (Hfind : forall s, strok s -> exists r, shash_find__ sh s (length s) (hash_bytes s 0) = Ok r /\
    match r with
    | None => m !! s = None
    | Some nd => nd ∈ hmap_nodes sh /\ nd_name nd = s /\ m !! s = Some (nd_data nd)
    end) by (intros s Hs; by apply (find_full addr)).
  destruct o as [s d|s d|s|s]; cbn [run_op spec_op op_ok] in *;
    destruct (Hfind s Ho) as ([nd|] & E & Hm).
  - destruct Hm as (Hin & Hn & Hm). unfold shash_add_once, shash_find, hash_name.
    rewrite E, Hm. cbn [rbind]. eauto 8.
  - unfold shash_add_once, shash_find, hash_name. rewrite E, Hm. cbn [rbind].
    destruct (rep_insert addr sh m Hr (Mk_shash_node s d) Ho Hm) as (sh' & Ei & Hr2).
    unfold shash_add, shash_add_nocopy, shash_add_nocopy__, hash_name.
    change (node_name (Mk_shash_node s d)) with s in Ei. rewrite Ei. cbn [rbind]. eauto 8.
  - destruct Hm as (Hin & Hn & Hm). unfold shash_replace, hash_name. rewrite E, Hm. cbn [rbind].
    eexists _, _, _. split; [reflexivity|]. split; [reflexivity|].
    pose proof (rep_store _ sh m Hr' nd (set_data d) Hin (fun v => eq_refl)) as Hs.
    by rewrite Hn in Hs.
  - unfold shash_replace, hash_name. rewrite E, Hm. cbn [rbind].
    destruct (rep_insert addr sh m Hr (Mk_shash_node s d) Ho Hm) as (sh' & Ei & Hr2).
    unfold shash_add_nocopy__. change (node_name (Mk_shash_node s d)) with s in Ei.
    rewrite Ei. cbn [rbind]. eauto 8.
  - destruct Hm as (Hin & Hn & Hm). unfold shash_find_and_delete, shash_find, hash_name.
    rewrite E, Hm. cbn [rbind]. destruct (rep_remove _ sh m Hr' nd Hin) as (sh' & Ed & Hr2).
    unfold shash_delete, shash_steal. rewrite Ed. cbn [rbind]. rewrite Hn in Hr2. eauto 8.
  - unfold shash_find_and_delete, shash_find, hash_name. rewrite E, Hm. cbn [rbind].
    eexists _, _, _. split; [reflexivity|]. split; [reflexivity|]. by rewrite delete_id.
  - destruct Hm as (Hin & Hn & Hm). unfold shash_find_data, shash_find, hash_name.
    rewrite E, Hm. cbn [rbind]. eauto 8.
  - unfold shash_find_data, shash_find, hash_name. rewrite E, Hm. cbn [rbind]. eauto 8.
Qed.

(** Any sequence of additions, replacements, deletions and lookups on an
    [shash] without duplicate names gives the results of the same sequence on a
    finite map from names to data, whatever the names hash to. *)
Theorem shash_refines_map l : forall addr sh m, named_rep addr sh m -> Forall op_ok l ->
  exists sh', run_ops l addr sh = Ok ((spec_ops l m).1, sh') /\
    named_rep (addr + length l) sh' (spec_ops l m).2.
Proof.
  induction l as [|o l IH]; intros addr sh m Hr Hl; cbn [run_ops spec_ops length].
  { exists sh. by rewrite Nat.add_0_r. }
  apply Forall_cons in Hl as [Ho Hl].
  destruct (run_op_rep o addr sh m Hr Ho) as (r & sh1 & m1 & -> & -> & Hr1). cbn [rbind].
  destruct (IH (S addr) sh1 m1 Hr1 Hl) as (sh' & E & Hr'). rewrite E. cbn [rbind].
  destruct (spec_ops l m1) as [rs m']. exists sh'. split; [done|].
  by rewrite <- Nat.add_succ_comm.
Qed.
End ShashFacts.

Lemma shash_refines_map_witness :
  exists sh', run_ops [AddOnce [97] 1; AddOnce [97] 2; Replace [97; 98] 3; FindData [97]] 0 shash_init
    = Ok ([inl true; inl false; inr None; inr (Some 1)], sh').
Proof.
  destruct (shash_refines_map [AddOnce [97] 1; AddOnce [97] 2; Replace [97; 98] 3; FindData [97]]
    0 shash_init ∅) as (sh' & E & _).
  - apply named_init.
  - repeat constructor; cbn; lia.
  - exists sh'. exact E.
Defined.
End ShashFacts.

(** ** [simap] implements a finite map to unsigned integers *)

Module SimapFacts.
Import Simap.

Inductive simap_op :=
  | Put (s : list Z) (d : Z)
  | Increase (s : list Z) (amt : Z)
  | FindAndDelete (s : list Z)
  | Get (s : list Z).

Definition op_ok (o : simap_op) : Prop :=
  match o with Put s _ | Increase s _ | FindAndDelete s | Get s => strok s end.

(** Booleans are returned as 0 and 1. *)
Definition run_op (o : simap_op) (addr : nat) (m : simap) : Res (Z * simap) :=
  match o with
  | Put s d => let* (r, m) := simap_put m addr s d in Ok (Z.b2z r, m)
  | Increase s amt => simap_increase m addr s amt
  | FindAndDelete s => let* (r, m) := simap_find_and_delete m s in Ok (Z.b2z r, m)
  | Get s => let* r := simap_get m s in Ok (r, m)
  end.

Definition spec_op (o : simap_op) (m : gmap (list Z) Z) : Z * gmap (list Z) Z :=
  match o with
  | Put s d => (match m !! s with None => 1 | Some _ => 0 end, <[s := d]> m)
  | Increase s amt =>
      if amt =? 0 then (0, m)
      else match m !! s with
           | None => (amt, <[s := amt]> m)
           | Some d => (u32 (d + amt), <[s := u32 (d + amt)]> m)
           end
  | FindAndDelete s => (match m !! s with None => 0 | Some _ => 1 end, delete s m)
  | Get s => (default 0 (m !! s), m)
  end.

Fixpoint run_ops (l : list simap_op) (addr : nat) (m : simap) : Res (list Z * simap) :=
  match l with
  | [] => Ok ([], m)
  | o :: l =>
      let* (r, m) := run_op o addr m in
      let* (rs, m) := run_ops l (S addr) m in
      Ok (r :: rs, m)
  end.

Fixpoint spec_ops (l : list simap_op) (m : gmap (list Z) Z) : list Z * gmap (list Z) Z :=
  match l with
  | [] => ([], m)
  | o :: l =>
      let '(r, m) := spec_op o m in
      let '(rs, m) := spec_ops l m in
      (r :: rs, m)
  end.

Lemma simap_find_rep addr sm m s : named_rep addr sm m -> strok s ->
  exists r, simap_find__ sm s (length s) (hash_name s (length s)) = Ok r /\
    match r with
    | None => m !! s = None
    | Some nd => nd ∈ hmap_nodes sm /\ nd_name nd = s /\ m !! s = Some (nd_data nd)
    end.
Proof. intros Hr Hs. unfold hash_name. rewrite firstn_all. by apply (find_full addr). Qed.

Lemma simap_insert_rep addr sm m s d : named_rep addr sm m -> strok s -> m !! s = None ->
  exists sm', simap_add_nocopy__ sm addr s d (hash_name s (length s)) = Ok sm' /\
    named_rep (S addr) sm' (<[s := d]> m).
Proof.
  intros Hr Hs Hm. unfold hash_name. rewrite firstn_all.
  apply (rep_insert addr sm m Hr (Mk_simap_node s d) Hs Hm).
Qed.

Lemma simap_run_op_rep o addr sm m : named_rep addr sm m -> op_ok o ->
  exists r sm' m', run_op o addr sm = Ok (r, sm') /\ spec_op o m = (r, m') /\
    named_rep (S addr) sm' m'.
Proof.
  intros Hr Ho. assert (Hr' : named_rep (S addr) sm m) by (eapply rep_mono; [|exact Hr]; lia).
  destruct o as [s d|s amt|s|s]; cbn [run_op spec_op op_ok] in *;
    destruct (simap_find_rep addr sm m s Hr Ho) as ([nd|] & E & Hm).
  - destruct Hm as (Hin & Hn & Hm). unfold simap_put. rewrite E, Hm. cbn [rbind].
    eexists _, _, _. split; [reflexivity|]. split; [reflexivity|].
    pose proof (rep_store _ sm m Hr' nd (set_data (fun _ => d)) Hin (fun v => eq_refl)) as Hs.
    by rewrite Hn in Hs.
  - unfold simap_put. rewrite E, Hm. cbn [rbind].
    destruct (simap_insert_rep addr sm m s d Hr Ho Hm) as (sm' & -> & Hr2). cbn [rbind]. eauto 8.
  - unfold simap_increase. destruct (Z.eqb_spec amt 0); [eauto 8|].
    destruct Hm as (Hin & Hn & Hm). rewrite E, Hm. cbn [rbind].
    eexists _, _, _. split; [reflexivity|]. split; [reflexivity|].
    pose proof (rep_store _ sm m Hr' nd (set_data (fun d => u32 (d + amt))) Hin (fun v => eq_refl)) as Hs.
    by rewrite Hn in Hs.
  - unfold simap_increase. destruct (Z.eqb_spec amt 0); [eauto 8|]. rewrite E, Hm. cbn [rbind].
    destruct (simap_insert_rep addr sm m s amt Hr Ho Hm) as (sm' & -> & Hr2). cbn [rbind]. eauto 8.
  - destruct Hm as (Hin & Hn & Hm). unfold simap_find_and_delete, simap_find, simap_find_len.
    rewrite E, Hm. cbn [rbind]. destruct (rep_remove _ sm m Hr' nd Hin) as (sm' & Ed & Hr2).
    unfold simap_delete. rewrite Ed. cbn [rbind]. rewrite Hn in Hr2. eauto 8.
  - unfold simap_find_and_delete, simap_find, simap_find_len. rewrite E, Hm. cbn [rbind].
    eexists _, _, _. split; [reflexivity|]. split; [reflexivity|]. by rewrite delete_id.
  - destruct Hm as (Hin & Hn & Hm). unfold simap_get, simap_find, simap_find_len.
    rewrite E, Hm. cbn [rbind]. eauto 8.
  - unfold simap_get, simap_find, simap_find_len. rewrite E, Hm. cbn [rbind]. eauto 8.
Qed.

(** Any sequence of [simap] operations gives the results of the same
    sequence on a finite map from names to unsigned integers, with wrap-around
    in [simap_increase]. *)
Theorem simap_refines_map l : forall addr sm m, named_rep addr sm m -> Forall op_ok l ->
  exists sm', run_ops l addr sm = Ok ((spec_ops l m).1, sm') /\
    named_rep (addr + length l) sm' (spec_ops l m).2.
Proof.
  induction l as [|o l IH]; intros addr sm m Hr Hl; cbn [run_ops spec_ops length].
  { exists sm. by rewrite Nat.add_0_r. }
  apply Forall_cons in Hl as [Ho Hl].
  destruct (simap_run_op_rep o addr sm m Hr Ho) as (r & sm1 & m1 & -> & -> & Hr1). cbn [rbind].
  destruct (IH (S addr) sm1 m1 Hr1 Hl) as (sm' & E & Hr'). rewrite E. cbn [rbind].
  destruct (spec_ops l m1) as [rs m']. exists sm'. split; [done|].
  by rewrite <- Nat.add_succ_comm.
Qed.

Lemma simap_refines_map_witness :
  exists sm', run_ops [Increase [97] 4294967295; Increase [97] 2; Put [98] 7; Get [97]] 0 simap_init
    = Ok ([4294967295; 1; 1; 1], sm').
Proof.
  destruct (simap_refines_map [Increase [97] 4294967295; Increase [97] 2; Put [98] 7; Get [97]]
    0 simap_init ∅) as (sm' & E & _).
  - apply named_init.
  - repeat constructor; cbn; lia.
  - exists sm'. exact E.
Defined.
End SimapFacts.

(** ** [sset] implements a finite set *)

Module SsetFacts.
Import Sset.

Definition sset_rep (addr : nat) (set : sset) (X : gset (list Z)) : Prop :=
  named_rep addr set (gset_to_gmap tt X).

Lemma sset_find_rep addr set X s : sset_rep addr set X -> strok s ->
  exists r, sset_find__ set s (hash_bytes s 0) = Ok r /\
    match r with
    | None => s ∉ X
    | Some nd => nd ∈ hmap_nodes set /\ nd_name nd = s /\ s ∈ X
    end.
Proof.
  intros Hr Hs. unfold sset_find__. rewrite hmap_for_each_with_hash_spec by apply Hr. cbn [rbind].
  assert (Hall : Forall (fun nd => strok (nd_name nd)) (with_hash set (hash_bytes s 0))).
  { apply Forall_forall. intros nd Hin. apply elem_of_with_hash in Hin as [Hin _]; [|apply Hr].
    by apply (rep_node addr set _ Hr). }
  assert (E : List.find (fun nd => strcmp (name (node_val nd)) s =? 0) (with_hash set (hash_bytes s 0))
    = List.find (fun nd => bool_decide (nd_name nd = s)) (with_hash set (hash_bytes s 0))).
  { induction Hall as [|nd l Hnd _ IH]; [done|]. cbn [List.find].
    change (name (node_val nd)) with (nd_name nd). rewrite IH.
    destruct (Z.eqb_spec (strcmp (nd_name nd) s) 0) as [E|E];
      rewrite strcmp_eq in E by done; by case_bool_decide. }
  rewrite E. pose proof (rep_find addr set _ Hr s Hs) as Hf.
  destruct (List.find (fun nd => bool_decide (nd_name nd = s)) (with_hash set (hash_bytes s 0)))
    as [nd|]; eexists; (split; [reflexivity|]).
  - destruct Hf as (? & ? & Hm). apply lookup_gset_to_gmap_Some in Hm as [? _]. auto.
  - by apply lookup_gset_to_gmap_None in Hf.
Qed.

(** [sset_add] adds a string that was not in the set and says so, and
    leaves the set alone otherwise. *)
Theorem sset_add_spec addr set X s : sset_rep addr set X -> strok s ->
  exists set', sset_add set addr s = Ok (bool_decide (s ∉ X), set') /\
    sset_rep (S addr) set' ({[s]} ∪ X).
Proof.
  intros Hr Hs. unfold sset_add, hash_name__. rewrite firstn_all.
  destruct (sset_find_rep addr set X s Hr Hs) as ([nd|] & -> & Hf); cbn [rbind].
  - destruct Hf as (_ & _ & Hx). exists set. rewrite bool_decide_false by (by intros ?).
    split; [done|]. replace ({[s]} ∪ X) with X by set_solver.
    unfold sset_rep. eapply rep_mono; [|exact Hr]. lia.
  - destruct (rep_insert addr set _ Hr (Mk_sset_node s)) as (set' & E & Hr'); [done| |].
    { by apply lookup_gset_to_gmap_None. }
    unfold sset_add__. change (node_name (Mk_sset_node s)) with s in E. rewrite E. cbn [rbind].
    exists set'. rewrite bool_decide_true by done. split; [done|].
    unfold sset_rep. by rewrite gset_to_gmap_union_singleton.
Qed.

Lemma sset_add_spec_witness :
  exists set', sset_add sset_init 0 [97] = Ok (true, set') /\ sset_rep 1 set' ({[ [97] ]} ∪ ∅).
Proof.
  destruct (sset_add_spec 0 sset_init ∅ [97]) as (set' & E & Hr);
    [apply named_init|repeat constructor; cbn; lia|].
  rewrite bool_decide_true in E by set_solver. by exists set'.
Defined.

Lemma all_found_spec addr b Y l : sset_rep addr b Y ->
  Forall (fun nd => node_hash nd = hash_bytes (nd_name nd) 0 /\ strok (nd_name nd)) l ->
  all_found b l = Ok (bool_decide (Forall (fun nd => nd_name nd ∈ Y) l)).
Proof.
  intros Hb Hl. induction Hl as [|nd l [Hh Hs] _ IH]; cbn [all_found]; [done|].
  change (name (node_val nd)) with (nd_name nd). rewrite Hh.
  destruct (sset_find_rep addr b Y _ Hb Hs) as ([x|] & -> & Hf); cbn [rbind].
  - rewrite IH. f_equal. apply bool_decide_ext. rewrite Forall_cons. tauto.
  - f_equal. symmetry. apply bool_decide_false. rewrite Forall_cons. tauto.
Qed.

Lemma rep_size {A V} `{Named A V} (addr : nat) (h : hmap A) (m : gmap (list Z) V) : named_rep addr h m ->
  length (hmap_nodes h) = size m.
Proof.
  intros [_ Ha]. apply Permutation_length in Ha. rewrite length_fmap in Ha.
  by rewrite length_map_to_list in Ha.
Qed.

(** [sset_equals] decides equality of the two sets (with fewer than 2^32
    strings in each). *)
Theorem sset_equals_spec addr addr' a b X Y : sset_rep addr a X -> sset_rep addr' b Y ->
  Z.of_nat (size X) < 2 ^ 32 -> Z.of_nat (size Y) < 2 ^ 32 ->
  sset_equals a b = Ok (bool_decide (X = Y)).
Proof.
  intros Ha Hb HX HY. unfold sset_equals, sset_count, hmap_count.
  assert (Hn : forall c s W, sset_rep c s W -> Z.of_nat (size W) < 2 ^ 32 -> hmap_n s = Z.of_nat (size W)).
  { intros c s W Hr Hs. rewrite (wf_n s (nm_wf _ _ (proj1 Hr))). fold (hmap_nodes s).
    rewrite (rep_size _ _ _ Hr). replace (size (gset_to_gmap tt W)) with (size W)
      by (rewrite <- (size_dom (gset_to_gmap tt W)), dom_gset_to_gmap; done).
    apply u32_id. unfold in_u32. lia. }
  rewrite (Hn _ _ _ Ha HX), (Hn _ _ _ Hb HY).
  destruct (Z.eqb_spec (Z.of_nat (size X)) (Z.of_nat (size Y))) as [E|E]; cbn [negb].
  - rewrite hmap_for_each_spec by (done || apply Ha).
    rewrite (all_found_spec addr' b Y) by (done || apply Forall_forall; intros nd Hin;
      destruct (rep_node addr a _ Ha nd Hin) as (? & ? & _); auto).
    f_equal. apply bool_decide_ext. rewrite Forall_forall. split.
    + intros Hall. apply set_subseteq_size_eq; [|lia]. intros s Hs.
      assert (Hm : gset_to_gmap tt X !! s = Some tt) by by apply lookup_gset_to_gmap_Some.
      apply elem_of_map_to_list in Hm. rewrite <- (proj2 Ha) in Hm.
      apply list_elem_of_fmap in Hm as (nd & [= ->] & Hin). by apply Hall.
    + intros <- nd Hin. destruct (rep_node addr a _ Ha nd Hin) as (_ & _ & Hm).
      by apply lookup_gset_to_gmap_Some in Hm as [? _].
  - f_equal. symmetry. apply bool_decide_false. intros ->. done.
Qed.

Lemma sset_equals_spec_witness : sset_equals sset_init sset_init = Ok true.
Proof.
  rewrite (sset_equals_spec 0 0 sset_init sset_init ∅ ∅);
    [reflexivity|apply named_init|apply named_init|done|done].
Defined.
End SsetFacts.

(** ** Sorting by name *)

Module SortFacts.

Lemma strncmp_trans n : forall a b c, strncmp n a b <= 0 -> strncmp n b c <= 0 -> strncmp n a c <= 0.
Proof.
  induction n as [|n IH]; intros a b c; cbn [strncmp]; [lia|].
  destruct (Z.eqb_spec (char_at a 0) (char_at b 0)) as [E1|E1], (Z.eqb_spec (char_at b 0) (char_at c 0)) as [E2|E2],
    (Z.eqb_spec (char_at a 0) (char_at c 0)) as [E3|E3]; cbn [negb]; try lia.
  rewrite <- E1. destruct (Z.eqb_spec (char_at a 0) 0); [done|]. apply IH.
Qed.

Lemma strcmp_trans a b c : strok a -> strok b -> strok c ->
  strcmp a b <= 0 -> strcmp b c <= 0 -> strcmp a c <= 0.
Proof.
  intros Ha Hb Hc. rewrite (strcmp_strncmp a b (S (length a + length b))) by (done || lia).
  rewrite (strcmp_strncmp b c (S (length a + length b))) by (done || lia).
  rewrite (strcmp_strncmp a c (S (length a + length b))) by (done || lia). apply strncmp_trans.
Qed.

Section Sorting.
Context {A V : Type} `{Named A V}.
Implicit Types (h : hmap A) (nd : hmap_node A) (l : list (hmap_node A)) (m : gmap (list Z) V).

Definition name_le nd nd' : Prop := strcmp (nd_name nd) (nd_name nd') <= 0.
Definition name_lt nd nd' : Prop := strcmp (nd_name nd) (nd_name nd') < 0.

Lemma sort_insert_perm nd l : sort_insert nd l ≡ₚ nd :: l.
Proof.
  induction l as [|x l IH]; cbn [sort_insert]; [done|].
  destruct (_ <=? 0); [done|]. rewrite IH. apply Permutation_swap.
Qed.

Lemma qsort_perm l : qsort_by_name l ≡ₚ l.
Proof.
  induction l as [|nd l IH]; [done|]. cbn [qsort_by_name foldr]. rewrite sort_insert_perm.
  by apply perm_skip.
Qed.

Lemma sort_insert_sorted nd l : Forall (fun x => strok (nd_name x)) (nd :: l) ->
  StronglySorted name_le l -> StronglySorted name_le (sort_insert nd l).
Proof.
  intros Hok Hs. induction Hs as [|x l Hs IH Hx]; cbn [sort_insert]; [repeat constructor|].
  apply Forall_cons in Hok as [Hnd Hok]. apply Forall_cons in Hok as [Hxo Hl].
  fold (nd_name nd) (nd_name x). destruct (Z.leb_spec (strcmp (nd_name nd) (nd_name x)) 0) as [Hle|Hgt].
  - constructor; [by constructor|]. constructor; [done|]. rewrite Forall_forall in *.
    intros y Hy. eapply strcmp_trans; [..|exact Hle|by apply Hx]; auto.
  - constructor; [apply IH; by constructor|]. rewrite sort_insert_perm. constructor; [|done].
    unfold name_le. rewrite strcmp_sym by done. lia.
Qed.

Lemma qsort_sorted l : Forall (fun x => strok (nd_name x)) l -> StronglySorted name_le (qsort_by_name l).
Proof.
  induction 1 as [|nd l Hnd Hl IH]; [constructor|]. apply sort_insert_sorted; [|done].
  constructor; [done|]. fold (qsort_by_name l). by rewrite qsort_perm.
Qed.

Lemma sorted_strict l : Forall (fun x => strok (nd_name x)) l -> NoDup (nd_name <$> l) ->
  StronglySorted name_le l -> StronglySorted name_lt l.
Proof.
  intros Hok Hnd Hs. induction Hs as [|x l Hs IH Hx]; [constructor|].
  apply Forall_cons in Hok as [Hxo Hl]. apply NoDup_cons in Hnd as [Hn Hnd].
  constructor; [by apply IH|]. rewrite Forall_forall in *. intros y Hy. specialize (Hx y Hy).
  unfold name_lt, name_le in *. enough (strcmp (nd_name x) (nd_name y) <> 0) by lia.
  rewrite strcmp_eq by auto. intros E. apply Hn. rewrite E. by apply list_elem_of_fmap_2.
Qed.

Lemma rep_names_nodup b h m : named_rep b h m -> NoDup (nd_name <$> hmap_nodes h).
Proof.
  intros [_ Ha]. pose proof (NoDup_fst_map_to_list m) as Hn. rewrite <- Ha in Hn.
  by rewrite <- list_fmap_compose in Hn.
Qed.

Lemma sort_ok b h m : named_rep b h m -> m <> ∅ -> Z.of_nat (size m) < 2 ^ 32 ->
  exists l, sort h = Ok (Some l) /\ l ≡ₚ hmap_nodes h /\ StronglySorted name_lt l.
Proof.
  intros Hr Hm Hsz. pose proof (SsetFacts.rep_size _ _ _ Hr) as Hlen.
  assert (Hn : hmap_n h = Z.of_nat (size m)).
  { rewrite (wf_n h (nm_wf _ _ (proj1 Hr))). fold (hmap_nodes h). rewrite Hlen.
    apply u32_id. unfold in_u32. lia. }
  assert (size m <> 0%nat) by (by rewrite map_size_non_empty_iff).
  unfold sort, hmap_is_empty, hmap_count. rewrite Hn, hmap_for_each_spec by (done || apply Hr).
  destruct (Z.eqb_spec (Z.of_nat (size m)) 0); [lia|]. rewrite Hlen, Z.eqb_refl. cbn [ovs_assert rbind].
  assert (Hok : Forall (fun x => strok (nd_name x)) (hmap_nodes h)).
  { apply Forall_forall. intros nd Hin. by apply (rep_node b h m Hr). }
  eexists. split; [reflexivity|]. split; [apply qsort_perm|].
  apply sorted_strict; [by rewrite qsort_perm| |by apply qsort_sorted].
  rewrite qsort_perm. by eapply rep_names_nodup.
Qed.
End Sorting.

Import Shash.

(** [shash_sort] of a non-empty map returns its nodes, each once, in
    strictly increasing order of their names; its assertion cannot fail. *)
Theorem shash_sort_spec {D} (b : nat) (sh : shash D) (m : gmap (list Z) D) :
  named_rep b sh m -> m <> ∅ -> Z.of_nat (size m) < 2 ^ 32 ->
  exists l, shash_sort sh = Ok (Some l) /\
    ((fun nd => (nd_name nd, nd_data nd)) <$> l) ≡ₚ map_to_list m /\
    StronglySorted name_lt l.
Proof.
  intros Hr Hm Hsz. destruct (sort_ok b sh m Hr Hm Hsz) as (l & E & Hp & Hs).
  exists l. split; [exact E|]. split; [|done]. rewrite Hp. apply Hr.
Qed.

Lemma shash_sort_spec_witness :
  exists (sh : shash Z) (m : gmap (list Z) Z) l, named_rep 1 sh m /\ m <> ∅ /\
    shash_sort sh = Ok (Some l) /\ StronglySorted name_lt l.
Proof.
  destruct (rep_insert 0 hmap_init ∅ (named_init 0) (Mk_shash_node [97] 1)) as (sh & _ & Hr);
    [repeat constructor; cbn; lia|done|].
  pose (m := <[node_name (Mk_shash_node [97] 1):=node_data (Mk_shash_node [97] 1)]> (∅ : gmap (list Z) Z)).
  assert (Hm : m <> ∅) by apply insert_non_empty.
  destruct (shash_sort_spec 1 sh m Hr Hm) as (l & E & _ & Hs); [vm_compute; reflexivity|].
  by exists sh, m, l.
Defined.
End SortFacts.
