(* ===== verification/MacLearning.v ===== *)
(** * MAC learning ([lib/mac-learning.c], [ofproto/ofproto-dpif-xlate.c])

    The table of learned Ethernet addresses of a bridge: a hash map of entries,
    threaded on a list from the least to the most recently used one, and the
    code of the translator that keeps it up to date.  An entry lives at one
    address, which names both its hash map node and its list node, so that the
    two structures share their objects as in C.  The representation [ml_rep]
    ties both to one sequence of entries in order of use. *)

From Stdlib Require Import ZArith Lia List Sorted.
From stdpp Require Import base list option sets gmap.
From S2P Require Import Prelude Hash DList Hmap TokenBucket.
#[local] Open Scope Z_scope.
#[local] Open Scope res_scope.

(** ** The program: data *)

Definition MAC_DEFAULT_MAX : Z := 2048.
Definition MAC_GRAT_ARP_LOCK_TIME : Z := 5.
(** [TYPE_MINIMUM(time_t)] with a 32-bit [time_t]. *)
Definition TIME_MIN : Z := - 2 ^ 31.

Record mac_entry := Mk_mac_entry {
  expires : Z;
  grat_arp_lock : Z;
  mac : list Z;
  vlan : Z;
  port : option Z
}.

(** The memory of the list nodes is that of the table's own list. *)
Record mac_learning := Mk_ml {
  table : hmap mac_entry;
  lrus : addr;
  lru_mem : mem;
  secret : Z;
  flood_vlans : option Z;
  idle_time : Z;
  max_entries : Z;
  ref_cnt : Z;
  need_revalidate : bool
}.

Definition with_table (ml : mac_learning) (t : hmap mac_entry) (m : mem) : mac_learning :=
  Mk_ml t (lrus ml) m (secret ml) (flood_vlans ml) (idle_time ml) (max_entries ml)
    (ref_cnt ml) (need_revalidate ml).
Definition with_config (ml : mac_learning) (flood : option Z) (idle max : Z) : mac_learning :=
  Mk_ml (table ml) (lrus ml) (lru_mem ml) (secret ml) flood idle max (ref_cnt ml) (need_revalidate ml).
Definition with_flags (ml : mac_learning) (refs : Z) (revalidate : bool) : mac_learning :=
  Mk_ml (table ml) (lrus ml) (lru_mem ml) (secret ml) (flood_vlans ml) (idle_time ml)
    (max_entries ml) refs revalidate.

Definition set_expires (t : Z) (e : mac_entry) : mac_entry :=
  Mk_mac_entry t (grat_arp_lock e) (mac e) (vlan e) (port e).
Definition set_lock (t : Z) (e : mac_entry) : mac_entry :=
  Mk_mac_entry (expires e) t (mac e) (vlan e) (port e).
Definition set_port (p : option Z) (e : mac_entry) : mac_entry :=
  Mk_mac_entry (expires e) (grat_arp_lock e) (mac e) (vlan e) p.

(** The object at an address: [CONTAINER_OF] and the loads through it. *)
Definition entry_at (ml : mac_learning) (a : addr) : Res (hmap_node mac_entry) :=
  match List.find (fun nd => bool_decide (node_addr nd = a)) (hmap_nodes (table ml)) with
  | Some nd => Ok nd
  | None => Fault NullDeref
  end.
(** A store through a pointer to an entry. *)
Definition store (ml : mac_learning) (a : addr) (f : mac_entry -> mac_entry) : mac_learning :=
  with_table ml (store_val (table ml) a f) (lru_mem ml).

(** ** The program: [mac-learning.c] *)

Definition eth_addr_is_multicast (ea : list Z) : bool := Z.odd (default 0 (ea !! 0%nat)).
Definition eth_addr_equals (a b : list Z) : bool := bool_decide (a = b).

Definition mac_entry_set_grat_arp_lock (ml : mac_learning) (a : addr) (now : Z) : mac_learning :=
  store ml a (set_lock (s32 (now + MAC_GRAT_ARP_LOCK_TIME))).
Definition mac_entry_is_grat_arp_locked (e : mac_entry) (now : Z) : bool := now <? grat_arp_lock e.

Definition mac_entry_age (ml : mac_learning) (e : mac_entry) (now : Z) : Z :=
  let remaining := s32 (expires e - now) in
  s32 (idle_time ml - remaining).

Definition mac_table_hash (ml : mac_learning) (mac : list Z) (vlan : Z) : Z :=
  let mac1 := le_word (take 4 mac) in
  let mac2 := le_word (take 2 (drop 4 mac)) in
  hash_3words mac1 (Z.lor mac2 (u32 (Z.shiftl vlan 16))) (secret ml).

Definition mac_entry_lookup (ml : mac_learning) (m : list Z) (v : Z)
  : Res (option (hmap_node mac_entry)) :=
  let* l := hmap_for_each_with_hash (table ml) (mac_table_hash ml m v) in
  Ok (List.find (fun nd => (vlan (node_val nd) =? v) && eth_addr_equals (mac (node_val nd)) m) l).

Definition get_lru (ml : mac_learning) : Res (option (hmap_node mac_entry)) :=
  let* e := list_is_empty (lru_mem ml) (lrus ml) in
  if negb e then
    let* a := get_next (lru_mem ml) (lrus ml) in
    let* nd := entry_at ml a in Ok (Some nd)
  else Ok None.

Definition normalize_idle_time (idle : Z) : Z :=
  if idle <? 15 then 15 else if 3600 <? idle then 3600 else idle.

(** [head] is the address of the list head inside the new object and
    [random] the value of [random_uint32]. *)
Definition mac_learning_create (head : addr) (random idle : Z) : Res mac_learning :=
  let* m := list_init {[ head := Mk_list 0 0 ]} head in
  Ok (Mk_ml hmap_init head m random None (normalize_idle_time idle) MAC_DEFAULT_MAX 1 false).

Definition mac_learning_ref (ml_ : option mac_learning) : Res (option mac_learning) :=
  match ml_ with
  | None => Ok None
  | Some ml =>
      let orig := ref_cnt ml in
      ovs_assert (0 <? orig) ;;* Ok (Some (with_flags ml (s32 (orig + 1)) (need_revalidate ml)))
  end.

Fixpoint remove_all (h : hmap mac_entry) (l : list (hmap_node mac_entry)) : Res (hmap mac_entry) :=
  match l with
  | [] => Ok h
  | nd :: l => let* h := hmap_remove h nd in remove_all h l
  end.

(** [None] when the object was freed. *)
Definition mac_learning_unref (ml : option mac_learning) : Res (option mac_learning) :=
  match ml with
  | None => Ok None
  | Some ml =>
      let orig := ref_cnt ml in
      let ml := with_flags ml (s32 (orig - 1)) (need_revalidate ml) in
      ovs_assert (0 <? orig) ;;*
      if orig =? 1 then
        let* _ := remove_all (table ml) (hmap_for_each (length (hmap_nodes (table ml))) (table ml)) in
        Ok None
      else Ok (Some ml)
  end.

(** A bitmap of 4096 bits, as a number; null means that learning is enabled on
    every VLAN. *)
Definition vlan_bitmap_equal (a b : option Z) : bool :=
  match a, b with
  | None, None => true
  | Some a, Some b => a =? b
  | _, _ => false
  end.

Definition mac_learning_set_flood_vlans (ml : mac_learning) (bitmap : option Z) : bool * mac_learning :=
  if vlan_bitmap_equal (flood_vlans ml) bitmap then (false, ml)
  else (true, with_config ml bitmap (idle_time ml) (max_entries ml)).

Fixpoint shift_expiry (ml : mac_learning) (delta : Z) (l : list addr) : mac_learning :=
  match l with
  | [] => ml
  | a :: l => shift_expiry (store ml a (fun e => set_expires (s32 (expires e + delta)) e)) delta l
  end.

(** The traversal visits no more nodes than the table has. *)
Definition mac_learning_set_idle_time (ml : mac_learning) (idle : Z) : Res (option mac_learning) :=
  let idle := normalize_idle_time idle in
  if negb (idle =? idle_time ml) then
    let delta := s32 idle - s32 (idle_time ml) in
    let* l := list_for_each (length (hmap_nodes (table ml))) (lru_mem ml) (lrus ml) in
    match l with
    | None => Ok None
    | Some l =>
        let ml := shift_expiry ml delta l in
        Ok (Some (with_config ml (flood_vlans ml) idle (max_entries ml)))
    end
  else Ok (Some ml).

Definition mac_learning_set_max_entries (ml : mac_learning) (n : Z) : mac_learning :=
  with_config ml (flood_vlans ml) (idle_time ml)
    (if n <? 10 then 10 else if 1000 * 1000 <? n then 1000 * 1000 else n).

Definition is_learning_vlan (ml : mac_learning) (vlan : Z) : bool :=
  match flood_vlans ml with None => true | Some b => negb (Z.testbit b vlan) end.

Definition mac_learning_may_learn (ml : option mac_learning) (src_mac : list Z) (vlan : Z) : bool :=
  match ml with
  | None => false
  | Some ml => is_learning_vlan ml vlan && negb (eth_addr_is_multicast src_mac)
  end.

Definition mac_learning_expire (ml : mac_learning) (e : hmap_node mac_entry) : Res mac_learning :=
  let* t := hmap_remove (table ml) e in
  let* (m, _) := list_remove (lru_mem ml) (node_addr e) in
  Ok (with_table ml t (delete (node_addr e) m)).

(** [addr] is where [xmalloc] puts a new entry.  The result is the address of
    the entry. *)
Definition mac_learning_insert (ml : mac_learning) (addr : addr) (src_mac : list Z) (vlan now : Z)
  : Res (nat * mac_learning) :=
  let* e := mac_entry_lookup ml src_mac vlan in
  let* (a, ml) :=
    match e with
    | None =>
        let hash := mac_table_hash ml src_mac vlan in
        let* ml :=
          if max_entries ml <=? hmap_count (table ml) then
            let* lru := get_lru ml in
            match lru with
            | None => Fault NullDeref
            | Some lru => mac_learning_expire ml lru
            end
          else Ok ml in
        let* t := hmap_insert_at (table ml)
                    (Mk_node addr 0 (Mk_mac_entry 0 TIME_MIN src_mac vlan None)) hash in
        Ok (addr, with_table ml t (<[addr := Mk_list 0 0]> (lru_mem ml)))
    | Some e =>
        let* (m, _) := list_remove (lru_mem ml) (node_addr e) in
        Ok (node_addr e, with_table ml (table ml) m)
    end in
  let* m := list_push_back (lru_mem ml) (lrus ml) a in
  let ml := with_table ml (table ml) m in
  Ok (a, store ml a (set_expires (s32 (now + idle_time ml)))).

Definition mac_learning_changed (ml : mac_learning) : mac_learning := with_flags ml (ref_cnt ml) true.

Definition mac_learning_lookup (ml : mac_learning) (dst : list Z) (vlan : Z)
  : Res (option (hmap_node mac_entry)) :=
  if eth_addr_is_multicast dst then Ok None
  else if negb (is_learning_vlan ml vlan) then Ok None
  else
    let* e := mac_entry_lookup ml dst vlan in
    ovs_assert (match e with None => true
                | Some e => match port (node_val e) with None => false | Some _ => true end end) ;;*
    Ok e.

(** Expiration from the front of the list as long as [p] holds of the front
    entry.  [fuel] bounds the number of entries removed. *)
Fixpoint expire_while (fuel : nat) (p : mac_learning -> mac_entry -> bool) (ml : mac_learning)
  : Res mac_learning :=
  let* e := get_lru ml in
  match e, fuel with
  | Some e, S fuel =>
      if p ml (node_val e) then
        let* ml := mac_learning_expire (with_flags ml (ref_cnt ml) true) e in
        expire_while fuel p ml
      else Ok ml
  | _, _ => Ok ml
  end.

Definition mac_learning_flush (ml : mac_learning) : Res mac_learning :=
  let* ml := expire_while (length (hmap_nodes (table ml))) (fun _ _ => true) ml in
  let* t := hmap_shrink_at (table ml) in
  Ok (with_table ml t (lru_mem ml)).

Definition mac_learning_run (ml : mac_learning) (now : Z) : Res (bool * mac_learning) :=
  let* ml := expire_while (length (hmap_nodes (table ml)))
    (fun ml e => (max_entries ml <? hmap_count (table ml)) || (expires e <=? now)) ml in
  Ok (need_revalidate ml, with_flags ml (ref_cnt ml) false).

Definition mac_learning_wait (ml : mac_learning) : Res (option wake) :=
  if (max_entries ml <? hmap_count (table ml)) || need_revalidate ml then Ok (Some Immediately)
  else
    let* e := get_lru ml in
    Ok (match e with Some e => Some (At (expires (node_val e) * 1000)) | None => None end).

(** ** The program: the translator's use of the table *)

(** The fields of the packet, in host representation. *)
Record learn_flow := Mk_learn_flow {
  dl_src : list Z;
  dl_dst : list Z;
  dl_type : Z;
  nw_proto : Z;
  nw_src : Z;
  nw_dst : Z
}.

(** The masks that [is_gratuitous_arp] makes exact. *)
Record wildcards := Mk_wc { wc_dl_dst : bool; wc_nw_proto : bool; wc_nw_src : bool; wc_nw_dst : bool }.

Record xbundle := Mk_xbundle { ofbundle : option Z; bond : bool; is_none_bundle : bool }.

(** [htons(ETH_TYPE_ARP)] on a little-endian host. *)
Definition be_ETH_TYPE_ARP : Z := 0x0608.
Definition ARP_OP_REQUEST : Z := 1.
Definition ARP_OP_REPLY : Z := 2.

Definition eth_addr_is_broadcast (ea : list Z) : bool := forallb (fun b => b =? 0xff) ea.

Definition is_gratuitous_arp (f : learn_flow) (wc : wildcards) : bool * wildcards :=
  if negb (dl_type f =? be_ETH_TYPE_ARP) then (false, wc)
  else
    let wc := Mk_wc true (wc_nw_proto wc) (wc_nw_src wc) (wc_nw_dst wc) in
    if negb (eth_addr_is_broadcast (dl_dst f)) then (false, wc)
    else
      let wc := Mk_wc true true (wc_nw_src wc) (wc_nw_dst wc) in
      if nw_proto f =? ARP_OP_REPLY then (true, wc)
      else if nw_proto f =? ARP_OP_REQUEST then (nw_src f =? nw_dst f, Mk_wc true true true true)
      else (false, wc).

Definition is_mac_learning_update_needed (ml : mac_learning) (f : learn_flow) (wc : wildcards)
    (vlan now : Z) (in_xbundle : xbundle) : Res (bool * wildcards) :=
  if negb (mac_learning_may_learn (Some ml) (dl_src f) vlan) then Ok (false, wc)
  else
    let* mac := mac_learning_lookup ml (dl_src f) vlan in
    match mac with
    | None => Ok (true, wc)
    | Some mac =>
        if negb (mac_entry_age ml (node_val mac) now =? 0) then Ok (true, wc)
        else
          let differs := negb (bool_decide (port (node_val mac) = ofbundle in_xbundle)) in
          let '(arp, wc) := is_gratuitous_arp f wc in
          if arp then
            if negb (bond in_xbundle) then Ok (true, wc)
            else if mac_entry_is_grat_arp_locked (node_val mac) now then Ok (false, wc)
            else Ok (differs, wc)
          else Ok (differs, wc)
    end.

(** [if (mac->port.p != in_xbundle->ofbundle) ...] *)
Definition learn_port (ml : mac_learning) (a : addr) (in_xbundle : xbundle) : Res mac_learning :=
  let* mac := entry_at ml a in
  if negb (bool_decide (port (node_val mac) = ofbundle in_xbundle))
  then Ok (mac_learning_changed (store ml a (set_port (ofbundle in_xbundle))))
  else Ok ml.

Definition update_learning_table__ (ml : mac_learning) (addr : addr) (f : learn_flow) (wc : wildcards)
    (vlan now : Z) (in_xbundle : xbundle) : Res (mac_learning * wildcards) :=
  if negb (mac_learning_may_learn (Some ml) (dl_src f) vlan) then Ok (ml, wc)
  else
    let* (a, ml) := mac_learning_insert ml addr (dl_src f) vlan now in
    let '(arp, wc) := is_gratuitous_arp f wc in
    if arp then
      if negb (bond in_xbundle) then
        let* ml := learn_port (mac_entry_set_grat_arp_lock ml a now) a in_xbundle in Ok (ml, wc)
      else
        let* mac := entry_at ml a in
        if mac_entry_is_grat_arp_locked (node_val mac) now then Ok (ml, wc)
        else let* ml := learn_port ml a in_xbundle in Ok (ml, wc)
    else let* ml := learn_port ml a in_xbundle in Ok (ml, wc).

(** The lock is released between the check and the update: [other] is what
    other threads do to the table in between. *)
Definition update_learning_table (other : mac_learning -> mac_learning) (ml : mac_learning)
    (addr : addr) (f : learn_flow) (wc : wildcards) (vlan now : Z) (in_xbundle : xbundle)
  : Res (mac_learning * wildcards) :=
  if is_none_bundle in_xbundle then Ok (ml, wc)
  else
    let* (need_update, wc) := is_mac_learning_update_needed ml f wc vlan now in_xbundle in
    if need_update then update_learning_table__ (other ml) addr f wc vlan now in_xbundle
    else Ok (ml, wc).

(** ** Representation *)

Definition key (e : mac_entry) : list Z * Z := (mac e, vlan e).
Abbreviation nkey nd := (key (node_val nd)).

(** [l] has the entries from the least to the most recently used one. *)
Record ml_rep (fresh : nat) (ml : mac_learning) (l : list (hmap_node mac_entry)) : Prop := {
  rep_wf : hmap_wf (table ml);
  rep_nodes : hmap_nodes (table ml) ≡ₚ l;
  rep_list : dlist (lru_mem ml) (lrus ml) (node_addr <$> l);
  rep_hash : Forall (fun nd => node_hash nd = mac_table_hash ml (mac (node_val nd)) (vlan (node_val nd))) l;
  rep_keys : NoDup ((fun nd => nkey nd) <$> l);
  rep_fresh : (lrus ml < fresh)%nat /\ Forall (fun nd => (node_addr nd < fresh)%nat) l;
  rep_bound : Z.of_nat (length l) <= 1000000;
  rep_config : 15 <= idle_time ml <= 3600 /\ 10 <= max_entries ml <= 1000000
}.

Lemma find_unique {A} (p : A -> bool) l x : x ∈ l -> p x = true ->
  (forall y, y ∈ l -> p y = true -> y = x) -> List.find p l = Some x.
Proof.
  intros Hx Hp Hu. destruct (List.find p l) as [y|] eqn:E.
  - apply List.find_some in E as [Hin Hy]. apply list_elem_of_In in Hin. f_equal. auto.
  - apply list_elem_of_In in Hx. by rewrite (List.find_none _ _ E x Hx) in Hp.
Qed.

Lemma find_fmap {A B} (p : B -> bool) (f : A -> B) l :
  List.find p (f <$> l) = f <$> List.find (fun x => p (f x)) l.
Proof. induction l as [|x l IH]; [done|]. csimpl. by destruct (p (f x)). Qed.

Lemma nodup_fmap_inj {A B} (f : A -> B) l x y : NoDup (f <$> l) -> x ∈ l -> y ∈ l -> f x = f y -> x = y.
Proof.
  intros Hn Hx Hy E. apply list_elem_of_lookup in Hx as [i Hi]. apply list_elem_of_lookup in Hy as [j Hj].
  assert (i = j) as ->; [|congruence]. apply (NoDup_lookup (f <$> l) i j (f x)); [done|..].
  - by rewrite list_lookup_fmap, Hi.
  - by rewrite list_lookup_fmap, Hj, E.
Qed.

Section Rep.
Context (fresh : nat) (ml : mac_learning) (l : list (hmap_node mac_entry)).
Hypothesis Hrep : ml_rep fresh ml l.

Lemma ml_count : hmap_count (table ml) = Z.of_nat (length l).
Proof.
  destruct Hrep as [Hw Hp _ _ _ _ Hb _]. unfold hmap_count. rewrite (wf_n _ Hw), Hp.
  apply u32_id. unfold in_u32. lia.
Qed.

Lemma ml_length : length (hmap_nodes (table ml)) = length l.
Proof. by rewrite (rep_nodes _ _ _ Hrep). Qed.

Lemma ml_lookup m v : mac_entry_lookup ml m v
  = Ok (List.find (fun nd => bool_decide (nkey nd = (m, v))) l).
Proof.
  destruct Hrep as [Hw Hp _ Hh Hk _ _ _]. unfold mac_entry_lookup.
  rewrite hmap_for_each_with_hash_spec by done. cbn [rbind]. f_equal.
  assert (Hb : forall nd : hmap_node mac_entry, (vlan (node_val nd) =? v) && eth_addr_equals (mac (node_val nd)) m
    = bool_decide (nkey nd = (m, v))).
  { intros nd. unfold eth_addr_equals, key. apply eq_bool_prop_intro.
    destruct (Z.eqb_spec (vlan (node_val nd)) v); repeat case_bool_decide; naive_solver. }
  rewrite Forall_forall in Hh.
  destruct (List.find (fun nd => bool_decide (nkey nd = (m, v))) l) as [nd|] eqn:E.
  - apply List.find_some in E as [Hin E]. apply list_elem_of_In in Hin. apply bool_decide_eq_true in E.
    apply find_unique.
    + apply elem_of_with_hash; [done|]. rewrite Hp. split; [done|]. rewrite Hh by done.
      unfold key in E. by simplify_eq.
    + by rewrite Hb, bool_decide_eq_true.
    + intros y Hy Ey. rewrite Hb, bool_decide_eq_true in Ey.
      apply elem_of_with_hash in Hy as [Hy _]; [|done]. rewrite Hp in Hy.
      apply (nodup_fmap_inj (fun nd => nkey nd) l); [done..|congruence].
  - destruct (List.find _ (with_hash _ _)) as [nd|] eqn:E'; [|done]. exfalso.
    apply List.find_some in E' as [Hin E']. rewrite Hb in E'.
    apply list_elem_of_In, elem_of_with_hash in Hin as [Hin _]; [|done]. rewrite Hp in Hin.
    apply list_elem_of_In in Hin. by rewrite (List.find_none _ _ E nd Hin) in E'.
Qed.

Lemma ml_entry_at nd : nd ∈ l -> entry_at ml (node_addr nd) = Ok nd.
Proof.
  destruct Hrep as [Hw Hp _ _ _ _ _ _]. intros Hin. unfold entry_at.
  rewrite (find_unique _ _ nd); [done|by rewrite Hp|by apply bool_decide_eq_true|].
  intros y Hy E. apply bool_decide_eq_true in E. rewrite <- Hp in Hin.
  apply (nodup_fmap_inj node_addr (hmap_nodes (table ml))); [apply (wf_addr _ Hw)|done..].
Qed.

Lemma ml_get_lru : get_lru ml = Ok (head l).
Proof.
  unfold get_lru. rewrite (list_is_empty_dlist _ _ _ (rep_list _ _ _ Hrep)),
    (dlist_next _ _ _ (rep_list _ _ _ Hrep)). cbn [rbind].
  pose proof ml_entry_at as He. destruct l as [|nd l']; [done|].
  rewrite bool_decide_false by done. cbn [negb fmap list_fmap first_or]. by rewrite He by left.
Qed.

(** A store that keeps the key of the entry. *)
Lemma ml_store a f : (forall e, key (f e) = key e) -> ml_rep fresh (store ml a f) (upd_node a f <$> l).
Proof.
  intros Hf. destruct Hrep as [Hw Hp Hl Hh Hk [Hlr Hfr] Hb Hc].
  assert (Hk' : forall nd, nkey (upd_node a f nd) = nkey nd).
  { intros nd. unfold upd_node. case_decide; [apply Hf|done]. }
  assert (Ha : node_addr <$> (upd_node a f <$> l) = node_addr <$> l).
  { rewrite <- list_fmap_compose. apply list_fmap_ext. intros i nd _. apply upd_node_keeps. }
  split; cbn [store with_table table lrus lru_mem].
  - by apply store_val_wf.
  - rewrite hmap_nodes_store, Hp. done.
  - by rewrite Ha.
  - apply Forall_fmap. eapply Forall_impl; [exact Hh|]. cbn. intros nd E.
    destruct (upd_node_keeps a f nd) as [_ ->]. specialize (Hk' nd). unfold key in Hk'. simplify_eq.
    by rewrite E, H, H0.
  - rewrite <- list_fmap_compose. erewrite list_fmap_ext; [exact Hk|]. intros i nd _. apply Hk'.
  - split; [done|]. apply Forall_fmap. eapply Forall_impl; [exact Hfr|]. cbn. intros nd E.
    by destruct (upd_node_keeps a f nd) as [-> _].
  - by rewrite length_fmap.
  - done.
Qed.

End Rep.

Lemma dlist_delete m h xs a : a ∉ h :: xs -> dlist m h xs -> dlist (delete a m) h xs.
Proof.
  intros Ha. apply (dlist_frame [a]).
  - intros b Hb. apply lookup_delete_ne. set_solver.
  - intros b Hb. set_solver.
Qed.

Lemma perm_cancel_mid {A} (l1 l2 h : list A) x : h ≡ₚ x :: l1 ++ l2 -> forall h', h ≡ₚ x :: h' -> h' ≡ₚ l1 ++ l2.
Proof. intros H h' H'. apply (Permutation_cons_inv (a := x)). by rewrite <- H'. Qed.

(** Removal of an entry from both structures. *)
Lemma ml_expire fresh ml l1 nd l2 : ml_rep fresh ml (l1 ++ nd :: l2) ->
  exists t m, mac_learning_expire ml nd = Ok (with_table ml t m) /\
    ml_rep fresh (with_table ml t m) (l1 ++ l2).
Proof.
  intros [Hw Hp Hl Hh Hk [Hlr Hf] Hb Hc]. unfold mac_learning_expire.
  assert (Hin : nd ∈ hmap_nodes (table ml)) by (rewrite Hp; set_solver).
  destruct (hmap_remove_spec _ nd Hw Hin) as (t & -> & Hwt & Hpt & _). cbn [rbind].
  rewrite fmap_app, fmap_cons in Hl. assert (Hnd := proj1 Hl).
  destruct (list_remove_dlist _ _ _ _ _ Hl) as (m & -> & Hm & _). cbn [rbind].
  eexists _, _. split; [reflexivity|].
  rewrite fmap_app, fmap_cons in Hk.
  assert (Hmid : l1 ++ nd :: l2 ≡ₚ nd :: l1 ++ l2) by (symmetry; apply Permutation_middle).
  split; cbn [with_table table lrus lru_mem].
  - done.
  - eapply perm_cancel_mid; [|exact Hpt]. by rewrite Hp, Hmid.
  - rewrite fmap_app. apply dlist_delete; [|done].
    apply NoDup_cons in Hnd as [Hh1 Hnd]. apply NoDup_app in Hnd as (_ & Hd & Hnd).
    apply NoDup_cons in Hnd as [Hn2 _]. set_solver.
  - rewrite Hmid in Hh. by apply Forall_cons in Hh as [_ Hh].
  - rewrite fmap_app. apply NoDup_app in Hk as (H1 & Hd & H2). apply NoDup_cons in H2 as [_ H2].
    apply NoDup_app. split; [done|]. split; [|done]. intros x Hx Hx'. apply (Hd x Hx). by right.
  - split; [done|]. rewrite Hmid in Hf. by apply Forall_cons in Hf as [_ Hf].
  - rewrite length_app in *. simpl in Hb. lia.
  - done.
Qed.

Lemma ml_rep_mono f f' ml l : ml_rep f ml l -> (f <= f')%nat -> ml_rep f' ml l.
Proof.
  intros [Hw Hp Hl Hh Hk [Hlr Hf] Hb Hc] Hle. split; [done..| |done|done]. split; [lia|].
  eapply Forall_impl; [exact Hf|]. cbn. intros. lia.
Qed.

Lemma ml_addrs fresh ml l : ml_rep fresh ml l -> NoDup (lrus ml :: (node_addr <$> l)).
Proof. intros Hr. apply (rep_list _ _ _ Hr). Qed.

Lemma dlist_mapped m h xs a : dlist m h xs -> a ∈ xs -> is_Some (m !! a).
Proof. intros [_ Hl] Ha. eapply links_mapped; [exact Hl|]. set_solver. Qed.

(** Using an entry again moves it to the end of the list. *)
Lemma ml_requeue fresh ml l1 nd l2 : ml_rep fresh ml (l1 ++ nd :: l2) ->
  exists m x m', list_remove (lru_mem ml) (node_addr nd) = Ok (m, x) /\
    list_push_back m (lrus ml) (node_addr nd) = Ok m' /\
    ml_rep fresh (with_table ml (table ml) m') (l1 ++ l2 ++ [nd]).
Proof.
  intros [Hw Hp Hl Hh Hk [Hlr Hf] Hb Hc]. rewrite fmap_app, fmap_cons in Hl.
  assert (Hs : is_Some (lru_mem ml !! node_addr nd)) by (eapply dlist_mapped; [exact Hl|set_solver]).
  assert (Hnd : node_addr nd ∉ lrus ml :: (node_addr <$> l1) ++ (node_addr <$> l2)).
  { destruct Hl as [Hnd _]. apply NoDup_cons in Hnd as [Hh1 Hnd].
    apply NoDup_app in Hnd as (_ & Hd & Hnd). apply NoDup_cons in Hnd as [Hn2 _]. set_solver. }
  destruct (list_remove_dlist _ _ _ _ _ Hl) as (m & E & Hm & Hag).
  rewrite <- (Hag _ Hnd) in Hs.
  destruct (list_push_back_dlist _ _ _ _ Hm Hnd Hs) as (m' & E' & Hm' & _).
  exists m, (first_or (lrus ml) (node_addr <$> l2)), m'. split; [done|]. split; [done|].
  assert (Hperm : l1 ++ nd :: l2 ≡ₚ l1 ++ l2 ++ [nd]).
  { apply Permutation_app_head. apply Permutation_cons_append. }
  split; cbn [with_table table lrus lru_mem].
  - done.
  - by rewrite Hp.
  - by rewrite !fmap_app, app_assoc.
  - by rewrite <- Hperm.
  - by rewrite <- Hperm.
  - split; [done|]. by rewrite <- Hperm.
  - by rewrite <- Hperm.
  - done.
Qed.

(** A new entry goes to the end of the list. *)
Lemma ml_add fresh ml l addr e : ml_rep fresh ml l -> (fresh <= addr)%nat ->
  key e ∉ (fun nd => nkey nd) <$> l -> Z.of_nat (length l) < 1000000 ->
  exists t m, hmap_insert_at (table ml) (Mk_node addr 0 e) (mac_table_hash ml (mac e) (vlan e)) = Ok t /\
    list_push_back (<[addr := Mk_list 0 0]> (lru_mem ml)) (lrus ml) addr = Ok m /\
    ml_rep (S addr) (with_table ml t m)
      (l ++ [Mk_node addr (mac_table_hash ml (mac e) (vlan e)) e]).
Proof.
  intros [Hw Hp Hl Hh Hk [Hlr Hf] Hb Hc] Ha He Hsz.
  assert (Hna : addr ∉ lrus ml :: (node_addr <$> l)).
  { rewrite Forall_forall in Hf. intros [->|Hin]%elem_of_cons; [lia|].
    apply list_elem_of_fmap in Hin as (nd & -> & Hin). specialize (Hf nd Hin). lia. }
  destruct (hmap_insert_at_spec _ (Mk_node addr 0 e) (mac_table_hash ml (mac e) (vlan e)) Hw)
    as (t & E & Hwt & Hpt & _).
  { apply mhash_finish_u32. }
  { rewrite Hp. set_solver. }
  assert (Hl' : dlist (<[addr := Mk_list 0 0]> (lru_mem ml)) (lrus ml) (node_addr <$> l)).
  { apply (dlist_frame [addr] (lru_mem ml)); [| |done].
    - intros b Hn. apply lookup_insert_ne. set_solver.
    - intros b Hin Hn. apply list_elem_of_singleton in Hn as ->. done. }
  destruct (list_push_back_dlist _ _ _ _ Hl' Hna) as (m & E' & Hm & _).
  { rewrite lookup_insert_eq. eauto. }
  exists t, m. split; [done|]. split; [done|]. split; cbn [with_table table lrus lru_mem].
  - done.
  - rewrite Hpt, Hp. apply Permutation_cons_append.
  - by rewrite fmap_app.
  - apply Forall_app. split; [done|]. by constructor.
  - rewrite fmap_app. apply NoDup_app. split; [done|]. split; [|apply NoDup_singleton].
    intros x Hx ->%list_elem_of_singleton. done.
  - split; [lia|]. apply Forall_app. split; [|constructor; [cbn; lia|constructor]].
    eapply Forall_impl; [exact Hf|]. cbn. intros. lia.
  - rewrite length_app. simpl. lia.
  - done.
Qed.

(** A store to one entry of the list. *)
Lemma upd_mid (f : mac_entry -> mac_entry) l1 nd l2 : NoDup (node_addr <$> (l1 ++ nd :: l2)) ->
  upd_node (node_addr nd) f <$> (l1 ++ nd :: l2)
  = l1 ++ Mk_node (node_addr nd) (node_hash nd) (f (node_val nd)) :: l2.
Proof.
  rewrite !fmap_app, !fmap_cons. intros Hn. apply NoDup_app in Hn as (_ & Hd & Hn).
  apply NoDup_cons in Hn as [Hn _].
  assert (Hid : forall l : list (hmap_node mac_entry), node_addr nd ∉ node_addr <$> l ->
    upd_node (node_addr nd) f <$> l = l).
  { induction l as [|x l IH]; [done|]. csimpl. intros Hx. f_equal; [|apply IH; set_solver].
    unfold upd_node. rewrite decide_False; [done|]. set_solver. }
  rewrite !Hid.
  - f_equal. f_equal. unfold upd_node. by rewrite decide_True.
  - done.
  - intros Hin. apply (Hd _ Hin). left.
Qed.

Lemma ml_store_mid fresh ml l1 nd l2 f : ml_rep fresh ml (l1 ++ nd :: l2) ->
  (forall e, key (f e) = key e) ->
  ml_rep fresh (store ml (node_addr nd) f)
    (l1 ++ Mk_node (node_addr nd) (node_hash nd) (f (node_val nd)) :: l2).
Proof.
  intros Hr Hf. rewrite <- upd_mid; [by apply ml_store|].
  pose proof (ml_addrs _ _ _ Hr) as Hn. by apply NoDup_cons in Hn as [_ Hn].
Qed.

(** ** Learning *)

Definition has_key (m : list Z) (v : Z) (e : mac_entry) : bool := bool_decide (key e = (m, v)).

(** What an insertion does to the entries in order of use. *)
Definition lru_touch (max : Z) (t : Z) (m : list Z) (v : Z) (es : list mac_entry) : list mac_entry :=
  match List.find (has_key m v) es with
  | Some e => List.filter (fun e => negb (has_key m v e)) es ++ [set_expires t e]
  | None =>
      (if max <=? Z.of_nat (length es) then tail es else es) ++ [Mk_mac_entry t TIME_MIN m v None]
  end.

(** [ml'] differs from [ml] in its entries only. *)
Definition same_config (ml ml' : mac_learning) : Prop :=
  exists t m, ml' = with_table ml t m.

Lemma same_config_refl ml : same_config ml ml.
Proof. by exists (table ml), (lru_mem ml); destruct ml. Qed.
Lemma same_config_trans a b c : same_config a b -> same_config b c -> same_config a c.
Proof. intros (t & m & ->) (t' & m' & ->). by exists t', m'. Qed.
Lemma same_config_fields a b : same_config a b ->
  secret b = secret a /\ flood_vlans b = flood_vlans a /\ idle_time b = idle_time a /\
  max_entries b = max_entries a /\ need_revalidate b = need_revalidate a /\ lrus b = lrus a.
Proof. by intros (t & m & ->). Qed.

Lemma filter_others m v l1 e l2 : NoDup (key <$> (l1 ++ e :: l2)) -> key e = (m, v) ->
  List.filter (fun x => negb (has_key m v x)) (l1 ++ e :: l2) = l1 ++ l2.
Proof.
  intros Hn He. rewrite fmap_app, fmap_cons in Hn. apply NoDup_app in Hn as (_ & Hd & Hn).
  apply NoDup_cons in Hn as [Hn _].
  assert (Hid : forall l, key e ∉ key <$> l -> List.filter (fun x => negb (has_key m v x)) l = l).
  { induction l as [|x l IH]; [done|]. csimpl. intros [Hx Hl]%not_elem_of_cons. unfold has_key at 1.
    rewrite bool_decide_false by (rewrite <- He; congruence). cbn [negb]. f_equal. by apply IH. }
  rewrite List.filter_app. cbn [List.filter]. unfold has_key at 2. rewrite bool_decide_true by done.
  cbn [negb]. rewrite !Hid; [done|done|]. intros Hin. apply (Hd _ Hin). left.
Qed.

Lemma rep_entry_keys fresh ml l : ml_rep fresh ml l -> NoDup (key <$> (node_val <$> l)).
Proof. intros Hr. rewrite <- list_fmap_compose. apply (rep_keys _ _ _ Hr). Qed.

(** The table after the entry that has to make room was expired. *)
Definition make_room (max : Z) {A} (l : list A) : list A :=
  if max <=? Z.of_nat (length l) then tail l else l.

Lemma ml_make_room fresh ml l : ml_rep fresh ml l ->
  exists ml1, (if max_entries ml <=? hmap_count (table ml) then
      let* lru := get_lru ml in
      match lru with None => Fault NullDeref | Some lru => mac_learning_expire ml lru end
    else Ok ml) = Ok ml1 /\ same_config ml ml1 /\
    ml_rep fresh ml1 (make_room (max_entries ml) l) /\
    Z.of_nat (length (make_room (max_entries ml) l)) < 1000000.
Proof.
  intros Hr. rewrite (ml_count _ _ _ Hr), (ml_get_lru _ _ _ Hr). unfold make_room.
  pose proof (rep_config _ _ _ Hr) as [_ Hc]. pose proof (rep_bound _ _ _ Hr) as Hb.
  destruct (Z.leb_spec (max_entries ml) (Z.of_nat (length l))) as [Hle|Hlt].
  - destruct l as [|nd l]; [simpl in Hle; lia|]. cbn [rbind head tail] in *.
    destruct (ml_expire fresh ml [] nd l Hr) as (t & m & -> & Hr'). eexists. split; [reflexivity|].
    split; [by exists t, m|]. split; [done|]. simpl in Hb. lia.
  - exists ml. split; [done|]. split; [apply same_config_refl|]. split; [done|lia].
Qed.

Lemma make_room_subset max {A} (l : list A) x : x ∈ make_room max l -> x ∈ l.
Proof. unfold make_room. destruct (_ <=? _); [|done]. destruct l; [done|]. by right. Qed.

(** The result is the address of the last entry of the list. *)
Lemma mac_learning_insert_rep fresh ml l addr m v now : ml_rep fresh ml l -> (fresh <= addr)%nat ->
  exists ml' l0 nd, mac_learning_insert ml addr m v now = Ok (node_addr nd, ml') /\
    ml_rep (S addr) ml' (l0 ++ [nd]) /\ same_config ml ml' /\
    (node_val <$> l0) ++ [node_val nd]
      = lru_touch (max_entries ml) (s32 (now + idle_time ml)) m v (node_val <$> l).
Proof.
  intros Hr Ha. unfold mac_learning_insert. rewrite (ml_lookup _ _ _ Hr). cbn [rbind].
  unfold lru_touch. rewrite find_fmap.
  change (fun x => has_key m v (node_val x)) with (fun x : hmap_node mac_entry => bool_decide (nkey x = (m, v))).
  set (t := s32 (now + idle_time ml)).
  destruct (List.find (fun x => bool_decide (nkey x = (m, v))) l) as [nd|] eqn:Ef; cbn [rbind].
  - apply List.find_some in Ef as [Hin Hk]. apply list_elem_of_In, list_elem_of_split in Hin as (l1 & l2 & ->).
    apply bool_decide_eq_true in Hk.
    destruct (ml_requeue _ _ _ _ _ Hr) as (m1 & x & m2 & -> & Ep & Hr'). cbn [rbind with_table lru_mem lrus].
    rewrite Ep. cbn [rbind table with_table idle_time].
    rewrite app_assoc in Hr'. pose proof (ml_store_mid _ _ _ _ _ (set_expires t) Hr' (fun _ => eq_refl)) as Hr2.
    eexists _, (l1 ++ l2), (Mk_node (node_addr nd) (node_hash nd) (set_expires t (node_val nd))).
    split; [reflexivity|].
    split; [|split; [by eexists _, _|]].
    + eapply ml_rep_mono; [exact Hr2|lia].
    + change (node_val <$> Some nd) with (Some (node_val nd)). cbv iota.
      pose proof (rep_entry_keys _ _ _ Hr) as Hn. rewrite (fmap_app _ l1 (nd :: l2)), fmap_cons in Hn |- *.
      rewrite filter_others by done. by rewrite fmap_app.
  - assert (Hno : (m, v) ∉ (fun nd => nkey nd) <$> l).
    { intros (nd & E & Hin)%list_elem_of_fmap. apply list_elem_of_In in Hin.
      pose proof (List.find_none _ _ Ef nd Hin) as Hd. cbn in Hd. by rewrite bool_decide_true in Hd. }
    destruct (ml_make_room _ _ _ Hr) as (ml1 & -> & Hs & Hr1 & Hb1). cbn [rbind].
    pose proof (same_config_fields _ _ Hs) as (Hsec & _ & Hidle & _ & _ & Hlrus).
    assert (Hhash : mac_table_hash ml m v = mac_table_hash ml1 m v) by (unfold mac_table_hash; by rewrite Hsec).
    destruct (ml_add fresh ml1 _ addr (Mk_mac_entry 0 TIME_MIN m v None) Hr1 Ha) as (tb & m1 & Ei & Ep & Hr2).
    { intros (nd & E & Hin%make_room_subset)%list_elem_of_fmap. apply Hno, list_elem_of_fmap. eauto. }
    { done. }
    cbn [mac vlan] in Ei. rewrite Hhash, Ei. cbn [rbind with_table lru_mem lrus].
    rewrite Ep. cbn [rbind table with_table idle_time]. rewrite Hidle. fold t.
    pose proof (ml_store_mid _ _ _ _ _ (set_expires t) Hr2 (fun _ => eq_refl)) as Hr3.
    eexists _, (make_room (max_entries ml) l), (Mk_node addr _ (Mk_mac_entry t TIME_MIN m v None)).
    split; [reflexivity|]. split; [exact Hr3|]. split.
    + eapply same_config_trans; [exact Hs|]. by eexists _, _.
    + change (node_val <$> None) with (@None mac_entry). cbv iota. f_equal. unfold make_room. rewrite length_fmap.
      destruct (_ <=? _); [|done]. by destruct l.
Qed.

(** ** Expiration *)

Lemma ml_rep_flags fresh ml l r b : ml_rep fresh ml l -> ml_rep fresh (with_flags ml r b) l.
Proof. intros [Hw Hp Hl Hh Hk Hf Hb Hc]. by split. Qed.

(** Entries leave at the front as long as [q] holds of those that are left. *)
Fixpoint drop_front (q : list mac_entry -> bool) (es : list mac_entry) : list mac_entry :=
  match es with
  | [] => []
  | _ :: es' => if q es then drop_front q es' else es
  end.

Lemma expire_while_rep fresh p q max fuel : forall ml l,
  (forall ml nd l, ml_rep fresh ml (nd :: l) -> max_entries ml = max ->
     p ml (node_val nd) = q (node_val <$> nd :: l)) ->
  ml_rep fresh ml l -> max_entries ml = max -> (length l <= fuel)%nat ->
  exists t m l', let b := need_revalidate ml || negb (length l' =? length l)%nat in
    expire_while fuel p ml = Ok (with_flags (with_table ml t m) (ref_cnt ml) b) /\
    ml_rep fresh (with_flags (with_table ml t m) (ref_cnt ml) b) l' /\
    node_val <$> l' = drop_front q (node_val <$> l) /\ (length l' <= length l)%nat.
Proof.
  induction fuel as [|fuel IH]; intros ml l Hpq Hr Hm Hl; cbn [expire_while];
    rewrite (ml_get_lru _ _ _ Hr); cbn [rbind]; destruct l as [|nd l]; cbn [head];
    try (simpl in Hl; lia).
  1, 2: exists (table ml), (lru_mem ml), []; rewrite orb_false_r; by destruct ml.
  rewrite (Hpq ml nd l Hr Hm). rewrite fmap_cons. cbn [drop_front].
  destruct (q (node_val nd :: (node_val <$> l))).
  - destruct (ml_expire fresh _ [] nd l (ml_rep_flags _ _ _ (ref_cnt ml) true Hr)) as (t & m & -> & Hr1).
    cbn [rbind]. simpl in Hl.
    destruct (IH _ l Hpq Hr1 Hm ltac:(lia)) as (t' & m' & l' & E & Hr2 & Hd & Hle).
    exists t', m', l'. cbn [with_table with_flags need_revalidate orb ref_cnt] in *.
    assert ((length l' =? length (nd :: l))%nat = false) as -> by (apply Nat.eqb_neq; simpl; lia).
    rewrite orb_true_r. split; [exact E|]. split; [exact Hr2|]. split; [done|]. simpl. lia.
  - exists (table ml), (lru_mem ml), (nd :: l). rewrite Nat.eqb_refl, orb_false_r. by destruct ml.
Qed.

(** The entries that [mac_learning_run] keeps. *)
Definition run_keeps (max now : Z) : list mac_entry -> list mac_entry :=
  drop_front (fun es => (max <? Z.of_nat (length es)) ||
    match es with e :: _ => expires e <=? now | [] => false end).

Definition by_expiry (e e' : mac_entry) : Prop := expires e <= expires e'.

Lemma run_keeps_sorted max now es : 0 <= max -> StronglySorted by_expiry es ->
  run_keeps max now es
  = List.filter (fun e => now <? expires e) (drop (length es - Z.to_nat max) es).
Proof.
  intros Hmax Hs. induction Hs as [|e es Hs IH He]; [by rewrite drop_nil|].
  unfold run_keeps in *. cbn [drop_front length].
  destruct (Z.ltb_spec max (Z.of_nat (S (length es)))) as [Hlt|Hge]; cbn [orb].
  - rewrite IH. by replace (S (length es) - Z.to_nat max)%nat
      with (S (length es - Z.to_nat max)) by lia.
  - replace (S (length es) - Z.to_nat max)%nat with 0%nat by lia. rewrite drop_0. cbn [List.filter].
    rewrite Z.ltb_antisym. destruct (Z.leb_spec (expires e) now) as [Hx|Hx]; cbn [negb].
    + rewrite IH. by replace (length es - Z.to_nat max)%nat with 0%nat by lia.
    + f_equal. symmetry. clear IH Hge. induction He as [|y es Hy He IH']; [done|].
      cbn [List.filter]. apply StronglySorted_inv in Hs as [Hs _]. unfold by_expiry in Hy.
      destruct (Z.ltb_spec now (expires y)); [|lia]. by rewrite IH'.
Qed.

Lemma Sorted_app_last es e : StronglySorted by_expiry es -> Forall (fun x => by_expiry x e) es ->
  StronglySorted by_expiry (es ++ [e]).
Proof.
  induction 1 as [|x es Hs IH Hx]; intros Hall; [repeat constructor|].
  apply Forall_cons in Hall as [Hxe Hall]. simpl. constructor; [by apply IH|].
  apply Forall_app. by split; [|constructor].
Qed.

Lemma filter_sorted (p : mac_entry -> bool) es : StronglySorted by_expiry es ->
  StronglySorted by_expiry (List.filter p es).
Proof.
  induction 1 as [|x es Hs IH Hx]; simpl; [constructor|]. destruct (p x); [|done].
  constructor; [done|]. apply Forall_forall. intros y Hy. apply list_elem_of_In, List.filter_In in Hy as [Hy _].
  rewrite Forall_forall in Hx. apply Hx. by apply list_elem_of_In.
Qed.

Lemma filter_Forall {A} (P : A -> Prop) (p : A -> bool) l : Forall P l -> Forall P (List.filter p l).
Proof. induction 1; simpl; [done|]. destruct (p x); [by constructor|done]. Qed.

(** With a clock that does not go back, the entries in order of use are in
    order of expiry. *)
Lemma lru_touch_sorted max t m v es : StronglySorted by_expiry es ->
  Forall (fun e => expires e <= t) es ->
  StronglySorted by_expiry (lru_touch max t m v es) /\
  Forall (fun e => expires e <= t) (lru_touch max t m v es).
Proof.
  intros Hs Ht. unfold lru_touch.
  assert (Hc : forall es' e, expires e = t -> StronglySorted by_expiry es' ->
    Forall (fun e => expires e <= t) es' -> StronglySorted by_expiry (es' ++ [e]) /\
    Forall (fun e => expires e <= t) (es' ++ [e])).
  { intros es' e He Hs' Ht'. split.
    - apply Sorted_app_last; [done|]. unfold by_expiry. by rewrite He.
    - apply Forall_app. split; [done|]. constructor; [lia|done]. }
  destruct (List.find _ es) as [e|].
  - apply Hc; [done|by apply filter_sorted|by apply filter_Forall].
  - apply Hc; [done|..]; destruct (_ <=? _); try done; destruct es; try done.
    + by apply StronglySorted_inv in Hs as [Hs _].
    + by apply Forall_cons in Ht as [_ Ht].
Qed.

Lemma lru_touch_key max t m v es es' e : es' ++ [e] = lru_touch max t m v es -> key e = (m, v).
Proof.
  intros H. apply (f_equal last) in H. rewrite last_snoc in H. unfold lru_touch in H.
  destruct (List.find _ _) as [x|] eqn:Ef; rewrite last_snoc in H; injection H as ->; [|done].
  apply List.find_some in Ef as [_ Ef]. by apply bool_decide_eq_true in Ef.
Qed.

Lemma lru_touch_length max t m v es : 1 <= max ->
  Z.of_nat (length (lru_touch max t m v es)) <= Z.max (Z.of_nat (length es)) max.
Proof.
  intros Hm. unfold lru_touch. destruct (List.find _ es) as [e|] eqn:Ef; rewrite length_app; simpl.
  - apply List.find_some in Ef as [Hin Hk]. apply list_elem_of_In, list_elem_of_split in Hin as (l1 & l2 & ->).
    rewrite List.filter_app, !length_app. cbn [List.filter]. rewrite Hk. cbn [negb length].
    pose proof (List.filter_length_le (fun e => negb (has_key m v e)) l1).
    pose proof (List.filter_length_le (fun e => negb (has_key m v e)) l2). lia.
  - destruct (Z.leb_spec max (Z.of_nat (length es))); [destruct es|]; simpl in *; lia.
Qed.

Lemma ml_lookup_in fresh ml l nd m v : ml_rep fresh ml l -> nd ∈ l -> nkey nd = (m, v) ->
  mac_entry_lookup ml m v = Ok (Some nd).
Proof.
  intros Hr Hin Hk. rewrite (ml_lookup _ _ _ Hr). f_equal.
  apply find_unique; [done|by apply bool_decide_eq_true|]. intros y Hy E. apply bool_decide_eq_true in E.
  apply (nodup_fmap_inj (fun nd => nkey nd) l); [apply (rep_keys _ _ _ Hr)|done|done|congruence].
Qed.

(** C38. [mac_learning_insert] on a table in a well-formed state returns the
    entry of the address and VLAN, and the entries in order of use become those
    of the abstract table: a known entry moves to the end with a new expiry, a
    new one is added at the end, and when the table is full the least recently
    used entry makes room.  Order of use stays order of expiry as long as the
    clock does not go back. *)
Theorem mac_learning_insert_lru fresh ml l addr m v now : ml_rep fresh ml l -> (fresh <= addr)%nat ->
  let t := s32 (now + idle_time ml) in
  exists a ml' l', mac_learning_insert ml addr m v now = Ok (a, ml') /\ ml_rep (S addr) ml' l' /\
    node_val <$> l' = lru_touch (max_entries ml) t m v (node_val <$> l) /\
    mac_entry_lookup ml' m v = Ok (last l') /\ node_addr <$> last l' = Some a /\
    Z.of_nat (length l') <= Z.max (Z.of_nat (length l)) (max_entries ml) /\
    (StronglySorted by_expiry (node_val <$> l) -> Forall (fun e => expires e <= t) (node_val <$> l) ->
     StronglySorted by_expiry (node_val <$> l')).
Proof.
  intros Hr Ha t. destruct (mac_learning_insert_rep fresh ml l addr m v now Hr Ha)
    as (ml' & l0 & nd & E & Hr' & Hs & Hes). fold t in Hes.
  assert (Hes' : node_val <$> l0 ++ [nd] = lru_touch (max_entries ml) t m v (node_val <$> l))
    by by rewrite fmap_app.
  exists (node_addr nd), ml', (l0 ++ [nd]). split; [done|]. split; [done|]. split; [done|].
  rewrite last_snoc. split; [|split; [done|split]].
  - apply (ml_lookup_in _ _ _ nd m v Hr'); [set_solver|]. by eapply lru_touch_key.
  - apply (f_equal length) in Hes'. rewrite length_fmap in Hes'. rewrite Hes', <- (length_fmap node_val l).
    apply lru_touch_length. pose proof (rep_config _ _ _ Hr). lia.
  - intros Hsort Ht. rewrite Hes'. by apply lru_touch_sorted.
Qed.

Lemma create_rep head random idle : exists ml,
  mac_learning_create head random idle = Ok ml /\ ml_rep (S head) ml [].
Proof.
  destruct (list_init_dlist {[ head := Mk_list 0 0 ]} head) as (m & E & Hl & _).
  { rewrite lookup_singleton_eq. eauto. }
  unfold mac_learning_create. rewrite E. cbn [rbind]. eexists. split; [reflexivity|].
  split; cbn [table lrus lru_mem idle_time max_entries fmap list_fmap];
    [apply hmap_init_wf|done|done|constructor|constructor|split; [lia|constructor]|simpl; lia|split].
  - unfold normalize_idle_time. destruct (Z.ltb_spec idle 15); [lia|].
    destruct (Z.ltb_spec 3600 idle); lia.
  - unfold MAC_DEFAULT_MAX. lia.
Qed.

Lemma mac_learning_insert_lru_witness :
  exists ml a ml' l', mac_learning_create 0 7 300 = Ok ml /\
    mac_learning_insert ml 1 [2; 0; 0; 0; 0; 1] 5 1000 = Ok (a, ml') /\ ml_rep 2 ml' l' /\
    node_val <$> l' = [Mk_mac_entry 1300 TIME_MIN [2; 0; 0; 0; 0; 1] 5 None].
Proof.
  destruct (create_rep 0 7 300) as (ml & E & Hr).
  destruct (mac_learning_insert_lru 1 ml [] 1 [2; 0; 0; 0; 0; 1] 5 1000 Hr (le_n 1))
    as (a & ml' & l' & E' & Hr' & Hes & _).
  exists ml, a, ml', l'. split; [exact E|]. split; [exact E'|]. split; [exact Hr'|].
  rewrite Hes. injection E as <-. reflexivity.
Defined.

(** [mac_learning_run] on entries in order of expiry removes exactly the
    surplus of the least recently used entries over the maximum and the entries
    whose time has come, and asks for revalidation exactly when it removed one
    or a change was pending. *)
Theorem mac_learning_run_expires fresh ml l now : ml_rep fresh ml l ->
  StronglySorted by_expiry (node_val <$> l) ->
  exists ml' l', mac_learning_run ml now
      = Ok (need_revalidate ml || negb (length l' =? length l)%nat, ml') /\
    ml_rep fresh ml' l' /\ need_revalidate ml' = false /\
    node_val <$> l' = List.filter (fun e => now <? expires e)
      (drop (length l - Z.to_nat (max_entries ml)) (node_val <$> l)).
Proof.
  intros Hr Hs. unfold mac_learning_run. rewrite (ml_length _ _ _ Hr).
  destruct (expire_while_rep fresh
    (fun ml e => (max_entries ml <? hmap_count (table ml)) || (expires e <=? now))
    (fun es => (max_entries ml <? Z.of_nat (length es)) ||
       match es with e :: _ => expires e <=? now | [] => false end)
    (max_entries ml) (length l) ml l) as (t & m & l' & E & Hr' & Hd & _).
  - intros ml1 nd l1 Hr1 ->. by rewrite (ml_count _ _ _ Hr1), length_fmap.
  - done.
  - done.
  - done.
  - rewrite E. cbn [rbind]. eexists _, l'. split; [reflexivity|].
    split; [exact (ml_rep_flags _ _ _ _ false Hr')|]. split; [done|]. rewrite Hd.
    rewrite <- (length_fmap node_val l). apply run_keeps_sorted; [|done].
    pose proof (rep_config _ _ _ Hr). lia.
Qed.

Lemma drop_front_all es : drop_front (fun _ => true) es = [].
Proof. by induction es. Qed.

(** [mac_learning_flush] empties the table. *)
Theorem mac_learning_flush_empties fresh ml l : ml_rep fresh ml l ->
  exists ml', mac_learning_flush ml = Ok ml' /\ ml_rep fresh ml' [] /\
    need_revalidate ml' = need_revalidate ml || negb (bool_decide (l = [])).
Proof.
  intros Hr. unfold mac_learning_flush. rewrite (ml_length _ _ _ Hr).
  destruct (expire_while_rep fresh (fun _ _ => true) (fun _ => true) (max_entries ml) (length l) ml l)
    as (t & m & l' & E & Hr' & Hd & _); [by intros|done|done|done|].
  assert (l' = []) as ->.
  { rewrite drop_front_all in Hd. by destruct l'. }
  rewrite E. cbn [rbind with_flags with_table table].
  destruct (hmap_shrink_at_spec t (rep_wf _ _ _ Hr')) as (t' & -> & Hwf & Hp & _). cbn [rbind].
  eexists. split; [reflexivity|]. split; [|by destruct l].
  destruct Hr' as [Hw Hp' Hl Hh Hk Hf Hb Hc]. split; try done. cbn in *. by rewrite Hp.
Qed.

(** Stores to all entries from some position of the list on. *)
Lemma shift_expiry_rep fresh delta l2 : forall ml l1, ml_rep fresh ml (l1 ++ l2) ->
  exists t, shift_expiry ml delta (node_addr <$> l2) = with_table ml t (lru_mem ml) /\
    ml_rep fresh (with_table ml t (lru_mem ml))
      (l1 ++ ((fun nd => Mk_node (node_addr nd) (node_hash nd)
                (set_expires (s32 (expires (node_val nd) + delta)) (node_val nd))) <$> l2)).
Proof.
  induction l2 as [|nd l2 IH]; intros ml l1 Hr.
  { exists (table ml). by destruct ml. }
  pose proof (ml_store_mid _ _ _ _ _ (fun e => set_expires (s32 (expires e + delta)) e) Hr
    (fun _ => eq_refl)) as Hr1.
  rewrite cons_middle, app_assoc in Hr1. destruct (IH _ _ Hr1) as (t & E & Hr2).
  exists t. rewrite !fmap_cons. cbn [shift_expiry]. rewrite E. split; [done|].
  by rewrite <- app_assoc in Hr2.
Qed.

Lemma s32_cong x y : u32 x = u32 y -> s32 x = s32 y.
Proof. unfold s32. by intros ->. Qed.

Lemma u32_s32 x : u32 (s32 x) = u32 x.
Proof. unfold s32, u32. destruct (_ <? _); zdm. Qed.

Lemma s32_age idle idle' e now :
  s32 (idle' - s32 (s32 (e + (idle' - idle)) - now)) = s32 (idle - s32 (e - now)).
Proof.
  apply s32_cong. unfold s32, u32.
  repeat match goal with |- context [if ?b then _ else _] => destruct b end; zdm.
Qed.

(** Changing the idle time changes no entry's age: the expiry times of all
    entries move along with the timeout, which is kept within 15 to 3600
    seconds. *)
Theorem mac_learning_set_idle_time_age fresh ml l idle now : ml_rep fresh ml l ->
  exists ml' l', mac_learning_set_idle_time ml idle = Ok (Some ml') /\ ml_rep fresh ml' l' /\
    idle_time ml' = Z.max 15 (Z.min 3600 idle) /\
    (fun nd => (nkey nd, mac_entry_age ml' (node_val nd) now)) <$> l'
    = (fun nd => (nkey nd, mac_entry_age ml (node_val nd) now)) <$> l.
Proof.
  intros Hr. assert (Hn : normalize_idle_time idle = Z.max 15 (Z.min 3600 idle)).
  { unfold normalize_idle_time. destruct (Z.ltb_spec idle 15); [lia|].
    destruct (Z.ltb_spec 3600 idle); lia. }
  unfold mac_learning_set_idle_time. rewrite Hn.
  pose proof (rep_config _ _ _ Hr) as [Hi Hm]. set (i := Z.max 15 (Z.min 3600 idle)).
  assert (15 <= i <= 3600) by (unfold i; lia). clearbody i.
  destruct (Z.eqb_spec i (idle_time ml)) as [Ei|Ei]; cbn [negb]; [by exists ml, l|].
  rewrite (ml_length _ _ _ Hr),
    (list_for_each_dlist _ _ _ _ (rep_list _ _ _ Hr)) by by rewrite length_fmap.
  cbn [rbind]. destruct (shift_expiry_rep fresh (s32 i - s32 (idle_time ml)) l ml [] Hr) as (t & -> & Hr').
  rewrite app_nil_l in Hr'. eexists _, _. split; [reflexivity|]. split; [|split; [done|]].
  - by destruct Hr' as [Hw Hp' Hl Hh Hk Hf Hb Hc].
  - rewrite <- list_fmap_compose. apply list_fmap_ext. intros j nd _. cbn. f_equal.
    unfold mac_entry_age. cbn [idle_time with_config with_table expires set_expires].
    rewrite (s32_small i), (s32_small (idle_time ml)) by lia. apply s32_age.
Qed.

(** ** The translator *)

Definition with_port (xb : xbundle) (nd : hmap_node mac_entry) : hmap_node mac_entry :=
  Mk_node (node_addr nd) (node_hash nd) (set_port (ofbundle xb) (node_val nd)).

Lemma learn_port_rep fresh ml l0 nd xb : ml_rep fresh ml (l0 ++ [nd]) ->
  exists ml', learn_port ml (node_addr nd) xb = Ok ml' /\ ml_rep fresh ml' (l0 ++ [with_port xb nd]) /\
    flood_vlans ml' = flood_vlans ml /\
    need_revalidate ml' = need_revalidate ml || negb (bool_decide (port (node_val nd) = ofbundle xb)).
Proof.
  intros Hr. unfold learn_port. rewrite (ml_entry_at _ _ _ Hr nd) by set_solver. cbn [rbind].
  destruct (decide (port (node_val nd) = ofbundle xb)) as [E|E].
  - rewrite bool_decide_true by done. exists ml. rewrite orb_false_r. split; [done|]. split; [|done].
    unfold with_port. rewrite <- E. by destruct nd as [? ? []].
  - rewrite bool_decide_false by done. cbn [negb]. eexists. split; [reflexivity|].
    split; [|split; [done|by rewrite orb_true_r]].
    apply ml_rep_flags. by apply (ml_store_mid _ _ l0 nd [] (set_port (ofbundle xb)) Hr).
Qed.

Lemma find_has_key m v es e : List.find (has_key m v) es = Some e -> e ∈ es /\ key e = (m, v).
Proof. intros [Hin E]%List.find_some. apply list_elem_of_In in Hin. by apply bool_decide_eq_true in E. Qed.

(** The last entry after an insertion: a known one or a new one. *)
Lemma lru_touch_last max t m v es es0 e : es0 ++ [e] = lru_touch max t m v es ->
  (forall x, x ∈ es0 -> x ∈ es) /\
  ((exists x, List.find (has_key m v) es = Some x /\ e = set_expires t x) \/
   List.find (has_key m v) es = None /\ e = Mk_mac_entry t TIME_MIN m v None).
Proof.
  unfold lru_touch. destruct (List.find _ es) as [x|] eqn:Ef; intros [-> [= ->]]%app_inj_tail.
  - split; [|by left; exists x]. intros y Hy. apply list_elem_of_In, List.filter_In in Hy as [Hy _].
    by apply list_elem_of_In.
  - split; [|by right]. intros y Hy. destruct (_ <=? _); [|done]. destruct es; [done|]. by right.
Qed.

(** What the translator does after the insertion, on the entry [nd]. *)
Lemma update_after_insert fresh ml l0 nd f wc now xb : ml_rep fresh ml (l0 ++ [nd]) ->
  let a := node_addr nd in
  let locked := (is_gratuitous_arp f wc).1 && bond xb &&
                mac_entry_is_grat_arp_locked (node_val nd) now in
  exists ml' nd', (let '(arp, wc) := is_gratuitous_arp f wc in
     if arp then
       if negb (bond xb) then
         let* ml := learn_port (mac_entry_set_grat_arp_lock ml a now) a xb in Ok (ml, wc)
       else
         let* mac := entry_at ml a in
         if mac_entry_is_grat_arp_locked (node_val mac) now then Ok (ml, wc)
         else let* ml := learn_port ml a xb in Ok (ml, wc)
     else let* ml := learn_port ml a xb in Ok (ml, wc)) = Ok (ml', (is_gratuitous_arp f wc).2) /\
    ml_rep fresh ml' (l0 ++ [nd']) /\ nkey nd' = nkey nd /\ flood_vlans ml' = flood_vlans ml /\
    port (node_val nd') = (if locked then port (node_val nd) else ofbundle xb) /\
    (locked || bool_decide (port (node_val nd) = ofbundle xb) = true ->
     (is_gratuitous_arp f wc).1 && negb (bond xb) = false ->
     node_val nd' = node_val nd /\ need_revalidate ml' = need_revalidate ml).
Proof.
  intros Hr a locked. unfold locked. destruct (is_gratuitous_arp f wc) as [arp wc']. cbn [fst snd andb].
  assert (Hfin : forall ml1 nd1, ml_rep fresh ml1 (l0 ++ [nd1]) -> node_addr nd1 = a ->
    nkey nd1 = nkey nd -> flood_vlans ml1 = flood_vlans ml -> need_revalidate ml1 = need_revalidate ml ->
    exists ml' nd', (let* ml := learn_port ml1 a xb in Ok (ml, wc')) = Ok (ml', wc') /\
      ml_rep fresh ml' (l0 ++ [nd']) /\ nkey nd' = nkey nd /\ flood_vlans ml' = flood_vlans ml /\
      port (node_val nd') = ofbundle xb /\
      (bool_decide (port (node_val nd1) = ofbundle xb) = true ->
       node_val nd' = node_val nd1 /\ need_revalidate ml' = need_revalidate ml)).
  { intros ml1 nd1 Hr1 Ha Hk Hfl Hrv.
    destruct (learn_port_rep _ _ _ _ xb Hr1) as (ml' & E & Hr2 & Hfl2 & Hrv2).
    rewrite Ha in E. rewrite E. cbn [rbind]. exists ml', (with_port xb nd1).
    split; [done|]. split; [done|]. split; [done|]. split; [congruence|]. split; [done|].
    intros Hp. rewrite Hp, orb_false_r in Hrv2. split; [|congruence].
    apply bool_decide_eq_true in Hp. unfold with_port. rewrite <- Hp. by destruct nd1 as [? ? []]. }
  destruct arp; cbn [andb]; [destruct (bond xb); cbn [negb andb]|].
  - unfold a at 1. rewrite (ml_entry_at _ _ _ Hr nd) by set_solver. cbn [rbind].
    destruct (mac_entry_is_grat_arp_locked (node_val nd) now).
    + by exists ml, nd.
    + destruct (Hfin ml nd Hr eq_refl eq_refl eq_refl eq_refl) as (ml' & nd' & ? & ? & ? & ? & ? & Hsame).
      exists ml', nd'. split_and!; [assumption..|]. intros Hb _. exact (Hsame Hb).
  - destruct (Hfin _ _ (ml_store_mid _ _ l0 nd [] (set_lock (s32 (now + MAC_GRAT_ARP_LOCK_TIME))) Hr
      (fun _ => eq_refl)) eq_refl eq_refl eq_refl eq_refl) as (ml' & nd' & ? & ? & ? & ? & ? & _).
    exists ml', nd'. split_and!; [assumption..|]. intros _ Hb. discriminate Hb.
  - destruct (Hfin ml nd Hr eq_refl eq_refl eq_refl eq_refl) as (ml' & nd' & ? & ? & ? & ? & ? & Hsame).
    exists ml', nd'. split_and!; [assumption..|]. intros Hb _. exact (Hsame Hb).
Qed.

Definition ports_set (l : list (hmap_node mac_entry)) : Prop :=
  Forall (fun nd => port (node_val nd) <> None) l.

Lemma is_learning_vlan_same ml ml' v : flood_vlans ml' = flood_vlans ml ->
  is_learning_vlan ml' v = is_learning_vlan ml v.
Proof. unfold is_learning_vlan. by intros ->. Qed.

(** The lookup of the client finds an entry, and its assertion holds. *)
Lemma lookup_client fresh ml l nd m v : ml_rep fresh ml l -> nd ∈ l -> nkey nd = (m, v) ->
  port (node_val nd) <> None -> mac_learning_may_learn (Some ml) m v = true ->
  mac_learning_lookup ml m v = Ok (Some nd).
Proof.
  intros Hr Hin Hk Hp Hml. cbn [mac_learning_may_learn] in Hml. apply andb_true_iff in Hml as [Hv Hm].
  unfold mac_learning_lookup. rewrite negb_true_iff in Hm. rewrite Hm, Hv. cbn [negb].
  rewrite (ml_lookup_in _ _ _ nd m v Hr Hin Hk). cbn [rbind]. by destruct (port (node_val nd)).
Qed.

(** C37. A packet from a learnable address leaves the table with an entry for
    that address and VLAN as the most recently used one, whose port is the one
    the packet came from, except that a reflected gratuitous ARP on a bond does
    not move an entry that is locked.  No entry is without a port afterwards,
    so the assertion in [mac_learning_lookup] cannot fail. *)
Theorem update_learning_table_learns fresh ml l addr f wc v now xb b : ml_rep fresh ml l ->
  (fresh <= addr)%nat -> mac_learning_may_learn (Some ml) (dl_src f) v = true ->
  ofbundle xb = Some b -> TIME_MIN <= now -> ports_set l ->
  exists ml' l0 nd, update_learning_table__ ml addr f wc v now xb = Ok (ml', (is_gratuitous_arp f wc).2) /\
    ml_rep (S addr) ml' (l0 ++ [nd]) /\ ports_set (l0 ++ [nd]) /\
    mac_learning_lookup ml' (dl_src f) v = Ok (Some nd) /\
    (port (node_val nd) = Some b \/
     exists e, e ∈ node_val <$> l /\ key e = (dl_src f, v) /\ now < grat_arp_lock e /\
       (is_gratuitous_arp f wc).1 = true /\ bond xb = true /\ port (node_val nd) = port e).
Proof.
  intros Hr Ha Hml Hb Hnow Hps. unfold update_learning_table__. rewrite Hml. cbn [negb].
  destruct (mac_learning_insert_rep fresh ml l addr (dl_src f) v now Hr Ha)
    as (ml1 & l0 & nd & -> & Hr1 & Hs & Hes). cbn [rbind].
  pose proof (lru_touch_key _ _ _ _ _ _ _ Hes) as Hk. pose proof (lru_touch_last _ _ _ _ _ _ _ Hes) as [Hsub Hlast].
  destruct (update_after_insert _ _ _ _ f wc now xb Hr1) as (ml' & nd' & -> & Hr' & Hk' & Hfl & Hp & _).
  assert (Hps0 : ports_set l0).
  { apply Forall_forall. intros x Hx. unfold ports_set in Hps. rewrite Forall_forall in Hps.
    assert (node_val x ∈ node_val <$> l) as Hin by (apply Hsub, list_elem_of_fmap; eauto).
    apply list_elem_of_fmap in Hin as (y & E & Hy). rewrite E. by apply Hps. }
  set (locked := _ && _) in Hp.
  assert (Hor : port (node_val nd') = Some b \/
     exists e, e ∈ node_val <$> l /\ key e = (dl_src f, v) /\ now < grat_arp_lock e /\
       (is_gratuitous_arp f wc).1 = true /\ bond xb = true /\ port (node_val nd') = port e).
  { destruct locked eqn:El; [|left; congruence]. unfold locked in El.
    apply andb_true_iff in El as [El1 El3]. apply andb_true_iff in El1 as [El1 El2].
    unfold mac_entry_is_grat_arp_locked in El3. apply Z.ltb_lt in El3.
    destruct Hlast as [(x & Hf & E)|[_ E]]; rewrite E in El3, Hp; [|cbn in El3; lia].
    right. exists x. by apply find_has_key in Hf as [? ?]. }
  assert (Hps' : port (node_val nd') <> None).
  { destruct Hor as [->|(e & Hin & _ & _ & _ & _ & ->)]; [done|].
    apply list_elem_of_fmap in Hin as (y & -> & Hy). unfold ports_set in Hps. rewrite Forall_forall in Hps. auto. }
  exists ml', l0, nd'. split; [done|]. split; [done|].
  split; [apply Forall_app; split; [done|by constructor]|]. split; [|done].
  apply (lookup_client (S addr) ml' (l0 ++ [nd'])); [done|set_solver|congruence|done|].
  cbn [mac_learning_may_learn] in *. rewrite (is_learning_vlan_same ml); [done|].
  apply same_config_fields in Hs as (_ & Hs & _). congruence.
Qed.

Definition in_time (t : Z) : Prop := - 2 ^ 31 <= t < 2 ^ 31.

Lemma age_zero idle e now : in_time e -> s32 (idle - s32 (e - now)) = 0 -> s32 (now + idle) = e.
Proof.
  unfold in_time, s32, u32. intros He H.
  repeat match goal with H : context [if ?b then _ else _] |- _ => destruct b eqn:? end;
  repeat match goal with |- context [if ?b then _ else _] => destruct b eqn:? end; zdm.
Qed.

(** Moving an entry that keeps its expiry to the end. *)
Lemma lru_touch_same max t m v es e : NoDup (key <$> es) -> List.find (has_key m v) es = Some e ->
  expires e = t -> lru_touch max t m v es ≡ₚ es.
Proof.
  intros Hn Hf Ht. unfold lru_touch. rewrite Hf.
  replace (set_expires t e) with e by (rewrite <- Ht; by destruct e).
  apply find_has_key in Hf as [Hin Hk]. apply list_elem_of_split in Hin as (l1 & l2 & ->).
  rewrite filter_others by done. rewrite <- app_assoc. apply Permutation_app_head.
  symmetry. apply Permutation_cons_append.
Qed.

(** When no update is needed, the entry was learned this very second, and the
    packet would not move it or lock it. *)
Lemma update_not_needed ml f wc wc' v now xb :
  mac_learning_may_learn (Some ml) (dl_src f) v = true ->
  is_mac_learning_update_needed ml f wc v now xb = Ok (false, wc') ->
  exists nd, mac_entry_lookup ml (dl_src f) v = Ok (Some nd) /\
    mac_entry_age ml (node_val nd) now = 0 /\ wc' = (is_gratuitous_arp f wc).2 /\
    (is_gratuitous_arp f wc).1 && negb (bond xb) = false /\
    (is_gratuitous_arp f wc).1 && bond xb && mac_entry_is_grat_arp_locked (node_val nd) now
    || bool_decide (port (node_val nd) = ofbundle xb) = true.
Proof.
  intros Hml H. unfold is_mac_learning_update_needed in H. rewrite Hml in H. cbn [negb] in H.
  apply rbind_Ok in H as ([nd|] & Hl & H); [|done]. exists nd. split.
  { unfold mac_learning_lookup in Hl. destruct (eth_addr_is_multicast _); [done|].
    destruct (negb (is_learning_vlan _ _)); [done|]. apply rbind_Ok in Hl as (e & Hl & He).
    apply rbind_Ok in He as (_ & _ & [= ->]). done. }
  destruct (Z.eqb_spec (mac_entry_age ml (node_val nd) now) 0) as [E|E]; [|done]. split; [done|].
  cbn [negb] in H. destruct (is_gratuitous_arp f wc) as [arp wc1]. cbn [fst snd].
  destruct arp, (bond xb), (mac_entry_is_grat_arp_locked (node_val nd) now),
    (bool_decide (port (node_val nd) = ofbundle xb)); cbn in H |- *; naive_solver.
Qed.

(** The check made under the read lock agrees with the update made under
    the write lock: whenever [is_mac_learning_update_needed] says that no
    update is needed, [update_learning_table__] would change no entry (it would
    only put one at the end of the order of use) and ask for no revalidation,
    and both make the same fields of the flow significant. *)
Theorem update_check_agrees fresh ml l addr f wc wc' v now xb : ml_rep fresh ml l ->
  (fresh <= addr)%nat -> Forall (fun nd => in_time (expires (node_val nd))) l ->
  is_mac_learning_update_needed ml f wc v now xb = Ok (false, wc') ->
  exists ml' l', update_learning_table__ ml addr f wc v now xb = Ok (ml', wc') /\
    ml_rep (S addr) ml' l' /\ node_val <$> l' ≡ₚ node_val <$> l /\
    need_revalidate ml' = need_revalidate ml.
Proof.
  intros Hr Ha Ht H. unfold update_learning_table__.
  destruct (mac_learning_may_learn (Some ml) (dl_src f) v) eqn:Hml; cbn [negb].
  2: { unfold is_mac_learning_update_needed in H. rewrite Hml in H. injection H as <-.
       exists ml, l. split; [done|]. split; [|done]. eapply ml_rep_mono; [exact Hr|lia]. }
  destruct (update_not_needed _ _ _ _ _ _ _ Hml H) as (nd & Hl & Hage & -> & Hno & Hport).
  rewrite (ml_lookup _ _ _ Hr) in Hl. injection Hl as Hl.
  assert (Hf : List.find (has_key (dl_src f) v) (node_val <$> l) = Some (node_val nd))
    by (rewrite find_fmap; unfold has_key; by rewrite Hl).
  apply List.find_some in Hl as [Hin _]. apply list_elem_of_In in Hin. rewrite Forall_forall in Ht.
  apply age_zero in Hage; [|by apply Ht].
  destruct (mac_learning_insert_rep fresh ml l addr (dl_src f) v now Hr Ha)
    as (ml1 & l0 & nd1 & -> & Hr1 & Hs & Hes). cbn [rbind].
  pose proof (lru_touch_same (max_entries ml) _ _ _ _ _ (rep_entry_keys _ _ _ Hr) Hf (eq_sym Hage)) as Hperm.
  rewrite <- Hes in Hperm.
  assert (Hv : node_val nd1 = node_val nd).
  { apply lru_touch_last in Hes as [_ [(x & Hx & ->)|[Hx _]]]; rewrite Hf in Hx; [|done].
    injection Hx as <-. rewrite Hage. by destruct (node_val nd). }
  destruct (update_after_insert _ _ _ _ f wc now xb Hr1) as (ml' & nd' & -> & Hr' & _ & _ & _ & Hsame).
  rewrite Hv in Hsame. destruct (Hsame Hport Hno) as [Hv' Hrv].
  exists ml', (l0 ++ [nd']). split; [done|]. split; [done|]. split.
  - by rewrite fmap_app, fmap_cons, Hv', <- Hv.
  - apply same_config_fields in Hs as (_ & _ & _ & _ & Hs & _). congruence.
Qed.

(** ** Examples *)

Module Learned.
Definition src : list Z := [2; 0; 0; 0; 0; 1].
Definition entry : mac_entry := Mk_mac_entry 1300 TIME_MIN src 5 (Some 9).
Definition pkt : learn_flow := Mk_learn_flow src src 8 6 0 0.
Definition wc : wildcards := Mk_wc false false false false.
Definition trunk (b : Z) : xbundle := Mk_xbundle (Some b) false false.

(** A table that learned one address at time 1000. *)
Lemma table_rep : exists ml nd, ml_rep 2 ml [nd] /\ node_val nd = entry /\ idle_time ml = 300 /\
  max_entries ml = 2048 /\ flood_vlans ml = None /\ need_revalidate ml = false.
Proof.
  destruct (create_rep 0 7 300) as (ml & E & Hr).
  destruct (mac_learning_insert_rep 1 ml [] 1 src 5 1000 Hr (le_n 1))
    as (ml' & l0 & nd & _ & Hr' & (t & m & ->) & Hes).
  injection E as <-.
  change (lru_touch _ _ _ _ _) with ([] ++ [Mk_mac_entry 1300 TIME_MIN src 5 None]) in Hes.
  apply app_inj_tail in Hes as [Hl Hv]. destruct l0; [|done].
  pose proof (ml_store_mid _ _ [] nd [] (set_port (Some 9)) Hr' (fun _ => eq_refl)) as Hr2.
  eexists _, _. split; [exact Hr2|]. by rewrite Hv.
Qed.
End Learned.

Lemma mac_learning_run_expires_witness :
  exists ml l ml', ml_rep 2 ml l /\ l <> [] /\
    mac_learning_run ml 1300 = Ok (true, ml') /\ ml_rep 2 ml' [].
Proof.
  destruct Learned.table_rep as (ml & nd & Hr & Hv & _ & Hm & _ & Hn).
  destruct (mac_learning_run_expires 2 ml [nd] 1300 Hr) as (ml' & l' & E & Hr' & _ & Hes).
  - repeat constructor.
  - exists ml, [nd], ml'. rewrite Hm in Hes. cbn in Hes. rewrite Hv in Hes. cbn in Hes.
    destruct l'; [|done]. rewrite Hn in E. split; [exact Hr|]. split; [done|]. split; [exact E|exact Hr'].
Defined.

Lemma mac_learning_flush_empties_witness :
  exists ml l ml', ml_rep 2 ml l /\ l <> [] /\ mac_learning_flush ml = Ok ml' /\ ml_rep 2 ml' [].
Proof.
  destruct Learned.table_rep as (ml & nd & Hr & _).
  destruct (mac_learning_flush_empties 2 ml [nd] Hr) as (ml' & E & Hr' & _).
  exists ml, [nd], ml'. split; [exact Hr|]. split; [done|]. split; [exact E|exact Hr'].
Defined.

Lemma mac_learning_set_idle_time_age_witness :
  exists ml nd ml' l', ml_rep 2 ml [nd] /\ mac_learning_set_idle_time ml 60 = Ok (Some ml') /\
    (fun nd => mac_entry_age ml' (node_val nd) 1010) <$> l' = [10].
Proof.
  destruct Learned.table_rep as (ml & nd & Hr & Hv & Hi & _).
  destruct (mac_learning_set_idle_time_age 2 ml [nd] 60 1010 Hr) as (ml' & l' & E & _ & _ & Ha).
  exists ml, nd, ml', l'. split; [exact Hr|]. split; [exact E|].
  apply (f_equal (fmap snd)) in Ha. rewrite <- !list_fmap_compose in Ha.
  etransitivity; [exact Ha|]. cbn. unfold mac_entry_age. rewrite Hv, Hi. reflexivity.
Defined.

(** The address moves to port 10. *)
Lemma update_learning_table_learns_witness :
  exists ml ml' l0 nd, update_learning_table__ ml 2 Learned.pkt Learned.wc 5 1010 (Learned.trunk 10)
      = Ok (ml', Learned.wc) /\ ml_rep 3 ml' (l0 ++ [nd]) /\
    mac_learning_lookup ml' Learned.src 5 = Ok (Some nd).
Proof.
  destruct Learned.table_rep as (ml & nd0 & Hr & Hv & _ & _ & Hf & _).
  destruct (update_learning_table_learns 2 ml [nd0] 2 Learned.pkt Learned.wc 5 1010
    (Learned.trunk 10) 10 Hr) as (ml' & l0 & nd & E & Hr' & _ & Hl & _).
  - exact (le_n 2).
  - cbn. unfold is_learning_vlan. by rewrite Hf.
  - reflexivity.
  - unfold TIME_MIN. lia.
  - constructor; [by rewrite Hv|constructor].
  - exists ml, ml', l0, nd. split; [exact E|]. split; [exact Hr'|exact Hl].
Defined.

Lemma update_check_agrees_witness :
  exists ml ml' l', is_mac_learning_update_needed ml Learned.pkt Learned.wc 5 1000 (Learned.trunk 9)
      = Ok (false, Learned.wc) /\
    update_learning_table__ ml 2 Learned.pkt Learned.wc 5 1000 (Learned.trunk 9) = Ok (ml', Learned.wc) /\
    node_val <$> l' ≡ₚ [Learned.entry].
Proof.
  destruct Learned.table_rep as (ml & nd & Hr & Hv & Hi & _ & Hf & _).
  assert (Hn : is_mac_learning_update_needed ml Learned.pkt Learned.wc 5 1000 (Learned.trunk 9)
    = Ok (false, Learned.wc)).
  { unfold is_mac_learning_update_needed, mac_learning_may_learn, mac_learning_lookup, is_learning_vlan.
    change (dl_src Learned.pkt) with Learned.src. rewrite Hf, (ml_lookup_in 2 ml [nd] nd Learned.src 5 Hr) by (left || by rewrite Hv).
    cbn -[mac_entry_age]. rewrite Hv. unfold mac_entry_age. cbn. rewrite Hi, Hv. reflexivity. }
  destruct (update_check_agrees 2 ml [nd] 2 Learned.pkt Learned.wc Learned.wc 5 1000
    (Learned.trunk 9) Hr) as (ml' & l' & E & _ & Hp & _).
  - exact (le_n 2).
  - constructor; [rewrite Hv; unfold in_time; cbn; lia|constructor].
  - exact Hn.
  - exists ml, ml', l'. split; [exact Hn|]. split; [exact E|]. rewrite Hp. cbn. by rewrite Hv.
Defined.
