(* ===== verification/Stp.v ===== *)
(** * The spanning tree protocol ([lib/stp.c], [lib/stp.h])

    The bridge side of IEEE 802.1D: the state of a bridge and its ports, the
    timers, the BPDUs it sends and receives, and the client interface.  Ports
    are elements of the array in the bridge, named by their index.  The
    [send_bpdu] callback of the client is an output log of frames; a callback
    that calls back into the module is not modelled.  [int] arithmetic wraps
    around where it overflows. *)

From Stdlib Require Import ZArith Lia List.
From stdpp Require Import base list option.
From S2P Require Import Prelude Bytes.
#[local] Open Scope Z_scope.
#[local] Open Scope res_scope.

(** ** Data *)

Definition STP_MAX_PORTS : nat := 255.
Definition STP_PROTOCOL_ID : Z := 0.
Definition STP_PROTOCOL_VERSION : Z := 0.
Definition STP_TYPE_CONFIG : Z := 0x00.
Definition STP_TYPE_TCN : Z := 0x80.
Definition STP_CONFIG_TOPOLOGY_CHANGE_ACK : Z := 0x80.
Definition STP_CONFIG_TOPOLOGY_CHANGE : Z := 0x01.
Definition STP_DEFAULT_BRIDGE_PRIORITY : Z := 32768.
Definition STP_DEFAULT_PORT_PRIORITY : Z := 128.
Definition STP_DEFAULT_MAX_AGE : Z := 20000.
Definition STP_DEFAULT_HELLO_TIME : Z := 2000.
Definition STP_DEFAULT_FWD_DELAY : Z := 15000.
Definition MESSAGE_AGE_INCREMENT : Z := 1.

(** [enum stp_state].  [STP_UNSET] is none of its members but the value 0, which
    the state of a port has between the allocation of a bridge and the
    initialization of the port. *)
Inductive stp_state := STP_UNSET | STP_DISABLED | STP_LISTENING | STP_LEARNING | STP_FORWARDING | STP_BLOCKING.
#[global] Instance stp_state_eq_dec : EqDecision stp_state.
Proof. solve_decision. Defined.

Inductive stp_role := STP_ROLE_ROOT | STP_ROLE_DESIGNATED | STP_ROLE_ALTERNATE | STP_ROLE_DISABLED.

Record stp_timer := Mk_timer { active : bool; value : Z }.

(** What a port knows of its segment (8.5.5.4 to 8.5.5.7). *)
Record stp_info := Mk_info {
  designated_root : Z;
  designated_cost : Z;
  designated_bridge : Z;
  designated_port : Z
}.

Record stp_port := Mk_port {
  aux : option Z;
  port_id : Z;
  pstate : stp_state;
  path_cost : Z;
  info : stp_info;
  topology_change_ack : bool;
  config_pending : bool;
  change_detection_enabled : bool;
  message_age_timer : stp_timer;
  forward_delay_timer : stp_timer;
  hold_timer : stp_timer;
  tx_count : Z;
  rx_count : Z;
  error_count : Z;
  state_changed : bool
}.

(** A maximum age, hello time and forward delay. *)
Record stp_times := Mk_times { max_age : Z; hello_time : Z; forward_delay : Z }.

(** [times] are the times in use, [bridge_times] those of this bridge as the
    root and [rq_times] those the user asked for.  [sent] is the log of frames
    with the numbers of the ports they were sent on. *)
Record stp := Mk_stp {
  bridge_id : Z;
  times : stp_times;
  bridge_times : stp_times;
  rq_times : stp_times;
  elapsed_remainder : Z;
  stp_root : Z;
  root_path_cost : Z;
  root_port : option nat;
  topology_change_detected : bool;
  topology_change : bool;
  hello_timer : stp_timer;
  tcn_timer : stp_timer;
  topology_change_timer : stp_timer;
  ports : list stp_port;
  fdb_needs_flush : bool;
  first_changed_port : nat;
  sent : list (nat * list Z);
  ref_cnt : Z
}.

(** *** Stores to the fields of a port *)

Definition set_aux (a : option Z) (p : stp_port) : stp_port :=
  Mk_port a (port_id p) (pstate p) (path_cost p) (info p) (topology_change_ack p) (config_pending p)
    (change_detection_enabled p) (message_age_timer p) (forward_delay_timer p) (hold_timer p)
    (tx_count p) (rx_count p) (error_count p) (state_changed p).
Definition set_ids (id cost : Z) (i : stp_info) (p : stp_port) : stp_port :=
  Mk_port (aux p) id (pstate p) cost i (topology_change_ack p) (config_pending p)
    (change_detection_enabled p) (message_age_timer p) (forward_delay_timer p) (hold_timer p)
    (tx_count p) (rx_count p) (error_count p) (state_changed p).
Definition set_info (i : stp_info) (p : stp_port) : stp_port := set_ids (port_id p) (path_cost p) i p.
Definition set_pstate (st : stp_state) (changed : bool) (p : stp_port) : stp_port :=
  Mk_port (aux p) (port_id p) st (path_cost p) (info p) (topology_change_ack p) (config_pending p)
    (change_detection_enabled p) (message_age_timer p) (forward_delay_timer p) (hold_timer p)
    (tx_count p) (rx_count p) (error_count p) changed.
Definition set_flags (ack pending detect : bool) (p : stp_port) : stp_port :=
  Mk_port (aux p) (port_id p) (pstate p) (path_cost p) (info p) ack pending detect
    (message_age_timer p) (forward_delay_timer p) (hold_timer p)
    (tx_count p) (rx_count p) (error_count p) (state_changed p).
Definition set_ptimers (age delay hold : stp_timer) (p : stp_port) : stp_port :=
  Mk_port (aux p) (port_id p) (pstate p) (path_cost p) (info p) (topology_change_ack p)
    (config_pending p) (change_detection_enabled p) age delay hold
    (tx_count p) (rx_count p) (error_count p) (state_changed p).
Definition set_counts (tx rx err : Z) (p : stp_port) : stp_port :=
  Mk_port (aux p) (port_id p) (pstate p) (path_cost p) (info p) (topology_change_ack p)
    (config_pending p) (change_detection_enabled p) (message_age_timer p) (forward_delay_timer p)
    (hold_timer p) tx rx err (state_changed p).

(** *** Stores to the fields of a bridge *)

Definition set_times (cur own rq : stp_times) (rem : Z) (s : stp) : stp :=
  Mk_stp (bridge_id s) cur own rq rem (stp_root s) (root_path_cost s) (root_port s)
    (topology_change_detected s) (topology_change s) (hello_timer s) (tcn_timer s)
    (topology_change_timer s) (ports s) (fdb_needs_flush s) (first_changed_port s) (sent s) (ref_cnt s).
Definition set_root (id root cost : Z) (rp : option nat) (s : stp) : stp :=
  Mk_stp id (times s) (bridge_times s) (rq_times s) (elapsed_remainder s) root cost rp
    (topology_change_detected s) (topology_change s) (hello_timer s) (tcn_timer s)
    (topology_change_timer s) (ports s) (fdb_needs_flush s) (first_changed_port s) (sent s) (ref_cnt s).
Definition set_topology (detected change flush : bool) (s : stp) : stp :=
  Mk_stp (bridge_id s) (times s) (bridge_times s) (rq_times s) (elapsed_remainder s) (stp_root s)
    (root_path_cost s) (root_port s) detected change (hello_timer s) (tcn_timer s)
    (topology_change_timer s) (ports s) flush (first_changed_port s) (sent s) (ref_cnt s).
Definition set_timers (hello tcn tc : stp_timer) (s : stp) : stp :=
  Mk_stp (bridge_id s) (times s) (bridge_times s) (rq_times s) (elapsed_remainder s) (stp_root s)
    (root_path_cost s) (root_port s) (topology_change_detected s) (topology_change s) hello tcn tc
    (ports s) (fdb_needs_flush s) (first_changed_port s) (sent s) (ref_cnt s).
Definition set_ports (l : list stp_port) (first : nat) (s : stp) : stp :=
  Mk_stp (bridge_id s) (times s) (bridge_times s) (rq_times s) (elapsed_remainder s) (stp_root s)
    (root_path_cost s) (root_port s) (topology_change_detected s) (topology_change s)
    (hello_timer s) (tcn_timer s) (topology_change_timer s) l (fdb_needs_flush s) first (sent s) (ref_cnt s).
Definition set_sent (l : list (nat * list Z)) (refs : Z) (s : stp) : stp :=
  Mk_stp (bridge_id s) (times s) (bridge_times s) (rq_times s) (elapsed_remainder s) (stp_root s)
    (root_path_cost s) (root_port s) (topology_change_detected s) (topology_change s)
    (hello_timer s) (tcn_timer s) (topology_change_timer s) (ports s) (fdb_needs_flush s)
    (first_changed_port s) l refs.

Definition no_timer : stp_timer := Mk_timer false 0.
(** A port of zeroed memory. *)
Definition zero_port : stp_port :=
  Mk_port None 0 STP_UNSET 0 (Mk_info 0 0 0 0) false false false no_timer no_timer no_timer 0 0 0 false.

(** [stp->ports[i]] and a store to it. *)
Definition port (s : stp) (i : nat) : stp_port := default zero_port (ports s !! i).
Definition upd_port (i : nat) (f : stp_port -> stp_port) (s : stp) : stp :=
  set_ports (alter f i (ports s)) (first_changed_port s) s.

(** ** Timers *)

Definition stp_start_timer (v : Z) : stp_timer := Mk_timer true v.
Definition stp_stop_timer (t : stp_timer) : stp_timer := Mk_timer false (value t).

Definition stp_timer_expired (t : stp_timer) (elapsed timeout : Z) : bool * stp_timer :=
  if active t then
    let v := s32 (value t + elapsed) in
    if timeout <=? v then (true, Mk_timer false v) else (false, Mk_timer true v)
  else (false, t).

(** The products are [int]s. *)
Definition ms_to_timer (ms : Z) : Z := Z.quot (s32 (ms * 0x100)) 1000.
Definition timer_to_ms (t : Z) : Z := Z.quot (s32 (t * 1000)) 0x100.

Definition clamp (x mn mx : Z) : Z := if x <? mn then mn else if mx <? x then mx else x.

(** ** Predicates *)

Definition stp_is_root_bridge (s : stp) : bool := bridge_id s =? stp_root s.

Definition stp_is_designated_port (s : stp) (p : stp_port) : bool :=
  (designated_bridge (info p) =? bridge_id s) && (designated_port (info p) =? port_id p).

Definition enabled (p : stp_port) : bool :=
  match pstate p with STP_DISABLED => false | _ => true end.

(** [FOR_EACH_ENABLED_PORT]: whether a port is enabled is tested when the loop
    gets to it. *)
Fixpoint for_each_enabled_from (n i : nat) (body : nat -> stp -> stp) (s : stp) : stp :=
  match n with
  | O => s
  | S n =>
      let s := if enabled (port s i) then body i s else s in
      for_each_enabled_from n (S i) body s
  end.
Definition for_each_enabled (body : nat -> stp -> stp) (s : stp) : stp :=
  for_each_enabled_from (length (ports s)) 0 body s.

(** ** BPDUs *)

(** The fields of [struct stp_config_bpdu], in host byte order. *)
Record stp_config_bpdu := Mk_config {
  flags : Z;
  c_root_id : Z;
  c_root_path_cost : Z;
  c_bridge_id : Z;
  c_port_id : Z;
  c_message_age : Z;
  c_times : stp_times
}.

Definition bpdu_header (ty : Z) : list Z := be16_bytes STP_PROTOCOL_ID ++ [STP_PROTOCOL_VERSION; ty].

(** The 35 bytes of the packed structure. *)
Definition config_bytes (c : stp_config_bpdu) : list Z :=
  bpdu_header STP_TYPE_CONFIG ++ [flags c] ++ be64_bytes (c_root_id c) ++
  be32_bytes (c_root_path_cost c) ++ be64_bytes (c_bridge_id c) ++ be16_bytes (c_port_id c) ++
  be16_bytes (c_message_age c) ++ be16_bytes (max_age (c_times c)) ++
  be16_bytes (hello_time (c_times c)) ++ be16_bytes (forward_delay (c_times c)).
Definition tcn_bytes : list Z := bpdu_header STP_TYPE_TCN.

Definition eth_addr_stp : list Z := [0x01; 0x80; 0xc2; 0x00; 0x00; 0x00].

(** The frame: Ethernet header with an empty source address and the length as
    its type, LLC header, BPDU. *)
Definition frame (bpdu : list Z) : list Z :=
  eth_addr_stp ++ [0; 0; 0; 0; 0; 0] ++ be16_bytes (3 + Z.of_nat (length bpdu)) ++
  [0x42; 0x42; 0x03] ++ bpdu.

Definition stp_send_bpdu (i : nat) (bpdu : list Z) (s : stp) : stp :=
  let s := set_sent (sent s ++ [(i, frame bpdu)]) (ref_cnt s) s in
  upd_port i (fun p => set_counts (s32 (tx_count p + 1)) (rx_count p) (error_count p) p) s.

Definition stp_transmit_tcn (s : stp) : stp :=
  match root_port s with None => s | Some i => stp_send_bpdu i tcn_bytes s end.

(** The message that [stp_transmit_config] builds. *)
Definition stp_config_message (s : stp) (p : stp_port) : stp_config_bpdu :=
  let fl := Z.lor (if topology_change_ack p then STP_CONFIG_TOPOLOGY_CHANGE_ACK else 0)
                  (if topology_change s then STP_CONFIG_TOPOLOGY_CHANGE else 0) in
  let age := if stp_is_root_bridge s then 0
             else match root_port s with
                  | None => 0
                  | Some r => u16 (value (message_age_timer (port s r)) + MESSAGE_AGE_INCREMENT)
                  end in
  Mk_config fl (stp_root s) (root_path_cost s) (bridge_id s) (u16 (port_id p)) age
    (Mk_times (u16 (max_age (times s))) (u16 (hello_time (times s))) (u16 (forward_delay (times s)))).

Definition stp_transmit_config (i : nat) (s : stp) : stp :=
  let p := port s i in
  let root := stp_is_root_bridge s in
  if negb root && match root_port s with None => true | Some _ => false end then s
  else if active (hold_timer p) then
    upd_port i (fun p => set_flags (topology_change_ack p) true (change_detection_enabled p) p) s
  else
    let config := stp_config_message s p in
    if c_message_age config <? max_age (times s) then
      let s := upd_port i (fun p => set_flags false false (change_detection_enabled p) p) s in
      let s := stp_send_bpdu i (config_bytes config) s in
      upd_port i (fun p => set_ptimers (message_age_timer p) (forward_delay_timer p) (stp_start_timer 0) p) s
    else s.

Definition stp_config_bpdu_generation (s : stp) : stp :=
  for_each_enabled (fun i s =>
    if stp_is_designated_port s (port s i) then stp_transmit_config i s else s) s.

(** ** Configuration *)

(** Comparisons between [uint32_t] and [int] are unsigned. *)
Definition stp_supersedes_port_info (s : stp) (p : stp_port) (c : stp_config_bpdu) : bool :=
  let q := info p in
  if negb (c_root_id c =? designated_root q) then c_root_id c <? designated_root q
  else if negb (c_root_path_cost c =? u32 (designated_cost q))
  then c_root_path_cost c <? u32 (designated_cost q)
  else if negb (c_bridge_id c =? designated_bridge q) then c_bridge_id c <? designated_bridge q
  else negb (c_bridge_id c =? bridge_id s) || (c_port_id c <=? designated_port q).

Definition stp_record_config_information (i : nat) (c : stp_config_bpdu) (s : stp) : stp :=
  upd_port i (fun p =>
    set_ptimers (stp_start_timer (c_message_age c)) (forward_delay_timer p) (hold_timer p)
      (set_info (Mk_info (c_root_id c) (s32 (c_root_path_cost c)) (c_bridge_id c) (c_port_id c)) p)) s.

Definition stp_record_config_timeout_values (c : stp_config_bpdu) (s : stp) : stp :=
  set_topology (topology_change_detected s)
    (negb (Z.land (flags c) STP_CONFIG_TOPOLOGY_CHANGE =? 0)) (fdb_needs_flush s)
    (set_times (c_times c) (bridge_times s) (rq_times s) (elapsed_remainder s) s).

Definition stp_supersedes_root (root p : stp_port) : bool :=
  let p_cost := s32 (designated_cost (info p) + path_cost p) in
  let root_cost := s32 (designated_cost (info root) + path_cost root) in
  if negb (designated_root (info p) =? designated_root (info root))
  then designated_root (info p) <? designated_root (info root)
  else if negb (p_cost =? root_cost) then p_cost <? root_cost
  else if negb (designated_bridge (info p) =? designated_bridge (info root))
  then designated_bridge (info p) <? designated_bridge (info root)
  else if negb (designated_port (info p) =? designated_port (info root))
  then designated_port (info p) <? designated_port (info root)
  else port_id p <? port_id root.

(** The search for the root port from port [i] on. *)
Fixpoint select_root (n i : nat) (s : stp) (root : option nat) : option nat :=
  match n with
  | O => root
  | S n =>
      let p := port s i in
      let root' :=
        if negb (enabled p) then root
        else if stp_is_designated_port s p || (bridge_id s <=? designated_root (info p)) then root
        else match root with
             | Some r => if negb (stp_supersedes_root (port s r) p) then root else Some i
             | None => Some i
             end in
      select_root n (S i) s root'
  end.

Definition stp_root_selection (s : stp) : stp :=
  match select_root (length (ports s)) 0 s None with
  | None => set_root (bridge_id s) (bridge_id s) 0 None s
  | Some r =>
      let q := port s r in
      set_root (bridge_id s) (designated_root (info q))
        (u32 (designated_cost (info q) + path_cost q)) (Some r) s
  end.

Definition stp_become_designated_port (i : nat) (s : stp) : stp :=
  upd_port i (fun p => set_info (Mk_info (stp_root s) (s32 (root_path_cost s)) (bridge_id s) (port_id p)) p) s.

Definition stp_designated_port_selection (s : stp) : stp :=
  for_each_enabled (fun i s =>
    let p := port s i in
    let q := info p in
    if stp_is_designated_port s p || negb (designated_root q =? stp_root s)
       || (root_path_cost s <? u32 (designated_cost q))
       || ((root_path_cost s =? u32 (designated_cost q))
           && ((bridge_id s <? designated_bridge q)
               || ((bridge_id s =? designated_bridge q) && (port_id p <=? designated_port q))))
    then stp_become_designated_port i s else s) s.

Definition stp_configuration_update (s : stp) : stp :=
  stp_designated_port_selection (stp_root_selection s).

(** ** Port states *)

Definition stp_set_port_state (i : nat) (st : stp_state) (s : stp) : stp :=
  let p := port s i in
  if negb (bool_decide (st = pstate p)) && negb (state_changed p) then
    let s := upd_port i (set_pstate st true) s in
    if (i <? first_changed_port s)%nat then set_ports (ports s) i s else s
  else upd_port i (fun p => set_pstate st (state_changed p) p) s.

Definition stp_topology_change_detection (s : stp) : stp :=
  let s :=
    if stp_is_root_bridge s then
      set_timers (hello_timer s) (tcn_timer s) (stp_start_timer 0)
        (set_topology (topology_change_detected s) true (fdb_needs_flush s) s)
    else if negb (topology_change_detected s) then
      let s := stp_transmit_tcn s in
      set_timers (hello_timer s) (stp_start_timer 0) (topology_change_timer s) s
    else s in
  set_topology true (topology_change s) true s.

Definition stp_make_forwarding (i : nat) (s : stp) : stp :=
  match pstate (port s i) with
  | STP_BLOCKING =>
      let s := stp_set_port_state i STP_LISTENING s in
      upd_port i (fun p => set_ptimers (message_age_timer p) (stp_start_timer 0) (hold_timer p) p) s
  | _ => s
  end.

Definition stp_make_blocking (i : nat) (s : stp) : stp :=
  let p := port s i in
  match pstate p with
  | STP_DISABLED | STP_BLOCKING => s
  | st =>
      let s := match st with
               | STP_FORWARDING | STP_LEARNING =>
                   if change_detection_enabled p then stp_topology_change_detection s else s
               | _ => s
               end in
      let s := stp_set_port_state i STP_BLOCKING s in
      upd_port i (fun p => set_ptimers (message_age_timer p) (stp_stop_timer (forward_delay_timer p))
                             (hold_timer p) p) s
  end.

(** The body of the loop of [stp_port_state_selection]. *)
Definition select_state (i : nat) (s : stp) : stp :=
  let clear := upd_port i (fun p => set_flags false false (change_detection_enabled p) p) s in
  if bool_decide (root_port s = Some i) then stp_make_forwarding i clear
  else if stp_is_designated_port s (port s i) then
    stp_make_forwarding i (upd_port i (fun p =>
      set_ptimers (stp_stop_timer (message_age_timer p)) (forward_delay_timer p) (hold_timer p) p) s)
  else stp_make_blocking i clear.

Definition stp_port_state_selection (s : stp) : stp := for_each_enabled select_state s.

(** ** Received BPDUs and timers *)

Definition stp_topology_change_acknowledged (s : stp) : stp :=
  let s := set_topology false (topology_change s) (fdb_needs_flush s) s in
  set_timers (hello_timer s) (stp_stop_timer (tcn_timer s)) (topology_change_timer s) s.

Definition stp_acknowledge_topology_change (i : nat) (s : stp) : stp :=
  stp_transmit_config i (upd_port i (fun p =>
    set_flags true (config_pending p) (change_detection_enabled p) p) s).

Definition stp_received_config_bpdu (i : nat) (c : stp_config_bpdu) (s : stp) : stp :=
  if max_age (c_times c) <=? c_message_age c then s
  else if enabled (port s i) then
    let root := stp_is_root_bridge s in
    if stp_supersedes_port_info s (port s i) c then
      let s := stp_record_config_information i c s in
      let s := stp_configuration_update s in
      let s := stp_port_state_selection s in
      let s :=
        if negb (stp_is_root_bridge s) && root then
          let s := set_timers (stp_stop_timer (hello_timer s)) (tcn_timer s) (topology_change_timer s) s in
          if topology_change_detected s then
            let s := set_timers (hello_timer s) (tcn_timer s) (stp_stop_timer (topology_change_timer s)) s in
            let s := stp_transmit_tcn s in
            set_timers (hello_timer s) (stp_start_timer 0) (topology_change_timer s) s
          else s
        else s in
      if bool_decide (root_port s = Some i) then
        let s := stp_record_config_timeout_values c s in
        let s := stp_config_bpdu_generation s in
        let s := if negb (Z.land (flags c) STP_CONFIG_TOPOLOGY_CHANGE_ACK =? 0)
                 then stp_topology_change_acknowledged s else s in
        if negb (Z.land (flags c) STP_CONFIG_TOPOLOGY_CHANGE =? 0)
        then set_topology (topology_change_detected s) (topology_change s) true s else s
      else s
    else if stp_is_designated_port s (port s i) then stp_transmit_config i s
    else s
  else s.

Definition stp_received_tcn_bpdu (i : nat) (s : stp) : stp :=
  if enabled (port s i) && stp_is_designated_port s (port s i)
  then stp_acknowledge_topology_change i (stp_topology_change_detection s)
  else s.

Definition parse_config (b : list Z) : stp_config_bpdu :=
  Mk_config (be_field b 4 1) (be_field b 5 8) (be_field b 13 4) (be_field b 17 8) (be_field b 25 2)
    (be_field b 27 2) (Mk_times (be_field b 29 2) (be_field b 31 2) (be_field b 33 2)).

Definition stp_received_bpdu (i : nat) (bpdu : list Z) (s : stp) : stp :=
  let error s := upd_port i (fun p => set_counts (tx_count p) (rx_count p) (s32 (error_count p + 1)) p) s in
  let received s := upd_port i (fun p => set_counts (tx_count p) (s32 (rx_count p + 1)) (error_count p) p) s in
  if negb (enabled (port s i)) then s
  else if (length bpdu <? 4)%nat then error s
  else if negb (be_field bpdu 0 2 =? STP_PROTOCOL_ID) then error s
  else
    let ty := be_field bpdu 3 1 in
    if ty =? STP_TYPE_CONFIG then
      if (length bpdu <? 35)%nat then error s
      else received (stp_received_config_bpdu i (parse_config bpdu) s)
    else if ty =? STP_TYPE_TCN then
      if negb (length bpdu =? 4)%nat then error s
      else received (stp_received_tcn_bpdu i s)
    else error s.

Definition stp_hello_timer_expiry (s : stp) : stp :=
  let s := stp_config_bpdu_generation s in
  set_timers (stp_start_timer 0) (tcn_timer s) (topology_change_timer s) s.

Definition stp_become_root_bridge (s : stp) : stp :=
  let s := set_times (bridge_times s) (bridge_times s) (rq_times s) (elapsed_remainder s) s in
  let s := stp_topology_change_detection s in
  let s := set_timers (hello_timer s) (stp_stop_timer (tcn_timer s)) (topology_change_timer s) s in
  let s := stp_config_bpdu_generation s in
  set_timers (stp_start_timer 0) (tcn_timer s) (topology_change_timer s) s.

(** The code repeats the body of [stp_become_root_bridge]. *)
Definition stp_message_age_timer_expiry (i : nat) (s : stp) : stp :=
  let root := stp_is_root_bridge s in
  let s := stp_become_designated_port i s in
  let s := stp_configuration_update s in
  let s := stp_port_state_selection s in
  if stp_is_root_bridge s && negb root then stp_become_root_bridge s else s.

Definition stp_is_designated_for_some_port (s : stp) : bool :=
  existsb (fun p => enabled p && (designated_bridge (info p) =? bridge_id s)) (ports s).

Definition stp_forward_delay_timer_expiry (i : nat) (s : stp) : stp :=
  match pstate (port s i) with
  | STP_LISTENING =>
      let s := stp_set_port_state i STP_LEARNING s in
      upd_port i (fun p => set_ptimers (message_age_timer p) (stp_start_timer 0) (hold_timer p) p) s
  | STP_LEARNING =>
      let s := stp_set_port_state i STP_FORWARDING s in
      if stp_is_designated_for_some_port s && change_detection_enabled (port s i)
      then stp_topology_change_detection s else s
  | _ => s
  end.

Definition stp_tcn_timer_expiry (s : stp) : stp :=
  let s := stp_transmit_tcn s in
  set_timers (hello_timer s) (stp_start_timer 0) (topology_change_timer s) s.

Definition stp_topology_change_timer_expiry (s : stp) : stp :=
  set_topology false false (fdb_needs_flush s) s.

Definition stp_hold_timer_expiry (i : nat) (s : stp) : stp :=
  if config_pending (port s i) then stp_transmit_config i s else s.

(** The bodies of the two loops of [stp_tick]. *)
Definition tick_message_age (elapsed : Z) (i : nat) (s : stp) : stp :=
  let '(e, t) := stp_timer_expired (message_age_timer (port s i)) elapsed (max_age (times s)) in
  let s := upd_port i (fun p => set_ptimers t (forward_delay_timer p) (hold_timer p) p) s in
  if e then stp_message_age_timer_expiry i s else s.

Definition tick_delay_hold (elapsed : Z) (i : nat) (s : stp) : stp :=
  let '(e, t) := stp_timer_expired (forward_delay_timer (port s i)) elapsed (forward_delay (times s)) in
  let s := upd_port i (fun p => set_ptimers (message_age_timer p) t (hold_timer p) p) s in
  let s := if e then stp_forward_delay_timer_expiry i s else s in
  let '(e, t) := stp_timer_expired (hold_timer (port s i)) elapsed (ms_to_timer 1000) in
  let s := upd_port i (fun p => set_ptimers (message_age_timer p) (forward_delay_timer p) t p) s in
  if e then stp_hold_timer_expiry i s else s.

Definition stp_tick (ms : Z) (s : stp) : stp :=
  let ms := s32 (clamp ms 0 (INT_MAX - 1000) + elapsed_remainder s) in
  let elapsed := ms_to_timer ms in
  let s := set_times (times s) (bridge_times s) (rq_times s) (s32 (ms - timer_to_ms elapsed)) s in
  if elapsed =? 0 then s
  else
    let '(e, t) := stp_timer_expired (hello_timer s) elapsed (hello_time (times s)) in
    let s := set_timers t (tcn_timer s) (topology_change_timer s) s in
    let s := if e then stp_hello_timer_expiry s else s in
    let '(e, t) := stp_timer_expired (tcn_timer s) elapsed (hello_time (bridge_times s)) in
    let s := set_timers (hello_timer s) t (topology_change_timer s) s in
    let s := if e then stp_tcn_timer_expiry s else s in
    let '(e, t) := stp_timer_expired (topology_change_timer s) elapsed
                     (s32 (max_age (times s) + forward_delay (times s))) in
    let s := set_timers (hello_timer s) (tcn_timer s) t s in
    let s := if e then stp_topology_change_timer_expiry s else s in
    let s := for_each_enabled (tick_message_age elapsed) s in
    for_each_enabled (tick_delay_hold elapsed) s.

(** ** The client interface *)

Definition stp_initialize_port (i : nat) (st : stp_state) (s : stp) : Res stp :=
  ovs_assert (match st with STP_DISABLED | STP_BLOCKING => true | _ => false end) ;;*
  let s := stp_become_designated_port i s in
  let s := stp_set_port_state i st s in
  Ok (upd_port i (fun p =>
    set_aux None (set_flags false false true (set_counts 0 0 0
      (set_ptimers (stp_stop_timer (message_age_timer p)) (stp_stop_timer (forward_delay_timer p))
         (stp_stop_timer (hold_timer p)) p)))) s).

(** In milliseconds, then in ticks. *)
Definition bridge_times_ms (rq : stp_times) : stp_times :=
  let ht := clamp (hello_time rq) 1000 10000 in
  let ma := clamp (max_age rq) (Z.max (2 * (ht + 1000)) 6000) 40000 in
  let fd := clamp (forward_delay rq) (ma / 2 + 1000) 30000 in
  Mk_times ma ht fd.

Definition stp_update_bridge_timers (s : stp) : stp :=
  let t := bridge_times_ms (rq_times s) in
  let own := Mk_times (ms_to_timer (max_age t)) (ms_to_timer (hello_time t)) (ms_to_timer (forward_delay t)) in
  set_times (if stp_is_root_bridge s then own else times s) own (rq_times s) (elapsed_remainder s) s.

Fixpoint init_ports (n i : nat) (s : stp) : Res stp :=
  match n with
  | O => Ok s
  | S n =>
      let s := upd_port i (fun p => set_ids (Z.lor (Z.of_nat i + 1) (Z.shiftl STP_DEFAULT_PORT_PRIORITY 8))
                                      19 (info p) p) s in
      let* s := stp_initialize_port i STP_DISABLED s in
      init_ports n (S i) s
  end.

Definition stp_create (id : Z) : Res stp :=
  let id := if Z.shiftr id 48 =? 0 then Z.lor id (Z.shiftl STP_DEFAULT_BRIDGE_PRIORITY 48) else id in
  let zero := Mk_times 0 0 0 in
  let s := Mk_stp id zero zero (Mk_times STP_DEFAULT_MAX_AGE STP_DEFAULT_HELLO_TIME STP_DEFAULT_FWD_DELAY)
             0 0 0 None false false no_timer no_timer no_timer
             (replicate STP_MAX_PORTS zero_port) false 0 [] 0 in
  let s := stp_update_bridge_timers s in
  let s := set_times (bridge_times s) (bridge_times s) (rq_times s) (elapsed_remainder s) s in
  let s := set_root id id 0 None s in
  let s := set_topology false false (fdb_needs_flush s) s in
  let s := set_timers (stp_start_timer 0) (stp_stop_timer (tcn_timer s))
             (stp_stop_timer (topology_change_timer s)) s in
  let s := set_ports (ports s) STP_MAX_PORTS s in
  let* s := init_ports STP_MAX_PORTS 0 s in
  Ok (set_sent (sent s) 1 s).

Definition stp_ref (s : option stp) : Res (option stp) :=
  match s with
  | None => Ok None
  | Some s => ovs_assert (0 <? ref_cnt s) ;;* Ok (Some (set_sent (sent s) (s32 (ref_cnt s + 1)) s))
  end.
Definition stp_unref (s : option stp) : Res (option stp) :=
  match s with
  | None => Ok None
  | Some s =>
      ovs_assert (0 <? ref_cnt s) ;;*
      Ok (if ref_cnt s =? 1 then None else Some (set_sent (sent s) (s32 (ref_cnt s - 1)) s))
  end.

Definition set_bridge_id (new_id : Z) (s : stp) : stp :=
  if negb (new_id =? bridge_id s) then
    let root := stp_is_root_bridge s in
    let s := for_each_enabled (fun i s =>
      if stp_is_designated_port s (port s i) then
        upd_port i (fun p => set_info (Mk_info (designated_root (info p)) (designated_cost (info p))
                                         new_id (designated_port (info p))) p) s
      else s) s in
    let s := set_root new_id (stp_root s) (root_path_cost s) (root_port s) s in
    let s := stp_configuration_update s in
    let s := stp_port_state_selection s in
    if stp_is_root_bridge s && negb root then stp_become_root_bridge s else s
  else s.

Definition mac_bits : Z := 2 ^ 48 - 1.
Definition stp_set_bridge_id (id : Z) (s : stp) : stp :=
  set_bridge_id (Z.lor (Z.land (bridge_id s) (u64 (Z.lnot mac_bits))) (Z.land id mac_bits)) s.
Definition stp_set_bridge_priority (prio : Z) (s : stp) : stp :=
  set_bridge_id (Z.lor (Z.land (bridge_id s) mac_bits) (Z.shiftl prio 48)) s.

Definition with_rq (rq : stp_times) (s : stp) : stp :=
  stp_update_bridge_timers (set_times (times s) (bridge_times s) rq (elapsed_remainder s) s).
Definition stp_set_hello_time (ms : Z) (s : stp) : stp :=
  with_rq (Mk_times (max_age (rq_times s)) ms (forward_delay (rq_times s))) s.
Definition stp_set_max_age (ms : Z) (s : stp) : stp :=
  with_rq (Mk_times ms (hello_time (rq_times s)) (forward_delay (rq_times s))) s.
Definition stp_set_forward_delay (ms : Z) (s : stp) : stp :=
  with_rq (Mk_times (max_age (rq_times s)) (hello_time (rq_times s)) ms) s.

Definition stp_get_bridge_id (s : stp) : Z := bridge_id s.
Definition stp_get_designated_root (s : stp) : Z := stp_root s.
Definition stp_get_root_path_cost (s : stp) : Z := s32 (root_path_cost s).
Definition stp_get_hello_time (s : stp) : Z := timer_to_ms (hello_time (bridge_times s)).
Definition stp_get_max_age (s : stp) : Z := timer_to_ms (max_age (bridge_times s)).
Definition stp_get_forward_delay (s : stp) : Z := timer_to_ms (forward_delay (bridge_times s)).

Definition stp_check_and_reset_fdb_flush (s : stp) : bool * stp :=
  (fdb_needs_flush s, set_topology (topology_change_detected s) (topology_change s) false s).

Definition stp_get_port (s : stp) (n : Z) : Res nat :=
  ovs_assert ((0 <=? n) && (n <? Z.of_nat STP_MAX_PORTS)) ;;* Ok (Z.to_nat n).
Definition stp_get_root_port (s : stp) : option nat := root_port s.

(** The first changed port among [n] ports from [i] on. *)
Fixpoint find_changed (n i : nat) (s : stp) : option nat :=
  match n with
  | O => None
  | S n => if state_changed (port s i) then Some i else find_changed n (S i) s
  end.

Definition stp_get_changed_port (s : stp) : option nat * stp :=
  match find_changed (length (ports s) - first_changed_port s) (first_changed_port s) s with
  | Some i =>
      let s := upd_port i (fun p => set_pstate (pstate p) false p) s in
      (Some i, set_ports (ports s) (S i) s)
  | None => (None, set_ports (ports s) (length (ports s)) s)
  end.

Definition stp_forward_in_state (st : stp_state) : bool :=
  match st with STP_DISABLED | STP_FORWARDING => true | _ => false end.
Definition stp_learn_in_state (st : stp_state) : bool :=
  match st with STP_DISABLED | STP_LEARNING | STP_FORWARDING => true | _ => false end.
Definition stp_listen_in_state (st : stp_state) : bool :=
  match st with STP_LISTENING | STP_LEARNING | STP_FORWARDING => true | _ => false end.

Definition stp_port_get_role (s : stp) (i : nat) : stp_role :=
  let p := port s i in
  if match root_port s with Some r => port_id (port s r) =? port_id p | None => false end
  then STP_ROLE_ROOT
  else if stp_is_designated_port s p then STP_ROLE_DESIGNATED
  else if negb (enabled p) then STP_ROLE_DISABLED
  else STP_ROLE_ALTERNATE.

Definition stp_port_set_aux (i : nat) (a : option Z) (s : stp) : stp := upd_port i (set_aux a) s.
Definition stp_port_get_aux (s : stp) (i : nat) : option Z := aux (port s i).
Definition stp_port_get_id (s : stp) (i : nat) : Z := port_id (port s i).
Definition stp_port_get_state (s : stp) (i : nat) : stp_state := pstate (port s i).
Definition stp_port_get_counts (s : stp) (i : nat) : Z * Z * Z :=
  (tx_count (port s i), rx_count (port s i), error_count (port s i)).

Definition stp_port_disable (i : nat) (s : stp) : stp :=
  if enabled (port s i) then
    let root := stp_is_root_bridge s in
    let s := stp_become_designated_port i s in
    let s := stp_set_port_state i STP_DISABLED s in
    let s := upd_port i (fun p =>
      set_flags false false (change_detection_enabled p)
        (set_ptimers (stp_stop_timer (message_age_timer p)) (stp_stop_timer (forward_delay_timer p))
           (hold_timer p) p)) s in
    let s := stp_configuration_update s in
    let s := stp_port_state_selection s in
    let s := if stp_is_root_bridge s && negb root then stp_become_root_bridge s else s in
    upd_port i (set_aux None) s
  else s.

Definition stp_port_enable (i : nat) (s : stp) : Res stp :=
  if negb (enabled (port s i)) then
    let* s := stp_initialize_port i STP_BLOCKING s in
    Ok (stp_port_state_selection s)
  else Ok s.

Definition new_port_id (p : stp_port) (prio : Z) : Z :=
  u16 (Z.lor (Z.land (port_id p) 0xff) (Z.shiftl prio 8)).

Definition stp_port_set_priority (i : nat) (prio : Z) (s : stp) : stp :=
  let p := port s i in
  let new_id := new_port_id p prio in
  if negb (port_id p =? new_id) then
    let q := info p in
    let q := if stp_is_designated_port s p
             then Mk_info (designated_root q) (designated_cost q) (designated_bridge q) new_id else q in
    let s := upd_port i (set_ids new_id (path_cost p) q) s in
    if (bridge_id s =? designated_bridge q) && (new_id <? designated_port q)
    then stp_port_state_selection (stp_become_designated_port i s)
    else s
  else s.

Definition stp_convert_speed_to_cost (speed : Z) : Z :=
  if 10000 <=? speed then 2
  else if 1000 <=? speed then 4
  else if 100 <=? speed then 19
  else if 16 <=? speed then 62
  else if 10 <=? speed then 100
  else if 4 <=? speed then 250
  else 19.

Definition stp_port_set_path_cost (i : nat) (cost : Z) (s : stp) : stp :=
  let p := port s i in
  if negb (path_cost p =? cost) then
    let s := upd_port i (set_ids (port_id p) cost (info p)) s in
    stp_port_state_selection (stp_configuration_update s)
  else s.
Definition stp_port_set_speed (i : nat) (speed : Z) (s : stp) : stp :=
  stp_port_set_path_cost i (stp_convert_speed_to_cost speed) s.

Definition stp_port_enable_change_detection (i : nat) (s : stp) : stp :=
  upd_port i (fun p => set_flags (topology_change_ack p) (config_pending p) true p) s.
Definition stp_port_disable_change_detection (i : nat) (s : stp) : stp :=
  upd_port i (fun p => set_flags (topology_change_ack p) (config_pending p) false p) s.

(** ** The list of all instances

    The bridges that exist, each with its name, in order of creation. *)

Fixpoint stp_find (name : list Z) (all : list (list Z * stp)) : option nat :=
  match all with
  | [] => None
  | (n, _) :: all => if bool_decide (n = name) then Some 0%nat else option_map S (stp_find name all)
  end.

(** The command [stp/tcn]: whether it succeeds, and the bridges after it. *)
Definition stp_unixctl_tcn (arg : option (list Z)) (all : list (list Z * stp)) :
    bool * list (list Z * stp) :=
  let detect b := (fst b, stp_topology_change_detection (snd b)) in
  match arg with
  | Some name =>
      match stp_find name all with
      | None => (false, all)
      | Some k => (true, alter detect k all)
      end
  | None => (true, map detect all)
  end.
