(* ===== verification/StpFacts.v ===== *)
(** * Facts about the spanning tree protocol

    What the operations of [Stp] leave alone, the invariant of a bridge and the
    selection of the root and of the port states. *)

From Stdlib Require Import ZArith Lia List.
From stdpp Require Import base list option.
From S2P Require Import Prelude Bytes Stp.
#[local] Open Scope Z_scope.
#[local] Open Scope res_scope.

(** ** Stores and loops *)

Lemma length_upd_port i f s : length (ports (upd_port i f s)) = length (ports s).
Proof. apply length_alter. Qed.

Lemma port_upd_eq i f s : (i < length (ports s))%nat -> port (upd_port i f s) i = f (port s i).
Proof.
  intros Hi. unfold port; simpl. rewrite list_lookup_alter_eq.
  destruct (lookup_lt_is_Some_2 _ _ Hi) as [p ->]. done.
Qed.
Lemma port_upd_ne i j f s : i <> j -> port (upd_port i f s) j = port s j.
Proof. intros. unfold port; simpl. by rewrite list_lookup_alter_ne. Qed.

(** A property of port [j] that the store [f] keeps is kept by [upd_port]. *)
Lemma port_upd_prop (P : stp_port -> Prop) i j f s :
  P (port s j) -> (P (port s j) -> i = j -> P (f (port s j))) -> P (port (upd_port i f s) j).
Proof.
  intros H Hf. destruct (decide (i = j)) as [->|]; [|by rewrite port_upd_ne].
  destruct (decide (j < length (ports s))%nat); [by rewrite port_upd_eq; auto|].
  unfold port in *; simpl. rewrite list_lookup_alter_eq.
  rewrite lookup_ge_None_2 in * by lia. done.
Qed.
Lemma port_upd_view {A} (g : stp_port -> A) i j f s :
  (forall p, g (f p) = g p) -> g (port (upd_port i f s) j) = g (port s j).
Proof. intros Hg. apply (port_upd_prop (fun p => g p = g (port s j))); [done|]. by rewrite Hg. Qed.

Lemma upd_port_id i s : upd_port i (fun p => p) s = s.
Proof. destruct s. unfold upd_port, set_ports; simpl. f_equal. by apply list_alter_id. Qed.

Lemma for_each_enabled_from_ind (P : nat -> stp -> Prop) body n i s :
  P i s ->
  (forall k s', (i <= k < i + n)%nat -> P k s' ->
     P (S k) (if enabled (port s' k) then body k s' else s')) ->
  P (i + n)%nat (for_each_enabled_from n i body s).
Proof.
  revert i s. induction n as [|n IH]; intros i s H0 HS; simpl; [by rewrite Nat.add_0_r|].
  rewrite Nat.add_succ_r. apply (IH (S i)).
  - apply HS; [lia|done].
  - intros k s' Hk. apply HS. lia.
Qed.

(** Induction over [FOR_EACH_ENABLED_PORT], with the index reached. *)
Lemma for_each_enabled_ind (P : nat -> stp -> Prop) body s :
  P 0%nat s ->
  (forall k s', (k < length (ports s))%nat -> P k s' ->
     P (S k) (if enabled (port s' k) then body k s' else s')) ->
  P (length (ports s)) (for_each_enabled body s).
Proof.
  intros H0 HS. apply (for_each_enabled_from_ind P body (length (ports s)) 0); [done|].
  intros k s' Hk. apply HS. lia.
Qed.

Lemma for_each_enabled_inv (P : stp -> Prop) body s :
  P s -> (forall k s', (k < length (ports s))%nat -> enabled (port s' k) = true -> P s' -> P (body k s')) ->
  P (for_each_enabled body s).
Proof.
  intros H0 HS. apply (for_each_enabled_ind (fun _ => P)); [done|].
  intros k s' Hk HP. destruct (enabled (port s' k)) eqn:E; auto.
Qed.

(** ** What an operation leaves alone *)

(** The fields of a port that the election and the port states depend on. *)
Definition pcore (p : stp_port) : Z * Z * stp_info * stp_state * stp_timer * bool :=
  (port_id p, path_cost p, info p, pstate p, forward_delay_timer p, state_changed p).

(** [s'] differs from [s] only in times, bridge timers, flags, counters and the
    log of frames. *)
Record same_core (s s' : stp) : Prop := {
  sc_id : bridge_id s' = bridge_id s;
  sc_root : stp_root s' = stp_root s;
  sc_cost : root_path_cost s' = root_path_cost s;
  sc_rport : root_port s' = root_port s;
  sc_len : length (ports s') = length (ports s);
  sc_first : first_changed_port s' = first_changed_port s;
  sc_port : forall i, pcore (port s' i) = pcore (port s i)
}.

#[global] Instance same_core_preorder : PreOrder same_core.
Proof.
  split; [by constructor|].
  intros a b c [] []. constructor; intros; etrans; eauto.
Qed.

Lemma same_core_upd i f s : (forall p, pcore (f p) = pcore p) -> same_core s (upd_port i f s).
Proof.
  intros Hf. constructor; try done.
  - apply length_upd_port.
  - intros j. by apply port_upd_view.
Qed.

(** Setters that do not touch the core. *)
Ltac core := first [apply same_core_upd; done | by constructor].

Lemma same_core_trans_r s t u : same_core t u -> same_core s t -> same_core s u.
Proof. intros; by etrans. Qed.

Create HintDb stpc.

Lemma send_bpdu_core i b s : same_core s (stp_send_bpdu i b s).
Proof. unfold stp_send_bpdu. etrans; [|apply same_core_upd; done]. by constructor. Qed.
Lemma transmit_tcn_core s : same_core s (stp_transmit_tcn s).
Proof. unfold stp_transmit_tcn. destruct (root_port s); [apply send_bpdu_core|done]. Qed.
Lemma transmit_config_core i s : same_core s (stp_transmit_config i s).
Proof.
  unfold stp_transmit_config. destruct (_ && _); [done|]. destruct (active _); [core|].
  destruct (_ <? _); [|done].
  etrans; [|core]. etrans; [|apply send_bpdu_core]. core.
Qed.
Lemma config_bpdu_generation_core s : same_core s (stp_config_bpdu_generation s).
Proof.
  apply (for_each_enabled_inv (same_core s)); [done|]. intros k s' _ _ H. case_match; [|done].
  etrans; [done|apply transmit_config_core].
Qed.
Lemma topology_change_detection_core s : same_core s (stp_topology_change_detection s).
Proof.
  unfold stp_topology_change_detection. destruct (stp_is_root_bridge s); [core|].
  destruct (negb _); [|core].
  etrans; [apply transmit_tcn_core|]. core.
Qed.
Lemma set_timers_core a b c s : same_core s (set_timers a b c s).
Proof. core. Qed.
Lemma set_times_core a b c r s : same_core s (set_times a b c r s).
Proof. core. Qed.
Lemma set_topology_core a b c s : same_core s (set_topology a b c s).
Proof. core. Qed.
Lemma become_root_bridge_core s : same_core s (stp_become_root_bridge s).
Proof.
  unfold stp_become_root_bridge.
  eapply same_core_trans_r; [apply set_timers_core|].
  eapply same_core_trans_r; [apply config_bpdu_generation_core|].
  eapply same_core_trans_r; [apply set_timers_core|].
  eapply same_core_trans_r; [apply topology_change_detection_core|]. core.
Qed.

(** ** The election of the root port *)

(** The vector a port offers, compared lexicographically; [stp_supersedes_root
    r p] says that the vector of [p] is smaller. *)
Definition root_vector (p : stp_port) : list Z :=
  [designated_root (info p); s32 (designated_cost (info p) + path_cost p);
   designated_bridge (info p); designated_port (info p); port_id p].

Fixpoint lex_lt (a b : list Z) : Prop :=
  match a, b with
  | x :: a, y :: b => x < y \/ (x = y /\ lex_lt a b)
  | _, _ => False
  end.

Lemma supersedes_root_lex r p :
  stp_supersedes_root r p = true <-> lex_lt (root_vector p) (root_vector r).
Proof.
  unfold stp_supersedes_root, root_vector. cbn [lex_lt].
  repeat (case_bool; cbn [negb]); lia.
Qed.

Lemma supersedes_root_irrefl p : stp_supersedes_root p p = false.
Proof.
  apply not_true_iff_false. rewrite supersedes_root_lex. unfold root_vector. cbn [lex_lt]. lia.
Qed.
(** Whoever does not supersede [q] does not supersede anything better. *)
Lemma supersedes_root_trans q r p :
  stp_supersedes_root q r = true -> stp_supersedes_root q p = false -> stp_supersedes_root r p = false.
Proof.
  rewrite <- !not_true_iff_false, !supersedes_root_lex. unfold root_vector. cbn [lex_lt]. lia.
Qed.

(** The ports that may become root port. *)
Record eligible (s : stp) (i : nat) : Prop := {
  el_lt : (i < length (ports s))%nat;
  el_enabled : enabled (port s i) = true;
  el_other : stp_is_designated_port s (port s i) = false;
  el_root : designated_root (info (port s i)) < bridge_id s
}.

(** [root] is the best of the eligible ports below [k]. *)
Definition best (s : stp) (k : nat) (root : option nat) : Prop :=
  match root with
  | None => forall j, (j < k)%nat -> ~ eligible s j
  | Some r =>
      (r < k)%nat /\ eligible s r /\
      forall j, (j < k)%nat -> eligible s j -> stp_supersedes_root (port s r) (port s j) = false
  end.

Lemma best_skip s k root : best s k root -> ~ eligible s k -> best s (S k) root.
Proof.
  intros Hb Hk. destruct root as [r|]; simpl in *.
  - destruct Hb as (? & ? & Hj). split_and!; [lia|done|]. intros j Hlt He.
    destruct (decide (j = k)) as [->|]; [done|]. apply Hj; [lia|done].
  - intros j Hlt He. destruct (decide (j = k)) as [->|]; [done|]. apply (Hb j); [lia|done].
Qed.

(** One round of the search. *)
Lemma best_take s k root : best s k root -> eligible s k ->
  best s (S k)
    match root with
    | Some r => if negb (stp_supersedes_root (port s r) (port s k)) then root else Some k
    | None => Some k
    end.
Proof.
  intros Hb He. destruct root as [r|]; simpl in Hb.
  - destruct Hb as (Hr & Her & Hj). destruct (stp_supersedes_root _ _) eqn:E; simpl.
    + split_and!; [lia|done|]. intros j Hlt Hej.
      destruct (decide (j = k)) as [->|]; [apply supersedes_root_irrefl|].
      apply (supersedes_root_trans (port s r)); [done|]. apply Hj; [lia|done].
    + split_and!; [lia|done|]. intros j Hlt Hej.
      destruct (decide (j = k)) as [->|]; [done|]. apply Hj; [lia|done].
  - split_and!; [lia|done|]. intros j Hlt Hej.
    destruct (decide (j = k)) as [->|]; [apply supersedes_root_irrefl|].
    destruct (Hb j); [lia|done].
Qed.

Lemma select_root_best s n k root : (k + n = length (ports s))%nat ->
  best s k root -> best s (length (ports s)) (select_root n k s root).
Proof.
  revert k root. induction n as [|n IH]; intros k root Hk Hb; simpl.
  - by replace (length (ports s)) with k by lia.
  - apply IH; [lia|]. destruct (enabled (port s k)) eqn:En; simpl.
    2:{ apply best_skip; [done|]. intros []. congruence. }
    destruct (stp_is_designated_port s (port s k)) eqn:Ed; simpl.
    { apply best_skip; [done|]. intros []. congruence. }
    destruct (Z.leb_spec (bridge_id s) (designated_root (info (port s k)))).
    { apply best_skip; [done|]. intros []. lia. }
    apply best_take; [done|]. split; auto; lia.
Qed.

Lemma select_root_spec s : best s (length (ports s)) (select_root (length (ports s)) 0 s None).
Proof. apply select_root_best; [done|]. simpl. intros; lia. Qed.

(** ** The invariant of a bridge *)

Definition waiting (st : stp_state) : bool :=
  match st with STP_LISTENING | STP_LEARNING => true | _ => false end.

(** What holds of every port, enabled or not. *)
Record port_inv (first i : nat) (p : stp_port) : Prop := {
  pi_id : Z.land (port_id p) 0xff = Z.of_nat i + 1;
  pi_u16 : in_u16 (port_id p);
  pi_cost : in_u16 (path_cost p);
  pi_set : pstate p <> STP_UNSET;
  pi_wait : active (forward_delay_timer p) = waiting (pstate p);
  pi_changed : state_changed p = true -> (first <= i)%nat
}.

Record ports_inv (s : stp) : Prop := {
  psi_len : length (ports s) = STP_MAX_PORTS;
  psi_first : (first_changed_port s <= STP_MAX_PORTS)%nat;
  psi_port : forall i, (i < STP_MAX_PORTS)%nat -> port_inv (first_changed_port s) i (port s i)
}.

(** The root port leads to a bridge better than this one. *)
Definition root_inv (s : stp) : Prop :=
  match root_port s with
  | None => stp_root s = bridge_id s /\ root_path_cost s = 0
  | Some r => (r < STP_MAX_PORTS)%nat /\ enabled (port s r) = true /\ stp_root s < bridge_id s
  end.

(** All enabled ports agree with the bridge on the root. *)
Definition agree_inv (s : stp) : Prop :=
  forall i, (i < STP_MAX_PORTS)%nat -> enabled (port s i) = true ->
    designated_root (info (port s i)) = stp_root s.

Record stp_inv (s : stp) : Prop := {
  si_ports : ports_inv s;
  si_root : root_inv s;
  si_agree : agree_inv s
}.

(** Each enabled port is blocking unless it is the root port or designated. *)
Definition passing (st : stp_state) : bool :=
  match st with STP_LISTENING | STP_LEARNING | STP_FORWARDING => true | _ => false end.
Definition in_tree (s : stp) (i : nat) : bool :=
  bool_decide (root_port s = Some i) || stp_is_designated_port s (port s i).
Definition roles_inv (s : stp) : Prop :=
  forall i, (i < STP_MAX_PORTS)%nat -> enabled (port s i) = true ->
    passing (pstate (port s i)) = in_tree s i.

(** The invariants only depend on the core. *)
Lemma pcore_eq p q : pcore p = pcore q ->
  port_id p = port_id q /\ path_cost p = path_cost q /\ info p = info q /\ pstate p = pstate q /\
  forward_delay_timer p = forward_delay_timer q /\ state_changed p = state_changed q.
Proof. by intros [=]. Qed.

Ltac use_core H i :=
  let E := fresh "E" in
  pose proof (pcore_eq _ _ (sc_port _ _ H i)) as E; destruct E as (? & ? & ? & ? & ? & ?).

Lemma same_core_enabled s s' i : same_core s s' -> enabled (port s' i) = enabled (port s i).
Proof. intros H. unfold enabled. by destruct (pcore_eq _ _ (sc_port _ _ H i)) as (_ & _ & _ & -> & _). Qed.
Lemma same_core_designated s s' i : same_core s s' ->
  stp_is_designated_port s' (port s' i) = stp_is_designated_port s (port s i).
Proof.
  intros H. unfold stp_is_designated_port. rewrite (sc_id _ _ H).
  by destruct (pcore_eq _ _ (sc_port _ _ H i)) as (-> & _ & -> & _).
Qed.
Lemma same_core_is_root s s' : same_core s s' -> stp_is_root_bridge s' = stp_is_root_bridge s.
Proof. intros []. unfold stp_is_root_bridge. f_equal; congruence. Qed.

Lemma ports_inv_core s s' : same_core s s' -> ports_inv s -> ports_inv s'.
Proof.
  intros H [Hl Hf Hp]. split; rewrite ?(sc_len _ _ H), ?(sc_first _ _ H); auto.
  intros i Hi. use_core H i. destruct (Hp i Hi) as [? ? ? ? ? Hc]. split; try congruence.
  intros ?. apply Hc. congruence.
Qed.
Lemma root_inv_core s s' : same_core s s' -> root_inv s -> root_inv s'.
Proof.
  intros H Hr. unfold root_inv in *.
  rewrite (sc_rport _ _ H), (sc_root _ _ H), (sc_cost _ _ H), (sc_id _ _ H).
  case_match; [|done]. by rewrite (same_core_enabled _ _ _ H).
Qed.
Lemma agree_inv_core s s' : same_core s s' -> agree_inv s -> agree_inv s'.
Proof.
  intros H Ha i Hi. rewrite (same_core_enabled _ _ _ H), (sc_root _ _ H). intros He.
  use_core H i. rewrite <- (Ha i); congruence.
Qed.
Lemma roles_inv_core s s' : same_core s s' -> roles_inv s -> roles_inv s'.
Proof.
  intros H Ha i Hi. rewrite (same_core_enabled _ _ _ H). intros He.
  specialize (Ha i Hi He). unfold in_tree in *.
  rewrite (same_core_designated _ _ _ H), (sc_rport _ _ H), <- Ha.
  by destruct (pcore_eq _ _ (sc_port _ _ H i)) as (_ & _ & _ & -> & _).
Qed.
Lemma stp_inv_core s s' : same_core s s' -> stp_inv s -> stp_inv s'.
Proof. intros H []. split; eauto using ports_inv_core, root_inv_core, agree_inv_core. Qed.

(** *** Configuration updates *)

(** A store that keeps the number, cost, state and delay timer of a port. *)
Lemma ports_inv_upd i f s :
  (forall p first, port_inv first i p -> port_inv first i (f p)) ->
  ports_inv s -> ports_inv (upd_port i f s).
Proof.
  intros Hf [Hl Hfirst Hp]. split; [by rewrite length_upd_port|done|]. intros j Hj.
  apply (port_upd_prop (port_inv _ j)); [by apply Hp|]. intros H <-. by apply Hf.
Qed.

Lemma port_inv_info first i p q : port_inv first i p -> port_inv first i (set_info q p).
Proof. by intros []. Qed.

Lemma become_designated_ports i s : ports_inv s -> ports_inv (stp_become_designated_port i s).
Proof. apply ports_inv_upd. intros p first. apply port_inv_info. Qed.

(** [s'] has the same ports as [s] except for what they know of the segment. *)
Record same_ports (s s' : stp) : Prop := {
  sp_id : bridge_id s' = bridge_id s;
  sp_root : stp_root s' = stp_root s;
  sp_cost : root_path_cost s' = root_path_cost s;
  sp_rport : root_port s' = root_port s;
  sp_len : length (ports s') = length (ports s);
  sp_first : first_changed_port s' = first_changed_port s;
  sp_hello : hello_timer s' = hello_timer s;
  sp_port : forall i, set_info (info (port s i)) (port s' i) = port s i
}.
#[global] Instance same_ports_preorder : PreOrder same_ports.
Proof.
  split.
  - intros s. split; try done. intros i. by destruct (port s i).
  - intros a b c [????? ?? Hb] [????? ?? Hc]. split; try congruence.
    intros i. rewrite <- (Hb i) at 2. rewrite <- (Hc i). by destruct (port c i).
Qed.
Lemma same_ports_upd i q s : same_ports s (upd_port i (fun p => set_info (q p) p) s).
Proof.
  split; try done; [apply length_upd_port|]. intros j.
  apply (port_upd_prop (fun p => set_info (info (port s j)) p = port s j)); by destruct (port s j).
Qed.
Lemma same_ports_enabled s s' i : same_ports s s' -> enabled (port s' i) = enabled (port s i).
Proof. intros H. rewrite <- (sp_port _ _ H i). by destruct (port s' i). Qed.

Lemma designated_selection_ports s : same_ports s (stp_designated_port_selection s).
Proof.
  apply (for_each_enabled_inv (same_ports s)); [done|]. intros k s' _ _ H.
  cbv beta zeta. case_match; [|done]. etrans; [done|]. apply same_ports_upd.
Qed.

Lemma designated_selection_agree s : length (ports s) = STP_MAX_PORTS ->
  agree_inv (stp_designated_port_selection s).
Proof.
  intros Hlen.
  assert (same_ports s (stp_designated_port_selection s) /\
    forall j, (j < length (ports s))%nat -> enabled (port (stp_designated_port_selection s) j) = true ->
      designated_root (info (port (stp_designated_port_selection s) j)) = stp_root s) as [Hs H].
  2:{ intros i Hi He. rewrite (sp_root _ _ Hs). apply H; [by rewrite Hlen|done]. }
  unfold stp_designated_port_selection.
  match goal with |- context [for_each_enabled ?b s] =>
    apply (for_each_enabled_ind (fun k s' => same_ports s s' /\
      forall j, (j < k)%nat -> enabled (port s' j) = true ->
      designated_root (info (port s' j)) = stp_root s) b) end.
  { split; [done|]. intros; lia. }
  intros k s' Hk [Hs Hj]. destruct (enabled (port s' k)) eqn:En.
  2:{ split; [done|]. intros j Hlt. destruct (decide (j = k)) as [->|]; [congruence|]. apply Hj. lia. }
  match goal with |- context [if ?b then stp_become_designated_port k s' else s'] => destruct b eqn:Eb end.
  - split; [etrans; [done|apply same_ports_upd]|]. intros j Hlt.
    destruct (decide (j = k)) as [->|].
    + unfold stp_become_designated_port. rewrite port_upd_eq by (rewrite (sp_len _ _ Hs); lia).
      intros _. simpl. apply (sp_root _ _ Hs).
    + unfold stp_become_designated_port. rewrite port_upd_ne by done. apply Hj. lia.
  - split; [done|]. intros j Hlt. destruct (decide (j = k)) as [->|]; [|apply Hj; lia].
    intros _. rewrite !orb_false_iff, negb_false_iff, Z.eqb_eq in Eb.
    rewrite <- (sp_root _ _ Hs). tauto.
Qed.

Lemma ports_inv_same s s' : same_ports s s' -> ports_inv s -> ports_inv s'.
Proof.
  intros H [Hl Hf Hp]. split; rewrite ?(sp_len _ _ H), ?(sp_first _ _ H); auto.
  intros i Hi. specialize (Hp i Hi). rewrite <- (sp_port _ _ H i) in Hp. by destruct Hp; split.
Qed.

Lemma root_selection_ports s : ports_inv s -> ports_inv (stp_root_selection s).
Proof. intros [? ? ?]. unfold stp_root_selection. case_match; by split. Qed.

Lemma root_selection_root s : length (ports s) = STP_MAX_PORTS -> root_inv (stp_root_selection s).
Proof.
  intros Hl. unfold stp_root_selection. pose proof (select_root_spec s) as H.
  destruct (select_root _ _ _ _) as [r|]; simpl in *; [|done].
  destruct H as (Hr & [] & _). split_and!; [by rewrite <- Hl|done|done].
Qed.

(** From sound ports, a configuration update makes a sound bridge. *)
Lemma configuration_update_inv s : ports_inv s -> stp_inv (stp_configuration_update s).
Proof.
  intros Hp. pose proof (root_selection_ports _ Hp) as Hp'.
  pose proof (designated_selection_ports (stp_root_selection s)) as Hs.
  split.
  - by eapply ports_inv_same.
  - pose proof (root_selection_root s (psi_len _ Hp)) as Hr. unfold stp_configuration_update, root_inv in *.
    rewrite (sp_rport _ _ Hs), (sp_root _ _ Hs), (sp_cost _ _ Hs), (sp_id _ _ Hs).
    case_match; [|done]. by rewrite (same_ports_enabled _ _ _ Hs).
  - apply designated_selection_agree, (psi_len _ Hp').
Qed.

(** *** Port states *)

Definition marks (st : stp_state) (p : stp_port) : bool :=
  state_changed p || negb (bool_decide (st = pstate p)).

Lemma set_port_state_port i st s j : (i < length (ports s))%nat ->
  port (stp_set_port_state i st s) j =
    if decide (i = j) then set_pstate st (marks st (port s i)) (port s i) else port s j.
Proof.
  intros Hi. unfold stp_set_port_state. set (changed := negb _ && negb _).
  transitivity (port (upd_port i (if changed then set_pstate st true
                                  else fun p => set_pstate st (state_changed p) p) s) j).
  { destruct changed; [|done]. by destruct (_ <? _)%nat. }
  destruct (decide (i = j)) as [<-|]; [|by rewrite port_upd_ne].
  rewrite port_upd_eq by done. subst changed. unfold marks.
  destruct (negb (bool_decide _)), (state_changed (port s i)) eqn:E; simpl; by rewrite ?E.
Qed.

Lemma set_port_state_eq i st s : exists l first,
  stp_set_port_state i st s = set_ports l first s /\ length l = length (ports s) /\
  (first <= first_changed_port s)%nat /\
  (marks st (port s i) = true -> (first <= i)%nat \/ first = first_changed_port s /\ state_changed (port s i) = true).
Proof.
  unfold stp_set_port_state, marks.
  destruct (negb _) eqn:E; destruct (state_changed _) eqn:Ec; simpl.
  2: destruct (Nat.ltb_spec i (first_changed_port s)); simpl.
  all: do 2 eexists; (split; [reflexivity|]); rewrite length_alter; split_and!; try done; try lia.
  all: intros; first [left; lia | right; done].
Qed.

Lemma port_inv_mono first first' i p : (first' <= first)%nat -> port_inv first i p -> port_inv first' i p.
Proof. intros Hle [? ? ? ? ? Hc]. split; try done. intros Hs. specialize (Hc Hs). lia. Qed.

(** [ports_inv] except for the delay timer of port [i]. *)
Record ports_but (i : nat) (s : stp) : Prop := {
  pb_len : length (ports s) = STP_MAX_PORTS;
  pb_first : (first_changed_port s <= STP_MAX_PORTS)%nat;
  pb_others : forall j, (j < STP_MAX_PORTS)%nat -> j <> i -> port_inv (first_changed_port s) j (port s j);
  pb_port : exists t, port_inv (first_changed_port s) i
    (set_ptimers (message_age_timer (port s i)) t (hold_timer (port s i)) (port s i))
}.

Lemma ports_inv_but i s : (i < STP_MAX_PORTS)%nat -> ports_inv s -> ports_but i s.
Proof.
  intros Hi [Hl Hf Hp]. split; auto. exists (forward_delay_timer (port s i)).
  destruct (Hp i Hi). by split.
Qed.

Lemma ports_but_inv i s : ports_but i s ->
  active (forward_delay_timer (port s i)) = waiting (pstate (port s i)) -> ports_inv s.
Proof.
  intros [Hl Hf Ho (t & [])] Hw. split; [done..|]. intros j Hj.
  destruct (decide (j = i)) as [->|]; [by split|auto].
Qed.

(** A store to the delay timer of [i]. *)
Lemma ports_but_timer i t s : ports_but i s ->
  ports_but i (upd_port i (fun p => set_ptimers (message_age_timer p) t (hold_timer p) p) s).
Proof.
  intros [Hl Hf Ho (t' & Hi)]. split; [by rewrite length_upd_port|done| |].
  - intros j Hj Hne. rewrite port_upd_ne by done. by apply Ho.
  - exists t'. simpl. apply (port_upd_prop (fun p => port_inv (first_changed_port s) i
      (set_ptimers (message_age_timer p) t' (hold_timer p) p))); [done|].
    intros _ _. destruct Hi. by split.
Qed.

(** A change of state followed by the store [f] to the port, which leaves its
    delay timer in the position the new state asks for. *)
Lemma set_port_state_inv i st f s :
  ports_but i s -> (i < STP_MAX_PORTS)%nat -> st <> STP_UNSET ->
  (forall p, port_id (f p) = port_id p /\ path_cost (f p) = path_cost p /\ pstate (f p) = pstate p /\
     state_changed (f p) = state_changed p) ->
  (forall p, forward_delay_timer p = forward_delay_timer (port s i) ->
     active (forward_delay_timer (f p)) = waiting st) ->
  ports_inv (upd_port i f (stp_set_port_state i st s)).
Proof.
  intros [Hl Hf Hp (t & Hpi)] Hi Hst Hk Ht. assert (i < length (ports s))%nat as Hi' by by rewrite Hl.
  pose proof (fun j => set_port_state_port i st s j Hi') as Hport.
  destruct (set_port_state_eq i st s) as (l & first & Heq & Hlen & Hle & Hmark).
  split.
  - rewrite length_upd_port, Heq. simpl. congruence.
  - rewrite Heq. simpl. lia.
  - intros j Hj. replace (first_changed_port (upd_port _ _ _)) with first by by rewrite Heq.
    destruct (decide (i = j)) as [<-|Hij].
    2:{ rewrite port_upd_ne by done. rewrite Hport, decide_False by done.
        eapply port_inv_mono; eauto. }
    rewrite port_upd_eq by by rewrite Heq; simpl; rewrite Hlen.
    rewrite Hport, decide_True by done. destruct Hpi as [? ? ? ? ? Hc]. simpl in *.
    match goal with |- port_inv _ _ (f ?p) => destruct (Hk p) as (E1 & E2 & E3 & E4) end.
    split; rewrite ?E1, ?E2, ?E3, ?E4; simpl; try done; [by rewrite Ht|].
    intros Hm. destruct (Hmark Hm) as [|[-> ?]]; auto.
Qed.

(** What the election depends on. *)
Definition pinfo (p : stp_port) : Z * Z * stp_info := (port_id p, path_cost p, info p).
Record same_info (s s' : stp) : Prop := {
  ss_id : bridge_id s' = bridge_id s;
  ss_root : stp_root s' = stp_root s;
  ss_cost : root_path_cost s' = root_path_cost s;
  ss_rport : root_port s' = root_port s;
  ss_len : length (ports s') = length (ports s);
  ss_port : forall i, pinfo (port s' i) = pinfo (port s i)
}.
#[global] Instance same_info_preorder : PreOrder same_info.
Proof. split; [by constructor|]. intros a b c [] []. constructor; intros; etrans; eauto. Qed.

Lemma same_core_info s s' : same_core s s' -> same_info s s'.
Proof.
  intros H. split; [apply H..|]. intros i. unfold pinfo.
  by destruct (pcore_eq _ _ (sc_port _ _ H i)) as (-> & -> & -> & _).
Qed.
Lemma same_info_upd i f s : (forall p, pinfo (f p) = pinfo p) -> same_info s (upd_port i f s).
Proof. intros Hf. split; try done; [apply length_upd_port|]. intros j. by apply port_upd_view. Qed.
Lemma set_port_state_info i st s : (i < length (ports s))%nat -> same_info s (stp_set_port_state i st s).
Proof.
  intros Hi. destruct (set_port_state_eq i st s) as (l & first & Heq & Hlen & _ & _).
  split; try by rewrite Heq. intros j. rewrite set_port_state_port by done. by case_decide; subst.
Qed.
Lemma same_info_designated s s' i : same_info s s' ->
  stp_is_designated_port s' (port s' i) = stp_is_designated_port s (port s i).
Proof.
  intros H. unfold stp_is_designated_port. rewrite (ss_id _ _ H).
  pose proof (ss_port _ _ H i) as [= -> _ ->]. done.
Qed.
Lemma same_info_in_tree s s' i : same_info s s' -> in_tree s' i = in_tree s i.
Proof. intros H. unfold in_tree. by rewrite (same_info_designated _ _ _ H), (ss_rport _ _ H). Qed.

(** Port [k] may change its state; every other port keeps it. *)
Record state_step (k : nat) (s s' : stp) : Prop := {
  st_info : same_info s s';
  st_ports : ports_inv s';
  st_others : forall j, j <> k -> pstate (port s' j) = pstate (port s j)
}.

(** The state that [stp_port_state_selection] gives to a port. *)
Definition next_state (tree : bool) (st : stp_state) : stp_state :=
  match st with
  | STP_DISABLED => STP_DISABLED
  | STP_BLOCKING => if tree then STP_LISTENING else STP_BLOCKING
  | st => if tree then st else STP_BLOCKING
  end.

Lemma make_forwarding_step i s : ports_inv s -> (i < STP_MAX_PORTS)%nat ->
  state_step i s (stp_make_forwarding i s) /\
  pstate (port (stp_make_forwarding i s) i) =
    next_state true (pstate (port s i)).
Proof.
  intros Hp Hi. assert (i < length (ports s))%nat as Hi' by by rewrite (psi_len _ Hp).
  unfold stp_make_forwarding. destruct (pstate (port s i)) eqn:E; try (split; [by split|by rewrite E]).
  pose proof (ss_len _ _ (set_port_state_info i STP_LISTENING s Hi')) as Hlen.
  split; [split|].
  - etrans; [by apply set_port_state_info|]. by apply same_info_upd.
  - by apply set_port_state_inv; [apply ports_inv_but|..].
  - intros j Hj. rewrite port_upd_ne by done. by rewrite set_port_state_port, decide_False.
  - rewrite port_upd_eq by lia. by rewrite set_port_state_port, decide_True.
Qed.

Lemma make_blocking_step i s : ports_inv s -> (i < STP_MAX_PORTS)%nat ->
  state_step i s (stp_make_blocking i s) /\
  pstate (port (stp_make_blocking i s) i) =
    next_state false (pstate (port s i)).
Proof.
  intros Hp Hi. unfold stp_make_blocking.
  assert (forall t u, same_core s t -> u = upd_port i (fun p => set_ptimers (message_age_timer p)
      (stp_stop_timer (forward_delay_timer p)) (hold_timer p) p) (stp_set_port_state i STP_BLOCKING t) ->
    state_step i s u /\ pstate (port u i) = STP_BLOCKING) as Hgoal.
  { intros t u Hc ->. assert (ports_inv t) as Ht by by eapply ports_inv_core.
    assert (i < length (ports t))%nat as Hi' by by rewrite (psi_len _ Ht).
    pose proof (ss_len _ _ (set_port_state_info i STP_BLOCKING t Hi')) as Hlen.
    split; [split|].
    - etrans; [by apply same_core_info|]. etrans; [by apply set_port_state_info|]. by apply same_info_upd.
    - by apply set_port_state_inv; [apply ports_inv_but|..].
    - intros j Hj. rewrite port_upd_ne by done. rewrite set_port_state_port, decide_False by done.
      by destruct (pcore_eq _ _ (sc_port _ _ Hc j)) as (_ & _ & _ & -> & _).
    - rewrite port_upd_eq by lia. by rewrite set_port_state_port, decide_True. }
  destruct (pstate (port s i)) eqn:E; try (split; [by split|by rewrite E]);
    (eapply Hgoal; [|reflexivity]); try done;
    (destruct (change_detection_enabled _); [apply topology_change_detection_core|done]).
Qed.

Lemma select_state_step i s : ports_inv s -> (i < STP_MAX_PORTS)%nat ->
  state_step i s (select_state i s) /\
  pstate (port (select_state i s) i) = next_state (in_tree s i) (pstate (port s i)).
Proof.
  intros Hp Hi. unfold select_state, in_tree.
  assert (forall t t', same_core s t ->
    state_step i t t' /\ pstate (port t' i) = next_state (in_tree s i) (pstate (port t i)) ->
    state_step i s t' /\ pstate (port t' i) = next_state (in_tree s i) (pstate (port s i))) as Hvia.
  { intros t t' Hc [[Hs Hp' Ho] Hst]. split; [split|].
    - etrans; [by apply same_core_info|done].
    - done.
    - intros j Hj. rewrite Ho by done. by destruct (pcore_eq _ _ (sc_port _ _ Hc j)) as (_ & _ & _ & -> & _).
    - rewrite Hst. by destruct (pcore_eq _ _ (sc_port _ _ Hc i)) as (_ & _ & _ & -> & _). }
  assert (forall f, (forall p, pcore (f p) = pcore p) -> ports_inv (upd_port i f s)) as Hupd.
  { intros f Hf. eapply ports_inv_core; [by apply same_core_upd|done]. }
  unfold in_tree in Hvia.
  destruct (bool_decide (root_port s = Some i)), (stp_is_designated_port s (port s i)); simpl in *;
    (eapply Hvia; [|first [apply make_forwarding_step; [by apply Hupd|done]
                          |apply make_blocking_step; [by apply Hupd|done]]]);
    by apply same_core_upd.
Qed.

(** The whole selection, port by port. *)
Lemma port_state_selection_spec s : ports_inv s ->
  let s' := stp_port_state_selection s in
  same_info s s' /\ ports_inv s' /\
  forall i, (i < STP_MAX_PORTS)%nat ->
    pstate (port s' i) = next_state (in_tree s i) (pstate (port s i)).
Proof.
  intros Hp. cbv zeta. pose proof (psi_len _ Hp) as Hl.
  set (done k t := same_info s t /\ ports_inv t /\ forall j, pstate (port t j) =
    if (j <? k)%nat then next_state (in_tree s j) (pstate (port s j)) else pstate (port s j)).
  assert (done (length (ports s)) (stp_port_state_selection s)) as (H1 & H2 & H3).
  { apply (for_each_enabled_ind done); [by split_and!|].
    intros k t Hk (Ht1 & Ht2 & Ht3). pose proof (Ht3 k) as Htk. rewrite Nat.ltb_irrefl in Htk.
    assert (forall j, j <> k -> (j <? S k)%nat = (j <? k)%nat) as Hlt.
    { intros j Hj. destruct (Nat.ltb_spec j (S k)), (Nat.ltb_spec j k); lia. }
    assert (forall u, state_step k t u -> pstate (port u k) = next_state (in_tree t k) (pstate (port t k)) ->
      done (S k) u) as Hstep.
    { intros u [Hi Hp' Ho] Hst. split_and!; [by etrans|done|]. intros j.
      destruct (decide (j = k)) as [->|Hne].
      - rewrite (proj2 (Nat.ltb_lt k (S k))) by lia.
        by rewrite Hst, Htk, (same_info_in_tree _ _ _ Ht1).
      - by rewrite Ho, Ht3, Hlt. }
    destruct (enabled (port t k)) eqn:E.
    - apply Hstep; apply select_state_step; (done || lia).
    - apply Hstep; [by split|]. unfold enabled in E. by destruct (pstate (port t k)). }
  split_and!; [done..|]. intros i Hi. rewrite H3. by rewrite (proj2 (Nat.ltb_lt _ _)) by lia.
Qed.
