(* ===== verification/StpInv.v ===== *)
(** * The invariant of a bridge under every operation of the spanning tree protocol

    The events a client can cause, what each of them keeps, and the states
    reachable through them. *)

From Stdlib Require Import ZArith Lia List.
From stdpp Require Import base list option.
From S2P Require Import Prelude Bytes Stp StpFacts.
#[local] Open Scope Z_scope.
#[local] Open Scope res_scope.

(** ** Events *)

(** A port is named by its number, as a client obtains it from [stp_get_port]. *)
Inductive stp_event :=
  | Tick (ms : Z)
  | Receive (n : Z) (bpdu : list Z)
  | SetBridgeId (id : Z)
  | SetBridgePriority (prio : Z)
  | SetHelloTime (ms : Z)
  | SetMaxAge (ms : Z)
  | SetForwardDelay (ms : Z)
  | Enable (n : Z)
  | Disable (n : Z)
  | SetPriority (n prio : Z)
  | SetPathCost (n cost : Z)
  | SetSpeed (n speed : Z)
  | SetChangeDetection (n : Z) (on : bool)
  | SetAux (n : Z) (a : option Z)
  | GetChangedPort
  | CheckFlush
  | ForceTcn.

(** Arguments are converted to the types of the parameters. *)
Definition stp_run (e : stp_event) (s : stp) : Res stp :=
  match e with
  | Tick ms => Ok (stp_tick (s32 ms) s)
  | Receive n bpdu => let* i := stp_get_port s n in Ok (stp_received_bpdu i bpdu s)
  | SetBridgeId id => Ok (stp_set_bridge_id (u64 id) s)
  | SetBridgePriority prio => Ok (stp_set_bridge_priority (u16 prio) s)
  | SetHelloTime ms => Ok (stp_set_hello_time (s32 ms) s)
  | SetMaxAge ms => Ok (stp_set_max_age (s32 ms) s)
  | SetForwardDelay ms => Ok (stp_set_forward_delay (s32 ms) s)
  | Enable n => let* i := stp_get_port s n in stp_port_enable i s
  | Disable n => let* i := stp_get_port s n in Ok (stp_port_disable i s)
  | SetPriority n prio => let* i := stp_get_port s n in Ok (stp_port_set_priority i (u8 prio) s)
  | SetPathCost n cost => let* i := stp_get_port s n in Ok (stp_port_set_path_cost i (u16 cost) s)
  | SetSpeed n speed => let* i := stp_get_port s n in Ok (stp_port_set_speed i (u32 speed) s)
  | SetChangeDetection n on =>
      let* i := stp_get_port s n in
      Ok (if on then stp_port_enable_change_detection i s else stp_port_disable_change_detection i s)
  | SetAux n a => let* i := stp_get_port s n in Ok (stp_port_set_aux i a s)
  | GetChangedPort => Ok (snd (stp_get_changed_port s))
  | CheckFlush => Ok (snd (stp_check_and_reset_fdb_flush s))
  | ForceTcn => Ok (stp_topology_change_detection s)
  end.

Fixpoint stp_run_all (es : list stp_event) (s : stp) : Res stp :=
  match es with
  | [] => Ok s
  | e :: es => let* s := stp_run e s in stp_run_all es s
  end.

(** The states of a bridge created with identifier [id], by events that [ok]
    admits. *)
Inductive stp_reachable (ok : stp_event -> stp -> bool) (id : Z) : stp -> Prop :=
  | reach_create s : stp_create id = Ok s -> stp_reachable ok id s
  | reach_event e s s' :
      stp_reachable ok id s -> ok e s = true -> stp_run e s = Ok s' -> stp_reachable ok id s'.

Definition any_event (e : stp_event) (s : stp) : bool := true.

(** The port numbers of an event exist. *)
Definition valid_event (e : stp_event) : bool :=
  match e with
  | Receive n _ | Enable n | Disable n | SetPriority n _ | SetPathCost n _ | SetSpeed n _
  | SetChangeDetection n _ | SetAux n _ => (0 <=? n) && (n <? Z.of_nat STP_MAX_PORTS)
  | _ => true
  end.

(** ** What an operation keeps *)

(** A port does not come closer to forwarding than listening. *)
Definition settled (st st' : stp_state) : Prop :=
  st' = st \/ st' = STP_DISABLED \/ st' = STP_BLOCKING \/ st' = STP_LISTENING.
Definition settles (s s' : stp) : Prop := forall j, settled (pstate (port s j)) (pstate (port s' j)).

#[global] Instance settles_preorder : PreOrder settles.
Proof.
  split; [by left|]. intros a b c H1 H2 j. destruct (H2 j) as [->|]; [apply H1|by right].
Qed.

Record step_ok (s s' : stp) : Prop := {
  ok_inv : stp_inv s';
  ok_roles : roles_inv s -> roles_inv s';
  ok_settles : settles s s'
}.

Lemma step_ok_refl s : stp_inv s -> step_ok s s.
Proof. intros. by split. Qed.
Lemma step_ok_trans s t u : step_ok s t -> step_ok t u -> step_ok s u.
Proof. intros [] []. split; [done|auto|by etrans]. Qed.

Lemma same_core_settles s s' : same_core s s' -> settles s s'.
Proof.
  intros H j. left. by destruct (pcore_eq _ _ (sc_port _ _ H j)) as (_ & _ & _ & -> & _).
Qed.
Lemma step_ok_core s s' : stp_inv s -> same_core s s' -> step_ok s s'.
Proof. intros Hi Hc. split; eauto using stp_inv_core, roles_inv_core, same_core_settles. Qed.
Lemma step_ok_core_r s t u : step_ok s t -> same_core t u -> step_ok s u.
Proof. intros H Hc. eapply step_ok_trans; [done|]. apply step_ok_core; [apply H|done]. Qed.

Lemma next_state_settled tree st : settled st (next_state tree st).
Proof. unfold settled. destruct tree, st; simpl; auto. Qed.
Lemma next_state_enabled tree p q : pstate q = next_state tree (pstate p) -> enabled q = enabled p.
Proof. intros H. unfold enabled. rewrite H. by destruct tree, (pstate p). Qed.
Lemma next_state_passing tree st : st <> STP_UNSET -> st <> STP_DISABLED -> passing (next_state tree st) = tree.
Proof. by destruct tree, st. Qed.

Lemma enabled_not_disabled p : enabled p = true -> pstate p <> STP_DISABLED.
Proof. unfold enabled. by destruct (pstate p). Qed.

(** State selection establishes the roles. *)
Lemma port_state_selection_ok s : stp_inv s ->
  stp_inv (stp_port_state_selection s) /\ roles_inv (stp_port_state_selection s) /\
  settles s (stp_port_state_selection s).
Proof.
  intros [Hp Hr Ha]. destruct (port_state_selection_spec s Hp) as (Hi & Hp' & Hst).
  set (s' := stp_port_state_selection s) in *.
  assert (forall i, (i < STP_MAX_PORTS)%nat -> enabled (port s' i) = enabled (port s i)) as Hen.
  { intros i Hlt. eapply next_state_enabled, Hst, Hlt. }
  split_and!; [split| |].
  - done.
  - unfold root_inv in *. rewrite (ss_rport _ _ Hi), (ss_root _ _ Hi), (ss_cost _ _ Hi), (ss_id _ _ Hi).
    case_match; [|done]. rewrite Hen by tauto. done.
  - intros i Hlt. rewrite Hen, (ss_root _ _ Hi) by done. intros He. rewrite <- (Ha i Hlt He).
    by pose proof (ss_port _ _ Hi i) as [= _ _ ->].
  - intros i Hlt. rewrite Hen by done. intros He. rewrite Hst by done.
    rewrite (same_info_in_tree _ _ _ Hi). apply next_state_passing; [by apply (psi_port _ Hp)|by apply enabled_not_disabled].
  - intros j. destruct (decide (j < STP_MAX_PORTS)%nat).
    + rewrite Hst by done. apply next_state_settled.
    + left. unfold port. rewrite !lookup_ge_None_2; try done.
      * rewrite (psi_len _ Hp). lia.
      * rewrite (psi_len _ Hp'). lia.
Qed.

Lemma same_ports_settles s s' : same_ports s s' -> settles s s'.
Proof. intros H j. left. rewrite <- (sp_port _ _ H j). by destruct (port s' j). Qed.

Lemma configuration_update_settles s : settles s (stp_configuration_update s).
Proof.
  etrans; [|apply same_ports_settles, designated_selection_ports].
  intros j. left. unfold stp_root_selection. by case_match.
Qed.

(** An update of the configuration followed by state selection, from any sound
    ports. *)
Lemma reselect_ok s t : ports_inv t -> settles s t ->
  step_ok s (stp_port_state_selection (stp_configuration_update t)).
Proof.
  intros Hp Hs. destruct (port_state_selection_ok _ (configuration_update_inv _ Hp)) as (? & ? & ?).
  split; [done|done|]. etrans; [done|]. etrans; [apply configuration_update_settles|done].
Qed.

Lemma upd_settles i f s : (forall p, settled (pstate p) (pstate (f p))) -> settles s (upd_port i f s).
Proof.
  intros Hf j. apply (port_upd_prop (fun p => settled (pstate (port s j)) (pstate p))); [by left|auto].
Qed.

(** ** BPDUs and timers *)

Lemma become_root_if (b : bool) s : same_core s (if b then stp_become_root_bridge s else s).
Proof. destruct b; [apply become_root_bridge_core|done]. Qed.

Lemma received_config_ok i c s : stp_inv s -> step_ok s (stp_received_config_bpdu i c s).
Proof.
  intros Hi. unfold stp_received_config_bpdu. cbv zeta.
  destruct (_ <=? _); [by apply step_ok_refl|]. destruct (enabled _); [|by apply step_ok_refl].
  destruct (stp_supersedes_port_info _ _ _).
  2:{ destruct (stp_is_designated_port _ _); [|by apply step_ok_refl].
      apply step_ok_core; [done|]. apply transmit_config_core. }
  set (t := stp_port_state_selection _).
  assert (step_ok s t) as Ht.
  { apply reselect_ok.
    - apply ports_inv_upd; [|apply Hi]. by intros p first [].
    - apply upd_settles. by left. }
  match goal with |- step_ok s (if bool_decide (root_port ?x = Some i) then _ else _) => set (u := x) end.
  assert (same_core t u) as Hu.
  { subst u. destruct (_ && _); [|done]. case_match; [|core].
    etrans; [|apply set_timers_core]. etrans; [|apply transmit_tcn_core]. core. }
  eapply step_ok_core_r; [exact Ht|]. etrans; [exact Hu|]. clearbody u. clear.
  destruct (bool_decide _); [|done].
  set (v := stp_config_bpdu_generation _).
  assert (same_core u v) as Hv.
  { etrans; [|apply config_bpdu_generation_core]. core. }
  etrans; [exact Hv|]. clearbody v. destruct (negb _); destruct (negb _); try done; core.
Qed.

Lemma received_tcn_core i s : same_core s (stp_received_tcn_bpdu i s).
Proof.
  unfold stp_received_tcn_bpdu, stp_acknowledge_topology_change. destruct (_ && _); [|done].
  etrans; [apply topology_change_detection_core|]. etrans; [|apply transmit_config_core]. core.
Qed.

Lemma received_bpdu_ok i b s : stp_inv s -> step_ok s (stp_received_bpdu i b s).
Proof.
  intros Hi. unfold stp_received_bpdu. destruct (negb _); [by apply step_ok_refl|].
  repeat (match goal with |- context [if ?c then _ else _] => destruct c end;
    try (apply step_ok_core; [done|apply same_core_upd; done])).
  - eapply step_ok_core_r; [by apply received_config_ok|]. core.
  - eapply step_ok_core_r; [|apply same_core_upd; done].
    apply step_ok_core; [done|apply received_tcn_core].
Qed.

Lemma message_age_expiry_ok i s : stp_inv s -> step_ok s (stp_message_age_timer_expiry i s).
Proof.
  intros Hi. unfold stp_message_age_timer_expiry.
  eapply step_ok_core_r; [|apply become_root_if]. apply reselect_ok.
  - apply become_designated_ports, Hi.
  - apply upd_settles. by left.
Qed.

Lemma tick_message_age_ok e i s : stp_inv s -> step_ok s (tick_message_age e i s).
Proof.
  intros Hi. unfold tick_message_age. destruct (stp_timer_expired _ _ _) as [b t].
  set (u := upd_port _ _ _). assert (step_ok s u) as Hu by (apply step_ok_core; [done|core]).
  destruct b; [|done]. eapply step_ok_trans; [done|]. apply message_age_expiry_ok, Hu.
Qed.

(** At most one step towards forwarding, and only on port [i]. *)
Definition promoted (st st' : stp_state) : Prop :=
  settled st st' \/ (st = STP_LISTENING /\ st' = STP_LEARNING) \/
  (st = STP_LEARNING /\ st' = STP_FORWARDING).

Record delay_ok (i : nat) (s s' : stp) : Prop := {
  do_inv : stp_inv s';
  do_roles : roles_inv s -> roles_inv s';
  do_port : promoted (pstate (port s i)) (pstate (port s' i));
  do_others : forall j, j <> i -> pstate (port s' j) = pstate (port s j)
}.

(** Sound ports with the same information and roles that match the states. *)
Lemma stp_inv_info s s' : stp_inv s -> same_info s s' -> ports_inv s' ->
  (forall j, enabled (port s' j) = enabled (port s j)) -> stp_inv s'.
Proof.
  intros [Hp Hr Ha] Hinfo Hp' Hen. split; [done| |].
  - unfold root_inv in *.
    rewrite (ss_rport _ _ Hinfo), (ss_root _ _ Hinfo), (ss_cost _ _ Hinfo), (ss_id _ _ Hinfo).
    case_match; [by rewrite Hen|done].
  - intros j Hj. rewrite Hen, (ss_root _ _ Hinfo). intros He. rewrite <- (Ha j Hj He).
    by pose proof (ss_port _ _ Hinfo j) as [= _ _ ->].
Qed.
Lemma roles_inv_info s s' : same_info s s' ->
  (forall j, enabled (port s' j) = enabled (port s j)) ->
  (forall j, passing (pstate (port s' j)) = passing (pstate (port s j))) -> roles_inv s -> roles_inv s'.
Proof.
  intros Hinfo Hen Hpa Hro j Hj. rewrite Hen, Hpa, (same_info_in_tree _ _ _ Hinfo). by apply Hro.
Qed.

(** Port [i] of [s] moves to the state [st] of [s'], its companions stay. *)
Lemma passing_move i st s s' :
  stp_inv s -> same_info s s' -> ports_inv s' ->
  passing (pstate (port s i)) = true -> passing st = true -> promoted (pstate (port s i)) st ->
  pstate (port s' i) = st -> (forall j, j <> i -> pstate (port s' j) = pstate (port s j)) ->
  delay_ok i s s'.
Proof.
  intros Hi Hinfo Hp' Hpass Hst Hpro Hsti Ho.
  assert (forall j, passing (pstate (port s' j)) = passing (pstate (port s j))) as Hpa.
  { intros j. destruct (decide (j = i)) as [->|]; [by rewrite Hsti, Hst, Hpass|by rewrite Ho]. }
  assert (forall j, enabled (port s' j) = enabled (port s j)) as Hen.
  { intros j. unfold enabled. destruct (decide (j = i)) as [->|]; [|by rewrite Ho].
    rewrite Hsti. destruct st, (pstate (port s i)); done. }
  split; [by eapply stp_inv_info|by apply roles_inv_info|by rewrite Hsti|done].
Qed.

Lemma delay_ok_core i s t u : delay_ok i s t -> same_core t u -> delay_ok i s u.
Proof.
  intros [Hi Hr Hp Ho] Hc.
  assert (forall j, pstate (port u j) = pstate (port t j)) as Hst.
  { intros j. by destruct (pcore_eq _ _ (sc_port _ _ Hc j)) as (_ & _ & _ & -> & _). }
  split; [by eapply stp_inv_core|intros; eapply roles_inv_core; eauto|by rewrite Hst|].
  intros j Hj. rewrite Hst. auto.
Qed.

Lemma timer_expired_active t e o b t' : stp_timer_expired t e o = (b, t') ->
  active t' = active t && negb b /\ (b = true -> active t = true).
Proof. unfold stp_timer_expired. destruct (active t) eqn:E; repeat case_match; intros [= <- <-]; auto. Qed.

(** The forward delay timer of an enabled port is advanced and, when it has
    expired, acted upon. *)
Lemma tick_delay_ok e i s : stp_inv s -> (i < STP_MAX_PORTS)%nat ->
  let '(b, t) := stp_timer_expired (forward_delay_timer (port s i)) e (forward_delay (times s)) in
  let u := upd_port i (fun p => set_ptimers (message_age_timer p) t (hold_timer p) p) s in
  delay_ok i s (if b then stp_forward_delay_timer_expiry i u else u).
Proof.
  intros Hi Hlt. destruct (stp_timer_expired _ _ _) as [b t] eqn:Et. cbv zeta.
  apply timer_expired_active in Et as [Ha Hb].
  pose proof (pi_wait _ _ _ (psi_port _ (si_ports _ Hi) i Hlt)) as Hw.
  pose proof (ports_but_timer i t s (ports_inv_but i s Hlt (si_ports _ Hi))) as Hbut.
  set (u := upd_port _ _ _) in *.
  assert (i < length (ports s))%nat as Hls by by rewrite (psi_len _ (si_ports _ Hi)).
  assert (i < length (ports u))%nat as Hlu by by rewrite (pb_len _ _ Hbut).
  assert (same_info s u) as Hsu by by apply same_info_upd.
  assert (forall j, pstate (port u j) = pstate (port s j)) as Hst by (intros; by apply port_upd_view).
  assert (forward_delay_timer (port u i) = t) as Htu by (unfold u; by rewrite port_upd_eq).
  destruct b.
  - rewrite Hb in Hw, Ha by done. unfold stp_forward_delay_timer_expiry. rewrite Hst.
    destruct (pstate (port s i)) eqn:E; try done.
    + apply (passing_move i STP_LEARNING); rewrite ?E; try done; [| |by right; left| |].
      * etrans; [exact Hsu|]. etrans; [by apply set_port_state_info|]. by apply same_info_upd.
      * by apply set_port_state_inv.
      * rewrite port_upd_eq by by rewrite (ss_len _ _ (set_port_state_info _ _ _ Hlu)).
        by rewrite set_port_state_port, decide_True.
      * intros j Hj. rewrite port_upd_ne by done. by rewrite set_port_state_port, decide_False.
    + set (v := stp_set_port_state i STP_FORWARDING u).
      assert (delay_ok i s v) as Hv.
      { apply (passing_move i STP_FORWARDING); rewrite ?E; try done; [| |by right; right| |].
        * etrans; [exact Hsu|]. by apply set_port_state_info.
        * unfold v. rewrite <- (upd_port_id i (stp_set_port_state _ _ _)).
          apply set_port_state_inv; try done. by intros p ->; rewrite Htu, Ha.
        * unfold v. by rewrite set_port_state_port, decide_True.
        * intros j Hj. unfold v. by rewrite set_port_state_port, decide_False. }
      match goal with |- delay_ok i s (if ?c then _ else _) => destruct c; [|done] end.
      eapply delay_ok_core; [exact Hv|]. apply topology_change_detection_core.
  - assert (ports_inv u) as Hpu.
    { apply (ports_but_inv i); [done|]. by rewrite Htu, Hst, Ha, Hw, andb_true_r. }
    split; [| |by left; left; rewrite Hst|done].
    + eapply stp_inv_info; try done. intros j. unfold enabled. by rewrite Hst.
    + apply roles_inv_info; try done; intros j; unfold enabled; by rewrite Hst.
Qed.

Lemma tick_delay_hold_ok e i s : stp_inv s -> (i < STP_MAX_PORTS)%nat ->
  delay_ok i s (tick_delay_hold e i s).
Proof.
  intros Hi Hlt. pose proof (tick_delay_ok e i s Hi Hlt) as H. unfold tick_delay_hold.
  destruct (stp_timer_expired (forward_delay_timer _) _ _) as [b t]. cbv zeta in *.
  set (u := if b then _ else _) in *. destruct (stp_timer_expired (hold_timer _) _ _) as [b' t'].
  eapply delay_ok_core; [exact H|]. clearbody u.
  set (v := upd_port _ _ _). assert (same_core u v) as Hv by core.
  destruct b'; [|done]. etrans; [exact Hv|]. unfold stp_hold_timer_expiry.
  destruct (config_pending _); [apply transmit_config_core|done].
Qed.

(** The second loop of [stp_tick]. *)
Record tick_ok (s s' : stp) : Prop := {
  to_inv : stp_inv s';
  to_roles : roles_inv s -> roles_inv s';
  to_port : forall j, promoted (pstate (port s j)) (pstate (port s' j))
}.

Lemma tick_delays_ok e s : stp_inv s -> tick_ok s (for_each_enabled (tick_delay_hold e) s).
Proof.
  intros Hi. pose proof (psi_len _ (si_ports _ Hi)) as Hl.
  set (done k t := stp_inv t /\ (roles_inv s -> roles_inv t) /\ forall j,
    (j < k)%nat /\ promoted (pstate (port s j)) (pstate (port t j)) \/
    (k <= j)%nat /\ pstate (port t j) = pstate (port s j)).
  assert (done (length (ports s)) (for_each_enabled (tick_delay_hold e) s)) as (H1 & H2 & H3).
  { apply (for_each_enabled_ind done).
    { split_and!; [done..|]. intros j. right. split; [lia|done]. }
    intros k t Hk (Ht1 & Ht2 & Ht3).
    assert (forall u, delay_ok k t u -> done (S k) u) as Hstep.
    { intros u [Hu1 Hu2 Hup Hu3]. split_and!; [done|auto|]. intros j.
      destruct (decide (j = k)) as [->|Hne].
      - left. split; [lia|]. destruct (Ht3 k) as [[]|[_ <-]]; [lia|done].
      - rewrite Hu3 by done. destruct (Ht3 j) as [[]|[]]; [left|right]; (split; [lia|done]). }
    case_match; apply Hstep; [apply tick_delay_hold_ok; [done|by rewrite <- Hl]|].
    split; [done..|by left; left|done]. }
  split; [done..|]. intros j. destruct (H3 j) as [[]|[_ ->]]; [done|by left; left].
Qed.

Lemma tick_ages_ok e s : stp_inv s -> step_ok s (for_each_enabled (tick_message_age e) s).
Proof.
  intros Hi. apply (for_each_enabled_inv (step_ok s)); [by apply step_ok_refl|].
  intros k t _ _ Ht. eapply step_ok_trans; [done|]. apply tick_message_age_ok, Ht.
Qed.

(** States that a tick can lead to: forwarding only from learning. *)
Definition ticked (st st' : stp_state) : Prop :=
  st' = STP_FORWARDING -> st = STP_LEARNING \/ st = STP_FORWARDING.

Lemma settled_promoted st t st' : settled st t -> promoted t st' -> ticked st st'.
Proof.
  unfold settled, promoted, settled, ticked. intros Hs Hp E.
  destruct Hp as [[?|[?|[?|?]]]|[[? ?]|[? ?]]]; subst; try done;
    destruct Hs as [?|[?|[?|?]]]; subst; try done; auto.
Qed.

Lemma stp_tick_ok ms s : stp_inv s ->
  let s' := stp_tick ms s in
  stp_inv s' /\ (roles_inv s -> roles_inv s') /\ forall j, ticked (pstate (port s j)) (pstate (port s' j)).
Proof.
  intros Hi. cbv zeta. unfold stp_tick. cbv zeta.
  set (s1 := set_times _ _ _ _ s). assert (step_ok s s1) as H1 by (apply step_ok_core; [done|core]).
  assert (forall t, step_ok s t -> stp_inv t /\ (roles_inv s -> roles_inv t) /\
    forall j, ticked (pstate (port s j)) (pstate (port t j))) as Hdone.
  { intros t [Ht1 Ht2 Ht3]. split_and!; [done..|]. intros j.
    eapply settled_promoted; [apply Ht3|by left; left]. }
  destruct (_ =? 0); [by apply Hdone|]. clearbody s1.
  destruct (stp_timer_expired (hello_timer s1) _ _) as [b2 t2].
  set (s2 := if b2 then _ else _).
  assert (step_ok s s2) as H2.
  { eapply step_ok_core_r; [exact H1|]. subst s2. destruct b2; [|core].
    unfold stp_hello_timer_expiry. etrans; [|apply set_timers_core].
    etrans; [|apply config_bpdu_generation_core]. core. }
  clearbody s2. destruct (stp_timer_expired (tcn_timer s2) _ _) as [b3 t3].
  set (s3 := if b3 then _ else _).
  assert (step_ok s s3) as H3.
  { eapply step_ok_core_r; [exact H2|]. subst s3. destruct b3; [|core].
    unfold stp_tcn_timer_expiry. etrans; [|apply set_timers_core].
    etrans; [|apply transmit_tcn_core]. core. }
  clearbody s3. destruct (stp_timer_expired (topology_change_timer s3) _ _) as [b4 t4].
  set (s4 := if b4 then _ else _).
  assert (step_ok s s4) as H4.
  { eapply step_ok_core_r; [exact H3|]. subst s4. destruct b4; core. }
  clearbody s4. clear H1 H2 H3.
  pose proof (step_ok_trans _ _ _ H4 (tick_ages_ok (ms_to_timer (s32 (clamp ms 0 (INT_MAX - 1000) +
    elapsed_remainder s))) _ (ok_inv _ _ H4))) as [H5 H6 H7].
  destruct (tick_delays_ok (ms_to_timer (s32 (clamp ms 0 (INT_MAX - 1000) + elapsed_remainder s)))
    _ H5) as [H8 H9 H10].
  split_and!; [done|auto|]. intros j. eapply settled_promoted; [apply H7|apply H10].
Qed.

(** ** Configuration by the client *)

Lemma set_bridge_id_ok id s : stp_inv s -> step_ok s (set_bridge_id id s).
Proof.
  intros Hi. unfold set_bridge_id. cbv zeta. destruct (negb _); [|by apply step_ok_refl].
  eapply step_ok_core_r; [|apply become_root_if].
  match goal with |- context [for_each_enabled ?b s] => set (t := for_each_enabled b s) end.
  assert (same_ports s t) as Ht.
  { apply (for_each_enabled_inv (same_ports s)); [done|]. intros k u _ _ Hu.
    case_match; [|done]. etrans; [done|]. apply same_ports_upd. }
  apply reselect_ok.
  - destruct (ports_inv_same _ _ Ht (si_ports _ Hi)). by split.
  - by apply same_ports_settles in Ht.
Qed.

Lemma update_bridge_timers_core s : same_core s (stp_update_bridge_timers s).
Proof. core. Qed.
Lemma with_rq_core rq s : same_core s (with_rq rq s).
Proof. unfold with_rq. etrans; [|apply update_bridge_timers_core]. core. Qed.

Lemma port_disable_ok i s : stp_inv s -> (i < STP_MAX_PORTS)%nat -> step_ok s (stp_port_disable i s).
Proof.
  intros Hi Hlt. unfold stp_port_disable. cbv zeta.
  destruct (enabled _); [|by apply step_ok_refl].
  eapply step_ok_core_r; [|apply same_core_upd; done].
  eapply step_ok_core_r; [|apply become_root_if].
  pose proof (become_designated_ports i s (si_ports _ Hi)) as Hp. set (t := stp_become_designated_port i s) in *.
  apply reselect_ok.
  - by apply set_port_state_inv; [apply ports_inv_but|..].
  - transitivity t; [apply upd_settles; by left|].
    transitivity (stp_set_port_state i STP_DISABLED t); [|apply upd_settles; by left].
    intros j. rewrite set_port_state_port by by rewrite (psi_len _ Hp).
    case_decide; [|by left]. subst. right; left. done.
Qed.

Lemma port_set_path_cost_ok i cost s : stp_inv s -> in_u16 cost -> step_ok s (stp_port_set_path_cost i cost s).
Proof.
  intros Hi Hc. unfold stp_port_set_path_cost. destruct (negb _); [|by apply step_ok_refl].
  apply reselect_ok; [|apply upd_settles; by left].
  destruct (si_ports _ Hi) as [Hl Hf Hp]. split; [by rewrite length_upd_port|done|]. intros j Hj.
  apply (port_upd_prop (port_inv _ j)); [by apply Hp|]. intros [] ->. by split.
Qed.

(** A change of port [i] alone. *)
Lemma stp_inv_one i s s' : stp_inv s -> ports_inv s' ->
  bridge_id s' = bridge_id s -> stp_root s' = stp_root s -> root_path_cost s' = root_path_cost s ->
  root_port s' = root_port s -> (forall j, j <> i -> port s' j = port s j) ->
  (enabled (port s' i) = true -> designated_root (info (port s' i)) = stp_root s) ->
  (enabled (port s i) = true -> enabled (port s' i) = true) -> stp_inv s'.
Proof.
  intros [Hp Hr Ha] Hp' Eid Eroot Ecost Erp Ho Hi Hen. split; [done| |].
  - unfold root_inv in *. rewrite Erp, Eid, Eroot, Ecost. case_match; [|done].
    destruct Hr as (? & ? & ?). split_and!; [done| |done].
    destruct (decide (n = i)) as [->|]; [auto|by rewrite Ho].
  - intros j Hj. rewrite Eroot. destruct (decide (j = i)) as [->|]; [auto|]. rewrite Ho by done. by apply Ha.
Qed.

Lemma set_port_state_others i st f s j : (i < length (ports s))%nat -> j <> i ->
  port (upd_port i f (stp_set_port_state i st s)) j = port s j.
Proof. intros Hi Hj. rewrite port_upd_ne by done. by rewrite set_port_state_port, decide_False. Qed.

Lemma port_enable_ok i s : stp_inv s -> (i < STP_MAX_PORTS)%nat ->
  exists s', stp_port_enable i s = Ok s' /\ step_ok s s'.
Proof.
  intros Hi Hlt. unfold stp_port_enable. destruct (enabled (port s i)) eqn:En; simpl.
  { eexists. split; [done|]. by apply step_ok_refl. }
  eexists. split; [done|].
  pose proof (become_designated_ports i s (si_ports _ Hi)) as Hp.
  set (t := stp_become_designated_port i s) in *.
  assert (i < length (ports t))%nat as Hlt' by by rewrite (psi_len _ Hp).
  pose proof (set_port_state_info i STP_BLOCKING t Hlt') as Hst.
  set (u := upd_port i _ _). assert (ports_inv u) as Hu.
  { by apply set_port_state_inv; [apply ports_inv_but|..]. }
  assert (forall j, j <> i -> port u j = port s j) as Ho.
  { intros j Hj. unfold u. rewrite set_port_state_others by done. by apply port_upd_ne. }
  assert (port u i = set_aux None (set_flags false false true (set_counts 0 0 0 (set_ptimers
    (stp_stop_timer (message_age_timer (port s i))) (stp_stop_timer (forward_delay_timer (port s i)))
    (stp_stop_timer (hold_timer (port s i)))
    (set_pstate STP_BLOCKING (marks STP_BLOCKING (port t i)) (port t i)))))) as Hpi.
  { unfold u. rewrite port_upd_eq by by rewrite (ss_len _ _ Hst).
    rewrite set_port_state_port, decide_True by done. unfold t, stp_become_designated_port.
    by rewrite port_upd_eq by by rewrite (psi_len _ (si_ports _ Hi)). }
  assert (stp_inv u) as Hui.
  { eapply (stp_inv_one i s); try done; try apply Hst; [|by rewrite Hpi].
    rewrite Hpi. simpl. unfold t, stp_become_designated_port.
    by rewrite port_upd_eq by by rewrite (psi_len _ (si_ports _ Hi)). }
  destruct (port_state_selection_ok u Hui) as (? & ? & Hs). split; [done..|].
  etrans; [|exact Hs]. intros j. destruct (decide (j = i)) as [->|]; [|left; by rewrite Ho].
  rewrite Hpi. by right; right; left.
Qed.

Lemma new_port_id_low p prio : Z.land (new_port_id p prio) 0xff = Z.land (port_id p) 0xff.
Proof.
  unfold new_port_id, u16. apply Z.bits_inj'. intros n Hn. change 0xff with (Z.ones 8).
  rewrite !Z.land_spec. destruct (Z.lt_ge_cases n 8).
  - rewrite Z.mod_pow2_bits_low by lia.
    rewrite Z.lor_spec, Z.land_spec, Z.shiftl_spec_low, orb_false_r by lia.
    rewrite Z.ones_spec_low by lia. by rewrite !andb_true_r.
  - rewrite Z.ones_spec_high by lia. by rewrite !andb_false_r.
Qed.

(** A change of priority may give a port the number recorded for its segment. *)
Definition role_safe (e : stp_event) (s : stp) : bool :=
  match e with
  | SetPriority n prio =>
      let p := port s (Z.to_nat n) in
      stp_is_designated_port s p || negb (designated_bridge (info p) =? bridge_id s)
      || negb (designated_port (info p) =? new_port_id p (u8 prio))
  | _ => true
  end.

(** The number and information of port [i] after a change of priority. *)
Definition prio_info (s : stp) (p : stp_port) (id : Z) : stp_info :=
  if stp_is_designated_port s p
  then Mk_info (designated_root (info p)) (designated_cost (info p)) (designated_bridge (info p)) id
  else info p.

Lemma set_ids_inv i id q s : stp_inv s -> (i < STP_MAX_PORTS)%nat ->
  Z.land id 0xff = Z.of_nat i + 1 -> in_u16 id -> designated_root q = designated_root (info (port s i)) ->
  stp_inv (upd_port i (set_ids id (path_cost (port s i)) q) s).
Proof.
  intros Hi Hlt Hid Hu Hq. pose proof (si_ports _ Hi) as [Hl Hf Hp].
  assert (port (upd_port i (set_ids id (path_cost (port s i)) q) s) i =
    set_ids id (path_cost (port s i)) q (port s i)) as Hpi by by rewrite port_upd_eq by by rewrite Hl.
  apply (stp_inv_one i s); try done; rewrite ?Hpi; try done.
  - split; [by rewrite length_upd_port|done|]. intros j Hj.
    apply (port_upd_prop (port_inv _ j)); [by apply Hp|]. intros [] ->. by split.
  - intros j Hj. by apply port_upd_ne.
  - simpl. rewrite Hq. by apply Hi.
Qed.

Lemma port_set_priority_ok n i prio s : stp_inv s -> (i < STP_MAX_PORTS)%nat -> i = Z.to_nat n ->
  let s' := stp_port_set_priority i (u8 prio) s in
  stp_inv s' /\ settles s s' /\ (role_safe (SetPriority n prio) s = true -> roles_inv s -> roles_inv s').
Proof.
  intros Hi Hlt Hn. cbv zeta. unfold stp_port_set_priority. cbv zeta.
  destruct (negb _); [|by split_and!].
  set (id := new_port_id _ _). fold (prio_info s (port s i) id).
  pose proof (si_ports _ Hi) as [Hl Hf Hp]. destruct (Hp i Hlt).
  set (u := upd_port i _ s). assert (stp_inv u) as Hu.
  { apply set_ids_inv; try done.
    - unfold id. by rewrite new_port_id_low.
    - apply u16_range.
    - unfold prio_info. by case_match. }
  assert (settles s u) as Hsu by (apply upd_settles; by left).
  match goal with |- context [if ?c then _ else u] => destruct c end.
  - set (t := stp_become_designated_port i u).
    assert (stp_inv t) as Ht.
    { assert (port t i = set_info (Mk_info (stp_root u) (s32 (root_path_cost u)) (bridge_id u)
          (port_id (port u i))) (port u i)) as Hpi.
      { unfold t, stp_become_designated_port.
        by rewrite port_upd_eq by by rewrite (psi_len _ (si_ports _ Hu)). }
      apply (stp_inv_one i u); try done; [apply become_designated_ports, Hu|..|by rewrite Hpi|by rewrite Hpi].
      intros j Hj. by apply port_upd_ne. }
    destruct (port_state_selection_ok t Ht) as (? & ? & ?). split_and!; [done| |done].
    etrans; [exact Hsu|]. etrans; [|done]. apply upd_settles; by left.
  - split_and!; [done..|]. intros Hsafe Hro j Hj.
    destruct (decide (j = i)) as [->|Hne].
    2:{ unfold in_tree. unfold u. rewrite port_upd_ne by done. apply (Hro j Hj). }
    assert (port u i = set_ids id (path_cost (port s i)) (prio_info s (port s i) id) (port s i)) as Hpi
      by (unfold u; by rewrite port_upd_eq by by rewrite Hl).
    rewrite Hpi. intros He. specialize (Hro i Hj He). unfold in_tree in *. rewrite Hpi. simpl pstate. rewrite Hro.
    f_equal. simpl in Hsafe. rewrite <- Hn in Hsafe. fold id in Hsafe.
    unfold stp_is_designated_port at 2. simpl. unfold prio_info.
    destruct (stp_is_designated_port s (port s i)) eqn:Ed; simpl in *.
    + unfold stp_is_designated_port in Ed. apply andb_true_iff in Ed as [-> _]. by rewrite Z.eqb_refl.
    + rewrite <- negb_andb, negb_true_iff in Hsafe. done.
Qed.

(** ** The queue of changed ports *)

Lemma find_changed_spec n i s :
  match find_changed n i s with
  | Some k => (i <= k < i + n)%nat /\ state_changed (port s k) = true /\
      forall j, (i <= j < k)%nat -> state_changed (port s j) = false
  | None => forall j, (i <= j < i + n)%nat -> state_changed (port s j) = false
  end.
Proof.
  revert i. induction n as [|n IH]; intros i; simpl; [intros; lia|].
  destruct (state_changed (port s i)) eqn:E.
  - split_and!; [lia..|done|]. intros; lia.
  - specialize (IH (S i)). destruct (find_changed n (S i) s).
    + destruct IH as (? & ? & IH). split_and!; [lia..|done|]. intros j Hj.
      destruct (decide (j = i)) as [->|]; [done|]. apply IH. lia.
    + intros j Hj. destruct (decide (j = i)) as [->|]; [done|]. apply IH. lia.
Qed.

(** Moving the first changed port past ports that have not changed. *)
Lemma port_inv_first first i p first' : port_inv first i p ->
  (state_changed p = true -> (first' <= i)%nat) -> port_inv first' i p.
Proof. intros [] H. by split. Qed.

Lemma get_changed_port_inv s : stp_inv s -> step_ok s (snd (stp_get_changed_port s)).
Proof.
  intros Hi. pose proof (si_ports _ Hi) as [Hl Hf Hp]. unfold stp_get_changed_port.
  pose proof (find_changed_spec (length (ports s) - first_changed_port s) (first_changed_port s) s) as H.
  assert (forall i, (i < first_changed_port s)%nat -> state_changed (port s i) = false) as Hlow.
  { intros i Hlt. destruct (state_changed _) eqn:E; [|done].
    apply (pi_changed _ _ _ (Hp i ltac:(lia))) in E. lia. }
  destruct (find_changed _ _ _) as [k|]; simpl.
  - destruct H as (Hk & Hc & Hno). set (t := upd_port k _ s). set (u := set_ports (ports t) (S k) t).
    assert (forall j, port u j = port t j) as Hut by done.
    assert (same_info s u) as Hinfo.
    { split; try done; [apply length_upd_port|]. intros i. rewrite Hut. by apply port_upd_view. }
    assert (forall j, pstate (port u j) = pstate (port s j)) as Hst.
    { intros j. rewrite Hut. by apply port_upd_view. }
    assert (ports_inv u) as Hpu.
    { split; [simpl; by rewrite length_alter|simpl; lia|]. intros i Hlt. rewrite Hut. simpl.
      destruct (decide (i = k)) as [->|Hne].
      - unfold t. rewrite port_upd_eq by lia. destruct (Hp k Hlt). by split.
      - unfold t. rewrite port_upd_ne by done. eapply port_inv_first; [by apply Hp|].
        intros Hch. destruct (decide (i < first_changed_port s)%nat); [by rewrite Hlow in Hch|].
        destruct (decide (i < k)%nat); [by rewrite Hno in Hch by lia|lia]. }
    split; [| |intros j; left; apply Hst].
    + eapply stp_inv_info; try done. intros j. unfold enabled. by rewrite Hst.
    + apply roles_inv_info; try done; intros j; unfold enabled; by rewrite Hst.
  - assert (forall j, (j < STP_MAX_PORTS)%nat -> state_changed (port s j) = false) as Hall.
    { intros j Hj. destruct (decide (j < first_changed_port s)%nat); [auto|apply H; lia]. }
    set (u := set_ports (ports s) (length (ports s)) s).
    assert (forall j, port u j = port s j) as Hu by done.
    assert (ports_inv u) as Hpu.
    { split; [done|simpl; lia|]. intros i Hlt. rewrite Hu. eapply port_inv_first; [by apply Hp|].
      by rewrite Hall. }
    split; [|done|by intros j; left].
    eapply stp_inv_info; done.
Qed.

(** ** Creation *)

Definition port_invb (first i : nat) (p : stp_port) : bool :=
  (Z.land (port_id p) 0xff =? Z.of_nat i + 1) && (0 <=? port_id p) && (port_id p <? 2 ^ 16)
  && (0 <=? path_cost p) && (path_cost p <? 2 ^ 16)
  && negb (active (forward_delay_timer p)) && negb (enabled p) && (first <=? i)%nat.

Lemma port_invb_ok first i p : port_invb first i p = true -> port_inv first i p /\ enabled p = false.
Proof.
  unfold port_invb, enabled. rewrite !andb_true_iff, !Z.leb_le, !Z.ltb_lt, !negb_true_iff, Nat.leb_le, Z.eqb_eq.
  intros (((((((? & ?) & ?) & ?) & ?) & Ha) & He) & Hc). split; [|done].
  split; unfold in_u16; try lia; [by destruct (pstate p)|]. rewrite Ha. by destruct (pstate p).
Qed.

(** A bridge that has just been created, whatever its identifier.  The change of
    every port from the state of zeroed memory to disabled is waiting to be
    asked for. *)
Lemma create_checks id s : stp_create id = Ok s ->
  forallb (fun i => port_invb 0 i (port s i) && state_changed (port s i)) (seq 0 STP_MAX_PORTS) = true /\
  length (ports s) = STP_MAX_PORTS /\ first_changed_port s = 0%nat /\
  root_port s = None /\ stp_root s = bridge_id s /\ root_path_cost s = 0.
Proof.
  unfold stp_create.
  generalize (if Z.shiftr id 48 =? 0 then Z.lor id (Z.shiftl STP_DEFAULT_BRIDGE_PRIORITY 48) else id).
  intros id' H.
  vm_compute in H. injection H as <-. split_and!; vm_compute; reflexivity.
Qed.

Lemma create_inv id s : stp_create id = Ok s -> stp_inv s /\ roles_inv s.
Proof.
  intros H. apply create_checks in H as (Hb & Hl & Hf & Hr & Hroot & Hc).
  assert (forall i, (i < STP_MAX_PORTS)%nat -> port_inv 0 i (port s i) /\ enabled (port s i) = false)
    as Hp.
  { intros i Hi. rewrite forallb_forall in Hb. apply port_invb_ok.
    assert (In i (seq 0 STP_MAX_PORTS)) as Hin by (apply in_seq; lia). by destruct (andb_prop _ _ (Hb i Hin)). }
  split; [split|].
  - split; [done|lia|]. rewrite Hf. intros i Hi. by apply Hp.
  - unfold root_inv. by rewrite Hr.
  - intros i Hi. destruct (Hp i Hi). congruence.
  - intros i Hi. destruct (Hp i Hi). congruence.
Qed.

(** ** All events *)

Lemma get_port_Ok s n i : stp_get_port s n = Ok i -> i = Z.to_nat n /\ (i < STP_MAX_PORTS)%nat.
Proof.
  unfold stp_get_port, ovs_assert. destruct (0 <=? n) eqn:E0; [|done].
  destruct (n <? _) eqn:E1; [|done]. intros [= <-]. split; [done|]. lia.
Qed.

Lemma stp_convert_speed_u16 speed : in_u16 (stp_convert_speed_to_cost speed).
Proof. unfold stp_convert_speed_to_cost, in_u16. repeat case_bool; lia. Qed.

Record run_ok (e : stp_event) (s s' : stp) : Prop := {
  ro_inv : stp_inv s';
  ro_roles : role_safe e s = true -> roles_inv s -> roles_inv s';
  ro_port : match e with
            | Tick _ => forall j, ticked (pstate (port s j)) (pstate (port s' j))
            | _ => settles s s'
            end
}.

Lemma run_ok_step e s s' : step_ok s s' -> (match e with Tick _ => False | _ => True end) -> run_ok e s s'.
Proof. intros [] He. split; [done|auto|]. by destruct e. Qed.

Lemma stp_run_ok e s s' : stp_inv s -> stp_run e s = Ok s' -> run_ok e s s'.
Proof.
  intros Hi H. destruct e; simpl in H; inv_res;
    repeat match goal with H : stp_get_port _ _ = Ok _ |- _ => apply get_port_Ok in H as [? ?] end.
  - destruct (stp_tick_ok (s32 ms) s Hi) as (? & ? & ?). by split.
  - apply run_ok_step; [by apply received_bpdu_ok|done].
  - apply run_ok_step; [by apply set_bridge_id_ok|done].
  - apply run_ok_step; [by apply set_bridge_id_ok|done].
  - apply run_ok_step; [by apply step_ok_core, with_rq_core|done].
  - apply run_ok_step; [by apply step_ok_core, with_rq_core|done].
  - apply run_ok_step; [by apply step_ok_core, with_rq_core|done].
  - destruct (port_enable_ok r s Hi) as (t & Ht & ?); [done|].
    rewrite Ht in H. injection H as ->. by apply run_ok_step.
  - apply run_ok_step; [by apply port_disable_ok|done].
  - destruct (port_set_priority_ok n r prio s Hi) as (? & ? & ?); [done..|]. by split.
  - apply run_ok_step; [apply port_set_path_cost_ok; [done|apply u16_range]|done].
  - apply run_ok_step; [apply port_set_path_cost_ok; [done|apply stp_convert_speed_u16]|done].
  - apply run_ok_step; [|done]. apply step_ok_core; [done|]. case_match; core.
  - apply run_ok_step; [|done]. apply step_ok_core; [done|]. core.
  - apply run_ok_step; [by apply get_changed_port_inv|done].
  - apply run_ok_step; [|done]. apply step_ok_core; [done|]. core.
  - apply run_ok_step; [|done]. apply step_ok_core; [done|]. apply topology_change_detection_core.
Qed.

Lemma stp_run_total e s : stp_inv s -> valid_event e = true -> exists s', stp_run e s = Ok s'.
Proof.
  intros Hi Hv. destruct e; simpl in *; unfold stp_get_port, ovs_assert; rewrite ?Hv; simpl; eauto.
  destruct (port_enable_ok (Z.to_nat n) s Hi) as (t & -> & _); [|eauto].
  apply andb_true_iff in Hv as [H1 H2]. lia.
Qed.

Lemma reachable_inv ok id s : stp_reachable ok id s -> stp_inv s.
Proof.
  induction 1 as [s H|e s s' _ IH _ H]; [by apply (create_inv id)|]. eapply ro_inv, stp_run_ok; done.
Qed.

Lemma reachable_roles id s : stp_reachable role_safe id s -> roles_inv s.
Proof.
  induction 1 as [s H|e s s' Hr IH Hok H]; [by apply (create_inv id)|].
  eapply ro_roles; [eapply stp_run_ok; [by eapply reachable_inv|done]|done|done].
Qed.
