(* ===== verification/StpNet.v ===== *)
(** * A network of bridges

    Bridges joined by point-to-point links, when the messages on the links have
    settled: the ports that are not blocking form a spanning tree. *)

From Stdlib Require Import ZArith Lia List.
From stdpp Require Import base list option.
From S2P Require Import Prelude Bytes Stp StpFacts StpInv.
#[local] Open Scope Z_scope.
#[local] Open Scope res_scope.

(** ** Fixed points of the configuration update *)

Lemma configuration_update_root s : stp_configuration_update s = s ->
  root_port s = select_root (length (ports s)) 0 s None /\
  (forall r, root_port s = Some r ->
     stp_root s = designated_root (info (port s r)) /\
     root_path_cost s = u32 (designated_cost (info (port s r)) + path_cost (port s r))).
Proof.
  intros H. pose proof (designated_selection_ports (stp_root_selection s)) as Hs.
  unfold stp_configuration_update in H. rewrite H in Hs.
  pose proof (sp_rport _ _ Hs) as E1. pose proof (sp_root _ _ Hs) as E2. pose proof (sp_cost _ _ Hs) as E3.
  unfold stp_root_selection in *.
  destruct (select_root _ _ _ _) as [r|]; simpl in *; rewrite E1; (split; [done|]); [|done].
  by intros ? [= <-].
Qed.

(** ** Networks *)

(** A link joins two ports, each given by its bridge and number. *)
Record network := Mk_network {
  bridges : list stp;
  links : list (nat * nat * (nat * nat))
}.

Definition linked (N : network) (b i b' j : nat) : Prop :=
  ((b, i), (b', j)) ∈ links N \/ ((b', j), (b, i)) ∈ links N.

Lemma linked_sym N b i b' j : linked N b i b' j -> linked N b' j b i.
Proof. intros [|]; [by right|by left]. Qed.

(** What a bridge announces on port [i]. *)
Definition announced (s : stp) (i : nat) : stp_info :=
  Mk_info (stp_root s) (s32 (root_path_cost s)) (bridge_id s) (port_id (port s i)).

(** A bridge that has nothing left to update. *)
Record calm (s : stp) : Prop := {
  cm_inv : stp_inv s;
  cm_roles : roles_inv s;
  cm_fixed : stp_configuration_update s = s;
  cm_cost : 0 <= root_path_cost s < 2 ^ 31 - 2 ^ 16;
  cm_path : forall r, root_port s = Some r -> 0 < path_cost (port s r)
}.

(** One direction of a link has settled: what a designated port announces has
    been recorded at the other end, and a port that is not designated hears
    one that is. *)
Definition settled_link (s : stp) (i : nat) (t : stp) (j : nat) : Prop :=
  enabled (port s i) = true /\
  (stp_is_designated_port s (port s i) = true -> info (port t j) = announced s i) /\
  (stp_is_designated_port s (port s i) = false -> stp_is_designated_port t (port t j) = true).

Record stable (N : network) : Prop := {
  sn_calm : forall b s, bridges N !! b = Some s -> calm s;
  sn_ids : forall b s b' s', bridges N !! b = Some s -> bridges N !! b' = Some s' ->
    bridge_id s = bridge_id s' -> b = b';
  sn_link : forall b i b' j, linked N b i b' j -> b <> b' /\ (i < STP_MAX_PORTS)%nat /\
    exists s t, bridges N !! b = Some s /\ bridges N !! b' = Some t /\ settled_link s i t j;
  sn_root : forall b s r, bridges N !! b = Some s -> root_port s = Some r ->
    exists b' j, linked N b r b' j
}.

(** [b'] is the bridge behind the root port of [b]. *)
Definition parent (N : network) (b i b' j : nat) : Prop :=
  linked N b i b' j /\ exists s, bridges N !! b = Some s /\ root_port s = Some i.

(** The way up from [b] ends at the bridge [r]. *)
Inductive climbs (N : network) (r : nat) : nat -> Prop :=
  | climbs_here s : bridges N !! r = Some s -> root_port s = None -> climbs N r r
  | climbs_up b i b' j : parent N b i b' j -> climbs N r b' -> climbs N r b.

(** Both ends of the link pass traffic, now or after their delay. *)
Definition active_link (N : network) (b i b' j : nat) : Prop :=
  linked N b i b' j /\ exists s t, bridges N !! b = Some s /\ bridges N !! b' = Some t /\
    passing (pstate (port s i)) = true /\ passing (pstate (port t j)) = true.

Section Stable.
Context (N : network) (HN : stable N).

(** A calm bridge with a root port heard something better than itself. *)
Lemma calm_root_port s r : calm s -> root_port s = Some r ->
  eligible s r /\ stp_root s = designated_root (info (port s r)) /\
  root_path_cost s = u32 (designated_cost (info (port s r)) + path_cost (port s r)).
Proof.
  intros Hc Hr. destruct (configuration_update_root s (cm_fixed _ Hc)) as [E H].
  pose proof (select_root_spec s) as Hb. rewrite <- E, Hr in Hb. destruct Hb as (_ & He & _).
  split; [done|by apply H].
Qed.

Lemma link_ends b i b' j : linked N b i b' j -> exists s t,
  bridges N !! b = Some s /\ bridges N !! b' = Some t /\ calm s /\ calm t /\ b <> b' /\
  (i < STP_MAX_PORTS)%nat /\ (j < STP_MAX_PORTS)%nat /\ settled_link s i t j /\ settled_link t j s i.
Proof.
  intros Hl. destruct (sn_link _ HN _ _ _ _ Hl) as (Hne & Hi & s & t & Hs & Ht & H1).
  destruct (sn_link _ HN _ _ _ _ (linked_sym _ _ _ _ _ Hl)) as (_ & Hj & t' & s' & Ht' & Hs' & H2).
  simplify_eq. exists s, t. split_and!; eauto using sn_calm.
Qed.

(** Never both ends of a link are designated. *)
Lemma one_designated s t i j : bridge_id s <> bridge_id t -> settled_link s i t j ->
  stp_is_designated_port s (port s i) = true -> stp_is_designated_port t (port t j) = false.
Proof.
  intros Hne (_ & H & _) Hd. unfold stp_is_designated_port. rewrite (H Hd). simpl.
  by destruct (Z.eqb_spec (bridge_id s) (bridge_id t)).
Qed.

(** The parent announced the root, at a lower cost. *)
Lemma parent_spec b i b' j : parent N b i b' j -> exists s t,
  bridges N !! b = Some s /\ bridges N !! b' = Some t /\
  stp_root t = stp_root s /\ 0 <= root_path_cost t < root_path_cost s /\
  stp_is_designated_port t (port t j) = true.
Proof.
  intros (Hl & s0 & Hs0 & Hr). destruct (link_ends _ _ _ _ Hl) as
    (s & t & Hs & Ht & Hcs & Hct & Hne & Hi & Hj & (Hen & _ & Hnd) & (_ & Hd & _)).
  rewrite Hs in Hs0. injection Hs0 as <-. exists s, t. destruct (calm_root_port s i Hcs Hr) as (He & Eroot & Ecost).
  pose proof (Hnd (el_other _ _ He)) as Hdt. rewrite (Hd Hdt) in Eroot, Ecost. simpl in *.
  split_and!; try done; [apply Hct|].
  pose proof (cm_cost _ Hct). pose proof (cm_path _ Hcs _ Hr).
  destruct (pi_cost _ _ _ (psi_port _ (si_ports _ (cm_inv _ Hcs)) i Hi)).
  rewrite Ecost, s32_small, u32_id by (unfold in_u32; lia). lia.
Qed.

(** Following root ports leads to the root bridge. *)
Lemma climb b s : bridges N !! b = Some s ->
  exists r t, climbs N r b /\ bridges N !! r = Some t /\ root_port t = None /\
    bridge_id t = stp_root s /\ stp_root t = stp_root s.
Proof.
  remember (Z.to_nat (root_path_cost s)) as n eqn:En. revert b s En.
  induction n as [n IH] using lt_wf_ind. intros b s -> Hs.
  destruct (root_port s) as [i|] eqn:Er.
  - destruct (sn_root _ HN _ _ _ Hs Er) as (b' & j & Hl).
    assert (parent N b i b' j) as Hp by (split; eauto).
    destruct (parent_spec _ _ _ _ Hp) as (s' & t & Hs' & Ht & Eroot & Hc & _).
    rewrite Hs in Hs'. injection Hs' as <-.
    destruct (IH (Z.to_nat (root_path_cost t)) ltac:(lia) b' t) as (r & u & Hcl & Hr & ? & ? & ?); [done..|].
    exists r, u. split_and!; try done; [by eapply climbs_up|congruence|congruence].
  - exists b, s. split_and!; try done; [by econstructor|].
    pose proof (si_root _ (cm_inv _ (sn_calm _ HN _ _ Hs))) as Hi. unfold root_inv in Hi.
    rewrite Er in Hi. by destruct Hi.
Qed.

Lemma linked_agree b i b' j s t : linked N b i b' j -> bridges N !! b = Some s -> bridges N !! b' = Some t ->
  stp_root s = stp_root t.
Proof.
  intros Hl Hs Ht. destruct (link_ends _ _ _ _ Hl) as
    (s0 & t0 & Hs0 & Ht0 & Hcs & Hct & _ & Hi & Hj & (Hen & Hd & Hnd) & (Hen' & Hd' & _)).
  rewrite Hs in Hs0. rewrite Ht in Ht0. injection Hs0 as <-. injection Ht0 as <-.
  destruct (stp_is_designated_port s (port s i)) eqn:E.
  - rewrite <- (si_agree _ (cm_inv _ Hct) j Hj Hen'). by rewrite (Hd eq_refl).
  - rewrite <- (si_agree _ (cm_inv _ Hcs) i Hi Hen). by rewrite (Hd' (Hnd eq_refl)).
Qed.

(** Active links are those to a parent. *)
Lemma active_iff_parent b i b' j :
  active_link N b i b' j <-> parent N b i b' j \/ parent N b' j b i.
Proof.
  assert (forall b i b' j, parent N b i b' j -> active_link N b i b' j) as Hpa.
  { clear b i b' j. intros b i b' j Hp. destruct (parent_spec _ _ _ _ Hp) as (s & t & Hs & Ht & _ & _ & Hd).
    destruct Hp as (Hl & s0 & Hs0 & Hr). split; [done|]. destruct (link_ends _ _ _ _ Hl) as
      (s1 & t1 & Hs1 & Ht1 & Hcs & Hct & _ & Hi & Hj & (Hen & _) & (Hen' & _)).
    rewrite Hs in Hs0, Hs1. rewrite Ht in Ht1. injection Hs0 as <-. injection Hs1 as <-. injection Ht1 as <-.
    exists s, t. split_and!; try done.
    - rewrite (cm_roles _ Hcs i Hi Hen). unfold in_tree. by rewrite Hr, bool_decide_true.
    - rewrite (cm_roles _ Hct j Hj Hen'). unfold in_tree. by rewrite Hd, orb_true_r. }
  split.
  - intros (Hl & s & t & Hs & Ht & Hps & Hpt). destruct (link_ends _ _ _ _ Hl) as
      (s0 & t0 & Hs0 & Ht0 & Hcs & Hct & Hne & Hi & Hj & H1 & H2).
    rewrite Hs in Hs0. rewrite Ht in Ht0. injection Hs0 as <-. injection Ht0 as <-.
    assert (bridge_id s <> bridge_id t) as Hid by (intros ?; apply Hne; eapply sn_ids; eauto).
    rewrite (cm_roles _ Hcs i Hi (proj1 H1)) in Hps. rewrite (cm_roles _ Hct j Hj (proj1 H2)) in Hpt.
    unfold in_tree in Hps, Hpt. destruct (stp_is_designated_port s (port s i)) eqn:E.
    + right. split; [by apply linked_sym|]. exists t. split; [done|].
      rewrite (one_designated s t i j Hid H1 E), orb_false_r in Hpt. by apply bool_decide_eq_true in Hpt.
    + left. split; [done|]. exists s. split; [done|]. rewrite orb_false_r in Hps.
      by apply bool_decide_eq_true in Hps.
  - intros [Hp|Hp]; [by apply Hpa|]. destruct (Hpa _ _ _ _ Hp) as (Hl & t & s & Ht & Hs & ? & ?).
    split; [by apply linked_sym|]. exists s, t. by split_and!.
Qed.
End Stable.
