(* ===== verification/StpProps.v ===== *)
(** * Properties of the spanning tree protocol

    The election, the roles and states of ports, the stable network, messages
    and timers, with a network of three bridges as the running example. *)

From Stdlib Require Import ZArith Lia List.
From stdpp Require Import base list option.
From S2P Require Import Prelude Bytes Stp StpFacts StpInv StpNet.
#[local] Open Scope Z_scope.
#[local] Open Scope res_scope.

(** ** Runs *)

(** A bridge created with identifier [id] after the events [es]. *)
Definition stp_start (id : Z) (es : list stp_event) : Res stp :=
  let* s := stp_create id in stp_run_all es s.

(** Runs that do not change port priorities. *)
Definition no_priority (e : stp_event) : bool :=
  match e with SetPriority _ _ => false | _ => true end.

Lemma run_all_reachable ok id es s s' : stp_reachable ok id s ->
  (forall e t, In e es -> ok e t = true) -> stp_run_all es s = Ok s' -> stp_reachable ok id s'.
Proof.
  revert s. induction es as [|e es IH]; simpl; intros s Hs Hok H; [by injection H as <-|]. inv_res.
  eapply IH; [|by eauto|done]. eapply reach_event; eauto.
Qed.

Lemma start_reachable ok id es s : forallb no_priority es = true ->
  (forall e t, no_priority e = true -> ok e t = true) -> stp_start id es = Ok s -> stp_reachable ok id s.
Proof.
  intros Hes Hok H. unfold stp_start in H. inv_res. eapply run_all_reachable; [by constructor| |done].
  intros e t He. apply Hok. rewrite forallb_forall in Hes. by apply Hes.
Qed.
Lemma start_any id es s : forallb no_priority es = true -> stp_start id es = Ok s -> stp_reachable any_event id s.
Proof. intros ?. by apply start_reachable. Qed.
Lemma start_safe id es s : forallb no_priority es = true -> stp_start id es = Ok s -> stp_reachable role_safe id s.
Proof. intros ?. apply start_reachable; [done|]. by intros []. Qed.

(** ** The example network

    Three bridges joined in a triangle.  Bridge 0 is the root; the link between
    the two others is blocked at bridge 2. *)
Module Triangle.
Definition no_bridge : stp :=
  let z := Mk_times 0 0 0 in
  Mk_stp 0 z z z 0 0 0 None false false no_timer no_timer no_timer [] false 0 [] 0.
Definition state (c : Res stp) : stp := match c with Ok s => s | Fault _ => no_bridge end.

(** The BPDU of the last frame sent on port [i]. *)
Definition last_bpdu (i : nat) (s : stp) : list Z :=
  match rev (filter (fun f => fst f = i) (sent s)) with [] => [] | f :: _ => drop 17 (snd f) end.

Definition events0 : list stp_event := [Enable 0; Enable 1; Tick 3000].
Definition bridge0 : stp := Eval vm_compute in state (stp_start 1 events0).
Definition events1 : list stp_event := [Enable 0; Enable 1; Receive 0 (last_bpdu 0 bridge0)].
Definition bridge1 : stp := Eval vm_compute in state (stp_start 2 events1).
Definition events2 : list stp_event :=
  [Enable 0; Enable 1; Receive 0 (last_bpdu 1 bridge0); Receive 1 (last_bpdu 1 bridge1)].
Definition bridge2 : stp := Eval vm_compute in state (stp_start 3 events2).

Lemma start0 : stp_start 1 events0 = Ok bridge0.
Proof. vm_compute. reflexivity. Qed.
Lemma start2 : stp_start 3 events2 = Ok bridge2.
Proof. vm_compute. reflexivity. Qed.







End Triangle.

(** ** The spanning tree *)



(** C31. In every state a bridge can reach, its root port is null exactly when it
    is the root bridge (at cost 0), and otherwise is an enabled port that leads
    to a bridge with a smaller identifier; all enabled ports agree on the root;
    port numbers are unique; every port is in a state of the protocol, and its
    forward delay timer runs exactly while it is listening or learning; and every
    event on an existing port returns. *)
Theorem stp_reachable_inv (id : Z) (s : stp) : stp_reachable any_event id s ->
  match root_port s with
  | None => stp_root s = bridge_id s /\ root_path_cost s = 0
  | Some r => (r < STP_MAX_PORTS)%nat /\ enabled (port s r) = true /\ stp_root s < bridge_id s
  end /\
  (forall i, (i < STP_MAX_PORTS)%nat ->
     active (forward_delay_timer (port s i)) = waiting (pstate (port s i)) /\ pstate (port s i) <> STP_UNSET /\
     (enabled (port s i) = true -> designated_root (info (port s i)) = stp_root s)) /\
  (forall i j, (i < STP_MAX_PORTS)%nat -> (j < STP_MAX_PORTS)%nat ->
     stp_port_get_id s i = stp_port_get_id s j -> i = j) /\
  (forall e, valid_event e = true -> exists s', stp_run e s = Ok s').
Proof.
  intros H. apply reachable_inv in H. split_and!; [apply H| | |].
  - intros i Hi. destruct (psi_port _ (si_ports _ H) i Hi). split; [done|]. split; [done|by apply H].
  - intros i j Hi Hj E. unfold stp_port_get_id in E.
    pose proof (pi_id _ _ _ (psi_port _ (si_ports _ H) i Hi)).
    pose proof (pi_id _ _ _ (psi_port _ (si_ports _ H) j Hj)). rewrite E in *. lia.
  - intros e. by apply stp_run_total.
Qed.

Lemma stp_reachable_inv_witness :
  root_port Triangle.bridge2 = Some 0%nat /\ stp_root Triangle.bridge2 < bridge_id Triangle.bridge2 /\
  exists s', stp_run (Disable 0) Triangle.bridge2 = Ok s'.
Proof.
  destruct (stp_reachable_inv 3 Triangle.bridge2) as (H1 & _ & _ & H4).
  { apply (start_any _ Triangle.events2); [reflexivity|apply Triangle.start2]. }
  split; [vm_compute; reflexivity|]. split; [|by apply H4].
  change (root_port Triangle.bridge2) with (Some 0%nat) in H1. apply H1.
Defined.

(** C32. In every state reached without giving a port the number that another
    port of the same bridge announced on its segment, an enabled port passes
    traffic (or waits to) if it is the root port or designated, and is blocking
    otherwise. *)
Theorem stp_roles_hold (id : Z) (s : stp) (i : nat) : stp_reachable role_safe id s ->
  (i < STP_MAX_PORTS)%nat ->
  match stp_port_get_state s i with
  | STP_DISABLED => True
  | STP_BLOCKING => root_port s <> Some i /\ stp_is_designated_port s (port s i) = false
  | _ => root_port s = Some i \/ stp_is_designated_port s (port s i) = true
  end.
Proof.
  intros H Hi. pose proof (pi_set _ _ _ (psi_port _ (si_ports _ (reachable_inv _ _ _ H)) i Hi)) as Hset.
  apply reachable_roles in H. specialize (H i Hi). unfold in_tree, enabled in H.
  unfold stp_port_get_state. destruct (pstate (port s i)); [done|done|..]; specialize (H eq_refl); symmetry in H;
    [rewrite orb_true_iff, bool_decide_eq_true in H; done..|].
  by rewrite orb_false_iff, bool_decide_eq_false in H.
Qed.

Lemma stp_roles_hold_witness :
  stp_port_get_state Triangle.bridge2 1 = STP_BLOCKING /\
  root_port Triangle.bridge2 <> Some 1%nat /\
  stp_is_designated_port Triangle.bridge2 (port Triangle.bridge2 1) = false.
Proof.
  split; [vm_compute; reflexivity|].
  apply (stp_roles_hold 3 Triangle.bridge2 1).
  - apply (start_safe _ Triangle.events2); [reflexivity|apply Triangle.start2].
  - vm_compute. lia.
Defined.

(** C33. No event takes a port to forwarding unless it was forwarding before, or
    the event is a tick and the port was learning: a port cannot skip the
    listening and learning delays. *)
Theorem stp_forwarding_from_learning (id : Z) (e : stp_event) (s s' : stp) (j : nat) :
  stp_reachable any_event id s -> stp_run e s = Ok s' -> stp_port_get_state s' j = STP_FORWARDING ->
  stp_port_get_state s j = STP_FORWARDING \/
  (stp_port_get_state s j = STP_LEARNING /\ exists ms, e = Tick ms).
Proof.
  intros Hs H Hf. apply reachable_inv in Hs. pose proof (ro_port _ _ _ (stp_run_ok _ _ _ Hs H)) as Hp.
  unfold stp_port_get_state in *.
  destruct e; try (destruct (Hp j) as [E|[E|[E|E]]]; rewrite Hf in E; [left; congruence|done..]).
  destruct (Hp j Hf); [right|left]; eauto.
Qed.

(** Bridge 0 after two forward delays. *)
Definition learning0 : Res stp := stp_run (Tick 15000) Triangle.bridge0.

Lemma stp_forwarding_from_learning_witness : exists s s',
  learning0 = Ok s /\ stp_run (Tick 15000) s = Ok s' /\ stp_port_get_state s' 0 = STP_FORWARDING /\
  (stp_port_get_state s 0 = STP_FORWARDING \/
   (stp_port_get_state s 0 = STP_LEARNING /\ exists ms, Tick 15000 = Tick ms)).
Proof.
  exists (Triangle.state learning0), (Triangle.state (stp_run (Tick 15000) (Triangle.state learning0))).
  assert (learning0 = Ok (Triangle.state learning0)) as E by (vm_compute; reflexivity).
  split; [exact E|]. split; [vm_compute; reflexivity|]. split; [vm_compute; reflexivity|].
  apply (stp_forwarding_from_learning 1 (Tick 15000) _
    (Triangle.state (stp_run (Tick 15000) (Triangle.state learning0))) 0).
  - eapply reach_event; [|reflexivity|exact E].
    apply (start_any _ Triangle.events0); [reflexivity|apply Triangle.start0].
  - vm_compute; reflexivity.
  - vm_compute; reflexivity.
Defined.

(** Root selection takes the best of the eligible ports (enabled, not
    designated, with a root better than this bridge): none is eligible when the
    bridge becomes the root, and no eligible port offers a smaller vector of
    root, cost, bridge, port and own number than the port chosen. *)
Theorem stp_root_selection_best (s : stp) :
  let s' := stp_root_selection s in
  ports s' = ports s /\ bridge_id s' = bridge_id s /\
  match root_port s' with
  | None => stp_root s' = bridge_id s /\ root_path_cost s' = 0 /\ forall j, ~ eligible s j
  | Some r =>
      eligible s r /\ stp_root s' = designated_root (info (port s r)) /\
      root_path_cost s' = u32 (designated_cost (info (port s r)) + path_cost (port s r)) /\
      forall j, eligible s j -> ~ lex_lt (root_vector (port s j)) (root_vector (port s r))
  end.
Proof.
  cbv zeta. pose proof (select_root_spec s) as H. unfold stp_root_selection.
  destruct (select_root _ _ _ _) as [r|]; cbn [best set_root root_port stp_root root_path_cost ports bridge_id] in *.
  - destruct H as (_ & He & H). split_and!; try done. intros j Hj. rewrite <- supersedes_root_lex.
    rewrite H; [done|apply Hj|done].
  - split_and!; try done. intros j Hj. apply (H j); [apply Hj|done].
Qed.

(** ** Messages *)

Record config_fits (c : stp_config_bpdu) : Prop := {
  cf_flags : in_u8 (flags c);
  cf_root : in_u64 (c_root_id c);
  cf_cost : in_u32 (c_root_path_cost c);
  cf_bridge : in_u64 (c_bridge_id c);
  cf_port : in_u16 (c_port_id c);
  cf_age : in_u16 (c_message_age c);
  cf_times : in_u16 (max_age (c_times c)) /\ in_u16 (hello_time (c_times c)) /\
             in_u16 (forward_delay (c_times c))
}.

(** The nine fields of the packed structure after its header. *)
Lemma config_bytes_fields c :
  let fs := [bpdu_header STP_TYPE_CONFIG; [flags c]; be64_bytes (c_root_id c); be32_bytes (c_root_path_cost c);
    be64_bytes (c_bridge_id c); be16_bytes (c_port_id c); be16_bytes (c_message_age c);
    be16_bytes (max_age (c_times c)); be16_bytes (hello_time (c_times c));
    be16_bytes (forward_delay (c_times c))] in
  forall k f, fs !! k = Some f ->
    be_field (config_bytes c) (length (concat (take k fs))) (length f) = be_value f.
Proof.
  intros fs k f Hk.
  assert (config_bytes c = concat fs) as -> by reflexivity.
  rewrite <- (take_drop_middle _ _ _ Hk) at 1. rewrite concat_app. simpl. by apply be_field_app.
Qed.

Lemma parse_config_bytes c : config_fits c -> parse_config (config_bytes c) = c.
Proof.
  intros [Hf Hr Hc Hb Hp Ha (Hm & Hh & Hd)]. pose proof (config_bytes_fields c) as H. cbv zeta in H.
  unfold parse_config. destruct c as [fl root cost bridge pid age [ma he fd]]. simpl in *.
  pose proof (H 1%nat _ eq_refl) as E1. pose proof (H 2%nat _ eq_refl) as E2.
  pose proof (H 3%nat _ eq_refl) as E3. pose proof (H 4%nat _ eq_refl) as E4.
  pose proof (H 5%nat _ eq_refl) as E5. pose proof (H 6%nat _ eq_refl) as E6.
  pose proof (H 7%nat _ eq_refl) as E7. pose proof (H 8%nat _ eq_refl) as E8.
  pose proof (H 9%nat _ eq_refl) as E9. simpl length in *.
  rewrite E1, E2, E3, E4, E5, E6, E7, E8, E9.
  by rewrite !be_value_16, be_value_32, !be_value_64.
Qed.

Lemma received_config_bytes c i s : config_fits c -> enabled (port s i) = true ->
  stp_received_bpdu i (config_bytes c) s =
    upd_port i (fun p => set_counts (tx_count p) (s32 (rx_count p + 1)) (error_count p) p)
      (stp_received_config_bpdu i c s).
Proof.
  intros Hc He. unfold stp_received_bpdu. rewrite He. simpl negb.
  change (length (config_bytes c)) with 35%nat.
  change (be_field (config_bytes c) 0 2) with 0. change (be_field (config_bytes c) 3 1) with 0.
  simpl. by rewrite parse_config_bytes.
Qed.

(** Whether [stp_transmit_config] sends a message on port [i] now. *)
Definition transmits (s : stp) (i : nat) : bool :=
  (stp_is_root_bridge s || match root_port s with Some _ => true | None => false end)
  && negb (active (hold_timer (port s i)))
  && (c_message_age (stp_config_message s (port s i)) <? max_age (times s)).

Lemma transmit_config_sent s i : transmits s i = true ->
  sent (stp_transmit_config i s) = sent s ++ [(i, frame (config_bytes (stp_config_message s (port s i))))].
Proof.
  unfold transmits. rewrite !andb_true_iff, negb_true_iff. intros [[Hr Hh] Ha].
  unfold stp_transmit_config. rewrite Hh, Ha.
  by destruct (stp_is_root_bridge s), (root_port s).
Qed.

(** C34. A configuration message travels intact: when bridge [a] sends a message
    on port [i], the frame it hands to the client carries 35 bytes behind the
    Ethernet and LLC headers, and bridge [b] receiving these bytes on an enabled
    port acts on exactly the root, cost, identifiers, ages and flags that [a]
    announced. *)
Theorem bpdu_transmit_receive (a b : stp) (i j : nat) :
  transmits a i = true -> config_fits (stp_config_message a (port a i)) -> enabled (port b j) = true ->
  exists f, sent (stp_transmit_config i a) = sent a ++ [(i, f)] /\ length (drop 17 f) = 35%nat /\
    stp_received_bpdu j (drop 17 f) b =
      upd_port j (fun p => set_counts (tx_count p) (s32 (rx_count p + 1)) (error_count p) p)
        (stp_received_config_bpdu j (stp_config_message a (port a i)) b).
Proof.
  intros Ht Hc He. eexists. split; [by apply transmit_config_sent|]. split; [reflexivity|].
  rewrite <- received_config_bytes by done. reflexivity.
Qed.

Definition ready0 : stp := Triangle.state (stp_run (Tick 1000) Triangle.bridge0).

Lemma bpdu_transmit_receive_witness : exists f,
  sent (stp_transmit_config 0 ready0) = sent ready0 ++ [(0%nat, f)] /\ length (drop 17 f) = 35%nat /\
  stp_received_bpdu 1 (drop 17 f) Triangle.bridge1 =
    upd_port 1 (fun p => set_counts (tx_count p) (s32 (rx_count p + 1)) (error_count p) p)
      (stp_received_config_bpdu 1 (stp_config_message ready0 (port ready0 0)) Triangle.bridge1).
Proof.
  apply (bpdu_transmit_receive ready0 Triangle.bridge1 0 1).
  - vm_compute. reflexivity.
  - split; vm_compute; repeat split; done.
  - vm_compute. reflexivity.
Defined.

(** ** Changed ports *)

(** The ports a client gets by asking for changed ports until there is none. *)
Fixpoint drain_changed (fuel : nat) (s : stp) : list nat * stp :=
  match fuel with
  | O => ([], s)
  | S fuel =>
      match stp_get_changed_port s with
      | (Some i, s') => let '(l, s'') := drain_changed fuel s' in (i :: l, s'')
      | (None, s') => ([], s')
      end
  end.

Lemma filter_changed_none s i n : (forall j, (i <= j < i + n)%nat -> state_changed (port s j) = false) ->
  List.filter (fun k => state_changed (port s k)) (seq i n) = [].
Proof.
  revert i. induction n as [|n IH]; intros i H; simpl; [done|].
  rewrite H by lia. apply IH. intros; apply H; lia.
Qed.

Lemma drain_changed_spec fuel s : stp_inv s -> (STP_MAX_PORTS - first_changed_port s < fuel)%nat ->
  drain_changed fuel s =
    (List.filter (fun k => state_changed (port s k))
       (seq (first_changed_port s) (STP_MAX_PORTS - first_changed_port s)),
     snd (drain_changed fuel s)) /\
  forall j, (j < STP_MAX_PORTS)%nat -> state_changed (port (snd (drain_changed fuel s)) j) = false.
Proof.
  revert s. induction fuel as [|fuel IH]; intros s Hi Hf; [lia|].
  cbn [drain_changed].
  pose proof (ok_inv _ _ (get_changed_port_inv s Hi)) as Hi'.
  pose proof (si_ports _ Hi) as [Hl Hfi Hp]. unfold stp_get_changed_port in *. rewrite Hl in *.
  pose proof (find_changed_spec (STP_MAX_PORTS - first_changed_port s) (first_changed_port s) s) as H.
  destruct (find_changed _ _ _) as [k|]; cbn [fst snd] in *.
  - destruct H as (Hk & Hc & Hno).
    set (t := set_ports _ (S k) _) in *. destruct (IH t Hi') as [E Hz]; [unfold t; cbn [first_changed_port set_ports]; lia|].
    rewrite E. cbn [fst snd]. split; [|done]. f_equal.
    replace (STP_MAX_PORTS - first_changed_port s)%nat with
      ((k - first_changed_port s) + S (STP_MAX_PORTS - S k))%nat by lia.
    rewrite seq_app, List.filter_app, (filter_changed_none s (first_changed_port s))
      by (intros; apply Hno; lia). cbn [seq List.filter app].
    replace (first_changed_port s + (k - first_changed_port s))%nat with k by lia. rewrite Hc. f_equal.
    apply List.filter_ext_in. intros j Hj. apply in_seq in Hj. unfold t.
    change (state_changed (port (upd_port k (fun p => set_pstate (pstate p) false p) s) j) =
      state_changed (port s j)). by rewrite port_upd_ne by lia.
  - split; [f_equal; symmetry; by apply filter_changed_none|]. intros j Hj.
    change (state_changed (port s j) = false).
    destruct (decide (j < first_changed_port s)%nat); [|apply H; lia].
    destruct (state_changed (port s j)) eqn:Ec; [|done]. apply (pi_changed _ _ _ (Hp j Hj)) in Ec. lia.
Qed.

(** C35. Asking a reachable bridge for changed ports until it answers that there
    is none ends after at most 256 questions and names every port whose state
    changed since it was last named, each once and in order.  Ports that were
    never named count from the zeroed memory of a new bridge ([create_drain]). *)
Theorem stp_changed_drain (id : Z) (s : stp) : stp_reachable any_event id s ->
  fst (drain_changed 256 s) = List.filter (fun k => state_changed (port s k)) (seq 0 STP_MAX_PORTS) /\
  forall j, (j < STP_MAX_PORTS)%nat -> state_changed (port (snd (drain_changed 256 s)) j) = false.
Proof.
  intros H. apply reachable_inv in H. destruct (drain_changed_spec 256 s H) as [E Hz].
  { unfold STP_MAX_PORTS. lia. }
  split; [|done]. rewrite E. simpl fst. pose proof (si_ports _ H) as [_ Hf Hp].
  replace STP_MAX_PORTS with (first_changed_port s + (STP_MAX_PORTS - first_changed_port s))%nat at 2 by lia.
  rewrite seq_app, List.filter_app, (filter_changed_none s 0); [done|].
  intros j Hj. destruct (state_changed (port s j)) eqn:Ec; [|done].
  apply (pi_changed _ _ _ (Hp j ltac:(lia))) in Ec. lia.
Qed.

(** A bridge as it is created reports every port: initialization changes their
    states from that of zeroed memory to disabled. *)
Lemma create_drain id s : stp_create id = Ok s -> fst (drain_changed 256 s) = seq 0 STP_MAX_PORTS.
Proof.
  intros H. apply create_checks in H as H'. destruct H' as (Hb & Hl & Hf & _). apply create_inv in H as [Hi _].
  destruct (drain_changed_spec 256 s Hi) as [E _]; [rewrite Hf; unfold STP_MAX_PORTS; lia|].
  rewrite E, Hf. cbn [fst]. rewrite Nat.sub_0_r. apply forallb_filter_id. rewrite forallb_forall in Hb |- *.
  intros k Hk. by destruct (andb_prop _ _ (Hb k Hk)).
Qed.

(** All ports are reported to the first client that asks; of a bridge whose client
    has asked, the two ports that have been enabled since. *)
Definition asked_events : list stp_event := repeat GetChangedPort 256 ++ Triangle.events2.
Definition asked_bridge : stp := Eval vm_compute in Triangle.state (stp_start 3 asked_events).
Lemma start_asked : stp_start 3 asked_events = Ok asked_bridge.
Proof. vm_compute. reflexivity. Qed.

Lemma stp_changed_drain_witness :
  fst (drain_changed 256 Triangle.bridge2) = seq 0 STP_MAX_PORTS /\ fst (drain_changed 256 asked_bridge) = [0%nat; 1%nat].
Proof.
  rewrite (proj1 (stp_changed_drain 3 Triangle.bridge2
    (start_any _ Triangle.events2 _ eq_refl Triangle.start2))).
  rewrite (proj1 (stp_changed_drain 3 asked_bridge (start_any _ asked_events _ eq_refl start_asked))).
  split; vm_compute; reflexivity.
Defined.

(** ** Timers *)

Lemma ms_to_timer_small ms : 0 <= ms <= 40000 -> ms_to_timer ms = ms * 0x100 / 1000.
Proof.
  intros H. unfold ms_to_timer. rewrite s32_small by lia. apply Z.quot_div_nonneg; lia.
Qed.

Lemma clamp_spec x lo hi : lo <= hi -> lo <= clamp x lo hi <= hi.
Proof. intros H. unfold clamp. repeat case_bool; lia. Qed.

(** The times in milliseconds. *)
Lemma bridge_times_ms_spec rq :
  let t := bridge_times_ms rq in
  1000 <= hello_time t <= 10000 /\ 6000 <= max_age t <= 40000 /\ 4000 <= forward_delay t <= 30000 /\
  2 * (hello_time t + 1000) <= max_age t /\ max_age t - 1 <= 2 * (forward_delay t - 1000).
Proof.
  cbv zeta. unfold bridge_times_ms. cbn [hello_time max_age forward_delay].
  pose proof (clamp_spec (hello_time rq) 1000 10000 ltac:(lia)) as Hh.
  set (ht := clamp (hello_time rq) _ _) in *.
  pose proof (clamp_spec (max_age rq) (Z.max (2 * (ht + 1000)) 6000) 40000 ltac:(lia)) as Hm.
  set (ma := clamp (max_age rq) _ _) in *.
  assert (3000 <= ma / 2 <= 20000 /\ ma - 1 <= 2 * (ma / 2)) as [? ?] by zdm.
  pose proof (clamp_spec (forward_delay rq) (ma / 2 + 1000) 30000 ltac:(lia)) as Hf.
  lia.
Qed.

(** C36. Whatever times the user asks for, the times a bridge uses as the root
    (in units of 1/256 second) are in the ranges of the standard, and satisfy
    its relations between maximum age and hello time exactly and between
    forward delay and maximum age up to two units, which rounding costs. *)
Theorem stp_bridge_times_bounds (s : stp) :
  let t := bridge_times (stp_update_bridge_timers s) in
  256 <= hello_time t <= 2560 /\ 1536 <= max_age t <= 10240 /\ 1024 <= forward_delay t <= 7680 /\
  2 * (hello_time t + 256) <= max_age t /\ max_age t - 2 <= 2 * (forward_delay t - 256) /\
  (stp_is_root_bridge s = true -> times (stp_update_bridge_timers s) = t).
Proof.
  cbv zeta. unfold stp_update_bridge_timers.
  destruct (bridge_times_ms_spec (rq_times s)) as (Hh & Hm & Hf & H1 & H2).
  set (t := bridge_times_ms (rq_times s)) in *. clearbody t. simpl.
  rewrite !ms_to_timer_small by lia.
  split_and!; try zdm. by intros ->.
Qed.

(** A maximum age of 6001 ms and a forward delay of 4000 ms are accepted, although
    twice the delay less a second is 6000 ms. *)
Theorem forward_delay_too_short :
  let t := bridge_times_ms (Mk_times 6001 2000 4000) in
  max_age t = 6001 /\ forward_delay t = 4000 /\ 2 * (forward_delay t - 1000) < max_age t.
Proof. vm_compute. auto. Qed.

(** The clock of a root bridge that is run every 3 ms: its first hello, due
    after 2000 ms, is sent after 1539 ms, because the milliseconds kept for the
    next call are rounded up. *)
Theorem stp_tick_runs_fast :
  match stp_start 1 (Enable 0 :: repeat (Tick 3) 513) with Ok s => length (sent s) = 1%nat | _ => False end.
Proof. vm_compute. reflexivity. Qed.

(** The clock goes back when 8388608 ms have passed since the last call, although
    the argument is clamped against overflow: the hello timer becomes negative
    and no hello is sent. *)
Theorem stp_tick_overflow :
  match stp_start 1 [Enable 0; Tick 8388608; Tick 60000] with
  | Ok s => value (hello_timer s) = -2132124 /\ sent s = []
  | _ => False
  end.
Proof. vm_compute. auto. Qed.

(** ** Roles *)

(** Ports that are not enabled keep what they know. *)
Lemma designated_selection_disabled s i : enabled (port s i) = false ->
  port (stp_designated_port_selection s) i = port s i.
Proof.
  intros He. assert (enabled (port (stp_designated_port_selection s) i) = false /\
    port (stp_designated_port_selection s) i = port s i) as [_ H]; [|done].
  unfold stp_designated_port_selection. match goal with |- context [for_each_enabled ?b s] =>
    apply (for_each_enabled_inv (fun t => enabled (port t i) = false /\ port t i = port s i) b) end; [done|].
  intros k t _ Hk [Ht1 Ht2]. cbv beta zeta. case_match; [|done].
  unfold stp_become_designated_port. rewrite port_upd_ne by congruence. done.
Qed.

Lemma root_selection_port s i : port (stp_root_selection s) i = port s i.
Proof. unfold stp_root_selection. by destruct (select_root _ _ _ _). Qed.

Lemma port_disable_port i s : stp_inv s -> (i < STP_MAX_PORTS)%nat -> enabled (port s i) = true ->
  let s' := stp_port_disable i s in
  pstate (port s' i) = STP_DISABLED /\ stp_is_designated_port s' (port s' i) = true.
Proof.
  intros Hi Hlt He. cbv zeta. unfold stp_port_disable. rewrite He. cbv zeta.
  pose proof (become_designated_ports i s (si_ports _ Hi)) as Hp.
  set (t := stp_become_designated_port i s) in *.
  assert (i < length (ports t))%nat as Hlt' by by rewrite (psi_len _ Hp).
  pose proof (set_port_state_info i STP_DISABLED t Hlt') as Hst.
  match goal with |- context [stp_configuration_update ?x] => set (u := x) end.
  assert (ports_inv u) as Hpu by by apply set_port_state_inv; [apply ports_inv_but|..].
  assert (pstate (port u i) = STP_DISABLED /\ info (port u i) =
    Mk_info (stp_root s) (s32 (root_path_cost s)) (bridge_id s) (port_id (port u i))) as [Hu1 Hu2].
  { unfold u. rewrite port_upd_eq by by rewrite (ss_len _ _ Hst).
    rewrite set_port_state_port, decide_True by done. unfold t, stp_become_designated_port.
    by rewrite port_upd_eq by by rewrite (psi_len _ (si_ports _ Hi)). }
  assert (bridge_id u = bridge_id s) as Hid by apply (ss_id _ _ Hst).
  set (v := stp_configuration_update u).
  assert (port v i = port u i /\ bridge_id v = bridge_id u) as [Hv1 Hv2].
  { unfold v, stp_configuration_update. split.
    - rewrite designated_selection_disabled by (unfold enabled; by rewrite root_selection_port, Hu1).
      apply root_selection_port.
    - rewrite (sp_id _ _ (designated_selection_ports _)). unfold stp_root_selection. by case_match. }
  pose proof (si_ports _ (configuration_update_inv u Hpu)) as Hpv. fold v in Hpv.
  destruct (port_state_selection_spec v Hpv) as (Hw & _ & Hw1). set (w := stp_port_state_selection v) in *.
  match goal with |- context [upd_port i (set_aux None) ?x] => set (x' := upd_port i (set_aux None) x) end.
  assert (same_core w x') as Hx.
  { etrans; [apply become_root_if|]. by apply same_core_upd. }
  split.
  - destruct (pcore_eq _ _ (sc_port _ _ Hx i)) as (_ & _ & _ & -> & _). by rewrite Hw1, Hv1, Hu1 by done.
  - rewrite (same_core_designated _ _ _ Hx), (same_info_designated _ _ _ Hw).
    unfold stp_is_designated_port. rewrite Hv1, Hu2, Hv2, Hid. simpl. by rewrite !Z.eqb_refl.
Qed.

(** A port that has just been disabled reports the role of a designated
    port, not of a disabled one: [stp_port_disable] makes it designated, and
    [stp_port_get_role] looks at that first. *)
Theorem stp_disabled_role (id n : Z) (s : stp) : stp_reachable any_event id s ->
  0 <= n < 255 -> enabled (port s (Z.to_nat n)) = true ->
  exists s', stp_run (Disable n) s = Ok s' /\ stp_port_get_state s' (Z.to_nat n) = STP_DISABLED /\
    stp_port_get_role s' (Z.to_nat n) = STP_ROLE_DESIGNATED.
Proof.
  intros H Hn He. apply reachable_inv in H. assert (Z.to_nat n < STP_MAX_PORTS)%nat as Hlt
    by (unfold STP_MAX_PORTS; lia).
  assert (valid_event (Disable n) = true) as Hv by (simpl; lia).
  destruct (stp_run_total _ _ H Hv) as [s' Hs']. exists s'. split; [done|].
  pose proof (ro_inv _ _ _ (stp_run_ok _ _ _ H Hs')) as Hi. simpl in Hs'. inv_res.
  match goal with Hg : stp_get_port _ _ = Ok ?r |- _ => apply get_port_Ok in Hg as [-> _] end.
  destruct (port_disable_port _ _ H Hlt He) as [H1 H2]. cbv zeta in *.
  split; [done|]. unfold stp_port_get_role. rewrite H2.
  pose proof (si_root _ Hi) as Hr. unfold root_inv in Hr. destruct (root_port _) as [r|]; [|done].
  destruct (Z.eqb_spec (port_id (port (stp_port_disable (Z.to_nat n) s) r))
    (port_id (port (stp_port_disable (Z.to_nat n) s) (Z.to_nat n)))) as [E|]; [|done].
  destruct Hr as (Hrl & Hre & _). pose proof (pi_id _ _ _ (psi_port _ (si_ports _ Hi) r Hrl)) as E1.
  pose proof (pi_id _ _ _ (psi_port _ (si_ports _ Hi) (Z.to_nat n) Hlt)) as E2. rewrite E in E1.
  assert (r = Z.to_nat n) as -> by lia. unfold enabled in Hre. by rewrite H1 in Hre.
Qed.

Lemma stp_disabled_role_witness : exists s',
  stp_run (Disable 0) Triangle.bridge2 = Ok s' /\ stp_port_get_state s' 0 = STP_DISABLED /\
  stp_port_get_role s' 0 = STP_ROLE_DESIGNATED.
Proof.
  apply (stp_disabled_role 3 0 Triangle.bridge2).
  - apply (start_any _ Triangle.events2); [reflexivity|apply Triangle.start2].
  - lia.
  - vm_compute. reflexivity.
Defined.

(** A message that announces root 1 at cost [cost], from bridge [bridge]. *)
Definition offer (cost bridge : Z) : list Z :=
  config_bytes (Mk_config 0 1 cost bridge 0x8001 0 (Mk_times 5120 512 3840)).

Definition root_port_designated (es : list stp_event) : bool :=
  match stp_start 2 es with
  | Ok s => match root_port s with Some r => stp_is_designated_port s (port s r) | None => false end
  | Fault _ => false
  end.

(** The root port also becomes designated, and so announces the root to the
    bridge it heard it from, when the announced cost overflows as the cost of
    the port is added, or when that cost is 0 and the other bridge has a larger
    identifier. *)
Theorem root_port_can_be_designated :
  root_port_designated [Enable 0; Receive 0 (offer (2 ^ 32 - 1) 1)] = true /\
  root_port_designated [Enable 0; SetPathCost 0 0; Receive 0 (offer 0 (2 ^ 64 - 1))] = true /\
  root_port_designated [Enable 0; Receive 0 (offer 0 (2 ^ 64 - 1))] = false.
Proof. vm_compute. auto. Qed.
